(* ===== verification/_CoqProject ===== *)
-Q . S2P
Prelude.v
Number.v
NumberOrder.v
NumberError.v
HttpStatusRules.v
FlowData.v
FlowGraph.v
FlowProps.v
FlowSankey.v
Regex.v
Json.v
JsonPretty.v
JsonObject.v
BillingExpr.v
BillingProps.v
TierExpr.v
Playground.v
PlayStream.v
PlayProps.v
MessageProps.v
PlayStorage.v
StorageProps.v
PlayState.v
ChannelMapping.v
PricingFormat.v
PricingSnapshots.v
PricingEditor.v
PricingProps.v
UpstreamSync.v
UpstreamProps.v
GroupRatio.v
GroupRules.v
GroupProps.v
GroupRuleProps.v
ParamOverride.v
ParamRoundtrip.v
ParamProps.v
AdvancedCustom.v
AdvancedProps.v
ChannelForm.v
ChannelFormProps.v
ChannelRoundtrip.v
Currency.v
AccountForms.v
AccountProps.v
PriceList.v
PriceListProps.v
Pagination.v
NavModules.v
NavProps.v
SettingsForm.v
SettingsProps.v
TableState.v
TableProps.v
ChannelList.v
ChannelListProps.v
ChannelActions.v
ChannelActionProps.v
ChannelDialogs.v
ChannelDialogProps.v
ToolPrices.v
DashboardCharts.v
ChartProps.v
TierRoundtrip.v
TieredEditor.v
TieredProps.v
Notifications.v
ApiClient.v
Verification.v
Wallet.v
WalletProps.v
