(* ===== verification/Prelude.v ===== *)
(** * Verification of the QAPI web console

    QAPI is a gateway in front of model providers.  Its web console
    ([web/default/src], TypeScript and React) is where administrators configure
    channels, prices and rules, read usage statistics, and where users try models.
    This library models the console's own logic - the functions under [lib] and
    [features/*/lib], the hooks that keep state, and the handlers of the price
    editor - and proves what that logic promises.  Paths below are relative to
    [src/web/default/src].

    ** Parts of the program and how they interact

    - The *playground* ([features/playground]) is a chat page.  Its hooks keep the
      conversation, one streamed or plain request, a buffer of chunks with a flush
      timer, and a debounced copy of the conversation in the local storage.  Messages
      are built and updated by pure functions ([lib/message]); requests go through
      [lib/streaming], storage through [lib/storage].
    - The *dashboard flow* ([features/dashboard/lib/flow.ts]) turns usage rows into
      paths over visible stages, the paths into a graph of nodes and links, and the
      graph into the data of a Sankey chart.
    - *Billing expressions* ([features/pricing/lib]) are texts with price tiers and
      request rules.  The rule editor prints and reads them ([billing-expr.ts]), the
      tier editor recognises and regenerates them ([tier-expr.ts]), and the price
      editor stores them.
    - The *model prices* ([features/system-settings/models]) are ten settings, each a
      JSON text from model name to value.  The price editor reads them into snapshots
      and rows, edits one model in a panel, writes the ten texts back, and a save
      sends the settings that changed.  The *upstream sync* ([upstream-ratio-sync.tsx]
      with its table) fetches the prices of other gateways, lets values be chosen and
      writes the same ten settings.  The *group editors*
      ([group-ratio-visual-editor.tsx], [group-special-usable-editor.tsx]) edit the
      settings of user groups.
    - *Channels* ([features/channels/lib]) check a channel's model mapping and status
      code mapping before it is saved; the *parameter override editor*
      ([param-override-editor-dialog.tsx]) edits the rules that rewrite a channel's
      requests, as a list of rules or as JSON; *advanced custom channels*
      ([advanced-custom.ts] and its dialog) map incoming paths to upstream paths; the
      *form* ([channel-form.ts]) spreads a channel over fields, checks them, and
      builds the requests, with both of these texts among its fields;
      *status code rules*
      ([lib/http-status-code-rules.ts]) parse and normalise sets of status codes.
    - The *price list* of users ([features/pricing]) filters and sorts the models, keeps
      the filters in one state, counts models per filter in its side bar, shows prices by
      token, request, group or tier (it reads the billing expressions) and shows pages of
      cards.
    - *Currency* ([lib/currency.ts], [lib/format.ts]) turns quota units into amounts of
      the configured currency and back, with a configuration that comes from the status
      of the server.  The *account forms* enter and show quotas through it: redemption
      codes, token sales, users, the transfer of rewards and the quota dialog.
    - The *navigation* settings are two JSON texts that the settings page writes and that
      the pages, the route guards, the top bar and the side bar each read with a parser
      of their own; a user can hide entries of the side bar.
    - The *settings forms* share a hook ([use-settings-form.ts]) that spreads dotted names
      into nested objects, follows the values of the server and sends what changed.
    - The *tables* of the console keep their page, search text and filters in the URL
      ([hooks/use-table-url-state.ts]) and the visible columns in the local storage
      ([use-data-table.ts]).
    - The *channel list* ([channel-utils.ts] and its neighbours) labels channels, groups
      them by tag and cleans key lists; the *channel actions* ([channel-actions.ts] over
      [api.ts]) send requests and report their outcome; two *dialogs* manage the keys of a
      channel and the updates of its models, with answers that arrive in any order.
    - *Tool prices* ([tool-price-settings.tsx]) are edited as rows or as JSON.
    - The *dashboard charts* ([features/dashboard/lib/charts.ts]) sum usage by time, model
      and user and rank both; preferences and queries are those of [filters.ts].
    - The *tiered price editor* ([tiered-pricing-editor.tsx]) edits the billing expression
      of a model as tiers and rules or as text; four effects keep it and the panel of the
      price editor in step.
    - The *HTTP client* ([lib/api.ts]) shares identical requests under way and reports
      errors; *secure verification* ([features/auth/secure-verification], used by the
      channel drawer and the card for passkeys) runs a refused action after a code or a
      passkey; *notifications* ([hooks/use-notifications.ts] over a store) remember what
      was read.
    - The *wallet* ([features/wallet]) reads the configuration of top-ups, asks for prices
      and payments, redeems codes and shows the history of payments.

    ** Files

    Foundations, the language and its library as the sources use them:
    - [Prelude]: strings as lists of 16-bit units, [trim], [split], [join], maps and sets
      in insertion order, the stable sort, the collation as a class with its laws,
      shared lemmas, the hint and rewrite databases;
    - [Number]: binary64 numbers on the Standard Library's [SpecFloat], [Number(s)],
      [parseFloat], [String(x)], [toFixed], [Math.round]; [NumberOrder] (comparisons as
      comparisons of exact values) and [NumberError] (bounds on the error of products,
      quotients and roundings, as inequalities of integers);
    - [Regex]: a backtracking matcher with the language's order of alternatives;
    - [Json], [JsonPretty], [JsonObject]: [JSON.parse], [JSON.stringify] with and without
      indentation, objects in enumeration order and their updates, [safeJsonParse] of
      [features/system-settings/utils/json-parser.ts], and the round trips.

    Components, model first, then theorems:
    - [HttpStatusRules]: [lib/http-status-code-rules.ts], whole file, and its theorems;
    - [FlowData], [FlowGraph], [FlowSankey]: [flow.ts], [flow-selection.ts] and the types
      of the dashboard; [FlowProps] has the theorems about the graph;
    - [BillingExpr], [BillingProps], [TierExpr]: [billing-expr.ts] and [tier-expr.ts];
    - [Playground] (messages), [PlayStream] (requests and the session as a step relation
      over user actions, source events, the timer and resumed requests), [PlayStorage]
      (storage), [PlayState] (the page state hook as a machine with two timers), with
      [PlayProps], [MessageProps] and [StorageProps];
    - [ChannelMapping]: [model-mapping-validation.ts] and [status-code-risk-guard.ts];
    - [PricingFormat] ([pricing-format.ts], [model-pricing-core.ts], [utils.ts]),
      [PricingSnapshots] ([model-pricing-snapshots.ts] and the rows of the table),
      [PricingEditor] (the panel of [model-pricing-sheet.tsx], the handlers of
      [model-ratio-visual-editor.tsx], the save of [ratio-settings-card.tsx]) and
      [PricingProps];
    - [UpstreamSync] (fields, choices, conflicts, the requests and the page as a step
      relation; it reads and writes the maps of [PricingSnapshots]) and [UpstreamProps];
    - [GroupRatio] (the table of groups, auto groups, overrides and details), [GroupRules]
      (the special usable rules), [GroupProps] and [GroupRuleProps];
    - [ParamOverride] (tables, reading, writing and validation of rules, the dialog as a
      record with its handlers and a step relation), [ParamRoundtrip] (saving and
      opening again) and [ParamProps] (the reachable states of the dialog);
    - [AdvancedCustom] ([advanced-custom.ts] and the handlers of
      [advanced-custom-editor-dialog.tsx]) and [AdvancedProps];
    - [ChannelForm] ([channel-form.ts]), [ChannelFormProps] (what the settings become) and
      [ChannelRoundtrip] (saving and opening again);
    - [Currency] ([lib/currency.ts], the formats of [lib/format.ts], the currency part of
      [stores/system-config-store.ts] and [hooks/use-system-config.ts]), [AccountForms]
      ([redemption-form.ts], [token-sale-form.ts], [user-form.ts],
      [lib/admin-permissions.ts], [transfer-dialog.tsx], [user-quota-dialog.tsx]) and
      [AccountProps];
    - [PriceList] ([features/pricing]: [filters.ts], [use-filters.ts], [pricing-sidebar.tsx],
      [price.ts], [dynamic-price.ts] and the data they need) and [PriceListProps];
    - [Pagination]: [getPageNumbers] of [lib/utils.ts], [pagination-controls.tsx] and
      [model-card-grid.tsx], with their theorems;
    - [NavModules] ([lib/nav-modules.ts], [maintenance/config.ts] of the system settings
      and its two sections, [use-top-nav-links.ts], [use-sidebar-config.ts]) and [NavProps];
    - [SettingsForm] ([use-settings-form.ts]) and [SettingsProps];
    - [TableState] ([use-table-url-state.ts] and the column visibility of
      [use-data-table.ts]) and [TableProps];
    - [ChannelList] (the helpers of [features/channels/lib]: types, states, keys, balances,
      rows of the tag mode, Ollama models) and [ChannelListProps];
    - [ChannelActions] (the requests of [features/channels/api.ts] and the handlers of
      [channel-actions.ts], as functions from an outcome to a list of effects) and
      [ChannelActionProps];
    - [ChannelDialogs] ([multi-key-manage-dialog.tsx] as a step relation,
      [use-channel-upstream-updates.ts] with [upstream-update-dialog.tsx] as a run of
      events) and [ChannelDialogProps];
    - [ToolPrices]: [tool-price-settings.tsx], with its theorems;
    - [DashboardCharts] ([charts.ts], [filters.ts] and [lib/time.ts] as they use it) and
      [ChartProps];
    - [TierRoundtrip] (printing and reading of tiers, over [TierExpr]), [TieredEditor]
      ([tiered-pricing-editor.tsx]: fields, cards, rules, templates and the editor, whose
      effects are renderings that follow each other) and [TieredProps];
    - [Notifications]: [use-notifications.ts] and [notification-store.ts], with theorems;
    - [ApiClient]: the sharing of requests and the interceptors of [lib/api.ts], with
      theorems;
    - [Verification]: [lib/secure-verification.ts], the hook, the requests and the dialog
      of [features/auth/secure-verification] and [passkey-card.tsx], with theorems;
    - [Wallet] (the hooks, the library, the page and two dialogs of [features/wallet]) and
      [WalletProps].

    Definitions carry the names of the source.  A record of React state becomes a
    [Record], a handler a function from state to state, a callback or an event a step of
    an inductive relation, a thrown exception or a missing result a value of [option] or
    [outcome].  Constructs that have no name in the source, such as the body of a
    loop, have names in lower case.

    ** What the theorems show

    - Playground: in every reachable state of a session at most the last message is
      unfinished, an idle session has nothing unfinished and nothing waiting, stopping
      ends any generation, streamed chunks are shown completely whatever the timer
      does, requests contain the conversation they should; what is saved is loaded
      back, what is kept is the longest run within the limits, and a finished conversation
      within the limits survives closing the page unless the storage refused it.
    - Dashboard: quantities are conserved through the graph, columns add up to the
      summary, nodes refine the sum over paths, limits bound the columns, masking
      hides labels, highlighting follows paths.
    - Billing: printing and reading of rules and of combined expressions are inverse for
      the conditions that the parser knows (comparisons of parameters are not among them);
      unwrapping takes off all enclosing parentheses and nothing else; an expression the
      visual editor accepts is regenerated.
    - Model prices: a save or a copy of prices of one mode makes the targets show the
      saved data and changes no other model, deleting removes exactly one model, the hidden ratios follow the
      prices on screen in every reachable state of the panel, an unchanged model
      survives an edit, rows are marked as changed exactly when they differ, and a save
      sends exactly what changed.
    - Upstream sync: whatever is clicked and answered the chosen values are consistent and
      come from an upstream; a stored sync makes the price editor show the chosen values
      and nothing else changed; without a question no price is dropped; a sync that
      broke off can be repeated; the check box of a column selects what it counts.
    - Group settings: what the table and the rules write is read again as they were, rows
      and rules of the same key merged; the table is never out of date and an edit is
      never taken back; a new group gets the first free name; overrides and auto groups
      change only where they are edited.
    - Parameter overrides: rules that were saved are shown and saved the same when the
      dialog is opened on them, unless a value is a quoted text of JSON; in every reachable state of the dialog identifiers are
      unique and the selection exists.
    - Advanced custom channels: validation accepts exactly the configurations that are
      in order, and whatever the dialog saves is valid and read back the same.
    - Channel form: the settings written for a channel are, key by key, those that its
      type owns and the old ones otherwise; a channel that was saved, as the server then
      has it, opened and saved unchanged sends the same request, but for a cleared
      [other], which the server keeps.
    - Status codes: accepted rules are canonical, bounded and idempotent; rejected ones
      report their bad tokens; new protected redirects are the ones reported.
    - Price list: it shows exactly the models that pass every filter, in the chosen order
      and stable; the counts of the side bar are those of the list; the state of the
      filters refines a record of choices; the page that is shown exists and the pages
      cover the list.
    - Amounts: a quota that is shown as an amount is read back as the same quota for every
      currency, despite two roundings, so records opened and saved unchanged stay as they
      are; whatever is typed, a transfer is a whole quota within its bounds; rates are never zero; permissions are
      completed from the catalogue.
    - Navigation: what the settings page saves is what its form, the guards, the top bar
      and the side bar read, whatever was stored before; a user's settings only hide; a
      failed request closes the page.
    - Settings forms: dotted names survive the nesting, a submit sends exactly the fields
      that differ from the saved ones, and a second submit sends nothing.
    - Tables: the page and the filters are what the URL says, whatever operations and
      navigations led to it, while the search text is the one typed last; the
      columns of a table are remembered whatever happens to other tables.
    - Channel list, actions and dialogs: rows of tags hold and sum up their channels, a
      cleaned key list has each key once, actions send the request that is asked for and
      report its outcome truthfully, keys
      are deleted with the permission only, operations on updates exclude each other and
      a confirmation accounts for every offered model.
    - Tool prices: saved prices come back and row numbers are unique.
    - Dashboard charts: bars, areas, trends and rankings add up to the data, the trend of
      a user to the ranking, and preferences are read back.
    - Tiered prices: the text that is printed for tiers is read back as these tiers, but
      for conditions of the last one; the editor comes to rest after every event and the
      panel then holds the expression it shows, with its rules in the visual mode and after
      typing; opening a model that the visual mode can show changes nothing.
    - Requests: a caller is served by a request to its address with its parameters, and
      no two shared requests for the same are under way; beyond its first try, a protected
      action runs only when a verification of its own was confirmed, but for the passkey of
      a user without two-factor authentication; what was shown as an announcement stays
      read.
    - Wallet: the configuration is read as the server says it; payments are asked for one at a
      time, for the amount and the method on screen; with answers in order the price is
      that of the amount; orders are completed by administrators, one at a time.
    - Where the code does something else than it means to, a theorem states what it does:
      repeated chunks that are lost, stale text after a resubmission, comparisons that
      are not read back, foreign error codes that stop saving, token prices that are
      dropped for a model with a fixed price, string values of overrides that turn into
      numbers, edits of prune rules that are lost, edits of routes that a second
      click on the visual editor takes back, syncs that the server refused and the page
      reports as done, an own endpoint of a channel that cannot be entered, a free group
      that is shown at the full price, prices with a decimal comma that lose it, a tag
      called all, numbers that the two readers of the header settings read differently, a
      modal of updates that opens with nothing selected, late answers that close the modal
      or replace the keys of another request, priorities that are taken for a mark, tool
      prices that cannot be emptied, data that are older than the bars of a chart, days
      that are sorted without their year, expressions and rules that are lost when the
      tiered editor opens on them, rules that are doubled by a switch of its mode, a cleared
      field of a channel that comes back, verifications that go on behind a closed dialog, errors
      that are shown to a caller who asked for silence, and prices of another amount in
      the confirmation of a payment.

    ** Parameters, bounds and fuel

    Code that is not in the repository is a parameter: the collation of
    [localeCompare], the schema checker of the storage, the object mapper of the server, the capacity of the browser's
    storage, the translation function, the colours of the chart library, [new URL]
    of the browser, [toLowerCase] beyond ASCII, [Math.pow] and the number formats of the runtime, the calendar of the browser's time zone and
    [Intl.RelativeTimeFormat] are classes or arguments whose laws are the
    documented behaviour, with instances in the witnesses.  The clock and fresh
    identifiers are arguments of the operations that read them; the event source and
    the server may deliver anything an open source can.

    Fuel is the length of the text wherever a loop consumes text: nesting in
    [parse_value], matches in [rexec_all], thinking sections in [think_loop],
    parentheses in [unwrap_loop]; each turn consumes at least one unit, and the round
    trips and [unwrap_terminates] show that it is enough.  The renderings of the tiered
    editor are counted up to [SETTLE], which [editor_saves_what_it_shows] shows to be
    enough; the digits of a hash are seven, enough for 32 bits.  [free_name] tries one name more
    than there are rows, which [added_group_is_new] shows to be enough.  In [Number], 700 steps cover
    the decimal exponents of binary64 (-324 to 308) and 16 steps the at most 17 digits
    that identify a number.  Theorems that print numbers ask that a number reads back
    from its text ([num_ok]), a check that is computed on the values at hand.

    Integers the server sends (quotas, counts, ids) and times in milliseconds are [Z],
    exact below 2^53.  Lookups of object keys do not see [Object.prototype].

    ** Not modelled

    Rendering, styles, tables and routing; axios and the browser below the HTTP client;
    [normalizeTierLabel] (Unicode case tables) and [evalExprLocally] (compiles text
    with [new Function]); the mobile layout of the price editor; the search field of the
    override editor (Unicode case folding); the row selection and the pages of the
    channel dialog of the sync, kept by the table library; the channel drawer as a
    component; the cost estimator of the tiered price editor, which runs the expression;
    subscriptions and the data of the user in the wallet; the requests of [features/channels/api.ts] that no
    modelled handler sends; the formats of [lib/time.ts] that go through the date library;
    the Go backend (but for the fields that its update of a channel writes, [given_fields]
    of [ChannelRoundtrip]), the classic frontend, the desktop shell, generated routes and
    translations.

    ** Plan

    Next, in order: the handlers of the channel drawer ([channel-mutate-drawer.tsx]); the
    usage log ([features/usage-logs/lib]); the keys of users ([features/keys]). *)
From stdpp Require Export base gmap list sorting strings.
From Stdlib Require Export NArith ZArith Lia ZifyBool ZifyN.
From Stdlib Require Import DecimalN DecimalPos.

Declare Scope js_scope.
Delimit Scope js_scope with js.

(** ** JavaScript strings

    A JavaScript string is a sequence of 16-bit code units.  Source literals
    are written as Rocq strings, whose bytes are UTF-8, and decoded by [js]. *)

Abbreviation str := (list N).

Fixpoint utf8_units (l : list N) : list N :=
  match l with
  | [] => []
  | a :: l1 =>
      if (a <? 128)%N then a :: utf8_units l1
      else
        match l1 with
        | [] => [a]
        | b :: l2 =>
            if (a <? 224)%N then
              (N.land a 31 * 64 + N.land b 63)%N :: utf8_units l2
            else
              match l2 with
              | [] => [a; b]
              | c :: l3 =>
                  if (a <? 240)%N then
                    (N.land a 15 * 4096 + N.land b 63 * 64 + N.land c 63)%N
                      :: utf8_units l3
                  else
                    match l3 with
                    | [] => [a; b; c]
                    | d :: l4 =>
                        let cp := (N.land a 7 * 262144 + N.land b 63 * 4096
                                   + N.land c 63 * 64 + N.land d 63 - 65536)%N in
                        (55296 + cp / 1024)%N :: (56320 + cp mod 1024)%N
                          :: utf8_units l4
                    end
              end
        end
  end.

Definition js (s : String.string) : str :=
  utf8_units (map Ascii.N_of_ascii (String.list_ascii_of_string s)).
Arguments js s%_string : simpl never.

(** Code points named where a literal would be awkward. *)
Definition dquote : N := 34.
(** A literal with single quotes standing for double ones. *)
Definition jsq (s : String.string) : str := map (fun c => if (c =? 39)%N then dquote else c) (js s).
Arguments jsq s%_string : simpl never.
Definition newline : N := 10.

(** The white space of [String.prototype.trim] and of the class [\s]:
    WhiteSpace and LineTerminator of ECMA-262. *)
Definition is_space (c : N) : bool :=
  (((9 <=? c) && (c <=? 13)) || (c =? 32) || (c =? 160) || (c =? 5760)
   || ((8192 <=? c) && (c <=? 8202)) || (c =? 8232) || (c =? 8233)
   || (c =? 8239) || (c =? 8287) || (c =? 12288) || (c =? 65279))%N.

Definition is_digit (c : N) : bool := ((48 <=? c) && (c <=? 57))%N.

Definition str_eqb (a b : str) : bool := bool_decide (a = b).

Fixpoint drop_while {A} (f : A -> bool) (l : list A) : list A :=
  match l with
  | [] => []
  | x :: r => if f x then drop_while f r else l
  end.

Definition trimStart (s : str) : str := drop_while is_space s.
Definition trimEnd (s : str) : str := reverse (drop_while is_space (reverse s)).
Definition trim (s : str) : str := trimEnd (trimStart s).

Fixpoint starts_with (s p : str) {struct p} : bool :=
  match p, s with
  | [], _ => true
  | c :: p', d :: s' => (c =? d)%N && starts_with s' p'
  | _ :: _, [] => false
  end.

Fixpoint str_includes (s p : str) : bool :=
  starts_with s p || match s with [] => false | _ :: s' => str_includes s' p end.

Definition ends_with (s p : str) : bool := starts_with (reverse s) (reverse p).

(** [s.split(c)] for a separator of one code unit. *)
Fixpoint split_on (c : N) (s : str) : list str :=
  match s with
  | [] => [[]]
  | x :: r =>
      if (x =? c)%N then [] :: split_on c r
      else match split_on c r with
           | h :: t => (x :: h) :: t
           | [] => [[x]]
           end
  end.

(** [l.join(sep)]. *)
Fixpoint join (sep : str) (l : list str) : str :=
  match l with
  | [] => []
  | [x] => x
  | x :: r => x ++ sep ++ join sep r
  end.

(** A string is truthy when it is not empty. *)
Definition truthy (s : str) : bool := match s with [] => false | _ => true end.

(** [a || b] on strings, and on a string that may be absent. *)
Definition str_or (a b : str) : str := if truthy a then a else b.
Definition opt_str_or (a : option str) (b : str) : str :=
  match a with Some s => str_or s b | None => b end.

(** [s.slice(a, b)] for indices within the string, and [s.slice(-n)]. *)
Definition slice {A} (a b : nat) (l : list A) : list A := take (b - a) (drop a l).
Definition slice_last {A} (n : nat) (l : list A) : list A := drop (length l - n) l.

(** ** Decimal notation of integers *)

Fixpoint uint_str (u : Decimal.uint) : str :=
  match u with
  | Decimal.Nil => []
  | Decimal.D0 r => 48%N :: uint_str r
  | Decimal.D1 r => 49%N :: uint_str r
  | Decimal.D2 r => 50%N :: uint_str r
  | Decimal.D3 r => 51%N :: uint_str r
  | Decimal.D4 r => 52%N :: uint_str r
  | Decimal.D5 r => 53%N :: uint_str r
  | Decimal.D6 r => 54%N :: uint_str r
  | Decimal.D7 r => 55%N :: uint_str r
  | Decimal.D8 r => 56%N :: uint_str r
  | Decimal.D9 r => 57%N :: uint_str r
  end.

(** [`${n}`] for an integer [n] written without an exponent. *)
Definition show_N (n : N) : str := uint_str (N.to_uint n).
Definition show_Z (z : Z) : str :=
  match z with
  | Zneg p => 45%N :: show_N (Npos p)
  | _ => show_N (Z.to_N z)
  end.

(** [Number.parseInt(s, 10)] of a string of digits. *)
Definition digit_step (acc c : N) : N := (acc * 10 + (c - 48))%N.
Definition digits_val (s : str) : N := foldl digit_step 0%N s.

(** [/^\d+$/.test(s)]. *)
Definition all_digits (s : str) : bool := truthy s && forallb is_digit s.

(** ** Insertion-ordered maps and sets

    [Map] and [Set] iterate in the order of insertion; setting an existing key
    keeps its place.  They are association lists and lists here. *)

Section JsMap.
Context {K V : Type} `{EqDecision K}.

Fixpoint map_get (k : K) (m : list (K * V)) : option V :=
  match m with
  | [] => None
  | (k', v) :: r => if decide (k = k') then Some v else map_get k r
  end.

Definition map_has (k : K) (m : list (K * V)) : bool :=
  match map_get k m with Some _ => true | None => false end.

Fixpoint map_set (k : K) (v : V) (m : list (K * V)) : list (K * V) :=
  match m with
  | [] => [(k, v)]
  | (k', v') :: r =>
      if decide (k = k') then (k', v) :: r else (k', v') :: map_set k v r
  end.

(** The idiom [const prev = m.get(k) ?? init; ...; m.set(k, prev)]. *)
Definition map_upsert (k : K) (init : V) (f : V -> V) (m : list (K * V)) :=
  map_set k (f (default init (map_get k m))) m.
End JsMap.

Section JsSet.
Context {A : Type} `{EqDecision A}.

Definition set_has (x : A) (s : list A) : bool := bool_decide (x ∈ s).
Definition set_add (s : list A) (x : A) : list A :=
  if set_has x s then s else s ++ [x].
(** [new Set(l)], and [[...new Set(l)]]. *)
Definition set_of (l : list A) : list A := foldl set_add [] l.
End JsSet.

(** ** [Array.prototype.sort]: a stable sort by a comparator *)

Section Sort.
Context {A : Type} (cmp : A -> A -> Z).

Fixpoint insert_by (x : A) (l : list A) : list A :=
  match l with
  | [] => [x]
  | y :: r => if (cmp x y <=? 0)%Z then x :: l else y :: insert_by x r
  end.

Fixpoint sort_by (l : list A) : list A :=
  match l with
  | [] => []
  | x :: r => insert_by x (sort_by r)
  end.
End Sort.

(** [a || b] of two comparator results. *)
Definition cmp_or (a b : Z) : Z := if (a =? 0)%Z then b else a.

(** [reduce] with addition. *)
Definition sumZ {A} (f : A -> Z) (l : list A) : Z := foldr (fun x a => f x + a)%Z 0%Z l.

(** [String.prototype.localeCompare] depends on the collation tables of the
    runtime: the models take it as a comparator that is a total preorder, which
    is what ECMA-402 asks of it. *)
Class Collation := {
  localeCompare : str -> str -> Z;
  localeCompare_refl : forall a, localeCompare a a = 0%Z;
  localeCompare_flip : forall a b, (localeCompare a b <= 0 <-> 0 <= localeCompare b a)%Z;
  localeCompare_trans : forall a b c,
    (localeCompare a b <= 0 -> localeCompare b c <= 0 -> localeCompare a c <= 0)%Z
}.

(** [String.prototype.toLowerCase] follows the tables of Unicode: a class with what the
    standard says of it - it is idempotent, keeps the empty string, and on ASCII letters is
    the usual mapping. *)
Definition ascii_lower (s : str) : str := map (fun c => if ((65 <=? c) && (c <=? 90))%N then (c + 32)%N else c) s.

Class CaseMap := {
  toLowerCase : str -> str;
  toLowerCase_idemp : forall s, toLowerCase (toLowerCase s) = toLowerCase s;
  toLowerCase_ascii : forall s, Forall (fun c => c < 128)%N s -> toLowerCase s = ascii_lower s
}.

(** Order by code units: [<] on strings, and one possible collation. *)
Fixpoint unit_compare (a b : str) : Z :=
  match a, b with
  | [], [] => 0
  | [], _ :: _ => -1
  | _ :: _, [] => 1
  | x :: a', y :: b' =>
      if (x <? y)%N then -1 else if (y <? x)%N then 1 else unit_compare a' b'
  end%Z.

(** * Lemmas and automation *)

Create HintDb js.
Create Rewrite HintDb js.

(** Case analysis on the boolean and decidable tests of the goal. *)
Ltac split_tests :=
  repeat match goal with
  | |- context [if decide ?P then _ else _] => destruct (decide P); simpl
  | |- context [if (?a =? ?b)%N then _ else _] => destruct (N.eqb_spec a b); simpl
  | |- context [if (?a <? ?b)%N then _ else _] => destruct (N.ltb_spec a b); simpl
  | |- context [if (?a <=? ?b)%Z then _ else _] => destruct (Z.leb_spec a b); simpl
  | |- context [if (?a <? ?b)%Z then _ else _] => destruct (Z.ltb_spec a b); simpl
  | |- context [if (?a =? ?b)%Z then _ else _] => destruct (Z.eqb_spec a b); simpl
  end.

(** ** Strings *)

Lemma str_eqb_eq a b : str_eqb a b = true <-> a = b.
Proof. apply bool_decide_eq_true. Qed.

Lemma truthy_false s : truthy s = false <-> s = [].
Proof. by destruct s. Qed.

Lemma truthy_true s : truthy s = true <-> s <> [].
Proof. by destruct s. Qed.

Lemma drop_while_id {A} (f : A -> bool) l :
  match l with [] => True | x :: _ => f x = false end -> drop_while f l = l.
Proof. destruct l as [|x l]; simpl; [done | by intros ->]. Qed.

Lemma drop_while_head {A} (f : A -> bool) l :
  match drop_while f l with [] => True | x :: _ => f x = false end.
Proof. induction l as [|x l IH]; simpl; [done |]. by destruct (f x) eqn:?. Qed.

Lemma drop_while_idemp {A} (f : A -> bool) l :
  drop_while f (drop_while f l) = drop_while f l.
Proof. apply drop_while_id, drop_while_head. Qed.

Lemma drop_while_suffix {A} (f : A -> bool) l : drop_while f l `suffix_of` l.
Proof.
  induction l as [|x l IH]; simpl; [done |].
  destruct (f x); [by apply suffix_cons_r | done].
Qed.

Lemma drop_while_length {A} (f : A -> bool) l : (length (drop_while f l) <= length l)%nat.
Proof. destruct (drop_while_suffix f l) as [p Hp]. apply (f_equal length) in Hp. rewrite length_app in Hp. lia. Qed.

Lemma drop_while_Forall {A} (P : A -> Prop) (f : A -> bool) l :
  Forall P l -> Forall P (drop_while f l).
Proof.
  induction 1 as [|x l ? ? IH]; simpl; [done |]. destruct (f x); [done | by constructor].
Qed.

Lemma drop_while_all {A} (f : A -> bool) l :
  Forall (fun x => f x = true) l -> drop_while f l = [].
Proof. induction 1 as [|x l Hx ? IH]; simpl; [done | by rewrite Hx]. Qed.

Lemma drop_while_app {A} (f : A -> bool) l k :
  Forall (fun x => f x = true) l -> drop_while f (l ++ k) = drop_while f k.
Proof. induction 1 as [|x l Hx ? IH]; simpl; [done | by rewrite Hx]. Qed.

Lemma reverse_head_last {A} (l : list A) : head (reverse l) = last l.
Proof. by rewrite head_reverse. Qed.

(** A string with no white space at either end. *)
Definition trimmed (s : str) : Prop :=
  match head s with Some c => is_space c = false | None => True end /\
  match last s with Some c => is_space c = false | None => True end.

Lemma trimmed_trim s : trimmed s -> trim s = s.
Proof.
  intros [Hh Hl]. unfold trim, trimStart.
  rewrite (drop_while_id _ s) by (destruct s; [done | exact Hh]).
  unfold trimEnd. rewrite drop_while_id; [apply reverse_involutive |].
  rewrite <- head_reverse in Hl. by destruct (reverse s).
Qed.

Lemma trim_trimmed s : trimmed (trim s).
Proof.
  unfold trim. set (u := trimStart s).
  assert (Hu : match head u with Some c => is_space c = false | None => True end).
  { pose proof (drop_while_head is_space s) as H. unfold u, trimStart.
    by destruct (drop_while is_space s). }
  unfold trimEnd. pose proof (drop_while_head is_space (reverse u)) as Hd.
  pose proof (drop_while_suffix is_space (reverse u)) as [p Hp].
  set (d := drop_while is_space (reverse u)) in *. split.
  - apply (f_equal reverse) in Hp. rewrite reverse_involutive, reverse_app in Hp.
    destruct (reverse d) as [|c r] eqn:Er; [done |]. simpl. rewrite Hp in Hu. done.
  - rewrite <- head_reverse, reverse_involutive. by destruct d.
Qed.

Lemma trim_length s : (length (trim s) <= length s)%nat.
Proof.
  unfold trim, trimEnd, trimStart. rewrite length_reverse.
  etransitivity; [apply drop_while_length |]. rewrite length_reverse. apply drop_while_length.
Qed.

Lemma trim_idemp s : trim (trim s) = trim s.
Proof. apply trimmed_trim, trim_trimmed. Qed.

Lemma trim_no_space s : Forall (fun c => is_space c = false) s -> trim s = s.
Proof.
  intros H. apply trimmed_trim. split.
  - destruct s as [|c s]; [done |]. by inv H.
  - destruct (last s) as [c|] eqn:E; [| done].
    rewrite Forall_forall in H. apply H.
    apply last_Some in E as [l' ->]. set_solver.
Qed.

Lemma trim_Forall (P : N -> Prop) s : Forall P s -> Forall P (trim s).
Proof.
  intros H. unfold trim, trimEnd, trimStart.
  by apply Forall_reverse, drop_while_Forall, Forall_reverse, drop_while_Forall.
Qed.

Lemma trim_not_In c s : c ∉ s -> c ∉ trim s.
Proof.
  intros H Hin.
  assert (Hf : Forall (fun x => x <> c) (trim s)).
  { apply trim_Forall, Forall_forall. set_solver. }
  rewrite Forall_forall in Hf. by apply (Hf c).
Qed.

Lemma starts_with_spec s p : starts_with s p = true <-> exists r, s = p ++ r.
Proof.
  revert s. induction p as [|c p IH]; intros s; simpl; [split; eauto |].
  destruct s as [|d s]; simpl; [split; [done | by intros [? [=]]] |].
  rewrite andb_true_iff, N.eqb_eq, IH. naive_solver.
Qed.

Lemma starts_with_app p r : starts_with (p ++ r) p = true.
Proof. apply starts_with_spec. eauto. Qed.

Lemma str_includes_spec s p : str_includes s p = true <-> exists a b, s = a ++ p ++ b.
Proof.
  induction s as [|c s IH]; simpl; rewrite orb_true_iff, starts_with_spec.
  - split.
    + intros [[r Hr] | [=]]. by exists [], r.
    + intros (a & b & H). left. symmetry in H. apply app_nil in H as [-> H]. eauto.
  - rewrite IH. split.
    + intros [[r ->] | (a & b & ->)]; [by exists [], r | by exists (c :: a), b].
    + intros ([|d a] & b & H); [eauto |]. inv H. eauto.
Qed.

Lemma str_includes_single c s : str_includes s [c] = true <-> c ∈ s.
Proof.
  rewrite str_includes_spec. split.
  - intros (a & b & ->). set_solver.
  - intros (a & b & ->)%list_elem_of_split. eauto.
Qed.

Lemma split_on_not_nil c s : split_on c s <> [].
Proof.
  destruct s as [|x s]; simpl; [done |]. destruct (x =? c)%N; [done |].
  by destruct (split_on c s).
Qed.

Lemma split_on_free c s : c ∉ s -> split_on c s = [s].
Proof.
  induction s as [|x s IH]; simpl; [done |]. intros H.
  destruct (N.eqb_spec x c) as [->|]; [set_solver |]. rewrite IH by set_solver. done.
Qed.

Lemma split_on_app c s r : c ∉ s -> split_on c (s ++ c :: r) = s :: split_on c r.
Proof.
  induction s as [|x s IH]; simpl; intros H.
  - by rewrite N.eqb_refl.
  - destruct (N.eqb_spec x c) as [->|]; [set_solver |]. rewrite IH by set_solver. done.
Qed.

Lemma split_on_elem c s p : p ∈ split_on c s -> c ∉ p.
Proof.
  revert p. induction s as [|x s IH]; simpl; intros p.
  - rewrite list_elem_of_singleton. intros ->. set_solver.
  - destruct (N.eqb_spec x c) as [->|Hne].
    + rewrite elem_of_cons. intros [-> | H]; [set_solver | auto].
    + destruct (split_on c s) as [|h t] eqn:E; [by apply split_on_not_nil in E |].
      rewrite elem_of_cons. intros [-> | H].
      * specialize (IH h (list_elem_of_here _ _)). set_solver.
      * apply IH. by right.
Qed.

(** Splitting undoes joining when no part contains the separator. *)
Lemma split_join c l :
  l <> [] -> Forall (fun s => c ∉ s) l -> split_on c (join [c] l) = l.
Proof.
  intros Hl HF. induction HF as [|s l Hs HF IH]; [done |].
  destruct l as [|s' l]; [by apply split_on_free |].
  change (join [c] (s :: s' :: l)) with (s ++ c :: join [c] (s' :: l)).
  rewrite split_on_app by done. by rewrite IH.
Qed.

Lemma join_Forall (P : N -> Prop) sep l :
  Forall P sep -> Forall (Forall P) l -> Forall P (join sep l).
Proof.
  intros Hsep Hl. induction Hl as [|s [|s' l] Hs Hl IH]; [constructor | exact Hs |].
  apply Forall_app. split; [done |]. apply Forall_app. by split.
Qed.

(** [l.filter(Boolean)] of non-empty strings. *)
Lemma filter_truthy_id l : Forall (fun s => s <> []) l -> List.filter truthy l = l.
Proof. induction 1 as [|s l Hs ? IH]; simpl; [done |]. rewrite IH. by destruct s. Qed.

Lemma map_trim_id l : Forall (Forall (fun c => is_space c = false)) l -> map trim l = l.
Proof. induction 1 as [|s l Hs ? IH]; simpl; [done |]. by rewrite trim_no_space, IH. Qed.

(** ** Decimal notation *)

Lemma foldl_uint_acc u p :
  foldl digit_step (Npos p) (uint_str u) = Npos (Pos.of_uint_acc u p).
Proof.
  revert p. induction u as [|u IH|u IH|u IH|u IH|u IH|u IH|u IH|u IH|u IH|u IH];
    intros p; [done | ..]; simpl uint_str; simpl foldl; simpl Pos.of_uint_acc;
    rewrite <- IH; f_equal; unfold digit_step; lia.
Qed.

Lemma digits_val_uint u : digits_val (uint_str u) = N.of_uint u.
Proof.
  unfold digits_val.
  induction u as [|u IH|u IH|u IH|u IH|u IH|u IH|u IH|u IH|u IH|u IH]; [done | exact IH | ..];
    simpl; rewrite <- foldl_uint_acc; done.
Qed.

Lemma digits_val_show n : digits_val (show_N n) = n.
Proof. unfold show_N. rewrite digits_val_uint. apply DecimalN.Unsigned.of_to. Qed.

Lemma show_N_digits n : Forall (fun c => is_digit c = true) (show_N n).
Proof. unfold show_N. induction (N.to_uint n); simpl; constructor; auto. Qed.

Lemma show_N_not_nil n : show_N n <> [].
Proof.
  intros H. pose proof (digits_val_show n) as Hv. rewrite H in Hv.
  cbv in Hv. subst n. done.
Qed.

Lemma all_digits_show n : all_digits (show_N n) = true.
Proof.
  unfold all_digits. apply andb_true_iff. split.
  - apply truthy_true, show_N_not_nil.
  - rewrite forallb_forall. pose proof (show_N_digits n) as H.
    rewrite Forall_forall in H. intros x Hx. apply H. by apply list_elem_of_In.
Qed.

Lemma show_N_inj n m : show_N n = show_N m -> n = m.
Proof. intros H. by rewrite <- (digits_val_show n), H, digits_val_show. Qed.

Lemma is_digit_not_space c : is_digit c = true -> is_space c = false.
Proof. unfold is_digit, is_space. lia. Qed.

Lemma digits_not_space s :
  Forall (fun c => is_digit c = true) s -> Forall (fun c => is_space c = false) s.
Proof. intros H. eapply Forall_impl; [exact H |]. apply is_digit_not_space. Qed.

(** ** Maps *)

Section JsMapLemmas.
Context {K V : Type} `{EqDecision K}.
Implicit Types (k : K) (v : V) (m : list (K * V)).

Lemma map_get_nil k : map_get k ([] : list (K * V)) = None.
Proof. done. Qed.

Lemma map_get_head k v m : map_get k ((k, v) :: m) = Some v.
Proof. simpl. by rewrite decide_True. Qed.

Lemma map_get_tail k k' v m : k <> k' -> map_get k ((k', v) :: m) = map_get k m.
Proof. intros. simpl. by rewrite decide_False. Qed.

Lemma map_get_set k k' v m :
  map_get k (map_set k' v m) = if decide (k = k') then Some v else map_get k m.
Proof.
  induction m as [|[k0 v0] m IH]; simpl; [by split_tests |].
  split_tests; subst; simpl; split_tests; congruence.
Qed.

Lemma map_set_same k v m : map_get k m = Some v -> map_set k v m = m.
Proof.
  induction m as [|[x w] m IH]; simpl; [done |]. destruct (decide (k = x)) as [->|]; [by intros [= ->] |]. intros H. by rewrite IH.
Qed.

Lemma map_get_set_eq k v m : map_get k (map_set k v m) = Some v.
Proof. rewrite map_get_set. by rewrite decide_True. Qed.

Lemma map_get_set_ne k k' v m : k <> k' -> map_get k (map_set k' v m) = map_get k m.
Proof. intros. rewrite map_get_set. by rewrite decide_False. Qed.

Lemma map_get_None k m : map_get k m = None <-> k ∉ m.*1.
Proof.
  induction m as [|[k0 v0] m IH]; simpl; [set_solver |].
  rewrite not_elem_of_cons, <- IH. destruct (decide (k = k0)); naive_solver.
Qed.

Lemma map_get_elem k v m : map_get k m = Some v -> (k, v) ∈ m.
Proof.
  induction m as [|[k0 v0] m IH]; simpl; [done |].
  destruct (decide (k = k0)) as [->|]; intros H.
  - inv H. left.
  - right. auto.
Qed.

Lemma elem_map_get k v m : NoDup m.*1 -> (k, v) ∈ m -> map_get k m = Some v.
Proof.
  induction m as [|[k0 v0] m IH]; simpl; [set_solver |].
  intros [Hn Hd]%NoDup_cons [[= -> ->] | Hin]%elem_of_cons.
  - by rewrite decide_True.
  - rewrite decide_False; [auto |]. intros ->. apply Hn.
    by apply (list_elem_of_fmap_2 fst _ (k0, v)).
Qed.

Lemma map_set_keys k v m :
  (map_set k v m).*1 = if decide (k ∈ m.*1) then m.*1 else m.*1 ++ [k].
Proof.
  induction m as [|[k0 v0] m IH]; csimpl; [done |].
  destruct (decide (k = k0)) as [->|Hne]; csimpl.
  - rewrite decide_True by left. done.
  - rewrite IH. destruct (decide (k ∈ m.*1)).
    + by rewrite decide_True by (by right).
    + by rewrite decide_False by set_solver.
Qed.

Lemma map_set_NoDup k v m : NoDup m.*1 -> NoDup (map_set k v m).*1.
Proof.
  intros H. rewrite map_set_keys. destruct (decide (k ∈ m.*1)); [done |].
  apply NoDup_app. split; [done |]. split; [set_solver | apply NoDup_singleton].
Qed.
End JsMapLemmas.

(** Grouping: a fold of [map_upsert] collects, under each key, the items with
    that key in their order. *)
Section GroupBy.
Context {A K V : Type} `{EqDecision K}.
Variables (key : A -> K) (init : A -> V) (add : V -> A -> V).

Definition group_step (m : list (K * V)) (x : A) : list (K * V) :=
  map_upsert (key x) (init x) (fun v => add v x) m.
Definition group_by (l : list A) (m : list (K * V)) : list (K * V) :=
  foldl group_step m l.

Lemma group_by_get l m k :
  map_get k (group_by l m) =
  match map_get k m, filter (fun x => key x = k) l with
  | Some v, ys => Some (foldl add v ys)
  | None, [] => None
  | None, (y :: _) as ys => Some (foldl add (init y) ys)
  end.
Proof.
  unfold group_by. revert m. induction l as [|x l IH]; intros m; simpl.
  - by destruct (map_get k m).
  - rewrite IH. unfold group_step, map_upsert. rewrite map_get_set, filter_cons.
    destruct (decide (k = key x)) as [->|Hne].
    + rewrite decide_True by done. by destruct (map_get (key x) m).
    + rewrite decide_False by done. done.
Qed.

Lemma group_by_NoDup l m : NoDup m.*1 -> NoDup (group_by l m).*1.
Proof.
  unfold group_by. revert m. induction l as [|x l IH]; intros m H; simpl; [done |].
  by apply IH, map_set_NoDup.
Qed.

Lemma group_by_keys l m k :
  k ∈ (group_by l m).*1 <-> k ∈ m.*1 \/ exists x, x ∈ l /\ key x = k.
Proof.
  destruct (decide (k ∈ (group_by l m).*1)) as [Hin|Hin].
  - split; [intros _ | done].
    destruct (decide (k ∈ m.*1)) as [|Hm]; [by left |]. right.
    destruct (map_get k (group_by l m)) as [v|] eqn:E.
    2: { by apply map_get_None in E. }
    rewrite group_by_get in E. rewrite (proj2 (map_get_None k m) Hm) in E.
    destruct (filter _ l) as [|y ys] eqn:Ef; [done |].
    assert (y ∈ filter (fun x => key x = k) l) as Hy by (rewrite Ef; left).
    apply list_elem_of_filter in Hy as [? ?]. eauto.
  - split; [done |]. intros H. exfalso. apply Hin.
    pose proof Hin as E. apply map_get_None in E. rewrite group_by_get in E.
    destruct (map_get k m) as [v|] eqn:Em; [done |].
    destruct H as [H | (x & Hx & <-)]; [by apply map_get_None in Em |].
    destruct (filter _ l) as [|y ys] eqn:Ef; [| done].
    assert (x ∈ filter (fun y => key y = key x) l) as Hy
      by by apply list_elem_of_filter.
    rewrite Ef in Hy. set_solver.
Qed.
End GroupBy.

(** ** Sets *)

Section JsSetLemmas.
Context {A : Type} `{EqDecision A}.

Lemma set_has_spec (x : A) s : set_has x s = true <-> x ∈ s.
Proof. apply bool_decide_eq_true. Qed.

Lemma foldl_set_add_elem (l s : list A) x : x ∈ foldl set_add s l <-> x ∈ s \/ x ∈ l.
Proof.
  revert s. induction l as [|y l IH]; intros s; simpl; [set_solver |].
  rewrite IH. unfold set_add. destruct (set_has y s) eqn:E.
  - apply set_has_spec in E. set_solver.
  - set_solver.
Qed.

Lemma foldl_set_add_NoDup (l s : list A) : NoDup s -> NoDup (foldl set_add s l).
Proof.
  revert s. induction l as [|y l IH]; intros s Hs; simpl; [done |]. apply IH.
  unfold set_add. destruct (set_has y s) eqn:E; [done |].
  apply NoDup_app. split; [done |]. split; [| apply NoDup_singleton].
  intros z Hz ->%list_elem_of_singleton. apply set_has_spec in Hz. congruence.
Qed.

Lemma elem_of_set_of (x : A) l : x ∈ set_of l <-> x ∈ l.
Proof. unfold set_of. rewrite foldl_set_add_elem. set_solver. Qed.

Lemma NoDup_set_of (l : list A) : NoDup (set_of l).
Proof. apply foldl_set_add_NoDup, NoDup_nil_2. Qed.

Lemma foldl_set_add_id (l s : list A) :
  NoDup (s ++ l) -> foldl set_add s l = s ++ l.
Proof.
  revert s. induction l as [|y l IH]; intros s H; simpl; [by rewrite app_nil_r |].
  assert (Hy : y ∉ s) by (apply NoDup_app in H; set_solver).
  unfold set_add at 2. destruct (set_has y s) eqn:E; [by apply set_has_spec in E |].
  rewrite IH; rewrite <- app_assoc; done.
Qed.

Lemma set_of_id (l : list A) : NoDup l -> set_of l = l.
Proof. intros H. by apply (foldl_set_add_id l []). Qed.
End JsSetLemmas.

(** ** Sorting *)

Section SortLemmas.
Context {A : Type} (cmp : A -> A -> Z).

Lemma insert_by_perm x l : insert_by cmp x l ≡ₚ x :: l.
Proof.
  induction l as [|y l IH]; simpl; [done |]. destruct (cmp x y <=? 0)%Z; [done |].
  rewrite IH. apply Permutation_swap.
Qed.

Lemma sort_by_perm l : sort_by cmp l ≡ₚ l.
Proof. induction l as [|x l IH]; simpl; [done |]. by rewrite insert_by_perm, IH. Qed.

Lemma elem_of_sort_by x l : x ∈ sort_by cmp l <-> x ∈ l.
Proof. by rewrite sort_by_perm. Qed.

Lemma length_sort_by l : length (sort_by cmp l) = length l.
Proof. by rewrite sort_by_perm. Qed.

(** What [sort] needs of a comparator: [cmp] is a total preorder on the list. *)
Definition comparator (P : A -> Prop) : Prop :=
  (forall x y, P x -> P y -> cmp x y <= 0 \/ cmp y x <= 0)%Z /\
  (forall x y z, P x -> P y -> P z -> cmp x y <= 0 -> cmp y z <= 0 -> cmp x z <= 0)%Z.

Definition cmp_sorted (l : list A) : Prop := StronglySorted (fun x y => cmp x y <= 0)%Z l.

Lemma insert_by_sorted (P : A -> Prop) x l :
  comparator P -> P x -> Forall P l -> cmp_sorted l -> cmp_sorted (insert_by cmp x l).
Proof.
  intros [Htot Htr] Hx HP Hs. induction Hs as [|y l Hs IH Hy]; simpl.
  - repeat constructor.
  - inv HP. destruct (Z.leb_spec (cmp x y) 0) as [Hle|Hlt].
    + constructor; [by constructor |]. constructor; [done |].
      rewrite Forall_forall in Hy |- *. intros z Hz.
      rewrite Forall_forall in H2. eapply (Htr x y z); auto.
    + constructor; [by apply IH |]. rewrite insert_by_perm. constructor; [| done].
      destruct (Htot x y); [done | done | lia | done].
Qed.

Lemma sort_by_sorted (P : A -> Prop) l :
  comparator P -> Forall P l -> cmp_sorted (sort_by cmp l).
Proof.
  intros Hc HP. induction HP as [|x l Hx HP IH]; simpl; [constructor |].
  eapply insert_by_sorted; [done | done | | done]. by rewrite sort_by_perm.
Qed.

(** A list already in order is left as it is. *)
Lemma sort_by_id l : cmp_sorted l -> sort_by cmp l = l.
Proof.
  induction 1 as [|x l Hs IH Hx]; simpl; [done |]. rewrite IH.
  destruct l as [|y l]; simpl; [done |]. inv Hx.
  destruct (Z.leb_spec (cmp x y) 0); [done | lia].
Qed.
End SortLemmas.

(** Comparators that are total preorders compose with [||]. *)
Definition preorder_cmp {A} (cmp : A -> A -> Z) : Prop :=
  (forall x, cmp x x = 0)%Z /\ (forall x y, cmp x y <= 0 <-> 0 <= cmp y x)%Z /\
  (forall x y z, cmp x y <= 0 -> cmp y z <= 0 -> cmp x z <= 0)%Z.

Lemma cmp_or_preorder {A} (f g : A -> A -> Z) :
  preorder_cmp f -> preorder_cmp g -> preorder_cmp (fun x y => cmp_or (f x y) (g x y)).
Proof.
  intros (Fr & Ff & Ft) (Gr & Gf & Gt). unfold cmp_or. split; [| split].
  - intros x. by rewrite Fr, Gr.
  - intros x y. pose proof (Ff x y). pose proof (Ff y x). pose proof (Gf x y). pose proof (Gf y x).
    split_tests; lia.
  - intros x y z. pose proof (Ff x y). pose proof (Ff y x). pose proof (Ff y z). pose proof (Ff z y).
    pose proof (Ff x z). pose proof (Ff z x). pose proof (Ft x y z). pose proof (Ft z y x).
    pose proof (Ft z x y). pose proof (Ft y z x). pose proof (Ft y x z). pose proof (Ft x z y).
    pose proof (Gt x y z).
    split_tests; lia.
Qed.

Lemma preorder_pull {A B} (h : A -> B) (cmp : B -> B -> Z) :
  preorder_cmp cmp -> preorder_cmp (fun x y => cmp (h x) (h y)).
Proof. intros (R & F & T). split; [auto | split; [auto |]]. eauto. Qed.

Lemma desc_preorder {A} (v : A -> Z) : preorder_cmp (fun x y => v y - v x)%Z.
Proof. split; [| split]; intros; lia. Qed.

Lemma asc_preorder {A} (v : A -> Z) : preorder_cmp (fun x y => v x - v y)%Z.
Proof. split; [| split]; intros; lia. Qed.

Lemma locale_preorder {C : Collation} {A} (v : A -> str) :
  preorder_cmp (fun x y => localeCompare (v x) (v y)).
Proof.
  apply (preorder_pull v localeCompare). split; [| split].
  - apply localeCompare_refl.
  - apply localeCompare_flip.
  - apply localeCompare_trans.
Qed.

Lemma preorder_comparator {A} (cmp : A -> A -> Z) P : preorder_cmp cmp -> comparator cmp P.
Proof.
  intros (R & F & T). split; [| eauto]. intros x y _ _.
  destruct (Z.le_gt_cases (cmp x y) 0); [by left |]. right. apply F. lia.
Qed.

Lemma sort_by_sorted_pre {A} (cmp : A -> A -> Z) l :
  preorder_cmp cmp -> cmp_sorted cmp (sort_by cmp l).
Proof.
  intros H. eapply sort_by_sorted; [by apply (preorder_comparator _ (fun _ => True)) |].
  by apply Forall_true.
Qed.

(** The sort is stable: elements that compare as equal to each other keep their order. *)
Lemma insert_by_filter {A} (cmp : A -> A -> Z) (f : A -> bool) x l :
  (forall a b, f a = true -> f b = true -> cmp a b <= 0)%Z ->
  List.filter f (insert_by cmp x l) = List.filter f (x :: l).
Proof.
  intros H. induction l as [|y l IH]; [done |]. cbn [insert_by]. destruct (Z.leb_spec (cmp x y) 0) as [|Hgt]; [done |].
  simpl in *. rewrite IH. destruct (f x) eqn:Ex, (f y) eqn:Ey; try done. specialize (H x y Ex Ey). lia.
Qed.

Lemma sort_by_filter {A} (cmp : A -> A -> Z) (f : A -> bool) l :
  (forall a b, f a = true -> f b = true -> cmp a b <= 0)%Z -> List.filter f (sort_by cmp l) = List.filter f l.
Proof.
  intros H. induction l as [|x l IH]; [done |]. cbn [sort_by]. rewrite insert_by_filter by done. simpl. by rewrite IH.
Qed.

#[export] Hint Resolve cmp_or_preorder desc_preorder asc_preorder locale_preorder : js.

(** ** Sums *)

Section Sums.
Context {A : Type}.
Implicit Types (f g : A -> Z) (l : list A).

Lemma sumZ_cons f x l : sumZ f (x :: l) = (f x + sumZ f l)%Z.
Proof. done. Qed.

Lemma sumZ_app f l1 l2 : sumZ f (l1 ++ l2) = (sumZ f l1 + sumZ f l2)%Z.
Proof. induction l1 as [|x l1 IH]; simpl; [done |]. lia. Qed.

Lemma sumZ_ext f g l : (forall x, x ∈ l -> f x = g x) -> sumZ f l = sumZ g l.
Proof.
  induction l as [|x l IH]; intros H; simpl; [done |].
  rewrite (H x) by left. rewrite IH; [done |]. intros y Hy. apply H. by right.
Qed.

Lemma sumZ_map {B} (h : B -> A) f (l : list B) :
  sumZ f (h <$> l) = sumZ (fun x => f (h x)) l.
Proof. induction l as [|x l IH]; csimpl; [done | by rewrite IH]. Qed.

Lemma sumZ_nonneg f l : (forall x, x ∈ l -> 0 <= f x)%Z -> (0 <= sumZ f l)%Z.
Proof.
  induction l as [|x l IH]; intros H; simpl; [done |].
  pose proof (H x (list_elem_of_here _ _)).
  assert (0 <= sumZ f l)%Z by (apply IH; intros; apply H; by right). lia.
Qed.

Lemma sumZ_filter_split (P : A -> Prop) `{forall x, Decision (P x)} f l :
  sumZ f l = (sumZ f (filter P l) + sumZ f (filter (fun x => ~ P x) l))%Z.
Proof.
  induction l as [|x l IH]; simpl; [done |]. rewrite IH, !filter_cons.
  destruct (decide (P x)) as [Hx|Hx]; simpl.
  - rewrite decide_False by tauto. simpl. lia.
  - rewrite decide_True by done. simpl. lia.
Qed.

Lemma foldl_add_sumZ f l z : foldl (fun a x => a + f x)%Z z l = (z + sumZ f l)%Z.
Proof. revert z. induction l as [|x l IH]; intros z; simpl; [lia | rewrite IH; lia]. Qed.

#[global] Instance sumZ_perm f : Proper ((≡ₚ) ==> eq) (sumZ f).
Proof. intros l1 l2 H. induction H; simpl; lia. Qed.

Lemma filter_key_other {K} `{EqDecision K} (key : A -> K) (k k' : K) l :
  k' <> k ->
  filter (fun x => key x = k') (filter (fun x => key x <> k) l)
  = filter (fun x => key x = k') l.
Proof.
  intros Hne. induction l as [|x l IH]; [done |]. rewrite !filter_cons.
  destruct (decide (key x <> k)), (decide (key x = k')); rewrite ?filter_cons, ?IH;
    repeat case_decide; congruence || naive_solver.
Qed.

(** A sum over items is the sum over the groups of a partition by key. *)
Lemma sumZ_partition {K} `{EqDecision K} (key : A -> K) f (ks : list K) l :
  NoDup ks -> (forall x, x ∈ l -> key x ∈ ks) ->
  sumZ f l = foldr (fun k a => sumZ f (filter (fun x => key x = k) l) + a)%Z 0%Z ks.
Proof.
  revert l. induction ks as [|k ks IH]; intros l Hnd Hin; simpl.
  - destruct l as [|x l]; [done |]. specialize (Hin x (list_elem_of_here _ _)). set_solver.
  - apply NoDup_cons in Hnd as [Hk Hnd].
    rewrite (sumZ_filter_split (fun x => key x = k)). f_equal.
    rewrite (IH (filter (fun x => key x <> k) l) Hnd).
    2: { intros x [Hx Hl]%list_elem_of_filter. apply Hin in Hl. set_solver. }
    clear -Hk. induction ks as [|k' ks IHk]; simpl; [done |].
    rewrite IHk by set_solver. rewrite filter_key_other by set_solver. done.
Qed.
End Sums.

Lemma foldl_ext_in {A D} (f g : D -> A -> D) (l : list A) d :
  (forall d x, x ∈ l -> f d x = g d x) -> foldl f d l = foldl g d l.
Proof.
  revert d. induction l as [|x l IH]; intros d H; simpl; [done |].
  rewrite (H d x) by left. apply IH. intros d' y Hy. apply H. by right.
Qed.

Lemma filter_ext_in {A} (P Q : A -> Prop) `{forall x, Decision (P x), forall x, Decision (Q x)}
  (l : list A) : (forall x, x ∈ l -> P x <-> Q x) -> filter P l = filter Q l.
Proof.
  induction l as [|x l IH]; intros HPQ; [done |]. rewrite !filter_cons.
  pose proof (HPQ x (list_elem_of_here _ _)) as Hx.
  rewrite IH by (intros; apply HPQ; by right). repeat case_decide; tauto.
Qed.

(** ** Sums over grouped items *)

Section GroupSums.
Context {A K V : Type} `{EqDecision K}.
Variables (key : A -> K) (init : A -> V) (add : V -> A -> V).
Variables (w : V -> Z) (v : A -> Z).
Hypothesis w_init : forall x, w (init x) = 0%Z.
Hypothesis w_add : forall b x, w (add b x) = (w b + v x)%Z.

Lemma upsert_sum (P : K -> Prop) `{forall k, Decision (P k)} (m : list (K * V)) x :
  sumZ (fun e => w e.2) (filter (fun e => P e.1) (group_step key init add m x)) =
  (sumZ (fun e => w e.2) (filter (fun e => P e.1) m) + if decide (P (key x)) then v x else 0)%Z.
Proof.
  unfold group_step, map_upsert. induction m as [|[k b] m IH].
  - simpl. rewrite filter_cons, filter_nil. simpl. case_decide; simpl; rewrite ?w_add, ?w_init; lia.
  - simpl. destruct (decide (key x = k)) as [Hk|Hk]; simpl.
    + subst k. rewrite !filter_cons. simpl. case_decide; simpl; rewrite ?w_add; lia.
    + rewrite !filter_cons. simpl. destruct (decide (P k)); simpl; lia.
Qed.

(** The total of the groups whose key satisfies [P] is the total of the items
    whose key does. *)
Lemma group_sum_key (P : K -> Prop) `{forall k, Decision (P k)} (l : list A) :
  sumZ (fun e => w e.2) (filter (fun e => P e.1) (group_by key init add l [])) =
  sumZ v (filter (fun x => P (key x)) l).
Proof.
  unfold group_by. change (sumZ v (filter (fun x => P (key x)) l)) with
    (sumZ (fun e => w e.2) (filter (fun e => P e.1) []) + sumZ v (filter (fun x => P (key x)) l))%Z.
  generalize (@nil (K * V)) as m. induction l as [|x l IH]; intros m; [simpl; lia |].
  simpl. rewrite IH, upsert_sum, filter_cons. case_decide; simpl; lia.
Qed.

(** The same for a property of the grouped values that is determined by the key. *)
Lemma group_sum_val (Q : V -> Prop) (R : A -> Prop)
  `{forall b, Decision (Q b), forall x, Decision (R x)} (l : list A) :
  (forall x, Q (init x) <-> R x) -> (forall b x, Q (add b x) <-> Q b) ->
  (forall x y, x ∈ l -> y ∈ l -> key x = key y -> R x <-> R y) ->
  sumZ w (filter Q (map snd (group_by key init add l []))) = sumZ v (filter R l).
Proof.
  intros Hi Ha Hk.
  assert (Hfold : forall ys b, Q (foldl add b ys) <-> Q b).
  { induction ys as [|y ys IH]; intros b; simpl; [done |]. by rewrite IH, Ha. }
  assert (Hq : forall k b, (k, b) ∈ group_by key init add l [] ->
             exists x, x ∈ l /\ key x = k /\ (Q b <-> R x)).
  { intros k b Hin. apply elem_map_get in Hin; [| apply group_by_NoDup; constructor].
    rewrite group_by_get in Hin. simpl in Hin.
    destruct (filter _ l) as [|y ys] eqn:E; [done |].
    assert (Hy : y ∈ y :: ys) by left. rewrite <- E in Hy.
    apply list_elem_of_filter in Hy as [? ?]. exists y. split; [done | split; [done |]].
    injection Hin as <-. rewrite (Hfold ys (add (init y) y)), Ha. apply Hi. }
  pose (P := fun k => Exists (fun x => key x = k /\ R x) l).
  assert (HP : forall k, Decision (P k)) by (intros k; apply _).
  transitivity (sumZ (fun e => w e.2) (filter (fun e => P e.1) (group_by key init add l []))).
  - clear Hfold. induction (group_by key init add l []) as [|[k b] m IH]; [done |].
    simpl map. rewrite !filter_cons. simpl.
    assert (Hb : Q b <-> P k).
    { destruct (Hq k b (list_elem_of_here _ _)) as (x & Hx & Hkx & ->).
      unfold P. rewrite Exists_exists. split; [eauto |].
      intros (y & Hy & Hky & HR). apply (Hk y x); [done | done | congruence | done]. }
    assert (IH' := IH (fun k b H => Hq k b (list_elem_of_further _ _ _ H))).
    destruct (decide (Q b)), (decide (P k)); try tauto; simpl; by rewrite IH'.
  - rewrite group_sum_key. f_equal. apply filter_ext_in. intros x Hx. unfold P.
    rewrite Exists_exists. split; [| eauto].
    intros (y & Hy & Hky & HR). by apply (Hk y x).
Qed.

End GroupSums.

(** ** A concrete collation: order by code units *)

Lemma unit_compare_refl a : unit_compare a a = 0%Z.
Proof. induction a as [|x a IH]; simpl; [done |]. by rewrite N.ltb_irrefl. Qed.

Lemma unit_compare_opp a b : unit_compare b a = (- unit_compare a b)%Z.
Proof.
  revert b. induction a as [|x a IH]; intros [|y b]; simpl; try done.
  destruct (N.ltb_spec x y), (N.ltb_spec y x); try lia; auto.
Qed.

Lemma unit_compare_trans a b c :
  (unit_compare a b <= 0 -> unit_compare b c <= 0 -> unit_compare a c <= 0)%Z.
Proof.
  revert b c. induction a as [|x a IH]; intros [|y b] [|z c]; simpl; try done.
  destruct (N.ltb_spec x y), (N.ltb_spec y x), (N.ltb_spec y z), (N.ltb_spec z y),
    (N.ltb_spec x z), (N.ltb_spec z x); try lia; eauto.
Qed.

Lemma ascii_lower_idemp s : ascii_lower (ascii_lower s) = ascii_lower s.
Proof.
  unfold ascii_lower. rewrite map_map. apply map_ext. intros c.
  destruct ((65 <=? c) && (c <=? 90))%N eqn:E; [| by rewrite E].
  destruct ((65 <=? c + 32) && (c + 32 <=? 90))%N eqn:E2; [| done]. lia.
Qed.

(** One possible case mapping. *)
Definition ascii_case : CaseMap :=
  {| toLowerCase := ascii_lower; toLowerCase_idemp := ascii_lower_idemp; toLowerCase_ascii := fun s _ => eq_refl |}.

Definition unit_collation : Collation.
Proof.
  refine {| localeCompare := unit_compare |}.
  - exact unit_compare_refl.
  - intros a b. rewrite (unit_compare_opp a b). lia.
  - exact unit_compare_trans.
Defined.

(** ** Objects given by their entries *)

Lemma map_get_app {V} k (a b : list (str * V)) :
  map_get k (a ++ b) = match map_get k a with Some v => Some v | None => map_get k b end.
Proof. induction a as [|[k' v] a IH]; cbn; [done |]. by destruct (decide _). Qed.

Lemma some_or_none {A} (o : option A) : match o with Some v => Some v | None => None end = o.
Proof. by destruct o. Qed.

(** Comparisons of literal keys. *)
Ltac literal_keys :=
  repeat match goal with
  | |- context [str_eqb (js ?a) (js ?b)] =>
      let x := eval vm_compute in (str_eqb (js a) (js b)) in change (str_eqb (js a) (js b)) with x
  end; cbv iota.

#[export] Hint Rewrite @map_get_set_eq @sumZ_app @sumZ_cons digits_val_show
  all_digits_show trim_idemp : js.
#[export] Hint Resolve trim_trimmed show_N_not_nil show_N_digits digits_not_space
  NoDup_set_of split_on_not_nil : js.
