(* ===== verification/Number.v ===== *)
(** * JavaScript numbers

    A number is an IEEE 754 binary64 value; the arithmetic is the executable
    specification of the Standard Library ([SpecFloat]) at precision 53 and
    maximal exponent 1024, with the conversions between numbers and strings
    that the sources use: [Number(s)], [parseFloat(s)], [String(x)] and
    [x.toFixed(d)], and with [Math.round], [Math.floor] and [Math.max]. *)
From S2P Require Import Prelude.
From Stdlib Require Import SpecFloat.

Definition num : Type := spec_float.

Definition n_add : num -> num -> num := SFadd 53 1024.
Definition n_sub : num -> num -> num := SFsub 53 1024.
Definition n_mul : num -> num -> num := SFmul 53 1024.
Definition n_div : num -> num -> num := SFdiv 53 1024.
Definition n_abs : num -> num := SFabs.
Definition n_opp : num -> num := SFopp.
(** [a === b], [a < b], [a <= b]: false as soon as one side is NaN. *)
Definition n_eqb : num -> num -> bool := SFeqb.
Definition n_ltb : num -> num -> bool := SFltb.
Definition n_leb : num -> num -> bool := SFleb.
Definition n_of_Z (z : Z) : num := binary_normalize 53 1024 z 0 false.
Definition n_zero : num := S754_zero false.
Definition n_nan : num := S754_nan.

Definition isFinite (x : num) : bool :=
  match x with S754_zero _ | S754_finite _ _ _ => true | _ => false end.
Definition isNaN (x : num) : bool := match x with S754_nan => true | _ => false end.

(** [x || 0]: zero, minus zero and NaN are falsy. *)
Definition n_truthy (x : num) : bool :=
  match x with S754_zero _ | S754_nan => false | _ => true end.
Definition n_or_zero (x : num) : num := if n_truthy x then x else n_zero.

#[global] Instance num_eq_dec : EqDecision num.
Proof. intros x y. unfold Decision. decide equality; solve_decision. Defined.

(** ** Decimal to binary

    The double nearest to [m * 10^e], ties to even.  Magnitudes outside the
    range of doubles are cut off before the power of ten is computed: the
    largest double is below 10^309, half the smallest is above 10^-325. *)
Definition num_of_dec (neg : bool) (m : N) (e : Z) : num :=
  match m with
  | N0 => S754_zero neg
  | Npos p =>
      let mag := (Z.of_nat (length (show_N m)) + e)%Z in
      if (310 <? mag)%Z then S754_infinity neg
      else if (mag <? -330)%Z then S754_zero neg
      else if (0 <=? e)%Z then
        binary_normalize 53 1024 ((if neg then Z.opp else id) (Z.pos p * 10 ^ e))%Z 0 neg
      else SFdiv 53 1024 (S754_finite neg p 0) (S754_finite false (Z.to_pos (10 ^ (- e))) 0)
  end.

(** [Number(s)]: a decimal literal, [Infinity], or an unsigned integer in base
    16, 8 or 2, with white space around; the empty string is zero and anything
    else NaN. *)
Fixpoint span {A} (f : A -> bool) (l : list A) : list A * list A :=
  match l with
  | [] => ([], [])
  | x :: r => if f x then let '(a, b) := span f r in (x :: a, b) else ([], l)
  end.

Definition opt_sign (s : str) : bool * str :=
  match s with
  | 45%N :: r => (true, r)
  | 43%N :: r => (false, r)
  | _ => (false, s)
  end.

(** The exponent part of a literal: its value, or [None] when malformed. *)
Definition exponent_of (s : str) : option Z :=
  match s with
  | [] => Some 0%Z
  | c :: r =>
      if ((c =? 101) || (c =? 69))%N then
        let '(neg, ds) := opt_sign r in
        if all_digits ds then
          Some ((if neg then Z.opp else id) (Z.of_N (digits_val ds)))
        else None
      else None
  end.

(** An unsigned decimal literal as mantissa and power of ten. *)
Definition unsigned_decimal (s : str) : option (N * Z) :=
  let '(ip, r1) := span is_digit s in
  let '(fp, r2) := match r1 with
                   | 46%N :: r => span is_digit r
                   | _ => ([], r1)
                   end in
  if negb (truthy (ip ++ fp)) then None
  else match exponent_of r2 with
       | Some e => Some (digits_val (ip ++ fp), e - Z.of_nat (length fp))%Z
       | None => None
       end.

Definition radix_digit (base c : N) : option N :=
  let d := if is_digit c then Some (c - 48)%N
           else if ((97 <=? c) && (c <=? 102))%N then Some (c - 87)%N
           else if ((65 <=? c) && (c <=? 70))%N then Some (c - 55)%N else None in
  match d with Some v => if (v <? base)%N then Some v else None | None => None end.

Fixpoint radix_val (base acc : N) (s : str) : option N :=
  match s with
  | [] => Some acc
  | c :: r => match radix_digit base c with
              | Some d => radix_val base (acc * base + d) r
              | None => None
              end
  end.

Definition num_of_radix (base : N) (ds : str) : num :=
  if truthy ds then
    match radix_val base 0 ds with Some v => n_of_Z (Z.of_N v) | None => n_nan end
  else n_nan.

Definition num_of_str (s : str) : num :=
  match trim s with
  | [] => n_zero
  | 48%N :: 120%N :: ds | 48%N :: 88%N :: ds => num_of_radix 16 ds
  | 48%N :: 111%N :: ds | 48%N :: 79%N :: ds => num_of_radix 8 ds
  | 48%N :: 98%N :: ds | 48%N :: 66%N :: ds => num_of_radix 2 ds
  | t =>
      let '(neg, u) := opt_sign t in
      if str_eqb u (js "Infinity") then S754_infinity neg
      else match unsigned_decimal u with
           | Some (m, e) => num_of_dec neg m e
           | None => n_nan
           end
  end.

(** A numeric literal of a source file. *)
Definition lit (s : String.string) : num := num_of_str (js s).
Arguments lit s%_string.

(** ** Binary to decimal *)

(** A positive finite double as a quotient of two positive integers. *)
Definition num_quotient (m : positive) (e : Z) : Z * Z :=
  (Z.pos m * 2 ^ Z.max e 0, 2 ^ Z.max (- e) 0)%Z.

(** The [k] with [10^(k-1) <= a/b < 10^k], searched from both sides of zero. *)
Fixpoint dec_exponent (fuel : nat) (a b : Z) (k : Z) : Z :=
  match fuel with
  | O => k
  | S f =>
      if (b <=? a)%Z then dec_exponent f a (b * 10) (k + 1)
      else if (a * 10 <? b)%Z then dec_exponent f (a * 10) b (k - 1)
      else k
  end.

(** The two decimals [n * 10^(k-d)] with [d] digits around [a/b], the nearer one
    first, the even one on a tie. *)
Definition digit_candidates (a b k d : Z) : Z * Z :=
  let s := (d - k)%Z in
  let a' := (a * 10 ^ Z.max s 0)%Z in
  let b' := (b * 10 ^ Z.max (- s) 0)%Z in
  let lo := (a' / b')%Z in
  let r := (a' mod b')%Z in
  if ((2 * r <? b') || ((2 * r =? b') && Z.even lo))%Z
  then (lo, lo + 1)%Z else (lo + 1, lo)%Z.

(** Shortest digits that read back as the same double: at most 17 are needed. *)
Fixpoint shortest (fuel : nat) (x : num) (a b k d : Z) : Z * Z :=
  let '(n1, n2) := digit_candidates a b k d in
  match fuel with
  | O => (n1, d)
  | S f =>
      if bool_decide (num_of_dec false (Z.to_N n1) (k - d) = x) then (n1, d)
      else if bool_decide (num_of_dec false (Z.to_N n2) (k - d) = x) then (n2, d)
      else shortest f x a b k (d + 1)
  end.

Definition zeros (n : nat) : str := replicate n 48%N.

(** [Number::toString] from the digits [ds], with the point after [k] of them. *)
Definition format_decimal (ds : str) (k : Z) : str :=
  let n := Z.of_nat (length ds) in
  if ((n <=? k) && (k <=? 21))%Z then ds ++ zeros (Z.to_nat (k - n))
  else if ((0 <? k) && (k <=? 21))%Z then
    take (Z.to_nat k) ds ++ 46%N :: drop (Z.to_nat k) ds
  else if ((-6 <? k) && (k <=? 0))%Z then
    48%N :: 46%N :: zeros (Z.to_nat (- k)) ++ ds
  else
    let e := (k - 1)%Z in
    let ex := 101%N :: (if (e <? 0)%Z then 45%N else 43%N) :: show_N (Z.to_N (Z.abs e)) in
    match ds with
    | [d] => d :: ex
    | d :: r => d :: 46%N :: r ++ ex
    | [] => []
    end.

Definition num_to_str (x : num) : str :=
  match x with
  | S754_nan => js "NaN"
  | S754_infinity s => (if s then [45%N] else []) ++ js "Infinity"
  | S754_zero _ => js "0"
  | S754_finite s m e =>
      let '(a, b) := num_quotient m e in
      let k := dec_exponent 700 a b 0 in
      let '(n, d) := shortest 16 (S754_finite false m e) a b k 1 in
      (* rounding up to the next power of ten adds a digit *)
      let ds := show_N (Z.to_N n) in
      let k' := (k + (Z.of_nat (length ds) - d))%Z in
      let stripped := reverse (drop_while (N.eqb 48) (reverse ds)) in
      (if s then [45%N] else []) ++ format_decimal stripped k'
  end.

(** ** [toFixed], [Math.floor] *)

(** [x.toFixed(d)] for [|x| < 10^21]: the integer [n] with [n / 10^d] closest to
    [|x|], the larger one of a tie. *)
Definition to_fixed (x : num) (d : nat) : str :=
  match x with
  | S754_nan | S754_infinity _ => num_to_str x
  | S754_zero _ => js "0" ++ (if (d =? 0)%nat then [] else 46%N :: zeros d)
  | S754_finite s m e =>
      let '(a, b) := num_quotient m e in
      if (b * 10 ^ 21 <=? a)%Z then num_to_str x
      else
        let n := ((2 * a * 10 ^ Z.of_nat d + b) / (2 * b))%Z in
        let ds := show_N (Z.to_N n) in
        let padded := zeros (S d - length ds) ++ ds in
        let cut := (length padded - d)%nat in
        (if s then [45%N] else []) ++
        (if (d =? 0)%nat then padded else take cut padded ++ 46%N :: drop cut padded)
  end.

(** [Math.floor(x)] as an integer; [None] for NaN and the infinities. *)
Definition floor_Z (x : num) : option Z :=
  match x with
  | S754_zero _ => Some 0%Z
  | S754_finite s m e =>
      let '(a, b) := num_quotient m e in
      Some (if s then - ((a + b - 1) / b) else a / b)%Z
  | _ => None
  end.

(** The integer that a number is, [None] for NaN, the infinities and fractions. *)
Definition num_to_Z (n : num) : option Z :=
  match n with
  | S754_zero _ => Some 0%Z
  | S754_finite neg m e =>
      let sign := if neg then Z.opp else id in
      if (0 <=? e)%Z then Some (sign (Z.pos m * 2 ^ e))%Z
      else if (Z.pos m mod 2 ^ (- e) =? 0)%Z then Some (sign (Z.pos m / 2 ^ (- e)))%Z else None
  | _ => None
  end.

(** [Math.round(x)]: the nearest integer, the larger one of a tie, with the sign of
    [x] when it is zero.  Integral values, and those without a fraction because of
    their size, are kept. *)
Definition math_round (x : num) : num :=
  match x with
  | S754_finite neg m e =>
      if (0 <=? e)%Z then x
      else
        let b := (2 ^ (- e))%Z in
        let a := ((if neg then Z.opp else id) (Z.pos m))%Z in
        binary_normalize 53 1024 ((2 * a + b) / (2 * b))%Z 0 neg
  | _ => x
  end.

(** [Math.max(a, b)]. *)
Definition n_max (a b : num) : num := if isNaN a || isNaN b then n_nan else if n_ltb a b then b else a.

(** The exponent part at the start of a text; a malformed one is left out. *)
Definition exponent_prefix (s : str) : Z :=
  match s with
  | c :: r =>
      if ((c =? 101) || (c =? 69))%N then
        let '(neg, u) := opt_sign r in
        let '(ds, _) := span is_digit u in
        if truthy ds then (if neg then Z.opp else id) (Z.of_N (digits_val ds)) else 0%Z
      else 0%Z
  | [] => 0%Z
  end.

(** [parseFloat(s)]: the longest prefix that is a decimal literal. *)
Definition parseFloat (s : str) : num :=
  let '(neg, u) := opt_sign (trimStart s) in
  if starts_with u (js "Infinity") then S754_infinity neg
  else
    let '(ip, r1) := span is_digit u in
    let '(fp, r2) := match r1 with
                     | 46%N :: r => span is_digit r
                     | _ => ([], r1)
                     end in
    if negb (truthy (ip ++ fp)) then n_nan
    else num_of_dec neg (digits_val (ip ++ fp)) (exponent_prefix r2 - Z.of_nat (length fp))%Z.

(** ** Examples *)

Example num_ex1 : num_to_str (n_add (lit "0.1") (lit "0.2")) = js "0.30000000000000004".
Proof. vm_compute. reflexivity. Qed.
Example num_ex2 : num_to_str (lit "1e21") = js "1e+21" /\ num_to_str (lit "123456789012345680000") = js "123456789012345680000".
Proof. vm_compute. split; reflexivity. Qed.
Example num_ex3 : num_to_str (lit "5e-324") = js "5e-324" /\ num_to_str (lit "-0.000001") = js "-0.000001" /\ num_to_str (lit "1.5e-7") = js "1.5e-7".
Proof. vm_compute. repeat split; reflexivity. Qed.
Example num_ex4 : to_fixed (lit "1.005") 2 = js "1.00" /\ to_fixed (lit "0.345") 2 = js "0.34" /\ to_fixed (lit "2.5") 0 = js "3" /\ to_fixed (lit "1e-9") 2 = js "0.00".
Proof. vm_compute. repeat split; reflexivity. Qed.
Example num_ex5 : floor_Z (lit "-1.5") = Some (-2)%Z /\ floor_Z (lit "2.99") = Some 2%Z /\ lit "0x1F" = n_of_Z 31 /\ isNaN (lit "1.2.3") = true.
Proof. vm_compute. repeat split; reflexivity. Qed.
Example num_ex6 : num_to_str (lit "1.7976931348623157e308") = js "1.7976931348623157e+308" /\ num_to_str (lit "9007199254740993") = js "9007199254740992" /\ num_to_str (lit "100") = js "100" /\ num_to_str (lit "9.95") = js "9.95".
Proof. vm_compute. repeat split; reflexivity. Qed.

Example num_ex7 : map (fun s => num_to_str (math_round (lit s))) ["2.5"; "-2.5"; "2.4999"; "-0.2"; "1e300"]%string = map js ["3"; "-2"; "2"; "0"; "1e+300"]%string.
Proof. vm_compute. reflexivity. Qed.
Example num_ex8 : map (fun s => num_to_str (parseFloat (js s))) ["3.14abc"; ".5"; "5."; " 1e3x"; "1e+"; "-2e-2"; "."; "abc"]%string = map js ["3.14"; "0.5"; "5"; "1000"; "1"; "-0.02"; "NaN"; "NaN"]%string.
Proof. vm_compute. reflexivity. Qed.
