(* ===== verification/NumberOrder.v ===== *)
(** * The order of numbers

    Comparison and subtraction of binary64 numbers against the values the numbers
    stand for.  A finite number is an integer multiple of 2^-1074, so [scaled] is an exact
    integer; the comparison of the language is the one of these integers, and the sign
    of a rounded difference is the sign of the exact one.  This is what makes
    [sort((a, b) => a - b)] a sort. *)
From S2P Require Import Prelude Number.
From Stdlib Require Import SpecFloat.
Local Open Scope Z_scope.

(** ** Finite numbers and their values *)

(** A finite number in its canonical representation: what every operation returns. *)
Definition n_valid (x : num) : bool := isFinite x && valid_binary 53 1024 x.

(** The value times 2^1074. *)
Definition scaled (x : num) : Z :=
  match x with
  | S754_finite s m e => cond_Zopp s (Z.pos m * 2 ^ (e + 1074))
  | _ => 0
  end.

(** The sign of a number as [sort] reads it: NaN counts as zero. *)
Definition n_sign (x : num) : Z :=
  match x with
  | S754_finite s _ _ | S754_infinity s => if s then -1 else 1
  | _ => 0
  end.

Lemma digits2_bounds p : 2 ^ (Z.pos (digits2_pos p) - 1) <= Z.pos p < 2 ^ Z.pos (digits2_pos p).
Proof.
  induction p as [p IH|p IH|]; simpl digits2_pos; [| | lia];
    rewrite Pos2Z.inj_succ; replace (Z.succ (Z.pos (digits2_pos p))) with (Z.pos (digits2_pos p) - 1 + 1 + 1) by lia;
    replace (Z.pos (digits2_pos p) - 1 + 1 + 1 - 1) with (Z.pos (digits2_pos p) - 1 + 1) by lia;
    rewrite !Z.pow_add_r by lia;
    replace (2 ^ Z.pos (digits2_pos p)) with (2 ^ (Z.pos (digits2_pos p) - 1) * 2) in IH
      by (rewrite <- (Z.pow_add_r 2 _ 1) by lia; f_equal; lia); lia.
Qed.

(** What the canonical representation says of mantissa and exponent. *)
Lemma bounded_spec m e :
  bounded 53 1024 m e = true ->
  -1074 <= e /\ Z.pos m < 2 ^ 53 /\ (-1074 < e -> 2 ^ 52 <= Z.pos m).
Proof.
  unfold bounded, canonical_mantissa, fexp, emin. rewrite andb_true_iff, Z.eqb_eq, Z.leb_le.
  intros [Hc _]. pose proof (digits2_bounds m) as Hd. repeat split.
  - lia.
  - apply Z.lt_le_trans with (2 ^ Z.pos (digits2_pos m)); [lia |]. apply Z.pow_le_mono_r; lia.
  - intros He. assert (Hk : Z.pos (digits2_pos m) = 53) by lia. rewrite Hk in Hd. lia.
Qed.

(** ** Rounding keeps what is not zero *)

Lemma shr_1_pos r : 0 <= shr_m r -> shr_m (shr_1 r) = shr_m r / 2.
Proof.
  destruct r as [[|[p|p|]|p] rr ss]; simpl; intros H; lia || done.
Qed.

Lemma iter_shr_pos p r : 0 <= shr_m r -> shr_m (iter_pos shr_1 p r) = shr_m r / 2 ^ Z.pos p.
Proof.
  assert (Hpos : forall a b, 0 <= a -> 0 < b -> 0 <= a / b) by (intros; apply Z.div_pos; lia).
  revert r. induction p as [p IH|p IH|]; intros r H; simpl iter_pos.
  - rewrite (IH _) by (rewrite (IH _) by (rewrite shr_1_pos by done; auto with lia);
      rewrite shr_1_pos by done; apply Hpos; [apply Hpos; lia | apply Z.pow_pos_nonneg; lia]).
    rewrite (IH _) by (rewrite shr_1_pos by done; apply Hpos; lia). rewrite shr_1_pos by done.
    rewrite !Z.div_div by (try apply Z.pow_pos_nonneg; lia).
    f_equal. rewrite Pos2Z.inj_xI, Z.pow_add_r, Z.pow_twice_r by lia. lia.
  - rewrite (IH _) by (rewrite (IH _) by done; apply Hpos; [lia | apply Z.pow_pos_nonneg; lia]).
    rewrite (IH _) by done. rewrite Z.div_div by (try apply Z.pow_pos_nonneg; lia).
    f_equal. rewrite (Pos2Z.inj_xO p), Z.pow_twice_r. lia.
  - by rewrite shr_1_pos.
Qed.

Lemma shr_fexp_pos m e l :
  0 < m -> -1074 <= e -> 0 < shr_m (fst (shr_fexp 53 1024 m e l)) /\ -1074 <= snd (shr_fexp 53 1024 m e l).
Proof.
  intros Hm He. unfold shr_fexp, shr.
  assert (Hr : shr_m (shr_record_of_loc m l) = m) by (by destruct l as [|[]]).
  destruct (fexp 53 1024 (Zdigits2 m + e) - e) as [|p|p] eqn:E; simpl; rewrite ?Hr; [lia | | lia].
  rewrite iter_shr_pos by (rewrite Hr; lia). rewrite Hr. split; [| lia].
  destruct m as [|q|]; [lia | | lia]. simpl in E. pose proof (digits2_bounds q) as Hd.
  assert (Hp : Z.pos p = Z.pos (digits2_pos q) - 53) by (unfold fexp, emin in E; lia).
  apply Z.div_str_pos. split; [apply Z.pow_pos_nonneg; lia |].
  etrans; [| apply Hd]. apply Z.pow_le_mono_r; lia.
Qed.

Lemma round_aux_sign s m e l :
  0 < m -> -1074 <= e -> n_sign (binary_round_aux 53 1024 s m e l) = if s then -1 else 1.
Proof.
  intros Hm He. unfold binary_round_aux.
  pose proof (shr_fexp_pos m e l Hm He) as H1. destruct (shr_fexp 53 1024 m e l) as [r e']. simpl in H1.
  assert (Hn : 0 < round_nearest_even (shr_m r) (loc_of_shr_record r))
    by (unfold round_nearest_even; destruct (loc_of_shr_record r) as [|[]]; try destruct (Z.even _); lia).
  pose proof (shr_fexp_pos _ e' loc_Exact Hn ltac:(lia)) as H2.
  destruct (shr_fexp 53 1024 _ e' loc_Exact) as [r2 e2]. simpl in H2.
  destruct (shr_m r2); [lia | | lia]. by destruct (e2 <=? 1024 - 53).
Qed.

Lemma shl_align_value m e e' :
  e' <= e -> Z.pos (fst (shl_align m e e')) = Z.pos m * 2 ^ (e - e') /\ snd (shl_align m e e') = e'.
Proof.
  intros H. unfold shl_align. destruct (e' - e) as [|d|d] eqn:E; [| lia |].
  - replace (e - e') with 0 by lia. split; [simpl fst; lia |]. simpl. lia.
  - replace (e - e') with (Z.pos d) by lia. split; [| done]. simpl fst. clear.
    induction d as [|d IH] using Pos.peano_ind; [simpl; lia |].
    rewrite Pos.iter_succ, Pos2Z.inj_xO, IH, Pos2Z.inj_succ, Z.pow_succ_r by lia. lia.
Qed.

Lemma round_sign s m e : -1074 <= e -> n_sign (binary_round 53 1024 s m e) = if s then -1 else 1.
Proof.
  intros He. unfold binary_round.
  set (e' := fexp 53 1024 (Z.pos (digits2_pos m) + e)).
  assert (-1074 <= e') by (unfold e', fexp, emin; lia).
  destruct (Z.le_gt_cases e' e) as [Hle|Hgt].
  - destruct (shl_align_value m e e' Hle) as [_ Hs]. destruct (shl_align m e e') as [mz ez].
    simpl in Hs. subst ez. by apply round_aux_sign.
  - unfold shl_align. destruct (e' - e) eqn:E; [lia | | lia]. by apply round_aux_sign.
Qed.

Lemma normalize_sign z e : -1074 <= e -> n_sign (binary_normalize 53 1024 z e false) = Z.sgn z.
Proof. intros He. destruct z; simpl; [done | |]; by rewrite round_sign. Qed.

(** ** The sign of a difference *)

Lemma cond_Zopp_mul s a b : cond_Zopp s (a * b) = cond_Zopp s a * b.
Proof. destruct s; simpl; lia. Qed.

Lemma scaled_sign s m e : -1074 <= e -> Z.sgn (scaled (S754_finite s m e)) = if s then -1 else 1.
Proof.
  intros He. simpl. assert (0 < 2 ^ (e + 1074)) by (apply Z.pow_pos_nonneg; lia).
  destruct s; simpl; nia.
Qed.

Lemma n_valid_finite s m e : n_valid (S754_finite s m e) = true -> bounded 53 1024 m e = true.
Proof. done. Qed.

Lemma scaled_align s m e ez :
  -1074 <= ez -> ez <= e ->
  scaled (S754_finite s m e) = cond_Zopp s (Z.pos (fst (shl_align m e ez))) * 2 ^ (ez + 1074).
Proof.
  intros H1 H2. destruct (shl_align_value m e ez H2) as [-> _]. simpl. rewrite <- cond_Zopp_mul. f_equal.
  rewrite <- Z.mul_assoc, <- Z.pow_add_r by lia. do 2 f_equal. lia.
Qed.

(** The rounded difference of two numbers has the sign of the exact difference: it is
    zero only when they are equal. *)
Lemma sub_sign x y :
  n_valid x = true -> n_valid y = true -> n_sign (n_sub x y) = Z.sgn (scaled x - scaled y).
Proof.
  intros Hx Hy. destruct x as [sx|sx| |sx mx ex]; [| done | done |]; destruct y as [sy|sy| |sy my ey]; try done.
  - by destruct sx, sy.
  - apply n_valid_finite, bounded_spec in Hy. unfold n_sub, SFsub.
    rewrite Z.sub_0_l, Z.sgn_opp, scaled_sign by lia. by destruct sy.
  - apply n_valid_finite, bounded_spec in Hx. unfold n_sub, SFsub.
    change (scaled (S754_zero sy)) with 0. rewrite Z.sub_0_r, scaled_sign by lia. by destruct sx.
  - apply n_valid_finite, bounded_spec in Hx, Hy. unfold n_sub, SFsub. cbv zeta.
    rewrite normalize_sign by lia.
    rewrite (scaled_align sx mx ex (Z.min ex ey)), (scaled_align sy my ey (Z.min ex ey)) by lia.
    rewrite <- Z.mul_sub_distr_r, Z.sgn_mul, (Z.sgn_pos (2 ^ _)) by (apply Z.pow_pos_nonneg; lia). lia.
Qed.

(** ** Comparison *)

Lemma scaled_lt_exponent m1 e1 m2 e2 :
  bounded 53 1024 m1 e1 = true -> bounded 53 1024 m2 e2 = true -> e1 < e2 ->
  Z.pos m1 * 2 ^ (e1 + 1074) < Z.pos m2 * 2 ^ (e2 + 1074).
Proof.
  intros (H1 & H2 & _)%bounded_spec (H3 & _ & H4)%bounded_spec He. specialize (H4 ltac:(lia)).
  apply Z.lt_le_trans with (2 ^ 53 * 2 ^ (e1 + 1074)).
  - apply Z.mul_lt_mono_pos_r; [apply Z.pow_pos_nonneg; lia | done].
  - apply Z.le_trans with (2 ^ 52 * 2 ^ (e2 + 1074)).
    + rewrite <- !Z.pow_add_r by lia. apply Z.pow_le_mono_r; lia.
    + apply Z.mul_le_mono_nonneg_r; [apply Z.pow_nonneg; lia | done].
Qed.

Lemma compare_scaled x y :
  n_valid x = true -> n_valid y = true -> SFcompare x y = Some (scaled x ?= scaled y).
Proof.
  intros Hx Hy. destruct x as [sx|sx| |sx mx ex]; [| done | done |]; destruct y as [sy|sy| |sy my ey]; try done;
    simpl SFcompare; f_equal; symmetry.
  - apply n_valid_finite, bounded_spec in Hy. pose proof (scaled_sign sy my ey ltac:(lia)) as Hs.
    change (scaled (S754_zero sx)) with 0. destruct sy; [apply Z.compare_gt_iff | apply Z.compare_lt_iff]; lia.
  - apply n_valid_finite, bounded_spec in Hx. pose proof (scaled_sign sx mx ex ltac:(lia)) as Hs.
    change (scaled (S754_zero sy)) with 0. destruct sx; [apply Z.compare_lt_iff | apply Z.compare_gt_iff]; lia.
  - pose proof (scaled_sign sx mx ex ltac:(apply n_valid_finite, bounded_spec in Hx; lia)) as Sx.
    pose proof (scaled_sign sy my ey ltac:(apply n_valid_finite, bounded_spec in Hy; lia)) as Sy.
    apply n_valid_finite in Hx, Hy.
    assert (Hsame : (Z.pos mx * 2 ^ (ex + 1074) ?= Z.pos my * 2 ^ (ey + 1074)) =
            match ex ?= ey with Lt => Lt | Gt => Gt | Eq => Pos.compare_cont Eq mx my end).
    { destruct (Z.compare_spec ex ey) as [->|H|H].
      - apply bounded_spec in Hy. rewrite <- Zmult_compare_compat_r; [done |].
        apply Z.lt_gt, Z.pow_pos_nonneg; lia.
      - apply Z.compare_lt_iff. by apply scaled_lt_exponent.
      - apply Z.compare_gt_iff. by apply scaled_lt_exponent. }
    destruct sx, sy; simpl in Sx, Sy |- *.
    + rewrite <- Z.compare_opp, !Z.opp_involutive, Z.compare_antisym, Hsame. by destruct (ex ?= ey).
    + apply Z.compare_lt_iff. lia.
    + apply Z.compare_gt_iff. lia.
    + exact Hsame.
Qed.

Lemma ltb_scaled x y : n_valid x = true -> n_valid y = true -> n_ltb x y = (scaled x <? scaled y).
Proof.
  intros Hx Hy. unfold n_ltb, SFltb. rewrite compare_scaled by done. unfold Z.ltb.
  by destruct (scaled x ?= scaled y).
Qed.

Lemma leb_scaled x y : n_valid x = true -> n_valid y = true -> n_leb x y = (scaled x <=? scaled y).
Proof.
  intros Hx Hy. unfold n_leb, SFleb. rewrite compare_scaled by done. unfold Z.leb.
  by destruct (scaled x ?= scaled y).
Qed.

(** ** Sorting by a difference *)

(** The comparator [(a, b) => key(a) - key(b)]. *)
Definition diff_cmp {A} (key : A -> num) (a b : A) : Z := n_sign (n_sub (key a) (key b)).

Lemma diff_cmp_le {A} (key : A -> num) a b :
  n_valid (key a) = true -> n_valid (key b) = true ->
  (diff_cmp key a b <= 0 <-> scaled (key a) <= scaled (key b)).
Proof. intros Ha Hb. unfold diff_cmp. rewrite sub_sign by done. lia. Qed.

Lemma diff_cmp_comparator {A} (key : A -> num) :
  comparator (diff_cmp key) (fun a => n_valid (key a) = true).
Proof.
  split.
  - intros x y Hx Hy. rewrite !diff_cmp_le by done. lia.
  - intros x y z Hx Hy Hz. rewrite !diff_cmp_le by done. lia.
Qed.

Example scaled_ex : scaled (lit "1") = 2 ^ 1074 /\ scaled (lit "5e-324") = 1 /\ n_valid (lit "1e400") = false.
Proof. vm_compute. repeat split. Qed.
