(* ===== verification/NumberError.v ===== *)
(** * Rounding errors

    Multiplication and division of binary64 numbers against the exact results.  Away from
    overflow and from the subnormal numbers a rounded product or quotient differs from
    the exact one by at most a factor of 2^-53; the bounds are stated on integers, with
    all values scaled by 2^1074, so that errors of several operations are combined by
    multiplication.  [round_trip] is the combination the console relies on: a whole number
    divided by one rate, multiplied and divided by another, and multiplied by the first
    comes back when it is rounded. *)
From S2P Require Import Prelude Number NumberOrder.
From Stdlib Require Import SpecFloat.
Local Open Scope Z_scope.

(** ** Locations *)

(** The exact value [X / D] lies where the location [l] says between [m] and [m + 1] units
    of [U / D]. *)
Definition located (U m : Z) (l : location) (X : Z) : Prop :=
  match l with
  | loc_Exact => X = m * U
  | loc_Inexact Lt => m * U < X /\ 2 * X < (2 * m + 1) * U
  | loc_Inexact Eq => 2 * X = (2 * m + 1) * U
  | loc_Inexact Gt => (2 * m + 1) * U < 2 * X /\ X < (m + 1) * U
  end.

Lemma located_shr_1 U r X :
  0 < U -> 0 <= shr_m r ->
  located U (shr_m r) (loc_of_shr_record r) X ->
  located (2 * U) (shr_m (shr_1 r)) (loc_of_shr_record (shr_1 r)) X.
Proof.
  intros HU Hm. destruct r as [[|[p|p|]|p] [] []]; simpl in *; intros H; try lia;
    rewrite ?Pos2Z.inj_xI, ?Pos2Z.inj_xO in H; nia.
Qed.

Lemma located_iter U p r X :
  0 < U -> 0 <= shr_m r ->
  located U (shr_m r) (loc_of_shr_record r) X ->
  located (2 ^ Z.pos p * U) (shr_m (iter_pos shr_1 p r)) (loc_of_shr_record (iter_pos shr_1 p r)) X.
Proof.
  assert (Hnn : forall q r', 0 <= shr_m r' -> 0 <= shr_m (iter_pos shr_1 q r'))
    by (intros q r' H; rewrite iter_shr_pos by done; apply Z.div_pos; [done | apply Z.pow_pos_nonneg; lia]).
  assert (H2 : forall q, 0 < 2 ^ Z.pos q) by (intros; apply Z.pow_pos_nonneg; lia).
  assert (H1 : forall r', 0 <= shr_m r' -> 0 <= shr_m (shr_1 r')) by (intros; apply (Hnn xH); done).
  revert U r. induction p as [p IH|p IH|]; intros U r HU Hr H; simpl iter_pos.
  - replace (2 ^ Z.pos p~1 * U) with (2 ^ Z.pos p * (2 ^ Z.pos p * (2 * U)))
      by (rewrite Pos2Z.inj_xI, Z.pow_add_r, Z.pow_twice_r by lia; lia).
    specialize (H2 p). apply IH; [nia | auto |]. apply IH; [lia | auto |]. by apply located_shr_1.
  - replace (2 ^ Z.pos p~0 * U) with (2 ^ Z.pos p * (2 ^ Z.pos p * U))
      by (rewrite (Pos2Z.inj_xO p), Z.pow_twice_r by lia; lia).
    specialize (H2 p). apply IH; [nia | auto |]. by apply IH.
  - by apply located_shr_1.
Qed.

Lemma located_round U m l X :
  0 < U -> located U m l X ->
  Z.abs (2 * (round_nearest_even m l * U) - 2 * X) <= U /\ m <= round_nearest_even m l <= m + 1.
Proof. intros HU H. destruct l as [|[]]; simpl in *; [lia | destruct (Z.even m); nia | nia | nia]. Qed.

Lemma located_lower U m l X : 0 < U -> located U m l X -> m * U <= X.
Proof. intros HU H. destruct l as [|[]]; simpl in H; nia. Qed.

(** ** Rounding to 53 digits *)

Lemma digits_53 p : 2 ^ 52 <= Z.pos p < 2 ^ 53 -> Z.pos (digits2_pos p) = 53.
Proof.
  intros H. pose proof (digits2_bounds p) as B. destruct (Z.lt_trichotomy (Z.pos (digits2_pos p)) 53) as [L|[E|L]]; [| done |].
  - pose proof (Z.pow_le_mono_r 2 (Z.pos (digits2_pos p)) 52). lia.
  - pose proof (Z.pow_le_mono_r 2 53 (Z.pos (digits2_pos p) - 1)). lia.
Qed.

(** Shifting to the precision: the mantissa has 53 digits and the location is kept. *)
Lemma shr_fexp_53 D p e l X :
  0 < D -> 53 <= Z.pos (digits2_pos p) -> -1074 <= Z.pos (digits2_pos p) + e - 53 ->
  located D (Z.pos p) l X ->
  exists r n, shr_fexp 53 1024 (Z.pos p) e l = (r, e + n) /\ n = Z.pos (digits2_pos p) - 53 /\
    2 ^ 52 <= shr_m r < 2 ^ 53 /\ located (2 ^ n * D) (shr_m r) (loc_of_shr_record r) X.
Proof.
  intros HD Hd He Hl. pose proof (digits2_bounds p) as B.
  unfold shr_fexp, shr. cbn [Zdigits2].
  set (n := Z.pos (digits2_pos p) - 53) in *.
  replace (fexp 53 1024 (Z.pos (digits2_pos p) + e) - e) with n by (unfold fexp, emin, n; lia).
  assert (Hr : shr_m (shr_record_of_loc (Z.pos p) l) = Z.pos p) by (by destruct l as [|[]]).
  assert (Hc : loc_of_shr_record (shr_record_of_loc (Z.pos p) l) = l) by (by destruct l as [|[]]).
  assert (Hs : 2 ^ 52 * 2 ^ n <= Z.pos p < 2 ^ 53 * 2 ^ n).
  { rewrite <- !Z.pow_add_r by lia. unfold n.
    replace (52 + (Z.pos (digits2_pos p) - 53)) with (Z.pos (digits2_pos p) - 1) by lia.
    replace (53 + (Z.pos (digits2_pos p) - 53)) with (Z.pos (digits2_pos p)) by lia. done. }
  destruct n as [|q|q] eqn:En; [| | lia].
  - eexists _, 0. rewrite Z.add_0_r, Hr, Hc, Z.mul_1_l. rewrite Z.pow_0_r, !Z.mul_1_r in Hs. done.
  - eexists _, (Z.pos q). split; [done |]. split; [done |]. split.
    + rewrite iter_shr_pos, Hr by (rewrite Hr; lia). assert (0 < 2 ^ Z.pos q) by (apply Z.pow_pos_nonneg; lia).
      split; [apply Z.div_le_lower_bound | apply Z.div_lt_upper_bound]; lia.
    + apply located_iter; [done | rewrite Hr; lia | by rewrite Hr, Hc].
Qed.

(** A rounded mantissa that became 2^53 is shifted once more, without loss. *)
Lemma shr_fexp_carry m e :
  2 ^ 52 <= m <= 2 ^ 53 -> -1074 <= e ->
  exists r k, shr_fexp 53 1024 m e loc_Exact = (r, e + k) /\ 0 <= k <= 1 /\
    shr_m r * 2 ^ k = m /\ 2 ^ 52 <= shr_m r < 2 ^ 53.
Proof.
  intros Hm He. destruct (Z.eq_dec m (2 ^ 53)) as [->|Hne].
  - eexists _, 1. split; [| split; [lia |]].
    + unfold shr_fexp, shr. replace (fexp 53 1024 (Zdigits2 (2 ^ 53) + e) - e) with 1; [done |].
      change (Zdigits2 (2 ^ 53)) with 54. unfold fexp, emin. lia.
    + done.
  - destruct m as [|p|p]; [lia | | lia]. pose proof (digits_53 p ltac:(lia)) as Hd.
    destruct (shr_fexp_53 1 p e loc_Exact (Z.pos p)) as (r & n & E & -> & Hr & Hl); [lia | lia | lia | simpl; lia |].
    rewrite Hd in *. exists r, 0. split; [done |]. split; [lia |]. split; [| done].
    unfold shr_fexp, shr in E. simpl Zdigits2 in E.
    replace (fexp 53 1024 (Z.pos (digits2_pos p) + e) - e) with 0 in E by (unfold fexp, emin; lia).
    injection E as <- _. simpl. lia.
Qed.

(** The rounded result is within 2^-53 of the exact value [X / D * 2^e]. *)
Lemma round_aux_near s p e l X D :
  0 < D -> located D (Z.pos p) l X ->
  53 <= Z.pos (digits2_pos p) -> -1074 <= Z.pos (digits2_pos p) + e - 53 -> Z.pos (digits2_pos p) + e <= 1000 ->
  exists m k, binary_round_aux 53 1024 s (Z.pos p) e l = S754_finite s m (e + k) /\
    Z.pos (digits2_pos p) - 53 <= k <= Z.pos (digits2_pos p) - 52 /\ 2 ^ 52 <= Z.pos m < 2 ^ 53 /\
    Z.abs (Z.pos m * 2 ^ k * D - X) * 2 ^ 53 <= X.
Proof.
  intros HD Hl Hd Hlo Hhi. unfold binary_round_aux.
  destruct (shr_fexp_53 D p e l X) as (r & n & -> & Hn & Hr & Hl2); [done.. |].
  assert (HU : 0 < 2 ^ n * D) by (apply Z.mul_pos_pos; [apply Z.pow_pos_nonneg; lia | done]).
  destruct (located_round _ _ _ _ HU Hl2) as [Herr Hrng]. pose proof (located_lower _ _ _ _ HU Hl2) as Hlow.
  destruct (shr_fexp_carry (round_nearest_even (shr_m r) (loc_of_shr_record r)) (e + n))
    as (r2 & k & -> & Hk & Hv & Hr2); [lia | lia |].
  destruct (shr_m r2) as [|m|m] eqn:Em; [lia | | lia].
  exists m, (n + k). destruct (Z.leb_spec (e + n + k) (1024 - 53)); [| lia].
  split; [f_equal; lia |]. split; [lia |]. split; [done |].
  rewrite Z.pow_add_r by lia. replace (Z.pos m * (2 ^ n * 2 ^ k) * D) with (Z.pos m * 2 ^ k * (2 ^ n * D)) by lia.
  rewrite Hv. assert (2 ^ 52 * (2 ^ n * D) <= X) by (etrans; [| exact Hlow]; apply Z.mul_le_mono_nonneg_r; lia).
  clear - Herr H0 HU. lia.
Qed.

(** ** Products and quotients *)

(** A normal number of sign [s] with magnitude between 2^-k and 2^(k+1). *)
Definition within (k : Z) (s : bool) (x : num) : Prop :=
  exists m e, x = S754_finite s m e /\ 2 ^ 52 <= Z.pos m < 2 ^ 53 /\ - k <= e + 52 <= k.

(** The same as a test. *)
Definition withinb (k : Z) (x : num) : bool :=
  match x with
  | S754_finite false m e => (2 ^ 52 <=? Z.pos m) && (Z.pos m <? 2 ^ 53) && (- k <=? e + 52) && (e + 52 <=? k)
  | _ => false
  end.

Lemma withinb_spec k x : withinb k x = true -> within k false x.
Proof.
  unfold withinb. destruct x as [| | |[] m e]; try done. rewrite !andb_true_iff, !Z.leb_le, Z.ltb_lt.
  intros (((? & ?) & ?) & ?). by exists m, e.
Qed.

(** Magnitudes, scaled. *)
Definition mag (x : num) : Z := Z.abs (scaled x).

Lemma mag_finite s m e : -1074 <= e -> mag (S754_finite s m e) = Z.pos m * 2 ^ (e + 1074).
Proof.
  intros He. unfold mag, scaled. assert (0 < 2 ^ (e + 1074)) by (apply Z.pow_pos_nonneg; lia).
  destruct s; simpl; lia.
Qed.

Lemma within_mag k s x : within k s x -> k <= 1000 -> 0 < mag x.
Proof.
  intros (m & e & -> & Hm & He) Hk. rewrite mag_finite by lia.
  apply Z.mul_pos_pos; [lia | apply Z.pow_pos_nonneg; lia].
Qed.

Definition one_scaled : Z := 2 ^ 1074.

Lemma digits_range p a b :
  0 <= a -> 2 ^ a <= Z.pos p < 2 ^ b -> a + 1 <= Z.pos (digits2_pos p) <= b.
Proof.
  intros Ha H. pose proof (digits2_bounds p) as B. split.
  - destruct (Z.le_gt_cases (a + 1) (Z.pos (digits2_pos p))); [done |].
    pose proof (Z.pow_le_mono_r 2 (Z.pos (digits2_pos p)) a). lia.
  - destruct (Z.le_gt_cases (Z.pos (digits2_pos p)) b); [done |].
    pose proof (Z.pow_le_mono_r 2 b (Z.pos (digits2_pos p) - 1)). lia.
Qed.

(** A product: [mag (x * y)] against [mag x * mag y]. *)
Lemma mul_near a b s t x y :
  within a s x -> within b t y -> a + b <= 900 ->
  within (a + b + 2) (xorb s t) (n_mul x y) /\
  Z.abs (mag (n_mul x y) * one_scaled - mag x * mag y) * 2 ^ 53 <= mag x * mag y.
Proof.
  intros (m1 & e1 & -> & Hm1 & He1) (m2 & e2 & -> & Hm2 & He2) Hk.
  assert (Hp : 2 ^ 104 <= Z.pos (m1 * m2) < 2 ^ 106) by (rewrite Pos2Z.inj_mul; nia).
  pose proof (digits_range (m1 * m2) 104 106 ltac:(lia) Hp) as Hd.
  unfold n_mul, SFmul.
  destruct (round_aux_near (xorb s t) (m1 * m2) (e1 + e2) loc_Exact (Z.pos (m1 * m2)) 1)
    as (m & k & -> & Hkk & Hm & Herr); [lia | simpl; lia | lia | lia | lia |].
  split; [exists m, (e1 + e2 + k); split; [done |]; split; [done | lia] |].
  rewrite !mag_finite by lia. unfold one_scaled.
  replace (Z.pos m * 2 ^ (e1 + e2 + k + 1074) * 2 ^ 1074)
    with (Z.pos m * 2 ^ k * (2 ^ (e1 + 1074) * 2 ^ (e2 + 1074)))
    by (rewrite <- !Z.mul_assoc, <- !Z.pow_add_r by lia; do 2 f_equal; lia).
  replace (Z.pos m1 * 2 ^ (e1 + 1074) * (Z.pos m2 * 2 ^ (e2 + 1074)))
    with (Z.pos (m1 * m2) * (2 ^ (e1 + 1074) * 2 ^ (e2 + 1074))) by (rewrite Pos2Z.inj_mul; lia).
  assert (HW : 0 < 2 ^ (e1 + 1074) * 2 ^ (e2 + 1074)) by (apply Z.mul_pos_pos; apply Z.pow_pos_nonneg; lia).
  rewrite <- Z.mul_sub_distr_r, Z.abs_mul, (Z.abs_eq (_ * _)) by lia.
  rewrite Z.mul_1_r in Herr. revert HW Herr. clear.
  generalize (2 ^ (e1 + 1074) * 2 ^ (e2 + 1074)). intros W HW Herr.
  replace (Z.abs (Z.pos m * 2 ^ k - Z.pos (m1 * m2)) * W * 2 ^ 53)
    with (Z.abs (Z.pos m * 2 ^ k - Z.pos (m1 * m2)) * 2 ^ 53 * W) by lia.
  apply Z.mul_le_mono_nonneg_r; lia.
Qed.

Lemma new_location_located d q r : 0 < d -> 0 <= r < d -> located d q (new_location d r) (q * d + r).
Proof.
  intros Hd Hr. unfold new_location, new_location_even, new_location_odd.
  destruct (Z.even d) eqn:Ev; destruct (Z.eqb_spec r 0) as [->|Hr0]; simpl; try lia.
  - destruct (Z.compare_spec (2 * r) d); simpl; lia.
  - destruct (Z.compare_spec (2 * r + 1) d) as [H|H|H]; simpl; [lia | lia |].
    assert (2 * r <> d) by (intros <-; by rewrite Z.even_mul in Ev). lia.
Qed.

(** A quotient: [mag (x / y) * mag y] against [mag x]. *)
Lemma div_near a b s t x y :
  within a s x -> within b t y -> a + b <= 900 ->
  within (a + b + 2) (xorb s t) (n_div x y) /\
  Z.abs (mag (n_div x y) * mag y - mag x * one_scaled) * 2 ^ 53 <= mag x * one_scaled.
Proof.
  intros (m1 & e1 & -> & Hm1 & He1) (m2 & e2 & -> & Hm2 & He2) Hk.
  unfold n_div, SFdiv, SFdiv_core_binary. cbn [Zdigits2].
  rewrite (digits_53 m1 Hm1), (digits_53 m2 Hm2).
  replace (Z.min (fexp 53 1024 (53 + e1 - (53 + e2))) (e1 - e2)) with (e1 - e2 - 53) by (unfold fexp, emin; lia).
  replace (e1 - e2 - (e1 - e2 - 53)) with 53 by lia. cbv iota zeta.
  pose proof (Z_div_mod (Z.shiftl (Z.pos m1) 53) (Z.pos m2) ltac:(lia)) as Hq.
  destruct (Z.div_eucl (Z.shiftl (Z.pos m1) 53) (Z.pos m2)) as [q r]. destruct Hq as [Hq Hr].
  rewrite Z.shiftl_mul_pow2 in Hq by lia.
  assert (Hqr : 2 ^ 52 <= q < 2 ^ 54) by (clear - Hq Hr Hm1 Hm2; nia).
  destruct q as [|q|q]; [lia | | lia].
  pose proof (digits_range q 52 54 ltac:(lia) Hqr) as Hd.
  destruct (round_aux_near (xorb s t) q (e1 - e2 - 53) (new_location (Z.pos m2) r)
              (Z.pos q * Z.pos m2 + r) (Z.pos m2)) as (m & k & -> & Hkk & Hm & Herr);
    [lia | apply new_location_located; lia | lia | lia | lia |].
  split; [exists m, (e1 - e2 - 53 + k); split; [done |]; split; [done | lia] |].
  rewrite !mag_finite by lia. unfold one_scaled.
  replace (Z.pos q * Z.pos m2 + r) with (Z.pos m1 * 2 ^ 53) in Herr by lia.
  set (W := 2 ^ (e1 + 1074 - 53) * 2 ^ 1074).
  replace (Z.pos m * 2 ^ (e1 - e2 - 53 + k + 1074) * (Z.pos m2 * 2 ^ (e2 + 1074)))
    with (Z.pos m * 2 ^ k * Z.pos m2 * W).
  2:{ unfold W. transitivity (Z.pos m * Z.pos m2 * (2 ^ k * (2 ^ (e1 + 1074 - 53) * 2 ^ 1074))); [lia |].
      transitivity (Z.pos m * Z.pos m2 * (2 ^ (e1 - e2 - 53 + k + 1074) * 2 ^ (e2 + 1074))); [| lia].
      rewrite <- !Z.pow_add_r by lia. do 2 f_equal. lia. }
  replace (Z.pos m1 * 2 ^ (e1 + 1074) * 2 ^ 1074) with (Z.pos m1 * 2 ^ 53 * W)
    by (unfold W; rewrite <- !Z.mul_assoc, <- !Z.pow_add_r by lia; do 2 f_equal; lia).
  assert (HW : 0 < W) by (apply Z.mul_pos_pos; apply Z.pow_pos_nonneg; lia).
  rewrite <- Z.mul_sub_distr_r, Z.abs_mul, (Z.abs_eq W) by lia.
  revert HW Herr. clear. clearbody W. intros HW Herr.
  replace (Z.abs (Z.pos m * 2 ^ k * Z.pos m2 - Z.pos m1 * 2 ^ 53) * W * 2 ^ 53)
    with (Z.abs (Z.pos m * 2 ^ k * Z.pos m2 - Z.pos m1 * 2 ^ 53) * 2 ^ 53 * W) by lia.
  apply Z.mul_le_mono_nonneg_r; lia.
Qed.

(** ** Whole numbers *)

Lemma n_of_Z_within u :
  0 < Z.abs u < 2 ^ 53 -> within 52 (u <? 0) (n_of_Z u) /\ mag (n_of_Z u) = Z.abs u * one_scaled.
Proof.
  assert (H : forall s p, Z.pos p < 2 ^ 53 ->
    within 52 s (binary_round 53 1024 s p 0) /\ mag (binary_round 53 1024 s p 0) = Z.pos p * one_scaled).
  { intros s p Hp. unfold binary_round. pose proof (digits2_bounds p) as B.
    pose proof (digits_range p 0 53 ltac:(lia) ltac:(lia)) as Hd.
    rewrite Z.add_0_r. set (e := fexp 53 1024 (Z.pos (digits2_pos p))).
    assert (He : e = Z.pos (digits2_pos p) - 53) by (unfold e, fexp, emin; lia).
    destruct (shl_align_value p 0 e ltac:(lia)) as [Hv Hs]. destruct (shl_align p 0 e) as [m e']. simpl in Hv, Hs. subst e'.
    assert (Hm : 2 ^ 52 <= Z.pos m < 2 ^ 53).
    { rewrite Hv. assert (E : 2 ^ (0 - e) * 2 ^ (Z.pos (digits2_pos p) - 1) = 2 ^ 52)
        by (rewrite <- Z.pow_add_r by lia; f_equal; lia).
      assert (E2 : 2 ^ (0 - e) * 2 ^ Z.pos (digits2_pos p) = 2 ^ 53) by (rewrite <- Z.pow_add_r by lia; f_equal; lia).
      assert (0 < 2 ^ (0 - e)) by (apply Z.pow_pos_nonneg; lia). nia. }
    pose proof (digits_53 m Hm) as Hd2.
    assert (Hr : binary_round_aux 53 1024 s (Z.pos m) e loc_Exact = S754_finite s m e).
    { unfold binary_round_aux, shr_fexp, shr. cbn [Zdigits2]. rewrite Hd2.
      replace (fexp 53 1024 (53 + e) - e) with 0 by (unfold fexp, emin; lia). simpl. rewrite Hd2.
      replace (fexp 53 1024 (53 + e) - e) with 0 by (unfold fexp, emin; lia). simpl.
      destruct (Z.leb_spec e (1024 - 53)); [done | lia]. }
    rewrite Hr. split; [exists m, e; split; [done |]; split; [done | lia] |].
    rewrite mag_finite by lia. rewrite Hv. unfold one_scaled. rewrite <- Z.mul_assoc, <- Z.pow_add_r by lia.
    do 2 f_equal. lia. }
  intros Hu. destruct u as [|p|p]; [simpl in Hu; lia | |]; apply (H _ p); simpl in Hu; lia.
Qed.

(** [Math.round] of a number close to an integer. *)
Lemma math_round_near k s x u :
  within k s x -> k <= 900 -> 0 < u <= 2 ^ 50 -> 2 * Z.abs (mag x - u * one_scaled) < one_scaled ->
  math_round x = n_of_Z (cond_Zopp s u).
Proof.
  intros (m & e & -> & Hm & He) Hk Hu H. rewrite mag_finite in H by lia. unfold one_scaled in H.
  assert (Hneg : e < 0).
  { destruct (Z.lt_ge_cases e 0) as [|Hge]; [done |]. exfalso.
    rewrite Z.pow_add_r in H by lia. assert (0 < 2 ^ e) by (apply Z.pow_pos_nonneg; lia).
    assert (0 < 2 ^ 1074) by (apply Z.pow_pos_nonneg; lia). generalize dependent (2 ^ 1074). intros B H HB.
    assert (2 ^ 52 * B <= Z.pos m * (2 ^ e * B)) by (apply Z.mul_le_mono_nonneg; [lia.. | nia]).
    assert (u * B <= 2 ^ 50 * B) by (apply Z.mul_le_mono_nonneg_r; lia). lia. }
  unfold math_round. destruct (Z.leb_spec 0 e); [lia |].
  assert (Hq : 2 * Z.abs (Z.pos m - u * 2 ^ (- e)) < 2 ^ (- e)).
  { replace (2 ^ 1074) with (2 ^ (- e) * 2 ^ (e + 1074)) in H by (rewrite <- Z.pow_add_r by lia; f_equal; lia).
    assert (0 < 2 ^ (e + 1074)) by (apply Z.pow_pos_nonneg; lia).
    generalize dependent (2 ^ (e + 1074)). generalize (2 ^ (- e)). intros A W H HW.
    replace (Z.pos m * W - u * (A * W)) with ((Z.pos m - u * A) * W) in H by lia.
    rewrite Z.abs_mul, (Z.abs_eq W) in H by lia. nia. }
  assert (HA : 0 < 2 ^ (- e)) by (apply Z.pow_pos_nonneg; lia). generalize dependent (2 ^ (- e)). intros A Hq HA.
  assert (Hdiv : (2 * (if s then Z.opp else id) (Z.pos m) + A) / (2 * A) = cond_Zopp s u).
  { symmetry. destruct s; simpl; [apply Z.div_unique with (2 * - Z.pos m + A + 2 * A * u)
      | apply Z.div_unique with (2 * id (Z.pos m) + A - 2 * A * u)]; unfold id; lia. }
  rewrite Hdiv. destruct s, u; reflexivity || lia.
Qed.

(** ** Dividing and multiplying back *)

Lemma error_factors t x y : 0 < t -> Z.abs (x - y) * t <= y -> x * t <= y * (t + 1) /\ y * (t - 1) <= x * t.
Proof. intros Ht H. destruct (Z.abs_spec (x - y)) as [[_ E]|[_ E]]; rewrite E in H; nia. Qed.

Section Chain.
Variables (t b u d c a q r B : Z).
Hypotheses (Ht : 0 < t) (Hq : 0 < q) (Hr : 0 < r) (HB : 0 < B).
Hypotheses (Hua : Z.abs (a * q - u * B) * t <= u * B) (Hab : Z.abs (b * B - a * r) * t <= a * r)
  (Hbc : Z.abs (c * r - b * B) * t <= b * B) (Hcd : Z.abs (d * B - c * q) * t <= c * q).

Lemma cancel_le x y z : 0 < z -> x * z <= y * z -> x <= y.
Proof. nia. Qed.

(** Four errors combine to four factors. *)
Lemma chain_upper : d * t ^ 4 <= u * (t + 1) ^ 4.
Proof.
  apply (cancel_le _ _ (B * B * r)); [nia |].
  assert (H1 : d * B * t <= c * q * (t + 1)) by apply (error_factors _ _ _ Ht Hcd).
  assert (H2 : c * r * t <= b * B * (t + 1)) by apply (error_factors _ _ _ Ht Hbc).
  assert (H3 : b * B * t <= a * r * (t + 1)) by apply (error_factors _ _ _ Ht Hab).
  assert (H4 : a * q * t <= u * B * (t + 1)) by apply (error_factors _ _ _ Ht Hua).
  assert (S1 : d * B * t * (r * t) <= b * B * (t + 1) * (q * (t + 1))).
  { transitivity (c * q * (t + 1) * (r * t)); [apply Z.mul_le_mono_nonneg_r; nia |].
    replace (c * q * (t + 1) * (r * t)) with (c * r * t * (q * (t + 1))) by lia. apply Z.mul_le_mono_nonneg_r; nia. }
  assert (S2 : d * B * t * (r * t) * t <= a * r * (t + 1) * (q * (t + 1) ^ 2)).
  { transitivity (b * B * (t + 1) * (q * (t + 1)) * t); [apply Z.mul_le_mono_nonneg_r; lia |].
    replace (b * B * (t + 1) * (q * (t + 1)) * t) with (b * B * t * (q * (t + 1) ^ 2)) by lia.
    apply Z.mul_le_mono_nonneg_r; nia. }
  assert (S3 : d * B * t * (r * t) * t * t <= u * B * (t + 1) * (r * (t + 1) ^ 3)).
  { transitivity (a * r * (t + 1) * (q * (t + 1) ^ 2) * t); [apply Z.mul_le_mono_nonneg_r; lia |].
    replace (a * r * (t + 1) * (q * (t + 1) ^ 2) * t) with (a * q * t * (r * (t + 1) ^ 3)) by lia.
    apply Z.mul_le_mono_nonneg_r; nia. }
  apply (Z.mul_le_mono_nonneg_r _ _ B) in S3; [| lia].
  replace (d * t ^ 4 * (B * B * r)) with (d * B * t * (r * t) * t * t * B) by lia.
  replace (u * (t + 1) ^ 4 * (B * B * r)) with (u * B * (t + 1) * (r * (t + 1) ^ 3) * B) by lia. exact S3.
Qed.

Lemma chain_lower : 1 < t -> u * (t - 1) ^ 4 <= d * t ^ 4.
Proof.
  intros Ht1. apply (cancel_le _ _ (B * B * r)); [nia |].
  assert (H1 : c * q * (t - 1) <= d * B * t) by apply (error_factors _ _ _ Ht Hcd).
  assert (H2 : b * B * (t - 1) <= c * r * t) by apply (error_factors _ _ _ Ht Hbc).
  assert (H3 : a * r * (t - 1) <= b * B * t) by apply (error_factors _ _ _ Ht Hab).
  assert (H4 : u * B * (t - 1) <= a * q * t) by apply (error_factors _ _ _ Ht Hua).
  assert (S1 : b * B * (t - 1) * (q * (t - 1)) <= d * B * t * (r * t)).
  { transitivity (c * q * (t - 1) * (r * t)); [| apply Z.mul_le_mono_nonneg_r; nia].
    replace (c * q * (t - 1) * (r * t)) with (c * r * t * (q * (t - 1))) by lia. apply Z.mul_le_mono_nonneg_r; nia. }
  assert (S2 : a * r * (t - 1) * (q * (t - 1) ^ 2) <= d * B * t * (r * t) * t).
  { transitivity (b * B * (t - 1) * (q * (t - 1)) * t); [| apply Z.mul_le_mono_nonneg_r; lia].
    replace (b * B * (t - 1) * (q * (t - 1)) * t) with (b * B * t * (q * (t - 1) ^ 2)) by lia.
    apply Z.mul_le_mono_nonneg_r; nia. }
  assert (S3 : u * B * (t - 1) * (r * (t - 1) ^ 3) <= d * B * t * (r * t) * t * t).
  { transitivity (a * r * (t - 1) * (q * (t - 1) ^ 2) * t); [| apply Z.mul_le_mono_nonneg_r; lia].
    replace (a * r * (t - 1) * (q * (t - 1) ^ 2) * t) with (a * q * t * (r * (t - 1) ^ 3)) by lia.
    apply Z.mul_le_mono_nonneg_r; nia. }
  apply (Z.mul_le_mono_nonneg_r _ _ B) in S3; [| lia].
  replace (d * t ^ 4 * (B * B * r)) with (d * B * t * (r * t) * t * t * B) by lia.
  replace (u * (t - 1) ^ 4 * (B * B * r)) with (u * B * (t - 1) * (r * (t - 1) ^ 3) * B) by lia. exact S3.
Qed.
End Chain.

(** A whole number up to 2^49 divided by [q], multiplied and divided by [r] and multiplied
    by [q] again is recovered by rounding, though every step rounds. *)
Lemma round_trip u q r :
  0 < Z.abs u <= 2 ^ 49 -> within 100 false q -> within 100 false r ->
  math_round (n_mul (n_div (n_mul (n_div (n_of_Z u) q) r) r) q) = n_of_Z u.
Proof.
  intros Hu Wq Wr. destruct (n_of_Z_within u ltac:(lia)) as [Wu Mu].
  destruct (div_near _ _ _ _ _ _ Wu Wq ltac:(lia)) as [Wa Ha].
  destruct (mul_near _ _ _ _ _ _ Wa Wr ltac:(lia)) as [Wb Hb].
  destruct (div_near _ _ _ _ _ _ Wb Wr ltac:(lia)) as [Wc Hc].
  destruct (mul_near _ _ _ _ _ _ Wc Wq ltac:(lia)) as [Wd Hd].
  pose proof (within_mag _ _ _ Wq ltac:(lia)) as Pq. pose proof (within_mag _ _ _ Wr ltac:(lia)) as Pr.
  assert (HB : 0 < one_scaled) by (apply Z.pow_pos_nonneg; lia).
  pose proof (chain_upper (2 ^ 53) _ _ _ _ _ _ _ _ ltac:(lia) Pq Pr HB Ha Hb Hc Hd) as Up.
  pose proof (chain_lower (2 ^ 53) _ _ _ _ _ _ _ _ ltac:(lia) Pq Pr HB Ha Hb Hc Hd ltac:(lia)) as Lo.
  rewrite Mu in Up, Lo.
  rewrite !xorb_false_r in Wd.
  rewrite (math_round_near _ _ _ (Z.abs u) Wd); [| lia | lia |].
  - f_equal. destruct (Z.ltb_spec u 0); simpl; lia.
  - revert Up Lo HB Hu. clear. generalize (mag (n_mul (n_div (n_mul (n_div (n_of_Z u) q) r) r) q)).
    generalize one_scaled. intros B d Up Lo HB Hu.
    assert (Z.abs u * B <= 2 ^ 49 * B) by nia. lia.
Qed.

(** The same with one rate. *)
Lemma round_trip_one u q :
  0 < Z.abs u <= 2 ^ 49 -> within 100 false q -> math_round (n_mul (n_div (n_of_Z u) q) q) = n_of_Z u.
Proof.
  intros Hu Wq. destruct (n_of_Z_within u ltac:(lia)) as [Wu Mu].
  destruct (div_near _ _ _ _ _ _ Wu Wq ltac:(lia)) as [Wa Ha].
  destruct (mul_near _ _ _ _ _ _ Wa Wq ltac:(lia)) as [Wb Hb].
  assert (HB : 0 < one_scaled) by (apply Z.pow_pos_nonneg; lia).
  apply error_factors in Ha, Hb; [| done..]. rewrite Mu in Ha. rewrite !xorb_false_r in Wb.
  rewrite (math_round_near _ _ _ (Z.abs u) Wb); [| lia | lia |].
  - f_equal. destruct (Z.ltb_spec u 0); simpl; lia.
  - revert Ha Hb HB Hu. clear. generalize (mag (n_mul (n_div (n_of_Z u) q) q)).
    generalize (mag (n_div (n_of_Z u) q) * mag q). generalize one_scaled. intros B c d Ha Hb HB Hu.
    assert (Z.abs u * B <= 2 ^ 49 * B) by (apply Z.mul_le_mono_nonneg_r; lia).
    destruct Ha as [A1 A2], Hb as [B1 B2].
    assert (Z.abs u * B * B * (2 ^ 53 - 1) ^ 2 <= d * B * 2 ^ 106 <= Z.abs u * B * B * (2 ^ 53 + 1) ^ 2) as Hd by lia.
    assert (Z.abs u * B * (2 ^ 53 - 1) ^ 2 <= d * 2 ^ 106 <= Z.abs u * B * (2 ^ 53 + 1) ^ 2) by nia. lia.
Qed.

(** ** The order of whole numbers *)

Lemma within_valid k s x : within k s x -> k <= 900 -> n_valid x = true.
Proof.
  intros (m & e & -> & Hm & He) Hk. unfold n_valid. simpl. unfold bounded, canonical_mantissa.
  rewrite (digits_53 m Hm), andb_true_iff, Z.eqb_eq, Z.leb_le. unfold fexp, emin. lia.
Qed.

Lemma n_of_Z_valid u : Z.abs u < 2 ^ 53 -> n_valid (n_of_Z u) = true /\ scaled (n_of_Z u) = u * one_scaled.
Proof.
  intros Hu. destruct (Z.eq_dec u 0) as [->|Hne]; [done |].
  destruct (n_of_Z_within u ltac:(lia)) as [W M]. split; [by apply (within_valid 52 (u <? 0)) |].
  unfold mag in M. assert (0 < one_scaled) by (apply Z.pow_pos_nonneg; lia).
  destruct W as (m & e & E & Hm & He). rewrite E in M |- *.
  pose proof (scaled_sign (u <? 0) m e ltac:(lia)) as Hs.
  destruct (Z.ltb_spec u 0); nia.
Qed.

Lemma leb_whole a b : Z.abs a < 2 ^ 53 -> Z.abs b < 2 ^ 53 -> n_leb (n_of_Z a) (n_of_Z b) = (a <=? b).
Proof.
  intros Ha Hb. destruct (n_of_Z_valid a Ha) as [Va Sa], (n_of_Z_valid b Hb) as [Vb Sb].
  rewrite leb_scaled, Sa, Sb by done. assert (0 < one_scaled) by (apply Z.pow_pos_nonneg; lia).
  destruct (Z.leb_spec a b), (Z.leb_spec (a * one_scaled) (b * one_scaled)); nia || done.
Qed.

(** ** Rounded numbers between whole numbers *)

(** Rounding never lowers the exponent. *)
Lemma round_aux_exponent s m e l : match binary_round_aux 53 1024 s m e l with S754_finite _ _ e' => e <= e' | _ => True end.
Proof.
  assert (Hs : forall m e l, e <= snd (shr_fexp 53 1024 m e l)).
  { intros m' e' l'. unfold shr_fexp, shr. destruct (_ - e'); simpl; lia. }
  unfold binary_round_aux. pose proof (Hs m e l) as H1. destruct (shr_fexp 53 1024 m e l) as [r e1].
  pose proof (Hs (round_nearest_even (shr_m r) (loc_of_shr_record r)) e1 loc_Exact) as H2. destruct (shr_fexp 53 1024 _ e1 loc_Exact) as [r2 e2].
  simpl in *. destruct (shr_m r2); [done | | done]. destruct (_ <=? _); [lia | done].
Qed.

Lemma n_of_Z_big p : 2 ^ 53 <= Z.pos p -> match n_of_Z (Z.pos p) with S754_finite _ _ e => 0 <= e | _ => True end.
Proof.
  intros Hp. change (n_of_Z (Z.pos p)) with (binary_round 53 1024 false p 0). unfold binary_round. rewrite Z.add_0_r.
  assert (Hd : 54 <= Z.pos (digits2_pos p)).
  { pose proof (digits2_bounds p) as [_ B]. destruct (Z.le_gt_cases 54 (Z.pos (digits2_pos p))); [done |].
    assert (2 ^ Z.pos (digits2_pos p) <= 2 ^ 53) by (apply Z.pow_le_mono_r; lia). lia. }
  assert (shl_align p 0 (fexp 53 1024 (Z.pos (digits2_pos p))) = (p, 0)) as ->.
  { unfold shl_align. assert (0 < fexp 53 1024 (Z.pos (digits2_pos p)) - 0) by (unfold fexp, emin; lia).
    destruct (_ - 0); [lia | done | lia]. }
  apply round_aux_exponent.
Qed.

(** A number without fraction bits is above every whole number below 2^52. *)
Lemma coarse_above m e a : 0 <= e -> 0 <= a < 2 ^ 52 -> n_leb (S754_finite false m e) (n_of_Z a) = false.
Proof.
  intros He Ha. destruct (Z.eq_dec a 0) as [->|Hne]; [done |]. destruct (n_of_Z_within a ltac:(lia)) as [(m2 & e2 & E & Hm & He2) M].
  rewrite E in M |- *. rewrite mag_finite in M by lia. unfold one_scaled in M.
  assert (e2 < 0) as Hlt.
  { destruct (Z.lt_ge_cases e2 0); [done |]. assert (2 ^ 1074 <= 2 ^ (e2 + 1074)) by (apply Z.pow_le_mono_r; lia). nia. }
  destruct (Z.ltb_spec a 0); [lia |]. unfold n_leb, SFleb, SFcompare. by rewrite (proj2 (Z.compare_gt_iff e e2)) by lia.
Qed.

Lemma positive_above m s k e : 0 < m < 2 ^ 53 -> n_leb (n_of_Z m) (S754_finite s k e) = true -> s = false.
Proof.
  intros Hm. destruct (n_of_Z_within m ltac:(lia)) as [(m2 & e2 & -> & _) _]. destruct (Z.ltb_spec m 0); [lia |]. by destruct s.
Qed.

(** A rounded number that lies between two whole numbers is a whole number between them. *)
Lemma rounded_between x m a : 0 < m < 2 ^ 53 -> 0 <= a < 2 ^ 52 ->
  n_leb (n_of_Z m) (math_round x) = true -> n_leb (math_round x) (n_of_Z a) = true ->
  exists z, math_round x = n_of_Z z /\ m <= z <= a.
Proof.
  intros Hm Ha Hl Hu. destruct (n_of_Z_within m ltac:(lia)) as [(m2 & e2 & Em & _) _]. destruct (Z.ltb_spec m 0) in Em; [lia |].
  destruct x as [s|s| |s k e]; cbn [math_round] in *.
  - rewrite Em in Hl. by destruct s.
  - destruct s; [by rewrite Em in Hl |]. destruct (Z.eq_dec a 0) as [->|Hne]; [done |].
    destruct (n_of_Z_within a ltac:(lia)) as [(m3 & e3 & Ea & _) _]. by rewrite Ea in Hu.
  - by rewrite Em in Hl.
  - destruct (Z.leb_spec 0 e) as [He | He].
    { apply positive_above in Hl as ->; [| done]. by rewrite coarse_above in Hu. }
    set (z := (2 * _ + _) / _) in *. clearbody z. destruct z as [|p|p].
    + rewrite Em in Hl. by destruct s.
    + exists (Z.pos p). split; [done |]. change (binary_normalize 53 1024 (Z.pos p) 0 s) with (n_of_Z (Z.pos p)) in *.
      destruct (Z.lt_ge_cases (Z.pos p) (2 ^ 53)) as [Hp | Hp].
      * rewrite leb_whole in Hl, Hu by lia. lia.
      * pose proof (n_of_Z_big p Hp) as Hb. destruct (n_of_Z (Z.pos p)) as [t|t| |t k' e'] eqn:Ep.
        -- rewrite Em in Hl. by destruct t.
        -- destruct t; [by rewrite Em in Hl |]. destruct (Z.eq_dec a 0) as [->|Hne]; [done |].
           destruct (n_of_Z_within a ltac:(lia)) as [(m3 & e3 & Ea & _) _]. by rewrite Ea in Hu.
        -- by rewrite Em in Hl.
        -- apply positive_above in Hl as ->; [| done]. by rewrite coarse_above in Hu.
    + pose proof (round_sign true p 0 ltac:(lia)) as Hs. change (binary_normalize 53 1024 (Z.neg p) 0 s) with (binary_round 53 1024 true p 0) in *.
      destruct (binary_round 53 1024 true p 0) as [t|t| |t k' e']; [done | | done |]; destruct t; try done; by rewrite Em in Hl.
Qed.
