(* ===== verification/HttpStatusRules.v ===== *)
(** * HTTP status code rules

    Model of [web/default/src/lib/http-status-code-rules.ts]: the text an
    administrator types for a set of status codes ("500-503, 429") is split
    into tokens, each token parsed to a range, and the ranges merged into a
    canonical list that is printed back. *)
From S2P Require Import Prelude.

Module StatusRules.

Record StatusCodeRange := mkRange { start : N; end_ : N }.

#[global] Instance range_eq_dec : EqDecision StatusCodeRange.
Proof. solve_decision. Defined.

Record ParsedHttpStatusCodeRules := mkParsed {
  ok : bool;
  ranges : list StatusCodeRange;
  tokens : list str;
  normalized : str;
  invalidTokens : list str
}.

(** [isNumber]: [typeof s === 'string' && /^\d+$/.test(s)]; a missing piece of
    a split is [undefined], which is no string. *)
Definition isNumber (s : option str) : bool :=
  match s with Some t => all_digits t | None => false end.

(** [isValidCode]; the codes come from strings of digits, so they are natural
    numbers, and one too large for a double is rejected like any above 599. *)
Definition isValidCode (code : N) : bool := ((100 <=? code) && (code <=? 599))%N.

(** [Number.parseInt(s, 10)] on a piece that [isNumber] accepted. *)
Definition parse_int (s : option str) : N := digits_val (default [] s).

Definition minus : N := 45.

Definition parseToken (token : str) : option StatusCodeRange :=
  let cleaned := List.filter (fun c => negb (is_space c)) (trim token) in
  if negb (truthy cleaned) then None
  else if str_includes cleaned [minus] then
    let pieces := split_on minus cleaned in
    let a := pieces !! 0%nat in
    let b := pieces !! 1%nat in
    if negb (isNumber a) || negb (isNumber b) then None
    else
      let s := parse_int a in
      let e := parse_int b in
      if negb (isValidCode s) || negb (isValidCode e) || (e <? s)%N then None
      else Some (mkRange s e)
  else if negb (isNumber (Some cleaned)) then None
  else
    let code := parse_int (Some cleaned) in
    if negb (isValidCode code) then None else Some (mkRange code code).

(** The comparator of [mergeRanges]. *)
Definition range_cmp (a b : StatusCodeRange) : Z :=
  if negb (start a =? start b)%N then (Z.of_N (start a) - Z.of_N (start b))%Z
  else (Z.of_N (end_ a) - Z.of_N (end_ b))%Z.

(** The reducer of [mergeRanges]; [merged] is kept with its last element first,
    which is the one the code reads and updates in place. *)
Definition merge_step (merged : list StatusCodeRange) (current : StatusCodeRange) :
  list StatusCodeRange :=
  match merged with
  | [] => [current]
  | last :: rest =>
      if (end_ last + 1 <? start current)%N then current :: merged
      else mkRange (start last) (N.max (end_ last) (end_ current)) :: rest
  end.

Definition mergeRanges (rs : list StatusCodeRange) : list StatusCodeRange :=
  match rs with
  | [] => []
  | _ => reverse (foldl merge_step [] (sort_by range_cmp rs))
  end.

Definition show_range (r : StatusCodeRange) : str :=
  if (start r =? end_ r)%N then show_N (start r)
  else show_N (start r) ++ minus :: show_N (end_ r).

Definition comma : N := 44.
Definition fullwidth_comma : N := 65292.

(** [raw.replace(/[，]/g, ',')]. *)
Definition sanitize (raw : str) : str :=
  map (fun c => if (c =? fullwidth_comma)%N then comma else c) raw.

Definition segments_of (raw : str) : list str :=
  List.filter truthy (map trim (split_on comma (sanitize raw))).

(** The loop over [segments]: ranges of the good ones, text of the bad ones. *)
Definition parse_segments (segments : list str) : list StatusCodeRange * list str :=
  foldl (fun '(rs, bad) segment =>
           match parseToken segment with
           | None => (rs, bad ++ [segment])
           | Some r => (rs ++ [r], bad)
           end) ([], []) segments.

Definition parseHttpStatusCodeRules (input : option str) : ParsedHttpStatusCodeRules :=
  let raw := trim (default [] input) in
  if (length raw =? 0)%nat then mkParsed true [] [] [] []
  else
    let '(rs, bad) := parse_segments (segments_of raw) in
    if (0 <? length bad)%nat then mkParsed false [] [] raw bad
    else
      let merged := mergeRanges rs in
      let toks := map show_range merged in
      mkParsed true merged toks (join [comma] toks) [].

(** ** Examples *)

Example parse_ex1 :
  parseHttpStatusCodeRules (Some (js " 429, 500-503，502 - 505,506 "))
  = mkParsed true [mkRange 429 429; mkRange 500 506] [js "429"; js "500-506"]
      (js "429,500-506") [].
Proof. reflexivity. Qed.

Example parse_ex2 :
  parseHttpStatusCodeRules (Some (js "429,99,600-700,5x"))
  = mkParsed false [] [] (js "429,99,600-700,5x") [js "99"; js "600-700"; js "5x"].
Proof. reflexivity. Qed.

(** ** Ranges *)

Definition in_range (c : N) (r : StatusCodeRange) : Prop := (start r <= c <= end_ r)%N.
Definition covers (c : N) (rs : list StatusCodeRange) : Prop :=
  exists r, r ∈ rs /\ in_range c r.

(** A range as [parseToken] returns it. *)
Definition valid_range (r : StatusCodeRange) : Prop :=
  (100 <= start r /\ start r <= end_ r /\ end_ r <= 599)%N.
Definition ordered (r : StatusCodeRange) : Prop := (start r <= end_ r)%N.

(** Ascending, with a gap of at least one code between neighbours. *)
Definition canonical (rs : list StatusCodeRange) : Prop :=
  StronglySorted (fun a b => end_ a + 1 < start b)%N rs /\ Forall ordered rs.

Lemma covers_cons c r rs : covers c (r :: rs) <-> in_range c r \/ covers c rs.
Proof. unfold covers. setoid_rewrite elem_of_cons. naive_solver. Qed.

Lemma covers_nil c : ~ covers c [].
Proof. intros (r & H & _). set_solver. Qed.

#[global] Instance covers_perm c : Proper ((≡ₚ) ==> iff) (covers c).
Proof. intros l1 l2 H. unfold covers. by setoid_rewrite H. Qed.

Ltac range_cases :=
  unfold range_cmp, ordered in *;
  repeat match goal with H : context [(start _ =? start _)%N] |- _ => revert H end;
  repeat match goal with
         | |- context [(start ?a =? start ?b)%N] => destruct (N.eqb_spec (start a) (start b))
         end; simpl in *; lia.

Lemma range_comparator : comparator range_cmp (fun _ => True).
Proof. split; intros; range_cases. Qed.

Lemma sort_ranges_starts rs :
  StronglySorted (fun a b => start a <= start b)%N (sort_by range_cmp rs).
Proof.
  assert (H : cmp_sorted range_cmp (sort_by range_cmp rs)).
  { eapply sort_by_sorted; [apply range_comparator | by apply Forall_true]. }
  induction H as [|x l Hs IH Hx]; constructor; [done |].
  eapply Forall_impl; [exact Hx |]. intros y Hy. range_cases.
Qed.

(** The accumulator of the merge: descending, separated, ordered. *)
Definition merge_inv (acc : list StatusCodeRange) : Prop :=
  StronglySorted (fun a b => end_ b + 1 < start a)%N acc /\ Forall ordered acc.
Definition starts_after (acc l : list StatusCodeRange) : Prop :=
  match acc with [] => True | a :: _ => Forall (fun r => start a <= start r)%N l end.

Lemma merge_step_inv acc r :
  merge_inv acc -> ordered r -> starts_after acc [r] -> merge_inv (merge_step acc r).
Proof.
  intros [Hs Ho] Hr Ha. destruct acc as [|a acc]; simpl.
  - split; repeat constructor. done.
  - apply Forall_singleton in Ha. apply StronglySorted_cons in Hs as [Hsa Hs].
    apply Forall_cons in Ho as [Hoa Ho].
    destruct (N.ltb_spec (end_ a + 1) (start r)) as [Hlt|Hge].
    + split; [| by repeat constructor].
      constructor; [by constructor |]. constructor; [done |].
      eapply Forall_impl; [exact Hsa |]. simpl. unfold ordered in *. lia.
    + split; constructor; simpl; try done. unfold ordered in *. simpl. lia.
Qed.

Lemma merge_step_covers c acc r :
  ordered r -> Forall ordered acc -> starts_after acc [r] ->
  covers c (merge_step acc r) <-> covers c acc \/ in_range c r.
Proof.
  intros Hr Ho Ha. destruct acc as [|a acc]; simpl.
  - rewrite covers_cons. pose proof (covers_nil c). tauto.
  - simpl in Ha. inv Ha. inv Ho.
    destruct (N.ltb_spec (end_ a + 1) (start r)) as [Hlt|Hge]; rewrite !covers_cons; [tauto |].
    unfold in_range, ordered in *; simpl. split; [| intuition lia].
    intros [?|?]; [| tauto].
    destruct (N.le_gt_cases c (end_ a)); [left; left; lia | right; lia].
Qed.

Lemma merge_step_starts acc r l :
  starts_after acc (r :: l) -> Forall (fun x => start r <= start x)%N l ->
  starts_after (merge_step acc r) l.
Proof.
  destruct acc as [|a acc]; simpl; [done |]. intros H Hr. inv H.
  by destruct (end_ a + 1 <? start r)%N.
Qed.

Lemma merge_fold l acc :
  merge_inv acc -> Forall ordered l -> starts_after acc l ->
  StronglySorted (fun a b => start a <= start b)%N l ->
  merge_inv (foldl merge_step acc l) /\
  forall c, covers c (foldl merge_step acc l) <-> covers c acc \/ covers c l.
Proof.
  revert acc. induction l as [|r l IH]; intros acc Hi Ho Ha Hs; simpl.
  - split; [done |]. intros c. pose proof (covers_nil c). tauto.
  - inv Ho. inv Hs.
    assert (Ha1 : starts_after acc [r]) by (destruct acc; [done | inv Ha; by repeat constructor]).
    destruct (IH (merge_step acc r)) as [Hi' Hc']; [by apply merge_step_inv | done |
      by apply merge_step_starts | done |].
    split; [done |]. intros c. rewrite Hc', covers_cons, merge_step_covers by (done || apply Hi).
    tauto.
Qed.

Lemma merge_inv_reverse acc : merge_inv acc -> canonical (reverse acc).
Proof.
  intros [Hs Ho]. split; [| by apply Forall_reverse].
  induction Hs as [|a acc Hs IH Ha]; [constructor |].
  rewrite reverse_cons. inv Ho. apply StronglySorted_app_2.
  - intros x y Hx ->%list_elem_of_singleton.
    rewrite elem_of_reverse in Hx. rewrite Forall_forall in Ha. by apply Ha.
  - by apply IH.
  - repeat constructor.
Qed.

Lemma mergeRanges_spec rs :
  Forall ordered rs ->
  canonical (mergeRanges rs) /\ forall c, covers c (mergeRanges rs) <-> covers c rs.
Proof.
  intros Ho. destruct rs as [|r rs]; [split; [split; constructor | done] |].
  unfold mergeRanges. set (l := r :: rs) in *. clearbody l.
  destruct (merge_fold (sort_by range_cmp l) []) as [Hi Hc].
  - split; constructor.
  - by rewrite sort_by_perm.
  - done.
  - apply sort_ranges_starts.
  - split; [by apply merge_inv_reverse |]. intros c.
    rewrite reverse_Permutation, Hc, sort_by_perm. pose proof (covers_nil c). tauto.
Qed.

Lemma canonical_sorted rs : canonical rs -> cmp_sorted range_cmp rs.
Proof.
  intros [Hs Ho]. induction Hs as [|r rs Hs IH Hr]; [constructor |].
  inv Ho. constructor; [by apply IH |]. eapply Forall_impl; [exact Hr |].
  intros y Hy. range_cases.
Qed.

Lemma merge_canonical_fold rs acc :
  canonical (reverse acc ++ rs) -> foldl merge_step acc rs = reverse rs ++ acc.
Proof.
  revert acc. induction rs as [|r rs IH]; intros acc [Hs Ho]; simpl; [done |].
  assert (E : merge_step acc r = r :: acc).
  { destruct acc as [|a acc]; [done |]. simpl.
    destruct (N.ltb_spec (end_ a + 1) (start r)) as [|Hge]; [done |]. exfalso.
    assert (end_ a + 1 < start r)%N; [| lia].
    apply (StronglySorted_app_1_elem_of _ _ _ a r Hs); [| left].
    rewrite reverse_cons. set_solver. }
  rewrite E, IH; rewrite reverse_cons, <- app_assoc; done.
Qed.

(** A canonical list is a fixed point of the merge. *)
Lemma mergeRanges_canonical rs : canonical rs -> mergeRanges rs = rs.
Proof.
  intros H. destruct rs as [|r rs]; [done |]. unfold mergeRanges.
  rewrite (sort_by_id _ _ (canonical_sorted _ H)), merge_canonical_fold by done.
  by rewrite app_nil_r, reverse_involutive.
Qed.

(** ** Tokens *)

(** The text of a range: digits, with a minus sign for a proper range. *)
Definition rule_char (c : N) : Prop := is_digit c = true \/ c = minus.

Lemma rule_char_plain c : rule_char c -> is_space c = false /\ c <> comma /\ c <> fullwidth_comma.
Proof. unfold rule_char, is_digit, is_space, minus, comma, fullwidth_comma. lia. Qed.

Lemma digits_rule_char s : Forall (fun c => is_digit c = true) s -> Forall rule_char s.
Proof. intros H. eapply Forall_impl; [exact H |]. by left. Qed.

Lemma show_range_chars r : Forall rule_char (show_range r).
Proof.
  unfold show_range. case_match; [apply digits_rule_char, show_N_digits |].
  apply Forall_app. split; [apply digits_rule_char, show_N_digits |].
  constructor; [by right |]. apply digits_rule_char, show_N_digits.
Qed.

Lemma filter_spaces_id s :
  Forall (fun c => is_space c = false) s -> List.filter (fun c => negb (is_space c)) s = s.
Proof. induction 1 as [|c s Hc ? IH]; simpl; [done |]. by rewrite Hc, IH. Qed.

Lemma clean_rule_chars s :
  Forall rule_char s -> List.filter (fun c => negb (is_space c)) (trim s) = s.
Proof.
  intros H.
  assert (Hs : Forall (fun c => is_space c = false) s).
  { eapply Forall_impl; [exact H |]. intros c Hc. by apply rule_char_plain. }
  rewrite trim_no_space by done. by apply filter_spaces_id.
Qed.

Lemma minus_not_in_digits n : minus ∉ show_N n.
Proof.
  pose proof (show_N_digits n) as H. rewrite Forall_forall in H. intros Hin.
  by specialize (H _ Hin).
Qed.

Lemma valid_range_codes r : valid_range r -> isValidCode (start r) = true /\ isValidCode (end_ r) = true.
Proof. unfold valid_range, isValidCode. lia. Qed.

(** [parseToken] reads back what [show_range] prints. *)
Lemma parseToken_show r : valid_range r -> parseToken (show_range r) = Some r.
Proof.
  intros Hv. unfold parseToken. cbv zeta. rewrite clean_rule_chars by apply show_range_chars.
  destruct (valid_range_codes r Hv) as [Hs He].
  unfold show_range. destruct (N.eqb_spec (start r) (end_ r)) as [E|Hne].
  - rewrite (proj2 (truthy_true _) (show_N_not_nil _)). simpl negb. cbn iota.
    destruct (str_includes _ _) eqn:Ei.
    { apply str_includes_single in Ei. by apply minus_not_in_digits in Ei. }
    unfold isNumber, parse_int. simpl default. rewrite all_digits_show, digits_val_show, Hs.
    simpl. destruct r. simpl in *. by subst.
  - rewrite (proj2 (truthy_true _)) by (destruct (show_N (start r)) eqn:En; [| done];
      by apply show_N_not_nil in En).
    simpl negb. cbn iota.
    destruct (str_includes _ _) eqn:Ei.
    2: { apply not_true_iff_false in Ei. exfalso. apply Ei, str_includes_single. set_solver. }
    rewrite split_on_app by apply minus_not_in_digits.
    rewrite split_on_free by apply minus_not_in_digits.
    simpl lookup. unfold isNumber, parse_int. simpl default.
    rewrite !all_digits_show, !digits_val_show, Hs, He. simpl.
    destruct (N.ltb_spec (end_ r) (start r)); [unfold valid_range in Hv; lia |].
    by destruct r.
Qed.

Lemma parseToken_valid t r : parseToken t = Some r -> valid_range r.
Proof.
  unfold parseToken, valid_range. intros H.
  repeat match type of H with
         | (if ?b then _ else _) = _ => destruct b eqn:?; try done
         end; inv H; simpl; unfold isValidCode in *; lia.
Qed.

(** ** The segment loop *)

Lemma parse_segments_acc l rs bad :
  foldl (fun '(rs, bad) segment =>
           match parseToken segment with
           | None => (rs, bad ++ [segment])
           | Some r => (rs ++ [r], bad)
           end) (rs, bad) l
  = (rs ++ omap parseToken l, bad ++ filter (fun s => parseToken s = None) l).
Proof.
  revert rs bad. induction l as [|s l IH]; intros rs bad; simpl; [by rewrite !app_nil_r |].
  rewrite filter_cons. destruct (parseToken s) as [r|] eqn:E; rewrite IH.
  - rewrite decide_False by congruence. by rewrite <- app_assoc.
  - rewrite decide_True by done. by rewrite <- app_assoc.
Qed.

Lemma parse_segments_eq l :
  parse_segments l = (omap parseToken l, filter (fun s => parseToken s = None) l).
Proof. apply (parse_segments_acc l [] []). Qed.

Lemma parse_segments_show rs :
  Forall valid_range rs -> parse_segments (map show_range rs) = (rs, []).
Proof.
  intros H. rewrite parse_segments_eq.
  induction H as [|r rs Hr H IH]; [done |]. apply pair_equal_spec in IH as [IH1 IH2].
  simpl map. rewrite filter_cons. csimpl. rewrite parseToken_show by done.
  rewrite decide_False by done. by rewrite IH1, IH2.
Qed.

Lemma segments_ranges_valid l : Forall valid_range (omap parseToken l).
Proof.
  apply Forall_forall. intros r (t & _ & Ht)%list_elem_of_omap. by eapply parseToken_valid.
Qed.

Lemma sanitize_id s : Forall (fun c => c <> fullwidth_comma) s -> sanitize s = s.
Proof.
  unfold sanitize. induction 1 as [|c s Hc ? IH]; simpl; [done |]. rewrite IH.
  by destruct (N.eqb_spec c fullwidth_comma).
Qed.

Lemma show_ranges_Forall (P : N -> Prop) rs :
  (forall c, rule_char c -> P c) -> Forall (Forall P) (map show_range rs).
Proof.
  intros H. apply Forall_fmap, Forall_forall. intros r _.
  eapply Forall_impl; [apply show_range_chars | done].
Qed.

Lemma show_range_not_nil r : show_range r <> [].
Proof.
  unfold show_range. pose proof (show_N_not_nil (start r)).
  case_match; [done |]. by destruct (show_N (start r)).
Qed.

Lemma segments_of_tokens rs :
  rs <> [] -> segments_of (join [comma] (map show_range rs)) = map show_range rs.
Proof.
  intros Hne. unfold segments_of. rewrite sanitize_id.
  2: { apply join_Forall; [by repeat constructor |].
       apply show_ranges_Forall. intros c Hc. by apply rule_char_plain. }
  rewrite split_join.
  - rewrite map_trim_id by (apply show_ranges_Forall; intros c Hc; by apply rule_char_plain).
    apply filter_truthy_id, Forall_fmap, Forall_forall. intros r _. apply show_range_not_nil.
  - by destruct rs.
  - eapply Forall_impl; [apply (show_ranges_Forall (fun c => c <> comma)) |].
    + intros c Hc. by apply rule_char_plain.
    + intros s Hs Hin. rewrite Forall_forall in Hs. by apply (Hs comma).
Qed.

Lemma trim_tokens rs : trim (join [comma] (map show_range rs)) = join [comma] (map show_range rs).
Proof.
  apply trim_no_space, join_Forall; [by repeat constructor |].
  apply show_ranges_Forall. intros c Hc. by apply rule_char_plain.
Qed.

Lemma join_tokens_nil rs : length (join [comma] (map show_range rs)) = 0%nat -> rs = [].
Proof.
  destruct rs as [|r rs]; [done |]. intros H%nil_length_inv. exfalso.
  pose proof (show_range_not_nil r). simpl in H. destruct (map show_range rs).
  - done.
  - by destruct (show_range r).
Qed.

Lemma canonical_Forall_valid rs : Forall valid_range rs -> Forall ordered rs.
Proof. intros H. eapply Forall_impl; [exact H |]. intros r. unfold valid_range, ordered. lia. Qed.

(** Merging keeps the codes within 100..599. *)
Lemma mergeRanges_valid rs : Forall valid_range rs -> Forall valid_range (mergeRanges rs).
Proof.
  intros Hv. destruct (mergeRanges_spec rs (canonical_Forall_valid _ Hv)) as [[_ Ho] Hc].
  rewrite Forall_forall in Hv, Ho |- *. intros r Hr.
  specialize (Ho r Hr). unfold ordered in Ho.
  assert (H1 : covers (start r) rs) by (apply Hc; exists r; unfold in_range; split; [done | lia]).
  assert (H2 : covers (end_ r) rs) by (apply Hc; exists r; unfold in_range; split; [done | lia]).
  destruct H1 as (r1 & Hr1 & Hi1), H2 as (r2 & Hr2 & Hi2).
  apply Hv in Hr1, Hr2. unfold valid_range, in_range in *. lia.
Qed.

(** The result on each of the three branches. *)
Lemma parse_cases input :
  let raw := trim (default [] input) in
  let rs := omap parseToken (segments_of raw) in
  let bad := filter (fun s => parseToken s = None) (segments_of raw) in
  parseHttpStatusCodeRules input =
  if (length raw =? 0)%nat then mkParsed true [] [] [] []
  else match bad with
       | [] => mkParsed true (mergeRanges rs) (map show_range (mergeRanges rs))
                 (join [comma] (map show_range (mergeRanges rs))) []
       | _ => mkParsed false [] [] raw bad
       end.
Proof.
  cbv zeta. unfold parseHttpStatusCodeRules. rewrite parse_segments_eq.
  case_match; [done |]. by destruct (filter _ _).
Qed.

(** ** Properties *)

(** merging keeps exactly the codes of the given ranges and returns them in
    canonical form: ascending, each range ordered, with at least one missing
    code between neighbours. *)
Theorem merge_ranges_canonical rs :
  Forall ordered rs ->
  canonical (mergeRanges rs) /\ forall c, covers c (mergeRanges rs) <-> covers c rs.
Proof. apply mergeRanges_spec. Qed.

Lemma merge_ranges_canonical_witness :
  canonical (mergeRanges [mkRange 500 503; mkRange 429 429; mkRange 504 505]) /\
  forall c, covers c (mergeRanges [mkRange 500 503; mkRange 429 429; mkRange 504 505])
            <-> covers c [mkRange 500 503; mkRange 429 429; mkRange 504 505].
Proof. apply merge_ranges_canonical. repeat constructor; vm_compute; discriminate. Defined.

(** what the parser prints is a fixed point: an accepted text, parsed again
    from its normalized form, gives the same ranges, tokens and text. *)
Theorem normalized_roundtrip input :
  ok (parseHttpStatusCodeRules input) = true ->
  parseHttpStatusCodeRules (Some (normalized (parseHttpStatusCodeRules input)))
  = parseHttpStatusCodeRules input.
Proof.
  rewrite (parse_cases input). cbv zeta.
  destruct (length (trim (default [] input)) =? 0)%nat; [done |].
  destruct (filter _ _) as [|b bad] eqn:Eb; [| done]. intros _. simpl normalized.
  set (rs := omap parseToken (segments_of (trim (default [] input)))).
  assert (Hv : Forall valid_range (mergeRanges rs)) by apply mergeRanges_valid, segments_ranges_valid.
  assert (Hc : canonical (mergeRanges rs))
    by apply mergeRanges_spec, canonical_Forall_valid, segments_ranges_valid.
  generalize dependent (mergeRanges rs). clear. intros rs Hv Hc.
  unfold parseHttpStatusCodeRules. simpl default. rewrite trim_tokens.
  destruct (Nat.eqb_spec (length (join [comma] (map show_range rs))) 0) as [E|Hne].
  - by rewrite (join_tokens_nil rs E).
  - rewrite segments_of_tokens by (by intros ->).
    rewrite parse_segments_show, mergeRanges_canonical by done. done.
Qed.

Lemma normalized_roundtrip_witness :
  parseHttpStatusCodeRules (Some (normalized (parseHttpStatusCodeRules (Some (js "502,500 - 501，429")))))
  = parseHttpStatusCodeRules (Some (js "502,500 - 501，429")).
Proof. apply normalized_roundtrip. reflexivity. Defined.

(** every accepted text denotes codes between 100 and 599 in canonical
    order, and covers exactly the codes of its tokens. *)
Theorem accepted_rules_spec input :
  ok (parseHttpStatusCodeRules input) = true ->
  Forall valid_range (ranges (parseHttpStatusCodeRules input)) /\
  canonical (ranges (parseHttpStatusCodeRules input)) /\
  forall c, covers c (ranges (parseHttpStatusCodeRules input)) <->
    exists t r, t ∈ segments_of (trim (default [] input)) /\ parseToken t = Some r /\ in_range c r.
Proof.
  rewrite (parse_cases input). cbv zeta.
  set (segs := segments_of (trim (default [] input))).
  destruct (Nat.eqb_spec (length (trim (default [] input))) 0) as [E|_].
  - intros _. simpl. split; [constructor | split; [split; constructor |]].
    intros c. split; [by intros ?%covers_nil |]. intros (t & r & Ht & _).
    subst segs. apply nil_length_inv in E. rewrite E in Ht. vm_compute in Ht. set_solver.
  - destruct (filter _ segs) as [|b bad]; [| done]. intros _. simpl ranges.
    pose proof (segments_ranges_valid segs) as Hv.
    destruct (mergeRanges_spec _ (canonical_Forall_valid _ Hv)) as [Hc Hcov].
    split; [by apply mergeRanges_valid | split; [done |]].
    intros c. rewrite Hcov. unfold covers. setoid_rewrite list_elem_of_omap. naive_solver.
Qed.

Lemma accepted_rules_spec_witness :
  ok (parseHttpStatusCodeRules (Some (js "404, 500-503"))) = true /\
  Forall valid_range (ranges (parseHttpStatusCodeRules (Some (js "404, 500-503")))).
Proof.
  split; [reflexivity |].
  apply (accepted_rules_spec (Some (js "404, 500-503"))). reflexivity.
Defined.

(** a text is refused exactly when one of its tokens does not parse; then
    no range is kept and the offending tokens are reported in order. *)
Theorem rejected_rules_spec input :
  let segs := segments_of (trim (default [] input)) in
  (ok (parseHttpStatusCodeRules input) = false <-> exists t, t ∈ segs /\ parseToken t = None) /\
  invalidTokens (parseHttpStatusCodeRules input) = filter (fun t => parseToken t = None) segs /\
  (ok (parseHttpStatusCodeRules input) = false ->
   ranges (parseHttpStatusCodeRules input) = [] /\
   normalized (parseHttpStatusCodeRules input) = trim (default [] input)).
Proof.
  cbv zeta. rewrite (parse_cases input). cbv zeta.
  destruct (Nat.eqb_spec (length (trim (default [] input))) 0) as [E|_].
  - apply nil_length_inv in E. rewrite E in *. vm_compute (segments_of []) in *. simpl.
    split; [split; [done | intros (t & Ht & _); set_solver] | done].
  - destruct (filter _ _) as [|b bad] eqn:Eb; simpl.
    + split; [| done]. split; [done |]. intros (t & Ht & Hp).
      exfalso. by apply (filter_nil_not_elem_of _ _ t Eb).
    + split; [| done]. split; [| done]. intros _.
      assert (Hb : b ∈ b :: bad) by left. rewrite <- Eb in Hb.
      apply list_elem_of_filter in Hb as [? ?]. eauto.
Qed.

End StatusRules.
