(* ===== verification/FlowData.v ===== *)
(** * Dashboard flow: rows, nodes, stages and filters

    Model of the first half of [features/dashboard/lib/flow.ts] with the types
    of [features/dashboard/types.ts]: a usage row is turned into a path of
    nodes (one per visible stage), and rows are selected by user and by node.

    Quotas, token counts, request counts and ids are the integers the server
    sends, so they are [Z]; the sums stay exact in binary64 as long as they are
    safe integers. *)
From S2P Require Import Prelude Number.

Inductive FlowMetric := MQuota | MTokens | MRequests.
Inductive FlowOverflowMode := aggregate | hide.
Inductive FlowRole := RUser | RAdmin | RRoot.
Inductive FlowNodeKind := KUser | KNode | KToken | KGroup | KModel | KChannel.

#[global] Instance FlowMetric_eq_dec : EqDecision FlowMetric.
Proof. solve_decision. Defined.
#[global] Instance FlowOverflowMode_eq_dec : EqDecision FlowOverflowMode.
Proof. solve_decision. Defined.
#[global] Instance FlowNodeKind_eq_dec : EqDecision FlowNodeKind.
Proof. solve_decision. Defined.

Record FlowQuotaDataItem := mkRow {
  user_id : option Z; username : option str; node_name : option str;
  use_group : option str; token_id : option Z; token_name : option str;
  channel_id : option Z; channel_name : option str; model_name : option str;
  token_used : option Z; count : option Z; quota : option Z
}.

Record FlowMetrics := mkMetrics { m_quota : Z; m_tokens : Z; m_requests : Z }.

Record FlowPathNode := mkPathNode {
  pn_id : str; pn_label : str; pn_kind : FlowNodeKind
}.
#[global] Instance FlowPathNode_eq_dec : EqDecision FlowPathNode.
Proof. solve_decision. Defined.

Record FlowNodeFilter := mkNodeFilter { nf_kind : FlowNodeKind; nf_id : str }.
Record FlowLinkSelection := mkLinkSelection { ls_source : str; ls_target : str }.

(** [FlowPathContext]: the localized label of a deleted token. *)
Abbreviation FlowPathContext := (option (Z -> str)).

(** ** Node ids and labels *)

Definition FLOW_NODE_KINDS : list FlowNodeKind :=
  [KUser; KNode; KToken; KGroup; KModel; KChannel].

Definition kind_name (k : FlowNodeKind) : str :=
  match k with
  | KUser => js "user" | KNode => js "node" | KToken => js "token"
  | KGroup => js "group" | KModel => js "model" | KChannel => js "channel"
  end.

Definition OTHER_FLOW_NODE_IDS (k : FlowNodeKind) : str :=
  match k with
  | KUser => js "user:__other__" | KNode => js "node:__other__"
  | KToken => js "token:__other__" | KGroup => js "group:__other__"
  | KModel => js "model:__other__" | KChannel => js "channel:__other__"
  end.

Definition DEFAULT_OTHER_FLOW_NODE_LABELS (k : FlowNodeKind) : str :=
  match k with
  | KUser => js "Other users" | KNode => js "Other nodes"
  | KToken => js "Other tokens" | KGroup => js "Other groups"
  | KModel => js "Other models" | KChannel => js "Other channels"
  end.

Definition SENSITIVE_FLOW_KINDS : list FlowNodeKind :=
  [KUser; KNode; KToken; KGroup; KChannel].

Definition OTHER_FLOW_NODE_ID_SET : list str := map OTHER_FLOW_NODE_IDS FLOW_NODE_KINDS.

(** [numberValue]: an absent field counts as zero. *)
Definition numberValue (v : option Z) : Z := default 0%Z v.

Definition rowMetrics (row : FlowQuotaDataItem) : FlowMetrics :=
  mkMetrics (numberValue (quota row)) (numberValue (token_used row)) (numberValue (count row)).

Definition metricValue (metrics : FlowMetrics) (metric : FlowMetric) : Z :=
  match metric with
  | MRequests => m_requests metrics
  | MTokens => m_tokens metrics
  | MQuota => m_quota metrics
  end.

Definition userNode (row : FlowQuotaDataItem) : FlowPathNode :=
  let userID := numberValue (user_id row) in
  mkPathNode
    (if (0 <? userID)%Z then js "user:" ++ show_Z userID
     else js "user:" ++ opt_str_or (username row) (js "unknown"))
    (opt_str_or (username row)
       (if (0 <? userID)%Z then js "user-" ++ show_Z userID else js "Unknown User"))
    KUser.

Definition nodeNameNode (row : FlowQuotaDataItem) : FlowPathNode :=
  let nodeName := opt_str_or (node_name row) (js "default-node") in
  mkPathNode (js "node:" ++ nodeName) nodeName KNode.

Definition deletedTokenLabel (tokenID : Z) (ctx : FlowPathContext) : str :=
  if (tokenID <=? 0)%Z then js "Unknown Token"
  else match ctx with
       | Some f => f tokenID
       | None => js "token-" ++ show_Z tokenID
       end.

Definition tokenNode (row : FlowQuotaDataItem) (ctx : FlowPathContext) : FlowPathNode :=
  let tokenID := numberValue (token_id row) in
  mkPathNode
    (if (0 <? tokenID)%Z then js "token:" ++ show_Z tokenID
     else js "token:" ++ opt_str_or (token_name row) (js "unknown"))
    (opt_str_or (token_name row) (deletedTokenLabel tokenID ctx))
    KToken.

Definition groupNode (row : FlowQuotaDataItem) : FlowPathNode :=
  let useGroup := opt_str_or (use_group row) (js "unknown") in
  mkPathNode (js "group:" ++ useGroup) useGroup KGroup.

Definition modelNode (row : FlowQuotaDataItem) : FlowPathNode :=
  let model := opt_str_or (model_name row) (js "unknown") in
  mkPathNode (js "model:" ++ model) (opt_str_or (model_name row) (js "Unknown Model")) KModel.

Definition channelNode (row : FlowQuotaDataItem) : FlowPathNode :=
  let channelID := numberValue (channel_id row) in
  mkPathNode
    (if (0 <? channelID)%Z then js "channel:" ++ show_Z channelID
     else js "channel:" ++ opt_str_or (channel_name row) (js "unknown"))
    (opt_str_or (channel_name row)
       (if (0 <? channelID)%Z then js "channel-" ++ show_Z channelID else js "Unknown"))
    KChannel.

Definition NODE_BUILDERS (k : FlowNodeKind) (row : FlowQuotaDataItem)
  (ctx : FlowPathContext) : FlowPathNode :=
  match k with
  | KUser => userNode row
  | KNode => nodeNameNode row
  | KToken => tokenNode row ctx
  | KGroup => groupNode row
  | KModel => modelNode row
  | KChannel => channelNode row
  end.

(** ** Stages *)

Definition ROLE_FLOW_STAGES (role : FlowRole) : list FlowNodeKind :=
  match role with
  | RRoot => [KUser; KNode; KToken; KGroup; KModel; KChannel]
  | RAdmin => [KUser; KGroup; KModel; KChannel]
  | RUser => [KToken; KGroup; KModel]
  end.

Definition MIN_FLOW_STAGES : nat := 2.

Definition getFlowStages (role : FlowRole) : list FlowNodeKind := ROLE_FLOW_STAGES role.

Definition resolveVisibleStages (role : FlowRole) (visibleStages : option (list FlowNodeKind)) :
  list FlowNodeKind :=
  let stages := getFlowStages role in
  match visibleStages with
  | None => stages
  | Some vs =>
      let visible := set_of vs in
      let filtered := List.filter (fun stage => set_has stage visible) stages in
      if (MIN_FLOW_STAGES <=? length filtered)%nat then filtered else stages
  end.

Definition flowPathForStages (row : FlowQuotaDataItem) (stages : list FlowNodeKind)
  (ctx : FlowPathContext) : list FlowPathNode :=
  map (fun stage => NODE_BUILDERS stage row ctx) stages.

(** ** Filters *)

Definition filterRows (rows : list FlowQuotaDataItem) (selectedUsers : option (list str)) :
  list FlowQuotaDataItem :=
  let selected := set_of (default [] selectedUsers) in
  if (length selected =? 0)%nat then rows
  else List.filter (fun row => set_has (pn_id (userNode row)) selected) rows.

Definition nodeFilterKey (f : FlowNodeFilter) : str := kind_name (nf_kind f) ++ 0%N :: nf_id f.

(** [Map<FlowNodeKind, Set<string>>]. *)
Abbreviation kind_sets := (list (FlowNodeKind * list str)).

Definition normalizeSelectedNodeFilters (selectedNodes : option (list FlowNodeFilter))
  (stages : list FlowNodeKind) : kind_sets :=
  let visibleKinds := set_of stages in
  foldl (fun filters filter =>
           if negb (set_has (nf_kind filter) visibleKinds) then filters
           else map_upsert (nf_kind filter) [] (fun s => set_add s (nf_id filter)) filters)
    [] (default [] selectedNodes).

Definition pathMatchesNodeFilters (path : list FlowPathNode) (filters : kind_sets) : bool :=
  if (length filters =? 0)%nat then true
  else
    let pathNodesByKind : kind_sets :=
      foldl (fun m node => map_upsert (pn_kind node) [] (fun s => set_add s (pn_id node)) m)
        [] path in
    forallb (fun '(kind, selectedIds) =>
               match map_get kind pathNodesByKind with
               | None => false
               | Some pathIds => existsb (fun id => set_has id pathIds) selectedIds
               end) filters.

Definition filterRowsByNodes (rows : list FlowQuotaDataItem)
  (selectedNodes : option (list FlowNodeFilter)) (stages : list FlowNodeKind)
  (ctx : FlowPathContext) : list FlowQuotaDataItem :=
  let filters := normalizeSelectedNodeFilters selectedNodes stages in
  if (length filters =? 0)%nat then rows
  else List.filter (fun row => pathMatchesNodeFilters (flowPathForStages row stages ctx) filters) rows.

Definition selectedNodeFiltersExceptKind (selectedNodes : option (list FlowNodeFilter))
  (kind : FlowNodeKind) : option (list FlowNodeFilter) :=
  let filtered := List.filter (fun f => negb (bool_decide (nf_kind f = kind)))
                    (default [] selectedNodes) in
  if (0 <? length filtered)%nat then Some filtered else None.

Record FlowSummary := mkSummary { s_quota : Z; s_tokens : Z; s_requests : Z }.

Definition buildSummary (rows : list FlowQuotaDataItem) : FlowSummary :=
  foldl (fun summary row =>
           let metrics := rowMetrics row in
           mkSummary (s_quota summary + m_quota metrics) (s_tokens summary + m_tokens metrics)
             (s_requests summary + m_requests metrics))%Z
    (mkSummary 0 0 0) rows.

Definition summaryValue (s : FlowSummary) (metric : FlowMetric) : Z :=
  metricValue (mkMetrics (s_quota s) (s_tokens s) (s_requests s)) metric.

(** ** Top nodes *)

Definition normalizeTopNodeLimit (limit : option num) : option Z :=
  match limit with
  | None => None
  | Some x =>
      match floor_Z x with
      | Some parsed => if (0 <? parsed)%Z then Some parsed else None
      | None => None
      end
  end.

Definition otherFlowNode (kind : FlowNodeKind) (labeler : option (FlowNodeKind -> str)) :
  FlowPathNode :=
  mkPathNode (OTHER_FLOW_NODE_IDS kind)
    (match labeler with Some f => f kind | None => DEFAULT_OTHER_FLOW_NODE_LABELS kind end)
    kind.

Record FlowNodeRank := mkRank { rank_node : FlowPathNode; rank_value : Z }.

Section TopNodes.
Context {C : Collation}.

(** The comparator of the ranking: value descending, then label, then id. *)
Definition rank_cmp (a b : FlowNodeRank) : Z :=
  cmp_or (rank_value b - rank_value a)
    (cmp_or (localeCompare (pn_label (rank_node a)) (pn_label (rank_node b)))
       (localeCompare (pn_id (rank_node a)) (pn_id (rank_node b)))).

(** One node of one row added to the totals of its stage, when it has any. *)
Definition rank_add (value : Z) (totals : list (FlowNodeKind * list (str * FlowNodeRank)))
  (node : FlowPathNode) : list (FlowNodeKind * list (str * FlowNodeRank)) :=
  match map_get (pn_kind node) totals with
  | None => totals
  | Some stageTotals =>
      map_set (pn_kind node)
        (map_upsert (pn_id node) (mkRank node 0)
           (fun r => mkRank (rank_node r) (rank_value r + value)%Z) stageTotals) totals
  end.

Definition stage_totals (rows : list FlowQuotaDataItem) (metric : FlowMetric)
  (stages : list FlowNodeKind) (ctx : FlowPathContext) :
  list (FlowNodeKind * list (str * FlowNodeRank)) :=
  foldl (fun totals row =>
           foldl (rank_add (metricValue (rowMetrics row) metric)) totals
             (flowPathForStages row stages ctx))
    (foldl (fun m stage => map_set stage [] m) [] stages) rows.

Definition buildTopNodeSets (rows : list FlowQuotaDataItem) (metric : FlowMetric)
  (stages : list FlowNodeKind) (limit : option Z) (ctx : FlowPathContext) : option kind_sets :=
  match limit with
  | None => None
  | Some n =>
      if (n =? 0)%Z then None
      else Some (foldl (fun topSets '(kind, stageTotals) =>
             let topIds := map (fun r => pn_id (rank_node r))
                             (take (Z.to_nat n) (sort_by rank_cmp (map snd stageTotals))) in
             map_set kind (set_of topIds) topSets)
           [] (stage_totals rows metric stages ctx))
  end.

End TopNodes.

Definition isTopFlowNode (node : FlowPathNode) (topNodeSets : option kind_sets) : bool :=
  match topNodeSets with
  | None => true
  | Some sets =>
      match map_get (pn_kind node) sets with
      | None => true
      | Some topNodes => set_has (pn_id node) topNodes
      end
  end.

Definition applyTopNodeLimit (path : list FlowPathNode) (topNodeSets : option kind_sets)
  (mode : FlowOverflowMode) (labeler : option (FlowNodeKind -> str)) :
  option (list FlowPathNode) :=
  match topNodeSets with
  | None => Some path
  | Some _ =>
      let containsOverflowNode := existsb (fun node => negb (isTopFlowNode node topNodeSets)) path in
      if negb containsOverflowNode then Some path
      else match mode with
           | hide => None
           | aggregate =>
               Some (map (fun node => if isTopFlowNode node topNodeSets then node
                                      else otherFlowNode (pn_kind node) labeler) path)
           end
  end.

(** * Lemmas *)

(** ** Ids determine kinds *)

(** An id starts with the name of its kind and a colon. *)
Definition kind_prefixed (n : FlowPathNode) : Prop :=
  exists s, pn_id n = kind_name (pn_kind n) ++ 58%N :: s.

Lemma NODE_BUILDERS_kind k row ctx : pn_kind (NODE_BUILDERS k row ctx) = k.
Proof. by destruct k. Qed.

Lemma NODE_BUILDERS_prefixed k row ctx : kind_prefixed (NODE_BUILDERS k row ctx).
Proof.
  unfold kind_prefixed. rewrite NODE_BUILDERS_kind.
  destruct k; simpl; repeat case_match; eexists; reflexivity.
Qed.

Lemma otherFlowNode_prefixed k labeler : kind_prefixed (otherFlowNode k labeler).
Proof. destruct k; by eexists. Qed.

Lemma prefixed_kind_eq a b :
  kind_prefixed a -> kind_prefixed b -> pn_id a = pn_id b -> pn_kind a = pn_kind b.
Proof.
  intros [s Ha] [t Hb] H. rewrite Ha, Hb in H.
  by destruct (pn_kind a), (pn_kind b); try discriminate H.
Qed.

(** ** Stages *)

Lemma getFlowStages_NoDup role : NoDup (getFlowStages role).
Proof. destruct role; apply (bool_decide_unpack _); vm_compute; exact I. Qed.

Lemma List_filter_sublist {A} (f : A -> bool) l : List.filter f l `sublist_of` l.
Proof. induction l as [|x l IH]; simpl; [done |]. destruct (f x); by constructor. Qed.

Lemma resolveVisibleStages_sublist role vs :
  resolveVisibleStages role vs `sublist_of` getFlowStages role.
Proof.
  unfold resolveVisibleStages. destruct vs as [vs|]; [| done].
  case_match; [apply List_filter_sublist | done].
Qed.

Lemma resolveVisibleStages_NoDup role vs : NoDup (resolveVisibleStages role vs).
Proof. eapply sublist_NoDup; [apply getFlowStages_NoDup | apply resolveVisibleStages_sublist]. Qed.

Lemma resolveVisibleStages_length role vs :
  (MIN_FLOW_STAGES <= length (resolveVisibleStages role vs))%nat.
Proof.
  unfold resolveVisibleStages.
  assert (Hs : (MIN_FLOW_STAGES <= length (getFlowStages role))%nat)
    by (destruct role; unfold MIN_FLOW_STAGES; simpl; lia).
  destruct vs as [vs|]; [| done]. case_match eqn:E; [| done]. by apply Nat.leb_le.
Qed.

(** ** Node filters *)

Lemma foldl_set_add_map {A} (f : A -> str) (l : list A) s x :
  x ∈ foldl (fun s y => set_add s (f y)) s l <-> x ∈ s \/ exists y, y ∈ l /\ f y = x.
Proof.
  revert s. induction l as [|y l IH]; intros s; simpl; [set_solver |].
  rewrite IH. unfold set_add. destruct (set_has (f y) s) eqn:E.
  - apply set_has_spec in E. set_solver.
  - set_solver.
Qed.

Lemma normalizeSelectedNodeFilters_eq sel stages :
  normalizeSelectedNodeFilters sel stages =
  group_by nf_kind (fun _ => []) (fun s f => set_add s (nf_id f))
    (filter (fun f => nf_kind f ∈ stages) (default [] sel)) [].
Proof.
  unfold normalizeSelectedNodeFilters, group_by. generalize (default [] sel) as l.
  intros l. generalize (@nil (FlowNodeKind * list str)) as acc.
  induction l as [|f l IH]; intros acc; simpl; [done |]. rewrite IH, filter_cons.
  destruct (decide (nf_kind f ∈ stages)) as [Hin|Hin].
  - rewrite (proj2 (set_has_spec (nf_kind f) (set_of stages))) by by apply elem_of_set_of.
    done.
  - destruct (set_has _ _) eqn:E; [| done]. by rewrite set_has_spec, elem_of_set_of in E.
Qed.

Lemma normalized_filters_get sel stages kind ids :
  map_get kind (normalizeSelectedNodeFilters sel stages) = Some ids ->
  kind ∈ stages /\ (exists f, f ∈ default [] sel /\ nf_kind f = kind) /\
  forall id, id ∈ ids <-> exists f, f ∈ default [] sel /\ nf_kind f = kind /\ nf_id f = id.
Proof.
  rewrite normalizeSelectedNodeFilters_eq, group_by_get. simpl.
  destruct (filter (fun x => nf_kind x = kind) _) as [|y ys] eqn:E; [done |]. intros [= <-].
  assert (Hm : forall f, f ∈ y :: ys <-> nf_kind f = kind /\ nf_kind f ∈ stages /\ f ∈ default [] sel).
  { intros f. rewrite <- E, !list_elem_of_filter. tauto. }
  destruct (proj1 (Hm y) (list_elem_of_here _ _)) as (Hk & Hst & Hin). subst kind.
  split; [done | split; [eauto |]]. intros id.
  rewrite (foldl_set_add_map nf_id (y :: ys) [] id). setoid_rewrite Hm. split.
  - intros [H%elem_of_nil | (f & (? & ? & ?) & ?)]; [done | eauto].
  - intros (f & ? & Hf & ?). right. exists f. rewrite Hf. eauto.
Qed.

Lemma normalized_filters_keys sel stages kind :
  kind ∈ (normalizeSelectedNodeFilters sel stages).*1 <->
  kind ∈ stages /\ exists f, f ∈ default [] sel /\ nf_kind f = kind.
Proof.
  rewrite normalizeSelectedNodeFilters_eq, group_by_keys.
  setoid_rewrite list_elem_of_filter. set_solver.
Qed.

Lemma path_by_kind row stages ctx kind :
  NoDup stages -> kind ∈ stages ->
  map_get kind (foldl (fun m node => map_upsert (pn_kind node) [] (fun s => set_add s (pn_id node)) m)
                  [] (flowPathForStages row stages ctx))
  = Some [pn_id (NODE_BUILDERS kind row ctx)].
Proof.
  intros Hnd Hin.
  pose proof (group_by_get pn_kind (fun _ => []) (fun s n => set_add s (pn_id n))
                (flowPathForStages row stages ctx) [] kind) as H.
  unfold group_by, group_step in H. rewrite H. clear H. simpl.
  assert (E : filter (fun x => pn_kind x = kind) (flowPathForStages row stages ctx)
              = [NODE_BUILDERS kind row ctx]); [| by rewrite E].
  unfold flowPathForStages. induction stages as [|s stages IH]; [set_solver |].
  apply NoDup_cons in Hnd as [Hs Hnd]. simpl. rewrite filter_cons, NODE_BUILDERS_kind.
  destruct (decide (s = kind)) as [->|Hne].
  - f_equal. clear IH Hnd Hin. induction stages as [|t stages IH]; [done |].
    simpl. rewrite filter_cons, NODE_BUILDERS_kind, decide_False by set_solver.
    apply IH. set_solver.
  - apply IH; set_solver.
Qed.

(** One filter set against the path of a row. *)
Lemma path_matches_spec row stages ctx (filters : kind_sets) :
  NoDup stages -> (forall k, k ∈ filters.*1 -> k ∈ stages) ->
  pathMatchesNodeFilters (flowPathForStages row stages ctx) filters = true <->
  forall kind ids, (kind, ids) ∈ filters -> pn_id (NODE_BUILDERS kind row ctx) ∈ ids.
Proof.
  intros Hnd Hk. unfold pathMatchesNodeFilters.
  destruct (Nat.eqb_spec (length filters) 0) as [E%nil_length_inv|_].
  { subst. split; [intros _ ? ? ?; set_solver | done]. }
  rewrite forallb_forall. setoid_rewrite <- list_elem_of_In.
  assert (Hone : forall kind ids, (kind, ids) ∈ filters ->
    (match map_get kind (foldl (fun m node => map_upsert (pn_kind node) []
           (fun s => set_add s (pn_id node)) m) [] (flowPathForStages row stages ctx)) with
     | None => false
     | Some pathIds => existsb (fun id => set_has id pathIds) ids
     end = true <-> pn_id (NODE_BUILDERS kind row ctx) ∈ ids)).
  { intros kind ids Hin.
    rewrite path_by_kind; [| done | apply Hk, (list_elem_of_fmap_2 fst _ _ Hin)].
    rewrite existsb_exists. setoid_rewrite <- list_elem_of_In.
    setoid_rewrite set_has_spec. setoid_rewrite list_elem_of_singleton. naive_solver. }
  split.
  - intros H kind ids Hin. apply (Hone kind ids Hin), (H (kind, ids) Hin).
  - intros H [kind ids] Hin. by apply (Hone kind ids Hin), H.
Qed.

(** ** Stage totals *)

(** The ranks of one stage, on their own: rows grouped by the id of their node. *)
Definition stage_group (kind : FlowNodeKind) (metric : FlowMetric) (ctx : FlowPathContext)
  (rows : list FlowQuotaDataItem) : list (str * FlowNodeRank) :=
  group_by (fun row => pn_id (NODE_BUILDERS kind row ctx))
    (fun row => mkRank (NODE_BUILDERS kind row ctx) 0)
    (fun r row => mkRank (rank_node r) (rank_value r + metricValue (rowMetrics row) metric)%Z)
    rows [].

(** The metric total of an id in a stage: the specification of its rank. *)
Definition id_total (kind : FlowNodeKind) (metric : FlowMetric) (ctx : FlowPathContext)
  (rows : list FlowQuotaDataItem) (id : str) : Z :=
  sumZ (fun row => metricValue (rowMetrics row) metric)
    (filter (fun row => pn_id (NODE_BUILDERS kind row ctx) = id) rows).

Lemma rank_add_get value totals node k :
  map_get k (rank_add value totals node) =
  if decide (k = pn_kind node) then
    (fun t => map_upsert (pn_id node) (mkRank node 0)
                (fun r => mkRank (rank_node r) (rank_value r + value)%Z) t) <$> map_get k totals
  else map_get k totals.
Proof.
  unfold rank_add. destruct (map_get (pn_kind node) totals) as [t|] eqn:E.
  - rewrite map_get_set. destruct (decide (k = pn_kind node)) as [->|]; [| done].
    by rewrite E.
  - destruct (decide (k = pn_kind node)) as [->|]; [| done]. by rewrite E.
Qed.

Lemma rank_path_get value totals row stages ctx k t :
  NoDup stages -> map_get k totals = Some t ->
  map_get k (foldl (rank_add value) totals (flowPathForStages row stages ctx)) =
  Some (if decide (k ∈ stages)
        then map_upsert (pn_id (NODE_BUILDERS k row ctx)) (mkRank (NODE_BUILDERS k row ctx) 0)
               (fun r => mkRank (rank_node r) (rank_value r + value)%Z) t
        else t).
Proof.
  unfold flowPathForStages. intros Hnd. revert totals t.
  induction stages as [|s stages IH]; intros totals t Ht; simpl; [done |].
  apply NoDup_cons in Hnd as [Hs Hnd].
  pose proof (rank_add_get value totals (NODE_BUILDERS s row ctx) k) as Hg.
  rewrite NODE_BUILDERS_kind, Ht in Hg. destruct (decide (k = s)) as [->|Hne].
  - rewrite (IH Hnd _ _ Hg), decide_False by done. by rewrite decide_True by left.
  - rewrite (IH Hnd _ _ Hg). destruct (decide (k ∈ stages)).
    + by rewrite decide_True by (by right).
    + by rewrite decide_False by set_solver.
Qed.

Lemma init_totals_get (stages : list FlowNodeKind) k (m : list (FlowNodeKind * list (str * FlowNodeRank))) :
  map_get k (foldl (fun m stage => map_set stage [] m) m stages) =
  if decide (k ∈ stages) then Some [] else map_get k m.
Proof.
  revert m. induction stages as [|s stages IH]; intros m; simpl; [done |].
  rewrite IH, map_get_set. repeat case_decide; set_solver.
Qed.

Lemma stage_totals_get rows metric stages ctx k :
  NoDup stages -> k ∈ stages ->
  map_get k (stage_totals rows metric stages ctx) = Some (stage_group k metric ctx rows).
Proof.
  intros Hnd Hk. unfold stage_totals, stage_group, group_by.
  assert (H0 : map_get k (foldl (fun m stage => map_set stage [] m)
                ([] : list (FlowNodeKind * list (str * FlowNodeRank))) stages) = Some [])
    by (rewrite init_totals_get; by rewrite decide_True).
  revert H0. generalize (foldl (fun m stage => map_set stage [] m)
                ([] : list (FlowNodeKind * list (str * FlowNodeRank))) stages) as totals.
  generalize (@nil (str * FlowNodeRank)) as t.
  induction rows as [|row rows IH]; intros t totals Ht; simpl; [done |].
  apply IH. rewrite (rank_path_get _ _ _ _ _ _ _ Hnd Ht). by rewrite decide_True.
Qed.

Lemma stage_totals_keys_NoDup rows metric stages ctx :
  NoDup (stage_totals rows metric stages ctx).*1.
Proof.
  unfold stage_totals.
  assert (H0 : NoDup (foldl (fun m stage => map_set stage [] m)
                ([] : list (FlowNodeKind * list (str * FlowNodeRank))) stages).*1).
  { assert (Hn : NoDup ([] : list (FlowNodeKind * list (str * FlowNodeRank))).*1) by constructor.
    revert Hn. generalize ([] : list (FlowNodeKind * list (str * FlowNodeRank))).
    induction stages as [|s stages IH]; intros m Hm; simpl; [done |].
    by apply IH, map_set_NoDup. }
  revert H0. generalize (foldl (fun m stage => map_set stage [] m)
                ([] : list (FlowNodeKind * list (str * FlowNodeRank))) stages).
  induction rows as [|row rows IH]; intros m Hm; simpl; [done |]. apply IH.
  clear IH. revert m Hm. induction (flowPathForStages row stages ctx) as [|n p IHp];
    intros m Hm; simpl; [done |]. apply IHp.
  unfold rank_add. destruct (map_get (pn_kind n) m); [by apply map_set_NoDup | done].
Qed.

Lemma rank_fold_value metric (rows : list FlowQuotaDataItem) r :
  foldl (fun r row => mkRank (rank_node r) (rank_value r + metricValue (rowMetrics row) metric)%Z) r rows
  = mkRank (rank_node r) (rank_value r + sumZ (fun row => metricValue (rowMetrics row) metric) rows)%Z.
Proof.
  revert r. induction rows as [|row rows IH]; intros r; simpl.
  - destruct r; simpl. f_equal. lia.
  - rewrite IH. simpl. f_equal. lia.
Qed.

(** Each rank of a stage carries its own id as key and the metric total of it. *)
Lemma stage_group_entry kind metric ctx rows id r :
  (id, r) ∈ stage_group kind metric ctx rows ->
  pn_id (rank_node r) = id /\ rank_value r = id_total kind metric ctx rows id.
Proof.
  intros Hin. apply elem_map_get in Hin; [| apply group_by_NoDup; constructor].
  unfold stage_group in Hin. rewrite group_by_get in Hin. simpl in Hin.
  destruct (filter _ rows) as [|y ys] eqn:E; [done |].
  assert (Hv := rank_fold_value metric (y :: ys) (mkRank (NODE_BUILDERS kind y ctx) 0)).
  simpl in Hv. simpl in Hin. rewrite Hv in Hin. inv Hin. simpl. split.
  - assert (Hy : y ∈ y :: ys) by left. rewrite <- E in Hy. by apply list_elem_of_filter in Hy as [? _].
  - unfold id_total. rewrite E. simpl. lia.
Qed.

(** ** Top node sets *)

Section TopNodeLemmas.
Context {C : Collation}.

Lemma rank_cmp_preorder : preorder_cmp rank_cmp.
Proof.
  unfold rank_cmp. apply cmp_or_preorder; [apply desc_preorder |].
  apply cmp_or_preorder; apply locale_preorder.
Qed.

(** The ids kept for one stage. *)
Definition top_ids (n : Z) (ranks : list FlowNodeRank) : list str :=
  set_of (map (fun r => pn_id (rank_node r)) (take (Z.to_nat n) (sort_by rank_cmp ranks))).

Lemma top_fold_get n (totals : list (FlowNodeKind * list (str * FlowNodeRank))) k (m : kind_sets) :
  NoDup totals.*1 ->
  map_get k (foldl (fun topSets '(kind, stageTotals) =>
      map_set kind (top_ids n (map snd stageTotals)) topSets) m totals) =
  match map_get k totals with
  | Some t => Some (top_ids n (map snd t))
  | None => map_get k m
  end.
Proof.
  revert m. induction totals as [|[k0 t0] totals IH]; intros m Hnd; [done |].
  apply NoDup_cons in Hnd as [Hn Hnd]. simpl. rewrite (IH _ Hnd), map_get_set.
  destruct (decide (k = k0)) as [->|]; [| done].
  by rewrite (proj2 (map_get_None k0 totals) Hn).
Qed.

Lemma buildTopNodeSets_get rows metric stages n ctx k :
  NoDup stages -> (0 < n)%Z -> k ∈ stages ->
  exists sets, buildTopNodeSets rows metric stages (Some n) ctx = Some sets /\
    map_get k sets = Some (top_ids n (map snd (stage_group k metric ctx rows))).
Proof.
  intros Hnd Hn Hk. unfold buildTopNodeSets. destruct (Z.eqb_spec n 0); [lia |].
  eexists. split; [reflexivity |].
  pose proof (top_fold_get n (stage_totals rows metric stages ctx) k []) as H.
  unfold top_ids in *. rewrite H by apply stage_totals_keys_NoDup.
  by rewrite (stage_totals_get _ _ _ _ _ Hnd Hk).
Qed.

Lemma take_sorted_dominates n (l : list FlowNodeRank) x y :
  cmp_sorted rank_cmp l -> x ∈ take n l -> y ∈ drop n l -> (rank_value y <= rank_value x)%Z.
Proof.
  intros Hs Hx Hy. rewrite <- (take_drop n l) in Hs.
  pose proof (StronglySorted_app_1_elem_of _ _ _ _ _ Hs Hx Hy) as H.
  unfold rank_cmp, cmp_or in H. destruct (Z.eqb_spec (rank_value y - rank_value x) 0); lia.
Qed.

Lemma top_ids_length n ranks : (0 <= n)%Z -> (Z.of_nat (length (top_ids n ranks)) <= n)%Z.
Proof.
  intros Hn. unfold top_ids.
  assert (H : (length (set_of (map (fun r => pn_id (rank_node r))
            (take (Z.to_nat n) (sort_by rank_cmp ranks)))) <=
            length (map (fun r => pn_id (rank_node r)) (take (Z.to_nat n) (sort_by rank_cmp ranks))))%nat).
  { apply submseteq_length, NoDup_submseteq; [apply NoDup_set_of |].
    intros x. by rewrite elem_of_set_of. }
  rewrite length_map, length_take in H. lia.
Qed.

Lemma stage_group_ids kind metric ctx rows :
  map (fun r => pn_id (rank_node r)) (map snd (stage_group kind metric ctx rows))
  = (stage_group kind metric ctx rows).*1.
Proof.
  rewrite map_map. apply map_ext_in. intros [id r] Hin%list_elem_of_In.
  by apply stage_group_entry in Hin as [? _].
Qed.

(** Over the ranks of a stage nothing is lost to duplicates. *)
Lemma top_ids_exact kind metric ctx rows n :
  top_ids n (map snd (stage_group kind metric ctx rows)) =
  map (fun r => pn_id (rank_node r))
    (take (Z.to_nat n) (sort_by rank_cmp (map snd (stage_group kind metric ctx rows)))).
Proof.
  apply set_of_id.
  set (ranks := map snd (stage_group kind metric ctx rows)).
  assert (H : NoDup (map (fun r => pn_id (rank_node r)) (sort_by rank_cmp ranks))).
  { rewrite (Permutation_map (fun r => pn_id (rank_node r)) (sort_by_perm rank_cmp ranks)).
    unfold ranks. rewrite stage_group_ids. apply group_by_NoDup. constructor. }
  rewrite <- (take_drop (Z.to_nat n) (sort_by rank_cmp ranks)), map_app in H.
  by apply NoDup_app in H as [? _].
Qed.

Lemma elem_of_top_ids n ranks id :
  id ∈ top_ids n ranks <->
  exists r, r ∈ take (Z.to_nat n) (sort_by rank_cmp ranks) /\ pn_id (rank_node r) = id.
Proof.
  unfold top_ids. rewrite elem_of_set_of. unfold map.
  rewrite (list_elem_of_fmap (fun r => pn_id (rank_node r))). naive_solver.
Qed.

End TopNodeLemmas.

(** * Properties *)

(** a row passes the node filter exactly when, for every visible stage with
    a selected node, the row's node of that stage is one of the selected ones:
    selections of one kind are alternatives, kinds are combined by conjunction,
    and selections of hidden stages have no effect. *)
Theorem filter_rows_by_nodes_spec rows sel role vs ctx row :
  let stages := resolveVisibleStages role vs in
  row ∈ filterRowsByNodes rows sel stages ctx <->
  row ∈ rows /\
  forall kind, kind ∈ stages ->
    (exists f, f ∈ default [] sel /\ nf_kind f = kind) ->
    exists f, f ∈ default [] sel /\ nf_kind f = kind /\
              nf_id f = pn_id (NODE_BUILDERS kind row ctx).
Proof.
  intros stages. assert (Hnd : NoDup stages) by apply resolveVisibleStages_NoDup.
  unfold filterRowsByNodes. set (fs := normalizeSelectedNodeFilters sel stages).
  assert (Hfs : NoDup fs.*1).
  { unfold fs. rewrite normalizeSelectedNodeFilters_eq. apply group_by_NoDup. constructor. }
  destruct (Nat.eqb_spec (length fs) 0) as [E%nil_length_inv|_].
  - split; [| by intros [? _]]. intros Hr. split; [done |]. intros kind Hk Hex. exfalso.
    assert (Hin : kind ∈ fs.*1) by by apply normalized_filters_keys.
    rewrite E in Hin. set_solver.
  - rewrite list_elem_of_In, filter_In, <- list_elem_of_In.
    rewrite path_matches_spec; [| done | by intros k [? _]%normalized_filters_keys].
    apply and_iff_compat_l. split.
    + intros H kind Hk Hex.
      destruct (map_get kind fs) as [ids|] eqn:Eg.
      2: { apply map_get_None in Eg. exfalso. by apply Eg, normalized_filters_keys. }
      pose proof (H kind ids (map_get_elem _ _ _ Eg)) as Hid.
      by apply (normalized_filters_get _ _ _ _ Eg) in Hid.
    + intros H kind ids Hin. apply (elem_map_get _ _ _ Hfs) in Hin as Eg.
      destruct (normalized_filters_get _ _ _ _ Eg) as (Hk & Hex & Hids).
      apply Hids. by apply H.
Qed.

(** the top sets keep, for every stage, at most [n] ids; all of them are
    ids of the stage, no id left out has a larger metric total than an id kept,
    and nothing is left out while there is room. *)
Theorem top_node_sets_spec {C : Collation} rows metric role vs n ctx kind :
  let stages := resolveVisibleStages role vs in
  (0 < n)%Z -> kind ∈ stages ->
  exists sets ids,
    buildTopNodeSets rows metric stages (Some n) ctx = Some sets /\
    map_get kind sets = Some ids /\
    NoDup ids /\ (Z.of_nat (length ids) <= n)%Z /\
    (forall id, id ∈ ids -> exists row, row ∈ rows /\ pn_id (NODE_BUILDERS kind row ctx) = id) /\
    (forall row, row ∈ rows ->
       let id := pn_id (NODE_BUILDERS kind row ctx) in
       id ∉ ids ->
       Z.of_nat (length ids) = n /\
       forall top, top ∈ ids -> (id_total kind metric ctx rows id <= id_total kind metric ctx rows top)%Z).
Proof.
  intros stages Hn Hk. assert (Hnd : NoDup stages) by apply resolveVisibleStages_NoDup.
  destruct (buildTopNodeSets_get rows metric stages n ctx kind Hnd Hn Hk) as (sets & Hs & Hg).
  exists sets, (top_ids n (map snd (stage_group kind metric ctx rows))).
  split; [done | split; [done | split; [apply NoDup_set_of | split; [apply top_ids_length; lia |]]]].
  set (ranks := map snd (stage_group kind metric ctx rows)).
  assert (Hr : forall r, r ∈ sort_by rank_cmp ranks ->
    (pn_id (rank_node r), r) ∈ stage_group kind metric ctx rows /\
    rank_value r = id_total kind metric ctx rows (pn_id (rank_node r))).
  { intros r Hr. apply elem_of_sort_by in Hr. unfold ranks, map in Hr.
    apply (list_elem_of_fmap snd) in Hr as ([id r'] & -> & Hin). simpl.
    pose proof (stage_group_entry _ _ _ _ _ _ Hin) as [-> ?]. done. }
  split.
  - intros id (r & Hin & <-)%elem_of_top_ids.
    destruct (Hr r) as [Hg' _]; [rewrite <- (take_drop (Z.to_nat n)); set_solver |].
    apply (list_elem_of_fmap_2 fst) in Hg'. apply group_by_keys in Hg' as [H | H]; [set_solver | exact H].
  - intros row Hrow id Hid.
    assert (Hkey : id ∈ (stage_group kind metric ctx rows).*1) by (apply group_by_keys; eauto).
    rewrite <- stage_group_ids in Hkey. unfold map in Hkey.
    apply (list_elem_of_fmap (fun r => pn_id (rank_node r))) in Hkey as (r & Er & Hin). fold ranks in Hin.
    rewrite <- elem_of_sort_by, <- (take_drop (Z.to_nat n) (sort_by rank_cmp ranks)) in Hin.
    apply elem_of_app in Hin as [Hin|Hin]; [exfalso; apply Hid, elem_of_top_ids; eauto |].
    split.
    + unfold ranks. rewrite top_ids_exact, length_map, length_take. fold ranks.
      assert (length (drop (Z.to_nat n) (sort_by rank_cmp ranks)) <> 0%nat)
        by (destruct (drop _ _); [set_solver | done]).
      rewrite length_drop in *. lia.
    + intros top (rt & Ht & <-)%elem_of_top_ids. fold ranks in Ht. rewrite Er.
      rewrite <- (proj2 (Hr r ltac:(rewrite <- (take_drop (Z.to_nat n) (sort_by rank_cmp ranks)); set_solver))).
      rewrite <- (proj2 (Hr rt ltac:(rewrite <- (take_drop (Z.to_nat n) (sort_by rank_cmp ranks)); set_solver))).
      eapply take_sorted_dominates; [| done | done]. apply sort_by_sorted_pre, rank_cmp_preorder.
Qed.
