(* ===== verification/FlowGraph.v ===== *)
(** * Dashboard flow: the graph

    Model of the second half of [features/dashboard/lib/flow.ts]: paths are
    accumulated into nodes and links, labels masked, selections highlighted,
    colours assigned, and the filter options of the panel computed.  The default
    colour schemes come from the chart library and number formatting from the
    runtime: both are parameters. *)
From S2P Require Import Prelude Number FlowData.

(** ** Colours *)

(** [vchartDefaultDataScheme] of the chart library; a scheme entry that is not a
    string is [None]. *)
Record DataScheme := mkScheme { maxDomainLength : option nat; scheme : list (option str) }.
Class ChartTheme := { vchartDefaultDataScheme : list DataScheme }.
(** [Intl.NumberFormat(undefined, { maximumFractionDigits: 0 }).format]. *)
Class IntlFormat := { formatNumber : Z -> str }.

Definition DEFAULT_FLOW_CHART_COLOR : str := js "#1664FF".

Section Colors.
Context {T : ChartTheme}.

Definition getDashboardChartColors (domainLength : nat) : list str :=
  let fits (item : DataScheme) :=
    match maxDomainLength item with
    | None => true
    | Some n => (n =? 0)%nat || (domainLength <=? n)%nat
    end in
  let chosen := match List.find fits vchartDefaultDataScheme with
                | Some item => Some item
                | None => last vchartDefaultDataScheme
                end in
  match chosen with Some item => omap id (scheme item) | None => [] end.

Definition colorAt (index : nat) (palette : option (list str)) : str :=
  let colors := match palette with
                | Some (c :: cs) => c :: cs
                | _ => getDashboardChartColors (index + 1)
                end in
  if (length colors =? 0)%nat then DEFAULT_FLOW_CHART_COLOR
  else default DEFAULT_FLOW_CHART_COLOR (colors !! (index mod length colors)%nat).

Definition colorPalette (colorCount : nat) (palette : option (list str)) : list str :=
  match palette with
  | Some (c :: cs) => c :: cs
  | _ =>
      let colors := getDashboardChartColors colorCount in
      if (0 <? length colors)%nat then colors else [DEFAULT_FLOW_CHART_COLOR]
  end.

Definition stableColorMap (keys : list str) (palette : option (list str)) : list (str * str) :=
  let uniqueKeys := set_of keys in
  let colors := colorPalette (length uniqueKeys) palette in
  foldl (fun m '(index, key) => map_set key (colorAt index (Some colors)) m) []
    (imap (fun index key => (index, key)) uniqueKeys).

End Colors.

Record DisplayColor := mkDisplay { dc_color : str; dc_alpha : num }.

Definition is_hex (c : N) : bool :=
  is_digit c || ((97 <=? c) && (c <=? 102))%N || ((65 <=? c) && (c <=? 70))%N.

Definition alphaColor (color : str) (alpha : num) : DisplayColor :=
  let normalized := trim color in
  let hex := if starts_with normalized (js "#") then drop 1 normalized else normalized in
  if negb ((length hex =? 6)%nat && forallb is_hex hex) then mkDisplay normalized alpha
  else
    let value := Z.of_N (default 0%N (radix_val 16 0 hex)) in
    let red := Z.land (Z.shiftr value 16) 255 in
    let green := Z.land (Z.shiftr value 8) 255 in
    let blue := Z.land value 255 in
    mkDisplay (js "rgba(" ++ show_Z red ++ js ", " ++ show_Z green ++ js ", " ++ show_Z blue
               ++ js ", " ++ to_fixed alpha 2 ++ js ")") (n_of_Z 1).

(** ** Nodes and links *)

Record DashboardFlowNode := mkNode {
  n_id : str; n_label : str; n_kind : FlowNodeKind; n_value : Z; n_requests : Z;
  n_quota : Z; n_tokens : Z; n_color : str; n_colorKey : str;
  n_highlighted : option bool; n_dimmed : option bool
}.

Record DashboardFlowLink := mkLink {
  l_source : str; l_target : str; l_value : Z; l_requests : Z; l_quota : Z; l_tokens : Z;
  l_sourceLabel : str; l_targetLabel : str; l_color : str; l_linkColor : str;
  l_linkAlpha : num; l_hoverColor : str; l_colorKey : str; l_share : num;
  l_highlighted : option bool; l_dimmed : option bool
}.

Record DashboardFlowGraph := mkGraph {
  g_nodes : list DashboardFlowNode; g_links : list DashboardFlowLink
}.

Definition node_add (metrics : FlowMetrics) (metric : FlowMetric) (n : DashboardFlowNode) :=
  mkNode (n_id n) (n_label n) (n_kind n) (n_value n + metricValue metrics metric)
    (n_requests n + m_requests metrics) (n_quota n + m_quota metrics)
    (n_tokens n + m_tokens metrics) (n_color n) (n_colorKey n) (n_highlighted n) (n_dimmed n).

Definition addNode (m : list (str * DashboardFlowNode)) (pathNode : FlowPathNode)
  (metrics : FlowMetrics) (metric : FlowMetric) (color colorKey : str) :
  list (str * DashboardFlowNode) :=
  map_upsert (pn_id pathNode)
    (mkNode (pn_id pathNode) (pn_label pathNode) (pn_kind pathNode) 0 0 0 0 color colorKey None None)
    (node_add metrics metric) m.

Definition pathLinkKey (source target : FlowPathNode) : str := pn_id source ++ 0%N :: pn_id target.
Definition linkStableKey (l : DashboardFlowLink) : str := l_source l ++ 0%N :: l_target l.

Definition link_add (metrics : FlowMetrics) (metric : FlowMetric) (l : DashboardFlowLink) :=
  mkLink (l_source l) (l_target l) (l_value l + metricValue metrics metric)
    (l_requests l + m_requests metrics) (l_quota l + m_quota metrics)
    (l_tokens l + m_tokens metrics) (l_sourceLabel l) (l_targetLabel l) (l_color l)
    (l_linkColor l) (l_linkAlpha l) (l_hoverColor l) (l_colorKey l) (l_share l)
    (l_highlighted l) (l_dimmed l).

Definition addLink (m : list (str * DashboardFlowLink)) (source target : FlowPathNode)
  (metrics : FlowMetrics) (metric : FlowMetric) (color colorKey : str) :
  list (str * DashboardFlowLink) :=
  map_upsert (pathLinkKey source target)
    (mkLink (pn_id source) (pn_id target) 0 0 0 0 (pn_label source) (pn_label target) color color
       (n_of_Z 1) color colorKey n_zero None None)
    (link_add metrics metric) m.

Record PreparedFlowPath := mkPrepared { pp_path : list FlowPathNode; pp_metrics : FlowMetrics }.

(** The pairs [(path[i], path[i + 1])]. *)
Definition path_edges (path : list FlowPathNode) : list (FlowPathNode * FlowPathNode) :=
  zip path (tail path).

(** ** Highlighting *)

Definition pathContainsFlowNode (path : list FlowPathNode) (f : FlowNodeFilter) : bool :=
  existsb (fun node => bool_decide (pn_kind node = nf_kind f) && str_eqb (pn_id node) (nf_id f)) path.

Definition pathContainsFlowLink (path : list FlowPathNode) (link : FlowLinkSelection) : bool :=
  existsb (fun '(s, t) => str_eqb (pn_id s) (ls_source link) && str_eqb (pn_id t) (ls_target link))
    (path_edges path).

Record FlowHighlightSets := mkHighlight { h_nodes : list str; h_links : list str }.

Definition matchesPath (activeNode : option FlowNodeFilter) (activeLink : option FlowLinkSelection)
  (path : list FlowPathNode) : bool :=
  match activeLink with
  | Some l => pathContainsFlowLink path l
  | None => match activeNode with Some n => pathContainsFlowNode path n | None => false end
  end.

Definition buildFlowHighlightSets (preparedPaths : list PreparedFlowPath)
  (activeNode : option FlowNodeFilter) (activeLink : option FlowLinkSelection)
  (stages : list FlowNodeKind) : option FlowHighlightSets :=
  let nodeActive := match activeNode with
                    | Some n => bool_decide (nf_kind n ∈ stages)
                    | None => false
                    end in
  match nodeActive, activeLink with
  | false, None => None
  | _, _ =>
      let '(nodes, links) :=
        foldl (fun '(nodes, links) prepared =>
                 let path := pp_path prepared in
                 if negb (matchesPath activeNode activeLink path) then (nodes, links)
                 else (foldl set_add nodes (map pn_id path),
                       foldl set_add links (map (fun '(s, t) => pathLinkKey s t) (path_edges path))))
          ([], []) preparedPaths in
      if (length nodes =? 0)%nat then None else Some (mkHighlight nodes links)
  end.

Definition set_node_flags (h : FlowHighlightSets) (n : DashboardFlowNode) : DashboardFlowNode :=
  let highlighted := set_has (n_id n) (h_nodes h) in
  mkNode (n_id n) (n_label n) (n_kind n) (n_value n) (n_requests n) (n_quota n) (n_tokens n)
    (n_color n) (n_colorKey n) (Some highlighted) (Some (negb highlighted)).

Definition set_link_flags (h : FlowHighlightSets) (l : DashboardFlowLink) : DashboardFlowLink :=
  let highlighted := set_has (linkStableKey l) (h_links h) in
  mkLink (l_source l) (l_target l) (l_value l) (l_requests l) (l_quota l) (l_tokens l)
    (l_sourceLabel l) (l_targetLabel l) (l_color l) (l_linkColor l) (l_linkAlpha l)
    (l_hoverColor l) (l_colorKey l) (l_share l) (Some highlighted) (Some (negb highlighted)).

Definition applyFlowHighlights (nodes : list DashboardFlowNode) (links : list DashboardFlowLink)
  (highlightSets : option FlowHighlightSets) : list DashboardFlowNode * list DashboardFlowLink :=
  match highlightSets with
  | None => (nodes, links)
  | Some h => (map (set_node_flags h) nodes, map (set_link_flags h) links)
  end.

(** ** Masking *)

Definition FLOW_MASK_TEXT : str := js "••••".

Definition maskFlowLabel (label : str) : str :=
  if (length label =? 0)%nat then label else FLOW_MASK_TEXT.

Definition must_mask (n : DashboardFlowNode) : bool :=
  set_has (n_kind n) SENSITIVE_FLOW_KINDS && negb (set_has (n_id n) OTHER_FLOW_NODE_ID_SET).

Definition set_node_label (label : str) (n : DashboardFlowNode) : DashboardFlowNode :=
  mkNode (n_id n) label (n_kind n) (n_value n) (n_requests n) (n_quota n) (n_tokens n)
    (n_color n) (n_colorKey n) (n_highlighted n) (n_dimmed n).

Definition set_link_labels (sl tl : str) (l : DashboardFlowLink) : DashboardFlowLink :=
  mkLink (l_source l) (l_target l) (l_value l) (l_requests l) (l_quota l) (l_tokens l) sl tl
    (l_color l) (l_linkColor l) (l_linkAlpha l) (l_hoverColor l) (l_colorKey l) (l_share l)
    (l_highlighted l) (l_dimmed l).

Definition maskFlowGraphLabels (nodes : list DashboardFlowNode) (links : list DashboardFlowLink) :
  list DashboardFlowNode * list DashboardFlowLink :=
  let nodes' := map (fun n => if must_mask n then set_node_label (maskFlowLabel (n_label n)) n else n)
                  nodes in
  let maskedById := foldl (fun m n => if must_mask n
                                      then map_set (n_id n) (maskFlowLabel (n_label n)) m else m)
                      [] nodes in
  if (length maskedById =? 0)%nat then (nodes', links)
  else (nodes',
        map (fun l => set_link_labels
               (default (l_sourceLabel l) (map_get (l_source l) maskedById))
               (default (l_targetLabel l) (map_get (l_target l) maskedById)) l) links).

(** ** Options of the build *)

Record FlowGraphOptions := mkGraphOptions {
  go_topNodeLimit : option num; go_overflowMode : option FlowOverflowMode;
  go_otherNodeLabel : option (FlowNodeKind -> str); go_activeNode : option FlowNodeFilter;
  go_activeLink : option FlowLinkSelection; go_maskSensitive : bool
}.

Record FlowBuildOptions := mkBuildOptions {
  o_role : option FlowRole; o_selectedUsers : option (list str);
  o_selectedNodes : option (list FlowNodeFilter); o_activeNode : option FlowNodeFilter;
  o_activeLink : option FlowLinkSelection; o_colorPalette : option (list str);
  o_visibleStages : option (list FlowNodeKind); o_topNodeLimit : option num;
  o_overflowMode : option FlowOverflowMode; o_maskSensitive : bool;
  o_deletedTokenLabel : option (Z -> str); o_otherNodeLabel : option (FlowNodeKind -> str)
}.

Definition DEFAULT_FLOW_ROLE : FlowRole := RUser.
Definition DEFAULT_FLOW_OVERFLOW_MODE : FlowOverflowMode := aggregate.

(** ** Building the graph *)

Definition set_link_share (share : num) (l : DashboardFlowLink) : DashboardFlowLink :=
  mkLink (l_source l) (l_target l) (l_value l) (l_requests l) (l_quota l) (l_tokens l)
    (l_sourceLabel l) (l_targetLabel l) (l_color l) (l_linkColor l) (l_linkAlpha l)
    (l_hoverColor l) (l_colorKey l) share (l_highlighted l) (l_dimmed l).

Definition set_link_display (d : DisplayColor) (l : DashboardFlowLink) : DashboardFlowLink :=
  mkLink (l_source l) (l_target l) (l_value l) (l_requests l) (l_quota l) (l_tokens l)
    (l_sourceLabel l) (l_targetLabel l) (l_color l) (dc_color d) (dc_alpha d)
    (l_color l) (l_colorKey l) (l_share l) (l_highlighted l) (l_dimmed l).

(** The opacity of the [index]-th of [count] links of one source. *)
Definition link_alpha (count index : nat) : num :=
  if (count =? 1)%nat then lit "0.34"
  else n_add (lit "0.24")
         (n_mul (n_div (n_of_Z (Z.of_nat index)) (n_of_Z (Z.of_nat (Nat.max (count - 1) 1))))
            (lit "0.2")).

(** The ids of the first nodes of the paths, [prepared.path[0]?.id], without
    empty ones. *)
Definition first_ids (preparedPaths : list PreparedFlowPath) : list str :=
  List.filter truthy (omap (fun p => pn_id <$> head (pp_path p)) preparedPaths).

Definition preparePaths (rows : list FlowQuotaDataItem) (stages : list FlowNodeKind)
  (topNodeSets : option kind_sets) (mode : FlowOverflowMode)
  (labeler : option (FlowNodeKind -> str)) (ctx : FlowPathContext) : list PreparedFlowPath :=
  omap (fun row =>
          (fun path => mkPrepared path (rowMetrics row)) <$>
          applyTopNodeLimit (flowPathForStages row stages ctx) topNodeSets mode labeler) rows.

Section Build.
Context {C : Collation} {T : ChartTheme} {F : IntlFormat}.

Definition link_display_cmp (a b : DashboardFlowLink) : Z :=
  cmp_or (l_value b - l_value a) (localeCompare (linkStableKey a) (linkStableKey b)).

(** Links are grouped by source, each group sorted, and the display colour of a
    link derived from its place; the updates are written back by link key. *)
Definition assignLinkDisplayColors (links : list DashboardFlowLink) : list DashboardFlowLink :=
  let linksBySource := group_by l_source (fun _ => []) (fun ls l => ls ++ [l]) links [] in
  let display :=
    concat (map (fun '(_, sourceLinks) =>
      let sortedLinks := sort_by link_display_cmp sourceLinks in
      imap (fun index link =>
              (linkStableKey link, alphaColor (l_color link) (link_alpha (length sortedLinks) index)))
        sortedLinks) linksBySource) in
  map (fun l => match map_get (linkStableKey l) display with
                | Some d => set_link_display d l
                | None => l
                end) links.

Definition byValueThenLabel (a b : DashboardFlowNode) : Z :=
  cmp_or (n_value b - n_value a) (localeCompare (n_label a) (n_label b)).

Definition accumulatePath (metric : FlowMetric) (colors : list (str * str))
  (palette : option (list str))
  (acc : list (str * DashboardFlowNode) * list (str * DashboardFlowLink))
  (prepared : PreparedFlowPath) :
  list (str * DashboardFlowNode) * list (str * DashboardFlowLink) :=
  let path := pp_path prepared in
  match head path with
  | None => acc
  | Some root =>
      let color := default (colorAt 0 palette) (map_get (pn_id root) colors) in
      (foldl (fun m node => addNode m node (pp_metrics prepared) metric color (pn_id root))
         (fst acc) path,
       foldl (fun m '(s, t) => addLink m s t (pp_metrics prepared) metric color (pn_id root))
         (snd acc) (path_edges path))
  end.

(** From the prepared paths to the graph: everything in [buildFlowGraph] after
    the loop that fills [preparedPaths]. *)
Definition graph_of_paths (preparedPaths : list PreparedFlowPath) (metric : FlowMetric)
  (palette : option (list str)) (stages : list FlowNodeKind) (options : FlowGraphOptions) :
  DashboardFlowGraph :=
  let colors := stableColorMap (sort_by localeCompare (first_ids preparedPaths)) palette in
  let acc := foldl (accumulatePath metric colors palette) ([], []) preparedPaths in
  let nodes0 := map snd (fst acc) in
  let links0 := map snd (snd acc) in
  let '(nodes1, links1) := if go_maskSensitive options
                           then maskFlowGraphLabels nodes0 links0 else (nodes0, links0) in
  let '(nodes2, links2) :=
    applyFlowHighlights nodes1 links1
      (buildFlowHighlightSets preparedPaths (go_activeNode options) (go_activeLink options) stages) in
  let flowLinks := sort_by (fun a b => cmp_or (localeCompare (l_source a) (l_source b))
                                         (localeCompare (l_target a) (l_target b))) links2 in
  let firstStepSources := set_of (first_ids preparedPaths) in
  let total := foldl (fun sum link => sum + l_value link)%Z 0%Z
                 (List.filter (fun link => set_has (l_source link) firstStepSources) flowLinks) in
  let shared := map (fun link => set_link_share
                       (if (0 <? total)%Z then n_div (n_of_Z (l_value link)) (n_of_Z total)
                        else n_zero) link) flowLinks in
  mkGraph (sort_by byValueThenLabel nodes2) (assignLinkDisplayColors shared).

Definition buildFlowGraph (rows : list FlowQuotaDataItem) (metric : FlowMetric) (role : FlowRole)
  (palette : option (list str)) (visibleStages : option (list FlowNodeKind))
  (ctx : FlowPathContext) (options : FlowGraphOptions) : DashboardFlowGraph :=
  let stages := resolveVisibleStages role visibleStages in
  let topNodeSets := buildTopNodeSets rows metric stages
                       (normalizeTopNodeLimit (go_topNodeLimit options)) ctx in
  let overflowMode := default DEFAULT_FLOW_OVERFLOW_MODE (go_overflowMode options) in
  let preparedPaths := preparePaths rows stages topNodeSets overflowMode
                         (go_otherNodeLabel options) ctx in
  graph_of_paths preparedPaths metric palette stages options.

(** ** Filter options *)

Record FlowUserFilterOption := mkUserOption {
  uo_value : str; uo_label : str; uo_valueLabel : str; uo_valueRaw : Z; uo_color : str
}.
Record FlowNodeFilterOption := mkNodeOption {
  no_kind : FlowNodeKind; no_value : str; no_label : str; no_valueLabel : str;
  no_valueRaw : Z; no_color : str
}.
Record FlowFilterOptions := mkFilterOptions {
  fo_users : list FlowUserFilterOption; fo_nodes : list FlowNodeFilterOption
}.
Record UserEntry := mkUserEntry { ue_label : str; ue_value : Z; ue_color : str }.

(** [!row.user_id && !row.username]. *)
Definition row_has_user (row : FlowQuotaDataItem) : bool :=
  negb (numberValue (user_id row) =? 0)%Z || truthy (default [] (username row)).

Definition buildUserFilterOptions (rows : list FlowQuotaDataItem) (metric : FlowMetric)
  (palette : option (list str)) : list FlowUserFilterOption :=
  let colors := stableColorMap
                  (sort_by localeCompare (map (fun row => pn_id (userNode row)) rows)) palette in
  let users := foldl (fun m row =>
    let user := userNode row in
    if negb (row_has_user row) then m
    else map_upsert (pn_id user)
           (mkUserEntry (pn_label user) 0 (default (colorAt 0 palette) (map_get (pn_id user) colors)))
           (fun e => mkUserEntry (ue_label e)
                       (ue_value e + metricValue (rowMetrics row) metric)%Z (ue_color e)) m)
    [] rows in
  sort_by (fun a b => cmp_or (uo_valueRaw b - uo_valueRaw a) (localeCompare (uo_label a) (uo_label b)))
    (map (fun '(value, user) => mkUserOption value (ue_label user) (formatNumber (ue_value user))
                                  (ue_value user) (ue_color user)) users).

(** [stageOrder.get(kind) ?? 0]. *)
Definition stage_index (stages : list FlowNodeKind) (kind : FlowNodeKind) : Z :=
  Z.of_nat (default 0%nat (fst <$> list_find (fun s => s = kind) stages)).

(** The ranks of one stage over its candidate rows, keyed by [nodeFilterKey]. *)
Definition stage_candidates (stage : FlowNodeKind) (metric : FlowMetric) (ctx : FlowPathContext)
  (candidateRows : list FlowQuotaDataItem) : list (str * FlowNodeRank) :=
  foldl (fun totals row =>
           let value := metricValue (rowMetrics row) metric in
           let node := NODE_BUILDERS stage row ctx in
           map_upsert (nodeFilterKey (mkNodeFilter (pn_kind node) (pn_id node))) (mkRank node 0)
             (fun r => mkRank (rank_node r) (rank_value r + value)%Z) totals) [] candidateRows.

Definition buildNodeFilterOptions (rows : list FlowQuotaDataItem) (metric : FlowMetric)
  (role : FlowRole) (visibleStages : option (list FlowNodeKind)) (palette : option (list str))
  (ctx : FlowPathContext) (selectedNodes : option (list FlowNodeFilter)) :
  list FlowNodeFilterOption :=
  let stages := resolveVisibleStages role visibleStages in
  let colorIds := foldl (fun s row => foldl set_add s (map pn_id (flowPathForStages row stages ctx)))
                    [] rows in
  let colors := stableColorMap (sort_by localeCompare colorIds) palette in
  let options := concat (map (fun stage =>
    let candidateRows := filterRowsByNodes rows
                           (selectedNodeFiltersExceptKind selectedNodes stage) stages ctx in
    map (fun '(_, rank) =>
           mkNodeOption (pn_kind (rank_node rank)) (pn_id (rank_node rank)) (pn_label (rank_node rank))
             (formatNumber (rank_value rank)) (rank_value rank)
             (default (colorAt 0 palette) (map_get (pn_id (rank_node rank)) colors)))
      (stage_candidates stage metric ctx candidateRows)) stages) in
  sort_by (fun a b =>
    cmp_or (stage_index stages (no_kind a) - stage_index stages (no_kind b))
      (cmp_or (no_valueRaw b - no_valueRaw a)
         (cmp_or (localeCompare (no_label a) (no_label b))
            (localeCompare (no_value a) (no_value b))))) options.

Definition buildFlowFilterOptions (rows : list FlowQuotaDataItem) (metric : FlowMetric)
  (palette : option (list str)) (role : FlowRole) (visibleStages : option (list FlowNodeKind))
  (selectedNodes : option (list FlowNodeFilter)) : FlowFilterOptions :=
  mkFilterOptions (buildUserFilterOptions rows metric palette)
    (buildNodeFilterOptions rows metric role visibleStages palette None selectedNodes).

Record ProcessedFlowData := mkProcessed {
  p_summary : FlowSummary; p_flow : DashboardFlowGraph; p_filterOptions : FlowFilterOptions
}.

Definition buildDashboardFlowData (rows : list FlowQuotaDataItem) (metric : FlowMetric)
  (options : FlowBuildOptions) : ProcessedFlowData :=
  let role := default DEFAULT_FLOW_ROLE (o_role options) in
  let palette := o_colorPalette options in
  let ctx := o_deletedTokenLabel options in
  let stages := resolveVisibleStages role (o_visibleStages options) in
  let userFilteredRows := filterRows rows (o_selectedUsers options) in
  let filteredRows := filterRowsByNodes userFilteredRows (o_selectedNodes options) stages ctx in
  mkProcessed (buildSummary filteredRows)
    (buildFlowGraph filteredRows metric role palette (o_visibleStages options) ctx
       (mkGraphOptions (o_topNodeLimit options) (o_overflowMode options) (o_otherNodeLabel options)
          (o_activeNode options) (o_activeLink options) (o_maskSensitive options)))
    (mkFilterOptions (buildUserFilterOptions rows metric palette)
       (buildNodeFilterOptions userFilteredRows metric role (o_visibleStages options) palette ctx
          (o_selectedNodes options))).

End Build.
