(* ===== verification/FlowProps.v ===== *)
(** * Dashboard flow: correctness of the graph

    The abstract specification of the graph is given on the prepared paths: the
    total of an id is the metric summed over the path nodes with that id.  The
    theorems show that [graph_of_paths] and [buildFlowGraph] compute it, that
    quantities are conserved along the stages, and what masking, highlighting
    and the top-node limit do to the result. *)
From S2P Require Import Prelude Number FlowData FlowGraph.

(** ** Accumulation as grouping *)

Definition node_items (ps : list PreparedFlowPath) : list (FlowPathNode * PreparedFlowPath) :=
  concat (map (fun p => map (fun n => (n, p)) (pp_path p)) ps).
Definition link_items (ps : list PreparedFlowPath) :
  list ((FlowPathNode * FlowPathNode) * PreparedFlowPath) :=
  concat (map (fun p => map (fun e => (e, p)) (path_edges (pp_path p))) ps).

Definition path_root (p : PreparedFlowPath) : str := default [] (pn_id <$> head (pp_path p)).
Definition path_value (metric : FlowMetric) (p : PreparedFlowPath) : Z :=
  metricValue (pp_metrics p) metric.

Section Accumulate.
Context {C : Collation} {T : ChartTheme}.
Variables (metric : FlowMetric) (colors : list (str * str)) (palette : option (list str)).

Definition path_color (p : PreparedFlowPath) : str :=
  default (colorAt 0 palette) (map_get (path_root p) colors).

Definition node_init (x : FlowPathNode * PreparedFlowPath) : DashboardFlowNode :=
  mkNode (pn_id x.1) (pn_label x.1) (pn_kind x.1) 0 0 0 0 (path_color x.2) (path_root x.2) None None.
Definition node_more (b : DashboardFlowNode) (x : FlowPathNode * PreparedFlowPath) :=
  node_add (pp_metrics x.2) metric b.
Definition link_key (x : (FlowPathNode * FlowPathNode) * PreparedFlowPath) : str :=
  pathLinkKey x.1.1 x.1.2.
Definition link_init (x : (FlowPathNode * FlowPathNode) * PreparedFlowPath) : DashboardFlowLink :=
  mkLink (pn_id x.1.1) (pn_id x.1.2) 0 0 0 0 (pn_label x.1.1) (pn_label x.1.2) (path_color x.2)
    (path_color x.2) (n_of_Z 1) (path_color x.2) (path_root x.2) n_zero None None.
Definition link_more (b : DashboardFlowLink) (x : (FlowPathNode * FlowPathNode) * PreparedFlowPath) :=
  link_add (pp_metrics x.2) metric b.

Definition node_groups (ps : list PreparedFlowPath) : list (str * DashboardFlowNode) :=
  group_by (fun x => pn_id x.1) node_init node_more (node_items ps) [].
Definition link_groups (ps : list PreparedFlowPath) : list (str * DashboardFlowLink) :=
  group_by link_key link_init link_more (link_items ps) [].

Lemma foldl_map {A B D} (f : D -> B -> D) (g : A -> B) (l : list A) d :
  foldl f d (map g l) = foldl (fun d x => f d (g x)) d l.
Proof. revert d. induction l as [|x l IH]; intros d; simpl; auto. Qed.

Lemma accumulate_eq ps acc :
  foldl (accumulatePath metric colors palette) acc ps =
  (group_by (fun x => pn_id x.1) node_init node_more (node_items ps) (fst acc),
   group_by link_key link_init link_more (link_items ps) (snd acc)).
Proof.
  unfold group_by. revert acc. induction ps as [|p ps IH]; intros [ns ls]; [done |].
  change (node_items (p :: ps)) with (map (fun n => (n, p)) (pp_path p) ++ node_items ps).
  change (link_items (p :: ps)) with
    (map (fun e => (e, p)) (path_edges (pp_path p)) ++ link_items ps).
  change (foldl (accumulatePath metric colors palette) (ns, ls) (p :: ps)) with
    (foldl (accumulatePath metric colors palette)
       (accumulatePath metric colors palette (ns, ls) p) ps).
  rewrite IH, !foldl_app. unfold accumulatePath.
  destruct (pp_path p) as [|root path] eqn:Ep; [done |]. cbn [head fst snd].
  assert (Hroot : path_root p = pn_id root) by (unfold path_root; by rewrite Ep).
  f_equal; f_equal; rewrite foldl_map; symmetry; apply foldl_ext_in.
  - intros d n. unfold group_step, addNode, node_init, node_more, path_color. simpl. by rewrite Hroot.
  - intros d [s t]. unfold group_step, addLink, link_key, link_init, link_more, path_color.
    simpl. by rewrite Hroot.
Qed.

Lemma accumulate_groups ps :
  foldl (accumulatePath metric colors palette) ([], []) ps = (node_groups ps, link_groups ps).
Proof. apply accumulate_eq. Qed.

(** ** The specification: totals over the paths *)

(** Metric total over the path nodes with a given id. *)
Definition node_total (ps : list PreparedFlowPath) (id : str) : Z :=
  sumZ (fun x => path_value metric x.2) (filter (fun x => pn_id x.1 = id) (node_items ps)).

Lemma node_groups_entry ps id n :
  (id, n) ∈ node_groups ps ->
  exists x, x ∈ node_items ps /\ pn_id x.1 = id /\ n_id n = id /\ n_kind n = pn_kind x.1 /\
    n_value n = node_total ps id.
Proof.
  intros Hin. apply elem_map_get in Hin; [| apply group_by_NoDup; constructor].
  unfold node_groups in Hin. rewrite group_by_get in Hin. simpl in Hin.
  destruct (filter _ (node_items ps)) as [|x xs] eqn:E; [done |].
  assert (Hx : x ∈ x :: xs) by left. rewrite <- E in Hx.
  apply list_elem_of_filter in Hx as [Hid Hx].
  assert (Hfold : forall ys b, let r := foldl node_more b ys in
     n_id r = n_id b /\ n_kind r = n_kind b /\
     n_value r = (n_value b + sumZ (fun x => path_value metric x.2) ys)%Z).
  { induction ys as [|y ys IH]; intros b; simpl; [repeat split; lia |].
    destruct (IH (node_more b y)) as (-> & -> & ->). simpl. unfold path_value. repeat split; lia. }
  destruct (Hfold (x :: xs) (node_init x)) as (H1 & H2 & H3).
  injection Hin as <-. exists x. simpl in *. rewrite H1, H2, H3.
  unfold node_total. rewrite E. simpl. unfold path_value. repeat split; try done; lia.
Qed.

Lemma node_groups_keys ps id :
  id ∈ (node_groups ps).*1 <-> exists x, x ∈ node_items ps /\ pn_id x.1 = id.
Proof. unfold node_groups. rewrite group_by_keys. set_solver. Qed.

Lemma node_groups_NoDup ps : NoDup (node_groups ps).*1.
Proof. apply group_by_NoDup. constructor. Qed.

(** The ids of the accumulated nodes are the keys of the map. *)
Lemma node_groups_ids ps : map n_id (map snd (node_groups ps)) = (node_groups ps).*1.
Proof.
  rewrite map_map. apply map_ext_in. intros [id n] Hin%list_elem_of_In.
  by destruct (node_groups_entry _ _ _ Hin) as (x & _ & _ & ? & _).
Qed.

End Accumulate.

Lemma elem_of_node_items ps n p : (n, p) ∈ node_items ps <-> p ∈ ps /\ n ∈ pp_path p.
Proof.
  unfold node_items. rewrite list_elem_of_In, in_concat. split.
  - intros (l & Hl & Hin). apply in_map_iff in Hl as (q & <- & Hq).
    apply in_map_iff in Hin as (m & [= -> ->] & Hm). by rewrite !list_elem_of_In.
  - intros [Hp Hn]. exists (map (fun n => (n, p)) (pp_path p)). rewrite !in_map_iff.
    apply list_elem_of_In in Hp, Hn. split; [by exists p | by exists n].
Qed.

Lemma elem_of_link_items ps e p : (e, p) ∈ link_items ps <-> p ∈ ps /\ e ∈ path_edges (pp_path p).
Proof.
  unfold link_items. rewrite list_elem_of_In, in_concat. split.
  - intros (l & Hl & Hin). apply in_map_iff in Hl as (q & <- & Hq).
    apply in_map_iff in Hin as (m & [= -> ->] & Hm). by rewrite !list_elem_of_In.
  - intros [Hp Hn]. exists (map (fun e => (e, p)) (path_edges (pp_path p))). rewrite !in_map_iff.
    apply list_elem_of_In in Hp, Hn. split; [by exists p | by exists e].
Qed.

(** ** Staged paths *)

(** Every path has one node per stage, with the stage's kind, and ids that start
    with the name of their kind. *)
Definition staged (stages : list FlowNodeKind) (ps : list PreparedFlowPath) : Prop :=
  Forall (fun p => map pn_kind (pp_path p) = stages /\ Forall kind_prefixed (pp_path p)) ps.

Lemma staged_prefixed stages ps x : staged stages ps -> x ∈ node_items ps -> kind_prefixed x.1.
Proof.
  intros Hs Hx. destruct x as [n p]. apply elem_of_node_items in Hx as [Hp Hn].
  unfold staged in Hs. rewrite Forall_forall in Hs. destruct (Hs p Hp) as [_ H].
  rewrite Forall_forall in H. by apply H.
Qed.

Lemma staged_same_kind stages ps x y :
  staged stages ps -> x ∈ node_items ps -> y ∈ node_items ps ->
  pn_id x.1 = pn_id y.1 -> pn_kind x.1 = pn_kind y.1.
Proof. intros. apply prefixed_kind_eq; eauto using staged_prefixed. Qed.

Lemma sumZ_concat_map {A B} (f : B -> Z) (g : A -> list B) l :
  sumZ f (concat (map g l)) = sumZ (fun x => sumZ f (g x)) l.
Proof. induction l as [|x l IH]; simpl; [done |]. by rewrite sumZ_app, IH. Qed.

Lemma filter_concat_map {A B} (P : B -> Prop) `{forall x, Decision (P x)} (g : A -> list B) l :
  filter P (concat (map g l)) = concat (map (fun x => filter P (g x)) l).
Proof. induction l as [|x l IH]; simpl; [done |]. by rewrite filter_app, IH. Qed.

Lemma filter_map_pair {A B} (P : A -> Prop) `{forall x, Decision (P x)} (l : list A) (b : B) :
  filter (fun x => P x.1) (map (fun a => (a, b)) l) = map (fun a => (a, b)) (filter P l).
Proof.
  induction l as [|a l IH]; [done |]. simpl. rewrite !filter_cons, IH. simpl. by case_decide.
Qed.

Lemma sumZ_const {A} (z : Z) (l : list A) : sumZ (fun _ => z) l = (z * Z.of_nat (length l))%Z.
Proof. induction l as [|x l IH]; simpl; [lia |]. rewrite IH. lia. Qed.

(** Sums over items, path by path: the value of a path times the number of its
    nodes (or edges) that qualify. *)
Lemma node_items_sum metric ps (P : FlowPathNode -> Prop) `{forall x, Decision (P x)} :
  sumZ (fun x => path_value metric x.2) (filter (fun x => P x.1) (node_items ps)) =
  sumZ (fun p => path_value metric p * Z.of_nat (length (filter P (pp_path p))))%Z ps.
Proof.
  unfold node_items. rewrite filter_concat_map, sumZ_concat_map. apply sumZ_ext. intros p _.
  rewrite filter_map_pair, sumZ_map. simpl. apply sumZ_const.
Qed.

Lemma link_items_sum metric ps (P : FlowPathNode * FlowPathNode -> Prop) `{forall x, Decision (P x)} :
  sumZ (fun x => path_value metric x.2) (filter (fun x => P x.1) (link_items ps)) =
  sumZ (fun p => path_value metric p * Z.of_nat (length (filter P (path_edges (pp_path p)))))%Z ps.
Proof.
  unfold link_items. rewrite filter_concat_map, sumZ_concat_map. apply sumZ_ext. intros p _.
  rewrite filter_map_pair, sumZ_map. simpl. apply sumZ_const.
Qed.

Lemma one_of_kind (path : list FlowPathNode) stages k :
  NoDup stages -> map pn_kind path = stages -> k ∈ stages ->
  length (filter (fun n => pn_kind n = k) path) = 1%nat.
Proof.
  intros Hnd <- Hk. induction path as [|n path IH]; simpl in *; [set_solver |].
  apply NoDup_cons in Hnd as [Hn Hnd]. rewrite filter_cons.
  destruct (decide (pn_kind n = k)) as [<-|Hne]; simpl.
  - f_equal. apply length_zero_iff_nil. clear -Hn. induction path as [|m path IH]; [done |].
    rewrite filter_cons, decide_False; [apply IH; set_solver | set_solver].
  - apply IH; [done |]. set_solver.
Qed.

Definition paths_total (metric : FlowMetric) (ps : list PreparedFlowPath) : Z :=
  sumZ (path_value metric) ps.

Section Conservation.
Context {C : Collation} {T : ChartTheme}.
Variables (metric : FlowMetric) (colors : list (str * str)) (palette : option (list str)).
Variables (stages : list FlowNodeKind) (ps : list PreparedFlowPath).
Hypothesis Hnd : NoDup stages.
Hypothesis Hst : staged stages ps.

Lemma column_sum k :
  k ∈ stages ->
  sumZ n_value (filter (fun n => n_kind n = k) (map snd (node_groups metric colors palette ps)))
  = paths_total metric ps.
Proof using Hnd Hst.
  intros Hk. unfold node_groups.
  rewrite (group_sum_val (fun x => pn_id x.1) (node_init colors palette) (node_more metric)
             n_value (fun x => path_value metric x.2) ltac:(done) ltac:(done)
             (fun n => n_kind n = k) (fun x => pn_kind x.1 = k)).
  - etransitivity; [exact (node_items_sum metric ps (fun n => pn_kind n = k)) |].
    unfold paths_total. apply sumZ_ext. intros p Hp. unfold staged in Hst.
    rewrite Forall_forall in Hst. destruct (Hst p Hp) as [Hs _].
    rewrite (one_of_kind _ _ _ Hnd Hs Hk). lia.
  - done.
  - done.
  - intros x y Hx Hy Hid. by rewrite (staged_same_kind _ _ _ _ Hst Hx Hy Hid).
Qed.

(** Metric total over the path edges that enter, or leave, an id. *)
Lemma path_edges_fst path : map fst (path_edges path) = take (length path - 1) path.
Proof.
  unfold path_edges. destruct path as [|n path]; [done |]. simpl. rewrite Nat.sub_0_r.
  revert n. induction path as [|m path IH]; intros n; [done |].
  simpl. f_equal. apply IH.
Qed.

Lemma path_edges_snd path : map snd (path_edges path) = tail path.
Proof.
  unfold path_edges. destruct path as [|n path]; [done |]. simpl.
  revert n. induction path as [|m path IH]; intros n; [done |].
  simpl. f_equal. apply IH.
Qed.

Lemma length_filter_map {A B} (g : A -> B) (P : B -> Prop) `{forall x, Decision (P x)} (l : list A) :
  length (filter (fun x => P (g x)) l) = length (filter P (map g l)).
Proof. induction l as [|a l IH]; [done |]. simpl. rewrite !filter_cons. case_decide; simpl; lia. Qed.

(** No id on the paths contains the separator of the link keys. *)
Definition nul_free : Prop := forall p n, p ∈ ps -> n ∈ pp_path p -> 0%N ∉ pn_id n.

Lemma key_split_inj (a b x y : str) :
  0%N ∉ a -> 0%N ∉ b -> a ++ 0%N :: x = b ++ 0%N :: y -> a = b /\ x = y.
Proof.
  revert b. induction a as [|c a IH]; intros [|d b] Ha Hb H; simpl in H.
  - by simplify_eq.
  - injection H as <- _. exfalso. apply Hb. left.
  - injection H as -> _. exfalso. apply Ha. left.
  - injection H as <- H. apply not_elem_of_cons in Ha as [_ Ha], Hb as [_ Hb].
    by destruct (IH b Ha Hb H) as [-> ->].
Qed.

Lemma edge_ends path e : e ∈ path_edges path -> e.1 ∈ path /\ e.2 ∈ path.
Proof.
  destruct e as [a b]. unfold path_edges. intros H. split.
  - by apply elem_of_zip_l in H.
  - apply elem_of_zip_r in H. destruct path; [done |]. by right.
Qed.

Lemma link_key_inj x y :
  nul_free -> x ∈ link_items ps -> y ∈ link_items ps -> link_key x = link_key y ->
  pn_id x.1.1 = pn_id y.1.1 /\ pn_id x.1.2 = pn_id y.1.2.
Proof.
  intros Hn Hx Hy H. destruct x as [ex px], y as [ey py].
  apply elem_of_link_items in Hx as [Hpx Hex], Hy as [Hpy Hey].
  apply edge_ends in Hex as [? ?], Hey as [? ?].
  apply key_split_inj; simpl in *; [by apply (Hn px) | by apply (Hn py) | exact H].
Qed.

Lemma inflow_sum id :
  nul_free ->
  sumZ l_value (filter (fun l => l_target l = id) (map snd (link_groups metric colors palette ps))) =
  sumZ (fun p => path_value metric p * Z.of_nat (length (filter (fun n => pn_id n = id)
                                                    (tail (pp_path p)))))%Z ps.
Proof.
  intros Hn. unfold link_groups.
  rewrite (group_sum_val link_key (link_init colors palette) (link_more metric)
             l_value (fun x => path_value metric x.2) ltac:(done) ltac:(done)
             (fun l => l_target l = id) (fun x => pn_id x.1.2 = id)).
  - etransitivity; [exact (link_items_sum metric ps (fun e => pn_id e.2 = id)) |].
    apply sumZ_ext. intros p _. rewrite <- (path_edges_snd (pp_path p)).
    by rewrite <- (length_filter_map snd (fun n => pn_id n = id)).
  - done.
  - done.
  - intros x y Hx Hy Hk. by destruct (link_key_inj x y Hn Hx Hy Hk) as [_ ->].
Qed.

Lemma outflow_sum id :
  nul_free ->
  sumZ l_value (filter (fun l => l_source l = id) (map snd (link_groups metric colors palette ps))) =
  sumZ (fun p => path_value metric p * Z.of_nat (length (filter (fun n => pn_id n = id)
                                  (take (length (pp_path p) - 1) (pp_path p)))))%Z ps.
Proof.
  intros Hn. unfold link_groups.
  rewrite (group_sum_val link_key (link_init colors palette) (link_more metric)
             l_value (fun x => path_value metric x.2) ltac:(done) ltac:(done)
             (fun l => l_source l = id) (fun x => pn_id x.1.1 = id)).
  - etransitivity; [exact (link_items_sum metric ps (fun e => pn_id e.1 = id)) |].
    apply sumZ_ext. intros p _. rewrite <- (path_edges_fst (pp_path p)).
    by rewrite <- (length_filter_map fst (fun n => pn_id n = id)).
  - done.
  - done.
  - intros x y Hx Hy Hk. by destruct (link_key_inj x y Hn Hx Hy Hk) as [-> _].
Qed.

(** A node of another kind than the id does not count. *)
Lemma other_kind_id p n x :
  p ∈ ps -> n ∈ pp_path p -> x ∈ node_items ps -> pn_kind n <> pn_kind x.1 -> pn_id n <> pn_id x.1.
Proof using Hnd Hst.
  intros Hp Hn Hx Hk Hid. apply Hk.
  apply (staged_same_kind stages ps (n, p) x Hst); [by apply elem_of_node_items | done | done].
Qed.

Lemma inflow_node x :
  nul_free -> x ∈ node_items ps -> head stages <> Some (pn_kind x.1) ->
  sumZ l_value (filter (fun l => l_target l = pn_id x.1)
                  (map snd (link_groups metric colors palette ps)))
  = node_total metric ps (pn_id x.1).
Proof using Hnd Hst.
  intros Hn Hx Hk. rewrite inflow_sum by done.
  etransitivity; [| symmetry; exact (node_items_sum metric ps (fun n => pn_id n = pn_id x.1))].
  apply sumZ_ext. intros p Hp. pose proof Hst as Hs. unfold staged in Hs. rewrite Forall_forall in Hs.
  destruct (Hs p Hp) as [Hkinds _]. destruct (pp_path p) as [|n path] eqn:Ep; [done |].
  simpl tail. rewrite filter_cons, decide_False; [done |].
  apply (other_kind_id p); [done | rewrite Ep; left | done |].
  intros E. apply Hk. rewrite <- Hkinds. simpl. by rewrite E.
Qed.

Lemma outflow_node x :
  nul_free -> x ∈ node_items ps -> last stages <> Some (pn_kind x.1) ->
  sumZ l_value (filter (fun l => l_source l = pn_id x.1)
                  (map snd (link_groups metric colors palette ps)))
  = node_total metric ps (pn_id x.1).
Proof using Hnd Hst.
  intros Hn Hx Hk. rewrite outflow_sum by done.
  etransitivity; [| symmetry; exact (node_items_sum metric ps (fun n => pn_id n = pn_id x.1))].
  apply sumZ_ext. intros p Hp. pose proof Hst as Hs. unfold staged in Hs. rewrite Forall_forall in Hs.
  destruct (Hs p Hp) as [Hkinds _]. destruct (pp_path p) as [|n path _] eqn:Ep using rev_ind; [done |].
  rewrite length_app, Nat.add_sub, take_app_length, filter_app. simpl.
  rewrite filter_cons, decide_False, filter_nil, app_nil_r; [done |].
  apply (other_kind_id p); [done | rewrite Ep; set_solver | done |].
  intros E. apply Hk. rewrite <- Hkinds, map_app, last_app. simpl. by rewrite E.
Qed.

(** The links that leave the first column carry the whole total. *)
Lemma first_ids_elem id :
  id ∈ first_ids ps <-> id <> [] /\ exists p, p ∈ ps /\ pn_id <$> head (pp_path p) = Some id.
Proof.
  unfold first_ids. rewrite list_elem_of_In, filter_In, <- list_elem_of_In, truthy_true.
  rewrite list_elem_of_omap. naive_solver.
Qed.

End Conservation.

(** ** From the accumulated maps to the graph *)

(** What masking, highlighting, colouring and sorting leave alone. *)
Definition node_core (n : DashboardFlowNode) :=
  (n_id n, n_kind n, n_value n, (n_requests n, n_quota n, n_tokens n)).
Definition link_core (l : DashboardFlowLink) :=
  (l_source l, l_target l, l_value l, (l_requests l, l_quota l, l_tokens l)).

Lemma sum_filter_core {A B} (core : A -> B) (f : B -> Z) (P : B -> Prop)
  `{forall x, Decision (P x)} (l : list A) :
  sumZ (fun x => f (core x)) (filter (fun x => P (core x)) l) = sumZ f (filter P (map core l)).
Proof. induction l as [|a l IH]; [done |]. simpl. rewrite !filter_cons. case_decide; simpl; lia. Qed.

Lemma sum_filter_core_perm {A B} (core : A -> B) (f : B -> Z) (P : B -> Prop)
  `{forall x, Decision (P x)} (l1 l2 : list A) :
  map core l1 ≡ₚ map core l2 ->
  sumZ (fun x => f (core x)) (filter (fun x => P (core x)) l1) =
  sumZ (fun x => f (core x)) (filter (fun x => P (core x)) l2).
Proof. intros Hp. rewrite (sum_filter_core core f P l1), (sum_filter_core core f P l2). by rewrite Hp. Qed.

Lemma map_core_id {A B} (core : A -> B) (g : A -> A) (l : list A) :
  (forall x, core (g x) = core x) -> map core (map g l) = map core l.
Proof. intros H. rewrite map_map. by apply map_ext. Qed.

Lemma mask_nodes_eq ns ls :
  fst (maskFlowGraphLabels ns ls) =
  map (fun n => if must_mask n then set_node_label (maskFlowLabel (n_label n)) n else n) ns.
Proof. unfold maskFlowGraphLabels. by case_match. Qed.

Lemma mask_nodes_core ns ls : map node_core (fst (maskFlowGraphLabels ns ls)) = map node_core ns.
Proof.
  unfold maskFlowGraphLabels. case_match; simpl; apply map_core_id; intros n; by case_match.
Qed.

Lemma mask_links_core ns ls : map link_core (snd (maskFlowGraphLabels ns ls)) = map link_core ls.
Proof. unfold maskFlowGraphLabels. case_match; simpl; [done |]. by apply map_core_id. Qed.

Lemma highlight_nodes_core ns ls h :
  map node_core (fst (applyFlowHighlights ns ls h)) = map node_core ns.
Proof. destruct h; simpl; [by apply map_core_id | done]. Qed.

Lemma highlight_links_core ns ls h :
  map link_core (snd (applyFlowHighlights ns ls h)) = map link_core ls.
Proof. destruct h; simpl; [by apply map_core_id | done]. Qed.

Section GraphCore.
Context {C : Collation} {T : ChartTheme}.

Lemma assign_links_core ls : map link_core (assignLinkDisplayColors ls) = map link_core ls.
Proof. unfold assignLinkDisplayColors. apply map_core_id. intros l. by case_match. Qed.

Variables (ps : list PreparedFlowPath) (metric : FlowMetric) (palette : option (list str)).
Variables (stages : list FlowNodeKind) (options : FlowGraphOptions).

Definition graph_colors : list (str * str) :=
  stableColorMap (sort_by localeCompare (first_ids ps)) palette.

(** The accumulated nodes and links after masking and highlighting. *)
Definition graph_masked : list DashboardFlowNode * list DashboardFlowLink :=
  let ns := map snd (node_groups metric graph_colors palette ps) in
  let ls := map snd (link_groups metric graph_colors palette ps) in
  if go_maskSensitive options then maskFlowGraphLabels ns ls else (ns, ls).
Definition graph_highlights : option FlowHighlightSets :=
  buildFlowHighlightSets ps (go_activeNode options) (go_activeLink options) stages.
Definition graph_marked : list DashboardFlowNode * list DashboardFlowLink :=
  applyFlowHighlights (fst graph_masked) (snd graph_masked) graph_highlights.

Definition by_ends (a b : DashboardFlowLink) : Z :=
  cmp_or (localeCompare (l_source a) (l_source b)) (localeCompare (l_target a) (l_target b)).

(** The denominator of the shares. *)
Definition graph_total : Z :=
  sumZ l_value (List.filter (fun l => set_has (l_source l) (set_of (first_ids ps)))
                  (sort_by by_ends (snd graph_marked))).

Definition share_link (l : DashboardFlowLink) : DashboardFlowLink :=
  set_link_share (if (0 <? graph_total)%Z then n_div (n_of_Z (l_value l)) (n_of_Z graph_total)
                  else n_zero) l.

Lemma graph_of_paths_eq :
  graph_of_paths ps metric palette stages options =
  mkGraph (sort_by byValueThenLabel (fst graph_marked))
    (assignLinkDisplayColors (map share_link (sort_by by_ends (snd graph_marked)))).
Proof.
  unfold graph_of_paths. rewrite accumulate_groups. cbn [fst snd].
  unfold share_link, graph_total, graph_marked, graph_highlights, graph_masked.
  fold graph_colors. destruct (if go_maskSensitive options then _ else _) as [n1 l1].
  cbn [fst snd]. destruct (applyFlowHighlights n1 l1 _) as [n2 l2]. cbn [fst snd].
  by rewrite foldl_add_sumZ.
Qed.

Lemma graph_masked_core :
  map node_core (fst graph_masked) = map node_core (map snd (node_groups metric graph_colors palette ps))
  /\ map link_core (snd graph_masked) = map link_core (map snd (link_groups metric graph_colors palette ps)).
Proof.
  unfold graph_masked. destruct (go_maskSensitive options); [| done].
  split; [apply mask_nodes_core | apply mask_links_core].
Qed.

Lemma graph_nodes_core :
  map node_core (g_nodes (graph_of_paths ps metric palette stages options)) ≡ₚ
  map node_core (map snd (node_groups metric graph_colors palette ps)).
Proof.
  rewrite graph_of_paths_eq. cbn [g_nodes]. rewrite sort_by_perm. unfold graph_marked.
  rewrite highlight_nodes_core. by rewrite (proj1 graph_masked_core).
Qed.

Lemma graph_links_core :
  map link_core (g_links (graph_of_paths ps metric palette stages options)) ≡ₚ
  map link_core (map snd (link_groups metric graph_colors palette ps)).
Proof.
  rewrite graph_of_paths_eq. cbn [g_links].
  rewrite assign_links_core, map_core_id by done. rewrite sort_by_perm.
  unfold graph_marked. rewrite highlight_links_core. by rewrite (proj2 graph_masked_core).
Qed.

Lemma graph_column k :
  sumZ n_value (filter (fun n => n_kind n = k)
                  (g_nodes (graph_of_paths ps metric palette stages options))) =
  sumZ n_value (filter (fun n => n_kind n = k) (map snd (node_groups metric graph_colors palette ps))).
Proof. exact (sum_filter_core_perm node_core (fun c => c.1.2) (fun c => c.1.1.2 = k) _ _ graph_nodes_core). Qed.

Lemma graph_inflow id :
  sumZ l_value (filter (fun l => l_target l = id)
                  (g_links (graph_of_paths ps metric palette stages options))) =
  sumZ l_value (filter (fun l => l_target l = id) (map snd (link_groups metric graph_colors palette ps))).
Proof. exact (sum_filter_core_perm link_core (fun c => c.1.2) (fun c => c.1.1.2 = id) _ _ graph_links_core). Qed.

Lemma graph_outflow id :
  sumZ l_value (filter (fun l => l_source l = id)
                  (g_links (graph_of_paths ps metric palette stages options))) =
  sumZ l_value (filter (fun l => l_source l = id) (map snd (link_groups metric graph_colors palette ps))).
Proof. exact (sum_filter_core_perm link_core (fun c => c.1.2) (fun c => c.1.1.1 = id) _ _ graph_links_core). Qed.

(** Every node of the graph comes from the accumulated map. *)
Lemma graph_node_origin n :
  n ∈ g_nodes (graph_of_paths ps metric palette stages options) ->
  exists x, x ∈ node_items ps /\ n_id n = pn_id x.1 /\ n_kind n = pn_kind x.1 /\
    n_value n = node_total metric ps (n_id n).
Proof.
  intros Hn. assert (Hc : node_core n ∈ map node_core (g_nodes (graph_of_paths ps metric palette stages options)))
    by by apply (list_elem_of_fmap_2 node_core).
  rewrite graph_nodes_core, map_map in Hc. unfold map in Hc.
  apply list_elem_of_fmap in Hc as ([id m] & Hc & Hin).
  destruct (node_groups_entry _ _ _ _ _ _ Hin) as (x & Hx & Hid & Hm & Hk & Hv).
  unfold node_core in Hc. injection Hc as -> -> -> _ _ _. exists x. simpl in *.
  rewrite Hm, Hid, Hk, Hv. done.
Qed.

End GraphCore.

(** ** Prepared paths *)

Lemma flowPath_kinds row stages ctx : map pn_kind (flowPathForStages row stages ctx) = stages.
Proof.
  unfold flowPathForStages. rewrite map_map. rewrite <- (map_id stages) at 2.
  apply map_ext. intros k. apply NODE_BUILDERS_kind.
Qed.

Lemma flowPath_prefixed row stages ctx : Forall kind_prefixed (flowPathForStages row stages ctx).
Proof.
  unfold flowPathForStages. apply Forall_fmap, Forall_forall. intros k _.
  apply NODE_BUILDERS_prefixed.
Qed.

Lemma applyTopNodeLimit_kinds path top mode labeler path' :
  applyTopNodeLimit path top mode labeler = Some path' -> map pn_kind path' = map pn_kind path.
Proof.
  unfold applyTopNodeLimit. destruct top as [sets|]; [| by intros [= <-]].
  case_match; [by intros [= <-] |]. destruct mode; [| done]. intros [= <-].
  rewrite map_map. apply map_ext. intros n. by case_match.
Qed.

Lemma applyTopNodeLimit_Forall (P : FlowPathNode -> Prop) path top mode labeler path' :
  (forall k, P (otherFlowNode k labeler)) -> Forall P path ->
  applyTopNodeLimit path top mode labeler = Some path' -> Forall P path'.
Proof.
  intros Ho Hp. unfold applyTopNodeLimit. destruct top as [sets|]; [| by intros [= <-]].
  case_match; [by intros [= <-] |]. destruct mode; [| done]. intros [= <-].
  apply Forall_fmap. eapply Forall_impl; [exact Hp |]. intros n Hn. simpl. by case_match.
Qed.

Lemma elem_of_preparePaths rows stages top mode labeler ctx p :
  p ∈ preparePaths rows stages top mode labeler ctx <->
  exists row path, row ∈ rows /\ p = mkPrepared path (rowMetrics row) /\
    applyTopNodeLimit (flowPathForStages row stages ctx) top mode labeler = Some path.
Proof.
  unfold preparePaths. rewrite list_elem_of_omap. split.
  - intros (row & Hr & Hp). destruct (applyTopNodeLimit _ _ _ _) as [path|] eqn:E; [| done].
    injection Hp as <-. eauto.
  - intros (row & path & Hr & -> & E). exists row. by rewrite E.
Qed.

Lemma preparePaths_staged rows stages top mode labeler ctx :
  staged stages (preparePaths rows stages top mode labeler ctx).
Proof.
  unfold staged. apply Forall_forall. intros p (row & path & _ & -> & E)%elem_of_preparePaths.
  simpl. split.
  - rewrite (applyTopNodeLimit_kinds _ _ _ _ _ E). apply flowPath_kinds.
  - eapply applyTopNodeLimit_Forall; [| apply flowPath_prefixed | exact E].
    intros k. apply otherFlowNode_prefixed.
Qed.

(** No text of the row contains the code unit 0. *)
Definition row_nul_free (row : FlowQuotaDataItem) : Prop :=
  Forall (fun o => 0%N ∉ default [] o)
    [username row; node_name row; use_group row; token_name row; channel_name row; model_name row].

Lemma opt_str_or_nul_free o d : 0%N ∉ default [] o -> 0%N ∉ d -> 0%N ∉ opt_str_or o d.
Proof. destruct o as [s|]; simpl; [| done]. intros. unfold str_or. by case_match. Qed.

Lemma show_Z_nul_free z : 0%N ∉ show_Z z.
Proof.
  intros H. assert (Hd : Forall (fun c => c <> 0%N) (show_Z z)).
  { assert (Hn : forall n, Forall (fun c => c <> 0%N) (show_N n)).
    { intros n. eapply Forall_impl; [apply show_N_digits |]. intros c Hc ->. done. }
    unfold show_Z. destruct z; [apply Hn | apply Hn | constructor; [done | apply Hn]]. }
  rewrite Forall_forall in Hd. by apply (Hd 0%N).
Qed.

Lemma app_nul_free (a b : str) : 0%N ∉ a -> 0%N ∉ b -> 0%N ∉ a ++ b.
Proof. rewrite not_elem_of_app. tauto. Qed.

Ltac nul_lit := apply (bool_decide_unpack _); vm_compute; exact I.

Lemma NODE_BUILDERS_nul_free k row ctx : row_nul_free row -> 0%N ∉ pn_id (NODE_BUILDERS k row ctx).
Proof.
  intros H. unfold row_nul_free in H. rewrite !Forall_cons in H.
  destruct H as (Hu & Hn & Hg & Ht & Hc & Hm & _).
  destruct k; cbn [NODE_BUILDERS userNode nodeNameNode tokenNode groupNode modelNode channelNode pn_id];
    repeat case_match;
    (apply app_nul_free; [nul_lit | first [apply show_Z_nul_free | apply opt_str_or_nul_free; [done | nul_lit]]]).
Qed.

Lemma other_nul_free k : 0%N ∉ OTHER_FLOW_NODE_IDS k.
Proof. destruct k; nul_lit. Qed.

Lemma preparePaths_nul_free rows stages top mode labeler ctx :
  Forall row_nul_free rows -> nul_free (preparePaths rows stages top mode labeler ctx).
Proof.
  intros Hr p n (row & path & Hrow & -> & E)%elem_of_preparePaths Hn. simpl in Hn.
  rewrite Forall_forall in Hr. specialize (Hr row Hrow).
  assert (HF : Forall (fun m => 0%N ∉ pn_id m) path).
  { eapply applyTopNodeLimit_Forall; [| | exact E].
    - intros k. apply other_nul_free.
    - unfold flowPathForStages. apply Forall_fmap, Forall_forall. intros k _.
      by apply NODE_BUILDERS_nul_free. }
  rewrite Forall_forall in HF. by apply HF.
Qed.

(** The rows that stay: all of them, unless overflow paths are hidden. *)
Definition kept_rows (rows : list FlowQuotaDataItem) (stages : list FlowNodeKind)
  (top : option kind_sets) (mode : FlowOverflowMode) (ctx : FlowPathContext) :
  list FlowQuotaDataItem :=
  match mode with
  | aggregate => rows
  | hide => List.filter (fun row => forallb (fun n => isTopFlowNode n top)
                                      (flowPathForStages row stages ctx)) rows
  end.

Lemma applyTopNodeLimit_aggregate path top labeler :
  is_Some (applyTopNodeLimit path top aggregate labeler).
Proof. unfold applyTopNodeLimit. repeat case_match; eauto. Qed.

Lemma applyTopNodeLimit_hide path top labeler :
  applyTopNodeLimit path top hide labeler =
  if forallb (fun n => isTopFlowNode n top) path then Some path else None.
Proof.
  unfold applyTopNodeLimit. destruct top as [sets|].
  - assert (E : negb (existsb (fun n => negb (isTopFlowNode n (Some sets))) path) =
                forallb (fun n => isTopFlowNode n (Some sets)) path).
    { induction path as [|n path IH]; [done |]. cbn [existsb forallb].
      rewrite negb_orb, negb_involutive. by rewrite IH. }
    rewrite E. by case_match.
  - assert (E : forallb (fun n => isTopFlowNode n None) path = true); [| by rewrite E].
    apply forallb_forall. done.
Qed.

Lemma prepared_total metric rows stages top mode labeler ctx :
  paths_total metric (preparePaths rows stages top mode labeler ctx) =
  sumZ (fun row => metricValue (rowMetrics row) metric) (kept_rows rows stages top mode ctx).
Proof.
  unfold paths_total, preparePaths, kept_rows. destruct mode.
  - induction rows as [|row rows IH]; [done |]. csimpl.
    destruct (applyTopNodeLimit_aggregate (flowPathForStages row stages ctx) top labeler) as [q ->].
    simpl. by rewrite IH.
  - induction rows as [|row rows IH]; [done |]. csimpl. rewrite applyTopNodeLimit_hide.
    destruct (forallb _ _); simpl; by rewrite IH.
Qed.

Lemma summary_fold rows s :
  foldl (fun summary row =>
           let metrics := rowMetrics row in
           mkSummary (s_quota summary + m_quota metrics) (s_tokens summary + m_tokens metrics)
             (s_requests summary + m_requests metrics))%Z s rows
  = mkSummary (s_quota s + sumZ (fun row => m_quota (rowMetrics row)) rows)
      (s_tokens s + sumZ (fun row => m_tokens (rowMetrics row)) rows)
      (s_requests s + sumZ (fun row => m_requests (rowMetrics row)) rows).
Proof.
  revert s. induction rows as [|row rows IH]; intros s; simpl.
  - destruct s. simpl. f_equal; lia.
  - rewrite IH. simpl. f_equal; lia.
Qed.

Lemma summary_metric rows metric :
  summaryValue (buildSummary rows) metric = sumZ (fun row => metricValue (rowMetrics row) metric) rows.
Proof. unfold buildSummary. rewrite summary_fold. by destruct metric. Qed.

(** ** Shares *)

Section Shares.
Context {C : Collation} {T : ChartTheme}.
Variables (metric : FlowMetric) (palette : option (list str)) (options : FlowGraphOptions).
Variables (stages : list FlowNodeKind) (ps : list PreparedFlowPath).
Hypothesis Hnd : NoDup stages.
Hypothesis Hlen : (2 <= length stages)%nat.
Hypothesis Hst : staged stages ps.
Hypothesis Hnul : nul_free ps.

Lemma first_ids_prefixed id : id ∈ first_ids ps <-> exists p, p ∈ ps /\ pn_id <$> head (pp_path p) = Some id.
Proof using Hst.
  rewrite first_ids_elem. split; [naive_solver |]. intros (p & Hp & Hh). split; [| eauto].
  unfold staged in Hst. rewrite Forall_forall in Hst. destruct (Hst p Hp) as [_ Hpre].
  destruct (pp_path p) as [|n path]; [done |]. inv Hpre. injection Hh as <-.
  destruct H1 as [s ->]. by destruct (pn_kind n).
Qed.

(** Exactly the first node of a path has an id among the first ids. *)
Lemma count_first p :
  p ∈ ps ->
  length (filter (fun n => pn_id n ∈ first_ids ps) (take (length (pp_path p) - 1) (pp_path p))) = 1%nat.
Proof using Hnd Hlen Hst Hnul.
  intros Hp. pose proof Hst as Hs. unfold staged in Hs. rewrite Forall_forall in Hs.
  destruct (Hs p Hp) as [Hk _].
  assert (Hlp : length (pp_path p) = length stages) by (by rewrite <- Hk, length_map).
  destruct (pp_path p) as [|n path] eqn:Ep; [simpl in Hlp; lia |].
  simpl. rewrite Nat.sub_0_r. destruct path as [|n2 path]; [simpl in Hlp; lia |].
  set (rest := n2 :: path) in *. simpl length. cbn [take].
  rewrite filter_cons, decide_True.
  2: { apply first_ids_prefixed. exists p. by rewrite Ep. }
  simpl. f_equal. apply length_zero_iff_nil.
  assert (Hno : forall m, m ∈ rest -> pn_id m ∉ first_ids ps).
  { intros m Hm (q & Hq & Hh)%first_ids_prefixed. destruct (Hs q Hq) as [Hkq _].
    destruct (pp_path q) as [|h tlq] eqn:Eq; [done |]. injection Hh as Hid.
    assert (Hkind : pn_kind h = pn_kind m).
    { apply (staged_same_kind stages ps (h, q) (m, p) Hst); simpl; [| | done];
        apply elem_of_node_items; (split; [done |]); [rewrite Eq; left | rewrite Ep; by right]. }
    rewrite <- Hkq in Hnd. simpl in Hnd. apply NoDup_cons in Hnd as [Hnin _].
    apply Hnin. assert (Hkk : map pn_kind (h :: tlq) = map pn_kind (n :: rest)) by congruence.
    injection Hkk as _ Ht. rewrite Hkind.
    change (pn_kind n2 :: map pn_kind path) with (pn_kind <$> rest) in Ht. rewrite Ht.
    by apply (list_elem_of_fmap_2 pn_kind). }
  assert (Hsub : forall m, m ∈ take (length path) rest -> m ∈ rest).
  { intros m Hm. rewrite <- (take_drop (length path) rest). set_solver. }
  revert Hsub Hno. generalize (take (length path) rest) as l. clear. intros l Hsub Hno.
  induction l as [|m l IH]; [done |]. rewrite filter_cons, decide_False.
  - apply IH. intros; apply Hsub. by right.
  - apply Hno, Hsub. left.
Qed.

Lemma graph_total_eq : graph_total ps metric palette stages options = paths_total metric ps.
Proof using Hnd Hlen Hst Hnul.
  unfold graph_total.
  assert (HF : forall l : list DashboardFlowLink,
    List.filter (fun l => set_has (l_source l) (set_of (first_ids ps))) l
    = filter (fun l => l_source l ∈ first_ids ps) l).
  { induction l as [|x l IH]; [done |]. simpl. rewrite filter_cons, IH.
    destruct (set_has _ _) eqn:E, (decide (l_source x ∈ first_ids ps)); try done.
    - by rewrite set_has_spec, elem_of_set_of in E.
    - exfalso. apply not_true_iff_false in E. apply E. by rewrite set_has_spec, elem_of_set_of. }
  rewrite HF, sort_by_perm.
  etransitivity.
  { refine (sum_filter_core_perm link_core (fun c => c.1.2) (fun c => c.1.1.1 ∈ first_ids ps)
             (snd (graph_marked ps metric palette stages options))
             (map snd (link_groups metric (graph_colors ps palette) palette ps)) _).
    unfold graph_marked. rewrite highlight_links_core. by rewrite (proj2 (graph_masked_core _ _ _ _)). }
  unfold link_groups.
  etransitivity.
  { apply (group_sum_val link_key (link_init (graph_colors ps palette) palette) (link_more metric)
             l_value (fun x => path_value metric x.2) ltac:(done) ltac:(done)
             (fun l => l_source l ∈ first_ids ps) (fun x => pn_id x.1.1 ∈ first_ids ps)); [done | done |].
    intros x y Hx Hy Hk. by destruct (link_key_inj ps x y Hnul Hx Hy Hk) as [-> _]. }
  etransitivity; [exact (link_items_sum metric ps (fun e => pn_id e.1 ∈ first_ids ps)) |].
  unfold paths_total. apply sumZ_ext. intros p Hp.
  pose proof (length_filter_map fst (fun n => pn_id n ∈ first_ids ps) (path_edges (pp_path p))) as Hc.
  rewrite path_edges_fst, count_first in Hc by done.
  etransitivity; [exact (f_equal (fun k => path_value metric p * Z.of_nat k)%Z Hc) | lia].
Qed.

End Shares.

(** ** The top-node limit on the graph *)

Lemma normalizeTopNodeLimit_pos limit n : normalizeTopNodeLimit limit = Some n -> (0 < n)%Z.
Proof.
  unfold normalizeTopNodeLimit. destruct limit as [x|]; [| done]. destruct (floor_Z x) as [p|]; [| done].
  destruct (Z.ltb_spec 0 p); [| done]. by intros [= <-].
Qed.

Lemma applyTopNodeLimit_top path top mode labeler path' :
  applyTopNodeLimit path top mode labeler = Some path' ->
  Forall (fun n => isTopFlowNode n top = true \/
            (mode = aggregate /\ pn_id n = OTHER_FLOW_NODE_IDS (pn_kind n))) path'.
Proof.
  unfold applyTopNodeLimit. destruct top as [sets|].
  2: { intros [= <-]. apply Forall_forall. intros n _. by left. }
  destruct (existsb _ path) eqn:E; cbn [negb].
  - destruct mode; [| done]. intros Hs%(inj Some). rewrite <- Hs.
    apply Forall_fmap, Forall_forall. intros n _. unfold compose. destruct (isTopFlowNode n (Some sets)) eqn:En; [left; exact En | by right].
  - intros [= <-]. apply Forall_forall. intros n Hn. left.
    apply not_true_iff_false in E. destruct (isTopFlowNode n (Some sets)) eqn:En; [done |].
    exfalso. apply E, existsb_exists. exists n. rewrite <- list_elem_of_In, En. done.
Qed.

Section Limit.
Context {C : Collation} {T : ChartTheme}.

Lemma graph_ids_NoDup ps metric palette stages options :
  NoDup (map n_id (g_nodes (graph_of_paths ps metric palette stages options))).
Proof.
  pose proof (Permutation_map (fun c => c.1.1.1) (graph_nodes_core ps metric palette stages options)) as H.
  rewrite !(map_map node_core) in H. simpl in H.
  change (map n_id (g_nodes (graph_of_paths ps metric palette stages options)) ≡ₚ
          map n_id (map snd (node_groups metric (graph_colors ps palette) palette ps))) in H.
  rewrite H, node_groups_ids. apply node_groups_NoDup.
Qed.

Lemma graph_ids_elem ps metric palette stages options id :
  id ∈ map n_id (g_nodes (graph_of_paths ps metric palette stages options)) <->
  exists x, x ∈ node_items ps /\ pn_id x.1 = id.
Proof.
  pose proof (Permutation_map (fun c => c.1.1.1) (graph_nodes_core ps metric palette stages options)) as H.
  rewrite !(map_map node_core) in H. simpl in H.
  change (map n_id (g_nodes (graph_of_paths ps metric palette stages options)) ≡ₚ
          map n_id (map snd (node_groups metric (graph_colors ps palette) palette ps))) in H.
  rewrite H, node_groups_ids. apply node_groups_keys.
Qed.

Lemma filter_map_NoDup {A B} (f : A -> B) (P : A -> Prop) `{forall x, Decision (P x)} l :
  NoDup (map f l) -> NoDup (map f (filter P l)).
Proof.
  intros Hn. eapply sublist_NoDup; [exact Hn |]. apply (fmap_sublist f), sublist_filter.
Qed.

Lemma column_size rows metric palette role vs ctx options n kind :
  let stages := resolveVisibleStages role vs in
  let mode := default DEFAULT_FLOW_OVERFLOW_MODE (go_overflowMode options) in
  normalizeTopNodeLimit (go_topNodeLimit options) = Some n -> kind ∈ stages ->
  (Z.of_nat (length (filter (fun x => n_kind x = kind)
     (g_nodes (buildFlowGraph rows metric role palette vs ctx options))))
   <= n + (if decide (mode = aggregate) then 1 else 0))%Z.
Proof.
  intros stages mode Hl Hk. pose proof (normalizeTopNodeLimit_pos _ _ Hl) as Hn.
  unfold buildFlowGraph. rewrite Hl. fold stages mode.
  destruct (buildTopNodeSets_get rows metric stages n ctx kind (resolveVisibleStages_NoDup role vs) Hn Hk)
    as (sets & Hs & Hg). rewrite Hs.
  set (ids := top_ids n _) in Hg. set (ps := preparePaths _ _ _ _ _ _).
  set (nodes := g_nodes _). set (col := filter _ nodes).
  assert (Hlen : (Z.of_nat (length ids) <= n)%Z) by (apply top_ids_length; lia).
  assert (Hsub : map n_id col ⊆ ids ++ (if decide (mode = aggregate) then [OTHER_FLOW_NODE_IDS kind] else [])).
  { intros id Hid. unfold map in Hid. apply (list_elem_of_fmap n_id) in Hid as (nd & -> & Hc).
    apply list_elem_of_filter in Hc as [Hkind Hnd].
    destruct (graph_node_origin _ _ _ _ _ _ Hnd) as ([x p] & Hx & Hid & Hxk & _). simpl in *.
    apply elem_of_node_items in Hx as [Hp Hx].
    apply elem_of_preparePaths in Hp as (row & path & _ & -> & E). simpl in Hx.
    apply applyTopNodeLimit_top in E. rewrite Forall_forall in E.
    apply elem_of_app. destruct (E x Hx) as [Ht | [Hm Ho]].
    - left. rewrite Hid. unfold isTopFlowNode in Ht. rewrite <- Hxk, Hkind, Hg in Ht.
      by apply set_has_spec.
    - right. rewrite decide_True by done. apply list_elem_of_singleton. congruence. }
  apply NoDup_submseteq in Hsub; [| apply filter_map_NoDup, graph_ids_NoDup].
  apply submseteq_length in Hsub. rewrite length_map, length_app in Hsub.
  destruct (decide (mode = aggregate)); simpl in Hsub; lia.
Qed.

End Limit.

(** ** Masking *)

(** A label that reveals nothing. *)
Definition hidden_label (s : str) : Prop := s = [] \/ s = FLOW_MASK_TEXT.

Lemma maskFlowLabel_hidden s : hidden_label (maskFlowLabel s).
Proof.
  unfold maskFlowLabel, hidden_label. destruct (Nat.eqb_spec (length s) 0) as [E|E]; [| by right].
  left. by apply nil_length_inv.
Qed.

Lemma masked_by_id_get (ns : list DashboardFlowNode) (m0 : list (str * str)) :
  (forall k v, map_get k m0 = Some v -> hidden_label v) ->
  let m := foldl (fun m n => if must_mask n then map_set (n_id n) (maskFlowLabel (n_label n)) m else m)
             m0 ns in
  (forall k v, map_get k m = Some v -> hidden_label v) /\
  (forall k, is_Some (map_get k m0) \/ (exists n, n ∈ ns /\ must_mask n = true /\ n_id n = k) ->
     is_Some (map_get k m)).
Proof.
  revert m0. induction ns as [|n ns IH]; intros m0 H0; simpl.
  - split; [done |]. intros k [H | (n & Hn & _)]; [done | set_solver].
  - destruct (IH (if must_mask n then map_set (n_id n) (maskFlowLabel (n_label n)) m0 else m0))
      as [H1 H2].
    { intros k v. destruct (must_mask n); [| apply H0]. rewrite map_get_set.
      case_decide; [intros [= <-]; apply maskFlowLabel_hidden | apply H0]. }
    split; [exact H1 |]. intros k Hk. apply H2.
    destruct Hk as [Hk | (n' & [->|Hn]%elem_of_cons & Hm & Hid)].
    + left. destruct (must_mask n); [| done]. rewrite map_get_set. case_decide; eauto.
    + left. rewrite Hm, Hid, map_get_set_eq. eauto.
    + right. eauto.
Qed.

Lemma must_mask_label s n : must_mask (set_node_label s n) = must_mask n.
Proof. done. Qed.

Lemma mask_spec ns ls :
  let '(ns', ls') := maskFlowGraphLabels ns ls in
  (forall n, n ∈ ns' -> must_mask n = true -> hidden_label (n_label n)) /\
  (forall l n, l ∈ ls' -> n ∈ ns' -> must_mask n = true ->
     (l_source l = n_id n -> hidden_label (l_sourceLabel l)) /\
     (l_target l = n_id n -> hidden_label (l_targetLabel l))).
Proof.
  unfold maskFlowGraphLabels.
  destruct (masked_by_id_get ns []) as [Hv Hk]; [done |].
  set (m := foldl _ [] ns) in *.
  set (ns' := map _ ns).
  assert (Hns : forall n, n ∈ ns' -> must_mask n = true ->
    hidden_label (n_label n) /\ is_Some (map_get (n_id n) m)).
  { intros n Hn Hm. unfold ns', map in Hn. apply (list_elem_of_fmap _ ns n) in Hn as (n0 & -> & Hn0).
    destruct (must_mask n0) eqn:Em.
    - split; [apply maskFlowLabel_hidden |]. apply Hk. right. exists n0. done.
    - rewrite Em in Hm. done. }
  assert (Hlinks : forall l n, l ∈ map (fun l => set_link_labels
               (default (l_sourceLabel l) (map_get (l_source l) m))
               (default (l_targetLabel l) (map_get (l_target l) m)) l) ls ->
     n ∈ ns' -> must_mask n = true ->
     (l_source l = n_id n -> hidden_label (l_sourceLabel l)) /\
     (l_target l = n_id n -> hidden_label (l_targetLabel l))).
  { intros l n Hl Hn Hm. unfold map in Hl. apply (list_elem_of_fmap _ ls l) in Hl as (l0 & -> & _).
    destruct (Hns n Hn Hm) as [_ [v E]]. simpl.
    split; intros ->; rewrite E; simpl; by apply (Hv (n_id n)). }
  destruct (Nat.eqb_spec (length m) 0) as [E%nil_length_inv|E]; (split; [intros; by apply Hns |]).
  - intros l n _ Hn Hm. destruct (Hns n Hn Hm) as [_ [v Ev]]. by rewrite E in Ev.
  - exact Hlinks.
Qed.

(** What highlighting, shares, colours and sorting keep of labels. *)
Definition node_text (n : DashboardFlowNode) := (n_id n, n_kind n, n_label n).
Definition link_text (l : DashboardFlowLink) := (l_source l, l_target l, l_sourceLabel l, l_targetLabel l).

Section Text.
Context {C : Collation} {T : ChartTheme}.

Lemma graph_nodes_text ps metric palette stages options :
  map node_text (g_nodes (graph_of_paths ps metric palette stages options)) ≡ₚ
  map node_text (fst (graph_masked ps metric palette options)).
Proof.
  rewrite graph_of_paths_eq. cbn [g_nodes]. rewrite sort_by_perm. unfold graph_marked.
  destruct (graph_highlights _ _ _); simpl; [by rewrite map_core_id | done].
Qed.

Lemma graph_links_text ps metric palette stages options :
  map link_text (g_links (graph_of_paths ps metric palette stages options)) ≡ₚ
  map link_text (snd (graph_masked ps metric palette options)).
Proof.
  rewrite graph_of_paths_eq. cbn [g_links]. unfold assignLinkDisplayColors.
  rewrite map_core_id by (intros l; by case_match). rewrite map_core_id by done.
  rewrite sort_by_perm. unfold graph_marked.
  destruct (graph_highlights _ _ _); simpl; [by rewrite map_core_id | done].
Qed.

Lemma elem_of_map_core {A B} (core : A -> B) (l1 l2 : list A) x :
  map core l1 ≡ₚ map core l2 -> x ∈ l1 -> exists y, y ∈ l2 /\ core x = core y.
Proof.
  intros Hp Hx. apply (list_elem_of_fmap_2 core) in Hx. unfold map in Hp. setoid_rewrite Hp in Hx.
  apply list_elem_of_fmap in Hx as (y & ? & ?). eauto.
Qed.

Lemma must_mask_text n m : node_text n = node_text m -> must_mask n = must_mask m.
Proof. unfold node_text, must_mask. by intros [= -> -> _]. Qed.

Lemma graph_masking ps metric palette stages options :
  go_maskSensitive options = true ->
  let g := graph_of_paths ps metric palette stages options in
  (forall n, n ∈ g_nodes g -> must_mask n = true -> hidden_label (n_label n)) /\
  (forall l n, l ∈ g_links g -> n ∈ g_nodes g -> must_mask n = true ->
     (l_source l = n_id n -> hidden_label (l_sourceLabel l)) /\
     (l_target l = n_id n -> hidden_label (l_targetLabel l))).
Proof.
  intros Hm g. pose proof (graph_nodes_text ps metric palette stages options) as Hn.
  pose proof (graph_links_text ps metric palette stages options) as Hl.
  fold g in Hn, Hl. unfold graph_masked in Hn, Hl. rewrite Hm in Hn, Hl.
  pose proof (mask_spec (map snd (node_groups metric (graph_colors ps palette) palette ps))
                (map snd (link_groups metric (graph_colors ps palette) palette ps))) as Hs.
  destruct (maskFlowGraphLabels _ _) as [ns ls]. simpl in Hn, Hl. destruct Hs as [Hs1 Hs2]. split.
  - intros n Hin Hmask. destruct (elem_of_map_core _ _ _ _ Hn Hin) as (m & Hmin & E).
    rewrite (must_mask_text _ _ E) in Hmask. injection E as _ _ ->. by apply Hs1.
  - intros l n Hlin Hin Hmask. destruct (elem_of_map_core _ _ _ _ Hn Hin) as (m & Hmin & E).
    destruct (elem_of_map_core _ _ _ _ Hl Hlin) as (k & Hkin & Ek).
    rewrite (must_mask_text _ _ E) in Hmask. injection E as -> _ _. injection Ek as -> -> -> ->.
    by apply Hs2.
Qed.

End Text.

(** ** Highlighting *)

Lemma highlight_fold an al (ps : list PreparedFlowPath) ns0 ls0 :
  let '(ns, ls) := foldl (fun '(nodes, links) prepared =>
                 let path := pp_path prepared in
                 if negb (matchesPath an al path) then (nodes, links)
                 else (foldl set_add nodes (map pn_id path),
                       foldl set_add links (map (fun '(s, t) => pathLinkKey s t) (path_edges path))))
          (ns0, ls0) ps in
  (forall id, id ∈ ns <-> id ∈ ns0 \/
     exists p, p ∈ ps /\ matchesPath an al (pp_path p) = true /\ id ∈ map pn_id (pp_path p)) /\
  (forall k, k ∈ ls <-> k ∈ ls0 \/
     exists p, p ∈ ps /\ matchesPath an al (pp_path p) = true /\
       k ∈ map (fun '(s, t) => pathLinkKey s t) (path_edges (pp_path p))).
Proof.
  revert ns0 ls0. induction ps as [|p ps IH]; intros ns0 ls0; simpl.
  - split; intros x; set_solver.
  - destruct (matchesPath an al (pp_path p)) eqn:E; cbn [negb].
    + specialize (IH (foldl set_add ns0 (map pn_id (pp_path p)))
        (foldl set_add ls0 (map (fun '(s, t) => pathLinkKey s t) (path_edges (pp_path p))))).
      destruct (foldl _ _ ps) as [ns ls]. destruct IH as [H1 H2].
      split; intros x; [rewrite H1 | rewrite H2]; rewrite foldl_set_add_elem;
        (split; [intros [[H|H]|(q & ? & ? & ?)] | intros [H|(q & [->|?]%elem_of_cons & ? & ?)]]);
        eauto 7 using list_elem_of_here, list_elem_of_further.
    + specialize (IH ns0 ls0). destruct (foldl _ _ ps) as [ns ls]. destruct IH as [H1 H2].
      split; intros x; [rewrite H1 | rewrite H2];
        (split; [intros [H|(q & ? & ? & ?)] | intros [H|(q & [->|?]%elem_of_cons & ? & ?)]]);
        eauto 7 using list_elem_of_further; congruence.
Qed.

(** A selection is active when it names a visible node, or any link. *)
Definition selection_active (options : FlowGraphOptions) (stages : list FlowNodeKind) : Prop :=
  match go_activeLink options with
  | Some _ => True
  | None => exists f, go_activeNode options = Some f /\ nf_kind f ∈ stages
  end.

Definition selected_path (options : FlowGraphOptions) (p : PreparedFlowPath) : Prop :=
  matchesPath (go_activeNode options) (go_activeLink options) (pp_path p) = true.

Lemma matches_not_nil an al path : matchesPath an al path = true -> path <> [].
Proof. intros H ->. unfold matchesPath in H. destruct al, an; done. Qed.

Lemma highlight_sets_Some ps options stages h :
  buildFlowHighlightSets ps (go_activeNode options) (go_activeLink options) stages = Some h ->
  (forall id, id ∈ h_nodes h <->
     exists p, p ∈ ps /\ selected_path options p /\ id ∈ map pn_id (pp_path p)) /\
  (forall k, k ∈ h_links h <->
     exists p, p ∈ ps /\ selected_path options p /\
       k ∈ map (fun '(s, t) => pathLinkKey s t) (path_edges (pp_path p))).
Proof.
  unfold buildFlowHighlightSets, selected_path. intros H.
  pose proof (highlight_fold (go_activeNode options) (go_activeLink options) ps [] []) as Hf.
  destruct (foldl _ _ ps) as [ns ls]. destruct Hf as [H1 H2].
  assert (h = mkHighlight ns ls) as ->.
  { destruct (match go_activeNode options with Some _ => _ | None => _ end), (go_activeLink options);
      destruct (length ns =? 0)%nat; congruence. }
  split; intros x; simpl; [rewrite H1 | rewrite H2]; set_solver.
Qed.

Lemma highlight_sets_active ps options stages p :
  selection_active options stages -> p ∈ ps -> selected_path options p ->
  is_Some (buildFlowHighlightSets ps (go_activeNode options) (go_activeLink options) stages).
Proof.
  unfold buildFlowHighlightSets, selection_active, selected_path. intros Ha Hp Hs.
  pose proof (highlight_fold (go_activeNode options) (go_activeLink options) ps [] []) as Hf.
  destruct (foldl _ _ ps) as [ns ls]. destruct Hf as [H1 _].
  assert (Hne : (length ns =? 0)%nat = false).
  { apply Nat.eqb_neq. intros E%nil_length_inv. pose proof (matches_not_nil _ _ _ Hs) as Hn.
    destruct (pp_path p) as [|n path] eqn:Ep; [done |].
    assert (Hin : pn_id n ∈ ns); [| rewrite E in Hin; set_solver].
    apply H1. right. exists p. rewrite Ep. split; [done | split; [done | left]]. }
  rewrite Hne. destruct (go_activeLink options) as [l|]; [by case_match; eauto |].
  destruct Ha as (f & -> & Hk). rewrite bool_decide_true by done. eauto.
Qed.

Section HighlightGraph.
Context {C : Collation} {T : ChartTheme}.

Lemma graph_node_flags ps metric palette stages options n :
  n ∈ g_nodes (graph_of_paths ps metric palette stages options) ->
  match graph_highlights ps stages options with
  | None => n_highlighted n = None /\ n_dimmed n = None
  | Some h => n_highlighted n = Some (set_has (n_id n) (h_nodes h)) /\
              n_dimmed n = Some (negb (set_has (n_id n) (h_nodes h)))
  end.
Proof.
  rewrite graph_of_paths_eq. cbn [g_nodes]. rewrite elem_of_sort_by. unfold graph_marked.
  destruct (graph_highlights ps stages options) as [h|]; simpl.
  - unfold map. intros (m & -> & _)%list_elem_of_fmap. done.
  - unfold graph_masked. intros Hn.
    assert (Hg : forall m, m ∈ map snd (node_groups metric (graph_colors ps palette) palette ps) ->
      n_highlighted m = None /\ n_dimmed m = None).
    { intros m Hm. unfold map in Hm. apply list_elem_of_fmap in Hm as ([id m'] & -> & Hin).
      apply elem_map_get in Hin; [| apply node_groups_NoDup].
      unfold node_groups in Hin. rewrite group_by_get in Hin. simpl in Hin.
      destruct (filter _ _) as [|x xs]; [done |]. injection Hin as <-. cbn [snd].
      assert (Hf : forall ys b, n_highlighted (foldl (node_more metric) b ys) = n_highlighted b /\
                                n_dimmed (foldl (node_more metric) b ys) = n_dimmed b)
        by (induction ys as [|y ys IH]; intros b; [done | exact (IH (node_more metric b y))]).
      by destruct (Hf (x :: xs) (node_init (graph_colors ps palette) palette x)). }
    destruct (go_maskSensitive options); [| by apply Hg].
    rewrite mask_nodes_eq in Hn. unfold map at 1 in Hn.
    apply list_elem_of_fmap in Hn as (m & -> & Hm). apply Hg in Hm. by destruct (must_mask m).
Qed.

End HighlightGraph.

(** * Properties *)

Section Claims.
Context {C : Collation} {T : ChartTheme} {F : IntlFormat}.

(** The prepared paths of a build. *)
Definition build_paths (rows : list FlowQuotaDataItem) (metric : FlowMetric) (role : FlowRole)
  (vs : option (list FlowNodeKind)) (ctx : FlowPathContext) (options : FlowGraphOptions) :
  list PreparedFlowPath :=
  let stages := resolveVisibleStages role vs in
  preparePaths rows stages
    (buildTopNodeSets rows metric stages (normalizeTopNodeLimit (go_topNodeLimit options)) ctx)
    (default DEFAULT_FLOW_OVERFLOW_MODE (go_overflowMode options)) (go_otherNodeLabel options) ctx.

Lemma buildFlowGraph_paths rows metric role palette vs ctx options :
  buildFlowGraph rows metric role palette vs ctx options =
  graph_of_paths (build_paths rows metric role vs ctx options) metric palette
    (resolveVisibleStages role vs) options.
Proof. done. Qed.

Lemma build_column rows metric role palette vs ctx options colors kind :
  kind ∈ resolveVisibleStages role vs ->
  sumZ n_value (filter (fun n => n_kind n = kind)
    (map snd (node_groups metric colors palette (build_paths rows metric role vs ctx options)))) =
  paths_total metric (build_paths rows metric role vs ctx options).
Proof. apply column_sum; [apply resolveVisibleStages_NoDup | apply preparePaths_staged]. Qed.

(** C9: conservation between the stages of the diagram: the metric that enters
    a node over its incoming links equals the node's value, unless the node is
    in the first column, and so does the metric that leaves it, unless it is in
    the last column.  This holds for every selection, limit and overflow mode,
    for rows whose texts do not contain the separator of the link keys. *)
Theorem flow_conservation rows metric role palette vs ctx options n :
  Forall row_nul_free rows ->
  let stages := resolveVisibleStages role vs in
  let g := buildFlowGraph rows metric role palette vs ctx options in
  n ∈ g_nodes g ->
  (head stages <> Some (n_kind n) ->
   sumZ l_value (filter (fun l => l_target l = n_id n) (g_links g)) = n_value n) /\
  (last stages <> Some (n_kind n) ->
   sumZ l_value (filter (fun l => l_source l = n_id n) (g_links g)) = n_value n).
Proof.
  intros Hr stages g Hn. pose proof (resolveVisibleStages_NoDup role vs) as Hnd.
  set (ps := build_paths rows metric role vs ctx options).
  assert (Hst : staged stages ps) by apply preparePaths_staged.
  assert (Hnul : nul_free ps) by by apply preparePaths_nul_free.
  destruct (graph_node_origin ps metric palette stages options n Hn) as (x & Hx & Hid & Hk & Hv).
  rewrite Hv, Hk. unfold g. rewrite buildFlowGraph_paths. fold ps stages.
  rewrite graph_inflow, graph_outflow, Hid. split; intros.
  - by apply (inflow_node _ _ _ _ _ Hnd Hst).
  - by apply (outflow_node _ _ _ _ _ Hnd Hst).
Qed.

(** unless overflowing paths are hidden, every column of the dashboard's
    diagram adds up to the summary figure of the same metric shown beside it. *)
Theorem dashboard_columns_match_summary rows metric options kind :
  let role := default DEFAULT_FLOW_ROLE (o_role options) in
  let data := buildDashboardFlowData rows metric options in
  kind ∈ resolveVisibleStages role (o_visibleStages options) ->
  o_overflowMode options <> Some hide ->
  sumZ n_value (filter (fun n => n_kind n = kind) (g_nodes (p_flow data))) =
  summaryValue (p_summary data) metric.
Proof.
  intros role data Hk Hm. unfold data, buildDashboardFlowData. cbn [p_flow p_summary].
  rewrite summary_metric, buildFlowGraph_paths, graph_column.
  rewrite build_column by done.
  unfold build_paths. rewrite prepared_total. cbn [go_overflowMode].
  destruct (o_overflowMode options) as [[]|]; done.
Qed.

(** in either overflow mode every column adds up to the metric of the rows
    that are kept, which are all rows when overflow is aggregated and the rows
    with only top nodes when it is hidden. *)
Theorem columns_match_kept_rows rows metric role palette vs ctx options kind :
  let stages := resolveVisibleStages role vs in
  kind ∈ stages ->
  sumZ n_value (filter (fun n => n_kind n = kind)
    (g_nodes (buildFlowGraph rows metric role palette vs ctx options))) =
  sumZ (fun row => metricValue (rowMetrics row) metric)
    (kept_rows rows stages
       (buildTopNodeSets rows metric stages (normalizeTopNodeLimit (go_topNodeLimit options)) ctx)
       (default DEFAULT_FLOW_OVERFLOW_MODE (go_overflowMode options)) ctx).
Proof.
  intros stages Hk. rewrite buildFlowGraph_paths, graph_column.
  rewrite build_column by done.
  apply prepared_total.
Qed.

(** C22: the nodes of the graph refine the specification on paths: ids are
    unique, they are exactly the ids that occur on the prepared paths, and the
    value of a node is the metric summed over the occurrences of its id. *)
Theorem graph_nodes_refine rows metric role palette vs ctx options :
  let ps := build_paths rows metric role vs ctx options in
  let nodes := g_nodes (buildFlowGraph rows metric role palette vs ctx options) in
  NoDup (map n_id nodes) /\
  (forall id, id ∈ map n_id nodes <-> exists p m, p ∈ ps /\ m ∈ pp_path p /\ pn_id m = id) /\
  (forall n, n ∈ nodes -> n_value n = node_total metric ps (n_id n)).
Proof.
  intros ps nodes. unfold nodes. rewrite buildFlowGraph_paths. fold ps.
  split; [apply graph_ids_NoDup | split].
  - intros id. rewrite graph_ids_elem. split.
    + intros ([m p] & [Hp Hm]%elem_of_node_items & Hid). eauto.
    + intros (p & m & Hp & Hm & Hid). exists (m, p). by rewrite elem_of_node_items.
  - intros n Hn. by destruct (graph_node_origin _ _ _ _ _ _ Hn) as (x & _ & _ & _ & ?).
Qed.

(** with a top-node limit of [n] a column has at most [n] nodes, plus the
    single "other" node when overflow is aggregated. *)
Theorem top_node_limit_bounds_columns rows metric palette role vs ctx options n kind :
  normalizeTopNodeLimit (go_topNodeLimit options) = Some n ->
  kind ∈ resolveVisibleStages role vs ->
  let mode := default DEFAULT_FLOW_OVERFLOW_MODE (go_overflowMode options) in
  (Z.of_nat (length (filter (fun x => n_kind x = kind)
     (g_nodes (buildFlowGraph rows metric role palette vs ctx options))))
   <= n + (if decide (mode = aggregate) then 1 else 0))%Z.
Proof. apply column_size. Qed.

(** masking hides the label of every sensitive node, and of the link ends
    at it, and changes no id, kind or quantity of the graph. *)
Theorem masking_hides_labels rows metric role palette vs ctx limit mode lab an al :
  let options mask := mkGraphOptions limit mode lab an al mask in
  let g := buildFlowGraph rows metric role palette vs ctx (options true) in
  let plain := buildFlowGraph rows metric role palette vs ctx (options false) in
  (forall n, n ∈ g_nodes g -> must_mask n = true -> hidden_label (n_label n)) /\
  (forall l n, l ∈ g_links g -> n ∈ g_nodes g -> must_mask n = true ->
     (l_source l = n_id n -> hidden_label (l_sourceLabel l)) /\
     (l_target l = n_id n -> hidden_label (l_targetLabel l))) /\
  map node_core (g_nodes g) ≡ₚ map node_core (g_nodes plain) /\
  map link_core (g_links g) ≡ₚ map link_core (g_links plain).
Proof.
  intros options g plain. unfold g, plain. rewrite !buildFlowGraph_paths.
  split; [by apply graph_masking | split; [by apply graph_masking | split]].
  - by rewrite !graph_nodes_core.
  - by rewrite !graph_links_core.
Qed.

(** when the active selection meets a path, a node is highlighted exactly
    if it lies on a selected path, and dimmed exactly otherwise. *)
Theorem highlighting_spec rows metric role palette vs ctx options p n :
  let stages := resolveVisibleStages role vs in
  let ps := build_paths rows metric role vs ctx options in
  selection_active options stages -> p ∈ ps -> selected_path options p ->
  n ∈ g_nodes (buildFlowGraph rows metric role palette vs ctx options) ->
  exists b, n_highlighted n = Some b /\ n_dimmed n = Some (negb b) /\
    (b = true <-> exists q, q ∈ ps /\ selected_path options q /\ n_id n ∈ map pn_id (pp_path q)).
Proof.
  intros stages ps Ha Hp Hs Hn.
  destruct (highlight_sets_active ps options stages p Ha Hp Hs) as [h Hh].
  pose proof (graph_node_flags ps metric palette stages options n Hn) as Hf.
  unfold graph_highlights in Hf. rewrite Hh in Hf. destruct Hf as [H1 H2].
  exists (set_has (n_id n) (h_nodes h)). split; [done | split; [done |]].
  rewrite set_has_spec. by apply (highlight_sets_Some ps options stages h Hh).
Qed.

(** the share of a link is its value divided by the metric total of the
    kept rows, and zero when that total is not positive. *)
Theorem link_shares rows metric role palette vs ctx options l :
  Forall row_nul_free rows ->
  let stages := resolveVisibleStages role vs in
  l ∈ g_links (buildFlowGraph rows metric role palette vs ctx options) ->
  let total := sumZ (fun row => metricValue (rowMetrics row) metric)
    (kept_rows rows stages
       (buildTopNodeSets rows metric stages (normalizeTopNodeLimit (go_topNodeLimit options)) ctx)
       (default DEFAULT_FLOW_OVERFLOW_MODE (go_overflowMode options)) ctx) in
  l_share l = if (0 <? total)%Z then n_div (n_of_Z (l_value l)) (n_of_Z total) else n_zero.
Proof.
  intros Hr stages Hl total. revert Hl.
  rewrite buildFlowGraph_paths, graph_of_paths_eq. cbn [g_links].
  set (ps := build_paths rows metric role vs ctx options).
  assert (Ht : graph_total ps metric palette stages options = total).
  { rewrite graph_total_eq.
    - apply prepared_total.
    - apply resolveVisibleStages_NoDup.
    - apply resolveVisibleStages_length.
    - apply preparePaths_staged.
    - by apply preparePaths_nul_free. }
  unfold assignLinkDisplayColors, map at 1. intros (l1 & -> & H1)%list_elem_of_fmap.
  assert (Hs : l_share l1 = if (0 <? total)%Z then n_div (n_of_Z (l_value l1)) (n_of_Z total) else n_zero).
  { unfold map in H1. apply list_elem_of_fmap in H1 as (l0 & -> & _).
    unfold share_link. fold stages. rewrite Ht. done. }
  destruct (map_get _ _); exact Hs.
Qed.

End Claims.

(** ** Witnesses *)

Definition demo_theme : ChartTheme :=
  {| vchartDefaultDataScheme := [mkScheme (Some 10%nat) [Some (js "#1664FF"); Some (js "#1AC6FF")]] |}.
Definition demo_format : IntlFormat := {| formatNumber := show_Z |}.

(** Two users, two models, one channel. *)
Definition demo_rows : list FlowQuotaDataItem :=
  let row u un m q c := mkRow (Some u) (Some (js un)) None (Some (js "vip")) (Some 7%Z) (Some (js "key"))
                          (Some 3%Z) (Some (js "main")) (Some (js m)) (Some 100%Z) (Some c) (Some q) in
  [row 1 "alice" "gpt-4o" 300 2; row 2 "bob" "gpt-4o" 120 1; row 1 "alice" "o3" 80 5]%Z.

Definition demo_options (mask : bool) : FlowGraphOptions :=
  mkGraphOptions (Some (n_of_Z 1)) None None (Some (mkNodeFilter KUser (js "user:1"))) None mask.

Definition demo_graph : DashboardFlowGraph :=
  @buildFlowGraph unit_collation demo_theme demo_rows MQuota RAdmin None None None (demo_options false).

Lemma demo_rows_nul_free : Forall row_nul_free demo_rows.
Proof. unfold row_nul_free, demo_rows. repeat constructor; nul_lit. Qed.

Example demo_values : map (fun n => (n_id n, n_value n)) (g_nodes demo_graph) =
  [(js "channel:3", 500%Z); (js "group:vip", 500%Z); (js "model:gpt-4o", 420%Z); (js "user:1", 380%Z);
   (js "user:__other__", 120%Z); (js "model:__other__", 80%Z)].
Proof. vm_compute. reflexivity. Qed.

Definition demo_node : DashboardFlowNode :=
  default (mkNode [] [] KUser 0 0 0 0 [] [] None None) (head (g_nodes demo_graph)).
Definition demo_link : DashboardFlowLink :=
  default (mkLink [] [] 0 0 0 0 [] [] [] [] n_zero [] [] n_zero None None) (head (g_links demo_graph)).

Lemma demo_node_in : demo_node ∈ g_nodes demo_graph.
Proof.
  unfold demo_node. destruct (g_nodes demo_graph) as [|n l] eqn:E; [| by left].
  exfalso. assert (H : length (g_nodes demo_graph) = 6%nat) by (vm_compute; reflexivity).
  rewrite E in H. discriminate H.
Qed.

Lemma demo_link_in : demo_link ∈ g_links demo_graph.
Proof.
  unfold demo_link. destruct (g_links demo_graph) as [|n l] eqn:E; [| by left].
  exfalso. assert (H : length (g_links demo_graph) = 6%nat) by (vm_compute; reflexivity).
  rewrite E in H. discriminate H.
Qed.

Lemma flow_conservation_witness :
  sumZ l_value (filter (fun l => l_target l = n_id demo_node) (g_links demo_graph)) = n_value demo_node.
Proof.
  refine (proj1 (@flow_conservation unit_collation demo_theme demo_rows MQuota RAdmin None None None
                   (demo_options false) demo_node demo_rows_nul_free demo_node_in) _).
  vm_compute. discriminate.
Defined.

Definition demo_build : FlowBuildOptions :=
  mkBuildOptions (Some RAdmin) (Some [js "user:1"]) None None None None None (Some (n_of_Z 1)) None
    false None None.

Lemma dashboard_columns_match_summary_witness :
  let data := @buildDashboardFlowData unit_collation demo_theme demo_format demo_rows MQuota demo_build in
  sumZ n_value (filter (fun n => n_kind n = KModel) (g_nodes (p_flow data))) = 380%Z /\
  summaryValue (p_summary data) MQuota = 380%Z.
Proof.
  intros data. assert (Hs : summaryValue (p_summary data) MQuota = 380%Z) by (vm_compute; reflexivity).
  split; [| exact Hs]. rewrite <- Hs.
  apply (@dashboard_columns_match_summary unit_collation demo_theme demo_format demo_rows MQuota demo_build
           KModel).
  - apply (bool_decide_unpack _). vm_compute. exact I.
  - discriminate.
Defined.

Definition demo_hide : FlowGraphOptions :=
  mkGraphOptions (Some (n_of_Z 1)) (Some hide) None None None false.

Lemma columns_match_kept_rows_witness :
  sumZ n_value (filter (fun n => n_kind n = KUser)
    (g_nodes (@buildFlowGraph unit_collation demo_theme demo_rows MQuota RAdmin None None None demo_hide)))
  = 300%Z.
Proof.
  etransitivity.
  - apply (@columns_match_kept_rows unit_collation demo_theme demo_rows MQuota RAdmin None None None
             demo_hide KUser). apply (bool_decide_unpack _). vm_compute. exact I.
  - vm_compute. reflexivity.
Defined.

Lemma top_node_limit_bounds_columns_witness :
  (Z.of_nat (length (filter (fun x => n_kind x = KModel) (g_nodes demo_graph))) <= 2)%Z.
Proof.
  apply (@top_node_limit_bounds_columns unit_collation demo_theme demo_rows MQuota None RAdmin None None
           (demo_options false) 1 KModel).
  - vm_compute. reflexivity.
  - apply (bool_decide_unpack _). vm_compute. exact I.
Defined.

Definition demo_path : PreparedFlowPath :=
  default (mkPrepared [] (mkMetrics 0 0 0))
    (head (@build_paths unit_collation demo_rows MQuota RAdmin None None (demo_options false))).

Lemma highlighting_spec_witness :
  exists b, n_highlighted demo_node = Some b.
Proof.
  destruct (@highlighting_spec unit_collation demo_theme demo_rows MQuota RAdmin None None None
              (demo_options false) demo_path demo_node) as (b & Hb & _).
  - eexists. split; [reflexivity |]. apply (bool_decide_unpack _). vm_compute. exact I.
  - vm_compute. left.
  - vm_compute. reflexivity.
  - exact demo_node_in.
  - exists b. exact Hb.
Defined.

Lemma link_shares_witness :
  l_share demo_link = n_div (n_of_Z (l_value demo_link)) (n_of_Z 500).
Proof.
  etransitivity.
  - exact (@link_shares unit_collation demo_theme demo_rows MQuota RAdmin None None None
             (demo_options false) demo_link demo_rows_nul_free demo_link_in).
  - vm_compute. reflexivity.
Defined.

Lemma top_node_sets_spec_witness :
  exists sets ids,
    @buildTopNodeSets unit_collation demo_rows MQuota (getFlowStages RAdmin) (Some 1%Z) None = Some sets /\
    map_get KModel sets = Some ids /\ (length ids <= 1)%nat.
Proof.
  destruct (@top_node_sets_spec unit_collation demo_rows MQuota RAdmin None 1 None KModel)
    as (sets & ids & Hs & Hg & _ & Hl & _); [lia | apply (bool_decide_unpack _); vm_compute; exact I |].
  exists sets, ids. split; [exact Hs | split; [exact Hg | lia]].
Defined.

(** Masking runs before the nodes are sorted by value and then label, so nodes
    with equal values can change places when labels are masked. *)
Example masking_reorders_ties :
  let row u un := mkRow (Some u) (Some (js un)) None (Some (js "vip")) None None
                    (Some 3%Z) (Some (js "main")) (Some (js "o3")) None None (Some 10%Z) in
  let graph mask := @buildFlowGraph unit_collation demo_theme [row 1%Z "zoe"; row 2%Z "adam"] MQuota
                      RAdmin None (Some [KUser; KModel]) None
                      (mkGraphOptions None None None None None mask) in
  map n_id (g_nodes (graph false)) = [js "model:o3"; js "user:2"; js "user:1"] /\
  map n_id (g_nodes (graph true)) = [js "model:o3"; js "user:1"; js "user:2"].
Proof. vm_compute. split; reflexivity. Qed.
