(* ===== verification/FlowSankey.v ===== *)
(** * Dashboard flow: panel state and chart data

    Model of [features/dashboard/lib/flow-selection.ts] and of the data part of
    [buildFlowSankeySpec] in [features/dashboard/lib/flow.ts]: what the panel
    shows, and the nodes and links handed to the chart with their drawing order.
    The presentation part of the chart specification is constant and left out. *)
From S2P Require Import Prelude Number FlowData FlowGraph FlowProps.

(** ** Panel *)

Inductive FlowDisplayState := DLoading | DError | DEmpty | DChart.

Record FlowResponse := mkResponse {
  r_success : bool; r_data : option (list FlowQuotaDataItem); r_message : option str
}.

(** The thrown [Error] is its message. *)
Definition requireSuccessfulFlowRows (response : FlowResponse) (fallbackMessage : str) :
  list FlowQuotaDataItem + str :=
  if negb (r_success response) then inr (opt_str_or (r_message response) fallbackMessage)
  else inl (default [] (r_data response)).

Definition flowDisplayState (isLoading isError : bool) (linkCount : nat) (themeReady : bool) :
  FlowDisplayState :=
  if isLoading then DLoading
  else if isError then DError
  else if (linkCount =? 0)%nat then DEmpty
  else if negb themeReady then DLoading
  else DChart.

Definition compactFlowSelectionLabel (count : Z) : str :=
  if (0 <? count)%Z then show_Z count else js "*".

Definition visibleFlowUsers (users : list FlowUserFilterOption) (selectedUsers : list str) :
  list FlowUserFilterOption :=
  if (length selectedUsers =? 0)%nat then users
  else
    let selected := set_of selectedUsers in
    List.filter (fun user => set_has (uo_value user) selected) users.

(** ** Chart data *)

(** [Number(a) - Number(b)] for two optional flags: [NaN], which is falsy and so
    counts as a tie, when one of them is [undefined]. *)
Definition flag_diff (a b : option bool) : Z :=
  match a, b with
  | Some x, Some y => Z.b2z x - Z.b2z y
  | _, _ => 0
  end.

Record SankeyNode := mkSankeyNode { sn_key : str; sn_node : DashboardFlowNode }.
Record SankeyLink := mkSankeyLink { sl_linkKey : str; sl_link : DashboardFlowLink; sl_zIndex : Z }.

Definition link_zIndex (link : DashboardFlowLink) (index : nat) : Z :=
  if default false (l_highlighted link) then 1000000 + Z.of_nat index
  else if default false (l_dimmed link) then Z.of_nat index
  else 100000 + Z.of_nat index.

Section Sankey.
Context {C : Collation}.

Definition byLinkDrawPriority (a b : DashboardFlowLink) : Z :=
  cmp_or (flag_diff (l_dimmed a) (l_dimmed b))
    (cmp_or (flag_diff (l_highlighted b) (l_highlighted a))
       (cmp_or (l_value b - l_value a) (localeCompare (linkStableKey a) (linkStableKey b)))).

(** The [nodes] and [links] of the chart's data. *)
Definition sankey_nodes (flow : DashboardFlowGraph) : list SankeyNode :=
  map (fun node => mkSankeyNode (n_id node) node) (g_nodes flow).

Definition sankey_links (flow : DashboardFlowGraph) : list SankeyLink :=
  imap (fun index link => mkSankeyLink (linkStableKey link) link (link_zIndex link index))
    (sort_by byLinkDrawPriority (List.filter (fun link => 0 <? l_value link)%Z (g_links flow))).

End Sankey.

(** ** Lemmas *)

Lemma imap_snd {A B} (f : nat -> A -> B) (g : B -> A) (l : list A) :
  (forall i x, g (f i x) = x) -> map g (imap f l) = l.
Proof.
  intros H. revert f H. induction l as [|x l IH]; intros f H; simpl; [done |].
  rewrite H. f_equal. apply IH. intros i y. apply (H (S i)).
Qed.

Lemma elem_of_imap {A B} (f : nat -> A -> B) (l : list A) y :
  y ∈ imap f l -> exists i x, l !! i = Some x /\ y = f i x.
Proof.
  intros (i & Hi)%list_elem_of_lookup. rewrite list_lookup_imap in Hi.
  destruct (l !! i) as [x|] eqn:E; [| done]. injection Hi as <-. eauto.
Qed.

(** ** Properties *)

(** the chart is given exactly the links with a positive value, and as
    long as there are at most 100000 of them a highlighted link is drawn above
    every link that is not, and a dimmed one below every link that is not. *)
Theorem sankey_draw_order {C : Collation} flow :
  let links := sankey_links flow in
  map sl_link links ≡ₚ filter (fun l => 0 < l_value l)%Z (g_links flow) /\
  ((Z.of_nat (length links) <= 100000)%Z -> forall a b, a ∈ links -> b ∈ links ->
   (l_highlighted (sl_link a) = Some true -> l_highlighted (sl_link b) <> Some true ->
    sl_zIndex b < sl_zIndex a)%Z /\
   (l_dimmed (sl_link a) = Some true -> l_highlighted (sl_link a) <> Some true ->
    l_dimmed (sl_link b) <> Some true -> sl_zIndex a < sl_zIndex b)%Z).
Proof.
  intros links. unfold links, sankey_links. split.
  - rewrite imap_snd by done. rewrite sort_by_perm.
    induction (g_links flow) as [|l ls IH]; [done |]. simpl. rewrite filter_cons.
    destruct (Z.ltb_spec 0 (l_value l)); case_decide; (lia || by rewrite IH).
  - intros Hlen a b (i & la & Hi & ->)%elem_of_imap (j & lb & Hj & ->)%elem_of_imap.
    rewrite length_imap in Hlen. apply lookup_lt_Some in Hi, Hj. cbn [sl_link sl_zIndex]. unfold link_zIndex.
    split; intros; destruct (l_highlighted la) as [[]|], (l_highlighted lb) as [[]|],
      (l_dimmed la) as [[]|], (l_dimmed lb) as [[]|]; simpl; (congruence || lia).
Qed.

Abbreviation demo_sankey := (@sankey_links unit_collation demo_graph).
Definition demo_flagged (b : bool) : SankeyLink :=
  default (mkSankeyLink [] demo_link 0)
    (List.find (fun l => bool_decide (l_highlighted (sl_link l) = Some b)) demo_sankey).

Lemma demo_flagged_in b : demo_flagged b ∈ demo_sankey.
Proof.
  unfold demo_flagged. destruct (List.find _ demo_sankey) as [l|] eqn:E.
  - apply List.find_some in E as [H _]. by apply list_elem_of_In.
  - exfalso. destruct b; vm_compute in E; discriminate E.
Qed.

Lemma demo_sankey_length : length demo_sankey = 6%nat.
Proof. vm_compute. reflexivity. Qed.

Lemma sankey_draw_order_witness : (sl_zIndex (demo_flagged false) < sl_zIndex (demo_flagged true))%Z.
Proof.
  pose proof (@sankey_draw_order unit_collation demo_graph) as H. cbv zeta in H.
  destruct H as [_ H].
  refine (proj1 (H _ (demo_flagged true) (demo_flagged false) (demo_flagged_in true)
                   (demo_flagged_in false)) _ _).
  - rewrite demo_sankey_length. lia.
  - vm_compute. reflexivity.
  - vm_compute. discriminate.
Defined.
