(* ===== verification/Regex.v ===== *)
(** * Regular expressions of the language

    A backtracking matcher in continuation-passing style for the fragment of
    ECMAScript regular expressions the sources use: character classes, greedy
    repetition, alternation, capture groups, back references, the anchors with and
    without the multiline flag, and the word boundary.  The order in which alternatives are tried is the one of
    the language, so captures are the ones the source sees.

    The lemmas give the matcher's behaviour by equations: literals consume a
    prefix, and a greedy run of a class is tried from its longest end down. *)
From S2P Require Import Prelude.

(** ** Syntax *)

Inductive regex :=
| REps
| RChar (f : N -> bool)
| RSeq (a b : regex)
| RAlt (a b : regex)
| RStar (a : regex)
| RGroup (n : nat) (a : regex)
| RRef (n : nat)
| RStart
| REnd
| RLineStart
| RLineEnd
| RWordB.

Definition RPlus (a : regex) : regex := RSeq a (RStar a).
Definition ROpt (a : regex) : regex := RAlt a REps.
Definition rlit (s : str) : regex := foldr (fun c r => RSeq (RChar (N.eqb c)) r) REps s.
Fixpoint rseq (l : list regex) : regex :=
  match l with [] => REps | [a] => a | a :: l => RSeq a (rseq l) end.
Fixpoint ralt (l : list regex) : regex :=
  match l with [] => REps | [a] => a | a :: l => RAlt a (ralt l) end.

(** Character classes. *)
Definition one_of (s : str) (c : N) : bool := set_has c s.
Definition none_of (s : str) (c : N) : bool := negb (set_has c s).
Definition is_word (c : N) : bool :=
  is_digit c || ((97 <=? c) && (c <=? 122))%N || ((65 <=? c) && (c <=? 90))%N || (c =? 95)%N.
(** What [.] matches: anything but a line terminator. *)
Definition not_newline (c : N) : bool := none_of [10; 13; 8232; 8233]%N c.

(** ** Matching *)

Record mstate := MS { m_prev : option N; m_post : str; m_caps : list (nat * str) }.

Fixpoint groups_of (r : regex) : list nat :=
  match r with
  | RSeq a b | RAlt a b => groups_of a ++ groups_of b
  | RStar a => groups_of a
  | RGroup n a => n :: groups_of a
  | _ => []
  end.

(** An iteration starts with the captures of its body undefined. *)
Definition clear_caps (r : regex) (x : mstate) : mstate :=
  MS (m_prev x) (m_post x) (List.filter (fun e => negb (set_has (fst e) (groups_of r))) (m_caps x)).

Definition advance (n : nat) (x : mstate) : mstate :=
  MS (match last (take n (m_post x)) with Some c => Some c | None => m_prev x end)
    (drop n (m_post x)) (m_caps x).

Definition capture (n : nat) (x y : mstate) : mstate :=
  MS (m_prev y) (m_post y)
    (map_set n (take (length (m_post x) - length (m_post y)) (m_post x)) (m_caps y)).

Definition word_at (o : option N) : bool := match o with Some c => is_word c | None => false end.

(** Greedy repetition: another iteration first, unless it consumes nothing; an
    iteration consumes input, so the length of the input is enough fuel. *)
Fixpoint star_loop (step : mstate -> (mstate -> option mstate) -> option mstate)
  (k : mstate -> option mstate) (fuel : nat) (x : mstate) : option mstate :=
  match fuel with
  | O => k x
  | S fuel =>
      match step x (fun y => if (length (m_post y) <? length (m_post x))%nat
                             then star_loop step k fuel y else None) with
      | Some y => Some y
      | None => k x
      end
  end.

Fixpoint rmatch (r : regex) (x : mstate) (k : mstate -> option mstate) {struct r} : option mstate :=
  match r with
  | REps => k x
  | RChar f =>
      match m_post x with
      | c :: s => if f c then k (MS (Some c) s (m_caps x)) else None
      | [] => None
      end
  | RSeq a b => rmatch a x (fun y => rmatch b y k)
  | RAlt a b => match rmatch a x k with Some y => Some y | None => rmatch b x k end
  | RStar a => star_loop (fun y => rmatch a (clear_caps a y)) k (length (m_post x)) x
  | RGroup n a => rmatch a x (fun y => k (capture n x y))
  | RRef n =>
      match map_get n (m_caps x) with
      | Some s => if starts_with (m_post x) s then k (advance (length s) x) else None
      | None => k x
      end
  | RStart => match m_prev x with None => k x | Some _ => None end
  | REnd => match m_post x with [] => k x | _ => None end
  | RLineStart =>
      match m_prev x with
      | None => k x
      | Some c => if not_newline c then None else k x
      end
  | RLineEnd =>
      match m_post x with
      | [] => k x
      | c :: _ => if not_newline c then None else k x
      end
  | RWordB =>
      if xorb (word_at (m_prev x)) (word_at (head (m_post x))) then k x else None
  end.

(** The first match at or after a position: the captures, the matched text, and
    the position after it. *)
Record rresult := RR { rr_caps : list (nat * str); rr_text : str; rr_rest : mstate }.

Definition match_at (r : regex) (prev : option N) (s : str) : option rresult :=
  match rmatch r (MS prev s []) Some with
  | Some y => Some (RR (m_caps y) (take (length s - length (m_post y)) s) (MS (m_prev y) (m_post y) []))
  | None => None
  end.

Fixpoint rexec_from (r : regex) (prev : option N) (s : str) {struct s} : option rresult :=
  match match_at r prev s with
  | Some res => Some res
  | None => match s with [] => None | c :: s => rexec_from r (Some c) s end
  end.

Definition rexec (r : regex) (s : str) : option rresult := rexec_from r None s.
Definition rtest (r : regex) (s : str) : bool := match rexec r s with Some _ => true | None => false end.
(** The text of a group, [None] when it did not take part. *)
Definition cap (n : nat) (res : rresult) : option str := map_get n (rr_caps res).

(** All successive matches of a global expression that never matches the empty
    text; every match consumes at least one unit, so the length is enough fuel. *)
Fixpoint rexec_all_from (fuel : nat) (r : regex) (prev : option N) (s : str) : list rresult :=
  match fuel with
  | O => []
  | S fuel =>
      match rexec_from r prev s with
      | Some res => res :: rexec_all_from fuel r (m_prev (rr_rest res)) (m_post (rr_rest res))
      | None => []
      end
  end.
Definition rexec_all (r : regex) (s : str) : list rresult := rexec_all_from (S (length s)) r None s.

(** ** Equations *)

Lemma advance_0 x : advance 0 x = x.
Proof. by destruct x. Qed.

Lemma advance_cons n c x s :
  m_post x = c :: s -> advance (S n) x = advance n (MS (Some c) s (m_caps x)).
Proof.
  intros E. unfold advance. rewrite E. cbn [take drop m_post m_caps m_prev]. rewrite last_cons.
  by destruct (last (take n s)).
Qed.

Lemma rmatch_seq a b x k : rmatch (RSeq a b) x k = rmatch a x (fun y => rmatch b y k).
Proof. done. Qed.

Lemma rmatch_ext r x k1 k2 : (forall y, k1 y = k2 y) -> rmatch r x k1 = rmatch r x k2.
Proof.
  revert x k1 k2. induction r as [| |a IHa b IHb|a IHa b IHb|a IHa|n a IHa| | | | | |]; intros x k1 k2 H; simpl;
    try (by repeat case_match).
  - apply IHa. intros y. by apply IHb.
  - by rewrite (IHa x k1 k2 H), (IHb x k1 k2 H).
  - generalize (length (m_post x)) as n. intros n. revert x. induction n as [|n IHn]; intros x; simpl.
    + apply H.
    + rewrite H. erewrite IHa; [reflexivity |]. intros y. simpl. by rewrite IHn.
  - apply IHa. intros y. apply H.
Qed.

(** A literal consumes itself. *)
Lemma rmatch_lit s x k :
  rmatch (rlit s) x k = if starts_with (m_post x) s then k (advance (length s) x) else None.
Proof.
  revert x. induction s as [|c s IH]; intros x.
  - simpl. by rewrite advance_0.
  - change (rlit (c :: s)) with (RSeq (RChar (N.eqb c)) (rlit s)).
    cbn [rmatch starts_with length]. destruct (m_post x) as [|d t] eqn:E; [done |].
    destruct (c =? d)%N; [| done]. rewrite IH. cbn [m_post andb].
    by rewrite (advance_cons _ d _ t E).
Qed.

(** ** Runs of a class *)

Fixpoint run_length (f : N -> bool) (s : str) : nat :=
  match s with c :: s => if f c then S (run_length f s) else 0 | [] => 0 end.

(** Tries [g n], [g (n - 1)], ... down to [g 0]. *)
Fixpoint first_down {A} (n : nat) (g : nat -> option A) : option A :=
  match g n with
  | Some y => Some y
  | None => match n with O => None | S n => first_down n g end
  end.

Lemma first_down_ext {A} n (g h : nat -> option A) :
  (forall i, (i <= n)%nat -> g i = h i) -> first_down n g = first_down n h.
Proof.
  induction n as [|n IH]; intros H; simpl.
  - by rewrite (H 0%nat) by lia.
  - rewrite (H (S n)) by lia. rewrite IH; [done |]. intros i Hi. apply H. lia.
Qed.

Lemma first_down_only {A} n (g : nat -> option A) :
  (forall i, (i < n)%nat -> g i = None) -> first_down n g = g n.
Proof.
  induction n as [|n IH]; intros H; simpl; [by destruct (g 0%nat) |].
  destruct (g (S n)); [done |]. rewrite IH; [apply H; lia |]. intros i Hi. apply H. lia.
Qed.

Lemma first_down_hit {A} n (g : nat -> option A) y : g n = Some y -> first_down n g = Some y.
Proof. intros H. destruct n; simpl; by rewrite H. Qed.

Lemma first_down_None {A} n (g : nat -> option A) :
  (forall i, (i <= n)%nat -> g i = None) -> first_down n g = None.
Proof. intros H. rewrite first_down_only; [apply H; lia |]. intros i Hi. apply H. lia. Qed.

Lemma first_down_S {A} n (g : nat -> option A) :
  first_down (S n) g = match first_down n (fun i => g (S i)) with Some y => Some y | None => g 0%nat end.
Proof.
  induction n as [|n IH]; [simpl; by destruct (g 1%nat), (g 0%nat) |].
  cbn [first_down] in *. destruct (g (S (S n))); [done |]. exact IH.
Qed.

Lemma run_length_le f s : (run_length f s <= length s)%nat.
Proof. induction s as [|c s IH]; simpl; [lia |]. destruct (f c); lia. Qed.

Lemma filter_no_groups (cs : list (nat * str)) :
  List.filter (fun e => negb (set_has (fst e) [])) cs = cs.
Proof. induction cs as [|e cs IH]; [done |]. change (e :: List.filter (fun e => negb (set_has (fst e) [])) cs = e :: cs). by rewrite IH. Qed.

Lemma clear_caps_char f x : clear_caps (RChar f) x = x.
Proof. destruct x as [pv s cs]. unfold clear_caps. simpl groups_of. simpl m_caps. by rewrite filter_no_groups. Qed.

Lemma rmatch_char f x k :
  rmatch (RChar f) x k =
  match m_post x with
  | c :: s => if f c then k (MS (Some c) s (m_caps x)) else None
  | [] => None
  end.
Proof. done. Qed.

(** A greedy class repetition is tried from the longest run down. *)
Lemma rmatch_star_class f x k :
  rmatch (RStar (RChar f)) x k = first_down (run_length f (m_post x)) (fun i => k (advance i x)).
Proof.
  cbn [rmatch]. cut (forall n x, (length (m_post x) <= n)%nat ->
    star_loop (fun y => rmatch (RChar f) (clear_caps (RChar f) y)) k n x =
    first_down (run_length f (m_post x)) (fun i => k (advance i x))); [intros H; by apply H |].
  clear x. intros n.
  induction n as [|n IH]; intros x Hl.
  - destruct x as [pv [|c s] cs]; [| simpl in Hl; lia]. simpl. rewrite advance_0. by destruct (k _).
  - destruct x as [pv post cs]. cbn [star_loop]. rewrite clear_caps_char, rmatch_char.
    cbn [m_post m_caps] in *.
    destruct post as [|c s]; [simpl; rewrite advance_0; by destruct (k _) |].
    cbn [run_length]. destruct (f c); [| simpl; rewrite advance_0; by destruct (k _)].
    cbn [length]. rewrite (proj2 (Nat.ltb_lt _ _)) by lia.
    rewrite first_down_S, advance_0. rewrite IH by (simpl in *; lia). cbn [m_post].
    erewrite first_down_ext; [reflexivity |]. intros i _. simpl.
    by rewrite (advance_cons i c _ s).
Qed.

Lemma run_length_app f run rest :
  Forall (fun c => f c = true) run -> (forall c s, rest = c :: s -> f c = false) ->
  run_length f (run ++ rest) = length run.
Proof.
  intros Hr Hs. induction Hr as [|c run Hc _ IH]; simpl.
  - destruct rest as [|c s]; simpl; [done |]. by rewrite (Hs c s).
  - by rewrite Hc, IH.
Qed.

Lemma advance_app x run rest :
  m_post x = run ++ rest ->
  m_post (advance (length run) x) = rest /\ m_caps (advance (length run) x) = m_caps x.
Proof. intros E. unfold advance. simpl. by rewrite E, drop_app_length. Qed.

Lemma capture_advance n i x :
  (i <= length (m_post x))%nat ->
  capture n x (advance i x) =
  MS (m_prev (advance i x)) (m_post (advance i x)) (map_set n (take i (m_post x)) (m_caps x)).
Proof.
  intros Hi. unfold capture. f_equal. unfold advance. simpl. f_equal. rewrite length_drop. f_equal. lia.
Qed.

Lemma rmatch_plus_class f x k :
  rmatch (RPlus (RChar f)) x k =
  match run_length f (m_post x) with
  | O => None
  | S n => first_down n (fun i => k (advance (S i) x))
  end.
Proof.
  unfold RPlus. rewrite rmatch_seq, rmatch_char. destruct x as [pv [|c s] cs]; simpl; [done |].
  destruct (f c); [| done]. change (rmatch (RStar (RChar f)) (MS (Some c) s cs) k = _) || idtac.
  etransitivity; [exact (rmatch_star_class f (MS (Some c) s cs) k) |]. simpl.
  apply first_down_ext. intros i _. by rewrite (advance_cons i c _ s).
Qed.

(** A captured run [x+] of a class, when nothing after it accepts a unit of the
    class: the only split is the longest one. *)
Lemma rmatch_run n f x k run rest :
  m_post x = run ++ rest -> run <> [] ->
  Forall (fun c => f c = true) run -> (forall c s, rest = c :: s -> f c = false) ->
  (forall y c s, m_post y = c :: s -> f c = true -> k y = None) ->
  rmatch (RGroup n (RPlus (RChar f))) x k =
  k (MS (m_prev (advance (length run) x)) rest (map_set n run (m_caps x))).
Proof.
  intros E Hne Hr Hs Hk. change (rmatch (RGroup n (RPlus (RChar f))) x k) with
    (rmatch (RPlus (RChar f)) x (fun y => k (capture n x y))).
  rewrite rmatch_plus_class, E, run_length_app by done.
  destruct run as [|c run]; [done |]. cbn [length]. rewrite first_down_only.
  - rewrite capture_advance by (rewrite E; simpl; rewrite length_app; lia).
    rewrite E, (take_app_length (c :: run)).
    destruct (advance_app x (c :: run) rest E) as [Hp _]. cbn [length] in Hp. by rewrite Hp.
  - intros i Hi. destruct (lookup_lt_is_Some_2 (c :: run) (S i)) as [d Hd]; [simpl; lia |].
    apply (Hk _ d (drop (S (S i)) (m_post x))).
    + simpl. rewrite E. apply drop_S. rewrite lookup_app_l by (simpl; lia). exact Hd.
    + rewrite Forall_forall in Hr. apply Hr. by eapply list_elem_of_lookup_2.
Qed.

(** The same run at a place where the rest of the match succeeds. *)
Lemma rmatch_run_hit n f x k run rest z :
  m_post x = run ++ rest -> run <> [] ->
  Forall (fun c => f c = true) run -> (forall c s, rest = c :: s -> f c = false) ->
  k (MS (m_prev (advance (length run) x)) rest (map_set n run (m_caps x))) = Some z ->
  rmatch (RGroup n (RPlus (RChar f))) x k = Some z.
Proof.
  intros E Hne Hr Hs Hk. change (rmatch (RGroup n (RPlus (RChar f))) x k) with
    (rmatch (RPlus (RChar f)) x (fun y => k (capture n x y))).
  rewrite rmatch_plus_class, E, run_length_app by done.
  destruct run as [|c run]; [done |]. cbn [length]. apply first_down_hit.
  rewrite capture_advance by (rewrite E; simpl; rewrite length_app; lia).
  rewrite E, (take_app_length (c :: run)).
  destruct (advance_app x (c :: run) rest E) as [Hp _]. cbn [length] in Hp. by rewrite Hp.
Qed.

(** ** What a match consumes *)

(** Every class of the expression is within [P]; no back references. *)
Fixpoint rchars (P : N -> Prop) (r : regex) : Prop :=
  match r with
  | RChar f => forall c, f c = true -> P c
  | RSeq a b | RAlt a b => rchars P a /\ rchars P b
  | RStar a | RGroup _ a => rchars P a
  | RRef _ => False
  | _ => True
  end.

Lemma rmatch_consumes (P : N -> Prop) r x k z :
  rchars P r -> rmatch r x k = Some z ->
  exists t y, m_post x = t ++ m_post y /\ Forall P t /\ k y = Some z.
Proof.
  revert x k z. induction r as [| |a IHa b IHb|a IHa b IHb|a IHa|n a IHa| | | | | |]; intros x k z Hc H; simpl in *.
  - by exists [], x.
  - destruct (m_post x) as [|c s] eqn:E; [done |]. destruct (f c) eqn:Ef; [| done].
    exists [c], (MS (Some c) s (m_caps x)). auto.
  - destruct Hc as [Ha Hb]. apply IHa in H as (t1 & y1 & E1 & F1 & H1); [| done].
    apply IHb in H1 as (t2 & y2 & E2 & F2 & H2); [| done].
    exists (t1 ++ t2), y2. rewrite E1, E2, app_assoc. auto using Forall_app_2.
  - destruct Hc as [Ha Hb]. destruct (rmatch a x k) as [w|] eqn:E; [| by apply IHb].
    injection H as <-. by apply IHa.
  - revert H. generalize (length (m_post x)) as n. intros n. revert x.
    induction n as [|n IHn]; intros x H; simpl in H; [by exists [], x |].
    destruct (rmatch a (clear_caps a x) _) as [w|] eqn:E; [| by exists [], x].
    injection H as <-. apply IHa in E as (t1 & y1 & E1 & F1 & H1); [| done].
    destruct (_ <? _)%nat; [| done]. apply IHn in H1 as (t2 & y2 & E2 & F2 & H2).
    exists (t1 ++ t2), y2. simpl in E1. rewrite E1, E2, app_assoc. auto using Forall_app_2.
  - apply IHa in H as (t & y & E & F & Hk); [| done]. exists t, (capture n x y). auto.
  - done.
  - destruct (m_prev x); [done |]. by exists [], x.
  - destruct (m_post x) eqn:E; [| done]. exists [], x. by rewrite E.
  - exists [], x. repeat case_match; done.
  - exists [], x. repeat case_match; done.
  - destruct (xorb _ _); [| done]. by exists [], x.
Qed.

(** ** Anchored expressions [/^...$/] *)

Definition ranch (r : regex) : regex := RSeq RStart (RSeq r REnd).

Definition at_end (y : mstate) : option mstate := match m_post y with [] => Some y | _ => None end.

Lemma rexec_from_start r c s : rexec_from (RSeq RStart r) (Some c) s = None.
Proof. revert c. induction s as [|d s IH]; intros c; simpl; [done |]. apply IH. Qed.

(** The captures of an anchored match. *)
Definition full_caps (r : regex) (s : str) : option (list (nat * str)) :=
  m_caps <$> rmatch r (MS None s []) at_end.

Lemma rexec_anch r s : rr_caps <$> rexec (ranch r) s = full_caps r s.
Proof.
  unfold rexec, full_caps, ranch.
  assert (H : rmatch (RSeq RStart (RSeq r REnd)) (MS None s []) Some = rmatch r (MS None s []) at_end).
  { cbn [rmatch m_prev]. apply rmatch_ext. intros y. done. }
  destruct s as [|c s]; cbn [rexec_from]; unfold match_at; rewrite H;
    destruct (rmatch r _ at_end); [done | done | done |]. by rewrite rexec_from_start.
Qed.

Lemma rtest_anch r s : rtest (ranch r) s = match full_caps r s with Some _ => true | None => false end.
Proof. unfold rtest. rewrite <- rexec_anch. by destruct (rexec (ranch r) s). Qed.

(** An anchored test bounds the units of the text. *)
Lemma rtest_chars (P : N -> Prop) r s : rchars P r -> rtest (ranch r) s = true -> Forall P s.
Proof.
  intros Hc. rewrite rtest_anch. unfold full_caps.
  destruct (rmatch r (MS None s []) at_end) as [z|] eqn:E; [| done]. intros _.
  apply (rmatch_consumes P) in E as (t & y & Ey & Ft & Hy); [| done].
  unfold at_end in Hy. simpl in Ey. destruct (m_post y); [| done].
  by rewrite Ey, app_nil_r.
Qed.
