(* ===== verification/Json.v ===== *)
(** * JSON values

    [JSON.parse] and [JSON.stringify] as the sources use them.  An object is the
    list of its entries in enumeration order: integer keys first, in increasing
    order, then the others in insertion order. *)
From S2P Require Import Prelude Number Regex.

Set Warnings "-register-all".
Inductive json :=
| JNull
| JBool (b : bool)
| JNum (n : num)
| JStr (s : str)
| JArr (l : list json)
| JObj (l : list (str * json)).

(** Induction with hypotheses for the elements of arrays and objects. *)
Section Induction.
Variable P : json -> Prop.
Hypothesis Hnull : P JNull.
Hypothesis Hbool : forall b, P (JBool b).
Hypothesis Hnum : forall n, P (JNum n).
Hypothesis Hstr : forall s, P (JStr s).
Hypothesis Harr : forall l, Forall P l -> P (JArr l).
Hypothesis Hobj : forall l, Forall (fun e => P (snd e)) l -> P (JObj l).

Fixpoint json_rect_nested (v : json) : P v :=
  match v with
  | JNull => Hnull
  | JBool b => Hbool b
  | JNum n => Hnum n
  | JStr s => Hstr s
  | JArr l => Harr l ((fix go (l : list json) : Forall P l :=
      match l with [] => Forall_nil_2 P | v :: l => Forall_cons_2 P v l (json_rect_nested v) (go l) end) l)
  | JObj l => Hobj l ((fix go (l : list (str * json)) : Forall (fun e => P (snd e)) l :=
      match l with
      | [] => Forall_nil_2 _
      | e :: l => Forall_cons_2 _ e l (json_rect_nested (snd e)) (go l)
      end) l)
  end.
End Induction.

(** ** Strings *)

Definition hex_digit (n : N) : N := if (n <? 10)%N then (48 + n)%N else (87 + n)%N.
Definition hex4 (c : N) : str :=
  [hex_digit (c / 4096 mod 16); hex_digit (c / 256 mod 16); hex_digit (c / 16 mod 16);
   hex_digit (c mod 16)]%N.

Definition is_high (c : N) : bool := ((55296 <=? c) && (c <=? 56319))%N.
Definition is_low (c : N) : bool := ((56320 <=? c) && (c <=? 57343))%N.

Definition escapes : list (N * N) :=
  [(8, 98); (9, 116); (10, 110); (12, 102); (13, 114); (34, 34); (92, 92)]%N.
Definition short_escape (c : N) : option N := map_get c escapes.

(** The units of [JSON.stringify(s)] between the quotes: surrogates that are not
    part of a pair are escaped. *)
Fixpoint quote_units (s : str) : str :=
  match s with
  | [] => []
  | c :: r =>
      match short_escape c with
      | Some e => 92%N :: e :: quote_units r
      | None =>
          if (c <? 32)%N then 92%N :: 117%N :: hex4 c ++ quote_units r
          else if is_high c then
            match r with
            | d :: r' => if is_low d then c :: d :: quote_units r'
                         else 92%N :: 117%N :: hex4 c ++ quote_units r
            | [] => 92%N :: 117%N :: hex4 c ++ quote_units r
            end
          else if is_low c then 92%N :: 117%N :: hex4 c ++ quote_units r
          else c :: quote_units r
      end
  end.
Definition quote (s : str) : str := dquote :: quote_units s ++ [dquote].

Definition unescape (c : N) : option N :=
  map_get c [(98, 8); (116, 9); (110, 10); (102, 12); (114, 13); (34, 34); (92, 92); (47, 47)]%N.

(** The rest of a string literal after its opening quote. *)
Fixpoint parse_str (s : str) : option (str * str) :=
  match s with
  | [] => None
  | c :: r =>
      if (c =? 34)%N then Some ([], r)
      else if (c =? 92)%N then
        match r with
        | x :: r' =>
            if (x =? 117)%N then
              match r' with
              | a :: b :: d :: e :: r'' =>
                  match radix_val 16 0 [a; b; d; e] with
                  | Some u => '(t, rest) ← parse_str r''; Some (u :: t, rest)
                  | None => None
                  end
              | _ => None
              end
            else
              match unescape x with
              | Some u => '(t, rest) ← parse_str r'; Some (u :: t, rest)
              | None => None
              end
        | [] => None
        end
      else if (c <? 32)%N then None
      else '(t, rest) ← parse_str r; Some (c :: t, rest)
  end.

(** ** Values *)

Definition is_ws (c : N) : bool := one_of [32; 9; 10; 13]%N c.
Definition skip_ws (s : str) : str := drop_while is_ws s.

Definition digits_plus : regex := RPlus (RChar is_digit).
Definition json_number : regex :=
  ranch (rseq [ROpt (rlit (js "-"));
               RAlt (rlit (js "0"))
                 (RSeq (RChar (fun c => is_digit c && negb (c =? 48))%N) (RStar (RChar is_digit)));
               ROpt (RSeq (rlit (js ".")) digits_plus);
               ROpt (rseq [RChar (one_of (js "eE")); ROpt (RChar (one_of (js "+-"))); digits_plus])]).
Definition is_numchar (c : N) : bool := is_digit c || one_of (js "+-.eE") c.

(** The units of a number end at the first one that cannot belong to it; what
    follows must be white space, a separator or the end in any case. *)
Definition parse_number (s : str) : option (json * str) :=
  let '(t, r) := span is_numchar s in
  if rtest json_number t then Some (JNum (num_of_str t), r) else None.

Definition is_index (k : str) : bool :=
  all_digits k && (str_eqb k (js "0") || negb (str_eqb (take 1 k) (js "0"))) &&
  (digits_val k <? 4294967295)%N.

Definition order_keys {V} (l : list (str * V)) : list (str * V) :=
  sort_by (fun a b => Z.of_N (digits_val (fst a)) - Z.of_N (digits_val (fst b)))%Z
    (List.filter (fun e => is_index (fst e)) l)
  ++ List.filter (fun e => negb (is_index (fst e))) l.

(** The object with the given members, a later one replacing an earlier one. *)
Definition obj_of {V} (members : list (str * V)) : list (str * V) :=
  order_keys (foldl (fun m e => map_set (fst e) (snd e) m) [] members).

Section Values.
Variable parse : str -> option (json * str).

Fixpoint parse_elems (n : nat) (s : str) : option (list json * str) :=
  match n with
  | O => None
  | S n =>
      '(v, r) ← parse s;
      match skip_ws r with
      | 44%N :: r' => '(l, rest) ← parse_elems n r'; Some (v :: l, rest)
      | 93%N :: r' => Some ([v], r')
      | _ => None
      end
  end.

Fixpoint parse_members (n : nat) (s : str) : option (list (str * json) * str) :=
  match n with
  | O => None
  | S n =>
      match skip_ws s with
      | 34%N :: r =>
          '(k, r1) ← parse_str r;
          match skip_ws r1 with
          | 58%N :: r2 =>
              '(v, r3) ← parse r2;
              match skip_ws r3 with
              | 44%N :: r' => '(l, rest) ← parse_members n r'; Some ((k, v) :: l, rest)
              | 125%N :: r' => Some ([(k, v)], r')
              | _ => None
              end
          | _ => None
          end
      | _ => None
      end
  end.
End Values.

(** The text after a given first unit. *)
Definition eat (c : N) (s : str) : option str :=
  match s with d :: r => if (d =? c)%N then Some r else None | [] => None end.

(** The fuel bounds the nesting depth. *)
Fixpoint parse_value (fuel : nat) (s : str) : option (json * str) :=
  match fuel with
  | O => None
  | S fuel =>
      match skip_ws s with
      | [] => None
      | c :: r =>
          if (c =? 34)%N then '(t, rest) ← parse_str r; Some (JStr t, rest)
          else if (c =? 91)%N then
            match eat 93 (skip_ws r) with
            | Some rest => Some (JArr [], rest)
            | None => '(l, rest) ← parse_elems (parse_value fuel) (length r) r; Some (JArr l, rest)
            end
          else if (c =? 123)%N then
            match eat 125 (skip_ws r) with
            | Some rest => Some (JObj [], rest)
            | None => '(l, rest) ← parse_members (parse_value fuel) (length r) r; Some (JObj (obj_of l), rest)
            end
          else if starts_with (c :: r) (js "null") then Some (JNull, drop 4 (c :: r))
          else if starts_with (c :: r) (js "true") then Some (JBool true, drop 4 (c :: r))
          else if starts_with (c :: r) (js "false") then Some (JBool false, drop 5 (c :: r))
          else parse_number (c :: r)
      end
  end.

(** [JSON.parse]; [None] is the thrown [SyntaxError].  Nesting takes a unit per
    level, so the length of the text is enough fuel. *)
Definition JSON_parse (s : str) : option json :=
  match parse_value (S (length s)) s with
  | Some (v, r) => match skip_ws r with [] => Some v | _ => None end
  | None => None
  end.

(** [JSON.stringify(v)]. *)
Fixpoint JSON_stringify (v : json) : str :=
  match v with
  | JNull => js "null"
  | JBool true => js "true"
  | JBool false => js "false"
  | JNum n => if isFinite n then num_to_str n else js "null"
  | JStr s => quote s
  | JArr l => js "[" ++ join (js ",") (map JSON_stringify l) ++ js "]"
  | JObj l => js "{" ++ join (js ",") (map (fun '(k, v) => quote k ++ js ":" ++ JSON_stringify v) l)
              ++ js "}"
  end.

(** [String(v)]: an array joins its elements, [null] inside counting as empty. *)
Fixpoint to_String (v : json) : str :=
  match v with
  | JNull => js "null"
  | JBool true => js "true"
  | JBool false => js "false"
  | JNum n => num_to_str n
  | JStr s => s
  | JArr l => join (js ",") (map (fun e => match e with JNull => [] | _ => to_String e end) l)
  | JObj _ => js "[object Object]"
  end.

(** [Boolean(v)]. *)
Definition j_truthy (v : json) : bool :=
  match v with
  | JNull => false
  | JBool b => b
  | JNum n => n_truthy n
  | JStr s => truthy s
  | JArr _ | JObj _ => true
  end.

(** [Number(v)]; an array or an object goes through its string. *)
Definition to_Number (v : json) : num :=
  match v with
  | JNull => n_zero
  | JBool b => if b then n_of_Z 1 else n_zero
  | JNum n => n
  | JStr s => num_of_str s
  | JArr _ | JObj _ => num_of_str (to_String v)
  end.

Example json_ex1 :
  JSON_parse (jsq " { 'a': [1, -2.5e3, 'x\u0041\n'], '10': null, '9': {}, 'a': true } ") =
  Some (JObj [(js "9", JObj []); (js "10", JNull); (js "a", JBool true)]).
Proof. vm_compute. reflexivity. Qed.

(** ** Round trips *)

Lemma short_escape_unescape c e : short_escape c = Some e -> unescape e = Some c /\ (e =? 117)%N = false.
Proof.
  intros H%map_get_elem. unfold escapes in H. revert H. rewrite !elem_of_cons, elem_of_nil.
  by intros [H|[H|[H|[H|[H|[H|[H|[]]]]]]]]; injection H as -> ->.
Qed.

Lemma hex_digit_val n : (n < 16)%N -> radix_digit 16 (hex_digit n) = Some n.
Proof.
  intros H. assert (Hc : forallb (fun i => bool_decide (radix_digit 16 (hex_digit (N.of_nat i)) = Some (N.of_nat i)))
                     (seq 0 16) = true) by (vm_compute; reflexivity).
  rewrite forallb_forall in Hc. specialize (Hc (N.to_nat n)).
  rewrite N2Nat.id in Hc. apply bool_decide_eq_true in Hc; [done |]. apply in_seq. lia.
Qed.

Lemma hex4_val c : (c < 65536)%N -> radix_val 16 0 (hex4 c) = Some c.
Proof.
  intros H. unfold hex4. cbn [radix_val].
  rewrite !hex_digit_val by (apply N.mod_lt; lia). f_equal.
  pose proof (N.div_mod c 16 ltac:(lia)). pose proof (N.div_mod (c / 16) 16 ltac:(lia)).
  pose proof (N.div_mod (c / 256) 16 ltac:(lia)).
  assert (c / 256 = c / 16 / 16)%N by (by rewrite N.Div0.div_div).
  assert (c / 4096 = c / 256 / 16)%N by (by rewrite N.Div0.div_div).
  assert (c / 4096 < 16)%N by (apply N.Div0.div_lt_upper_bound; lia).
  rewrite (N.mod_small (c / 4096)) by done. lia.
Qed.

Lemma parse_hex c r :
  (c < 65536)%N ->
  parse_str (92%N :: 117%N :: hex4 c ++ r) = '(t, rest) ← parse_str r; Some (c :: t, rest).
Proof.
  intros H. pose proof (hex4_val c H) as Hv. unfold hex4 in *. cbn [parse_str app].
  by rewrite Hv.
Qed.

Lemma parse_short c e r :
  short_escape c = Some e ->
  parse_str (92%N :: e :: r) = '(t, rest) ← parse_str r; Some (c :: t, rest).
Proof.
  intros [Hu He]%short_escape_unescape. cbn [parse_str].
  change (92 =? 34)%N with false. change (92 =? 92)%N with true. cbv iota. by rewrite He, Hu.
Qed.

Lemma parse_plain c r :
  short_escape c = None -> (c <? 32)%N = false ->
  parse_str (c :: r) = '(t, rest) ← parse_str r; Some (c :: t, rest).
Proof.
  intros H1 H2. cbn [parse_str]. destruct (N.eqb_spec c 34) as [->|_]; [done |].
  destruct (N.eqb_spec c 92) as [->|_]; [done |]. by rewrite H2.
Qed.

(** The units [JSON.stringify] writes for a string read back as the string. *)
Lemma quote_units_parse s rest : parse_str (quote_units s ++ dquote :: rest) = Some (s, rest).
Proof.
  assert (H : forall n s, (length s <= n)%nat -> parse_str (quote_units s ++ dquote :: rest) = Some (s, rest));
    [| by apply (H (length s))].
  clear s. induction n as [|n IH]; intros s Hl.
  { destruct s; [done | simpl in Hl; lia]. }
  destruct s as [|c r]; [done |]. simpl in Hl.
  assert (IHr : parse_str (quote_units r ++ dquote :: rest) = Some (r, rest)) by (apply IH; lia).
  cbn [quote_units]. destruct (short_escape c) as [e|] eqn:Ee.
  { cbn [app]. rewrite (parse_short c e) by done. by rewrite IHr. }
  assert (Hesc : (c < 65536)%N -> parse_str ((92%N :: 117%N :: hex4 c ++ quote_units r) ++ dquote :: rest) = Some (c :: r, rest))
    by (intros Hc; cbn [app]; rewrite <- app_assoc, parse_hex by done; by rewrite IHr).
  destruct (c <? 32)%N eqn:E32; [apply Hesc; lia |].
  assert (Hplain : parse_str ((c :: quote_units r) ++ dquote :: rest) = Some (c :: r, rest))
    by (cbn [app]; rewrite parse_plain by done; by rewrite IHr).
  destruct (is_high c) eqn:Eh; [| destruct (is_low c) eqn:El; [apply Hesc; unfold is_low in El; lia | done]].
  assert (c < 65536)%N as Hc by (unfold is_high in Eh; lia).
  destruct r as [|d r']; [by apply Hesc |]. destruct (is_low d) eqn:Ed; [| by apply Hesc].
  cbn [app]. rewrite parse_plain by done.
  assert (Hd : short_escape d = None /\ (d <? 32)%N = false).
  { unfold is_low in Ed. split; [| lia]. apply map_get_None. intros H.
    assert (d < 100)%N; [| lia]. revert H. apply (proj1 (Forall_forall (fun x => x < 100)%N _)).
    repeat constructor. }
  destruct Hd as [Hd1 Hd2]. rewrite parse_plain by done.
  rewrite IH; [done | simpl in Hl; lia].
Qed.

Lemma quote_parse s rest :
  exists u, quote s ++ rest = dquote :: u /\ parse_str u = Some (s, rest).
Proof.
  exists (quote_units s ++ dquote :: rest). split; [| by apply quote_units_parse].
  unfold quote. cbn [app]. by rewrite <- app_assoc.
Qed.

(** A number that its own text denotes. *)
Definition num_ok (n : num) : bool :=
  isFinite n && rtest json_number (num_to_str n) && bool_decide (num_of_str (num_to_str n) = n).

(** Values that survive printing: numbers that print exactly, and objects in
    enumeration order without repeated keys. *)
Fixpoint json_ok (v : json) : Prop :=
  match v with
  | JNum n => num_ok n = true
  | JArr l => foldr (fun v P => json_ok v /\ P) True l
  | JObj l => foldr (fun e P => json_ok (snd e) /\ P) True l /\ obj_of l = l
  | _ => True
  end.

Lemma span_app {A} (f : A -> bool) l r :
  Forall (fun x => f x = true) l -> (forall x s, r = x :: s -> f x = false) -> span f (l ++ r) = (l, r).
Proof.
  intros Hl Hr. induction Hl as [|x l Hx _ IH]; simpl.
  - destruct r as [|x r]; [done |]. simpl. by rewrite (Hr x r).
  - by rewrite Hx, IH.
Qed.

(** What follows a value: nothing that could continue a number. *)
Definition stops (rest : str) : Prop := forall c s, rest = c :: s -> is_numchar c = false.

Lemma json_number_chars t : rtest json_number t = true -> Forall (fun c => is_numchar c = true) t.
Proof.
  apply rtest_chars. unfold is_numchar, one_of.
  assert (He : forall c d, (d =? c)%N = true -> set_has d (js "+-.eE") = true ->
            is_digit c || set_has c (js "+-.eE") = true).
  { intros c d Hd%N.eqb_eq Hs. subst d. rewrite Hs. apply orb_true_r. }
  assert (Hi : forall c s, set_has c s = true -> (forall d, d ∈ s -> d ∈ js "+-.eE") ->
            is_digit c || set_has c (js "+-.eE") = true).
  { intros c s Hc Hs. rewrite set_has_spec in Hc. apply orb_true_intro. right. rewrite set_has_spec. auto. }
  assert (Hg : forall c, is_digit c = true -> is_digit c || set_has c (js "+-.eE") = true)
    by (by intros c ->).
  assert (Hg' : forall c, is_digit c && negb (c =? 48)%N = true -> is_digit c || set_has c (js "+-.eE") = true)
    by (intros c [-> _]%andb_prop; done).
  repeat split; try exact Hg; try exact Hg';
    try (intros c Hc; exact (He c _ Hc ltac:(vm_compute; reflexivity)));
    try (intros c Hc; apply (Hi c _ Hc); intros d; unfold js; vm_compute; set_solver).
  intros c <-%N.eqb_eq. vm_compute. reflexivity.
Qed.

Lemma numchar_not_ws c : is_numchar c = true -> is_ws c = false.
Proof.
  unfold is_ws, one_of. intros H. apply not_true_iff_false. rewrite set_has_spec.
  rewrite !elem_of_cons, elem_of_nil. intros Hc. destruct_or! Hc; subst; done.
Qed.

Lemma skip_ws_id c s : is_ws c = false -> skip_ws (c :: s) = c :: s.
Proof. intros H. unfold skip_ws. simpl. by rewrite H. Qed.

(** The first unit of a printed value. *)
Lemma stringify_head v :
  json_ok v -> exists c s, JSON_stringify v = c :: s /\ is_ws c = false /\ c <> 93%N /\ c <> 125%N.
Proof.
  destruct v as [|[]|n|s|l|l]; intros Hok; try (eexists _, _; split; [reflexivity | done]).
  unfold JSON_stringify. simpl in Hok. unfold num_ok in Hok.
  destruct (isFinite n); [| done]. simpl in Hok. apply andb_prop in Hok as [Ht _].
  pose proof (json_number_chars _ Ht) as Hc. destruct (num_to_str n) as [|c s]; [done |].
  inv Hc. exists c, s. split; [done | split; [by apply numchar_not_ws |]]. split; by intros ->.
Qed.

Lemma parse_number_ok n rest :
  num_ok n = true -> stops rest ->
  parse_number (num_to_str n ++ rest) = Some (JNum n, rest).
Proof.
  unfold num_ok. intros [[Hf Ht]%andb_prop Hv%bool_decide_eq_true]%andb_prop Hr.
  unfold parse_number. rewrite span_app; [| by apply json_number_chars | exact Hr].
  by rewrite Ht, Hv.
Qed.

Section Collections.
Variable parse : str -> option (json * str).
(** What the element parser has to do. *)
Definition parses (v : json) : Prop :=
  forall rest, stops rest -> parse (JSON_stringify v ++ rest) = Some (v, rest).

Lemma stops_sep c s : c ∈ [44; 93; 125]%N -> stops (c :: s).
Proof. rewrite !elem_of_cons, elem_of_nil. intros H d t [= <- <-]. destruct_or! H; subst; done. Qed.

Lemma parse_elems_ok l n rest :
  l <> [] -> Forall parses l -> (length l <= n)%nat ->
  parse_elems parse n (join (js ",") (map JSON_stringify l) ++ 93%N :: rest) = Some (l, rest).
Proof.
  intros Hne Hl. revert n. induction Hl as [|v l Hv Hl IH]; intros n Hn; [done |].
  destruct n as [|n]; [simpl in Hn; lia |]. cbn [parse_elems map].
  destruct l as [|w l].
  - cbn [join map]. rewrite Hv by (apply stops_sep; set_solver). done.
  - change (join (js ",") (JSON_stringify v :: map JSON_stringify (w :: l))) with
      (JSON_stringify v ++ js "," ++ join (js ",") (map JSON_stringify (w :: l))).
    rewrite <- app_assoc. change (js ",") with [44%N]. cbn [app].
    rewrite Hv by (apply stops_sep; set_solver). cbn [mbind option_bind].
    rewrite skip_ws_id by done. rewrite IH by (try done; simpl in *; lia). done.
Qed.

Definition member_text (e : str * json) : str := let '(k, v) := e in quote k ++ js ":" ++ JSON_stringify v.

Lemma parse_members_ok l n rest :
  l <> [] -> Forall (fun e => parses (snd e)) l -> (length l <= n)%nat ->
  parse_members parse n (join (js ",") (map member_text l) ++ 125%N :: rest) = Some (l, rest).
Proof.
  intros Hne Hl. revert n. induction Hl as [|[k v] l Hv Hl IH]; intros n Hn; [done |].
  destruct n as [|n]; [simpl in Hn; lia |]. simpl in Hv.
  assert (Hhead : forall tail, skip_ws ((quote k ++ js ":" ++ JSON_stringify v) ++ tail) =
    34%N :: quote_units k ++ dquote :: 58%N :: JSON_stringify v ++ tail).
  { intros tail. unfold quote. change (js ":") with [58%N]. cbn [app].
    rewrite <- !app_assoc. rewrite skip_ws_id by done. done. }
  cbn [parse_members map member_text].
  destruct l as [|w l].
  - cbn [join map]. rewrite Hhead, quote_units_parse. cbn [mbind option_bind].
    rewrite skip_ws_id, Hv by (done || apply stops_sep; set_solver). done.
  - change (join (js ",") ((quote k ++ js ":" ++ JSON_stringify v) :: map member_text (w :: l))) with
      ((quote k ++ js ":" ++ JSON_stringify v) ++ js "," ++ join (js ",") (map member_text (w :: l))).
    rewrite <- app_assoc, Hhead, quote_units_parse. cbn [mbind option_bind].
    rewrite skip_ws_id by done. rewrite <- app_assoc. change (js ",") with [44%N]. cbn [app].
    rewrite Hv by (apply stops_sep; set_solver). cbn [mbind option_bind].
    rewrite skip_ws_id by done. rewrite IH by (try done; simpl in *; lia). done.
Qed.
End Collections.

Lemma json_ok_arr l : json_ok (JArr l) <-> Forall json_ok l.
Proof. simpl. induction l as [|v l IH]; simpl; [split; [constructor | done] |]. rewrite Forall_cons. tauto. Qed.

Lemma json_ok_obj l :
  json_ok (JObj l) <-> Forall (fun e => json_ok (snd e)) l /\ obj_of l = l.
Proof.
  simpl. apply and_iff_compat_r. induction l as [|v l IH]; simpl; [split; [constructor | done] |].
  rewrite Forall_cons. tauto.
Qed.

Lemma elem_of_map {A B} (f : A -> B) l x : x ∈ l -> f x ∈ map f l.
Proof. rewrite !list_elem_of_In. apply in_map. Qed.

Lemma join_length_elem (sep : str) (l : list str) t :
  t ∈ l -> (length t <= length (join sep l))%nat.
Proof.
  induction l as [|u l IH]; [set_solver |]. intros [->|Ht]%elem_of_cons.
  - destruct l; simpl; [lia | rewrite length_app; lia].
  - specialize (IH Ht). destruct l; [set_solver |]. cbn [join]. rewrite !length_app. cbn [join] in IH. lia.
Qed.

Lemma join_length_count (l : list str) :
  Forall (fun t => t <> []) l -> (length l <= length (join (js ",") l))%nat.
Proof.
  induction 1 as [|u l Hu Hl IH]; [done |].
  assert (1 <= length u)%nat by (destruct u; [done | simpl; lia]).
  destruct l as [|w l]; [simpl; lia |]. cbn [join]. rewrite !length_app. simpl length in *. lia.
Qed.

Lemma parse_value_num n fuel rest :
  json_ok (JNum n) -> stops rest ->
  parse_value (S fuel) (JSON_stringify (JNum n) ++ rest) = Some (JNum n, rest).
Proof.
  intros Hok Hr. destruct (stringify_head _ Hok) as (c & t & Ec & Hws & Hc1 & Hc2).
  change (JSON_stringify (JNum n)) with (if isFinite n then num_to_str n else js "null") in *.
  simpl in Hok. pose proof Hok as Hn. unfold num_ok in Hn.
  destruct (isFinite n); [| done]. simpl in Hn. apply andb_prop in Hn as [Ht _].
  pose proof (json_number_chars _ Ht) as Hch.
  cbn [parse_value]. rewrite Ec in *. cbn [app]. rewrite skip_ws_id by done.
  inv Hch. assert (Hd : forall d, is_numchar d = false -> (c =? d)%N = false)
    by (intros d Hd; apply N.eqb_neq; congruence).
  rewrite !Hd by reflexivity.
  assert (Hl : forall d w, is_numchar d = false -> starts_with (c :: t ++ rest) (d :: w) = false).
  { intros d w Hdn. simpl. destruct (N.eqb_spec d c); [congruence | done]. }
  change (js "null") with (110%N :: [117; 108; 108]%N). change (js "true") with (116%N :: [114; 117; 101]%N).
  change (js "false") with (102%N :: [97; 108; 115; 101]%N). rewrite !Hl by reflexivity.
  change (c :: t ++ rest) with ((c :: t) ++ rest). rewrite <- Ec. by apply parse_number_ok.
Qed.

Lemma stringify_count {A} (text : A -> str) l :
  Forall (fun x => text x <> []) l -> (length l <= length (join (js ",") (map text l)))%nat.
Proof.
  intros H. rewrite <- (length_map text l) at 1. apply join_length_count. by apply Forall_fmap.
Qed.

Lemma parse_value_arr l fuel rest :
  json_ok (JArr l) -> Forall (parses (parse_value fuel)) l ->
  parse_value (S fuel) (JSON_stringify (JArr l) ++ rest) = Some (JArr l, rest).
Proof.
  intros Hok IH. apply json_ok_arr in Hok. change (JSON_stringify (JArr l)) with
    (js "[" ++ join (js ",") (map JSON_stringify l) ++ js "]") in *.
  change (js "[") with [91%N] in *. change (js "]") with [93%N] in *. cbn [app] in *. rewrite <- app_assoc.
  cbn [parse_value app]. rewrite skip_ws_id by done. cbn [N.eqb Pos.eqb].
  destruct l as [|v l]; [done |].
  assert (Hv : json_ok v) by (by inv Hok). destruct (stringify_head v Hv) as (c & t & Ec & Hws & Hc1 & _).
  assert (Hj : exists u, join (js ",") (map JSON_stringify (v :: l)) ++ 93%N :: rest = c :: u).
  { cbn [map join]. destruct (map JSON_stringify l); rewrite Ec; cbn [app]; eauto. }
  rewrite parse_elems_ok; [| done | done | ].
  - destruct Hj as [u ->]. rewrite skip_ws_id by done. cbn [eat]. destruct (N.eqb_spec c 93); done.
  - rewrite length_app. enough (length (v :: l) <= length (join (js ",") (map JSON_stringify (v :: l))))%nat
      by lia.
    apply stringify_count. eapply Forall_impl; [exact Hok |]. intros w Hw.
    destruct (stringify_head w Hw) as (? & ? & E & _). by rewrite E.
Qed.

Lemma parse_value_obj l fuel rest :
  json_ok (JObj l) -> Forall (fun e => parses (parse_value fuel) (snd e)) l ->
  parse_value (S fuel) (JSON_stringify (JObj l) ++ rest) = Some (JObj l, rest).
Proof.
  intros Hok IH. apply json_ok_obj in Hok as [Hok Hord]. change (JSON_stringify (JObj l)) with
    (js "{" ++ join (js ",") (map member_text l) ++ js "}") in *.
  change (js "{") with [123%N] in *. change (js "}") with [125%N] in *. cbn [app] in *. rewrite <- app_assoc.
  cbn [parse_value app]. rewrite skip_ws_id by done. cbn [N.eqb Pos.eqb].
  destruct l as [|[k v] l]; [done |].
  assert (Hj : exists u, join (js ",") (map member_text ((k, v) :: l)) ++ 125%N :: rest = 34%N :: u).
  { cbn [map join member_text]. destruct (map member_text l); unfold quote; cbn [app]; eauto. }
  rewrite parse_members_ok; [| done | exact IH | ].
  - destruct Hj as [u ->]. rewrite skip_ws_id by done. cbn -[obj_of]. by rewrite Hord.
  - rewrite length_app.
    enough (length ((k, v) :: l) <= length (join (js ",") (map member_text ((k, v) :: l))))%nat by lia.
    apply stringify_count, Forall_forall. by intros [k' w] _.
Qed.

Lemma parse_value_ok v :
  json_ok v -> forall fuel, (length (JSON_stringify v) < fuel)%nat -> parses (parse_value fuel) v.
Proof.
  induction v as [|b|n|s|l IH|l IH] using json_rect_nested; intros Hok [|fuel] Hf rest Hr; try lia.
  - done.
  - by destruct b.
  - by apply parse_value_num.
  - destruct (quote_parse s rest) as (u & Hu & Hp).
    change (JSON_stringify (JStr s)) with (quote s). rewrite Hu. cbn [parse_value].
    rewrite skip_ws_id by done. cbn -[parse_str]. by rewrite Hp.
  - apply parse_value_arr; [done |]. apply json_ok_arr in Hok.
    rewrite Forall_forall in IH, Hok |- *. intros w Hw. apply IH; [done | by apply Hok |].
    apply (elem_of_map JSON_stringify) in Hw. apply (join_length_elem (js ",")) in Hw.
    change (JSON_stringify (JArr l)) with (js "[" ++ join (js ",") (map JSON_stringify l) ++ js "]") in Hf.
    rewrite length_app in Hf. change (length (js "[")) with 1%nat in Hf. rewrite length_app in Hf. lia.
  - apply parse_value_obj; [done |]. apply json_ok_obj in Hok as [Hok _].
    rewrite Forall_forall in IH, Hok |- *. intros [k w] Hw. apply (IH _ Hw); [by apply (Hok _ Hw) |].
    apply (elem_of_map member_text) in Hw. apply (join_length_elem (js ",")) in Hw.
    change (JSON_stringify (JObj l)) with (js "{" ++ join (js ",") (map member_text l) ++ js "}") in Hf.
    cbn [member_text snd] in *. rewrite !length_app in *. change (length (js "{")) with 1%nat in Hf. lia.
Qed.

(** A value printed with [JSON.stringify] and read back with [JSON.parse] is
    the value itself: strings with any content, numbers whose
    text denotes them, nested arrays, and objects in enumeration order. *)
Lemma json_roundtrip v : json_ok v -> JSON_parse (JSON_stringify v) = Some v.
Proof.
  intros Hok. unfold JSON_parse.
  assert (H : parses (parse_value (S (length (JSON_stringify v)))) v) by (apply parse_value_ok; [done | lia]).
  specialize (H [] ltac:(by intros ? ? ?)). rewrite app_nil_r in H. by rewrite H.
Qed.

Example json_roundtrip_example :
  let v := JObj [(js "7", JArr [JNum (lit "2.5"); JNull; JBool true]); (js "a\b", JStr [34; 55296; 10; 92]%N)] in
  JSON_parse (JSON_stringify v) = Some v.
Proof. apply json_roundtrip. repeat split; try (vm_compute; reflexivity); repeat constructor. Qed.

(** ** Deciding that a value survives *)

Fixpoint json_eqb (a b : json) : bool :=
  match a, b with
  | JNull, JNull => true
  | JBool x, JBool y => eqb x y
  | JNum x, JNum y => bool_decide (x = y)
  | JStr x, JStr y => str_eqb x y
  | JArr l, JArr k =>
      (fix go l k := match l, k with
                     | [], [] => true
                     | x :: l, y :: k => json_eqb x y && go l k
                     | _, _ => false
                     end) l k
  | JObj l, JObj k =>
      (fix go l k := match l, k with
                     | [], [] => true
                     | (i, x) :: l, (j, y) :: k => str_eqb i j && json_eqb x y && go l k
                     | _, _ => false
                     end) l k
  | _, _ => false
  end.

Lemma json_eqb_eq a b : json_eqb a b = true -> a = b.
Proof.
  revert b. induction a as [| | | |l IH|l IH] using json_rect_nested; intros [| | | |k|k] H; cbn [json_eqb] in H; try done.
  - by apply eqb_prop in H as ->.
  - by apply bool_decide_eq_true in H as ->.
  - by apply str_eqb_eq in H as ->.
  - f_equal. revert k H. induction IH as [|x l Hx _ IHl]; intros [|y k] H; try done.
    apply andb_true_iff in H as [H1 H2]. f_equal; auto.
  - f_equal. revert k H. induction IH as [|[i x] l Hx _ IHl]; intros [|[j y] k] H; try done.
    apply andb_true_iff in H as [H H2]. apply andb_true_iff in H as [Hi H1]. apply str_eqb_eq in Hi as ->.
    f_equal; [f_equal; auto | auto].
Qed.

Lemma json_eqb_refl a : json_eqb a a = true.
Proof.
  induction a as [|b|n|s|l IH|l IH] using json_rect_nested; cbn [json_eqb]; try done.
  - by destruct b.
  - by apply bool_decide_eq_true.
  - by apply str_eqb_eq.
  - induction IH as [|x l Hx _ IHl]; [done |]. by rewrite Hx.
  - induction IH as [|[i x] l Hx _ IHl]; [done |]. simpl in Hx. rewrite Hx, IHl. assert (str_eqb i i = true) as -> by (by apply str_eqb_eq). done.
Qed.

#[export] Instance json_eq_dec : EqDecision json.
Proof.
  intros a b. destruct (json_eqb a b) eqn:E; [left; by apply json_eqb_eq | right]. intros ->. rewrite json_eqb_refl in E. done.
Defined.

Fixpoint json_okb (v : json) : bool :=
  match v with
  | JNum n => num_ok n
  | JArr l => forallb json_okb l
  | JObj l => forallb (fun e => json_okb (snd e)) l && json_eqb (JObj (obj_of l)) (JObj l)
  | _ => true
  end.

Lemma json_okb_ok v : json_okb v = true -> json_ok v.
Proof.
  induction v as [| | |s|l IH|l IH] using json_rect_nested; intros H; try exact I.
  - exact H.
  - cbn in H. apply json_ok_arr. rewrite forallb_forall in H. rewrite Forall_forall in *.
    intros x Hx. apply IH; [done |]. apply H. by apply list_elem_of_In.
  - cbn [json_okb] in H. apply andb_true_iff in H as [H Ho]. apply json_eqb_eq in Ho. injection Ho as Ho.
    apply json_ok_obj. split; [| done]. rewrite forallb_forall in H. rewrite Forall_forall in *. intros e He.
    specialize (H e (proj1 (list_elem_of_In _ _) He)). auto.
Qed.
