(* ===== verification/JsonPretty.v ===== *)
(** * Indented JSON

    [JSON.stringify(v, null, 2)], [JSON.parse] of its result, and [safeJsonParse]
    of [features/system-settings/utils/json-parser.ts]. *)
From S2P Require Import Prelude Number Regex Json.

Definition two_spaces : str := [32; 32]%N.

(** The text of a value at the given indentation. *)
Fixpoint JSON_pretty_at (indent : str) (v : json) : str :=
  let inner := indent ++ two_spaces in
  match v with
  | JArr ((_ :: _) as l) =>
      js "[" ++ newline :: inner ++ join (44%N :: newline :: inner) (map (JSON_pretty_at inner) l) ++ newline :: indent ++ js "]"
  | JObj ((_ :: _) as l) =>
      js "{" ++ newline :: inner ++
      join (44%N :: newline :: inner) (map (fun '(k, v) => quote k ++ js ": " ++ JSON_pretty_at inner v) l) ++
      newline :: indent ++ js "}"
  | _ => JSON_stringify v
  end.
Definition JSON_pretty (v : json) : str := JSON_pretty_at [] v.

Example pretty_ex :
  JSON_pretty (JObj [(js "a", JNum (n_of_Z 1)); (js "b", JArr [JNull; JObj []])]) =
  jsq "{" ++ [newline] ++ jsq "  'a': 1," ++ [newline] ++ jsq "  'b': [" ++ [newline] ++ js "    null," ++ [newline] ++
  js "    {}" ++ [newline] ++ js "  ]" ++ [newline] ++ js "}".
Proof. vm_compute. reflexivity. Qed.

(** ** Reading it back *)

Definition blank (s : str) : Prop := Forall (fun c => is_ws c = true) s.

Lemma skip_blank ws s : blank ws -> skip_ws (ws ++ s) = skip_ws s.
Proof. induction 1 as [|c ws Hc _ IH]; [done |]. unfold skip_ws in *. cbn. by rewrite Hc. Qed.

Lemma parse_value_blank fuel ws s : blank ws -> parse_value fuel (ws ++ s) = parse_value fuel s.
Proof. intros H. destruct fuel; [done |]. cbn [parse_value]. by rewrite skip_blank. Qed.

Lemma blank_newline indent : blank indent -> blank (newline :: indent).
Proof. intros H. by constructor. Qed.
Lemma blank_inner indent : blank indent -> blank (indent ++ two_spaces).
Proof. intros H. apply Forall_app. split; [done |]. by repeat constructor. Qed.

Lemma stops_blank ws c s : blank ws -> c ∈ [44; 93; 125]%N -> stops (ws ++ c :: s).
Proof.
  intros Hw Hc. destruct Hw as [|d ws Hd _]; [by apply stops_sep |]. intros e t [= <- _].
  destruct (is_numchar d) eqn:E; [| done]. apply numchar_not_ws in E. congruence.
Qed.

Section Collections.
Variables (fuel : nat) (indent : str).
Hypothesis Hindent : blank indent.
Let inner : str := indent ++ two_spaces.
Let sep : str := 44%N :: newline :: inner.
(** What the parser has to do with the elements. *)
Definition reads (v : json) : Prop :=
  forall rest, stops rest -> parse_value fuel (JSON_pretty_at inner v ++ rest) = Some (v, rest).

Lemma inner_blank : blank (newline :: inner).
Proof. apply blank_newline, blank_inner, Hindent. Qed.

Lemma pretty_elems l n rest :
  l <> [] -> Forall reads l -> (length l <= n)%nat ->
  parse_elems (parse_value fuel) n (newline :: inner ++ join sep (map (JSON_pretty_at inner) l) ++ newline :: indent ++ 93%N :: rest) =
  Some (l, rest).
Proof.
  intros Hne Hl. revert n. induction Hl as [|v l Hv Hl IH]; intros n Hn; [done |].
  destruct n as [|n]; [cbn in Hn; lia |]. cbn [parse_elems map].
  rewrite app_comm_cons, parse_value_blank by apply inner_blank. destruct l as [|w l].
  - cbn [join map]. rewrite Hv by (apply (stops_blank (newline :: indent)); [by apply blank_newline | set_solver]).
    cbn [mbind option_bind]. rewrite app_comm_cons, skip_blank by (by apply blank_newline). done.
  - change (join sep (JSON_pretty_at inner v :: map (JSON_pretty_at inner) (w :: l))) with
      (JSON_pretty_at inner v ++ sep ++ join sep (map (JSON_pretty_at inner) (w :: l))).
    rewrite <- !app_assoc. unfold sep at 1. cbn [app].
    rewrite Hv by (apply stops_sep; set_solver). cbn [mbind option_bind].
    rewrite skip_ws_id by done. rewrite IH by (try done; cbn in *; lia). done.
Qed.

Definition pretty_member (e : str * json) : str := let '(k, v) := e in quote k ++ js ": " ++ JSON_pretty_at inner v.

Lemma pretty_members l n rest :
  l <> [] -> Forall (fun e => reads (snd e)) l -> (length l <= n)%nat ->
  parse_members (parse_value fuel) n (newline :: inner ++ join sep (map pretty_member l) ++ newline :: indent ++ 125%N :: rest) =
  Some (l, rest).
Proof.
  intros Hne Hl. revert n. induction Hl as [|[k v] l Hv Hl IH]; intros n Hn; [done |].
  destruct n as [|n]; [cbn in Hn; lia |]. cbn [snd] in Hv.
  assert (forall tail, skip_ws (newline :: inner ++ pretty_member (k, v) ++ tail) =
    34%N :: quote_units k ++ dquote :: 58%N :: 32%N :: JSON_pretty_at inner v ++ tail) as Hhead.
  { intros tail. rewrite app_comm_cons, skip_blank by apply inner_blank. unfold pretty_member, quote.
    change (js ": ") with [58; 32]%N. cbn [app]. rewrite <- !app_assoc. rewrite skip_ws_id by done. done. }
  assert (forall tail, parse_value fuel (32%N :: JSON_pretty_at inner v ++ tail) = parse_value fuel (JSON_pretty_at inner v ++ tail)) as Hsp.
  { intros tail. apply (parse_value_blank fuel [32%N]). by repeat constructor. }
  cbn [parse_members map]. destruct l as [|w l].
  - cbn [join map]. rewrite Hhead, quote_units_parse. cbn [mbind option_bind].
    rewrite skip_ws_id by done. rewrite Hsp, Hv by (apply (stops_blank (newline :: indent)); [by apply blank_newline | set_solver]).
    cbn [mbind option_bind]. rewrite app_comm_cons, skip_blank by (by apply blank_newline). done.
  - change (join sep (pretty_member (k, v) :: map pretty_member (w :: l))) with
      (pretty_member (k, v) ++ sep ++ join sep (map pretty_member (w :: l))).
    rewrite <- (app_assoc (pretty_member (k, v))). rewrite Hhead, quote_units_parse. cbn [mbind option_bind].
    rewrite skip_ws_id by done. rewrite <- app_assoc. unfold sep at 1. cbn [app].
    rewrite Hsp, Hv by (apply stops_sep; set_solver). cbn [mbind option_bind].
    rewrite skip_ws_id by done. rewrite IH by (try done; cbn in *; lia). done.
Qed.
End Collections.

Definition reads_at (fuel : nat) (indent : str) (v : json) : Prop :=
  forall rest, stops rest -> parse_value fuel (JSON_pretty_at indent v ++ rest) = Some (v, rest).

(** A value without elements prints as before. *)
Lemma pretty_flat fuel indent v :
  json_ok v -> JSON_pretty_at indent v = JSON_stringify v -> (length (JSON_pretty_at indent v) < fuel)%nat -> reads_at fuel indent v.
Proof. intros Hok E Hf rest Hr. rewrite E in *. by apply parse_value_ok. Qed.

Lemma join_length_any sep (l : list str) :
  sep <> [] -> (length l <= S (length (join sep l)))%nat.
Proof.
  intros Hs. assert (1 <= length sep)%nat by (destruct sep; [done | cbn; lia]).
  induction l as [|u l IH]; [cbn; lia |]. destruct l as [|w l]; [cbn; lia |].
  change (join sep (u :: w :: l)) with (u ++ sep ++ join sep (w :: l)). rewrite !length_app. cbn [length] in *. lia.
Qed.

Lemma pretty_head indent v :
  json_ok v -> exists c s, JSON_pretty_at indent v = c :: s /\ is_ws c = false /\ c <> 93%N /\ c <> 125%N.
Proof.
  intros Hok. destruct (stringify_head v Hok) as (c & s & E & H).
  destruct v as [| | | |[|x l]|[|x l]]; try (by exists c, s); eexists _, _; (split; [reflexivity | done]).
Qed.

Lemma pretty_array fuel indent x l rest :
  blank indent -> json_ok x -> Forall (reads_at fuel (indent ++ two_spaces)) (x :: l) ->
  parse_value (S fuel) (JSON_pretty_at indent (JArr (x :: l)) ++ rest) = Some (JArr (x :: l), rest).
Proof.
  intros Hb Hx Hl. set (inner := indent ++ two_spaces) in *. set (sep := 44%N :: newline :: inner).
  set (body := newline :: inner ++ join sep (map (JSON_pretty_at inner) (x :: l)) ++ newline :: indent ++ 93%N :: rest).
  assert (JSON_pretty_at indent (JArr (x :: l)) ++ rest = 91%N :: body) as ->.
  { unfold body. change (JSON_pretty_at indent (JArr (x :: l))) with
      (js "[" ++ newline :: inner ++ join sep (map (JSON_pretty_at inner) (x :: l)) ++ newline :: indent ++ js "]").
    cbn [app js]. change (js "[") with [91%N]. change (js "]") with [93%N]. cbn [app].
    by rewrite <- !app_assoc, <- app_comm_cons, <- app_assoc. }
  assert (eat 93 (skip_ws body) = None) as He.
  { destruct (pretty_head inner x Hx) as (c & t & E & Hw & Hc & _).
    unfold body. rewrite app_comm_cons, skip_blank by (by apply blank_newline, blank_inner).
    assert (exists u, join sep (map (JSON_pretty_at inner) (x :: l)) = c :: u) as [u ->]
      by (cbn [map join]; rewrite E; destruct (map (JSON_pretty_at inner) l); cbn [app]; eauto).
    cbn [app]. rewrite skip_ws_id by done. cbn. by destruct (N.eqb_spec c 93). }
  cbn [parse_value]. rewrite skip_ws_id by done. cbn [N.eqb Pos.eqb]. rewrite He.
  unfold body at 2. unfold sep, inner. rewrite (pretty_elems fuel indent Hb (x :: l)); [done | done | exact Hl |].
  unfold body. cbn [length]. rewrite !length_app.
  pose proof (join_length_any sep (map (JSON_pretty_at inner) (x :: l)) ltac:(done)) as Hj. rewrite length_map in Hj. cbn [length] in *. lia.
Qed.

Lemma pretty_object fuel indent e l rest :
  blank indent -> obj_of (e :: l) = e :: l ->
  Forall (fun e => reads_at fuel (indent ++ two_spaces) (snd e)) (e :: l) ->
  parse_value (S fuel) (JSON_pretty_at indent (JObj (e :: l)) ++ rest) = Some (JObj (e :: l), rest).
Proof.
  intros Hb Ho Hl. set (inner := indent ++ two_spaces) in *. set (sep := 44%N :: newline :: inner).
  set (body := newline :: inner ++ join sep (map (pretty_member indent) (e :: l)) ++ newline :: indent ++ 125%N :: rest).
  assert (JSON_pretty_at indent (JObj (e :: l)) ++ rest = 123%N :: body) as ->.
  { unfold body. change (JSON_pretty_at indent (JObj (e :: l))) with
      (js "{" ++ newline :: inner ++ join sep (map (pretty_member indent) (e :: l)) ++ newline :: indent ++ js "}").
    change (js "{") with [123%N]. change (js "}") with [125%N]. cbn [app].
    by rewrite <- !app_assoc, <- app_comm_cons, <- app_assoc. }
  assert (eat 125 (skip_ws body) = None) as He.
  { unfold body. rewrite app_comm_cons, skip_blank by (by apply blank_newline, blank_inner).
    assert (exists u, join sep (map (pretty_member indent) (e :: l)) = 34%N :: u) as [u ->]
      by (cbn [map join]; destruct e as [k v]; unfold pretty_member, quote;
          destruct (map _ l); cbn [app]; eauto).
    cbn [app]. by rewrite skip_ws_id. }
  cbn [parse_value]. rewrite skip_ws_id by done. cbn [N.eqb Pos.eqb]. rewrite He.
  unfold body at 2. unfold sep, inner. rewrite (pretty_members fuel indent Hb (e :: l)); [| done | exact Hl |].
  - cbn [mbind option_bind]. by rewrite Ho.
  - unfold body. cbn [length]. rewrite !length_app.
    pose proof (join_length_any sep (map (pretty_member indent) (e :: l)) ltac:(done)) as Hj. rewrite length_map in Hj. cbn [length] in *. lia.
Qed.

Lemma element_shorter inner x l indent :
  x ∈ l -> (length (JSON_pretty_at inner x) <= length (join (44%N :: newline :: indent) (map (JSON_pretty_at inner) l)))%nat.
Proof. intros H. by apply join_length_elem, elem_of_map. Qed.

Lemma pretty_value_ok v :
  json_ok v -> forall indent fuel, blank indent -> (length (JSON_pretty_at indent v) < fuel)%nat -> reads_at fuel indent v.
Proof.
  induction v as [|b|n|s|l IH|l IH] using json_rect_nested; intros Hok indent fuel Hb Hf;
    try (apply pretty_flat; [done | reflexivity | done]).
  - destruct l as [|x l]; [by apply pretty_flat |]. destruct fuel as [|fuel]; [lia |]. intros rest Hr.
    apply json_ok_arr in Hok. apply pretty_array; [done | by inv Hok |].
    rewrite Forall_forall in IH, Hok |- *. intros w Hw. apply IH; [done | by apply Hok | by apply blank_inner |].
    apply (element_shorter (indent ++ two_spaces) w (x :: l) (indent ++ two_spaces)) in Hw.
    change (JSON_pretty_at indent (JArr (x :: l))) with (js "[" ++ newline :: (indent ++ two_spaces) ++
      join (44%N :: newline :: indent ++ two_spaces) (map (JSON_pretty_at (indent ++ two_spaces)) (x :: l)) ++ newline :: indent ++ js "]") in Hf.
    rewrite length_app in Hf. change (length (js "[")) with 1%nat in Hf. cbn [length] in Hf. rewrite !length_app in Hf. lia.
  - destruct l as [|e l]; [by apply pretty_flat |]. destruct fuel as [|fuel]; [lia |]. intros rest Hr.
    apply json_ok_obj in Hok as [Hok Ho]. apply pretty_object; [done | done |].
    rewrite Forall_forall in IH, Hok |- *. intros [k w] Hw.
    apply (IH (k, w)); [done | by apply (Hok (k, w)) | by apply blank_inner |].
    apply (elem_of_map (pretty_member indent)), (join_length_elem (44%N :: newline :: indent ++ two_spaces)) in Hw.
    change (JSON_pretty_at indent (JObj (e :: l))) with (js "{" ++ newline :: (indent ++ two_spaces) ++
      join (44%N :: newline :: indent ++ two_spaces) (map (pretty_member indent) (e :: l)) ++ newline :: indent ++ js "}") in Hf.
    rewrite length_app in Hf. change (length (js "{")) with 1%nat in Hf. cbn [length] in Hf. rewrite !length_app in Hf.
    change (pretty_member indent (k, w)) with (quote k ++ js ": " ++ JSON_pretty_at (indent ++ two_spaces) w) in Hw.
    cbn [snd]. rewrite (length_app (quote k)), (length_app (js ": ")) in Hw. lia.
Qed.

(** A value printed with [JSON.stringify(v, null, 2)] reads back as itself. *)
Lemma pretty_roundtrip v : json_ok v -> JSON_parse (JSON_pretty v) = Some v.
Proof.
  intros Hok. unfold JSON_parse, JSON_pretty.
  assert (reads_at (S (length (JSON_pretty_at [] v))) [] v) as H by (apply pretty_value_ok; [done | constructor | lia]).
  specialize (H [] ltac:(by intros ? ? ?)). rewrite app_nil_r in H. by rewrite H.
Qed.

(** ** [safeJsonParse] *)

(** [undefined] or [null] is [None]; the result is the fallback when the text is
    blank or is no JSON text.  [fallback ?? null] is resolved by the caller. *)
Definition safeJsonParse (value : option str) (fallback : json) : json :=
  match value with
  | None => fallback
  | Some value =>
      if negb (truthy value) || negb (truthy (trim value)) then fallback
      else default fallback (JSON_parse (trim value))
  end.

Definition safeJsonParseWithValidation (value : option str) (fallback : json) (validator : json -> bool) : json :=
  let parsed := safeJsonParse value fallback in
  if negb (validator parsed) then fallback else parsed.

Inductive JsonParseResult := ParseData (data : json) | ParseError (error : option str).

(** The text of a [SyntaxError] is the engine's: [ParseError None]. *)
Definition tryJsonParse (value : option str) : JsonParseResult :=
  match value with
  | None => ParseError (Some (js "Empty value"))
  | Some value =>
      if negb (truthy value) || negb (truthy (trim value)) then ParseError (Some (js "Empty value"))
      else match JSON_parse (trim value) with Some data => ParseData data | None => ParseError None end
  end.

Lemma trimmed_braces m : trimmed (123%N :: m ++ [125%N]).
Proof. split; [done |]. by rewrite app_comm_cons, last_snoc. Qed.

Lemma pretty_obj_shape l : exists m, JSON_pretty (JObj l) = 123%N :: m ++ [125%N].
Proof.
  destruct l as [|e l]; [by exists [] |].
  assert (forall a b c : str, exists m, a ++ b ++ c ++ js "}" = m ++ [125%N]) as Hs
    by (intros a b c; exists (a ++ b ++ c); by rewrite <- !app_assoc).
  destruct (Hs (newline :: two_spaces) (join (44%N :: newline :: two_spaces) (map (pretty_member []) (e :: l))) [newline]) as [m Hm].
  exists m. by rewrite <- Hm.
Qed.

(** An object written with indentation is read back by [safeJsonParse]. *)
Lemma safeJsonParse_pretty l fallback : json_ok (JObj l) -> safeJsonParse (Some (JSON_pretty (JObj l))) fallback = JObj l.
Proof.
  intros Hok. unfold safeJsonParse. destruct (pretty_obj_shape l) as [m E].
  assert (trim (JSON_pretty (JObj l)) = JSON_pretty (JObj l)) as -> by (rewrite E; apply trimmed_trim, trimmed_braces).
  rewrite pretty_roundtrip by done. by rewrite E.
Qed.
