(* ===== verification/JsonObject.v ===== *)
(** * JSON objects that are changed

    [o[k]], [o[k] = v] and [delete o[k]] on an object read with [JSON.parse]: the
    enumeration order is kept, and a changed object still survives printing. *)
From S2P Require Import Prelude Number Regex Json JsonPretty.

Abbreviation entries := (list (str * json)).

Definition obj_set {V} (k : str) (v : V) (l : list (str * V)) : list (str * V) := order_keys (map_set k v l).
Definition obj_delete {V} (k : str) (l : list (str * V)) : list (str * V) :=
  List.filter (fun e => negb (str_eqb (fst e) k)) l.

(** The keys are distinct and in enumeration order. *)
Definition obj_wf {V} (l : list (str * V)) : Prop := NoDup l.*1 /\ order_keys l = l.

(** ** Reading members *)

(** [Object.entries(v)], which throws for [null]; arrays and texts have their indices. *)
Definition index_entries {A} (f : A -> json) (l : list A) : list (str * json) :=
  imap (fun i x => (show_N (N.of_nat i), f x)) l.
Definition entries_of (v : json) : option (list (str * json)) :=
  match v with
  | JNull => None
  | JObj l => Some l
  | JArr l => Some (index_entries id l)
  | JStr s => Some (index_entries (fun c => JStr [c]) s)
  | JBool _ | JNum _ => Some []
  end.

(** [v.key] of a value that is not [null]. *)
Definition member (v : json) (key : str) : option json := map_get key (default [] (entries_of v)).

(** One round of a loop over entries that assigns to a result: [g] gives the value for the key,
    from the entry and the value there is, or [None] when the entry is passed over. *)
Definition put_entry {W V} (g : str -> W -> option V -> option V) (r : list (str * V)) (e : str * W) : list (str * V) :=
  match g (fst e) (snd e) (map_get (fst e) r) with Some v => obj_set (fst e) v r | None => r end.

(** ** Enumeration order *)

Definition index_cmp {V} (a b : str * V) : Z := (Z.of_N (digits_val (fst a)) - Z.of_N (digits_val (fst b)))%Z.

Lemma index_preorder {V} : preorder_cmp (@index_cmp V).
Proof. apply (asc_preorder (fun e : str * V => Z.of_N (digits_val (fst e)))). Qed.

Section Order.
Context {V : Type}.
Implicit Types l : list (str * V).

Lemma filter_In_Forall (f : str * V -> bool) l : Forall (fun e => f e = true) (List.filter f l).
Proof. apply Forall_forall. intros e He%list_elem_of_In. by apply filter_In in He as [_ ?]. Qed.

Lemma filter_all (f : str * V -> bool) l : Forall (fun e => f e = true) l -> List.filter f l = l.
Proof. induction 1 as [|e l He _ IH]; cbn; [done |]. by rewrite He, IH. Qed.

Lemma filter_none (f : str * V -> bool) l : Forall (fun e => f e = false) l -> List.filter f l = [].
Proof. induction 1 as [|e l He _ IH]; cbn; [done |]. by rewrite He, IH. Qed.

Lemma filter_perm_split (f : str * V -> bool) l : List.filter f l ++ List.filter (fun e => negb (f e)) l ≡ₚ l.
Proof.
  induction l as [|e l IH]; cbn; [done |]. destruct (f e); cbn; [by rewrite IH |].
  by rewrite <- Permutation_middle, IH.
Qed.

Lemma order_keys_perm l : order_keys l ≡ₚ l.
Proof. unfold order_keys. rewrite sort_by_perm. apply filter_perm_split. Qed.

(** An ordered object: sorted integer keys, then other keys. *)
Lemma order_keys_shape (a b : list (str * V)) :
  cmp_sorted index_cmp a -> Forall (fun e => is_index (fst e) = true) a -> Forall (fun e => is_index (fst e) = false) b ->
  order_keys (a ++ b) = a ++ b.
Proof.
  intros Hs Ha Hb. unfold order_keys. rewrite !List.filter_app.
  rewrite (filter_all _ a), (filter_none _ b), app_nil_r by done. rewrite (filter_none _ a), (filter_all _ b).
  - cbn [app]. f_equal. by apply sort_by_id.
  - eapply Forall_impl; [exact Hb |]. by intros e ->.
  - eapply Forall_impl; [exact Ha |]. by intros e ->.
Qed.

Lemma order_keys_parts l :
  exists a b, order_keys l = a ++ b /\ cmp_sorted index_cmp a /\
    Forall (fun e => is_index (fst e) = true) a /\ Forall (fun e => is_index (fst e) = false) b.
Proof.
  eexists _, _. split; [reflexivity |]. split; [apply sort_by_sorted_pre, index_preorder |]. split.
  - rewrite sort_by_perm. apply filter_In_Forall.
  - eapply Forall_impl; [apply filter_In_Forall |]. intros e He. by apply negb_true_iff.
Qed.

Lemma order_keys_idemp l : order_keys (order_keys l) = order_keys l.
Proof. destruct (order_keys_parts l) as (a & b & -> & H1 & H2 & H3). by apply order_keys_shape. Qed.

Lemma sorted_filter (f : str * V -> bool) (a : list (str * V)) : cmp_sorted index_cmp a -> cmp_sorted index_cmp (List.filter f a).
Proof.
  unfold cmp_sorted. induction 1 as [|e a Ha IH He]; cbn; [constructor |]. destruct (f e); [| done].
  constructor; [done |]. rewrite Forall_forall in *. intros x Hx. apply He.
  apply list_elem_of_In, filter_In in Hx as [Hx _]. by apply list_elem_of_In.
Qed.

Lemma filter_Forall (P : str * V -> Prop) (f : str * V -> bool) l : Forall P l -> Forall P (List.filter f l).
Proof.
  rewrite !Forall_forall. intros H e He%list_elem_of_In. apply filter_In in He as [He _]. by apply H, list_elem_of_In.
Qed.

Lemma order_keys_filter (f : str * V -> bool) l : order_keys l = l -> order_keys (List.filter f l) = List.filter f l.
Proof.
  intros H. destruct (order_keys_parts l) as (a & b & E & H1 & H2 & H3). rewrite H in E. subst l.
  rewrite List.filter_app. apply order_keys_shape; auto using sorted_filter, filter_Forall.
Qed.
End Order.

(** ** Well-formedness *)

Section Wf.
Context {V : Type}.
Implicit Types l m : list (str * V).

Lemma obj_wf_perm_NoDup l m : l ≡ₚ m -> NoDup l.*1 -> NoDup m.*1.
Proof. by intros ->. Qed.

Lemma obj_set_wf k (v : V) l : obj_wf l -> obj_wf (obj_set k v l).
Proof.
  intros [Hn _]. split; [| apply order_keys_idemp].
  apply (obj_wf_perm_NoDup (map_set k v l)); [symmetry; apply order_keys_perm | by apply map_set_NoDup].
Qed.

Lemma obj_delete_keys k l : (obj_delete k l).*1 = List.filter (fun x => negb (str_eqb x k)) l.*1.
Proof. unfold obj_delete. induction l as [|[x v] l IH]; cbn; [done |]. destruct (str_eqb x k); cbn; by rewrite IH. Qed.

Lemma obj_delete_wf k l : obj_wf l -> obj_wf (obj_delete k l).
Proof.
  intros [Hn Ho]. split; [| by apply order_keys_filter].
  rewrite obj_delete_keys. apply NoDup_ListNoDup. apply NoDup_ListNoDup in Hn. by apply List.NoDup_filter.
Qed.

Lemma foldl_map_set_wf m l : NoDup m.*1 -> NoDup (foldl (fun m e => map_set (fst e) (snd e) m) m l).*1.
Proof. revert m. induction l as [|e l IH]; intros m H; cbn; [done |]. by apply IH, map_set_NoDup. Qed.

Lemma obj_of_wf l : obj_wf (obj_of l).
Proof.
  split; [| apply order_keys_idemp].
  apply (obj_wf_perm_NoDup (foldl (fun m e => map_set (fst e) (snd e) m) [] l)); [symmetry; apply order_keys_perm |].
  apply foldl_map_set_wf. constructor.
Qed.

Lemma map_set_fresh k (v : V) m : k ∉ m.*1 -> map_set k v m = m ++ [(k, v)].
Proof.
  induction m as [|[x w] m IH]; cbn; [done |]. rewrite not_elem_of_cons. intros [Hx Hm].
  rewrite decide_False by done. by rewrite IH.
Qed.

Lemma foldl_map_set_id m l :
  NoDup (m ++ l).*1 -> foldl (fun m e => map_set (fst e) (snd e) m) m l = m ++ l.
Proof.
  revert m. induction l as [|[k v] l IH]; intros m H; cbn; [by rewrite app_nil_r |].
  rewrite fmap_app in H. cbn in H. rewrite map_set_fresh.
  - rewrite IH; [by rewrite <- app_assoc |]. rewrite <- app_assoc, fmap_app. exact H.
  - apply NoDup_app in H as (_ & H & _). intros Hk. apply (H k Hk). set_solver.
Qed.

Lemma obj_wf_of l : obj_wf l <-> obj_of l = l.
Proof.
  split; [| intros <-; apply obj_of_wf]. intros [Hn Ho]. unfold obj_of. by rewrite (foldl_map_set_id [] l).
Qed.

(** ** Reading *)

Lemma map_get_perm k l m : NoDup l.*1 -> l ≡ₚ m -> map_get k l = map_get k m.
Proof.
  intros Hn Hp. assert (NoDup m.*1) as Hm by (by apply (obj_wf_perm_NoDup l)).
  destruct (map_get k l) as [v|] eqn:E.
  - apply map_get_elem in E. symmetry. apply elem_map_get; [done |]. by rewrite <- Hp.
  - symmetry. apply map_get_None in E. apply map_get_None. by rewrite <- Hp.
Qed.

Lemma obj_get_set k k' (v : V) l :
  obj_wf l -> map_get k (obj_set k' v l) = if bool_decide (k = k') then Some v else map_get k l.
Proof.
  intros H. pose proof (obj_set_wf k' v l H) as [Hn _]. unfold obj_set in *.
  rewrite (map_get_perm k _ (map_set k' v l)) by (done || apply order_keys_perm).
  case_bool_decide as E; [subst; by rewrite map_get_set_eq | by rewrite map_get_set_ne].
Qed.

Lemma obj_get_delete k k' l : map_get k (obj_delete k' l) = if bool_decide (k = k') then None else map_get k l.
Proof.
  unfold obj_delete, str_eqb. induction l as [|[x v] l IH]; cbn; [by case_bool_decide |].
  destruct (decide (x = k')) as [->|Hx].
  - rewrite (bool_decide_eq_true_2 (k' = k')) by done. cbn. rewrite IH. case_bool_decide; [done |]. by rewrite decide_False.
  - rewrite (bool_decide_eq_false_2 (x = k')) by done. cbn. rewrite IH. destruct (decide (k = x)) as [->|]; [| done]. by rewrite bool_decide_eq_false_2.
Qed.

Lemma obj_set_elem k (v : V) l e : e ∈ obj_set k v l -> e = (k, v) \/ e ∈ l.
Proof.
  unfold obj_set. rewrite order_keys_perm. induction l as [|[x w] l IH]; cbn; [set_solver |].
  case_decide; subst; set_solver.
Qed.

Lemma obj_delete_elem k l e : e ∈ obj_delete k l -> e ∈ l.
Proof. unfold obj_delete. rewrite !list_elem_of_In, filter_In. tauto. Qed.
End Wf.

(** ** Changed objects survive printing *)

Lemma json_ok_wf l : json_ok (JObj l) <-> Forall (fun e => json_ok (snd e)) l /\ obj_wf l.
Proof. by rewrite json_ok_obj, obj_wf_of. Qed.

Lemma json_ok_set k v l : json_ok (JObj l) -> json_ok v -> json_ok (JObj (obj_set k v l)).
Proof.
  rewrite !json_ok_wf. intros [Hl Hw] Hv. split; [| by apply obj_set_wf].
  rewrite Forall_forall in *. intros e [->|He]%obj_set_elem; [done | by apply Hl].
Qed.

Lemma json_ok_delete k l : json_ok (JObj l) -> json_ok (JObj (obj_delete k l)).
Proof.
  rewrite !json_ok_wf. intros [Hl Hw]. split; [| by apply obj_delete_wf].
  rewrite Forall_forall in *. intros e He%obj_delete_elem. by apply Hl.
Qed.

(** An object is well-formed when it has distinct ordered keys and well-formed members. *)
Lemma json_ok_get l : obj_wf l -> (forall n v, map_get n l = Some v -> json_ok v) -> json_ok (JObj l).
Proof.
  intros Hwf H. apply json_ok_wf. split; [| done]. apply Forall_forall. intros [n v] Hin. apply (H n). apply elem_map_get; [apply Hwf | done].
Qed.

Lemma json_ok_member n v l : json_ok (JObj l) -> map_get n l = Some v -> json_ok v.
Proof. intros [Hf _]%json_ok_wf Hg%map_get_elem. rewrite Forall_forall in Hf. by apply (Hf (n, v)). Qed.

Lemma get_map_values {K A B} `{EqDecision K} (g : A -> B) (k : K) l :
  map_get k (map (fun '(k, x) => (k, g x)) l) = g <$> map_get k l.
Proof. induction l as [|[k' x] l IH]; [done |]. cbn. by case_decide. Qed.

(** ** Objects with changed values *)

Section MapValues.
Context {V W : Type} (g : V -> W).
Let f (e : str * V) : str * W := let '(k, v) := e in (k, g v).

Lemma filter_map_keys (p : str -> bool) l : List.filter (fun e => p (fst e)) (map f l) = map f (List.filter (fun e => p (fst e)) l).
Proof. induction l as [|[k v] l IH]; [done |]. cbn. destruct (p k); cbn; by rewrite IH. Qed.

Lemma sort_map_keys l : sort_by index_cmp (map f l) = map f (sort_by index_cmp l).
Proof.
  assert (forall e l, insert_by index_cmp (f e) (map f l) = map f (insert_by index_cmp e l)) as Hi.
  { intros [k v] l'. induction l' as [|[k' v'] l' IH]; [done |]. cbn. unfold index_cmp at 1 3. cbn [fst].
    destruct (_ <=? 0)%Z; [done |]. cbn. by f_equal. }
  induction l as [|e l IH]; [done |]. cbn [map sort_by]. by rewrite IH, Hi.
Qed.

Lemma order_keys_map l : order_keys (map f l) = map f (order_keys l).
Proof.
  unfold order_keys. rewrite map_app, (filter_map_keys is_index), (filter_map_keys (fun k => negb (is_index k))).
  f_equal. apply sort_map_keys.
Qed.

Lemma keys_map l : (map f l).*1 = l.*1.
Proof. rewrite <- list_fmap_compose. apply list_fmap_ext. by intros ? [? ?]. Qed.

Lemma obj_wf_map l : obj_wf l -> obj_wf (map f l).
Proof. intros [H1 H2]. split; [by rewrite keys_map | by rewrite order_keys_map, H2]. Qed.

Lemma obj_wf_unmap l : (forall x y, g x = g y -> x = y) -> obj_wf (map f l) -> obj_wf l.
Proof.
  intros Hg [H1 H2]. split; [by rewrite keys_map in H1 |]. rewrite order_keys_map in H2.
  assert (Inj (=) (=) f) as Hf by (intros [k v] [k' v'] [= -> ?%Hg]; by subst). by apply (list_fmap_eq_inj f) in H2.
Qed.
End MapValues.

(** ** Folding entries into an object *)

Lemma put_entry_get {W V} (g : str -> W -> option V -> option V) base l k :
  obj_wf base -> NoDup l.*1 ->
  obj_wf (foldl (put_entry g) base l) /\
  map_get k (foldl (put_entry g) base l) =
  match map_get k l with
  | Some v => match g k v (map_get k base) with Some x => Some x | None => map_get k base end
  | None => map_get k base
  end.
Proof.
  intros Hb Hn. revert base Hb. induction l as [|[x v] l IH]; intros base Hb; [done |].
  rewrite fmap_cons in Hn. apply NoDup_cons in Hn as [Hx Hn]. simpl foldl.
  assert (Hput : obj_wf (put_entry g base (x, v)) /\
    forall k', map_get k' (put_entry g base (x, v)) =
      if bool_decide (k' = x) then match g x v (map_get x base) with Some y => Some y | None => map_get x base end
      else map_get k' base).
  { unfold put_entry. simpl. destruct (g x v (map_get x base)) as [y|].
    - split; [by apply obj_set_wf |]. intros k'. by rewrite obj_get_set.
    - split; [done |]. intros k'. case_bool_decide; by subst. }
  destruct Hput as [Hw Hg]. destruct (IH Hn _ Hw) as [Hw2 Hk]. split; [done |]. rewrite Hk, !Hg. simpl.
  destruct (decide (k = x)) as [->|Hne].
  - rewrite bool_decide_true by done. simpl in Hx. apply map_get_None in Hx. by rewrite Hx.
  - by rewrite bool_decide_false.
Qed.

(** Reads the key [k] of a loop's result. *)
Ltac read_loop k :=
  match goal with |- context [foldl (put_entry ?g) ?b ?l] =>
    let Hw := fresh "Hw" in let Hg := fresh "Hg" in destruct (put_entry_get g b l k) as [Hw Hg]; [.. | rewrite Hg; clear Hg] end.

(** Assigning a list of entries. *)
Lemma spread_get {V} k (base l : list (str * V)) :
  obj_wf base -> NoDup l.*1 ->
  obj_wf (foldl (fun r e => obj_set (fst e) (snd e) r) base l) /\
  map_get k (foldl (fun r e => obj_set (fst e) (snd e) r) base l) =
  match map_get k l with Some v => Some v | None => map_get k base end.
Proof. exact (put_entry_get (fun _ v _ => Some v) base l k). Qed.

Lemma foldl_put_inv {W V} (P : list (str * V) -> Prop) (g : str -> W -> option V -> option V) l base :
  P base -> (forall r e v, P r -> g (fst e) (snd e) (map_get (fst e) r) = Some v -> P (obj_set (fst e) v r)) ->
  P (foldl (put_entry g) base l).
Proof.
  intros Hb Hstep. revert base Hb. induction l as [|e l IH]; intros base Hb; [done |]. cbn. apply IH.
  unfold put_entry. destruct (g _ _ _) eqn:E; [by eapply Hstep | done].
Qed.

(** ** Texts of objects *)

Lemma object_text_trim l : truthy (JSON_stringify (JObj l)) = true /\ truthy (trim (JSON_stringify (JObj l))) = true.
Proof.
  split; [done |]. rewrite trimmed_trim; [done |].
  exact (trimmed_braces (join (js ",") (map (fun '(k, v) => quote k ++ js ":" ++ JSON_stringify v) l))).
Qed.

Lemma map_json_ok {V} (g : V -> json) (l : list (str * V)) :
  obj_wf l -> (forall k v, map_get k l = Some v -> json_ok (g v)) -> json_ok (JObj (map (fun '(k, v) => (k, g v)) l)).
Proof.
  intros Hw Hg. apply json_ok_get; [by apply obj_wf_map |]. intros k j. rewrite get_map_values.
  destruct (map_get k l) as [v|] eqn:E; [| done]. intros [= <-]. by apply (Hg k).
Qed.
