(* ===== verification/BillingExpr.v ===== *)
(** * Billing expressions

    Model of [features/pricing/lib/billing-expr.ts]: the tier parser, the parser
    and the printer of request rules (conditional multipliers), and the splitting
    and combining of a billing expression with its request rules.  Regular
    expressions are transcribed piece by piece into [Regex]; a thrown
    [SyntaxError] of [JSON.parse] is a value of [outcome].

    Left out: [normalizeTierLabel], which needs the Unicode case tables. *)
From S2P Require Import Prelude Number Regex Json.

(** ** Variable registry *)

Inductive VarSide := SideInput | SideOutput | SideCondition.

Record BillingVar := mkVar {
  bv_key : str; bv_field : option str; bv_tierField : option str; bv_label : str;
  bv_shortLabel : str; bv_side : VarSide; bv_isBase : bool; bv_isConditionOnly : bool;
  bv_group : option str
}.

Definition BILLING_VARS : list BillingVar := [
  mkVar (js "p") (Some (js "inputPrice")) (Some (js "input_unit_cost")) (js "Input price")
    (js "Input") SideInput true false None;
  mkVar (js "c") (Some (js "outputPrice")) (Some (js "output_unit_cost")) (js "Completion price")
    (js "Output") SideOutput true false None;
  mkVar (js "len") None None (js "Input length") (js "Length") SideCondition false true None;
  mkVar (js "cr") (Some (js "cacheReadPrice")) (Some (js "cache_read_unit_cost"))
    (js "Cache read price") (js "Cache Read") SideInput false false (Some (js "cache"));
  mkVar (js "cc") (Some (js "cacheCreatePrice")) (Some (js "cache_create_unit_cost"))
    (js "Cache create price") (js "Cache Write") SideInput false false (Some (js "cache"));
  mkVar (js "cc1h") (Some (js "cacheCreate1hPrice")) (Some (js "cache_create_1h_unit_cost"))
    (js "Cache create (1h) price") (js "Cache Write (1h)") SideInput false false (Some (js "cache"));
  mkVar (js "img") (Some (js "imagePrice")) (Some (js "image_unit_cost")) (js "Image input price")
    (js "Image In") SideInput false false (Some (js "media"));
  mkVar (js "img_o") (Some (js "imageOutputPrice")) (Some (js "image_output_unit_cost"))
    (js "Image output price") (js "Image Out") SideOutput false false (Some (js "media"));
  mkVar (js "ai") (Some (js "audioInputPrice")) (Some (js "audio_input_unit_cost"))
    (js "Audio input price") (js "Audio In") SideInput false false (Some (js "media"));
  mkVar (js "ao") (Some (js "audioOutputPrice")) (Some (js "audio_output_unit_cost"))
    (js "Audio output price") (js "Audio Out") SideOutput false false (Some (js "media"))
].

Definition BILLING_PRICING_VARS : list BillingVar :=
  List.filter (fun v => negb (bv_isConditionOnly v)) BILLING_VARS.
Definition BILLING_CONDITION_VARS : list str :=
  map bv_key (List.filter (fun v => bv_isBase v || bv_isConditionOnly v) BILLING_VARS).
Definition BILLING_VAR_KEY_TO_FIELD : list (str * str) :=
  map (fun v => (bv_key v, default [] (bv_field v))) BILLING_PRICING_VARS.
Definition BILLING_EXTRA_VARS : list BillingVar :=
  List.filter (fun v => negb (bv_isBase v) && negb (bv_isConditionOnly v)) BILLING_VARS.
(** Pairs of a tier field and its variable. *)
Definition BILLING_CACHE_VAR_MAP : list (str * str) :=
  map (fun v => (default [] (bv_tierField v), bv_key v)) BILLING_EXTRA_VARS.

(** ** Shared pieces of the regular expressions *)

Definition lits (l : list str) : regex := ralt (map rlit l).
(** White space, and the unit classes of numbers without and with a minus sign. *)
Definition spaces : regex := RStar (RChar is_space).
Definition is_unsigned_char (c : N) : bool := is_digit c || one_of (js ".eE+") c.
Definition is_number_char (c : N) : bool := is_digit c || one_of (js ".eE+-") c.
Definition unsigned_chars : regex := RPlus (RChar is_unsigned_char).
Definition number_chars : regex := RPlus (RChar is_number_char).
(** One or more units that are not a double quote. *)
Definition not_quote : regex := RPlus (RChar (none_of [dquote])).

Definition NUMERIC_LITERAL_REGEX : regex :=
  ranch (rseq [ROpt (rlit (js "-"));
    RAlt (rseq [digits_plus; ROpt (rlit (js ".")); RStar (RChar is_digit)])
      (RSeq (rlit (js ".")) digits_plus);
    ROpt (rseq [RChar (one_of (js "eE")); ROpt (RChar (one_of (js "+-"))); digits_plus])]).

(** A word boundary, a variable, a star between white space, a number. *)
Definition BILLING_VAR_REGEX : regex :=
  rseq [RWordB; RGroup 1 (lits (map bv_key BILLING_PRICING_VARS)); spaces; rlit (js "*"); spaces;
        RGroup 2 number_chars].

(** [s.split(re)] for an expression that never matches the empty text. *)
Fixpoint rsplit_from (fuel : nat) (r : regex) (prev : option N) (s : str) : list str :=
  match fuel with
  | O => [s]
  | S fuel =>
      match rexec_from r prev s with
      | Some res =>
          take (length s - length (rr_text res) - length (m_post (rr_rest res))) s
          :: rsplit_from fuel r (m_prev (rr_rest res)) (m_post (rr_rest res))
      | None => [s]
      end
  end.
Definition rsplit (r : regex) (s : str) : list str := rsplit_from (S (length s)) r None s.

(** ** Tier parser *)

Record TierCondition := mkTierCond { tc_var : str; tc_op : str; tc_value : num }.
(** The price fields of the tier are an association list in registry order. *)
Record ParsedTier := mkTier {
  t_label : str; t_conditions : list TierCondition; t_prices : list (str * num)
}.

(** A version prefix such as [v1:], then anything. *)
Definition stripExprVersion (exprStr : str) : num * str :=
  if negb (truthy exprStr) then (n_of_Z 1, [])
  else match rexec (ranch (rseq [rlit (js "v"); RGroup 1 digits_plus; rlit (js ":");
                                 RGroup 2 (RStar (RChar (fun _ => true)))])) exprStr with
       | Some m => (num_of_str (default [] (cap 1 m)), default [] (cap 2 m))
       | None => (n_of_Z 1, exprStr)
       end.

Definition parseTierBody (bodyStr : str) : list (str * num) :=
  let coeffs := foldl (fun coeffs m =>
    let name := default [] (cap 1 m) in
    if map_has name coeffs then coeffs
    else map_set name (num_of_str (default [] (cap 2 m))) coeffs) [] (rexec_all BILLING_VAR_REGEX bodyStr) in
  map (fun '(varName, field) => (field, n_or_zero (default n_nan (map_get varName coeffs))))
    BILLING_VAR_KEY_TO_FIELD.

Definition tier_var : regex := lits [js "p"; js "c"; js "len"].
Definition tier_op : regex := lits [js "<"; js "<="; js ">"; js ">="].
Definition condGroup : regex :=
  RSeq (rseq [tier_var; spaces; tier_op; spaces; unsigned_chars])
    (RStar (rseq [spaces; rlit (js "&&"); spaces; tier_var; spaces; tier_op; spaces; unsigned_chars])).
Definition tierRe : regex :=
  RSeq (ROpt (rseq [RGroup 1 condGroup; spaces; rlit (js "?"); spaces]))
    (rseq [rlit (jsq "tier('"); RGroup 2 (RStar (RChar (none_of [dquote]))); rlit (jsq "',"); spaces;
           RGroup 3 (RPlus (RChar (none_of (js ")")))); rlit (js ")")]).
Definition tier_cond_re : regex :=
  ranch (rseq [RGroup 1 tier_var; spaces; RGroup 2 tier_op; spaces; RGroup 3 unsigned_chars]).

Definition parse_tier_conditions (condStr : str) : list TierCondition :=
  if negb (truthy condStr) then []
  else omap (fun cp =>
         cm ← rexec tier_cond_re (trim cp);
         Some (mkTierCond (default [] (cap 1 cm)) (default [] (cap 2 cm))
                 (num_of_str (default [] (cap 3 cm)))))
       (rsplit (rseq [spaces; rlit (js "&&"); spaces]) condStr).

Definition parseTiersFromExpr (exprStr : str) : list ParsedTier :=
  if negb (truthy exprStr) then []
  else
    let '(_, body) := stripExprVersion exprStr in
    map (fun m => mkTier (default [] (cap 2 m)) (parse_tier_conditions (default [] (cap 1 m)))
                    (parseTierBody (default [] (cap 3 m))))
      (rexec_all tierRe body).

Example tiers_ex :
  map (fun t => (t_label t, map (fun c => (tc_var c, tc_op c, num_to_str (tc_value c))) (t_conditions t),
                 map (fun '(f, x) => (f, num_to_str x)) (List.filter (fun '(_, x) => n_truthy x) (t_prices t))))
    (parseTiersFromExpr (jsq "v1:len <= 200000 && c<1e3 ? tier('base', p * 2.5 + c * 15 + cr * 0.25) : tier('long', p*5 +img_o * 3)"))
  = [(js "base", [(js "len", js "<=", js "200000"); (js "c", js "<", js "1000")],
      [(js "inputPrice", js "2.5"); (js "outputPrice", js "15"); (js "cacheReadPrice", js "0.25")]);
     (js "long", [], [(js "inputPrice", js "5"); (js "imageOutputPrice", js "3")])].
Proof. vm_compute. reflexivity. Qed.

(** ** Request rules: data *)

Definition MATCH_EQ : str := js "eq".
Definition MATCH_CONTAINS : str := js "contains".
Definition MATCH_GT : str := js "gt".
Definition MATCH_GTE : str := js "gte".
Definition MATCH_LT : str := js "lt".
Definition MATCH_LTE : str := js "lte".
Definition MATCH_EXISTS : str := js "exists".
Definition MATCH_RANGE : str := js "range".

Definition TIME_FUNCS : list str := [js "hour"; js "minute"; js "weekday"; js "month"; js "day"].

Inductive PHSource := SOURCE_PARAM | SOURCE_HEADER.

Record ParamHeaderCondition := mkPH {
  ph_source : PHSource; ph_path : str; ph_mode : str; ph_value : str
}.
Record TimeCondition := mkTime {
  tm_timeFunc : str; tm_timezone : str; tm_mode : str; tm_value : str;
  tm_rangeStart : str; tm_rangeEnd : str
}.
Inductive RequestCondition := CTime (c : TimeCondition) | CPH (c : ParamHeaderCondition).

Record RequestRuleGroup := mkGroup { g_conditions : list RequestCondition; g_multiplier : str }.

(** What a parser does: a result, [null], or a thrown error. *)
Inductive outcome (A : Type) := Found (a : A) | Null | Throws.
Arguments Found {A} a.
Arguments Null {A}.
Arguments Throws {A}.

Definition outcome_bind {A B} (x : outcome A) (f : A -> outcome B) : outcome B :=
  match x with Found a => f a | Null => Null | Throws => Throws end.

(** A loop that stops at the first element without a result. *)
Fixpoint outcome_map {A B} (f : A -> outcome B) (l : list A) : outcome (list B) :=
  match l with
  | [] => Found []
  | x :: l => outcome_bind (f x) (fun y => outcome_bind (outcome_map f l) (fun ys => Found (y :: ys)))
  end.

(** ** Request rules: parser *)

(** The scan of [splitTopLevelMultiply] and [splitTopLevelAnd]: [cur] is the
    current piece reversed, [skip] the units of a separator still to pass. *)
Fixpoint split_top (sep : str) (depth : Z) (cur : str) (skip : nat) (s : str) : list str :=
  match s with
  | [] => [trim (reverse cur)]
  | c :: r =>
      match skip with
      | S n => split_top sep depth cur n r
      | O =>
          let depth := (if (c =? 40)%N then depth + 1 else depth)%Z in
          let depth := (if (c =? 41)%N then depth - 1 else depth)%Z in
          if (depth =? 0)%Z && starts_with s sep
          then trim (reverse cur) :: split_top sep depth [] (length sep - 1) r
          else split_top sep depth (c :: cur) 0 r
      end
  end.

Definition splitTopLevelMultiply (expr : str) : list str :=
  List.filter truthy (split_top (js " * ") 0 [] 0 expr).
Definition splitTopLevelAnd (expr : str) : list str :=
  List.filter truthy (split_top (js " && ") 0 [] 0 expr).

(** [None] is [null], also for the JSON text [null]. *)
Definition parseExprLiteral (raw : str) : option json :=
  let text := trim raw in
  if str_eqb text (js "true") || str_eqb text (js "false") then Some (JStr text)
  else if rtest NUMERIC_LITERAL_REGEX text then Some (JStr text)
  else match JSON_parse text with
       | Some JNull | None => None
       | Some v => Some v
       end.

Definition time_func : regex := lits TIME_FUNCS.

(** [fn("tz") >= a || fn("tz") < b], the second [fn] and [tz] being the first ones. *)
Definition time_range : regex :=
  rseq [RGroup 1 time_func; rlit (jsq "('"); RGroup 2 not_quote; rlit (jsq "') >= "); RGroup 3 number_chars;
        rlit (js " || "); RRef 1; rlit (jsq "('"); RRef 2; rlit (jsq "') < "); RGroup 4 number_chars].
Definition time_range_re : regex := ranch time_range.
Definition time_range_paren_re : regex := ranch (rseq [rlit (js "("); time_range; rlit (js ")")]).
Definition time_compare_re : regex :=
  ranch (rseq [RGroup 1 time_func; rlit (jsq "('"); RGroup 2 not_quote; rlit (jsq "') ");
               RGroup 3 (lits [js "=="; js ">="; js "<"]); rlit (js " "); RGroup 4 number_chars]).

Definition capd (n : nat) (m : rresult) : str := default [] (cap n m).

Definition time_range_of (m : rresult) : TimeCondition :=
  mkTime (capd 1 m) (capd 2 m) MATCH_RANGE [] (capd 3 m) (capd 4 m).

Definition tryParseTimeCondition (expr : str) : option TimeCondition :=
  match rexec time_range_re expr with
  | Some m => Some (time_range_of m)
  | None =>
  match rexec time_range_paren_re expr with
  | Some m => Some (time_range_of m)
  | None =>
  match rexec time_compare_re expr with
  | Some m =>
      let opMap := [(js "==", MATCH_EQ); (js ">=", MATCH_GTE); (js "<", MATCH_LT)] in
      Some (mkTime (capd 1 m) (capd 2 m) (opt_str_or (map_get (capd 3 m) opMap) MATCH_EQ)
              (capd 4 m) [] [])
  | None => None
  end end end.

(** A string literal: a quote, units that are not a quote or a backslash or are
    escaped, a quote. *)
Definition string_literal : regex :=
  rseq [rlit [dquote];
        RStar (RAlt (RChar (none_of [dquote; 92%N])) (RSeq (rlit [92%N]) (RChar not_newline)));
        rlit [dquote]].

Definition header_exists_re : regex :=
  ranch (rseq [rlit (jsq "header('"); RGroup 1 not_quote; rlit (jsq "') != ''")]).
Definition param_exists_re : regex :=
  ranch (rseq [rlit (jsq "param('"); RGroup 1 not_quote; rlit (jsq "') != nil")]).
Definition header_contains_re : regex :=
  ranch (rseq [rlit (jsq "has(header('"); RGroup 1 not_quote; rlit (jsq "'), "); RGroup 2 string_literal;
               rlit (js ")")]).
Definition param_contains_re : regex :=
  ranch (rseq [rlit (jsq "param('"); RGroup 1 not_quote; rlit (jsq "') != nil && has(param('");
               RGroup 2 not_quote; rlit (jsq "'), "); RGroup 3 string_literal; rlit (js ")")]).
Definition param_compare_re : regex :=
  ranch (rseq [rlit (jsq "param('"); RGroup 1 not_quote; rlit (jsq "') != nil && param('");
               RGroup 2 not_quote; rlit (jsq "') "); RGroup 3 (lits [js ">"; js ">="; js "<"; js "<="]);
               rlit (js " "); RGroup 4 number_chars]).
Definition equals_re : regex :=
  ranch (rseq [RGroup 1 (lits [js "param"; js "header"]); rlit (jsq "('"); RGroup 2 not_quote;
               rlit (jsq "') == "); RGroup 3 (RPlus (RChar not_newline))]).

(** [JSON.parse(m)] of a string literal. *)
Definition parse_literal (m : str) : outcome str :=
  match JSON_parse m with Some v => Found (to_String v) | None => Throws end.

Definition parse_equals (expr : str) : outcome ParamHeaderCondition :=
  match rexec equals_re expr with
  | Some m =>
      match parseExprLiteral (capd 3 m) with
      | None => Null
      | Some v =>
          Found (mkPH (if str_eqb (capd 1 m) (js "header") then SOURCE_HEADER else SOURCE_PARAM)
                   (capd 2 m) MATCH_EQ (to_String v))
      end
  | None => Null
  end.

Definition parse_param_compare (expr : str) : outcome ParamHeaderCondition :=
  match rexec param_compare_re expr with
  | Some m =>
      if str_eqb (capd 1 m) (capd 2 m) then
        let opMap := [(js ">", MATCH_GT); (js ">=", MATCH_GTE); (js "<", MATCH_LT); (js "<=", MATCH_LTE)] in
        Found (mkPH SOURCE_PARAM (capd 1 m) (default [] (map_get (capd 3 m) opMap)) (capd 4 m))
      else parse_equals expr
  | None => parse_equals expr
  end.

Definition tryParsePHCondition (expr : str) : outcome ParamHeaderCondition :=
  match rexec header_exists_re expr with
  | Some m => Found (mkPH SOURCE_HEADER (capd 1 m) MATCH_EXISTS [])
  | None =>
  match rexec param_exists_re expr with
  | Some m => Found (mkPH SOURCE_PARAM (capd 1 m) MATCH_EXISTS [])
  | None =>
  match rexec header_contains_re expr with
  | Some m => outcome_bind (parse_literal (capd 2 m))
                (fun v => Found (mkPH SOURCE_HEADER (capd 1 m) MATCH_CONTAINS v))
  | None =>
  match rexec param_contains_re expr with
  | Some m => if str_eqb (capd 1 m) (capd 2 m)
              then outcome_bind (parse_literal (capd 3 m))
                     (fun v => Found (mkPH SOURCE_PARAM (capd 1 m) MATCH_CONTAINS v))
              else parse_param_compare expr
  | None => parse_param_compare expr
  end end end end.

Definition tryParseRequestCondition (expr : str) : outcome RequestCondition :=
  match tryParseTimeCondition expr with
  | Some tc => Found (CTime tc)
  | None => outcome_bind (tryParsePHCondition expr) (fun c => Found (CPH c))
  end.

Definition rule_factor_re : regex :=
  ranch (rseq [rlit (js "("); RGroup 1 (RPlus (RChar (fun _ => true))); rlit (js " ? ");
               RGroup 2 number_chars; rlit (js " : 1)")]).

Definition tryParseRuleGroupFactor (part : str) : outcome RequestRuleGroup :=
  match rexec rule_factor_re part with
  | None => Null
  | Some m =>
      let conditionStr := capd 1 m in
      let multiplier := capd 2 m in
      outcome_bind (outcome_map (fun ap => tryParseRequestCondition (trim ap)) (splitTopLevelAnd conditionStr))
        (fun conditions => if (length conditions =? 0)%nat then Null
                           else Found (mkGroup conditions multiplier))
  end.

Definition tryParseRequestRuleExpr (expr : str) : outcome (list RequestRuleGroup) :=
  let trimmed := trim expr in
  if negb (truthy trimmed) then Found []
  else outcome_map tryParseRuleGroupFactor (splitTopLevelMultiply trimmed).

(** ** Combining and splitting *)

(** The loop of [hasFullOuterParens]. *)
Fixpoint full_parens_scan (depth : Z) (s : str) : bool :=
  match s with
  | [] => (depth =? 0)%Z
  | c :: r =>
      let depth := (if (c =? 40)%N then depth + 1 else depth)%Z in
      let depth := (if (c =? 41)%N then depth - 1 else depth)%Z in
      if (depth =? 0)%Z && truthy r then false else full_parens_scan depth r
  end.

Definition hasFullOuterParens (expr : str) : bool :=
  if negb (starts_with expr (js "(")) || negb (ends_with expr (js ")")) then false
  else full_parens_scan 0 expr.

(** [current.slice(1, -1).trim()] as long as the parentheses enclose all; every
    round removes units, so the length is enough fuel. *)
Fixpoint unwrap_loop (fuel : nat) (current : str) : str :=
  match fuel with
  | O => current
  | S fuel =>
      if hasFullOuterParens current
      then unwrap_loop fuel (trim (slice 1 (length current - 1) current))
      else current
  end.
Definition unwrapOuterParens (expr : str) : str :=
  let current := trim expr in unwrap_loop (length current) current.

Record SplitExpr := mkSplit { sp_billingExpr : str; sp_requestRuleExpr : str }.

(** The rule parts and the base parts, in order; [None] when a parser throws. *)
Fixpoint classify_parts (parts : list str) : option (list str * list str) :=
  match parts with
  | [] => Some ([], [])
  | part :: rest =>
      match tryParseRequestRuleExpr part with
      | Throws => None
      | Found (_ :: _) => '(rules, bases) ← classify_parts rest; Some (part :: rules, bases)
      | _ => '(rules, bases) ← classify_parts rest; Some (rules, part :: bases)
      end
  end.

Definition splitBillingExprAndRequestRules (expr : str) : outcome SplitExpr :=
  let trimmed := trim expr in
  if negb (truthy trimmed) then Found (mkSplit [] [])
  else
    let parts := splitTopLevelMultiply trimmed in
    if (length parts <=? 1)%nat then Found (mkSplit trimmed [])
    else
      match classify_parts parts with
      | None => Throws
      | Some (ruleParts, baseParts) =>
          match ruleParts, baseParts with
          | _ :: _, [base] => Found (mkSplit (unwrapOuterParens base) (join (js " * ") ruleParts))
          | _, _ => Found (mkSplit trimmed [])
          end
      end.

Definition combineBillingExpr (baseExpr requestRuleExpr : str) : str :=
  let base := trim baseExpr in
  let rules := trim requestRuleExpr in
  if negb (truthy base) then []
  else if negb (truthy rules) then base
  else js "(" ++ base ++ js ") * " ++ rules.

(** ** Editor *)

Definition createEmptyCondition : ParamHeaderCondition := mkPH SOURCE_PARAM [] MATCH_EQ [].
Definition createEmptyTimeCondition : TimeCondition :=
  mkTime (js "hour") (js "Asia/Shanghai") MATCH_GTE [] [] [].
Definition createEmptyRuleGroup : RequestRuleGroup := mkGroup [CPH createEmptyCondition] [].
Definition createEmptyTimeRuleGroup : RequestRuleGroup := mkGroup [CTime createEmptyTimeCondition] [].

(** The [source] of a condition being edited. *)
Inductive RuleSource := RTime | RPH (s : PHSource).

(** Pairs of a value and its label key. *)
Definition getRequestRuleMatchOptions (source : RuleSource) : list (str * str) :=
  match source with
  | RTime => [(MATCH_EQ, js "Equals"); (MATCH_GTE, js "Greater than or equal");
              (MATCH_LT, js "Less than"); (MATCH_RANGE, js "Overnight range")]
  | RPH s =>
      let base := [(MATCH_EQ, js "Equals"); (MATCH_CONTAINS, js "Contains"); (MATCH_EXISTS, js "Exists")] in
      match s with
      | SOURCE_HEADER => base
      | SOURCE_PARAM =>
          base ++ [(MATCH_GT, js "Greater than"); (MATCH_GTE, js "Greater than or equal");
                   (MATCH_LT, js "Less than"); (MATCH_LTE, js "Less than or equal")]
      end
  end.

Definition isTimeFunc (value : option str) : bool :=
  match value with Some v => set_has v TIME_FUNCS | None => false end.

(** [Partial<RequestCondition>]: every field may be missing. *)
Record PartialCondition := mkPartial {
  pc_source : option str; pc_path : option str; pc_mode : option str; pc_value : option str;
  pc_timeFunc : option str; pc_timezone : option str; pc_rangeStart : option str;
  pc_rangeEnd : option str
}.
Definition partial_of (cond : RequestCondition) : PartialCondition :=
  match cond with
  | CTime c => mkPartial (Some (js "time")) None (Some (tm_mode c)) (Some (tm_value c))
                 (Some (tm_timeFunc c)) (Some (tm_timezone c)) (Some (tm_rangeStart c)) (Some (tm_rangeEnd c))
  | CPH c => mkPartial (Some (match ph_source c with SOURCE_PARAM => js "param" | SOURCE_HEADER => js "header" end))
               (Some (ph_path c)) (Some (ph_mode c)) (Some (ph_value c)) None None None None
  end.

Definition offers (source : RuleSource) (mode : option str) : bool :=
  existsb (fun item => bool_decide (Some (fst item) = mode)) (getRequestRuleMatchOptions source).

Definition normalizeTime (cond : PartialCondition) : TimeCondition :=
  mkTime
    (if isTimeFunc (pc_timeFunc cond) then default [] (pc_timeFunc cond) else js "hour")
    (opt_str_or (pc_timezone cond) (js "Asia/Shanghai"))
    (if offers RTime (pc_mode cond) then default [] (pc_mode cond) else MATCH_GTE)
    (default [] (pc_value cond)) (default [] (pc_rangeStart cond)) (default [] (pc_rangeEnd cond)).

Definition normalizePH (source : PHSource) (cond : PartialCondition) : ParamHeaderCondition :=
  mkPH source (opt_str_or (pc_path cond) [])
    (if offers (RPH source) (pc_mode cond) then default [] (pc_mode cond) else MATCH_EQ)
    (default [] (pc_value cond)).

Definition normalizeCondition (cond : PartialCondition) : RequestCondition :=
  if bool_decide (pc_source cond = Some (js "time")) then CTime (normalizeTime cond)
  else if bool_decide (pc_source cond = Some (js "header")) then CPH (normalizePH SOURCE_HEADER cond)
  else CPH (normalizePH SOURCE_PARAM cond).

(** ** Request rules: printer *)

Definition numeric (s : str) : bool := rtest NUMERIC_LITERAL_REGEX s.

Definition buildExprLiteral (mode value : str) : str :=
  let text := trim value in
  if str_eqb mode MATCH_CONTAINS then quote text
  else if str_eqb text (js "true") || str_eqb text (js "false") then text
  else if numeric text then text
  else quote text.

Definition buildTimeConditionExpr (cond : TimeCondition) : str :=
  let normalized := normalizeTime (partial_of (CTime cond)) in
  let tz := quote (tm_timezone normalized) in
  let fn := tm_timeFunc normalized ++ js "(" ++ tz ++ js ")" in
  if str_eqb (tm_mode normalized) MATCH_RANGE then
    let s := trim (tm_rangeStart normalized) in
    let e := trim (tm_rangeEnd normalized) in
    if negb (numeric s) || negb (numeric e) then []
    else fn ++ js " >= " ++ s ++ js " || " ++ fn ++ js " < " ++ e
  else
    let v := trim (tm_value normalized) in
    if negb (numeric v) then []
    else
      let opMap := [(MATCH_EQ, js "=="); (MATCH_GTE, js ">="); (MATCH_LT, js "<")] in
      fn ++ js " " ++ opt_str_or (map_get (tm_mode normalized) opMap) (js "==") ++ js " " ++ v.

Definition source_name (s : PHSource) : str :=
  match s with SOURCE_HEADER => js "header" | SOURCE_PARAM => js "param" end.

Definition buildPHConditionExpr (cond : ParamHeaderCondition) : str :=
  let normalized := normalizePH (ph_source cond) (partial_of (CPH cond)) in
  let path := trim (ph_path normalized) in
  if negb (truthy path) then []
  else
    let sourceExpr := source_name (ph_source normalized) ++ js "(" ++ quote path ++ js ")" in
    let mode := ph_mode normalized in
    if str_eqb mode MATCH_EXISTS then
      match ph_source normalized with
      | SOURCE_HEADER => sourceExpr ++ jsq " != ''"
      | SOURCE_PARAM => sourceExpr ++ js " != nil"
      end
    else if str_eqb mode MATCH_CONTAINS then
      let literal := buildExprLiteral mode (ph_value normalized) in
      match ph_source normalized with
      | SOURCE_HEADER => js "has(" ++ sourceExpr ++ js ", " ++ literal ++ js ")"
      | SOURCE_PARAM => sourceExpr ++ js " != nil && has(" ++ sourceExpr ++ js ", " ++ literal ++ js ")"
      end
    else
      match map_get mode [(MATCH_GT, js ">"); (MATCH_GTE, js ">="); (MATCH_LT, js "<"); (MATCH_LTE, js "<=")] with
      | Some op =>
          let numText := trim (ph_value normalized) in
          if negb (numeric numText) then []
          else sourceExpr ++ js " != nil && " ++ sourceExpr ++ js " " ++ op ++ js " " ++ numText
      | None => sourceExpr ++ js " == " ++ buildExprLiteral mode (ph_value normalized)
      end.

Definition buildRequestConditionExpr (cond : RequestCondition) : str :=
  match cond with
  | CTime c => buildTimeConditionExpr c
  | CPH c => buildPHConditionExpr c
  end.

(** A condition with a disjunction is put in parentheses next to others. *)
Definition guard_or (e : str) : str :=
  if str_includes e (js " || ") then js "(" ++ e ++ js ")" else e.

Definition combine_conditions (condExprs : list str) : str :=
  match condExprs with
  | [e] => e
  | _ => join (js " && ") (map guard_or condExprs)
  end.

Definition buildRuleGroupFactor (group : RequestRuleGroup) : str :=
  let multiplier := trim (g_multiplier group) in
  if negb (numeric multiplier) then []
  else
    let condExprs := List.filter truthy (map buildRequestConditionExpr (g_conditions group)) in
    match condExprs with
    | [] => []
    | _ => js "(" ++ combine_conditions condExprs ++ js " ? " ++ multiplier ++ js " : 1)"
    end.

Definition buildRequestRuleExpr (groups : list RequestRuleGroup) : str :=
  join (js " * ") (List.filter truthy (map buildRuleGroupFactor groups)).

(** ** Examples *)

Definition demo_groups : list RequestRuleGroup :=
  [mkGroup [CTime (mkTime (js "hour") (js "Asia/Shanghai") MATCH_RANGE [] (js "22") (js "6"));
            CPH (mkPH SOURCE_HEADER (js "x-tier") MATCH_EQ (js "gold"));
            CPH (mkPH SOURCE_PARAM (js "stream") MATCH_EQ (js "true"))] (js "0.5");
   mkGroup [CPH (mkPH SOURCE_HEADER (js "x-plan") MATCH_CONTAINS (js "pro"))] (js "2")].

Example build_ex : buildRequestRuleExpr demo_groups =
  jsq "((hour('Asia/Shanghai') >= 22 || hour('Asia/Shanghai') < 6) && header('x-tier') == 'gold' && param('stream') == true ? 0.5 : 1) * (has(header('x-plan'), 'pro') ? 2 : 1)".
Proof. vm_compute. reflexivity. Qed.

Example parse_ex : tryParseRequestRuleExpr (buildRequestRuleExpr demo_groups) = Found demo_groups.
Proof. vm_compute. reflexivity. Qed.

Example split_ex :
  splitBillingExprAndRequestRules
    (combineBillingExpr (jsq "tier('base', p * 2)") (buildRequestRuleExpr demo_groups)) =
  Found (mkSplit (jsq "tier('base', p * 2)") (buildRequestRuleExpr demo_groups)).
Proof. vm_compute. reflexivity. Qed.

(** A comparison of a parameter is printed with a guard that the parser splits
    off, so it does not read back. *)
Example param_compare_lost :
  tryParseRequestRuleExpr (buildRequestRuleExpr
    [mkGroup [CPH (mkPH SOURCE_PARAM (js "max_tokens") MATCH_GT (js "1000"))] (js "2")]) = Null.
Proof. vm_compute. reflexivity. Qed.

(** The parser throws on a literal that is not JSON. *)
Example parse_throws :
  tryParseRequestRuleExpr (jsq "(has(header('x'), '\q') ? 2 : 1)") = Throws.
Proof. vm_compute. reflexivity. Qed.
