(* ===== verification/BillingProps.v ===== *)
(** * Billing expressions: correctness

    Printing and parsing of request rules are inverse on conditions that the
    parser knows and whose texts are free of quotes, parentheses and operators;
    splitting undoes combining; unwrapping removes enclosing parentheses as long
    as there are some.  The proofs run the
    regular expressions symbolically with the equations of [Regex]. *)
From S2P Require Import Prelude Number Regex Json BillingExpr.

(** ** Symbolic matching *)

(** The unit before the position after [w]. *)
Definition lastp (p : option N) (w : str) : option N :=
  match last w with Some c => Some c | None => p end.

Lemma advance_lastp p w rest cs : advance (length w) (MS p (w ++ rest) cs) = MS (lastp p w) rest cs.
Proof. unfold advance, lastp. cbn [m_post m_prev m_caps]. by rewrite take_app_length, drop_app_length. Qed.

Lemma match_lit w p rest cs k : rmatch (rlit w) (MS p (w ++ rest) cs) k = k (MS (lastp p w) rest cs).
Proof. rewrite rmatch_lit. cbn [m_post]. by rewrite starts_with_app, advance_lastp. Qed.

Lemma match_lit_end w p cs : rmatch (rlit w) (MS p w cs) at_end = Some (MS (lastp p w) [] cs).
Proof. rewrite <- (app_nil_r w) at 2. by rewrite match_lit. Qed.

Lemma miss_lit w p s cs k : starts_with s w = false -> rmatch (rlit w) (MS p s cs) k = None.
Proof. intros H. rewrite rmatch_lit. cbn [m_post]. by rewrite H. Qed.

Lemma miss_lit_head c w y k d s :
  m_post y = d :: s -> (c =? d)%N = false -> rmatch (rlit (c :: w)) y k = None.
Proof. intros E H. rewrite rmatch_lit, E. cbn [starts_with]. by rewrite H. Qed.

Lemma match_ref n w p rest cs k :
  map_get n cs = Some w -> rmatch (RRef n) (MS p (w ++ rest) cs) k = k (MS (lastp p w) rest cs).
Proof. intros H. cbn [rmatch m_caps]. rewrite H. cbn [m_post]. by rewrite starts_with_app, advance_lastp. Qed.

(** A captured run followed by a literal that cannot start inside the run. *)
Lemma match_run n f run c w r p rest cs k :
  run <> [] -> Forall (fun x => f x = true) run -> f c = false ->
  rmatch (RSeq (RGroup n (RPlus (RChar f))) (RSeq (rlit (c :: w)) r)) (MS p (run ++ (c :: w) ++ rest) cs) k =
  rmatch r (MS (lastp (lastp p run) (c :: w)) rest (map_set n run cs)) k.
Proof.
  intros Hne Hr Hc. rewrite rmatch_seq, (rmatch_run n f _ _ run ((c :: w) ++ rest)); try done.
  - rewrite advance_lastp. cbn [m_prev m_caps]. rewrite rmatch_seq. by rewrite match_lit.
  - by intros d s [= <- _].
  - intros y d s E Hd. rewrite rmatch_seq. eapply miss_lit_head; [exact E |].
    apply N.eqb_neq. intros ->. congruence.
Qed.

(** The same when the text goes on differently than the literal. *)
Lemma miss_run n f run c w r p rest cs k :
  run <> [] -> Forall (fun x => f x = true) run -> f c = false ->
  (forall d s, rest = d :: s -> f d = false) -> starts_with rest (c :: w) = false ->
  rmatch (RSeq (RGroup n (RPlus (RChar f))) (RSeq (rlit (c :: w)) r)) (MS p (run ++ rest) cs) k = None.
Proof.
  intros Hne Hr Hc Hrest Hs. rewrite rmatch_seq, (rmatch_run n f _ _ run rest); try done.
  - rewrite rmatch_seq. by apply miss_lit.
  - intros y d s E Hd. rewrite rmatch_seq. eapply miss_lit_head; [exact E |].
    apply N.eqb_neq. intros ->. congruence.
Qed.

Lemma seq_eps a b x k : rmatch (RSeq a b) x k = rmatch (RSeq a (RSeq b REps)) x k.
Proof. reflexivity. Qed.

(** A captured run at the end of the text. *)
Lemma match_run_end n f run p cs :
  run <> [] -> Forall (fun x => f x = true) run ->
  rmatch (RGroup n (RPlus (RChar f))) (MS p run cs) at_end = Some (MS (lastp p run) [] (map_set n run cs)).
Proof.
  intros Hne Hr. erewrite (rmatch_run_hit n f _ _ run []); [done | by rewrite app_nil_r | done | done | done |].
  assert (E : advance (length run) (MS p run cs) = MS (lastp p run) [] cs).
  { rewrite <- (app_nil_r run) at 2. apply advance_lastp. }
  by rewrite E.
Qed.

Lemma match_run_lit_end n f run c w p cs :
  run <> [] -> Forall (fun x => f x = true) run -> f c = false ->
  rmatch (RSeq (RGroup n (RPlus (RChar f))) (rlit (c :: w))) (MS p (run ++ c :: w) cs) at_end =
  Some (MS (lastp (lastp p run) (c :: w)) [] (map_set n run cs)).
Proof.
  intros Hne Hr Hc. rewrite seq_eps. rewrite <- (app_nil_r (c :: w)) at 2. by rewrite match_run.
Qed.

(** From captures to the match. *)
Lemma rexec_caps r s cs :
  full_caps r s = Some cs -> exists m, rexec (ranch r) s = Some m /\ rr_caps m = cs.
Proof.
  rewrite <- rexec_anch. destruct (rexec (ranch r) s) as [m|]; [| done]. intros [= <-]. eauto.
Qed.

Lemma rexec_none r s : full_caps r s = None -> rexec (ranch r) s = None.
Proof. rewrite <- rexec_anch. by destruct (rexec (ranch r) s). Qed.

(** ** Texts and numbers *)

(** A unit that needs no escape and is no delimiter of the rule syntax. *)
Definition clean_char (c : N) : Prop :=
  (32 <= c)%N /\ (c < 65536)%N /\ is_high c = false /\ is_low c = false /\
  none_of ([34; 92; 40; 41; 38; 124; 8232; 8233]%N) c = true.
Definition clean (s : str) : Prop := Forall clean_char s.

Lemma clean_ne c d : clean_char c -> d ∈ [34; 92; 40; 41; 38; 124; 8232; 8233]%N -> c <> d.
Proof.
  intros (_ & _ & _ & _ & H) Hd ->. unfold none_of in H. apply negb_true_iff in H.
  apply not_true_iff_false in H. apply H. by apply set_has_spec.
Qed.

Lemma clean_quote_units s : clean s -> quote_units s = s.
Proof.
  induction 1 as [|c s Hc _ IH]; [done |]. cbn [quote_units].
  assert (E : short_escape c = None).
  { apply map_get_None. destruct Hc as (H32 & _ & _ & _ & Hn). unfold escapes. cbn [map fst fmap list_fmap].
    intros Hin. assert (c = 34 \/ c = 92)%N as [->| ->]; [| done | done].
    revert Hin. rewrite !elem_of_cons, elem_of_nil. intros; destruct_or!; subst; auto; lia. }
  destruct Hc as (H32 & _ & -> & -> & _). rewrite E, IH. by rewrite (proj2 (N.ltb_ge _ _)).
Qed.

Lemma clean_quote s : clean s -> quote s = [dquote] ++ s ++ [dquote].
Proof. intros H. unfold quote. by rewrite clean_quote_units. Qed.

Lemma clean_not_quote s : clean s -> Forall (fun c => none_of [dquote] c = true) s.
Proof.
  intros Hs. eapply Forall_impl; [exact Hs |]. intros c Hc. unfold none_of. apply negb_true_iff, not_true_iff_false.
  rewrite set_has_spec, list_elem_of_singleton. apply clean_ne; [done | set_solver].
Qed.

Lemma clean_not_newline s : clean s -> Forall (fun c => not_newline c = true) s.
Proof.
  intros Hs. eapply Forall_impl; [exact Hs |]. intros c Hc. unfold not_newline, none_of. apply negb_true_iff, not_true_iff_false.
  rewrite set_has_spec, !elem_of_cons, elem_of_nil.
  pose proof (clean_ne c 8232 Hc ltac:(set_solver)). pose proof (clean_ne c 8233 Hc ltac:(set_solver)).
  destruct Hc as (H32 & _). intros Hin. destruct_or! Hin; subst; (done || lia).
Qed.

(** The unit tests of a numeric literal. *)
Lemma numeric_chars s : numeric s = true -> Forall (fun c => is_number_char c = true) s.
Proof.
  apply rtest_chars.
  assert (Hg : forall c, is_digit c = true -> is_number_char c = true) by (unfold is_number_char; by intros c ->).
  assert (Hi : forall t c, one_of t c = true -> forallb is_number_char t = true -> is_number_char c = true).
  { intros t c Hc Ht. unfold one_of in Hc. rewrite set_has_spec in Hc. rewrite forallb_forall in Ht.
    apply Ht. by apply list_elem_of_In. }
  assert (He : forall c d, (d =? c)%N = true -> is_number_char d = true -> is_number_char c = true)
    by (intros c d ->%N.eqb_eq; done).
  repeat split; try exact Hg; try (intros c Hc; exact (He c _ Hc eq_refl));
    try (intros c Hc; exact (Hi _ c Hc eq_refl)).
Qed.

Lemma numeric_not_nil s : numeric s = true -> s <> [].
Proof. by intros H ->. Qed.

Lemma number_char_cases c : is_number_char c = true -> is_digit c = true \/ c ∈ js ".eE+-".
Proof. unfold is_number_char, one_of. rewrite orb_true_iff, set_has_spec. done. Qed.

(** Number units are clean and no white space. *)
Lemma number_char_clean c : is_number_char c = true -> clean_char c /\ is_space c = false.
Proof.
  intros H. assert (Hr : (43 <= c < 102)%N /\ (c <> 92)%N).
  { apply number_char_cases in H as [H|H]; [unfold is_digit in H; lia |].
    revert H. change (js ".eE+-") with [46; 101; 69; 43; 45]%N. rewrite !elem_of_cons, elem_of_nil.
    intros; destruct_or!; subst; lia. }
  split; [| unfold is_space; lia]. unfold clean_char, is_high, is_low.
  split_and!; [lia | lia | lia | lia |]. unfold none_of. apply negb_true_iff, not_true_iff_false.
  rewrite set_has_spec, !elem_of_cons, elem_of_nil. lia.
Qed.

Lemma numeric_clean s : numeric s = true -> clean s.
Proof. intros H%numeric_chars. eapply Forall_impl; [exact H |]. intros c Hc. by apply number_char_clean. Qed.

Lemma numeric_trim s : numeric s = true -> trim s = s.
Proof.
  intros H%numeric_chars. apply trim_no_space. eapply Forall_impl; [exact H |].
  intros c Hc. by apply number_char_clean.
Qed.

#[export] Hint Resolve clean_not_quote clean_not_newline numeric_chars numeric_not_nil numeric_clean : js.

(** ** Time conditions *)

Lemma lits_cons w l p s cs k :
  l <> [] -> rmatch (lits (w :: l)) (MS p s cs) k =
  match rmatch (rlit w) (MS p s cs) k with Some y => Some y | None => rmatch (lits l) (MS p s cs) k end.
Proof. by destruct l. Qed.

(** The function names of time conditions: none is a prefix of another. *)
Lemma time_func_match f p rest cs k :
  f ∈ TIME_FUNCS ->
  rmatch time_func (MS p (f ++ rest) cs) k = k (MS (lastp p f) rest cs).
Proof.
  intros Hf. unfold time_func, TIME_FUNCS in *. rewrite !lits_cons by done.
  change (lits [js "day"]) with (rlit (js "day")).
  revert Hf. rewrite !elem_of_cons, elem_of_nil. intros Hf.
  destruct_or! Hf; subst f;
    repeat (rewrite miss_lit by reflexivity); rewrite match_lit;
    repeat (rewrite miss_lit by reflexivity); by destruct (k _).
Qed.

Lemma time_func_capture f p rest cs k :
  f ∈ TIME_FUNCS ->
  rmatch (RGroup 1 time_func) (MS p (f ++ rest) cs) k =
  k (MS (lastp p f) rest (map_set 1%nat f cs)).
Proof.
  intros Hf. change (rmatch (RGroup 1 time_func) (MS p (f ++ rest) cs) k) with
    (rmatch time_func (MS p (f ++ rest) cs) (fun y => k (capture 1 (MS p (f ++ rest) cs) y))).
  rewrite time_func_match by done. unfold capture. cbn [m_post m_prev m_caps].
  rewrite length_app, Nat.add_sub, take_app_length. done.
Qed.

Lemma time_func_miss n p s cs k :
  forallb (fun f => negb (starts_with s f)) TIME_FUNCS = true ->
  rmatch (RGroup n time_func) (MS p s cs) k = None.
Proof.
  intros H. rewrite forallb_forall in H.
  change (rmatch (RGroup n time_func) (MS p s cs) k) with
    (rmatch time_func (MS p s cs) (fun y => k (capture n (MS p s cs) y))).
  unfold time_func, TIME_FUNCS in *. rewrite !lits_cons by done. change (lits [js "day"]) with (rlit (js "day")).
  rewrite !miss_lit by (apply negb_true_iff, H; simpl; tauto). done.
Qed.

(** The texts the printer writes. *)
Definition range_text (f tz a b : str) : str :=
  f ++ jsq "('" ++ tz ++ jsq "') >= " ++ a ++ js " || " ++ f ++ jsq "('" ++ tz ++ jsq "') < " ++ b.
Definition compare_text (f tz op v : str) : str :=
  f ++ jsq "('" ++ tz ++ jsq "') " ++ op ++ js " " ++ v.

Section TimeTexts.
Variables (f tz a b : str).
Hypothesis Hf : f ∈ TIME_FUNCS.
Hypothesis Htz : clean tz.
Hypothesis Hne : tz <> [].
Hypothesis Ha : numeric a = true.

Ltac run_head :=
  cbn [rseq]; rewrite ?rmatch_seq, time_func_capture by done; rewrite rmatch_seq, match_lit.

Lemma range_match p cs tail k :
  numeric b = true ->
  (forall y c s, m_post y = c :: s -> is_number_char c = true -> k y = None) ->
  (forall c s, tail = c :: s -> is_number_char c = false) ->
  exists q, rmatch time_range (MS p (range_text f tz a b ++ tail) cs) k =
  k (MS q tail (map_set 4%nat b (map_set 3%nat a (map_set 2%nat tz (map_set 1%nat f cs))))).
Proof using Hf Htz Hne Ha.
  intros Hb Hk Ht. unfold time_range, range_text, not_quote, number_chars. rewrite <- !app_assoc. eexists.
  run_head. change (jsq "') >= ") with (34%N :: [41; 32; 62; 61; 32]%N).
  rewrite match_run by auto with js. change (js " || ") with (32%N :: [124; 124; 32]%N).
  rewrite match_run by auto with js.
  rewrite rmatch_seq, (match_ref 1 f).
  2: { rewrite !map_get_set_ne, map_get_set_eq by done. done. }
  rewrite rmatch_seq, match_lit, rmatch_seq, (match_ref 2 tz).
  2: { rewrite !map_get_set_ne, map_get_set_eq by done. done. }
  rewrite rmatch_seq, match_lit. erewrite rmatch_run; [reflexivity | reflexivity | auto with js .. | done | exact Hk].
Qed.

Lemma at_end_blocks y c s : m_post y = c :: s -> at_end y = None.
Proof. intros E. unfold at_end. by rewrite E. Qed.

Lemma range_caps :
  numeric b = true ->
  full_caps time_range (range_text f tz a b) = Some [(1%nat, f); (2%nat, tz); (3%nat, a); (4%nat, b)].
Proof using Hf Htz Hne Ha.
  intros Hb. unfold full_caps. rewrite <- (app_nil_r (range_text f tz a b)).
  destruct (range_match None [] [] at_end Hb) as [q ->]; [| done | done].
  intros y c s E _. by eapply at_end_blocks.
Qed.

Lemma parse_range :
  numeric b = true ->
  tryParseTimeCondition (range_text f tz a b) = Some (mkTime f tz MATCH_RANGE [] a b).
Proof using Hf Htz Hne Ha.
  intros Hb. unfold tryParseTimeCondition.
  destruct (rexec_caps _ _ _ (range_caps Hb)) as (m & Hm & Hc). unfold time_range_re. rewrite Hm.
  unfold time_range_of, capd, cap. by rewrite Hc.
Qed.

Lemma parse_range_paren :
  numeric b = true ->
  tryParseTimeCondition (js "(" ++ range_text f tz a b ++ js ")") = Some (mkTime f tz MATCH_RANGE [] a b).
Proof using Hf Htz Hne Ha.
  intros Hb. unfold tryParseTimeCondition, time_range_re.
  rewrite rexec_none by (unfold full_caps, time_range; cbn [rseq]; rewrite rmatch_seq, time_func_miss by done; done).
  assert (Hc : full_caps (rseq [rlit (js "("); time_range; rlit (js ")")])
                 (js "(" ++ range_text f tz a b ++ js ")") =
               Some [(1%nat, f); (2%nat, tz); (3%nat, a); (4%nat, b)]).
  { unfold full_caps. cbn [rseq]. rewrite rmatch_seq, match_lit, rmatch_seq.
    destruct (range_match (lastp None (js "(")) [] (js ")") (fun y => rmatch (rlit (js ")")) y at_end) Hb)
      as [q ->].
    - intros y c s E Hc. change (js ")") with [41%N]. eapply miss_lit_head; [exact E |].
      apply N.eqb_neq. by intros <-.
    - by intros c s [= <- _].
    - change (js ")") with (js ")" ++ []). by rewrite match_lit. }
  destruct (rexec_caps _ _ _ Hc) as (m & Hm & Hcs). unfold time_range_paren_re. rewrite Hm.
  unfold time_range_of, capd, cap. by rewrite Hcs.
Qed.

Lemma not_paren_head rest : starts_with (f ++ rest) (js "(") = false.
Proof using Hf.
  revert Hf. unfold TIME_FUNCS. rewrite !elem_of_cons, elem_of_nil. intros H. by destruct_or! H; subst f.
Qed.

Lemma op_match n p op rest cs k :
  op ∈ [js "=="; js ">="; js "<"] ->
  rmatch (RGroup n (lits [js "=="; js ">="; js "<"])) (MS p (op ++ rest) cs) k =
  k (MS (lastp p op) rest (map_set n op cs)).
Proof.
  intros Hop. change (rmatch (RGroup n ?r) ?x k) with (rmatch r x (fun y => k (capture n x y))).
  rewrite !lits_cons by done. change (lits [js "<"]) with (rlit (js "<")).
  assert (Hcap : capture n (MS p (op ++ rest) cs) (MS (lastp p op) rest cs) =
                 MS (lastp p op) rest (map_set n op cs)).
  { unfold capture. cbn [m_post m_prev m_caps]. by rewrite length_app, Nat.add_sub, take_app_length. }
  revert Hop. rewrite !elem_of_cons, elem_of_nil. intros H. destruct_or! H; subst op;
    repeat (rewrite miss_lit by reflexivity); rewrite match_lit, Hcap;
    repeat (rewrite miss_lit by reflexivity); by destruct (k _).
Qed.

Lemma compare_not_range op p cs k :
  op ∈ [js "=="; js ">="; js "<"] ->
  rmatch time_range (MS p (compare_text f tz op a) cs) k = None.
Proof using Hf Htz Hne Ha.
  intros Hop. unfold time_range, compare_text, not_quote, number_chars. run_head.
  change (jsq "') >= ") with (34%N :: [41; 32; 62; 61; 32]%N).
  destruct (decide (op = js ">=")) as [->|Hop'].
  - change (jsq "') " ++ js ">=" ++ js " " ++ a) with ((34%N :: [41; 32; 62; 61; 32]%N) ++ a).
    rewrite match_run by auto with js. rewrite <- (app_nil_r a) at 1.
    change (js " || ") with (32%N :: [124; 124; 32]%N). apply miss_run; auto with js; done.
  - apply miss_run; auto with js; [by intros d s [= <- _] |].
    revert Hop. rewrite !elem_of_cons, elem_of_nil. intros H. destruct_or! H; subst op; done.
Qed.

Lemma parse_compare op mode :
  (op, mode) ∈ [(js "==", MATCH_EQ); (js ">=", MATCH_GTE); (js "<", MATCH_LT)] ->
  tryParseTimeCondition (compare_text f tz op a) = Some (mkTime f tz mode a [] []).
Proof using Hf Htz Hne Ha.
  intros Hom. assert (Hop : op ∈ [js "=="; js ">="; js "<"]).
  { revert Hom. rewrite !elem_of_cons, elem_of_nil. intros H. destruct_or! H; simplify_eq; set_solver. }
  unfold tryParseTimeCondition, time_range_re, time_range_paren_re.
  rewrite rexec_none by (unfold full_caps; by rewrite compare_not_range).
  rewrite rexec_none.
  2: { unfold full_caps. cbn [rseq]. unfold compare_text. rewrite rmatch_seq, miss_lit by apply not_paren_head. done. }
  assert (Hc : full_caps (rseq [RGroup 1 time_func; rlit (jsq "('"); RGroup 2 not_quote; rlit (jsq "') ");
               RGroup 3 (lits [js "=="; js ">="; js "<"]); rlit (js " "); RGroup 4 number_chars])
                 (compare_text f tz op a) = Some [(1%nat, f); (2%nat, tz); (3%nat, op); (4%nat, a)]).
  { unfold full_caps, compare_text, not_quote, number_chars. run_head.
    change (jsq "') ") with (34%N :: [41; 32]%N). rewrite match_run by auto with js.
    rewrite rmatch_seq, op_match by done. rewrite rmatch_seq, match_lit.
    rewrite match_run_end by auto with js. done. }
  destruct (rexec_caps _ _ _ Hc) as (m & Hm & Hcs). unfold time_compare_re. rewrite Hm.
  unfold capd, cap. rewrite Hcs. cbn [map_get fst snd].
  revert Hom. rewrite !elem_of_cons, elem_of_nil. intros H. destruct_or! H; simplify_eq; done.
Qed.

End TimeTexts.

(** ** Parameter and header conditions *)

Lemma not_time s :
  forallb (fun f => negb (starts_with s f)) TIME_FUNCS = true -> starts_with s (js "(") = false ->
  tryParseTimeCondition s = None.
Proof.
  intros Hf Hp. unfold tryParseTimeCondition, time_range_re, time_range_paren_re, time_compare_re.
  rewrite !rexec_none; [done | ..]; unfold full_caps, time_range; cbn [rseq]; rewrite rmatch_seq.
  - by rewrite time_func_miss.
  - by rewrite miss_lit.
  - by rewrite time_func_miss.
Qed.

(** A literal prefix that is not there. *)
Lemma rexec_miss w r s : starts_with s w = false -> rexec (ranch (RSeq (rlit w) r)) s = None.
Proof. intros H. apply rexec_none. unfold full_caps. by rewrite rmatch_seq, miss_lit. Qed.

Lemma header_exists_eq : header_exists_re =
  ranch (RSeq (rlit (js "header" ++ jsq "('")) (RSeq (RGroup 1 not_quote)
    (rlit (dquote :: js ") !=" ++ jsq " ''")))).
Proof. vm_compute. reflexivity. Qed.
Lemma param_exists_eq : param_exists_re =
  ranch (RSeq (rlit (js "param" ++ jsq "('")) (RSeq (RGroup 1 not_quote)
    (rlit (dquote :: js ") !=" ++ js " nil")))).
Proof. vm_compute. reflexivity. Qed.
Lemma param_contains_eq : param_contains_re =
  ranch (RSeq (rlit (js "param" ++ jsq "('")) (RSeq (RGroup 1 not_quote)
    (RSeq (rlit (dquote :: js ") !=" ++ jsq " nil && has(param('"))
       (rseq [RGroup 2 not_quote; rlit (jsq "'), "); RGroup 3 string_literal; rlit (js ")")])))).
Proof. vm_compute. reflexivity. Qed.
Lemma param_compare_eq : param_compare_re =
  ranch (RSeq (rlit (js "param" ++ jsq "('")) (RSeq (RGroup 1 not_quote)
    (RSeq (rlit (dquote :: js ") !=" ++ jsq " nil && param('"))
       (rseq [RGroup 2 not_quote; rlit (jsq "') "); RGroup 3 (lits [js ">"; js ">="; js "<"; js "<="]);
              rlit (js " "); RGroup 4 number_chars])))).
Proof. vm_compute. reflexivity. Qed.

(** The captured source name of an equality. *)
Lemma source_match src s rest k :
  s = source_name src ++ rest ->
  rmatch (RGroup 1 (lits [js "param"; js "header"])) (MS None s []) k =
  k (MS (lastp None (source_name src)) rest [(1%nat, source_name src)]).
Proof.
  intros ->. change (rmatch (RGroup 1 ?r) ?x k) with (rmatch r x (fun y => k (capture 1 x y))).
  rewrite !lits_cons by done. change (lits [js "header"]) with (rlit (js "header")).
  assert (Hcap : capture 1 (MS None (source_name src ++ rest) [])
      (MS (lastp None (source_name src)) rest []) = MS (lastp None (source_name src)) rest [(1%nat, source_name src)]).
  { unfold capture. cbn [m_post m_prev m_caps]. by rewrite length_app, Nat.add_sub, take_app_length. }
  destruct src; cbn [source_name] in *.
  - rewrite match_lit, Hcap, miss_lit by reflexivity. by destruct (k _).
  - rewrite miss_lit by reflexivity. by rewrite match_lit, Hcap.
Qed.

Section PathTexts.
Variable path : str.
Hypothesis Hpath : clean path.
Hypothesis Hne : path <> [].

(** [prefix("path" ...] where the text after the path is not the expected one. *)
Lemma rexec_path_miss pre w r rest :
  starts_with ([dquote] ++ rest) (dquote :: w) = false ->
  rexec (ranch (RSeq (rlit pre) (RSeq (RGroup 1 not_quote) (RSeq (rlit (dquote :: w)) r))))
    (pre ++ path ++ [dquote] ++ rest) = None.
Proof using Hpath Hne.
  intros H. apply rexec_none. unfold full_caps, not_quote. rewrite rmatch_seq, match_lit.
  rewrite miss_run; auto with js. by intros d s [= <- _].
Qed.

Lemma rexec_path_only_miss pre w rest :
  starts_with ([dquote] ++ rest) (dquote :: w) = false ->
  rexec (ranch (RSeq (rlit pre) (RSeq (RGroup 1 not_quote) (rlit (dquote :: w)))))
    (pre ++ path ++ [dquote] ++ rest) = None.
Proof using Hpath Hne.
  intros H. apply rexec_none. unfold full_caps, not_quote. rewrite rmatch_seq, match_lit, seq_eps.
  rewrite miss_run; auto with js. by intros d s [= <- _].
Qed.

Definition ph_text (src : PHSource) (rest : str) : str :=
  source_name src ++ js "(" ++ [dquote] ++ path ++ [dquote] ++ js ")" ++ rest.

Lemma ph_not_time src rest : tryParseTimeCondition (ph_text src rest) = None.
Proof. destruct src; apply not_time; reflexivity. Qed.

Lemma parse_exists src :
  tryParsePHCondition (ph_text src (match src with SOURCE_HEADER => jsq " != ''" | SOURCE_PARAM => js " != nil" end)) =
  Found (mkPH src path MATCH_EXISTS []).
Proof using Hpath Hne.
  unfold tryParsePHCondition, header_exists_re, param_exists_re. cbn [rseq].
  assert (Hc : forall pre w, full_caps (RSeq (rlit pre) (RSeq (RGroup 1 not_quote) (rlit (dquote :: w))))
                 (pre ++ path ++ (dquote :: w) ++ []) = Some [(1%nat, path)]).
  { intros pre w. unfold full_caps, not_quote. rewrite rmatch_seq, match_lit, seq_eps.
    rewrite match_run by auto with js. done. }
  destruct src.
  - rewrite rexec_miss by reflexivity.
    destruct (rexec_caps _ _ _ (Hc (jsq "param('") (js ") != nil"))) as (m & Hm & Hcs).
    change (ph_text SOURCE_PARAM (js " != nil")) with (jsq "param('" ++ path ++ (dquote :: js ") != nil") ++ []).
    change (jsq "') != nil") with (dquote :: js ") != nil"). rewrite Hm. unfold capd, cap. by rewrite Hcs.
  - destruct (rexec_caps _ _ _ (Hc (jsq "header('") (jsq ") != ''"))) as (m & Hm & Hcs).
    change (ph_text SOURCE_HEADER (jsq " != ''")) with (jsq "header('" ++ path ++ (dquote :: jsq ") != ''") ++ []).
    change (jsq "') != ''") with (dquote :: jsq ") != ''"). rewrite Hm. unfold capd, cap. by rewrite Hcs.
Qed.

(** A text that does not go on with [!=] after the path can only be an equality. *)
Lemma ph_misses src rest :
  starts_with rest (js " !=") = false ->
  tryParsePHCondition (ph_text src rest) = parse_equals (ph_text src rest).
Proof using Hpath Hne.
  intros Hr. unfold tryParsePHCondition, parse_param_compare. set (s := ph_text src rest).
  assert (Hs : s = source_name src ++ jsq "('" ++ path ++ [dquote] ++ js ")" ++ rest) by done.
  assert (Hw : forall w, starts_with (js ")" ++ rest) (js ") !=" ++ w) = false).
  { intros w. change (starts_with (js ")" ++ rest) (js ") !=" ++ w)) with (starts_with rest (js " !=" ++ w)).
    apply not_true_iff_false. intros [r E]%starts_with_spec. apply not_true_iff_false in Hr. apply Hr.
    apply starts_with_spec. rewrite <- app_assoc in E. eauto. }
  assert (Hmiss : forall nm w r, (nm = js "header" \/ nm = js "param") ->
    rexec (ranch (RSeq (rlit (nm ++ jsq "('")) (RSeq (RGroup 1 not_quote)
      (RSeq (rlit (dquote :: js ") !=" ++ w)) r)))) s = None).
  { intros nm w r Hnm. destruct (decide (nm = source_name src)) as [->|Hd].
    - rewrite Hs, app_assoc. apply rexec_path_miss; try done. apply Hw.
    - apply rexec_miss. rewrite Hs. destruct src, Hnm as [-> | ->]; done. }
  assert (Hmiss' : forall nm w, (nm = js "header" \/ nm = js "param") ->
    rexec (ranch (RSeq (rlit (nm ++ jsq "('")) (RSeq (RGroup 1 not_quote) (rlit (dquote :: js ") !=" ++ w))))) s = None).
  { intros nm w Hnm. destruct (decide (nm = source_name src)) as [->|Hd].
    - rewrite Hs, app_assoc. apply rexec_path_only_miss; try done. apply Hw.
    - apply rexec_miss. rewrite Hs. destruct src, Hnm as [-> | ->]; done. }
  rewrite header_exists_eq, Hmiss' by by left. rewrite param_exists_eq, Hmiss' by by right.
  rewrite (rexec_miss (jsq "has(header('") _ s ltac:(rewrite Hs; by destruct src) : rexec header_contains_re s = None).
  rewrite param_contains_eq, Hmiss by by right. rewrite param_compare_eq, Hmiss by by right. done.
Qed.

Lemma equals_caps src l :
  l <> [] -> Forall (fun c => not_newline c = true) l ->
  full_caps (RSeq (RGroup 1 (lits [js "param"; js "header"])) (RSeq (rlit (jsq "('"))
      (RSeq (RGroup 2 not_quote) (RSeq (rlit (jsq "') == ")) (RGroup 3 (RPlus (RChar not_newline)))))))
    (ph_text src (js " == " ++ l)) = Some [(1%nat, source_name src); (2%nat, path); (3%nat, l)].
Proof using Hpath Hne.
  intros Hl Hn. unfold full_caps, not_quote. rewrite rmatch_seq. set (s := ph_text src (js " == " ++ l)).
  assert (Hs : s = source_name src ++ jsq "('" ++ path ++ (dquote :: js ") == ") ++ l) by done.
  rewrite (source_match src s _ _ Hs).
  rewrite rmatch_seq, match_lit. change (jsq "') == ") with (dquote :: js ") == ").
  rewrite match_run by auto with js. rewrite match_run_end by done. done.
Qed.

Lemma equals_only src l :
  l <> [] -> Forall (fun c => not_newline c = true) l ->
  tryParsePHCondition (ph_text src (js " == " ++ l)) =
  match parseExprLiteral l with
  | None => Null
  | Some v => Found (mkPH src path MATCH_EQ (to_String v))
  end.
Proof using Hpath Hne.
  intros Hl Hn. rewrite ph_misses by done. unfold parse_equals.
  destruct (rexec_caps _ _ _ (equals_caps src l Hl Hn)) as (m & Hm & Hcs).
  rewrite (Hm : rexec equals_re _ = Some m). unfold capd, cap. rewrite Hcs. simpl.
  destruct (parseExprLiteral l); [| done]. by destruct src.
Qed.

(** Neither an existence test nor an equality: no condition. *)
Lemma ph_unreadable src rest :
  starts_with rest (js " !=") = false -> starts_with rest (js " == ") = false ->
  tryParsePHCondition (ph_text src rest) = Null.
Proof using Hpath Hne.
  intros H1 H2. rewrite ph_misses by done. unfold parse_equals, equals_re. cbn [rseq].
  rewrite rexec_none; [done |]. unfold full_caps, not_quote. rewrite rmatch_seq.
  rewrite (source_match src (ph_text src rest) (jsq "('" ++ path ++ [dquote] ++ js ")" ++ rest) _ eq_refl).
  rewrite rmatch_seq, match_lit. change (jsq "') == ") with (dquote :: js ") == ").
  rewrite miss_run; auto with js. by intros d t [= <- _].
Qed.
End PathTexts.

Definition literal_unit : regex := RAlt (RChar (none_of [dquote; 92%N])) (RSeq (rlit [92%N]) (RChar not_newline)).

Lemma clear_caps_literal x : clear_caps literal_unit x = x.
Proof. destruct x as [p s cs]. unfold clear_caps. simpl groups_of. simpl m_caps. by rewrite filter_no_groups. Qed.

Lemma match_literal_run v p rest cs k :
  Forall (fun c => none_of [dquote; 92%N] c = true) v ->
  (forall y c s, m_post y = c :: s -> none_of [dquote; 92%N] c = true -> k y = None) ->
  rmatch (RStar literal_unit) (MS p (v ++ dquote :: rest) cs) k = k (MS (lastp p v) (dquote :: rest) cs).
Proof.
  intros Hv Hk. cbn [rmatch m_post].
  cut (forall n, (length v <= n)%nat -> forall p, star_loop (fun y => rmatch literal_unit (clear_caps literal_unit y)) k n
         (MS p (v ++ dquote :: rest) cs) = k (MS (lastp p v) (dquote :: rest) cs)).
  { intros H. apply H. rewrite length_app. lia. }
  induction Hv as [|c v Hc Hv IH]; intros n Hn q.
  - destruct n as [|n]; [done |]. cbn [star_loop]. rewrite clear_caps_literal. by cbn -[star_loop].
  - destruct n as [|n]; [simpl in Hn; lia |]. cbn [star_loop]. rewrite clear_caps_literal.
    change (rmatch literal_unit ?x ?k) with
      (match rmatch (RChar (none_of [dquote; 92%N])) x k with
       | Some y => Some y
       | None => rmatch (RSeq (rlit [92%N]) (RChar not_newline)) x k
       end).
    rewrite rmatch_char. cbn [app m_post m_caps]. rewrite Hc.
    rewrite (proj2 (Nat.ltb_lt _ _)) by (simpl; lia).
    rewrite IH by (simpl in Hn; lia).
    assert (El : lastp (Some c) v = lastp q (c :: v)) by (unfold lastp; rewrite last_cons; by destruct (last v)).
    rewrite El. destruct (k (MS (lastp q (c :: v)) (dquote :: rest) cs)) as [z|]; [done |].
    rewrite rmatch_seq. erewrite miss_lit_head; [| reflexivity |].
    + by eapply Hk.
    + apply N.eqb_neq. intros <-. done.
Qed.

Lemma clean_literal_units s : clean s -> Forall (fun c => none_of [dquote; 92%N] c = true) s.
Proof.
  intros Hs. eapply Forall_impl; [exact Hs |]. intros c Hc. unfold none_of.
  apply negb_true_iff, not_true_iff_false. rewrite set_has_spec, !elem_of_cons, elem_of_nil.
  pose proof (clean_ne c 34 Hc ltac:(set_solver)). pose proof (clean_ne c 92 Hc ltac:(set_solver)).
  intros Hin. by destruct_or! Hin.
Qed.

Lemma parse_literal_quote v : parse_literal (quote v) = Found v.
Proof. unfold parse_literal. by rewrite (json_roundtrip (JStr v) I : JSON_parse (quote v) = _). Qed.

Definition contains_text (path v : str) : str :=
  jsq "has(header('" ++ path ++ jsq "'), " ++ ([dquote] ++ v ++ [dquote]) ++ js ")".

Lemma contains_caps path v :
  clean path -> path <> [] -> clean v ->
  full_caps (rseq [rlit (jsq "has(header('"); RGroup 1 not_quote; rlit (jsq "'), "); RGroup 2 string_literal;
               rlit (js ")")]) (contains_text path v) =
  Some [(1%nat, path); (2%nat, [dquote] ++ v ++ [dquote])].
Proof.
  intros Hp Hne Hv. unfold full_caps, contains_text, not_quote. cbn [rseq]. rewrite rmatch_seq, match_lit.
  change (jsq "'), ") with (dquote :: js "), "). rewrite match_run by auto with js. rewrite rmatch_seq.
  rewrite <- !app_assoc.
  change (rmatch (RGroup 2 ?r) ?x ?k) with (rmatch r x (fun y => k (capture 2 x y))).
  unfold string_literal. cbn [rseq]. rewrite rmatch_seq, match_lit, rmatch_seq. fold literal_unit.
  rewrite (match_literal_run v _ (js ")")).
  - change (dquote :: js ")") with ([dquote] ++ js ")"). rewrite match_lit.
    unfold capture. cbn [m_post m_prev m_caps]. rewrite match_lit_end.
    cbn [fmap option_fmap option_map m_caps]. f_equal.
    replace (length ([dquote] ++ v ++ [dquote] ++ js ")") - length (js ")"))%nat
      with (length ([dquote] ++ v ++ [dquote])) by (rewrite !length_app; simpl; lia).
    rewrite !app_assoc, take_app_length. done.
  - by apply clean_literal_units.
  - intros y c s E Hc. change [dquote] with (dquote :: []). eapply miss_lit_head; [exact E |].
    apply N.eqb_neq. by intros <-.
Qed.

Lemma parse_contains path v :
  clean path -> path <> [] -> clean v ->
  tryParsePHCondition (contains_text path v) = Found (mkPH SOURCE_HEADER path MATCH_CONTAINS v).
Proof.
  intros Hp Hne Hv. unfold tryParsePHCondition, header_exists_re, param_exists_re. cbn [rseq].
  rewrite !rexec_miss by reflexivity.
  destruct (rexec_caps _ _ _ (contains_caps path v Hp Hne Hv)) as (m & Hm & Hcs).
  rewrite (Hm : rexec header_contains_re _ = _). 
  assert (E2 : capd 2 m = quote v) by (unfold capd, cap; rewrite Hcs, clean_quote by done; done).
  assert (E1 : capd 1 m = path) by (unfold capd, cap; by rewrite Hcs).
  by rewrite E1, E2, parse_literal_quote.
Qed.

(** ** Parenthesis depth *)

Definition paren_step (d : Z) (c : N) : Z :=
  let d := (if (c =? 40)%N then d + 1 else d)%Z in if (c =? 41)%N then (d - 1)%Z else d.

(** The depth after a text that is scanned without dropping to zero. *)
Fixpoint stays (d : Z) (s : str) : option Z :=
  match s with
  | [] => Some d
  | c :: r => let d := paren_step d c in if (d <=? 0)%Z then None else stays d r
  end.

Lemma stays_app d a b : stays d (a ++ b) = d' ← stays d a; stays d' b.
Proof. revert d. induction a as [|c a IH]; intros d; simpl; [done |]. case_match; [done |]. apply IH. Qed.

Lemma stays_plain d s :
  (0 < d)%Z -> Forall (fun c => c <> 40%N /\ c <> 41%N) s -> stays d s = Some d.
Proof.
  intros Hd. induction 1 as [|c s [H1 H2] _ IH]; simpl; [done |]. unfold paren_step.
  rewrite (proj2 (N.eqb_neq _ _) H1), (proj2 (N.eqb_neq _ _) H2).
  by rewrite (proj2 (Z.leb_gt _ _)).
Qed.

Lemma stays_clean d s : (0 < d)%Z -> clean s -> stays d s = Some d.
Proof.
  intros Hd Hs. apply stays_plain; [done |]. eapply Forall_impl; [exact Hs |].
  intros c Hc. split; apply clean_ne; [done | set_solver | done | set_solver].
Qed.

(** Text that keeps its depth moves the scan of [split_top] on. *)
Lemma split_top_stays sep d d' cur s r :
  (0 < d)%Z -> stays d s = Some d' ->
  split_top sep d cur 0 (s ++ r) = split_top sep d' (reverse s ++ cur) 0 r.
Proof.
  revert d cur. induction s as [|c s IH]; intros d cur Hd H; simpl in H; [by injection H as <- |].
  change (split_top sep d cur 0 ((c :: s) ++ r)) with
    (if (paren_step d c =? 0)%Z && starts_with (c :: s ++ r) sep
     then trim (reverse cur) :: split_top sep (paren_step d c) [] (length sep - 1) (s ++ r)
     else split_top sep (paren_step d c) (c :: cur) 0 (s ++ r)).
  destruct (Z.leb_spec (paren_step d c) 0) as [|Hp]; [done |].
  rewrite (proj2 (Z.eqb_neq _ _)) by lia. simpl andb. cbv iota.
  rewrite IH by done. by rewrite reverse_cons, <- app_assoc.
Qed.

Fixpoint pdepth (d : Z) (s : str) : Z :=
  match s with [] => d | c :: r => pdepth (paren_step d c) r end.

Lemma paren_step_add d e c : paren_step (d + e) c = (paren_step d c + e)%Z.
Proof. unfold paren_step. repeat case_match; lia. Qed.

Lemma pdepth_add d e s : pdepth (d + e) s = (pdepth d s + e)%Z.
Proof. revert d. induction s as [|c s IH]; intros d; simpl; [done |]. by rewrite paren_step_add, IH. Qed.

Lemma stays_pdepth d s d' : stays d s = Some d' -> pdepth d s = d'.
Proof.
  revert d. induction s as [|c s IH]; intros d; simpl; [by intros [= ->] |]. case_match; [done |]. apply IH.
Qed.

(** A piece without ampersand is passed whatever its depth. *)
Lemma split_and_piece d cur s r :
  38%N ∉ s -> (forall c t, r = c :: t -> c <> 38%N) ->
  split_top (js " && ") d cur 0 (s ++ r) = split_top (js " && ") (pdepth d s) (reverse s ++ cur) 0 r.
Proof.
  intros Hs Hr. revert d cur. induction s as [|c s IH]; intros d cur; [done |].
  apply not_elem_of_cons in Hs as [Hc Hs].
  change (split_top (js " && ") d cur 0 ((c :: s) ++ r)) with
    (if (paren_step d c =? 0)%Z && starts_with (c :: s ++ r) (js " && ")
     then trim (reverse cur) :: split_top (js " && ") (paren_step d c) [] (length (js " && ") - 1) (s ++ r)
     else split_top (js " && ") (paren_step d c) (c :: cur) 0 (s ++ r)).
  assert (E : starts_with (c :: s ++ r) (js " && ") = false).
  { change (js " && ") with (32 :: 38 :: [38; 32])%N. cbn [starts_with].
    destruct (32 =? c)%N; [| done]. cbn [andb].
    destruct (s ++ r) as [|e t] eqn:Er; [done |]. destruct (N.eqb_spec 38 e) as [<-|]; [| done].
    destruct s as [|x s]; simpl in Er; [exfalso; by eapply Hr |]. injection Er as -> _. set_solver. }
  rewrite E, andb_false_r. rewrite IH by done. cbn [pdepth].
  by rewrite reverse_cons, <- app_assoc.
Qed.

(** ** Shapes of printed conditions *)

Record cond_shape (e : str) : Prop := {
  shape_amp : 38%N ∉ e;
  shape_depth : stays 1 e = Some 1%Z;
  shape_trim : trimmed e;
  shape_ne : e <> []
}.

Lemma split_and_join es :
  Forall cond_shape es -> splitTopLevelAnd (join (js " && ") es) = es.
Proof.
  unfold splitTopLevelAnd. intros H. destruct H as [|e es He Hes]; [done |].
  assert (Hs : split_top (js " && ") 0 [] 0 (join (js " && ") (e :: es)) = e :: es).
  { revert e He. induction Hes as [|e' es He' Hes IH]; intros e He; destruct He as [Ha Hd Ht Hne].
    - cbn [join]. rewrite <- (app_nil_r e) at 1. rewrite split_and_piece by done.
      cbn [split_top]. by rewrite app_nil_r, reverse_involutive, trimmed_trim.
    - change (join (js " && ") (e :: e' :: es)) with (e ++ js " && " ++ join (js " && ") (e' :: es)).
      rewrite split_and_piece by (done || by intros c t [= <- _]).
      apply stays_pdepth in Hd. pose proof (pdepth_add 0 1 e) as Hp. change (0 + 1)%Z with 1%Z in Hp.
      replace (pdepth 0 e) with 0%Z by lia. rewrite app_nil_r.
      change (js " && " ++ ?r) with (32 :: 38 :: 38 :: 32 :: r)%N.
      cbn [split_top]. change (paren_step 0 32) with 0%Z. simpl starts_with. cbn [andb].
      rewrite reverse_involutive, trimmed_trim by done. f_equal. by apply IH. }
  rewrite Hs. apply filter_truthy_id. constructor; [apply He |]. eapply Forall_impl; [exact Hes |].
  intros x Hx. apply Hx.
Qed.

(** ** Conditions that read back *)

Definition good_time (c : TimeCondition) : Prop :=
  tm_timeFunc c ∈ TIME_FUNCS /\ clean (tm_timezone c) /\ tm_timezone c <> [] /\
  ((tm_mode c = MATCH_RANGE /\ tm_value c = [] /\
    numeric (tm_rangeStart c) = true /\ numeric (tm_rangeEnd c) = true) \/
   (tm_mode c ∈ [MATCH_EQ; MATCH_GTE; MATCH_LT] /\ numeric (tm_value c) = true /\
    tm_rangeStart c = [] /\ tm_rangeEnd c = [])).

Definition good_text (s : str) : Prop := clean s /\ trimmed s.

Definition good_ph (c : ParamHeaderCondition) : Prop :=
  good_text (ph_path c) /\ ph_path c <> [] /\
  ((ph_mode c = MATCH_EXISTS /\ ph_value c = []) \/
   (ph_mode c = MATCH_EQ /\ good_text (ph_value c)) \/
   (ph_source c = SOURCE_HEADER /\ ph_mode c = MATCH_CONTAINS /\ good_text (ph_value c))).

Definition good_cond (c : RequestCondition) : Prop :=
  match c with CTime c => good_time c | CPH c => good_ph c end.

Lemma trimmed_ends a m b :
  a <> [] -> b <> [] -> trimmed a -> trimmed b -> trimmed (a ++ m ++ b).
Proof.
  intros Ha Hb [H1 _] [_ H2]. split.
  - by destruct a.
  - rewrite app_assoc, last_app. destruct (last b) as [c|] eqn:E; [done |].
    by apply last_None in E.
Qed.

Lemma numeric_trimmed s : numeric s = true -> trimmed s.
Proof. intros H. rewrite <- (numeric_trim s H). apply trim_trimmed. Qed.

Lemma clean_amp s : clean s -> 38%N ∉ s.
Proof.
  intros Hs Hin. unfold clean in Hs. rewrite Forall_forall in Hs.
  by apply (clean_ne 38 38 (Hs _ Hin) ltac:(set_solver)).
Qed.

Lemma clean_bar s : clean s -> 124%N ∉ s.
Proof.
  intros Hs Hin. unfold clean in Hs. rewrite Forall_forall in Hs.
  by apply (clean_ne 124 124 (Hs _ Hin) ltac:(set_solver)).
Qed.

Ltac lit_free := apply (bool_decide_unpack _); vm_compute; exact I.

Lemma func_facts f : f ∈ TIME_FUNCS -> (38%N ∉ f) /\ (124%N ∉ f) /\ stays 1 f = Some 1%Z /\ trimmed f /\ f <> [].
Proof.
  unfold TIME_FUNCS. rewrite !elem_of_cons, elem_of_nil.
  intros H. destruct_or! H; subst f; (split_and!; [lit_free | lit_free | reflexivity | split; reflexivity | done]).
Qed.

(** Depth of a text made of literals and clean pieces. *)
Ltac depth_lit :=
  match goal with
  | |- context [stays ?d (jsq ?s)] =>
      let v := eval vm_compute in (stays d (jsq s)) in change (stays d (jsq s)) with v
  | |- context [stays ?d (js ?s)] =>
      let v := eval vm_compute in (stays d (js s)) in change (stays d (js s)) with v
  | |- context [stays ?d [dquote]] => change (stays d [dquote]) with (Some d)
  end.
Ltac depth_solve H :=
  repeat (first [rewrite stays_app | depth_lit | rewrite stays_clean by (done || auto with js) |
                 rewrite H by done]; cbn [mbind option_bind]);
  try reflexivity.
Ltac amp_solve :=
  rewrite ?not_elem_of_app; split_and!; first [done | lit_free | by apply clean_amp; auto with js].

Lemma range_shape f tz a b :
  f ∈ TIME_FUNCS -> clean tz -> numeric a = true -> numeric b = true -> cond_shape (range_text f tz a b).
Proof.
  intros Hf Htz Ha Hb. destruct (func_facts f Hf) as (F1 & F2 & F3 & F4 & F5). unfold range_text. constructor.
  - amp_solve.
  - depth_solve F3.
  - rewrite !app_assoc.
    rewrite <- !(app_assoc f). apply trimmed_ends; auto with js. by apply numeric_trimmed.
  - by destruct f.
Qed.

Lemma compare_shape f tz op v :
  f ∈ TIME_FUNCS -> clean tz -> op ∈ [js "=="; js ">="; js "<"] -> numeric v = true ->
  cond_shape (compare_text f tz op v).
Proof.
  intros Hf Htz Hop Hv. destruct (func_facts f Hf) as (F1 & F2 & F3 & F4 & F5).
  assert (O1 : (38%N ∉ op) /\ forall d, (0 < d)%Z -> stays d op = Some d).
  { revert Hop. rewrite !elem_of_cons, elem_of_nil. intros H. destruct_or! H; subst op;
      (split; [lit_free | intros d Hd; apply stays_plain; [done | repeat constructor; done]]). }
  destruct O1 as [O1 O2]. unfold compare_text. constructor.
  - amp_solve.
  - rewrite stays_app, F3. cbn [mbind option_bind]. depth_solve O2.
  - rewrite !app_assoc. rewrite <- !(app_assoc f). apply trimmed_ends; auto with js. by apply numeric_trimmed.
  - by destruct f.
Qed.

Lemma source_name_facts src :
  (38%N ∉ source_name src) /\ stays 1 (source_name src) = Some 1%Z /\ trimmed (source_name src) /\
  source_name src <> [].
Proof. destruct src; (split_and!; [lit_free | reflexivity | split; reflexivity | done]). Qed.

(** A source and path followed by text that ends the condition. *)
Lemma ph_shape path src mid l :
  clean path -> 38%N ∉ mid ++ l -> stays 1 (mid ++ l) = Some 1%Z -> l <> [] -> trimmed l ->
  cond_shape (ph_text path src (mid ++ l)).
Proof.
  intros Hp Ha Hd Hne Ht. destruct (source_name_facts src) as (S1 & S2 & S3 & S4). unfold ph_text. constructor.
  - rewrite !not_elem_of_app in *. destruct Ha. split_and!; first [done | lit_free | by apply clean_amp].
  - rewrite stays_app, S2. cbn [mbind option_bind].
    do 5 (rewrite stays_app; first [depth_lit | rewrite stays_clean by done]; cbn [mbind option_bind]). exact Hd.
  - rewrite !app_assoc. rewrite <- !(app_assoc (source_name src)). apply trimmed_ends; auto.
  - by destruct src.
Qed.

Lemma trimmed_quoted s : trimmed ([dquote] ++ s ++ [dquote]).
Proof. apply trimmed_ends; done. Qed.

(** The literals of equality conditions. *)
Lemma literal_facts v :
  good_text v ->
  let l := buildExprLiteral MATCH_EQ v in
  parseExprLiteral l = Some (JStr v) /\ l <> [] /\ Forall (fun c => not_newline c = true) l /\
  (38%N ∉ l) /\ (124%N ∉ l) /\ stays 1 l = Some 1%Z /\ trimmed l.
Proof.
  intros [Hv Ht] l. unfold l, buildExprLiteral. change (str_eqb MATCH_EQ MATCH_CONTAINS) with false. cbv iota.
  rewrite trimmed_trim by done. unfold parseExprLiteral.
  destruct (str_eqb v (js "true") || str_eqb v (js "false")) eqn:Eb.
  { rewrite trimmed_trim, Eb by done. split_and!; auto using clean_amp, clean_bar, stays_clean, clean_not_newline.
    - by intros ->.
    - by apply stays_clean. }
  destruct (numeric v) eqn:En.
  { rewrite trimmed_trim, Eb by done. unfold numeric in En. rewrite En.
    split_and!; auto using clean_amp, clean_bar, stays_clean, clean_not_newline; by apply numeric_not_nil || by apply stays_clean. }
  rewrite clean_quote by done. rewrite trimmed_trim by apply trimmed_quoted.
  assert (Hq : forall w, w ∈ [js "true"; js "false"] -> str_eqb ([dquote] ++ v ++ [dquote]) w = false).
  { intros w. rewrite !elem_of_cons, elem_of_nil. intros H. apply not_true_iff_false. rewrite str_eqb_eq.
    destruct_or! H; subst w; done. }
  rewrite !Hq by set_solver. cbn [orb].
  assert (Hn : rtest NUMERIC_LITERAL_REGEX ([dquote] ++ v ++ [dquote]) = false).
  { apply not_true_iff_false. intros H%numeric_chars. by inv H. }
  rewrite Hn, <- clean_quote by done.
  rewrite (json_roundtrip (JStr v) I : JSON_parse (quote v) = _).
  rewrite clean_quote by done. split_and!; [done | done | | amp_solve | | | apply trimmed_quoted].
  - rewrite !Forall_app. split_and!; [by repeat constructor | by apply clean_not_newline | by repeat constructor].
  - rewrite !not_elem_of_app. split_and!; first [lit_free | by apply clean_bar].
  - depth_solve I.
Qed.

(** ** Conditions read back *)

(** What a printed condition has to satisfy. *)
Definition reads_back (e : str) (c : RequestCondition) : Prop :=
  cond_shape e /\ tryParseRequestCondition e = Found c /\
  tryParseRequestCondition (guard_or e) = Found c /\ cond_shape (guard_or e).

Lemma guard_plain e : 124%N ∉ e -> guard_or e = e.
Proof.
  intros H. unfold guard_or. destruct (str_includes e (js " || ")) eqn:E; [| done].
  apply str_includes_spec in E as (a & b & ->). exfalso. apply H.
  rewrite !elem_of_app. right. left. change (js " || ") with [32; 124; 124; 32]%N. set_solver.
Qed.

Lemma reads_back_plain e c :
  cond_shape e -> 124%N ∉ e -> tryParseRequestCondition e = Found c -> reads_back e c.
Proof. intros Hs Hb Hp. unfold reads_back. by rewrite guard_plain. Qed.

Lemma guard_shape e : cond_shape e -> cond_shape (js "(" ++ e ++ js ")").
Proof.
  intros [Ha Hd Ht Hne]. constructor.
  - amp_solve.
  - rewrite !stays_app. depth_lit. cbn [mbind option_bind].
    assert (H2 : stays 2 e = Some 2%Z).
    { assert (G : forall d d' k, (0 <= k)%Z -> stays d e = Some d' -> stays (d + k) e = Some (d' + k)%Z).
      { clear. induction e as [|c e IH]; intros d d' k Hk; simpl; [by intros [= ->] |].
        rewrite paren_step_add. destruct (Z.leb_spec (paren_step d c) 0); [done |].
        rewrite (proj2 (Z.leb_gt _ _)) by lia. by apply IH. }
      by apply (G 1%Z 1%Z 1%Z). }
    rewrite stays_app, H2. cbn [mbind option_bind]. reflexivity.
  - apply trimmed_ends; done.
  - done.
Qed.

Lemma normalize_good_time c :
  good_time c -> normalizeTime (partial_of (CTime c)) = c.
Proof.
  intros (Hf & _ & Hne & Hm). destruct c as [f tz mode v a b]. simpl in *. unfold normalizeTime. simpl.
  assert (E1 : set_has f TIME_FUNCS = true) by by apply set_has_spec.
  assert (E2 : offers RTime (Some mode) = true).
  { destruct Hm as [(-> & _) | (Hm & _)]; [reflexivity |].
    revert Hm. rewrite !elem_of_cons, elem_of_nil. intros H. by destruct_or! H; subst. }
  assert (E3 : str_or tz (js "Asia/Shanghai") = tz) by (unfold str_or; by destruct tz).
  by rewrite E1, E2, E3.
Qed.

Lemma time_reads_back c : good_time c -> reads_back (buildTimeConditionExpr c) (CTime c).
Proof.
  intros Hg. pose proof (normalize_good_time c Hg) as Hn.
  unfold buildTimeConditionExpr. cbv zeta. rewrite Hn. clear Hn.
  destruct Hg as (Hf & Htz & Hne & Hm). destruct c as [f tz mode v a b].
  cbn [tm_timeFunc tm_timezone tm_mode tm_value tm_rangeStart tm_rangeEnd] in *.
  rewrite clean_quote by done. destruct Hm as [(-> & -> & Ha & Hb) | (Hm & Hv & -> & ->)].
  - change (str_eqb MATCH_RANGE MATCH_RANGE) with true. cbv iota. rewrite !numeric_trim, Ha, Hb by done.
    change (negb true || negb true) with false. cbv iota.
    assert (E : (f ++ js "(" ++ ([dquote] ++ tz ++ [dquote]) ++ js ")") ++ js " >= " ++ a ++ js " || " ++
      (f ++ js "(" ++ ([dquote] ++ tz ++ [dquote]) ++ js ")") ++ js " < " ++ b = range_text f tz a b).
    { unfold range_text. rewrite <- !app_assoc. reflexivity. }
    rewrite E. pose proof (range_shape f tz a b Hf Htz Ha Hb) as Hs.
    assert (Hg : guard_or (range_text f tz a b) = js "(" ++ range_text f tz a b ++ js ")").
    { unfold guard_or. rewrite (proj2 (str_includes_spec _ _)); [done |].
      exists (f ++ jsq "('" ++ tz ++ jsq "') >= " ++ a), (f ++ jsq "('" ++ tz ++ jsq "') < " ++ b).
      unfold range_text. by rewrite <- !app_assoc. }
    unfold reads_back, tryParseRequestCondition. rewrite Hg, parse_range, parse_range_paren by done.
    split_and!; [done | done | done | by apply guard_shape].
  - assert (Hop : exists op, (op, mode) ∈ [(js "==", MATCH_EQ); (js ">=", MATCH_GTE); (js "<", MATCH_LT)] /\
      op ∈ [js "=="; js ">="; js "<"] /\ (124%N ∉ op) /\ str_eqb mode MATCH_RANGE = false /\
      opt_str_or (map_get mode [(MATCH_EQ, js "=="); (MATCH_GTE, js ">="); (MATCH_LT, js "<")]) (js "==") = op).
    { revert Hm. rewrite !elem_of_cons, elem_of_nil. intros H. destruct_or! H; subst mode;
        eexists; (split_and!; [| | | reflexivity | reflexivity]); (set_solver || lit_free). }
    destruct Hop as (op & Hom & Hop & Hbar & -> & ->). rewrite numeric_trim, Hv by done. cbn [negb].
    assert (E : (f ++ js "(" ++ ([dquote] ++ tz ++ [dquote]) ++ js ")") ++ js " " ++ op ++ js " " ++ v =
      compare_text f tz op v) by (unfold compare_text; rewrite <- !app_assoc; reflexivity).
    rewrite E. apply reads_back_plain; [by apply compare_shape | |].
    + destruct (func_facts f Hf) as (_ & F2 & _). unfold compare_text. rewrite !not_elem_of_app.
      split_and!; first [done | lit_free | by apply clean_bar; auto with js].
    + unfold tryParseRequestCondition. by rewrite (parse_compare f tz v) with (mode := mode).
Qed.

Lemma offered src mode :
  mode ∈ [MATCH_EQ; MATCH_EXISTS; MATCH_CONTAINS] -> offers (RPH src) (Some mode) = true.
Proof.
  rewrite !elem_of_cons, elem_of_nil. intros H. by destruct_or! H; subst mode; destruct src.
Qed.

Lemma normalize_good_ph c :
  good_ph c -> normalizePH (ph_source c) (partial_of (CPH c)) = c.
Proof.
  intros (_ & Hne & Hm). destruct c as [src path mode v]. simpl in *. unfold normalizePH. simpl.
  rewrite offered.
  - unfold str_or. by destruct path.
  - destruct Hm as [(-> & _) | [(-> & _) | (_ & -> & _)]]; set_solver.
Qed.

Definition exists_tail (src : PHSource) : str :=
  match src with SOURCE_HEADER => jsq " != ''" | SOURCE_PARAM => js " != nil" end.

Section ReadsBack.
Variable path : str.
Hypothesis Hp : clean path.
Hypothesis Hne : path <> [].

Lemma ph_bar src rest : 124%N ∉ rest -> 124%N ∉ ph_text path src rest.
Proof using Hp.
  intros Hr. unfold ph_text. rewrite !not_elem_of_app.
  split_and!; first [done | lit_free | by apply clean_bar | destruct src; lit_free].
Qed.

Lemma exists_reads_back src :
  reads_back (ph_text path src (exists_tail src)) (CPH (mkPH src path MATCH_EXISTS [])).
Proof using Hp Hne.
  apply reads_back_plain.
  - assert (E : exists mid l, exists_tail src = mid ++ l /\ (38%N ∉ mid ++ l) /\ stays 1 (mid ++ l) = Some 1%Z /\
      l <> [] /\ trimmed l).
    { destruct src; [exists (js " != "), (js "nil") | exists (js " != "), (jsq "''")];
        (split_and!; [reflexivity | lit_free | reflexivity | done | split; reflexivity]). }
    destruct E as (mid & l & -> & ? & ? & ? & ?). by apply ph_shape.
  - apply ph_bar. destruct src; lit_free.
  - unfold tryParseRequestCondition. rewrite ph_not_time. unfold exists_tail. by rewrite parse_exists.
Qed.

Lemma equals_reads_back src v :
  good_text v ->
  reads_back (ph_text path src (js " == " ++ buildExprLiteral MATCH_EQ v)) (CPH (mkPH src path MATCH_EQ v)).
Proof using Hp Hne.
  intros Hv. destruct (literal_facts v Hv) as (L1 & L2 & L3 & L4 & L5 & L6 & L7). apply reads_back_plain.
  - apply ph_shape; try done; first [amp_solve | rewrite stays_app; depth_lit; exact L6].
  - apply ph_bar. rewrite not_elem_of_app. split; [lit_free | done].
  - unfold tryParseRequestCondition. rewrite ph_not_time, equals_only by done. by rewrite L1.
Qed.

Lemma contains_reads_back v :
  clean v -> reads_back (contains_text path v) (CPH (mkPH SOURCE_HEADER path MATCH_CONTAINS v)).
Proof using Hp Hne.
  intros Hv. apply reads_back_plain.
  - unfold contains_text. constructor; [amp_solve | depth_solve I | | done].
    rewrite !app_assoc. rewrite <- !(app_assoc (jsq "has(header('")). apply trimmed_ends; done.
  - unfold contains_text. rewrite !not_elem_of_app. split_and!; first [lit_free | by apply clean_bar].
  - unfold tryParseRequestCondition. rewrite not_time by reflexivity. by rewrite parse_contains.
Qed.
End ReadsBack.

Lemma ph_reads_back c : good_ph c -> reads_back (buildPHConditionExpr c) (CPH c).
Proof.
  intros Hg. pose proof (normalize_good_ph c Hg) as Hn.
  unfold buildPHConditionExpr. cbv zeta. rewrite Hn. clear Hn.
  destruct Hg as ([Hp Ht] & Hne & Hm). destruct c as [src path mode v].
  cbn [ph_source ph_path ph_mode ph_value] in *. rewrite trimmed_trim by done.
  destruct (truthy path) eqn:Etr; [| by apply truthy_false in Etr]. cbn [negb]. rewrite clean_quote by done.
  assert (Hsrc : forall rest, (source_name src ++ js "(" ++ ([dquote] ++ path ++ [dquote]) ++ js ")") ++ rest =
            ph_text path src rest) by (intros rest; unfold ph_text; by rewrite <- !app_assoc).
  destruct Hm as [(-> & ->) | [(-> & Hv) | (-> & -> & [Hv Hvt])]].
  - change (str_eqb MATCH_EXISTS MATCH_EXISTS) with true. cbv iota.
    replace (match src with SOURCE_PARAM => _ | SOURCE_HEADER => _ end) with (ph_text path src (exists_tail src))
      by (rewrite <- Hsrc; by destruct src).
    by apply exists_reads_back.
  - change (str_eqb MATCH_EQ MATCH_EXISTS) with false. change (str_eqb MATCH_EQ MATCH_CONTAINS) with false.
    cbv iota. change (map_get MATCH_EQ _) with (@None str). cbv iota. rewrite Hsrc. by apply equals_reads_back.
  - change (str_eqb MATCH_CONTAINS MATCH_EXISTS) with false. change (str_eqb MATCH_CONTAINS MATCH_CONTAINS) with true.
    cbv iota. unfold buildExprLiteral. change (str_eqb MATCH_CONTAINS MATCH_CONTAINS) with true. cbv iota.
    rewrite trimmed_trim, clean_quote by done.
    assert (E : js "has(" ++ (source_name SOURCE_HEADER ++ js "(" ++ ([dquote] ++ path ++ [dquote]) ++ js ")") ++
      js ", " ++ ([dquote] ++ v ++ [dquote]) ++ js ")" = contains_text path v)
      by (unfold contains_text; rewrite <- !app_assoc; reflexivity).
    rewrite E. by apply contains_reads_back.
Qed.

Lemma cond_reads_back c : good_cond c -> reads_back (buildRequestConditionExpr c) c.
Proof. destruct c; [apply time_reads_back | apply ph_reads_back]. Qed.

(** ** Rule factors *)

Lemma first_down_at {A} n i (g : nat -> option A) y :
  (i <= n)%nat -> (forall j, (i < j <= n)%nat -> g j = None) -> g i = Some y -> first_down n g = Some y.
Proof.
  intros Hi Hn Hy. induction n as [|n IH].
  - assert (i = 0%nat) as -> by lia. simpl. by rewrite Hy.
  - destruct (decide (i = S n)) as [->|Hne]; [by apply first_down_hit |].
    simpl. rewrite Hn by lia. apply IH; [lia |]. intros j Hj. apply Hn. lia.
Qed.

Lemma run_length_all (s : str) : run_length (fun _ => true) s = length s.
Proof. induction s as [|c s IH]; simpl; [done | by rewrite IH]. Qed.

(** The question mark of a factor is found at one place only. *)
Lemma question_once j u :
  63%N ∉ u -> (1 <= j)%nat -> starts_with (drop j (32%N :: 63%N :: u)) (js " ? ") = false.
Proof.
  intros Hu Hj. destruct j as [|[|j]]; [lia | done |]. cbn [drop].
  destruct (starts_with (drop j u) (js " ? ")) eqn:E; [| done].
  apply starts_with_spec in E as [r Hr]. exfalso. apply Hu.
  rewrite <- (take_drop j u), Hr. change (js " ? ") with [32; 63; 32]%N. set_solver.
Qed.

Definition factor_text (comb m : str) : str := js "(" ++ comb ++ js " ? " ++ m ++ js " : 1)".

Lemma factor_caps comb m :
  comb <> [] -> numeric m = true ->
  full_caps (rseq [rlit (js "("); RGroup 1 (RPlus (RChar (fun _ => true))); rlit (js " ? ");
               RGroup 2 number_chars; rlit (js " : 1)")]) (factor_text comb m) =
  Some [(1%nat, comb); (2%nat, m)].
Proof.
  intros Hc Hm. unfold full_caps, factor_text. cbn [rseq]. rewrite rmatch_seq, match_lit, rmatch_seq.
  set (t := js " ? " ++ m ++ js " : 1)").
  set (k := fun y => rmatch (RSeq (rlit (js " ? ")) (RSeq (RGroup 2 number_chars) (rlit (js " : 1)")))) y at_end).
  change (rmatch (RGroup 1 ?r) ?x k) with (rmatch r x (fun y => k (capture 1 x y))).
  rewrite rmatch_plus_class. cbn [m_post]. rewrite run_length_all.
  destruct comb as [|c comb]; [done |]. cbn [app length].
  set (x := MS (lastp None (js "(")) (c :: comb ++ t) []).
  rewrite (first_down_at _ (length comb) _ (MS (lastp (lastp (lastp (lastp (lastp None (js "(")) (c :: comb))
             (js " ? ")) m) (js " : 1)")) [] [(1%nat, c :: comb); (2%nat, m)])).
  - done.
  - rewrite length_app. lia.
  - intros j Hj. unfold k. rewrite rmatch_seq, rmatch_lit. unfold capture, advance. cbn [m_post x].
    assert (E : drop (S j) (c :: comb ++ t) = drop (j - length comb) t).
    { cbn [drop]. rewrite drop_app_ge by lia. done. }
    rewrite E. unfold t. change (js " ? " ++ m ++ js " : 1)") with (32%N :: 63%N :: (32%N :: m ++ js " : 1)")).
    rewrite question_once; [done | | lia]. rewrite not_elem_of_cons, not_elem_of_app.
    split_and!; [done | | lit_free]. intros H63. apply numeric_chars in Hm. rewrite Forall_forall in Hm.
    by specialize (Hm _ H63).
  - unfold k. rewrite capture_advance by (unfold x; simpl; rewrite length_app; lia).
    change (S (length comb)) with (length (c :: comb)). unfold x.
    change (c :: comb ++ t) with ((c :: comb) ++ t). rewrite advance_lastp. cbn [m_prev m_post m_caps].
    rewrite take_app_length. unfold t, number_chars. rewrite rmatch_seq, match_lit.
    change (js " : 1)") with (32%N :: js ": 1)"). rewrite match_run_lit_end by auto with js. done.
Qed.

Definition good_group (g : RequestRuleGroup) : Prop :=
  g_conditions g <> [] /\ Forall good_cond (g_conditions g) /\ numeric (g_multiplier g) = true.

Lemma outcome_map_found {A B} (f : A -> outcome B) l ys :
  Forall2 (fun x y => f x = Found y) l ys -> outcome_map f l = Found ys.
Proof. induction 1 as [|x y l ys Hx _ IH]; simpl; [done |]. by rewrite Hx, IH. Qed.

(** The printed conditions of a group and how they are combined. *)
Definition group_pieces (g : RequestRuleGroup) : list str :=
  match g_conditions g with
  | [c] => [buildRequestConditionExpr c]
  | cs => map (fun c => guard_or (buildRequestConditionExpr c)) cs
  end.

Lemma pieces_facts g :
  good_group g ->
  Forall cond_shape (group_pieces g) /\
  Forall2 (fun e c => tryParseRequestCondition (trim e) = Found c) (group_pieces g) (g_conditions g) /\
  group_pieces g <> [].
Proof.
  intros (Hne & Hg & _). unfold group_pieces.
  assert (Hall : forall c, c ∈ g_conditions g -> reads_back (buildRequestConditionExpr c) c).
  { intros c Hc. rewrite Forall_forall in Hg. by apply cond_reads_back, Hg. }
  assert (Hmany : let es := map (fun c => guard_or (buildRequestConditionExpr c)) (g_conditions g) in
    Forall cond_shape es /\ Forall2 (fun e c => tryParseRequestCondition (trim e) = Found c) es (g_conditions g)).
  { clear Hne Hg. induction (g_conditions g) as [|c cs IH]; [split; constructor |].
    destruct IH as [I1 I2]; [intros d Hd; apply Hall; by right |].
    destruct (Hall c ltac:(left)) as (_ & _ & Hp & Hs). split; constructor; try done.
    rewrite trimmed_trim by apply Hs. exact Hp. }
  destruct (g_conditions g) as [|c [|c' cs]] eqn:E; [done | | by split_and!; try apply Hmany].
  destruct (Hall c ltac:(left)) as (Hs & Hp & _). split_and!; [by apply Forall_singleton | | done].
  constructor; [| constructor]. rewrite trimmed_trim by apply Hs. exact Hp.
Qed.

Lemma build_group g :
  good_group g ->
  buildRuleGroupFactor g = factor_text (join (js " && ") (group_pieces g)) (g_multiplier g).
Proof.
  intros Hg. pose proof Hg as (Hne & Hc & Hm). unfold buildRuleGroupFactor. cbv zeta.
  rewrite numeric_trim, Hm by done. cbn [negb].
  rewrite filter_truthy_id.
  2: { apply Forall_fmap. eapply Forall_impl; [exact Hc |]. intros c Hgc. unfold compose.
       destruct (cond_reads_back c Hgc) as (Hs & _). apply Hs. }
  unfold group_pieces. destruct (g_conditions g) as [|c [|c' cs]]; [done | done |].
  cbn [map combine_conditions]. unfold factor_text. by rewrite map_map.
Qed.

Lemma join_not_nil sep e es : e <> [] -> join sep (e :: es) <> [].
Proof. destruct e; [done |]. by destruct es. Qed.

(** A factor is parsed piece by piece. *)
Lemma parse_factor es m :
  Forall cond_shape es -> es <> [] -> numeric m = true ->
  tryParseRuleGroupFactor (factor_text (join (js " && ") es) m) =
  outcome_bind (outcome_map tryParseRequestCondition es)
    (fun conditions => if (length conditions =? 0)%nat then Null else Found (mkGroup conditions m)).
Proof.
  intros Hs Hne Hm. assert (Hj : join (js " && ") es <> []).
  { destruct es as [|e es]; [done |]. apply join_not_nil. inv Hs. by destruct H1. }
  unfold tryParseRuleGroupFactor. destruct (rexec_caps _ _ _ (factor_caps _ _ Hj Hm)) as (r & Hx & Hcs).
  rewrite (Hx : rexec rule_factor_re _ = _). unfold capd, cap. rewrite Hcs.
  change (default [] (map_get 1%nat [(1%nat, ?a); (2%nat, ?b)])) with a.
  change (default [] (map_get 2%nat [(1%nat, ?a); (2%nat, ?b)])) with b.
  rewrite split_and_join by done. f_equal. clear -Hs. induction Hs as [|e es He _ IH]; [done |].
  cbn [outcome_map]. rewrite IH, trimmed_trim by apply He. done.
Qed.

Lemma group_reads_back g : good_group g -> tryParseRuleGroupFactor (buildRuleGroupFactor g) = Found g.
Proof.
  intros Hg. rewrite build_group by done. destruct (pieces_facts g Hg) as (Hs & Hp & Hne).
  destruct Hg as (Hcn & _ & Hm). rewrite parse_factor by done.
  rewrite (outcome_map_found _ _ (g_conditions g)).
  - cbn [outcome_bind]. by destruct g as [[|c cs] mult].
  - clear -Hs Hp. induction Hp as [|e c es cs He _ IH]; constructor; inv Hs; [| by apply IH].
    rewrite <- (trimmed_trim e) by by destruct H1. exact He.
Qed.

(** ** Products of factors *)

Definition is_factor (f : str) : Prop :=
  exists body, f = js "(" ++ body ++ js ")" /\ stays 1 body = Some 1%Z.

Lemma split_mul_factor f cur r :
  is_factor f -> split_top (js " * ") 0 cur 0 (f ++ r) = split_top (js " * ") 0 (reverse f ++ cur) 0 r.
Proof.
  intros (body & -> & Hb). change (js "(") with [40%N]. change (js ")") with [41%N].
  rewrite <- app_assoc. cbn [app].
  change (split_top (js " * ") 0 cur 0 (40%N :: ?t)) with (split_top (js " * ") 1 (40%N :: cur) 0 t).
  rewrite <- app_assoc, (split_top_stays _ 1 1) by done.
  change (split_top (js " * ") 1 ?c 0 ([41%N] ++ r)) with (split_top (js " * ") 0 (41%N :: c) 0 r).
  by rewrite reverse_cons, reverse_app, <- !app_assoc.
Qed.

Lemma factor_ne f : is_factor f -> f <> [].
Proof. by intros (body & -> & _). Qed.

Lemma factor_trimmed f : is_factor f -> trimmed f.
Proof. intros (body & -> & _). by apply trimmed_ends. Qed.

Lemma split_mul_join fs : Forall is_factor fs -> splitTopLevelMultiply (join (js " * ") fs) = fs.
Proof.
  unfold splitTopLevelMultiply. intros H. destruct H as [|f fs Hf Hfs]; [done |].
  assert (Hs : split_top (js " * ") 0 [] 0 (join (js " * ") (f :: fs)) = f :: fs).
  { revert f Hf. induction Hfs as [|f' fs Hf' Hfs IH]; intros f Hf.
    - cbn [join]. rewrite <- (app_nil_r f) at 1. rewrite split_mul_factor by done.
      cbn [split_top]. by rewrite app_nil_r, reverse_involutive, trimmed_trim by by apply factor_trimmed.
    - change (join (js " * ") (f :: f' :: fs)) with (f ++ js " * " ++ join (js " * ") (f' :: fs)).
      rewrite split_mul_factor by done. rewrite app_nil_r.
      change (js " * " ++ ?r) with (32 :: 42 :: 32 :: r)%N.
      cbn [split_top]. change (paren_step 0 32) with 0%Z. simpl starts_with. cbn [andb].
      rewrite reverse_involutive, trimmed_trim by (by apply factor_trimmed). f_equal. by apply IH. }
  rewrite Hs. apply filter_truthy_id. constructor; [by apply factor_ne |].
  eapply Forall_impl; [exact Hfs | apply factor_ne].
Qed.

Lemma stays_join d sep es :
  stays d sep = Some d -> Forall (fun e => stays d e = Some d) es -> stays d (join sep es) = Some d.
Proof.
  intros Hs H. induction H as [|e es He Hes IH]; [done |]. destruct es as [|e' es]; [done |].
  cbn [join]. rewrite !stays_app, He. cbn [mbind option_bind]. rewrite stays_app, Hs. exact IH.
Qed.

Lemma pieces_factor es m :
  Forall cond_shape es -> numeric m = true -> is_factor (factor_text (join (js " && ") es) m).
Proof.
  intros Hs Hm. exists (join (js " && ") es ++ js " ? " ++ m ++ js " : 1"). split.
  - unfold factor_text. rewrite <- !app_assoc. reflexivity.
  - rewrite stays_app, stays_join; [| reflexivity | eapply Forall_impl; [exact Hs | by intros e []]].
    cbn [mbind option_bind]. depth_solve I.
Qed.

Lemma group_factor g : good_group g -> is_factor (buildRuleGroupFactor g).
Proof.
  intros Hg. rewrite build_group by done. destruct (pieces_facts g Hg) as (Hs & _ & _).
  apply pieces_factor; [done | apply Hg].
Qed.

Lemma split_mul_single f : is_factor f -> splitTopLevelMultiply f = [f].
Proof. intros H. by apply (split_mul_join [f]), Forall_singleton. Qed.

(** An expression of one factor. *)
Lemma parse_single f :
  is_factor f -> tryParseRequestRuleExpr f = outcome_bind (tryParseRuleGroupFactor f) (fun g => Found [g]).
Proof.
  intros H. unfold tryParseRequestRuleExpr. cbv zeta. rewrite trimmed_trim by by apply factor_trimmed.
  rewrite (proj2 (truthy_true _)) by by apply factor_ne. cbn [negb]. by rewrite split_mul_single.
Qed.

Lemma build_rules gs :
  Forall good_group gs -> buildRequestRuleExpr gs = join (js " * ") (map buildRuleGroupFactor gs).
Proof.
  intros H. unfold buildRequestRuleExpr. rewrite filter_truthy_id; [done |].
  apply Forall_fmap. eapply Forall_impl; [exact H |]. intros g Hg. by apply factor_ne, group_factor.
Qed.

Lemma factors_of gs : Forall good_group gs -> Forall is_factor (map buildRuleGroupFactor gs).
Proof. intros H. apply Forall_fmap. eapply Forall_impl; [exact H | apply group_factor]. Qed.

Lemma join_trimmed fs : Forall is_factor fs -> trimmed (join (js " * ") fs).
Proof.
  intros H. destruct fs as [|f fs]; [done |]. destruct fs as [|f' fs] using rev_ind.
  - inv H. by apply factor_trimmed.
  - assert (E : exists mid, join (js " * ") (f :: fs ++ [f']) = f ++ mid ++ f').
    { clear. revert f. induction fs as [|g fs IH]; intros f; [by exists (js " * ") |].
      destruct (IH g) as [mid E].
      change (join (js " * ") (f :: (g :: fs) ++ [f'])) with (f ++ js " * " ++ join (js " * ") (g :: fs ++ [f'])).
      rewrite E. exists (js " * " ++ g ++ mid).
      by rewrite <- !app_assoc. }
    destruct E as [mid ->]. inv H. apply Forall_app in H3 as [_ H3]. inv H3.
    apply trimmed_ends; auto using factor_ne, factor_trimmed.
Qed.

(** ** Enclosing parentheses *)

Lemma full_scan_factor d body :
  (0 < d)%Z -> stays d body = Some 1%Z -> full_parens_scan d (body ++ js ")") = true.
Proof.
  revert d. induction body as [|c body IH]; intros d Hd H; simpl in H.
  - injection H as ->. reflexivity.
  - cbn [app full_parens_scan]. fold (paren_step d c) in *.
    destruct (Z.leb_spec (paren_step d c) 0) as [|Hp]; [done |].
    change ((if (c =? 41)%N then ((if (c =? 40)%N then d + 1 else d) - 1)%Z else
             (if (c =? 40)%N then d + 1 else d)%Z)) with (paren_step d c).
    rewrite (proj2 (Z.eqb_neq _ _)) by lia. cbn [andb]. by apply IH.
Qed.

Lemma factor_enclosed body :
  stays 1 body = Some 1%Z -> hasFullOuterParens (js "(" ++ body ++ js ")") = true.
Proof.
  intros H. unfold hasFullOuterParens. rewrite starts_with_app.
  assert (E : ends_with (js "(" ++ body ++ js ")") (js ")") = true).
  { unfold ends_with. rewrite app_assoc, reverse_app. apply starts_with_app. }
  rewrite E. cbn [negb orb].
  change (full_parens_scan 0 (js "(" ++ body ++ js ")")) with
    (if (1 =? 0)%Z && truthy (body ++ js ")") then false else full_parens_scan 1 (body ++ js ")")).
  cbn [Z.eqb andb]. by apply full_scan_factor.
Qed.

(** Every round of the loop shortens the text. *)
Lemma enclosed_length s : hasFullOuterParens s = true -> (2 <= length s)%nat.
Proof.
  unfold hasFullOuterParens. destruct s as [|c [|d s]]; [done | | simpl; lia].
  destruct (negb _ || negb _) eqn:E; [done |]. exfalso. apply orb_false_iff in E as [E1 E2].
  apply negb_false_iff in E1, E2. change (js "(") with [40%N] in E1. cbn [starts_with] in E1.
  apply andb_prop in E1 as [E1%N.eqb_eq _]. subst c. vm_compute in E2. discriminate E2.
Qed.

Lemma unwrap_loop_done fuel s : (length s <= fuel)%nat -> hasFullOuterParens (unwrap_loop fuel s) = false.
Proof.
  revert s. induction fuel as [|fuel IH]; intros s Hl; simpl.
  - destruct s; [done | simpl in Hl; lia].
  - destruct (hasFullOuterParens s) eqn:E; [| done]. apply IH.
    apply enclosed_length in E. etransitivity; [apply trim_length |].
    unfold slice. rewrite length_take, length_drop. lia.
Qed.

Lemma slice_inner body : slice 1 (length (js "(" ++ body ++ js ")") - 1) (js "(" ++ body ++ js ")") = body.
Proof.
  unfold slice. rewrite !length_app. change (js "(") with [40%N]. change (js ")") with [41%N]. cbn [app drop length].
  replace (1 + (length body + 1) - 1 - 1)%nat with (length body) by lia. apply take_app_length.
Qed.

Lemma unwrap_factor base :
  stays 1 base = Some 1%Z -> trimmed base -> hasFullOuterParens base = false ->
  unwrapOuterParens (js "(" ++ base ++ js ")") = base.
Proof.
  intros Hs Ht Hf. unfold unwrapOuterParens. rewrite trimmed_trim by by apply trimmed_ends.
  set (s := js "(" ++ base ++ js ")"). assert (Hl : (2 <= length s)%nat) by (apply enclosed_length, factor_enclosed, Hs).
  destruct (length s) as [|n] eqn:E; [lia |]. cbn [unwrap_loop].
  rewrite (factor_enclosed base Hs : hasFullOuterParens s = true). unfold s.
  rewrite slice_inner, trimmed_trim by done. destruct n; [lia |]. cbn [unwrap_loop]. by rewrite Hf.
Qed.

(** ** Regular shape of a factor *)

Lemma factor_shape part m :
  rexec rule_factor_re part = Some m -> exists t, part = t ++ js " : 1)".
Proof.
  unfold rule_factor_re. cbn [rseq]. intros H.
  assert (Hc : is_Some (full_caps (RSeq (rlit (js "(")) (RSeq (RGroup 1 (RPlus (RChar (fun _ => true))))
      (RSeq (rlit (js " ? ")) (RSeq (RGroup 2 number_chars) (rlit (js " : 1)")))))) part)).
  { rewrite <- rexec_anch, H. eauto. }
  destruct Hc as [cs Hc]. unfold full_caps in Hc.
  set (r := RSeq (rlit (js "(")) (RSeq (RGroup 1 (RPlus (RChar (fun _ => true))))
      (RSeq (rlit (js " ? ")) (RGroup 2 number_chars)))).
  assert (E : forall x k, rmatch (RSeq (rlit (js "(")) (RSeq (RGroup 1 (RPlus (RChar (fun _ => true))))
      (RSeq (rlit (js " ? ")) (RSeq (RGroup 2 number_chars) (rlit (js " : 1)")))))) x k =
      rmatch r x (fun y => rmatch (rlit (js " : 1)")) y k)) by reflexivity.
  rewrite E in Hc. destruct (rmatch r _ _) as [z|] eqn:Hz; [| done].
  apply (rmatch_consumes (fun _ => True)) in Hz as (t & y & Et & _ & Hy).
  2: { repeat split. }
  rewrite rmatch_lit in Hy. destruct (starts_with (m_post y) (js " : 1)")) eqn:Es; [| done].
  apply starts_with_spec in Es as [u Hu]. unfold at_end in Hy. cbn [m_post advance] in Hy.
  rewrite Hu, drop_app_length in Hy. destruct u; [| done]. rewrite app_nil_r in Hu.
  exists t. cbn [m_post] in Et. by rewrite Et, Hu.
Qed.

(** ** Rule expressions *)

Lemma rules_trimmed gs : Forall good_group gs -> trimmed (buildRequestRuleExpr gs).
Proof. intros H. rewrite build_rules by done. by apply join_trimmed, factors_of. Qed.

Lemma rules_read_back gs :
  Forall good_group gs -> tryParseRequestRuleExpr (buildRequestRuleExpr gs) = Found gs.
Proof.
  intros H. unfold tryParseRequestRuleExpr. cbv zeta. rewrite trimmed_trim by by apply rules_trimmed.
  rewrite build_rules by done. destruct gs as [|g gs]; [done |].
  assert (Hne : join (js " * ") (map buildRuleGroupFactor (g :: gs)) <> []).
  { apply join_not_nil. inv H. by apply factor_ne, group_factor. }
  rewrite (proj2 (truthy_true _) Hne). cbn [negb]. rewrite split_mul_join by by apply factors_of.
  apply outcome_map_found. clear Hne. induction H as [|x l Hx _ IH]; constructor; [by apply group_reads_back | exact IH].
Qed.

(** A base expression the combined form can be taken apart from: balanced, not
    enclosed in parentheses itself, and not ending like a rule factor. *)
Definition good_base (base : str) : Prop :=
  base <> [] /\ trimmed base /\ stays 1 base = Some 1%Z /\ hasFullOuterParens base = false /\
  ends_with base (js " : 1") = false.

Lemma base_no_rule base :
  good_base base -> tryParseRequestRuleExpr (js "(" ++ base ++ js ")") = Null.
Proof.
  intros (_ & Ht & Hs & _ & He). rewrite parse_single by by exists base. unfold tryParseRuleGroupFactor.
  destruct (rexec rule_factor_re (js "(" ++ base ++ js ")")) as [m|] eqn:E; [| done].
  exfalso. apply factor_shape in E as [t E]. apply not_true_iff_false in He. apply He.
  change (js " : 1)") with (js " : 1" ++ [41%N]) in E. change (js ")") with [41%N] in E.
  rewrite !app_assoc in E. apply app_inj_tail in E as [E _].
  destruct t as [|c t]; [done |]. injection E as _ ->. unfold ends_with. rewrite reverse_app. apply starts_with_app.
Qed.

Lemma classify_factors gs :
  Forall good_group gs ->
  classify_parts (map buildRuleGroupFactor gs) = Some (map buildRuleGroupFactor gs, []).
Proof.
  induction 1 as [|g gs Hg Hgs IH]; [done |]. cbn [map classify_parts].
  assert (E : tryParseRequestRuleExpr (buildRuleGroupFactor g) = Found [g]).
  { rewrite <- (rules_read_back [g]) by by apply Forall_singleton. by rewrite build_rules by by apply Forall_singleton. }
  by rewrite E, IH.
Qed.

(** ** Conditions of parameters *)

Lemma op_unreadable path op v :
  clean path -> path <> [] -> op ∈ [js ">"; js ">="; js "<"; js "<="] ->
  tryParseRequestCondition (ph_text path SOURCE_PARAM (js " " ++ op ++ js " " ++ v)) = Null.
Proof.
  intros Hp Hne Hop. unfold tryParseRequestCondition. rewrite ph_not_time, ph_unreadable; [done | done | done | |];
    (revert Hop; rewrite !elem_of_cons, elem_of_nil; intros H; by destruct_or! H; subst op).
Qed.

Lemma op_shape path op v :
  clean path -> op ∈ [js ">"; js ">="; js "<"; js "<="] -> numeric v = true ->
  cond_shape (ph_text path SOURCE_PARAM (js " " ++ op ++ js " " ++ v)).
Proof.
  intros Hp Hop Hv.
  assert (O : (38%N ∉ op) /\ stays 1 op = Some 1%Z).
  { revert Hop. rewrite !elem_of_cons, elem_of_nil. intros H. destruct_or! H; subst op; (split; [lit_free | reflexivity]). }
  destruct O as [O1 O2]. rewrite !app_assoc. apply ph_shape; auto using numeric_trimmed with js.
  - amp_solve.
  - depth_solve O2.
Qed.

(** A comparison is printed as an existence test and the comparison itself. *)
Lemma param_compare_text path mode v :
  good_text path -> path <> [] -> mode ∈ [MATCH_GT; MATCH_GTE; MATCH_LT; MATCH_LTE] -> numeric v = true ->
  exists op, op ∈ [js ">"; js ">="; js "<"; js "<="] /\
    buildPHConditionExpr (mkPH SOURCE_PARAM path mode v) =
    join (js " && ") [ph_text path SOURCE_PARAM (exists_tail SOURCE_PARAM);
                      ph_text path SOURCE_PARAM (js " " ++ op ++ js " " ++ v)].
Proof.
  intros [Hp Ht] Hne Hm Hv.
  assert (Hn : offers (RPH SOURCE_PARAM) (Some mode) = true /\ str_eqb mode MATCH_EXISTS = false /\
    str_eqb mode MATCH_CONTAINS = false /\ exists op, op ∈ [js ">"; js ">="; js "<"; js "<="] /\
    map_get mode [(MATCH_GT, js ">"); (MATCH_GTE, js ">="); (MATCH_LT, js "<"); (MATCH_LTE, js "<=")] = Some op).
  { revert Hm. rewrite !elem_of_cons, elem_of_nil. intros H. destruct_or! H; subst mode;
      (split_and!; [reflexivity | reflexivity | reflexivity |]); eexists; (split; [| reflexivity]); set_solver. }
  destruct Hn as (Ho & H1 & H2 & op & Hop & Hg). exists op. split; [done |].
  unfold buildPHConditionExpr, normalizePH. cbv zeta.
  cbn [partial_of pc_path pc_mode pc_value ph_source ph_path ph_mode ph_value default from_option opt_str_or].
  rewrite Ho. unfold str_or. rewrite (proj2 (truthy_true _) Hne). cbv iota. rewrite trimmed_trim by done.
  rewrite (proj2 (truthy_true _) Hne). cbn [negb]. unfold id.
  rewrite H1, H2, Hg, numeric_trim, Hv by done. cbn [negb].
  rewrite clean_quote by done. unfold ph_text. cbn [join exists_tail source_name]. rewrite <- !app_assoc. done.
Qed.

(** ** Properties *)


Lemma split_combine base gs :
  good_base base -> Forall good_group gs -> gs <> [] ->
  splitBillingExprAndRequestRules (combineBillingExpr base (buildRequestRuleExpr gs)) =
  Found (mkSplit base (buildRequestRuleExpr gs)).
Proof.
  intros Hb Hg Hne. pose proof Hb as (Hbn & Ht & Hs & Hf & _).
  pose proof (factors_of gs Hg) as Hfs. pose proof (build_rules gs Hg) as Er.
  assert (Hparts : Forall is_factor ((js "(" ++ base ++ js ")") :: map buildRuleGroupFactor gs))
    by (constructor; [by exists base | done]).
  assert (Ec : combineBillingExpr base (buildRequestRuleExpr gs) =
               join (js " * ") ((js "(" ++ base ++ js ")") :: map buildRuleGroupFactor gs)).
  { unfold combineBillingExpr. cbv zeta. rewrite !trimmed_trim by auto using rules_trimmed.
    rewrite (proj2 (truthy_true _) Hbn). cbn [negb]. destruct gs as [|g gs]; [done |].
    assert (Hn : buildRequestRuleExpr (g :: gs) <> []).
    { rewrite Er. apply join_not_nil. inv Hg. by apply factor_ne, group_factor. }
    rewrite (proj2 (truthy_true _) Hn). cbn [negb]. rewrite Er.
    change (join (js " * ") ((js "(" ++ base ++ js ")") :: map buildRuleGroupFactor (g :: gs))) with
      ((js "(" ++ base ++ js ")") ++ js " * " ++ join (js " * ") (map buildRuleGroupFactor (g :: gs))).
    by rewrite <- !app_assoc. }
  rewrite Ec. unfold splitBillingExprAndRequestRules. cbv zeta.
  rewrite trimmed_trim by by apply join_trimmed.
  rewrite (proj2 (truthy_true _)) by by apply join_not_nil. cbn [negb]. rewrite split_mul_join by done.
  destruct gs as [|g gs]; [done |]. cbn [length map]. cbn [Nat.leb].
  change (buildRuleGroupFactor g :: map buildRuleGroupFactor gs) with (map buildRuleGroupFactor (g :: gs)).
  cbn [classify_parts]. rewrite base_no_rule by done. rewrite (classify_factors (g :: gs)) by done.
  cbn [mbind option_bind map]. rewrite unwrap_factor by done. by rewrite Er.
Qed.

(** an expression combined from a base and printed rules splits into the
    same base and the same rules. *)
Theorem split_combine_roundtrip base gs :
  good_base base -> Forall good_group gs -> gs <> [] ->
  splitBillingExprAndRequestRules (combineBillingExpr base (buildRequestRuleExpr gs)) =
  Found (mkSplit base (buildRequestRuleExpr gs)).
Proof. apply split_combine. Qed.

(** a comparison of a request parameter is printed as two conjuncts, which
    the parser separates and the second of which it does not know: such a rule
    never reads back. *)
Theorem param_comparison_unreadable path mode v mult :
  good_text path -> path <> [] -> mode ∈ [MATCH_GT; MATCH_GTE; MATCH_LT; MATCH_LTE] ->
  numeric v = true -> numeric mult = true ->
  tryParseRequestRuleExpr (buildRequestRuleExpr [mkGroup [CPH (mkPH SOURCE_PARAM path mode v)] mult]) = Null.
Proof.
  intros Hp Hne Hm Hv Hmult. destruct (param_compare_text path mode v Hp Hne Hm Hv) as (op & Hop & E).
  destruct Hp as [Hp Ht]. set (es := [_; _]) in E.
  assert (Hsh : Forall cond_shape es).
  { constructor; [by apply exists_reads_back | apply Forall_singleton; by apply op_shape]. }
  assert (Hj : join (js " && ") es <> []) by (apply join_not_nil; by destruct path).
  assert (Eb : buildRequestRuleExpr [mkGroup [CPH (mkPH SOURCE_PARAM path mode v)] mult] =
               factor_text (join (js " && ") es) mult).
  { unfold buildRequestRuleExpr. cbn [map]. unfold buildRuleGroupFactor. cbn [g_multiplier g_conditions map].
    cbv zeta. rewrite numeric_trim, Hmult by done. cbn [negb buildRequestConditionExpr]. rewrite E.
    cbn [List.filter]. rewrite (proj2 (truthy_true _) Hj). done. }
  rewrite Eb, parse_single, parse_factor by (done || by apply pieces_factor). unfold es. cbn [outcome_map].
  rewrite op_unreadable by done. destruct (exists_reads_back path Hp Hne SOURCE_PARAM) as (_ & -> & _). done.
Qed.

(** *** What unwrapping removes *)

(** Texts whose parentheses match. *)
Inductive balanced : str -> Prop :=
  | balanced_nil : balanced []
  | balanced_unit c s : c <> 40%N -> c <> 41%N -> balanced s -> balanced (c :: s)
  | balanced_pair s k : balanced s -> balanced k -> balanced (40%N :: s ++ 41%N :: k).

(** A text that closes [n] parentheses which are open before it, and none else. *)
Inductive closes : nat -> str -> Prop :=
  | closes_nil : closes 0 []
  | closes_unit n c s : c <> 40%N -> c <> 41%N -> closes n s -> closes n (c :: s)
  | closes_open n s : closes (S n) s -> closes n (40%N :: s)
  | closes_close n s : closes n s -> closes (S n) (41%N :: s).

Lemma balanced_closes s n k : balanced s -> closes n k -> closes n (s ++ k).
Proof.
  intros H. revert n k. induction H as [|c s H1 H2 _ IH|s t _ IHs _ IHt]; intros n k Hk; [done | by constructor; auto |].
  cbn. rewrite <- app_assoc. cbn. apply closes_open, IHs, closes_close, IHt, Hk.
Qed.

(** The first of the open parentheses is closed after a balanced text. *)
Lemma closes_split n s : closes (S n) s -> exists a b, s = a ++ 41%N :: b /\ balanced a /\ closes n b.
Proof.
  revert n. induction s as [s IH] using (induction_ltof1 _ (@length N)). unfold ltof in IH. intros n H. inversion H as [|m c r H1 H2 Hr|m r Hr|m r Hr]; subst.
  - destruct (IH r ltac:(cbn; lia) n Hr) as (a & b & -> & Ha & Hb). exists (c :: a), b. split; [done |]. split; [by constructor | done].
  - destruct (IH r ltac:(cbn; lia) (S n) Hr) as (a & b & -> & Ha & Hb). destruct (IH b ltac:(cbn; rewrite length_app; cbn; lia) n Hb) as (a' & b' & -> & Ha' & Hb').
    exists (40%N :: a ++ 41%N :: a'), b'. split; [cbn; by rewrite <- app_assoc |]. split; [by constructor | done].
  - exists [], r. split; [done |]. split; [constructor | done].
Qed.

Lemma closes_balanced s : closes 0 s -> balanced s.
Proof.
  induction s as [s IH] using (induction_ltof1 _ (@length N)). unfold ltof in IH. intros H. inversion H as [|m c r H1 H2 Hr|m r Hr|]; subst.
  - constructor.
  - constructor; [done | done |]. apply IH; [cbn; lia | done].
  - apply closes_split in Hr as (a & b & -> & Ha & Hb). constructor; [done |]. apply IH; [cbn; rewrite length_app; cbn; lia | done].
Qed.

Lemma scan_closes s n : full_parens_scan (Z.of_nat (S n)) s = true <-> exists a, s = a ++ [41%N] /\ closes n a.
Proof.
  revert n. induction s as [|c s IH]; intros n.
  - split; [cbn; lia |]. intros ([] & E & _); done.
  - cbn [full_parens_scan]. destruct (N.eqb_spec c 40) as [-> | H40]; [| destruct (N.eqb_spec c 41) as [-> | H41]].
    + cbn [N.eqb Pos.eqb]. replace (Z.of_nat (S n) + 1)%Z with (Z.of_nat (S (S n))) by lia. rewrite (proj2 (Z.eqb_neq _ _)) by lia. cbn [andb]. rewrite IH. split.
      * intros (a & -> & Ha). exists (40%N :: a). split; [done | by constructor].
      * intros ([|x a] & E & Ha); [done |]. injection E as <- ->. inversion Ha; subst; [done |]. by exists a.
    + cbn [N.eqb Pos.eqb]. destruct n as [|n].
      * destruct s as [|d s]; cbn; [split; [exists []; split; [done | constructor] | done] |]. split; [done |]. intros ([|x a] & E & Ha); [done |]. injection E as <- _. by inversion Ha.
      * replace (Z.of_nat (S (S n)) - 1)%Z with (Z.of_nat (S n)) by lia. rewrite (proj2 (Z.eqb_neq _ _)) by lia. cbn [andb]. rewrite IH. split.
        -- intros (a & -> & Ha). exists (41%N :: a). split; [done | by constructor].
        -- intros ([|x a] & E & Ha); [injection E as ->; by inversion Ha |]. injection E as <- ->. inversion Ha; subst; [done |]. by exists a.
    + rewrite (proj2 (Z.eqb_neq _ _)) by lia. cbn [andb]. rewrite IH. split.
      * intros (a & -> & Ha). exists (c :: a). split; [done | by constructor].
      * intros ([|x a] & E & Ha); [by injection E as -> |]. injection E as <- ->. inversion Ha; subst; try done. by exists a.
Qed.

(** The test of the code: the whole text is one pair of parentheses around a balanced text. *)
Lemma enclosed_spec s : hasFullOuterParens s = true <-> exists inner, s = js "(" ++ inner ++ js ")" /\ balanced inner.
Proof.
  unfold hasFullOuterParens. split.
  - destruct (starts_with s (js "(")) eqn:E; [| done]. destruct (ends_with s (js ")")); [| done]. cbn [negb orb]. intros H.
    destruct s as [|c r]; [done |]. change (js "(") with [40%N] in E. cbn [starts_with] in E. apply andb_prop in E as [E%N.eqb_eq _]. subst c.
    cbn [full_parens_scan N.eqb Pos.eqb Z.add Z.eqb andb] in H. apply (scan_closes r 0) in H as (a & -> & Ha). exists a. split; [done | by apply closes_balanced].
  - intros (inner & -> & Hb). rewrite starts_with_app.
    assert (E : ends_with (js "(" ++ inner ++ js ")") (js ")") = true) by (unfold ends_with; rewrite app_assoc, reverse_app; apply starts_with_app).
    rewrite E. cbn [negb orb]. change (full_parens_scan 0 (js "(" ++ inner ++ js ")")) with (full_parens_scan (Z.of_nat 1) (inner ++ [41%N])).
    apply scan_closes. exists inner. split; [done |]. rewrite <- (app_nil_r inner). apply balanced_closes; [done | constructor].
Qed.

(** [r] is what is left of [s] after pairs of enclosing parentheses, and the white space inside them, were taken off. *)
Inductive peeled : str -> str -> Prop :=
  | peeled_none s : peeled s s
  | peeled_pair inner r : balanced inner -> peeled (trim inner) r -> peeled (js "(" ++ inner ++ js ")") r.

Lemma unwrap_loop_peeled fuel s : peeled s (unwrap_loop fuel s).
Proof.
  revert s. induction fuel as [|fuel IH]; intros s; cbn [unwrap_loop]; [constructor |]. destruct (hasFullOuterParens s) eqn:E; [| constructor].
  apply enclosed_spec in E as (inner & -> & Hb). rewrite slice_inner. constructor; [done | apply IH].
Qed.

(** C36: unwrapping ends, whatever the text: it takes off pairs of parentheses that enclose the whole text - an opening one, a
    text whose parentheses match, a closing one - with the white space around, nothing else, and stops only at a text that no
    such pair encloses. *)
Theorem unwrap_terminates expr :
  peeled (trim expr) (unwrapOuterParens expr) /\ forall inner, balanced inner -> unwrapOuterParens expr <> js "(" ++ inner ++ js ")".
Proof.
  unfold unwrapOuterParens. split; [apply unwrap_loop_peeled |]. intros inner Hb E.
  pose proof (unwrap_loop_done (length (trim expr)) (trim expr) ltac:(lia)) as H. rewrite E in H.
  assert (hasFullOuterParens (js "(" ++ inner ++ js ")") = true) by (apply enclosed_spec; by exists inner). congruence.
Qed.

(** ** Normal forms of conditions *)

Lemma offers_default source mode :
  offers source mode = true -> offers source (Some (default [] mode)) = true.
Proof.
  destruct mode as [m|]; [done |]. unfold offers. intros H. apply existsb_exists in H as (x & _ & Hx).
  by apply bool_decide_eq_true in Hx.
Qed.

(** normalizing a condition gives one whose mode is offered for its source,
    with a known time function and a time zone, and normalizing again changes
    nothing. *)
Theorem normalize_condition_valid cond :
  let c := normalizeCondition cond in
  normalizeCondition (partial_of c) = c /\
  match c with
  | CTime t => tm_timeFunc t ∈ TIME_FUNCS /\ tm_timezone t <> [] /\ offers RTime (Some (tm_mode t)) = true
  | CPH p => offers (RPH (ph_source p)) (Some (ph_mode p)) = true
  end.
Proof.
  assert (Ht : forall o d, d <> [] -> opt_str_or o d <> []).
  { intros [s|] d Hd; [| done]. cbn [opt_str_or]. unfold str_or. destruct (truthy s) eqn:E; [| done].
    by apply truthy_true. }
  assert (Hmode : forall source mode d, offers source (Some d) = true ->
    offers source (Some (if offers source mode then default [] mode else d)) = true).
  { intros source mode d Hd. destruct (offers source mode) eqn:E; [by apply offers_default | done]. }
  assert (Hph : forall src, normalizePH src (partial_of (CPH (normalizePH src cond))) = normalizePH src cond).
  { intros src. unfold normalizePH at 1. cbn [partial_of pc_mode ph_mode pc_path ph_path pc_value ph_value].
    change (ph_mode (normalizePH src cond)) with
      (if offers (RPH src) (pc_mode cond) then default [] (pc_mode cond) else MATCH_EQ).
    rewrite Hmode by by destruct src.
    assert (Hi : forall o, opt_str_or (Some (opt_str_or o [])) [] = opt_str_or o []).
    { intros [[|x s]|]; done. }
    unfold normalizePH. cbn [ph_path ph_value]. by rewrite Hi. }
  intros c. unfold c, normalizeCondition.
  destruct (bool_decide_reflect (pc_source cond = Some (js "time"))) as [E|E].
  - assert (Hf : set_has (tm_timeFunc (normalizeTime cond)) TIME_FUNCS = true).
    { cbn [normalizeTime tm_timeFunc]. destruct (isTimeFunc (pc_timeFunc cond)) eqn:Ef; [| reflexivity].
      unfold isTimeFunc in Ef. by destruct (pc_timeFunc cond). }
    assert (Hz : tm_timezone (normalizeTime cond) <> []) by by apply Ht.
    assert (Hm : offers RTime (Some (tm_mode (normalizeTime cond))) = true) by by apply Hmode.
    split; [| split_and!; [by apply set_has_spec | done | done]].
    cbn [partial_of pc_source]. rewrite bool_decide_true by done. f_equal. unfold normalizeTime at 1.
    cbn [partial_of pc_timeFunc pc_timezone pc_mode pc_value pc_rangeStart pc_rangeEnd isTimeFunc].
    rewrite Hf, Hm. cbn [default from_option opt_str_or]. unfold str_or.
    by rewrite (proj2 (truthy_true _) Hz).
  - destruct (bool_decide_reflect (pc_source cond = Some (js "header"))) as [E'|E'];
      (split; [| by apply Hmode]); cbn [partial_of pc_source normalizePH ph_source];
      rewrite bool_decide_false by done; f_equal; apply Hph.
Qed.

(** ** Tiers *)

Lemma n_or_zero_not_nan x : isNaN (n_or_zero x) = false.
Proof. by destruct x. Qed.

(** every tier read from an expression has a price for every pricing
    variable of the registry, in its order, and no price is NaN. *)
Theorem tier_prices_complete expr t :
  t ∈ parseTiersFromExpr expr ->
  map fst (t_prices t) = map snd BILLING_VAR_KEY_TO_FIELD /\
  Forall (fun e => isNaN (snd e) = false) (t_prices t).
Proof.
  unfold parseTiersFromExpr. destruct (negb (truthy expr)); [set_solver |].
  destruct (stripExprVersion expr) as [v body]. unfold map at 1.
  intros (m & -> & _)%list_elem_of_fmap. cbn [t_prices]. unfold parseTierBody. cbv zeta. split.
  - rewrite map_map. apply map_ext. by intros [k f].
  - apply Forall_fmap, Forall_forall. intros [k f] _. apply n_or_zero_not_nan.
Qed.

(** ** Witnesses *)

Lemma demo_clean (s : str) :
  forallb (fun c => (32 <=? c)%N && (c <? 65536)%N && negb (is_high c) && negb (is_low c) &&
                    none_of ([34; 92; 40; 41; 38; 124; 8232; 8233]%N) c) s = true -> clean s.
Proof.
  rewrite forallb_forall. intros H. apply Forall_forall. intros c Hc%list_elem_of_In. specialize (H c Hc).
  rewrite !andb_true_iff, !negb_true_iff in H. destruct H as ((((H1 & H2) & H3) & H4) & H5).
  unfold clean_char. split_and!; try done; lia.
Qed.

Ltac demo_text := split; [apply demo_clean; vm_compute; reflexivity | split; vm_compute; reflexivity].

Lemma demo_groups_good : Forall good_group demo_groups.
Proof.
  constructor; [| constructor; [| constructor]].
  - split_and!; [done | | vm_compute; reflexivity].
    constructor; [| constructor; [| constructor; [| constructor]]].
    + split_and!; [lit_free | apply demo_clean; vm_compute; reflexivity | done |].
      left. split_and!; vm_compute; reflexivity.
    + split_and!; [demo_text | done |]. right. left. split; [reflexivity | demo_text].
    + split_and!; [demo_text | done |]. right. left. split; [reflexivity | demo_text].
  - split_and!; [done | | vm_compute; reflexivity]. constructor; [| constructor].
    split_and!; [demo_text | done |]. right. right. split_and!; [reflexivity | reflexivity | demo_text].
Qed.


Lemma split_combine_roundtrip_witness :
  let base := jsq "len <= 200000 ? tier('base', p * 2) : tier('long', p * 4)" in
  splitBillingExprAndRequestRules (combineBillingExpr base (buildRequestRuleExpr demo_groups)) =
  Found (mkSplit base (buildRequestRuleExpr demo_groups)).
Proof.
  apply split_combine_roundtrip; [| exact demo_groups_good | discriminate].
  split_and!; [discriminate | split; vm_compute; reflexivity | vm_compute; reflexivity ..].
Defined.

Lemma param_comparison_unreadable_witness :
  tryParseRequestRuleExpr (buildRequestRuleExpr
    [mkGroup [CPH (mkPH SOURCE_PARAM (js "max_tokens") MATCH_GTE (js "1000"))] (js "1.5")]) = Null.
Proof.
  apply param_comparison_unreadable;
    [demo_text | discriminate | lit_free | vm_compute; reflexivity | vm_compute; reflexivity].
Defined.

Lemma tier_prices_complete_witness :
  exists t, t ∈ parseTiersFromExpr (jsq "tier('base', p * 2 + c * 8)") /\
    Forall (fun e => isNaN (snd e) = false) (t_prices t).
Proof.
  eexists. assert (H : default (mkTier [] [] []) (head (parseTiersFromExpr (jsq "tier('base', p * 2 + c * 8)")))
                       ∈ parseTiersFromExpr (jsq "tier('base', p * 2 + c * 8)")) by (vm_compute; left).
  split; [exact H | exact (proj2 (tier_prices_complete _ _ H))].
Defined.
