(* ===== verification/TierExpr.v ===== *)
(** * Visual tier editor

    Model of [features/pricing/lib/tier-expr.ts]: tiers of the visual editor,
    their normalization, the expression generated from them and the parser that
    recognises generated expressions.  The cost estimator compiles the text as
    program code with [new Function] and is not modelled, except for its table
    of variables. *)
From S2P Require Import Prelude Number Regex Json BillingExpr BillingProps.

Inductive CacheMode := CACHE_MODE_TIMED | CACHE_MODE_GENERIC.

(** A condition value is a number or the text typed by the user. *)
Inductive CondValue := VNum (n : num) | VStr (s : str).
Record TierConditionInput := mkCondInput { ci_var : str; ci_op : str; ci_value : option CondValue }.

Record VisualTier := mkVTier {
  vt_label : str; vt_conditions : list TierConditionInput; vt_input : num; vt_output : num;
  vt_cache_mode : CacheMode; vt_cache_read : num; vt_cache_create : num; vt_cache_create_1h : num;
  vt_image : num; vt_image_output : num; vt_audio_input : num; vt_audio_output : num
}.
Record VisualConfig := mkVConfig { vc_tiers : list VisualTier }.

(** [Partial<VisualTier>]: [None] for an absent property. *)
Record PartialTier := mkPTier {
  pt_label : option str; pt_conditions : option (list TierConditionInput); pt_input : option num;
  pt_output : option num; pt_cache_mode : option CacheMode; pt_cache_read : option num;
  pt_cache_create : option num; pt_cache_create_1h : option num; pt_image : option num;
  pt_image_output : option num; pt_audio_input : option num; pt_audio_output : option num
}.

Definition partial_tier (t : VisualTier) : PartialTier :=
  mkPTier (Some (vt_label t)) (Some (vt_conditions t)) (Some (vt_input t)) (Some (vt_output t))
    (Some (vt_cache_mode t)) (Some (vt_cache_read t)) (Some (vt_cache_create t))
    (Some (vt_cache_create_1h t)) (Some (vt_image t)) (Some (vt_image_output t))
    (Some (vt_audio_input t)) (Some (vt_audio_output t)).

(** [Number(x)] of an absent property is NaN. *)
Definition prop_num (o : option num) : num := default n_nan o.

Definition getTierCacheMode (tier : PartialTier) : CacheMode :=
  match pt_cache_mode tier with
  | Some mode => mode
  | None => if n_ltb n_zero (prop_num (pt_cache_create_1h tier)) then CACHE_MODE_TIMED else CACHE_MODE_GENERIC
  end.

(** The properties before the spread of [tier] are defaults: a present property
    replaces them as it is.  The ones after it are normalized. *)
Definition normalizeVisualTier (tier : PartialTier) : VisualTier :=
  mkVTier
    (default [] (pt_label tier))
    (default [] (pt_conditions tier))
    (default n_zero (pt_input tier))
    (default n_zero (pt_output tier))
    (getTierCacheMode tier)
    (n_or_zero (prop_num (pt_cache_read tier)))
    (n_or_zero (prop_num (pt_cache_create tier)))
    (n_or_zero (prop_num (pt_cache_create_1h tier)))
    (n_or_zero (prop_num (pt_image tier)))
    (n_or_zero (prop_num (pt_image_output tier)))
    (n_or_zero (prop_num (pt_audio_input tier)))
    (n_or_zero (prop_num (pt_audio_output tier))).

Definition createDefaultVisualConfig : VisualConfig :=
  mkVConfig [normalizeVisualTier (mkPTier (Some (js "base")) (Some []) (Some n_zero) (Some n_zero)
               (Some CACHE_MODE_GENERIC) None None None None None None None)].

Definition normalizeVisualConfig (config : option VisualConfig) : VisualConfig :=
  match config with
  | None | Some (mkVConfig []) => createDefaultVisualConfig
  | Some c => mkVConfig (map (fun t => normalizeVisualTier (partial_tier t)) (vc_tiers c))
  end.

Definition show_value (v : CondValue) : str :=
  match v with VNum n => num_to_str n | VStr s => s end.

Definition buildConditionStr (conditions : list TierConditionInput) : str :=
  join (js " && ")
    (omap (fun c =>
       match ci_value c with
       | None | Some (VStr []) => None
       | Some v => if truthy (ci_var c) && truthy (ci_op c)
                   then Some (ci_var c ++ js " " ++ ci_op c ++ js " " ++ show_value v) else None
       end) conditions).

(** [tier[field]] for a field of the registry. *)
Definition tier_field (tier : VisualTier) (field : str) : num :=
  default n_nan (map_get field
    [(js "input_unit_cost", vt_input tier); (js "output_unit_cost", vt_output tier);
     (js "cache_read_unit_cost", vt_cache_read tier); (js "cache_create_unit_cost", vt_cache_create tier);
     (js "cache_create_1h_unit_cost", vt_cache_create_1h tier); (js "image_unit_cost", vt_image tier);
     (js "image_output_unit_cost", vt_image_output tier);
     (js "audio_input_unit_cost", vt_audio_input tier);
     (js "audio_output_unit_cost", vt_audio_output tier)]).

Definition buildTierBodyExpr (tier : VisualTier) : str :=
  let ic := n_or_zero (vt_input tier) in
  let oc := n_or_zero (vt_output tier) in
  join (js " + ")
    ([js "p * " ++ num_to_str ic; js "c * " ++ num_to_str oc] ++
     omap (fun '(field, exprVar) =>
             let v := n_or_zero (tier_field tier field) in
             if n_eqb v n_zero then None else Some (exprVar ++ js " * " ++ num_to_str v))
       BILLING_CACHE_VAR_MAP).

Definition tier_call (label : str) (tier : VisualTier) : str :=
  jsq "tier('" ++ label ++ jsq "', " ++ buildTierBodyExpr tier ++ js ")".

Definition NO_PRICE : str := js "p * 0 + c * 0".

Definition generateExprFromVisualConfig (config : option VisualConfig) : str :=
  match config with
  | None | Some (mkVConfig []) => NO_PRICE
  | Some (mkVConfig [tier]) =>
      let body := tier_call (str_or (vt_label tier) (js "default")) tier in
      let cond := buildConditionStr (vt_conditions tier) in
      if truthy cond then cond ++ js " ? " ++ body ++ js " : " ++ NO_PRICE else body
  | Some (mkVConfig tiers) =>
      join (js " : ")
        (imap (fun i tier =>
           let label := str_or (vt_label tier) (js "tier_" ++ show_N (N.of_nat (i + 1))) in
           let body := tier_call label tier in
           let cond := buildConditionStr (vt_conditions tier) in
           if (i <? length tiers - 1)%nat && truthy cond then cond ++ js " ? " ++ body else body) tiers)
  end.

(** ** Parser *)

Definition cacheVarNames : list str := map snd BILLING_CACHE_VAR_MAP.

(** The optional summand of a variable. *)
Definition opt_cache (group : nat) (v : str) : regex :=
  ROpt (rseq [spaces; rlit (js "+"); spaces; rlit v; spaces; rlit (js "*"); spaces; RGroup group number_chars]).

Definition optCacheStr (group : nat) : list regex := imap (fun i v => opt_cache (group + i) v) cacheVarNames.

(** The body of a tier; its groups are numbered from [group]. *)
Definition bodyPat (group : nat) : list regex :=
  [rlit (js "p"); spaces; rlit (js "*"); spaces; RGroup group number_chars; spaces; rlit (js "+"); spaces;
   rlit (js "c"); spaces; rlit (js "*"); spaces; RGroup (group + 1) number_chars] ++ optCacheStr (group + 2).

Definition tier_open (group : nat) : list regex :=
  [rlit (jsq "tier('"); RGroup group (RStar (RChar (none_of [dquote]))); rlit (jsq "',"); spaces].

Definition singleRe : regex := ranch (rseq (tier_open 1 ++ bodyPat 2 ++ [rlit (js ")")])).
Definition visualTierRe : regex :=
  RSeq (ROpt (rseq [RGroup 1 condGroup; spaces; rlit (js "?"); spaces]))
    (rseq (tier_open 2 ++ bodyPat 3 ++ [rlit (js ")")])).

(** The tier read from a match whose label is group [g]. *)
Definition tier_of_match (g : nat) (conditions : list TierConditionInput) (m : rresult) : VisualTier :=
  let number i := num_of_str (capd i m) in
  let extra i := num_of_str <$> cap (g + 3 + i) m in
  normalizeVisualTier
    (mkPTier (Some (capd g m)) (Some conditions) (Some (number (g + 1)%nat)) (Some (number (g + 2)%nat)) None
       (extra 0%nat) (extra 1%nat) (extra 2%nat) (extra 3%nat) (extra 4%nat) (extra 5%nat) (extra 6%nat)).

Definition input_conditions (condStr : str) : list TierConditionInput :=
  map (fun c => mkCondInput (tc_var c) (tc_op c) (Some (VNum (tc_value c)))) (parse_tier_conditions condStr).

Definition strip_spaces (s : str) : str := List.filter (fun c => negb (is_space c)) s.

Definition expr_body (exprStr : str) : str :=
  match rexec (ranch (rseq [rlit (js "v"); digits_plus; rlit (js ":"); RGroup 1 (RStar (RChar (fun _ => true)))])) exprStr with
  | Some m => capd 1 m
  | None => exprStr
  end.

Definition tryParseVisualConfig (exprStr : option str) : option VisualConfig :=
  match exprStr with
  | None | Some [] => None
  | Some exprStr =>
      let body := expr_body exprStr in
      match rexec singleRe body with
      | Some simple => Some (normalizeVisualConfig (Some (mkVConfig [tier_of_match 1 [] simple])))
      | None =>
          let tiers := map (fun m => tier_of_match 2 (input_conditions (capd 1 m)) m)
                         (rexec_all visualTierRe body) in
          match tiers with
          | [] => None
          | _ =>
              let cfg := normalizeVisualConfig (Some (mkVConfig tiers)) in
              let regenerated := generateExprFromVisualConfig (Some cfg) in
              if str_eqb (strip_spaces regenerated) (strip_spaces body) then Some cfg else None
          end
      end
  end.

(** Variables of the cost estimator. *)
Definition ESTIMATOR_VARS : list (str * str) :=
  [(js "cr", js "cacheReadTokens"); (js "cc", js "cacheCreateTokens"); (js "cc1h", js "cacheCreate1hTokens");
   (js "img", js "imageTokens"); (js "img_o", js "imageOutputTokens"); (js "ai", js "audioInputTokens");
   (js "ao", js "audioOutputTokens")].

Definition exprUsesExtraVars (exprStr : str) : bool :=
  if negb (truthy exprStr) then false
  else rtest (rseq [RWordB; RGroup 1 (lits (map fst ESTIMATOR_VARS)); RWordB]) exprStr.

(** ** Examples *)

Definition demo_tier (label : str) (conds : list TierConditionInput) (p c cr : string) : VisualTier :=
  mkVTier label conds (lit p) (lit c) CACHE_MODE_GENERIC (lit cr) n_zero n_zero n_zero n_zero n_zero n_zero.
Definition demo_config : VisualConfig :=
  mkVConfig [demo_tier (js "base") [mkCondInput (js "len") (js "<=") (Some (VNum (lit "200000")))] "2.5" "15" "0.25";
             demo_tier (js "long") [] "5" "22.5" "0"].

Example generate_ex : generateExprFromVisualConfig (Some demo_config) =
  jsq "len <= 200000 ? tier('base', p * 2.5 + c * 15 + cr * 0.25) : tier('long', p * 5 + c * 22.5)".
Proof. vm_compute. reflexivity. Qed.

Example visual_ex : tryParseVisualConfig (Some (generateExprFromVisualConfig (Some demo_config))) = Some demo_config.
Proof. vm_compute. reflexivity. Qed.

Example visual_single :
  let cfg := mkVConfig [mkVTier (js "base") [] (lit "1e-7") (lit "3") CACHE_MODE_TIMED n_zero (lit "3.75") (lit "6")
                          n_zero n_zero n_zero (lit "0.5")] in
  tryParseVisualConfig (Some (generateExprFromVisualConfig (Some cfg))) = Some cfg.
Proof. vm_compute. reflexivity. Qed.

(** ** Properties *)

Lemma n_or_zero_idem x : n_or_zero (n_or_zero x) = n_or_zero x.
Proof. by destruct x as [[]| | |]. Qed.

Lemma normalize_tier_idem p : normalizeVisualTier (partial_tier (normalizeVisualTier p)) = normalizeVisualTier p.
Proof.
  unfold normalizeVisualTier, partial_tier, prop_num.
  cbn [pt_label pt_conditions pt_input pt_output pt_cache_mode pt_cache_read pt_cache_create pt_cache_create_1h
       pt_image pt_image_output pt_audio_input pt_audio_output vt_label vt_conditions vt_input vt_output
       vt_cache_mode vt_cache_read vt_cache_create vt_cache_create_1h vt_image vt_image_output vt_audio_input
       vt_audio_output default from_option].
  unfold id. by rewrite !n_or_zero_idem.
Qed.

(** The tiers of a configuration in normal form. *)
Definition normal_config (c : VisualConfig) : Prop :=
  vc_tiers c <> [] /\ Forall (fun t => exists p, t = normalizeVisualTier p) (vc_tiers c).

Lemma normalize_config_normal c : normal_config (normalizeVisualConfig c).
Proof.
  destruct c as [[[|t ts]]|]; (split; [done |]).
  - repeat constructor. by eexists.
  - apply Forall_forall. intros u Hu. cbn [vc_tiers normalizeVisualConfig] in Hu. unfold map in Hu.
    apply (list_elem_of_fmap (fun t => normalizeVisualTier (partial_tier t)) (t :: ts)) in Hu as (w & -> & _).
    by eexists.
  - repeat constructor. by eexists.
Qed.

(** normalizing a configuration gives at least one tier, and normalizing it
    again changes nothing. *)
Theorem normalize_visual_config_idempotent c :
  vc_tiers (normalizeVisualConfig c) <> [] /\
  normalizeVisualConfig (Some (normalizeVisualConfig c)) = normalizeVisualConfig c.
Proof.
  destruct (normalize_config_normal c) as [Hne Hn]. split; [done |].
  destruct (normalizeVisualConfig c) as [[|t ts]]; [done |]. cbn [vc_tiers] in *.
  change (normalizeVisualConfig (Some (mkVConfig (t :: ts)))) with
    (mkVConfig (map (fun t => normalizeVisualTier (partial_tier t)) (t :: ts))).
  f_equal. clear Hne. induction Hn as [|u us [p ->] _ IH]; [done |].
  cbn [map]. by rewrite normalize_tier_idem, IH.
Qed.

(** an expression the visual editor accepts, other than a single
    unconditional tier, is the one generated from the configuration, up to white
    space: opening and saving it does not change its meaning. *)
Theorem visual_config_faithful expr cfg :
  tryParseVisualConfig (Some expr) = Some cfg ->
  rexec singleRe (expr_body expr) = None ->
  normal_config cfg /\
  strip_spaces (generateExprFromVisualConfig (Some cfg)) = strip_spaces (expr_body expr).
Proof.
  unfold tryParseVisualConfig. destruct expr as [|c expr]; [done |]. intros H Hs. rewrite Hs in H.
  destruct (map _ (rexec_all visualTierRe _)) as [|t ts]; [done |]. cbv zeta in H.
  destruct (str_eqb _ _) eqn:E; [| done]. apply (inj Some) in H. rewrite <- H.
  split; [exact (normalize_config_normal (Some (mkVConfig (t :: ts)))) | by apply str_eqb_eq].
Qed.

Lemma visual_config_faithful_witness :
  let expr := generateExprFromVisualConfig (Some demo_config) in
  normal_config demo_config /\
  strip_spaces (generateExprFromVisualConfig (Some demo_config)) = strip_spaces (expr_body expr).
Proof.
  intros expr. apply visual_config_faithful; vm_compute; reflexivity.
Defined.

(** A present property is not normalized: the defaults are spread over. *)
Example spread_keeps_nan :
  isNaN (vt_input (normalizeVisualTier (mkPTier None None (Some n_nan) None None None None None None None None None))) = true.
Proof. reflexivity. Qed.
