(* ===== verification/Playground.v ===== *)
(** * Playground conversations

    Model of [features/playground/types.ts] and [features/playground/lib/message]:
    messages, their versions, reasoning and timing, the streaming updates, and
    the operations on a conversation.

    Times are integral milliseconds.  A reading of the clock ([Date.now()]) is an
    argument of the operation that makes it, one per reading; fresh identifiers
    of [nanoid] are arguments too, and the translation function is a parameter. *)
From S2P Require Import Prelude Number Regex Json.

Inductive MessageRole := RoleUser | RoleAssistant | RoleSystem.
Inductive MessageStatus := StLoading | StStreaming | StComplete | StError.
#[global] Instance MessageRole_eq_dec : EqDecision MessageRole.
Proof. solve_decision. Defined.
#[global] Instance MessageStatus_eq_dec : EqDecision MessageStatus.
Proof. solve_decision. Defined.

Record MessageVersion := mkVersion { v_id : str; v_content : str }.
Record Reasoning := mkReasoning {
  r_content : str; r_duration : Z; r_startedAt : option Z; r_completedAt : option Z; r_durationMs : option Z
}.
Record Source := mkSource { s_href : str; s_title : str }.

(** [m_errorCode]: the value of a JSON document when it comes from a stream. *)
Record Message := mkMessage {
  m_key : str; m_from : MessageRole; m_versions : list MessageVersion; m_createdAt : option Z;
  m_startedAt : option Z; m_completedAt : option Z; m_durationMs : option Z;
  m_sources : option (list Source); m_reasoning : option Reasoning;
  m_isReasoningStreaming : option bool; m_isReasoningComplete : option bool;
  m_isContentComplete : option bool; m_status : option MessageStatus;
  m_errorCode : option json
}.

(** Object spreads that replace some properties. *)
Definition with_versions (m : Message) (v : list MessageVersion) : Message :=
  mkMessage (m_key m) (m_from m) v (m_createdAt m) (m_startedAt m) (m_completedAt m) (m_durationMs m)
    (m_sources m) (m_reasoning m) (m_isReasoningStreaming m) (m_isReasoningComplete m)
    (m_isContentComplete m) (m_status m) (m_errorCode m).
Definition with_reasoning (m : Message) (r : option Reasoning) : Message :=
  mkMessage (m_key m) (m_from m) (m_versions m) (m_createdAt m) (m_startedAt m) (m_completedAt m)
    (m_durationMs m) (m_sources m) r (m_isReasoningStreaming m) (m_isReasoningComplete m)
    (m_isContentComplete m) (m_status m) (m_errorCode m).
Definition with_streaming (m : Message) (b : bool) : Message :=
  mkMessage (m_key m) (m_from m) (m_versions m) (m_createdAt m) (m_startedAt m) (m_completedAt m)
    (m_durationMs m) (m_sources m) (m_reasoning m) (Some b) (m_isReasoningComplete m)
    (m_isContentComplete m) (m_status m) (m_errorCode m).
Definition with_status (m : Message) (s : MessageStatus) : Message :=
  mkMessage (m_key m) (m_from m) (m_versions m) (m_createdAt m) (m_startedAt m) (m_completedAt m)
    (m_durationMs m) (m_sources m) (m_reasoning m) (m_isReasoningStreaming m) (m_isReasoningComplete m)
    (m_isContentComplete m) (Some s) (m_errorCode m).
Definition with_timing (m : Message) (started completed duration : Z) : Message :=
  mkMessage (m_key m) (m_from m) (m_versions m) (m_createdAt m) (Some started) (Some completed)
    (Some duration) (m_sources m) (m_reasoning m) (m_isReasoningStreaming m) (m_isReasoningComplete m)
    (m_isContentComplete m) (m_status m) (m_errorCode m).
Definition with_createdAt (m : Message) (t : option Z) : Message :=
  mkMessage (m_key m) (m_from m) (m_versions m) t (m_startedAt m) (m_completedAt m)
    (m_durationMs m) (m_sources m) (m_reasoning m) (m_isReasoningStreaming m) (m_isReasoningComplete m)
    (m_isContentComplete m) (m_status m) (m_errorCode m).
Definition with_errorCode (m : Message) (c : json) : Message :=
  mkMessage (m_key m) (m_from m) (m_versions m) (m_createdAt m) (m_startedAt m) (m_completedAt m)
    (m_durationMs m) (m_sources m) (m_reasoning m) (m_isReasoningStreaming m) (m_isReasoningComplete m)
    (m_isContentComplete m) (m_status m) (Some c).

(** ** message-utils.ts *)

Definition createMessageVersion (id content : str) : MessageVersion := mkVersion id content.

Definition getCurrentVersion (message : Message) : MessageVersion :=
  default (mkVersion (js "default") []) (head (m_versions message)).

Definition getMessageContent (message : Message) : str := v_content (getCurrentVersion message).

Definition hasMessageContent (message : Message) : bool := truthy (trim (getMessageContent message)).

Definition updateCurrentVersionContent (message : Message) (content : str) : Message :=
  let currentVersion := getCurrentVersion message in
  with_versions message [mkVersion (v_id currentVersion) content].

(** The two identifiers are the ones of the message and of its version. *)
Definition createUserMessage (key version content : str) (createdAt : Z) : Message :=
  mkMessage key RoleUser [createMessageVersion version content] (Some createdAt) None None None None None
    None None None None None.

Definition createLoadingAssistantMessage (key version : str) (startedAt : Z) : Message :=
  mkMessage key RoleAssistant [createMessageVersion version []] (Some startedAt) (Some startedAt) None None
    None None (Some false) (Some false) (Some false) (Some StLoading) None.

Inductive ContentPart := PText (text : str) | PImage (url : str).
Inductive MessageContent := CText (s : str) | CParts (l : list ContentPart).

Definition buildMessageContent (text : str) (imageUrls : list str) : MessageContent :=
  let validImages := List.filter (fun url => truthy (trim url)) imageUrls in
  match validImages with
  | [] => CText text
  | _ => CParts (PText text :: map (fun url => PImage (trim url)) validImages)
  end.

Definition getTextContent (content : MessageContent) : str :=
  match content with
  | CText s => s
  | CParts l =>
      match List.find (fun part => match part with PText _ => true | PImage _ => false end) l with
      | Some (PText t) => t
      | _ => []
      end
  end.

Record ChatCompletionMessage := mkChatMessage { cm_role : MessageRole; cm_content : str }.

Definition formatMessageForAPI (message : Message) : ChatCompletionMessage :=
  mkChatMessage (m_from message) (v_content (getCurrentVersion message)).

Definition isValidMessage (message : Message) : bool :=
  if (length (m_versions message) =? 0)%nat then false
  else if bool_decide (m_from message = RoleAssistant) && negb (hasMessageContent message) then false
  else true.

(** ** message-reasoning-utils.ts *)

Record ParsedThinkTags := mkThink { visibleContent : str; th_reasoning : str; hasUnclosedTag : bool }.

(** [s.indexOf(p)], [None] for -1. *)
Fixpoint index_of (p s : str) : option nat :=
  if starts_with s p then Some O
  else match s with [] => None | _ :: r => S <$> index_of p r end.

Definition OPEN_TAG : str := js "<think>".
Definition CLOSE_TAG : str := js "</think>".

(** The loop over the text after [currentPos]; every round drops at least the
    tags, so the length is enough fuel. *)
Fixpoint think_loop (fuel : nat) (s : str) (visible reasoning : list str) : list str * list str * bool :=
  match fuel with
  | O => (visible, reasoning, false)
  | S fuel =>
      match index_of OPEN_TAG s with
      | None => (if truthy s then visible ++ [s] else visible, reasoning, false)
      | Some openPos =>
          let visible := if (0 <? openPos)%nat then visible ++ [take openPos s] else visible in
          let rest := drop (openPos + 7) s in
          match index_of CLOSE_TAG rest with
          | None => (visible, reasoning ++ [rest], true)
          | Some closePos => think_loop fuel (drop (closePos + 8) rest) visible (reasoning ++ [take closePos rest])
          end
      end
  end.

Definition parseThinkTags (content : str) : ParsedThinkTags :=
  if negb (str_includes content OPEN_TAG) then mkThink content [] false
  else
    let '(visibleParts, reasoningParts, unclosed) := think_loop (S (length content)) content [] [] in
    mkThink (trim (concat visibleParts)) (trim (join [newline; newline] reasoningParts)) unclosed.

(** ** message-timing-utils.ts *)

(** [a ?? b]. *)
Definition or_else {A} (a b : option A) : option A := match a with Some x => Some x | None => b end.

Definition completeAssistantTiming (message : Message) (completedAt : Z) : Message :=
  if negb (bool_decide (m_from message = RoleAssistant)) then message
  else
    let startedAt := default completedAt (or_else (m_startedAt message) (m_createdAt message)) in
    with_timing message startedAt completedAt (Z.max 0 (completedAt - startedAt)).

Definition startReasoningTiming (message : Message) (startedAt : Z) : Reasoning :=
  match m_reasoning message with
  | Some r => mkReasoning (r_content r) (r_duration r) (Some (default startedAt (r_startedAt r)))
                (r_completedAt r) (r_durationMs r)
  | None => mkReasoning [] 0 (Some startedAt) None None
  end.

(** [Math.ceil(x / 1000)]. *)
Definition ceil_seconds (ms : Z) : Z := ((ms + 999) / 1000)%Z.

Definition completeReasoningTiming (message : Message) (completedAt : Z) : Message :=
  match m_reasoning message with
  | None => message
  | Some r =>
      match r_durationMs r with
      | Some _ => message
      | None =>
          let startedAt := default completedAt (or_else (r_startedAt r) (m_startedAt message)) in
          let durationMs := Z.max 0 (completedAt - startedAt) in
          with_reasoning message
            (Some (mkReasoning (r_content r) (ceil_seconds durationMs) (Some startedAt) (Some completedAt)
                     (Some durationMs)))
      end
  end.

(** ** message-streaming-utils.ts *)

Definition set_content (r : Reasoning) (content : str) : Reasoning :=
  mkReasoning content (r_duration r) (r_startedAt r) (r_completedAt r) (r_durationMs r).

Definition processStreamingContent (now : Z) (message : Message) (contentChunk : option str) : Message :=
  let currentVersion := getCurrentVersion message in
  let fullContent := match contentChunk with
                     | Some (c :: r) => v_content currentVersion ++ c :: r
                     | _ => v_content currentVersion
                     end in
  match m_reasoning message, str_includes fullContent OPEN_TAG with
  | None, false => with_streaming (updateCurrentVersionContent message fullContent) false
  | _, _ =>
      let parsed := parseThinkTags fullContent in
      let finalReasoning :=
        if truthy (th_reasoning parsed)
        then Some (set_content (startReasoningTiming message now) (th_reasoning parsed))
        else m_reasoning message in
      with_streaming (with_reasoning (updateCurrentVersionContent message fullContent) finalReasoning)
        (hasUnclosedTag parsed)
  end.

Inductive StreamChunkType := TReasoning | TContent.

Definition getAppendableChunk (currentContent chunk : str) : str :=
  if negb (truthy currentContent) || negb (starts_with chunk currentContent) then chunk
  else drop (length currentContent) chunk.

(** [now1] is read by the start of the reasoning, [now2] by its completion. *)
Definition applyStreamingChunk (now1 now2 : Z) (message : Message) (type : StreamChunkType) (chunk : str) : Message :=
  if bool_decide (m_status message = Some StError) then message
  else
    match type with
    | TReasoning =>
        let reasoning := startReasoningTiming message now1 in
        let appendableChunk := getAppendableChunk (r_content reasoning) chunk in
        with_status
          (with_streaming
             (with_reasoning message (Some (set_content reasoning (r_content reasoning ++ appendableChunk)))) true)
          StStreaming
    | TContent =>
        let appendableChunk := getAppendableChunk (v_content (getCurrentVersion message)) chunk in
        let contentMessage := processStreamingContent now1 message (Some appendableChunk) in
        with_status
          (if default false (m_isReasoningStreaming contentMessage) then contentMessage
           else completeReasoningTiming contentMessage now2) StStreaming
    end.

Definition finalizeMessage (now1 now2 : Z) (message : Message) (apiReasoningContent : option str) : Message :=
  let currentVersion := getCurrentVersion message in
  let parsed := if str_includes (v_content currentVersion) OPEN_TAG
                then Some (parseThinkTags (v_content currentVersion)) else None in
  let visible := default (v_content currentVersion) (visibleContent <$> parsed) in
  let finalReasoning :=
    str_or (default [] apiReasoningContent)
      (str_or (default [] (r_content <$> m_reasoning message)) (default [] (th_reasoning <$> parsed))) in
  let finalized :=
    with_streaming
      (with_reasoning (updateCurrentVersionContent message visible)
         (if truthy finalReasoning
          then Some (set_content (startReasoningTiming message now1) finalReasoning) else None)) false in
  completeReasoningTiming finalized now2.

Definition completeAssistantMessage (now1 now2 now3 : Z) (message : Message) : Message :=
  completeAssistantTiming (with_status (finalizeMessage now1 now2 message None) StComplete) now3.

Definition isAssistantMessageFinal (message : Message) : bool :=
  bool_decide (m_status message = Some StComplete) || bool_decide (m_status message = Some StError).

Definition isAssistantMessagePending (message : Message) : bool :=
  bool_decide (m_status message = Some StLoading) || bool_decide (m_status message = Some StStreaming).

Definition isPendingAssistantMessage (message : option Message) : bool :=
  match message with
  | Some m => bool_decide (m_from m = RoleAssistant) && isAssistantMessagePending m
  | None => false
  end.

(** The part of [ChatCompletionResponse] that is read. *)
Record ChatCompletionChoice := mkChoice { ch_content : option str; ch_reasoning : option str }.
Record ChatCompletionResponse := mkChatResponse { cr_choices : option (list ChatCompletionChoice) }.

Definition first_choice (response : ChatCompletionResponse) : option ChatCompletionChoice :=
  l ← cr_choices response; head l.

Definition hasChatCompletionChoice (response : ChatCompletionResponse) : bool :=
  match first_choice response with Some _ => true | None => false end.

Definition applyChatCompletionChoice (now1 now2 now3 : Z) (message : Message) (choice : ChatCompletionChoice) : Message :=
  completeAssistantTiming
    (with_status (finalizeMessage now1 now2 (updateCurrentVersionContent message (default [] (ch_content choice)))
                    (ch_reasoning choice)) StComplete) now3.

Definition applyChatCompletionResponse (now1 now2 now3 : Z) (message : Message) (response : ChatCompletionResponse) :
  option Message :=
  applyChatCompletionChoice now1 now2 now3 message <$> first_choice response.

(** ** Translated texts *)

Class I18n := { tr : str -> str }.

Definition API_REQUEST_ERROR : str := js "Request error occurred".
Definition INTERRUPTED : str := js "Generation was interrupted".
Definition CONNECTION_CLOSED : str := js "Connection closed".

(** The largest index whose element satisfies the test. *)
Fixpoint find_last_index {A} (f : A -> bool) (l : list A) : option nat :=
  match l with
  | [] => None
  | x :: l =>
      match find_last_index f l with
      | Some i => Some (S i)
      | None => if f x then Some O else None
      end
  end.

Section Sanitize.
Context {I : I18n}.

Definition sanitized_message (now1 now2 now3 : Z) (message : Message) : Message :=
  let finalized := finalizeMessage now1 now2 message None in
  let hasContent := hasMessageContent finalized in
  let hasReasoning := truthy (trim (default [] (r_content <$> m_reasoning finalized))) in
  if hasContent || hasReasoning
  then completeAssistantTiming (with_streaming (with_status finalized StComplete) false) now3
  else completeAssistantTiming
         (with_streaming
            (with_status
               (updateCurrentVersionContent finalized (tr API_REQUEST_ERROR ++ js ": " ++ tr INTERRUPTED))
               StError) false) now3.

Definition sanitizeMessagesOnLoad (now1 now2 now3 : Z) (messages : list Message) : list Message :=
  match find_last_index (fun m => isPendingAssistantMessage (Some m)) messages with
  | None => messages
  | Some targetIndex =>
      match messages !! targetIndex with
      | Some message => <[targetIndex := sanitized_message now1 now2 now3 message]> messages
      | None => messages
      end
  end.
End Sanitize.

(** ** message-update-utils.ts *)

Definition updateLastAssistantMessage (messages : list Message) (updater : Message -> Message) : list Message :=
  match last messages with
  | Some l => if bool_decide (m_from l = RoleAssistant)
              then <[(length messages - 1)%nat := updater l]> messages else messages
  | None => messages
  end.

Definition updateAssistantMessageWithError (now : Z) (messages : list Message) (errorMessage : str)
  (errorCode : option json) (title : str) : list Message :=
  updateLastAssistantMessage messages (fun message =>
    completeAssistantTiming
      (with_errorCode
         (with_streaming
            (with_status (updateCurrentVersionContent message (title ++ js ": " ++ errorMessage)) StError) false)
         (match errorCode with Some c => if j_truthy c then c else JNull | None => JNull end)) now).

(** ** conversation-message-utils.ts *)

(** The four identifiers are the ones drawn for the two messages. *)
Definition appendUserMessagePair (k1 i1 k2 i2 : str) (submittedAt : Z) (messages : list Message) (content : str) :
  list Message :=
  messages ++ [createUserMessage k1 i1 content submittedAt; createLoadingAssistantMessage k2 i2 submittedAt].

Definition has_key (messageKey : str) (message : Message) : bool := str_eqb (m_key message) messageKey.

(** [findIndex] with the element found. *)
Fixpoint find_index {A} (f : A -> bool) (l : list A) : option (nat * A) :=
  match l with
  | [] => None
  | x :: l => if f x then Some (O, x) else (fun '(i, y) => (S i, y)) <$> find_index f l
  end.

Definition createRegeneratedMessages (k i : str) (now : Z) (messages : list Message) (messageKey : str) :
  option (list Message) :=
  match find_index (has_key messageKey) messages with
  | None => None
  | Some (messageIndex, message) =>
      let kept := if bool_decide (m_from message = RoleUser) then S messageIndex else messageIndex in
      Some (take kept messages ++ [createLoadingAssistantMessage k i now])
  end.

Definition removeMessageByKey (messages : list Message) (messageKey : str) : list Message :=
  List.filter (fun message => negb (has_key messageKey message)) messages.

Definition getPreviousUserMessage (messages : list Message) (beforeIndex : nat) : option Message :=
  last (List.filter (fun m => bool_decide (m_from m = RoleUser)) (take beforeIndex messages)).

Record ApplyMessageEditResult := mkEdit { ed_messages : list Message; ed_shouldSend : bool }.

Definition applyMessageEdit (k i : str) (submittedAt : Z) (messages : list Message) (messageKey content : str)
  (shouldSubmit : bool) : option ApplyMessageEditResult :=
  match find_index (has_key messageKey) messages with
  | None => None
  | Some (messageIndex, message) =>
      let updatedMessages :=
        map (fun m => if has_key messageKey m
                      then with_createdAt (updateCurrentVersionContent m content)
                             (if shouldSubmit then Some submittedAt else m_createdAt m)
                      else m) messages in
      if negb shouldSubmit || negb (bool_decide (m_from message = RoleUser))
      then Some (mkEdit updatedMessages false)
      else Some (mkEdit (take (S messageIndex) updatedMessages ++ [createLoadingAssistantMessage k i submittedAt])
                   true)
  end.

Definition getEditingMessageContent (messages : list Message) (editingKey : option str) : str :=
  match editingKey with
  | None | Some [] => []
  | Some k => default [] (getMessageContent <$> List.find (has_key k) messages)
  end.

(** ** message-error-utils.ts, message-content-utils.ts *)

Definition isAdminRole (role : option Z) : bool := match role with Some r => (10 <=? r)%Z | None => false end.
Definition isErrorMessage (message : Message) : bool := bool_decide (m_status message = Some StError).

Inductive ErrorKind := EGeneric | EModelPrice.
Record MessageErrorState := mkErrorState { es_content : str; es_kind : ErrorKind; es_showSettingsLink : bool }.

Definition getMessageErrorState (message : Message) (isAdmin : bool) : option MessageErrorState :=
  if negb (isErrorMessage message) then None
  else
    let content := str_or (getMessageContent message) (js "An unknown error occurred") in
    let isModelPriceError := match m_errorCode message with
                             | Some (JStr c) => str_eqb c (js "model_price_error")
                             | _ => false
                             end in
    Some (mkErrorState content (if isModelPriceError then EModelPrice else EGeneric) (isModelPriceError && isAdmin)).

Record MessageContentState := mkContentState {
  cs_displayContent : str; cs_hasSources : bool; cs_isAssistant : bool; cs_showLoader : bool;
  cs_showMessageContent : bool; cs_sources : list Source; cs_reasoningContent : option str
}.

Definition shouldShowMessageLoader (message : Message) (isAssistant : bool) (versionContent : str) : bool :=
  isAssistant && negb (default false (m_isReasoningStreaming message)) &&
  (bool_decide (m_status message = Some StLoading) ||
   (bool_decide (m_status message = Some StStreaming) && negb (truthy versionContent))).

Definition shouldShowMessageContent (message : Message) (versionContent : str) : bool :=
  (bool_decide (m_from message = RoleUser) || negb (default false (m_isReasoningStreaming message))) &&
  truthy versionContent.

Definition getDisplayContent (message : Message) (versionContent : str) : str :=
  if negb (bool_decide (m_from message = RoleAssistant)) then versionContent
  else if negb (str_includes versionContent OPEN_TAG) then versionContent
  else visibleContent (parseThinkTags versionContent).

(** [hasReasoning] is whether there is a reasoning content. *)
Definition getMessageContentState (message : Message) (versionContent : str) : MessageContentState :=
  let isAssistant := bool_decide (m_from message = RoleAssistant) in
  let sources := default [] (m_sources message) in
  let reasoningContent := if isAssistant then r_content <$> m_reasoning message else None in
  mkContentState (getDisplayContent message versionContent) (0 <? length sources)%nat isAssistant
    (shouldShowMessageLoader message isAssistant versionContent)
    (shouldShowMessageContent message versionContent) sources
    (match reasoningContent with Some (c :: r) => Some (c :: r) | _ => None end).

(** ** message-action-utils.ts, message-editor-utils.ts, message-layout-utils.ts *)

Record MessageActionState := mkActionState {
  as_content : str; as_hasContent : bool; as_isAssistant : bool; as_isLoading : bool; as_isUser : bool
}.

Definition getMessageActionState (message : Message) : MessageActionState :=
  mkActionState (getMessageContent message) (hasMessageContent message)
    (bool_decide (m_from message = RoleAssistant))
    (bool_decide (m_status message = Some StLoading) || bool_decide (m_status message = Some StStreaming))
    (bool_decide (m_from message = RoleUser)).

Definition getMessageActionsVisibilityClass (alwaysVisible : bool) : str :=
  if alwaysVisible then js "opacity-100" else js "opacity-0 group-hover:opacity-100 max-md:opacity-100".

Record MessageEditorState := mkEditorState { ms_canSave : bool; ms_hasChanged : bool; ms_showSaveAndSubmit : bool }.

Definition getMessageEditorState (message : Message) (editText originalText : str) : MessageEditorState :=
  let hasText := (0 <? length (trim editText))%nat in
  let hasChanged := negb (str_eqb editText originalText) in
  mkEditorState (hasText && hasChanged) hasChanged (bool_decide (m_from message = RoleUser)).

Inductive PlaygroundMessageLayoutMode := LAlternating | LLeft.
Inductive MessageAlignment := ALeft | ARight.

Definition getMessageAlignment (message : Message) (layoutMode : PlaygroundMessageLayoutMode) : MessageAlignment :=
  match layoutMode with
  | LLeft => ALeft
  | LAlternating => if bool_decide (m_from message = RoleUser) then ARight else ALeft
  end.

Definition getMessageAlignmentClass (alignment : MessageAlignment) : str :=
  match alignment with ARight => js "items-end text-right" | ALeft => js "items-start text-left" end.

(** ** input-control-utils.ts, playground-option-utils.ts *)

Record ModelOption := mkModelOption { mo_label : str; mo_value : str }.
Record GroupOption := mkGroupOption { go_label : str; go_value : str; go_ratio : num; go_desc : option str }.

Record InputControlState := mkControlState { ic_canSubmit : bool; ic_isSelectorDisabled : bool; ic_shouldShowStop : bool }.

(** [text] is absent when it is missing or [null]. *)
Definition getSubmittableInputText (text : option str) (disabled : bool) : option str :=
  match text with
  | Some t => if disabled || negb (truthy (trim t)) then None else Some t
  | None => None
  end.

Definition getInputControlState (disabled : bool) (groups : list GroupOption) (hasStopHandler isGenerating isModelLoading : bool)
  (models : list ModelOption) (text : str) : InputControlState :=
  let hasModels := (0 <? length models)%nat in
  mkControlState (negb disabled && hasModels && (0 <? length (trim text))%nat)
    (disabled || isModelLoading || (length groups =? 0)%nat) (isGenerating && hasStopHandler).

Definition has_model (models : list ModelOption) (currentModel : str) : bool :=
  existsb (fun model => str_eqb (mo_value model) currentModel) models.

Definition getModelFallback (models : list ModelOption) (currentModel : str) : option str :=
  if has_model models currentModel then None else mo_value <$> head models.

Definition shouldClearModelForGroup (models : list ModelOption) (currentModel : str) : bool :=
  if str_eqb currentModel [] then false else negb (has_model models currentModel).

Definition getGroupFallback (groups : list GroupOption) (currentGroup : str) : option str :=
  if existsb (fun group => str_eqb (go_value group) currentGroup) groups then None
  else match groups with
       | [] => None
       | g :: _ =>
           Some (default (go_value g) (go_value <$> List.find (fun group => str_eqb (go_value group) (js "default")) groups))
       end.
