(* ===== verification/PlayStream.v ===== *)
(** * Playground requests and the chat session

    Model of [features/playground/lib/streaming], of the hooks
    [use-chat-handler.ts], [use-stream-request.ts] and
    [use-playground-conversation.ts], and of the guards that the components put
    before the handlers.

    A session is a state and a step relation.  A step is one callback run to its
    end: a user action, an event of an event source, the flush timer, or the
    resumption of an awaited request.  The updater functions given to
    [onMessageUpdate] run at once and in order; the readings of the clock made
    by a step are the values of a function from their position.

    The event source ([sse.js]) and the server are outside the sources: a step
    may deliver any event of a source that has not been closed, with any data. *)
From S2P Require Import Prelude Number Regex Json Playground.

(** ** stream-utils.ts *)

(** [v.k] and [v[0]] on a value that is not null; [None] is [undefined]. *)
Definition j_prop (v : json) (k : str) : option json :=
  match v with JObj l => map_get k l | _ => None end.
Definition j_elem0 (v : json) : option json :=
  match v with
  | JArr l => head l
  | JStr (c :: _) => Some (JStr [c])
  | JObj l => map_get (js "0") l
  | _ => None
  end.
(** [v?.…]: [undefined] and [null] end the chain. *)
Definition j_chain (v : option json) (f : json -> option json) : option json :=
  match v with None | Some JNull => None | Some v => f v end.
Definition truthy_opt (v : option json) : option json :=
  match v with Some v => if j_truthy v then Some v else None | None => None end.

Record StreamMessageUpdate := mkUpdate { su_type : StreamChunkType; su_chunk : json }.
Record StreamErrorDetails := mkStreamError { se_errorCode : option json; se_errorMessage : json }.

Definition parseStreamErrorDetails (data : option str) : StreamErrorDetails :=
  let fallbackMessage := JStr (opt_str_or data API_REQUEST_ERROR) in
  match data with
  | None | Some [] => mkStreamError None fallbackMessage
  | Some data =>
      match truthy_opt (j_chain (JSON_parse data) (fun parsed => j_prop parsed (js "error"))) with
      | None => mkStreamError None fallbackMessage
      | Some error =>
          mkStreamError (truthy_opt (j_prop error (js "code")))
            (default fallbackMessage (truthy_opt (j_prop error (js "message"))))
      end
  end.

(** [None]: the text is not JSON, or it is [null]. *)
Definition parseStreamMessageUpdates (data : str) : option (list StreamMessageUpdate) :=
  match JSON_parse data with
  | None | Some JNull => None
  | Some chunk =>
      let choice := j_chain (j_prop chunk (js "choices")) j_elem0 in
      match truthy_opt (j_chain choice (fun c => j_prop c (js "delta"))) with
      | None => Some []
      | Some delta =>
          Some ((match truthy_opt (j_prop delta (js "reasoning_content")) with
                 | Some c => [mkUpdate TReasoning c] | None => [] end) ++
                (match truthy_opt (j_prop delta (js "content")) with
                 | Some c => [mkUpdate TContent c] | None => [] end))
      end
  end.

Definition isStreamDoneMessage (data : str) : bool := str_eqb data (js "[DONE]").
Definition isStreamClosedReadyState (readyState : option Z) : bool :=
  match readyState with Some s => (s =? 2)%Z | None => false end.

(** [status] is the one of the source. *)
Definition getStreamReadyStateError (eventReadyState status : option Z) : option str :=
  match eventReadyState, status with
  | Some r, Some s =>
      if ((2 <=? r) && negb (s =? 200))%Z then Some (js "HTTP " ++ show_Z s ++ js ": " ++ CONNECTION_CLOSED) else None
  | _, _ => None
  end.

(** ** request-error-utils.ts *)

(** The properties of an error that are read, absent ones being [None]. *)
Record RequestErrorLike := mkRequestError {
  re_message : option str; re_code : option str; re_data_message : option str
}.
Record RequestErrorDetails := mkErrorDetails { rd_errorCode : option str; rd_errorMessage : str }.

Definition parseRequestErrorDetails (error : RequestErrorLike) : RequestErrorDetails :=
  mkErrorDetails
    (match re_code error with Some (c :: r) => Some (c :: r) | _ => None end)
    (opt_str_or (re_data_message error) (opt_str_or (re_message error) API_REQUEST_ERROR)).

(** ** payload-builder.ts *)

Record PlaygroundConfig := mkConfig {
  model : str; group : str; temperature : num; top_p : num; max_tokens : num;
  frequency_penalty : num; presence_penalty : num; seed : option num; stream : bool
}.
Record ParameterEnabled := mkEnabled {
  en_temperature : bool; en_top_p : bool; en_max_tokens : bool;
  en_frequency_penalty : bool; en_presence_penalty : bool; en_seed : bool
}.
Record ChatCompletionRequest := mkRequest {
  rq_model : str; rq_group : str; rq_messages : list ChatCompletionMessage; rq_stream : bool;
  rq_temperature : option num; rq_top_p : option num; rq_max_tokens : option num;
  rq_frequency_penalty : option num; rq_presence_penalty : option num; rq_seed : option num
}.

Definition when {A} (b : bool) (x : A) : option A := if b then Some x else None.

Definition buildChatCompletionPayload (messages : list Message) (config : PlaygroundConfig)
  (parameterEnabled : ParameterEnabled) : ChatCompletionRequest :=
  let processedMessages := map formatMessageForAPI (List.filter isValidMessage messages) in
  mkRequest (model config) (group config) processedMessages (stream config)
    (when (en_temperature parameterEnabled) (temperature config))
    (when (en_top_p parameterEnabled) (top_p config))
    (when (en_max_tokens parameterEnabled) (max_tokens config))
    (when (en_frequency_penalty parameterEnabled) (frequency_penalty config))
    (when (en_presence_penalty parameterEnabled) (presence_penalty config))
    (if en_seed parameterEnabled then seed config else None).

Definition DEFAULT_CONFIG : PlaygroundConfig :=
  mkConfig (js "gpt-5.5") (js "default") (lit "0.7") (lit "1") (lit "4096") (lit "0") (lit "0") None true.
Definition DEFAULT_PARAMETER_ENABLED : ParameterEnabled := mkEnabled true true false true true false.

(** ** The state of the hooks *)

(** An abort controller is named by the number of its request, an event source
    by the order of its creation. *)
Record StreamState := mkStream {
  sseSource : option nat; sourceCount : nat; closedSources : list nat; isStreamComplete : bool; isStreaming : bool
}.
Record RequestState := mkReqState {
  abortController : option nat; requestId : nat; abortedRequests : list nat; inFlight : list nat; isRequesting : bool
}.
Record PendingStreamChunks := mkPending { p_content : str; p_reasoning : str }.
Record Session := mkSession {
  messages : list Message; pendingStreamChunks : PendingStreamChunks; streamFlushTimer : bool;
  streamSt : StreamState; requestSt : RequestState; editingMessageKey : option str;
  toasts : list str; sent : list ChatCompletionRequest
}.

Definition set_messages (s : Session) (ms : list Message) : Session :=
  mkSession ms (pendingStreamChunks s) (streamFlushTimer s) (streamSt s) (requestSt s) (editingMessageKey s) (toasts s) (sent s).
Definition set_pending (s : Session) (p : PendingStreamChunks) (timer : bool) : Session :=
  mkSession (messages s) p timer (streamSt s) (requestSt s) (editingMessageKey s) (toasts s) (sent s).
Definition set_stream (s : Session) (st : StreamState) : Session :=
  mkSession (messages s) (pendingStreamChunks s) (streamFlushTimer s) st (requestSt s) (editingMessageKey s) (toasts s) (sent s).
Definition set_request (s : Session) (r : RequestState) : Session :=
  mkSession (messages s) (pendingStreamChunks s) (streamFlushTimer s) (streamSt s) r (editingMessageKey s) (toasts s) (sent s).
Definition set_editing (s : Session) (k : option str) : Session :=
  mkSession (messages s) (pendingStreamChunks s) (streamFlushTimer s) (streamSt s) (requestSt s) k (toasts s) (sent s).
Definition add_toast (s : Session) (t : str) : Session :=
  mkSession (messages s) (pendingStreamChunks s) (streamFlushTimer s) (streamSt s) (requestSt s) (editingMessageKey s)
    (toasts s ++ [t]) (sent s).
Definition add_sent (s : Session) (p : ChatCompletionRequest) : Session :=
  mkSession (messages s) (pendingStreamChunks s) (streamFlushTimer s) (streamSt s) (requestSt s) (editingMessageKey s)
    (toasts s) (sent s ++ [p]).

Definition setIsRequesting (s : Session) (b : bool) : Session :=
  let r := requestSt s in
  set_request s (mkReqState (abortController r) (requestId r) (abortedRequests r) (inFlight r) b).

Definition isGenerating (s : Session) : bool := isStreaming (streamSt s) || isRequesting (requestSt s).

(** ** use-chat-handler.ts *)

(** [None]: the method [startsWith] of a value that is no string is called. *)
Definition mergePendingStreamChunk (currentChunk : str) (nextChunk : json) : option str :=
  match currentChunk, nextChunk with
  | [], _ => Some (to_String nextChunk)
  | _, JStr next => if starts_with next currentChunk then Some next else Some (currentChunk ++ next)
  | _, _ => None
  end.

Definition no_chunks : PendingStreamChunks := mkPending [] [].

Definition apply_pending (t : nat -> Z) (p : PendingStreamChunks) (message : Message) : Message :=
  let updated := if truthy (p_reasoning p) then applyStreamingChunk (t 0) (t 1) message TReasoning (p_reasoning p)
                 else message in
  if truthy (p_content p) then applyStreamingChunk (t 2) (t 3) updated TContent (p_content p) else updated.

Definition flushStreamUpdates (t : nat -> Z) (s : Session) : Session :=
  let pendingChunks := pendingStreamChunks s in
  let s := set_pending s pendingChunks false in
  if negb (truthy (p_reasoning pendingChunks)) && negb (truthy (p_content pendingChunks)) then s
  else set_messages (set_pending s no_chunks false)
         (updateLastAssistantMessage (messages s) (apply_pending t pendingChunks)).

Definition handleStreamUpdate (s : Session) (u : StreamMessageUpdate) : option Session :=
  let p := pendingStreamChunks s in
  match su_type u with
  | TContent => c ← mergePendingStreamChunk (p_content p) (su_chunk u);
                Some (set_pending s (mkPending c (p_reasoning p)) true)
  | TReasoning => c ← mergePendingStreamChunk (p_reasoning p) (su_chunk u);
                  Some (set_pending s (mkPending (p_content p) c) true)
  end.

Definition handleStreamComplete (t : nat -> Z) (s : Session) : Session :=
  let s := setIsRequesting (flushStreamUpdates t s) false in
  set_messages s (updateLastAssistantMessage (messages s) (fun message =>
    if isAssistantMessageFinal message then message
    else completeAssistantMessage (t 4) (t 5) (t 6) message)).

Definition PARSE_ERROR : str := js "Error parsing response data".
Definition STREAM_START_ERROR : str := js "Error establishing connection".
Definition KNOWN_ERROR_MESSAGES : list str :=
  [API_REQUEST_ERROR; js "Network connection failed or server not responding"; PARSE_ERROR; STREAM_START_ERROR;
   CONNECTION_CLOSED; INTERRUPTED].

Section Handler.
Context {I : I18n}.

(** [None]: the method [endsWith] of a value that is no string is called. *)
Definition getDisplayError (error : json) : option str :=
  match error with
  | JStr error =>
      Some (if set_has error KNOWN_ERROR_MESSAGES then tr error
            else if ends_with error (js ": " ++ CONNECTION_CLOSED)
                 then take (length error - length CONNECTION_CLOSED) error ++ tr CONNECTION_CLOSED
                 else error)
  | _ => None
  end.

(** The second component tells whether the handler returned. *)
Definition handleStreamError (t : nat -> Z) (s : Session) (error : json) (errorCode : option json) : Session * bool :=
  let s := setIsRequesting (flushStreamUpdates t s) false in
  match getDisplayError error with
  | None => (s, false)
  | Some displayError =>
      let s := add_toast s displayError in
      (set_messages s (updateAssistantMessageWithError (t 4) (messages s) displayError errorCode (tr API_REQUEST_ERROR)),
       true)
  end.

(** ** use-stream-request.ts *)

Definition closeActiveStream (source : option nat) (s : Session) : Session :=
  let st := streamSt s in
  let closed := match or_else source (sseSource st) with
                | Some x => set_add (closedSources st) x | None => closedSources st end in
  let inactive := match source with None => true | Some _ => bool_decide (sseSource st = source) end in
  set_stream s (mkStream (if inactive then None else sseSource st) (sourceCount st) closed (isStreamComplete st)
                  (if inactive then false else isStreaming st)).

Definition handleError (t : nat -> Z) (source : nat) (s : Session) (errorMessage : json) (errorCode : option json) : Session :=
  if isStreamComplete (streamSt s) then s
  else let '(s, returned) := handleStreamError t s errorMessage errorCode in
       if returned then closeActiveStream (Some source) s else s.

(** The updates in order, up to the first one that throws. *)
Fixpoint apply_updates (s : Session) (updates : list StreamMessageUpdate) : Session * bool :=
  match updates with
  | [] => (s, true)
  | u :: updates => match handleStreamUpdate s u with Some s => apply_updates s updates | None => (s, false) end
  end.

Definition set_complete (s : Session) (b : bool) : Session :=
  let st := streamSt s in
  set_stream s (mkStream (sseSource st) (sourceCount st) (closedSources st) b (isStreaming st)).

Definition on_message (t : nat -> Z) (source : nat) (data : str) (s : Session) : Session :=
  if isStreamDoneMessage data then
    handleStreamComplete t (closeActiveStream (Some source) (set_complete s true))
  else match parseStreamMessageUpdates data with
       | None => handleError t source s (JStr PARSE_ERROR) None
       | Some updates =>
           let '(s, returned) := apply_updates s updates in
           if returned then s else handleError t source s (JStr PARSE_ERROR) None
       end.

Definition on_error (t : nat -> Z) (source : nat) (readyState : option Z) (data : option str) (s : Session) : Session :=
  if isStreamClosedReadyState readyState then s
  else let d := parseStreamErrorDetails data in handleError t source s (se_errorMessage d) (se_errorCode d).

Definition on_readystatechange (t : nat -> Z) (source : nat) (eventReadyState status : option Z) (s : Session) : Session :=
  match getStreamReadyStateError eventReadyState status with
  | Some errorMessage => handleError t source s (JStr errorMessage) None
  | None => s
  end.

(** [starts]: whether [source.stream()] returns. *)
Definition sendStreamRequest (t : nat -> Z) (starts : bool) (payload : ChatCompletionRequest) (s : Session) : Session :=
  let st := streamSt s in
  let closed := match sseSource st with Some x => set_add (closedSources st) x | None => closedSources st end in
  let source := sourceCount st in
  let s := add_sent (set_stream s (mkStream (Some source) (S source) closed false true)) payload in
  if starts then s
  else closeActiveStream (Some source) (fst (handleStreamError t s (JStr STREAM_START_ERROR) None)).

(** ** Sending *)

Definition sendStreamingChat (t : nat -> Z) (starts : bool) (config : PlaygroundConfig) (enabled : ParameterEnabled)
  (ms : list Message) (s : Session) : Session :=
  sendStreamRequest t starts (buildChatCompletionPayload ms config enabled) (setIsRequesting s true).

(** Up to the [await]. *)
Definition sendNonStreamingChat (config : PlaygroundConfig) (enabled : ParameterEnabled) (ms : list Message)
  (s : Session) : Session :=
  let r := requestSt s in
  let id := S (requestId r) in
  add_sent (set_request s (mkReqState (Some id) id (abortedRequests r) (id :: inFlight r) true))
    (buildChatCompletionPayload ms config enabled).

Inductive RequestOutcome := Responded (response : ChatCompletionResponse) | Failed (error : RequestErrorLike).

(** The [finally] block. *)
Definition settle (id : nat) (s : Session) : Session :=
  let r := requestSt s in
  if (requestId r =? id)%nat
  then set_request s (mkReqState None (requestId r) (abortedRequests r) (inFlight r) false) else s.

(** From the [await] to the end of [sendNonStreamingChat]. *)
Definition resumeNonStreamingChat (t : nat -> Z) (id : nat) (outcome : RequestOutcome) (s : Session) : Session :=
  let r := requestSt s in
  let s := set_request s (mkReqState (abortController r) (requestId r) (abortedRequests r)
                            (List.filter (fun x => negb (x =? id)%nat) (inFlight r)) (isRequesting r)) in
  settle id
    (if set_has id (abortedRequests r) then s
     else match outcome with
          | Responded response =>
              if hasChatCompletionChoice response
              then set_messages s (updateLastAssistantMessage (messages s) (fun message =>
                     default message (applyChatCompletionResponse (t 4) (t 5) (t 6) message response)))
              else fst (handleStreamError t s (JStr API_REQUEST_ERROR) None)
          | Failed error =>
              let d := parseRequestErrorDetails error in
              fst (handleStreamError t s (JStr (rd_errorMessage d)) (JStr <$> rd_errorCode d))
          end).

Definition sendChat (t : nat -> Z) (starts : bool) (config : PlaygroundConfig) (enabled : ParameterEnabled)
  (ms : list Message) (s : Session) : Session :=
  if stream config then sendStreamingChat t starts config enabled ms s
  else sendNonStreamingChat config enabled ms s.

Definition stopGeneration (t : nat -> Z) (s : Session) : Session :=
  let s := flushStreamUpdates t (closeActiveStream None s) in
  let r := requestSt s in
  let aborted := match abortController r with Some id => set_add (abortedRequests r) id | None => abortedRequests r end in
  let s := set_request s (mkReqState None (requestId r) aborted (inFlight r) false) in
  set_messages s (updateLastAssistantMessage (messages s) (fun message =>
    if isAssistantMessagePending message then completeAssistantMessage (t 4) (t 5) (t 6) message else message)).

(** ** use-playground-conversation.ts *)

(** What a request depends on besides the session: the clock, the two pairs of
    fresh identifiers, the configuration, and whether the source starts. *)
Record SendEnv := mkEnv {
  e_clock : nat -> Z; e_userKey : str; e_userVersion : str; e_key : str; e_version : str;
  e_config : PlaygroundConfig; e_enabled : ParameterEnabled; e_starts : bool
}.

Definition send_next (e : SendEnv) (ms : list Message) (s : Session) : Session :=
  sendChat (e_clock e) (e_starts e) (e_config e) (e_enabled e) ms (set_messages s ms).

Definition handleSendMessage (e : SendEnv) (text : str) (s : Session) : Session :=
  send_next e (appendUserMessagePair (e_userKey e) (e_userVersion e) (e_key e) (e_version e) (e_clock e 7) (messages s) text) s.

Definition handleRegenerateMessage (e : SendEnv) (messageKey : str) (s : Session) : Session :=
  match createRegeneratedMessages (e_key e) (e_version e) (e_clock e 7) (messages s) messageKey with
  | None => s
  | Some nextMessages => send_next e nextMessages s
  end.

Definition handleEditMessage (messageKey : str) (s : Session) : Session := set_editing s (Some messageKey).

Definition handleEditOpenChange (open : bool) (s : Session) : Session := if open then s else set_editing s None.

Definition applyEdit (e : SendEnv) (newContent : str) (shouldSubmit : bool) (s : Session) : Session :=
  match editingMessageKey s with
  | None | Some [] => s
  | Some key =>
      match applyMessageEdit (e_key e) (e_version e) (e_clock e 7) (messages s) key newContent shouldSubmit with
      | None => s
      | Some editResult =>
          let s := set_messages (set_editing s None) (ed_messages editResult) in
          if ed_shouldSend editResult then send_next e (ed_messages editResult) s else s
      end
  end.

Definition handleDeleteMessage (messageKey : str) (s : Session) : Session :=
  set_messages s (removeMessageByKey (messages s) messageKey).

(** index.tsx *)
Definition handleClearMessages (s : Session) : Session := set_messages (handleEditOpenChange false s) [].

(** use-message-action-guard.ts *)
Definition guardAction (action : Session -> Session) (s : Session) : Session :=
  if isGenerating s then add_toast s (tr (js "Please wait for the current generation to complete")) else action s.

(** playground-input.tsx *)
Definition handleSubmit (e : SendEnv) (text : option str) (s : Session) : Session :=
  match getSubmittableInputText text (isGenerating s) with
  | None => s
  | Some text => handleSendMessage e text s
  end.

(** ** Steps

    The handlers with the guards of the components that call them: the starter
    prompts are shown for an empty conversation only, the buttons of a failed
    message and the one that clears the conversation are disabled while an answer
    is generated; the buttons of the message editor are not. *)
Inductive step (s : Session) : Session -> Prop :=
| step_submit e text : step s (handleSubmit e text s)
| step_prompt e prompt : messages s = [] -> step s (handleSendMessage e prompt s)
| step_regenerate e key : step s (guardAction (handleRegenerateMessage e key) s)
| step_retry e key : isGenerating s = false -> step s (handleRegenerateMessage e key s)
| step_edit key : step s (guardAction (handleEditMessage key) s)
| step_edit_prompt key : isGenerating s = false -> step s (handleEditMessage key s)
| step_edit_cancel open : step s (handleEditOpenChange open s)
| step_edit_save e text submit : step s (applyEdit e text submit s)
| step_delete key : step s (guardAction (handleDeleteMessage key) s)
| step_delete_failed key : isGenerating s = false -> step s (handleDeleteMessage key s)
| step_clear : isGenerating s = false -> step s (handleClearMessages s)
| step_stop t : step s (stopGeneration t s)
| step_timer t : streamFlushTimer s = true -> step s (flushStreamUpdates t s)
| step_message t source data :
    (source < sourceCount (streamSt s))%nat -> source ∉ closedSources (streamSt s) ->
    step s (on_message t source data s)
| step_error t source readyState data :
    (source < sourceCount (streamSt s))%nat -> source ∉ closedSources (streamSt s) ->
    step s (on_error t source readyState data s)
| step_ready t source readyState status :
    (source < sourceCount (streamSt s))%nat -> source ∉ closedSources (streamSt s) ->
    step s (on_readystatechange t source readyState status s)
| step_resume t id outcome :
    id ∈ inFlight (requestSt s) -> step s (resumeNonStreamingChat t id outcome s).

(** A session starts with the conversation loaded from the storage. *)
Definition initial (ms : list Message) : Session :=
  mkSession ms no_chunks false (mkStream None 0 [] false false) (mkReqState None 0 [] [] false) None [] [].

Definition reachable (ms : list Message) : Session -> Prop := rtc step (initial ms).
End Handler.
