(* ===== verification/PlayProps.v ===== *)
(** * The chat session: invariants

    Every reachable state of the session has at most one unfinished answer, the
    last message; when no answer is being generated there is none, and no text
    is waiting to be shown. *)
From S2P Require Import Prelude Number Regex Json Playground PlayStream.

(** ** Unfinished messages *)

Definition settled (m : Message) : Prop := isPendingAssistantMessage (Some m) = false.
Definition quiet (ms : list Message) : Prop := Forall settled ms.
(** Only the last message may be unfinished. *)
Definition only_last_pending (ms : list Message) : Prop := quiet (take (length ms - 1) ms).
Definition last_assistant (ms : list Message) : Prop :=
  exists init m, ms = init ++ [m] /\ m_from m = RoleAssistant.

Lemma only_last_snoc init m : only_last_pending (init ++ [m]) <-> quiet init.
Proof.
  unfold only_last_pending. rewrite length_app. cbn [length].
  replace (length init + 1 - 1)%nat with (length init) by lia. by rewrite take_app_length.
Qed.

Lemma quiet_only_last ms : quiet ms -> only_last_pending ms.
Proof. intros H. apply Forall_take, H. Qed.

Lemma snoc_cases {A} (l : list A) : l = [] \/ exists init x, l = init ++ [x].
Proof. induction l as [|x l _] using rev_ind; eauto. Qed.

Lemma quiet_app a b : quiet (a ++ b) <-> quiet a /\ quiet b.
Proof. apply Forall_app. Qed.

Lemma user_settled m : m_from m = RoleUser -> settled m.
Proof. intros H. unfold settled, isPendingAssistantMessage. by rewrite H. Qed.

(** ** Updates of the last message *)

Lemma update_last_snoc init m f :
  updateLastAssistantMessage (init ++ [m]) f =
  init ++ [if bool_decide (m_from m = RoleAssistant) then f m else m].
Proof.
  unfold updateLastAssistantMessage. rewrite last_snoc. case_bool_decide; [| done].
  rewrite length_app. cbn [length]. rewrite insert_app_r_alt; [| lia].
  by replace (length init + 1 - 1 - length init)%nat with 0%nat by lia.
Qed.

(** The updater keeps the author, and leaves no unfinished message. *)
Definition keeps_role (f : Message -> Message) : Prop := forall m, m_from (f m) = m_from m.
Definition settles (f : Message -> Message) : Prop := forall m, isAssistantMessagePending (f m) = false.

Lemma update_only_last ms f : only_last_pending ms -> only_last_pending (updateLastAssistantMessage ms f).
Proof.
  destruct (snoc_cases ms) as [-> | (init & m & ->)]; [done |].
  by rewrite update_last_snoc, !only_last_snoc.
Qed.

Lemma update_last_assistant ms f :
  keeps_role f -> last_assistant ms -> last_assistant (updateLastAssistantMessage ms f).
Proof.
  intros Hf (init & m & -> & Hm). rewrite update_last_snoc. eexists _, _. split; [done |].
  case_bool_decide; [by rewrite Hf | done].
Qed.

Lemma update_quiet ms f :
  only_last_pending ms -> quiet ms \/ last_assistant ms -> settles f -> quiet (updateLastAssistantMessage ms f).
Proof.
  intros Ho Hq Hf. destruct (snoc_cases ms) as [-> | (init & m & ->)]; [done |].
  rewrite update_last_snoc. rewrite only_last_snoc in Ho. apply quiet_app. split; [done |].
  apply Forall_singleton. case_bool_decide as Hm.
  - unfold settled, isPendingAssistantMessage. by rewrite Hf, andb_false_r.
  - unfold settled, isPendingAssistantMessage. by rewrite bool_decide_eq_false_2.
Qed.

(** ** What the updaters do to author and status *)

Lemma complete_timing_from m t : m_from (completeAssistantTiming m t) = m_from m.
Proof. unfold completeAssistantTiming. by destruct (negb _). Qed.
Lemma complete_timing_status m t : m_status (completeAssistantTiming m t) = m_status m.
Proof. unfold completeAssistantTiming. by destruct (negb _). Qed.
Lemma complete_reasoning_from m t : m_from (completeReasoningTiming m t) = m_from m.
Proof. unfold completeReasoningTiming. by repeat case_match. Qed.
Lemma finalize_from t1 t2 m r : m_from (finalizeMessage t1 t2 m r) = m_from m.
Proof. unfold finalizeMessage. by rewrite complete_reasoning_from. Qed.
Lemma process_from t m c : m_from (processStreamingContent t m c) = m_from m.
Proof. unfold processStreamingContent. by repeat case_match. Qed.

Create Rewrite HintDb play.
#[export] Hint Rewrite complete_timing_from complete_timing_status complete_reasoning_from finalize_from process_from : play.

Lemma complete_message_keeps t1 t2 t3 : keeps_role (completeAssistantMessage t1 t2 t3).
Proof. intros m. unfold completeAssistantMessage. autorewrite with play. cbn. by autorewrite with play. Qed.

Lemma complete_message_status t1 t2 t3 m : m_status (completeAssistantMessage t1 t2 t3 m) = Some StComplete.
Proof. unfold completeAssistantMessage. by autorewrite with play. Qed.

Lemma apply_chunk_keeps t1 t2 ty c : keeps_role (fun m => applyStreamingChunk t1 t2 m ty c).
Proof.
  intros m. unfold applyStreamingChunk. case_bool_decide; [done |]. destruct ty; [done |].
  cbn. destruct (default _ _); by autorewrite with play.
Qed.

Lemma apply_pending_keeps t p : keeps_role (apply_pending t p).
Proof.
  intros m. unfold apply_pending. destruct (truthy (p_content p)), (truthy (p_reasoning p));
    rewrite ?(apply_chunk_keeps _ _ TContent), ?(apply_chunk_keeps _ _ TReasoning); done.
Qed.

Lemma apply_choice_keeps t1 t2 t3 c : keeps_role (fun m => applyChatCompletionChoice t1 t2 t3 m c).
Proof. intros m. unfold applyChatCompletionChoice. autorewrite with play. cbn. by autorewrite with play. Qed.

Lemma apply_choice_status t1 t2 t3 m c : m_status (applyChatCompletionChoice t1 t2 t3 m c) = Some StComplete.
Proof. unfold applyChatCompletionChoice. by autorewrite with play. Qed.

Lemma pending_status m st : m_status m = Some st -> st = StComplete \/ st = StError -> isAssistantMessagePending m = false.
Proof. unfold isAssistantMessagePending. intros -> [-> | ->]; done. Qed.

(** ** The invariant *)

Section Session.
Context {I : I18n}.

(** The part of the state that is not the conversation. *)
Record Frame (s : Session) : Prop := mkFrame {
  (** The active source is the only one that is open. *)
  fr_streaming : isStreaming (streamSt s) = true <-> sseSource (streamSt s) <> None;
  fr_source : forall k, sseSource (streamSt s) = Some k ->
    (k < sourceCount (streamSt s))%nat /\ isStreamComplete (streamSt s) = false;
  fr_open : forall k, (k < sourceCount (streamSt s))%nat -> k ∉ closedSources (streamSt s) ->
    sseSource (streamSt s) = Some k;
  (** Text waits only while a stream is open. *)
  fr_chunks : isStreaming (streamSt s) = false ->
    pendingStreamChunks s = no_chunks /\ streamFlushTimer s = false;
  fr_ids : Forall (fun id => id <= requestId (requestSt s))%nat (abortedRequests (requestSt s));
  fr_abort : forall id, abortController (requestSt s) = Some id -> (id <= requestId (requestSt s))%nat;
  (** A request that is waited for has not been aborted. *)
  fr_waiting : isRequesting (requestSt s) = true -> isStreaming (streamSt s) = false ->
    requestId (requestSt s) ∉ abortedRequests (requestSt s)
}.

Record Inv (s : Session) : Prop := mkInv {
  inv_last : only_last_pending (messages s);
  inv_idle : isGenerating s = false -> quiet (messages s);
  inv_busy : isGenerating s = true -> last_assistant (messages s);
  inv_frame : Frame s
}.

Lemma initial_inv ms : quiet ms -> Inv (initial ms).
Proof.
  intros Hq. split; cbn; try done; [by apply quiet_only_last |].
  split; cbn; try done. intros k Hk. lia.
Qed.

(** *** Flushing *)

Lemma flush_stream t s : streamSt (flushStreamUpdates t s) = streamSt s.
Proof. unfold flushStreamUpdates. by destruct (_ && _). Qed.
Lemma flush_request t s : requestSt (flushStreamUpdates t s) = requestSt s.
Proof. unfold flushStreamUpdates. by destruct (_ && _). Qed.
Lemma flush_timer t s : streamFlushTimer (flushStreamUpdates t s) = false.
Proof. unfold flushStreamUpdates. by destruct (_ && _). Qed.
Lemma flush_chunks t s : pendingStreamChunks (flushStreamUpdates t s) = no_chunks.
Proof.
  unfold flushStreamUpdates. destruct (negb _ && negb _) eqn:E; [| done]. cbn.
  apply andb_true_iff in E as [H1 H2]. destruct (pendingStreamChunks s) as [[|] [|]]; done.
Qed.
Lemma flush_messages t s :
  messages (flushStreamUpdates t s) = messages s \/
  messages (flushStreamUpdates t s) =
    updateLastAssistantMessage (messages s) (apply_pending t (pendingStreamChunks s)).
Proof. unfold flushStreamUpdates. destruct (_ && _); auto. Qed.
Lemma flush_idle t s :
  pendingStreamChunks s = no_chunks -> messages (flushStreamUpdates t s) = messages s.
Proof. unfold flushStreamUpdates. by intros ->. Qed.

(** What an update of the last message needs in order to settle it. *)
Definition ready (s : Session) : Prop :=
  only_last_pending (messages s) /\
  (last_assistant (messages s) \/ quiet (messages s) /\ pendingStreamChunks s = no_chunks).

Lemma inv_ready s : Inv s -> ready s.
Proof.
  intros H. split; [by apply inv_last |]. destruct (isGenerating s) eqn:E; [left; by apply inv_busy |].
  right. split; [by apply inv_idle |]. apply orb_false_iff in E as [E _]. by apply (fr_chunks s), E; apply inv_frame.
Qed.

Lemma flush_ready t s : ready s -> ready (flushStreamUpdates t s).
Proof.
  intros [Ho Hr]. split.
  - destruct (flush_messages t s) as [-> | ->]; [done | by apply update_only_last].
  - destruct Hr as [Ha | [Hq Hp]]; [left | right; split; [by rewrite flush_idle | apply flush_chunks]].
    destruct (flush_messages t s) as [-> | ->]; [done |].
    apply update_last_assistant; [apply apply_pending_keeps | done].
Qed.

Lemma ready_quiet s f : ready s -> settles f -> quiet (updateLastAssistantMessage (messages s) f).
Proof. intros [Ho Hr] Hf. apply update_quiet; [done | | done]. destruct Hr as [? | [? _]]; auto. Qed.

(** *** Handlers that end a generation *)

Lemma complete_quiet t s : ready s -> quiet (messages (handleStreamComplete t s)).
Proof.
  intros H. unfold handleStreamComplete. cbn. apply (ready_quiet (flushStreamUpdates t s)); [by apply flush_ready |].
  intros m. destruct (isAssistantMessageFinal m) eqn:E.
  - unfold isAssistantMessageFinal in E. unfold isAssistantMessagePending. by destruct (m_status m) as [[]|].
  - eapply pending_status; [apply complete_message_status | auto].
Qed.

Lemma stop_quiet t s : ready s -> quiet (messages (stopGeneration t s)).
Proof.
  intros H. unfold stopGeneration. cbn.
  apply (ready_quiet (flushStreamUpdates t (closeActiveStream None s))); [by apply flush_ready |].
  intros m. destruct (isAssistantMessagePending m) eqn:E; [| done].
  eapply pending_status; [apply complete_message_status | auto].
Qed.

(** The state after a handled error. *)
Record Errored (s s' : Session) : Prop := mkErrored {
  er_messages : quiet (messages s');
  er_assistant : last_assistant (messages s) -> last_assistant (messages s');
  er_stream : streamSt s' = streamSt s;
  er_request : requestSt s' = requestSt (setIsRequesting s false);
  er_chunks : pendingStreamChunks s' = no_chunks;
  er_timer : streamFlushTimer s' = false
}.

Lemma error_errored t s e c :
  ready s -> exists s', handleStreamError t s (JStr e) c = (s', true) /\ Errored s s'.
Proof.
  intros H. unfold handleStreamError. cbn. eexists. split; [reflexivity |].
  split; cbn; rewrite ?flush_stream, ?flush_request, ?flush_timer, ?flush_chunks; try done.
  - apply (ready_quiet (flushStreamUpdates t s)); [by apply flush_ready |].
    intros m. eapply pending_status; [by autorewrite with play | auto].
  - intros Ha. apply update_last_assistant.
    + intros m. by autorewrite with play.
    + destruct (flush_messages t s) as [-> | ->]; [done |].
      apply update_last_assistant; [apply apply_pending_keeps | done].
Qed.

(** *** Frames *)

Lemma elem_of_set_add (l : list nat) x y : y ∈ set_add l x <-> y ∈ l \/ y = x.
Proof. change (set_add l x) with (foldl set_add l [x]). rewrite foldl_set_add_elem. set_solver. Qed.

(** An open source is the active one, and closing it leaves no open source. *)
Lemma close_frame k s :
  Frame s -> sseSource (streamSt s) = Some k -> pendingStreamChunks s = no_chunks -> streamFlushTimer s = false ->
  isRequesting (requestSt s) = false -> Frame (closeActiveStream (Some k) s).
Proof.
  intros H Hk Hp Ht Hr. split; cbn; rewrite ?Hk, ?bool_decide_eq_true_2 by done; try done; try apply H.
  - intros j Hj Hn. rewrite elem_of_set_add in Hn. pose proof (fr_open s H j). naive_solver.
  - by rewrite Hr.
Qed.

Lemma close_generating k s : sseSource (streamSt s) = Some k -> isRequesting (requestSt s) = false ->
  isGenerating (closeActiveStream (Some k) s) = false.
Proof. intros Hk Hr. unfold isGenerating. cbn. by rewrite Hk, bool_decide_eq_true_2, Hr. Qed.

Lemma errored_frame s s' : Frame s -> Errored s s' -> Frame s'.
Proof.
  intros H []. split; rewrite ?er_stream0, ?er_request0, ?er_chunks0, ?er_timer0; cbn; try done; try apply H.
Qed.

(** A session that is not generating anything. *)
Lemma idle_inv s : quiet (messages s) -> isGenerating s = false -> Frame s -> Inv s.
Proof. intros Hq Hg Hf. split; [by apply quiet_only_last | done | by rewrite Hg | done]. Qed.

Lemma errored_close_inv k s s' :
  Frame s -> sseSource (streamSt s) = Some k -> Errored s s' -> Inv (closeActiveStream (Some k) s').
Proof.
  intros Hf Hk He. pose proof (errored_frame s s' Hf He) as Hf'.
  assert (isRequesting (requestSt s') = false) by (by rewrite (er_request s s' He)).
  assert (sseSource (streamSt s') = Some k) by (by rewrite (er_stream s s' He)).
  apply idle_inv; [apply He | by apply close_generating | apply close_frame; try done; apply He].
Qed.

(** *** Events of a source *)

Lemma handle_error_inv t k s e c :
  Inv s -> sseSource (streamSt s) = Some k -> Inv (handleError t k s e c).
Proof.
  intros H Hk. pose proof (inv_frame s H) as Hf. unfold handleError.
  destruct (fr_source s Hf k Hk) as [_ ->].
  assert (isGenerating s = true) as Hg.
  { unfold isGenerating. by rewrite (proj2 (fr_streaming s Hf)) by (by rewrite Hk). }
  destruct (getDisplayError e) eqn:He.
  - destruct e; try done. destruct (error_errored t s s0 c) as (s' & -> & Hs'); [by apply inv_ready |].
    by eapply errored_close_inv.
  - unfold handleStreamError. rewrite He. destruct (flush_ready t s (inv_ready s H)) as [Ho Hr].
    assert (last_assistant (messages (flushStreamUpdates t s))) as Ha.
    { destruct (flush_messages t s) as [-> | ->]; [by apply inv_busy |].
      apply update_last_assistant; [apply apply_pending_keeps | by apply inv_busy]. }
    split; cbn; try done.
    + unfold isGenerating. cbn. rewrite flush_stream, (proj2 (fr_streaming s Hf)); [done | by rewrite Hk].
    + split; cbn; rewrite ?flush_stream, ?flush_request, ?flush_chunks, ?flush_timer; try done; apply Hf.
Qed.

Lemma update_inv s u s' : Inv s -> isStreaming (streamSt s) = true -> handleStreamUpdate s u = Some s' ->
  Inv s' /\ streamSt s' = streamSt s.
Proof.
  intros H Hs Hu.
  assert (exists p, s' = set_pending s p true) as [p ->].
  { unfold handleStreamUpdate in Hu. destruct (su_type u); cbn in Hu;
      (destruct (mergePendingStreamChunk _ _) eqn:E; [| done]); cbn in Hu; apply (inj Some) in Hu; subst; eauto. }
  split; [| done]. split; try apply H. split; cbn; try apply (inv_frame s H). by rewrite Hs.
Qed.

Lemma updates_inv us s : Inv s -> isStreaming (streamSt s) = true ->
  Inv (fst (apply_updates s us)) /\ streamSt (fst (apply_updates s us)) = streamSt s.
Proof.
  revert s. induction us as [|u us IH]; intros s H Hs; cbn; [done |].
  destruct (handleStreamUpdate s u) as [s'|] eqn:E; [| done].
  destruct (update_inv _ _ _ H Hs E) as [H' Hst]. rewrite <- Hst. apply IH; [done | by rewrite Hst].
Qed.

Lemma done_inv t k s : Inv s -> sseSource (streamSt s) = Some k ->
  Inv (handleStreamComplete t (closeActiveStream (Some k) (set_complete s true))).
Proof.
  intros H Hk. pose proof (inv_frame s H) as Hf. pose proof (inv_ready s H) as Hr.
  apply idle_inv.
  - by apply complete_quiet.
  - unfold isGenerating, handleStreamComplete. cbn. rewrite flush_stream. cbn. by rewrite Hk, bool_decide_eq_true_2.
  - unfold handleStreamComplete. split; cbn; autorewrite with play; rewrite ?flush_stream, ?flush_request; cbn; rewrite ?Hk, ?bool_decide_eq_true_2 by done;
      try done; try apply Hf; [| by rewrite flush_chunks, flush_timer].
    intros j Hj Hn. rewrite elem_of_set_add in Hn. pose proof (fr_open s Hf j). naive_solver.
Qed.

Lemma message_inv t k data s : Inv s -> sseSource (streamSt s) = Some k -> Inv (on_message t k data s).
Proof.
  intros H Hk. pose proof (inv_frame s H) as Hf. unfold on_message.
  destruct (isStreamDoneMessage data); [by apply done_inv |].
  destruct (parseStreamMessageUpdates data) as [us|]; [| by apply handle_error_inv].
  destruct (updates_inv us s H) as [H' Hst]; [by apply (fr_streaming s Hf); rewrite Hk |].
  destruct (apply_updates s us) as [s' []]; [done |]. cbn in *. apply handle_error_inv; [done | by rewrite Hst].
Qed.

(** *** Stop, timer and answers *)

Lemma stop_inv t s : Inv s -> Inv (stopGeneration t s).
Proof.
  intros H. pose proof (inv_frame s H) as Hf. apply idle_inv.
  - by apply stop_quiet, inv_ready.
  - unfold isGenerating, stopGeneration. cbn. by rewrite flush_stream.
  - unfold stopGeneration. split; cbn; rewrite ?flush_stream, ?flush_request; cbn; try done.
    + intros j Hj Hn. pose proof (fr_open s Hf j Hj) as Ho. destruct (sseSource (streamSt s)) as [k|] eqn:Hk.
      * rewrite elem_of_set_add in Hn. naive_solver.
      * naive_solver.
    + by rewrite flush_chunks, flush_timer.
    + destruct (abortController _) eqn:E; [| apply Hf]. apply Forall_forall. intros x Hx.
      apply elem_of_set_add in Hx as [Hx | ->]; [| by apply Hf].
      pose proof (fr_ids s Hf) as Hi. rewrite Forall_forall in Hi. by apply Hi.
Qed.

Lemma timer_inv t s : Inv s -> streamFlushTimer s = true -> Inv (flushStreamUpdates t s).
Proof.
  intros H Ht. pose proof (inv_frame s H) as Hf.
  assert (isStreaming (streamSt s) = true) as Hs.
  { destruct (isStreaming (streamSt s)) eqn:E; [done |]. destruct (fr_chunks s Hf E); congruence. }
  assert (isGenerating s = true) as Hg by (unfold isGenerating; by rewrite Hs).
  destruct (flush_ready t s (inv_ready s H)) as [Ho _]. split; [done | | |].
  - unfold isGenerating. by rewrite flush_stream, flush_request, Hs.
  - intros _. destruct (flush_messages t s) as [-> | ->]; [by apply inv_busy |].
    apply update_last_assistant; [apply apply_pending_keeps | by apply inv_busy].
  - split; rewrite ?flush_stream, ?flush_request, ?flush_chunks, ?flush_timer; try done; apply Hf.
Qed.

Lemma settle_parts id s : messages (settle id s) = messages s /\ streamSt (settle id s) = streamSt s /\
  pendingStreamChunks (settle id s) = pendingStreamChunks s /\ streamFlushTimer (settle id s) = streamFlushTimer s.
Proof. unfold settle. by destruct (_ =? _)%nat. Qed.

Lemma settle_frame id s : Frame s -> Frame (settle id s).
Proof. intros H. unfold settle. destruct (_ =? _)%nat; [| done]. split; cbn; try done; apply H. Qed.

(** The end of a request that was not aborted. *)
Lemma settle_inv id s : quiet (messages s) -> (isGenerating s = true -> last_assistant (messages s)) -> Frame s ->
  Inv (settle id s).
Proof.
  intros Hq Ha Hf. destruct (settle_parts id s) as (Hm & Hs & _). split; rewrite ?Hm.
  - by apply quiet_only_last.
  - done.
  - intros Hg. apply Ha. revert Hg. unfold isGenerating, settle. destruct (_ =? _)%nat; [| done]. cbn.
    rewrite orb_false_r. by intros ->.
  - by apply settle_frame.
Qed.

(** An aborted request changes only the flag of the requests. *)
Lemma settle_aborted_inv id s : Inv s -> id ∈ abortedRequests (requestSt s) -> Inv (settle id s).
Proof.
  intros H Hid. pose proof (inv_frame s H) as Hf. unfold settle. destruct (Nat.eqb_spec (requestId (requestSt s)) id) as [<-|]; [| done].
  assert (isStreaming (streamSt s) = isGenerating s) as Hg.
  { unfold isGenerating. destruct (isStreaming (streamSt s)) eqn:E; [done |].
    destruct (isRequesting (requestSt s)) eqn:E'; [| done]. by destruct (fr_waiting s Hf E' E). }
  split; cbn.
  - apply H.
  - unfold isGenerating. cbn. rewrite orb_false_r, Hg. apply H.
  - unfold isGenerating. cbn. rewrite orb_false_r, Hg. apply H.
  - split; cbn; try done; apply Hf.
Qed.

Lemma in_flight_inv s l : Inv s ->
  Inv (set_request s (mkReqState (abortController (requestSt s)) (requestId (requestSt s)) (abortedRequests (requestSt s)) l
         (isRequesting (requestSt s)))).
Proof. intros H. pose proof (inv_frame s H). split; try apply H. split; apply (inv_frame s H). Qed.

Lemma errored_settle_inv id s s' : Inv s -> Errored s s' -> Inv (settle id s').
Proof.
  intros H He. apply settle_inv; [apply He | | by eapply errored_frame; [apply H |]].
  unfold isGenerating. rewrite (er_stream s s' He), (er_request s s' He). cbn. rewrite orb_false_r. intros Hs.
  apply He, H. unfold isGenerating. by rewrite Hs.
Qed.

Lemma resume_inv t id outcome s : Inv s -> Inv (resumeNonStreamingChat t id outcome s).
Proof.
  intros H0. pose proof (in_flight_inv s (List.filter (fun x => negb (x =? id)%nat) (inFlight (requestSt s))) H0) as H.
  unfold resumeNonStreamingChat. set (s1 := set_request s _) in *.
  destruct (set_has id (abortedRequests (requestSt s))) eqn:Ha.
  { apply settle_aborted_inv; [done |]. by apply set_has_spec in Ha. }
  destruct outcome as [response | error].
  - unfold hasChatCompletionChoice. destruct (first_choice response) as [c|] eqn:Hc.
    + apply settle_inv; cbn.
      * apply (ready_quiet s1); [by apply inv_ready |]. intros m. unfold applyChatCompletionResponse. rewrite Hc.
        eapply pending_status; [apply apply_choice_status | auto].
      * intros Hg. apply update_last_assistant; [| by apply (inv_busy s1 H)].
        intros m. unfold applyChatCompletionResponse. rewrite Hc. apply apply_choice_keeps.
      * split; apply (inv_frame s1 H).
    + destruct (error_errored t s1 API_REQUEST_ERROR None (inv_ready s1 H)) as (s' & -> & He).
      by eapply errored_settle_inv.
  - edestruct (error_errored t s1 (rd_errorMessage (parseRequestErrorDetails error))
                 (JStr <$> rd_errorCode (parseRequestErrorDetails error)) (inv_ready s1 H)) as (s' & -> & He).
    by eapply errored_settle_inv.
Qed.

(** *** Sending *)

Lemma send_frame s source closed payload :
  Frame s -> source = sourceCount (streamSt s) ->
  closed = match sseSource (streamSt s) with
           | Some x => set_add (closedSources (streamSt s)) x | None => closedSources (streamSt s) end ->
  Frame (add_sent (set_stream (setIsRequesting s true) (mkStream (Some source) (S source) closed false true)) payload).
Proof.
  intros H -> ->. split; cbn; try done; try apply H.
  - intros k [= <-]. split; [lia | done].
  - intros k Hk Hn. pose proof (fr_open s H k) as Ho.
    destruct (decide (k = sourceCount (streamSt s))) as [-> | Hne]; [done |].
    destruct (sseSource (streamSt s)) as [x|] eqn:Hx.
    + rewrite elem_of_set_add in Hn. assert (Some x = Some k) by (apply Ho; [lia | tauto]). naive_solver.
    + assert (None = Some k) by (apply Ho; [lia | done]). done.
Qed.

Lemma send_inv e init m s :
  Frame s -> quiet init -> m_from m = RoleAssistant -> Inv (send_next e (init ++ [m]) s).
Proof.
  intros Hf Hq Hm. unfold send_next, sendChat.
  assert (last_assistant (init ++ [m])) as Ha by (by eexists _, _).
  assert (only_last_pending (init ++ [m])) as Ho by (by apply only_last_snoc).
  assert (Frame (set_messages s (init ++ [m]))) as Hf' by (split; apply Hf).
  destruct (stream (e_config e)).
  - unfold sendStreamingChat, sendStreamRequest. set (payload := buildChatCompletionPayload _ _ _).
    pose proof (send_frame _ _ _ payload Hf' eq_refl eq_refl) as Hs. cbn in Hs. cbn [streamSt setIsRequesting set_request set_messages].
    set (s1 := add_sent _ payload) in *. destruct (e_starts e); [by split |].
    destruct (error_errored (e_clock e) s1 STREAM_START_ERROR None) as (s' & -> & He); [split; auto |].
    cbn [fst]. by eapply errored_close_inv.
  - split; [done | by unfold isGenerating; cbn; rewrite orb_true_r | done |]. split; cbn; try apply Hf'.
    + eapply Forall_impl; [apply (fr_ids s Hf) |]. cbn. lia.
    + intros id [= <-]. done.
    + intros _ _ Hin. pose proof (fr_ids s Hf) as Hi. rewrite Forall_forall in Hi. apply Hi in Hin. lia.
Qed.

Lemma send_message_inv e text s : Inv s -> isGenerating s = false -> Inv (handleSendMessage e text s).
Proof.
  intros H Hg. unfold handleSendMessage, appendUserMessagePair.
  set (u := createUserMessage _ _ _ _). set (a := createLoadingAssistantMessage _ _ _).
  change [u; a] with ([u] ++ [a]). rewrite app_assoc. apply send_inv; [apply H | | done].
  apply quiet_app. split; [by apply H |]. apply Forall_singleton. by apply user_settled.
Qed.

Lemma regenerate_inv e key s : Inv s -> isGenerating s = false -> Inv (handleRegenerateMessage e key s).
Proof.
  intros H Hg. unfold handleRegenerateMessage, createRegeneratedMessages.
  destruct (find_index _ _) as [[i m]|]; [| done].
  apply send_inv; [apply H | by apply Forall_take, H | done].
Qed.

(** *** Editing and deleting *)

Lemma find_index_lookup {A} (f : A -> bool) l i x : find_index f l = Some (i, x) -> l !! i = Some x /\ f x = true.
Proof.
  revert i. induction l as [|y l IH]; intros i Hi; [done |]. cbn in Hi. destruct (f y) eqn:E.
  - by simplify_eq/=.
  - destruct (find_index f l) as [[j z]|]; [| done]. cbn in Hi. simplify_eq. cbn. by apply IH.
Qed.

Definition edited (key content : str) (submit : bool) (t : Z) (m : Message) : Message :=
  if has_key key m
  then with_createdAt (updateCurrentVersionContent m content) (if submit then Some t else m_createdAt m) else m.

Lemma edited_from key content submit t m : m_from (edited key content submit t m) = m_from m.
Proof. unfold edited. by destruct (has_key key m). Qed.
Lemma edited_settled key content submit t m : settled (edited key content submit t m) <-> settled m.
Proof. unfold edited. by destruct (has_key key m). Qed.

Lemma map_quiet f l : (forall m, settled (f m) <-> settled m) -> quiet (map f l) <-> quiet l.
Proof. intros Hf. unfold quiet. rewrite Forall_map. apply Forall_iff. intros m. apply Hf. Qed.

Lemma edit_messages_inv s f :
  (forall m, m_from (f m) = m_from m) -> (forall m, settled (f m) <-> settled m) -> Inv s ->
  Inv (set_messages s (map f (messages s))).
Proof.
  intros H1 H2 H. split; cbn.
  - unfold only_last_pending. rewrite length_map, firstn_map. apply map_quiet; [done | apply H].
  - intros Hg. apply map_quiet; [done | by apply H].
  - intros Hg. destruct (inv_busy s H Hg) as (init & m & -> & Hm). rewrite map_app.
    eexists _, _. split; [done |]. cbn. by rewrite H1.
  - split; apply (inv_frame s H).
Qed.

Lemma editing_inv s k : Inv s -> Inv (set_editing s k).
Proof. intros H. split; try apply H. split; apply (inv_frame s H). Qed.

Lemma quiet_prefix ms i m : only_last_pending ms -> ms !! i = Some m -> m_from m = RoleUser -> quiet (take (S i) ms).
Proof.
  intros Ho Hi Hm. erewrite take_S_r by done. apply quiet_app. split; [| apply Forall_singleton; by apply user_settled].
  apply lookup_lt_Some in Hi. replace (take i ms) with (take i (take (length ms - 1) ms)).
  - by apply Forall_take.
  - rewrite take_take. f_equal. lia.
Qed.

Lemma edit_inv e text submit s : Inv s -> Inv (applyEdit e text submit s).
Proof.
  intros H. unfold applyEdit. destruct (editingMessageKey s) as [[|c key]|]; [done | | done].
  unfold applyMessageEdit. destruct (find_index _ _) as [[i m]|] eqn:Hi; [| done].
  apply find_index_lookup in Hi as [Hi _].
  pose proof (edit_messages_inv (set_editing s None) (edited (c :: key) text submit (e_clock e 7))
                (edited_from _ _ _ _) (edited_settled _ _ _ _) (editing_inv _ _ H)) as He.
  destruct (negb submit || negb (bool_decide (m_from m = RoleUser))) eqn:Hc; [exact He |]. cbn.
  apply orb_false_iff in Hc as [_ Hc]. apply negb_false_iff, bool_decide_eq_true in Hc.
  apply send_inv; [split; apply He | | done].
  eapply (quiet_prefix _ i (edited (c :: key) text submit (e_clock e 7) m)); [apply He | | by rewrite edited_from].
  cbn. by rewrite list_lookup_fmap, Hi.
Qed.

Lemma delete_inv key s : Inv s -> isGenerating s = false -> Inv (handleDeleteMessage key s).
Proof.
  intros H Hg. apply idle_inv; [| done | split; apply (inv_frame s H)]. cbn. unfold removeMessageByKey, quiet.
  pose proof (inv_idle s H Hg) as Hq. unfold quiet in Hq. rewrite Forall_forall in *. intros x Hx.
  apply Hq. by apply list_elem_of_In, filter_In in Hx as [Hx%list_elem_of_In _].
Qed.

Lemma guard_inv action s : Inv s -> (isGenerating s = false -> Inv (action s)) -> Inv (guardAction action s).
Proof.
  intros H Ha. unfold guardAction. destruct (isGenerating s); [| auto].
  split; try apply H. split; apply (inv_frame s H).
Qed.

Lemma step_inv s s' : Inv s -> step s s' -> Inv s'.
Proof.
  intros H Hs. pose proof (fun k => fr_open s (inv_frame s H) k) as Hopen. destruct Hs.
  - unfold handleSubmit, getSubmittableInputText. destruct text; [| done].
    destruct (isGenerating s) eqn:Hg; [done |]. cbn. destruct (negb _); [done | by apply send_message_inv].
  - apply send_message_inv; [done |]. destruct (isGenerating s) eqn:Hg; [| done].
    destruct (inv_busy s H Hg) as (init & m & Hm & _). rewrite Hm in H0. by destruct init.
  - apply guard_inv; [done | intros; by apply regenerate_inv].
  - by apply regenerate_inv.
  - apply guard_inv; [done | intros; by apply editing_inv].
  - by apply editing_inv.
  - destruct open; [done | by apply editing_inv].
  - by apply edit_inv.
  - apply guard_inv; [done | intros; by apply delete_inv].
  - by apply delete_inv.
  - apply idle_inv; [by apply Forall_nil | done | split; apply (inv_frame s H)].
  - by apply stop_inv.
  - by apply timer_inv.
  - apply message_inv; auto.
  - unfold on_error. destruct (isStreamClosedReadyState readyState); [done | apply handle_error_inv; auto].
  - unfold on_readystatechange. destruct (getStreamReadyStateError _ _); [apply handle_error_inv; auto | done].
  - by apply resume_inv.
Qed.

Lemma reachable_inv ms s : quiet ms -> reachable ms s -> Inv s.
Proof. intros Hq. apply rtc_ind_r; [by apply initial_inv | intros; by eapply step_inv]. Qed.
End Session.
#[export] Hint Rewrite @flush_stream @flush_request @flush_timer @flush_chunks : play.

(** ** The text of a streamed answer *)

(** A chunk of the answer, or the flush timer. *)
Definition feed_step (clock : nat -> Z) (ev : option str) (s : Session) : Session :=
  match ev with
  | Some c => default s (handleStreamUpdate s (mkUpdate TContent (JStr c)))
  | None => flushStreamUpdates clock s
  end.
Definition feed (clock : nat -> Z) (evs : list (option str)) (s : Session) : Session :=
  foldl (fun s ev => feed_step clock ev s) s evs.
Definition chunks_of (evs : list (option str)) : list str := omap id evs.

(** The answer being written: its text so far, and the text that waits. *)
Definition writing (init : list Message) (s : Session) (shown waiting : str) : Prop :=
  (exists m, messages s = init ++ [m] /\ isPendingAssistantMessage (Some m) = true /\ getMessageContent m = shown) /\
  pendingStreamChunks s = mkPending waiting [].

Definition merge_text (current next : str) : str :=
  if negb (truthy current) || negb (starts_with next current) then current ++ next else next.

Lemma append_merge current next : current ++ getAppendableChunk current next = merge_text current next.
Proof.
  unfold getAppendableChunk, merge_text. destruct (negb (truthy current)); [done |]. cbn.
  destruct (starts_with next current) eqn:E; [| done]. cbn.
  apply starts_with_spec in E as [r ->]. by rewrite drop_app_length.
Qed.

Lemma merge_pending_str current next : mergePendingStreamChunk current (JStr next) = Some (merge_text current next).
Proof. unfold merge_text. destruct current as [|c r]; [done |]. cbn [mergePendingStreamChunk truthy negb orb].
  by destruct (starts_with next (c :: r)). Qed.

Lemma process_content t m c : getMessageContent (processStreamingContent t m (Some c)) = getMessageContent m ++ c.
Proof.
  unfold processStreamingContent, getMessageContent. destruct c; [rewrite app_nil_r |]; by repeat case_match.
Qed.

Lemma complete_reasoning_content m t : getMessageContent (completeReasoningTiming m t) = getMessageContent m.
Proof. unfold completeReasoningTiming. by repeat case_match. Qed.

Lemma apply_content_chunk t1 t2 m c :
  m_status m <> Some StError ->
  getMessageContent (applyStreamingChunk t1 t2 m TContent c) = merge_text (getMessageContent m) c /\
  m_status (applyStreamingChunk t1 t2 m TContent c) = Some StStreaming.
Proof.
  intros Hs. unfold applyStreamingChunk. rewrite bool_decide_eq_false_2 by done. split; [| done].
  etransitivity; [| apply append_merge]. unfold getMessageContent at 1. cbn [getCurrentVersion with_status m_versions].
  fold (getMessageContent m).
  etransitivity; [| apply process_content]. instantiate (1 := t1).
  destruct (default _ _); [done |]. etransitivity; [| by apply complete_reasoning_content]. done.
Qed.

Lemma pending_parts m : isPendingAssistantMessage (Some m) = true -> m_from m = RoleAssistant /\ m_status m <> Some StError.
Proof.
  unfold isPendingAssistantMessage, isAssistantMessagePending. intros H. apply andb_true_iff in H as [H1 H2].
  split; [by apply bool_decide_eq_true in H1 |]. by destruct (m_status m) as [[]|].
Qed.

Lemma writing_chunk init clock s shown waiting c :
  writing init s shown waiting -> writing init (feed_step clock (Some c) s) shown (merge_text waiting c).
Proof.
  intros [Hm Hp]. unfold feed_step, handleStreamUpdate. cbn [su_type su_chunk]. rewrite Hp. cbn [p_content p_reasoning].
  rewrite merge_pending_str. by split.
Qed.

Lemma writing_flush init clock s shown waiting :
  writing init s shown waiting -> writing init (feed_step clock None s) (merge_text shown waiting) [].
Proof.
  intros [(m & Hm & Hpm & Ht) Hp]. split; [| apply flush_chunks]. destruct (pending_parts m Hpm) as [Hr Hs].
  unfold feed_step, flushStreamUpdates. rewrite Hp. cbn [p_content p_reasoning truthy negb andb].
  destruct waiting as [|c w].
  - exists m. split_and!; [done | done |]. unfold merge_text. destruct shown; [done |]. cbn. by rewrite app_nil_r.
  - destruct (apply_content_chunk (clock 2) (clock 3) m (c :: w) Hs) as [Hc Hst].
    cbn [truthy negb andb set_messages set_pending messages]. rewrite Hm, update_last_snoc, bool_decide_eq_true_2 by done.
    exists (apply_pending clock (mkPending (c :: w) []) m). unfold apply_pending. cbn [p_content p_reasoning truthy].
    split_and!; [done | | by rewrite Hc, Ht]. unfold isPendingAssistantMessage, isAssistantMessagePending.
    by rewrite Hst, (apply_chunk_keeps _ _ TContent), Hr.
Qed.

(** *** Deltas *)

Definition cuts {A} (l : list A) : list (list A * list A) :=
  map (fun i => (take i l, drop i l)) (seq 0 (S (length l))).

Lemma elem_of_cuts {A} (a b : list A) : (a, b) ∈ cuts (a ++ b).
Proof.
  unfold cuts. apply list_elem_of_In, in_map_iff. exists (length a). split.
  - by rewrite take_app_length, drop_app_length.
  - apply in_seq. rewrite length_app. lia.
Qed.

(** No run of chunks starts with the text of the run before it. *)
Definition echo_free (b c : list str) : bool := negb (truthy (concat b)) || negb (starts_with (concat c) (concat b)).
Definition no_echo (cs : list str) : bool :=
  forallb (fun '(_, r) => forallb (fun '(bc, _) => forallb (fun '(b, c) => echo_free b c) (cuts bc)) (cuts r)) (cuts cs).

Lemma forallb_elem {A} (f : A -> bool) l x : forallb f l = true -> x ∈ l -> f x = true.
Proof. rewrite forallb_forall. intros H Hx. by apply H, list_elem_of_In. Qed.

Lemma no_echo_spec cs a b c d : no_echo cs = true -> cs = a ++ b ++ c ++ d -> echo_free b c = true.
Proof.
  intros H ->. unfold no_echo in H. apply forallb_elem with (x := (a, b ++ c ++ d)) in H; [| apply elem_of_cuts].
  apply forallb_elem with (x := (b ++ c, d)) in H; [| rewrite (app_assoc b c d); apply elem_of_cuts].
  by apply forallb_elem with (x := (b, c)) in H; [| apply elem_of_cuts].
Qed.

Lemma echo_free_merge b c : echo_free b c = true -> merge_text (concat b) (concat c) = concat (b ++ c).
Proof. unfold echo_free, merge_text. intros ->. by rewrite concat_app. Qed.

Lemma feed_deltas init clock cs evs s a b :
  no_echo cs = true -> cs = a ++ b ++ chunks_of evs -> writing init s (concat a) (concat b) ->
  exists a' b', cs = a' ++ b' /\ writing init (feed clock evs s) (concat a') (concat b').
Proof.
  intros Hn. revert s a b. induction evs as [|[c|] evs IH]; intros s a b Hcs Hw.
  - exists a, b. cbn in Hcs. by rewrite app_nil_r in Hcs.
  - apply (writing_chunk _ clock _ _ _ c) in Hw. cbn [feed foldl]. apply (IH _ a (b ++ [c])).
    + rewrite Hcs. cbn. by rewrite <- app_assoc.
    + assert (c = concat [c]) as Hc by (cbn; by rewrite app_nil_r). rewrite Hc in Hw at 2.
      rewrite echo_free_merge in Hw; [done |]. by apply (no_echo_spec cs a b [c] (chunks_of evs)).
  - apply (writing_flush _ clock) in Hw. cbn [feed foldl]. apply (IH _ (a ++ b) []).
    + rewrite Hcs. cbn. by rewrite <- app_assoc.
    + rewrite echo_free_merge in Hw; [done |]. by apply (no_echo_spec cs [] a b (chunks_of evs)).
Qed.

(** *** Snapshots *)

(** Every chunk repeats the one before it and adds to it. *)
Fixpoint snapshots (prev : str) (cs : list str) : bool :=
  match cs with
  | [] => true
  | c :: cs => truthy c && starts_with c prev && snapshots c cs
  end.

Definition snapshot_state (z shown waiting : str) : Prop :=
  (shown = z /\ waiting = []) \/ (waiting = z /\ starts_with z shown = true /\ z <> []).

Lemma merge_prefix p z : starts_with z p = true -> merge_text p z = z.
Proof.
  unfold merge_text. intros ->. rewrite orb_false_r. by destruct p.
Qed.

Lemma last_cons_default {A} (x d : A) l : List.last (x :: l) d = List.last l x.
Proof. revert x. induction l as [|y l IH]; intros x; [done |]. cbn. destruct l; [done | apply (IH x)]. Qed.

Lemma starts_with_trans a b c : starts_with a b = true -> starts_with b c = true -> starts_with a c = true.
Proof. rewrite !starts_with_spec. intros [r ->] [q ->]. exists (q ++ r). by rewrite <- app_assoc. Qed.

Lemma feed_snapshots init clock evs s z shown waiting :
  snapshots z (chunks_of evs) = true -> snapshot_state z shown waiting -> writing init s shown waiting ->
  exists shown' waiting', writing init (feed clock evs s) shown' waiting' /\
    snapshot_state (List.last (chunks_of evs) z) shown' waiting'.
Proof.
  revert s z shown waiting. induction evs as [|[c|] evs IH]; intros s z shown waiting Hs Hz Hw.
  - by exists shown, waiting.
  - cbn in Hs. apply andb_true_iff in Hs as [Hs Hr]. apply andb_true_iff in Hs as [Ht Hp].
    apply (writing_chunk _ clock _ _ _ c) in Hw. cbn [feed foldl].
    change (chunks_of (Some c :: evs)) with (c :: chunks_of evs).
    rewrite last_cons_default.
    eapply IH; [exact Hr | | exact Hw]. apply truthy_true in Ht. right.
    destruct Hz as [[-> ->] | (-> & Hsz & Hnz)]; [done |].
    rewrite merge_prefix by done. split_and!; [done | by eapply starts_with_trans | done].
  - apply (writing_flush _ clock) in Hw. cbn [feed foldl]. eapply IH; [exact Hs | | exact Hw]. left.
    destruct Hz as [[-> ->] | (-> & Hsz & Hnz)]; [| by rewrite merge_prefix].
    split; [| done]. unfold merge_text. destruct z; [done |]. cbn. by rewrite app_nil_r.
Qed.

(** *** The finished answer *)

(** The text without its thinking sections. *)
Definition visible_text (s : str) : str :=
  if str_includes s OPEN_TAG then visibleContent (parseThinkTags s) else s.

Lemma finalize_content t1 t2 m r : getMessageContent (finalizeMessage t1 t2 m r) = visible_text (getMessageContent m).
Proof.
  unfold finalizeMessage. rewrite complete_reasoning_content. unfold visible_text, getMessageContent.
  by destruct (str_includes (v_content (getCurrentVersion m)) OPEN_TAG).
Qed.

Lemma complete_content t1 t2 t3 m :
  getMessageContent (completeAssistantMessage t1 t2 t3 m) = visible_text (getMessageContent m).
Proof.
  unfold completeAssistantMessage. rewrite <- (finalize_content t1 t2 m None).
  unfold completeAssistantTiming. by destruct (negb _).
Qed.

Lemma writing_done init t s shown waiting :
  writing init s shown waiting ->
  exists m, messages (handleStreamComplete t s) = init ++ [m] /\ m_status m = Some StComplete /\
    getMessageContent m = visible_text (merge_text shown waiting).
Proof.
  intros Hw. apply (writing_flush _ t) in Hw as [(m & Hm & Hp & Hc) _].
  unfold handleStreamComplete. cbn [messages setIsRequesting set_request set_messages].
  change (flushStreamUpdates t s) with (feed_step t None s). rewrite Hm, update_last_snoc.
  destruct (pending_parts m Hp) as [Hr _]. rewrite bool_decide_eq_true_2 by done.
  assert (isAssistantMessageFinal m = false) as ->.
  { unfold isPendingAssistantMessage, isAssistantMessagePending, isAssistantMessageFinal in *.
    rewrite Hr in Hp. by destruct (m_status m) as [[]|]. }
  eexists. split; [done |]. by rewrite complete_message_status, complete_content, Hc.
Qed.

Section Texts.
Variables (clock t : nat -> Z) (evs : list (option str)) (s : Session) (init : list Message) (m : Message).
Hypotheses (Hms : messages s = init ++ [m]) (Hm : isPendingAssistantMessage (Some m) = true)
  (Hempty : getMessageContent m = []) (Hbuf : pendingStreamChunks s = no_chunks).

Lemma fresh_writing : writing init s [] [].
Proof. split; [by exists m | done]. Qed.

(** C21: However the flush timer interleaves with the chunks of an answer, the
    finished message shows their concatenation without its thinking sections,
    provided no run of chunks begins with the text of the run before it. *)
Theorem streamed_deltas_concatenate :
  no_echo (chunks_of evs) = true ->
  exists m', messages (handleStreamComplete t (feed clock evs s)) = init ++ [m'] /\
    m_status m' = Some StComplete /\ getMessageContent m' = visible_text (concat (chunks_of evs)).
Proof.
  intros Hn. destruct (feed_deltas init clock _ evs s [] [] Hn eq_refl fresh_writing) as (a & b & Hab & Hw).
  apply (writing_done _ t) in Hw. rewrite echo_free_merge in Hw; [by rewrite Hab |].
  apply (no_echo_spec _ [] a b [] Hn). by rewrite app_nil_r.
Qed.

(** When every chunk is the whole answer so far, the finished message shows
    the last one, however the flush timer interleaves with the chunks. *)
Theorem streamed_snapshots_replace :
  snapshots [] (chunks_of evs) = true ->
  exists m', messages (handleStreamComplete t (feed clock evs s)) = init ++ [m'] /\
    m_status m' = Some StComplete /\ getMessageContent m' = visible_text (List.last (chunks_of evs) []).
Proof.
  intros Hn. destruct (feed_snapshots init clock evs s [] [] [] Hn) as (a & b & Hw & Hz);
    [by left | apply fresh_writing |].
  apply (writing_done _ t) in Hw. replace (List.last (chunks_of evs) []) with (merge_text a b); [done |].
  destruct Hz as [[<- ->] | (-> & Hz & _)]; [| by apply merge_prefix].
  unfold merge_text. destruct a; [done |]. cbn. by rewrite app_nil_r.
Qed.

(** An answer whose second chunk is equal to its first loses it: the chunk is
    taken for a longer version of the text so far. *)
Theorem repeated_chunk_lost c :
  c <> [] -> str_includes c OPEN_TAG = false ->
  exists m', messages (handleStreamComplete t (feed clock [Some c; Some c] s)) = init ++ [m'] /\
    getMessageContent m' = c.
Proof.
  intros Hc Ht. pose proof (writing_chunk _ clock _ _ _ c (writing_chunk _ clock _ _ _ c fresh_writing)) as Hw.
  apply (writing_done _ t) in Hw as (m' & Hm' & _ & Hc'). exists m'. split; [exact Hm' |]. rewrite Hc'.
  change (merge_text [] c) with c. rewrite (merge_prefix c c) by (apply starts_with_spec; exists []; by rewrite app_nil_r).
  change (merge_text [] c) with c.
  unfold visible_text. by rewrite Ht.
Qed.
End Texts.

(** ** The session never gets stuck *)

Section Claims.
Context {I : I18n}.

(** C1: In every reachable state in which no answer is being generated, no message
    is unfinished, no text waits to be shown and no flush timer is set. *)
Theorem idle_session_is_settled ms s :
  quiet ms -> reachable ms s -> isGenerating s = false ->
  quiet (messages s) /\ pendingStreamChunks s = no_chunks /\ streamFlushTimer s = false.
Proof.
  intros Hq Hr Hg. pose proof (reachable_inv ms s Hq Hr) as H. split; [by apply H |].
  apply orb_false_iff in Hg as [Hs _]. by apply (fr_chunks s (inv_frame s H)).
Qed.

(** C12: In every reachable state only the last message can be unfinished; while an
    answer is being generated the last message is the assistant's, and at most one
    event source is open. *)
Theorem one_unfinished_answer ms s :
  quiet ms -> reachable ms s ->
  only_last_pending (messages s) /\ (isGenerating s = true -> last_assistant (messages s)) /\
  (forall j k, (j < sourceCount (streamSt s))%nat -> (k < sourceCount (streamSt s))%nat ->
     j ∉ closedSources (streamSt s) -> k ∉ closedSources (streamSt s) -> j = k).
Proof.
  intros Hq Hr. pose proof (reachable_inv ms s Hq Hr) as H. split_and!; [apply H | apply H |].
  intros j k Hj Hk Hcj Hck. pose proof (fr_open s (inv_frame s H)) as Ho.
  pose proof (Ho j Hj Hcj) as E. rewrite (Ho k Hk Hck) in E. by injection E.
Qed.

(** C34: Stopping works from every reachable state: afterwards nothing is generated,
    no message is unfinished and every event source is closed. *)
Theorem stop_ends_generation ms s t :
  quiet ms -> reachable ms s ->
  isGenerating (stopGeneration t s) = false /\ quiet (messages (stopGeneration t s)) /\
  (forall k, (k < sourceCount (streamSt (stopGeneration t s)))%nat -> k ∈ closedSources (streamSt (stopGeneration t s))).
Proof.
  intros Hq Hr. pose proof (stop_inv t s (reachable_inv ms s Hq Hr)) as H.
  assert (streamSt (stopGeneration t s) = streamSt (closeActiveStream None s)) as Hs
    by (unfold stopGeneration; cbn; by rewrite flush_stream).
  assert (isGenerating (stopGeneration t s) = false) as Hg by (unfold isGenerating; by rewrite Hs).
  split_and!; [done | by apply H |]. intros k Hk. destruct (decide (k ∈ closedSources (streamSt (stopGeneration t s)))) as [|Hn]; [done |].
  apply (fr_open _ (inv_frame _ H) k Hk) in Hn. by rewrite Hs in Hn.
Qed.
End Claims.

(** ** Witnesses *)

#[local] Instance plain_i18n : I18n := {| tr := fun s => s |}.
Definition demo_env (stream_on : bool) : SendEnv :=
  mkEnv (fun n => Z.of_nat n) (js "k1") (js "v1") (js "k2") (js "v2")
    (mkConfig (js "m") (js "g") n_zero n_zero n_zero n_zero n_zero None stream_on) DEFAULT_PARAMETER_ENABLED true.
Definition demo_data (c : str) : str := jsq "{'choices':[{'delta':{'content':'" ++ c ++ jsq "'}}]}".
Definition demo_clock (n : nat) : Z := 100 + Z.of_nat n.

(** A question, an answer in two chunks with a flush between them, and its end. *)
Definition demo_busy : Session :=
  on_message demo_clock 0 (demo_data (js "lo"))
    (flushStreamUpdates demo_clock
       (on_message demo_clock 0 (demo_data (js "hel")) (handleSubmit (demo_env true) (Some (js "hi")) (initial [])))).
Definition demo_idle : Session := on_message demo_clock 0 (js "[DONE]") demo_busy.

(** An open source. *)
Ltac open_source_goal :=
  first [apply Nat.ltb_lt; vm_compute; reflexivity | apply (bool_decide_unpack _); vm_compute; exact Logic.I].

Lemma demo_busy_reachable : reachable [] demo_busy.
Proof.
  unfold demo_busy. eapply rtc_r; [| apply step_message; open_source_goal].
  eapply rtc_r; [| apply step_timer; vm_compute; reflexivity].
  eapply rtc_r; [| apply step_message; open_source_goal].
  eapply rtc_r; [| apply step_submit]. apply rtc_refl.
Qed.

Lemma demo_idle_reachable : reachable [] demo_idle.
Proof.
  eapply rtc_r; [apply demo_busy_reachable |].
  apply step_message; open_source_goal.
Qed.

Example demo_idle_text : map getMessageContent (messages demo_idle) = [js "hi"; js "hello"].
Proof. vm_compute. reflexivity. Qed.

Lemma idle_session_is_settled_witness :
  quiet (messages demo_idle) /\ pendingStreamChunks demo_idle = no_chunks /\ streamFlushTimer demo_idle = false.
Proof. apply (idle_session_is_settled [] demo_idle); [by apply Forall_nil | apply demo_idle_reachable | vm_compute; reflexivity]. Defined.

Lemma one_unfinished_answer_witness : isGenerating demo_busy = true /\ last_assistant (messages demo_busy).
Proof.
  split; [vm_compute; reflexivity |].
  apply (one_unfinished_answer [] demo_busy); [by apply Forall_nil | apply demo_busy_reachable | vm_compute; reflexivity].
Defined.

Lemma stop_ends_generation_witness :
  isGenerating demo_busy = true /\ isGenerating (stopGeneration demo_clock demo_busy) = false.
Proof.
  split; [vm_compute; reflexivity |].
  apply (stop_ends_generation [] demo_busy demo_clock); [by apply Forall_nil | apply demo_busy_reachable].
Defined.

Definition demo_start : Session := handleSubmit (demo_env true) (Some (js "hi")) (initial []).
Definition demo_user : Message := createUserMessage (js "k1") (js "v1") (js "hi") 7.
Definition demo_answer : Message := createLoadingAssistantMessage (js "k2") (js "v2") 7.

Lemma streamed_deltas_concatenate_witness :
  exists m', messages (handleStreamComplete demo_clock
    (feed demo_clock [Some (js "<think>a"); None; Some (js "</think>hel"); Some (js "lo")] demo_start)) = [demo_user] ++ [m'] /\
    m_status m' = Some StComplete /\ getMessageContent m' = js "hello".
Proof.
  apply (streamed_deltas_concatenate demo_clock demo_clock
           [Some (js "<think>a"); None; Some (js "</think>hel"); Some (js "lo")] demo_start [demo_user] demo_answer);
    vm_compute; reflexivity.
Defined.

Lemma streamed_snapshots_replace_witness :
  exists m', messages (handleStreamComplete demo_clock
    (feed demo_clock [Some (js "he"); None; Some (js "hell"); Some (js "hello")] demo_start)) = [demo_user] ++ [m'] /\
    m_status m' = Some StComplete /\ getMessageContent m' = js "hello".
Proof.
  apply (streamed_snapshots_replace demo_clock demo_clock
           [Some (js "he"); None; Some (js "hell"); Some (js "hello")] demo_start [demo_user] demo_answer);
    vm_compute; reflexivity.
Defined.

Lemma repeated_chunk_lost_witness :
  exists m', messages (handleStreamComplete demo_clock (feed demo_clock [Some (js "ha"); Some (js "ha")] demo_start)) =
    [demo_user] ++ [m'] /\ getMessageContent m' = js "ha".
Proof.
  apply (repeated_chunk_lost demo_clock demo_clock demo_start [demo_user] demo_answer); [vm_compute; reflexivity.. | done | vm_compute; reflexivity].
Defined.

(** ** Resubmitting an edited message during an answer

    The question k1 is being edited when a second question is sent; the first
    chunk of its answer waits when the edit is saved and submitted. *)
Definition other_env : SendEnv :=
  mkEnv (fun n => Z.of_nat n) (js "k3") (js "v3") (js "k4") (js "v4") (e_config (demo_env true)) DEFAULT_PARAMETER_ENABLED true.
Definition demo_waiting : Session :=
  on_message demo_clock 1 (demo_data (js "old text"))
    (handleSubmit other_env (Some (js "and?")) (guardAction (handleEditMessage (js "k1")) demo_idle)).
Definition demo_resubmitted : Session := applyEdit (demo_env true) (js "new question") true demo_waiting.

(** Saving and submitting an edit is possible while another answer is being
    generated; the chunk that waits for the flush timer is kept although its source
    is closed, and is shown as the beginning of the answer to the new question. *)
Theorem resubmission_shows_stale_text :
  reachable [] demo_resubmitted /\ isGenerating demo_waiting = true /\
  closedSources (streamSt demo_resubmitted) = [0; 1]%nat /\ sseSource (streamSt demo_resubmitted) = Some 2%nat /\
  map getMessageContent (messages demo_resubmitted) = [js "new question"; []] /\
  map getMessageContent (messages (flushStreamUpdates demo_clock demo_resubmitted)) = [js "new question"; js "old text"].
Proof.
  split; [| vm_compute; done].
  unfold demo_resubmitted, demo_waiting. eapply rtc_r; [| apply step_edit_save].
  eapply rtc_r; [| apply step_message; open_source_goal].
  eapply rtc_r; [| apply step_submit]. eapply rtc_r; [apply demo_idle_reachable | apply step_edit].
Qed.
