(* ===== verification/MessageProps.v ===== *)
(** * Messages: thinking sections, timing, regeneration and payloads

    What a text with thinking sections shows, how a completed answer is timed, where
    a regeneration cuts the conversation, and what a sent question posts. *)
From S2P Require Import Prelude Number Regex Json Playground PlayStream PlayProps.

(** ** Thinking sections *)

(** A text as its visible pieces and the thinking sections after each; the last
    section may be without its closing tag. *)
Definition tagged (segments : list (str * str)) (tail : str) : str :=
  concat (map (fun '(v, r) => v ++ OPEN_TAG ++ r ++ CLOSE_TAG) segments) ++ tail.

Lemma index_of_none p s : str_includes s p = false -> index_of p s = None.
Proof.
  induction s as [|c s IH]; cbn [str_includes index_of]; intros H.
  - by destruct (starts_with [] p).
  - apply orb_false_iff in H as [-> H]. by rewrite IH.
Qed.

(** A tag starts with a unit that it does not repeat, so no occurrence of it can
    begin in the text before it and end inside it. *)
Lemma starts_with_overlap c q v rest :
  c ∉ q -> v <> [] -> starts_with v (c :: q) = false -> starts_with (v ++ c :: rest) (c :: q) = false.
Proof.
  intros Hc Hv. destruct v as [|d v]; [done |]. cbn. destruct (N.eqb c d); [| done]. cbn. clear Hv d.
  revert q Hc. induction v as [|d v IH]; intros q Hc; cbn.
  - destruct q as [|e q]; [done |]. intros _. cbn. destruct (N.eqb_spec e c) as [-> |]; [set_solver | done].
  - destruct q as [|e q]; [done |]. cbn. destruct (N.eqb e d); [cbn | done]. apply IH. set_solver.
Qed.

Lemma index_of_tag c q v rest :
  c ∉ q -> str_includes v (c :: q) = false -> index_of (c :: q) (v ++ (c :: q) ++ rest) = Some (length v).
Proof.
  intros Hc. induction v as [|d v IH]; intros Hv.
  - cbn [app]. unfold index_of. fold index_of.
    change (c :: q ++ rest) with ((c :: q) ++ rest). by rewrite starts_with_app.
  - cbn [str_includes] in Hv. apply orb_false_iff in Hv as [Hs Hv].
    cbn [app index_of]. rewrite <- app_comm_cons in *.
    pose proof (starts_with_overlap c q (d :: v) (q ++ rest) Hc ltac:(done) Hs) as Ho.
    cbn [app] in Ho. rewrite Ho. by rewrite IH.
Qed.

Definition segment_ok (seg : str * str) : Prop :=
  str_includes (fst seg) OPEN_TAG = false /\ str_includes (snd seg) CLOSE_TAG = false.
Definition texts (l : list str) : list str := List.filter truthy l.

Lemma open_index v rest : str_includes v OPEN_TAG = false -> index_of OPEN_TAG (v ++ OPEN_TAG ++ rest) = Some (length v).
Proof. apply (index_of_tag 60). apply (bool_decide_unpack _). vm_compute. exact Logic.I. Qed.
Lemma close_index v rest : str_includes v CLOSE_TAG = false -> index_of CLOSE_TAG (v ++ CLOSE_TAG ++ rest) = Some (length v).
Proof. apply (index_of_tag 60). apply (bool_decide_unpack _). vm_compute. exact Logic.I. Qed.

Lemma push_text (l : list str) (v rest : str) :
  (if (0 <? length v)%nat then l ++ [take (length v) (v ++ rest)] else l) = l ++ texts [v].
Proof. destruct v as [|c v]; cbn; [by rewrite app_nil_r |]. by rewrite take_app_length. Qed.

Lemma drop_tag (v tag rest : str) n : n = length tag -> drop (length v + n) (v ++ tag ++ rest) = rest.
Proof. intros ->. rewrite <- drop_drop, drop_app_length. apply drop_app_length. Qed.

Lemma think_loop_open fuel v rest vis rea :
  str_includes v OPEN_TAG = false ->
  think_loop (S fuel) (v ++ OPEN_TAG ++ rest) vis rea =
  match index_of CLOSE_TAG rest with
  | None => (vis ++ texts [v], rea ++ [rest], true)
  | Some closePos =>
      think_loop fuel (drop (closePos + 8) rest) (vis ++ texts [v]) (rea ++ [take closePos rest])
  end.
Proof.
  intros Hv. cbn [think_loop]. rewrite (open_index v rest Hv), push_text.
  by rewrite (drop_tag v OPEN_TAG rest 7) by reflexivity.
Qed.

Lemma think_loop_tail fuel tail vis rea :
  str_includes tail OPEN_TAG = false -> think_loop (S fuel) tail vis rea = (vis ++ texts [tail], rea, false).
Proof.
  intros H. cbn [think_loop]. rewrite index_of_none by done. destruct tail; cbn; [by rewrite app_nil_r | done].
Qed.

Lemma think_loop_segments segs fuel tail vis rea :
  Forall segment_ok segs ->
  think_loop (length segs + fuel) (tagged segs tail) vis rea =
  think_loop fuel tail (vis ++ texts (map fst segs)) (rea ++ map snd segs).
Proof.
  intros Hs. revert vis rea. induction Hs as [|[v r] segs [Hv Hr] _ IH]; intros vis rea.
  - cbn. by rewrite !app_nil_r.
  - unfold tagged. cbn [map concat length Nat.add]. rewrite <- !app_assoc. fold (tagged segs tail).
    cbn [fst snd] in *. rewrite think_loop_open, close_index by done.
    rewrite take_app_length, (drop_tag r CLOSE_TAG _ 8) by reflexivity.
    rewrite IH. cbn [map texts fst snd]. by destruct v; cbn; rewrite <- ?app_assoc, ?app_nil_r.
Qed.

Lemma concat_texts l : concat (texts l) = concat l.
Proof. unfold texts. induction l as [|[|c s] l IH]; cbn; [done | done |]. by rewrite IH. Qed.

Lemma concat_texts_snoc l v : concat (texts l ++ texts [v]) = concat l ++ v.
Proof. rewrite concat_app, !concat_texts. cbn. by rewrite app_nil_r. Qed.

Lemma str_includes_app a b c p : str_includes b p = true -> str_includes (a ++ b ++ c) p = true.
Proof. rewrite !str_includes_spec. intros (x & y & ->). exists (a ++ x), (y ++ c). by rewrite <- !app_assoc. Qed.

(** In a text of visible pieces and thinking sections, the visible content is
    the pieces and the reasoning the sections separated by blank lines; a last
    section without its closing tag counts as reasoning and is reported. *)
Theorem parse_think_tags_spec segs tail :
  Forall segment_ok segs ->
  (str_includes tail OPEN_TAG = false -> segs <> [] ->
     parseThinkTags (tagged segs tail) =
     mkThink (trim (concat (map fst segs) ++ tail)) (trim (join [newline; newline] (map snd segs))) false) /\
  (forall v r, tail = v ++ OPEN_TAG ++ r -> str_includes v OPEN_TAG = false -> str_includes r CLOSE_TAG = false ->
     parseThinkTags (tagged segs tail) =
     mkThink (trim (concat (map fst segs) ++ v)) (trim (join [newline; newline] (map snd segs ++ [r]))) true).
Proof.
  intros Hs.
  assert (forall vis rea, exists n, think_loop (S (length (tagged segs tail))) (tagged segs tail) vis rea =
            think_loop (S n) tail (vis ++ texts (map fst segs)) (rea ++ map snd segs)) as Hloop.
  { intros vis rea. exists (length (tagged segs tail) - length segs)%nat.
    rewrite <- think_loop_segments by done. f_equal.
    assert (length segs <= length (tagged segs tail))%nat; [| lia].
    clear Hs. unfold tagged. induction segs as [|[v r] segs IH]; cbn [map concat length]; [lia |].
    rewrite !length_app in *. change (length OPEN_TAG) with 7%nat. lia. }
  destruct (Hloop [] []) as [n Hn]. unfold parseThinkTags. split.
  - intros Ht Hne. rewrite Hn, think_loop_tail by done. destruct segs as [|[v r] segs]; [done |].
    unfold tagged. cbn [map concat]. rewrite <- !app_assoc.
    rewrite str_includes_app by (by vm_compute). cbn [negb app].
    rewrite concat_texts_snoc. cbn [concat fst snd]. by rewrite <- app_assoc.
  - intros v r -> Hv Hr. rewrite Hn, think_loop_open by done. rewrite index_of_none by done.
    unfold tagged at 1. rewrite !app_assoc, <- (app_assoc _ OPEN_TAG), str_includes_app by (by vm_compute). cbn [negb app].
    by rewrite concat_texts_snoc.
Qed.

Lemma parse_think_tags_spec_witness :
  parseThinkTags (tagged [(js "Hi ", js "plan")] (js "there " ++ OPEN_TAG ++ js "more")) =
  mkThink (js "Hi there") (js "plan" ++ [newline; newline] ++ js "more") true.
Proof.
  rewrite (proj2 (parse_think_tags_spec [(js "Hi ", js "plan")] (js "there " ++ OPEN_TAG ++ js "more") ltac:(by repeat constructor))
             (js "there ") (js "more")); vm_compute; reflexivity.
Defined.

(** ** Timing *)

Lemma ceil_seconds_spec ms : (1000 * (ceil_seconds ms - 1) < ms <= 1000 * ceil_seconds ms)%Z.
Proof. unfold ceil_seconds. pose proof (Z.div_mod (ms + 999) 1000). pose proof (Z.mod_pos_bound (ms + 999) 1000). lia. Qed.

(** A completed answer has its completion time and a duration that is not
    negative, counted from its start; its reasoning is timed as well, in whole
    seconds rounded up unless it was timed before. *)
Theorem completed_answer_timing t1 t2 t3 m :
  m_from m = RoleAssistant ->
  let m' := completeAssistantMessage t1 t2 t3 m in
  (exists start, m_startedAt m' = Some start /\ m_completedAt m' = Some t3 /\
     m_durationMs m' = Some (Z.max 0 (t3 - start)) /\ (m_startedAt m <> None -> m_startedAt m = Some start)) /\
  (forall r, m_reasoning m' = Some r ->
     exists ms, r_durationMs r = Some ms /\
       (ms = default ms (m_reasoning m ≫= r_durationMs)) /\
       ((m_reasoning m ≫= r_durationMs) = None ->
          (0 <= ms /\ 1000 * (r_duration r - 1) < ms <= 1000 * r_duration r)%Z /\ r_completedAt r = Some t2)).
Proof.
  intros Hm m'. subst m'.
  assert (m_startedAt (finalizeMessage t1 t2 m None) = m_startedAt m) as Hs
    by (unfold finalizeMessage, completeReasoningTiming; by repeat case_match).
  unfold completeAssistantMessage, completeAssistantTiming. cbn [m_from with_status]. rewrite finalize_from, Hm.
  cbn [negb bool_decide decide MessageRole_eq_dec]. rewrite bool_decide_eq_true_2 by done. cbn [negb]. split.
  - eexists. split_and!; [reflexivity.. |]. cbn. rewrite Hs. by destruct (m_startedAt m).
  - cbn [m_reasoning with_timing with_status]. unfold finalizeMessage, completeReasoningTiming.
    cbn [m_reasoning with_reasoning with_streaming]. intros r.
    destruct (truthy (str_or _ _)); [| done]. unfold startReasoningTiming.
    destruct (m_reasoning m) as [[c d st en [ms|]]|] eqn:Hr; cbn [set_content r_content r_durationMs r_startedAt];
      intros [= <-]; cbn [r_durationMs r_duration r_completedAt mbind option_bind default]; eexists; split_and!; try done;
      intros _; split; try done; split; try lia; apply ceil_seconds_spec.
Qed.

Lemma completed_answer_timing_witness :
  exists start, m_startedAt (completeAssistantMessage 10 20 4500 demo_answer) = Some start /\
    m_durationMs (completeAssistantMessage 10 20 4500 demo_answer) = Some (Z.max 0 (4500 - start)).
Proof.
  destruct (completed_answer_timing 10 20 4500 demo_answer eq_refl) as [(start & H1 & _ & H2 & _) _]. eauto.
Defined.

(** ** Regeneration *)

Lemma find_index_none {A} (f : A -> bool) l : find_index f l = None <-> Forall (fun x => f x = false) l.
Proof.
  induction l as [|x l IH]; cbn; [by rewrite Forall_nil |]. rewrite Forall_cons. destruct (f x); [naive_solver |].
  rewrite <- IH. destruct (find_index f l) as [[]|]; naive_solver.
Qed.

Lemma find_index_split {A} (f : A -> bool) l i x :
  find_index f l = Some (i, x) -> exists rest, l = take i l ++ x :: rest /\ Forall (fun y => f y = false) (take i l) /\ f x = true.
Proof.
  revert i. induction l as [|y l IH]; intros i Hi; [done |]. cbn in Hi. destruct (f y) eqn:E.
  - simplify_eq. exists l. cbn. auto.
  - destruct (find_index f l) as [[j z]|] eqn:Hf; [| done]. cbn in Hi. simplify_eq.
    destruct (IH j eq_refl) as (rest & H1 & H2 & H3). exists rest. cbn. rewrite <- H1. auto.
Qed.

(** Regenerating cuts the conversation at the first message with the given key,
    after it if it is a question and before it otherwise, and appends a fresh
    loading answer; it fails exactly when no message has the key. *)
Theorem regenerate_cuts_conversation k i now ms key :
  match createRegeneratedMessages k i now ms key with
  | None => Forall (fun m => m_key m <> key) ms
  | Some ms' =>
      exists before m after, ms = before ++ m :: after /\ m_key m = key /\ Forall (fun m => m_key m <> key) before /\
        ms' = (if bool_decide (m_from m = RoleUser) then before ++ [m] else before) ++
              [createLoadingAssistantMessage k i now]
  end.
Proof.
  unfold createRegeneratedMessages. destruct (find_index (has_key key) ms) as [[j m]|] eqn:Hf.
  - destruct (find_index_split _ _ _ _ Hf) as (rest & H1 & H2 & H3). exists (take j ms), m, rest.
    apply find_index_lookup in Hf as [Hj _]. split_and!; [done | by apply str_eqb_eq in H3 | |].
    + eapply Forall_impl; [exact H2 |]. cbn. intros x Hx Hk. apply str_eqb_eq in Hk. unfold has_key in Hx. congruence.
    + case_bool_decide; [| done]. by rewrite (take_S_r _ _ _ Hj).
  - apply find_index_none in Hf. eapply Forall_impl; [exact Hf |]. cbn. intros x Hx Hk.
    apply str_eqb_eq in Hk. unfold has_key in Hx. congruence.
Qed.

(** ** Payloads *)

Lemma loading_invalid k i t : isValidMessage (createLoadingAssistantMessage k i t) = false.
Proof. reflexivity. Qed.

Lemma payload_messages ms config enabled :
  rq_messages (buildChatCompletionPayload ms config enabled) = map formatMessageForAPI (List.filter isValidMessage ms).
Proof. done. Qed.

Lemma send_sent {I : I18n} e ms s :
  sent (send_next e ms s) = sent s ++ [buildChatCompletionPayload ms (e_config e) (e_enabled e)].
Proof.
  unfold send_next, sendChat. destruct (stream (e_config e)); [| done].
  unfold sendStreamingChat, sendStreamRequest. destruct (e_starts e); [done |].
  unfold handleStreamError. cbn. unfold flushStreamUpdates. by destruct (_ && _).
Qed.

(** Sending a question posts one request: the earlier messages, answers without
    text left out, then the question, and not the placeholder of the answer; no
    posted answer is blank, and an optional parameter is posted exactly if enabled. *)
Theorem sent_request_spec {I : I18n} e text s :
  exists p, sent (handleSendMessage e text s) = sent s ++ [p] /\
    rq_messages p = map formatMessageForAPI (List.filter isValidMessage (messages s)) ++ [mkChatMessage RoleUser text] /\
    Forall (fun m => cm_role m = RoleAssistant -> trim (cm_content m) <> []) (rq_messages p) /\
    (rq_temperature p = when (en_temperature (e_enabled e)) (temperature (e_config e)) /\
     rq_top_p p = when (en_top_p (e_enabled e)) (top_p (e_config e)) /\
     rq_max_tokens p = when (en_max_tokens (e_enabled e)) (max_tokens (e_config e)) /\
     (rq_seed p <> None <-> en_seed (e_enabled e) = true /\ seed (e_config e) <> None)).
Proof.
  unfold handleSendMessage. rewrite send_sent. eexists. split; [reflexivity |].
  unfold appendUserMessagePair. rewrite payload_messages.
  assert (List.filter isValidMessage (messages s ++ [createUserMessage (e_userKey e) (e_userVersion e) text (e_clock e 7);
            createLoadingAssistantMessage (e_key e) (e_version e) (e_clock e 7)]) =
          List.filter isValidMessage (messages s) ++ [createUserMessage (e_userKey e) (e_userVersion e) text (e_clock e 7)]) as ->.
  { rewrite List.filter_app. f_equal. }
  split; [by rewrite map_app |]. split.
  - rewrite map_app. apply Forall_app. split; [| by apply Forall_singleton]. apply Forall_map, Forall_forall. intros m Hm.
    apply list_elem_of_In, filter_In in Hm as [_ Hv]. cbn [formatMessageForAPI cm_role cm_content]. intros Hr. unfold isValidMessage in Hv.
    destruct (length _ =? 0)%nat; [done |]. rewrite Hr, bool_decide_eq_true_2 in Hv by done.
    intros Ht. unfold hasMessageContent, getMessageContent in Hv. by rewrite Ht in Hv.
  - split_and!; try reflexivity. cbn [buildChatCompletionPayload rq_seed].
    destruct (en_seed (e_enabled e)); [tauto |]. split; [done | by intros [? _]].
Qed.
