(* ===== verification/PlayStorage.v ===== *)
(** * Playground storage

    Model of [features/playground/lib/storage] and [lib/state]: what the
    playground keeps in the local storage of the browser, how it is validated,
    normalized and trimmed when it is loaded, and how it is saved.

    The storage is the map of its items; whether it takes a further item is up to
    the browser.  The schemas are data; the library that checks a value against
    a schema (zod) is a parameter, with its documented behaviour as its law.
    Times in stored messages are integral milliseconds, which is what the clock
    gives. *)
From S2P Require Import Prelude Number Regex Json Playground PlayStream.

(** ** storage-schema.ts *)

Set Warnings "-register-all".
Inductive zschema :=
| ZString | ZNumber | ZBoolean
| ZEnum (values : list str)
| ZArray (element : zschema) (min : nat)
| ZObject (fields : list (str * zschema))
| ZOptional (inner : zschema)
| ZNullable (inner : zschema).

Definition STORAGE_VERSION : Z := 1.
Definition MAX_STORED_MESSAGES : nat := 100.
Definition MAX_STORED_MESSAGES_BYTES : Z := 1024 * 1024.
Definition MAX_LOADED_MESSAGES_CHARS : Z := 120000.
Definition MAX_LOADED_MESSAGE_CHARS : Z := 40000.

Definition opt_field (k : String.string) (s : zschema) : str * zschema := (js k, ZOptional s).
Arguments opt_field k%_string s.
Definition field (k : String.string) (s : zschema) : str * zschema := (js k, s).
Arguments field k%_string s.

Definition playgroundConfigSchema : zschema := ZObject [
  opt_field "model" ZString; opt_field "group" ZString; opt_field "temperature" ZNumber;
  opt_field "top_p" ZNumber; opt_field "max_tokens" ZNumber; opt_field "frequency_penalty" ZNumber;
  opt_field "presence_penalty" ZNumber; opt_field "seed" (ZNullable ZNumber); opt_field "stream" ZBoolean].

Definition parameterEnabledSchema : zschema := ZObject [
  opt_field "temperature" ZBoolean; opt_field "top_p" ZBoolean; opt_field "max_tokens" ZBoolean;
  opt_field "frequency_penalty" ZBoolean; opt_field "presence_penalty" ZBoolean; opt_field "seed" ZBoolean].

Definition messageRoleSchema : zschema := ZEnum [js "user"; js "assistant"; js "system"].
Definition messageStatusSchema : zschema := ZEnum [js "loading"; js "streaming"; js "complete"; js "error"].
Definition messageVersionSchema : zschema := ZObject [field "id" ZString; field "content" ZString].
Definition sourceSchema : zschema := ZObject [field "href" ZString; field "title" ZString].
Definition reasoningSchema : zschema := ZObject [
  field "content" ZString; field "duration" ZNumber; opt_field "startedAt" ZNumber;
  opt_field "completedAt" ZNumber; opt_field "durationMs" ZNumber].

Definition messageSchema : zschema := ZObject [
  field "key" ZString; field "from" messageRoleSchema; field "versions" (ZArray messageVersionSchema 1);
  opt_field "createdAt" ZNumber; opt_field "startedAt" ZNumber; opt_field "completedAt" ZNumber;
  opt_field "durationMs" ZNumber; opt_field "sources" (ZArray sourceSchema 0); opt_field "reasoning" reasoningSchema;
  opt_field "isReasoningStreaming" ZBoolean; opt_field "isReasoningComplete" ZBoolean;
  opt_field "isContentComplete" ZBoolean; opt_field "status" messageStatusSchema;
  opt_field "errorCode" (ZNullable ZString)].

Definition messagesSchema : zschema := ZArray messageSchema 0.

(** The documented behaviour of the checks.  The argument is [None] when the value
    is [undefined]; the result is [None] when the check throws, and otherwise the
    checked value, an object being rebuilt from the fields of its schema. *)
Fixpoint zod_documented (s : zschema) (v : option json) : option (option json) :=
  match s with
  | ZString => match v with Some (JStr x) => Some (Some (JStr x)) | _ => None end
  | ZNumber => match v with Some (JNum n) => if isFinite n then Some (Some (JNum n)) else None | _ => None end
  | ZBoolean => match v with Some (JBool b) => Some (Some (JBool b)) | _ => None end
  | ZEnum values =>
      match v with Some (JStr x) => if set_has x values then Some (Some (JStr x)) else None | _ => None end
  | ZArray element min =>
      match v with
      | Some (JArr l) =>
          if (length l <? min)%nat then None
          else (fun l' => Some (JArr (omap id l'))) <$>
               mapM (fun x => zod_documented element (Some x)) l
      | _ => None
      end
  | ZObject fields =>
      match v with
      | Some (JObj l) =>
          (fun l' => Some (JObj l')) <$>
          (fix go fields := match fields with
                            | [] => Some []
                            | (k, s) :: fields =>
                                y ← zod_documented s (map_get k l); l' ← go fields;
                                Some (match y with Some y => (k, y) :: l' | None => l' end)
                            end) fields
      | _ => None
      end
  | ZOptional inner => match v with None => Some None | Some _ => zod_documented inner v end
  | ZNullable inner => match v with Some JNull => Some (Some JNull) | _ => zod_documented inner v end
  end.

Class Zod := { z_parse : zschema -> option json -> option (option json) }.
Class ZodDocumented {Zd : Zod} : Prop := z_parse_documented : forall s v, z_parse s v = zod_documented s v.

(** ** Values as objects *)

Definition opt_entry {A} (k : String.string) (f : A -> json) (v : option A) : list (str * json) :=
  match v with Some v => [(js k, f v)] | None => [] end.
Arguments opt_entry {A} k%_string f v.

Definition entry (k : String.string) (v : json) : list (str * json) := [(js k, v)].
Arguments entry k%_string v.

Definition role_str (r : MessageRole) : str :=
  match r with RoleUser => js "user" | RoleAssistant => js "assistant" | RoleSystem => js "system" end.
Definition status_str (s : MessageStatus) : str :=
  match s with StLoading => js "loading" | StStreaming => js "streaming" | StComplete => js "complete" | StError => js "error" end.

Definition version_json (v : MessageVersion) : json := JObj (entry "id" (JStr (v_id v)) ++ entry "content" (JStr (v_content v))).
Definition source_json (s : Source) : json := JObj (entry "href" (JStr (s_href s)) ++ entry "title" (JStr (s_title s))).
Definition time_json (z : Z) : json := JNum (n_of_Z z).
Definition reasoning_json (r : Reasoning) : json :=
  JObj (entry "content" (JStr (r_content r)) ++ entry "duration" (time_json (r_duration r)) ++
        opt_entry "startedAt" time_json (r_startedAt r) ++ opt_entry "completedAt" time_json (r_completedAt r) ++
        opt_entry "durationMs" time_json (r_durationMs r)).
(** A property that is absent or [undefined] has no entry. *)
Definition message_json (m : Message) : json :=
  JObj (entry "key" (JStr (m_key m)) ++ entry "from" (JStr (role_str (m_from m))) ++
        entry "versions" (JArr (map version_json (m_versions m))) ++
        opt_entry "createdAt" time_json (m_createdAt m) ++ opt_entry "startedAt" time_json (m_startedAt m) ++
        opt_entry "completedAt" time_json (m_completedAt m) ++ opt_entry "durationMs" time_json (m_durationMs m) ++
        opt_entry "sources" (fun l => JArr (map source_json l)) (m_sources m) ++
        opt_entry "reasoning" reasoning_json (m_reasoning m) ++
        opt_entry "isReasoningStreaming" JBool (m_isReasoningStreaming m) ++
        opt_entry "isReasoningComplete" JBool (m_isReasoningComplete m) ++
        opt_entry "isContentComplete" JBool (m_isContentComplete m) ++
        opt_entry "status" (fun s => JStr (status_str s)) (m_status m) ++
        opt_entry "errorCode" id (m_errorCode m)).
Definition messages_json (ms : list Message) : json := JArr (map message_json ms).

(** Reading a checked value as a message. *)
Definition as_str (v : json) : option str := match v with JStr s => Some s | _ => None end.
Definition as_bool (v : json) : option bool := match v with JBool b => Some b | _ => None end.
Definition as_num (v : json) : option num := match v with JNum n => Some n | _ => None end.
Definition as_time (v : json) : option Z := n ← as_num v; num_to_Z n.
Definition as_list {A} (f : json -> option A) (v : json) : option (list A) :=
  match v with JArr l => mapM f l | _ => None end.
Definition as_role (v : json) : option MessageRole :=
  s ← as_str v; List.find (fun r => str_eqb (role_str r) s) [RoleUser; RoleAssistant; RoleSystem].
Definition as_status (v : json) : option MessageStatus :=
  s ← as_str v; List.find (fun r => str_eqb (status_str r) s) [StLoading; StStreaming; StComplete; StError].
(** A property that must be there, and one that may be absent. *)
Definition req {A} (f : json -> option A) (k : String.string) (v : json) : option A := x ← j_prop v (js k); f x.
Arguments req {A} f k%_string v.
Definition opt {A} (f : json -> option A) (k : String.string) (v : json) : option (option A) :=
  match j_prop v (js k) with Some x => Some <$> f x | None => Some None end.
Arguments opt {A} f k%_string v.

Definition as_version (v : json) : option MessageVersion :=
  i ← req as_str "id" v; c ← req as_str "content" v; Some (mkVersion i c).
Definition as_source (v : json) : option Source :=
  h ← req as_str "href" v; t ← req as_str "title" v; Some (mkSource h t).
Definition as_reasoning (v : json) : option Reasoning :=
  c ← req as_str "content" v; d ← req as_time "duration" v; s ← opt as_time "startedAt" v;
  e ← opt as_time "completedAt" v; m ← opt as_time "durationMs" v; Some (mkReasoning c d s e m).
Definition as_message (v : json) : option Message :=
  key ← req as_str "key" v; from ← req as_role "from" v; versions ← req (as_list as_version) "versions" v;
  createdAt ← opt as_time "createdAt" v; startedAt ← opt as_time "startedAt" v;
  completedAt ← opt as_time "completedAt" v; durationMs ← opt as_time "durationMs" v;
  sources ← opt (as_list as_source) "sources" v; reasoning ← opt as_reasoning "reasoning" v;
  streaming ← opt as_bool "isReasoningStreaming" v; complete ← opt as_bool "isReasoningComplete" v;
  contentComplete ← opt as_bool "isContentComplete" v; status ← opt as_status "status" v;
  Some (mkMessage key from versions createdAt startedAt completedAt durationMs sources reasoning streaming complete
          contentComplete status (j_prop v (js "errorCode"))).
Definition as_messages : json -> option (list Message) := as_list as_message.

(** ** storage.ts: texts *)

Definition TRUNCATED_CONTENT_SUFFIX : str := [newline; newline] ++ js "[...]".
Definition MIN_PREFIX_COLLAPSE_LENGTH : Z := 2000.
Definition MIN_REPEATED_SECTION_COUNT : Z := 3.

(** [/^#{2,6}\s+\d+\.\s+.+$/gm] *)
Definition SECTION_HEADING_LINE_PATTERN : regex :=
  let hash := rlit (js "#") in
  rseq [RLineStart; hash; hash; ROpt (RSeq hash (ROpt (RSeq hash (ROpt (RSeq hash (ROpt hash))))));
        RPlus (RChar is_space); digits_plus; rlit (js "."); RPlus (RChar is_space); RPlus (RChar not_newline); RLineEnd].

Definition len (s : str) : Z := Z.of_nat (length s).

Definition truncateText (text : str) (maxLength : Z) : str :=
  if (len text <=? maxLength)%Z then text
  else if (maxLength <=? len TRUNCATED_CONTENT_SUFFIX)%Z then take (Z.to_nat maxLength) text
  else take (Z.to_nat (maxLength - len TRUNCATED_CONTENT_SUFFIX)) text ++ TRUNCATED_CONTENT_SUFFIX.

Record SectionOccurrence := mkOccurrence { heading : str; index : nat }.

Definition getSectionOccurrences (text : str) : list SectionOccurrence :=
  map (fun r => mkOccurrence (rr_text r) (length text - length (m_post (rr_rest r)) - length (rr_text r)))
    (rexec_all SECTION_HEADING_LINE_PATTERN text).

Definition getHeadingCounts (occurrences : list SectionOccurrence) : list (str * Z) :=
  foldl (fun counts o => map_set (heading o) (default 0 (map_get (heading o) counts) + 1)%Z counts) [] occurrences.

(** The loop from the last occurrence to the first. *)
Definition last_repeated (counts : list (str * Z)) (occurrences : list SectionOccurrence) : list nat * list str :=
  foldl (fun '(indexes, seen) o =>
           if (default 0 (map_get (heading o) counts) <? MIN_REPEATED_SECTION_COUNT)%Z || set_has (heading o) seen
           then (indexes, seen)
           else (indexes ++ [index o], set_add seen (heading o)))
    ([], []) (reverse occurrences).

(** [None] for -1. *)
Definition findLastRepeatedSectionRunStart (text : str) : option nat :=
  let occurrences := getSectionOccurrences text in
  match fst (last_repeated (getHeadingCounts occurrences) occurrences) with
  | [] => None
  | i :: l => Some (foldl Nat.min i l)
  end.

Definition collapseRepeatedSectionSnapshots (text : str) : str :=
  if (len text <? MIN_PREFIX_COLLAPSE_LENGTH)%Z then text
  else match findLastRepeatedSectionRunStart text with
       | None => text
       | Some start => drop start text
       end.

(** ** storage.ts: messages *)

Definition trimMessages (messages : list Message) : list Message :=
  if (length messages <=? MAX_STORED_MESSAGES)%nat then messages else slice_last MAX_STORED_MESSAGES messages.

Definition getMessageSize (message : Message) : Z :=
  (foldl (fun total version => total + len (v_content version)) 0 (m_versions message) +
   default 0 ((fun r => len (r_content r)) <$> m_reasoning message))%Z.

(** The loop from the last message to the first; the result is in order. *)
Fixpoint trim_by_size (totalSize : Z) (result rest : list Message) : list Message :=
  match rest with
  | [] => result
  | message :: rest =>
      let messageSize := getMessageSize message in
      if (0 <? length result)%nat && (MAX_LOADED_MESSAGES_CHARS <? totalSize + messageSize)%Z then result
      else trim_by_size (totalSize + messageSize) (message :: result) rest
  end.
Definition trimMessagesByContentSize (messages : list Message) : list Message := trim_by_size 0 [] (reverse messages).

Definition normalize_version (version : MessageVersion) : MessageVersion :=
  mkVersion (v_id version)
    (truncateText (collapseRepeatedSectionSnapshots (v_content version)) MAX_LOADED_MESSAGE_CHARS).

(** [now1], [now2] are read by the finalization, [now] when no time is known.
    The code keeps the object when nothing changes; whether it did decides only
    about a write that [loadMessages] makes in any case. *)
Definition normalizeStoredMessageForLoad (now now1 now2 : Z) (message : Message) : Message :=
  let versions := map normalize_version (m_versions message) in
  let reasoning := (fun r => set_content r (truncateText (r_content r) MAX_LOADED_MESSAGE_CHARS)) <$> m_reasoning message in
  let normalized := with_reasoning (with_versions message versions) reasoning in
  if negb (isAssistantMessagePending normalized) then normalized
  else
    let hasContent := hasMessageContent normalized in
    let hasReasoning := truthy (trim (default [] (r_content <$> m_reasoning normalized))) in
    if negb hasContent && negb hasReasoning then normalized
    else
      let completedAt :=
        default now (or_else (m_completedAt normalized)
          (or_else (r ← m_reasoning normalized; r_completedAt r)
             (or_else (m_startedAt normalized) (m_createdAt normalized)))) in
      completeAssistantTiming
        (with_streaming (with_status (finalizeMessage now1 now2 normalized None) StComplete) false) completedAt.

(** ** storage.ts: items *)

Definition storage : Type := list (str * str).
(** [setItem] throws when the browser does not take the item. *)
Class Browser := { takes : storage -> str -> str -> bool }.

Definition getItem (key : str) (st : storage) : option str := map_get key st.
Definition removeItem (key : str) (st : storage) : storage := List.filter (fun e => negb (str_eqb (fst e) key)) st.

Definition KEY_CONFIG : str := js "playground_config".
Definition KEY_MESSAGES : str := js "playground_messages".
Definition KEY_PARAMETER_ENABLED : str := js "playground_parameter_enabled".

(** [None]: thrown; [Some None]: null. *)
Definition readStoredValue (key : str) (st : storage) : option (option json) :=
  match getItem key st with
  | None | Some [] => Some None
  | Some saved => Some <$> JSON_parse saved
  end.

Definition readStoredMessagesValue (st : storage) : option (option json) * storage :=
  match getItem KEY_MESSAGES st with
  | None | Some [] => (Some None, st)
  | Some saved =>
      if (MAX_STORED_MESSAGES_BYTES <? len saved)%Z then (Some None, removeItem KEY_MESSAGES st)
      else (Some <$> JSON_parse saved, st)
  end.

Definition unwrapStoredValue (value : json) : json :=
  match value with
  | JObj l => match map_get (js "version") l, map_get (js "data") l with Some _, Some d => d | _, _ => value end
  | _ => value
  end.

Definition envelope (data : json) : json := JObj [(js "version", JNum (n_of_Z STORAGE_VERSION)); (js "data", data)].

Record PartialConfig := mkPartialConfig {
  pc_model : option str; pc_group : option str; pc_temperature : option num; pc_top_p : option num;
  pc_max_tokens : option num; pc_frequency_penalty : option num; pc_presence_penalty : option num;
  pc_seed : option (option num); pc_stream : option bool
}.
Record PartialEnabled := mkPartialEnabled {
  pe_temperature : option bool; pe_top_p : option bool; pe_max_tokens : option bool;
  pe_frequency_penalty : option bool; pe_presence_penalty : option bool; pe_seed : option bool
}.
Definition no_config : PartialConfig := mkPartialConfig None None None None None None None None None.
Definition none_enabled : PartialEnabled := mkPartialEnabled None None None None None None.

Definition config_json (c : PartialConfig) : json :=
  JObj (opt_entry "model" JStr (pc_model c) ++ opt_entry "group" JStr (pc_group c) ++
        opt_entry "temperature" JNum (pc_temperature c) ++ opt_entry "top_p" JNum (pc_top_p c) ++
        opt_entry "max_tokens" JNum (pc_max_tokens c) ++ opt_entry "frequency_penalty" JNum (pc_frequency_penalty c) ++
        opt_entry "presence_penalty" JNum (pc_presence_penalty c) ++
        opt_entry "seed" (fun s => match s with Some n => JNum n | None => JNull end) (pc_seed c) ++
        opt_entry "stream" JBool (pc_stream c)).
Definition enabled_json (c : PartialEnabled) : json :=
  JObj (opt_entry "temperature" JBool (pe_temperature c) ++ opt_entry "top_p" JBool (pe_top_p c) ++
        opt_entry "max_tokens" JBool (pe_max_tokens c) ++ opt_entry "frequency_penalty" JBool (pe_frequency_penalty c) ++
        opt_entry "presence_penalty" JBool (pe_presence_penalty c) ++ opt_entry "seed" JBool (pe_seed c)).

(** The properties of a checked value. *)
Definition get {A} (f : json -> option A) (k : String.string) (v : json) : option A := x ← j_prop v (js k); f x.
Arguments get {A} f k%_string v.
Definition as_config (v : json) : PartialConfig :=
  mkPartialConfig (get as_str "model" v) (get as_str "group" v) (get as_num "temperature" v) (get as_num "top_p" v)
    (get as_num "max_tokens" v) (get as_num "frequency_penalty" v) (get as_num "presence_penalty" v)
    (as_num <$> j_prop v (js "seed")) (get as_bool "stream" v).
Definition as_enabled (v : json) : PartialEnabled :=
  mkPartialEnabled (get as_bool "temperature" v) (get as_bool "top_p" v) (get as_bool "max_tokens" v)
    (get as_bool "frequency_penalty" v) (get as_bool "presence_penalty" v) (get as_bool "seed" v).

Section Storage.
Context {Zd : Zod} {B : Browser} {I : I18n}.

(** A thrown exception leaves the storage as it is. *)
Definition writeStoredValue (key : str) (data : json) (st : storage) : storage :=
  let text := JSON_stringify (envelope data) in
  if takes st key text then map_set key text st else st.

Definition checked (s : zschema) (v : json) : option json := r ← z_parse s (Some v); r.

Definition load_item {A} (key : str) (s : zschema) (read : json -> A) (none : A) (st : storage) : A :=
  match readStoredValue key st with
  | Some (Some saved) =>
      if j_truthy saved
      then match checked s (unwrapStoredValue saved) with Some v => read v | None => none end
      else none
  | _ => none
  end.
Definition loadConfig (st : storage) : PartialConfig := load_item KEY_CONFIG playgroundConfigSchema as_config no_config st.
Definition loadParameterEnabled (st : storage) : PartialEnabled :=
  load_item KEY_PARAMETER_ENABLED parameterEnabledSchema as_enabled none_enabled st.

Definition save_item (key : str) (s : zschema) (v : json) (st : storage) : storage :=
  match checked s v with Some parsed => writeStoredValue key parsed st | None => st end.
Definition saveConfig (config : PartialConfig) (st : storage) : storage :=
  save_item KEY_CONFIG playgroundConfigSchema (config_json config) st.
Definition saveParameterEnabled (enabled : PartialEnabled) (st : storage) : storage :=
  save_item KEY_PARAMETER_ENABLED parameterEnabledSchema (enabled_json enabled) st.

Definition saveMessages (messages : list Message) (st : storage) : storage :=
  save_item KEY_MESSAGES messagesSchema (messages_json (trimMessages messages)) st.

(** The readings of the clock made for the message at a position, and by the
    sanitization. *)
Record LoadClock := mkLoadClock { lc_now : nat -> Z * Z * Z; lc_sanitize : Z * Z * Z }.

Definition load_pipeline (c : LoadClock) (parsed : list Message) : list Message :=
  let normalized := imap (fun i m => let '(a, b, d) := lc_now c i in normalizeStoredMessageForLoad a b d m) parsed in
  let trimmed := trimMessages normalized in
  let sizeTrimmed := trimMessagesByContentSize trimmed in
  let '(x, y, z) := lc_sanitize c in
  sanitizeMessagesOnLoad x y z sizeTrimmed.

(** The result of [trimMessagesByContentSize] is a new array, so the condition of
    the write always holds.  (Stored times that are not integral are not read.) *)
Definition loadMessages (c : LoadClock) (st : storage) : option (list Message) * storage :=
  match readStoredMessagesValue st with
  | (Some (Some saved), st) =>
      if negb (j_truthy saved) then (None, st)
      else match checked messagesSchema (unwrapStoredValue saved) ≫= as_messages with
           | Some parsed => let sanitized := load_pipeline c parsed in (Some sanitized, saveMessages sanitized st)
           | None => (None, st)
           end
  | (_, st) => (None, st)
  end.

Definition clearPlaygroundData (st : storage) : storage :=
  removeItem KEY_MESSAGES (removeItem KEY_PARAMETER_ENABLED (removeItem KEY_CONFIG st)).

(** ** playground-state-utils.ts *)

Definition getInitialPlaygroundConfig (st : storage) : PlaygroundConfig :=
  let c := loadConfig st in
  let d := DEFAULT_CONFIG in
  mkConfig (default (model d) (pc_model c)) (default (group d) (pc_group c)) (default (temperature d) (pc_temperature c))
    (default (top_p d) (pc_top_p c)) (default (max_tokens d) (pc_max_tokens c))
    (default (frequency_penalty d) (pc_frequency_penalty c)) (default (presence_penalty d) (pc_presence_penalty c))
    (default (seed d) (pc_seed c)) (default (stream d) (pc_stream c)).

Definition getInitialParameterEnabled (st : storage) : ParameterEnabled :=
  let c := loadParameterEnabled st in
  let d := DEFAULT_PARAMETER_ENABLED in
  mkEnabled (default (en_temperature d) (pe_temperature c)) (default (en_top_p d) (pe_top_p c))
    (default (en_max_tokens d) (pe_max_tokens c)) (default (en_frequency_penalty d) (pe_frequency_penalty c))
    (default (en_presence_penalty d) (pe_presence_penalty c)) (default (en_seed d) (pe_seed c)).

Definition getInitialMessages (c : LoadClock) (st : storage) : list Message * storage :=
  let '(ms, st) := loadMessages c st in (default [] ms, st).

Definition applyMessageStateUpdate (previousMessages : list Message) (updater : list Message + (list Message -> list Message)) :
  list Message :=
  match updater with inl ms => ms | inr f => f previousMessages end.
End Storage.
