(* ===== verification/StorageProps.v ===== *)
(** * Playground storage: theorems

    What loading does to a stored conversation: it leaves no unfinished message,
    keeps within the limits, and gives back what was saved. *)
From S2P Require Import Prelude Number Regex Json Playground PlayStream PlayProps MessageProps PlayStorage.

(** ** Loading settles the conversation *)

Lemma only_last_suffix a b : only_last_pending (a ++ b) -> only_last_pending b.
Proof.
  destruct (snoc_cases b) as [-> | (init & m & ->)]; [intros _; by apply Forall_nil |].
  rewrite app_assoc, !only_last_snoc, quiet_app. tauto.
Qed.

Lemma trim_messages_suffix ms : exists cut, ms = cut ++ trimMessages ms.
Proof.
  unfold trimMessages, slice_last. destruct (_ <=? _)%nat; [by exists [] |].
  eexists. symmetry. apply take_drop.
Qed.

Lemma trim_by_size_suffix total result rest : exists cut, reverse rest ++ result = cut ++ trim_by_size total result rest.
Proof.
  revert total result. induction rest as [|m rest IH]; intros total result; [by exists [] |]. cbn [trim_by_size].
  destruct (_ && _); [by eexists |]. destruct (IH (total + getMessageSize m)%Z (m :: result)) as [cut Hc].
  exists cut. by rewrite <- Hc, reverse_cons, <- app_assoc.
Qed.

Lemma trim_size_suffix ms : exists cut, ms = cut ++ trimMessagesByContentSize ms.
Proof.
  destruct (trim_by_size_suffix 0 [] (reverse ms)) as [cut Hc]. exists cut.
  by rewrite reverse_involutive, app_nil_r in Hc.
Qed.

Lemma normalize_from a b d m : m_from (normalizeStoredMessageForLoad a b d m) = m_from m.
Proof.
  unfold normalizeStoredMessageForLoad. destruct (negb _); [done |]. destruct (negb _ && negb _); [done |].
  rewrite complete_timing_from. cbn. by rewrite finalize_from.
Qed.

Lemma normalize_settled a b d m : settled m -> settled (normalizeStoredMessageForLoad a b d m).
Proof.
  unfold settled, isPendingAssistantMessage. rewrite normalize_from. destruct (bool_decide _); [| done]. cbn.
  unfold normalizeStoredMessageForLoad. intros Hp.
  assert (forall v r, isAssistantMessagePending (with_reasoning (with_versions m v) r) = isAssistantMessagePending m) as He by done.
  rewrite He, Hp. cbn. by rewrite He.
Qed.

Lemma normalize_only_last f ms : (forall i m, settled m -> settled (f i m)) ->
  only_last_pending ms -> only_last_pending (imap f ms).
Proof.
  intros Hf. destruct (snoc_cases ms) as [-> | (init & m & ->)]; [done |].
  rewrite imap_app. cbn. rewrite !only_last_snoc. unfold quiet. rewrite !Forall_lookup. intros H i x Hx.
  rewrite list_lookup_imap in Hx. destruct (init !! i) as [y|] eqn:Hy; [| done]. cbn in Hx. simplify_eq. eauto.
Qed.

Lemma find_last_none {A} (f : A -> bool) l : find_last_index f l = None <-> Forall (fun x => f x = false) l.
Proof.
  induction l as [|x l IH]; cbn; [by rewrite Forall_nil |]. rewrite Forall_cons, <- IH.
  destruct (find_last_index f l), (f x); naive_solver.
Qed.

Lemma find_last_lookup {A} (f : A -> bool) l i : find_last_index f l = Some i -> exists x, l !! i = Some x /\ f x = true.
Proof.
  revert i. induction l as [|x l IH]; intros i Hi; [done |]. cbn in Hi.
  destruct (find_last_index f l) as [j|]; [simplify_eq; by apply IH |]. destruct (f x) eqn:E; simplify_eq. by exists x.
Qed.

Section Sanitize.
Context {I : I18n}.

Lemma sanitized_settled a b d m : settled (sanitized_message a b d m).
Proof.
  unfold settled, isPendingAssistantMessage, sanitized_message.
  destruct (_ || _); unfold isAssistantMessagePending; rewrite complete_timing_status; by rewrite andb_false_r.
Qed.

Lemma sanitize_quiet a b d ms : only_last_pending ms -> quiet (sanitizeMessagesOnLoad a b d ms).
Proof.
  intros Ho. unfold sanitizeMessagesOnLoad. destruct (find_last_index _ ms) as [i|] eqn:Hi; [| by apply find_last_none in Hi].
  apply find_last_lookup in Hi as (m & Hm & Hp). rewrite Hm.
  destruct (snoc_cases ms) as [-> | (init & l & ->)]; [done |]. rewrite only_last_snoc in Ho.
  destruct (decide (i < length init)%nat) as [Hlt | Hge].
  - rewrite lookup_app_l in Hm by done. unfold quiet in Ho. rewrite Forall_lookup in Ho.
    apply Ho in Hm. unfold settled in Hm. congruence.
  - rewrite insert_app_r_alt by lia. apply quiet_app. split; [done |].
    apply lookup_lt_Some in Hm. rewrite length_app in Hm. cbn in Hm.
    replace (i - length init)%nat with 0%nat by lia. cbn. apply Forall_singleton, sanitized_settled.
Qed.

(** A stored conversation in which only the last message may be unfinished is
    loaded without unfinished messages, whatever part of it is kept. *)
Theorem loaded_conversation_is_settled c parsed :
  only_last_pending parsed -> quiet (load_pipeline c parsed).
Proof.
  intros Ho. unfold load_pipeline. destruct (lc_sanitize c) as [[x y] z]. apply sanitize_quiet.
  set (normalized := imap _ parsed).
  assert (only_last_pending normalized) as Hn.
  { apply normalize_only_last; [| done]. intros i m. destruct (lc_now c i) as [[? ?] ?]. apply normalize_settled. }
  destruct (trim_messages_suffix normalized) as [cut Hc]. rewrite Hc in Hn. apply only_last_suffix in Hn.
  destruct (trim_size_suffix (trimMessages normalized)) as [cut' Hc']. rewrite Hc' in Hn.
  by apply only_last_suffix in Hn.
Qed.
End Sanitize.

(** ** Limits *)

Abbreviation sizes ms := (sumZ getMessageSize ms).

Lemma trim_by_size_spec result rest :
  (length result <= 1)%nat \/ (sizes result <= MAX_LOADED_MESSAGES_CHARS)%Z ->
  let kept := trim_by_size (sizes result) result rest in
  ((length kept <= 1)%nat \/ (sizes kept <= MAX_LOADED_MESSAGES_CHARS)%Z) /\
  (forall cut m, reverse rest ++ result = cut ++ [m] ++ kept ->
     (MAX_LOADED_MESSAGES_CHARS < getMessageSize m + sizes kept)%Z) /\
  (kept = [] -> rest = [] /\ result = []).
Proof.
  revert result. induction rest as [|x rest IH]; intros result Hr; cbn [trim_by_size].
  - split_and!; [done | | done]. intros cut m Hc. exfalso. apply (f_equal length) in Hc. cbn in Hc.
    rewrite !length_app in Hc. cbn in Hc. lia.
  - destruct ((0 <? length result)%nat && (MAX_LOADED_MESSAGES_CHARS <? sizes result + getMessageSize x)%Z) eqn:E.
    + apply andb_true_iff in E as [E1 E2]. apply Nat.ltb_lt in E1. apply Z.ltb_lt in E2. split_and!; [done | |].
      * intros cut m Hc. rewrite reverse_cons, <- !app_assoc, (app_assoc cut [m]) in Hc. rewrite app_assoc in Hc.
        apply (inj (fun l => l ++ result)) in Hc. apply app_inj_tail in Hc as [_ ->]. lia.
      * intros ->. cbn in E1. lia.
    + replace (sizes result + getMessageSize x)%Z with (sizes (x :: result)) by (rewrite sumZ_cons; lia).
      destruct (IH (x :: result)) as (H1 & H2 & H3).
      * apply andb_false_iff in E as [E | E].
        -- apply Nat.ltb_ge in E. left. cbn. lia.
        -- apply Z.ltb_ge in E. right. rewrite sumZ_cons. lia.
      * split_and!; [done | |].
        -- intros cut m Hc. apply (H2 cut m). by rewrite <- Hc, reverse_cons, <- app_assoc.
        -- intros Hk. by destruct (H3 Hk).
Qed.

Lemma trim_messages_length ms : (length (trimMessages ms) <= 100)%nat.
Proof.
  unfold trimMessages, slice_last. destruct (Nat.leb_spec (length ms) MAX_STORED_MESSAGES); [done |].
  rewrite length_drop. unfold MAX_STORED_MESSAGES in *. lia.
Qed.

(** What is kept of a stored conversation is the longest run of its last
    messages, at most 100 of them, whose texts have at most 120000 units; the very
    last message is kept in any case. *)
Theorem kept_messages_spec ms :
  let kept := trimMessagesByContentSize (trimMessages ms) in
  (exists cut, ms = cut ++ kept) /\ (length kept <= 100)%nat /\ (ms <> [] -> kept <> []) /\
  ((length kept <= 1)%nat \/ (sizes kept <= 120000)%Z) /\
  (forall cut m, ms = cut ++ [m] ++ kept -> length kept = 100%nat \/ (120000 < getMessageSize m + sizes kept)%Z).
Proof.
  intros kept. destruct (trim_messages_suffix ms) as [cut1 H1]. destruct (trim_size_suffix (trimMessages ms)) as [cut2 H2].
  fold kept in H2. pose proof (trim_messages_length ms) as Hl.
  assert (length kept <= 100)%nat as Hk by (rewrite H2, length_app in Hl; lia).
  destruct (trim_by_size_spec [] (reverse (trimMessages ms))) as (S1 & S2 & S3); [by left; cbn; lia |].
  change (trim_by_size (sizes []) [] (reverse (trimMessages ms))) with kept in *.
  split_and!; [| done | | done |].
  - exists (cut1 ++ cut2). by rewrite <- app_assoc, <- H2.
  - intros Hne He. destruct (S3 He) as [Hr _]. apply (f_equal reverse) in Hr. rewrite reverse_involutive in Hr.
    rewrite Hr, app_nil_r in H1. unfold trimMessages, slice_last in Hr.
    destruct (Nat.leb_spec (length ms) MAX_STORED_MESSAGES); [done |].
    apply (f_equal length) in Hr. rewrite length_drop in Hr. cbn in Hr. unfold MAX_STORED_MESSAGES in *. lia.
  - intros cut m Hm. destruct (snoc_cases cut2) as [-> | (cut3 & m' & ->)].
    + cbn in H2. left. assert (trimMessages ms <> ms) as Hn.
      { rewrite H2. intros Hn. apply (f_equal length) in Hm. rewrite Hn, !length_app in Hm. cbn in Hm. lia. }
      rewrite <- H2. unfold trimMessages, slice_last in *. destruct (Nat.leb_spec (length ms) MAX_STORED_MESSAGES); [done |].
      rewrite length_drop. unfold MAX_STORED_MESSAGES in *. lia.
    + right. assert (m' = m) as ->.
      { rewrite H2 in H1. rewrite H1 in Hm. rewrite <- !app_assoc, (app_assoc cut [m]), app_assoc, (app_assoc (cut1 ++ cut3)) in Hm.
        apply (inj (fun l => l ++ kept)) in Hm. by apply app_inj_tail in Hm as [_ ->]. }
      apply (S2 cut3 m). by rewrite reverse_involutive, app_nil_r, H2, <- app_assoc.
Qed.

Lemma truncate_length text n : (0 <= n)%Z -> (len (truncateText text n) <= n)%Z.
Proof.
  intros Hn. unfold truncateText, len. destruct (Z.leb_spec (Z.of_nat (length text)) n); [done |].
  destruct (Z.leb_spec n (Z.of_nat (length TRUNCATED_CONTENT_SUFFIX))); [rewrite length_take; lia |].
  rewrite length_app, length_take. lia.
Qed.

(** Trimming and dropping sections only shortens a text. *)
Lemma think_loop_length fuel s vis rea :
  (length (concat (fst (fst (think_loop fuel s vis rea)))) <= length (concat vis) + length s)%nat.
Proof.
  revert s vis rea. induction fuel as [|fuel IH]; intros s vis rea; cbn [think_loop]; [cbn; lia |].
  destruct (index_of OPEN_TAG s) as [i|].
  2: { destruct (truthy s); cbn; rewrite ?concat_app, ?length_app; cbn; rewrite ?length_app; cbn; lia. }
  assert (length (concat (if (0 <? i)%nat then vis ++ [take i s] else vis)) <= length (concat vis) + Nat.min i (length s))%nat as Hv.
  { destruct (0 <? i)%nat; [| lia]. rewrite concat_app, length_app. cbn. rewrite app_nil_r, length_take. lia. }
  destruct (index_of CLOSE_TAG _) as [j|]; [| cbn [fst]; lia].
  etransitivity; [apply IH |]. rewrite !length_drop. lia.
Qed.
Lemma visible_text_length s : (length (visible_text s) <= length s)%nat.
Proof.
  unfold visible_text, parseThinkTags. destruct (str_includes s OPEN_TAG); [| done]. cbn [negb].
  pose proof (think_loop_length (S (length s)) s [] []) as H. destruct (think_loop _ _ _ _) as [[v r] u].
  cbn [visibleContent fst] in *. pose proof (trim_length (concat v)). cbn in H. lia.
Qed.

(** Short enough, and without a heading that occurs three times. *)
Definition short_text (c : str) : Prop :=
  (len c <= 40000 /\ (len c < 2000 \/ findLastRepeatedSectionRunStart c = None))%Z.
Definition short_message (m : Message) : Prop :=
  Forall (fun v => short_text (v_content v)) (m_versions m) /\
  (forall r, m_reasoning m = Some r -> (len (r_content r) <= 40000)%Z).

Lemma normalize_version_short v : short_text (v_content v) -> normalize_version v = v.
Proof.
  intros [H1 H2]. unfold normalize_version.
  assert (collapseRepeatedSectionSnapshots (v_content v) = v_content v) as ->.
  { unfold collapseRepeatedSectionSnapshots. destruct (Z.ltb_spec (len (v_content v)) MIN_PREFIX_COLLAPSE_LENGTH); [done |].
    destruct H2 as [H2 | ->]; [unfold MIN_PREFIX_COLLAPSE_LENGTH in *; lia | done]. }
  unfold truncateText. rewrite (proj2 (Z.leb_le _ _)) by done. by destruct v.
Qed.

Lemma normalize_short a b d m :
  isAssistantMessagePending m = false -> short_message m -> normalizeStoredMessageForLoad a b d m = m.
Proof.
  intros Hp [Hs Hr]. unfold normalizeStoredMessageForLoad.
  assert (map normalize_version (m_versions m) = m_versions m) as ->.
  { induction Hs as [|v l Hv _ IH]; cbn; [done |]. by rewrite IH, normalize_version_short. }
  assert ((fun r => set_content r (truncateText (r_content r) MAX_LOADED_MESSAGE_CHARS)) <$> m_reasoning m = m_reasoning m) as ->.
  { destruct (m_reasoning m) as [r|]; [| done]. cbn. f_equal. unfold truncateText.
    rewrite (proj2 (Z.leb_le _ _)) by (by apply Hr). by destruct r. }
  assert (with_reasoning (with_versions m (m_versions m)) (m_reasoning m) = m) as -> by (by destruct m). by rewrite Hp.
Qed.

Lemma normalize_version_length v : (len (v_content (normalize_version v)) <= 40000)%Z.
Proof. cbn. by apply truncate_length. Qed.

Lemma finalize_versions b d n r :
  m_versions (finalizeMessage b d n r) = [mkVersion (v_id (getCurrentVersion n)) (visible_text (getMessageContent n))].
Proof. unfold finalizeMessage, completeReasoningTiming, visible_text, getMessageContent. by repeat case_match. Qed.

Lemma current_content_length n :
  Forall (fun v => len (v_content v) <= 40000)%Z (m_versions n) -> (len (visible_text (getMessageContent n)) <= 40000)%Z.
Proof.
  intros H. pose proof (visible_text_length (getMessageContent n)) as Hl. unfold len in *.
  assert (Z.of_nat (length (getMessageContent n)) <= 40000)%Z; [| lia].
  unfold getMessageContent, getCurrentVersion. destruct H as [|v l Hv _]; cbn; [lia | exact Hv].
Qed.

(** After normalization every version of a stored message has at most 40000
    units; a finished message whose texts are short enough and free of repeated
    sections is not changed. *)
Theorem normalized_message_bounds a b d m :
  Forall (fun v => len (v_content v) <= 40000)%Z (m_versions (normalizeStoredMessageForLoad a b d m)) /\
  (isAssistantMessagePending m = false -> short_message m -> normalizeStoredMessageForLoad a b d m = m).
Proof.
  split; [| apply normalize_short]. unfold normalizeStoredMessageForLoad. set (n := with_reasoning _ _).
  assert (Forall (fun v => len (v_content v) <= 40000)%Z (m_versions n)) as Hn.
  { apply Forall_map, Forall_true, normalize_version_length. }
  destruct (negb _); [done |]. destruct (negb _ && negb _); [done |].
  unfold completeAssistantTiming. destruct (negb _); cbn [m_versions with_timing with_streaming with_status];
    rewrite finalize_versions; apply Forall_singleton; by apply current_content_length.
Qed.

(** ** Objects and schemas *)

Lemma map_get_entry k k' v : map_get (js k) (entry k' v) = if str_eqb (js k) (js k') then Some v else None.
Proof. unfold entry, str_eqb. cbn. by repeat case_decide; repeat case_bool_decide. Qed.

Lemma map_get_opt {A} k k' (f : A -> json) v :
  map_get (js k) (opt_entry k' f v) = if str_eqb (js k) (js k') then f <$> v else None.
Proof. destruct v as [v|]; cbn [opt_entry fmap option_fmap option_map]; [apply map_get_entry | by destruct (str_eqb _ _)]. Qed.

(** The property of an object given by its entries. *)
Ltac find_entry := cbn [j_prop]; rewrite ?map_get_app, ?map_get_entry, ?map_get_opt; literal_keys;
  first [apply some_or_none | reflexivity].

Definition fields_go (l : list (str * json)) : list (str * zschema) -> option (list (str * json)) :=
  fix go fields := match fields with
    | [] => Some []
    | (k, s) :: fields =>
        y ← zod_documented s (map_get k l); l' ← go fields;
        Some (match y with Some y => (k, y) :: l' | None => l' end)
    end.

Lemma zod_object fields l :
  zod_documented (ZObject fields) (Some (JObj l)) = (fun l' => Some (JObj l')) <$> fields_go l fields.
Proof. reflexivity. Qed.

(** A field that passes its check contributes its entry. *)
Lemma fields_entry l k s fields v rest :
  map_get (js k) l = Some v -> zod_documented s (Some v) = Some (Some v) -> fields_go l fields = Some rest ->
  fields_go l (field k s :: fields) = Some (entry k v ++ rest).
Proof. intros H1 H2 H3. cbn [fields_go field]. fold (fields_go l). by rewrite H1, H2, H3. Qed.

Lemma fields_opt {A} l k s fields (f : A -> json) o rest :
  map_get (js k) l = f <$> o -> (forall v, o = Some v -> zod_documented s (Some (f v)) = Some (Some (f v))) ->
  fields_go l fields = Some rest -> fields_go l (opt_field k s :: fields) = Some (opt_entry k f o ++ rest).
Proof.
  intros H1 H2 H3. cbn [fields_go opt_field zod_documented]. fold (fields_go l). rewrite H1, H3.
  destruct o as [v|]; [| done]. cbn [fmap option_fmap option_map]. rewrite H2 by done. done.
Qed.

Lemma fields_nil l : fields_go l [] = Some [].
Proof. reflexivity. Qed.

(** ** Messages that can be stored *)

Definition time_ok (z : Z) : Prop := num_to_Z (n_of_Z z) = Some z.
Definition times_ok (o : option Z) : Prop := forall z, o = Some z -> time_ok z.
Definition reasoning_storable (r : Reasoning) : Prop :=
  time_ok (r_duration r) /\ times_ok (r_startedAt r) /\ times_ok (r_completedAt r) /\ times_ok (r_durationMs r).
(** At least one version, integral times that numbers represent exactly, and an
    error code that is a text or null. *)
Record storable (m : Message) : Prop := mkStorable {
  st_versions : m_versions m <> [];
  st_created : times_ok (m_createdAt m); st_started : times_ok (m_startedAt m);
  st_completed : times_ok (m_completedAt m); st_duration : times_ok (m_durationMs m);
  st_reasoning : forall r, m_reasoning m = Some r -> reasoning_storable r;
  st_code : forall v, m_errorCode m = Some v -> v = JNull \/ exists c, v = JStr c
}.

Lemma zod_time z : time_ok z -> zod_documented ZNumber (Some (time_json z)) = Some (Some (time_json z)).
Proof. unfold time_ok, time_json. cbn. by destruct (n_of_Z z). Qed.

Lemma zod_array {A} (f : A -> json) s min l :
  (min <= length l)%nat -> (forall x, x ∈ l -> zod_documented s (Some (f x)) = Some (Some (f x))) ->
  zod_documented (ZArray s min) (Some (JArr (map f l))) = Some (Some (JArr (map f l))).
Proof.
  intros Hl Hf. cbn [zod_documented]. rewrite length_map. rewrite (proj2 (Nat.ltb_ge _ _)) by done. clear Hl min.
  assert (mapM (fun x => zod_documented s (Some x)) (map f l) = Some (map (fun x => Some (f x)) l)) as ->.
  { induction l as [|x l IH]; [done |]. cbn. rewrite Hf by set_solver. cbn. rewrite IH by set_solver. done. }
  cbn. do 3 f_equal. clear Hf. induction l as [|x l IH]; cbn; [done |]. by rewrite IH.
Qed.

Lemma zod_version v : zod_documented messageVersionSchema (Some (version_json v)) = Some (Some (version_json v)).
Proof.
  unfold messageVersionSchema, version_json. rewrite zod_object.
  rewrite (fields_entry _ "id" ZString _ (JStr (v_id v)) (entry "content" (JStr (v_content v)) ++ [])); [by rewrite app_nil_r | find_entry | done |].
  apply fields_entry; [find_entry | done | apply fields_nil].
Qed.
Lemma zod_source s : zod_documented sourceSchema (Some (source_json s)) = Some (Some (source_json s)).
Proof.
  unfold sourceSchema, source_json. rewrite zod_object.
  rewrite (fields_entry _ "href" ZString _ (JStr (s_href s)) (entry "title" (JStr (s_title s)) ++ [])); [by rewrite app_nil_r | find_entry | done |].
  apply fields_entry; [find_entry | done | apply fields_nil].
Qed.

Lemma zod_reasoning r : reasoning_storable r -> zod_documented reasoningSchema (Some (reasoning_json r)) = Some (Some (reasoning_json r)).
Proof.
  intros (Hd & Hs & Hc & Hm). unfold reasoningSchema, reasoning_json. rewrite zod_object. set (l := _ ++ _).
  assert (fields_go l [field "content" ZString; field "duration" ZNumber; opt_field "startedAt" ZNumber;
            opt_field "completedAt" ZNumber; opt_field "durationMs" ZNumber] = Some (l ++ [])) as ->; [| by rewrite app_nil_r].
  unfold l at 2. rewrite <- !app_assoc.
  apply fields_entry; [unfold l; find_entry | done |]. apply fields_entry; [unfold l; find_entry | by apply zod_time |].
  apply fields_opt; [unfold l; find_entry | intros; apply zod_time; eauto |].
  apply fields_opt; [unfold l; find_entry | intros; apply zod_time; eauto |].
  apply fields_opt; [unfold l; find_entry | intros; apply zod_time; eauto | apply fields_nil].
Qed.

Lemma set_has_elem (x : str) l : x ∈ l -> set_has x l = true.
Proof. apply set_has_spec. Qed.

Lemma zod_role r : zod_documented messageRoleSchema (Some (JStr (role_str r))) = Some (Some (JStr (role_str r))).
Proof. destruct r; vm_compute; reflexivity. Qed.
Lemma zod_status r : zod_documented messageStatusSchema (Some (JStr (status_str r))) = Some (Some (JStr (status_str r))).
Proof. destruct r; vm_compute; reflexivity. Qed.
Lemma zod_code v : v = JNull \/ (exists c, v = JStr c) -> zod_documented (ZNullable ZString) (Some v) = Some (Some v).
Proof. intros [-> | [c ->]]; done. Qed.

Lemma zod_message m : storable m -> zod_documented messageSchema (Some (message_json m)) = Some (Some (message_json m)).
Proof.
  intros []. unfold messageSchema, message_json. rewrite zod_object. set (l := _ ++ _). set (fields := [field "key" _; _; _; _; _; _; _; _; _; _; _; _; _; _]).
  assert (fields_go l fields = Some (l ++ [])) as ->; [| by rewrite app_nil_r].
  unfold l at 2. unfold fields. rewrite <- !app_assoc.
  apply fields_entry; [unfold l; find_entry | done |]. apply fields_entry; [unfold l; find_entry | apply zod_role |].
  apply fields_entry; [unfold l; find_entry | apply zod_array; [by destruct (m_versions m); cbn; [| lia] | intros; apply zod_version] |].
  do 4 (apply fields_opt; [unfold l; find_entry | intros; apply zod_time; eauto |]).
  apply fields_opt; [unfold l; find_entry | intros; apply zod_array; [lia | intros; apply zod_source] |].
  apply fields_opt; [unfold l; find_entry | intros; apply zod_reasoning; eauto |].
  do 3 (apply fields_opt; [unfold l; find_entry | done |]).
  apply fields_opt; [unfold l; find_entry | intros; apply zod_status |].
  apply fields_opt; [unfold l; find_entry | intros; apply zod_code; eauto | apply fields_nil].
Qed.

(** ** Reading back *)

Lemma req_entry {A} (f : json -> option A) k o v : j_prop o (js k) = Some v -> req f k o = f v.
Proof. unfold req. by intros ->. Qed.

Lemma opt_entry_read {A} (f : json -> option A) (g : A -> json) k o v :
  j_prop o (js k) = g <$> v -> (forall x, v = Some x -> f (g x) = Some x) -> opt f k o = Some v.
Proof. unfold opt. intros -> H. destruct v as [x|]; [| done]. cbn. by rewrite H. Qed.

Lemma as_list_map {A} (f : json -> option A) (g : A -> json) l :
  (forall x, x ∈ l -> f (g x) = Some x) -> as_list f (JArr (map g l)) = Some l.
Proof.
  intros H. cbn. induction l as [|x l IH]; [done |]. cbn. rewrite H by set_solver. cbn. by rewrite IH by set_solver.
Qed.

Lemma as_time_json z : time_ok z -> as_time (time_json z) = Some z.
Proof. done. Qed.
Lemma as_version_json v : as_version (version_json v) = Some v.
Proof.
  unfold as_version, version_json. rewrite (req_entry _ "id" _ (JStr (v_id v))) by find_entry. cbn [as_str mbind option_bind].
  rewrite (req_entry _ "content" _ (JStr (v_content v))) by find_entry. by destruct v.
Qed.
Lemma as_source_json v : as_source (source_json v) = Some v.
Proof.
  unfold as_source, source_json. rewrite (req_entry _ "href" _ (JStr (s_href v))) by find_entry. cbn [as_str mbind option_bind].
  rewrite (req_entry _ "title" _ (JStr (s_title v))) by find_entry. by destruct v.
Qed.
Lemma as_reasoning_json r : reasoning_storable r -> as_reasoning (reasoning_json r) = Some r.
Proof.
  intros (Hd & Hs & Hc & Hm). unfold as_reasoning, reasoning_json.
  rewrite (req_entry _ "content" _ (JStr (r_content r))) by find_entry. cbn [as_str mbind option_bind].
  rewrite (req_entry _ "duration" _ (time_json (r_duration r))) by find_entry.
  rewrite as_time_json by done. cbn [mbind option_bind].
  rewrite (opt_entry_read _ time_json "startedAt" _ (r_startedAt r)) by (first [find_entry | intros; apply as_time_json; eauto]). cbn [mbind option_bind].
  rewrite (opt_entry_read _ time_json "completedAt" _ (r_completedAt r)) by (first [find_entry | intros; apply as_time_json; eauto]). cbn [mbind option_bind].
  rewrite (opt_entry_read _ time_json "durationMs" _ (r_durationMs r)) by (first [find_entry | intros; apply as_time_json; eauto]). cbn [mbind option_bind].
  by destruct r.
Qed.
Lemma as_role_json r : as_role (JStr (role_str r)) = Some r.
Proof. destruct r; vm_compute; reflexivity. Qed.
Lemma as_status_json r : as_status (JStr (status_str r)) = Some r.
Proof. destruct r; vm_compute; reflexivity. Qed.

(** An optional property of an object, read with the inverse of how it is written. *)
Ltac read_opt g k v lem :=
  rewrite (opt_entry_read _ g k _ v) by (first [find_entry | intros; apply lem; eauto]); cbn [mbind option_bind].

Lemma as_message_json m : storable m -> as_message (message_json m) = Some m.
Proof.
  intros []. unfold as_message, message_json.
  rewrite (req_entry _ "key" _ (JStr (m_key m))) by find_entry. cbn [as_str mbind option_bind].
  rewrite (req_entry _ "from" _ (JStr (role_str (m_from m)))) by find_entry. rewrite as_role_json. cbn [mbind option_bind].
  rewrite (req_entry _ "versions" _ (JArr (map version_json (m_versions m)))) by find_entry.
  rewrite as_list_map by (intros; apply as_version_json). cbn [mbind option_bind].
  read_opt time_json "createdAt" (m_createdAt m) as_time_json. read_opt time_json "startedAt" (m_startedAt m) as_time_json.
  read_opt time_json "completedAt" (m_completedAt m) as_time_json. read_opt time_json "durationMs" (m_durationMs m) as_time_json.
  rewrite (opt_entry_read _ (fun l => JArr (map source_json l)) "sources" _ (m_sources m))
    by (first [find_entry | intros; apply as_list_map; intros; apply as_source_json]). cbn [mbind option_bind].
  read_opt reasoning_json "reasoning" (m_reasoning m) as_reasoning_json.
  rewrite (opt_entry_read _ JBool "isReasoningStreaming" _ (m_isReasoningStreaming m)) by (first [find_entry | done]). cbn [mbind option_bind].
  rewrite (opt_entry_read _ JBool "isReasoningComplete" _ (m_isReasoningComplete m)) by (first [find_entry | done]). cbn [mbind option_bind].
  rewrite (opt_entry_read _ JBool "isContentComplete" _ (m_isContentComplete m)) by (first [find_entry | done]). cbn [mbind option_bind].
  read_opt (fun s => JStr (status_str s)) "status" (m_status m) as_status_json.
  assert (j_prop (message_json m) (js "errorCode") = id <$> m_errorCode m) as Hc by (unfold message_json; find_entry).
  unfold message_json in Hc. rewrite Hc. destruct m; cbn. by destruct m_errorCode.
Qed.

(** ** Saving and loading *)

Lemma message_size_nonneg m : (0 <= getMessageSize m)%Z.
Proof.
  unfold getMessageSize.
  assert (0 <= foldl (fun total v => total + len (v_content v)) 0 (m_versions m))%Z.
  { rewrite foldl_add_sumZ, Z.add_0_l. apply sumZ_nonneg. intros. unfold len. lia. }
  unfold len in *. destruct (m_reasoning m); cbn; lia.
Qed.

Lemma trim_messages_id ms : (length ms <= 100)%nat -> trimMessages ms = ms.
Proof. intros H. unfold trimMessages. by rewrite (proj2 (Nat.leb_le _ _)). Qed.

Lemma trim_size_id ms : (sizes ms <= 120000)%Z -> trimMessagesByContentSize ms = ms.
Proof.
  intros H. destruct (trim_size_suffix ms) as [cut Hc]. destruct (snoc_cases cut) as [-> | (cut' & m & ->)]; [done |].
  exfalso. destruct (trim_by_size_spec [] (reverse ms)) as (_ & S2 & _); [by left; cbn; lia |].
  change (trim_by_size (sizes []) [] (reverse ms)) with (trimMessagesByContentSize ms) in S2.
  assert (MAX_LOADED_MESSAGES_CHARS < getMessageSize m + sizes (trimMessagesByContentSize ms))%Z as Hm.
  { apply (S2 cut' m). rewrite reverse_involutive, app_nil_r. rewrite Hc at 1. by rewrite <- app_assoc. }
  rewrite Hc, !sumZ_app in H. cbn [sumZ] in H.
  assert (0 <= sizes cut')%Z by (apply sumZ_nonneg; intros; apply message_size_nonneg).
  unfold MAX_LOADED_MESSAGES_CHARS in Hm. change (sizes [m]) with (getMessageSize m + 0)%Z in H. lia.
Qed.

(** A conversation that loading leaves alone. *)
Record stable (ms : list Message) : Prop := mkStable {
  sb_count : (length ms <= 100)%nat;
  sb_size : (sizes ms <= 120000)%Z;
  sb_messages : Forall (fun m => isAssistantMessagePending m = false /\ short_message m) ms
}.

Lemma imap_id {A} (f : nat -> A -> A) l : (forall i x, x ∈ l -> f i x = x) -> imap f l = l.
Proof.
  intros H. apply list_eq. intros i. rewrite list_lookup_imap. destruct (l !! i) as [x|] eqn:E; [| done].
  cbn. f_equal. apply H. by eapply list_elem_of_lookup_2.
Qed.

Lemma pipeline_stable {I : I18n} c ms : stable ms -> load_pipeline c ms = ms.
Proof.
  intros [Hc Hs Hm]. unfold load_pipeline. rewrite Forall_forall in Hm. rewrite imap_id.
  2: { intros i x Hx. destruct (lc_now c i) as [[? ?] ?], (Hm x Hx). by apply normalize_short. }
  rewrite trim_messages_id, trim_size_id by done. destruct (lc_sanitize c) as [[? ?] ?]. unfold sanitizeMessagesOnLoad.
  rewrite (proj2 (find_last_none _ _)); [done |]. apply Forall_forall. intros x Hx. destruct (Hm x Hx) as [Hp _].
  unfold isPendingAssistantMessage. by rewrite Hp, andb_false_r.
Qed.

Lemma fields_fail l k s fields :
  (k, s) ∈ fields -> zod_documented s (map_get k l) = None -> fields_go l fields = None.
Proof.
  intros Hk H. induction fields as [|[k' s'] f IH]; [set_solver |]. cbn [fields_go]. fold (fields_go l).
  apply elem_of_cons in Hk as [[= <- <-] | Hk]; [by rewrite H |]. rewrite IH by done. by destruct (zod_documented s' _).
Qed.

Lemma mapM_fail {A C} (f : A -> option C) l x : x ∈ l -> f x = None -> mapM f l = None.
Proof.
  intros Hx Hf. induction l as [|y l IH]; [set_solver |]. cbn. apply elem_of_cons in Hx as [-> | Hx]; [by rewrite Hf |].
  rewrite IH by done. by destruct (f y).
Qed.

Section RoundTrip.
Context {Zd : Zod} {Documented : ZodDocumented} {B : Browser} {I : I18n}.

Lemma checked_messages ms : Forall storable ms -> checked messagesSchema (messages_json ms) = Some (messages_json ms).
Proof.
  intros H. unfold checked. rewrite z_parse_documented. unfold messagesSchema, messages_json.
  rewrite zod_array; [done | lia |]. intros x Hx. rewrite Forall_forall in H. by apply zod_message, H.
Qed.

Lemma parsed_not_empty saved v : JSON_parse saved = Some v -> saved <> [].
Proof. intros H ->. by vm_compute in H. Qed.

Lemma read_messages saved v st :
  getItem KEY_MESSAGES st = Some saved -> JSON_parse saved = Some v -> (len saved <= 1048576)%Z ->
  readStoredMessagesValue st = (Some (Some v), st).
Proof.
  intros Hg Hp Hl. unfold readStoredMessagesValue. rewrite Hg. pose proof (parsed_not_empty _ _ Hp).
  destruct saved as [|u t]; [done |]. rewrite (proj2 (Z.ltb_ge _ _)) by exact Hl. by rewrite Hp.
Qed.

Lemma read_value key saved v st :
  getItem key st = Some saved -> JSON_parse saved = Some v -> readStoredValue key st = Some (Some v).
Proof.
  intros Hg Hp. unfold readStoredValue. rewrite Hg. pose proof (parsed_not_empty _ _ Hp).
  destruct saved as [|u t]; [done |]. by rewrite Hp.
Qed.

Lemma unwrap_envelope data : unwrapStoredValue (envelope data) = data.
Proof. reflexivity. Qed.

Abbreviation stored_text ms := (JSON_stringify (envelope (messages_json ms))).

(** C15: A finished conversation within the limits that was saved is loaded
    unchanged, given that the browser takes the text and that the schema library
    behaves as documented. *)
Theorem save_load_roundtrip c ms st :
  stable ms -> Forall storable ms -> json_ok (envelope (messages_json ms)) ->
  (len (stored_text ms) <= 1048576)%Z -> takes st KEY_MESSAGES (stored_text ms) = true ->
  fst (loadMessages c (saveMessages ms st)) = Some ms.
Proof.
  intros Hst Hs Hj Hl Ht. unfold saveMessages, save_item. rewrite trim_messages_id by apply Hst.
  rewrite checked_messages by done. unfold writeStoredValue. rewrite Ht. unfold loadMessages.
  rewrite (read_messages (stored_text ms) (envelope (messages_json ms)));
    [| apply map_get_set_eq | by apply json_roundtrip | done].
  change (j_truthy (envelope (messages_json ms))) with true. cbn [negb]. rewrite unwrap_envelope, checked_messages by done.
  cbn [mbind option_bind]. unfold as_messages, messages_json at 1. rewrite as_list_map.
  - cbn [fst]. by rewrite pipeline_stable.
  - intros x Hx. rewrite Forall_forall in Hs. by apply as_message_json, Hs.
Qed.

(** A message whose error code is neither a text nor null, such as the number
    that a provider sent as the code of a stream error, keeps the conversation
    from being saved: the storage stays as it was. *)
Theorem foreign_error_code_not_saved ms m v st :
  m ∈ trimMessages ms -> m_errorCode m = Some v -> v <> JNull -> (forall c, v <> JStr c) -> saveMessages ms st = st.
Proof.
  intros Hm Hv Hn Hc. unfold saveMessages, save_item.
  assert (checked messagesSchema (messages_json (trimMessages ms)) = None) as ->; [| done].
  unfold checked. rewrite z_parse_documented.
  assert (zod_documented messageSchema (Some (message_json m)) = None) as Hz.
  { unfold messageSchema, message_json. rewrite zod_object. set (l := _ ++ _).
    assert (map_get (js "errorCode") l = id <$> m_errorCode m) as Hl by (unfold l; find_entry). rewrite Hv in Hl.
    assert (zod_documented (ZOptional (ZNullable ZString)) (map_get (js "errorCode") l) = None) as Hf.
    { rewrite Hl. cbn. destruct v; try done. by destruct (Hc s). }
    rewrite (fields_fail l (js "errorCode") (ZOptional (ZNullable ZString))); [done | | done].
    apply list_elem_of_In. do 13 right. by left. }
  cbn [zod_documented messagesSchema messages_json]. rewrite mapM_fail with (x := message_json m); [by destruct (_ <? _)%nat | | done].
  by apply elem_of_map.
Qed.
End RoundTrip.

(** ** Settings *)

Definition full_config (c : PlaygroundConfig) : PartialConfig :=
  mkPartialConfig (Some (model c)) (Some (group c)) (Some (temperature c)) (Some (top_p c)) (Some (max_tokens c))
    (Some (frequency_penalty c)) (Some (presence_penalty c)) (Some (seed c)) (Some (stream c)).

Definition config_numbers (c : PlaygroundConfig) : list num :=
  [temperature c; top_p c; max_tokens c; frequency_penalty c; presence_penalty c] ++ option_list (seed c).

Abbreviation seed_json := (fun s : option num => match s with Some n => JNum n | None => JNull end).

Lemma zod_num n : isFinite n = true -> zod_documented ZNumber (Some (JNum n)) = Some (Some (JNum n)).
Proof. cbn. by intros ->. Qed.

Lemma zod_config c : Forall (fun n => isFinite n = true) (config_numbers c) ->
  zod_documented playgroundConfigSchema (Some (config_json (full_config c))) = Some (Some (config_json (full_config c))).
Proof.
  intros H. unfold config_numbers in H. rewrite Forall_app, !Forall_cons in H. destruct H as ((H1 & H2 & H3 & H4 & H5 & _) & H6).
  unfold playgroundConfigSchema, config_json. rewrite zod_object. set (l := _ ++ _). set (fields := [opt_field "model" _; _; _; _; _; _; _; _; _]).
  assert (fields_go l fields = Some (l ++ [])) as ->; [| by rewrite app_nil_r]. unfold l at 2, fields. rewrite <- !app_assoc.
  do 2 (apply fields_opt; [unfold l; find_entry | done |]).
  do 5 (apply fields_opt; [unfold l; find_entry | intros ? [= <-]; by apply zod_num |]).
  apply fields_opt; [unfold l; find_entry | |].
  - intros v [= <-]. destruct (seed c) as [n|]; [| done]. 
    assert (isFinite n = true) as Hf by (by inversion H6). cbn. by rewrite Hf.
  - apply fields_opt; [unfold l; find_entry | done | apply fields_nil].
Qed.

Lemma get_entry {A} (f : json -> option A) (g : A -> json) k o v :
  j_prop o (js k) = g <$> Some v -> f (g v) = Some v -> get f k o = Some v.
Proof. unfold get. intros -> H. done. Qed.

Lemma as_config_json c : as_config (config_json (full_config c)) = full_config c.
Proof.
  unfold as_config, config_json.
  rewrite (get_entry _ JStr "model" _ (model c)) by (first [find_entry | done]).
  rewrite (get_entry _ JStr "group" _ (group c)) by (first [find_entry | done]).
  rewrite (get_entry _ JNum "temperature" _ (temperature c)) by (first [find_entry | done]).
  rewrite (get_entry _ JNum "top_p" _ (top_p c)) by (first [find_entry | done]).
  rewrite (get_entry _ JNum "max_tokens" _ (max_tokens c)) by (first [find_entry | done]).
  rewrite (get_entry _ JNum "frequency_penalty" _ (frequency_penalty c)) by (first [find_entry | done]).
  rewrite (get_entry _ JNum "presence_penalty" _ (presence_penalty c)) by (first [find_entry | done]).
  rewrite (get_entry _ JBool "stream" _ (stream c)) by (first [find_entry | done]).
  assert (j_prop (config_json (full_config c)) (js "seed") = seed_json <$> Some (seed c)) as Hs by (unfold config_json; find_entry).
  unfold config_json in Hs. rewrite Hs. cbn. unfold full_config. by destruct (seed c).
Qed.

Section Settings.
Context {Zd : Zod} {Documented : ZodDocumented} {B : Browser}.

(** Settings with finite numbers that were saved are the settings the playground
    starts with the next time. *)
Theorem config_roundtrip c st :
  Forall (fun n => isFinite n = true) (config_numbers c) -> json_ok (envelope (config_json (full_config c))) ->
  takes st KEY_CONFIG (JSON_stringify (envelope (config_json (full_config c)))) = true ->
  getInitialPlaygroundConfig (saveConfig (full_config c) st) = c.
Proof.
  intros Hn Hj Ht. unfold saveConfig, save_item, checked. rewrite z_parse_documented, zod_config by done.
  cbn [mbind option_bind]. unfold writeStoredValue. rewrite Ht. unfold getInitialPlaygroundConfig, loadConfig, load_item.
  rewrite (read_value KEY_CONFIG _ (envelope (config_json (full_config c))) _ (map_get_set_eq _ _ _)) by (by apply json_roundtrip).
  change (j_truthy (envelope _)) with true. cbv iota. unfold checked. rewrite unwrap_envelope, z_parse_documented, zod_config by done.
  cbn [mbind option_bind]. rewrite as_config_json. by destruct c.
Qed.
End Settings.

(** ** Witnesses *)

#[local] Existing Instance plain_i18n.
#[local] Instance documented_zod : Zod := {| z_parse := zod_documented |}.
#[local] Instance documented_zod_documented : ZodDocumented.
Proof. by intros s v. Qed.
#[local] Instance roomy_browser : Browser := {| takes := fun _ _ _ => true |}.

Definition demo_done : Message := completeAssistantMessage 1700000001000 1700000001000 1700000001500
  (updateCurrentVersionContent (createLoadingAssistantMessage (js "k2") (js "v2") 1700000000000) (js "<think>hm</think>Hello")).
Definition demo_stored : list Message := [createUserMessage (js "k1") (js "v1") (js "Hi") 1700000000000; demo_done].
Definition demo_load_clock : LoadClock := mkLoadClock (fun _ => (0, 0, 0)%Z) (0, 0, 0)%Z.

Ltac json_ok_by_computing := apply json_okb_ok; vm_compute; reflexivity.

Lemma demo_stable : stable demo_stored.
Proof.
  split; [vm_compute; lia | vm_compute; by intros ? |].
  repeat apply Forall_cons_2; [| | apply Forall_nil_2]; (split; [vm_compute; reflexivity |]); (split; [| intros r Hr; vm_compute in Hr]).
  - apply Forall_singleton. vm_compute. split; [by intros ? | by left].
  - done.
  - apply Forall_singleton. vm_compute. split; [by intros ? | by left].
  - injection Hr as <-. vm_compute. by intros ?.
Qed.

Definition time_okb (z : Z) : bool := bool_decide (num_to_Z (n_of_Z z) = Some z).
Lemma times_okb o : forallb time_okb (option_list o) = true -> times_ok o.
Proof. intros H z ->. cbn in H. apply andb_true_iff in H as [H _]. by apply bool_decide_eq_true in H. Qed.

Lemma demo_storable : Forall storable demo_stored.
Proof.
  apply Forall_cons_2; [| apply Forall_cons_2; [| apply Forall_nil_2]].
  - split; [done | apply times_okb; vm_compute; reflexivity.. | done | done].
  - split; [done | apply times_okb; vm_compute; reflexivity.. | | done].
    intros r Hr. vm_compute in Hr. apply (inj Some) in Hr as <-.
    split_and!; [| apply times_okb; vm_compute; reflexivity..]. vm_compute. reflexivity.
Qed.

Lemma save_load_roundtrip_witness : fst (loadMessages demo_load_clock (saveMessages demo_stored [])) = Some demo_stored.
Proof.
  apply (save_load_roundtrip demo_load_clock demo_stored []);
    [apply demo_stable | apply demo_storable | json_ok_by_computing | vm_compute; by intros ? | reflexivity].
Defined.

Lemma config_roundtrip_witness : getInitialPlaygroundConfig (saveConfig (full_config DEFAULT_CONFIG) []) = DEFAULT_CONFIG.
Proof.
  apply (config_roundtrip DEFAULT_CONFIG []); [| json_ok_by_computing | reflexivity].
  vm_compute. repeat constructor.
Defined.

(** A stream error whose code is a number. *)
Definition demo_failed : Message :=
  with_errorCode (with_status (createLoadingAssistantMessage (js "k2") (js "v2") 7) StError) (JNum (n_of_Z 429)).

Lemma foreign_error_code_not_saved_witness : saveMessages [demo_failed] [(KEY_MESSAGES, js "[]")] = [(KEY_MESSAGES, js "[]")].
Proof.
  apply (foreign_error_code_not_saved [demo_failed] demo_failed (JNum (n_of_Z 429)));
    [vm_compute; by left | reflexivity | done | done].
Defined.

(** Such a code reaches the message. *)
Example demo_foreign_code :
  map m_errorCode (messages (on_error demo_clock 0 (Some 1%Z) (Some (jsq "{'error':{'code':429,'message':'busy'}}"))
    (handleSubmit (demo_env true) (Some (js "hi")) (initial [])))) = [None; Some (JNum (n_of_Z 429))].
Proof. vm_compute. reflexivity. Qed.

Lemma loaded_conversation_is_settled_witness :
  quiet (load_pipeline demo_load_clock [createUserMessage (js "k1") (js "v1") (js "Hi") 5; createLoadingAssistantMessage (js "k2") (js "v2") 7]).
Proof. apply loaded_conversation_is_settled. vm_compute. by repeat constructor. Defined.
