(* ===== verification/PlayState.v ===== *)
(** * Playground state and its persistence

    Model of [features/playground/hooks/use-playground-state.ts]: the state of the
    playground page, the load of the conversation after the first render, the
    delayed save, and the save on leaving the page.  A step is one callback; the
    updater functions given to the state setters run at once and in order. *)
From S2P Require Import Prelude Number Regex Json Playground PlayStream PlayProps PlayStorage StorageProps.

Record PlaygroundState := mkState {
  ps_config : PlaygroundConfig; ps_enabled : ParameterEnabled; ps_messages : list Message;
  ps_isLoadingMessages : bool; ps_saveTimer : bool; ps_latestMessages : list Message; ps_hasLoaded : bool;
  ps_mounted : bool; ps_storage : storage
}.

(** [{ ...prev, [key]: value }]. *)
Inductive ConfigUpdate :=
| SetModel (v : str) | SetGroup (v : str) | SetTemperature (v : num) | SetTopP (v : num) | SetMaxTokens (v : num)
| SetFrequencyPenalty (v : num) | SetPresencePenalty (v : num) | SetSeed (v : option num) | SetStream (v : bool).
Inductive EnabledKey := KTemperature | KTopP | KMaxTokens | KFrequencyPenalty | KPresencePenalty | KSeed.

Definition set_config (c : PlaygroundConfig) (u : ConfigUpdate) : PlaygroundConfig :=
  let 'mkConfig m g t p k f r s b := c in
  match u with
  | SetModel v => mkConfig v g t p k f r s b
  | SetGroup v => mkConfig m v t p k f r s b
  | SetTemperature v => mkConfig m g v p k f r s b
  | SetTopP v => mkConfig m g t v k f r s b
  | SetMaxTokens v => mkConfig m g t p v f r s b
  | SetFrequencyPenalty v => mkConfig m g t p k v r s b
  | SetPresencePenalty v => mkConfig m g t p k f v s b
  | SetSeed v => mkConfig m g t p k f r v b
  | SetStream v => mkConfig m g t p k f r s v
  end.
Definition set_enabled (e : ParameterEnabled) (key : EnabledKey) (v : bool) : ParameterEnabled :=
  let 'mkEnabled t p k f r s := e in
  match key with
  | KTemperature => mkEnabled v p k f r s
  | KTopP => mkEnabled t v k f r s
  | KMaxTokens => mkEnabled t p v f r s
  | KFrequencyPenalty => mkEnabled t p k v r s
  | KPresencePenalty => mkEnabled t p k f v s
  | KSeed => mkEnabled t p k f r v
  end.
Definition full_enabled (e : ParameterEnabled) : PartialEnabled :=
  mkPartialEnabled (Some (en_temperature e)) (Some (en_top_p e)) (Some (en_max_tokens e))
    (Some (en_frequency_penalty e)) (Some (en_presence_penalty e)) (Some (en_seed e)).

(** Updates of parts of the record. *)
Definition ps_set_storage (s : PlaygroundState) (st : storage) : PlaygroundState :=
  mkState (ps_config s) (ps_enabled s) (ps_messages s) (ps_isLoadingMessages s) (ps_saveTimer s) (ps_latestMessages s)
    (ps_hasLoaded s) (ps_mounted s) st.
Definition ps_set_settings (s : PlaygroundState) (c : PlaygroundConfig) (e : ParameterEnabled) : PlaygroundState :=
  mkState c e (ps_messages s) (ps_isLoadingMessages s) (ps_saveTimer s) (ps_latestMessages s)
    (ps_hasLoaded s) (ps_mounted s) (ps_storage s).
Definition ps_set_messages (s : PlaygroundState) (ms : list Message) : PlaygroundState :=
  mkState (ps_config s) (ps_enabled s) ms (ps_isLoadingMessages s) (ps_saveTimer s) (ps_latestMessages s)
    (ps_hasLoaded s) (ps_mounted s) (ps_storage s).
Definition ps_set_saving (s : PlaygroundState) (timer : bool) (latest : list Message) : PlaygroundState :=
  mkState (ps_config s) (ps_enabled s) (ps_messages s) (ps_isLoadingMessages s) timer latest
    (ps_hasLoaded s) (ps_mounted s) (ps_storage s).

Section State.
Context {Zd : Zod} {B : Browser} {I : I18n}.

(** The first render. *)
Definition mount (st : storage) : PlaygroundState :=
  mkState (getInitialPlaygroundConfig st) (getInitialParameterEnabled st) [] true false [] false true st.

Definition persistMessages (messagesToSave : list Message) (s : PlaygroundState) : PlaygroundState :=
  let s := ps_set_saving s (ps_saveTimer s) messagesToSave in
  if negb (ps_hasLoaded s) then s else ps_set_saving s true messagesToSave.

(** The callback of the save timer. *)
Definition save_timeout (s : PlaygroundState) : PlaygroundState :=
  ps_set_storage (ps_set_saving s false (ps_latestMessages s)) (saveMessages (ps_latestMessages s) (ps_storage s)).

(** The callback of the timer set by the first effect; it reads the storage even if
    the page was left in the meantime. *)
Definition load_timeout (c : LoadClock) (s : PlaygroundState) : PlaygroundState :=
  let '(loaded, st) := loadMessages c (ps_storage s) in
  let loadedMessages := default [] loaded in
  if negb (ps_mounted s) then ps_set_storage s st
  else mkState (ps_config s) (ps_enabled s) loadedMessages false (ps_saveTimer s) loadedMessages true (ps_mounted s) st.

(** The clean-up functions of both effects. *)
Definition unmount (s : PlaygroundState) : PlaygroundState :=
  let s := if ps_saveTimer s then save_timeout s else s in
  mkState (ps_config s) (ps_enabled s) (ps_messages s) (ps_isLoadingMessages s) (ps_saveTimer s) (ps_latestMessages s)
    (ps_hasLoaded s) false (ps_storage s).

Definition updateConfig (u : ConfigUpdate) (s : PlaygroundState) : PlaygroundState :=
  let updated := set_config (ps_config s) u in
  ps_set_storage (ps_set_settings s updated (ps_enabled s)) (saveConfig (full_config updated) (ps_storage s)).

Definition updateParameterEnabled (key : EnabledKey) (value : bool) (s : PlaygroundState) : PlaygroundState :=
  let updated := set_enabled (ps_enabled s) key value in
  ps_set_storage (ps_set_settings s (ps_config s) updated) (saveParameterEnabled (full_enabled updated) (ps_storage s)).

Definition updateMessages (updater : list Message + (list Message -> list Message)) (s : PlaygroundState) : PlaygroundState :=
  let newMessages := applyMessageStateUpdate (ps_messages s) updater in
  ps_set_messages (persistMessages newMessages s) newMessages.

Definition clearMessages (s : PlaygroundState) : PlaygroundState := updateMessages (inl []) s.

Definition resetConfig (s : PlaygroundState) : PlaygroundState :=
  let s := ps_set_settings s DEFAULT_CONFIG DEFAULT_PARAMETER_ENABLED in
  ps_set_storage s (saveParameterEnabled (full_enabled DEFAULT_PARAMETER_ENABLED)
                      (saveConfig (full_config DEFAULT_CONFIG) (ps_storage s))).

(** While the page is shown: updates, the save timer, and the load. *)
Inductive page_step (s : PlaygroundState) : PlaygroundState -> Prop :=
| page_update updater : page_step s (updateMessages updater s)
| page_clear : page_step s (clearMessages s)
| page_config u : page_step s (updateConfig u s)
| page_enabled key v : page_step s (updateParameterEnabled key v s)
| page_reset : page_step s (resetConfig s)
| page_save : ps_saveTimer s = true -> page_step s (save_timeout s)
| page_load c : ps_hasLoaded s = false -> page_step s (load_timeout c s).

Definition page_reachable (st : storage) : PlaygroundState -> Prop := rtc page_step (mount st).
End State.

(** ** Loading depends on one item *)

Section Persistence.
Context {Zd : Zod} {Documented : ZodDocumented} {B : Browser} {I : I18n}.

Definition load_result (c : LoadClock) (saved : option str) : option (list Message) :=
  match saved with
  | None | Some [] => None
  | Some saved =>
      if (MAX_STORED_MESSAGES_BYTES <? len saved)%Z then None
      else match JSON_parse saved with
           | Some v => if j_truthy v
                       then load_pipeline c <$> (checked messagesSchema (unwrapStoredValue v) ≫= as_messages) else None
           | None => None
           end
  end.

Lemma load_messages_result c st :
  fst (loadMessages c st) = load_result c (getItem KEY_MESSAGES st) /\
  snd (loadMessages c st) =
    match fst (loadMessages c st) with
    | Some ms => saveMessages ms st
    | None => snd (readStoredMessagesValue st)
    end.
Proof.
  unfold loadMessages, readStoredMessagesValue, load_result.
  destruct (getItem KEY_MESSAGES st) as [[|u t]|]; [done | | done].
  destruct (_ <? _)%Z; [done |]. destruct (JSON_parse (u :: t)) as [v|]; [| done]. cbn [fmap option_fmap option_map].
  destruct (j_truthy v); [| done]. cbn [negb]. by destruct (_ ≫= as_messages).
Qed.

Lemma load_result_none c c' saved : load_result c saved = None -> load_result c' saved = None.
Proof.
  unfold load_result. destruct saved as [[|u t]|]; [done | | done]. destruct (_ <? _)%Z; [done |].
  destruct (JSON_parse _) as [v|]; [| done]. destruct (j_truthy v); [| done]. by destruct (_ ≫= as_messages).
Qed.

Lemma read_none_item c st :
  load_result c (getItem KEY_MESSAGES st) = None ->
  load_result c (getItem KEY_MESSAGES (snd (readStoredMessagesValue st))) = None.
Proof.
  unfold readStoredMessagesValue. destruct (getItem KEY_MESSAGES st) as [[|u t]|] eqn:E; intros H; [cbn [snd]; by rewrite E | | cbn [snd]; by rewrite E].
  destruct (_ <? _)%Z; [| cbn [snd]; by rewrite E]. cbn [snd].
  assert (getItem KEY_MESSAGES (removeItem KEY_MESSAGES st) = None) as ->; [| done].
  unfold getItem, removeItem. apply map_get_None. intros Hin. apply list_elem_of_fmap in Hin as ([k v] & Hk & Hin).
  apply list_elem_of_In, filter_In in Hin as [_ Hin]. cbn in *. subst. by rewrite (proj2 (str_eqb_eq _ _) eq_refl) in Hin.
Qed.

(** ** The invariant

    Once the conversation is loaded the saved messages follow the shown ones: unless
    the save timer is set, the item holds their text, or there is nothing to load
    and nothing is shown, or the storage refused their text when it was written. *)
Definition synced (ms : list Message) (st : storage) : Prop :=
  (forall v, checked messagesSchema (messages_json (trimMessages ms)) = Some v ->
     getItem KEY_MESSAGES st = Some (JSON_stringify (envelope v))) \/
  (ms = [] /\ forall c, load_result c (getItem KEY_MESSAGES st) = None).

(** At some time since the page was opened the storage refused the text of these messages. *)
Definition refused (st : storage) (s : PlaygroundState) (ms : list Message) : Prop :=
  exists s0 v, page_reachable st s0 /\ rtc page_step s0 s /\
    checked messagesSchema (messages_json (trimMessages ms)) = Some v /\
    takes (ps_storage s0) KEY_MESSAGES (JSON_stringify (envelope v)) = false.

Record PageInv (st : storage) (s : PlaygroundState) : Prop := mkPageInv {
  pi_latest : ps_hasLoaded s = true -> ps_latestMessages s = ps_messages s;
  pi_synced : ps_hasLoaded s = true -> ps_saveTimer s = false -> synced (ps_messages s) (ps_storage s) \/ refused st s (ps_messages s);
  pi_timer : ps_hasLoaded s = false -> ps_saveTimer s = false
}.

Lemma refused_step st s s' ms : refused st s ms -> page_step s s' -> refused st s' ms.
Proof. intros (s0 & v & H0 & Hr & Hv & Ht) Hs. exists s0, v. split_and!; [done | by eapply rtc_r | done | done]. Qed.

Lemma saved_synced ms st0 :
  synced ms (saveMessages ms st0) \/
  exists v, checked messagesSchema (messages_json (trimMessages ms)) = Some v /\ takes st0 KEY_MESSAGES (JSON_stringify (envelope v)) = false.
Proof.
  unfold synced, saveMessages, save_item. destruct (checked _ _) as [v|]; [| by left; left].
  unfold writeStoredValue. destruct (takes _ _ _) eqn:E; [| right; by exists v].
  left. left. intros w [= <-]. apply map_get_set_eq.
Qed.

Lemma saved_or_refused st s s' ms : page_reachable st s -> rtc page_step s s' ->
  synced ms (saveMessages ms (ps_storage s)) \/ refused st s' ms.
Proof. intros Hr Hs. destruct (saved_synced ms (ps_storage s)) as [H | (v & Hv & Ht)]; [by left | right; by exists s, v]. Qed.

Lemma synced_item ms st st' : getItem KEY_MESSAGES st' = getItem KEY_MESSAGES st -> synced ms st -> synced ms st'.
Proof. unfold synced. by intros ->. Qed.

Lemma save_item_other key s v st : key <> KEY_MESSAGES -> getItem KEY_MESSAGES (save_item key s v st) = getItem KEY_MESSAGES st.
Proof.
  intros H. unfold save_item. destruct (checked s v); [| done]. unfold writeStoredValue.
  destruct (takes _ _ _); [by apply map_get_set_ne | done].
Qed.

Lemma settings_inv st0 s c e st :
  getItem KEY_MESSAGES st = getItem KEY_MESSAGES (ps_storage s) -> page_step s (ps_set_storage (ps_set_settings s c e) st) ->
  PageInv st0 s -> PageInv st0 (ps_set_storage (ps_set_settings s c e) st).
Proof.
  intros Hst Hstep []. split; cbn; auto. intros H1 H2.
  destruct (pi_synced0 H1 H2); [left; by eapply synced_item | right; by eapply refused_step].
Qed.

Lemma update_page_inv st updater s : PageInv st s -> PageInv st (updateMessages updater s).
Proof.
  intros []. unfold updateMessages, persistMessages. cbn. destruct (ps_hasLoaded s) eqn:E; cbn; split; cbn; rewrite ?E; auto; done.
Qed.

Lemma save_page_inv st s : page_reachable st s -> ps_saveTimer s = true -> PageInv st s -> PageInv st (save_timeout s).
Proof.
  intros Hr Ht []. split; cbn; auto. intros H _. rewrite <- pi_latest0 by done.
  apply (saved_or_refused st s); [done |]. by apply rtc_once, page_save.
Qed.

Lemma load_page_inv st0 c s : page_reachable st0 s -> ps_hasLoaded s = false -> PageInv st0 s -> PageInv st0 (load_timeout c s).
Proof.
  intros Hr Hl []. pose proof (rtc_once _ _ (page_load s c Hl)) as Hstep. revert Hstep. unfold load_timeout.
  destruct (load_messages_result c (ps_storage s)) as [Hf Hs].
  destruct (loadMessages c (ps_storage s)) as [loaded st]. cbn [fst snd] in *.
  destruct (ps_mounted s); cbn [negb]; intros Hstep; [| split; cbn; rewrite ?Hl; auto; done].
  split; cbn; [done | | by intros; auto]. intros _ _. destruct loaded as [ms|]; cbn in *.
  - rewrite Hs. rewrite Hs in Hstep. by apply (saved_or_refused st0 s).
  - left. right. split; [done |]. intros c'. rewrite Hs. by apply read_none_item, (load_result_none c).
Qed.

Lemma save_config_other c st : getItem KEY_MESSAGES (saveConfig c st) = getItem KEY_MESSAGES st.
Proof. by apply save_item_other. Qed.
Lemma save_enabled_other e st : getItem KEY_MESSAGES (saveParameterEnabled e st) = getItem KEY_MESSAGES st.
Proof. by apply save_item_other. Qed.

Lemma page_step_inv st s s' : page_reachable st s -> PageInv st s -> page_step s s' -> PageInv st s'.
Proof.
  intros Hr H Hs. pose proof Hs as Hs'. destruct Hs';
    [by apply update_page_inv | by apply update_page_inv | | | | by apply save_page_inv | by apply load_page_inv];
    (apply settings_inv; [| done | done]); by rewrite ?save_enabled_other, ?save_config_other.
Qed.

Lemma page_reachable_inv st s : page_reachable st s -> PageInv st s.
Proof.
  intros Hr. apply (rtc_ind_r (PageInv st)) with (3 := Hr); [by split |]. intros s1 s2 Hs1 Hs H. by apply (page_step_inv st s1).
Qed.

(** ** Closing the page *)

Lemma unmount_synced st s : page_reachable st s -> ps_hasLoaded s = true ->
  synced (ps_messages s) (ps_storage (unmount s)) \/ refused st s (ps_messages s).
Proof.
  intros Hr Hl. destruct (page_reachable_inv st s Hr). unfold unmount. destruct (ps_saveTimer s) eqn:E; cbn; [| auto].
  rewrite <- pi_latest0 by done. by apply (saved_or_refused st s).
Qed.

(** C13: The conversation survives closing the page: whatever was done since it was
    loaded, after leaving the page the next load gives the messages last shown -
    unless the storage refused their text when it was written.  For a conversation
    that is finished and within the limits of saving (at most 100 messages, of
    bounded size each and together, at most 1 MB as text), with valid texts, at
    least one version for each message and times that are integers. *)
Theorem conversation_survives_closing st s c :
  page_reachable st s -> ps_hasLoaded s = true ->
  stable (ps_messages s) -> Forall storable (ps_messages s) -> json_ok (envelope (messages_json (ps_messages s))) ->
  let text := JSON_stringify (envelope (messages_json (ps_messages s))) in
  (len text <= 1048576)%Z ->
  fst (getInitialMessages c (ps_storage (unmount s))) = ps_messages s \/
  exists s0, page_reachable st s0 /\ rtc page_step s0 s /\ takes (ps_storage s0) KEY_MESSAGES text = false.
Proof.
  intros Hr Hl Hst Hs Hj text Hlen. pose proof (checked_messages _ Hs) as Hck.
  destruct (unmount_synced st s Hr Hl) as [Hsy | (s0 & v & H0 & Hr0 & Hv & Ht)].
  2: { right. exists s0. rewrite trim_messages_id in Hv by apply Hst. rewrite Hck in Hv. injection Hv as <-. done. }
  left. unfold getInitialMessages.
  destruct (load_messages_result c (ps_storage (unmount s))) as [Hf _].
  destruct (loadMessages c (ps_storage (unmount s))) as [loaded st']. cbn [fst] in *. subst loaded.
  destruct Hsy as [H | [-> H]]; [| by rewrite H].
  rewrite trim_messages_id in H by apply Hst. rewrite (H _ Hck). fold text.
  unfold load_result. pose proof (json_roundtrip _ Hj) as Hp. pose proof (parsed_not_empty _ _ Hp) as Hne. fold text in Hp, Hne.
  destruct text as [|u t] eqn:Et; [done |].
  rewrite (proj2 (Z.ltb_ge _ _)) by exact Hlen. rewrite Hp. change (j_truthy (envelope _)) with true. cbv iota.
  rewrite unwrap_envelope, Hck. cbn [mbind option_bind].
  unfold as_messages, messages_json. rewrite as_list_map.
  - cbn. by rewrite pipeline_stable.
  - intros x Hx. rewrite Forall_forall in Hs. by apply as_message_json, Hs.
Qed.
End Persistence.

(** ** Witness: an empty storage, a loaded page, and a conversation *)

#[local] Existing Instance plain_i18n.
#[local] Existing Instance documented_zod.
#[local] Existing Instance documented_zod_documented.
#[local] Existing Instance roomy_browser.

Definition demo_page : PlaygroundState :=
  updateMessages (inr (fun ms => ms ++ demo_stored)) (updateConfig (SetStream false) (load_timeout demo_load_clock (mount []))).

Lemma demo_page_reachable : page_reachable [] demo_page.
Proof.
  eapply rtc_r; [| apply page_update]. eapply rtc_r; [| apply page_config].
  eapply rtc_r; [apply rtc_refl | by apply page_load].
Qed.

Lemma conversation_survives_closing_witness :
  ps_saveTimer demo_page = true /\ fst (getInitialMessages demo_load_clock (ps_storage (unmount demo_page))) = demo_stored.
Proof.
  split; [vm_compute; reflexivity |].
  destruct (conversation_survives_closing (B := roomy_browser) [] demo_page demo_load_clock) as [H | (s0 & _ & _ & H)];
    [apply demo_page_reachable | vm_compute; reflexivity | apply demo_stable | apply demo_storable
    | json_ok_by_computing | vm_compute; by intros ? | exact H | discriminate H].
Defined.
