(* ===== verification/ChannelMapping.v ===== *)
(** * Channels: model mapping and status code mapping

    Model of [features/channels/lib/model-mapping-validation.ts] and
    [features/channels/lib/status-code-risk-guard.ts]: the checks made on the two
    mapping texts of a channel before it is saved. *)
From S2P Require Import Prelude Number Regex Json.

(** ** model-mapping-validation.ts *)

Definition parseModelsString (modelsStr : str) : list str :=
  if truthy modelsStr then List.filter truthy (map trim (split_on 44 modelsStr)) else [].

Definition formatModelsArray (models : list str) : str := join (js ",") (set_of models).

Definition normalizeModelName (model : str) : str := trim model.

(** The entries of the object that a text denotes; [None] when it is no JSON text
    or not an object. *)
Definition parse_object (text : str) : option (list (str * json)) :=
  match JSON_parse text with Some (JObj l) => Some l | _ => None end.

Definition extractMappingSourceModels (modelMapping : str) : list str :=
  let trimmed := trim modelMapping in
  if negb (truthy trimmed) then []
  else match parse_object trimmed with
       | None => []
       | Some parsed => set_of (List.filter truthy (map (fun e => trim (fst e)) parsed))
       end.

Definition string_value (v : json) : option str := match v with JStr s => Some (trim s) | _ => None end.

Definition extractRedirectModels (modelMapping : str) : list str :=
  let trimmed := trim modelMapping in
  if negb (truthy trimmed) then []
  else match parse_object trimmed with
       | None => []
       | Some parsed => set_of (List.filter truthy (omap (fun e => string_value (snd e)) parsed))
       end.

Definition hasModelConfigChanged (currentModels : list str) (currentModelMapping : str) (initialModels : list str)
  (initialModelMapping : str) : bool :=
  if (length initialModels =? 0)%nat && negb (truthy initialModelMapping) then true
  else if negb (length currentModels =? length initialModels)%nat then true
  else if negb (bool_decide (currentModels = initialModels)) then true
  else negb (str_eqb (trim currentModelMapping) (trim initialModelMapping)).

Definition findMissingModelsInMapping (modelMapping : str) (currentModels : list str) : list str :=
  if negb (truthy modelMapping) || negb (truthy (trim modelMapping)) then []
  else match parse_object modelMapping with
       | None => []
       | Some parsedMapping =>
           let modelSet := set_of (map normalizeModelName currentModels) in
           set_of (List.filter (fun key => truthy key && negb (set_has key modelSet))
                     (map (fun e => normalizeModelName (fst e)) parsedMapping))
       end.

Record MappingValidation := mkValidation { mv_valid : bool; mv_error : option str }.

Definition is_string (v : json) : bool := match v with JStr _ => true | _ => false end.

Definition validateModelMappingJson (modelMapping : str) : MappingValidation :=
  if negb (truthy modelMapping) || negb (truthy (trim modelMapping)) then mkValidation true None
  else match JSON_parse modelMapping with
       | None => mkValidation false (Some (js "Model mapping must be valid JSON format"))
       | Some (JObj l) =>
           if existsb (fun e => negb (is_string (snd e))) l
           then mkValidation false (Some (js "Model mapping values must be strings"))
           else mkValidation true None
       | Some _ => mkValidation false (Some (js "Model mapping must be a valid JSON object"))
       end.

Definition findExposedTargetModels (modelMapping : str) (currentModels : list str) : list str :=
  let redirectModels := extractRedirectModels modelMapping in
  if (length redirectModels =? 0)%nat then []
  else
    let modelSet := set_of (map normalizeModelName currentModels) in
    List.filter (fun model => set_has (normalizeModelName model) modelSet) redirectModels.

Record ModelCategories := mkCategories {
  normalizedCurrentModels : list str; normalizedRedirectModels : list str;
  classificationSet : list str; redirectOnlySet : list str
}.

Definition categorizeModelsWithRedirect (currentModels redirectModels : list str) : ModelCategories :=
  let current := set_of (List.filter truthy (map normalizeModelName currentModels)) in
  let redirect := set_of (List.filter truthy (map normalizeModelName redirectModels)) in
  mkCategories current redirect (set_of (current ++ redirect))
    (set_of (List.filter (fun m => negb (set_has m current)) redirect)).

(** ** status-code-risk-guard.ts *)

Definition NON_REDIRECTABLE_STATUS_CODES : list Z := [504; 524]%Z.

(** [/^[1-5]\d{2}$/] *)
Definition status_code_re : regex :=
  ranch (rseq [RChar (fun c => (49 <=? c) && (c <=? 53))%N; RChar is_digit; RChar is_digit]).

Definition parseStatusCodeKey (rawKey : str) : option Z :=
  let normalized := trim rawKey in
  if negb (rtest status_code_re normalized) then None else Some (Z.of_N (digits_val normalized)).

Definition in_status_range (code : Z) : option Z := if ((100 <=? code) && (code <=? 599))%Z then Some code else None.

Definition parseStatusCodeMappingTarget (rawValue : json) : option Z :=
  match rawValue with
  | JNum n => code ← num_to_Z n; in_status_range code
  | JStr s =>
      let normalized := trim s in
      if negb (rtest status_code_re normalized) then None else in_status_range (Z.of_N (digits_val normalized))
  | _ => None
  end.

Definition status_entries (statusCodeMappingStr : str) : list (str * json) :=
  if negb (truthy (trim statusCodeMappingStr)) then []
  else default [] (parse_object statusCodeMappingStr).

(** The arrow is the character U+2192. *)
Definition collectInvalidStatusCodeEntries (statusCodeMappingStr : str) : list str :=
  omap (fun '(rawKey, rawValue) =>
          match parseStatusCodeKey rawKey, parseStatusCodeMappingTarget rawValue with
          | Some _, Some _ => None
          | _, _ => Some (rawKey ++ js " → " ++ to_String rawValue)
          end) (status_entries statusCodeMappingStr).

Definition risky_redirect (e : str * json) : option str :=
  match parseStatusCodeKey (fst e), parseStatusCodeMappingTarget (snd e) with
  | Some fromCode, Some toCode =>
      if negb (set_has fromCode NON_REDIRECTABLE_STATUS_CODES) then None
      else if (fromCode =? toCode)%Z then None
      else Some (show_Z fromCode ++ js " -> " ++ show_Z toCode)
  | _, _ => None
  end.

Definition collectDisallowedStatusCodeRedirects (statusCodeMappingStr : str) : list str :=
  sort_by unit_compare (set_of (omap risky_redirect (status_entries statusCodeMappingStr))).

Definition collectNewDisallowedStatusCodeRedirects (originalStr currentStr : str) : list str :=
  let currentRisky := collectDisallowedStatusCodeRedirects currentStr in
  if (length currentRisky =? 0)%nat then []
  else
    let originalRiskySet := set_of (collectDisallowedStatusCodeRedirects originalStr) in
    List.filter (fun mapping => negb (set_has mapping originalRiskySet)) currentRisky.

Example risky_ex :
  collectDisallowedStatusCodeRedirects (jsq "{' 524 ': 200, '504': '503', '500': 502, '524': '524', '504 ': true}") =
    [js "504 -> 503"; js "524 -> 200"] /\
  collectInvalidStatusCodeEntries (jsq "{'504': true, '99': 200}") = [js "99 → 200"; js "504 → true"].
Proof. vm_compute. split; reflexivity. Qed.
Example mapping_ex :
  findMissingModelsInMapping (jsq "{' a ': 'b', 'c': 'd', 'a': 1}") [js " c"] = [js "a"] /\
  findExposedTargetModels (jsq "{'a': 'b ', 'c': 'd'}") [js "b"; js "c"] = [js "b"].
Proof. vm_compute. split; reflexivity. Qed.

(** ** Model lists *)

Lemma elem_of_filter_bool {A} (f : A -> bool) l x : x ∈ List.filter f l <-> x ∈ l /\ f x = true.
Proof. rewrite !list_elem_of_In. apply filter_In. Qed.

Lemma filter_NoDup {A} (f : A -> bool) l : NoDup l -> NoDup (List.filter f l).
Proof.
  induction 1 as [|x l Hx _ IH]; cbn; [constructor |]. destruct (f x); [| done].
  constructor; [| done]. rewrite elem_of_filter_bool. tauto.
Qed.

(** A name as the forms keep it: not empty, without a comma and without white space
    around it. *)
Definition clean_name (m : str) : Prop := m <> [] /\ (44%N ∉ m) /\ trimmed m.

Lemma set_of_clean ms : Forall clean_name ms -> Forall clean_name (set_of ms).
Proof. rewrite !Forall_forall. intros H m Hm. by apply H, elem_of_set_of. Qed.

Lemma parse_models_join ms : Forall clean_name ms -> parseModelsString (join (js ",") ms) = ms.
Proof.
  intros H. unfold parseModelsString. destruct ms as [|m ms]; [done |].
  assert (truthy (join (js ",") (m :: ms)) = true) as ->.
  { apply Forall_cons in H as [[Hm _] _]. destruct m as [|c m]; [done |]. by destruct ms. }
  change (js ",") with [44%N]. rewrite split_join; [| done |].
  - assert (map trim (m :: ms) = m :: ms) as ->.
    { induction H as [|x l (_ & _ & Hx) _ IH]; [done |]. cbn [map]. by rewrite IH, (trimmed_trim x Hx). }
    apply filter_truthy_id. eapply Forall_impl; [exact H | by intros x []].
  - eapply Forall_impl; [exact H | by intros x (_ & ? & _)].
Qed.

Lemma parse_models_clean s : Forall clean_name (parseModelsString s).
Proof.
  unfold parseModelsString. destruct (truthy s); [| constructor]. apply Forall_forall. intros m Hm.
  apply elem_of_filter_bool in Hm as [Hm Ht]. apply list_elem_of_fmap in Hm as (p & -> & Hp).
  split_and!; [by apply truthy_true | | apply trim_trimmed]. by apply trim_not_In, split_on_elem with s.
Qed.

(** Printing a list of models and reading it back gives the list without its
    repetitions; in particular a stored text and its printed form denote the same
    models, and printing what was read is idempotent. *)
Theorem models_string_roundtrip s :
  parseModelsString (formatModelsArray (parseModelsString s)) = set_of (parseModelsString s) /\
  (forall ms, Forall clean_name ms -> parseModelsString (formatModelsArray ms) = set_of ms) /\
  formatModelsArray (parseModelsString (formatModelsArray (parseModelsString s))) = formatModelsArray (parseModelsString s).
Proof.
  assert (forall ms, Forall clean_name ms -> parseModelsString (formatModelsArray ms) = set_of ms) as H
    by (intros ms Hms; by apply parse_models_join, set_of_clean).
  pose proof (H _ (parse_models_clean s)) as Hs. split_and!; [done | done |].
  rewrite Hs. unfold formatModelsArray. by rewrite (set_of_id (set_of _)) by apply NoDup_set_of.
Qed.

(** ** Repairing the models of a channel *)

Lemma find_missing_spec mapping models x :
  x ∈ findMissingModelsInMapping mapping models <->
  x <> [] /\ trim mapping <> [] /\ (x ∉ map normalizeModelName models) /\
  exists l k v, parse_object mapping = Some l /\ (k, v) ∈ l /\ x = normalizeModelName k.
Proof.
  unfold findMissingModelsInMapping.
  assert (negb (truthy mapping) || negb (truthy (trim mapping)) = negb (truthy (trim mapping))) as ->.
  { by destruct mapping. }
  destruct (truthy (trim mapping)) eqn:Ht; cbn [negb].
  2: { apply truthy_false in Ht. set_solver. }
  apply truthy_true in Ht. destruct (parse_object mapping) as [l|]; [| naive_solver set_solver].
  rewrite elem_of_set_of, elem_of_filter_bool, andb_true_iff, negb_true_iff, truthy_true.
  rewrite <- not_true_iff_false, set_has_spec, elem_of_set_of, list_elem_of_fmap.
  split.
  - intros (([k v] & -> & Hk) & Hne & Hn). split_and!; [done | done | done |]. by exists l, k, v.
  - intros (Hne & _ & Hn & l' & k & v & [= <-] & Hk & ->). split_and!; [by exists (k, v) | done | done].
Qed.

(** The sources of a model mapping that the check reports are exactly the ones
    missing from the list of models, and adding them to the list silences it. *)
Theorem missing_models_repair mapping models :
  NoDup (findMissingModelsInMapping mapping models) /\
  (forall x, x ∈ findMissingModelsInMapping mapping models <->
     x <> [] /\ trim mapping <> [] /\ (x ∉ map normalizeModelName models) /\
     exists l k v, parse_object mapping = Some l /\ (k, v) ∈ l /\ x = normalizeModelName k) /\
  findMissingModelsInMapping mapping (models ++ findMissingModelsInMapping mapping models) = [].
Proof.
  split_and!.
  - unfold findMissingModelsInMapping. destruct (_ || _); [constructor |].
    destruct (parse_object mapping); [apply NoDup_set_of | constructor].
  - intros x. apply find_missing_spec.
  - apply elem_of_nil_inv. intros x Hx. apply find_missing_spec in Hx as (H1 & H2 & H3 & H4).
    apply H3. rewrite map_app, elem_of_app. destruct (decide (x ∈ map normalizeModelName models)) as [|Hn]; [auto |].
    right. assert (x ∈ findMissingModelsInMapping mapping models) as Hm by (by apply find_missing_spec).
    destruct H4 as (l & k & v & _ & _ & ->). apply list_elem_of_fmap. eexists. split; [| exact Hm].
    unfold normalizeModelName. by rewrite trim_idemp.
Qed.

(** A model is shown as redirect-only exactly if it is a redirect target and not
    in the list of models; the two kinds are disjoint and together the displayed set. *)
Theorem redirect_categories_partition current redirect :
  let c := categorizeModelsWithRedirect current redirect in
  NoDup (classificationSet c) /\
  (forall m, m ∈ redirectOnlySet c <->
     m <> [] /\ m ∈ map normalizeModelName redirect /\ m ∉ map normalizeModelName current) /\
  (forall m, m ∈ classificationSet c <-> m ∈ normalizedCurrentModels c \/ m ∈ redirectOnlySet c) /\
  (forall m, ~ (m ∈ normalizedCurrentModels c /\ m ∈ redirectOnlySet c)).
Proof.
  cbn. unfold not. repeat setoid_rewrite elem_of_set_of. repeat setoid_rewrite elem_of_filter_bool.
  repeat setoid_rewrite elem_of_app. repeat setoid_rewrite elem_of_set_of. repeat setoid_rewrite elem_of_filter_bool.
  repeat setoid_rewrite negb_true_iff. repeat setoid_rewrite <- not_true_iff_false. repeat setoid_rewrite set_has_spec.
  repeat setoid_rewrite elem_of_set_of. repeat setoid_rewrite elem_of_filter_bool. repeat setoid_rewrite truthy_true.
  split_and!; [apply NoDup_set_of | ..]; intros m; try tauto.
  destruct (decide (m ∈ map normalizeModelName current)); tauto.
Qed.

(** ** Redirected status codes *)

Lemma unit_compare_preorder : preorder_cmp unit_compare.
Proof.
  split_and!; [apply unit_compare_refl | | apply unit_compare_trans].
  intros x y. rewrite (unit_compare_opp x y). lia.
Qed.

Lemma status_code_re_range s : rtest status_code_re s = true -> (100 <= Z.of_N (digits_val s) <= 599)%Z.
Proof.
  unfold status_code_re. rewrite rtest_anch. unfold full_caps. destruct s as [|a s]; [done |]. cbn.
  destruct ((49 <=? a) && (a <=? 53))%N eqn:Ha; [| done]. cbn. destruct s as [|b s]; [done |]. cbn.
  destruct (is_digit b) eqn:Hb; [| done]. cbn. destruct s as [|c s]; [done |]. cbn. destruct (is_digit c) eqn:Hc; [| done]. cbn.
  destruct s; [| done]. intros _. unfold is_digit in *. cbn. unfold digit_step. lia.
Qed.

Lemma status_key_range k c : parseStatusCodeKey k = Some c -> (100 <= c <= 599)%Z.
Proof.
  unfold parseStatusCodeKey. destruct (rtest status_code_re (trim k)) eqn:E; [| done]. intros [= <-]. by apply status_code_re_range.
Qed.

Lemma status_target_range v c : parseStatusCodeMappingTarget v = Some c -> (100 <= c <= 599)%Z.
Proof.
  unfold parseStatusCodeMappingTarget, in_status_range. destruct v; try done.
  - destruct (num_to_Z n) as [z|]; [| done]. cbn. destruct (_ && _) eqn:E; [| done]. intros [= <-]. lia.
  - destruct (negb _); [done |]. destruct (_ && _)%Z eqn:E; [| done]. intros [= <-]. lia.
Qed.

Definition risky_codes (from to : Z) : Prop := from ∈ NON_REDIRECTABLE_STATUS_CODES /\ from <> to /\ (100 <= to <= 599)%Z.

Lemma risky_redirect_spec e x :
  risky_redirect e = Some x <->
  exists from to, parseStatusCodeKey (fst e) = Some from /\ parseStatusCodeMappingTarget (snd e) = Some to /\
    risky_codes from to /\ x = show_Z from ++ js " -> " ++ show_Z to.
Proof.
  unfold risky_redirect, risky_codes. destruct (parseStatusCodeKey (fst e)) as [from|]; [| naive_solver].
  destruct (parseStatusCodeMappingTarget (snd e)) as [to|] eqn:Ht; [| naive_solver].
  apply status_target_range in Ht. destruct (set_has from _) eqn:Hf; cbn [negb].
  - apply set_has_spec in Hf. destruct (Z.eqb_spec from to); naive_solver.
  - apply not_true_iff_false in Hf. rewrite set_has_spec in Hf. naive_solver.
Qed.

Lemma disallowed_spec s x :
  x ∈ collectDisallowedStatusCodeRedirects s <->
  exists k v from to, (k, v) ∈ status_entries s /\ parseStatusCodeKey k = Some from /\
    parseStatusCodeMappingTarget v = Some to /\ risky_codes from to /\ x = show_Z from ++ js " -> " ++ show_Z to.
Proof.
  unfold collectDisallowedStatusCodeRedirects. rewrite elem_of_sort_by, elem_of_set_of, list_elem_of_omap.
  setoid_rewrite risky_redirect_spec. split.
  - intros ([k v] & Hk & from & to & H). by exists k, v, from, to.
  - intros (k & v & from & to & Hk & H). exists (k, v). split; [done |]. by exists from, to.
Qed.

(** The guard asks about exactly the redirections of 504 and 524 to another status
    code that the original mapping did not have, each once and in the order of the
    strings, and about nothing when the mapping is unchanged. *)
Theorem new_redirects_spec original current :
  NoDup (collectNewDisallowedStatusCodeRedirects original current) /\
  (forall x, x ∈ collectNewDisallowedStatusCodeRedirects original current <->
     (exists k v from to, (k, v) ∈ status_entries current /\ parseStatusCodeKey k = Some from /\
        parseStatusCodeMappingTarget v = Some to /\ risky_codes from to /\ x = show_Z from ++ js " -> " ++ show_Z to) /\
     x ∉ collectDisallowedStatusCodeRedirects original) /\
  cmp_sorted unit_compare (collectDisallowedStatusCodeRedirects current) /\
  collectNewDisallowedStatusCodeRedirects current current = [].
Proof.
  assert (forall a b x, x ∈ collectNewDisallowedStatusCodeRedirects a b <->
            x ∈ collectDisallowedStatusCodeRedirects b /\ x ∉ collectDisallowedStatusCodeRedirects a) as Hnew.
  { intros a b x. unfold collectNewDisallowedStatusCodeRedirects.
    destruct (collectDisallowedStatusCodeRedirects b) as [|y l] eqn:E; [set_solver |]. cbn [length Nat.eqb].
    rewrite elem_of_filter_bool, negb_true_iff, <- not_true_iff_false, set_has_spec, elem_of_set_of. done. }
  split_and!.
  - unfold collectNewDisallowedStatusCodeRedirects. destruct (_ =? _)%nat; [constructor |]. apply filter_NoDup.
    unfold collectDisallowedStatusCodeRedirects. rewrite sort_by_perm. apply NoDup_set_of.
  - intros x. rewrite Hnew, disallowed_spec. done.
  - apply sort_by_sorted_pre, unit_compare_preorder.
  - apply elem_of_nil_inv. intros x Hx. apply Hnew in Hx. tauto.
Qed.

(** No entry is reported as invalid exactly if every entry maps a status code
    between 100 and 599 to one. *)
Theorem valid_status_mapping_spec s :
  collectInvalidStatusCodeEntries s = [] <->
  Forall (fun e => exists from to, parseStatusCodeKey (fst e) = Some from /\ parseStatusCodeMappingTarget (snd e) = Some to /\
            (100 <= from <= 599 /\ 100 <= to <= 599)%Z) (status_entries s).
Proof.
  unfold collectInvalidStatusCodeEntries. induction (status_entries s) as [|[k v] l IH]; cbn; [by rewrite Forall_nil |].
  rewrite Forall_cons, <- IH. cbn [fst snd]. destruct (parseStatusCodeKey k) as [from|] eqn:Hk; [| naive_solver].
  destruct (parseStatusCodeMappingTarget v) as [to|] eqn:Hv; [| naive_solver].
  apply status_key_range in Hk. apply status_target_range in Hv. naive_solver.
Qed.
