(* ===== verification/PricingFormat.v ===== *)
(** * Model prices: numbers and lanes

    Model of [pricing-format.ts], [model-pricing-core.ts] and of the JSON helpers of
    [models/utils.ts] in [features/system-settings]: how prices and ratios are shown
    and converted, and the rows of the price preview.  A value of type [unknown] is
    an optional JSON value, [None] for [undefined]; the translation function is an
    argument [t]. *)
From S2P Require Import Prelude Number Regex Json JsonPretty BillingExpr.

(** ** pricing-format.ts *)

Definition DISPLAY_DECIMALS : nat := 12.
Definition SNAP_DECIMALS : nat := 8.
Definition SNAP_EPSILON : num := lit "1e-12".
Definition NUMBER_EPSILON : num := lit "2.220446049250313e-16".

Definition toNumberOrNull (value : option json) : option num :=
  match value with
  | None | Some JNull | Some (JBool false) | Some (JStr []) => None
  | Some v => let n := to_Number v in if isFinite n then Some n else None
  end.

Definition roundToDecimals (value : num) (decimals : nat) : num :=
  let factor := n_of_Z (10 ^ Z.of_nat decimals) in
  n_div (math_round (n_mul value factor)) factor.

(** The first rounding within the tolerance, the value itself when there is none. *)
Fixpoint snap_loop (value tolerance : num) (todo : list nat) : num :=
  match todo with
  | [] => value
  | decimals :: todo =>
      let rounded := roundToDecimals value decimals in
      if n_leb (n_abs (n_sub value rounded)) tolerance then rounded else snap_loop value tolerance todo
  end.

Definition snapFloatDrift (value : num) : num :=
  let tolerance := n_max SNAP_EPSILON (n_mul (n_mul (n_abs value) NUMBER_EPSILON) (n_of_Z 8)) in
  snap_loop value tolerance (seq 0 (S SNAP_DECIMALS)).

Definition formatPricingNumber (value : option json) : str :=
  match toNumberOrNull value with
  | None => []
  | Some n => num_to_str (parseFloat (to_fixed (snapFloatDrift n) DISPLAY_DECIMALS))
  end.

Definition format_num (n : num) : str := formatPricingNumber (Some (JNum n)).

Example format_ex :
  map (fun n => format_num n) [n_mul (lit "0.1") (lit "3"); lit "7.000000000000001"; lit "0.000000001234"; n_div (lit "10") (lit "3"); lit "1e22"] =
  map js ["0.3"; "7"; "1.234e-9"; "3.333333333333"; "1e+22"]%string.
Proof. vm_compute. reflexivity. Qed.

(** ** models/utils.ts *)

Definition formatJsonForTextarea (value : str) : str :=
  if negb (truthy value) || negb (truthy (trim value)) then []
  else match JSON_parse value with Some parsed => JSON_pretty parsed | None => value end.

Definition normalizeJsonString (value : str) : str :=
  let trimmed := trim value in
  if negb (truthy trimmed) then []
  else match JSON_parse trimmed with Some parsed => JSON_stringify parsed | None => trimmed end.

(** The verdict of [validateJsonString]; the text and the position of a syntax error
    are the engine's. *)
Inductive JsonVerdict := VerdictValid | VerdictRequired | VerdictStructure (message : str) | VerdictSyntax.

Definition validateJsonString (allowEmpty : bool) (predicate : option (json -> bool)) (predicateMessage : str) (value : str) : JsonVerdict :=
  let trimmed := trim value in
  if negb (truthy trimmed) then if allowEmpty then VerdictValid else VerdictRequired
  else
    match JSON_parse trimmed with
    | None => VerdictSyntax
    | Some parsed =>
        match predicate with
        | Some p => if negb (p parsed) then VerdictStructure (str_or predicateMessage (js "JSON structure is invalid")) else VerdictValid
        | None => VerdictValid
        end
    end.

(** ** model-pricing-core.ts *)

Inductive PricingMode := PerToken | PerRequest | TieredExpr.
#[global] Instance PricingMode_eq_dec : EqDecision PricingMode.
Proof. solve_decision. Defined.
Definition mode_text (m : PricingMode) : str :=
  match m with PerToken => js "per-token" | PerRequest => js "per-request" | TieredExpr => js "tiered_expr" end.

Inductive LaneKey := Completion | Cache | CreateCache | Image | AudioInput | AudioOutput.
#[global] Instance LaneKey_eq_dec : EqDecision LaneKey.
Proof. solve_decision. Defined.

(** [Record<LaneKey, A>]. *)
Record Lanes (A : Type) := mkLanes {
  l_completion : A; l_cache : A; l_createCache : A; l_image : A; l_audioInput : A; l_audioOutput : A
}.
Arguments mkLanes {A}.
Arguments l_completion {A}.
Arguments l_cache {A}.
Arguments l_createCache {A}.
Arguments l_image {A}.
Arguments l_audioInput {A}.
Arguments l_audioOutput {A}.

Definition lane_get {A} (k : LaneKey) (l : Lanes A) : A :=
  match k with
  | Completion => l_completion l | Cache => l_cache l | CreateCache => l_createCache l
  | Image => l_image l | AudioInput => l_audioInput l | AudioOutput => l_audioOutput l
  end.
Definition lane_make {A} (f : LaneKey -> A) : Lanes A :=
  mkLanes (f Completion) (f Cache) (f CreateCache) (f Image) (f AudioInput) (f AudioOutput).
(** [{ ...l, [k]: v }]. *)
Definition lane_set {A} (k : LaneKey) (v : A) (l : Lanes A) : Lanes A :=
  lane_make (fun k' => if decide (k' = k) then v else lane_get k' l).

(** The eight settings of a model that are numbers.  The sources repeat the same
    step for each of them; here the record is over the type of the setting. *)
Inductive PriceField := Price | Ratio | CacheRatio | CreateCacheRatio | CompletionRatio | ImageRatio | AudioRatio | AudioCompletionRatio.
#[global] Instance PriceField_eq_dec : EqDecision PriceField.
Proof. solve_decision. Defined.
Definition price_fields : list PriceField :=
  [Price; Ratio; CacheRatio; CreateCacheRatio; CompletionRatio; ImageRatio; AudioRatio; AudioCompletionRatio].

Record Pricing (A : Type) := mkPricing {
  price : A; ratio : A; cacheRatio : A; createCacheRatio : A;
  completionRatio : A; imageRatio : A; audioRatio : A; audioCompletionRatio : A
}.
Arguments mkPricing {A}.
Arguments price {A}.
Arguments ratio {A}.
Arguments cacheRatio {A}.
Arguments createCacheRatio {A}.
Arguments completionRatio {A}.
Arguments imageRatio {A}.
Arguments audioRatio {A}.
Arguments audioCompletionRatio {A}.

Definition pget {A} (f : PriceField) (p : Pricing A) : A :=
  match f with
  | Price => price p | Ratio => ratio p | CacheRatio => cacheRatio p | CreateCacheRatio => createCacheRatio p
  | CompletionRatio => completionRatio p | ImageRatio => imageRatio p | AudioRatio => audioRatio p
  | AudioCompletionRatio => audioCompletionRatio p
  end.
Definition pmake {A} (g : PriceField -> A) : Pricing A :=
  mkPricing (g Price) (g Ratio) (g CacheRatio) (g CreateCacheRatio) (g CompletionRatio) (g ImageRatio) (g AudioRatio)
    (g AudioCompletionRatio).
Definition pset {A} (f : PriceField) (v : A) (p : Pricing A) : Pricing A :=
  pmake (fun g => if decide (g = f) then v else pget g p).
Definition pmap {A B} (h : A -> B) (p : Pricing A) : Pricing B := pmake (fun f => h (pget f p)).

Record ModelPricingFormValues := mkForm { fv_name : str; fv_pricing : Pricing str }.

Record ModelRatioData := mkData {
  d_name : str;
  d_pricing : Pricing (option str);
  d_billingMode : option PricingMode;
  d_billingExpr : option str;
  d_requestRuleExpr : option str
}.

Definition numericDraftRegex : regex :=
  ranch (ROpt (RAlt (RSeq (RPlus (RChar is_digit)) (ROpt (RSeq (rlit (js ".")) (RStar (RChar is_digit)))))
                    (RSeq (rlit (js ".")) (RStar (RChar is_digit))))).

Example numericDraft_ex :
  map (fun s => rtest numericDraftRegex (js s)) ["3"; "3."; "3.25"; ".5"; "."; "1e3"; "-1"; "1.2.3"; " 1"]%string =
  [true; true; true; true; true; false; false; false; false].
Proof. vm_compute. reflexivity. Qed.

Definition EMPTY_LANE_PRICES : Lanes str := lane_make (fun _ => []).
Definition EMPTY_LANE_ENABLED : Lanes bool := lane_make (fun _ => false).

Definition ratioFieldByLane (k : LaneKey) : PriceField :=
  match k with
  | Completion => CompletionRatio | Cache => CacheRatio | CreateCache => CreateCacheRatio | Image => ImageRatio
  | AudioInput => AudioRatio | AudioOutput => AudioCompletionRatio
  end.

(** The keys of [laneConfigs], in order. *)
Definition laneConfigs : list LaneKey := [Completion; Cache; CreateCache; Image; AudioInput; AudioOutput].

Definition hasValue (value : option json) : bool :=
  match value with
  | None | Some JNull | Some (JBool false) | Some (JStr []) => false
  | _ => true
  end.
(** Arguments that are strings, possibly undefined. *)
Definition text (s : str) : option json := Some (JStr s).
Definition opt_text (s : option str) : option json := option_map JStr s.

Definition core_toNumberOrNull (value : option json) : option num :=
  let is_zero := match value with Some (JNum n) => n_eqb n n_zero | _ => false end in
  if negb (hasValue value) && negb is_zero then None
  else let n := match value with Some v => to_Number v | None => n_nan end in
       if isFinite n then Some n else None.

Definition ratioToBasePrice (ratio : option json) : str :=
  match core_toNumberOrNull ratio with
  | None => []
  | Some n => format_num (n_mul n (n_of_Z 2))
  end.

Definition deriveLanePrice (ratio denominator : option json) (fallback : str) : str :=
  match core_toNumberOrNull ratio, core_toNumberOrNull denominator with
  | Some r, Some d => format_num (n_mul r d)
  | _, _ => fallback
  end.

Record LaneState := mkLaneState { ls_promptPrice : str; ls_prices : Lanes str; ls_enabled : Lanes bool }.

Definition createInitialLaneState (data : option ModelRatioData) : LaneState :=
  match data with
  | None => mkLaneState [] EMPTY_LANE_PRICES EMPTY_LANE_ENABLED
  | Some data =>
      let d := d_pricing data in
      let promptPrice := ratioToBasePrice (opt_text (ratio d)) in
      let audioInputPrice := deriveLanePrice (opt_text (audioRatio d)) (text promptPrice) [] in
      mkLaneState promptPrice
        (mkLanes (deriveLanePrice (opt_text (completionRatio d)) (text promptPrice) [])
           (deriveLanePrice (opt_text (cacheRatio d)) (text promptPrice) [])
           (deriveLanePrice (opt_text (createCacheRatio d)) (text promptPrice) [])
           (deriveLanePrice (opt_text (imageRatio d)) (text promptPrice) [])
           audioInputPrice
           (deriveLanePrice (opt_text (audioCompletionRatio d)) (text audioInputPrice) []))
        (mkLanes (hasValue (opt_text (completionRatio d))) (hasValue (opt_text (cacheRatio d)))
           (hasValue (opt_text (createCacheRatio d))) (hasValue (opt_text (imageRatio d)))
           (hasValue (opt_text (audioRatio d))) (hasValue (opt_text (audioCompletionRatio d))))
  end.

Record PreviewRow := mkPreview { pr_key : str; pr_label : str; pr_value : str; pr_multiline : bool }.

Section Preview.
Variable t : str -> str.

Definition lane_preview (lanePrices : Lanes str) (laneEnabled : Lanes bool) (k : LaneKey) : str :=
  if lane_get k laneEnabled && truthy (lane_get k lanePrices) then js "$" ++ lane_get k lanePrices else t (js "Empty").

Definition buildPreviewRows (values : ModelPricingFormValues) (mode : PricingMode) (billingExpr requestRuleExpr promptPrice : str)
  (lanePrices : Lanes str) (laneEnabled : Lanes bool) : list PreviewRow :=
  match mode with
  | TieredExpr =>
      let effectiveExpr := combineBillingExpr billingExpr requestRuleExpr in
      [mkPreview (js "mode") (js "BillingMode") (js "tiered_expr") false;
       mkPreview (js "expr") (t (js "Expression")) (str_or effectiveExpr (t (js "Empty"))) true]
  | PerRequest => [mkPreview (js "price") (js "ModelPrice") (str_or (price (fv_pricing values)) (t (js "Empty"))) false]
  | PerToken =>
      let lane := lane_preview lanePrices laneEnabled in
      [mkPreview (js "inputPrice") (t (js "Input price")) (if truthy promptPrice then js "$" ++ promptPrice else t (js "Empty")) false;
       mkPreview (js "completion") (t (js "Completion price")) (lane Completion) false;
       mkPreview (js "cache") (t (js "Cache read price")) (lane Cache) false;
       mkPreview (js "createCache") (t (js "Cache write price")) (lane CreateCache) false;
       mkPreview (js "image") (t (js "Image input price")) (lane Image) false;
       mkPreview (js "audio") (t (js "Audio input price")) (lane AudioInput) false;
       mkPreview (js "audioCompletion") (t (js "Audio output price")) (lane AudioOutput) false]
  end.
End Preview.
