(* ===== verification/PricingSnapshots.v ===== *)
(** * Model prices: snapshots and rows

    Model of [model-pricing-snapshots.ts] and of the rows of
    [model-ratio-visual-editor.tsx]: the ten setting texts are read as JSON objects
    from model name to value, a snapshot collects what they say about one model, and
    a row compares the saved snapshot of a model with its draft.

    The maps are JSON objects, as the settings are; a text that denotes something
    else, and model names that are members of [Object.prototype], are outside the
    model. *)
From S2P Require Import Prelude Number Regex Json JsonPretty JsonObject BillingExpr PricingFormat.

Record ModelPricingSnapshotInput := mkInput {
  in_pricing : Pricing str;
  in_billingMode : str;
  in_billingExpr : str
}.

Record ModelPricingSnapshot := mkSnapshot {
  s_name : str;
  s_pricing : Pricing (option str);
  s_billingMode : option str;
  s_billingExpr : option str;
  s_requestRuleExpr : option str;
  s_hasConflict : bool
}.

Definition hasPricingValue (value : option str) : bool :=
  match value with Some s => truthy s | None => false end.

Definition snap_toNumberOrNull (value : option str) : option num :=
  if negb (hasPricingValue value) then None
  else let n := num_of_str (default [] value) in if isFinite n then Some n else None.

Definition ratioToPrice (ratio denominator : option str) : str :=
  let denominatorNumber :=
    if hasPricingValue denominator then snap_toNumberOrNull denominator else Some (n_of_Z 2) in
  match snap_toNumberOrNull ratio, denominatorNumber with
  | Some r, Some d => format_num (n_mul r d)
  | _, _ => []
  end.

Definition is_mode (m : PricingMode) (mode : option str) : bool := bool_decide (mode = Some (mode_text m)).

Definition getModeLabel (mode : option str) : str :=
  if is_mode PerRequest mode then js "Per-request"
  else if is_mode TieredExpr mode then js "Expression" else js "Per-token".

Definition getModeVariant (mode : option str) : str :=
  if is_mode PerRequest mode then js "warning"
  else if is_mode TieredExpr mode then js "info" else js "success".

Section Summary.
Variable t : str -> str.

(** Matches of [/tier\(/g]. *)
Fixpoint count_tiers (s : str) : nat :=
  match s with
  | [] => 0
  | _ :: r => (if starts_with s (js "tier(") then 1 else 0) + count_tiers r
  end%nat.

Definition show_nat (n : nat) : str := show_N (N.of_nat n).

Definition getExpressionSummary (row : ModelPricingSnapshot) : str :=
  let tierCount := count_tiers (default [] (s_billingExpr row)) in
  if (0 <? tierCount)%nat
  then t (js "Tiered pricing") ++ js " · " ++ show_nat tierCount ++ js " " ++ t (js "tiers")
  else t (js "Expression pricing").

Definition getPriceSummary (row : ModelPricingSnapshot) : str :=
  let p := s_pricing row in
  if is_mode TieredExpr (s_billingMode row) then getExpressionSummary row
  else if is_mode PerRequest (s_billingMode row) then
    if hasPricingValue (price p) then js "$" ++ default [] (price p) ++ js " / " ++ t (js "request") else t (js "Unset price")
  else
    let inputPrice := ratioToPrice (ratio p) None in
    if negb (truthy inputPrice) then t (js "Unset price")
    else
      let extraCount := length (List.filter hasPricingValue
        [completionRatio p; cacheRatio p; createCacheRatio p; imageRatio p; audioRatio p; audioCompletionRatio p]) in
      if (0 <? extraCount)%nat
      then t (js "Input") ++ js " $" ++ inputPrice ++ js " · " ++ show_nat extraCount ++ js " " ++ t (js "extras")
      else t (js "Input") ++ js " $" ++ inputPrice.

Definition getPriceDetail (row : ModelPricingSnapshot) : str :=
  let p := s_pricing row in
  if is_mode TieredExpr (s_billingMode row) then
    if hasPricingValue (s_requestRuleExpr row) then t (js "Includes request rules") else t (js "Expression based")
  else if is_mode PerRequest (s_billingMode row) then t (js "Fixed request price")
  else
    let inputPrice := ratioToPrice (ratio p) None in
    if negb (truthy inputPrice) then t (js "No base input price")
    else
      let detail (label : str) (r : option str) :=
        if hasPricingValue r then [t label ++ js " $" ++ ratioToPrice r (Some inputPrice)] else [] in
      let details := take 2 (detail (js "Output") (completionRatio p) ++ detail (js "Cache") (cacheRatio p) ++
                             detail (js "Cache write") (createCacheRatio p)) in
      if (0 <? length details)%nat then join (js " · ") details else t (js "Base input price only").
End Summary.

(** ** Reading the settings *)

(** The object a setting denotes, the empty one when it is blank or no JSON text. *)
Definition parse_map (s : str) : option entries :=
  match safeJsonParse (Some s) (JObj []) with JObj l => Some l | _ => None end.

Record PriceMaps := mkMaps { m_pricing : Pricing entries; m_billingMode : entries; m_billingExpr : entries }.

Definition read_maps (i : ModelPricingSnapshotInput) : option PriceMaps :=
  let p := in_pricing i in
  priceMap ← parse_map (price p); ratioMap ← parse_map (ratio p); cacheMap ← parse_map (cacheRatio p);
  createCacheMap ← parse_map (createCacheRatio p); completionMap ← parse_map (completionRatio p);
  imageMap ← parse_map (imageRatio p); audioMap ← parse_map (audioRatio p);
  audioCompletionMap ← parse_map (audioCompletionRatio p);
  billingModeMap ← parse_map (in_billingMode i); billingExprMap ← parse_map (in_billingExpr i);
  Some (mkMaps (mkPricing priceMap ratioMap cacheMap createCacheMap completionMap imageMap audioMap audioCompletionMap)
          billingModeMap billingExprMap).

Definition keys_of (m : entries) : list str := map fst m.

Definition modelNames (m : PriceMaps) : list str :=
  set_of (concat (map (fun f => keys_of (pget f (m_pricing m)))
                    [Price; Ratio; CacheRatio; CreateCacheRatio; CompletionRatio; ImageRatio; AudioRatio; AudioCompletionRatio])
          ++ keys_of (m_billingMode m) ++ keys_of (m_billingExpr m)).

(** [map[name]?.toString() || '']. *)
Definition shown_value (v : option json) : str :=
  match v with None | Some JNull => [] | Some v => to_String v end.

(** [map[name] || ''] handed to a string function: [None] when it is a truthy value
    that is not a string. *)
Definition string_or_empty (v : option json) : option str :=
  match v with
  | None | Some JNull | Some (JBool false) => Some []
  | Some (JStr s) => Some s
  | Some (JNum n) => if n_truthy n then None else Some []
  | Some _ => None
  end.

(** [v === s] for a string [s]. *)
Definition is_the_string (s : str) (v : option json) : bool :=
  match v with Some (JStr u) => str_eqb u s | _ => false end.

(** What the settings say about one model: the callback of the [map]. *)
Definition snapshot_of (m : PriceMaps) (name : str) : outcome ModelPricingSnapshot :=
  let p := pmap (fun l => shown_value (map_get name l)) (m_pricing m) in
  if is_the_string (mode_text TieredExpr) (map_get name (m_billingMode m)) then
    match string_or_empty (map_get name (m_billingExpr m)) with
    | None => Throws
    | Some fullExpr =>
        outcome_bind (splitBillingExprAndRequestRules fullExpr) (fun s =>
        Found (mkSnapshot name (pmap Some p) (Some (mode_text TieredExpr)) (Some (sp_billingExpr s)) (Some (sp_requestRuleExpr s)) false))
    end
  else
    Found (mkSnapshot name (pmap Some p) (Some (if truthy (price p) then mode_text PerRequest else mode_text PerToken)) None None
      (truthy (price p) &&
       (truthy (ratio p) || truthy (completionRatio p) || truthy (cacheRatio p) || truthy (createCacheRatio p) ||
        truthy (imageRatio p) || truthy (audioRatio p) || truthy (audioCompletionRatio p)))).

(** [Null] when a text is outside the model, [Throws] for an exception. *)
Definition buildModelSnapshots (i : ModelPricingSnapshotInput) : outcome (list ModelPricingSnapshot) :=
  match read_maps i with
  | None => Null
  | Some m => outcome_map (snapshot_of m) (modelNames m)
  end.

Definition opt_or_empty (s : option str) : str := opt_str_or s [].

Definition signature_json (s : ModelPricingSnapshot) : json :=
  let p := s_pricing s in
  JObj [(js "price", JStr (opt_or_empty (price p))); (js "ratio", JStr (opt_or_empty (ratio p)));
        (js "cacheRatio", JStr (opt_or_empty (cacheRatio p))); (js "createCacheRatio", JStr (opt_or_empty (createCacheRatio p)));
        (js "completionRatio", JStr (opt_or_empty (completionRatio p))); (js "imageRatio", JStr (opt_or_empty (imageRatio p)));
        (js "audioRatio", JStr (opt_or_empty (audioRatio p)));
        (js "audioCompletionRatio", JStr (opt_or_empty (audioCompletionRatio p)));
        (js "billingMode", JStr (opt_str_or (s_billingMode s) (js "per-token")));
        (js "billingExpr", JStr (opt_or_empty (s_billingExpr s)));
        (js "requestRuleExpr", JStr (opt_or_empty (s_requestRuleExpr s)))].

Definition getSnapshotSignature (snapshot : option ModelPricingSnapshot) : str :=
  match snapshot with None => [] | Some s => JSON_stringify (signature_json s) end.

(** ** Rows of the visual editor *)

Record ModelRow := mkRow {
  r_displayed : ModelPricingSnapshot;
  r_saved : option ModelPricingSnapshot;
  r_draft : option ModelPricingSnapshot;
  r_isDraftChanged : bool;
  r_isDraftDeleted : bool;
  r_isDraftNew : bool
}.

Definition by_name (rows : list ModelPricingSnapshot) : list (str * ModelPricingSnapshot) :=
  foldl (fun m row => map_set (s_name row) row m) [] rows.

Definition is_Some_b {A} (x : option A) : bool := match x with Some _ => true | None => false end.

Definition row_of (savedByName draftByName : list (str * ModelPricingSnapshot)) (name : str) : option ModelRow :=
  let saved := map_get name savedByName in
  let draft := map_get name draftByName in
  displayed ← (match saved with Some s => Some s | None => draft end);
  Some (mkRow displayed saved draft
    (negb (str_eqb (getSnapshotSignature saved) (getSnapshotSignature draft)))
    (is_Some_b saved && negb (is_Some_b draft)) (negb (is_Some_b saved) && is_Some_b draft)).

Section Rows.
Context {coll : Collation}.

Definition compare_rows (a b : ModelRow) : Z := localeCompare (s_name (r_displayed a)) (s_name (r_displayed b)).

Definition model_rows (savedRows draftRows : list ModelPricingSnapshot) : list ModelRow :=
  let savedByName := by_name savedRows in
  let draftByName := by_name draftRows in
  let names := set_of (map fst savedByName ++ map fst draftByName) in
  sort_by compare_rows (List.filter (fun row => negb (r_isDraftDeleted row)) (omap (row_of savedByName draftByName) names)).

Definition models (saved draft : ModelPricingSnapshotInput) : outcome (list ModelRow) :=
  outcome_bind (buildModelSnapshots saved) (fun savedRows =>
  outcome_bind (buildModelSnapshots draft) (fun draftRows =>
  Found (model_rows savedRows draftRows))).
End Rows.

Record ModeCounts := mkCounts { c_perToken : nat; c_perRequest : nat; c_tiered : nat }.

Definition modeCounts (models : list ModelRow) : ModeCounts :=
  foldl (fun acc model =>
    let mode := s_billingMode (r_displayed model) in
    if is_mode PerRequest mode then mkCounts (c_perToken acc) (S (c_perRequest acc)) (c_tiered acc)
    else if is_mode TieredExpr mode then mkCounts (c_perToken acc) (c_perRequest acc) (S (c_tiered acc))
    else mkCounts (S (c_perToken acc)) (c_perRequest acc) (c_tiered acc)) (mkCounts 0 0 0) models.
