(* ===== verification/PricingEditor.v ===== *)
(** * Model prices: the editor

    Model of [ModelPricingEditorPanel] ([model-pricing-sheet.tsx]), of the handlers of
    [ModelRatioVisualEditor] ([model-ratio-visual-editor.tsx]), of the form around it
    ([model-ratio-form.tsx]) and of the save in [ratio-settings-card.tsx].  The
    states that React keeps are records; a handler reads the state of the last
    render, so a handler is a function of the state.  The desktop layout is
    modelled: the sheet that mobile clients open shows the same panel. *)
From S2P Require Import Prelude Number Regex Json JsonPretty JsonObject BillingExpr PricingFormat PricingSnapshots.

(** ** The panel *)

Record Panel := mkPanel {
  pricingMode : PricingMode;
  promptPrice : str;
  lanePrices : Lanes str;
  laneEnabled : Lanes bool;
  billingExpr : str;
  requestRuleExpr : str;
  editorReloadToken : nat;
  form : ModelPricingFormValues
}.

Definition empty_form : ModelPricingFormValues := mkForm [] (pmake (fun _ => [])).

Definition initial_panel : Panel :=
  mkPanel PerToken [] EMPTY_LANE_PRICES EMPTY_LANE_ENABLED [] [] 0 empty_form.

Definition data_mode (data : ModelRatioData) : PricingMode :=
  if bool_decide (d_billingMode data = Some TieredExpr) then TieredExpr
  else if truthy (opt_or_empty (price (d_pricing data))) then PerRequest else PerToken.

(** The effect that runs when the panel mounts and when [editData] changes. *)
Definition load_data (editData : option ModelRatioData) (p : Panel) : Panel :=
  let next := createInitialLaneState editData in
  let token := S (editorReloadToken p) in
  match editData with
  | Some data =>
      mkPanel (data_mode data) (ls_promptPrice next) (ls_prices next) (ls_enabled next)
        (opt_or_empty (d_billingExpr data)) (opt_or_empty (d_requestRuleExpr data)) token
        (mkForm (d_name data) (pmap opt_or_empty (d_pricing data)))
  | None =>
      mkPanel PerToken (ls_promptPrice next) (ls_prices next) (ls_enabled next) [] [] token empty_form
  end.

Definition with_form (p : Panel) (f : ModelPricingFormValues) : Panel :=
  mkPanel (pricingMode p) (promptPrice p) (lanePrices p) (laneEnabled p) (billingExpr p) (requestRuleExpr p)
    (editorReloadToken p) f.
Definition with_prompt (p : Panel) (v : str) : Panel :=
  mkPanel (pricingMode p) v (lanePrices p) (laneEnabled p) (billingExpr p) (requestRuleExpr p) (editorReloadToken p) (form p).
Definition with_lanes (p : Panel) (prices : Lanes str) (enabled : Lanes bool) : Panel :=
  mkPanel (pricingMode p) (promptPrice p) prices enabled (billingExpr p) (requestRuleExpr p) (editorReloadToken p) (form p).

Definition setFormValue (field : PriceField) (value : str) (f : ModelPricingFormValues) : ModelPricingFormValues :=
  mkForm (fv_name f) (pset field value (fv_pricing f)).

Definition deriveLaneRatio (lane : LaneKey) (price nextPromptPrice : str) (nextLanePrices : Lanes str) : str :=
  match core_toNumberOrNull (text price) with
  | None => []
  | Some priceNumber =>
      let divide (denominator : str) :=
        match core_toNumberOrNull (text denominator) with
        | None => []
        | Some d => if n_eqb d n_zero then [] else format_num (n_div priceNumber d)
        end in
      match lane with
      | AudioOutput => divide (l_audioInput nextLanePrices)
      | _ => divide nextPromptPrice
      end
  end.

(** The base ratio for an input price. *)
Definition base_ratio (nextPromptPrice : str) : str :=
  match core_toNumberOrNull (text nextPromptPrice) with
  | Some inputPrice => format_num (n_div inputPrice (n_of_Z 2))
  | None => []
  end.

Definition syncLaneRatios (nextPromptPrice : str) (nextLanePrices : Lanes str) (nextLaneEnabled : Lanes bool)
  (f : ModelPricingFormValues) : ModelPricingFormValues :=
  foldl (fun f key =>
    setFormValue (ratioFieldByLane key)
      (if negb (lane_get key nextLaneEnabled) then []
       else deriveLaneRatio key (lane_get key nextLanePrices) nextPromptPrice nextLanePrices) f)
    (setFormValue Ratio (base_ratio nextPromptPrice) f) laneConfigs.

Definition handlePromptPriceChange (value : str) (p : Panel) : Panel :=
  if negb (rtest numericDraftRegex value) then p
  else with_form (with_prompt p value) (syncLaneRatios value (lanePrices p) (laneEnabled p) (form p)).

Definition handleLanePriceChange (lane : LaneKey) (value : str) (p : Panel) : Panel :=
  if negb (rtest numericDraftRegex value) then p
  else
    let nextLanePrices := lane_set lane value (lanePrices p) in
    let f1 := if lane_get lane (laneEnabled p)
              then setFormValue (ratioFieldByLane lane) (deriveLaneRatio lane value (promptPrice p) nextLanePrices) (form p)
              else form p in
    let f2 := if bool_decide (lane = AudioInput) && l_audioOutput (laneEnabled p)
              then setFormValue AudioCompletionRatio
                     (deriveLaneRatio AudioOutput (l_audioOutput nextLanePrices) (promptPrice p) nextLanePrices) f1
              else f1 in
    with_form (with_lanes p nextLanePrices (laneEnabled p)) f2.

Definition handleLaneToggle (lane : LaneKey) (checked : bool) (p : Panel) : Panel :=
  let nextEnabled := lane_set lane checked (laneEnabled p) in
  if checked then
    with_form (with_lanes p (lanePrices p) nextEnabled)
      (setFormValue (ratioFieldByLane lane)
         (deriveLaneRatio lane (lane_get lane (lanePrices p)) (promptPrice p) (lanePrices p)) (form p))
  else
    let nextPrices := lane_set lane [] (lanePrices p) in
    let f := setFormValue (ratioFieldByLane lane) [] (form p) in
    match lane with
    | AudioInput =>
        with_form (with_lanes p (lane_set AudioOutput [] nextPrices) (lane_set AudioOutput false nextEnabled))
          (setFormValue AudioCompletionRatio [] f)
    | _ => with_form (with_lanes p nextPrices nextEnabled) f
    end.

Definition handleModeChange (nextMode : PricingMode) (p : Panel) : Panel :=
  let expr := if bool_decide (nextMode = TieredExpr) && negb (truthy (billingExpr p))
              then jsq "tier('base', p * 0 + c * 0)" else billingExpr p in
  mkPanel nextMode (promptPrice p) (lanePrices p) (laneEnabled p) expr (requestRuleExpr p) (editorReloadToken p) (form p).

(** The fields of the form that are edited directly: the name and the fixed price. *)
Definition handleNameChange (value : str) (p : Panel) : Panel :=
  with_form p (mkForm value (fv_pricing (form p))).
Definition handlePriceChange (value : str) (p : Panel) : Panel :=
  if rtest numericDraftRegex value then with_form p (setFormValue Price value (form p)) else p.
(** What the expression editor reports. *)
Definition setBillingExpr (value : str) (p : Panel) : Panel :=
  mkPanel (pricingMode p) (promptPrice p) (lanePrices p) (laneEnabled p) value (requestRuleExpr p) (editorReloadToken p) (form p).
Definition setRequestRuleExpr (value : str) (p : Panel) : Panel :=
  mkPanel (pricingMode p) (promptPrice p) (lanePrices p) (laneEnabled p) (billingExpr p) value (editorReloadToken p) (form p).

(** Prices that depend on an input price that is not there. *)
Definition input_price_missing (p : Panel) : bool :=
  bool_decide (pricingMode p = PerToken) &&
  match core_toNumberOrNull (text (promptPrice p)) with None => true | Some _ => false end &&
  existsb (fun key => lane_get key (laneEnabled p) && hasValue (text (lane_get key (lanePrices p)))) laneConfigs.
Definition audio_input_missing (p : Panel) : bool :=
  bool_decide (pricingMode p = PerToken) && l_audioOutput (laneEnabled p) &&
  negb (hasValue (text (l_audioInput (lanePrices p)))).

Definition CONFLICT_WARNING : str :=
  js "This model has both fixed-price and token-price settings. Saving the current mode will rewrite the conflicting fields.".
Definition INPUT_PRICE_WARNING : str := js "Input price is required before saving dependent prices.".
Definition AUDIO_WARNING : str := js "Audio output price requires an audio input price.".

Definition data_conflict (editData : option ModelRatioData) : bool :=
  match editData with
  | None => false
  | Some data =>
      let d := d_pricing data in
      truthy (opt_or_empty (price d)) &&
      existsb (fun v => hasValue (opt_text v))
        [ratio d; completionRatio d; cacheRatio d; createCacheRatio d; imageRatio d; audioRatio d; audioCompletionRatio d]
  end.

Definition warnings (t : str -> str) (editData : option ModelRatioData) (p : Panel) : list str :=
  (if data_conflict editData then [t CONFLICT_WARNING] else []) ++
  (if input_price_missing p then [t INPUT_PRICE_WARNING] else []) ++
  (if audio_input_missing p then [t AUDIO_WARNING] else []).

(** [Some error] with the field and the message it gets. *)
Definition validatePricingValues (p : Panel) : option (PriceField * str) :=
  if input_price_missing p then Some (Ratio, INPUT_PRICE_WARNING)
  else if audio_input_missing p then Some (AudioRatio, AUDIO_WARNING)
  else None.

Definition buildSubmitData (p : Panel) : ModelRatioData :=
  let values := form p in
  mkData (trim (fv_name values)) (pmap Some (fv_pricing values)) (Some (pricingMode p))
    (if bool_decide (pricingMode p = TieredExpr) then Some (billingExpr p) else None)
    (if bool_decide (pricingMode p = TieredExpr) then Some (requestRuleExpr p) else None).

(** The schema asks for a name that is not empty. *)
Definition commitDraft (p : Panel) : option ModelRatioData :=
  if negb (truthy (fv_name (form p))) then None
  else match validatePricingValues p with Some _ => None | None => Some (buildSubmitData p) end.

(** ** The visual editor *)

Record Editor := mkEditor {
  e_draft : ModelPricingSnapshotInput;
  e_editData : option ModelRatioData;
  e_editorOpen : bool;
  e_panel : Panel
}.

Definition print_maps (m : PriceMaps) : ModelPricingSnapshotInput :=
  mkInput (pmap (fun l => JSON_pretty (JObj l)) (m_pricing m)) (JSON_pretty (JObj (m_billingMode m)))
    (JSON_pretty (JObj (m_billingExpr m))).

(** [delete] of a name in each of the ten maps. *)
Definition forget_model (name : str) (m : PriceMaps) : PriceMaps :=
  mkMaps (pmap (obj_delete name) (m_pricing m)) (obj_delete name (m_billingMode m)) (obj_delete name (m_billingExpr m)).

Definition setIfPresent (name : str) (value : option str) (target : entries) : entries :=
  if negb (truthy (opt_or_empty value)) then target
  else let parsed := parseFloat (opt_or_empty value) in
       if isFinite parsed then obj_set name (JNum parsed) target else target.

(** The fields that are written, in the order of the calls. *)
Definition set_fields (fields : list PriceField) (name : str) (d : Pricing (option str)) (m : Pricing entries) : Pricing entries :=
  foldl (fun m f => pset f (setIfPresent name (pget f d) (pget f m)) m) m fields.

Definition ratio_fields : list PriceField :=
  [Ratio; CacheRatio; CreateCacheRatio; CompletionRatio; ImageRatio; AudioRatio; AudioCompletionRatio].

Definition store_model (data : ModelRatioData) (m : PriceMaps) (name : str) : PriceMaps :=
  let m := forget_model name m in
  let d := d_pricing data in
  if bool_decide (d_billingMode data = Some TieredExpr) then
    let combined := combineBillingExpr (opt_or_empty (d_billingExpr data)) (opt_or_empty (d_requestRuleExpr data)) in
    mkMaps (set_fields (Price :: ratio_fields) name d (m_pricing m))
      (if truthy combined then obj_set name (JStr (mode_text TieredExpr)) (m_billingMode m) else m_billingMode m)
      (if truthy combined then obj_set name (JStr combined) (m_billingExpr m) else m_billingExpr m)
  else if truthy (opt_or_empty (price d)) then
    mkMaps (set_fields [Price] name d (m_pricing m)) (m_billingMode m) (m_billingExpr m)
  else
    mkMaps (set_fields ratio_fields name d (m_pricing m)) (m_billingMode m) (m_billingExpr m).

(** The new texts of the ten settings; [None] when a text is outside the model. *)
Definition persistPricingData (data : ModelRatioData) (targetNames : list str) (draft : ModelPricingSnapshotInput) :
  option ModelPricingSnapshotInput :=
  m ← read_maps draft;
  Some (print_maps (foldl (store_model data) m targetNames)).

Definition delete_model (name : str) (draft : ModelPricingSnapshotInput) : option ModelPricingSnapshotInput :=
  m ← read_maps draft; Some (print_maps (forget_model name m)).

(** [setEditData] with the effect of the panel: it runs when the panel mounts and when
    the reference changes, which [null] to [null] does not. *)
Definition open_editor (data : option ModelRatioData) (e : Editor) : Editor :=
  let panel :=
    if negb (e_editorOpen e) then load_data data initial_panel
    else match e_editData e, data with
         | None, None => e_panel e
         | _, _ => load_data data (e_panel e)
         end in
  mkEditor (e_draft e) data true panel.

Definition handleEdit (model : ModelRow) (e : Editor) : Editor :=
  let s := match r_draft model with
           | Some d => d
           | None => match r_saved model with Some s => s | None => r_displayed model end
           end in
  open_editor (Some (mkData (s_name s) (s_pricing s)
    (Some (if is_mode TieredExpr (s_billingMode s) then TieredExpr
           else if truthy (opt_or_empty (price (s_pricing s))) then PerRequest else PerToken))
    (s_billingExpr s) (s_requestRuleExpr s))) e.

Definition handleAdd (e : Editor) : Editor := open_editor None e.

(** A new search text closes the editor. *)
Definition handleGlobalFilterChange (previous next : str) (e : Editor) : Editor :=
  if negb (str_eqb next previous) then mkEditor (e_draft e) None false initial_panel else e.

Definition handleDelete (name : str) (e : Editor) : option Editor :=
  draft ← delete_model name (e_draft e);
  Some (if bool_decide (d_name <$> e_editData e = Some name)
        then mkEditor draft None false initial_panel
        else mkEditor draft (e_editData e) (e_editorOpen e) (e_panel e)).

Definition handleBatchCopy (targetNames : list str) (e : Editor) : option Editor :=
  match e_editData e, targetNames with
  | None, _ | _, [] => Some e
  | Some data, _ =>
      draft ← persistPricingData data targetNames (e_draft e);
      Some (mkEditor draft (e_editData e) (e_editorOpen e) (e_panel e))
  end.

(** The result with what the caller is told. *)
Definition commitOpenEditor (e : Editor) : option (bool * Editor) :=
  if negb (e_editorOpen e) then Some (true, e)
  else
    match commitDraft (e_panel e) with
    | None => Some (false, e)
    | Some data =>
        draft ← persistPricingData data [d_name data] (e_draft e);
        Some (true, mkEditor draft (Some data) true (load_data (Some data) (e_panel e)))
    end.

(** ** Saving *)

Record ModelFormValues := mkValues { v_texts : ModelPricingSnapshotInput; v_exposeRatioEnabled : bool }.

Definition normalize_values (v : ModelFormValues) : ModelFormValues :=
  let i := v_texts v in
  mkValues (mkInput (pmap normalizeJsonString (in_pricing i)) (normalizeJsonString (in_billingMode i))
              (normalizeJsonString (in_billingExpr i))) (v_exposeRatioEnabled v).

(** The form values for the saved settings. *)
Definition textarea_values (v : ModelFormValues) : ModelFormValues :=
  let i := v_texts v in
  mkValues (mkInput (pmap formatJsonForTextarea (in_pricing i)) (formatJsonForTextarea (in_billingMode i))
              (formatJsonForTextarea (in_billingExpr i))) (v_exposeRatioEnabled v).

Inductive OptionValue := OptText (s : str) | OptBool (b : bool).
#[global] Instance OptionValue_eq_dec : EqDecision OptionValue.
Proof. solve_decision. Defined.

(** [Object.keys(normalized)] with the names of the settings in the API. *)
Definition setting_values (v : ModelFormValues) : list (str * OptionValue) :=
  let i := v_texts v in
  let p := in_pricing i in
  [(js "ModelPrice", OptText (price p)); (js "ModelRatio", OptText (ratio p)); (js "CacheRatio", OptText (cacheRatio p));
   (js "CreateCacheRatio", OptText (createCacheRatio p)); (js "CompletionRatio", OptText (completionRatio p));
   (js "ImageRatio", OptText (imageRatio p)); (js "AudioRatio", OptText (audioRatio p));
   (js "AudioCompletionRatio", OptText (audioCompletionRatio p)); (js "ExposeRatioEnabled", OptBool (v_exposeRatioEnabled v));
   (js "billing_setting.billing_mode", OptText (in_billingMode i)); (js "billing_setting.billing_expr", OptText (in_billingExpr i))].

(** The requests of a save against the values known to be saved. *)
Definition saveModelRatios (values saved : ModelFormValues) : list (str * OptionValue) :=
  let now := setting_values (normalize_values values) in
  List.filter (fun e => negb (bool_decide (map_get (fst e) (setting_values saved) = Some (snd e)))) now.
