(* ===== verification/PricingProps.v ===== *)
(** * Model prices: theorems

    What the price editor does with the settings: saving and deleting a model
    ([persistPricingData], [handleDelete]), the ratios that follow the prices typed in
    the panel, the comparison of drafts with saved settings, and the requests of a
    save. *)
From S2P Require Import Prelude Number Regex Json JsonPretty JsonObject BillingExpr PricingFormat PricingSnapshots PricingEditor.
From stdpp Require Import relations.

Create Rewrite HintDb pricing.

(** ** Records of settings and lanes *)

Lemma pget_make {A} f (g : PriceField -> A) : pget f (pmake g) = g f.
Proof. by destruct f. Qed.
Lemma pget_set {A} f g (v : A) p : pget f (pset g v p) = if decide (f = g) then v else pget f p.
Proof. apply pget_make. Qed.
Lemma pget_map {A B} f (h : A -> B) p : pget f (pmap h p) = h (pget f p).
Proof. by destruct f. Qed.
Lemma pricing_ext {A} (p q : Pricing A) : (forall f, pget f p = pget f q) -> p = q.
Proof.
  intros H. destruct p, q.
  f_equal; [apply (H Price) | apply (H Ratio) | apply (H CacheRatio) | apply (H CreateCacheRatio) | apply (H CompletionRatio)
    | apply (H ImageRatio) | apply (H AudioRatio) | apply (H AudioCompletionRatio)].
Qed.
Lemma lane_get_make {A} k (g : LaneKey -> A) : lane_get k (lane_make g) = g k.
Proof. by destruct k. Qed.
Lemma lane_get_set {A} k k' (v : A) l : lane_get k (lane_set k' v l) = if decide (k = k') then v else lane_get k l.
Proof. apply lane_get_make. Qed.
Lemma ratioFieldByLane_inj k k' : ratioFieldByLane k = ratioFieldByLane k' -> k = k'.
Proof. by destruct k, k'. Qed.
Lemma ratioField_not_ratio k : ratioFieldByLane k <> Ratio.
Proof. by destruct k. Qed.
#[export] Hint Rewrite @pget_make @pget_set @pget_map @lane_get_make @lane_get_set : pricing.

(** ** Texts and maps *)

Definition maps_ok (m : PriceMaps) : Prop :=
  (forall f, json_ok (JObj (pget f (m_pricing m)))) /\ json_ok (JObj (m_billingMode m)) /\ json_ok (JObj (m_billingExpr m)).

Lemma parse_map_pretty l : json_ok (JObj l) -> parse_map (JSON_pretty (JObj l)) = Some l.
Proof. intros H. unfold parse_map. by rewrite safeJsonParse_pretty. Qed.

(** What is printed is read back. *)
Lemma read_print_maps m : maps_ok m -> read_maps (print_maps m) = Some m.
Proof.
  destruct m as [[a b c d e f g h] mo ex]. intros (Hp & Hm & He). unfold read_maps, print_maps, pmap, pmake.
  cbn [pget m_pricing m_billingMode m_billingExpr in_pricing in_billingMode in_billingExpr
       price ratio cacheRatio createCacheRatio completionRatio imageRatio audioRatio audioCompletionRatio] in *.
  pose proof (Hp Price). pose proof (Hp Ratio). pose proof (Hp CacheRatio). pose proof (Hp CreateCacheRatio).
  pose proof (Hp CompletionRatio). pose proof (Hp ImageRatio). pose proof (Hp AudioRatio). pose proof (Hp AudioCompletionRatio).
  by rewrite !parse_map_pretty by assumption.
Qed.

(** A setting of a model, as the ten maps have it. *)
Inductive Setting := SPrice (f : PriceField) | SMode | SExpr.
Definition setting_map (s : Setting) (m : PriceMaps) : entries :=
  match s with SPrice f => pget f (m_pricing m) | SMode => m_billingMode m | SExpr => m_billingExpr m end.
Definition setting (s : Setting) (m : PriceMaps) (name : str) : option json := map_get name (setting_map s m).

Lemma maps_ok_settings m : maps_ok m <-> forall s, json_ok (JObj (setting_map s m)).
Proof.
  split; [intros (Hp & Hm & He) [f| |]; [apply Hp | done | done] |].
  intros H. split; [intros f; apply (H (SPrice f)) | split; [apply (H SMode) | apply (H SExpr)]].
Qed.

(** A snapshot depends on the settings of its model alone. *)
Lemma snapshot_of_ext m m' n : (forall s, setting s m' n = setting s m n) -> snapshot_of m' n = snapshot_of m n.
Proof.
  intros H. unfold snapshot_of. pose proof (H SMode) as Hm. pose proof (H SExpr) as He. cbn in Hm, He. rewrite Hm, He.
  assert (pmap (fun l => shown_value (map_get n l)) (m_pricing m') = pmap (fun l => shown_value (map_get n l)) (m_pricing m)) as ->; [| done].
  apply pricing_ext. intros f. rewrite !pget_map. f_equal. apply (H (SPrice f)).
Qed.

Lemma keys_of_get k (l : entries) : k ∈ keys_of l <-> map_get k l <> None.
Proof. unfold keys_of. rewrite map_get_None. change (map fst l) with l.*1. destruct (decide (k ∈ l.*1)); tauto. Qed.

Lemma elem_of_modelNames n m : n ∈ modelNames m <-> exists s, setting s m n <> None.
Proof.
  unfold modelNames. rewrite elem_of_set_of, !elem_of_app, !keys_of_get. cbn [map concat]. rewrite !elem_of_app, !keys_of_get. split.
  - intros H. destruct_or! H; [.. | by exists SMode | by exists SExpr];
      [by exists (SPrice Price) | by exists (SPrice Ratio) | by exists (SPrice CacheRatio) | by exists (SPrice CreateCacheRatio)
       | by exists (SPrice CompletionRatio) | by exists (SPrice ImageRatio) | by exists (SPrice AudioRatio)
       | by exists (SPrice AudioCompletionRatio) | by apply not_elem_of_nil in H].
  - intros [[[]| |] H]; cbn in H; tauto.
Qed.

Lemma modelNames_ext m m' n : (forall s, setting s m' n = setting s m n) -> n ∈ modelNames m' <-> n ∈ modelNames m.
Proof. intros H. rewrite !elem_of_modelNames. split; intros [s Hs]; exists s; congruence. Qed.

(** ** Deleting *)

Lemma setting_forget s m n name :
  setting s (forget_model name m) n = if bool_decide (n = name) then None else setting s m n.
Proof. destruct s as [f| |]; unfold setting; cbn; rewrite ?pget_map; apply obj_get_delete. Qed.

Lemma setting_map_forget s name m : setting_map s (forget_model name m) = obj_delete name (setting_map s m).
Proof. destruct s as [f| |]; cbn; [apply pget_map | done | done]. Qed.

Lemma forget_ok name m : maps_ok m -> maps_ok (forget_model name m).
Proof. rewrite !maps_ok_settings. intros H s. rewrite setting_map_forget. by apply json_ok_delete. Qed.

(** ** Storing *)

(** The numbers that are written can be written. *)
Definition storable (v : option str) : Prop :=
  truthy (opt_or_empty v) = true -> isFinite (parseFloat (opt_or_empty v)) = true -> num_ok (parseFloat (opt_or_empty v)) = true.

(** What a field of the form becomes in the settings. *)
Definition stored (v : option str) : option json :=
  if truthy (opt_or_empty v) && isFinite (parseFloat (opt_or_empty v)) then Some (JNum (parseFloat (opt_or_empty v))) else None.

Definition combined_expr (data : ModelRatioData) : str :=
  combineBillingExpr (opt_or_empty (d_billingExpr data)) (opt_or_empty (d_requestRuleExpr data)).
Definition is_tiered (data : ModelRatioData) : bool := bool_decide (d_billingMode data = Some TieredExpr).

(** The fields that a save writes: all of them for an expression, otherwise the fixed
    price alone if there is one and the ratios if there is none. *)
Definition written (data : ModelRatioData) (f : PriceField) : bool :=
  is_tiered data || eqb (truthy (opt_or_empty (price (d_pricing data)))) (bool_decide (f = Price)).

Definition stored_setting (data : ModelRatioData) (s : Setting) : option json :=
  let expr := is_tiered data && truthy (combined_expr data) in
  match s with
  | SPrice f => if written data f then stored (pget f (d_pricing data)) else None
  | SMode => if expr then Some (JStr (mode_text TieredExpr)) else None
  | SExpr => if expr then Some (JStr (combined_expr data)) else None
  end.

Lemma setIfPresent_get name v l n :
  obj_wf l -> map_get name l = None -> map_get n (setIfPresent name v l) = if bool_decide (n = name) then stored v else map_get n l.
Proof.
  intros Hw Hn. unfold setIfPresent, stored. destruct (truthy (opt_or_empty v)); cbn; [| case_bool_decide; congruence].
  destruct (isFinite _); [by apply obj_get_set | case_bool_decide; congruence].
Qed.

Lemma setIfPresent_ok name v l : json_ok (JObj l) -> storable v -> json_ok (JObj (setIfPresent name v l)).
Proof.
  intros Hl Hv. unfold setIfPresent. destruct (truthy (opt_or_empty v)) eqn:E; [| done].
  destruct (isFinite (parseFloat (opt_or_empty v))) eqn:F; [| done]. cbn [negb]. cbv iota zeta. apply json_ok_set; [done |]. by apply Hv.
Qed.

Lemma set_fields_get fields name d m f :
  NoDup fields ->
  pget f (set_fields fields name d m) = if decide (f ∈ fields) then setIfPresent name (pget f d) (pget f m) else pget f m.
Proof.
  unfold set_fields. intros Hn. revert m. induction Hn as [|g fields Hg Hn IH]; intros m; cbn [foldl]; [done |].
  rewrite IH, pget_set. destruct (decide (f = g)) as [->|Hne].
  - rewrite decide_False, decide_True by set_solver. done.
  - destruct (decide (f ∈ fields)); [rewrite decide_True by set_solver | rewrite decide_False by set_solver]; done.
Qed.

Lemma all_fields f : f ∈ Price :: ratio_fields.
Proof. unfold ratio_fields. destruct f; set_solver. Qed.
Lemma in_ratio_fields f : f ∈ ratio_fields <-> f <> Price.
Proof. split; [intros H ->; unfold ratio_fields in H; set_solver | pose proof (all_fields f); set_solver]. Qed.
Lemma fields_NoDup : NoDup (Price :: ratio_fields).
Proof. apply (bool_decide_unpack _). vm_compute. exact I. Qed.

(** The price map of a stored model. *)
Lemma store_model_field data m name f :
  pget f (m_pricing (store_model data m name)) =
  let l := obj_delete name (pget f (m_pricing m)) in
  if written data f then setIfPresent name (pget f (d_pricing data)) l else l.
Proof.
  pose proof fields_NoDup as Hn. inv Hn. unfold store_model, written, is_tiered. cbv zeta.
  destruct (bool_decide (d_billingMode data = Some TieredExpr)); cbn [orb m_pricing forget_model].
  - rewrite set_fields_get, decide_True, pget_map by (apply all_fields || apply fields_NoDup). done.
  - destruct (truthy (opt_or_empty (price (d_pricing data)))); cbn [eqb m_pricing].
    + rewrite set_fields_get, pget_map by (repeat constructor; set_solver). case_bool_decide as E.
      * subst. by rewrite decide_True by set_solver.
      * by rewrite decide_False by set_solver.
    + rewrite set_fields_get, pget_map by done. case_bool_decide as E.
      * subst. by rewrite decide_False by (rewrite in_ratio_fields; tauto).
      * by rewrite decide_True by (by rewrite in_ratio_fields).
Qed.

Lemma store_model_setting data m name s n :
  maps_ok m -> setting s (store_model data m name) n = if bool_decide (n = name) then stored_setting data s else setting s m n.
Proof.
  intros Hok. pose proof (forget_ok name m Hok) as Hf. rewrite maps_ok_settings in Hf.
  assert (forall s, obj_wf (obj_delete name (setting_map s m))) as Hw
    by (intros s'; specialize (Hf s'); rewrite setting_map_forget in Hf; by apply json_ok_wf in Hf as [_ Hf]).
  unfold setting. destruct s as [f| |].
  - cbn [setting_map stored_setting]. rewrite store_model_field. cbv zeta. destruct (written data f).
    + rewrite setIfPresent_get by (apply (Hw (SPrice f)) || (rewrite obj_get_delete; by rewrite bool_decide_eq_true_2)).
      case_bool_decide; [done |]. rewrite obj_get_delete. by rewrite bool_decide_eq_false_2.
    + apply obj_get_delete.
  - unfold store_model. fold (combined_expr data). cbn [stored_setting]. unfold is_tiered.
    destruct (bool_decide (d_billingMode data = Some TieredExpr)); cbn [setting_map m_billingMode forget_model andb].
    + destruct (truthy (combined_expr data)); [| apply obj_get_delete]. rewrite obj_get_set by apply (Hw SMode).
      case_bool_decide; [done |]. rewrite obj_get_delete. by rewrite bool_decide_eq_false_2.
    + destruct (truthy _); apply obj_get_delete.
  - unfold store_model. fold (combined_expr data). cbn [stored_setting]. unfold is_tiered.
    destruct (bool_decide (d_billingMode data = Some TieredExpr)); cbn [setting_map m_billingExpr forget_model andb].
    + destruct (truthy (combined_expr data)); [| apply obj_get_delete]. rewrite obj_get_set by apply (Hw SExpr).
      case_bool_decide; [done |]. rewrite obj_get_delete. by rewrite bool_decide_eq_false_2.
    + destruct (truthy _); apply obj_get_delete.
Qed.

Definition storable_data (data : ModelRatioData) : Prop := forall f, storable (pget f (d_pricing data)).

Lemma store_model_ok data m name : maps_ok m -> storable_data data -> maps_ok (store_model data m name).
Proof.
  intros Hok Hd. pose proof (forget_ok name m Hok) as (Hf & Hm & Hx). split.
  - intros f. rewrite store_model_field. cbv zeta. specialize (Hf f). cbn in Hf. rewrite pget_map in Hf.
    destruct (written data f); [apply setIfPresent_ok; [done | apply Hd] | done].
  - unfold store_model. fold (combined_expr data). cbv zeta.
    destruct (bool_decide _); [| by destruct (truthy _)]. cbn [m_billingMode m_billingExpr].
    destruct (truthy (combined_expr data)); [| done]. split; by apply json_ok_set.
Qed.

Lemma store_models_ok data names m :
  maps_ok m -> storable_data data -> maps_ok (foldl (store_model data) m names).
Proof. intros Hm Hd. revert m Hm. induction names as [|n names IH]; intros m Hm; cbn; [done |]. by apply IH, store_model_ok. Qed.

Lemma store_models_setting data names m s n :
  maps_ok m -> storable_data data ->
  setting s (foldl (store_model data) m names) n = if decide (n ∈ names) then stored_setting data s else setting s m n.
Proof.
  intros Hm Hd. revert m Hm. induction names as [|k names IH]; intros m Hm; cbn [foldl]; [done |].
  rewrite IH, store_model_setting by (done || by apply store_model_ok).
  destruct (decide (n ∈ names)); [by rewrite decide_True by set_solver |]. case_bool_decide.
  - by rewrite decide_True by set_solver.
  - by rewrite decide_False by set_solver.
Qed.

(** ** What a save stores *)

(** A number field after it was stored and shown again. *)
Definition shown_field (data : ModelRatioData) (f : PriceField) : str := shown_value (stored_setting data (SPrice f)).

(** How the settings of saved data read: the mode is a tiered one only with an expression, and a fixed price comes before the
    mode. That this is the data as it was given, when it is of one mode only, is [saved_view_given]. *)
Definition saved_view (data : ModelRatioData) (name : str) : outcome ModelPricingSnapshot :=
  let p := pmake (fun f => shown_field data f) in
  if is_tiered data && truthy (combined_expr data) then
    outcome_bind (splitBillingExprAndRequestRules (combined_expr data)) (fun s =>
    Found (mkSnapshot name (pmap Some p) (Some (mode_text TieredExpr)) (Some (sp_billingExpr s)) (Some (sp_requestRuleExpr s)) false))
  else
    Found (mkSnapshot name (pmap Some p) (Some (mode_text (if truthy (price p) then PerRequest else PerToken))) None None
      (truthy (price p) && existsb (fun f => truthy (pget f p)) ratio_fields)).

Lemma snapshot_saved data m n : (forall s, setting s m n = stored_setting data s) -> snapshot_of m n = saved_view data n.
Proof.
  intros H. unfold snapshot_of, saved_view. pose proof (H SMode) as Hm. pose proof (H SExpr) as He. cbn [setting setting_map] in Hm, He.
  unfold setting, setting_map in Hm, He. rewrite Hm, He.
  assert (pmap (fun l => shown_value (map_get n l)) (m_pricing m) = pmake (fun f => shown_field data f)) as ->.
  { apply pricing_ext. intros f. rewrite pget_map, pget_make. unfold shown_field. f_equal. apply (H (SPrice f)). }
  cbn [stored_setting]. destruct (is_tiered data && truthy (combined_expr data)).
  - cbn [is_the_string string_or_empty]. done.
  - cbn [is_the_string]. cbv zeta. f_equal. set (p := pmake _). f_equal; [by destruct (truthy (price p)) |].
    unfold ratio_fields. cbn [existsb pget]. destruct (truthy (price p)); [cbn [andb] | done].
    by destruct (truthy (ratio p)), (truthy (completionRatio p)), (truthy (cacheRatio p)), (truthy (createCacheRatio p)), (truthy (imageRatio p)),
      (truthy (audioRatio p)), (truthy (audioCompletionRatio p)).
Qed.

(** *** The data as it was given *)

(** A field of the data, as a number that is shown again. *)
Definition given_field (data : ModelRatioData) (f : PriceField) : str := shown_value (stored (pget f (d_pricing data))).
Definition given_mode (data : ModelRatioData) : PricingMode := default PerToken (d_billingMode data).
(** The fields that belong to a mode; an expression keeps all of them as a fallback. *)
Definition mode_field (mode : PricingMode) (f : PriceField) : bool :=
  match mode with TieredExpr => true | PerRequest => bool_decide (f = Price) | PerToken => negb (bool_decide (f = Price)) end.

(** What a model with this data should show: the mode, the fields of the mode as they were given, the expression, no conflict. *)
Definition given_view (data : ModelRatioData) (name : str) : outcome ModelPricingSnapshot :=
  let p := pmap Some (pmake (fun f => if mode_field (given_mode data) f then given_field data f else [])) in
  match given_mode data with
  | TieredExpr =>
      outcome_bind (splitBillingExprAndRequestRules (combined_expr data)) (fun s =>
      Found (mkSnapshot name p (Some (mode_text TieredExpr)) (Some (sp_billingExpr s)) (Some (sp_requestRuleExpr s)) false))
  | mode => Found (mkSnapshot name p (Some (mode_text mode)) None None false)
  end.

(** Data that can be stored as what it is: no fixed price is left next to prices by token, the fixed price of the mode by
    request is a number, the expression is not empty. *)
Definition one_mode (data : ModelRatioData) : Prop :=
  match given_mode data with
  | PerToken => opt_or_empty (price (d_pricing data)) = []
  | PerRequest => stored (price (d_pricing data)) <> None
  | TieredExpr => combined_expr data <> []
  end.

Lemma num_ok_text n : num_ok n = true -> isFinite n = true /\ truthy (num_to_str n) = true.
Proof.
  unfold num_ok. intros [[Hf Ht]%andb_prop _]%andb_prop. split; [done |].
  destruct (num_to_str n); [vm_compute in Ht; done | done].
Qed.

Lemma stored_truthy v : storable v -> stored v <> None -> truthy (opt_or_empty v) = true /\ truthy (shown_value (stored v)) = true.
Proof.
  unfold stored. intros Hs. destruct (truthy (opt_or_empty v)) eqn:E; [| by intros []]. destruct (isFinite _) eqn:Ef; [| by intros []]. cbn. intros _.
  split; [done | by apply num_ok_text, Hs].
Qed.

(** The fields that are written are those of the mode. *)
Lemma shown_given data f : storable_data data -> one_mode data ->
  shown_field data f = if mode_field (given_mode data) f then given_field data f else [].
Proof.
  intros Hd H. unfold shown_field, given_field. cbn [stored_setting]. unfold written, is_tiered, one_mode, given_mode in *. specialize (Hd Price). cbn [pget] in Hd.
  destruct (d_billingMode data) as [[]|]; cbn [default from_option id mode_field] in *.
  1,4: rewrite H; by destruct f.
  - apply (stored_truthy _ Hd) in H as [-> _]. by destruct f.
  - done.
Qed.

Lemma saved_view_given data name : storable_data data -> one_mode data -> saved_view data name = given_view data name.
Proof.
  intros Hd H. unfold saved_view, given_view.
  assert (pmake (fun f => shown_field data f) = pmake (fun f => if mode_field (given_mode data) f then given_field data f else [])) as ->
    by (apply pricing_ext; intros f; rewrite !pget_make; by apply shown_given).
  specialize (Hd Price). unfold one_mode, is_tiered, given_mode in *.
  destruct (d_billingMode data) as [[]|]; cbn [default from_option id] in *; try (rewrite bool_decide_eq_true_2 by done); try (rewrite bool_decide_eq_false_2 by done);
    cbn [andb mode_field negb pmake price]; try done.
  - apply (stored_truthy _ Hd) in H as [_ H]. unfold given_field. cbn [pget] in *. rewrite (bool_decide_eq_true_2 (Price = Price)) by done. by rewrite H.
  - by destruct (combined_expr data).
Qed.

(** C2: Saving prices for a set of models ([persistPricingData], used by the save
    button and by the copy of one model's prices to others) rewrites the ten settings
    so that, read again, every target shows the mode and the values of the data - the
    fields of its mode, as [parseFloat] read them, the expression as it splits, nothing
    left from before and no conflict - and every other model shows what it did and stays
    listed.  The data is of one mode: prices by token come without a fixed price (with one
    the fixed price is stored instead, see [per_token_save_keeps_fixed_price]), a fixed
    price is a number, an expression is not empty. *)
Theorem persisted_prices_spec data targets draft m :
  read_maps draft = Some m -> maps_ok m -> storable_data data -> one_mode data ->
  exists draft' m',
    persistPricingData data targets draft = Some draft' /\ read_maps draft' = Some m' /\
    (forall n, n ∈ targets -> snapshot_of m' n = given_view data n) /\
    (forall n, n ∉ targets -> snapshot_of m' n = snapshot_of m n /\ (n ∈ modelNames m' <-> n ∈ modelNames m)).
Proof.
  intros Hr Hm Hd Ho. unfold persistPricingData. rewrite Hr. cbn [mbind option_bind].
  set (m' := foldl (store_model data) m targets). exists (print_maps m'), m'.
  assert (forall s n, setting s m' n = if decide (n ∈ targets) then stored_setting data s else setting s m n) as Hs
    by (intros s n; by apply store_models_setting).
  split; [done |]. split; [by apply read_print_maps, store_models_ok |]. split.
  - intros n Hn. rewrite <- saved_view_given by done. apply snapshot_saved. intros s. by rewrite Hs, decide_True.
  - intros n Hn. assert (forall s, setting s m' n = setting s m n) as E by (intros s; by rewrite Hs, decide_False).
    split; [by apply snapshot_of_ext | by apply modelNames_ext].
Qed.

Definition demo_texts : ModelPricingSnapshotInput :=
  mkInput (mkPricing (jsq "{'dall-e-3':0.04}") (jsq "{'gpt-4o':1.25,'o3':1}") (jsq "{'gpt-4o':0.5}") [] (jsq "{'gpt-4o':4}") [] [] [])
    [] [].
Definition demo_maps : PriceMaps :=
  mkMaps (mkPricing [(js "dall-e-3", JNum (lit "0.04"))] [(js "gpt-4o", JNum (lit "1.25")); (js "o3", JNum (lit "1"))]
            [(js "gpt-4o", JNum (lit "0.5"))] [] [(js "gpt-4o", JNum (lit "4"))] [] [] []) [] [].
Definition demo_data : ModelRatioData :=
  mkData (js "gpt-4o") (mkPricing None (Some (js "2.5")) None None (Some (js "8")) None None None) (Some PerToken) None None.

Lemma demo_maps_ok : maps_ok demo_maps.
Proof. split; [intros [] | split]; apply json_okb_ok; vm_compute; reflexivity. Qed.
Lemma demo_data_ok : storable_data demo_data.
Proof. intros []; intros H _; vm_compute in H; (discriminate H || (vm_compute; reflexivity)). Qed.

Lemma persisted_prices_spec_witness :
  exists draft' m',
    persistPricingData demo_data [js "gpt-4o"; js "o3"] demo_texts = Some draft' /\ read_maps draft' = Some m' /\
    (forall n, n ∈ [js "gpt-4o"; js "o3"] -> snapshot_of m' n = given_view demo_data n) /\
    (forall n, n ∉ [js "gpt-4o"; js "o3"] -> snapshot_of m' n = snapshot_of demo_maps n /\ (n ∈ modelNames m' <-> n ∈ modelNames demo_maps)).
Proof.
  apply persisted_prices_spec; [vm_compute; reflexivity | apply demo_maps_ok | apply demo_data_ok | vm_compute; reflexivity].
Defined.

(** ** Deleting a model *)

(** Deleting a model ([handleDelete]) removes its name from all ten settings, so
    that it is no longer listed; every other model keeps its snapshot and its place in
    the list; and the editor is closed if it shows the deleted model and left alone
    otherwise. *)
Theorem deleted_model_spec name e m :
  read_maps (e_draft e) = Some m -> maps_ok m ->
  exists e' m',
    handleDelete name e = Some e' /\ read_maps (e_draft e') = Some m' /\ (name ∉ modelNames m') /\
    (forall n, n <> name -> snapshot_of m' n = snapshot_of m n /\ (n ∈ modelNames m' <-> n ∈ modelNames m)) /\
    (if decide (d_name <$> e_editData e = Some name) then e_editData e' = None /\ e_editorOpen e' = false
     else e_editData e' = e_editData e /\ e_editorOpen e' = e_editorOpen e /\ e_panel e' = e_panel e).
Proof.
  intros Hr Hm. unfold handleDelete, delete_model. rewrite Hr. cbn [mbind option_bind].
  set (m' := forget_model name m). eexists _, m'. split; [reflexivity |]. split.
  { case_bool_decide; apply read_print_maps, forget_ok, Hm. }
  split; [| split].
  - rewrite elem_of_modelNames. intros [s Hs]. unfold m' in Hs. rewrite setting_forget in Hs.
    by rewrite bool_decide_eq_true_2 in Hs.
  - intros n Hn. assert (forall s, setting s m' n = setting s m n) as E
      by (intros s; unfold m'; rewrite setting_forget; by rewrite bool_decide_eq_false_2).
    split; [by apply snapshot_of_ext | by apply modelNames_ext].
  - case_bool_decide as E; [by rewrite decide_True | by rewrite decide_False].
Qed.

Definition demo_editor : Editor := mkEditor demo_texts (Some demo_data) true (load_data (Some demo_data) initial_panel).

Lemma deleted_model_spec_witness :
  exists e' m',
    handleDelete (js "gpt-4o") demo_editor = Some e' /\ read_maps (e_draft e') = Some m' /\ (js "gpt-4o" ∉ modelNames m') /\
    (forall n, n <> js "gpt-4o" -> snapshot_of m' n = snapshot_of demo_maps n /\ (n ∈ modelNames m' <-> n ∈ modelNames demo_maps)) /\
    (if decide (d_name <$> e_editData demo_editor = Some (js "gpt-4o")) then e_editData e' = None /\ e_editorOpen e' = false
     else e_editData e' = e_editData demo_editor /\ e_editorOpen e' = e_editorOpen demo_editor /\ e_panel e' = e_panel demo_editor).
Proof. apply deleted_model_spec; [vm_compute; reflexivity | apply demo_maps_ok]. Defined.

(** ** Saving per-token prices of a model with a fixed price *)

Lemma opt_or_some v : opt_or_empty (Some v) = v.
Proof. by destruct v. Qed.

Lemma stored_num v : truthy v = true -> num_ok (parseFloat v) = true -> stored (Some v) = Some (JNum (parseFloat v)).
Proof.
  intros Ht Hn. apply num_ok_text in Hn as [Hf _]. unfold stored. by rewrite opt_or_some, Ht, Hf.
Qed.

Lemma commitDraft_data p data : commitDraft p = Some data -> data = buildSubmitData p.
Proof. unfold commitDraft. destruct (negb _); [done |]. destruct (validatePricingValues p); congruence. Qed.

(** With a fixed price in the form, the mode is not what decides. *)
Lemma fixed_price_view p n :
  pricingMode p <> TieredExpr -> truthy (price (fv_pricing (form p))) = true -> num_ok (parseFloat (price (fv_pricing (form p)))) = true ->
  saved_view (buildSubmitData p) n =
  Found (mkSnapshot n (pmake (fun f => Some (if bool_decide (f = Price) then num_to_str (parseFloat (price (fv_pricing (form p)))) else [])))
           (Some (mode_text PerRequest)) None None false).
Proof.
  intros Hmode Ht Hn. set (v := price (fv_pricing (form p))) in *. set (data := buildSubmitData p).
  assert (is_tiered data = false) as Etier by (apply bool_decide_eq_false; cbn; congruence).
  assert (opt_or_empty (price (d_pricing data)) = v) as Ev.
  { apply opt_or_some. }
  assert (forall f, shown_field data f = if bool_decide (f = Price) then num_to_str (parseFloat v) else []) as Hf.
  { intros f. unfold shown_field. cbn [stored_setting]. unfold written. rewrite Etier, Ev, Ht. cbn [orb eqb].
    case_bool_decide; [| done]. subst f. change (pget Price (d_pricing data)) with (Some v). by rewrite stored_num. }
  unfold saved_view. rewrite Etier. cbn [andb]. cbv zeta. set (q := pmake (fun f => shown_field data f)).
  assert (forall f, pget f q = if bool_decide (f = Price) then num_to_str (parseFloat v) else []) as Hq
    by (intros f; unfold q; by rewrite pget_make).
  change (price q) with (pget Price q). rewrite Hq. rewrite bool_decide_eq_true_2 by done.
  destruct (num_ok_text _ Hn) as [_ ->]. cbn [andb]. do 2 f_equal.
  - apply pricing_ext. intros f. by rewrite pget_map, pget_make, Hq.
  - unfold ratio_fields. cbn [existsb]. rewrite !Hq. done.
Qed.

(** A model with a fixed price cannot be changed to per-token prices in the panel:
    when the tab "Per-token" is active and the form still holds the fixed price that
    was loaded, a save stores the fixed price alone.  The new input price and all
    lane prices are dropped, the model is per-request after the save, and the panel
    switches back to "Per-request" - although the panel announces that saving the
    current mode rewrites the conflicting fields. *)
Theorem per_token_save_keeps_fixed_price e m data :
  e_editorOpen e = true -> pricingMode (e_panel e) = PerToken -> commitDraft (e_panel e) = Some data ->
  read_maps (e_draft e) = Some m -> maps_ok m -> storable_data data ->
  truthy (price (fv_pricing (form (e_panel e)))) = true -> num_ok (parseFloat (price (fv_pricing (form (e_panel e))))) = true ->
  exists e' m',
    commitOpenEditor e = Some (true, e') /\ read_maps (e_draft e') = Some m' /\ pricingMode (e_panel e') = PerRequest /\
    snapshot_of m' (d_name data) =
    Found (mkSnapshot (d_name data)
      (pmake (fun f => Some (if bool_decide (f = Price) then num_to_str (parseFloat (price (fv_pricing (form (e_panel e))))) else [])))
      (Some (mode_text PerRequest)) None None false).
Proof.
  intros Ho Hmode Hc Hr Hm Hd Ht Hp. unfold commitOpenEditor. rewrite Ho, Hc. cbn [negb].
  unfold persistPricingData. rewrite Hr. cbn [mbind option_bind foldl].
  eexists _, (store_model data m (d_name data)). split; [reflexivity |]. cbn [e_draft e_panel load_data pricingMode].
  split; [by apply read_print_maps, store_model_ok |]. split.
  - rewrite (commitDraft_data _ _ Hc). unfold data_mode. cbn [d_billingMode buildSubmitData]. rewrite Hmode.
    rewrite bool_decide_eq_false_2 by done. change (price (d_pricing (buildSubmitData (e_panel e)))) with (Some (price (fv_pricing (form (e_panel e))))).
    by rewrite opt_or_some, Ht.
  - rewrite (snapshot_saved data); [| intros s; rewrite store_model_setting by done; by rewrite bool_decide_eq_true_2].
    rewrite (commitDraft_data _ _ Hc). apply fixed_price_view; [congruence | done | done].
Qed.

(** A model with a fixed price, opened, switched to per-token, with an input price of 3
    and an output price of 15. *)
Definition fixed_data : ModelRatioData :=
  mkData (js "dall-e-3") (mkPricing (Some (js "0.04")) None None None None None None None) (Some PerRequest) None None.
Definition switched_editor : Editor :=
  let p := load_data (Some fixed_data) initial_panel in
  let p := handleLaneToggle Completion true (handlePromptPriceChange (js "3") (handleModeChange PerToken p)) in
  mkEditor demo_texts (Some fixed_data) true (handleLanePriceChange Completion (js "15") p).

Definition switched_data : ModelRatioData := buildSubmitData (e_panel switched_editor).
Lemma switched_data_ok : storable_data switched_data.
Proof. intros []; intros H _; vm_compute in H; (discriminate H || (vm_compute; reflexivity)). Qed.

Lemma per_token_save_keeps_fixed_price_witness :
  let values := fv_pricing (form (e_panel switched_editor)) in
  (price values = js "0.04" /\ ratio values = js "1.5" /\ completionRatio values = js "5") /\
  exists e' m',
    commitOpenEditor switched_editor = Some (true, e') /\ read_maps (e_draft e') = Some m' /\ pricingMode (e_panel e') = PerRequest /\
    snapshot_of m' (d_name switched_data) =
    Found (mkSnapshot (d_name switched_data)
      (pmake (fun f => Some (if bool_decide (f = Price) then num_to_str (parseFloat (price values)) else [])))
      (Some (mode_text PerRequest)) None None false).
Proof.
  split; [vm_compute; repeat split |].
  apply (per_token_save_keeps_fixed_price switched_editor demo_maps switched_data).
  - reflexivity.
  - vm_compute. reflexivity.
  - vm_compute. reflexivity.
  - vm_compute. reflexivity.
  - apply demo_maps_ok.
  - apply switched_data_ok.
  - vm_compute. reflexivity.
  - vm_compute. reflexivity.
Defined.

(** ** The ratios of the form follow the prices of the panel *)

Definition lane_ratio (p : Panel) (k : LaneKey) : str :=
  if lane_get k (laneEnabled p) then deriveLaneRatio k (lane_get k (lanePrices p)) (promptPrice p) (lanePrices p) else [].

(** Every ratio of the form is the one that the prices shown determine. *)
Definition ratios_synced (p : Panel) : Prop :=
  ratio (fv_pricing (form p)) = base_ratio (promptPrice p) /\
  forall k, pget (ratioFieldByLane k) (fv_pricing (form p)) = lane_ratio p k.

Inductive panel_step : Panel -> Panel -> Prop :=
| step_prompt value p : panel_step p (handlePromptPriceChange value p)
| step_lane lane value p : panel_step p (handleLanePriceChange lane value p)
| step_toggle lane checked p : panel_step p (handleLaneToggle lane checked p)
| step_mode mode p : panel_step p (handleModeChange mode p)
| step_name value p : panel_step p (handleNameChange value p)
| step_price value p : panel_step p (handlePriceChange value p)
| step_expr value p : panel_step p (setBillingExpr value p)
| step_rules value p : panel_step p (setRequestRuleExpr value p)
| step_new p : panel_step p (load_data None p).

(** The ratio of a lane depends on the other lanes only through the audio input price. *)
Lemma deriveLaneRatio_lanes k v pp l l' :
  (k = AudioOutput -> l_audioInput l = l_audioInput l') -> deriveLaneRatio k v pp l = deriveLaneRatio k v pp l'.
Proof. intros H. unfold deriveLaneRatio. destruct k; try done. by rewrite H. Qed.

Lemma deriveLaneRatio_nil k pp l : deriveLaneRatio k [] pp l = [].
Proof. done. Qed.

Lemma sync_fold pp lp le f0 ks k :
  NoDup ks ->
  pget (ratioFieldByLane k)
    (fv_pricing (foldl (fun f key => setFormValue (ratioFieldByLane key)
      (if negb (lane_get key le) then [] else deriveLaneRatio key (lane_get key lp) pp lp) f) f0 ks)) =
  if decide (k ∈ ks) then (if lane_get k le then deriveLaneRatio k (lane_get k lp) pp lp else [])
  else pget (ratioFieldByLane k) (fv_pricing f0).
Proof.
  intros Hn. revert f0. induction Hn as [|j ks Hj Hn IH]; intros f0; cbn [foldl]; [done |].
  rewrite IH. cbn [setFormValue fv_pricing]. rewrite pget_set. destruct (decide (k = j)) as [->|Hk].
  - rewrite decide_False, !decide_True by set_solver. by destruct (lane_get j le).
  - rewrite (decide_False (P := ratioFieldByLane k = _)) by (by intros ?%ratioFieldByLane_inj).
    destruct (decide (k ∈ ks)); [by rewrite decide_True by set_solver | by rewrite decide_False by set_solver].
Qed.

Lemma sync_ratio pp lp le f0 ks :
  ratio (fv_pricing (foldl (fun f key => setFormValue (ratioFieldByLane key)
      (if negb (lane_get key le) then [] else deriveLaneRatio key (lane_get key lp) pp lp) f) f0 ks)) = ratio (fv_pricing f0).
Proof.
  revert f0. induction ks as [|j ks IH]; intros f0; cbn [foldl]; [done |]. rewrite IH.
  cbn [setFormValue fv_pricing]. change (ratio (pset (ratioFieldByLane j) _ _)) with (pget Ratio (pset (ratioFieldByLane j)
    (if negb (lane_get j le) then [] else deriveLaneRatio j (lane_get j lp) pp lp) (fv_pricing f0))).
  rewrite pget_set, decide_False; [done | symmetry; apply ratioField_not_ratio].
Qed.

Lemma laneConfigs_all k : k ∈ laneConfigs.
Proof. unfold laneConfigs. destruct k; set_solver. Qed.
Lemma laneConfigs_NoDup : NoDup laneConfigs.
Proof. apply (bool_decide_unpack _). vm_compute. exact I. Qed.

(** A change of the form that keeps the base ratio and sets lanes as they should be. *)
Lemma synced_intro p f :
  ratio (fv_pricing f) = base_ratio (promptPrice p) -> (forall k, pget (ratioFieldByLane k) (fv_pricing f) = lane_ratio p k) ->
  ratios_synced (with_form p f).
Proof. done. Qed.

Lemma ratio_set k v f : ratio (fv_pricing (setFormValue (ratioFieldByLane k) v f)) = ratio (fv_pricing f).
Proof. by destruct k. Qed.
Lemma lane_field_set k k' v f :
  pget (ratioFieldByLane k) (fv_pricing (setFormValue (ratioFieldByLane k') v f)) =
  if decide (k = k') then v else pget (ratioFieldByLane k) (fv_pricing f).
Proof.
  cbn [setFormValue fv_pricing]. rewrite pget_set. destruct (decide (k = k')) as [->|H]; [by rewrite decide_True |].
  by rewrite decide_False by (by intros ?%ratioFieldByLane_inj).
Qed.

Lemma prompt_synced value p : ratios_synced p -> ratios_synced (handlePromptPriceChange value p).
Proof.
  intros H. unfold handlePromptPriceChange. destruct (negb _); [done |]. apply synced_intro; unfold syncLaneRatios.
  - rewrite sync_ratio. done.
  - intros k. rewrite sync_fold by apply laneConfigs_NoDup. by rewrite decide_True by apply laneConfigs_all.
Qed.

Lemma lane_synced lane value p : ratios_synced p -> ratios_synced (handleLanePriceChange lane value p).
Proof.
  intros [Hr Hl]. unfold handleLanePriceChange. destruct (negb _); [done |]. cbv zeta.
  set (next := lane_set lane value (lanePrices p)).
  assert (forall k, lane_get k next = if decide (k = lane) then value else lane_get k (lanePrices p)) as Hnext
    by (intros k; apply lane_get_set).
  assert (lane <> AudioInput -> l_audioInput next = l_audioInput (lanePrices p)) as Haudio
    by (intros Hne; change (lane_get AudioInput next = lane_get AudioInput (lanePrices p)); by rewrite Hnext, decide_False).
  change AudioCompletionRatio with (ratioFieldByLane AudioOutput). apply synced_intro.
  - destruct (bool_decide _ && _), (lane_get lane (laneEnabled p)); rewrite ?ratio_set; exact Hr.
  - intros k. unfold lane_ratio. cbn [with_lanes laneEnabled lanePrices promptPrice].
    specialize (Hl k). unfold lane_ratio in Hl. change (l_audioOutput (laneEnabled p)) with (lane_get AudioOutput (laneEnabled p)).
    rewrite Hnext. destruct (decide (lane = AudioInput)) as [->|Hne].
    + rewrite bool_decide_eq_true_2 by done. cbn [andb]. change (l_audioOutput next) with (lane_get AudioOutput next). rewrite Hnext.
      destruct (decide (k = AudioOutput)) as [->|Hk].
      * rewrite decide_False by done. destruct (lane_get AudioOutput (laneEnabled p)); [by rewrite lane_field_set, decide_True |].
        destruct (lane_get AudioInput (laneEnabled p)); [rewrite lane_field_set, decide_False by done |]; exact Hl.
      * assert (forall f v, pget (ratioFieldByLane k) (fv_pricing (if lane_get AudioOutput (laneEnabled p)
            then setFormValue (ratioFieldByLane AudioOutput) v f else f)) = pget (ratioFieldByLane k) (fv_pricing f)) as Hsk
          by (intros f v; destruct (lane_get AudioOutput _); [by rewrite lane_field_set, decide_False | done]).
        rewrite Hsk. destruct (decide (k = AudioInput)) as [->|Hk'].
        -- destruct (lane_get AudioInput (laneEnabled p)); [by rewrite lane_field_set, decide_True | exact Hl].
        -- rewrite (deriveLaneRatio_lanes k _ _ next (lanePrices p)) by done.
           destruct (lane_get AudioInput (laneEnabled p)); [rewrite lane_field_set, decide_False by done |]; exact Hl.
    + rewrite bool_decide_eq_false_2 by done. cbn [andb]. destruct (decide (k = lane)) as [->|Hk].
      * destruct (lane_get lane (laneEnabled p)); [by rewrite lane_field_set, decide_True | exact Hl].
      * rewrite (deriveLaneRatio_lanes k _ _ next (lanePrices p)) by auto.
        destruct (lane_get lane (laneEnabled p)); [rewrite lane_field_set, decide_False by done |]; exact Hl.
Qed.

Lemma toggle_on_synced lane p : ratios_synced p -> ratios_synced (handleLaneToggle lane true p).
Proof.
  intros [Hr Hl]. apply synced_intro; [by rewrite ratio_set |]. intros k. rewrite lane_field_set. unfold lane_ratio.
  cbn [with_lanes laneEnabled lanePrices promptPrice]. rewrite lane_get_set. destruct (decide (k = lane)) as [->|Hk]; [done | apply Hl].
Qed.

Lemma toggle_off_synced lane p : ratios_synced p -> ratios_synced (handleLaneToggle lane false p).
Proof.
  intros [Hr Hl]. destruct (decide (lane = AudioInput)) as [->|Hne].
  - change (handleLaneToggle AudioInput false p) with
      (with_form (with_lanes p (lane_set AudioOutput [] (lane_set AudioInput [] (lanePrices p)))
                    (lane_set AudioOutput false (lane_set AudioInput false (laneEnabled p))))
         (setFormValue (ratioFieldByLane AudioOutput) [] (setFormValue (ratioFieldByLane AudioInput) [] (form p)))).
    apply synced_intro; [by rewrite !ratio_set |]. intros k. rewrite !lane_field_set. unfold lane_ratio.
    cbn [with_lanes laneEnabled lanePrices promptPrice]. rewrite !lane_get_set.
    destruct (decide (k = AudioOutput)) as [->|H1]; [done |]. destruct (decide (k = AudioInput)) as [->|H2]; [done |].
    rewrite Hl. unfold lane_ratio. destruct (lane_get k (laneEnabled p)); [| done]. by apply deriveLaneRatio_lanes.
  - assert (handleLaneToggle lane false p = with_form (with_lanes p (lane_set lane [] (lanePrices p)) (lane_set lane false (laneEnabled p)))
      (setFormValue (ratioFieldByLane lane) [] (form p))) as -> by (by destruct lane).
    apply synced_intro; [by rewrite ratio_set |]. intros k. rewrite lane_field_set. unfold lane_ratio.
    cbn [with_lanes laneEnabled lanePrices promptPrice]. rewrite !lane_get_set.
    destruct (decide (k = lane)) as [->|Hk]; [done |]. rewrite Hl. unfold lane_ratio.
    destruct (lane_get k (laneEnabled p)); [| done]. apply deriveLaneRatio_lanes. intros _.
    change (lane_get AudioInput (lanePrices p) = lane_get AudioInput (lane_set lane [] (lanePrices p))).
    by rewrite lane_get_set, decide_False.
Qed.

Lemma new_model_synced p : ratios_synced (load_data None p).
Proof. split; [done |]. by intros []. Qed.

Lemma panel_step_synced p p' : panel_step p p' -> ratios_synced p -> ratios_synced p'.
Proof.
  intros [value q|lane value q|lane checked q|mode q|value q|value q|value q|value q|q] H; try exact H.
  - by apply prompt_synced.
  - by apply lane_synced.
  - destruct checked; [by apply toggle_on_synced | by apply toggle_off_synced].
  - unfold handlePriceChange. destruct (rtest _ _); [| done]. destruct H as [Hr Hl]. split; [done |].
    intros k. rewrite <- (Hl k : _ = lane_ratio (with_form q _) k). by destruct k.
  - apply new_model_synced.
Qed.

(** C14: From an empty panel, whatever the user types, toggles and switches, in any order,
    the hidden ratios that a save sends are those of the prices on screen: the base
    ratio is half the input price, every enabled lane has the quotient of its price by
    the input price - by the audio input price for audio output - or nothing when that
    quotient does not exist, and disabled lanes have none.  In particular a change of
    the input price rewrites all lanes and a change of the audio input price rewrites
    audio output. *)
Theorem panel_ratios_follow_prices p0 p :
  rtc panel_step (load_data None p0) p ->
  ratio (fv_pricing (form p)) = base_ratio (promptPrice p) /\
  forall k, pget (ratioFieldByLane k) (fv_pricing (form p)) =
    if lane_get k (laneEnabled p) then deriveLaneRatio k (lane_get k (lanePrices p)) (promptPrice p) (lanePrices p) else [].
Proof.
  intros Hp. change (ratios_synced p). pose proof (new_model_synced p0) as H0. revert H0.
  induction Hp as [q|x y z Hxy _ IH]; intros H0; [done |]. by apply IH, (panel_step_synced x).
Qed.

Definition typed_panel : Panel :=
  handleLanePriceChange AudioInput (js "6") (handleLanePriceChange AudioOutput (js "12")
    (handleLaneToggle AudioOutput true (handleLanePriceChange AudioInput (js "3") (handleLaneToggle AudioInput true
      (handlePromptPriceChange (js "1.5") (load_data None initial_panel)))))).

Lemma panel_ratios_follow_prices_witness :
  pmap id (fv_pricing (form typed_panel)) = mkPricing [] (js "0.75") [] [] [] [] (js "4") (js "2") /\
  ratio (fv_pricing (form typed_panel)) = base_ratio (promptPrice typed_panel) /\
  forall k, pget (ratioFieldByLane k) (fv_pricing (form typed_panel)) =
    if lane_get k (laneEnabled typed_panel)
    then deriveLaneRatio k (lane_get k (lanePrices typed_panel)) (promptPrice typed_panel) (lanePrices typed_panel) else [].
Proof.
  split; [vm_compute; reflexivity |]. apply (panel_ratios_follow_prices initial_panel).
  unfold typed_panel. do 6 (eapply rtc_r; [| constructor]). apply rtc_refl.
Defined.

(** ** Rows of the table *)

(** The settings of two snapshots agree, an absent text counting as empty. *)
Definition same_settings (a b : ModelPricingSnapshot) : Prop :=
  (forall f, opt_or_empty (pget f (s_pricing a)) = opt_or_empty (pget f (s_pricing b))) /\
  opt_str_or (s_billingMode a) (js "per-token") = opt_str_or (s_billingMode b) (js "per-token") /\
  opt_or_empty (s_billingExpr a) = opt_or_empty (s_billingExpr b) /\
  opt_or_empty (s_requestRuleExpr a) = opt_or_empty (s_requestRuleExpr b).

Lemma signature_json_eq a b : signature_json a = signature_json b <-> same_settings a b.
Proof.
  unfold same_settings. split.
  - intros H. unfold signature_json in H. injection H. intros. split; [intros []; assumption | done].
  - intros (Hp & Hm & He & Hr). unfold signature_json. cbv zeta.
    pose proof (Hp Price) as H1. pose proof (Hp Ratio) as H2. pose proof (Hp CacheRatio) as H3. pose proof (Hp CreateCacheRatio) as H4.
    pose proof (Hp CompletionRatio) as H5. pose proof (Hp ImageRatio) as H6. pose proof (Hp AudioRatio) as H7.
    pose proof (Hp AudioCompletionRatio) as H8. cbn [pget] in *. by rewrite H1, H2, H3, H4, H5, H6, H7, H8, Hm, He, Hr.
Qed.

Lemma signature_json_ok s : json_ok (signature_json s).
Proof. unfold signature_json. cbv zeta. apply json_ok_wf. split; [repeat constructor |]. split; [apply (bool_decide_unpack _); vm_compute; exact I | vm_compute; reflexivity]. Qed.

Lemma signature_eq a b : getSnapshotSignature (Some a) = getSnapshotSignature (Some b) <-> same_settings a b.
Proof.
  cbn [getSnapshotSignature]. rewrite <- signature_json_eq. split; [| by intros ->]. intros H.
  apply (f_equal JSON_parse) in H. rewrite !json_roundtrip in H by apply signature_json_ok. congruence.
Qed.

Lemma signature_not_nil a : getSnapshotSignature (Some a) <> [].
Proof. done. Qed.

Lemma snapshot_name m n s : snapshot_of m n = Found s -> s_name s = n.
Proof.
  unfold snapshot_of. cbv zeta. destruct (is_the_string _ _); [| by intros [= <-]].
  destruct (string_or_empty _); [| done]. destruct (splitBillingExprAndRequestRules _); cbn [outcome_bind]; [by intros [= <-] | done | done].
Qed.

Lemma outcome_map_Forall2 {A B} (f : A -> outcome B) l ys : outcome_map f l = Found ys -> Forall2 (fun x y => f x = Found y) l ys.
Proof.
  revert ys. induction l as [|x l IH]; intros ys H; cbn in H; [by injection H as <- |].
  destruct (f x) as [y| |] eqn:E; cbn in H; try done. destruct (outcome_map f l) as [zs| |]; cbn in H; try done.
  injection H as <-. constructor; [done | by apply IH].
Qed.

Lemma by_name_id rows : NoDup (map s_name rows) -> by_name rows = map (fun r => (s_name r, r)) rows.
Proof.
  intros H. pose proof (foldl_map_set_id [] (map (fun r => (s_name r, r)) rows)) as E. cbn [app] in E.
  rewrite <- E; [| change ((map (fun r => (s_name r, r)) rows).*1) with (map fst (map (fun r => (s_name r, r)) rows)); rewrite map_map; exact H].
  unfold by_name. generalize (@nil (str * ModelPricingSnapshot)). clear. induction rows as [|r rows IH]; intros m; cbn; [done |]. apply IH.
Qed.

Section Snapshots.
Variables (i : ModelPricingSnapshotInput) (m : PriceMaps) (rows : list ModelPricingSnapshot).
Hypothesis Hm : read_maps i = Some m.
Hypothesis Hrows : buildModelSnapshots i = Found rows.

Lemma snapshots_rows : Forall2 (fun n s => snapshot_of m n = Found s) (modelNames m) rows.
Proof. unfold buildModelSnapshots in Hrows. rewrite Hm in Hrows. by apply outcome_map_Forall2. Qed.

Lemma snapshots_names : map s_name rows = modelNames m.
Proof.
  pose proof snapshots_rows as HF. revert HF. generalize (modelNames m). clear Hrows. induction rows as [|s ss IH]; intros ns HF; inv HF; cbn; [done |].
  f_equal; [by eapply snapshot_name | by apply IH].
Qed.

Lemma snapshots_keys : map fst (by_name rows) = modelNames m.
Proof. rewrite by_name_id; [by rewrite map_map, <- snapshots_names | rewrite snapshots_names; apply NoDup_set_of]. Qed.

(** The snapshot that is found under a name. *)
Lemma snapshots_lookup n s : map_get n (by_name rows) = Some s <-> n ∈ modelNames m /\ snapshot_of m n = Found s.
Proof.
  pose proof snapshots_names as En. assert (NoDup (map s_name rows)) as Hn by (rewrite En; apply NoDup_set_of).
  assert (NoDup (by_name rows).*1) as Hd by (change (NoDup (map fst (by_name rows))); rewrite snapshots_keys; apply NoDup_set_of).
  pose proof snapshots_rows as HF. split.
  - intros H%map_get_elem. rewrite by_name_id in H by done. apply list_elem_of_In, in_map_iff in H as (r & [= E1 E2] & Hr). subst r.
    apply list_elem_of_In, list_elem_of_lookup in Hr as [j Hj].
    destruct (Forall2_lookup_r _ _ _ _ _ HF Hj) as (n' & Hn' & Hs). pose proof (snapshot_name _ _ _ Hs) as E. assert (n = n') as -> by congruence.
    split; [| done]. by eapply list_elem_of_lookup_2.
  - intros [Hin Hs]. apply elem_map_get; [done |]. rewrite by_name_id by done.
    apply list_elem_of_lookup in Hin as [j Hj].
    destruct (Forall2_lookup_l _ _ _ _ _ HF Hj) as (s' & Hs' & E). assert (s' = s) as -> by congruence.
    apply list_elem_of_In, in_map_iff. exists s. split; [by rewrite (snapshot_name _ _ _ Hs) |]. apply list_elem_of_In. by eapply list_elem_of_lookup_2.
Qed.

Lemma snapshots_missing n : map_get n (by_name rows) = None <-> n ∉ modelNames m.
Proof. rewrite map_get_None. change ((by_name rows).*1) with (map fst (by_name rows)). by rewrite snapshots_keys. Qed.
End Snapshots.

Lemma row_of_name saved draft n row :
  (forall s, map_get n saved = Some s -> s_name s = n) -> (forall s, map_get n draft = Some s -> s_name s = n) ->
  row_of saved draft n = Some row -> s_name (r_displayed row) = n.
Proof.
  intros Hs Hd. unfold row_of. destruct (map_get n saved) as [s|]; cbn [mbind option_bind].
  - intros [= <-]. by apply Hs.
  - destruct (map_get n draft) as [d|]; [| done]. intros [= <-]. by apply Hd.
Qed.

#[local] Opaque getSnapshotSignature.
Section Rows.
Context {coll : Collation}.
Variables (savedIn draftIn : ModelPricingSnapshotInput) (ms md : PriceMaps) (savedRows draftRows : list ModelPricingSnapshot).
Hypothesis Hms : read_maps savedIn = Some ms.
Hypothesis Hmd : read_maps draftIn = Some md.
Hypothesis Hsr : buildModelSnapshots savedIn = Found savedRows.
Hypothesis Hdr : buildModelSnapshots draftIn = Found draftRows.
Let row (n : str) : option ModelRow := row_of (by_name savedRows) (by_name draftRows) n.
Let names : list str := set_of (map fst (by_name savedRows) ++ map fst (by_name draftRows)).

Lemma row_name n r : row n = Some r -> s_name (r_displayed r) = n.
Proof.
  apply row_of_name; intros s H.
  - apply (snapshots_lookup _ _ _ Hms Hsr) in H as [_ H]. by eapply snapshot_name.
  - apply (snapshots_lookup _ _ _ Hmd Hdr) in H as [_ H]. by eapply snapshot_name.
Qed.

Lemma row_draft n r : row n = Some r -> r_draft r = map_get n (by_name draftRows) /\ r_saved r = map_get n (by_name savedRows).
Proof.
  unfold row, row_of. destruct (map_get n (by_name savedRows)), (map_get n (by_name draftRows)); cbn; by intros [= <-].
Qed.

(** The rows that are kept, by name. *)
Lemma kept_row r :
  r ∈ model_rows savedRows draftRows <->
  exists n, row n = Some r /\ n ∈ modelNames md.
Proof.
  unfold model_rows. rewrite elem_of_sort_by, list_elem_of_In, filter_In, <- list_elem_of_In, list_elem_of_omap. fold names row. split.
  - intros [(n & Hn & Hr) Hdel]. exists n. split; [done |]. unfold row, row_of in Hr.
    destruct (map_get n (by_name draftRows)) as [d|] eqn:Ed; [by apply (snapshots_lookup _ _ _ Hmd Hdr) in Ed as [? _] |].
    destruct (map_get n (by_name savedRows)) as [s|]; [| done]. injection Hr as <-. done.
  - intros (n & Hr & Hn). split.
    + exists n. split; [| done]. unfold names. rewrite elem_of_set_of, elem_of_app. right. by rewrite (snapshots_keys _ _ _ Hmd Hdr).
    + unfold row, row_of in Hr. destruct (map_get n (by_name draftRows)) as [d|] eqn:Ed.
      * destruct (map_get n (by_name savedRows)); injection Hr as <-; done.
      * apply (snapshots_missing _ _ _ Hmd Hdr) in Ed. done.
Qed.

Lemma omap_names l : NoDup l -> NoDup (map (fun r => s_name (r_displayed r)) (omap row l)).
Proof.
  induction 1 as [|n l Hn Hl IH]; cbn; [constructor |]. destruct (row n) as [r|] eqn:E; [| done]. cbn. constructor; [| done].
  rewrite list_elem_of_In, in_map_iff. intros (r' & E' & Hr'). apply list_elem_of_In, list_elem_of_omap in Hr' as (n' & Hn' & Er').
  apply row_name in Er', E. congruence.
Qed.

Lemma bfilter_map_NoDup {A B} (g : A -> B) (f : A -> bool) l : NoDup (map g l) -> NoDup (map g (List.filter f l)).
Proof.
  induction l as [|x l IH]; cbn; [done |]. intros [Hx Hl]%NoDup_cons. destruct (f x); cbn; [| by apply IH].
  apply NoDup_cons. split; [| by apply IH]. intros Hin. apply Hx. apply list_elem_of_In, in_map_iff in Hin as (y & E & Hy).
  apply filter_In in Hy as [Hy _]. apply list_elem_of_In, in_map_iff. eauto.
Qed.

Lemma rows_NoDup : NoDup (map (fun r => s_name (r_displayed r)) (model_rows savedRows draftRows)).
Proof.
  unfold model_rows. fold names row.
  assert (forall l l' : list ModelRow, l ≡ₚ l' -> NoDup (map (fun r => s_name (r_displayed r)) l') -> NoDup (map (fun r => s_name (r_displayed r)) l)) as Hp
    by (intros l l' H; by rewrite (Permutation_map _ H)).
  eapply Hp; [apply sort_by_perm |]. apply bfilter_map_NoDup, omap_names, NoDup_set_of.
Qed.

Lemma row_changed n r :
  row n = Some r -> n ∈ modelNames md ->
  (r_isDraftNew r = true <-> n ∉ modelNames ms) /\
  (r_isDraftChanged r = false <-> exists s d, r_saved r = Some s /\ r_draft r = Some d /\ same_settings s d).
Proof.
  intros Hr Hn. pose proof (snapshots_missing _ _ _ Hms Hsr n) as Hs. pose proof (snapshots_missing _ _ _ Hmd Hdr n) as Hd.
  unfold row, row_of in Hr. destruct (map_get n (by_name draftRows)) as [d|]; [| tauto].
  destruct (map_get n (by_name savedRows)) as [s|]; injection Hr as <-; cbn [r_isDraftNew r_isDraftChanged r_saved r_draft is_Some_b negb andb].
  - split; [by split; [| intros H; apply Hs in H] |]. rewrite negb_false_iff, str_eqb_eq, signature_eq. split; [by eauto |].
    by intros (? & ? & [= <-] & [= <-] & H).
  - split; [by split; [intros _; apply Hs |] |]. split; [| by intros (? & ? & ? & _)].
    intros H. apply negb_false_iff, str_eqb_eq in H. symmetry in H. by apply signature_not_nil in H.
Qed.
End Rows.

(** The table of models lists exactly the models of the draft settings, each once,
    in the order of the collation; models that only the saved settings have are gone.
    Each row carries the snapshot of its draft, is marked as new exactly when the saved
    settings do not have the model, and as unchanged exactly when the saved and the
    draft snapshot agree in every field - although the code compares two JSON texts. *)
Theorem model_table_spec {coll : Collation} savedIn draftIn ms md rows :
  read_maps savedIn = Some ms -> read_maps draftIn = Some md -> models savedIn draftIn = Found rows ->
  cmp_sorted compare_rows rows /\ NoDup (map (fun r => s_name (r_displayed r)) rows) /\
  (forall n, n ∈ map (fun r => s_name (r_displayed r)) rows <-> n ∈ modelNames md) /\
  forall r, r ∈ rows ->
    let n := s_name (r_displayed r) in
    (exists d, snapshot_of md n = Found d /\ r_draft r = Some d) /\
    (r_isDraftNew r = true <-> n ∉ modelNames ms) /\
    (r_isDraftChanged r = false <-> exists s d, r_saved r = Some s /\ r_draft r = Some d /\ same_settings s d).
Proof.
  intros Hms Hmd H. unfold models in H.
  destruct (buildModelSnapshots savedIn) as [savedRows| |] eqn:Hsr; try done. destruct (buildModelSnapshots draftIn) as [draftRows| |] eqn:Hdr; try done.
  injection H as <-. pose proof (kept_row draftIn md savedRows draftRows Hmd Hdr) as Hk.
  assert (forall n r, row_of (by_name savedRows) (by_name draftRows) n = Some r -> n ∈ modelNames md -> exists d, snapshot_of md n = Found d /\ r_draft r = Some d) as Hd.
  { intros n r Hr Hn. destruct (map_get n (by_name draftRows)) as [d|] eqn:E; [| by apply (snapshots_missing _ _ _ Hmd Hdr) in E].
    exists d. split; [by apply (snapshots_lookup _ _ _ Hmd Hdr) in E as [_ ?] |].
    unfold row_of in Hr. rewrite E in Hr. destruct (map_get n (by_name savedRows)); by injection Hr as <-. }
  split; [| split; [exact (rows_NoDup _ _ _ _ _ _ Hms Hmd Hsr Hdr) | split]].
  - unfold model_rows. apply sort_by_sorted_pre. apply (locale_preorder (fun r => s_name (r_displayed r))).
  - intros n. rewrite list_elem_of_In, in_map_iff. split.
    + intros (r & <- & Hr). apply list_elem_of_In, Hk in Hr as (n & Hr & Hn). by rewrite (row_name _ _ _ _ _ _ Hms Hmd Hsr Hdr n r Hr).
    + intros Hn. assert (exists r, row_of (by_name savedRows) (by_name draftRows) n = Some r) as [r Hr].
      { unfold row_of. destruct (map_get n (by_name draftRows)) eqn:E; [| by apply (snapshots_missing _ _ _ Hmd Hdr) in E].
        destruct (map_get n (by_name savedRows)); eexists; reflexivity. }
      exists r. split; [by apply (row_name _ _ _ _ _ _ Hms Hmd Hsr Hdr n r) |]. apply list_elem_of_In, Hk. eauto.
  - intros r Hr n. apply Hk in Hr as (n' & Hr & Hn). pose proof (row_name _ _ _ _ _ _ Hms Hmd Hsr Hdr n' r Hr) as E. fold n in E. subst n'.
    split; [by apply Hd |]. exact (row_changed _ _ _ _ _ _ Hms Hmd Hsr Hdr n r Hr Hn).
Qed.

Definition demo_draft : ModelPricingSnapshotInput :=
  print_maps (store_model demo_data (forget_model (js "o3") demo_maps) (js "gpt-4o")).

Lemma demo_table : exists md rows,
  read_maps demo_texts = Some demo_maps /\ read_maps demo_draft = Some md /\ models (coll := unit_collation) demo_texts demo_draft = Found rows /\
  map (fun r => (s_name (r_displayed r), r_isDraftChanged r)) rows = [(js "dall-e-3", false); (js "gpt-4o", true)].
Proof. do 2 eexists. split; [vm_compute; reflexivity |]. split; [vm_compute; reflexivity |]. split; vm_compute; reflexivity. Qed.

Lemma model_table_spec_witness :
  exists md rows,
  map (fun r => (s_name (r_displayed r), r_isDraftChanged r)) rows = [(js "dall-e-3", false); (js "gpt-4o", true)] /\
  cmp_sorted (compare_rows (coll := unit_collation)) rows /\ NoDup (map (fun r => s_name (r_displayed r)) rows) /\
  (forall n, n ∈ map (fun r => s_name (r_displayed r)) rows <-> n ∈ modelNames md) /\
  forall r, r ∈ rows ->
    let n := s_name (r_displayed r) in
    (exists d, snapshot_of md n = Found d /\ r_draft r = Some d) /\
    (r_isDraftNew r = true <-> n ∉ modelNames demo_maps) /\
    (r_isDraftChanged r = false <-> exists s d, r_saved r = Some s /\ r_draft r = Some d /\ same_settings s d).
Proof.
  destruct demo_table as (md & rows & Es & Ed & Er & En). exists md, rows. split; [exact En |].
  exact (model_table_spec (coll := unit_collation) demo_texts demo_draft demo_maps md rows Es Ed Er).
Defined.

(** ** The requests of a save *)

Definition setting_key (s : Setting) : str :=
  match s with
  | SPrice Price => js "ModelPrice" | SPrice Ratio => js "ModelRatio" | SPrice CacheRatio => js "CacheRatio"
  | SPrice CreateCacheRatio => js "CreateCacheRatio" | SPrice CompletionRatio => js "CompletionRatio"
  | SPrice ImageRatio => js "ImageRatio" | SPrice AudioRatio => js "AudioRatio"
  | SPrice AudioCompletionRatio => js "AudioCompletionRatio"
  | SMode => js "billing_setting.billing_mode" | SExpr => js "billing_setting.billing_expr"
  end.

Lemma normalize_pretty l : json_ok (JObj l) -> normalizeJsonString (JSON_pretty (JObj l)) = JSON_stringify (JObj l).
Proof.
  intros Hok. unfold normalizeJsonString. destruct (pretty_obj_shape l) as [m E].
  assert (trim (JSON_pretty (JObj l)) = JSON_pretty (JObj l)) as -> by (rewrite E; apply trimmed_trim, trimmed_braces).
  rewrite pretty_roundtrip by done. by rewrite E.
Qed.

Lemma stringify_obj_inj l l' : json_ok (JObj l) -> json_ok (JObj l') -> JSON_stringify (JObj l) = JSON_stringify (JObj l') -> l = l'.
Proof. intros H H' E. apply (f_equal JSON_parse) in E. rewrite !json_roundtrip in E by done. congruence. Qed.

(** The value of a setting in normalized form. *)
Lemma normalized_setting m b s :
  maps_ok m -> map_get (setting_key s) (setting_values (normalize_values (mkValues (print_maps m) b))) = Some (OptText (JSON_stringify (JObj (setting_map s m)))).
Proof.
  intros H. rewrite maps_ok_settings in H. specialize (H s). rewrite <- normalize_pretty by done.
  destruct m as [[] ? ?]. by destruct s as [[]| |].
Qed.

Lemma setting_values_NoDup v : NoDup (setting_values v).*1.
Proof. apply (bool_decide_unpack _). vm_compute. exact I. Qed.

Lemma save_request_spec values saved k x :
  (k, x) ∈ saveModelRatios values saved <->
  map_get k (setting_values (normalize_values values)) = Some x /\ map_get k (setting_values saved) <> Some x.
Proof.
  unfold saveModelRatios. rewrite list_elem_of_In, filter_In, <- list_elem_of_In. cbn [fst snd]. rewrite negb_true_iff, bool_decide_eq_false. split.
  - intros [H ?]. split; [| done]. apply elem_map_get; [apply setting_values_NoDup | done].
  - intros [H ?]. split; [by apply map_get_elem | done].
Qed.

(** A save ([saveModelRatios]) sends exactly the settings whose objects differ from the
    saved ones, under their API names: a setting that no edit touched is not sent,
    however the draft text is indented, and what is sent is a JSON text of the new
    object. *)
Theorem save_sends_changed_settings m m' b b' s :
  maps_ok m -> maps_ok m' ->
  let requests := saveModelRatios (mkValues (print_maps m') b') (normalize_values (mkValues (print_maps m) b)) in
  (setting_key s ∈ map fst requests <-> setting_map s m' <> setting_map s m) /\
  forall x, (setting_key s, x) ∈ requests -> exists u, x = OptText u /\ JSON_parse u = Some (JObj (setting_map s m')).
Proof.
  intros Hm Hm' requests. pose proof (normalized_setting m b s Hm) as E. pose proof (normalized_setting m' b' s Hm') as E'.
  assert (forall x, (setting_key s, x) ∈ requests <-> x = OptText (JSON_stringify (JObj (setting_map s m'))) /\ setting_map s m' <> setting_map s m) as H.
  { intros x. unfold requests. rewrite save_request_spec, E, E'. rewrite maps_ok_settings in Hm, Hm'. split.
    - intros [[= <-] Hne]. split; [done |]. intros Eq. apply Hne. by rewrite Eq.
    - intros [-> Hne]. split; [done |]. intros Eq. apply Hne. symmetry.
      apply stringify_obj_inj; [done | done |]. assert (forall u v, Some (OptText u) = Some (OptText v) -> u = v) as Hinj by congruence. by apply Hinj. }
  split.
  - rewrite list_elem_of_In, in_map_iff. split.
    + intros ([k x] & Hk & Hx). cbn in Hk. subst k. by apply list_elem_of_In, H in Hx as [_ ?].
    + intros Hne. exists (setting_key s, OptText (JSON_stringify (JObj (setting_map s m')))). split; [done |]. apply list_elem_of_In. by apply H.
  - intros x [-> _]%H. exists (JSON_stringify (JObj (setting_map s m'))). split; [done |]. apply json_roundtrip. by apply maps_ok_settings.
Qed.

Lemma save_sends_changed_settings_witness :
  let requests := saveModelRatios (mkValues (print_maps (forget_model (js "gpt-4o") demo_maps)) true)
                    (normalize_values (mkValues (print_maps demo_maps) true)) in
  map fst requests = [js "ModelRatio"; js "CacheRatio"; js "CompletionRatio"] /\
  (setting_key (SPrice Ratio) ∈ map fst requests <-> setting_map (SPrice Ratio) (forget_model (js "gpt-4o") demo_maps) <> setting_map (SPrice Ratio) demo_maps) /\
  forall x, (setting_key (SPrice Ratio), x) ∈ requests ->
    exists u, x = OptText u /\ JSON_parse u = Some (JObj (setting_map (SPrice Ratio) (forget_model (js "gpt-4o") demo_maps))).
Proof.
  intros requests. split; [vm_compute; reflexivity |].
  apply save_sends_changed_settings; [apply demo_maps_ok | apply forget_ok, demo_maps_ok].
Defined.

(** ** Opening a model and saving it *)

(** The settings of a model that are numbers, each of which its text denotes. *)
Definition plain_numbers (m : PriceMaps) (n : str) : Prop :=
  forall f, match setting (SPrice f) m n with
            | None => True
            | Some (JNum x) => num_ok x = true /\ parseFloat (num_to_str x) = x
            | Some _ => False
            end.

Lemma plain_number_again m n f :
  plain_numbers m n -> let v := shown_value (setting (SPrice f) m n) in shown_value (stored (Some v)) = v.
Proof.
  intros H. specialize (H f). destruct (setting (SPrice f) m n) as [[| |x| | |]|]; try done. destruct H as [Hx Hp]. cbn [shown_value to_String].
  destruct (num_ok_text x Hx) as [Hf Ht]. rewrite stored_num; [| done | by rewrite Hp]. cbn. by rewrite Hp.
Qed.

(** The texts that the settings show for a model. *)
Definition shown_prices (m : PriceMaps) (n : str) : Pricing str := pmap (fun l => shown_value (map_get n l)) (m_pricing m).
Definition has_conflict (q : Pricing str) : bool :=
  truthy (price q) && (truthy (ratio q) || truthy (completionRatio q) || truthy (cacheRatio q) || truthy (createCacheRatio q) ||
        truthy (imageRatio q) || truthy (audioRatio q) || truthy (audioCompletionRatio q)).

(** A snapshot without an expression. *)
Lemma plain_snapshot m n s :
  snapshot_of m n = Found s -> is_mode TieredExpr (s_billingMode s) = false ->
  is_the_string (mode_text TieredExpr) (map_get n (m_billingMode m)) = false /\
  s_pricing s = pmap Some (shown_prices m n) /\ s_hasConflict s = has_conflict (shown_prices m n).
Proof.
  unfold snapshot_of. cbv zeta. fold (shown_prices m n). destruct (is_the_string _ _); [| by intros [= <-]].
  destruct (string_or_empty _); [| done]. destruct (splitBillingExprAndRequestRules _); cbn [outcome_bind]; [by intros [= <-] | done | done].
Qed.

Lemma conflict_free (q : Pricing str) f :
  has_conflict q = false -> eqb (truthy (price q)) (bool_decide (f = Price)) = false -> pget f q = [].
Proof.
  unfold has_conflict. intros Hc Hw. apply truthy_false. destruct (truthy (price q)) eqn:E; case_bool_decide as Hf; try done.
  - cbn [andb] in Hc. rewrite !orb_false_iff in Hc. destruct_and! Hc. by destruct f.
  - by subst.
Qed.

(** Data that repeats what the settings of a model say is shown as before. *)
Lemma same_data_view m n data s :
  snapshot_of m n = Found s -> is_mode TieredExpr (s_billingMode s) = false -> s_hasConflict s = false -> plain_numbers m n ->
  is_tiered data = false -> d_pricing data = pmap Some (shown_prices m n) ->
  saved_view data n = snapshot_of m n /\ storable_data data.
Proof.
  intros Hs Hmode Hc Hplain Etier Ed. destruct (plain_snapshot _ _ _ Hs Hmode) as (Hnt & _ & Hcq). rewrite Hcq in Hc.
  set (q := shown_prices m n) in *. assert (forall f, pget f q = shown_value (setting (SPrice f) m n)) as Hq by (intros f; unfold q, shown_prices; by rewrite pget_map).
  assert (forall f, shown_field data f = pget f q) as Hf.
  { intros f. unfold shown_field. cbn [stored_setting]. unfold written. rewrite Etier, Ed. cbn [orb].
    change (price (pmap Some q)) with (Some (price q)). rewrite opt_or_some. destruct (eqb _ _) eqn:Ew.
    - rewrite pget_map, Hq. by apply plain_number_again.
    - symmetry. by apply conflict_free. }
  split.
  - unfold saved_view, snapshot_of. rewrite Etier, Hnt. cbn [andb]. cbv zeta. fold (shown_prices m n). fold q.
    assert (pmake (fun f => shown_field data f) = q) as -> by (apply pricing_ext; intros f; by rewrite pget_make).
    f_equal. f_equal; [by destruct (truthy (price q)) |]. fold (has_conflict q). rewrite Hc. apply not_true_iff_false.
    intros [Hp [f [Hin Htf]]%existsb_exists]%andb_prop. apply list_elem_of_In, in_ratio_fields in Hin.
    rewrite (conflict_free q f) in Htf; [done | done |]. rewrite Hp. by rewrite bool_decide_eq_false_2.
  - intros f. unfold storable. rewrite Ed, pget_map, opt_or_some, Hq. specialize (Hplain f).
    destruct (setting (SPrice f) m n) as [[| |x| | |]|]; try done; cbn [shown_value to_String].
    by destruct Hplain as [? ->].
Qed.

Lemma edited_panel_data r s e :
  r_draft r = Some s -> is_mode TieredExpr (s_billingMode s) = false ->
  fv_name (form (e_panel (handleEdit r e))) = s_name s /\
  fv_pricing (form (e_panel (handleEdit r e))) = pmap opt_or_empty (s_pricing s) /\
  pricingMode (e_panel (handleEdit r e)) <> TieredExpr.
Proof.
  intros E Hm. unfold handleEdit, open_editor. rewrite E, Hm. cbn [e_panel].
  assert (forall p, pricingMode (load_data (Some (mkData (s_name s) (s_pricing s)
    (Some (if truthy (opt_or_empty (price (s_pricing s))) then PerRequest else PerToken)) (s_billingExpr s) (s_requestRuleExpr s))) p) <> TieredExpr) as H.
  { intros p. cbn [load_data pricingMode]. unfold data_mode. cbn [d_billingMode d_pricing]. by destruct (truthy _). }
  destruct (negb (e_editorOpen e)); [split; [done | split; [done | apply H]] |].
  destruct (e_editData e); (split; [done | split; [done | apply H]]).
Qed.

(** Opening a model that is priced per token or per request in the editor and saving
    it without a change leaves the snapshots of all models as they were, provided the
    model has no conflicting prices, its name has no surrounding white space and its
    settings are numbers that their texts denote: the round trip through the form,
    [parseFloat] and ten JSON texts loses nothing. *)
Theorem reopened_model_unchanged r s m e :
  r_draft r = Some s -> read_maps (e_draft e) = Some m -> maps_ok m -> snapshot_of m (s_name s) = Found s ->
  is_mode TieredExpr (s_billingMode s) = false -> s_hasConflict s = false -> plain_numbers m (s_name s) ->
  truthy (s_name s) = true -> trim (s_name s) = s_name s -> validatePricingValues (e_panel (handleEdit r e)) = None ->
  exists e' m', commitOpenEditor (handleEdit r e) = Some (true, e') /\ read_maps (e_draft e') = Some m' /\
    forall n, snapshot_of m' n = snapshot_of m n.
Proof.
  intros Hd Hr Hm Hs Hmode Hc Hplain Ht Htrim Hv. destruct (edited_panel_data r s e Hd Hmode) as (En & Ep & Em).
  destruct (plain_snapshot _ _ _ Hs Hmode) as (_ & Eq & _).
  set (p := e_panel (handleEdit r e)) in *. set (data := buildSubmitData p).
  assert (d_pricing data = pmap Some (shown_prices m (s_name s))) as Edp
    by (unfold data; cbn [buildSubmitData d_pricing]; rewrite Ep, Eq; apply pricing_ext; intros f; rewrite !pget_map; by rewrite opt_or_some).
  assert (is_tiered data = false) as Etier by (apply bool_decide_eq_false; intros [= ?]; done).
  destruct (same_data_view m (s_name s) data s Hs Hmode Hc Hplain Etier Edp) as [Hview Hst].
  unfold commitOpenEditor. change (e_editorOpen (handleEdit r e)) with true. cbn [negb]. fold p. unfold commitDraft.
  rewrite En, Hv, Ht. cbn [negb]. fold data. assert (d_name data = s_name s) as -> by (unfold data; cbn [buildSubmitData d_name]; by rewrite En).
  unfold persistPricingData. change (e_draft (handleEdit r e)) with (e_draft e). rewrite Hr. cbn [mbind option_bind foldl].
  eexists _, (store_model data m (s_name s)). split; [reflexivity |]. split; [by apply read_print_maps, store_model_ok |]. intros k.
  destruct (decide (k = s_name s)) as [->|Hk].
  - rewrite <- Hview. apply snapshot_saved. intros x. rewrite store_model_setting by done. by rewrite bool_decide_eq_true_2.
  - apply snapshot_of_ext. intros x. rewrite store_model_setting by done. by rewrite bool_decide_eq_false_2.
Qed.

Definition gpt_snapshot : ModelPricingSnapshot :=
  mkSnapshot (js "gpt-4o") (pmap Some (mkPricing [] (js "1.25") (js "0.5") [] (js "4") [] [] [])) (Some (js "per-token")) None None false.
Definition gpt_row : ModelRow := mkRow gpt_snapshot (Some gpt_snapshot) (Some gpt_snapshot) false false false.

Lemma reopened_model_unchanged_witness :
  exists e' m', commitOpenEditor (handleEdit gpt_row demo_editor) = Some (true, e') /\ read_maps (e_draft e') = Some m' /\
    forall n, snapshot_of m' n = snapshot_of demo_maps n.
Proof.
  apply (reopened_model_unchanged gpt_row gpt_snapshot demo_maps demo_editor).
  3: apply demo_maps_ok.
  6: intros []; vm_compute; repeat split.
  all: vm_compute; reflexivity.
Defined.
