(* ===== verification/UpstreamSync.v ===== *)
(** * Upstream price sync

    Model of [features/system-settings/models/upstream-ratio-sync.tsx] with its helpers
    ([upstream-ratio-sync-helpers.ts]), its table ([upstream-ratio-sync-table.tsx],
    [upstream-ratio-sync-columns.tsx]) and the endpoints of the channel dialog
    ([channel-selector-dialog.tsx]).  The page fetches the prices of upstream gateways,
    shows where they differ from the own settings, lets the administrator choose values
    and writes the ten price settings of [PricingSnapshots].

    The keys of a difference are the ten fields of the type [RatioType]; values are JSON
    values, as the gateway sends them ([null] for a field an upstream does not have).  The
    translation function and [toLowerCase] are parameters.  The page itself is the step
    relation [sync_step]: what the user can click, and the answers of the server. *)
From S2P Require Import Prelude Number Regex Json JsonPretty JsonObject BillingExpr PricingFormat PricingSnapshots PricingProps.

(** ** Fields and settings *)

Inductive RatioType :=
  | model_ratio | completion_ratio | cache_ratio | create_cache_ratio | image_ratio | audio_ratio
  | audio_completion_ratio | model_price | billing_mode | billing_expr.
#[global] Instance RatioType_eq_dec : EqDecision RatioType.
Proof. solve_decision. Defined.

Definition rt_text (rt : RatioType) : str :=
  match rt with
  | model_ratio => js "model_ratio" | completion_ratio => js "completion_ratio" | cache_ratio => js "cache_ratio"
  | create_cache_ratio => js "create_cache_ratio" | image_ratio => js "image_ratio" | audio_ratio => js "audio_ratio"
  | audio_completion_ratio => js "audio_completion_ratio" | model_price => js "model_price"
  | billing_mode => js "billing_mode" | billing_expr => js "billing_expr"
  end.

Definition RATIO_SYNC_FIELDS : list RatioType :=
  [model_ratio; completion_ratio; cache_ratio; create_cache_ratio; image_ratio; audio_ratio; audio_completion_ratio].

Definition SYNC_FIELD_ORDER : list RatioType := RATIO_SYNC_FIELDS ++ [model_price; billing_mode; billing_expr].

Definition NUMERIC_SYNC_FIELDS : list RatioType := RATIO_SYNC_FIELDS ++ [model_price].

Definition rt_in (rt : RatioType) (l : list RatioType) : bool := bool_decide (rt ∈ l).

Definition RATIO_TYPE_OPTIONS : list (str * str) :=
  [(js "model_ratio", js "Model ratio"); (js "completion_ratio", js "Completion ratio"); (js "cache_ratio", js "Cache ratio");
   (js "create_cache_ratio", js "Create cache ratio"); (js "image_ratio", js "Image ratio"); (js "audio_ratio", js "Audio ratio");
   (js "audio_completion_ratio", js "Audio completion ratio"); (js "model_price", js "Fixed price");
   (js "billing_expr", js "Expression billing")].

Definition getSyncFieldLabel (t : str -> str) (ratioType : str) : str :=
  match map_get ratioType RATIO_TYPE_OPTIONS with Some label => t label | None => ratioType end.

Inductive BillingCategory := CatPrice | CatRatio | CatTiered.
#[global] Instance BillingCategory_eq_dec : EqDecision BillingCategory.
Proof. solve_decision. Defined.

Definition getBillingCategory (rt : RatioType) : BillingCategory :=
  match rt with model_price => CatPrice | billing_mode | billing_expr => CatTiered | _ => CatRatio end.

(** [word.charAt(0).toUpperCase() + word.slice(1)], for the ASCII words of field names. *)
Definition capitalize (word : str) : str :=
  match word with
  | [] => []
  | c :: r => (if ((97 <=? c) && (c <=? 122))%N then (c - 32)%N else c) :: r
  end.

Definition optionKeyBySyncField (ratioType : str) : str :=
  if str_eqb ratioType (js "billing_mode") then js "billing_setting.billing_mode"
  else if str_eqb ratioType (js "billing_expr") then js "billing_setting.billing_expr"
  else concat (map capitalize (split_on 95 ratioType)).

(** The members of the object of settings ([Setting] of [PricingProps]) by their names, in
    the order in which [parsedRatios] and [finalRatios] list them. *)
Definition settings : list (str * Setting) :=
  [(js "ModelRatio", SPrice Ratio); (js "CompletionRatio", SPrice CompletionRatio); (js "CacheRatio", SPrice CacheRatio);
   (js "CreateCacheRatio", SPrice CreateCacheRatio); (js "ImageRatio", SPrice ImageRatio); (js "AudioRatio", SPrice AudioRatio);
   (js "AudioCompletionRatio", SPrice AudioCompletionRatio); (js "ModelPrice", SPrice Price);
   (js "billing_setting.billing_mode", SMode); (js "billing_setting.billing_expr", SExpr)].

Definition setting_update (s : Setting) (g : entries -> entries) (m : PriceMaps) : PriceMaps :=
  match s with
  | SPrice f => mkMaps (pset f (g (pget f (m_pricing m))) (m_pricing m)) (m_billingMode m) (m_billingExpr m)
  | SMode => mkMaps (m_pricing m) (g (m_billingMode m)) (m_billingExpr m)
  | SExpr => mkMaps (m_pricing m) (m_billingMode m) (g (m_billingExpr m))
  end.

(** [parseJsonRecord]: [None] when the text denotes something else than an object. *)
Definition parseJsonRecord (raw : str) : option entries :=
  match JSON_parse (str_or raw (js "{}")) with
  | None => Some []
  | Some (JObj l) => Some l
  | Some _ => None
  end.

Definition parsedRatios (i : ModelPricingSnapshotInput) : option PriceMaps :=
  let p := in_pricing i in
  modelRatio ← parseJsonRecord (ratio p); completion ← parseJsonRecord (completionRatio p);
  cache ← parseJsonRecord (cacheRatio p); createCache ← parseJsonRecord (createCacheRatio p);
  image ← parseJsonRecord (imageRatio p); audio ← parseJsonRecord (audioRatio p);
  audioCompletion ← parseJsonRecord (audioCompletionRatio p); modelPrice ← parseJsonRecord (price p);
  mode ← parseJsonRecord (in_billingMode i); expr ← parseJsonRecord (in_billingExpr i);
  Some (mkMaps (mkPricing modelPrice modelRatio cache createCache completion image audio audioCompletion) mode expr).

(** ** Differences *)

Record RatioDifferenceEntry := mkDiff { df_current : json; df_upstreams : entries; df_confidence : list (str * bool) }.

Abbreviation FieldDiffs := (list (RatioType * RatioDifferenceEntry)).
Abbreviation DifferencesMap := (list (str * FieldDiffs)).
Abbreviation ModelResolution := (list (RatioType * json)).
Abbreviation ResolutionsMap := (list (str * ModelResolution)).

Definition rt_delete {V} (rt : RatioType) (l : list (RatioType * V)) : list (RatioType * V) :=
  List.filter (fun e => negb (bool_decide (fst e = rt))) l.

(** [ratioTypes[rt]?.upstreams?.[name]]. *)
Definition upstream_value (d : FieldDiffs) (rt : RatioType) (name : str) : option json :=
  e ← map_get rt d; map_get name (df_upstreams e).

Definition isSelectableUpstreamValue (value : option json) : bool :=
  match value with
  | None | Some JNull => false
  | Some (JStr s) => negb (str_eqb s (js "same"))
  | Some _ => true
  end.

Definition getOrderedRatioTypes (d : FieldDiffs) (filter : str) : list RatioType :=
  let keys := map fst d in
  let ordered := List.filter (fun f => rt_in f keys) SYNC_FIELD_ORDER
                 ++ List.filter (fun f => negb (rt_in f SYNC_FIELD_ORDER)) keys in
  if negb (truthy filter) || str_eqb filter (js "__all__") then ordered
  else List.filter (fun f => str_eqb (rt_text f) filter) ordered.

Definition getPreferredSyncField (d : FieldDiffs) (rt : RatioType) (sourceName : str) : RatioType :=
  if negb (bool_decide (rt = billing_expr)) && isSelectableUpstreamValue (upstream_value d billing_expr sourceName)
  then billing_expr else rt.

(** [v === value] for the values of fields. *)
Definition same_value (a b : option json) : bool :=
  match a, b with
  | None, None | Some JNull, Some JNull => true
  | Some (JNum x), Some (JNum y) => n_eqb x y
  | Some (JStr x), Some (JStr y) => str_eqb x y
  | Some (JBool x), Some (JBool y) => Bool.eqb x y
  | _, _ => false
  end.

(** ** Choosing values *)

Definition deleteResolutionField (res : ResolutionsMap) (model : str) (rt : RatioType) : ResolutionsMap :=
  match map_get model res with
  | None => res
  | Some fields =>
      let f1 := rt_delete rt fields in
      let f2 := if bool_decide (rt = billing_expr) then rt_delete billing_mode f1 else f1 in
      let f3 := if bool_decide (rt = billing_mode) then rt_delete billing_expr f2 else f2 in
      if (length f3 =? 0)%nat then obj_delete model res else obj_set model f3 res
  end.

(** Fields of the other of the two categories are dropped. *)
Definition clear_conflicting (category : BillingCategory) (fields : ModelResolution) : ModelResolution :=
  List.filter (fun e =>
    let c := getBillingCategory (fst e) in
    negb (negb (bool_decide (category = CatTiered)) && negb (bool_decide (c = CatTiered)) && negb (bool_decide (c = category)))) fields.

(** A tiered field brings mode and expression of the same source along. *)
Definition pair_tiered (d : FieldDiffs) (finalType : RatioType) (sourceName : str) (fields : ModelResolution) : ModelResolution :=
  let modeVal := upstream_value d billing_mode sourceName in
  let exprVal := upstream_value d billing_expr sourceName in
  let fields :=
    if isSelectableUpstreamValue modeVal then map_set billing_mode (default JNull modeVal) fields
    else if bool_decide (finalType = billing_expr) then map_set billing_mode (JStr (js "tiered_expr")) fields
    else fields in
  if isSelectableUpstreamValue exprVal then map_set billing_expr (default JNull exprVal) fields else fields.

Definition handleSelectValue (differences : DifferencesMap) (model : str) (rt : RatioType) (value : json) (sourceName : str)
  (prev : ResolutionsMap) : ResolutionsMap :=
  let modelDiffs := map_get model differences in
  let finalType := if truthy sourceName then getPreferredSyncField (default [] modelDiffs) rt sourceName else rt in
  let finalValue :=
    if bool_decide (finalType = rt) then value
    else match upstream_value (default [] modelDiffs) finalType sourceName with
         | None | Some JNull => value
         | Some v => v
         end in
  let category := getBillingCategory finalType in
  let fields := map_set finalType finalValue (clear_conflicting category (default [] (map_get model prev))) in
  let fields :=
    match modelDiffs with
    | Some d => if bool_decide (category = CatTiered) && truthy sourceName then pair_tiered d finalType sourceName fields else fields
    | None => fields
    end in
  obj_set model fields prev.

Definition handleUnselectValue (model : str) (rt : RatioType) (prev : ResolutionsMap) : ResolutionsMap :=
  deleteResolutionField prev model rt.

(** ** The table *)

Record SyncRow := mkSyncRow { sr_model : str; sr_ratioTypes : FieldDiffs; sr_billingConflict : bool }.

Definition dataSource (differences : DifferencesMap) : list SyncRow :=
  map (fun '(model, ratioTypes) =>
    mkSyncRow model ratioTypes
      (map_has model_price ratioTypes && existsb (fun rt => map_has rt ratioTypes) RATIO_SYNC_FIELDS)) differences.

Section Table.
Variable toLowerCase : str -> str.

(** The rows of the table; [filter in ratioTypes] is asked of a name of a field. *)
Definition filteredData (search filter : str) (rows : list SyncRow) : list SyncRow :=
  let data :=
    if truthy (trim search)
    then List.filter (fun row => str_includes (toLowerCase (sr_model row)) (toLowerCase search)) rows else rows in
  if truthy filter && negb (str_eqb filter (js "__all__"))
  then List.filter (fun row => existsb (fun e => str_eqb (rt_text (fst e)) filter) (sr_ratioTypes row)) data
  else data.
End Table.

Definition upstreamNames (filter : str) (rows : list SyncRow) : list str :=
  set_of (concat (map (fun row =>
    concat (map (fun rt => match map_get rt (sr_ratioTypes row) with
                           | Some e => map fst (df_upstreams e)
                           | None => []
                           end) (getOrderedRatioTypes (sr_ratioTypes row) filter))) rows)).

(** The fields of a row that the column of an upstream lets choose: a cell shows a check
    box for them, and the check box of the header counts them. *)
Definition choosable (upstream filter : str) (row : SyncRow) : list (RatioType * json) :=
  omap (fun rt =>
    let v := upstream_value (sr_ratioTypes row) rt upstream in
    if bool_decide (getPreferredSyncField (sr_ratioTypes row) rt upstream = rt) && isSelectableUpstreamValue v
    then (fun v => (rt, v)) <$> v else None) (getOrderedRatioTypes (sr_ratioTypes row) filter).

(** [resolutions[model]?.[rt] === value]. *)
Definition isSelected (resolutions : ResolutionsMap) (model : str) (e : RatioType * json) : bool :=
  same_value (map_get model resolutions ≫= map_get (fst e)) (Some (snd e)).

Record HeaderState := mkHeader { hd_selectable : nat; hd_selected : nat; hd_all : bool; hd_some : bool }.

Definition column_header (upstream filter : str) (resolutions : ResolutionsMap) (rows : list SyncRow) : HeaderState :=
  let cells := concat (map (fun row => map (fun e => (sr_model row, e)) (choosable upstream filter row)) rows) in
  let selectableCount := length cells in
  let selectedCount := length (List.filter (fun c => isSelected resolutions (fst c) (snd c)) cells) in
  mkHeader selectableCount selectedCount
    ((0 <? selectableCount)%nat && (selectedCount =? selectableCount)%nat)
    ((0 <? selectedCount)%nat && (selectedCount <? selectableCount)%nat).

Definition handleBulkSelect (differences : DifferencesMap) (filter upstream : str) (rows : list SyncRow) (prev : ResolutionsMap) :
  ResolutionsMap :=
  foldl (fun res row =>
    foldl (fun res e => handleSelectValue differences (sr_model row) (fst e) (snd e) upstream res) res
      (choosable upstream filter row)) prev rows.

Definition handleBulkUnselect (filter upstream : str) (rows : list SyncRow) (prev : ResolutionsMap) : ResolutionsMap :=
  foldl (fun res row =>
    foldl (fun res rt =>
      match upstream_value (sr_ratioTypes row) rt upstream with
      | Some _ => handleUnselectValue (sr_model row) rt res
      | None => res
      end) res (getOrderedRatioTypes (sr_ratioTypes row) filter)) prev rows.

(** ** Writing the settings *)

Definition has_entry (s : Setting) (model : str) (m : PriceMaps) : bool := map_has model (setting_map s m).

Definition getLocalBillingCategory (model : str) (m : PriceMaps) : option BillingCategory :=
  if has_entry (SPrice Price) model m then Some CatPrice
  else if has_entry (SPrice Ratio) model m || has_entry (SPrice CompletionRatio) model m || has_entry (SPrice CacheRatio) model m
          || has_entry (SPrice CreateCacheRatio) model m || has_entry (SPrice ImageRatio) model m
          || has_entry (SPrice AudioRatio) model m || has_entry (SPrice AudioCompletionRatio) model m
  then Some CatRatio else None.

Definition has_ratio (ratios : ModelResolution) : bool :=
  existsb (fun rt => rt_in rt RATIO_SYNC_FIELDS) (map fst ratios).

(** The [delete]s of one model. *)
Definition drop_ratios (model : str) (m : PriceMaps) : PriceMaps :=
  foldl (fun m f => setting_update (SPrice f) (obj_delete model) m) m
    [Ratio; CompletionRatio; CacheRatio; CreateCacheRatio; ImageRatio; AudioRatio; AudioCompletionRatio].

Definition drop_price (model : str) (m : PriceMaps) : PriceMaps := setting_update (SPrice Price) (obj_delete model) m.

(** [finalRatios[optionKey][model] = …]: [None] for the exception of an unknown key. *)
Definition write_value (model : str) (m : PriceMaps) (e : RatioType * json) : option PriceMaps :=
  let '(rt, value) := e in
  s ← map_get (optionKeyBySyncField (rt_text rt)) settings;
  Some (setting_update s (obj_set model (if rt_in rt NUMERIC_SYNC_FIELDS then JNum (to_Number value) else value)) m).

Fixpoint foldM {A B} (f : A -> B -> option A) (a : A) (l : list B) : option A :=
  match l with [] => Some a | x :: l => a' ← f a x; foldM f a' l end.

Definition write_model (m : PriceMaps) (e : str * ModelResolution) : option PriceMaps :=
  let '(model, ratios) := e in
  let m := if map_has model_price ratios then drop_ratios model m else m in
  let m := if has_ratio ratios then drop_price model m else m in
  foldM (write_value model) m ratios.

Definition finalRatios (resolutions : ResolutionsMap) (current : PriceMaps) : option PriceMaps :=
  foldM write_model current resolutions.

(** [Object.entries(finalRatios)] as requests. *)
Definition sync_updates (m : PriceMaps) : list (str * str) :=
  map (fun '(key, s) => (key, JSON_pretty (JObj (setting_map s m)))) settings.

Definition performSync (resolutions : ResolutionsMap) (current : PriceMaps) : option (list (str * str)) :=
  sync_updates <$> finalRatios resolutions current.

(** ** Conflicts *)

Record ConflictItem := mkConflict { cf_channel : str; cf_model : str; cf_current : str; cf_newVal : str }.

Definition findSourceChannel (differences : DifferencesMap) (model : str) (rt : RatioType) (value : json) : str :=
  match map_get model differences ≫= map_get rt with
  | None => js "Unknown"
  | Some e =>
      match List.find (fun u => same_value (Some (snd u)) (Some value)) (df_upstreams e) with
      | Some u => fst u
      | None => js "Unknown"
      end
  end.

Definition new_category (ratios : ModelResolution) : BillingCategory :=
  if map_has model_price ratios then CatPrice
  else if existsb (fun rt => rt_in rt (map fst ratios)) RATIO_SYNC_FIELDS then CatRatio else CatTiered.

(** [`${value ?? '-'}`]. *)
Definition or_dash (v : option json) : str := match v with None | Some JNull => js "-" | Some v => to_String v end.

(** [`${value}`]. *)
Definition in_template (v : option json) : str := match v with None => js "undefined" | Some v => to_String v end.

Section Conflicts.
Variable t : str -> str.

Definition describe_price (v : option json) : str := t (js "Fixed price") ++ js ": " ++ in_template v.
Definition describe_ratio (r c : option json) : str :=
  t (js "Model ratio") ++ js ": " ++ or_dash r ++ [newline] ++ t (js "Completion ratio") ++ js ": " ++ or_dash c.

Definition conflict_of (differences : DifferencesMap) (current : PriceMaps) (e : str * ModelResolution) : option ConflictItem :=
  let '(model, ratios) := e in
  let newCat := new_category ratios in
  match getLocalBillingCategory model current with
  | None => None
  | Some localCat =>
      if negb (bool_decide (newCat = CatTiered)) && negb (bool_decide (localCat = newCat)) then
        let at_setting f := map_get model (pget f (m_pricing current)) in
        Some (mkConflict
          (join (js ", ") (set_of (map (fun r => findSourceChannel differences model (fst r) (snd r)) ratios)))
          model
          (if bool_decide (localCat = CatPrice) then describe_price (at_setting Price)
           else describe_ratio (at_setting Ratio) (at_setting CompletionRatio))
          (if bool_decide (newCat = CatPrice) then describe_price (map_get model_price ratios)
           else describe_ratio (map_get model_ratio ratios) (map_get completion_ratio ratios)))
      else None
  end.

Definition sync_conflicts (differences : DifferencesMap) (resolutions : ResolutionsMap) (current : PriceMaps) : list ConflictItem :=
  omap (conflict_of differences current) resolutions.
End Conflicts.

(** ** Sending *)

(** What becomes of one request: stored, refused in the body of a successful response (which
    [updateSystemOption] returns like any other), or failed, and then possibly stored. *)
Inductive Answer := Stored | Refused | Failed (stored : bool).

(** The loop of [syncMutate]: the settings of the server and whether the promise resolves. *)
Fixpoint run_updates (answers : list Answer) (updates server : list (str * str)) {struct updates} : list (str * str) * bool :=
  match updates with
  | [] => (server, true)
  | (key, value) :: updates =>
      match answers with
      | Stored :: answers => run_updates answers updates (map_set key value server)
      | Refused :: answers => run_updates answers updates server
      | Failed true :: _ => (map_set key value server, false)
      | Failed false :: _ | [] => (server, false)
      end
  end.

(** The fields of the resolutions are taken out of the differences, models without a field
    with them. *)
Definition resolve_field (model : str) (diffs : DifferencesMap) (rt : RatioType) : DifferencesMap :=
  match map_get model diffs with
  | None => diffs
  | Some d =>
      if map_has rt d then
        let d' := rt_delete rt d in
        if (length d' =? 0)%nat then obj_delete model diffs else obj_set model d' diffs
      else diffs
  end.

Definition resolve_differences (resolutions : ResolutionsMap) (diffs : DifferencesMap) : DifferencesMap :=
  foldl (fun diffs '(model, ratios) => foldl (resolve_field model) diffs (map fst ratios)) diffs resolutions.

(** ** Channels *)

Record UpstreamChannel := mkUpstream { uc_id : Z; uc_name : str; uc_base_url : str; uc_status : Z; uc_type : option Z }.
Record UpstreamConfig := mkConfig { uf_id : Z; uf_name : str; uf_base_url : str; uf_endpoint : str }.

Definition DEFAULT_ENDPOINT : str := js "/api/pricing".
Definition OFFICIAL_CHANNEL_ID : Z := (-100)%Z.
Definition OFFICIAL_CHANNEL_ENDPOINT : str := js "/llm-metadata/api/newapi/ratio_config-v1-base.json".
Definition MODELS_DEV_PRESET_ID : Z := (-101)%Z.
Definition MODELS_DEV_PRESET_ENDPOINT : str := js "https://models.dev/api.json".
Definition OPENROUTER_ENDPOINT : str := js "openrouter".
Definition OPENROUTER_CHANNEL_TYPE : Z := 20%Z.
Definition ENDPOINT_OPTIONS : list str := [js "/api/pricing"; js "/api/ratio_config"; OPENROUTER_ENDPOINT; js "custom"].

Definition getDefaultEndpointForChannel (channel : UpstreamChannel) : str :=
  if (uc_id channel =? MODELS_DEV_PRESET_ID)%Z then MODELS_DEV_PRESET_ENDPOINT
  else if (uc_id channel =? OFFICIAL_CHANNEL_ID)%Z then OFFICIAL_CHANNEL_ENDPOINT
  else if bool_decide (uc_type channel = Some OPENROUTER_CHANNEL_TYPE) then OPENROUTER_ENDPOINT
  else DEFAULT_ENDPOINT.

Definition isOfficialChannel (channel : UpstreamChannel) : bool :=
  ((uc_id channel =? OFFICIAL_CHANNEL_ID) || (uc_id channel =? MODELS_DEV_PRESET_ID))%Z.

Definition sortedChannels (channels : list UpstreamChannel) : list UpstreamChannel :=
  sort_by (fun a b => if isOfficialChannel a && negb (isOfficialChannel b) then (-1)%Z
                      else if negb (isOfficialChannel a) && isOfficialChannel b then 1%Z else 0%Z) channels.

Abbreviation Endpoints := (list (Z * str)).

Definition learn_channels (channels : list UpstreamChannel) (known : list (Z * UpstreamChannel)) : list (Z * UpstreamChannel) :=
  foldl (fun known c => map_set (uc_id c) c known) known channels.

Definition default_endpoints (channels : list UpstreamChannel) (prev : Endpoints) : Endpoints :=
  foldl (fun next c => if truthy (default [] (map_get (uc_id c) next)) then next
                       else map_set (uc_id c) (getDefaultEndpointForChannel c) next) prev channels.

(** The selected channels with their endpoints; [None] without a selection. *)
Definition selected_upstreams (known : list (Z * UpstreamChannel)) (endpoints : Endpoints) (selectedIds : list Z) :
  option (list UpstreamConfig) :=
  match omap (fun id => map_get id known) selectedIds with
  | [] => None
  | selected =>
      Some (map (fun c => mkConfig (uc_id c) (uc_name c) (uc_base_url c)
                            (opt_str_or (map_get (uc_id c) endpoints) DEFAULT_ENDPOINT)) selected)
  end.

Definition getEndpointType (endpoint : str) : str :=
  if existsb (fun v => str_eqb v endpoint) ENDPOINT_OPTIONS then endpoint else js "custom".

(** The two controls of a row of the dialog: the type, and the text if the type is custom. *)
Definition endpoint_cell (endpoints : Endpoints) (id : Z) : str * option str :=
  let currentEndpoint := opt_str_or (map_get id endpoints) DEFAULT_ENDPOINT in
  let endpointType := getEndpointType currentEndpoint in
  (endpointType, if str_eqb endpointType (js "custom") then Some currentEndpoint else None).

Definition updateEndpoint (id : Z) (endpoint : str) (endpoints : Endpoints) : Endpoints := map_set id endpoint endpoints.

Definition handleTypeChange (id : Z) (value : str) (endpoints : Endpoints) : Endpoints :=
  if str_eqb value (js "custom") then updateEndpoint id [] endpoints else updateEndpoint id value endpoints.

(** ** The page *)

Record SyncPage := mkPage {
  y_current : PriceMaps;
  y_channelDialogOpen : bool;
  y_selectedChannelIds : list Z;
  y_knownChannels : list (Z * UpstreamChannel);
  y_channelEndpoints : Endpoints;
  y_fetchPending : bool;
  y_differences : DifferencesMap;
  y_resolutions : ResolutionsMap;
  y_conflictItems : list ConflictItem;
  y_conflictDialogOpen : bool;
  y_confirmLoading : bool;
  y_syncing : option (list (str * str))
}.

Definition initial_page (current : PriceMaps) : SyncPage :=
  mkPage current false [] [] [] false [] [] [] false false None.

Definition isLoading (s : SyncPage) : bool :=
  y_fetchPending s || match y_syncing s with Some _ => true | None => false end || y_confirmLoading s.

Definition hasSelections (s : SyncPage) : bool := negb (length (y_resolutions s) =? 0)%nat.

Definition with_channels (s : SyncPage) (open : bool) (ids : list Z) (known : list (Z * UpstreamChannel)) (endpoints : Endpoints)
  (fetching : bool) : SyncPage :=
  mkPage (y_current s) open ids known endpoints fetching (y_differences s) (y_resolutions s) (y_conflictItems s)
    (y_conflictDialogOpen s) (y_confirmLoading s) (y_syncing s).

Definition with_choices (s : SyncPage) (differences : DifferencesMap) (resolutions : ResolutionsMap) : SyncPage :=
  mkPage (y_current s) (y_channelDialogOpen s) (y_selectedChannelIds s) (y_knownChannels s) (y_channelEndpoints s) (y_fetchPending s)
    differences resolutions (y_conflictItems s) (y_conflictDialogOpen s) (y_confirmLoading s) (y_syncing s).

Definition with_sync (s : SyncPage) (items : list ConflictItem) (open confirming : bool) (syncing : option (list (str * str))) : SyncPage :=
  mkPage (y_current s) (y_channelDialogOpen s) (y_selectedChannelIds s) (y_knownChannels s) (y_channelEndpoints s) (y_fetchPending s)
    (y_differences s) (y_resolutions s) items open confirming syncing.

(** The answer to a fetch: the differences, or [None] when it failed or was refused. *)
Definition fetch_settled (answer : option DifferencesMap) (s : SyncPage) : SyncPage :=
  let s := with_channels s (y_channelDialogOpen s) (y_selectedChannelIds s) (y_knownChannels s) (y_channelEndpoints s) false in
  match answer with Some diffs => with_choices s diffs [] | None => s end.

Definition handleConfirmChannelSelection (s : SyncPage) : SyncPage :=
  match selected_upstreams (y_knownChannels s) (y_channelEndpoints s) (y_selectedChannelIds s) with
  | None => with_channels s false (y_selectedChannelIds s) (y_knownChannels s) (y_channelEndpoints s) (y_fetchPending s)
  | Some _ => with_channels s false (y_selectedChannelIds s) (y_knownChannels s) (y_channelEndpoints s) true
  end.

Section Page.
Variables t toLowerCase : str -> str.

Definition start_sync (s : SyncPage) (confirming : bool) : option SyncPage :=
  updates ← performSync (y_resolutions s) (y_current s);
  Some (with_sync s (y_conflictItems s) (y_conflictDialogOpen s) confirming (Some updates)).

Definition handleApplySync (s : SyncPage) : option SyncPage :=
  match sync_conflicts t (y_differences s) (y_resolutions s) (y_current s) with
  | [] => start_sync s (y_confirmLoading s)
  | conflicts => Some (with_sync s conflicts true (y_confirmLoading s) (y_syncing s))
  end.

Definition handleConfirmConflict (s : SyncPage) : option SyncPage := start_sync s true.

(** The end of the requests; [handleConfirmConflict] closes its dialog after a success. *)
Definition sync_settled (ok : bool) (s : SyncPage) : SyncPage :=
  let s := if ok then with_choices s (resolve_differences (y_resolutions s) (y_differences s)) [] else s in
  with_sync s (y_conflictItems s) (if y_confirmLoading s && ok then false else y_conflictDialogOpen s) false None.

Inductive SyncEvent :=
  | EvSettings (current : PriceMaps)
  | EvChannels (channels : list UpstreamChannel)
  | EvChannelDialog (open : bool)
  | EvSelectChannels (ids : list Z)
  | EvEndpoint (id : Z) (endpoint : str)
  | EvEndpointType (id : Z) (value : str)
  | EvConfirmChannels
  | EvFetched (answer : option DifferencesMap)
  | EvCheck (search filter upstream : str) (row : SyncRow) (field : RatioType * json)
  | EvUncheck (search filter upstream : str) (row : SyncRow) (field : RatioType * json)
  | EvCheckAll (search filter upstream : str)
  | EvUncheckAll (search filter upstream : str)
  | EvApply
  | EvConfirm
  | EvCloseConflict
  | EvSynced (ok : bool).

(** The rows that the table shows under a search and a filter. *)
Definition shown_rows (s : SyncPage) (search filter : str) : list SyncRow :=
  filteredData toLowerCase search filter (dataSource (y_differences s)).

(** What can happen in a state, and the state after it. *)
Inductive sync_step (s : SyncPage) : SyncEvent -> SyncPage -> Prop :=
  | step_settings current :
      sync_step s (EvSettings current)
        (mkPage current (y_channelDialogOpen s) (y_selectedChannelIds s) (y_knownChannels s) (y_channelEndpoints s) (y_fetchPending s)
           (y_differences s) (y_resolutions s) (y_conflictItems s) (y_conflictDialogOpen s) (y_confirmLoading s) (y_syncing s))
  | step_channels channels :
      sync_step s (EvChannels channels)
        (with_channels s (y_channelDialogOpen s) (y_selectedChannelIds s) (learn_channels channels (y_knownChannels s))
           (default_endpoints channels (y_channelEndpoints s)) (y_fetchPending s))
  | step_dialog open :
      (open = true -> isLoading s = false) ->
      sync_step s (EvChannelDialog open)
        (with_channels s open (y_selectedChannelIds s) (y_knownChannels s) (y_channelEndpoints s) (y_fetchPending s))
  | step_select_channels ids :
      y_channelDialogOpen s = true ->
      sync_step s (EvSelectChannels ids)
        (with_channels s (y_channelDialogOpen s) ids (y_knownChannels s) (y_channelEndpoints s) (y_fetchPending s))
  | step_endpoint id endpoint :
      y_channelDialogOpen s = true -> snd (endpoint_cell (y_channelEndpoints s) id) <> None ->
      sync_step s (EvEndpoint id endpoint)
        (with_channels s (y_channelDialogOpen s) (y_selectedChannelIds s) (y_knownChannels s)
           (updateEndpoint id endpoint (y_channelEndpoints s)) (y_fetchPending s))
  | step_endpoint_type id value :
      y_channelDialogOpen s = true -> value ∈ ENDPOINT_OPTIONS ->
      sync_step s (EvEndpointType id value)
        (with_channels s (y_channelDialogOpen s) (y_selectedChannelIds s) (y_knownChannels s)
           (handleTypeChange id value (y_channelEndpoints s)) (y_fetchPending s))
  | step_confirm_channels :
      y_channelDialogOpen s = true ->
      sync_step s EvConfirmChannels (handleConfirmChannelSelection s)
  | step_fetched answer :
      y_fetchPending s = true ->
      sync_step s (EvFetched answer) (fetch_settled answer s)
  | step_check search filter upstream row field :
      isLoading s = false -> row ∈ shown_rows s search filter -> field ∈ choosable upstream filter row ->
      sync_step s (EvCheck search filter upstream row field)
        (with_choices s (y_differences s)
           (handleSelectValue (y_differences s) (sr_model row) (fst field) (snd field) upstream (y_resolutions s)))
  | step_uncheck search filter upstream row field :
      isLoading s = false -> row ∈ shown_rows s search filter -> field ∈ choosable upstream filter row ->
      sync_step s (EvUncheck search filter upstream row field)
        (with_choices s (y_differences s) (handleUnselectValue (sr_model row) (fst field) (y_resolutions s)))
  | step_check_all search filter upstream :
      isLoading s = false ->
      sync_step s (EvCheckAll search filter upstream)
        (with_choices s (y_differences s)
           (handleBulkSelect (y_differences s) filter upstream (shown_rows s search filter) (y_resolutions s)))
  | step_uncheck_all search filter upstream :
      isLoading s = false ->
      sync_step s (EvUncheckAll search filter upstream)
        (with_choices s (y_differences s) (handleBulkUnselect filter upstream (shown_rows s search filter) (y_resolutions s)))
  | step_apply s' :
      isLoading s = false -> hasSelections s = true -> handleApplySync s = Some s' ->
      sync_step s EvApply s'
  | step_confirm s' :
      y_conflictDialogOpen s = true -> y_confirmLoading s = false -> handleConfirmConflict s = Some s' ->
      sync_step s EvConfirm s'
  | step_close_conflict :
      sync_step s EvCloseConflict (with_sync s (y_conflictItems s) false (y_confirmLoading s) (y_syncing s))
  | step_synced ok updates :
      y_syncing s = Some updates ->
      sync_step s (EvSynced ok) (sync_settled ok s).
End Page.
