(* ===== verification/UpstreamProps.v ===== *)
(** * Upstream price sync: theorems

    The choices of the page stay consistent whatever is clicked and answered; the
    settings that a sync writes are described field by field and composed with the
    snapshots of the price editor; a sync that asks nothing drops no price; a sync that was
    cut short can be repeated; and the column check box selects what it counts. *)
From S2P Require Import Prelude Number Regex Json JsonPretty JsonObject BillingExpr PricingFormat PricingSnapshots PricingEditor PricingProps UpstreamSync.

#[global] Instance Setting_eq_dec : EqDecision Setting.
Proof. solve_decision. Defined.

(** ** Maps keyed by fields *)

Section FieldMaps.
Context {V : Type}.
Implicit Types (l : list (RatioType * V)).

Lemma get_filter_keys (p : RatioType -> bool) l rt :
  map_get rt (List.filter (fun e => p (fst e)) l) = if p rt then map_get rt l else None.
Proof.
  induction l as [|[k v] l IH]; cbn; [by destruct (p rt) |]. destruct (p k) eqn:E; cbn.
  - case_decide; [subst; by rewrite E | done].
  - rewrite IH. case_decide; [subst; by rewrite E | done].
Qed.

Lemma filter_keys_NoDup (p : RatioType -> bool) l : NoDup l.*1 -> NoDup (List.filter (fun e => p (fst e)) l).*1.
Proof.
  induction l as [|[k v] l IH]; cbn; [done |]. rewrite NoDup_cons. intros [Hk Hl]. destruct (p k); [| by apply IH].
  cbn. apply NoDup_cons. split; [| by apply IH]. intros (e & -> & He)%list_elem_of_fmap. apply Hk, list_elem_of_fmap. exists e.
  split; [done |]. apply list_elem_of_In in He. apply filter_In in He. by apply list_elem_of_In, He.
Qed.

Lemma get_rt_delete rt rt' l : map_get rt (rt_delete rt' l) = if bool_decide (rt = rt') then None else map_get rt l.
Proof.
  pose proof (get_filter_keys (fun k => negb (bool_decide (k = rt'))) l rt) as H. unfold rt_delete.
  etrans; [exact H |]. by case_bool_decide.
Qed.

Lemma rt_delete_NoDup rt l : NoDup l.*1 -> NoDup (rt_delete rt l).*1.
Proof. exact (filter_keys_NoDup (fun k => negb (bool_decide (k = rt))) l). Qed.

Lemma map_has_get {K} `{EqDecision K} (k : K) (m : list (K * V)) : map_has k m = true <-> map_get k m <> None.
Proof. unfold map_has. destruct (map_get k m); split; try done. Qed.
End FieldMaps.

Lemma has_ratio_spec fs : has_ratio fs = true <-> exists rt, rt ∈ RATIO_SYNC_FIELDS /\ map_get rt fs <> None.
Proof.
  unfold has_ratio. rewrite existsb_exists. split.
  - intros (rt & Hin & H). unfold rt_in in H. apply bool_decide_eq_true in H. exists rt. split; [done |].
    rewrite map_get_None. intros Hn. apply Hn, list_elem_of_In, Hin.
  - intros (rt & H & Hg). exists rt. split; [| by apply bool_decide_eq_true]. apply list_elem_of_In.
    destruct (decide (rt ∈ fs.*1)) as [|Hn]; [done |]. by apply map_get_None in Hn.
Qed.

Lemma ratio_fields_category rt : rt ∈ RATIO_SYNC_FIELDS <-> getBillingCategory rt = CatRatio.
Proof. split; [unfold RATIO_SYNC_FIELDS; set_solver | destruct rt; cbn; intros [=]; unfold RATIO_SYNC_FIELDS; set_solver]. Qed.

(** ** What a sync writes *)

Definition setting_of (rt : RatioType) : Setting :=
  match rt with
  | model_ratio => SPrice Ratio | completion_ratio => SPrice CompletionRatio | cache_ratio => SPrice CacheRatio
  | create_cache_ratio => SPrice CreateCacheRatio | image_ratio => SPrice ImageRatio | audio_ratio => SPrice AudioRatio
  | audio_completion_ratio => SPrice AudioCompletionRatio | model_price => SPrice Price
  | billing_mode => SMode | billing_expr => SExpr
  end.

Definition field_of (s : Setting) : RatioType :=
  match s with
  | SPrice Ratio => model_ratio | SPrice CompletionRatio => completion_ratio | SPrice CacheRatio => cache_ratio
  | SPrice CreateCacheRatio => create_cache_ratio | SPrice ImageRatio => image_ratio | SPrice AudioRatio => audio_ratio
  | SPrice AudioCompletionRatio => audio_completion_ratio | SPrice Price => model_price
  | SMode => billing_mode | SExpr => billing_expr
  end.

Lemma setting_field s : setting_of (field_of s) = s.
Proof. by destruct s as [[]| |]. Qed.

Lemma setting_of_inj rt rt' : setting_of rt = setting_of rt' -> rt = rt'.
Proof. by destruct rt, rt'. Qed.

(** The name that [optionKeyBySyncField] computes is the name of the field's setting. *)
Lemma option_key_known rt : map_get (optionKeyBySyncField (rt_text rt)) settings = Some (setting_of rt).
Proof. destruct rt; vm_compute; reflexivity. Qed.

Lemma setting_map_update s s' g m :
  setting_map s (setting_update s' g m) = if bool_decide (s = s') then g (setting_map s m) else setting_map s m.
Proof.
  destruct s as [f| |], s' as [f'| |]; cbn; try done. rewrite pget_set.
  destruct (decide (f = f')) as [->|Hn]; [by rewrite bool_decide_true | by rewrite bool_decide_false by congruence].
Qed.

Definition maps_wf (m : PriceMaps) : Prop := forall s, obj_wf (setting_map s m).

Lemma update_wf s g m : (forall l, obj_wf l -> obj_wf (g l)) -> maps_wf m -> maps_wf (setting_update s g m).
Proof. intros Hg Hm s'. rewrite setting_map_update. case_bool_decide; [apply Hg |]; apply Hm. Qed.

(** The value that is stored for a chosen one. *)
Definition written (rt : RatioType) (v : json) : json := if rt_in rt NUMERIC_SYNC_FIELDS then JNum (to_Number v) else v.

Lemma write_value_some model m rt v :
  write_value model m (rt, v) = Some (setting_update (setting_of rt) (obj_set model (written rt v)) m).
Proof. unfold write_value. by rewrite option_key_known. Qed.

Lemma write_values_spec model fs m :
  maps_wf m -> NoDup fs.*1 ->
  exists m', foldM (write_value model) m fs = Some m' /\ maps_wf m' /\
    forall n rt, setting (setting_of rt) m' n =
      match map_get rt fs with
      | Some v => if bool_decide (n = model) then Some (written rt v) else setting (setting_of rt) m n
      | None => setting (setting_of rt) m n
      end.
Proof.
  revert m. induction fs as [|[rt v] fs IH]; intros m Hm; cbn [foldM]; [by eauto |].
  cbn [fmap list_fmap fst]. rewrite NoDup_cons. intros [Hn Hnd]. rewrite write_value_some. cbn [mbind option_bind].
  destruct (IH (setting_update (setting_of rt) (obj_set model (written rt v)) m)) as (m' & E & Hwf & Hs); [| done |].
  { apply update_wf; [intros l Hl; by apply obj_set_wf | done]. }
  exists m'. split; [done |]. split; [done |]. intros n rt'. rewrite Hs. cbn [map_get]. unfold setting at 1 2 3. rewrite setting_map_update.
  destruct (decide (rt' = rt)) as [->|Hne].
  - assert (map_get rt fs = None) as -> by (by apply map_get_None).
    rewrite bool_decide_true by done. by apply obj_get_set, Hm.
  - by rewrite (bool_decide_false (setting_of rt' = setting_of rt)) by (intros ?%setting_of_inj; congruence).
Qed.

Lemma drop_ratios_wf model m : maps_wf m -> maps_wf (drop_ratios model m).
Proof. intros H. unfold drop_ratios. cbn [foldl]. repeat (apply update_wf; [intros l Hl; by apply obj_delete_wf |]). done. Qed.

Lemma drop_ratios_get model m n rt :
  setting (setting_of rt) (drop_ratios model m) n =
  if bool_decide (rt ∈ RATIO_SYNC_FIELDS) && bool_decide (n = model) then None else setting (setting_of rt) m n.
Proof.
  unfold drop_ratios, setting. cbn [foldl]. rewrite !setting_map_update.
  destruct rt; cbn [setting_of]; repeat first [rewrite bool_decide_true by done | rewrite bool_decide_false by done];
    cbn [andb]; try reflexivity; apply obj_get_delete.
Qed.

Lemma drop_price_get model m n rt :
  setting (setting_of rt) (drop_price model m) n =
  if bool_decide (rt = model_price) && bool_decide (n = model) then None else setting (setting_of rt) m n.
Proof.
  unfold drop_price, setting. rewrite setting_map_update. destruct (decide (rt = model_price)) as [->|Hne].
  - rewrite !bool_decide_true by done. apply obj_get_delete.
  - rewrite (bool_decide_false (rt = model_price)) by done. by rewrite bool_decide_false by (by destruct rt).
Qed.

(** What one setting says about a model after its resolution was written. *)
Definition resolved (fs : ModelResolution) (rt : RatioType) (old : option json) : option json :=
  match map_get rt fs with
  | Some v => Some (written rt v)
  | None =>
      if bool_decide (rt ∈ RATIO_SYNC_FIELDS) && map_has model_price fs || bool_decide (rt = model_price) && has_ratio fs
      then None else old
  end.

Lemma resolved_idemp fs rt old : resolved fs rt (resolved fs rt old) = resolved fs rt old.
Proof. unfold resolved. destruct (map_get rt fs); [done |]. by destruct (bool_decide _ && _ || _). Qed.

Lemma write_model_spec model fs m :
  maps_wf m -> NoDup fs.*1 ->
  exists m', write_model m (model, fs) = Some m' /\ maps_wf m' /\
    forall n rt, setting (setting_of rt) m' n =
      if bool_decide (n = model) then resolved fs rt (setting (setting_of rt) m n) else setting (setting_of rt) m n.
Proof.
  intros Hm Hnd. unfold write_model.
  set (m1 := if map_has model_price fs then drop_ratios model m else m). set (m2 := if has_ratio fs then drop_price model m1 else m1).
  assert (maps_wf m2) as H2.
  { unfold m2, m1. destruct (has_ratio fs); [apply update_wf; [intros l Hl; by apply obj_delete_wf |] |];
      destruct (map_has model_price fs); try done; by apply drop_ratios_wf. }
  destruct (write_values_spec model fs m2 H2 Hnd) as (m' & E & Hwf & Hs). exists m'. split; [done |]. split; [done |].
  intros n rt. rewrite Hs. unfold resolved.
  assert (setting (setting_of rt) m2 n =
    if bool_decide (n = model) && (bool_decide (rt ∈ RATIO_SYNC_FIELDS) && map_has model_price fs || bool_decide (rt = model_price) && has_ratio fs)
    then None else setting (setting_of rt) m n) as E2.
  { unfold m2, m1. destruct (has_ratio fs), (map_has model_price fs); rewrite ?drop_price_get, ?drop_ratios_get;
      destruct (bool_decide (n = model)), (bool_decide (rt = model_price)), (bool_decide (rt ∈ RATIO_SYNC_FIELDS)); reflexivity. }
  rewrite E2. destruct (map_get rt fs), (bool_decide (n = model)); reflexivity.
Qed.

Definition resolutions_wf (res : ResolutionsMap) : Prop := NoDup res.*1 /\ Forall (fun e => NoDup (snd e).*1) res.

Lemma final_ratios_spec res m :
  maps_wf m -> resolutions_wf res ->
  exists m', finalRatios res m = Some m' /\ maps_wf m' /\
    forall n rt, setting (setting_of rt) m' n =
      match map_get n res with Some fs => resolved fs rt (setting (setting_of rt) m n) | None => setting (setting_of rt) m n end.
Proof.
  unfold finalRatios. revert m. induction res as [|[model fs] res IH]; intros m Hm; cbn [foldM]; [by eauto |].
  intros [Hnd Hin]. cbn [fmap list_fmap fst] in Hnd. apply NoDup_cons in Hnd as [Hn Hnd]. apply Forall_cons in Hin as [Hfs Hin].
  destruct (write_model_spec model fs m Hm Hfs) as (m1 & E1 & H1 & S1). rewrite E1. cbn [mbind option_bind].
  destruct (IH m1 H1) as (m' & E & H' & S'); [done |]. exists m'. split; [done |]. split; [done |].
  intros n rt. rewrite S', S1. cbn [map_get]. destruct (decide (n = model)) as [->|Hne].
  - rewrite bool_decide_true by done. assert (map_get model res = None) as -> by (by apply map_get_None). done.
  - by rewrite bool_decide_false by done.
Qed.

(** ** The settings of the server *)

Definition setting_key (s : Setting) : str :=
  match s with
  | SPrice Price => js "ModelPrice" | SPrice Ratio => js "ModelRatio" | SPrice CacheRatio => js "CacheRatio"
  | SPrice CreateCacheRatio => js "CreateCacheRatio" | SPrice CompletionRatio => js "CompletionRatio"
  | SPrice ImageRatio => js "ImageRatio" | SPrice AudioRatio => js "AudioRatio"
  | SPrice AudioCompletionRatio => js "AudioCompletionRatio"
  | SMode => js "billing_setting.billing_mode" | SExpr => js "billing_setting.billing_expr"
  end.

(** The ten price settings among the settings of the server. *)
Definition server_texts (server : list (str * str)) : ModelPricingSnapshotInput :=
  let text_of s := default [] (map_get (setting_key s) server) in
  mkInput (pmake (fun f => text_of (SPrice f))) (text_of SMode) (text_of SExpr).

Lemma setting_key_known s : map_get (setting_key s) settings = Some s.
Proof. destruct s as [[]| |]; vm_compute; reflexivity. Qed.

Lemma update_text s m : map_get (setting_key s) (sync_updates m) = Some (JSON_pretty (JObj (setting_map s m))).
Proof.
  unfold sync_updates. rewrite (get_map_values (fun s => JSON_pretty (JObj (setting_map s m)))). by rewrite setting_key_known.
Qed.

Lemma settings_NoDup : NoDup settings.*1.
Proof. apply (bool_decide_eq_true_1 (NoDup settings.*1)). vm_compute. reflexivity. Qed.

Lemma updates_keys m : (sync_updates m).*1 = settings.*1.
Proof. unfold sync_updates. rewrite <- list_fmap_compose. apply list_fmap_ext. by intros ? [? ?]. Qed.

(** After a run every key has its old text or the one of the update; after a run without
    refusal that succeeds, the one of the update. *)
Lemma run_updates_get answers updates server k :
  NoDup updates.*1 ->
  map_get k (run_updates answers updates server).1 = map_get k server \/
  (exists v, map_get k updates = Some v /\ map_get k (run_updates answers updates server).1 = Some v).
Proof.
  revert answers server. induction updates as [|[k' v] updates IH]; intros answers server; cbn; [by intros; left |].
  rewrite NoDup_cons. intros [Hn Hnd].
  assert (map_get k (map_set k' v server) = map_get k server \/ (k = k' /\ map_get k (map_set k' v server) = Some v)) as Hset.
  { rewrite map_get_set. case_decide; eauto. }
  destruct answers as [|[| |[]] answers]; cbn; try (left; reflexivity).
  - destruct (IH answers (map_set k' v server) Hnd) as [->|(w & Hw & ->)].
    + destruct Hset as [->|(-> & ->)]; [by left |]. right. exists v. by rewrite decide_True.
    + right. exists w. split; [| done]. case_decide; [| done]. subst. exfalso. apply map_get_elem in Hw.
      apply Hn, list_elem_of_fmap. by exists (k', w).
  - destruct (IH answers server Hnd) as [->|(w & Hw & ->)]; [by left |].
    right. exists w. split; [| done]. case_decide; [| done]. subst. exfalso. apply map_get_elem in Hw.
    apply Hn, list_elem_of_fmap. by exists (k', w).
  - destruct Hset as [->|(-> & ->)]; [by left |]. right. exists v. by rewrite decide_True.
Qed.

Lemma run_updates_stored answers updates server :
  NoDup updates.*1 -> Forall (fun a => a <> Refused) answers -> (run_updates answers updates server).2 = true ->
  forall k v, map_get k updates = Some v -> map_get k (run_updates answers updates server).1 = Some v.
Proof.
  revert answers server. induction updates as [|[k' w] updates IH]; intros answers server; [done |].
  cbn [fmap list_fmap fst]. rewrite NoDup_cons. intros [Hn Hnd] Ha Hok k v.
  destruct answers as [|[| |[]] answers]; cbn in Hok; try done; apply Forall_cons in Ha as [Ha1 Ha]; try done.
  cbn. case_decide; [| by apply IH]. intros [= ->]. subst.
  destruct (run_updates_get answers updates (map_set k' v server) k' Hnd) as [->|(u & Hu & _)]; [apply map_get_set_eq |].
  exfalso. apply map_get_elem in Hu. apply Hn, list_elem_of_fmap. by exists (k', u).
Qed.

Lemma texts_stored answers server m :
  Forall (fun a => a <> Refused) answers -> (run_updates answers (sync_updates m) server).2 = true ->
  server_texts (run_updates answers (sync_updates m) server).1 = print_maps m.
Proof.
  intros Ha Hok. unfold server_texts, print_maps.
  assert (forall s, default [] (map_get (setting_key s) (run_updates answers (sync_updates m) server).1) = JSON_pretty (JObj (setting_map s m))) as H.
  { intros s. rewrite (run_updates_stored _ _ _ ltac:(rewrite updates_keys; apply settings_NoDup) Ha Hok _ _ (update_text s m)). done. }
  f_equal; [| apply (H SMode) | apply (H SExpr)]. apply pricing_ext. intros f. rewrite pget_make, pget_map. apply (H (SPrice f)).
Qed.

(** ** A sync and the price table *)

(** Chosen values whose JSON text denotes them. *)
Definition values_ok (res : ResolutionsMap) : Prop :=
  forall n fs rt v, map_get n res = Some fs -> map_get rt fs = Some v -> json_ok (written rt v).

Lemma maps_ok_wf m : maps_ok m -> maps_wf m.
Proof. rewrite maps_ok_settings. intros H s. by apply json_ok_wf. Qed.

Lemma final_ratios_ok res m m' :
  maps_ok m -> resolutions_wf res -> values_ok res -> finalRatios res m = Some m' -> maps_ok m'.
Proof.
  intros Hm Hr Hv E. destruct (final_ratios_spec res m (maps_ok_wf m Hm) Hr) as (m1 & E1 & Hwf & Hs).
  assert (m1 = m') as -> by congruence. apply maps_ok_settings. intros s. apply json_ok_get; [apply Hwf |]. intros n v Hg.
  specialize (Hs n (field_of s)). rewrite setting_field in Hs. unfold setting in Hs. rewrite Hg in Hs.
  rewrite maps_ok_settings in Hm. destruct (map_get n res) as [fs|] eqn:E2; [| by apply (json_ok_member n v _ (Hm s))].
  unfold resolved in Hs. destruct (map_get (field_of s) fs) as [w|] eqn:E3; [injection Hs as ->; by eapply Hv |].
  destruct (_ || _); [done |]. by apply (json_ok_member n v _ (Hm s)).
Qed.

(** A resolution of one price category leaves the model without a second price. *)
Lemma resolved_no_conflict fs m n sn :
  map_has model_price fs || has_ratio fs = true -> map_has model_price fs && has_ratio fs = false ->
  (forall s, setting s m n = resolved fs (field_of s) (setting s m n)) -> snapshot_of m n = Found sn -> s_hasConflict sn = false.
Proof.
  intros H1 H2 Hs Hf. unfold snapshot_of in Hf. destruct (is_the_string _ _).
  { destruct (string_or_empty _); [| done]. destruct (splitBillingExprAndRequestRules _); try done. by injection Hf as <-. }
  injection Hf as <-. cbn [s_hasConflict]. unfold pmap, pmake. cbn [price ratio completionRatio cacheRatio createCacheRatio imageRatio audioRatio audioCompletionRatio].
  destruct (map_has model_price fs) eqn:Hp; cbn in H1, H2.
  - assert (forall f, f <> Price -> map_get n (pget f (m_pricing m)) = None) as Hnone.
    { intros f Hf. specialize (Hs (SPrice f)). unfold setting in Hs. cbn [setting_map] in Hs. rewrite Hs. unfold resolved.
      assert (field_of (SPrice f) ∈ RATIO_SYNC_FIELDS) as Hin by (destruct f; try done; apply ratio_fields_category; done).
      destruct (map_get (field_of (SPrice f)) fs) eqn:E.
      - exfalso. assert (has_ratio fs = true) as Hx; [| congruence]. apply has_ratio_spec. exists (field_of (SPrice f)). by rewrite E.
      - by rewrite bool_decide_true, Hp by done. }
    pose proof (Hnone Ratio) as E1. pose proof (Hnone CompletionRatio) as E2. pose proof (Hnone CacheRatio) as E3.
    pose proof (Hnone CreateCacheRatio) as E4. pose proof (Hnone ImageRatio) as E5. pose proof (Hnone AudioRatio) as E6.
    pose proof (Hnone AudioCompletionRatio) as E7. cbn [pget] in E1, E2, E3, E4, E5, E6, E7.
    rewrite E1, E2, E3, E4, E5, E6, E7 by done. apply andb_false_r.
  - assert (map_get n (price (m_pricing m)) = None) as ->; [| done].
    specialize (Hs (SPrice Price)). unfold setting in Hs. cbn [setting_map field_of pget] in Hs. rewrite Hs. unfold resolved.
    assert (map_get model_price fs = None) as ->. { destruct (map_get model_price fs) eqn:E; [| done]. unfold map_has in Hp. by rewrite E in Hp. }
    by rewrite H1, (bool_decide_true (model_price = model_price)), orb_true_r.
Qed.

(** C3: A sync whose ten requests are all stored leaves settings that the price editor reads
    so: a model without a chosen value shows what it showed and stays listed; for a model
    with chosen values every setting has the chosen value (numbers as [Number] reads them),
    the other price category is gone and all else is as before; and a model for which one
    price category was chosen is not in conflict. *)
Theorem synced_prices_spec answers server res m :
  maps_ok m -> resolutions_wf res -> values_ok res -> Forall (fun a => a <> Refused) answers ->
  exists m',
    performSync res m = Some (sync_updates m') /\
    ((run_updates answers (sync_updates m') server).2 = true ->
     read_maps (server_texts (run_updates answers (sync_updates m') server).1) = Some m' /\
     (forall n, n ∉ res.*1 -> snapshot_of m' n = snapshot_of m n /\ (n ∈ modelNames m' <-> n ∈ modelNames m)) /\
     (forall n fs, map_get n res = Some fs ->
        (forall s, setting s m' n = resolved fs (field_of s) (setting s m n)) /\
        (map_has model_price fs || has_ratio fs = true -> map_has model_price fs && has_ratio fs = false ->
         forall sn, snapshot_of m' n = Found sn -> s_hasConflict sn = false))).
Proof.
  intros Hm Hr Hv Ha. destruct (final_ratios_spec res m (maps_ok_wf m Hm) Hr) as (m' & E & Hwf & Hs).
  exists m'. unfold performSync. rewrite E. split; [done |]. intros Hok. rewrite texts_stored by done.
  assert (forall s n, setting s m' n = match map_get n res with Some fs => resolved fs (field_of s) (setting s m n) | None => setting s m n end) as Hs'.
  { intros s n. rewrite <- (setting_field s) at 1. rewrite Hs. by rewrite setting_field. }
  split; [apply read_print_maps; by eapply final_ratios_ok |]. split.
  - intros n Hn. assert (forall s, setting s m' n = setting s m n) as Heq.
    { intros s. rewrite Hs'. apply map_get_None in Hn. by rewrite Hn. }
    split; [by apply snapshot_of_ext | by apply modelNames_ext].
  - intros n fs Hg. assert (forall s, setting s m' n = resolved fs (field_of s) (setting s m n)) as Heq by (intros s; by rewrite Hs', Hg).
    split; [done |]. intros H1 H2 sn. apply (resolved_no_conflict fs); [done | done |]. intros s. by rewrite Heq, resolved_idemp.
Qed.

Definition demo_choice : ResolutionsMap :=
  [(js "dall-e-3", [(model_ratio, JNum (lit "2.5")); (completion_ratio, JStr (js "3"))]);
   (js "gpt-4o", [(model_price, JNum (lit "0.1"))])].

Lemma demo_choice_wf : resolutions_wf demo_choice.
Proof.
  split; [apply (bool_decide_eq_true_1 (NoDup _)); vm_compute; reflexivity |].
  apply (bool_decide_eq_true_1 (Forall (fun e => NoDup (snd e).*1) demo_choice)). vm_compute. reflexivity.
Qed.

Lemma demo_choice_ok : values_ok demo_choice.
Proof.
  intros n fs rt v Hn Hv. apply map_get_elem in Hn, Hv. apply json_okb_ok.
  apply elem_of_cons in Hn as [[= -> ->]|Hn]; [| apply list_elem_of_singleton in Hn as [= -> ->]].
  - apply elem_of_cons in Hv as [[= -> ->]|Hv]; [| apply list_elem_of_singleton in Hv as [= -> ->]]; vm_compute; reflexivity.
  - apply list_elem_of_singleton in Hv as [= -> ->]; vm_compute; reflexivity.
Qed.

Lemma synced_prices_spec_witness :
  exists m',
    performSync demo_choice demo_maps = Some (sync_updates m') /\
    ((run_updates (replicate 10 Stored) (sync_updates m') []).2 = true ->
     read_maps (server_texts (run_updates (replicate 10 Stored) (sync_updates m') []).1) = Some m' /\
     (forall n, n ∉ demo_choice.*1 -> snapshot_of m' n = snapshot_of demo_maps n /\ (n ∈ modelNames m' <-> n ∈ modelNames demo_maps)) /\
     (forall n fs, map_get n demo_choice = Some fs ->
        (forall s, setting s m' n = resolved fs (field_of s) (setting s demo_maps n)) /\
        (map_has model_price fs || has_ratio fs = true -> map_has model_price fs && has_ratio fs = false ->
         forall sn, snapshot_of m' n = Found sn -> s_hasConflict sn = false))).
Proof.
  apply synced_prices_spec; [apply demo_maps_ok | apply demo_choice_wf | apply demo_choice_ok |].
  apply Forall_replicate. discriminate.
Defined.

(** ** Repeating a sync *)

Definition setting_text (s : Setting) (i : ModelPricingSnapshotInput) : str :=
  match s with SPrice f => pget f (in_pricing i) | SMode => in_billingMode i | SExpr => in_billingExpr i end.

Definition maps_of (g : Setting -> entries) : PriceMaps := mkMaps (pmake (fun f => g (SPrice f))) (g SMode) (g SExpr).

Lemma setting_maps_of s g : setting_map s (maps_of g) = g s.
Proof. destruct s as [f| |]; [by destruct f | done | done]. Qed.

Lemma parsed_ratios_settings i m : parsedRatios i = Some m <-> forall s, parseJsonRecord (setting_text s i) = Some (setting_map s m).
Proof.
  unfold parsedRatios. split.
  - intros H. repeat match type of H with
      | context [parseJsonRecord ?x] => destruct (parseJsonRecord x) eqn:?; cbn [mbind option_bind] in H; [| discriminate H]
      end. injection H as <-.
    intros [[]| |]; cbn; assumption.
  - intros H. pose proof (H (SPrice Price)) as E1. pose proof (H (SPrice Ratio)) as E2. pose proof (H (SPrice CacheRatio)) as E3.
    pose proof (H (SPrice CreateCacheRatio)) as E4. pose proof (H (SPrice CompletionRatio)) as E5. pose proof (H (SPrice ImageRatio)) as E6.
    pose proof (H (SPrice AudioRatio)) as E7. pose proof (H (SPrice AudioCompletionRatio)) as E8. pose proof (H SMode) as E9.
    pose proof (H SExpr) as E10. cbn [setting_text setting_map pget] in *. rewrite E1, E2, E3, E4, E5, E6, E7, E8, E9, E10.
    cbn [mbind option_bind]. by destruct m as [[] ? ?].
Qed.

Lemma parse_record_pretty l : json_ok (JObj l) -> parseJsonRecord (JSON_pretty (JObj l)) = Some l.
Proof.
  intros H. unfold parseJsonRecord. destruct (pretty_obj_shape l) as [u E].
  assert (str_or (JSON_pretty (JObj l)) (js "{}") = JSON_pretty (JObj l)) as -> by (by rewrite E).
  by rewrite pretty_roundtrip.
Qed.

Lemma server_text s server : setting_text s (server_texts server) = default [] (map_get (setting_key s) server).
Proof. destruct s as [f| |]; [by destruct f | done | done]. Qed.

(** After an interrupted run every setting is the old one or the new one. *)
Lemma interrupted_settings answers server m m' :
  parsedRatios (server_texts server) = Some m -> maps_ok m' ->
  exists m1, parsedRatios (server_texts (run_updates answers (sync_updates m') server).1) = Some m1 /\
    forall s, setting_map s m1 = setting_map s m \/ setting_map s m1 = setting_map s m'.
Proof.
  intros Hp Hok. rewrite parsed_ratios_settings in Hp. set (server1 := (run_updates answers (sync_updates m') server).1).
  assert (forall s, exists l, parseJsonRecord (setting_text s (server_texts server1)) = Some l /\ (l = setting_map s m \/ l = setting_map s m')) as H.
  { intros s. rewrite server_text. unfold server1. specialize (Hp s). rewrite server_text in Hp.
    destruct (run_updates_get answers (sync_updates m') server (setting_key s)) as [->|(v & Hv & ->)];
      [by rewrite updates_keys; apply settings_NoDup | by eauto |].
    rewrite update_text in Hv. injection Hv as <-. cbn [default from_option]. exists (setting_map s m'). split; [| by right].
    apply parse_record_pretty. by apply maps_ok_settings. }
  exists (maps_of (fun s => default [] (parseJsonRecord (setting_text s (server_texts server1))))). split.
  - apply parsed_ratios_settings. intros s. rewrite setting_maps_of. by destruct (H s) as (l & -> & _).
  - intros s. rewrite setting_maps_of. by destruct (H s) as (l & -> & ?).
Qed.

(** A sync that broke off after some of its requests, stored or not, can be repeated:
    the settings found then can be read, and syncing the same choices over them writes for
    every model what the complete first run would have written. *)
Theorem interrupted_sync_resumes answers server res m :
  parsedRatios (server_texts server) = Some m -> maps_ok m -> resolutions_wf res -> values_ok res ->
  exists m' m1 m2,
    performSync res m = Some (sync_updates m') /\
    parsedRatios (server_texts (run_updates answers (sync_updates m') server).1) = Some m1 /\
    performSync res m1 = Some (sync_updates m2) /\
    forall s n, setting s m2 n = setting s m' n.
Proof.
  intros Hp Hm Hr Hv. destruct (final_ratios_spec res m (maps_ok_wf m Hm) Hr) as (m' & E & Hwf & Hs).
  destruct (interrupted_settings answers server m m' Hp) as (m1 & E1 & H1); [by eapply final_ratios_ok |].
  destruct (final_ratios_spec res m1) as (m2 & E2 & _ & H2); [| done |].
  { intros s. destruct (H1 s) as [-> | ->]; [by apply maps_ok_wf | apply Hwf]. }
  exists m', m1, m2. unfold performSync. rewrite E, E2. split; [done |]. split; [done |]. split; [done |].
  intros s n. rewrite <- (setting_field s), H2, Hs. set (rt := field_of s).
  assert (setting (setting_of rt) m1 n = setting (setting_of rt) m n \/ setting (setting_of rt) m1 n = setting (setting_of rt) m' n) as [-> | ->].
  { unfold setting. destruct (H1 (setting_of rt)) as [-> | ->]; eauto. }
  - done.
  - rewrite Hs. destruct (map_get n res); [apply resolved_idemp | done].
Qed.

Definition demo_server : list (str * str) :=
  [(js "ModelPrice", jsq "{'dall-e-3':0.04}"); (js "ModelRatio", jsq "{'gpt-4o':1.25,'o3':1}"); (js "CacheRatio", jsq "{'gpt-4o':0.5}");
   (js "CompletionRatio", jsq "{'gpt-4o':4}")].

Lemma interrupted_sync_resumes_witness :
  exists m' m1 m2,
    performSync demo_choice demo_maps = Some (sync_updates m') /\
    parsedRatios (server_texts (run_updates [Stored; Stored; Refused; Failed true] (sync_updates m') demo_server).1) = Some m1 /\
    performSync demo_choice m1 = Some (sync_updates m2) /\
    forall s n, setting s m2 n = setting s m' n.
Proof.
  apply interrupted_sync_resumes; [vm_compute; reflexivity | apply demo_maps_ok | apply demo_choice_wf | apply demo_choice_ok].
Defined.

(** ** The choices of the page *)

(** Differences as the gateway sends them: objects with distinct keys, named upstreams. *)
Definition differences_ok (d : DifferencesMap) : Prop :=
  obj_wf d /\
  forall model ds, map_get model d = Some ds -> NoDup ds.*1 /\ forall rt name v, upstream_value ds rt name = Some v -> name <> [].

(** A value comes from an upstream, or is the mode that belongs to a chosen expression. *)
Definition chosen (d : DifferencesMap) (model : str) (rt : RatioType) (v : json) : Prop :=
  (rt = billing_mode /\ v = JStr (js "tiered_expr")) \/
  exists ds name, map_get model d = Some ds /\ upstream_value ds rt name = Some v /\ isSelectableUpstreamValue (Some v) = true.

Record fields_ok (d : DifferencesMap) (model : str) (fs : ModelResolution) : Prop := {
  fo_some : fs <> [];
  fo_nodup : NoDup fs.*1;
  fo_category : map_has model_price fs && has_ratio fs = false;
  fo_paired : map_has billing_expr fs = true -> map_has billing_mode fs = true;
  fo_chosen : forall rt v, map_get rt fs = Some v -> chosen d model rt v
}.

Definition choices_ok (d : DifferencesMap) (res : ResolutionsMap) : Prop :=
  obj_wf res /\ forall model fs, map_get model res = Some fs -> fields_ok d model fs.

Lemma choices_ok_wf d res : choices_ok d res -> resolutions_wf res.
Proof.
  intros [[Hnd Ho] H]. split; [done |]. apply Forall_forall. intros [model fs] Hin. apply (fo_nodup d model). apply H.
  by apply elem_map_get.
Qed.

Lemma category_false fs :
  map_has model_price fs && has_ratio fs = false <->
  (forall rt, map_get model_price fs <> None -> rt ∈ RATIO_SYNC_FIELDS -> map_get rt fs = None).
Proof.
  split.
  - intros H rt Hp Hin. destruct (map_get rt fs) eqn:E; [| done]. apply map_has_get in Hp. rewrite Hp in H. cbn in H.
    assert (has_ratio fs = true) as Hx; [| congruence]. apply has_ratio_spec. exists rt. by rewrite E.
  - intros H. destruct (map_has model_price fs) eqn:Hp; [| done]. cbn. apply map_has_get in Hp.
    destruct (has_ratio fs) eqn:Hr; [| done]. apply has_ratio_spec in Hr as (rt & Hin & Hg). by rewrite H in Hg.
Qed.

(** *** Unchecking *)

Lemma delete_field_ok d res model rt : choices_ok d res -> choices_ok d (deleteResolutionField res model rt).
Proof.
  intros [Hwf H]. unfold deleteResolutionField. destruct (map_get model res) as [fs|] eqn:E; [| done].
  set (f3 := if bool_decide (rt = billing_mode) then _ else _).
  assert (forall rt', map_get rt' f3 = if bool_decide (rt' = rt) || bool_decide (rt = billing_expr) && bool_decide (rt' = billing_mode)
            || bool_decide (rt = billing_mode) && bool_decide (rt' = billing_expr) then None else map_get rt' fs) as G.
  { intros rt'. unfold f3. destruct (bool_decide (rt = billing_expr)), (bool_decide (rt = billing_mode)); rewrite ?get_rt_delete;
      destruct (bool_decide (rt' = rt)), (bool_decide (rt' = billing_mode)), (bool_decide (rt' = billing_expr)); reflexivity. }
  assert (NoDup f3.*1) as Hnd.
  { unfold f3. destruct (H _ _ E) as [_ Hnd _ _ _].
    destruct (bool_decide (rt = billing_expr)), (bool_decide (rt = billing_mode)); repeat apply rt_delete_NoDup; done. }
  destruct (length f3 =? 0)%nat eqn:El.
  - split; [by apply obj_delete_wf |]. intros model' fs'. rewrite obj_get_delete.
    destruct (bool_decide (model' = model)); [done |]. apply H.
  - split; [by apply obj_set_wf |]. intros model' fs'. rewrite obj_get_set by done.
    destruct (bool_decide_reflect (model' = model)) as [->|_]; [| apply H]. intros [= <-]. destruct (H _ _ E) as [_ _ Hc Hp Hch]. constructor.
    + intros Hn. by rewrite Hn in El.
    + done.
    + apply category_false. rewrite category_false in Hc. intros rt'. rewrite !G. destruct (_ || _ || _); [done |]. intros Hq Hin.
      destruct (bool_decide (rt' = rt) || _ || _); [done |]. by apply Hc.
    + rewrite !map_has_get, !G. destruct (bool_decide (billing_expr = rt)) eqn:B1; [done |]. cbn [orb].
      rewrite (bool_decide_false (billing_expr = billing_mode)), andb_false_r by done. cbn [orb].
      rewrite (bool_decide_true (billing_expr = billing_expr)), andb_true_r by done.
      destruct (bool_decide (rt = billing_mode)) eqn:B2; [done |]. cbn [andb orb].
      apply bool_decide_eq_false in B1, B2. rewrite (bool_decide_false (billing_mode = rt)), (bool_decide_false (rt = billing_expr)) by congruence.
      cbn. rewrite <- !map_has_get. apply Hp.
    + intros rt' v. rewrite G. destruct (_ || _ || _); [done |]. apply Hch.
Qed.

(** *** Checking *)

Definition conflicting (c : BillingCategory) (rt : RatioType) : bool :=
  negb (bool_decide (c = CatTiered)) && negb (bool_decide (getBillingCategory rt = CatTiered)) && negb (bool_decide (getBillingCategory rt = c)).

Lemma cleared_get c fs rt : map_get rt (clear_conflicting c fs) = if conflicting c rt then None else map_get rt fs.
Proof.
  etrans; [exact (get_filter_keys (fun k => negb (conflicting c k)) fs rt) |]. by destruct (conflicting c rt).
Qed.

Lemma cleared_NoDup c fs : NoDup fs.*1 -> NoDup (clear_conflicting c fs).*1.
Proof. exact (filter_keys_NoDup (fun k => negb (conflicting c k)) fs). Qed.

Section Check.
Context (d : DifferencesMap) (model : str) (ds : FieldDiffs) (rt : RatioType) (v : json) (name : str).
Hypothesis Hds : map_get model d = Some ds.
Hypothesis Hv : upstream_value ds rt name = Some v.
Hypothesis Hsel : isSelectableUpstreamValue (Some v) = true.
Hypothesis Hpref : getPreferredSyncField ds rt name = rt.
Hypothesis Hname : name <> [].

(** The fields that checking a value leaves. *)
Definition checked_fields (old : ModelResolution) : ModelResolution :=
  let fields := map_set rt v (clear_conflicting (getBillingCategory rt) old) in
  if bool_decide (getBillingCategory rt = CatTiered) then pair_tiered ds rt name fields else fields.

Lemma select_fields prev :
  handleSelectValue d model rt v name prev = obj_set model (checked_fields (default [] (map_get model prev))) prev.
Proof.
  unfold handleSelectValue, checked_fields. rewrite Hds. cbn [from_option id]. apply truthy_true in Hname. rewrite Hname, Hpref.
  rewrite (bool_decide_true (rt = rt)), andb_true_r by done. done.
Qed.

Lemma pair_tiered_get fs rt' :
  map_get rt' (pair_tiered ds rt name fs) =
  if bool_decide (rt' = billing_expr) && isSelectableUpstreamValue (upstream_value ds billing_expr name) then upstream_value ds billing_expr name
  else if bool_decide (rt' = billing_mode) && isSelectableUpstreamValue (upstream_value ds billing_mode name) then upstream_value ds billing_mode name
  else if bool_decide (rt' = billing_mode) && bool_decide (rt = billing_expr) then Some (JStr (js "tiered_expr"))
  else map_get rt' fs.
Proof.
  clear Hds Hv Hsel Hpref Hname. unfold pair_tiered.
  destruct (upstream_value ds billing_mode name) as [mode|] eqn:Em, (upstream_value ds billing_expr name) as [expr|] eqn:Ee;
    cbn [default from_option isSelectableUpstreamValue];
    repeat match goal with |- context [if ?b then map_set _ _ _ else _] => destruct b eqn:? end;
    rewrite ?map_get_set; repeat case_decide; subst;
    rewrite ?(bool_decide_true (billing_expr = billing_expr)), ?(bool_decide_true (billing_mode = billing_mode)) by done;
    rewrite ?(bool_decide_false (billing_expr = billing_mode)), ?(bool_decide_false (billing_mode = billing_expr)) by done;
    rewrite ?(bool_decide_false (rt' = billing_mode)), ?(bool_decide_false (rt' = billing_expr)) by done;
    cbn; rewrite ?andb_false_r; done.
Qed.

Lemma pair_tiered_NoDup fs : NoDup fs.*1 -> NoDup (pair_tiered ds rt name fs).*1.
Proof.
  intros H. unfold pair_tiered. repeat match goal with |- context [if ?b then _ else _] => destruct b end;
    repeat apply map_set_NoDup; done.
Qed.

Lemma checked_get_tiered old rt' :
  getBillingCategory rt = CatTiered -> rt' <> billing_mode -> rt' <> billing_expr -> map_get rt' (checked_fields old) = map_get rt' old.
Proof.
  intros Hc H1 H2. unfold checked_fields. rewrite bool_decide_true, pair_tiered_get by done.
  rewrite (bool_decide_false (rt' = billing_expr)), (bool_decide_false (rt' = billing_mode)) by done. cbn.
  rewrite map_get_set_ne by (intros ->; destruct rt; done). rewrite cleared_get. unfold conflicting. by rewrite Hc.
Qed.

Lemma checked_get_plain old rt' :
  getBillingCategory rt <> CatTiered ->
  map_get rt' (checked_fields old) = if bool_decide (rt' = rt) then Some v else if conflicting (getBillingCategory rt) rt' then None else map_get rt' old.
Proof.
  intros Hc. unfold checked_fields. rewrite (bool_decide_false (getBillingCategory rt = CatTiered)) by done.
  rewrite map_get_set. destruct (decide (rt' = rt)) as [->|Hne]; [by rewrite bool_decide_true |].
  by rewrite bool_decide_false, cleared_get by done.
Qed.

(** The checked field holds the value. *)
Lemma checked_value old : map_get rt (checked_fields old) = Some v.
Proof.
  unfold checked_fields. case_bool_decide as Hc; [| apply map_get_set_eq]. rewrite pair_tiered_get, map_get_set_eq.
  destruct rt; try discriminate Hc.
  - rewrite (bool_decide_false (billing_mode = billing_expr)), (bool_decide_true (billing_mode = billing_mode)) by done. cbn.
    by rewrite Hv, Hsel.
  - rewrite (bool_decide_true (billing_expr = billing_expr)) by done. cbn. by rewrite Hv, Hsel.
Qed.

Lemma checked_paired old :
  (map_has billing_expr old = true -> map_has billing_mode old = true) ->
  map_has billing_expr (checked_fields old) = true -> map_has billing_mode (checked_fields old) = true.
Proof.
  rewrite !map_has_get. intros Ho. unfold checked_fields. case_bool_decide as Hc.
  - rewrite !pair_tiered_get. rewrite (bool_decide_false (billing_mode = billing_expr)), (bool_decide_true (billing_mode = billing_mode)) by done.
    cbn [andb]. intros Hx. destruct (isSelectableUpstreamValue (upstream_value ds billing_mode name)) eqn:Em;
      [by destruct (upstream_value ds billing_mode name) |].
    destruct (bool_decide_reflect (rt = billing_expr)) as [He|He]; [done |]. assert (rt = billing_mode) as Hm by (destruct rt; done). by rewrite Hm, map_get_set_eq.
  - rewrite !map_get_set_ne by (intros Hr; by rewrite <- Hr in Hc). rewrite !cleared_get. unfold conflicting. cbn [getBillingCategory].
    rewrite (bool_decide_true (CatTiered = CatTiered)), !andb_false_r by done. apply Ho.
Qed.

Lemma checked_chosen old :
  (forall rt' w, map_get rt' old = Some w -> chosen d model rt' w) ->
  forall rt' w, map_get rt' (checked_fields old) = Some w -> chosen d model rt' w.
Proof.
  intros Ho rt' w. assert (forall rt' w, map_get rt' (map_set rt v (clear_conflicting (getBillingCategory rt) old)) = Some w -> chosen d model rt' w) as Hset.
  { intros r x. rewrite map_get_set. case_decide; [| rewrite cleared_get; destruct (conflicting _ _); [done | apply Ho]].
    intros [= <-]. subst. right. eauto. }
  unfold checked_fields. case_bool_decide; [| apply Hset]. rewrite pair_tiered_get.
  destruct (bool_decide (rt' = billing_expr) && _) eqn:B1.
  { apply andb_true_iff in B1 as [->%bool_decide_eq_true B1]. intros E. rewrite E in B1. right. eauto. }
  destruct (bool_decide (rt' = billing_mode) && isSelectableUpstreamValue _) eqn:B2.
  { apply andb_true_iff in B2 as [->%bool_decide_eq_true B2]. intros E. rewrite E in B2. right. eauto. }
  destruct (bool_decide (rt' = billing_mode) && bool_decide (rt = billing_expr)) eqn:B3; [| apply Hset].
  apply andb_true_iff in B3 as [->%bool_decide_eq_true _]. intros [= <-]. by left.
Qed.

Lemma checked_category old : map_has model_price old && has_ratio old = false -> map_has model_price (checked_fields old) && has_ratio (checked_fields old) = false.
Proof.
  rewrite !category_false. intros Ho rt' Hp Hin. destruct (decide (getBillingCategory rt = CatTiered)) as [Hc|Hc].
  - assert (getBillingCategory rt' = CatRatio) as Hr by (by apply ratio_fields_category).
    rewrite checked_get_tiered in Hp |- * by (done || by destruct rt'). by apply Ho.
  - rewrite checked_get_plain in Hp |- * by done. apply ratio_fields_category in Hin as Hr. unfold conflicting in *. rewrite Hr. cbn [getBillingCategory] in Hp.
    rewrite (bool_decide_false (CatRatio = CatTiered)) by done. rewrite (bool_decide_false (CatPrice = CatTiered)) in Hp by done.
    rewrite (bool_decide_false (getBillingCategory rt = CatTiered)) in Hp |- * by done. cbn [negb andb] in *.
    destruct rt; try done; cbn [getBillingCategory] in *; cbn in Hp |- *;
      repeat case_bool_decide; subst; try done; cbn in *; try done; by apply Ho.
Qed.

Lemma select_ok prev : choices_ok d prev -> choices_ok d (handleSelectValue d model rt v name prev).
Proof.
  intros [Hwf H]. rewrite select_fields. split; [by apply obj_set_wf |]. intros model' fs'. rewrite obj_get_set by done.
  case_bool_decide as Hm; [| apply H]. intros [= <-]. subst.
  assert (fields_ok d model (default [] (map_get model prev)) \/ default [] (map_get model prev) = []) as Hold.
  { destruct (map_get model prev) as [fs|] eqn:E; [left; by apply H | by right]. }
  set (old := default [] (map_get model prev)) in *.
  constructor.
  - intros Hn. pose proof (checked_value old) as E. by rewrite Hn in E.
  - unfold checked_fields. assert (NoDup old.*1) as Hnd by (destruct Hold as [[_ ? _ _ _]| ->]; [done | constructor]).
    case_bool_decide; [apply pair_tiered_NoDup |]; by apply map_set_NoDup, cleared_NoDup.
  - apply checked_category. destruct Hold as [[_ _ ? _ _]| ->]; done.
  - apply checked_paired. destruct Hold as [[_ _ _ ? _]| ->]; done.
  - apply checked_chosen. destruct Hold as [[_ _ _ _ ?]| ->]; done.
Qed.
End Check.

(** *** Rows *)

Lemma shown_row lower search filter rows row : row ∈ filteredData lower search filter rows -> row ∈ rows.
Proof.
  unfold filteredData. rewrite !list_elem_of_In. destruct (truthy (trim search)), (truthy filter && _); rewrite ?filter_In; tauto.
Qed.

Lemma row_differences d row : differences_ok d -> row ∈ dataSource d -> map_get (sr_model row) d = Some (sr_ratioTypes row).
Proof.
  intros [[Hnd _] _] ([model ds] & -> & Hin)%list_elem_of_fmap. cbn. by apply elem_map_get.
Qed.

Lemma choosable_spec upstream filter row rt v :
  (rt, v) ∈ choosable upstream filter row ->
  rt ∈ getOrderedRatioTypes (sr_ratioTypes row) filter /\ upstream_value (sr_ratioTypes row) rt upstream = Some v /\
  isSelectableUpstreamValue (Some v) = true /\ getPreferredSyncField (sr_ratioTypes row) rt upstream = rt.
Proof.
  intros (rt' & Hin & H)%list_elem_of_omap. case_bool_decide as Hp; [| done].
  destruct (upstream_value (sr_ratioTypes row) rt' upstream) as [w|] eqn:E; cbn in H; [| done].
  destruct (isSelectableUpstreamValue (Some w)) eqn:Es; cbn in Es; rewrite Es in H; cbn in H; [| done].
  injection H as -> ->. split; [done |]. split; [done |]. split; [by rewrite <- Es | done].
Qed.

Lemma check_ok d row upstream filter e prev :
  differences_ok d -> row ∈ dataSource d -> e ∈ choosable upstream filter row -> choices_ok d prev ->
  choices_ok d (handleSelectValue d (sr_model row) (fst e) (snd e) upstream prev).
Proof.
  intros Hd Hrow He. destruct e as [rt v]. apply choosable_spec in He as (_ & Hv & Hs & Hp).
  pose proof (row_differences d row Hd Hrow) as Hg. apply select_ok with (ds := sr_ratioTypes row); try done.
  destruct Hd as [_ Hd]. by eapply Hd.
Qed.

Lemma foldl_preserves {A B} (P : A -> Prop) (f : A -> B -> A) l a : (forall a x, x ∈ l -> P a -> P (f a x)) -> P a -> P (foldl f a l).
Proof.
  revert a. induction l as [|x l IH]; intros a Hf Ha; [done |]. cbn. apply IH; [| by apply Hf; [left |]].
  intros a' y Hy. apply Hf. by right.
Qed.

Lemma bulk_select_ok d filter upstream rows prev :
  differences_ok d -> rows ⊆ dataSource d -> choices_ok d prev -> choices_ok d (handleBulkSelect d filter upstream rows prev).
Proof.
  intros Hd Hrows. apply foldl_preserves. intros res row Hrow. apply foldl_preserves. intros res' e He.
  apply (check_ok d row upstream filter); [done | by apply Hrows | done].
Qed.

Lemma bulk_unselect_ok d filter upstream rows prev : choices_ok d prev -> choices_ok d (handleBulkUnselect filter upstream rows prev).
Proof.
  apply foldl_preserves. intros res row _. apply foldl_preserves. intros res' rt _ H.
  destruct (upstream_value _ _ _); [by apply delete_field_ok | done].
Qed.

(** *** Differences that were resolved *)

Lemma resolve_field_get model d rt model' rt' :
  differences_ok d ->
  (map_get model' (resolve_field model d rt) ≫= map_get rt') =
  if bool_decide (model' = model) && bool_decide (rt' = rt) then None else map_get model' d ≫= map_get rt'.
Proof.
  intros [Hwf _]. unfold resolve_field. destruct (map_get model d) as [ds|] eqn:E.
  - destruct (map_has rt ds) eqn:Er.
    + destruct (length (rt_delete rt ds) =? 0)%nat eqn:El.
      * rewrite obj_get_delete. destruct (bool_decide_reflect (model' = model)) as [->|]; [| done]. cbn. rewrite E. cbn.
        apply Nat.eqb_eq, length_zero_iff_nil in El. pose proof (get_rt_delete rt' rt ds) as G. rewrite El in G. cbn in G.
        by destruct (bool_decide (rt' = rt)).
      * rewrite obj_get_set by done. destruct (bool_decide_reflect (model' = model)) as [->|]; [| done]. cbn. rewrite E. cbn.
        by rewrite get_rt_delete.
    + destruct (bool_decide_reflect (model' = model)) as [->|]; [| done]. cbn. rewrite E. cbn. case_bool_decide; [| done]. subst.
      unfold map_has in Er. by destruct (map_get rt ds).
  - destruct (bool_decide_reflect (model' = model)) as [->|]; [| done]. cbn. rewrite E. cbn. by destruct (bool_decide _).
Qed.

Lemma resolve_field_ok model d rt : differences_ok d -> differences_ok (resolve_field model d rt).
Proof.
  intros [Hwf Hd]. unfold resolve_field. destruct (map_get model d) as [ds|] eqn:E; [| done].
  destruct (map_has rt ds); [| done]. destruct (length (rt_delete rt ds) =? 0)%nat.
  - split; [by apply obj_delete_wf |]. intros model' ds'. rewrite obj_get_delete. case_bool_decide; [done | apply Hd].
  - split; [by apply obj_set_wf |]. intros model' ds'. rewrite obj_get_set by done. case_bool_decide; [| apply Hd].
    intros [= <-]. destruct (Hd _ _ E) as [Hnd Hn]. split; [by apply rt_delete_NoDup |]. intros rt' name v. unfold upstream_value.
    rewrite get_rt_delete. case_bool_decide; [done |]. apply Hn.
Qed.

Lemma resolve_fields_ok model rts d : differences_ok d -> differences_ok (foldl (resolve_field model) d rts).
Proof. apply foldl_preserves. intros d' rt _. apply resolve_field_ok. Qed.

Lemma resolve_differences_ok res d : differences_ok d -> differences_ok (resolve_differences res d).
Proof. apply foldl_preserves. intros d' [model fs] _. apply resolve_fields_ok. Qed.

Lemma resolve_fields_get model rts d model' rt' :
  differences_ok d ->
  (map_get model' (foldl (resolve_field model) d rts) ≫= map_get rt') =
  if bool_decide (model' = model) && bool_decide (rt' ∈ rts) then None else map_get model' d ≫= map_get rt'.
Proof.
  revert d. induction rts as [|rt rts IH]; intros d Hd; cbn [foldl].
  - by rewrite (bool_decide_false (rt' ∈ [])), andb_false_r by apply not_elem_of_nil.
  - rewrite IH by (by apply resolve_field_ok). rewrite resolve_field_get by done.
    rewrite (bool_decide_ext (rt' ∈ rt :: rts) (rt' = rt \/ rt' ∈ rts)) by apply elem_of_cons. rewrite bool_decide_or.
    destruct (bool_decide (model' = model)), (bool_decide (rt' = rt)), (bool_decide (rt' ∈ rts)); reflexivity.
Qed.

(** Exactly the chosen fields are gone. *)
Lemma resolve_differences_get res d model rt :
  resolutions_wf res -> differences_ok d ->
  (map_get model (resolve_differences res d) ≫= map_get rt) =
  match map_get model res ≫= map_get rt with Some _ => None | None => map_get model d ≫= map_get rt end.
Proof.
  unfold resolve_differences. revert d. induction res as [|[m fs] res IH]; intros d [Hnd Hf] Hd; [done |]. cbn [foldl].
  cbn in Hnd. apply NoDup_cons in Hnd as [Hn Hnd]. apply Forall_cons in Hf as [_ Hf].
  rewrite IH by (try split; done || by apply resolve_fields_ok). rewrite resolve_fields_get by done. cbn [map_get].
  destruct (decide (model = m)) as [->|Hne].
  - assert (map_get m res = None) as -> by (by apply map_get_None). rewrite (bool_decide_true (m = m)) by done. cbn.
    destruct (map_get rt fs) as [v|] eqn:E.
    + rewrite bool_decide_true; [done |]. apply map_get_elem in E. apply list_elem_of_fmap. by exists (rt, v).
    + rewrite bool_decide_false; [done |]. by apply map_get_None.
  - by rewrite bool_decide_false by done.
Qed.

(** *** The page *)

Definition event_ok (e : SyncEvent) : Prop := match e with EvFetched (Some d) => differences_ok d | _ => True end.

Inductive sync_reachable (t toLowerCase : str -> str) : SyncPage -> Prop :=
  | reach_initial current : sync_reachable t toLowerCase (initial_page current)
  | reach_step s e s' :
      sync_reachable t toLowerCase s -> event_ok e -> sync_step t toLowerCase s e s' -> sync_reachable t toLowerCase s'.

Definition page_ok (s : SyncPage) : Prop := differences_ok (y_differences s) /\ choices_ok (y_differences s) (y_resolutions s).

Lemma start_sync_choices s c s' : start_sync s c = Some s' -> y_differences s' = y_differences s /\ y_resolutions s' = y_resolutions s.
Proof. unfold start_sync. destruct (performSync _ _); [| done]. by intros [= <-]. Qed.

Lemma apply_choices t s s' : handleApplySync t s = Some s' -> y_differences s' = y_differences s /\ y_resolutions s' = y_resolutions s.
Proof. unfold handleApplySync. destruct (sync_conflicts _ _ _ _); [apply start_sync_choices | by intros [= <-]]. Qed.

Lemma no_choices_ok d : choices_ok d [].
Proof. split; [split; [constructor | done] | done]. Qed.

Lemma shown_rows_incl lower s search filter : shown_rows lower s search filter ⊆ dataSource (y_differences s).
Proof. intros row. apply shown_row. Qed.

Lemma page_step t lower s e s' : page_ok s -> event_ok e -> sync_step t lower s e s' -> page_ok s'.
Proof.
  intros [Hd Hc] He Hs. destruct Hs as [| | | | | | |answer| | | | |s' ? ? H|s' ? ? H| |ok ? ?]; try (split; done).
  - unfold handleConfirmChannelSelection. by destruct (selected_upstreams _ _ _).
  - destruct answer as [d|]; [split; [done | apply no_choices_ok] | done].
  - split; [done |]. eapply check_ok; [done | by eapply shown_rows_incl | done | done].
  - split; [done |]. by apply delete_field_ok.
  - split; [done |]. apply bulk_select_ok; [done | apply shown_rows_incl | done].
  - split; [done |]. by apply bulk_unselect_ok.
  - apply apply_choices in H as [E1 E2]. unfold page_ok. by rewrite E1, E2.
  - apply start_sync_choices in H as [E1 E2]. unfold page_ok. by rewrite E1, E2.
  - destruct ok; [split; [by apply resolve_differences_ok | apply no_choices_ok] | done].
Qed.

Lemma page_reachable t lower s : sync_reachable t lower s -> page_ok s.
Proof.
  induction 1 as [|s e s' _ IH He Hs]; [split; [split; [split; [constructor | done] | done] | apply no_choices_ok] |].
  by eapply page_step.
Qed.

(** C6: Whatever is clicked and answered, in every state of the page each model with choices
    has at least one, never a fixed price together with a ratio, an expression only with a
    mode, and every chosen value is one that an upstream offers for this model and field,
    or the mode that an expression needs. *)
Theorem chosen_values_consistent t lower s :
  sync_reachable t lower s ->
  forall model fs, map_get model (y_resolutions s) = Some fs ->
    fs <> [] /\ map_has model_price fs && has_ratio fs = false /\
    (map_has billing_expr fs = true -> map_has billing_mode fs = true) /\
    (forall rt v, map_get rt fs = Some v -> chosen (y_differences s) model rt v).
Proof.
  intros [_ [_ H]]%page_reachable model fs Hg. by destruct (H model fs Hg).
Qed.

(** A fetch, then the check box of an upstream for all rows. *)
Definition demo_differences : DifferencesMap :=
  [(js "dall-e-3", [(model_ratio, mkDiff JNull [(js "hub", JNum (lit "2.5"))] [(js "hub", true)]);
                    (completion_ratio, mkDiff JNull [(js "hub", JNum (lit "3"))] [(js "hub", true)])]);
   (js "gpt-4o", [(model_ratio, mkDiff (JNum (lit "1.25")) [(js "hub", JNum (lit "2"))] [(js "hub", true)]);
                  (billing_expr, mkDiff JNull [(js "hub", JStr (js "tier(1)"))] [(js "hub", true)])]);
   (js "o3", [(model_ratio, mkDiff (JNum (lit "1")) [(js "hub", JNum (lit "2"))] [(js "hub", true)])])].

Definition demo_channel : UpstreamChannel := mkUpstream 1 (js "hub") (js "https://hub.example") 1 None.
Definition demo_known : SyncPage :=
  with_channels (initial_page demo_maps) false [] (learn_channels [demo_channel] []) (default_endpoints [demo_channel] []) false.
Definition demo_dialog (ids : list Z) : SyncPage :=
  with_channels demo_known true ids (y_knownChannels demo_known) (y_channelEndpoints demo_known) false.
Definition demo_fetching : SyncPage := handleConfirmChannelSelection (demo_dialog [1%Z]).
Definition demo_fetched : SyncPage := fetch_settled (Some demo_differences) demo_fetching.
Definition demo_checked : SyncPage :=
  with_choices demo_fetched (y_differences demo_fetched)
    (handleBulkSelect (y_differences demo_fetched) [] (js "hub") (shown_rows id demo_fetched [] []) (y_resolutions demo_fetched)).

Lemma demo_differences_ok : differences_ok demo_differences.
Proof.
  split; [split; [apply (bool_decide_eq_true_1 (NoDup _)); vm_compute; reflexivity | vm_compute; reflexivity] |].
  intros model ds Hg. apply map_get_elem in Hg.
  assert (forall l : FieldDiffs, Forall (fun e => Forall (fun u => fst u <> []) (df_upstreams (snd e))) l ->
          forall rt name v, upstream_value l rt name = Some v -> name <> []) as Hnames.
  { intros l Hl rt name v Hv. unfold upstream_value in Hv. destruct (map_get rt l) as [e|] eqn:E; [| done]. cbn in Hv.
    apply map_get_elem in E, Hv. rewrite Forall_forall in Hl. specialize (Hl _ E). rewrite Forall_forall in Hl. by apply (Hl _ Hv). }
  apply elem_of_cons in Hg as [[= -> ->]|Hg]; [| apply elem_of_cons in Hg as [[= -> ->]|Hg]; [| apply list_elem_of_singleton in Hg as [= -> ->]]].
  all: split; [apply (bool_decide_eq_true_1 (NoDup _)); vm_compute; reflexivity | apply Hnames].
  all: repeat apply Forall_cons_2; try apply Forall_nil_2; vm_compute; discriminate.
Qed.

Lemma demo_fetched_reachable : sync_reachable id id demo_fetched.
Proof.
  apply (reach_step _ _ demo_fetching (EvFetched (Some demo_differences))); [| apply demo_differences_ok | apply step_fetched; vm_compute; reflexivity].
  apply (reach_step _ _ (demo_dialog [1%Z]) EvConfirmChannels); [| done | apply step_confirm_channels; reflexivity].
  apply (reach_step _ _ (demo_dialog []) (EvSelectChannels [1%Z])); [| done | apply (step_select_channels id id (demo_dialog [])); reflexivity].
  apply (reach_step _ _ demo_known (EvChannelDialog true)); [| done | apply (step_dialog id id demo_known); reflexivity].
  apply (reach_step _ _ (initial_page demo_maps) (EvChannels [demo_channel])); [apply reach_initial | done | apply (step_channels id id (initial_page demo_maps))].
Qed.

Lemma demo_reachable : sync_reachable id id demo_checked.
Proof.
  apply (reach_step _ _ demo_fetched (EvCheckAll [] [] (js "hub"))); [apply demo_fetched_reachable | done |].
  apply step_check_all. vm_compute. reflexivity.
Qed.

(** The expression is chosen with its mode; the ratio beside it is not offered. *)
Example demo_checked_choices :
  y_resolutions demo_checked =
  [(js "dall-e-3", [(model_ratio, JNum (lit "2.5")); (completion_ratio, JNum (lit "3"))]);
   (js "gpt-4o", [(billing_expr, JStr (js "tier(1)")); (billing_mode, JStr (js "tiered_expr"))]);
   (js "o3", [(model_ratio, JNum (lit "2"))])].
Proof. vm_compute. reflexivity. Qed.

Lemma chosen_values_consistent_witness :
  exists fs, map_get (js "gpt-4o") (y_resolutions demo_checked) = Some fs /\
    fs <> [] /\ map_has model_price fs && has_ratio fs = false /\
    (map_has billing_expr fs = true -> map_has billing_mode fs = true) /\
    (forall rt v, map_get rt fs = Some v -> chosen (y_differences demo_checked) (js "gpt-4o") rt v).
Proof.
  exists [(billing_expr, JStr (js "tier(1)")); (billing_mode, JStr (js "tiered_expr"))]. split; [vm_compute; reflexivity |].
  apply (chosen_values_consistent id id demo_checked demo_reachable). vm_compute. reflexivity.
Defined.

(** ** Syncing without a question *)

(** Without both a fixed price and a ratio. *)
Definition single_category (m : PriceMaps) (n : str) : Prop :=
  forall rt, rt ∈ RATIO_SYNC_FIELDS -> setting (SPrice Price) m n <> None -> setting (setting_of rt) m n = None.

Lemma omap_nil {A B} (f : A -> option B) l : omap f l = [] -> forall x, x ∈ l -> f x = None.
Proof.
  induction l as [|y l IH]; cbn; [by intros _ x ?%not_elem_of_nil |]. destruct (f y) eqn:E; [done |].
  intros H x [->|Hx]%elem_of_cons; [done | by apply IH].
Qed.

Lemma has_entry_get s model m : has_entry s model m = true <-> setting s m model <> None.
Proof. unfold has_entry, setting. apply map_has_get. Qed.

Lemma local_category_ratio m n rt :
  rt ∈ RATIO_SYNC_FIELDS -> setting (setting_of rt) m n <> None -> setting (SPrice Price) m n = None ->
  getLocalBillingCategory n m = Some CatRatio.
Proof.
  intros Hin Hs Hp. unfold getLocalBillingCategory.
  destruct (has_entry (SPrice Price) n m) eqn:E; [by apply has_entry_get in E |].
  apply has_entry_get in Hs. apply ratio_fields_category in Hin.
  destruct rt; try discriminate Hin; cbn [setting_of] in Hs; rewrite Hs, ?orb_true_r; reflexivity.
Qed.

Lemma new_category_ratio fs : map_has model_price fs = false -> has_ratio fs = true -> new_category fs = CatRatio.
Proof.
  intros Hp Hr. unfold new_category. rewrite Hp. apply has_ratio_spec in Hr as (rt & Hin & Hg).
  assert (existsb (fun rt => rt_in rt (map fst fs)) RATIO_SYNC_FIELDS = true) as ->; [| done].
  apply existsb_exists. exists rt. split; [by apply list_elem_of_In |]. apply bool_decide_eq_true.
  destruct (decide (rt ∈ fs.*1)) as [|Hn]; [done |]. by apply map_get_None in Hn.
Qed.

Lemma conflict_found t d m n fs c :
  getLocalBillingCategory n m = Some c -> new_category fs <> CatTiered -> c <> new_category fs -> conflict_of t d m (n, fs) <> None.
Proof. intros E Hn Hc. unfold conflict_of. by rewrite E, !bool_decide_false by done. Qed.

(** If applying the choices starts to write at once, without the dialog of conflicts,
    no model that was priced in one way loses a setting: what was set stays set. *)
Theorem silent_sync_keeps_prices t lower s s' m' :
  sync_reachable t lower s -> isLoading s = false -> maps_wf (y_current s) ->
  handleApplySync t s = Some s' -> y_syncing s' <> None -> finalRatios (y_resolutions s) (y_current s) = Some m' ->
  forall n, single_category (y_current s) n -> forall st, setting st (y_current s) n <> None -> setting st m' n <> None.
Proof.
  intros Hr Hl Hm Ha Hy Hf n Hn st Hst. apply page_reachable in Hr as [_ Hc].
  destruct (final_ratios_spec (y_resolutions s) (y_current s) Hm (choices_ok_wf _ _ Hc)) as (m1 & E1 & _ & Hs).
  assert (m1 = m') as -> by congruence. rewrite <- (setting_field st) in Hst |- *. set (rt := field_of st) in *. rewrite Hs.
  destruct (map_get n (y_resolutions s)) as [fs|] eqn:E; [| done]. destruct Hc as [[Hnd Ho] Hc]. destruct (Hc n fs E) as [_ _ Hcat _ _].
  unfold handleApplySync in Ha. destruct (sync_conflicts t _ _ _) as [|c cs] eqn:Ec.
  2: { injection Ha as <-. cbn in Hy. unfold isLoading in Hl. destruct (y_syncing s); [| done]. by rewrite orb_true_r in Hl. }
  pose proof (omap_nil _ _ Ec (n, fs) (map_get_elem _ _ _ E)) as Hnone. unfold resolved.
  destruct (map_get rt fs) eqn:Ert; [done |].
  destruct (bool_decide (rt ∈ RATIO_SYNC_FIELDS) && map_has model_price fs) eqn:B1; cbn [orb].
  - exfalso. apply andb_true_iff in B1 as [Hin%bool_decide_eq_true Hp].
    assert (setting (SPrice Price) (y_current s) n = None) as Hno.
    { destruct (setting (SPrice Price) (y_current s) n) eqn:Ep; [| done]. exfalso. apply Hst. apply Hn; [done |]. by rewrite Ep. }
    apply (conflict_found t (y_differences s) (y_current s) n fs CatRatio) in Hnone; [done | by apply (local_category_ratio _ _ rt) | |];
      unfold new_category; by rewrite Hp.
  - destruct (bool_decide (rt = model_price) && has_ratio fs) eqn:B2; [| done]. exfalso.
    apply andb_true_iff in B2 as [Hp%bool_decide_eq_true Hra]. rewrite Hp in Hst. rewrite Hra, andb_true_r in Hcat.
    pose proof (new_category_ratio fs Hcat Hra) as Hnew.
    apply (conflict_found t (y_differences s) (y_current s) n fs CatPrice) in Hnone; [done | | by rewrite Hnew | by rewrite Hnew].
    unfold getLocalBillingCategory. apply has_entry_get in Hst. cbn [setting_of] in Hst. by rewrite Hst.
Qed.

Definition demo_row : SyncRow := mkSyncRow (js "o3") [(model_ratio, mkDiff (JNum (lit "1")) [(js "hub", JNum (lit "2"))] [(js "hub", true)])] false.
Definition demo_one : SyncPage :=
  with_choices demo_fetched (y_differences demo_fetched)
    (handleSelectValue (y_differences demo_fetched) (js "o3") model_ratio (JNum (lit "2")) (js "hub") (y_resolutions demo_fetched)).

Lemma demo_one_reachable : sync_reachable id id demo_one.
Proof.
  apply (reach_step _ _ demo_fetched (EvCheck [] [] (js "hub") demo_row (model_ratio, JNum (lit "2")))); [apply demo_fetched_reachable | done |].
  apply (step_check id id demo_fetched [] [] (js "hub") demo_row (model_ratio, JNum (lit "2"))); [vm_compute; reflexivity | |].
  - vm_compute. right. right. left.
  - vm_compute. left.
Qed.

Lemma silent_sync_keeps_prices_witness :
  exists s' m', handleApplySync id demo_one = Some s' /\ y_syncing s' <> None /\
    finalRatios (y_resolutions demo_one) (y_current demo_one) = Some m' /\
    forall n, single_category (y_current demo_one) n ->
      forall st, setting st (y_current demo_one) n <> None -> setting st m' n <> None.
Proof.
  destruct (handleApplySync id demo_one) as [s'|] eqn:E; [| vm_compute in E; discriminate E].
  destruct (finalRatios (y_resolutions demo_one) (y_current demo_one)) as [m'|] eqn:Em; [| vm_compute in Em; discriminate Em].
  assert (y_syncing s' <> None) as Hy by (intros H; vm_compute in E; injection E as <-; vm_compute in H; discriminate H).
  exists s', m'. split; [reflexivity |]. split; [exact Hy |]. split; [reflexivity |].
  apply (silent_sync_keeps_prices id id demo_one s' m');
    [apply demo_one_reachable | vm_compute; reflexivity | apply maps_ok_wf, demo_maps_ok | exact E | exact Hy | exact Em].
Defined.

(** ** The check box of a column *)

(** Values that are equal to themselves: texts, and numbers that are one. *)
Definition plain_value (v : json) : bool := match v with JStr _ => true | JNum n => negb (isNaN n) | _ => false end.

Lemma same_value_refl v : plain_value v = true -> same_value (Some v) (Some v) = true.
Proof.
  destruct v as [| | n|s| |]; try done; cbn; [| by intros _; apply str_eqb_eq]. intros H. unfold n_eqb, SpecFloat.SFeqb, SpecFloat.SFcompare.
  destruct n as [[]|[]| |[] m e]; try done; by rewrite Z.compare_refl, Pos.compare_refl.
Qed.

(** What checking another field of the same row and upstream leaves of a checked one. *)
Lemma checked_keeps ds name rt v rt2 v2 old :
  upstream_value ds rt name = Some v -> isSelectableUpstreamValue (Some v) = true -> upstream_value ds rt2 name = Some v2 ->
  conflicting (getBillingCategory rt2) rt = false ->
  map_get rt old = Some v -> map_get rt (checked_fields ds rt2 v2 name old) = Some v.
Proof.
  intros Hv Hs Hv2 Hc Ho. unfold checked_fields.
  assert (map_get rt (map_set rt2 v2 (clear_conflicting (getBillingCategory rt2) old)) = Some v) as Hset.
  { rewrite map_get_set. case_decide; [subst; congruence | by rewrite cleared_get, Hc]. }
  destruct (bool_decide (getBillingCategory rt2 = CatTiered)); [| done]. rewrite pair_tiered_get.
  destruct (bool_decide_reflect (rt = billing_expr)) as [->|He]; cbn [andb]; [by rewrite Hv, Hs |].
  destruct (bool_decide_reflect (rt = billing_mode)) as [->|Hm]; cbn [andb]; [by rewrite Hv, Hs | done].
Qed.

Lemma ordered_keys ds filter rt : rt ∈ getOrderedRatioTypes ds filter -> rt ∈ ds.*1.
Proof.
  unfold getOrderedRatioTypes.
  assert (rt ∈ List.filter (fun f => rt_in f (map fst ds)) SYNC_FIELD_ORDER ++ List.filter (fun f => negb (rt_in f SYNC_FIELD_ORDER)) (map fst ds) ->
          rt ∈ ds.*1) as H.
  { rewrite elem_of_app, !list_elem_of_In, !filter_In. intros [[_ H]|[H _]]; [| done].
    apply list_elem_of_In. unfold rt_in in H. by apply bool_decide_eq_true in H. }
  destruct (negb (truthy filter) || _); [done |]. intros Hf. apply H. apply list_elem_of_In in Hf. apply filter_In in Hf.
  by apply list_elem_of_In, Hf.
Qed.

(** In a row without both prices no two fields conflict. *)
Lemma row_no_conflict d row rt rt2 filter :
  row ∈ dataSource d -> sr_billingConflict row = false ->
  rt ∈ getOrderedRatioTypes (sr_ratioTypes row) filter -> rt2 ∈ getOrderedRatioTypes (sr_ratioTypes row) filter ->
  conflicting (getBillingCategory rt2) rt = false.
Proof.
  intros ([model ds] & -> & _)%list_elem_of_fmap. cbn [sr_ratioTypes sr_billingConflict]. intros Hc H1%ordered_keys H2%ordered_keys.
  assert (forall r, r ∈ ds.*1 -> map_has r ds = true) as Hk.
  { intros r Hr. apply map_has_get. intros Hn%map_get_None. done. }
  assert (forall r, r ∈ ds.*1 -> r ∈ RATIO_SYNC_FIELDS -> existsb (fun rt => map_has rt ds) RATIO_SYNC_FIELDS = true) as Hr.
  { intros r Hr Hin. apply existsb_exists. exists r. split; [by apply list_elem_of_In | by apply Hk]. }
  apply andb_false_iff in Hc.
  destruct (conflicting (getBillingCategory rt2) rt) eqn:E; [| done]. exfalso. unfold conflicting in E.
  destruct (getBillingCategory rt) eqn:E1, (getBillingCategory rt2) eqn:E2; try (vm_compute in E; discriminate E).
  - assert (rt = model_price) as -> by (by destruct rt). rewrite Hk in Hc by done.
    rewrite (Hr rt2) in Hc by (done || by apply ratio_fields_category). by destruct Hc.
  - assert (rt2 = model_price) as -> by (by destruct rt2). rewrite Hk in Hc by done.
    rewrite (Hr rt) in Hc by (done || by apply ratio_fields_category). by destruct Hc.
Qed.

Section CheckAll.
Context (d : DifferencesMap) (filter upstream : str).
Hypothesis Hd : differences_ok d.

Definition holds_all (res : ResolutionsMap) (row : SyncRow) (l : list (RatioType * json)) : Prop :=
  forall rt v, (rt, v) ∈ l -> map_get (sr_model row) res ≫= map_get rt = Some v.

Lemma check_field row e res :
  row ∈ dataSource d -> e ∈ choosable upstream filter row ->
  handleSelectValue d (sr_model row) (fst e) (snd e) upstream res =
  obj_set (sr_model row) (checked_fields (sr_ratioTypes row) (fst e) (snd e) upstream (default [] (map_get (sr_model row) res))) res.
Proof.
  intros Hrow He. destruct e as [rt v]. apply choosable_spec in He as (_ & Hv & Hs & Hp).
  pose proof (row_differences d row Hd Hrow) as Hg. apply select_fields; [done | done |]. destruct Hd as [_ Hd']. by eapply Hd'.
Qed.

(** Checking the fields of one row keeps the other rows and checks all of them. *)
Lemma check_row row todo : forall done res,
  row ∈ dataSource d -> sr_billingConflict row = false -> done ++ todo ⊆ choosable upstream filter row -> choices_ok d res ->
  holds_all res row done ->
  let res' := foldl (fun res e => handleSelectValue d (sr_model row) (fst e) (snd e) upstream res) res todo in
  choices_ok d res' /\ holds_all res' row (done ++ todo) /\ forall n, n <> sr_model row -> map_get n res' = map_get n res.
Proof.
  induction todo as [|e todo IH]; intros done res Hrow Hc Hsub Hok Hdone; cbn [foldl]; [by rewrite app_nil_r |].
  assert (e ∈ choosable upstream filter row) as He by (apply Hsub, elem_of_app; right; by left).
  pose proof (check_ok d row upstream filter e res Hd Hrow He Hok) as Hok'. pose proof (check_field row e res Hrow He) as Hf.
  destruct (IH (done ++ [e]) _ Hrow Hc ltac:(by rewrite <- app_assoc) Hok') as (H1 & H2 & H3).
  - intros rt v Hin. rewrite Hf, obj_get_set by apply Hok. rewrite bool_decide_true by reflexivity. cbn [mbind option_bind].
    destruct e as [rt2 v2]. destruct (choosable_spec _ _ _ _ _ He) as (Ho2 & Hv2 & Hs2 & Hp2). cbn [fst snd] in *.
    apply elem_of_app in Hin as [Hin|Hin%list_elem_of_singleton].
    + assert ((rt, v) ∈ choosable upstream filter row) as Hch by (apply Hsub, elem_of_app; by left).
      apply choosable_spec in Hch as (Ho & Hv & Hs & _). apply checked_keeps; try assumption; [by eapply row_no_conflict |].
      specialize (Hdone rt v Hin). by destruct (map_get (sr_model row) res).
    + injection Hin as -> ->. by apply checked_value.
  - split; [done |]. split; [by rewrite <- app_assoc in H2 |]. intros n Hn. rewrite H3 by done. rewrite Hf, obj_get_set by apply Hok.
    by rewrite bool_decide_false by done.
Qed.

Lemma check_rows rows : forall res,
  rows ⊆ dataSource d -> NoDup (map sr_model rows) -> Forall (fun row => sr_billingConflict row = false) rows -> choices_ok d res ->
  let res' := handleBulkSelect d filter upstream rows res in
  (forall row, row ∈ rows -> holds_all res' row (choosable upstream filter row)) /\
  forall n, n ∉ map sr_model rows -> map_get n res' = map_get n res.
Proof.
  induction rows as [|row rows IH]; intros res Hsub Hnd Hc Hok; [split; [by intros row ?%not_elem_of_nil | done] |].
  cbn [map] in Hnd. apply NoDup_cons in Hnd as [Hn Hnd]. apply Forall_cons in Hc as [Hc1 Hc].
  assert (row ∈ dataSource d) as Hrow by (apply Hsub; by left).
  destruct (check_row row (choosable upstream filter row) [] res Hrow Hc1) as (H1 & H2 & H3); [done | done | by intros ? ? ?%not_elem_of_nil |].
  set (res1 := foldl _ res (choosable upstream filter row)) in *.
  destruct (IH res1) as [I1 I2]; [intros r Hr; apply Hsub; by right | done | done | done |]. split.
  - intros r [->|Hr]%elem_of_cons; [| by apply I1]. intros rt v Hin. change (handleBulkSelect d filter upstream (row :: rows) res)
      with (handleBulkSelect d filter upstream rows res1). rewrite I2 by done. by apply H2.
  - intros n Hni. change (handleBulkSelect d filter upstream (row :: rows) res) with (handleBulkSelect d filter upstream rows res1).
    cbn [map] in Hni. apply not_elem_of_cons in Hni as [Hni1 Hni2]. rewrite I2 by done. by apply H3.
Qed.
End CheckAll.

Lemma filter_all_in {A} (f : A -> bool) l : (forall x, x ∈ l -> f x = true) -> List.filter f l = l.
Proof.
  induction l as [|x l IH]; intros H; cbn; [done |]. rewrite H by (by left). f_equal. apply IH. intros y Hy. apply H. by right.
Qed.

(** Checking the box of an upstream's column checks all fields that it counts: the box
    is then checked, if there is a field at all, unless a shown model has a fixed price
    next to a ratio (which is marked as a conflict). *)
Theorem column_check_selects_all t lower s search filter upstream :
  sync_reachable t lower s ->
  let rows := shown_rows lower s search filter in
  Forall (fun row => sr_billingConflict row = false) rows ->
  Forall (fun row => Forall (fun e => plain_value (snd e) = true) (choosable upstream filter row)) rows ->
  let h := column_header upstream filter (handleBulkSelect (y_differences s) filter upstream rows (y_resolutions s)) rows in
  hd_selected h = hd_selectable h /\ hd_all h = (0 <? hd_selectable h)%nat.
Proof.
  intros [Hd Hok]%page_reachable rows Hc Hp. set (res := handleBulkSelect _ _ _ _ _).
  assert (NoDup (map sr_model rows)) as Hnd.
  { assert (map sr_model (dataSource (y_differences s)) = (y_differences s).*1) as E.
    { unfold dataSource. rewrite map_map. apply map_ext. by intros []. }
    unfold rows, shown_rows, filteredData. destruct (truthy (trim search)), (truthy filter && _);
      repeat apply bfilter_map_NoDup; rewrite E; apply Hd. }
  destruct (check_rows (y_differences s) filter upstream Hd rows (y_resolutions s)) as [H _]; [apply shown_rows_incl | done | done | done |].
  cbn zeta. unfold column_header. cbn [hd_selected hd_selectable hd_all]. rewrite filter_all_in.
  - split; [done |]. by rewrite Nat.eqb_refl, andb_true_r.
  - intros [n [rt v]] Hin. apply list_elem_of_In, in_concat in Hin as (cs & Hcs & Hin). apply in_map_iff in Hcs as (row & <- & Hrow).
    apply in_map_iff in Hin as ([rt' v'] & [= <- -> ->] & Hin). apply list_elem_of_In in Hrow, Hin. unfold isSelected. cbn [fst snd].
    assert (map_get (sr_model row) res ≫= map_get rt = Some v) as -> by exact (H row Hrow rt v Hin). apply same_value_refl. rewrite Forall_forall in Hp. specialize (Hp row Hrow).
    rewrite Forall_forall in Hp. by apply (Hp (rt, v)).
Qed.

Lemma column_check_selects_all_witness :
  let rows := shown_rows id demo_fetched [] [] in
  let h := column_header (js "hub") [] (handleBulkSelect (y_differences demo_fetched) [] (js "hub") rows (y_resolutions demo_fetched)) rows in
  (hd_selected h = hd_selectable h /\ hd_all h = (0 <? hd_selectable h)%nat) /\ hd_selectable h = 4%nat.
Proof.
  split; [| vm_compute; reflexivity].
  apply (column_check_selects_all id id demo_fetched [] [] (js "hub") demo_fetched_reachable).
  - apply (bool_decide_eq_true_1 (Forall (fun row => sr_billingConflict row = false) _)). vm_compute. reflexivity.
  - apply (bool_decide_eq_true_1 (Forall (fun row => Forall (fun e => plain_value (snd e) = true) (choosable (js "hub") [] row)) _)).
    vm_compute. reflexivity.
Defined.

(** ** Errors *)

(** The body of a response is not looked at: requests that the server refuses count as
    stored.  If it refuses all of them, nothing is stored and yet the page reports the
    sync as done, clears the choices and takes the chosen fields out of the differences. *)
Theorem refused_sync_reported_done t lower s updates server :
  sync_reachable t lower s -> y_syncing s = Some updates ->
  run_updates (replicate (length updates) Refused) updates server = (server, true) /\
  y_resolutions (sync_settled true s) = [] /\
  forall model rt, (map_get model (y_resolutions s) ≫= map_get rt) <> None ->
    (map_get model (y_differences (sync_settled true s)) ≫= map_get rt) = None.
Proof.
  intros [Hd Hok]%page_reachable _. split.
  - revert server. induction updates as [|[k v] updates IH]; intros server; [done |]. cbn. apply IH.
  - split; [done |]. intros model rt H. cbn. rewrite resolve_differences_get by (by eauto using choices_ok_wf).
    by destruct (_ ≫= _).
Qed.

Lemma refused_sync_reported_done_witness :
  exists s' updates, handleApplySync id demo_one = Some s' /\
    run_updates (replicate (length updates) Refused) updates demo_server = (demo_server, true) /\
    y_resolutions (sync_settled true s') = [] /\
    (forall model rt, (map_get model (y_resolutions s') ≫= map_get rt) <> None ->
      (map_get model (y_differences (sync_settled true s')) ≫= map_get rt) = None).
Proof.
  destruct (handleApplySync id demo_one) as [s'|] eqn:E; [| vm_compute in E; discriminate E].
  destruct (y_syncing s') as [updates|] eqn:Ey; [| exfalso; vm_compute in E; injection E as <-; vm_compute in Ey; discriminate Ey].
  exists s', updates. split; [reflexivity |].
  apply (refused_sync_reported_done id id s' updates demo_server); [| exact Ey].
  apply (reach_step _ _ demo_one EvApply); [apply demo_one_reachable | exact I |].
  apply step_apply; [vm_compute; reflexivity | vm_compute; reflexivity | exact E].
Defined.

(** Choosing [custom] as the type of an endpoint selects the default one, and the field for
    a text does not appear. *)
Lemma custom_endpoint_reverts id endpoints :
  endpoint_cell (handleTypeChange id (js "custom") endpoints) id = (DEFAULT_ENDPOINT, None).
Proof.
  unfold endpoint_cell, handleTypeChange, updateEndpoint. assert (str_eqb (js "custom") (js "custom") = true) as -> by (vm_compute; reflexivity).
  rewrite map_get_set_eq. vm_compute. reflexivity.
Qed.

Lemma snapshot_tiered m n :
  is_the_string (mode_text TieredExpr) (setting SMode m n) = true ->
  snapshot_of m n =
  match string_or_empty (setting SExpr m n) with
  | None => Throws
  | Some fullExpr =>
      outcome_bind (splitBillingExprAndRequestRules fullExpr) (fun s =>
      Found (mkSnapshot n (pmap Some (pmap (fun l => shown_value (map_get n l)) (m_pricing m))) (Some (mode_text TieredExpr))
        (Some (sp_billingExpr s)) (Some (sp_requestRuleExpr s)) false))
  end.
Proof. intros H. unfold snapshot_of. change (map_get n (m_billingMode m)) with (setting SMode m n). by rewrite H. Qed.

(** Ratios that are synced for a model in expression mode do not take it out of the mode:
    the editor shows the same expression as before. *)
Lemma ratio_sync_keeps_expression res m m' n fs sn :
  maps_wf m -> resolutions_wf res -> finalRatios res m = Some m' -> map_get n res = Some fs ->
  map_get billing_mode fs = None -> map_get billing_expr fs = None ->
  is_the_string (mode_text TieredExpr) (setting SMode m n) = true -> snapshot_of m n = Found sn ->
  exists sn', snapshot_of m' n = Found sn' /\ s_billingMode sn' = s_billingMode sn /\ s_billingExpr sn' = s_billingExpr sn /\
    s_requestRuleExpr sn' = s_requestRuleExpr sn.
Proof.
  intros Hm Hr Hf Hg H1 H2 Ht Hsn. destruct (final_ratios_spec res m Hm Hr) as (m1 & E & _ & Hs). assert (m1 = m') as -> by congruence.
  pose proof (Hs n billing_mode) as Em. pose proof (Hs n billing_expr) as Ee. rewrite Hg in Em, Ee. unfold resolved in Em, Ee.
  rewrite H1, bool_decide_false in Em by (by apply (bool_decide_eq_false_1 (billing_mode ∈ RATIO_SYNC_FIELDS))).
  rewrite H2, bool_decide_false in Ee by (by apply (bool_decide_eq_false_1 (billing_expr ∈ RATIO_SYNC_FIELDS))).
  cbn [setting_of] in Em, Ee. rewrite (bool_decide_false (billing_mode = model_price)) in Em by done.
  rewrite (bool_decide_false (billing_expr = model_price)) in Ee by done. cbn [andb orb] in Em, Ee.
  rewrite snapshot_tiered in Hsn by done. rewrite snapshot_tiered by (by rewrite Em). rewrite Ee.
  destruct (string_or_empty _); [| done]. destruct (splitBillingExprAndRequestRules _); try done. cbn [outcome_bind] in *.
  injection Hsn as <-. eexists. split; [reflexivity |]. done.
Qed.
