(* ===== verification/GroupRatio.v ===== *)
(** * Group ratios

    Model of [features/system-settings/models/group-ratio-visual-editor.tsx]: the table of
    groups over the three settings [GroupRatio], [UserUsableGroups] and [TopupGroupRatio],
    the list of auto groups, the overrides of one group's ratio for the users of another,
    and the detail sheet.  All of them read the texts of the form ([group-ratio-form.tsx])
    and write new texts back.

    The settings are JSON objects (of objects, for the overrides; a list of strings for
    the auto groups); a text that denotes something else is outside the model ([None]).  Row
    identifiers come from a counter of the module, which is part of the state. *)
From S2P Require Import Prelude Number Regex Json JsonPretty JsonObject PricingFormat PricingSnapshots.

Record GroupPricingRow := mkGroupRow {
  gr_id : N;
  gr_name : str;
  gr_ratio : str;
  gr_topupRatio : str;
  gr_selectable : bool;
  gr_description : str
}.

(** [Number(value)], with [NaN] for [undefined], or 1. *)
Definition normalizeRatio (value : option json) : num :=
  let parsed := match value with Some v => to_Number v | None => n_nan end in
  if isFinite parsed then parsed else n_of_Z 1.

Record GroupTexts := mkGroupTexts { gx_groupRatio : str; gx_userUsableGroups : str; gx_topupGroupRatio : str }.

Definition group_names (ratioMap usableMap topupMap : entries) : list str :=
  set_of (map fst ratioMap ++ map fst usableMap ++ map fst topupMap).

(** ** The table *)

Definition row_of_maps (ratioMap usableMap topupMap : entries) (id : N) (name : str) : GroupPricingRow :=
  mkGroupRow id name
    (num_to_str (normalizeRatio (map_get name ratioMap)))
    (match map_get name topupMap with Some v => to_String v | None => [] end)
    (map_has name usableMap)
    (match map_get name usableMap with None | Some JNull => [] | Some v => to_String v end).

(** [names.map(...)], each row with the next identifier. *)
Fixpoint number_rows (mk : N -> str -> GroupPricingRow) (counter : N) (names : list str) : list GroupPricingRow * N :=
  match names with
  | [] => ([], counter)
  | name :: names =>
      let '(rows, counter') := number_rows mk (counter + 1)%N names in
      (mk (counter + 1)%N name :: rows, counter')
  end.

Definition buildGroupPricingRows (x : GroupTexts) (counter : N) : option (list GroupPricingRow * N) :=
  ratioMap ← parse_map (gx_groupRatio x); usableMap ← parse_map (gx_userUsableGroups x); topupMap ← parse_map (gx_topupGroupRatio x);
  Some (number_rows (row_of_maps ratioMap usableMap topupMap) counter (group_names ratioMap usableMap topupMap)).

Record GroupMaps := mkGroupMaps { gm_groupRatio : entries; gm_userUsableGroups : entries; gm_topupGroupRatio : entries }.

(** The body of the loop of [serializeGroupPricingRows]. *)
Definition serialize_row (m : GroupMaps) (row : GroupPricingRow) : GroupMaps :=
  let name := trim (gr_name row) in
  if negb (truthy name) then m
  else
    let topup := trim (gr_topupRatio row) in
    mkGroupMaps
      (obj_set name (JNum (normalizeRatio (Some (JStr (gr_ratio row))))) (gm_groupRatio m))
      (if gr_selectable row then obj_set name (JStr (gr_description row)) (gm_userUsableGroups m) else gm_userUsableGroups m)
      (if truthy topup && isFinite (num_of_str topup) then obj_set name (JNum (num_of_str topup)) (gm_topupGroupRatio m)
       else gm_topupGroupRatio m).

Definition serialized_maps (rows : list GroupPricingRow) : GroupMaps := foldl serialize_row (mkGroupMaps [] [] []) rows.

Definition print_groups (m : GroupMaps) : GroupTexts :=
  mkGroupTexts (JSON_pretty (JObj (gm_groupRatio m))) (JSON_pretty (JObj (gm_userUsableGroups m))) (JSON_pretty (JObj (gm_topupGroupRatio m))).

Definition serializeGroupPricingRows (rows : list GroupPricingRow) : GroupTexts := print_groups (serialized_maps rows).

Definition sourceGroupPricingSignature (x : GroupTexts) : option str :=
  ratioMap ← parse_map (gx_groupRatio x); usableMap ← parse_map (gx_userUsableGroups x); topupMap ← parse_map (gx_topupGroupRatio x);
  Some (JSON_stringify (JObj [(js "groupRatio", JObj ratioMap); (js "userUsableGroups", JObj usableMap); (js "topupGroupRatio", JObj topupMap)])).

Definition groupPricingSignature (rows : list GroupPricingRow) : option str :=
  sourceGroupPricingSignature (serializeGroupPricingRows rows).

Record GroupTable := mkGroupTable { gt_rows : list GroupPricingRow; gt_counter : N }.

(** The effect on new texts: rows that say the same are kept. *)
Definition sync_rows (x : GroupTexts) (g : GroupTable) : option GroupTable :=
  incoming ← sourceGroupPricingSignature x;
  current ← groupPricingSignature (gt_rows g);
  if str_eqb current incoming then Some g
  else
    '(rows, counter) ← buildGroupPricingRows x (gt_counter g);
    Some (mkGroupTable rows counter).

(** [emitRows]: the rows and the texts handed to [onChange]. *)
Definition emitRows (rows : list GroupPricingRow) (counter : N) : GroupTable * GroupTexts :=
  (mkGroupTable rows counter, serializeGroupPricingRows rows).

Inductive RowEdit := SetName (v : str) | SetRatio (v : str) | SetTopup (v : str) | SetSelectable (b : bool) | SetDescription (v : str).

Definition edit_row (e : RowEdit) (r : GroupPricingRow) : GroupPricingRow :=
  match e with
  | SetName v => mkGroupRow (gr_id r) v (gr_ratio r) (gr_topupRatio r) (gr_selectable r) (gr_description r)
  | SetRatio v => mkGroupRow (gr_id r) (gr_name r) v (gr_topupRatio r) (gr_selectable r) (gr_description r)
  | SetTopup v => mkGroupRow (gr_id r) (gr_name r) (gr_ratio r) v (gr_selectable r) (gr_description r)
  | SetSelectable b => mkGroupRow (gr_id r) (gr_name r) (gr_ratio r) (gr_topupRatio r) b (gr_description r)
  | SetDescription v => mkGroupRow (gr_id r) (gr_name r) (gr_ratio r) (gr_topupRatio r) (gr_selectable r) v
  end.

Definition updateRow (id : N) (e : RowEdit) (g : GroupTable) : GroupTable * GroupTexts :=
  emitRows (map (fun row => if (gr_id row =? id)%N then edit_row e row else row) (gt_rows g)) (gt_counter g).

Definition group_name (index : N) : str := js "group_" ++ show_N index.

(** The loop of [addRow]; among one more candidates than rows one is free. *)
Fixpoint free_name (fuel : nat) (index : N) (existingNames : list str) : str :=
  match fuel with
  | O => group_name index
  | S fuel => if set_has (group_name index) existingNames then free_name fuel (index + 1)%N existingNames else group_name index
  end.

Definition addRow (g : GroupTable) : GroupTable * GroupTexts :=
  let name := free_name (length (gt_rows g)) 1 (set_of (map gr_name (gt_rows g))) in
  emitRows (gt_rows g ++ [mkGroupRow (gt_counter g + 1)%N name (js "1") [] true []]) (gt_counter g + 1)%N.

Definition removeRow (id : N) (g : GroupTable) : GroupTable * GroupTexts :=
  emitRows (List.filter (fun row => negb (gr_id row =? id)%N) (gt_rows g)) (gt_counter g).

Definition duplicateNames (rows : list GroupPricingRow) : list str :=
  let counts := foldl (fun counts row =>
    let name := trim (gr_name row) in
    if negb (truthy name) then counts else map_set name (default 0%N (map_get name counts) + 1)%N counts) [] rows in
  map fst (List.filter (fun e => (1 <? snd e)%N) counts).

(** ** Registry and auto groups *)

Record RegistryEntry := mkEntry { re_name : str; re_ratio : num }.

Definition registry (x : GroupTexts) : option (list RegistryEntry) :=
  ratioMap ← parse_map (gx_groupRatio x); usableMap ← parse_map (gx_userUsableGroups x); topupMap ← parse_map (gx_topupGroupRatio x);
  Some (map (fun name => mkEntry name (normalizeRatio (map_get name ratioMap))) (group_names ratioMap usableMap topupMap)).

Definition baseRatioByName (reg : list RegistryEntry) : list (str * num) :=
  foldl (fun m e => map_set (re_name e) (re_ratio e) m) [] reg.

(** A list of strings, the empty one for a blank or broken text. *)
Definition autoGroupsList (text : str) : option (list str) :=
  match safeJsonParse (Some text) (JArr []) with
  | JArr l => mapM (fun v => match v with JStr s => Some s | _ => None end) l
  | _ => None
  end.

Definition print_list (l : list str) : str := JSON_pretty (JArr (map JStr l)).

(** The new text, if [onChange] is called. *)
Definition handleAutoGroupAdd (l : list str) (name : str) : option str :=
  if bool_decide (name ∈ l) then None else Some (print_list (l ++ [name])).

Definition handleAutoGroupDelete (l : list str) (index : nat) : str :=
  print_list (take index l ++ drop (S index) l).

Definition swap_at (l : list str) (i j : nat) : list str :=
  match l !! i, l !! j with
  | Some a, Some b => <[j := a]> (<[i := b]> l)
  | _, _ => l
  end.

Definition handleAutoGroupMove (l : list str) (index : nat) (up : bool) : option str :=
  if up then match index with O => None | S newIndex => Some (print_list (swap_at l index newIndex)) end
  else if (length l <=? S index)%nat then None else Some (print_list (swap_at l index (S index))).

Definition autoGroupCandidates (reg : list RegistryEntry) (l : list str) : list str :=
  List.filter (fun name => negb (bool_decide (name ∈ l))) (map re_name reg).

(** Names a select offers: a value that is no longer known stays in front. *)
Definition select_options (options : list str) (value : option str) : list str :=
  match value with
  | Some v => if truthy v && negb (bool_decide (v ∈ options)) then v :: options else options
  | None => options
  end.

(** ** Overrides *)

Abbreviation overrides := (list (str * entries)).

Definition parseNestedRatioMap (text : str) : option overrides :=
  l ← parse_map text; mapM (fun '(k, v) => match v with JObj o => Some (k, o) | _ => None end) l.

Definition print_overrides (m : overrides) : str := JSON_pretty (JObj (map (fun '(k, o) => (k, JObj o)) m)).

Definition add_user_group (userGroup : str) (m : overrides) : overrides :=
  if map_has userGroup m then m else obj_set userGroup [] m.

Definition save_override (userGroup targetGroup : str) (ratio : num) (oldTargetGroup : option str) (m : overrides) : overrides :=
  let m := add_user_group userGroup m in
  let o := default [] (map_get userGroup m) in
  let o := match oldTargetGroup with
           | Some old => if truthy old && negb (str_eqb old targetGroup) then obj_delete old o else o
           | None => o
           end in
  obj_set userGroup (obj_set targetGroup (JNum ratio) o) m.

Definition delete_override (userGroup targetGroup : str) (m : overrides) : overrides :=
  match map_get userGroup m with
  | None => m
  | Some o =>
      let o := obj_delete targetGroup o in
      if (length o =? 0)%nat then obj_delete userGroup m else obj_set userGroup o m
  end.

Record GroupOverride := mkOverride { go_targetGroup : str; go_ratio : json }.

(** State of [GroupOverrideRules] and of its dialog for one override, with the text of the setting. *)
Record OverrideEditor := mkOverrideEditor {
  oe_text : str;
  oe_userGroupDialogOpen : bool;
  oe_userGroupInput : option str;
  oe_overrideDialogOpen : bool;
  oe_overrideUserGroup : option str;
  oe_overrideEditData : option GroupOverride;
  oe_targetGroup : option str;
  oe_ratio : str
}.

Definition groupGroupRatioList (text : str) : option (list (str * list GroupOverride)) :=
  m ← parseNestedRatioMap text; Some (map (fun '(k, o) => (k, map (fun '(t, r) => mkOverride t r) o)) m).

Definition with_text (e : OverrideEditor) (text : str) : OverrideEditor :=
  mkOverrideEditor text (oe_userGroupDialogOpen e) (oe_userGroupInput e) (oe_overrideDialogOpen e) (oe_overrideUserGroup e)
    (oe_overrideEditData e) (oe_targetGroup e) (oe_ratio e).

Definition handleUserGroupSave (e : OverrideEditor) : option OverrideEditor :=
  match oe_userGroupInput e with
  | Some userGroup =>
      if truthy userGroup then
        m ← parseNestedRatioMap (oe_text e);
        Some (mkOverrideEditor (print_overrides (add_user_group userGroup m)) false None (oe_overrideDialogOpen e) (oe_overrideUserGroup e)
                (oe_overrideEditData e) (oe_targetGroup e) (oe_ratio e))
      else Some e
  | None => Some e
  end.

Definition handleUserGroupDelete (userGroup : str) (e : OverrideEditor) : option OverrideEditor :=
  m ← parseNestedRatioMap (oe_text e); Some (with_text e (print_overrides (obj_delete userGroup m))).

(** Opening the dialog of an override, with its effect: the fields are those of the override. *)
Definition open_override (userGroup : str) (data : option GroupOverride) (e : OverrideEditor) : OverrideEditor :=
  mkOverrideEditor (oe_text e) (oe_userGroupDialogOpen e) (oe_userGroupInput e) true (Some userGroup) data
    (go_targetGroup <$> data) (match data with Some o => to_String (go_ratio o) | None => [] end).

Definition handleOverrideAdd (userGroup : str) (e : OverrideEditor) : OverrideEditor := open_override userGroup None e.
Definition handleOverrideEdit (userGroup : str) (o : GroupOverride) (e : OverrideEditor) : OverrideEditor := open_override userGroup (Some o) e.

(** Only the start of a number can be typed. *)
Definition set_ratio_text (val : str) (e : OverrideEditor) : OverrideEditor :=
  if negb (truthy val) || negb (isNaN (parseFloat val))
  then mkOverrideEditor (oe_text e) (oe_userGroupDialogOpen e) (oe_userGroupInput e) (oe_overrideDialogOpen e) (oe_overrideUserGroup e)
         (oe_overrideEditData e) (oe_targetGroup e) val
  else e.

(** The save button of the dialog with [handleOverrideSave]; closing it clears its fields. *)
Definition save_dialog (e : OverrideEditor) : option OverrideEditor :=
  match oe_targetGroup e with
  | Some target =>
      if negb (truthy target) || negb (truthy (trim (oe_ratio e))) || isNaN (parseFloat (oe_ratio e)) then Some e
      else match oe_overrideUserGroup e with
           | Some userGroup =>
               if truthy userGroup then
                 m ← parseNestedRatioMap (oe_text e);
                 Some (mkOverrideEditor
                         (print_overrides (save_override userGroup target (parseFloat (oe_ratio e)) (go_targetGroup <$> oe_overrideEditData e) m))
                         (oe_userGroupDialogOpen e) (oe_userGroupInput e) false (oe_overrideUserGroup e) (oe_overrideEditData e) None [])
               else Some (mkOverrideEditor (oe_text e) (oe_userGroupDialogOpen e) (oe_userGroupInput e) (oe_overrideDialogOpen e)
                            (oe_overrideUserGroup e) (oe_overrideEditData e) None [])
           | None => Some (mkOverrideEditor (oe_text e) (oe_userGroupDialogOpen e) (oe_userGroupInput e) (oe_overrideDialogOpen e)
                             (oe_overrideUserGroup e) (oe_overrideEditData e) None [])
           end
  | None => Some e
  end.

Definition handleOverrideDelete (userGroup targetGroup : str) (e : OverrideEditor) : option OverrideEditor :=
  m ← parseNestedRatioMap (oe_text e); Some (with_text e (print_overrides (delete_override userGroup targetGroup m))).

(** ** Details of a group *)

Definition parseSpecialGroupKey (rawKey : str) : bool * str :=
  if starts_with rawKey (js "-:") then (false, drop 2 rawKey)
  else if starts_with rawKey (js "+:") then (true, drop 2 rawKey)
  else (true, rawKey).

Record VisibilityRule := mkVisibility { vr_userGroup : str; vr_visible : bool; vr_description : str }.

Record GroupDetail := mkDetail {
  gd_ratio : option num;
  gd_topupRatio : option str;
  gd_selectable : bool;
  gd_description : str;
  gd_incomingOverrides : list (str * json);
  gd_outgoingOverrides : list (str * json);
  gd_visibilityRules : list VisibilityRule;
  gd_autoIndex : option nat
}.

(** [Object.entries] of an inner value, which an array has too; others are skipped. *)
Definition inner_entries (v : json) : list (str * json) :=
  match v with
  | JObj l => l
  | JArr l => imap (fun i x => (show_N (N.of_nat i), x)) l
  | _ => []
  end.

Definition visibility_rules (name : str) (specialMap : entries) : list VisibilityRule :=
  concat (map (fun '(userGroup, inner) =>
    omap (fun '(rawKey, desc) =>
      let '(visible, groupName) := parseSpecialGroupKey rawKey in
      if str_eqb groupName name then Some (mkVisibility userGroup visible (match desc with JStr s => s | _ => [] end)) else None)
      (inner_entries inner)) specialMap).

Definition group_detail (name : str) (reg : list RegistryEntry) (topupMap usableMap : entries) (overrideMap : overrides) (specialMap : entries)
  (autoGroups : list str) : GroupDetail :=
  mkDetail
    (re_ratio <$> List.find (fun e => str_eqb (re_name e) name) reg)
    (to_String <$> map_get name topupMap)
    (map_has name usableMap)
    (match map_get name usableMap with None | Some JNull => [] | Some v => to_String v end)
    (omap (fun '(userGroup, o) => (fun r => (userGroup, r)) <$> map_get name o) overrideMap)
    (default [] (map_get name overrideMap))
    (visibility_rules name specialMap)
    (fst <$> list_find (eq name) autoGroups).
