(* ===== verification/GroupRules.v ===== *)
(** * Special usable group rules

    Model of [features/system-settings/models/group-special-usable-editor.tsx]: rules that
    make a group visible to, or hide it from, the users of another group, over the setting
    [GroupSpecialUsableGroup].  The setting is an object of objects whose keys carry the kind
    of the rule as a prefix.  The editor reads the text when it is mounted and writes it
    at every change. *)
From S2P Require Import Prelude Number Regex Json JsonPretty JsonObject GroupRatio.

Record Rule := mkRule { ru_id : N; ru_userGroup : str; ru_visible : bool; ru_targetGroup : str; ru_description : str }.

Definition parseRawKey (rawKey : str) : bool * str :=
  if starts_with rawKey (js "-:") then (false, drop 2 rawKey)
  else if starts_with rawKey (js "+:") then (true, drop 2 rawKey)
  else (true, rawKey).

Definition toRawKey (visible : bool) (groupName : str) : str :=
  if visible then js "+:" ++ groupName else js "-:" ++ groupName.

(** [safeParseJson]: [None] for a text that denotes something else than an object. *)
Definition safeParseJson (s : str) : option entries :=
  if negb (truthy s) || negb (truthy (trim s)) then Some []
  else match JSON_parse s with
       | None => Some []
       | Some (JObj l) => Some l
       | Some _ => None
       end.

(** One rule of [flattenRules]. *)
Definition flat_rule (id : N) (userGroup rawKey : str) (desc : json) : Rule :=
  let '(visible, groupName) := parseRawKey rawKey in
  mkRule id userGroup visible groupName
    (if negb visible then js "remove" else match desc with JStr s => s | _ => [] end).

(** The pairs of keys in the order of the two loops. *)
Definition flat_keys (nested : entries) : list (str * (str * json)) :=
  concat (map (fun '(userGroup, inner) => map (fun e => (userGroup, e)) (inner_entries inner)) nested).

Fixpoint number_rules (counter : N) (l : list (str * (str * json))) : list Rule * N :=
  match l with
  | [] => ([], counter)
  | (userGroup, (rawKey, desc)) :: l =>
      let '(rules, counter') := number_rules (counter + 1)%N l in
      (flat_rule (counter + 1)%N userGroup rawKey desc :: rules, counter')
  end.

Definition flattenRules (nested : entries) (counter : N) : list Rule * N := number_rules counter (flat_keys nested).

(** The body of the loop of [serializeRules]. *)
Definition serialize_rule (result : overrides) (r : Rule) : overrides :=
  if negb (truthy (ru_userGroup r)) || negb (truthy (ru_targetGroup r)) then result
  else
    let result := if map_has (ru_userGroup r) result then result else obj_set (ru_userGroup r) [] result in
    obj_set (ru_userGroup r)
      (obj_set (toRawKey (ru_visible r) (ru_targetGroup r)) (JStr (ru_description r)) (default [] (map_get (ru_userGroup r) result))) result.

Definition serialized_rules (rules : list Rule) : overrides := foldl serialize_rule [] rules.

Definition serializeRules (rules : list Rule) : str :=
  let result := serialized_rules rules in
  if (length result =? 0)%nat then js "{}" else print_overrides result.

(** The state of the editor: its rules and counter, and the text of the form. *)
Record RulesEditor := mkRulesEditor { rs_rules : list Rule; rs_counter : N; rs_value : str }.

Definition mount_rules (value : str) (counter : N) : option RulesEditor :=
  nested ← safeParseJson value;
  let '(rules, counter) := flattenRules nested counter in
  Some (mkRulesEditor rules counter value).

Definition emitChange (newRules : list Rule) (counter : N) : RulesEditor := mkRulesEditor newRules counter (serializeRules newRules).

Inductive RuleEdit := SetVisible (b : bool) | SetTarget (v : str) | SetRuleDescription (v : str).

Definition edit_rule (e : RuleEdit) (r : Rule) : Rule :=
  match e with
  | SetVisible b =>
      mkRule (ru_id r) (ru_userGroup r) b (ru_targetGroup r)
        (if negb b then js "remove"
         else if negb (ru_visible r) then if str_eqb (ru_description r) (js "remove") then [] else ru_description r
         else ru_description r)
  | SetTarget v => mkRule (ru_id r) (ru_userGroup r) (ru_visible r) v (ru_description r)
  | SetRuleDescription v => mkRule (ru_id r) (ru_userGroup r) (ru_visible r) (ru_targetGroup r) v
  end.

Definition updateRule (id : N) (e : RuleEdit) (s : RulesEditor) : RulesEditor :=
  emitChange (map (fun r => if negb (ru_id r =? id)%N then r else edit_rule e r) (rs_rules s)) (rs_counter s).

Definition removeRule (id : N) (s : RulesEditor) : RulesEditor :=
  emitChange (List.filter (fun r => negb (ru_id r =? id)%N) (rs_rules s)) (rs_counter s).

Definition removeGroup (groupName : str) (s : RulesEditor) : RulesEditor :=
  emitChange (List.filter (fun r => negb (str_eqb (ru_userGroup r) groupName)) (rs_rules s)) (rs_counter s).

Definition addRuleToGroup (groupName : str) (s : RulesEditor) : RulesEditor :=
  emitChange (rs_rules s ++ [mkRule (rs_counter s + 1)%N groupName true [] []]) (rs_counter s + 1)%N.

(** The sections of the page, in the order of the first rule of each group. *)
Definition grouped (rules : list Rule) : list (str * list Rule) :=
  foldl (fun groups r =>
    if negb (truthy (ru_userGroup r)) then groups
    else map_set (ru_userGroup r) (default [] (map_get (ru_userGroup r) groups) ++ [r]) groups) [] rules.

Definition newGroupCandidates (rules : list Rule) (groupOptions : list str) : list str :=
  let used := set_of (map fst (grouped rules)) in
  List.filter (fun name => negb (set_has name used)) groupOptions.

(** What can happen: an edit of a shown control, or a new text of the form from outside,
    which the mounted editor does not read. *)
Inductive rules_step (s : RulesEditor) : RulesEditor -> Prop :=
  | rules_visible id b : rules_step s (updateRule id (SetVisible b) s)
  | rules_target id v : v <> [] -> rules_step s (updateRule id (SetTarget v) s)
  | rules_description r v : r ∈ rs_rules s -> ru_visible r = true -> rules_step s (updateRule (ru_id r) (SetRuleDescription v) s)
  | rules_remove id : rules_step s (removeRule id s)
  | rules_remove_group name : rules_step s (removeGroup name s)
  | rules_add name : name <> [] -> rules_step s (addRuleToGroup name s)
  | rules_outside value : rules_step s (mkRulesEditor (rs_rules s) (rs_counter s) value).
