(* ===== verification/GroupProps.v ===== *)
(** * Group ratios: theorems

    What the table of groups shows after its texts are read again, whatever the rows were;
    that the table is never out of date and its row identifiers stay unique; that an added
    group gets the first free name; what saving and deleting an override changes; and what
    the special usable rules look like after they are read again. *)
From S2P Require Import Prelude Number Regex Json JsonPretty JsonObject BillingExpr PricingFormat PricingSnapshots PricingProps GroupRatio GroupRules.

(** ** Reading the table's texts again *)

(** The rows of a name, as the loop of [serializeGroupPricingRows] tells them apart. *)
Definition named (n : str) (rows : list GroupPricingRow) : list GroupPricingRow :=
  List.filter (fun r => str_eqb (trim (gr_name r)) n) rows.

Definition row_ratio (r : GroupPricingRow) : num := normalizeRatio (Some (JStr (gr_ratio r))).

Definition row_topup (r : GroupPricingRow) : option num :=
  let topup := trim (gr_topupRatio r) in
  if truthy topup && isFinite (num_of_str topup) then Some (num_of_str topup) else None.

Definition row_usable (r : GroupPricingRow) : option str := if gr_selectable r then Some (gr_description r) else None.

(** Of several rows of a name the last one counts, field by field. *)
Definition last_ratio (n : str) rows : option num := last (map row_ratio (named n rows)).
Definition last_topup (n : str) rows : option num := last (omap row_topup (named n rows)).
Definition last_usable (n : str) rows : option str := last (omap row_usable (named n rows)).

Lemma last_snoc_opt {A} (l : list A) (o : option A) : last (l ++ option_list o) = match o with Some x => Some x | None => last l end.
Proof. destruct o; cbn; [apply last_snoc | by rewrite app_nil_r]. Qed.

Lemma omap_snoc {A B} (f : A -> option B) l x : omap f (l ++ [x]) = omap f l ++ option_list (f x).
Proof. rewrite omap_app. cbn. by destruct (f x). Qed.

Lemma named_snoc n rows r : named n (rows ++ [r]) = named n rows ++ (if str_eqb (trim (gr_name r)) n then [r] else []).
Proof. unfold named. rewrite List.filter_app. cbn. by destruct (str_eqb _ _). Qed.

Record groups_wf (m : GroupMaps) : Prop := {
  gw_ratio : obj_wf (gm_groupRatio m);
  gw_usable : obj_wf (gm_userUsableGroups m);
  gw_topup : obj_wf (gm_topupGroupRatio m)
}.

Lemma serialize_row_wf m r : groups_wf m -> groups_wf (serialize_row m r).
Proof.
  intros [H1 H2 H3]. unfold serialize_row. destruct (negb _); [done |]. constructor; cbn.
  - by apply obj_set_wf.
  - destruct (gr_selectable r); [by apply obj_set_wf | done].
  - destruct (truthy _ && _); [by apply obj_set_wf | done].
Qed.

Lemma serialized_snoc rows r : serialized_maps (rows ++ [r]) = serialize_row (serialized_maps rows) r.
Proof. unfold serialized_maps. by rewrite foldl_app. Qed.

Lemma obj_wf_nil {V} : obj_wf ([] : list (str * V)).
Proof. split; [constructor | done]. Qed.

Lemma serialized_wf rows : groups_wf (serialized_maps rows).
Proof.
  induction rows as [|r rows IH] using rev_ind; [constructor; apply obj_wf_nil |]. rewrite serialized_snoc. by apply serialize_row_wf.
Qed.

(** One map of the three, with the part of a row that it stores. *)
Lemma serialize_step_get {A} (get : GroupMaps -> entries) (part : GroupPricingRow -> option A) (store : A -> json) rows :
  (forall m, groups_wf m -> obj_wf (get m)) -> get (mkGroupMaps [] [] []) = [] ->
  (forall m r, get (serialize_row m r) =
     if truthy (trim (gr_name r)) then match part r with Some a => obj_set (trim (gr_name r)) (store a) (get m) | None => get m end else get m) ->
  forall n, map_get n (get (serialized_maps rows)) = if truthy n then store <$> last (omap part (named n rows)) else None.
Proof.
  intros Hwf H0 Hstep n. induction rows as [|r rows IH] using rev_ind.
  - unfold serialized_maps. cbn [foldl]. rewrite H0. by destruct (truthy n).
  - rewrite serialized_snoc, Hstep, named_snoc. destruct (str_eqb (trim (gr_name r)) n) eqn:E.
    + apply str_eqb_eq in E. rewrite E, omap_snoc, last_snoc_opt. destruct (truthy n) eqn:Et; [| done].
      destruct (part r) as [a|]; [| done]. rewrite obj_get_set by apply Hwf, serialized_wf. by rewrite bool_decide_true.
    + rewrite app_nil_r. destruct (truthy (trim (gr_name r))); [| done]. destruct (part r) as [a|]; [| done].
      rewrite obj_get_set by apply Hwf, serialized_wf. rewrite bool_decide_false; [done |].
      intros Hn. rewrite <- Hn in E. by rewrite (proj2 (str_eqb_eq n n) eq_refl) in E.
Qed.

Lemma omap_all_some {A B} (f : A -> B) l : omap (fun x => Some (f x)) l = map f l.
Proof. induction l as [|x l IH]; [done |]. cbn. by f_equal. Qed.

Lemma ratio_get rows n :
  map_get n (gm_groupRatio (serialized_maps rows)) = if truthy n then JNum <$> last_ratio n rows else None.
Proof.
  unfold last_ratio. rewrite <- omap_all_some. apply (serialize_step_get gm_groupRatio (fun r => Some (row_ratio r)) JNum); [by intros m [] | done |].
  intros m r. unfold serialize_row. by destruct (truthy (trim (gr_name r))).
Qed.

Lemma topup_get rows n :
  map_get n (gm_topupGroupRatio (serialized_maps rows)) = if truthy n then JNum <$> last_topup n rows else None.
Proof.
  apply (serialize_step_get gm_topupGroupRatio row_topup JNum); [by intros m [] | done |].
  intros m r. unfold serialize_row, row_topup. destruct (truthy (trim (gr_name r))); [| done]. cbn [negb gm_topupGroupRatio].
  by destruct (truthy (trim (gr_topupRatio r)) && _).
Qed.

Lemma usable_get rows n :
  map_get n (gm_userUsableGroups (serialized_maps rows)) = if truthy n then JStr <$> last_usable n rows else None.
Proof.
  apply (serialize_step_get gm_userUsableGroups row_usable JStr); [by intros m [] | done |].
  intros m r. unfold serialize_row, row_usable. destruct (truthy (trim (gr_name r))); [| done]. cbn [negb gm_userUsableGroups].
  by destruct (gr_selectable r).
Qed.

(** Numbers whose text denotes them. *)
Definition rows_storable (rows : list GroupPricingRow) : Prop :=
  Forall (fun r => num_ok (row_ratio r) = true /\ forall x, row_topup r = Some x -> num_ok x = true) rows.

Lemma last_omap_elem {A B} (f : A -> option B) l y : last (omap f l) = Some y -> exists x, x ∈ l /\ f x = Some y.
Proof. intros H. apply last_Some_elem_of in H. by apply list_elem_of_omap in H. Qed.

Lemma bfilter_elem {A} (f : A -> bool) l x : x ∈ List.filter f l -> x ∈ l.
Proof. rewrite !list_elem_of_In, filter_In. tauto. Qed.

Lemma named_elem n rows r : r ∈ named n rows -> r ∈ rows.
Proof. apply bfilter_elem. Qed.

Lemma serialized_ok rows :
  rows_storable rows ->
  json_ok (JObj (gm_groupRatio (serialized_maps rows))) /\ json_ok (JObj (gm_userUsableGroups (serialized_maps rows))) /\
  json_ok (JObj (gm_topupGroupRatio (serialized_maps rows))).
Proof.
  unfold rows_storable. rewrite Forall_forall. intros H. destruct (serialized_wf rows) as [H1 H2 H3].
  split; [| split]; (apply json_ok_get; [done |]); intros n v.
  - rewrite ratio_get. destruct (truthy n); [| done]. unfold last_ratio. rewrite <- omap_all_some.
    destruct (last _) as [x|] eqn:E; [| done]. intros [= <-]. apply last_omap_elem in E as (r & Hr%named_elem & [= <-]). by apply H.
  - rewrite usable_get. destruct (truthy n); [| done]. destruct (last_usable n rows); [| done]. by intros [= <-].
  - rewrite topup_get. destruct (truthy n); [| done]. unfold last_topup.
    destruct (last _) as [x|] eqn:E; [| done]. intros [= <-]. apply last_omap_elem in E as (r & Hr%named_elem & Hx). by apply (H r Hr).
Qed.

Lemma number_rows_spec mk names counter :
  (forall id n, gr_name (mk id n) = n /\ gr_id (mk id n) = id) ->
  let '(rows, counter') := number_rows mk counter names in
  map gr_name rows = names /\ (counter <= counter')%N /\ NoDup (map gr_id rows) /\
  Forall (fun r => counter < gr_id r <= counter' /\ r = mk (gr_id r) (gr_name r))%N rows.
Proof.
  intros Hmk. revert counter. induction names as [|n names IH]; intros counter; cbn; [repeat split; [lia | constructor | constructor] |].
  specialize (IH (counter + 1)%N). destruct (number_rows mk (counter + 1)%N names) as [rows counter'].
  destruct IH as (I1 & I2 & I3 & I4). destruct (Hmk (counter + 1)%N n) as [E1 E2]. cbn. rewrite E1, E2, I1. split; [done |]. split; [lia |]. split.
  - apply NoDup_cons. split; [| done]. intros (r & Hid & Hr)%list_elem_of_fmap. rewrite Forall_forall in I4. destruct (I4 r Hr). lia.
  - apply Forall_cons. rewrite E1, E2. split; [split; [lia | done] |]. eapply Forall_impl; [exact I4 |]. intros r [? ?]. split; [lia | done].
Qed.

Lemma row_of_maps_ids a b c id n : gr_name (row_of_maps a b c id n) = n /\ gr_id (row_of_maps a b c id n) = id.
Proof. done. Qed.

Lemma keys_get {V} n (l : list (str * V)) : n ∈ map fst l <-> map_get n l <> None.
Proof.
  split; [intros H Hn; by apply map_get_None in Hn |]. intros H. destruct (decide (n ∈ map fst l)); [done |].
  exfalso. by apply H, map_get_None.
Qed.

Lemma named_not_nil n rows : named n rows <> [] <-> exists r, r ∈ rows /\ trim (gr_name r) = n.
Proof.
  assert (forall r, r ∈ named n rows <-> r ∈ rows /\ trim (gr_name r) = n) as H.
  { intros r. unfold named. by rewrite !list_elem_of_In, filter_In, str_eqb_eq. }
  split.
  - intros Hn. destruct (named n rows) as [|r l] eqn:E; [done |]. exists r. apply H. left.
  - intros (r & Hr) E. apply H in Hr. rewrite E in Hr. by apply not_elem_of_nil in Hr.
Qed.

Lemma serialized_names n rows :
  n ∈ group_names (gm_groupRatio (serialized_maps rows)) (gm_userUsableGroups (serialized_maps rows)) (gm_topupGroupRatio (serialized_maps rows)) <->
  n <> [] /\ exists r, r ∈ rows /\ trim (gr_name r) = n.
Proof.
  unfold group_names. rewrite elem_of_set_of, !elem_of_app, !keys_get, ratio_get, usable_get, topup_get, <- named_not_nil, <- truthy_true.
  destruct (truthy n); [| naive_solver]. unfold last_ratio, last_usable, last_topup. split.
  - intros H. split; [done |]. intros Hnil. rewrite Hnil in H. cbn in H. naive_solver.
  - intros [_ H]. left. rewrite fmap_None, last_None. intros Hm%map_eq_nil. done.
Qed.

Lemma last_ratio_finite n rows : named n rows <> [] -> exists x, last_ratio n rows = Some x /\ isFinite x = true.
Proof.
  intros Hn. unfold last_ratio. rewrite <- omap_all_some. destruct (last _) as [x|] eqn:E.
  - exists x. split; [done |]. apply last_omap_elem in E as (q & _ & [= <-]). unfold row_ratio, normalizeRatio.
    destruct (isFinite (to_Number (JStr (gr_ratio q)))) eqn:Ef; [done | reflexivity].
  - rewrite omap_all_some in E. by apply last_None, map_eq_nil in E.
Qed.

(** Whatever the rows of the table are, the texts that it writes are read again as a
    table with one row for every name that is not blank, trimmed: with the ratio of the
    last row of the name (1 if it is no number), its last valid top-up ratio, and selectable
    with the last description if one of the rows is.  Rows that share a name are merged
    field by field. *)
Theorem reopened_groups_spec rows counter :
  rows_storable rows ->
  exists rows' counter',
    buildGroupPricingRows (serializeGroupPricingRows rows) counter = Some (rows', counter') /\
    NoDup (map gr_name rows') /\
    (forall n, n ∈ map gr_name rows' <-> n <> [] /\ exists r, r ∈ rows /\ trim (gr_name r) = n) /\
    forall r, r ∈ rows' ->
      Some (gr_ratio r) = num_to_str <$> last_ratio (gr_name r) rows /\
      gr_topupRatio r = default [] (num_to_str <$> last_topup (gr_name r) rows) /\
      gr_selectable r = bool_decide (last_usable (gr_name r) rows <> None) /\
      gr_description r = default [] (last_usable (gr_name r) rows).
Proof.
  intros Hok. destruct (serialized_ok rows Hok) as (J1 & J2 & J3). unfold buildGroupPricingRows, serializeGroupPricingRows, print_groups.
  cbn [gx_groupRatio gx_userUsableGroups gx_topupGroupRatio]. rewrite !parse_map_pretty by done. cbn [mbind option_bind].
  set (m := serialized_maps rows) in *. set (names := group_names _ _ _).
  pose proof (number_rows_spec (row_of_maps (gm_groupRatio m) (gm_userUsableGroups m) (gm_topupGroupRatio m)) names counter (row_of_maps_ids _ _ _)) as Hn.
  destruct (number_rows _ counter names) as [rows' counter'] eqn:E. destruct Hn as (N1 & _ & _ & N4). exists rows', counter'.
  assert (forall n, n ∈ names <-> n <> [] /\ exists r, r ∈ rows /\ trim (gr_name r) = n) as Hnames by (intros n; apply serialized_names).
  split; [done |]. rewrite N1. split; [apply NoDup_set_of |]. split; [done |].
  intros r Hr. rewrite Forall_forall in N4. destruct (N4 r Hr) as [_ Hrow].
  assert (gr_name r ∈ names) as Hin by (rewrite <- N1; by apply list_elem_of_fmap_2). apply Hnames in Hin as [Hne Hex].
  apply truthy_true in Hne. rewrite Hrow. set (n := gr_name r) in *. apply named_not_nil in Hex.
  unfold row_of_maps. cbn [gr_ratio gr_topupRatio gr_selectable gr_description gr_name]. unfold map_has, m.
  rewrite ratio_get, usable_get, topup_get, Hne. destruct (last_ratio_finite n rows Hex) as (x & Ex & Hx).
  rewrite Ex. cbn [fmap option_fmap option_map]. unfold normalizeRatio. cbn [to_Number]. rewrite Hx. split; [done |].
  split; [by destruct (last_topup n rows) |]. by destruct (last_usable n rows).
Qed.

Definition demo_groups : list GroupPricingRow :=
  [mkGroupRow 1 (js "default") (js "1") [] true (js "all users"); mkGroupRow 2 (js " vip ") (js "0.5") (js "0.9") false [];
   mkGroupRow 3 (js "vip") (js "abc") (js "x") true (js "paying"); mkGroupRow 4 (js "  ") (js "7") [] true []].

Lemma demo_groups_storable : rows_storable demo_groups.
Proof.
  repeat apply Forall_cons_2; try apply Forall_nil_2; (split; [vm_compute; reflexivity |]); intros x H; vm_compute in H;
    first [discriminate H | injection H as <-; vm_compute; reflexivity].
Qed.

(** The two rows of [vip] become one, with parts of both. *)
Example demo_groups_merged :
  option_map fst (buildGroupPricingRows (serializeGroupPricingRows demo_groups) 10) =
  Some [mkGroupRow 11 (js "default") (js "1") [] true (js "all users"); mkGroupRow 12 (js "vip") (js "1") (js "0.9") true (js "paying")].
Proof. vm_compute. reflexivity. Qed.

Lemma reopened_groups_spec_witness :
  exists rows' counter',
    buildGroupPricingRows (serializeGroupPricingRows demo_groups) 10 = Some (rows', counter') /\
    NoDup (map gr_name rows') /\
    (forall n, n ∈ map gr_name rows' <-> n <> [] /\ exists r, r ∈ demo_groups /\ trim (gr_name r) = n) /\
    forall r, r ∈ rows' ->
      Some (gr_ratio r) = num_to_str <$> last_ratio (gr_name r) demo_groups /\
      gr_topupRatio r = default [] (num_to_str <$> last_topup (gr_name r) demo_groups) /\
      gr_selectable r = bool_decide (last_usable (gr_name r) demo_groups <> None) /\
      gr_description r = default [] (last_usable (gr_name r) demo_groups).
Proof. apply reopened_groups_spec, demo_groups_storable. Defined.

(** ** The table over time *)

Inductive TableEdit := EditRow (id : N) (e : RowEdit) | AddRow | RemoveRow (id : N).

Definition apply_edit (e : TableEdit) (g : GroupTable) : GroupTable * GroupTexts :=
  match e with EditRow id e => updateRow id e g | AddRow => addRow g | RemoveRow id => removeRow id g end.

(** Mounting, edits and new texts from outside, each with the effect that follows. *)
Inductive table_reachable : GroupTable -> GroupTexts -> Prop :=
  | table_mount x counter rows counter' g :
      buildGroupPricingRows x counter = Some (rows, counter') -> sync_rows x (mkGroupTable rows counter') = Some g ->
      table_reachable g x
  | table_edit g x e g' :
      table_reachable g x -> sync_rows (snd (apply_edit e g)) (fst (apply_edit e g)) = Some g' ->
      table_reachable g' (snd (apply_edit e g))
  | table_outside g x x' g' :
      table_reachable g x -> sync_rows x' g = Some g' -> table_reachable g' x'.

Definition ids_ok (g : GroupTable) : Prop := NoDup (map gr_id (gt_rows g)) /\ Forall (fun r => gr_id r <= gt_counter g)%N (gt_rows g).

Definition up_to_date (g : GroupTable) (x : GroupTexts) : Prop :=
  groupPricingSignature (gt_rows g) = sourceGroupPricingSignature x \/
  exists counter, option_map fst (buildGroupPricingRows x counter) = Some (gt_rows g).

Lemma build_ids x counter rows counter' : buildGroupPricingRows x counter = Some (rows, counter') -> ids_ok (mkGroupTable rows counter').
Proof.
  unfold buildGroupPricingRows. destruct (parse_map (gx_groupRatio x)) as [a|]; [| done]. cbn [mbind option_bind].
  destruct (parse_map (gx_userUsableGroups x)) as [b|]; [| done]. cbn [mbind option_bind].
  destruct (parse_map (gx_topupGroupRatio x)) as [c|]; [| done]. cbn [mbind option_bind]. intros [= H].
  pose proof (number_rows_spec (row_of_maps a b c) (group_names a b c) counter (row_of_maps_ids a b c)) as Hn. rewrite H in Hn.
  destruct Hn as (_ & _ & N3 & N4). split; [done |]. eapply Forall_impl; [exact N4 |]. cbn. intros r [? _]. lia.
Qed.

Lemma sync_rows_spec x g g' : sync_rows x g = Some g' -> ids_ok g -> ids_ok g' /\ up_to_date g' x.
Proof.
  unfold sync_rows. destruct (sourceGroupPricingSignature x) as [incoming|] eqn:Ei; [| done]. cbn [mbind option_bind].
  destruct (groupPricingSignature (gt_rows g)) as [current|] eqn:Ec; [| done]. cbn [mbind option_bind].
  destruct (str_eqb current incoming) eqn:E.
  - intros [= <-] H. split; [done |]. left. apply str_eqb_eq in E. congruence.
  - destruct (buildGroupPricingRows x (gt_counter g)) as [[rows counter]|] eqn:Eb; [| done]. cbn [mbind option_bind]. intros [= <-] _.
    split; [by eapply build_ids |]. right. exists (gt_counter g). by rewrite Eb.
Qed.

(** The effect after an edit finds the texts that the rows have just written. *)
Lemma edit_survives e g g' : sync_rows (snd (apply_edit e g)) (fst (apply_edit e g)) = Some g' -> g' = fst (apply_edit e g).
Proof.
  assert (forall rows counter, sync_rows (serializeGroupPricingRows rows) (mkGroupTable rows counter) = Some g' -> g' = mkGroupTable rows counter) as H.
  { intros rows counter. unfold sync_rows, groupPricingSignature. cbn [gt_rows]. destruct (sourceGroupPricingSignature _); [| done]. cbn [mbind option_bind].
    rewrite (proj2 (str_eqb_eq _ _) eq_refl). by intros [= <-]. }
  destruct e; apply H.
Qed.

Lemma map_ids f rows : (forall r, gr_id (f r) = gr_id r) -> map gr_id (map f rows) = map gr_id rows.
Proof. intros H. rewrite map_map. by apply map_ext. Qed.

Lemma edit_ids e g : ids_ok g -> ids_ok (fst (apply_edit e g)).
Proof.
  intros [H1 H2]. destruct e as [id e| |id]; cbn.
  - assert (forall r, gr_id (if (gr_id r =? id)%N then edit_row e r else r) = gr_id r) as He by (intros r; destruct (gr_id r =? id)%N; [by destruct e | done]).
    split; cbn; [by rewrite map_ids |]. apply Forall_forall. intros r (r0 & -> & Hr)%list_elem_of_fmap. rewrite He. rewrite Forall_forall in H2. by apply H2.
  - rewrite Forall_forall in H2. split; cbn.
    + rewrite map_app. apply NoDup_app. split; [done |]. split; [| apply NoDup_singleton].
      intros i (r & -> & Hr)%list_elem_of_fmap Hi. apply list_elem_of_singleton in Hi. specialize (H2 r Hr). cbn in Hi. lia.
    + apply Forall_app. split; [| by apply Forall_singleton]. apply Forall_forall. intros r Hr. specialize (H2 r Hr). lia.
  - split; cbn; [by apply bfilter_map_NoDup |]. apply Forall_forall. intros r Hr%bfilter_elem. rewrite Forall_forall in H2. by apply H2.
Qed.

Lemma table_ids g x : table_reachable g x -> ids_ok g /\ up_to_date g x.
Proof.
  induction 1 as [x counter rows counter' g Hb Hs|g x e g' _ [IH _] Hs|g x x' g' _ [IH _] Hs].
  - apply (sync_rows_spec _ _ _ Hs). by eapply build_ids.
  - apply (sync_rows_spec _ _ _ Hs). by apply edit_ids.
  - by apply (sync_rows_spec _ _ _ Hs).
Qed.

(** However edits of the table and new texts of the form (a reset, the other editor)
    interleave, the rows have distinct identifiers and are up to date: they write what the
    texts say, or are the rows of these texts.  What an edit changes is not taken back by
    the effect that follows it, whatever the typed texts are. *)
Theorem group_table_current g x :
  table_reachable g x ->
  NoDup (map gr_id (gt_rows g)) /\ up_to_date g x /\
  forall e g', sync_rows (snd (apply_edit e g)) (fst (apply_edit e g)) = Some g' -> g' = fst (apply_edit e g).
Proof. intros [[H _] Hu]%table_ids. split; [done |]. split; [done |]. intros e g'. apply edit_survives. Qed.

Definition demo_group_texts : GroupTexts := mkGroupTexts (jsq "{'default':1,'vip':0.5}") (jsq "{'default':'all','beta':'test'}") (jsq "{'vip':0.9}").
Definition demo_table : GroupTable :=
  mkGroupTable [mkGroupRow 4 (js "default") (js "1") [] true (js "all"); mkGroupRow 5 (js "vip") (js "0.5") (js "0.9") false [];
                mkGroupRow 6 (js "beta") (js "1") [] true (js "test")] 6.

Lemma group_table_current_witness :
  NoDup (map gr_id (gt_rows demo_table)) /\ up_to_date demo_table demo_group_texts /\
  forall e g', sync_rows (snd (apply_edit e demo_table)) (fst (apply_edit e demo_table)) = Some g' -> g' = fst (apply_edit e demo_table).
Proof.
  apply group_table_current.
  apply (table_mount demo_group_texts 0 (map (fun r => mkGroupRow (gr_id r - 3) (gr_name r) (gr_ratio r) (gr_topupRatio r) (gr_selectable r) (gr_description r)) (gt_rows demo_table)) 3).
  - vm_compute. reflexivity.
  - vm_compute. reflexivity.
Defined.

(** ** Adding a group *)

Lemma group_name_inj i j : group_name i = group_name j -> i = j.
Proof. intros H%app_inv_head. by apply show_N_inj. Qed.

Definition candidates (i : N) (n : nat) : list str := map (fun k => group_name (i + N.of_nat k)%N) (seq 0 n).

Lemma free_name_spec fuel i names :
  (exists k, (k <= fuel)%nat /\ group_name (i + N.of_nat k)%N ∉ names) ->
  exists k, free_name fuel i names = group_name (i + N.of_nat k)%N /\ group_name (i + N.of_nat k)%N ∉ names /\
    forall j, (j < k)%nat -> group_name (i + N.of_nat j)%N ∈ names.
Proof.
  revert i. induction fuel as [|fuel IH]; intros i (k & Hk & Hn); cbn.
  - assert (k = 0%nat) as -> by lia. exists 0%nat. rewrite N.add_0_r in *. split; [done |]. split; [done |]. lia.
  - destruct (set_has (group_name i) names) eqn:E.
    + apply set_has_spec in E. destruct k as [|k]; [by rewrite N.add_0_r in Hn |].
      destruct (IH (i + 1)%N) as (k' & E' & Hn' & Hlt).
      { exists k. split; [lia |]. by replace (i + 1 + N.of_nat k)%N with (i + N.of_nat (S k))%N by lia. }
      exists (S k'). replace (i + N.of_nat (S k'))%N with (i + 1 + N.of_nat k')%N by lia. split; [done |]. split; [done |].
      intros [|j] Hj; [by rewrite N.add_0_r |]. replace (i + N.of_nat (S j))%N with (i + 1 + N.of_nat j)%N by lia. apply Hlt. lia.
    + exists 0%nat. rewrite N.add_0_r. split; [done |]. split; [| lia]. intros H%set_has_spec. congruence.
Qed.

(** One of [length names + 1] candidates is not among the names. *)
Lemma candidate_free i names : exists k, (k <= length names)%nat /\ group_name (i + N.of_nat k)%N ∉ names.
Proof.
  destruct (decide (Exists (fun k => group_name (i + N.of_nat k)%N ∉ names) (seq 0 (S (length names))))) as [H|H].
  - apply Exists_exists in H as (k & Hk & Hn). apply elem_of_seq in Hk. exists k. split; [lia | done].
  - exfalso. assert (candidates i (S (length names)) ⊆ names) as Hsub.
    { intros x (k & -> & Hk)%list_elem_of_fmap. destruct (decide (group_name (i + N.of_nat k)%N ∈ names)) as [|Hn]; [done |].
      exfalso. apply H, Exists_exists. eauto. }
    assert (NoDup (candidates i (S (length names)))) as Hnd.
    { apply NoDup_fmap_2; [| apply NoDup_seq]. intros a b Hab%group_name_inj. lia. }
    apply NoDup_submseteq in Hsub; [| done].
    apply submseteq_length in Hsub. unfold candidates in Hsub. rewrite length_map, length_seq in Hsub. lia.
Qed.

(** The loop that looks for a name ends: a new group is called [group_k] for the least
    [k] from 1 that no row is called, and comes last, with ratio 1, selectable. *)
Theorem added_group_is_new g :
  exists k, gt_rows (fst (addRow g)) = gt_rows g ++ [mkGroupRow (gt_counter g + 1) (group_name k) (js "1") [] true []] /\
    group_name k ∉ map gr_name (gt_rows g) /\ (1 <= k)%N /\
    forall j, (1 <= j < k)%N -> group_name j ∈ map gr_name (gt_rows g).
Proof.
  set (names := set_of (map gr_name (gt_rows g))).
  destruct (free_name_spec (length (gt_rows g)) 1 names) as (k & E & Hn & Hlt).
  { destruct (candidate_free 1 (map gr_name (gt_rows g))) as (k & Hk & Hn). rewrite length_map in Hk. exists k. split; [done |].
    unfold names. by rewrite elem_of_set_of. }
  exists (1 + N.of_nat k)%N. unfold names in Hn. rewrite elem_of_set_of in Hn. cbn. unfold names in E. rewrite E. split; [done |]. split; [done |].
  split; [lia |]. intros j Hj. specialize (Hlt (N.to_nat (j - 1))). unfold names in Hlt. rewrite elem_of_set_of in Hlt.
  replace (1 + N.of_nat (N.to_nat (j - 1)))%N with j in Hlt by lia. apply Hlt. lia.
Qed.

(** ** Overrides *)

Definition nested_get (u t : str) (m : overrides) : option json := map_get u m ≫= map_get t.

Definition nested_wf (m : overrides) : Prop := obj_wf m /\ forall u o, map_get u m = Some o -> obj_wf o.

Lemma nested_set_wf u o m : nested_wf m -> obj_wf o -> nested_wf (obj_set u o m).
Proof.
  intros [H1 H2] Ho. split; [by apply obj_set_wf |]. intros u' o'. rewrite obj_get_set by done. case_bool_decide; [by intros [= <-] | apply H2].
Qed.

Lemma nested_get_set u o m u' t : nested_wf m -> nested_get u' t (obj_set u o m) = if bool_decide (u' = u) then map_get t o else nested_get u' t m.
Proof. intros [H _]. unfold nested_get. rewrite obj_get_set by done. by case_bool_decide. Qed.

Lemma add_user_group_wf u m : nested_wf m -> nested_wf (add_user_group u m).
Proof. intros H. unfold add_user_group. destruct (map_has u m); [done |]. apply nested_set_wf; [done | apply obj_wf_nil]. Qed.

Lemma add_user_group_get u m u' t : nested_wf m -> nested_get u' t (add_user_group u m) = nested_get u' t m.
Proof.
  intros H. unfold add_user_group, map_has. destruct (map_get u m) eqn:E; [done |]. rewrite nested_get_set by done.
  case_bool_decide; [| done]. subst. unfold nested_get. by rewrite E.
Qed.

Lemma nested_inner_wf u m : nested_wf m -> obj_wf (default [] (map_get u m)).
Proof. intros [_ H]. destruct (map_get u m) eqn:E; [by eapply H | apply obj_wf_nil]. Qed.

(** The override that a renamed one replaces. *)
Definition renamed (old : option str) (target : str) : option str :=
  match old with Some o => if truthy o && negb (str_eqb o target) then Some o else None | None => None end.

Lemma save_override_get u target ratio old m u' t :
  nested_wf m ->
  nested_get u' t (save_override u target ratio old m) =
  if bool_decide (u' = u /\ t = target) then Some (JNum ratio)
  else if bool_decide (u' = u /\ renamed old target = Some t) then None else nested_get u' t m.
Proof.
  intros H. unfold save_override. set (m1 := add_user_group u m).
  assert (nested_wf m1) as H1 by (by apply add_user_group_wf). set (o := default [] (map_get u m1)).
  assert (obj_wf o) as Ho by (by apply nested_inner_wf).
  assert (forall t', map_get t' o = nested_get u t' m) as Hget.
  { intros t'. rewrite <- (add_user_group_get u) by done. unfold nested_get, o. fold m1. by destruct (map_get u m1). }
  set (o2 := match old with Some _ => _ | None => _ end).
  assert (obj_wf o2 /\ forall t', map_get t' o2 = if bool_decide (renamed old target = Some t') then None else nested_get u t' m) as [H2 G2].
  { unfold o2, renamed. destruct old as [a|]; [| split; [done | intros t'; by rewrite bool_decide_false]].
    destruct (truthy a && _); [| split; [done | intros t'; by rewrite bool_decide_false]]. split; [by apply obj_delete_wf |].
    intros t'. rewrite obj_get_delete, Hget. destruct (decide (t' = a)) as [->|Hne]; [by rewrite !bool_decide_true | by rewrite !bool_decide_false by congruence]. }
  rewrite nested_get_set by done. destruct (decide (u' = u)) as [->|Hu].
  - rewrite (bool_decide_true (u = u)) by done. rewrite obj_get_set by done. destruct (decide (t = target)) as [->|Ht].
    + by rewrite !bool_decide_true.
    + rewrite (bool_decide_false (t = target)), (bool_decide_false (u = u /\ t = target)) by tauto. rewrite G2.
      by rewrite (bool_decide_ext (u = u /\ renamed old target = Some t) (renamed old target = Some t)) by tauto.
  - rewrite !bool_decide_false by tauto. by apply add_user_group_get.
Qed.

Lemma delete_override_get u target m u' t :
  nested_wf m ->
  nested_get u' t (delete_override u target m) = if bool_decide (u' = u /\ t = target) then None else nested_get u' t m.
Proof.
  intros H. unfold delete_override. destruct (map_get u m) as [o|] eqn:E.
  - assert (forall t', map_get t' (obj_delete target o) = if bool_decide (t' = target) then None else nested_get u t' m) as G.
    { intros t'. rewrite obj_get_delete. unfold nested_get. by rewrite E. }
    destruct (length (obj_delete target o) =? 0)%nat eqn:El.
    + unfold nested_get at 1. rewrite obj_get_delete. destruct (decide (u' = u)) as [->|Hu]; [| by rewrite !bool_decide_false by tauto].
      rewrite (bool_decide_true (u = u)) by done. cbn. apply Nat.eqb_eq, length_zero_iff_nil in El. specialize (G t). rewrite El in G. cbn in G.
      destruct (decide (t = target)) as [->|Ht]; [by rewrite bool_decide_true |].
      rewrite bool_decide_false in G by done. by rewrite bool_decide_false by tauto.
    + rewrite nested_get_set by done. destruct (decide (u' = u)) as [->|Hu]; [| by rewrite !bool_decide_false by tauto].
      rewrite (bool_decide_true (u = u)) by done. rewrite G.
      by rewrite (bool_decide_ext (u = u /\ t = target) (t = target)) by tauto.
  - destruct (decide (u' = u)) as [->|Hu]; [| by rewrite bool_decide_false by tauto]. unfold nested_get. rewrite E. cbn. by destruct (bool_decide _).
Qed.

(** *** The texts *)

Definition overrides_ok (m : overrides) : Prop := json_ok (JObj (map (fun '(k, o) => (k, JObj o)) m)).

Lemma overrides_roundtrip m : overrides_ok m -> parseNestedRatioMap (print_overrides m) = Some m.
Proof.
  intros H. unfold parseNestedRatioMap, print_overrides. rewrite parse_map_pretty by done. cbn [mbind option_bind].
  clear H. induction m as [|[k o] m IH]; [done |]. cbn. cbn in IH. by rewrite IH.
Qed.

Lemma overrides_ok_spec m : overrides_ok m <-> nested_wf m /\ forall u t v, nested_get u t m = Some v -> json_ok v.
Proof.
  unfold overrides_ok. split.
  - intros H. pose proof (proj2 (proj1 (json_ok_wf _) H)) as Hwf. apply obj_wf_unmap in Hwf; [| by intros ? ? [=]].
    assert (forall u o, map_get u m = Some o -> json_ok (JObj o)) as Ho.
    { intros u o Hu. apply (json_ok_member u (JObj o) _ H). by rewrite (get_map_values JObj), Hu. }
    split; [split; [done |] |].
    + intros u o Hu. by apply json_ok_wf, (Ho u).
    + intros u t v Hv. unfold nested_get in Hv. destruct (map_get u m) as [o|] eqn:E; [| done]. by apply (json_ok_member t v o (Ho u o E)).
  - intros [[H1 H2] H3]. apply json_ok_get; [by apply obj_wf_map |]. intros u v. rewrite (get_map_values JObj).
    destruct (map_get u m) as [o|] eqn:E; [| done]. intros [= <-]. apply json_ok_get; [by eapply H2 |]. intros t w Hw.
    apply (H3 u t). unfold nested_get. by rewrite E.
Qed.

Lemma save_override_wf u target ratio old m : nested_wf m -> nested_wf (save_override u target ratio old m).
Proof.
  intros H. unfold save_override. apply nested_set_wf; [by apply add_user_group_wf |]. apply obj_set_wf.
  destruct old as [a|]; [destruct (truthy a && _); [apply obj_delete_wf |] |]; by apply nested_inner_wf, add_user_group_wf.
Qed.

Lemma delete_override_wf u target m : nested_wf m -> nested_wf (delete_override u target m).
Proof.
  intros H. unfold delete_override. destruct (map_get u m) as [o|] eqn:E; [| done].
  assert (obj_wf (obj_delete target o)) as Ho by (apply obj_delete_wf; by eapply H).
  destruct (length _ =? 0)%nat; [| by apply nested_set_wf]. destruct H as [H1 H2]. split; [by apply obj_delete_wf |].
  intros u' o'. rewrite obj_get_delete. case_bool_decide; [done | apply H2].
Qed.

(** Saving the dialog of an override writes a text that is read as the old overrides
    with this one set and, if it was renamed, the old one gone; deleting an override
    removes this one only.  No other override of any group changes. *)
Theorem override_edits_spec e m :
  parseNestedRatioMap (oe_text e) = Some m -> overrides_ok m ->
  (forall u target,
     oe_overrideUserGroup e = Some u -> u <> [] -> oe_targetGroup e = Some target -> target <> [] ->
     trim (oe_ratio e) <> [] -> num_ok (parseFloat (oe_ratio e)) = true ->
     exists e' m', save_dialog e = Some e' /\ oe_overrideDialogOpen e' = false /\ parseNestedRatioMap (oe_text e') = Some m' /\
       forall u' t, nested_get u' t m' =
         if bool_decide (u' = u /\ t = target) then Some (JNum (parseFloat (oe_ratio e)))
         else if bool_decide (u' = u /\ renamed (go_targetGroup <$> oe_overrideEditData e) target = Some t) then None else nested_get u' t m) /\
  (forall u target,
     exists e' m', handleOverrideDelete u target e = Some e' /\ parseNestedRatioMap (oe_text e') = Some m' /\
       forall u' t, nested_get u' t m' = if bool_decide (u' = u /\ t = target) then None else nested_get u' t m).
Proof.
  intros Hp Hok. apply overrides_ok_spec in Hok as [Hwf Hv]. split.
  - intros u target Hu Hne Ht Htn Hr Hn. set (r := parseFloat (oe_ratio e)) in *.
    assert (isNaN r = false) as Hnan by (destruct (num_ok_text r Hn) as [Hf _]; by destruct r).
    apply truthy_true in Hne, Htn, Hr. unfold save_dialog. rewrite Ht, Htn, Hr, Hu. fold r. rewrite Hnan, Hne, Hp. cbn [negb orb mbind option_bind].
    set (m' := save_override u target r _ m). eexists _, m'. split; [reflexivity |]. split; [done |]. cbn [oe_text]. split.
    + apply overrides_roundtrip, overrides_ok_spec. split; [by apply save_override_wf |]. intros u' t v. unfold m'. rewrite save_override_get by done.
      destruct (bool_decide (u' = u /\ t = target)); [by intros [= <-] |]. destruct (bool_decide _); [done | apply Hv].
    + intros u' t. by apply save_override_get.
  - intros u target. unfold handleOverrideDelete. rewrite Hp. cbn [mbind option_bind]. eexists _, (delete_override u target m).
    split; [reflexivity |]. split; [| intros u' t; by apply delete_override_get].
    apply overrides_roundtrip, overrides_ok_spec. split; [by apply delete_override_wf |]. intros u' t v. rewrite delete_override_get by done.
    destruct (bool_decide _); [done | apply Hv].
Qed.

(** Renaming the override of [vip] for [default] to [beta]. *)
Definition demo_overrides : overrides := [(js "vip", [(js "default", JNum (lit "0.8")); (js "gold", JNum (lit "0.7"))])].
Definition demo_override_editor : OverrideEditor :=
  mkOverrideEditor (print_overrides demo_overrides) false None true (Some (js "vip"))
    (Some (mkOverride (js "default") (JNum (lit "0.8")))) (Some (js "beta")) (js "0.75").

Lemma override_edits_spec_witness :
  exists e' m', save_dialog demo_override_editor = Some e' /\ oe_overrideDialogOpen e' = false /\ parseNestedRatioMap (oe_text e') = Some m' /\
    forall u' t, nested_get u' t m' =
      if bool_decide (u' = js "vip" /\ t = js "beta") then Some (JNum (parseFloat (js "0.75")))
      else if bool_decide (u' = js "vip" /\ renamed (Some (js "default")) (js "beta") = Some t) then None else nested_get u' t demo_overrides.
Proof.
  assert (overrides_ok demo_overrides) as Hok by (apply json_okb_ok; vm_compute; reflexivity).
  assert (parseNestedRatioMap (oe_text demo_override_editor) = Some demo_overrides) as Hp by (vm_compute; reflexivity).
  destruct (override_edits_spec demo_override_editor demo_overrides Hp Hok) as [H _].
  apply (H (js "vip") (js "beta")).
  - reflexivity.
  - intros E. vm_compute in E. discriminate E.
  - reflexivity.
  - intros E. vm_compute in E. discriminate E.
  - intros E. vm_compute in E. discriminate E.
  - vm_compute. reflexivity.
Defined.

(** ** Auto groups *)

Lemma print_list_read l : autoGroupsList (print_list l) = Some l.
Proof.
  assert (json_ok (JArr (map JStr l))) as Hok.
  { apply json_ok_arr, Forall_forall. intros v (s & -> & _)%list_elem_of_fmap. done. }
  assert (exists m, print_list l = 91%N :: m ++ [93%N]) as [m E].
  { unfold print_list. destruct l as [|s l]; [by exists [] |].
    exists (newline :: two_spaces ++ join (44%N :: newline :: two_spaces) (map (JSON_pretty_at two_spaces) (map JStr (s :: l))) ++ [newline]).
    cbn. by rewrite <- !app_assoc. }
  assert (trim (print_list l) = print_list l) as Ht.
  { rewrite E. apply trimmed_trim. split; [done |]. by rewrite app_comm_cons, last_snoc. }
  unfold autoGroupsList, safeJsonParse. rewrite Ht. assert (truthy (print_list l) = true) as -> by (by rewrite E). cbn [negb orb].
  unfold print_list. rewrite pretty_roundtrip by done. cbn. clear. induction l as [|s l IH]; [done |]. cbn. by rewrite IH.
Qed.

Lemma swap_at_perm l i j : swap_at l i j ≡ₚ l.
Proof.
  unfold swap_at. destruct (l !! i) as [a|] eqn:Ei; [| done]. destruct (l !! j) as [b|] eqn:Ej; [| done].
  destruct (decide (i = j)) as [->|Hne].
  - rewrite list_insert_insert_eq. assert (a = b) as -> by congruence. by rewrite list_insert_id.
  - apply Permutation_inj. split; [by rewrite !length_insert |].
    exists (fun k => if decide (k = i) then j else if decide (k = j) then i else k). split.
    + intros x y Hxy. repeat case_decide; congruence.
    + intros k. destruct (decide (k = j)) as [->|Hk].
      * rewrite list_lookup_insert_eq by (rewrite length_insert; by eapply lookup_lt_Some). by rewrite decide_False by congruence.
      * rewrite list_lookup_insert_ne by done. destruct (decide (k = i)) as [->|Hki].
        -- by rewrite list_lookup_insert_eq by (by eapply lookup_lt_Some).
        -- by rewrite list_lookup_insert_ne by done.
Qed.

(** The order of the auto groups is edited faithfully: adding a group appends it
    unless it is listed, moving one swaps it with its neighbour and keeps all others in
    place, deleting one removes it; read again, a list without repetitions stays one. *)
Theorem auto_groups_edits l :
  (forall name text, handleAutoGroupAdd l name = Some text -> autoGroupsList text = Some (l ++ [name]) /\ (NoDup l -> NoDup (l ++ [name]))) /\
  (forall i up text, handleAutoGroupMove l i up = Some text -> (i < length l)%nat ->
     exists j l', (j < length l)%nat /\ autoGroupsList text = Some l' /\ l' ≡ₚ l /\
       l' !! i = l !! j /\ l' !! j = l !! i /\ forall k, k <> i -> k <> j -> l' !! k = l !! k) /\
  (forall i, autoGroupsList (handleAutoGroupDelete l i) = Some (delete i l) /\ (NoDup l -> NoDup (delete i l))).
Proof.
  assert (forall i j, (i < length l)%nat -> (j < length l)%nat -> i <> j ->
    swap_at l i j !! i = l !! j /\ swap_at l i j !! j = l !! i /\ forall k, k <> i -> k <> j -> swap_at l i j !! k = l !! k) as Hswap.
  { intros i j Hi Hj Hne. unfold swap_at. destruct (lookup_lt_is_Some_2 l i Hi) as [a Ea], (lookup_lt_is_Some_2 l j Hj) as [b Eb]. rewrite Ea, Eb.
    split; [by rewrite list_lookup_insert_ne, list_lookup_insert_eq |]. split; [by rewrite list_lookup_insert_eq by (by rewrite length_insert) |].
    intros k Hk1 Hk2. by rewrite !list_lookup_insert_ne. }
  split; [| split].
  - intros name text. unfold handleAutoGroupAdd. case_bool_decide as Hin; [done |]. intros [= <-]. split; [apply print_list_read |].
    intros H. apply NoDup_app. split; [done |]. split; [| apply NoDup_singleton]. by intros x Hx ->%list_elem_of_singleton.
  - intros i up text. unfold handleAutoGroupMove. destruct up.
    + destruct i as [|j]; [done |]. intros [= <-] Hi. exists j, (swap_at l (S j) j). split; [lia |]. split; [apply print_list_read |].
      split; [apply swap_at_perm | apply Hswap; lia].
    + destruct (length l <=? S i)%nat eqn:E; [done |]. apply Nat.leb_gt in E. intros [= <-] Hi. exists (S i), (swap_at l i (S i)).
      split; [lia |]. split; [apply print_list_read |]. split; [apply swap_at_perm | apply Hswap; lia].
  - intros i. unfold handleAutoGroupDelete. rewrite print_list_read, <- delete_take_drop. split; [done |].
    intros H. eapply sublist_NoDup; [done | apply sublist_delete].
Qed.
