(* ===== verification/GroupRuleProps.v ===== *)
(** * Special usable group rules: theorems

    In every state of the editor a hidden rule carries the description that marks it and
    identifiers are unique; what the editor writes is read again as its complete rules, the
    last one of each key; and a text that arrives from outside is overwritten by the next
    edit. *)
From S2P Require Import Prelude Number Regex Json JsonPretty JsonObject PricingProps GroupRatio GroupRules GroupProps.

(** ** Keys *)

Definition rule_key (r : Rule) : str * bool * str := (ru_userGroup r, ru_visible r, ru_targetGroup r).

Definition raw_key (r : Rule) : str := toRawKey (ru_visible r) (ru_targetGroup r).

Lemma parse_raw_key v g : parseRawKey (toRawKey v g) = (v, g).
Proof. by destruct v. Qed.

Lemma raw_key_inj v g v' g' : toRawKey v g = toRawKey v' g' -> v = v' /\ g = g'.
Proof. intros H. pose proof (parse_raw_key v g) as E. rewrite H, parse_raw_key in E. by injection E as -> ->. Qed.

(** ** What is written *)

(** A rule that is written under a user group and a raw key. *)
Definition written_at (u k : str) (r : Rule) : option str :=
  if truthy (ru_userGroup r) && truthy (ru_targetGroup r) && str_eqb (ru_userGroup r) u && str_eqb (raw_key r) k
  then Some (ru_description r) else None.

Lemma serialize_rule_wf m r : nested_wf m -> nested_wf (serialize_rule m r).
Proof.
  intros H. unfold serialize_rule. destruct (negb _ || _); [done |]. change (if map_has _ m then m else _) with (add_user_group (ru_userGroup r) m).
  apply nested_set_wf; [by apply add_user_group_wf |]. by apply obj_set_wf, nested_inner_wf, add_user_group_wf.
Qed.

Lemma serialize_rule_get m r u k :
  nested_wf m -> nested_get u k (serialize_rule m r) = match written_at u k r with Some desc => Some (JStr desc) | None => nested_get u k m end.
Proof.
  intros H. unfold serialize_rule, written_at. destruct (truthy (ru_userGroup r)), (truthy (ru_targetGroup r)); cbn [negb orb andb]; try done.
  change (if map_has _ m then m else _) with (add_user_group (ru_userGroup r) m). set (m1 := add_user_group (ru_userGroup r) m).
  assert (nested_wf m1) as H1 by (by apply add_user_group_wf). rewrite nested_get_set by done.
  destruct (str_eqb (ru_userGroup r) u) eqn:Eu; cbn [andb].
  - apply str_eqb_eq in Eu. subst u. rewrite bool_decide_true by done. rewrite obj_get_set by (by apply nested_inner_wf). fold (raw_key r).
    destruct (str_eqb (raw_key r) k) eqn:Ek.
    + apply str_eqb_eq in Ek. subst k. by rewrite bool_decide_true.
    + rewrite bool_decide_false by (intros ->; by rewrite (proj2 (str_eqb_eq _ _) eq_refl) in Ek).
      rewrite <- (add_user_group_get (ru_userGroup r)) by done. fold m1. unfold nested_get. by destruct (map_get (ru_userGroup r) m1).
  - rewrite bool_decide_false by (intros ->; by rewrite (proj2 (str_eqb_eq _ _) eq_refl) in Eu). by apply add_user_group_get.
Qed.

Lemma serialized_rules_wf rules : nested_wf (serialized_rules rules).
Proof.
  induction rules as [|r rules IH] using rev_ind; [split; [apply obj_wf_nil | done] |].
  unfold serialized_rules in *. rewrite foldl_app. cbn. by apply serialize_rule_wf.
Qed.

Lemma serialized_rules_get rules u k : nested_get u k (serialized_rules rules) = JStr <$> last (omap (written_at u k) rules).
Proof.
  induction rules as [|r rules IH] using rev_ind; [done |]. unfold serialized_rules in *. rewrite foldl_app. cbn [foldl].
  rewrite serialize_rule_get by apply serialized_rules_wf. rewrite omap_snoc, last_snoc_opt, IH. by destruct (written_at u k r).
Qed.

Lemma serialized_rules_ok rules : overrides_ok (serialized_rules rules).
Proof.
  apply overrides_ok_spec. split; [apply serialized_rules_wf |]. intros u k v. rewrite serialized_rules_get.
  destruct (last _); [| done]. by intros [= <-].
Qed.

(** ** What is read *)

Definition as_json (m : overrides) : entries := map (fun '(k, o) => (k, JObj o)) m.

Lemma safe_parse_serialized rules : safeParseJson (serializeRules rules) = Some (as_json (serialized_rules rules)).
Proof.
  unfold serializeRules. destruct (length (serialized_rules rules) =? 0)%nat eqn:E.
  - apply Nat.eqb_eq, length_zero_iff_nil in E. rewrite E. vm_compute. reflexivity.
  - unfold safeParseJson, print_overrides. fold (as_json (serialized_rules rules)).
    destruct (pretty_obj_shape (as_json (serialized_rules rules))) as [u Hu].
    assert (trim (JSON_pretty (JObj (as_json (serialized_rules rules)))) = JSON_pretty (JObj (as_json (serialized_rules rules)))) as Ht.
    { rewrite Hu. apply trimmed_trim, trimmed_braces. }
    rewrite Ht. assert (truthy (JSON_pretty (JObj (as_json (serialized_rules rules)))) = true) as Htr by (by rewrite Hu).
    rewrite Htr. cbn [negb orb]. by rewrite pretty_roundtrip by apply serialized_rules_ok.
Qed.

Lemma flat_keys_cons u o m : flat_keys (as_json ((u, o) :: m)) = map (fun e => (u, e)) o ++ flat_keys (as_json m).
Proof. done. Qed.

Lemma flat_keys_elem m u k v : nested_wf m -> (u, (k, v)) ∈ flat_keys (as_json m) <-> nested_get u k m = Some v.
Proof.
  intros [[Hnd _] Hin]. unfold nested_get. induction m as [|[u' o] m IH]; [split; [by intros ?%not_elem_of_nil | done] |].
  cbn in Hnd. apply NoDup_cons in Hnd as [Hn Hnd]. rewrite flat_keys_cons, elem_of_app. cbn [map_get].
  assert (obj_wf o) as [Ho _] by (apply (Hin u' o); cbn; by rewrite decide_True).
  assert (forall w q, map_get w m = Some q -> obj_wf q) as Hin'.
  { intros w q Hw. apply (Hin w q). cbn. rewrite decide_False; [done |]. intros ->. apply map_get_elem in Hw. apply Hn.
    apply list_elem_of_fmap. by exists (u', q). }
  specialize (IH Hnd Hin'). destruct (decide (u = u')) as [->|Hne]; cbn [mbind option_bind].
  - split.
    + intros [H|H].
      * apply list_elem_of_fmap in H as (e & [= <-] & He). by apply elem_map_get.
      * exfalso. apply IH in H. destruct (map_get u' m) as [q|] eqn:E; [| done]. apply map_get_elem in E. apply Hn, list_elem_of_fmap. by exists (u', q).
    + intros H. left. apply list_elem_of_fmap. exists (k, v). split; [done | by apply map_get_elem].
  - rewrite <- IH. split; [| by right]. intros [H|H]; [| done]. apply list_elem_of_fmap in H as (e & [= ? _] & _). done.
Qed.

Definition flat_id (x : str * (str * json)) : str * str := (fst x, fst (snd x)).

Lemma flat_keys_NoDup m : nested_wf m -> NoDup (map flat_id (flat_keys (as_json m))).
Proof.
  intros Hw. pose proof (flat_keys_elem m) as Hel. destruct Hw as [[Hnd Ho] Hin]. clear Ho Hel. induction m as [|[u o] m IH]; [constructor |].
  cbn in Hnd. apply NoDup_cons in Hnd as [Hn Hnd]. rewrite flat_keys_cons, map_app.
  assert (forall w q, map_get w m = Some q -> obj_wf q) as Hin'.
  { intros w q Hwq. apply (Hin w q). cbn. rewrite decide_False; [done |]. intros ->. apply map_get_elem in Hwq. apply Hn.
    apply list_elem_of_fmap. by exists (u, q). }
  apply NoDup_app. split; [| split; [| by apply IH]].
  - assert (NoDup o.*1) as Hd by (apply (Hin u o); cbn; by rewrite decide_True). rewrite map_map. cbn.
    clear -Hd. induction o as [|[k v] o IH]; [constructor |]. cbn in Hd |- *. apply NoDup_cons in Hd as [Hk Hd]. apply NoDup_cons.
    split; [| by apply IH]. intros ([k' v'] & [= ->] & He)%list_elem_of_fmap. apply Hk, list_elem_of_fmap. by exists (k', v').
  - intros x Hx Hx2. rewrite map_map in Hx. apply list_elem_of_fmap in Hx as ([k v] & -> & _).
    apply list_elem_of_fmap in Hx2 as ([u' [k' v']] & [= -> ->] & Hx2). unfold flat_keys, as_json in Hx2. rewrite map_map in Hx2.
    apply list_elem_of_In, in_concat in Hx2 as (l & Hl & Hx2). apply in_map_iff in Hl as ([w q] & <- & Hl). apply in_map_iff in Hx2 as (e & [= -> _] & _).
    apply Hn, list_elem_of_fmap. exists (u', q). split; [done | by apply list_elem_of_In].
Qed.

(** A rule without its identifier. *)
Definition rule_data (r : Rule) : str * bool * str * str := (rule_key r, ru_description r).

Definition flat_data (x : str * (str * json)) : str * bool * str * str := rule_data (flat_rule 0 (fst x) (fst (snd x)) (snd (snd x))).

Lemma flat_rule_data id u k v : rule_data (flat_rule id u k v) = flat_data (u, (k, v)) /\ ru_id (flat_rule id u k v) = id.
Proof. unfold flat_data, flat_rule. cbn. by destruct (parseRawKey k). Qed.

Lemma number_rules_spec l counter :
  let '(rules, counter') := number_rules counter l in
  map rule_data rules = map flat_data l /\ (counter <= counter')%N /\ NoDup (map ru_id rules) /\ Forall (fun r => counter < ru_id r <= counter')%N rules.
Proof.
  revert counter. induction l as [|[u [k v]] l IH]; intros counter; cbn; [repeat split; [lia | constructor | constructor] |].
  specialize (IH (counter + 1)%N). destruct (number_rules (counter + 1)%N l) as [rules counter'].
  destruct IH as (I1 & I2 & I3 & I4). destruct (flat_rule_data (counter + 1)%N u k v) as [E1 E2]. cbn. rewrite E1, E2, I1. split; [done |]. split; [lia |]. split.
  - apply NoDup_cons. split; [| done]. intros (r & Hid & Hr)%list_elem_of_fmap. rewrite Forall_forall in I4. specialize (I4 r Hr). lia.
  - apply Forall_cons. rewrite E2. split; [lia |]. eapply Forall_impl; [exact I4 |]. cbn. lia.
Qed.

(** ** The editor over time *)

Inductive rules_reachable : RulesEditor -> Prop :=
  | rules_mounted value counter s : mount_rules value counter = Some s -> rules_reachable s
  | rules_stepped s s' : rules_reachable s -> rules_step s s' -> rules_reachable s'.

Definition marked (r : Rule) : Prop := ru_visible r = false -> ru_description r = js "remove".

Definition rules_ok (rules : list Rule) (counter : N) : Prop :=
  NoDup (map ru_id rules) /\ Forall (fun r => ru_id r <= counter)%N rules /\ Forall marked rules.

Lemma flat_rule_marked id u k v : marked (flat_rule id u k v).
Proof. unfold marked, flat_rule. destruct (parseRawKey k) as [visible g]. cbn. by intros ->. Qed.

Lemma number_rules_marked l counter : Forall marked (fst (number_rules counter l)).
Proof.
  revert counter. induction l as [|[u [k v]] l IH]; intros counter; cbn; [constructor |]. specialize (IH (counter + 1)%N).
  destruct (number_rules (counter + 1)%N l). cbn in *. by apply Forall_cons_2; [apply flat_rule_marked |].
Qed.

Lemma mount_ok value counter s : mount_rules value counter = Some s -> rules_ok (rs_rules s) (rs_counter s).
Proof.
  unfold mount_rules. destruct (safeParseJson value) as [nested|]; [| done]. cbn [mbind option_bind]. unfold flattenRules.
  pose proof (number_rules_spec (flat_keys nested) counter) as H. pose proof (number_rules_marked (flat_keys nested) counter) as Hm.
  destruct (number_rules counter (flat_keys nested)) as [rules counter']. intros [= <-]. destruct H as (_ & _ & H3 & H4).
  split; [done |]. split; [| done]. eapply Forall_impl; [exact H4 |]. cbn. lia.
Qed.

Lemma filter_rules_ok f rules counter : rules_ok rules counter -> rules_ok (List.filter f rules) counter.
Proof.
  intros (H1 & H2 & H3). rewrite !Forall_forall in *. split; [by apply bfilter_map_NoDup |].
  split; apply Forall_forall; intros r Hr%bfilter_elem; [by apply H2 | by apply H3].
Qed.

(** An edit of the rules with an identifier that keeps it and the mark. *)
Lemma update_rules_ok id e rules counter :
  rules_ok rules counter -> (forall r, r ∈ rules -> ru_id r = id -> marked (edit_rule e r)) ->
  rules_ok (map (fun r => if negb (ru_id r =? id)%N then r else edit_rule e r) rules) counter.
Proof.
  intros (H1 & H2 & H3) He. rewrite Forall_forall in H2, H3.
  assert (forall r, ru_id (if negb (ru_id r =? id)%N then r else edit_rule e r) = ru_id r) as Hid.
  { intros r. destruct (negb (ru_id r =? id)%N); [done | by destruct e]. }
  split; [rewrite map_map, (map_ext _ ru_id Hid); done |].
  split; apply Forall_forall; intros r (r0 & -> & Hr)%list_elem_of_fmap.
  - rewrite Hid. by apply H2.
  - destruct (ru_id r0 =? id)%N eqn:E; cbn [negb]; [| by apply H3]. apply He; [done | by apply N.eqb_eq].
Qed.

Lemma NoDup_map_eq {A B} (f : A -> B) l x y : NoDup (map f l) -> x ∈ l -> y ∈ l -> f x = f y -> x = y.
Proof.
  induction l as [|z l IH]; [by intros _ ?%not_elem_of_nil |]. cbn. rewrite NoDup_cons. intros [Hn H] Hx Hy E.
  apply elem_of_cons in Hx as [->|Hx], Hy as [->|Hy]; [done | exfalso | exfalso | by apply IH].
  - apply Hn. rewrite E. by apply list_elem_of_fmap_2.
  - apply Hn. rewrite <- E. by apply list_elem_of_fmap_2.
Qed.

Lemma rules_step_ok s s' : rules_step s s' -> rules_ok (rs_rules s) (rs_counter s) -> rules_ok (rs_rules s') (rs_counter s').
Proof.
  intros Hs H. pose proof H as (H1 & H2 & H3). rewrite Forall_forall in H2, H3.
  destruct Hs as [id b|id v _|r v Hr Hvis|id|name|name _|value];
    unfold updateRule, removeRule, removeGroup, addRuleToGroup, emitChange; cbn [rs_rules rs_counter]; try by apply filter_rules_ok.
  - apply update_rules_ok; [done |]. intros r _ _. unfold marked. cbn. by intros ->.
  - apply update_rules_ok; [done |]. intros r Hr _. apply H3 in Hr. exact Hr.
  - apply update_rules_ok; [done |]. intros r' Hr' Hid. assert (r' = r) as ->.
    { by apply (NoDup_map_eq ru_id (rs_rules s)). }
    unfold marked. cbn. by rewrite Hvis.
  - split; [| split].
    + rewrite map_app. apply NoDup_app. split; [done |]. split; [| apply NoDup_singleton].
      intros i (r & -> & Hr)%list_elem_of_fmap Hi. apply list_elem_of_singleton in Hi. specialize (H2 r Hr). cbn in Hi. lia.
    + apply Forall_app. split; [| by apply Forall_singleton]. apply Forall_forall. intros r Hr. specialize (H2 r Hr). lia.
    + apply Forall_app. split; [by apply Forall_forall | by apply Forall_singleton].
  - done.
Qed.

Lemma rules_reachable_ok s : rules_reachable s -> rules_ok (rs_rules s) (rs_counter s).
Proof. induction 1 as [value counter s H|s s' _ IH H]; [by eapply mount_ok | by eapply rules_step_ok]. Qed.

(** ** Reading what was written *)

(** The description of the last rule of a key. *)
Definition last_description (u : str) (v : bool) (t : str) (rules : list Rule) : option str :=
  last (map ru_description (List.filter (fun r => bool_decide (rule_key r = (u, v, t))) rules)).

Lemma written_last u v t rules :
  u <> [] -> t <> [] -> last (omap (written_at u (toRawKey v t)) rules) = last_description u v t rules.
Proof.
  intros Hu%truthy_true Ht%truthy_true. unfold last_description. f_equal. induction rules as [|r rules IH]; [done |]. cbn. rewrite IH. unfold written_at.
  destruct (bool_decide_reflect (rule_key r = (u, v, t))) as [[= <- <- <-]|Hne].
  - unfold raw_key. by rewrite Hu, Ht, !(proj2 (str_eqb_eq _ _) eq_refl).
  - destruct (_ && _ && _ && _) eqn:E; [| done]. exfalso. apply andb_true_iff in E as [[[_ _]%andb_true_iff Eu]%andb_true_iff Ek].
    apply str_eqb_eq in Eu, Ek. apply raw_key_inj in Ek as [<- <-]. apply Hne. unfold rule_key. by rewrite Eu.
Qed.

(** Raw keys that are written are those of rules. *)
Lemma written_key u k rules : last (omap (written_at u k) rules) <> None -> u <> [] /\ exists v t, t <> [] /\ k = toRawKey v t.
Proof.
  destruct (last _) as [d|] eqn:E; [| done]. intros _. apply last_omap_elem in E as (r & _ & H). unfold written_at in H.
  destruct (_ && _ && _ && _) eqn:B; [| done]. apply andb_true_iff in B as [[[B1 B2]%andb_true_iff B3]%andb_true_iff B4].
  apply str_eqb_eq in B3, B4. subst u k. split; [by apply truthy_true |]. exists (ru_visible r), (ru_targetGroup r). split; [by apply truthy_true | done].
Qed.

Lemma flat_data_written u v t d : flat_data (u, (toRawKey v t, JStr d)) = ((u, v, t), if v then d else js "remove").
Proof. unfold flat_data, flat_rule. cbn [fst snd]. rewrite parse_raw_key. by destruct v. Qed.

Section Reopen.
Context (rules : list Rule).
Hypothesis Hmarked : Forall marked rules.
Let m := serialized_rules rules.

Lemma hidden_last u t d : last_description u false t rules = Some d -> d = js "remove".
Proof.
  intros E. unfold last_description in E. apply last_Some_elem_of in E. apply list_elem_of_fmap in E as (r & -> & Hr).
  apply list_elem_of_In, filter_In in Hr as [Hr Hk]. apply bool_decide_eq_true in Hk. injection Hk as _ Hv _.
  rewrite Forall_forall in Hmarked. apply Hmarked; [by apply list_elem_of_In | done].
Qed.

Lemma reopened_elem u v t d :
  ((u, v, t), d) ∈ map flat_data (flat_keys (as_json m)) <-> u <> [] /\ t <> [] /\ last_description u v t rules = Some d.
Proof.
  split.
  - intros ([u' [k x]] & Hd & Hin)%list_elem_of_fmap. apply flat_keys_elem in Hin; [| apply serialized_rules_wf].
    unfold m in Hin. rewrite serialized_rules_get in Hin. destruct (last (omap (written_at u' k) rules)) as [d'|] eqn:E; [| done]. injection Hin as <-.
    destruct (written_key u' k rules) as (Hu & v' & t' & Ht & ->); [by rewrite E |].
    rewrite flat_data_written in Hd. injection Hd as -> -> -> ->. split; [done |]. split; [done |].
    rewrite written_last in E by done. rewrite E. destruct v'; [done |]. f_equal. by apply hidden_last in E.
  - intros (Hu & Ht & Hl). apply list_elem_of_fmap. exists (u, (toRawKey v t, JStr d)). split.
    + rewrite flat_data_written. f_equal. destruct v; [done |]. by apply hidden_last in Hl.
    + apply flat_keys_elem; [apply serialized_rules_wf |]. unfold m. rewrite serialized_rules_get, written_last by done. by rewrite Hl.
Qed.

Lemma reopened_NoDup : NoDup (map fst (map flat_data (flat_keys (as_json m)))).
Proof.
  pose proof (flat_keys_NoDup m (serialized_rules_wf rules)) as H. rewrite map_map.
  assert (forall x y, x ∈ flat_keys (as_json m) -> y ∈ flat_keys (as_json m) -> fst (flat_data x) = fst (flat_data y) -> flat_id x = flat_id y) as Hinj.
  { intros [u [k x]] [u' [k' x']] Hx Hy. apply flat_keys_elem in Hx, Hy; try apply serialized_rules_wf.
    unfold m in Hx, Hy. rewrite serialized_rules_get in Hx, Hy.
    destruct (written_key u k rules) as (_ & v & t & _ & ->); [by destruct (last (omap (written_at u k) rules)) |].
    destruct (written_key u' k' rules) as (_ & v' & t' & _ & ->); [by destruct (last (omap (written_at u' k') rules)) |].
    unfold flat_data, flat_rule, rule_data, rule_key, flat_id. cbn [fst snd]. rewrite !parse_raw_key. cbn. by intros [= -> -> ->]. }
  induction (flat_keys (as_json m)) as [|x l IH]; [constructor |]. cbn in H |- *. apply NoDup_cons in H as [Hn H]. apply NoDup_cons. split.
  - intros (y & Hxy & Hy)%list_elem_of_fmap. apply Hn, list_elem_of_fmap. exists y. split; [| done]. apply Hinj; [by left | by right | done].
  - apply IH; [done |]. intros a b Ha Hb. apply Hinj; by right.
Qed.
End Reopen.

(** In every state of the editor, the text that its rules write is read again as
    rules with distinct keys: for each key (user group, visible or hidden, group) of which
    both names are set, one rule with the description of the last such rule; rules whose
    group is not yet chosen are left out. *)
Theorem reopened_rules_spec s counter :
  rules_reachable s ->
  exists s', mount_rules (serializeRules (rs_rules s)) counter = Some s' /\
    NoDup (map rule_key (rs_rules s')) /\
    forall u v t d,
      (exists r, r ∈ rs_rules s' /\ rule_key r = (u, v, t) /\ ru_description r = d) <->
      u <> [] /\ t <> [] /\ last_description u v t (rs_rules s) = Some d.
Proof.
  intros (_ & _ & Hm)%rules_reachable_ok. unfold mount_rules. rewrite safe_parse_serialized. cbn [mbind option_bind]. unfold flattenRules.
  pose proof (number_rules_spec (flat_keys (as_json (serialized_rules (rs_rules s)))) counter) as H.
  destruct (number_rules counter _) as [rules counter']. destruct H as (Hd & _). eexists. split; [reflexivity |]. cbn [rs_rules].
  assert (map rule_key rules = map fst (map rule_data rules)) as Hk by (by rewrite map_map). rewrite Hk, Hd.
  split; [apply reopened_NoDup |]. intros u v t d. rewrite <- (reopened_elem (rs_rules s) Hm), <- Hd. split.
  - intros (r & Hr & <- & <-). apply (list_elem_of_fmap_2 rule_data _ _ Hr).
  - intros (r & Hrd & Hr)%list_elem_of_fmap. exists r. split; [done |].
    split; [exact (f_equal fst (eq_sym Hrd)) | exact (f_equal snd (eq_sym Hrd))].
Qed.

Definition demo_rules_text : str := jsq "{'vip':{'+:gold':'extra','-:default':'remove','beta':'old'},'free':{'-:gold':''}}".
Definition demo_rules : RulesEditor := default (mkRulesEditor [] 0 []) (mount_rules demo_rules_text 0).

Lemma demo_rules_reachable : rules_reachable (addRuleToGroup (js "free") (updateRule 2 (SetVisible true) demo_rules)).
Proof.
  apply (rules_stepped (updateRule 2 (SetVisible true) demo_rules)); [| apply rules_add; vm_compute; discriminate].
  apply (rules_stepped demo_rules); [| apply rules_visible]. apply (rules_mounted demo_rules_text 0). vm_compute. reflexivity.
Qed.

Lemma reopened_rules_spec_witness :
  let s := addRuleToGroup (js "free") (updateRule 2 (SetVisible true) demo_rules) in
  exists s', mount_rules (serializeRules (rs_rules s)) 9 = Some s' /\
    NoDup (map rule_key (rs_rules s')) /\
    forall u v t d,
      (exists r, r ∈ rs_rules s' /\ rule_key r = (u, v, t) /\ ru_description r = d) <->
      u <> [] /\ t <> [] /\ last_description u v t (rs_rules s) = Some d.
Proof. exact (reopened_rules_spec _ 9 demo_rules_reachable). Defined.

(** The mounted editor does not read its text again: after a new one arrived, an edit
    writes the rules from before with the edit. *)
Lemma outside_text_overwritten id e value s :
  updateRule id e (mkRulesEditor (rs_rules s) (rs_counter s) value) = updateRule id e s.
Proof. done. Qed.
