(* ===== verification/ParamOverride.v ===== *)
(** * Channels: the parameter override editor

    Model of [features/channels/components/dialogs/param-override-editor-dialog.tsx]:
    the rules that rewrite a request before it is relayed, read from a JSON text into
    a visual editor and written back.

    The dialog is a record with a function per handler.  Identifiers of rules and
    conditions are made of the clock and of a counter ([nextLocalId]): the counter is
    part of the state, the reading of the clock for the n-th identifier is [now n].
    A value of type [unknown] is an optional JSON value, a [TypeError] is [None], and a
    thrown [Error] the left side of a sum.  The translation function is an argument.

    Left out: the rendering, and the search field, which needs Unicode case folding. *)
From S2P Require Import Prelude Number Regex Json JsonPretty JsonObject.

(** Upper case, and with [ascii_lower] lower case, as far as comparisons with Latin words
    need it: no other letter is folded onto the letters of these words. *)
Definition ascii_upper (s : str) : str := map (fun c => if ((97 <=? c) && (c <=? 122))%N then (c - 32)%N else c) s.

(** ** Types *)

Record ParamOverrideCondition := mkCond {
  c_id : str; c_path : str; c_mode : str; c_value_text : str; c_invert : bool; c_pass_missing_key : bool
}.

(** The rules of [prune_objects] have the same fields. *)
Abbreviation PruneRule := ParamOverrideCondition.

Record ParamOverrideOperation := mkOp {
  o_id : str; o_description : str; o_path : str; o_mode : str; o_from : str; o_to : str; o_value_text : str;
  o_keep_origin : bool; o_logic : str; o_conditions : list ParamOverrideCondition
}.

(** ** Tables *)

Definition OPERATION_MODE_OPTIONS : list (str * str) :=
  [(js "Set Field", js "set"); (js "Delete Field", js "delete"); (js "Append to End", js "append");
   (js "Prepend to Start", js "prepend"); (js "Copy Field", js "copy"); (js "Move Field", js "move");
   (js "String Replace", js "replace"); (js "Regex Replace", js "regex_replace"); (js "Trim Prefix", js "trim_prefix");
   (js "Trim Suffix", js "trim_suffix"); (js "Ensure Prefix", js "ensure_prefix"); (js "Ensure Suffix", js "ensure_suffix");
   (js "Trim Space", js "trim_space"); (js "To Lowercase", js "to_lower"); (js "To Uppercase", js "to_upper");
   (js "Return Custom Error", js "return_error"); (js "Prune Object Items", js "prune_objects");
   (js "Pass Through Headers", js "pass_headers"); (js "Sync Fields", js "sync_fields");
   (js "Set Request Header", js "set_header"); (js "Delete Request Header", js "delete_header");
   (js "Copy Request Header", js "copy_header"); (js "Move Request Header", js "move_header")].
Definition OPERATION_MODE_VALUES : list str := map snd OPERATION_MODE_OPTIONS.
Definition OPERATION_MODE_LABEL_MAP : list (str * str) := map (fun '(label, value) => (value, label)) OPERATION_MODE_OPTIONS.

Definition CONDITION_MODE_VALUES : list str :=
  [js "full"; js "prefix"; js "suffix"; js "contains"; js "gt"; js "gte"; js "lt"; js "lte"].

Record ModeMeta := mkMeta {
  mm_path : bool; mm_pathOptional : bool; mm_value : bool; mm_from : bool; mm_to : bool; mm_keepOrigin : bool; mm_pathAlias : bool
}.
Definition no_meta : ModeMeta := mkMeta false false false false false false false.
Definition path_meta : ModeMeta := mkMeta true false false false false false false.
Definition path_value_meta : ModeMeta := mkMeta true false true false false false false.
Definition set_meta : ModeMeta := mkMeta true false true false false true false.
Definition from_to_meta : ModeMeta := mkMeta false false false true true false false.
Definition replace_meta : ModeMeta := mkMeta true false false true false false false.
Definition header_copy_meta : ModeMeta := mkMeta false false false true true true true.

Definition MODE_META : list (str * ModeMeta) :=
  [(js "delete", path_meta); (js "set", set_meta); (js "append", set_meta); (js "prepend", set_meta);
   (js "copy", from_to_meta); (js "move", from_to_meta); (js "replace", replace_meta); (js "regex_replace", replace_meta);
   (js "trim_prefix", path_value_meta); (js "trim_suffix", path_value_meta); (js "ensure_prefix", path_value_meta);
   (js "ensure_suffix", path_value_meta); (js "trim_space", path_meta); (js "to_lower", path_meta); (js "to_upper", path_meta);
   (js "return_error", mkMeta false false true false false false false);
   (js "prune_objects", mkMeta false true true false false false false);
   (js "pass_headers", mkMeta false false true false false true false); (js "sync_fields", from_to_meta);
   (js "set_header", set_meta); (js "delete_header", path_meta); (js "copy_header", header_copy_meta);
   (js "move_header", header_copy_meta)].
(** [MODE_META[mode] || MODE_META.set]. *)
Definition meta_of (mode : str) : ModeMeta := default set_meta (map_get mode MODE_META).

Definition VALUE_REQUIRED_MODES : list str :=
  [js "trim_prefix"; js "trim_suffix"; js "ensure_prefix"; js "ensure_suffix"; js "set_header"; js "return_error";
   js "prune_objects"; js "pass_headers"].
Definition FROM_REQUIRED_MODES : list str :=
  [js "copy"; js "move"; js "replace"; js "regex_replace"; js "copy_header"; js "move_header"; js "sync_fields"].
Definition TO_REQUIRED_MODES : list str := [js "copy"; js "move"; js "copy_header"; js "move_header"; js "sync_fields"].

(** ** Values *)

Definition toValueText (value : option json) : str :=
  match value with None => [] | Some (JStr s) => s | Some v => JSON_stringify v end.

Definition parseLooseValue (valueText : str) : json :=
  let raw := trim valueText in
  if negb (truthy raw) then JStr [] else match JSON_parse raw with Some v => v | None => JStr raw end.

Definition verifyJSON (text : str) : bool := match JSON_parse text with Some _ => true | None => false end.

(** The properties of a value; reading one of [null] throws. *)
Definition props_of (v : json) : option entries :=
  match v with JNull => None | JObj l => Some l | _ => Some [] end.
Definition prop_str (k : str) (l : entries) : str := match map_get k l with Some (JStr s) => s | _ => [] end.
Definition prop_true (k : str) (l : entries) : bool := match map_get k l with Some (JBool b) => b | _ => false end.
Definition prop_mode (modes : list str) (fallback : str) (l : entries) : str :=
  match map_get (js "mode") l with Some (JStr s) => if set_has s modes then s else fallback | _ => fallback end.
(** [String(v || fallback)]. *)
Definition string_or (v : option json) (fallback : str) : str :=
  match v with Some v => if j_truthy v then to_String v else fallback | None => fallback end.

Section Ids.
Variable now : N -> N.

Definition nextLocalId (seed : N) : str := js "po_" ++ show_N (now seed) ++ js "_" ++ show_N seed.

(** The object with the given properties becomes a condition. *)
Definition condition_of (seed : N) (l : entries) : ParamOverrideCondition :=
  mkCond (nextLocalId seed) (prop_str (js "path") l) (prop_mode CONDITION_MODE_VALUES (js "full") l)
    (toValueText (map_get (js "value") l)) (prop_true (js "invert") l) (prop_true (js "pass_missing_key") l).

(** The result with the counter after it. *)
Definition normalizeOverrideCondition (seed : N) (condition : json) : option (ParamOverrideCondition * N) :=
  l ← props_of condition; Some (condition_of seed l, N.succ seed).

Definition createDefaultCondition (seed : N) : ParamOverrideCondition * N := (condition_of seed [], N.succ seed).

(** [array.map(f)] for an [f] that takes identifiers and may throw. *)
Fixpoint gen_map {A B} (f : N -> A -> option (B * N)) (seed : N) (l : list A) : option (list B * N) :=
  match l with
  | [] => Some ([], seed)
  | x :: l => '(y, seed) ← f seed x; '(ys, seed) ← gen_map f seed l; Some (y :: ys, seed)
  end.

Definition logic_of (fallback other : str) (v : option json) : str :=
  if str_eqb (ascii_upper (string_or v fallback)) other then other else fallback.

Definition operation_of (seed : N) (l : entries) (conditions : list ParamOverrideCondition) : ParamOverrideOperation :=
  mkOp (nextLocalId seed) (prop_str (js "description") l) (prop_str (js "path") l)
    (prop_mode OPERATION_MODE_VALUES (js "set") l) (prop_str (js "from") l) (prop_str (js "to") l)
    (toValueText (map_get (js "value") l)) (prop_true (js "keep_origin") l)
    (logic_of (js "OR") (js "AND") (map_get (js "logic") l)) conditions.

Definition normalizeOperation (seed : N) (operation : json) : option (ParamOverrideOperation * N) :=
  l ← props_of operation;
  match map_get (js "conditions") l with
  | Some (JArr cs) => '(conditions, next) ← gen_map normalizeOverrideCondition (N.succ seed) cs; Some (operation_of seed l conditions, next)
  | _ => Some (operation_of seed l [], N.succ seed)
  end.

Definition createDefaultOperation (seed : N) : ParamOverrideOperation * N :=
  (operation_of seed [(js "mode", JStr (js "set"))] [], N.succ seed).

(** ** Lists of rules *)

Inductive DropPosition := Before | After.

Definition find_index (id : str) (ops : list ParamOverrideOperation) : option nat :=
  fst <$> list_find (fun o => o_id o = id) ops.

Definition reorderOperations (ops : list ParamOverrideOperation) (sourceId targetId : str) (position : DropPosition) :
  list ParamOverrideOperation :=
  if negb (truthy sourceId) || negb (truthy targetId) || str_eqb sourceId targetId then ops
  else
    match find_index sourceId ops with
    | None => ops
    | Some srcIdx =>
        match ops !! srcIdx with
        | None => ops
        | Some moved =>
            let next := take srcIdx ops ++ drop (S srcIdx) ops in
            match find_index targetId next with
            | None => ops
            | Some insertIdx =>
                let insertIdx := match position with After => S insertIdx | Before => insertIdx end in
                take insertIdx next ++ moved :: drop insertIdx next
            end
        end
    end.

Definition condition_used (c : ParamOverrideCondition) : bool :=
  truthy (trim (c_path c)) || truthy (trim (c_value_text c)) || negb (str_eqb (c_mode c) (js "full")) || c_invert c ||
  c_pass_missing_key c.

Definition isOperationBlank (operation : ParamOverrideOperation) : bool :=
  let hasCondition := existsb condition_used (o_conditions operation) in
  str_eqb (o_mode operation) (js "set") && negb (truthy (trim (o_path operation))) && negb (truthy (trim (o_from operation))) &&
  negb (truthy (trim (o_to operation))) && negb (truthy (trim (o_value_text operation))) && negb (o_keep_origin operation) &&
  negb hasCondition.

Definition op_mode (operation : ParamOverrideOperation) : str := str_or (o_mode operation) (js "set").

Definition getOperationSummary (operation : ParamOverrideOperation) (index : nat) : str :=
  let mode := op_mode operation in
  let modeLabel := str_or (default [] (map_get mode OPERATION_MODE_LABEL_MAP)) mode in
  let from := trim (o_from operation) in
  let to := trim (o_to operation) in
  show_N (N.of_nat (index + 1)) ++ js ". " ++ modeLabel ++ js " · " ++
  (if str_eqb mode (js "sync_fields") then str_or from (str_or to (js "-"))
   else str_or (trim (o_path operation)) (str_or from (str_or to (js "-")))).

(** ** Labels *)

Definition getModeTagTailwind (mode : str) : str :=
  if str_includes mode (js "header") then js "bg-cyan-500/15 text-cyan-700 dark:text-cyan-300 border-cyan-500/20"
  else if str_includes mode (js "replace") || str_includes mode (js "trim") then js "bg-violet-500/15 text-violet-700 dark:text-violet-300 border-violet-500/20"
  else if str_includes mode (js "copy") || str_includes mode (js "move") then js "bg-blue-500/15 text-blue-700 dark:text-blue-300 border-blue-500/20"
  else if str_includes mode (js "error") || str_includes mode (js "prune") then js "bg-red-500/15 text-red-700 dark:text-red-300 border-red-500/20"
  else if str_includes mode (js "sync") then js "bg-green-500/15 text-green-700 dark:text-green-300 border-green-500/20"
  else js "bg-muted text-muted-foreground".

Definition mode_among (mode : str) (l : list String.string) : bool := existsb (fun m => str_eqb mode (js m)) l.
Arguments mode_among mode l%_string.
Definition header_transfer : list String.string := ["copy_header"; "move_header"]%string.
Definition affix_modes : list String.string := ["trim_prefix"; "trim_suffix"; "ensure_prefix"; "ensure_suffix"]%string.

Definition getModePathLabel (mode : str) : str :=
  if mode_among mode ["set_header"; "delete_header"]%string then js "Header Name"
  else if mode_among mode ["prune_objects"]%string then js "Target Path (optional)" else js "Target Field Path".
Definition getModePathPlaceholder (mode : str) : str :=
  if mode_among mode ["set_header"]%string then js "Authorization" else if mode_among mode ["delete_header"]%string then js "X-Debug-Mode"
  else if mode_among mode ["prune_objects"]%string then js "messages" else js "temperature".
Definition getModeFromLabel (mode : str) : str :=
  if mode_among mode ["replace"]%string then js "Match Text" else if mode_among mode ["regex_replace"]%string then js "Regex Pattern"
  else if mode_among mode header_transfer then js "Source Header" else js "Source Field".
Definition getModeFromPlaceholder (mode : str) : str :=
  if mode_among mode ["replace"]%string then js "openai/" else if mode_among mode ["regex_replace"]%string then js "^gpt-"
  else if mode_among mode header_transfer then js "Authorization" else js "model".
Definition getModeToLabel (mode : str) : str :=
  if mode_among mode ["replace"; "regex_replace"]%string then js "Replace With"
  else if mode_among mode header_transfer then js "Target Header" else js "Target Field".
Definition getModeToPlaceholder (mode : str) : str :=
  if mode_among mode ["replace"]%string then js "(leave empty to delete)" else if mode_among mode ["regex_replace"]%string then js "openai/gpt-"
  else if mode_among mode header_transfer then js "X-Upstream-Auth" else js "original_model".
Definition getModeValueLabel (mode : str) : str :=
  if mode_among mode ["set_header"]%string then js "Header Value (supports string or JSON mapping)"
  else if mode_among mode ["pass_headers"]%string then js "Pass-through Headers (comma-separated or JSON array)"
  else if mode_among mode affix_modes then js "Prefix/Suffix Text"
  else if mode_among mode ["prune_objects"]%string then js "Prune Rule (string or JSON object)" else js "Value (supports JSON or plain text)".
Definition getModeValuePlaceholder (mode : str) : str :=
  if mode_among mode ["set_header"]%string then js "Bearer sk-xxx" else if mode_among mode ["pass_headers"]%string then js "Authorization, X-Request-Id"
  else if mode_among mode affix_modes then js "openai/" else if mode_among mode ["prune_objects"]%string then jsq "{'type':'redacted_thinking'}" else js "0.7".

(** ** Targets of a synchronisation *)

Record SyncTarget := mkTarget { st_type : str; st_key : str }.

Fixpoint index_of (c : N) (s : str) : option nat :=
  match s with [] => None | d :: r => if (d =? c)%N then Some 0%nat else S <$> index_of c r end.

Definition parseSyncTargetSpec (spec : str) : SyncTarget :=
  let raw := trim spec in
  if negb (truthy raw) then mkTarget (js "json") []
  else
    match index_of 58 raw with
    | None => mkTarget (js "json") raw
    | Some idx =>
        let prefix := ascii_lower (trim (take idx raw)) in
        let key := trim (drop (idx + 1) raw) in
        if str_eqb prefix (js "header") then mkTarget (js "header") key else mkTarget (js "json") key
    end.

Definition buildSyncTargetSpec (type key : str) : str :=
  let normalizedType := if str_eqb type (js "header") then js "header" else js "json" in
  let normalizedKey := trim key in
  if negb (truthy normalizedKey) then [] else normalizedType ++ js ":" ++ normalizedKey.

(** ** return_error *)

Record ReturnErrorDraft := mkReturnError {
  re_message : str; re_statusCode : num; re_code : str; re_type : str; re_skipRetry : bool; re_simpleMode : bool
}.

Definition valid_status (n : num) : bool :=
  match num_to_Z n with Some z => ((100 <=? z) && (z <=? 599))%Z | None => false end.

Definition parseReturnErrorDraft (valueText : str) : ReturnErrorDraft :=
  let plain raw := mkReturnError raw (n_of_Z 400) [] [] true true in
  let raw := trim valueText in
  if negb (truthy raw) then plain []
  else
    match JSON_parse raw with
    | Some (JObj parsed) =>
        let statusRaw := match map_get (js "status_code") parsed with Some v => Some v | None => map_get (js "status") parsed end in
        let statusValue := match statusRaw with Some v => to_Number v | None => n_nan end in
        let message := match map_get (js "message") parsed with
                       | Some v => if j_truthy v then to_String v else string_or (map_get (js "msg") parsed) []
                       | None => string_or (map_get (js "msg") parsed) []
                       end in
        mkReturnError (trim message) (if valid_status statusValue then statusValue else n_of_Z 400)
          (trim (string_or (map_get (js "code") parsed) [])) (trim (string_or (map_get (js "type") parsed) []))
          (match map_get (js "skip_retry") parsed with Some (JBool false) => false | _ => true end) false
    | _ => plain raw
    end.

(** [if (b) payload[k] = v], for a key that is not there yet. *)
Definition entry_if (b : bool) (k : str) (v : json) : entries := if b then [(k, v)] else [].
Definition text_entry (k : str) (v : str) : entries := entry_if (truthy v) k (JStr v).
Definition flag_entry (k : str) (b : bool) (v : bool) : entries := entry_if b k (JBool v).

Definition buildReturnErrorValueText (draft : ReturnErrorDraft) : str :=
  let message := trim (re_message draft) in
  if re_simpleMode draft then message
  else
    JSON_stringify (JObj ([(js "message", JStr message);
      (js "status_code", JNum (if valid_status (re_statusCode draft) then re_statusCode draft else n_of_Z 400))] ++
      text_entry (js "code") (trim (re_code draft)) ++ text_entry (js "type") (trim (re_type draft)) ++
      flag_entry (js "skip_retry") (negb (re_skipRetry draft)) false)).

(** ** prune_objects *)

(** A rule is normalized like a condition. *)
Definition normalizePruneRule : N -> json -> option (PruneRule * N) := normalizeOverrideCondition.

Record PruneObjectsDraft := mkPrune {
  pd_simpleMode : bool; pd_typeText : str; pd_logic : str; pd_recursive : bool; pd_rules : list PruneRule
}.

(** The rule for an entry of [where] or of an object [conditions]. *)
Definition entry_rule (seed : N) (e : str * json) : option (PruneRule * N) :=
  normalizePruneRule seed (JObj [(js "path", JStr (fst e)); (js "mode", JStr (js "full")); (js "value", snd e)]).

Definition is_object_or_array (v : json) : bool := match v with JArr _ | JObj _ => true | _ => false end.

Definition parsePruneObjectsDraft (seed : N) (valueText : str) : option (PruneObjectsDraft * N) :=
  let simple typeText := Some (mkPrune true typeText (js "AND") true [], seed) in
  let raw := trim valueText in
  if negb (truthy raw) then simple []
  else
    match JSON_parse raw with
    | None => simple raw
    | Some (JStr s) => simple (trim s)
    | Some (JObj parsed) =>
        '(rules1, seed) ← match map_get (js "where") parsed with
                          | Some (JObj l) => gen_map entry_rule seed l
                          | _ => Some ([], seed)
                          end;
        '(rules2, seed) ← match map_get (js "conditions") parsed with
                          | Some (JArr l) => gen_map normalizePruneRule seed (List.filter is_object_or_array l)
                          | Some (JObj l) => gen_map entry_rule seed l
                          | _ => Some ([], seed)
                          end;
        let has k := map_has (js k) parsed in
        Some (mkPrune (negb (has "logic"%string || has "recursive"%string || has "where"%string || has "conditions"%string))
                (match map_get (js "type") parsed with None => [] | Some v => trim (to_String v) end)
                (logic_of (js "AND") (js "OR") (map_get (js "logic") parsed))
                (match map_get (js "recursive") parsed with Some (JBool false) => false | _ => true end)
                (rules1 ++ rules2), seed)
    | Some JNull => simple []
    | Some v => simple (trim (to_String v))
    end.

Definition prune_condition (rule : PruneRule) : json :=
  let valueRaw := trim (c_value_text rule) in
  JObj ([(js "path", JStr (trim (c_path rule))); (js "mode", JStr (if set_has (c_mode rule) CONDITION_MODE_VALUES then c_mode rule else js "full"))] ++
        (if truthy valueRaw then [(js "value", parseLooseValue valueRaw)] else []) ++
        flag_entry (js "invert") (c_invert rule) true ++ flag_entry (js "pass_missing_key") (c_pass_missing_key rule) true).

Definition buildPruneObjectsValueText (draft : PruneObjectsDraft) : str :=
  let typeText := trim (pd_typeText draft) in
  if pd_simpleMode draft then typeText
  else
    let conditions := map prune_condition (List.filter (fun rule => truthy (trim (c_path rule))) (pd_rules draft)) in
    if negb (truthy typeText) && (length conditions =? 0)%nat then JSON_stringify (JObj [(js "logic", JStr (js "AND"))])
    else
      JSON_stringify (JObj (text_entry (js "type") typeText ++
        (if str_eqb (ascii_upper (str_or (pd_logic draft) (js "AND"))) (js "OR") then [(js "logic", JStr (js "OR"))] else []) ++
        flag_entry (js "recursive") (negb (pd_recursive draft)) false ++
        (if (0 <? length conditions)%nat then [(js "conditions", JArr conditions)] else []))).

(** ** pass_headers *)

(** [String(i ?? '')]. *)
Definition nullish_string (v : json) : str := match v with JNull => [] | _ => to_String v end.
Definition header_names (l : list str) : list str := List.filter truthy (map trim l).

Definition parsePassHeaderNames (rawValue : json) : list str :=
  match rawValue with
  | JArr l => header_names (map nullish_string l)
  | JObj obj =>
      match map_get (js "headers") obj with
      | Some (JArr l) => header_names (map nullish_string l)
      | _ => match map_get (js "header") obj with Some v => header_names [nullish_string v] | None => [] end
      end
  | JStr s => header_names (split_on 44 s)
  | _ => []
  end.

(** ** Writing *)

Definition buildConditionPayload (condition : ParamOverrideCondition) : option json :=
  let path := trim (c_path condition) in
  if negb (truthy path) then None
  else Some (JObj (entry_if true (js "path") (JStr path) ++
                   entry_if true (js "mode") (JStr (str_or (c_mode condition) (js "full"))) ++
                   entry_if true (js "value") (parseLooseValue (c_value_text condition)) ++
                   flag_entry (js "invert") (c_invert condition) true ++
                   flag_entry (js "pass_missing_key") (c_pass_missing_key condition) true)).

Section Translate.
(** [t(key, { line })]. *)
Variable t : str -> nat -> str.

Definition return_error_message_missing (raw : str) : bool :=
  match JSON_parse raw with
  | Some (JObj parsed) => negb (truthy (trim (string_or (map_get (js "message") parsed) [])))
  | _ => false
  end.

(** The complaint about one rule: the body of the loop. *)
Definition validate_operation (line : nat) (op : ParamOverrideOperation) : option str :=
  let mode := op_mode op in
  let meta := meta_of mode in
  let pathValue := trim (o_path op) in
  let fromValue := trim (o_from op) in
  let toValue := trim (o_to op) in
  let raw := trim (o_value_text op) in
  let alias := mm_pathAlias meta && truthy pathValue in
  if mm_path meta && negb (truthy pathValue) then Some (t (js "Rule {{line}} is missing target path") line)
  else if set_has mode FROM_REQUIRED_MODES && negb (truthy fromValue) && negb alias then Some (t (js "Rule {{line}} is missing source field") line)
  else if set_has mode TO_REQUIRED_MODES && negb (truthy toValue) && negb alias then Some (t (js "Rule {{line}} is missing target field") line)
  else if set_has mode VALUE_REQUIRED_MODES && negb (truthy raw) then Some (t (js "Rule {{line}} is missing value") line)
  else if str_eqb mode (js "return_error") && negb (truthy raw) then Some (t (js "Rule {{line}} is missing value") line)
  else if str_eqb mode (js "return_error") && return_error_message_missing raw then Some (t (js "Rule {{line}} return_error requires a message field") line)
  else if str_eqb mode (js "prune_objects") && negb (truthy raw) then Some (t (js "Rule {{line}} prune_objects is missing conditions") line)
  else if str_eqb mode (js "pass_headers") && negb (truthy raw) then Some (t (js "Rule {{line}} pass_headers is missing header names") line)
  else if str_eqb mode (js "pass_headers") && (length (parsePassHeaderNames (parseLooseValue raw)) =? 0)%nat
       then Some (t (js "Rule {{line}} pass_headers format is invalid") line)
  else None.

Fixpoint validate_from (line : nat) (operations : list ParamOverrideOperation) : str :=
  match operations with
  | [] => []
  | op :: rest => match validate_operation line op with Some message => message | None => validate_from (S line) rest end
  end.
Definition validateOperations (operations : list ParamOverrideOperation) : str := validate_from 1 operations.

(** The payload of a rule; [from] and [to] fall back to the path in the modes that have
    the alias. *)
Definition operation_payload (operation : ParamOverrideOperation) : json :=
  let mode := op_mode operation in
  let meta := meta_of mode in
  let pathValue := trim (o_path operation) in
  let fromValue := trim (o_from operation) in
  let toValue := trim (o_to operation) in
  let alias v := if mm_pathAlias meta && negb (truthy v) then pathValue else v in
  let conditions := omap buildConditionPayload (o_conditions operation) in
  let hasConditions := (0 <? length conditions)%nat in
  JObj (entry_if true (js "mode") (JStr mode) ++
    text_entry (js "description") (trim (o_description operation)) ++
    entry_if (mm_path meta || mm_pathOptional meta && truthy pathValue) (js "path") (JStr pathValue) ++
    entry_if (mm_value meta) (js "value") (parseLooseValue (o_value_text operation)) ++
    flag_entry (js "keep_origin") (mm_keepOrigin meta && o_keep_origin operation) true ++
    entry_if (mm_from meta) (js "from") (JStr (alias fromValue)) ++
    entry_if (mm_to meta || truthy toValue) (js "to") (JStr (alias toValue)) ++
    entry_if hasConditions (js "conditions") (JArr conditions) ++
    entry_if hasConditions (js "logic") (JStr (if str_eqb (o_logic operation) (js "AND") then js "AND" else js "OR"))).

(** The left side is the message of the thrown [Error]. *)
Definition buildOperationsJson (sourceOperations : list ParamOverrideOperation) (validate : bool) : str + str :=
  let filteredOps := List.filter (fun o => negb (isOperationBlank o)) sourceOperations in
  if (length filteredOps =? 0)%nat then inr []
  else
    let message := if validate then validateOperations filteredOps else [] in
    if truthy message then inl message
    else inr (JSON_pretty (JObj [(js "operations", JArr (map operation_payload filteredOps))])).
End Translate.

(** ** Reading *)

Inductive EditMode := EditVisual | EditJson.
Inductive VisualMode := ModeOperations | ModeLegacy.
#[global] Instance EditMode_eq_dec : EqDecision EditMode.
Proof. solve_decision. Defined.
#[global] Instance VisualMode_eq_dec : EqDecision VisualMode.
Proof. solve_decision. Defined.

Record EditorState := mkEditorState {
  es_editMode : EditMode; es_visualMode : VisualMode; es_legacyValue : str; es_operations : list ParamOverrideOperation;
  es_jsonText : str; es_jsonError : str
}.

(** The rules of an array, a default rule when it is empty. *)
Definition read_operations (seed : N) (l : list json) : option (list ParamOverrideOperation * N) :=
  match l with
  | [] => let '(op, seed) := createDefaultOperation seed in Some ([op], seed)
  | _ => gen_map normalizeOperation seed l
  end.

Definition parseInitialState (seed : N) (rawValue : str) : option (EditorState * N) :=
  let trimmed := trim rawValue in
  let '(fallback, next) := createDefaultOperation seed in
  if negb (truthy trimmed) then Some (mkEditorState EditVisual ModeOperations [] [fallback] [] [], next)
  else
    match JSON_parse trimmed with
    | None => Some (mkEditorState EditJson ModeOperations [] [fallback] rawValue (js "Invalid JSON format"), next)
    | Some parsed =>
        let pretty := JSON_pretty parsed in
        match parsed with
        | JObj l =>
            match map_get (js "operations") l with
            | Some (JArr ops) =>
                '(operations, seed) ← read_operations seed ops;
                Some (mkEditorState EditVisual ModeOperations [] operations pretty [], seed)
            | _ => Some (mkEditorState EditVisual ModeLegacy pretty [fallback] pretty [], next)
            end
        | _ => Some (mkEditorState EditJson ModeOperations [] [fallback] pretty [], next)
        end
    end.
End Ids.

(** ** Templates *)

Definition jnum (s : String.string) : json := JNum (lit s).
Arguments jnum s%_string.
Definition jstr (s : String.string) : json := JStr (js s).
Arguments jstr s%_string.
Definition operations_of (ops : list json) : json := JObj [(js "operations", JArr ops)].
Definition condition_json (path mode value : String.string) : json :=
  JObj [(js "path", jstr path); (js "mode", jstr mode); (js "value", jstr value)].
Arguments condition_json (path mode value)%_string.

Definition LEGACY_TEMPLATE : json := JObj [(js "temperature", jnum "0"); (js "max_tokens", jnum "1000")].

Definition OPERATION_TEMPLATE : json := operations_of
  [JObj [(js "description", jstr "Set default temperature for openai/* models."); (js "path", jstr "temperature");
         (js "mode", jstr "set"); (js "value", jnum "0.7"); (js "conditions", JArr [condition_json "model" "prefix" "openai/"]);
         (js "logic", jstr "AND")]].

Definition HEADER_PASSTHROUGH_TEMPLATE : json := operations_of
  [JObj [(js "description", jstr "Pass through X-Request-Id header to upstream."); (js "mode", jstr "pass_headers");
         (js "value", JArr [jstr "X-Request-Id"]); (js "keep_origin", JBool true)]].

Definition GEMINI_IMAGE_4K_TEMPLATE : json := operations_of
  [JObj [(js "description", jstr "Set imageSize to 4K when model contains gemini/image and ends with 4k."); (js "mode", jstr "set");
         (js "path", jstr "generationConfig.imageConfig.imageSize"); (js "value", jstr "4K");
         (js "conditions", JArr [condition_json "original_model" "contains" "gemini"; condition_json "original_model" "contains" "image";
                                 condition_json "original_model" "suffix" "4k"]); (js "logic", jstr "AND")]].

Definition CODEX_CLI_HEADER_PASSTHROUGH_HEADERS : list str :=
  [js "Originator"; js "Session_id"; js "User-Agent"; js "X-Codex-Beta-Features"; js "X-Codex-Turn-Metadata"].
Definition CLAUDE_CLI_HEADER_PASSTHROUGH_HEADERS : list str :=
  [js "X-Stainless-Arch"; js "X-Stainless-Lang"; js "X-Stainless-Os"; js "X-Stainless-Package-Version"; js "X-Stainless-Retry-Count";
   js "X-Stainless-Runtime"; js "X-Stainless-Runtime-Version"; js "X-Stainless-Timeout"; js "User-Agent"; js "X-App";
   js "Anthropic-Beta"; js "Anthropic-Dangerous-Direct-Browser-Access"; js "Anthropic-Version"].
Definition buildPassHeadersTemplate (headers : list str) : json := operations_of
  [JObj [(js "mode", jstr "pass_headers"); (js "value", JArr (map JStr headers)); (js "keep_origin", JBool true)]].

(** A token of the header that is dropped ([null]) or renamed. *)
Definition token (k : String.string) (v : option String.string) : str * json :=
  (js k, match v with Some s => jstr s | None => JNull end).
Arguments token k%_string v.
Definition kept_token (k : String.string) : str * json := token k (Some k).
Arguments kept_token k%_string.
Definition AWS_BEDROCK_ANTHROPIC_COMPAT_TEMPLATE : json := operations_of
  [JObj [(js "description", jstr "Normalize anthropic-beta header tokens for Bedrock compatibility."); (js "mode", jstr "set_header");
         (js "path", jstr "anthropic-beta");
         (js "value", JObj
           [token "advanced-tool-use-2025-11-20" (Some "tool-search-tool-2025-10-19"%string); token "bash_20241022" None;
            token "bash_20250124" None; token "code-execution-2025-08-25" None; kept_token "compact-2026-01-12";
            kept_token "computer-use-2025-01-24"; kept_token "computer-use-2025-11-24"; kept_token "context-1m-2025-08-07";
            kept_token "context-management-2025-06-27"; token "effort-2025-11-24" None; token "fast-mode-2026-02-01" None;
            token "files-api-2025-04-14" None; token "fine-grained-tool-streaming-2025-05-14" None;
            kept_token "interleaved-thinking-2025-05-14"; token "mcp-client-2025-11-20" None; token "mcp-client-2025-04-04" None;
            token "mcp-servers-2025-12-04" None; token "output-128k-2025-02-19" None; token "structured-output-2024-03-01" None;
            token "prompt-caching-scope-2026-01-05" None; token "skills-2025-10-02" None; token "structured-outputs-2025-11-13" None;
            token "text_editor_20241022" None; token "text_editor_20250124" None; token "token-efficient-tools-2025-02-19" None;
            kept_token "tool-search-tool-2025-10-19"; token "web-fetch-2025-09-10" None; token "web-search-2025-03-05" None;
            token "oauth-2025-04-20" None])];
   JObj [(js "description", jstr "Remove all tools[*].custom.input_examples before upstream relay."); (js "mode", jstr "delete");
         (js "path", jstr "tools.*.custom.input_examples")]].

Inductive TemplateKind := KindOperations | KindLegacy.
Definition TEMPLATE_PRESET_CONFIG : list (str * (TemplateKind * json)) :=
  [(js "operations_default", (KindOperations, OPERATION_TEMPLATE)); (js "legacy_default", (KindLegacy, LEGACY_TEMPLATE));
   (js "pass_headers_auth", (KindOperations, HEADER_PASSTHROUGH_TEMPLATE)); (js "gemini_image_4k", (KindOperations, GEMINI_IMAGE_4K_TEMPLATE));
   (js "claude_cli_headers_passthrough", (KindOperations, buildPassHeadersTemplate CLAUDE_CLI_HEADER_PASSTHROUGH_HEADERS));
   (js "codex_cli_headers_passthrough", (KindOperations, buildPassHeadersTemplate CODEX_CLI_HEADER_PASSTHROUGH_HEADERS));
   (js "aws_bedrock_anthropic_beta_override", (KindOperations, AWS_BEDROCK_ANTHROPIC_COMPAT_TEMPLATE))].

(** ** The dialog *)

Record Dialog := mkDialog {
  editMode : EditMode; visualMode : VisualMode; legacyValue : str; operations : list ParamOverrideOperation;
  jsonText : str; jsonError : str; selectedOperationId : str; expandedConditions : list (str * bool);
  draggedOperationId : str; dragOverOperationId : str; dragOverPosition : DropPosition; templatePresetKey : str;
  idSeed : N
}.

Definition set_ops (d : Dialog) (ops : list ParamOverrideOperation) (seed : N) : Dialog :=
  mkDialog (editMode d) (visualMode d) (legacyValue d) ops (jsonText d) (jsonError d) (selectedOperationId d) (expandedConditions d)
    (draggedOperationId d) (dragOverOperationId d) (dragOverPosition d) (templatePresetKey d) seed.
Definition set_selected (d : Dialog) (id : str) : Dialog :=
  mkDialog (editMode d) (visualMode d) (legacyValue d) (operations d) (jsonText d) (jsonError d) id (expandedConditions d)
    (draggedOperationId d) (dragOverOperationId d) (dragOverPosition d) (templatePresetKey d) (idSeed d).
Definition set_expanded (d : Dialog) (e : list (str * bool)) : Dialog :=
  mkDialog (editMode d) (visualMode d) (legacyValue d) (operations d) (jsonText d) (jsonError d) (selectedOperationId d) e
    (draggedOperationId d) (dragOverOperationId d) (dragOverPosition d) (templatePresetKey d) (idSeed d).
Definition set_drag (d : Dialog) (dragged over : str) (position : DropPosition) : Dialog :=
  mkDialog (editMode d) (visualMode d) (legacyValue d) (operations d) (jsonText d) (jsonError d) (selectedOperationId d) (expandedConditions d)
    dragged over position (templatePresetKey d) (idSeed d).
Definition set_json (d : Dialog) (text error : str) : Dialog :=
  mkDialog (editMode d) (visualMode d) (legacyValue d) (operations d) text error (selectedOperationId d) (expandedConditions d)
    (draggedOperationId d) (dragOverOperationId d) (dragOverPosition d) (templatePresetKey d) (idSeed d).
Definition set_edit (d : Dialog) (mode : EditMode) (visual : VisualMode) (legacy : str) : Dialog :=
  mkDialog mode visual legacy (operations d) (jsonText d) (jsonError d) (selectedOperationId d) (expandedConditions d)
    (draggedOperationId d) (dragOverOperationId d) (dragOverPosition d) (templatePresetKey d) (idSeed d).
Definition set_preset (d : Dialog) (key : str) : Dialog :=
  mkDialog (editMode d) (visualMode d) (legacyValue d) (operations d) (jsonText d) (jsonError d) (selectedOperationId d) (expandedConditions d)
    (draggedOperationId d) (dragOverOperationId d) (dragOverPosition d) key (idSeed d).

Definition first_id (ops : list ParamOverrideOperation) : str := match ops with o :: _ => o_id o | [] => [] end.

(** The effect that keeps the selection valid, after every change. *)
Definition keep_selection (d : Dialog) : Dialog :=
  match operations d with
  | [] => set_selected d []
  | ops => if existsb (fun o => str_eqb (o_id o) (selectedOperationId d)) ops then d else set_selected d (first_id ops)
  end.

(** A change of the fields of a rule; the identifier is not among them. *)
Inductive OperationPatch :=
| PatchDescription (v : str) | PatchPath (v : str) | PatchMode (v : str) | PatchFrom (v : str) | PatchTo (v : str)
| PatchValue (v : str) | PatchKeepOrigin (v : bool) | PatchLogic (v : str).
Definition patch_operation (o : ParamOverrideOperation) (p : OperationPatch) : ParamOverrideOperation :=
  match p with
  | PatchDescription v => mkOp (o_id o) v (o_path o) (o_mode o) (o_from o) (o_to o) (o_value_text o) (o_keep_origin o) (o_logic o) (o_conditions o)
  | PatchPath v => mkOp (o_id o) (o_description o) v (o_mode o) (o_from o) (o_to o) (o_value_text o) (o_keep_origin o) (o_logic o) (o_conditions o)
  | PatchMode v => mkOp (o_id o) (o_description o) (o_path o) v (o_from o) (o_to o) (o_value_text o) (o_keep_origin o) (o_logic o) (o_conditions o)
  | PatchFrom v => mkOp (o_id o) (o_description o) (o_path o) (o_mode o) v (o_to o) (o_value_text o) (o_keep_origin o) (o_logic o) (o_conditions o)
  | PatchTo v => mkOp (o_id o) (o_description o) (o_path o) (o_mode o) (o_from o) v (o_value_text o) (o_keep_origin o) (o_logic o) (o_conditions o)
  | PatchValue v => mkOp (o_id o) (o_description o) (o_path o) (o_mode o) (o_from o) (o_to o) v (o_keep_origin o) (o_logic o) (o_conditions o)
  | PatchKeepOrigin v => mkOp (o_id o) (o_description o) (o_path o) (o_mode o) (o_from o) (o_to o) (o_value_text o) v (o_logic o) (o_conditions o)
  | PatchLogic v => mkOp (o_id o) (o_description o) (o_path o) (o_mode o) (o_from o) (o_to o) (o_value_text o) (o_keep_origin o) v (o_conditions o)
  end.
Definition with_conditions (o : ParamOverrideOperation) (cs : list ParamOverrideCondition) : ParamOverrideOperation :=
  mkOp (o_id o) (o_description o) (o_path o) (o_mode o) (o_from o) (o_to o) (o_value_text o) (o_keep_origin o) (o_logic o) cs.

Inductive ConditionPatch :=
| PatchCondPath (v : str) | PatchCondMode (v : str) | PatchCondValue (v : str) | PatchInvert (v : bool) | PatchPassMissing (v : bool).
Definition patch_condition (c : ParamOverrideCondition) (p : ConditionPatch) : ParamOverrideCondition :=
  match p with
  | PatchCondPath v => mkCond (c_id c) v (c_mode c) (c_value_text c) (c_invert c) (c_pass_missing_key c)
  | PatchCondMode v => mkCond (c_id c) (c_path c) v (c_value_text c) (c_invert c) (c_pass_missing_key c)
  | PatchCondValue v => mkCond (c_id c) (c_path c) (c_mode c) v (c_invert c) (c_pass_missing_key c)
  | PatchInvert v => mkCond (c_id c) (c_path c) (c_mode c) (c_value_text c) v (c_pass_missing_key c)
  | PatchPassMissing v => mkCond (c_id c) (c_path c) (c_mode c) (c_value_text c) (c_invert c) v
  end.

(** [prev.map(o => o.id === id ? f(o) : o)]. *)
Definition update_at (id : str) (f : ParamOverrideOperation -> ParamOverrideOperation) (ops : list ParamOverrideOperation) :
  list ParamOverrideOperation := map (fun o => if str_eqb (o_id o) id then f o else o) ops.

Definition updateOperation (operationId : str) (patch : OperationPatch) (d : Dialog) : Dialog :=
  set_ops d (update_at operationId (fun o => patch_operation o patch) (operations d)) (idSeed d).

Definition updateCondition (operationId conditionId : str) (patch : ConditionPatch) (d : Dialog) : Dialog :=
  set_ops d (update_at operationId (fun o => with_conditions o
    (map (fun c => if str_eqb (c_id c) conditionId then patch_condition c patch else c) (o_conditions o))) (operations d)) (idSeed d).

Definition removeCondition (operationId conditionId : str) (d : Dialog) : Dialog :=
  set_ops d (update_at operationId (fun o => with_conditions o
    (List.filter (fun c => negb (str_eqb (c_id c) conditionId)) (o_conditions o))) (operations d)) (idSeed d).

Definition updateReturnErrorDraft (operationId : str) (change : ReturnErrorDraft -> ReturnErrorDraft) (d : Dialog) : Dialog :=
  set_ops d (update_at operationId (fun o => patch_operation o
    (PatchValue (buildReturnErrorValueText (change (parseReturnErrorDraft (o_value_text o)))))) (operations d)) (idSeed d).

Definition resetDragState (d : Dialog) : Dialog := set_drag d [] [] Before.

Definition handleDragStart (operationId : str) (d : Dialog) : Dialog :=
  set_selected (set_drag d operationId (dragOverOperationId d) (dragOverPosition d)) operationId.

(** The position is read off the pointer. *)
Definition handleDragOver (operationId : str) (position : DropPosition) (d : Dialog) : Dialog :=
  if negb (truthy (draggedOperationId d)) || str_eqb (draggedOperationId d) operationId then d
  else set_drag d (draggedOperationId d) operationId position.

Definition handleDrop (operationId transferred : str) (d : Dialog) : Dialog :=
  let sourceId := str_or (draggedOperationId d) transferred in
  let position := if str_eqb (dragOverOperationId d) operationId then dragOverPosition d else Before in
  let d := if truthy sourceId && truthy operationId && negb (str_eqb sourceId operationId)
           then set_selected (set_ops d (reorderOperations (operations d) sourceId operationId position) (idSeed d)) sourceId
           else d in
  resetDragState d.

Definition selected_operation (d : Dialog) : option ParamOverrideOperation :=
  snd <$> list_find (fun o => o_id o = selectedOperationId d) (operations d).
Definition operationCount (d : Dialog) : nat := length (List.filter (fun o => negb (isOperationBlank o)) (operations d)).
(** -1 is [None]. *)
Definition selectedOperationIndex (d : Dialog) : option nat := find_index (selectedOperationId d) (operations d).
Definition returnErrorDraft (d : Dialog) : option ReturnErrorDraft :=
  op ← selected_operation d;
  if str_eqb (o_mode op) (js "return_error") then Some (parseReturnErrorDraft (o_value_text op)) else None.
(** The most frequent modes with their counts. *)
Definition topOperationModes (d : Dialog) : list (str * Z) :=
  let counts := foldl (fun counts op => let mode := op_mode op in obj_set mode (default 0 (map_get mode counts) + 1)%Z counts) [] (operations d) in
  take 4 (sort_by (fun a b => snd b - snd a)%Z counts).

Definition expand_all (v : bool) (d : Dialog) : Dialog :=
  match selected_operation d with
  | None => d
  | Some op => set_expanded d (foldl (fun m c => map_set (c_id c) v m) (expandedConditions d) (o_conditions op))
  end.

Definition handleJsonChange (error_text nextValue : str) (d : Dialog) : Dialog :=
  let trimmed := trim nextValue in
  set_json d nextValue (if negb (truthy trimmed) then [] else if verifyJSON trimmed then [] else error_text).

Definition formatJson (d : Dialog) : Dialog :=
  let trimmed := trim (jsonText d) in
  if negb (truthy trimmed) then d
  else match JSON_parse trimmed with None => d | Some v => set_json d (JSON_pretty v) [] end.

Section Handlers.
Variable now : N -> N.
Variable t : str -> str.
Variable t_line : str -> nat -> str.

(** What opening the dialog with a text does; [None] when reading it throws. *)
Definition open_dialog (value : str) (seed : N) : option Dialog :=
  '(s, next) ← parseInitialState now seed value;
  Some (mkDialog (es_editMode s) (es_visualMode s) (es_legacyValue s) (es_operations s) (es_jsonText s) (es_jsonError s)
          (first_id (es_operations s)) [] [] [] Before
          (if bool_decide (es_visualMode s = ModeLegacy) then js "legacy_default" else js "operations_default") next).

Definition addOperation (d : Dialog) : Dialog :=
  let '(created, seed) := createDefaultOperation now (idSeed d) in
  set_selected (set_ops d (operations d ++ [created]) seed) (o_id created).

Definition clone_json (source : ParamOverrideOperation) : json :=
  JObj [(js "description", JStr (o_description source)); (js "path", JStr (o_path source)); (js "mode", JStr (o_mode source));
        (js "value", parseLooseValue (o_value_text source)); (js "keep_origin", JBool (o_keep_origin source));
        (js "from", JStr (o_from source)); (js "to", JStr (o_to source)); (js "logic", JStr (o_logic source));
        (js "conditions", JArr (map (fun c => JObj [(js "path", JStr (c_path c)); (js "mode", JStr (c_mode c));
           (js "value", parseLooseValue (c_value_text c)); (js "invert", JBool (c_invert c));
           (js "pass_missing_key", JBool (c_pass_missing_key c))]) (o_conditions source)))].

Definition duplicateOperation (operationId : str) (d : Dialog) : Dialog :=
  match find_index operationId (operations d) with
  | None => d
  | Some idx =>
      match operations d !! idx with
      | None => d
      | Some source =>
          match normalizeOperation now (idSeed d) (clone_json source) with
          | None => d
          | Some (cloned, seed) =>
              set_selected (set_ops d (take (S idx) (operations d) ++ cloned :: drop (S idx) (operations d)) seed) (o_id cloned)
          end
      end
  end.

Definition removeOperation (operationId : str) (d : Dialog) : Dialog :=
  if (length (operations d) <=? 1)%nat
  then let '(created, seed) := createDefaultOperation now (idSeed d) in set_ops d [created] seed
  else set_ops d (List.filter (fun o => negb (str_eqb (o_id o) operationId)) (operations d)) (idSeed d).

Definition addCondition (operationId : str) (d : Dialog) : Dialog :=
  let '(created, seed) := createDefaultCondition now (idSeed d) in
  let d := set_ops d (update_at operationId (fun o => with_conditions o (o_conditions o ++ [created])) (operations d)) seed in
  set_expanded d (map_set (c_id created) true (expandedConditions d)).

(** The updater gets the draft that the text of the rule denotes, read at that moment. *)
Definition prune_step (operationId : str) (updater : N -> PruneObjectsDraft -> PruneObjectsDraft * N) (seed : N)
  (op : ParamOverrideOperation) : option (ParamOverrideOperation * N) :=
  if negb (str_eqb (o_id op) operationId) then Some (op, seed)
  else
    '(draft, seed) ← parsePruneObjectsDraft now seed (o_value_text op);
    let '(nextDraft, seed) := updater seed draft in
    Some (patch_operation op (PatchValue (buildPruneObjectsValueText nextDraft)), seed).

Definition updatePruneObjectsDraft (operationId : str) (updater : N -> PruneObjectsDraft -> PruneObjectsDraft * N) (d : Dialog) : Dialog :=
  match gen_map (prune_step operationId updater) (idSeed d) (operations d) with
  | Some (ops, seed) => set_ops d ops seed
  | None => d
  end.

Definition with_rules (draft : PruneObjectsDraft) (simple : bool) (rules : list PruneRule) : PruneObjectsDraft :=
  mkPrune simple (pd_typeText draft) (pd_logic draft) (pd_recursive draft) rules.

Definition addPruneRule (operationId : str) (d : Dialog) : Dialog :=
  updatePruneObjectsDraft operationId (fun seed draft =>
    (with_rules draft false (pd_rules draft ++ [condition_of now seed []]), N.succ seed)) d.

Definition updatePruneRule (operationId ruleId : str) (patch : ConditionPatch) (d : Dialog) : Dialog :=
  updatePruneObjectsDraft operationId (fun seed draft =>
    (with_rules draft (pd_simpleMode draft) (map (fun r => if str_eqb (c_id r) ruleId then patch_condition r patch else r) (pd_rules draft)), seed)) d.

Definition removePruneRule (operationId ruleId : str) (d : Dialog) : Dialog :=
  updatePruneObjectsDraft operationId (fun seed draft =>
    (with_rules draft (pd_simpleMode draft) (List.filter (fun r => negb (str_eqb (c_id r) ruleId)) (pd_rules draft)), seed)) d.

(** The draft that the panel shows for the selected rule. *)
Definition pruneObjectsDraft (d : Dialog) : option (PruneObjectsDraft * N) :=
  op ← selected_operation d;
  if str_eqb (o_mode op) (js "prune_objects") then parsePruneObjectsDraft now (idSeed d) (o_value_text op) else None.

(** ** Changing the editor, templates and saving *)

Definition INVALID_JSON : str := js "Parameter override must be valid JSON format".

Definition buildVisualJson (d : Dialog) : str + str :=
  match visualMode d with
  | ModeLegacy =>
      let trimmed := trim (legacyValue d) in
      if negb (truthy trimmed) then inr []
      else match JSON_parse trimmed with
           | None => inl (t INVALID_JSON)
           | Some (JObj l) => inr (JSON_pretty (JObj l))
           | Some _ => inl (t (js "Legacy format must be a JSON object"))
           end
  | ModeOperations => buildOperationsJson t_line (operations d) true
  end.

Definition switchToJsonMode (d : Dialog) : Dialog :=
  if bool_decide (editMode d = EditJson) then d
  else
    let d' := match buildVisualJson d with
              | inr text => set_json d text []
              | inl message =>
                  let text := match visualMode d with
                              | ModeLegacy => legacyValue d
                              | ModeOperations => match buildOperationsJson t_line (operations d) false with inr s => s | inl _ => [] end
                              end in
                  set_json d text (str_or message (t (js "Parameter configuration error")))
              end in
    set_edit d' EditJson (visualMode d') (legacyValue d').

Definition switchToVisualMode (d : Dialog) : Dialog :=
  if bool_decide (editMode d = EditVisual) then d
  else
    let trimmed := trim (jsonText d) in
    let '(fallback, next) := createDefaultOperation now (idSeed d) in
    let show visual legacy ops seed := set_selected (set_ops (set_edit (set_json d (jsonText d) []) EditVisual visual legacy) ops seed) (first_id ops) in
    if negb (truthy trimmed) then show ModeOperations [] [fallback] next
    else
      match JSON_parse trimmed with
      | Some (JObj l) =>
          match map_get (js "operations") l with
          | Some (JArr ops) =>
              match read_operations now (idSeed d) ops with
              | Some (nextOps, seed) => set_preset (show ModeOperations [] nextOps seed) (js "operations_default")
              | None => d
              end
          | _ => set_preset (show ModeLegacy (JSON_pretty (JObj l)) [fallback] next) (js "legacy_default")
          end
      | _ => d
      end.

(** The entries that spreading a value gives. *)
Definition indexed (l : list json) : entries := imap (fun i v => (show_N (N.of_nat i), v)) l.
Definition spread (v : json) : entries :=
  match v with JObj l => l | JArr l => indexed l | JStr s => indexed (map (fun c => JStr [c]) s) | _ => [] end.

Inductive FillMode := FillReplace | FillAppend.

Definition preset_of (d : Dialog) : TemplateKind * json :=
  default (KindOperations, OPERATION_TEMPLATE) (map_get (templatePresetKey d) TEMPLATE_PRESET_CONFIG).
Definition preset_operations (payload : json) : list json :=
  match map_get (js "operations") (spread payload) with Some (JArr l) => l | _ => [] end.

Definition fillTemplate (mode : FillMode) (d : Dialog) : Dialog :=
  let '(kind, payload) := preset_of d in
  let '(fallback, next) := createDefaultOperation now (idSeed d) in
  let legacy text := set_ops (set_json (set_edit d EditVisual ModeLegacy text) text []) [fallback] next in
  match kind with
  | KindLegacy =>
      match mode, visualMode d with
      | FillAppend, ModeLegacy =>
          let trimmed := trim (legacyValue d) in
          if negb (truthy trimmed) then legacy (JSON_pretty (JObj (spread payload)))
          else match JSON_parse trimmed with
               | None => d
               | Some parsedCurrent => legacy (JSON_pretty (JObj (obj_of (spread payload ++ spread parsedCurrent))))
               end
      | _, _ => legacy (JSON_pretty payload)
      end
  | KindOperations =>
      let operationsPayload := preset_operations payload in
      match gen_map (normalizeOperation now) (idSeed d) operationsPayload with
      | None => d
      | Some (fresh, seed) =>
          match mode with
          | FillAppend =>
              let existing := match visualMode d with ModeOperations => List.filter (fun o => negb (isOperationBlank o)) (operations d) | ModeLegacy => [] end in
              let nextOps := existing ++ fresh in
              set_selected (set_ops (set_json (set_edit d EditVisual ModeOperations []) [] []) nextOps seed) (first_id nextOps)
          | FillReplace =>
              let '(finalOps, seed) := match fresh with [] => ([fallback], next) | _ => (fresh, seed) end in
              set_selected (set_ops (set_json (set_edit d EditVisual ModeOperations (legacyValue d))
                (JSON_pretty (JObj [(js "operations", JArr operationsPayload)])) []) finalOps seed) (first_id finalOps)
          end
      end
  end.

Definition setTemplatePresetKey (key : str) (d : Dialog) : Dialog := set_preset d key.
Definition setLegacyValue (value : str) (d : Dialog) : Dialog := set_edit d (editMode d) (visualMode d) value.

Definition resetEditorState (d : Dialog) : Dialog :=
  let '(fallback, next) := createDefaultOperation now (idSeed d) in
  set_preset (set_selected (set_ops (set_json (set_edit d EditVisual ModeOperations []) [] []) [fallback] next) (o_id fallback)) (js "operations_default").

Definition visualValidationError (d : Dialog) : str :=
  if negb (bool_decide (editMode d = EditVisual)) then []
  else match buildVisualJson d with inr _ => [] | inl message => str_or message (t (js "Parameter configuration error")) end.

(** The saved text, or the message that is shown instead. *)
Definition handleSave (d : Dialog) : str + str :=
  match editMode d with
  | EditJson =>
      let trimmed := trim (jsonText d) in
      if negb (truthy trimmed) then inr []
      else match JSON_parse trimmed with Some v => inr (JSON_pretty v) | None => inl (t INVALID_JSON) end
  | EditVisual => buildVisualJson d
  end.

(** ** Steps *)

(** A handler, followed by the effect on the selection. *)
Inductive dialog_event (d : Dialog) : Dialog -> Prop :=
| ev_update id p : dialog_event d (updateOperation id p d)
| ev_add : dialog_event d (addOperation d)
| ev_duplicate id : dialog_event d (duplicateOperation id d)
| ev_remove id : dialog_event d (removeOperation id d)
| ev_add_condition id : dialog_event d (addCondition id d)
| ev_update_condition id c p : dialog_event d (updateCondition id c p d)
| ev_remove_condition id c : dialog_event d (removeCondition id c d)
| ev_return_error id f : dialog_event d (updateReturnErrorDraft id f d)
| ev_prune id f : (forall n x, n <= snd (f n x))%N -> dialog_event d (updatePruneObjectsDraft id f d)
| ev_drag_start id : dialog_event d (handleDragStart id d)
| ev_drag_over id p : dialog_event d (handleDragOver id p d)
| ev_drop id s : dialog_event d (handleDrop id s d)
| ev_json_mode : dialog_event d (switchToJsonMode d)
| ev_visual_mode : dialog_event d (switchToVisualMode d)
| ev_fill m : dialog_event d (fillTemplate m d)
| ev_reset : dialog_event d (resetEditorState d)
| ev_json_change e v : dialog_event d (handleJsonChange e v d)
| ev_format : dialog_event d (formatJson d)
| ev_expand v : dialog_event d (expand_all v d)
| ev_preset k : dialog_event d (setTemplatePresetKey k d)
| ev_legacy v : dialog_event d (setLegacyValue v d)
(** Identifiers that are taken while the panel of [prune_objects] is drawn. *)
| ev_draw n : (idSeed d <= n)%N -> dialog_event d (set_ops d (operations d) n).

Inductive dialog_step (d : Dialog) : Dialog -> Prop :=
| step_event d' : dialog_event d d' -> dialog_step d (keep_selection d').
End Handlers.
