(* ===== verification/ParamRoundtrip.v ===== *)
(** * The parameter override editor: saving and reading back

    The rules that the editor writes are read back as rules that are written the same,
    except where a value is a quoted text that is itself JSON. *)
From S2P Require Import Prelude Number Regex Json JsonPretty JsonObject ParamOverride.

(** ** Objects made of conditional entries *)

Lemma map_get_entry_if k k' b v : map_get (js k) (entry_if b (js k') v) = if str_eqb (js k) (js k') then (if b then Some v else None) else None.
Proof. unfold entry_if, str_eqb. destruct b; cbn; by repeat case_decide; repeat case_bool_decide. Qed.

Lemma map_get_text k k' v : map_get (js k) (text_entry (js k') v) = if str_eqb (js k) (js k') then (if truthy v then Some (JStr v) else None) else None.
Proof. apply map_get_entry_if. Qed.

Lemma map_get_flag k k' b v : map_get (js k) (flag_entry (js k') b v) = if str_eqb (js k) (js k') then (if b then Some (JBool v) else None) else None.
Proof. apply map_get_entry_if. Qed.

(** The property of an object written by the editor. *)
Ltac find_key := rewrite ?map_get_app, ?map_get_text, ?map_get_flag, ?map_get_entry_if; literal_keys; rewrite ?some_or_none.

Lemma entry_if_keys b k v : (entry_if b k v).*1 `sublist_of` [k].
Proof. destruct b; [done | apply sublist_nil_l]. Qed.

(** Distinct keys that are no array indices, some of them left out. *)
Lemma obj_wf_keys (ks : list str) (l : entries) :
  l.*1 `sublist_of` ks -> NoDup ks -> Forall (fun k => is_index k = false) ks -> obj_wf l.
Proof.
  intros Hs Hn Hi. split; [by eapply sublist_NoDup |]. apply (order_keys_shape []); [constructor | constructor |].
  apply Forall_forall. intros e He. rewrite Forall_forall in Hi. apply Hi. eapply elem_of_submseteq; [| apply sublist_submseteq, Hs].
  by apply list_elem_of_fmap_2.
Qed.

Lemma entry_if_ok b k v : (b = true -> json_ok v) -> Forall (fun e => json_ok (snd e)) (entry_if b k v).
Proof. destruct b; cbn; [intros H; repeat constructor; by apply H | constructor]. Qed.

Lemma text_entry_ok k v : Forall (fun e => json_ok (snd e)) (text_entry k v).
Proof. by apply entry_if_ok. Qed.

Lemma flag_entry_ok k b v : Forall (fun e => json_ok (snd e)) (flag_entry k b v).
Proof. by apply entry_if_ok. Qed.

(** The two halves of [json_ok] for an object made of entries. *)
Ltac entries_ok := repeat (apply Forall_app; split); first [apply text_entry_ok | apply flag_entry_ok | apply entry_if_ok; try done].
Ltac entries_keys := rewrite !fmap_app; repeat apply (sublist_app _ [_]); apply entry_if_keys.

(** ** Values *)

(** A text whose value is read back as the same value: not a quoted text that is empty,
    has white space at its ends or is itself JSON. *)
Definition value_kept (text : str) : Prop :=
  match JSON_parse (trim text) with
  | None => True
  | Some (JStr s) => s <> [] /\ trim s = s /\ JSON_parse s = None
  | Some v => json_ok v
  end.

Lemma numchar_not_space c : is_numchar c = true -> is_space c = false.
Proof.
  unfold is_numchar, one_of. intros [H | H]%orb_true_iff.
  - unfold is_digit in H. unfold is_space. apply andb_prop in H as [H1%N.leb_le H2%N.leb_le].
    apply not_true_iff_false. rewrite !orb_true_iff, !andb_true_iff, !N.leb_le, !N.eqb_eq. lia.
  - change (js "+-.eE") with [43; 45; 46; 101; 69]%N in H. rewrite set_has_spec, !elem_of_cons, elem_of_nil in H. destruct_or! H; subst; done.
Qed.

Lemma stringify_trimmed v : json_ok v -> (forall s, v <> JStr s) -> trimmed (JSON_stringify v) /\ JSON_stringify v <> [].
Proof.
  assert (forall a m b, is_space a = false -> is_space b = false -> trimmed (a :: m ++ [b]) /\ a :: m ++ [b] <> []) as Hends.
  { intros a m b Ha Hb. split; [| done]. split; [done |]. by rewrite app_comm_cons, last_snoc. }
  destruct v as [|[]|n|s|l|l]; intros Hok Hs; [done | done | done | | by destruct (Hs s) | by apply (Hends 91%N _ 93%N) | by apply (Hends 123%N _ 125%N)].
  cbn [JSON_stringify json_ok] in *. unfold num_ok in Hok. destruct (isFinite n); [| done]. apply andb_prop in Hok as [[_ Ht]%andb_prop _].
  split; [| by destruct (num_to_str n)]. pose proof (json_number_chars _ Ht) as Hc.
  rewrite <- (trim_no_space (num_to_str n)); [apply trim_trimmed |]. eapply Forall_impl; [exact Hc |]. exact numchar_not_space.
Qed.

Lemma loose_none text : JSON_parse (trim text) = None -> parseLooseValue text = JStr (trim text).
Proof. intros E. unfold parseLooseValue. destruct (truthy (trim text)) eqn:Et; cbn; [by rewrite E | by apply truthy_false in Et as ->]. Qed.

Lemma loose_some text v : JSON_parse (trim text) = Some v -> parseLooseValue text = v.
Proof. intros E. unfold parseLooseValue. destruct (trim text) eqn:Et; cbn [truthy negb]; [by vm_compute in E | by rewrite E]. Qed.

Lemma loose_trim text : parseLooseValue (trim text) = parseLooseValue text.
Proof. unfold parseLooseValue. by rewrite trim_idemp. Qed.

(** What a value is after it was written and read back. *)
Definition reread (text : str) : str := toValueText (Some (parseLooseValue text)).

Lemma loose_not_str v : json_ok v -> (forall s, v <> JStr s) ->
  JSON_parse (trim (toValueText (Some v))) = Some v /\ trim (toValueText (Some v)) <> [].
Proof.
  intros Hok Hs. destruct (stringify_trimmed v Hok Hs) as [Ht Hne].
  assert (toValueText (Some v) = JSON_stringify v) as -> by (destruct v as [| | |s| |]; try done; by destruct (Hs s)).
  rewrite (trimmed_trim _ Ht). split; [by apply json_roundtrip | done].
Qed.

(** A kept value: the same value, and as much a text as before. *)
Lemma reread_kept text : value_kept text ->
  json_ok (parseLooseValue text) /\ parseLooseValue (reread text) = parseLooseValue text /\
  truthy (trim (reread text)) = truthy (trim text) /\
  (return_error_message_missing (trim text) = false -> return_error_message_missing (trim (reread text)) = false).
Proof.
  unfold value_kept, reread, return_error_message_missing. destruct (JSON_parse (trim text)) as [v|] eqn:E; cycle 1.
  { intros _. rewrite (loose_none _ E). cbn [toValueText]. rewrite !trim_idemp, loose_trim, E, (loose_none _ E). done. }
  assert (truthy (trim text) = true) as -> by (apply truthy_true; intros En; rewrite En in E; by vm_compute in E).
  rewrite (loose_some _ _ E). assert ((exists s, v = JStr s) \/ forall s, v <> JStr s) as [[s ->] | Hs]
    by (destruct v; eauto; right; congruence).
  - intros (Hne & Ht & Hp). cbn [toValueText]. rewrite loose_none, Ht, Hp; [| by rewrite Ht]. split; [done |]. split; [done |].
    split; [by apply truthy_true | done].
  - intros Hk. assert (json_ok v) as Hok by (destruct v as [| | |s| |]; try done; by destruct (Hs s)).
    destruct (loose_not_str v Hok Hs) as [Hp Hne]. rewrite Hp, (loose_some _ _ Hp). split; [done |]. split; [done |].
    split; [by apply truthy_true | done].
Qed.

Section Reread.
Variable now : N -> N.

(** ** Conditions *)

Definition condition_kept (c : ParamOverrideCondition) : Prop :=
  set_has (c_mode c) CONDITION_MODE_VALUES = true /\ value_kept (c_value_text c).

Lemma mode_not_nil m modes : set_has m modes = true -> set_has [] modes = false -> str_or m (js "full") = m /\ str_or m (js "set") = m.
Proof. intros H Hn. destruct m; [congruence | done]. Qed.

Lemma condition_reread seed c p : condition_kept c -> buildConditionPayload c = Some p ->
  json_ok p /\ exists c', normalizeOverrideCondition now seed p = Some (c', N.succ seed) /\ buildConditionPayload c' = Some p.
Proof.
  intros [Hm (Hok & Hv & _)%reread_kept] H. unfold buildConditionPayload in H. destruct (truthy (trim (c_path c))) eqn:Hp; [| done].
  cbn [negb] in H. destruct (mode_not_nil _ _ Hm) as [E _]; [done |]. rewrite E in H. apply (inj Some) in H as <-. split.
  - apply json_ok_wf. split; [entries_ok |].
    apply (obj_wf_keys [js "path"; js "mode"; js "value"; js "invert"; js "pass_missing_key"]).
    + entries_keys.
    + by apply (bool_decide_unpack _); vm_compute.
    + repeat constructor.
  - eexists. split; [reflexivity |]. unfold buildConditionPayload, condition_of, prop_str, prop_true, prop_mode. cbn [c_path c_mode c_value_text c_invert c_pass_missing_key].
    find_key. cbn [entry_if]. rewrite trim_idemp, Hp, Hm, E. cbn [negb]. fold (reread (c_value_text c)). rewrite Hv.
    by destruct (c_invert c), (c_pass_missing_key c).
Qed.

Lemma conditions_reread seed cs : Forall condition_kept cs ->
  Forall json_ok (omap buildConditionPayload cs) /\
  exists cs' n, gen_map (normalizeOverrideCondition now) seed (omap buildConditionPayload cs) = Some (cs', n) /\
    omap buildConditionPayload cs' = omap buildConditionPayload cs.
Proof.
  intros H. revert seed. induction H as [|c cs Hc _ IH]; intros seed; [split; [constructor | by eexists [], _] |].
  cbn [omap list_omap]. destruct (buildConditionPayload c) as [p|] eqn:E; [| apply IH].
  destruct (condition_reread seed c p Hc E) as (Hp & c' & En & Eb). destruct (IH (N.succ seed)) as (Hok & cs' & n & Eg & Eo).
  split; [by constructor |]. exists (c' :: cs'), n. cbn [gen_map]. rewrite En. cbn [mbind option_bind]. rewrite Eg. cbn [mbind option_bind omap list_omap].
  rewrite Eb. split; [done |]. f_equal. exact Eo.
Qed.

(** ** Rules *)

Definition rule_kept (o : ParamOverrideOperation) : Prop :=
  set_has (o_mode o) OPERATION_MODE_VALUES = true /\ (mm_value (meta_of (o_mode o)) = true -> value_kept (o_value_text o)) /\
  Forall condition_kept (o_conditions o).

(** What the tables of the modes agree on. *)
Definition mode_tables (m : str) : bool :=
  let meta := meta_of m in
  implb (set_has m FROM_REQUIRED_MODES) (mm_from meta) && implb (set_has m TO_REQUIRED_MODES) (mm_to meta) &&
  implb (set_has m VALUE_REQUIRED_MODES) (mm_value meta) && implb (mm_pathAlias meta) (mm_from meta && mm_to meta) &&
  implb (str_eqb m (js "return_error") || str_eqb m (js "prune_objects") || str_eqb m (js "pass_headers")) (mm_value meta) &&
  implb (str_eqb m (js "set")) (mm_path meta).

Lemma mode_tables_ok m : set_has m OPERATION_MODE_VALUES = true -> mode_tables m = true.
Proof.
  assert (forallb mode_tables OPERATION_MODE_VALUES = true) as H by (vm_compute; reflexivity).
  intros Hm%set_has_spec. rewrite forallb_forall in H. apply H. by apply list_elem_of_In.
Qed.

Lemma logic_again (x : bool) : logic_of (js "OR") (js "AND") (Some (JStr (if x then js "AND" else js "OR"))) = if x then js "AND" else js "OR".
Proof. by destruct x. Qed.

Definition alias_of (o : ParamOverrideOperation) (v : str) : str :=
  if mm_pathAlias (meta_of (o_mode o)) && negb (truthy v) then trim (o_path o) else v.

(** The rule that is read from what was written. *)
Definition reread_rule (seed : N) (o : ParamOverrideOperation) (cs : list ParamOverrideCondition) : ParamOverrideOperation :=
  let meta := meta_of (o_mode o) in
  mkOp (nextLocalId now seed) (trim (o_description o)) (if mm_path meta || mm_pathOptional meta && truthy (trim (o_path o)) then trim (o_path o) else [])
    (o_mode o) (if mm_from meta then alias_of o (trim (o_from o)) else [])
    (if mm_to meta || truthy (trim (o_to o)) then alias_of o (trim (o_to o)) else [])
    (if mm_value meta then reread (o_value_text o) else []) (mm_keepOrigin meta && o_keep_origin o)
    (if (0 <? length (omap buildConditionPayload (o_conditions o)))%nat && str_eqb (o_logic o) (js "AND") then js "AND" else js "OR") cs.

(** The entries of a rule whose mode is known. *)
Definition rule_entries (o : ParamOverrideOperation) : entries :=
  let meta := meta_of (o_mode o) in
  let conditions := omap buildConditionPayload (o_conditions o) in
  entry_if true (js "mode") (JStr (o_mode o)) ++ text_entry (js "description") (trim (o_description o)) ++
  entry_if (mm_path meta || mm_pathOptional meta && truthy (trim (o_path o))) (js "path") (JStr (trim (o_path o))) ++
  entry_if (mm_value meta) (js "value") (parseLooseValue (o_value_text o)) ++
  flag_entry (js "keep_origin") (mm_keepOrigin meta && o_keep_origin o) true ++
  entry_if (mm_from meta) (js "from") (JStr (alias_of o (trim (o_from o)))) ++
  entry_if (mm_to meta || truthy (trim (o_to o))) (js "to") (JStr (alias_of o (trim (o_to o)))) ++
  entry_if (0 <? length conditions)%nat (js "conditions") (JArr conditions) ++
  entry_if (0 <? length conditions)%nat (js "logic") (JStr (if str_eqb (o_logic o) (js "AND") then js "AND" else js "OR")).

Lemma payload_entries o : set_has (o_mode o) OPERATION_MODE_VALUES = true -> operation_payload o = JObj (rule_entries o).
Proof. intros Hm. destruct (mode_not_nil _ _ Hm) as [_ E]; [done |]. unfold operation_payload, op_mode. by rewrite E. Qed.

Lemma reread_entries seed o cs : set_has (o_mode o) OPERATION_MODE_VALUES = true -> operation_of now seed (rule_entries o) cs = reread_rule seed o cs.
Proof.
  intros Hm. unfold operation_of, reread_rule, rule_entries, prop_str, prop_true, prop_mode. cbv zeta. find_key. rewrite Hm. f_equal.
  - by destruct (trim (o_description o)).
  - by destruct (_ || _).
  - by destruct (mm_from _).
  - by destruct (_ || _).
  - by destruct (mm_value _).
  - by destruct (_ && _).
  - destruct (0 <? _)%nat; [apply logic_again | done].
Qed.

Lemma payload_read seed o : set_has (o_mode o) OPERATION_MODE_VALUES = true -> Forall condition_kept (o_conditions o) ->
  exists cs n, normalizeOperation now seed (operation_payload o) = Some (reread_rule seed o cs, n) /\
    omap buildConditionPayload cs = omap buildConditionPayload (o_conditions o).
Proof.
  intros Hm Hc. destruct (conditions_reread (N.succ seed) _ Hc) as (_ & cs & n & Eg & Eo).
  rewrite payload_entries by done. unfold normalizeOperation. cbn [props_of mbind option_bind].
  assert (map_get (js "conditions") (rule_entries o) = let ps := omap buildConditionPayload (o_conditions o) in
    if (0 <? length ps)%nat then Some (JArr ps) else None) as -> by (unfold rule_entries; cbv zeta; by find_key).
  cbv zeta. destruct (omap buildConditionPayload (o_conditions o)) as [|p ps] eqn:Ec; cbn [length Nat.ltb Nat.leb].
  - exists [], (N.succ seed). by rewrite reread_entries.
  - exists cs, n. rewrite Eg. cbn [mbind option_bind]. by rewrite reread_entries.
Qed.

Lemma payload_ok o : rule_kept o -> json_ok (operation_payload o).
Proof.
  intros (Hm & Hv & Hc). rewrite payload_entries by done. apply json_ok_wf. unfold rule_entries. cbv zeta. split.
  - entries_ok; intros H; [by apply reread_kept, Hv | by apply json_ok_arr, (conditions_reread 0%N)].
  - apply (obj_wf_keys [js "mode"; js "description"; js "path"; js "value"; js "keep_origin"; js "from"; js "to"; js "conditions"; js "logic"]).
    + entries_keys.
    + by apply (bool_decide_unpack _); vm_compute.
    + repeat constructor.
Qed.

Lemma trim_if (b : bool) s : trim s = s -> trim (if b then s else []) = if b then s else [].
Proof. by destruct b. Qed.

Lemma alias_trim o v : trim v = v -> trim (alias_of o v) = alias_of o v.
Proof. intros H. unfold alias_of. destruct (_ && _); [apply trim_idemp | done]. Qed.

Lemma alias_again seed o cs v : alias_of (reread_rule seed o cs) (alias_of o v) = alias_of o v.
Proof.
  destruct (alias_of o v) as [|c x] eqn:E; unfold alias_of in *; cbn [o_mode o_path reread_rule truthy negb]; [| by rewrite andb_false_r].
  destruct (mm_pathAlias _); [| done]. cbn [andb]. destruct (truthy v) eqn:Hv; cbn in E; [by subst v |]. rewrite E. by destruct (_ || _).
Qed.

Lemma alias_nil o v : alias_of o v = [] -> v = [].
Proof. unfold alias_of. destruct (truthy v) eqn:E; [rewrite andb_false_r; done | intros _; by apply truthy_false]. Qed.

(** A table of [MODE_META]: the path stands in for the other fields only where both are there. *)
Lemma mode_alias o : set_has (o_mode o) OPERATION_MODE_VALUES = true -> mm_pathAlias (meta_of (o_mode o)) = true ->
  mm_from (meta_of (o_mode o)) = true /\ mm_to (meta_of (o_mode o)) = true.
Proof. intros Hm%mode_tables_ok Ha. unfold mode_tables in Hm. rewrite Ha in Hm. apply andb_prop. destruct (_ && mm_to _); [done |]. rewrite !andb_false_r in Hm. done. Qed.

Lemma entries_same seed o cs : rule_kept o -> omap buildConditionPayload cs = omap buildConditionPayload (o_conditions o) ->
  rule_entries (reread_rule seed o cs) = rule_entries o.
Proof.
  intros (Hm & Hv & Hc) Ecs. unfold rule_entries. cbn [o_mode o_description o_path o_from o_to o_value_text o_keep_origin o_logic o_conditions reread_rule].
  rewrite Ecs. set (meta := meta_of (o_mode o)) in *. rewrite trim_idemp. do 2 f_equal. f_equal; [| f_equal; [| f_equal; [| f_equal; [| f_equal; [| f_equal]]]]].
  - destruct (mm_path meta); cbn [orb]; [by rewrite trim_idemp |]. destruct (mm_pathOptional meta), (truthy (trim (o_path o))) eqn:E; cbn [andb]; try done.
    by rewrite trim_idemp, E.
  - destruct (mm_value meta) eqn:E; [| done]. cbn. do 2 f_equal. by apply reread_kept, Hv.
  - by destruct (mm_keepOrigin meta), (o_keep_origin o).
  - destruct (mm_from meta); [| done]. rewrite alias_trim by apply trim_idemp. by rewrite alias_again.
  - rewrite trim_if by apply alias_trim, trim_idemp. destruct (mm_to meta) eqn:Et; cbn [orb]; [by rewrite alias_again |].
    destruct (truthy (trim (o_to o))) eqn:E; [| done]. rewrite alias_again.
    destruct (truthy (alias_of o (trim (o_to o)))) eqn:E'; [done |]. apply truthy_false, alias_nil in E'. by rewrite E' in E.
  - destruct (0 <? _)%nat; [| done]. cbn [andb entry_if]. by destruct (str_eqb (o_logic o) _).
Qed.

(** ** Validation *)

(** The complaints about a rule, without their texts. *)
Definition complaints (o : ParamOverrideOperation) : list bool :=
  let mode := op_mode o in
  let meta := meta_of mode in
  let path := truthy (trim (o_path o)) in
  let alias := mm_pathAlias meta && path in
  let raw := trim (o_value_text o) in
  [mm_path meta && negb path;
   set_has mode FROM_REQUIRED_MODES && negb (truthy (trim (o_from o))) && negb alias;
   set_has mode TO_REQUIRED_MODES && negb (truthy (trim (o_to o))) && negb alias;
   set_has mode VALUE_REQUIRED_MODES && negb (truthy raw);
   str_eqb mode (js "return_error") && negb (truthy raw);
   str_eqb mode (js "return_error") && return_error_message_missing raw;
   str_eqb mode (js "prune_objects") && negb (truthy raw);
   str_eqb mode (js "pass_headers") && negb (truthy raw);
   str_eqb mode (js "pass_headers") && (length (parsePassHeaderNames (parseLooseValue raw)) =? 0)%nat].

Lemma validate_none t line o : validate_operation t line o = None <-> Forall (fun b => b = false) (complaints o).
Proof.
  unfold validate_operation, complaints. cbv zeta. rewrite !Forall_cons, Forall_nil.
  repeat match goal with |- context [if ?b then Some _ else _] => destruct b; [split; [done | intros; by destruct_and!] |] end. done.
Qed.

Lemma and_false (a b : bool) : a && b = false <-> (a = true -> b = false).
Proof. destruct a, b; naive_solver. Qed.

Lemma alias_truthy o v : truthy v = true \/ mm_pathAlias (meta_of (o_mode o)) && truthy (trim (o_path o)) = true -> truthy (alias_of o v) = true.
Proof.
  unfold alias_of. destruct (truthy v) eqn:E; [by rewrite andb_false_r |]. intros [H | H]; [done |]. by apply andb_prop in H as [-> H].
Qed.

(** A field that was there, or had the path for it, is there. *)
Lemma field_again seed o cs v (required : bool) :
  required && negb (truthy (trim v)) && negb (mm_pathAlias (meta_of (o_mode o)) && truthy (trim (o_path o))) = false ->
  required && negb (truthy (trim (alias_of o (trim v)))) && negb (mm_pathAlias (meta_of (o_mode o)) && truthy (trim (o_path (reread_rule seed o cs)))) = false.
Proof.
  intros H. rewrite alias_trim by apply trim_idemp. destruct required; [| done]. cbn [andb] in *.
  rewrite (alias_truthy o (trim v)); [done |]. destruct (truthy (trim v)); [by left | right]. by destruct (mm_pathAlias _ && _).
Qed.

Lemma complaints_again seed o cs : rule_kept o -> Forall (fun b => b = false) (complaints o) -> Forall (fun b => b = false) (complaints (reread_rule seed o cs)).
Proof.
  intros (Hm & Hv & _). pose proof (mode_tables_ok _ Hm) as Ht. destruct (mode_not_nil _ _ Hm) as [_ E]; [done |].
  unfold complaints, op_mode. cbn [o_mode reread_rule]. rewrite E. cbv zeta. rewrite !Forall_cons, Forall_nil.
  unfold mode_tables in Ht. set (meta := meta_of (o_mode o)) in *. intros (H1 & H2 & H3 & H4 & H5 & H6 & H7 & H8 & H9 & _).
  cbn [o_from o_to o_value_text reread_rule]. fold meta.
  assert (mm_value meta = true -> parseLooseValue (trim (reread (o_value_text o))) = parseLooseValue (trim (o_value_text o)) /\
     truthy (trim (reread (o_value_text o))) = truthy (trim (o_value_text o)) /\
     (return_error_message_missing (trim (o_value_text o)) = false -> return_error_message_missing (trim (reread (o_value_text o))) = false)) as Hval.
  { intros Hvv. rewrite !loose_trim. by destruct (reread_kept _ (Hv Hvv)) as (_ & ? & ? & ?). }
  apply andb_prop in Ht as [[[[[Tf Tt]%andb_prop Tv]%andb_prop Ta]%andb_prop Ts]%andb_prop Tp].
  rewrite implb_true_iff in Tf, Tt, Tv, Ts.
  rewrite !orb_true_iff in Ts. rewrite !(and_false (set_has _ VALUE_REQUIRED_MODES)), !(and_false (str_eqb _ _)) in *.
  assert (mm_path meta = true -> o_path (reread_rule seed o cs) = trim (o_path o)) as Hpath by (cbn; fold meta; by intros ->).
  split_and!; try done;
    try (intros Hr; assert (mm_value meta = true) as Hvv by auto; rewrite Hvv; destruct (Hval Hvv) as (V1 & V2 & V3); rewrite ?V1, ?V2; by auto).
  - destruct (mm_path meta); [| done]. by rewrite Hpath, trim_idemp.
  - destruct (set_has (o_mode o) FROM_REQUIRED_MODES); [| done]. rewrite Tf by done. by apply (field_again seed o cs (o_from o) true).
  - destruct (set_has (o_mode o) TO_REQUIRED_MODES); [| done]. rewrite Tt by done. by apply (field_again seed o cs (o_to o) true).
Qed.

Lemma not_blank_again seed o cs : rule_kept o -> Forall (fun b => b = false) (complaints o) -> isOperationBlank (reread_rule seed o cs) = false.
Proof.
  intros (Hm & _) H. unfold isOperationBlank. cbn [o_mode reread_rule]. destruct (str_eqb (o_mode o) (js "set")) eqn:E; [| done].
  apply str_eqb_eq in E. inv H. unfold op_mode in *. cbn [o_path reread_rule]. rewrite E in *.
  change (meta_of (str_or (js "set") (js "set"))) with set_meta in *. change (meta_of (js "set")) with set_meta.
  cbn [mm_path set_meta orb andb] in *. rewrite trim_idemp. destruct (truthy (trim (o_path o))); done.
Qed.

Definition free_of_complaints (o : ParamOverrideOperation) : Prop := Forall (fun b => b = false) (complaints o).

Lemma rules_reread seed ops : Forall rule_kept ops -> Forall free_of_complaints ops ->
  exists ops' n, gen_map (normalizeOperation now) seed (map operation_payload ops) = Some (ops', n) /\
    map operation_payload ops' = map operation_payload ops /\ Forall free_of_complaints ops' /\ Forall (fun o => isOperationBlank o = false) ops'.
Proof.
  intros Hk Hf. revert seed. induction Hk as [|o ops Hk _ IH]; intros seed; [by eexists [], _ |]. inv Hf.
  destruct (payload_read seed o (proj1 Hk) (proj2 (proj2 Hk))) as (cs & s1 & E & Ecs). destruct (IH H2 s1) as (ops' & n & Eg & Em & Hf' & Hb).
  exists (reread_rule seed o cs :: ops'), n. cbn [map gen_map]. rewrite E. cbn [mbind option_bind]. rewrite Eg. split; [done |]. split.
  - rewrite Em. f_equal. destruct Hk as [Hm Hk']. rewrite !payload_entries by done. by rewrite entries_same.
  - split; constructor; [by apply complaints_again | done | by apply not_blank_again | done].
Qed.

Lemma validate_from_free t line ops : (forall key n, t key n <> []) -> validate_from t line ops = [] <-> Forall free_of_complaints ops.
Proof.
  intros Ht. revert line. induction ops as [|o ops IH]; intros line; cbn [validate_from]; [done |]. rewrite Forall_cons.
  unfold free_of_complaints at 1. rewrite <- (validate_none t line o). destruct (validate_operation t line o) as [m|] eqn:E; [| rewrite IH; naive_solver].
  split; [| by intros []]. intros ->. exfalso. unfold validate_operation in E. cbv zeta in E.
  repeat (case_match; [injection E as E; by apply Ht in E |]). done.
Qed.

Lemma filter_not_blank ops : Forall (fun o => isOperationBlank o = false) ops -> List.filter (fun o => negb (isOperationBlank o)) ops = ops.
Proof. induction 1 as [|o ops H _ IH]; cbn; [done |]. by rewrite H, IH. Qed.

(** What a successful build writes. *)
Lemma build_inr t ops text : (forall key n, t key n <> []) -> buildOperationsJson t ops true = inr text ->
  let kept := List.filter (fun o => negb (isOperationBlank o)) ops in
  (kept = [] /\ text = []) \/
  (kept <> [] /\ Forall free_of_complaints kept /\ text = JSON_pretty (JObj [(js "operations", JArr (map operation_payload kept))])).
Proof.
  intros Ht. unfold buildOperationsJson, validateOperations. cbv zeta. set (kept := List.filter _ ops). intros H.
  destruct kept as [|o l] eqn:E; [left; by injection H as <- |]. right. cbn [length Nat.eqb] in H. rewrite <- E in *.
  destruct (truthy (validate_from t 1 kept)) eqn:Ev; [done |]. apply truthy_false, validate_from_free in Ev; [| done].
  injection H as <-. rewrite E in *. done.
Qed.
End Reread.

(** C28: Saved rules are read back unchanged: when the visual editor saves rules (with
    known modes, and values that keep their type) as a text, opening the dialog on
    that text shows the visual editor again, and saving at once gives exactly the same
    text.  The rules pass validation again, although fields that a mode does not use
    are dropped, and an empty source or target was filled in from the path.  Not covered
    are values that are quoted texts of JSON, such as a quoted number: they are saved as
    texts, and lose their type when they are reopened ([string_value_becomes_json]). *)
Theorem saved_rules_reopen now t t_line seed d text :
  (forall key line, t_line key line <> []) ->
  editMode d = EditVisual -> visualMode d = ModeOperations -> Forall rule_kept (operations d) ->
  handleSave t t_line d = inr text ->
  exists d', open_dialog now text seed = Some d' /\ editMode d' = EditVisual /\ visualMode d' = ModeOperations /\
    jsonText d' = text /\ handleSave t t_line d' = inr text.
Proof.
  intros Ht Hed Hvis Hk. unfold handleSave at 1, buildVisualJson. rewrite Hed, Hvis. intros Hb.
  apply build_inr in Hb; [| done]. cbv zeta in Hb. set (kept := List.filter _ (operations d)) in *.
  destruct Hb as [[_ ->] | (Hne & Hf & ->)]; [by eexists; split; [reflexivity |] |].
  assert (Forall rule_kept kept) as Hkk by (apply list.Forall_forall; intros o Ho; rewrite list.Forall_forall in Hk; apply Hk; apply list_elem_of_In, filter_In in Ho as [Ho _]; by apply list_elem_of_In).
  destruct (rules_reread now seed kept Hkk Hf) as (ops' & n & Eg & Em & Hf' & Hb').
  set (v := JObj [(js "operations", JArr (map operation_payload kept))]).
  assert (json_ok v) as Hok.
  { apply json_ok_wf. split; [| split; [apply NoDup_singleton | done]]. repeat constructor. apply json_ok_arr, Forall_map. eapply Forall_impl; [exact Hkk | exact (payload_ok now)]. }
  assert (trim (JSON_pretty v) = JSON_pretty v /\ truthy (JSON_pretty v) = true) as [Etr Etru].
  { destruct (pretty_obj_shape [(js "operations", JArr (map operation_payload kept))]) as [m E]. unfold v. rewrite E. split; [apply trimmed_trim, trimmed_braces | done]. }
  eexists. split.
  { unfold open_dialog, parseInitialState. cbn [createDefaultOperation]. rewrite Etr, Etru. cbn [negb]. rewrite pretty_roundtrip by done. unfold v at 1.
    cbn [map_get]. rewrite decide_True by done. unfold read_operations.
    destruct (map operation_payload kept) as [|x l] eqn:El; [exfalso; by destruct kept |]. rewrite Eg. reflexivity. }
  split; [done |]. split; [done |]. split; [done |].
  unfold handleSave, buildVisualJson. cbn [editMode visualMode operations es_editMode es_visualMode es_operations]. unfold buildOperationsJson. rewrite filter_not_blank by done.
  rewrite Em. assert ((length ops' =? 0)%nat = false) as -> by (rewrite <- (length_map operation_payload), Em; by destruct kept).
  unfold validateOperations. by rewrite (proj2 (validate_from_free t_line 1 ops' Ht) Hf').
Qed.

(** A reading of the clock that never changes, and texts that are not translated. *)
Definition still_clock (_ : N) : N := 1700000000000%N.
Definition plain_line (key : str) (line : nat) : str := js "rule " ++ key.
Definition demo_override : str :=
  jsq "{'operations':[{'mode':'set','path':'temperature','value':0.7,'conditions':[{'path':'model','mode':'prefix','value':'gpt'}]},{'mode':'delete','path':'seed'}]}".
Definition opened (text : str) (seed : N) : Dialog :=
  default (mkDialog EditVisual ModeOperations [] [] [] [] [] [] [] [] Before [] seed) (open_dialog still_clock text seed).

Lemma saved_rules_reopen_witness :
  exists text, handleSave (fun s => s) plain_line (opened demo_override 0) = inr text /\ text <> demo_override /\
  exists d', open_dialog still_clock text 7 = Some d' /\ editMode d' = EditVisual /\ visualMode d' = ModeOperations /\
    jsonText d' = text /\ handleSave (fun s => s) plain_line d' = inr text.
Proof.
  eexists. split; [vm_compute; reflexivity |]. split; [by intros H; vm_compute in H |].
  apply (saved_rules_reopen still_clock (fun s => s) plain_line 7 (opened demo_override 0)).
  - intros key line. discriminate.
  - vm_compute; reflexivity.
  - vm_compute; reflexivity.
  - assert (operations (opened demo_override 0) = ltac:(let x := eval vm_compute in (operations (opened demo_override 0)) in exact x)) as ->
      by (vm_compute; reflexivity).
    repeat constructor; try (intros H; vm_compute in H; discriminate H); vm_compute; reflexivity.
  - vm_compute; reflexivity.
Defined.

(** ** Texts that change their type *)

Definition payload_value (o : ParamOverrideOperation) : option json :=
  match operation_payload o with JObj l => map_get (js "value") l | _ => None end.

Lemma payload_value_spec o : set_has (o_mode o) OPERATION_MODE_VALUES = true -> mm_value (meta_of (o_mode o)) = true ->
  payload_value o = Some (parseLooseValue (o_value_text o)).
Proof. intros Hm Hv. unfold payload_value. rewrite payload_entries by done. unfold rule_entries. cbv zeta. find_key. by rewrite Hv. Qed.

(** A value that is a string holding JSON does not survive: a rule whose value is the
    quoted text of a number, a boolean or an object (such as a string of digits) is
    saved as a string, but when the saved rules are opened the quotes are gone, and
    saving again without any change writes the number, the boolean or the object. *)
Theorem string_value_becomes_json now seed o s v :
  set_has (o_mode o) OPERATION_MODE_VALUES = true -> mm_value (meta_of (o_mode o)) = true -> Forall condition_kept (o_conditions o) ->
  JSON_parse (trim (o_value_text o)) = Some (JStr s) -> JSON_parse (trim s) = Some v ->
  payload_value o = Some (JStr s) /\
  exists o' n, normalizeOperation now seed (operation_payload o) = Some (o', n) /\ payload_value o' = Some v.
Proof.
  intros Hm Hv Hc Hs Hp. rewrite (payload_value_spec o) by done. rewrite (loose_some _ _ Hs). split; [done |].
  destruct (payload_read now seed o Hm Hc) as (cs & n & E & _). eexists _, n. split; [exact E |].
  rewrite payload_value_spec by done. cbn [o_value_text reread_rule]. rewrite Hv. unfold reread. rewrite (loose_some _ _ Hs). cbn [toValueText].
  by rewrite (loose_some _ _ Hp).
Qed.

(** A rule that sets a text of digits. *)
Definition digits_rule : ParamOverrideOperation :=
  mkOp [] [] (js "user") (js "set") [] [] (quote (js "42")) false (js "OR") [].

Lemma string_value_becomes_json_witness :
  payload_value digits_rule = Some (JStr (js "42")) /\
  exists o' n, normalizeOperation still_clock 0 (operation_payload digits_rule) = Some (o', n) /\ payload_value o' = Some (JNum (n_of_Z 42)).
Proof.
  apply (string_value_becomes_json still_clock 0 digits_rule (js "42") (JNum (n_of_Z 42))).
  - vm_compute; reflexivity.
  - vm_compute; reflexivity.
  - constructor.
  - vm_compute; reflexivity.
  - vm_compute; reflexivity.
Defined.
