(* ===== verification/ParamProps.v ===== *)
(** * The parameter override editor: theorems

    Identifiers stay unique and the selection valid in every reachable state of the
    dialog; saved rules are read back and saved the same; and what the dialog does not
    do: edits of prune rules are lost, and quoted texts change their type. *)
From S2P Require Import Prelude Number Regex Json JsonPretty JsonObject ParamOverride ParamRoundtrip.
From stdpp Require Import relations.

Section Ids.
Variable now : N -> N.

(** ** Identifiers *)

Lemma digits_not_underscore n : 95%N ∉ show_N n.
Proof.
  intros H. pose proof (show_N_digits n) as Hd. rewrite Forall_forall in Hd. specialize (Hd _ H). done.
Qed.

Lemma nextLocalId_inj n m : nextLocalId now n = nextLocalId now m -> n = m.
Proof.
  unfold nextLocalId. intros H. apply app_inv_head in H. change (js "_") with [95%N] in H. cbn [app] in H.
  apply (f_equal (split_on 95)) in H. rewrite !split_on_app in H by apply digits_not_underscore.
  rewrite !split_on_free in H by apply digits_not_underscore. injection H. intros. by apply show_N_inj.
Qed.

(** Made while the counter went from [a] to [b]. *)
Definition between (a b : N) (id : str) : Prop := exists k, (a <= k < b)%N /\ id = nextLocalId now k.

Lemma between_weaken a b a' b' id : between a b id -> (a' <= a)%N -> (b <= b')%N -> between a' b' id.
Proof. intros (k & Hk & ->) Ha Hb. exists k. split; [lia | done]. Qed.

Lemma between_disjoint a b c id : between a b id -> between b c id -> False.
Proof. intros (k & Hk & ->) (j & Hj & E). apply nextLocalId_inj in E. lia. Qed.

(** Identifiers that a step adds are new. *)
Definition fresh_ids (a b : N) (ids : list str) : Prop := (a <= b)%N /\ NoDup ids /\ Forall (between a b) ids.

Lemma fresh_nil a : fresh_ids a a [].
Proof. split; [lia |]. split; constructor. Qed.

Lemma fresh_one a : fresh_ids a (N.succ a) [nextLocalId now a].
Proof. split; [lia |]. split; [repeat constructor; set_solver |]. repeat constructor. exists a. split; [lia | done]. Qed.

Lemma fresh_app a b c l k : fresh_ids a b l -> fresh_ids b c k -> fresh_ids a c (l ++ k).
Proof.
  intros (Hab & Hl & Fl) (Hbc & Hk & Fk). split; [lia |]. rewrite Forall_forall in Fl, Fk. split.
  - apply NoDup_app. split; [done |]. split; [| done]. intros x Hx Hx'. by eapply between_disjoint; [apply Fl | apply Fk].
  - apply Forall_forall. intros x [Hx|Hx]%elem_of_app; [eapply between_weaken; [by apply Fl | lia | lia] | eapply between_weaken; [by apply Fk | lia | lia]].
Qed.

Section Gen.
Context {A B : Type} (f : N -> A -> option (B * N)) (ids : B -> list str).
Hypothesis Hf : forall s x y s', f s x = Some (y, s') -> fresh_ids s s' (ids y).

Lemma gen_map_fresh l s ys s' : gen_map f s l = Some (ys, s') -> fresh_ids s s' (concat (map ids ys)).
Proof.
  revert s ys. induction l as [|x l IH]; intros s ys H; cbn in H; [injection H as <- <-; apply fresh_nil |].
  destruct (f s x) as [[y s1]|] eqn:E; [| done]. cbn in H. destruct (gen_map f s1 l) as [[zs s2]|] eqn:E'; [| done].
  cbn in H. injection H as <- <-. cbn. eapply fresh_app; [by eapply Hf | by apply IH].
Qed.
End Gen.

Lemma gen_map_length {A B} (f : N -> A -> option (B * N)) l s ys s' : gen_map f s l = Some (ys, s') -> length ys = length l.
Proof.
  revert s ys. induction l as [|x l IH]; intros s ys H; cbn in H; [by injection H as <- <- |].
  destruct (f s x) as [[y s1]|]; [| done]. cbn in H. destruct (gen_map f s1 l) as [[zs s2]|] eqn:E'; [| done].
  cbn in H. injection H as <- <-. cbn. f_equal. by eapply IH.
Qed.

Definition op_ids (o : ParamOverrideOperation) : list str := o_id o :: map c_id (o_conditions o).
Definition all_ids (ops : list ParamOverrideOperation) : list str := concat (map op_ids ops).

Lemma normalize_condition_fresh s c y s' : normalizeOverrideCondition now s c = Some (y, s') -> fresh_ids s s' [c_id y].
Proof. unfold normalizeOverrideCondition. destruct (props_of c); [| done]. cbn. intros [= <- <-]. apply fresh_one. Qed.

Lemma concat_singletons {A B} (f : A -> B) l : concat (map (fun x => [f x]) l) = map f l.
Proof. induction l as [|x l IH]; cbn; [done |]. by rewrite IH. Qed.

Lemma normalize_operation_fresh s v y s' : normalizeOperation now s v = Some (y, s') -> fresh_ids s s' (op_ids y).
Proof.
  unfold normalizeOperation. destruct (props_of v) as [l|]; [| done]. cbn [mbind option_bind].
  assert (fresh_ids s (N.succ s) (op_ids (operation_of now s l []))) as Hone by apply fresh_one.
  destruct (map_get (js "conditions") l) as [[| | | |cs|]|]; try (intros [= <- <-]; exact Hone).
  destruct (gen_map _ _ cs) as [[conds next]|] eqn:E; [| done]. cbn. intros [= <- <-].
  unfold op_ids. cbn [o_id o_conditions operation_of]. apply (fresh_app _ (N.succ s) _ [nextLocalId now s]); [apply fresh_one |].
  apply (gen_map_fresh _ (fun c => [c_id c])) in E; [by rewrite concat_singletons in E | apply normalize_condition_fresh].
Qed.

Lemma default_operation_fresh s : fresh_ids s (N.succ s) (op_ids (fst (createDefaultOperation now s))).
Proof. apply fresh_one. Qed.

Lemma read_operations_fresh s l ops s' : read_operations now s l = Some (ops, s') -> fresh_ids s s' (all_ids ops) /\ ops <> [].
Proof.
  unfold read_operations. destruct l as [|x l].
  - cbn. intros [= <- <-]. split; [| done]. apply fresh_one.
  - intros H. split; [by eapply gen_map_fresh; [apply normalize_operation_fresh |] |].
    apply gen_map_length in H. by destruct ops.
Qed.

(** ** The invariant of the dialog *)

Record rules_ok (ops : list ParamOverrideOperation) (seed : N) : Prop := mkRulesOk {
  ro_nodup : NoDup (all_ids ops);
  ro_old : Forall (between 0 seed) (all_ids ops);
  ro_some : ops <> []
}.

Lemma fresh_rules_ok a seed ops : fresh_ids a seed (all_ids ops) -> ops <> [] -> rules_ok ops seed.
Proof.
  intros (Ha & Hn & Hf) Hne. split; [done | | done]. eapply Forall_impl; [exact Hf |]. intros id H. eapply between_weaken; [exact H | lia | lia].
Qed.

Lemma rules_ok_sub ops seed ops' seed' :
  rules_ok ops seed -> all_ids ops' `sublist_of` all_ids ops -> ops' <> [] -> (seed <= seed')%N -> rules_ok ops' seed'.
Proof.
  intros [Hn Ho Hs] Hsub Hne Hle. split; [by eapply sublist_NoDup | | done].
  apply Forall_forall. intros x Hx. rewrite Forall_forall in Ho. eapply between_weaken; [apply Ho | lia | done].
  by eapply elem_of_submseteq; [exact Hx | apply sublist_submseteq].
Qed.

Lemma rules_ok_perm ops seed ops' : rules_ok ops seed -> all_ids ops' ≡ₚ all_ids ops -> ops' <> [] -> rules_ok ops' seed.
Proof. intros [Hn Ho Hs] Hp Hne. split; [by rewrite Hp | by rewrite Hp | done]. Qed.

(** New rules next to old ones. *)
Lemma rules_ok_add a b new seed ops' :
  rules_ok (a ++ b) seed \/ a ++ b = [] -> fresh_ids seed ops' (all_ids new) -> a ++ new ++ b <> [] -> rules_ok (a ++ new ++ b) ops'.
Proof.
  intros Hold (Hle & Hn & Hf) Hne. assert (NoDup (all_ids (a ++ b)) /\ Forall (between 0 seed) (all_ids (a ++ b))) as [Hna Hoa].
  { destruct Hold as [[? ? ?]| ->]; [done |]. split; constructor. }
  assert (all_ids (a ++ new ++ b) ≡ₚ all_ids (a ++ b) ++ all_ids new) as Hp.
  { unfold all_ids. rewrite !map_app, !concat_app. rewrite <- !app_assoc. apply Permutation_app_head, Permutation_app_comm. }
  assert (fresh_ids 0 ops' (all_ids (a ++ b) ++ all_ids new)) as (_ & H1 & H2) by (eapply fresh_app; [split; [lia | done] | done]).
  split; [by rewrite Hp | by rewrite Hp | done].
Qed.

(** ** Every handler keeps it *)

Lemma op_ids_map (f : ParamOverrideOperation -> ParamOverrideOperation) ops :
  (forall o, op_ids (f o) = op_ids o) -> all_ids (map f ops) = all_ids ops.
Proof. intros H. unfold all_ids. rewrite map_map. f_equal. apply map_ext. exact H. Qed.

Lemma update_at_ids id f ops : (forall o, op_ids (f o) = op_ids o) -> all_ids (update_at id f ops) = all_ids ops.
Proof. intros H. apply op_ids_map. intros o. by destruct (str_eqb _ _). Qed.

Lemma update_at_some id f ops : ops <> [] -> update_at id f ops <> [].
Proof. by destruct ops. Qed.

Lemma patch_operation_ids o p : op_ids (patch_operation o p) = op_ids o.
Proof. by destruct p. Qed.

Lemma patch_condition_ids (cs : list ParamOverrideCondition) id p :
  map c_id (map (fun c => if str_eqb (c_id c) id then patch_condition c p else c) cs) = map c_id cs.
Proof. rewrite map_map. apply map_ext. intros c. destruct (str_eqb _ _); [by destruct p | done]. Qed.

Lemma map_filter_sublist {A B} (g : A -> B) (f : A -> bool) l : map g (List.filter f l) `sublist_of` map g l.
Proof. induction l as [|x l IH]; cbn; [constructor |]. destruct (f x); cbn; by constructor. Qed.

Lemma all_ids_cons o ops : all_ids (o :: ops) = op_ids o ++ all_ids ops.
Proof. done. Qed.

Lemma filter_ids_sublist (f : ParamOverrideOperation -> bool) ops : all_ids (List.filter f ops) `sublist_of` all_ids ops.
Proof.
  induction ops as [|o ops IH]; [constructor |]. cbn [List.filter]. rewrite all_ids_cons.
  destruct (f o); [rewrite all_ids_cons; by apply sublist_app | by apply sublist_inserts_l].
Qed.

Lemma remove_condition_sublist id c ops :
  all_ids (update_at id (fun o => with_conditions o (List.filter (fun x => negb (str_eqb (c_id x) c)) (o_conditions o))) ops) `sublist_of` all_ids ops.
Proof.
  induction ops as [|o ops IH]; [constructor |]. cbn [update_at map]. rewrite !all_ids_cons. apply sublist_app; [| exact IH].
  destruct (str_eqb _ _); [| done]. unfold op_ids. cbn. apply sublist_skip, map_filter_sublist.
Qed.

Lemma not_in_update id f ops : id ∉ map o_id ops -> update_at id f ops = ops.
Proof.
  induction ops as [|o ops IH]; cbn; [done |]. rewrite not_elem_of_cons. intros [Ho Hops]. unfold update_at in IH. rewrite IH by done.
  unfold str_eqb. by rewrite bool_decide_eq_false_2.
Qed.

Lemma op_id_in_all ops id : id ∈ map o_id ops -> id ∈ all_ids ops.
Proof.
  induction ops as [|o ops IH]; cbn [map]; [intros H%not_elem_of_nil; done |].
  rewrite all_ids_cons, elem_of_app, elem_of_cons. intros [->|H]; [left; by left | right; auto].
Qed.

Lemma all_ids_head o ops : NoDup (all_ids (o :: ops)) -> o_id o ∉ map o_id ops.
Proof. rewrite all_ids_cons. intros (_ & H & _)%NoDup_app Hin. apply (H (o_id o)); [by left | by apply op_id_in_all]. Qed.

Lemma add_condition_perm id c ops :
  NoDup (all_ids ops) ->
  let ops' := update_at id (fun o => with_conditions o (o_conditions o ++ [c])) ops in
  all_ids ops' = all_ids ops \/ all_ids ops' ≡ₚ all_ids ops ++ [c_id c].
Proof.
  induction ops as [|o ops IH]; intros Hn; [by left |]. cbn [update_at map]. fold (update_at id (fun o => with_conditions o (o_conditions o ++ [c])) ops).
  destruct (str_eqb (o_id o) id) eqn:E; [apply str_eqb_eq in E |].
  - right. rewrite not_in_update by (rewrite <- E; by apply all_ids_head). rewrite !all_ids_cons. unfold op_ids.
    cbn [o_id o_conditions with_conditions]. rewrite map_app. cbn [map app]. rewrite <- !app_assoc.
    apply perm_skip, Permutation_app_head, Permutation_app_comm.
  - rewrite !all_ids_cons. rewrite all_ids_cons in Hn. apply NoDup_app in Hn as (_ & _ & Hn). destruct (IH Hn) as [H | H]; [left; by rewrite H | right].
    rewrite <- app_assoc. by apply Permutation_app_head.
Qed.

Lemma all_ids_perm ops ops' : ops ≡ₚ ops' -> all_ids ops ≡ₚ all_ids ops'.
Proof. intros H. unfold all_ids. induction H; cbn [map concat];
  [done | by apply Permutation_app_head | rewrite !app_assoc; apply Permutation_app_tail, Permutation_app_comm | by etrans]. Qed.

(** Moving a rule keeps the rules. *)
Lemma reorder_perm ops source target position : reorderOperations ops source target position ≡ₚ ops.
Proof.
  unfold reorderOperations. destruct (_ || _ || _); [done |]. destruct (find_index source ops) as [i|]; [| done].
  destruct (ops !! i) as [moved|] eqn:Hi; [| done]. cbv zeta. destruct (find_index target _) as [j|]; [| done].
  rewrite <- Permutation_middle, take_drop, Permutation_middle. by rewrite take_drop_middle.
Qed.

Lemma prune_parse_fresh s text d s' : parsePruneObjectsDraft now s text = Some (d, s') -> fresh_ids s s' (map c_id (pd_rules d)).
Proof.
  assert (forall l s ys s', gen_map (entry_rule now) s l = Some (ys, s') -> fresh_ids s s' (map c_id ys)) as Hentry.
  { intros l s0 ys s1 H. rewrite <- concat_singletons. by eapply gen_map_fresh; [intros ? ? ? ?; apply normalize_condition_fresh |]. }
  assert (forall l s ys s', gen_map (normalizePruneRule now) s l = Some (ys, s') -> fresh_ids s s' (map c_id ys)) as Hrule.
  { intros l s0 ys s1 H. rewrite <- concat_singletons. by eapply gen_map_fresh; [intros ? ? ? ?; apply normalize_condition_fresh |]. }
  unfold parsePruneObjectsDraft. cbv zeta. destruct (negb _); [intros [= <- <-]; apply fresh_nil |].
  destruct (JSON_parse _) as [[| | | | |l]|]; try (intros [= <- <-]; apply fresh_nil).
  assert (forall o, match o with Some (JObj l) => gen_map (entry_rule now) s l | _ => Some ([], s) end <> None ->
    exists ys s1, match o with Some (JObj l) => gen_map (entry_rule now) s l | _ => Some ([], s) end = Some (ys, s1) /\ fresh_ids s s1 (map c_id ys)) as H1.
  { intros [[| | | | |l']|] Hne; try (eexists [], s; split; [done | apply fresh_nil]).
    destruct (gen_map (entry_rule now) s l') as [[ys s1]|] eqn:E; [| done]. eexists _, _. split; [done |]. by eapply Hentry. }
  destruct (match map_get (js "where") l with Some (JObj l0) => _ | _ => _ end) as [[r1 s1]|] eqn:E1; [| done]. cbn [mbind option_bind].
  destruct (H1 (map_get (js "where") l)) as (ys & s1' & E & Hf1); [by rewrite E1 |]. rewrite E1 in E. injection E as <- <-. clear H1 E1.
  destruct (match map_get (js "conditions") l with Some (JArr l0) => _ | _ => _ end) as [[r2 s2]|] eqn:E2; [| done]. cbn [mbind option_bind].
  assert (fresh_ids s1 s2 (map c_id r2)) as Hf2.
  { destruct (map_get (js "conditions") l) as [[| | | |l'|l']|]; try (injection E2 as <- <-; apply fresh_nil); [by eapply Hrule | by eapply Hentry]. }
  intros [= <- <-]. cbn [pd_rules]. rewrite map_app. by eapply fresh_app.
Qed.

Lemma prune_step_ids id f s o o' s' :
  (forall n x, n <= snd (f n x))%N -> prune_step now id f s o = Some (o', s') -> op_ids o' = op_ids o /\ (s <= s')%N.
Proof.
  intros Hf. unfold prune_step. destruct (negb _); [intros [= <- <-]; split; [done | lia] |].
  destruct (parsePruneObjectsDraft now s (o_value_text o)) as [[draft s1]|] eqn:E; [| done]. cbn [mbind option_bind].
  apply prune_parse_fresh in E as [Hle _]. specialize (Hf s1 draft). destruct (f s1 draft) as [next s2]. cbn in Hf. intros [= <- <-].
  split; [done | lia].
Qed.

Lemma prune_ids id f l s ops s' :
  (forall n x, n <= snd (f n x))%N -> gen_map (prune_step now id f) s l = Some (ops, s') -> all_ids ops = all_ids l /\ (s <= s')%N.
Proof.
  intros Hf. revert s ops. induction l as [|o l IH]; intros s ops H; cbn in H; [injection H as <- <-; split; [done | lia] |].
  destruct (prune_step now id f s o) as [[o' s1]|] eqn:E; [| done]. cbn in H. destruct (gen_map _ s1 l) as [[l' s2]|] eqn:E'; [| done].
  cbn in H. injection H as <- <-. apply prune_step_ids in E as [Eo Hle]; [| done]. apply IH in E' as [El Hle'].
  rewrite !all_ids_cons, Eo, El. split; [done | lia].
Qed.

Section Steps.
Variable t : str -> str.
Variable t_line : str -> nat -> str.

Definition dialog_ok (d : Dialog) : Prop := rules_ok (operations d) (idSeed d).

Lemma same_ids_ok d d' :
  dialog_ok d -> all_ids (operations d') = all_ids (operations d) -> operations d' <> [] -> (idSeed d <= idSeed d')%N -> dialog_ok d'.
Proof. intros H E Hne Hle. eapply rules_ok_sub; [exact H | by rewrite E | done | done]. Qed.

(** One new rule replaces the others. *)
Lemma default_ok seed : rules_ok [fst (createDefaultOperation now seed)] (N.succ seed).
Proof. eapply fresh_rules_ok; [apply (fresh_one seed) | done]. Qed.

Lemma take_drop_S {A} (l : list A) i x : l !! i = Some x -> l = take (S i) l ++ drop (S i) l.
Proof. intros _. by rewrite take_drop. Qed.

Lemma remove_ok id d : dialog_ok d -> dialog_ok (removeOperation now id d).
Proof.
  intros H. unfold removeOperation. destruct (Nat.leb_spec (length (operations d)) 1) as [Hl|Hl]; [apply default_ok |].
  eapply rules_ok_sub; [exact H | apply filter_ids_sublist | | cbn; lia].
  destruct H as [Hn _ _]. destruct (operations d) as [|a [|b l]]; cbn in Hl; try lia. cbn [set_ops operations List.filter].
  destruct (str_eqb (o_id a) id) eqn:Ea; [| done]. destruct (str_eqb (o_id b) id) eqn:Eb; [| done].
  apply str_eqb_eq in Ea, Eb. apply all_ids_head in Hn. exfalso. apply Hn. cbn. rewrite Ea, Eb. by left.
Qed.

Lemma add_condition_ok id d : dialog_ok d -> dialog_ok (addCondition now id d).
Proof.
  intros H. pose proof H as [Hn Ho Hs]. unfold addCondition, createDefaultCondition. cbn [c_id condition_of].
  set (created := condition_of now (idSeed d) []). unfold dialog_ok. cbn [operations set_expanded set_ops idSeed].
  destruct (add_condition_perm id created (operations d) Hn) as [E | E].
  - eapply rules_ok_sub; [exact H | by rewrite E | by apply update_at_some | lia].
  - assert (fresh_ids 0 (N.succ (idSeed d)) (all_ids (operations d) ++ [c_id created])) as (_ & H1 & H2)
      by (eapply fresh_app; [split; [lia | done] | apply fresh_one]).
    split; [by rewrite E | by rewrite E | by apply update_at_some].
Qed.

Lemma duplicate_ok id d : dialog_ok d -> dialog_ok (duplicateOperation now id d).
Proof.
  intros H. unfold duplicateOperation. destruct (find_index _ _) as [i|]; [| done]. destruct (operations d !! i) as [source|]; [| done].
  destruct (normalizeOperation now (idSeed d) (clone_json source)) as [[cloned seed]|] eqn:E; [| done].
  unfold dialog_ok. cbn [operations set_selected set_ops idSeed]. apply (rules_ok_add _ _ [cloned] (idSeed d)).
  - left. by rewrite take_drop.
  - apply normalize_operation_fresh in E. unfold all_ids. cbn. by rewrite app_nil_r.
  - by destruct (take (S i) (operations d)).
Qed.

Lemma read_ok seed l ops seed' : read_operations now seed l = Some (ops, seed') -> rules_ok ops seed'.
Proof. intros [Hf Hne]%read_operations_fresh. by eapply fresh_rules_ok. Qed.

Lemma visual_mode_ok d : dialog_ok d -> dialog_ok (switchToVisualMode now d).
Proof.
  intros H. unfold switchToVisualMode. destruct (bool_decide _); [done |]. cbn [createDefaultOperation]. cbv zeta.
  destruct (negb _); [apply default_ok |]. destruct (JSON_parse _) as [[| | | | |l]|]; try done.
  destruct (map_get (js "operations") l) as [[| | | |ops|]|]; try apply default_ok.
  destruct (read_operations now (idSeed d) ops) as [[nextOps seed]|] eqn:E; [| done]. by eapply read_ok.
Qed.

Lemma preset_operations_some d payload : preset_of d = (KindOperations, payload) -> preset_operations payload <> [].
Proof.
  unfold preset_of. destruct (map_get (templatePresetKey d) TEMPLATE_PRESET_CONFIG) as [p|] eqn:E; [| by intros [= <-]].
  intros Ep. change (p = (KindOperations, payload)) in Ep. subst p. apply map_get_elem in E. unfold TEMPLATE_PRESET_CONFIG in E.
  rewrite !elem_of_cons, elem_of_nil in E. destruct_or! E; try done; injection E as _ ->; done.
Qed.

Lemma fill_ok m d : dialog_ok d -> dialog_ok (fillTemplate now m d).
Proof.
  intros H. unfold fillTemplate. destruct (preset_of d) as [kind payload] eqn:Ep. cbn [createDefaultOperation]. destruct kind; cycle 1.
  { destruct m, (visualMode d); try apply default_ok. cbv zeta. destruct (negb _); [apply default_ok |].
    destruct (JSON_parse _); [apply default_ok | done]. }
  apply preset_operations_some in Ep. cbv zeta. destruct (gen_map _ _ _) as [[fresh seed]|] eqn:E; [| done].
  assert (fresh <> []) as Hne by (apply gen_map_length in E; destruct fresh; [by destruct (preset_operations payload) | done]).
  apply (gen_map_fresh _ op_ids) in E; [| apply normalize_operation_fresh]. destruct m.
  - destruct fresh as [|o fresh]; [done |]. by eapply fresh_rules_ok.
  - unfold dialog_ok. cbn [operations set_selected set_ops idSeed].
    set (old := match visualMode d with ModeOperations => _ | ModeLegacy => _ end).
    rewrite <- (app_nil_r fresh). apply (rules_ok_add _ _ _ (idSeed d)); [| exact E |].
    + rewrite app_nil_r. destruct old as [|o l] eqn:Eo; [by right | left]. rewrite <- Eo.
      eapply rules_ok_sub; [exact H | | by rewrite Eo | lia]. unfold old. destruct (visualMode d); [apply filter_ids_sublist | apply sublist_nil_l].
    + rewrite app_nil_r. destruct old; [done | done].
Qed.

Lemma event_ok d d' : dialog_ok d -> dialog_event now t t_line d d' -> dialog_ok d'.
Proof.
  intros H Hev. pose proof (ro_some _ _ H) as Hne. destruct Hev; try exact H.
  - eapply same_ids_ok; [exact H | apply update_at_ids; intros o; apply patch_operation_ids | by apply update_at_some | cbn; lia].
  - unfold addOperation, createDefaultOperation, dialog_ok. cbn [operations set_selected set_ops idSeed].
    rewrite <- (app_nil_r [operation_of _ _ _ _]). apply (rules_ok_add _ _ _ (idSeed d)); [left; by rewrite app_nil_r | apply fresh_one | by destruct (operations d)].
  - by apply duplicate_ok.
  - by apply remove_ok.
  - by apply add_condition_ok.
  - eapply same_ids_ok; [exact H | apply update_at_ids; intros o; unfold op_ids; cbn; f_equal; apply patch_condition_ids | by apply update_at_some | cbn; lia].
  - eapply rules_ok_sub; [exact H | apply remove_condition_sublist | by apply update_at_some | cbn; lia].
  - eapply same_ids_ok; [exact H | apply update_at_ids; intros o; apply patch_operation_ids | by apply update_at_some | cbn; lia].
  - unfold updatePruneObjectsDraft. destruct (gen_map _ _ _) as [[ops seed]|] eqn:E; [| done]. pose proof (gen_map_length _ _ _ _ _ E) as Hl.
    apply prune_ids in E as [E Hle]; [| done]. eapply same_ids_ok; [exact H | exact E | by cbn; destruct ops, (operations d) | exact Hle].
  - unfold handleDragOver. by destruct (_ || _).
  - unfold handleDrop. cbv zeta. destruct (_ && _ && _); [| exact H]. pose proof (reorder_perm (operations d) (str_or (draggedOperationId d) s) id
      (if str_eqb (dragOverOperationId d) id then dragOverPosition d else Before)) as Hp.
    eapply rules_ok_perm; [exact H | by apply all_ids_perm | intros E; cbn in E; rewrite E in Hp; apply Permutation_nil_l in Hp; congruence].
  - unfold switchToJsonMode. destruct (bool_decide _); [done |]. destruct (buildVisualJson _ _ _); exact H.
  - by apply visual_mode_ok.
  - by apply fill_ok.
  - apply default_ok.
  - unfold formatJson. destruct (negb _); [done |]. by destruct (JSON_parse _).
  - unfold expand_all. by destruct (selected_operation d).
  - by apply (same_ids_ok d).
Qed.
End Steps.
End Ids.

Lemma keep_selection_selected d : operations d <> [] -> selectedOperationId (keep_selection d) ∈ map o_id (operations (keep_selection d)).
Proof.
  unfold keep_selection. destruct (operations d) as [|o l] eqn:E; [done |]. intros _.
  destruct (existsb _ (o :: l)) eqn:Ex; cbn [operations set_selected selectedOperationId]; rewrite E.
  - apply existsb_exists in Ex as (x & Hx & Hid%str_eqb_eq). rewrite <- Hid. apply list_elem_of_In, in_map, Hx.
  - by left.
Qed.

Lemma keep_selection_ops d : operations (keep_selection d) = operations d /\ idSeed (keep_selection d) = idSeed d.
Proof. unfold keep_selection. destruct (operations d) eqn:E; [done |]. destruct (existsb _ _); done. Qed.

Lemma open_dialog_ok now value seed d :
  open_dialog now value seed = Some d -> dialog_ok now d /\ selectedOperationId d ∈ map o_id (operations d).
Proof.
  unfold open_dialog. destruct (parseInitialState now seed value) as [[s next]|] eqn:E; [| done]. cbn [mbind option_bind]. intros [= <-].
  assert (rules_ok now (es_operations s) next) as H.
  { unfold parseInitialState in E. cbn [createDefaultOperation] in E. cbv zeta in E. pose proof (default_ok now seed) as Hd.
    destruct (negb _); [injection E as <- <-; exact Hd |]. destruct (JSON_parse _) as [[| | | | |l]|]; try (injection E as <- <-; exact Hd).
    destruct (map_get (js "operations") l) as [[| | | |ops|]|]; try (injection E as <- <-; exact Hd).
    destruct (read_operations now seed ops) as [[o' s']|] eqn:Er; [| done]. injection E as <- <-. by eapply read_ok. }
  split; [exact H |]. cbn. destruct H as [_ _ Hne]. destruct (es_operations s); [done |]. by left.
Qed.

(** C29: Whatever is done in the dialog - rules added, copied, removed, moved by drag and
    drop, conditions edited, the editor switched between visual and JSON, templates
    filled in - the identifiers of all rules and conditions stay pairwise different,
    there is always a rule, and the selected identifier is that of a rule.  The handlers
    find rules by these identifiers. *)
Theorem rule_ids_unique now t t_line value seed d0 d :
  open_dialog now value seed = Some d0 -> rtc (dialog_step now t t_line) d0 d ->
  NoDup (all_ids (operations d)) /\ operations d <> [] /\ selectedOperationId d ∈ map o_id (operations d).
Proof.
  intros [H0 Hs0]%open_dialog_ok Hr.
  assert (dialog_ok now d /\ selectedOperationId d ∈ map o_id (operations d)) as [[] ?]; [| done].
  induction Hr as [|x y z [y' Hev] _ IH]; [done |]. apply IH; pose proof (event_ok now t t_line x y' H0 Hev) as Hy.
  - unfold dialog_ok in *. destruct (keep_selection_ops y') as [-> ->]. exact Hy.
  - apply keep_selection_selected. by destruct Hy.
Qed.

Definition edited_dialog : Dialog :=
  let d := opened demo_override 0 in
  let first := first_id (operations d) in
  keep_selection (removeOperation still_clock first (keep_selection (duplicateOperation still_clock first d))).

Lemma rule_ids_unique_witness :
  map o_id (operations edited_dialog) = [js "po_1700000000000_3"; js "po_1700000000000_2"] /\
  NoDup (all_ids (operations edited_dialog)) /\ operations edited_dialog <> [] /\ selectedOperationId edited_dialog ∈ map o_id (operations edited_dialog).
Proof.
  split; [vm_compute; reflexivity |].
  apply (rule_ids_unique still_clock (fun s => s) plain_line demo_override 0 (opened demo_override 0)); [vm_compute; reflexivity |].
  unfold edited_dialog. cbv zeta. eapply rtc_l; [apply step_event, ev_duplicate |]. eapply rtc_l; [apply step_event, ev_remove |]. apply rtc_refl.
Defined.

(** ** Rules of [prune_objects] *)

(** An updater that ends in the same text. *)
Lemma prune_updater_ext now id f g d :
  (forall s text draft s', (idSeed d <= s)%N -> parsePruneObjectsDraft now s text = Some (draft, s') ->
     snd (f s' draft) = snd (g s' draft) /\ buildPruneObjectsValueText (fst (f s' draft)) = buildPruneObjectsValueText (fst (g s' draft))) ->
  (forall n x, n <= snd (f n x))%N ->
  operations (updatePruneObjectsDraft now id f d) = operations (updatePruneObjectsDraft now id g d).
Proof.
  intros H Hmono. unfold updatePruneObjectsDraft.
  assert (forall l s, (idSeed d <= s)%N -> gen_map (prune_step now id f) s l = gen_map (prune_step now id g) s l) as E; [| by rewrite E by lia].
  induction l as [|o l IH]; intros s Hs; [done |]. cbn [gen_map].
  assert (prune_step now id f s o = prune_step now id g s o) as E.
  { unfold prune_step. destruct (negb _); [done |]. destruct (parsePruneObjectsDraft now s (o_value_text o)) as [[draft s1]|] eqn:Ep; [| done].
    cbn [mbind option_bind]. destruct (H s _ _ _ Hs Ep) as [E1 E2]. destruct (f s1 draft), (g s1 draft). cbn in *. by rewrite E1, E2. }
  rewrite <- E. destruct (prune_step now id f s o) as [[o' s1]|] eqn:Eo; [| done]. cbn [mbind option_bind].
  apply prune_step_ids in Eo as [_ Hle]; [| done]. by rewrite IH by lia.
Qed.

Lemma old_rule_not_found now s text draft s' ruleId :
  parsePruneObjectsDraft now s text = Some (draft, s') -> between now 0 s ruleId -> Forall (fun r => str_eqb (c_id r) ruleId = false) (pd_rules draft).
Proof.
  intros (_ & _ & Hf)%prune_parse_fresh Hold. apply Forall_forall. intros r Hr. rewrite Forall_forall in Hf. apply not_true_iff_false.
  intros E%str_eqb_eq. eapply (between_disjoint now 0 s s' ruleId); [exact Hold |]. rewrite <- E. apply Hf, list_elem_of_In, in_map, list_elem_of_In, Hr.
Qed.

Lemma build_prune_simple draft rules rules' b :
  List.filter (fun r => truthy (trim (c_path r))) rules = List.filter (fun r => truthy (trim (c_path r))) rules' ->
  buildPruneObjectsValueText (with_rules draft b rules) = buildPruneObjectsValueText (with_rules draft b rules').
Proof. intros H. unfold buildPruneObjectsValueText, with_rules. cbn [pd_rules pd_simpleMode pd_typeText pd_logic pd_recursive]. by rewrite H. Qed.

(** The rules of [prune_objects] cannot be edited in the visual editor.  The panel
    shows rules whose identifiers were made when the text was read; changing or removing
    a rule reads the text again, which makes new identifiers, so the rule is never found
    and the text is only written again; and a new rule has no path, so it is left out
    when the text is written. *)
Theorem prune_rules_not_editable now d shown draft n r operationId patch :
  pruneObjectsDraft now shown = Some (draft, n) -> r ∈ pd_rules draft -> (n <= idSeed d)%N ->
  let rewritten := operations (updatePruneObjectsDraft now operationId (fun s x => (x, s)) d) in
  operations (updatePruneRule now operationId (c_id r) patch d) = rewritten /\
  operations (removePruneRule now operationId (c_id r) d) = rewritten /\
  operations (addPruneRule now operationId d) =
    operations (updatePruneObjectsDraft now operationId (fun s x => (with_rules x false (pd_rules x), N.succ s)) d).
Proof.
  intros Hshown Hr Hn rewritten.
  assert (forall s, (idSeed d <= s)%N -> between now 0 s (c_id r)) as Hold.
  { intros s Hs. unfold pruneObjectsDraft in Hshown. destruct (selected_operation shown) as [op|]; [| done]. cbn [mbind option_bind] in Hshown.
    destruct (str_eqb _ _); [| done]. apply prune_parse_fresh in Hshown as (_ & _ & Hf). rewrite Forall_forall in Hf.
    eapply between_weaken; [apply Hf, list_elem_of_In, in_map, list_elem_of_In, Hr | lia | lia]. }
  split; [| split].
  - apply prune_updater_ext; [| cbn; lia]. intros s text x s' Hs Hp. split; [done |]. cbn [fst].
    pose proof (old_rule_not_found _ _ _ _ _ _ Hp (Hold s Hs)) as Hno.
    assert (map (fun r0 => if str_eqb (c_id r0) (c_id r) then patch_condition r0 patch else r0) (pd_rules x) = pd_rules x) as ->; [| by destruct x].
    clear Hp. induction Hno as [|y l Hy _ IH]; cbn; [done |]. by rewrite Hy, IH.
  - apply prune_updater_ext; [| cbn; lia]. intros s text x s' Hs Hp. split; [done |]. cbn [fst].
    pose proof (old_rule_not_found _ _ _ _ _ _ Hp (Hold s Hs)) as Hno.
    assert (List.filter (fun r0 => negb (str_eqb (c_id r0) (c_id r))) (pd_rules x) = pd_rules x) as ->; [| by destruct x].
    clear Hp. induction Hno as [|y l Hy _ IH]; cbn; [done |]. rewrite Hy. cbn. by rewrite IH.
  - apply prune_updater_ext; [| cbn; lia]. intros s text x s' Hs Hp. split; [done |]. apply build_prune_simple.
    rewrite List.filter_app. cbn. by rewrite app_nil_r.
Qed.

(** A rule that prunes objects by two conditions; the dialog after the panel was drawn. *)
Definition demo_prune : str :=
  jsq "{'operations':[{'mode':'prune_objects','path':'messages','value':{'type':'thinking','conditions':[{'path':'a','mode':'full','value':1},{'path':'b','mode':'full','value':2}]}}]}".
Definition drawn : Dialog := let d := opened demo_prune 0 in set_ops d (operations d) 3.

Lemma prune_rules_not_editable_witness :
  let rewritten := operations (updatePruneObjectsDraft still_clock (js "po_1700000000000_0") (fun s x => (x, s)) drawn) in
  map o_value_text rewritten = map o_value_text (operations drawn) /\
  operations (updatePruneRule still_clock (js "po_1700000000000_0") (js "po_1700000000000_2") (PatchCondPath (js "c")) drawn) = rewritten /\
  operations (removePruneRule still_clock (js "po_1700000000000_0") (js "po_1700000000000_2") drawn) = rewritten /\
  operations (addPruneRule still_clock (js "po_1700000000000_0") drawn) =
    operations (updatePruneObjectsDraft still_clock (js "po_1700000000000_0") (fun s x => (with_rules x false (pd_rules x), N.succ s)) drawn).
Proof.
  cbv zeta. split; [vm_compute; reflexivity |].
  apply (prune_rules_not_editable still_clock drawn (opened demo_prune 0)
    (default (mkPrune false [] [] false []) (fst <$> pruneObjectsDraft still_clock (opened demo_prune 0))) 3
    (mkCond (js "po_1700000000000_2") (js "b") (js "full") (js "2") false false)).
  - vm_compute; reflexivity.
  - assert (pd_rules (default (mkPrune false [] [] false []) (fst <$> pruneObjectsDraft still_clock (opened demo_prune 0))) =
      [mkCond (js "po_1700000000000_1") (js "a") (js "full") (js "1") false false; mkCond (js "po_1700000000000_2") (js "b") (js "full") (js "2") false false]) as ->
      by (vm_compute; reflexivity).
    right. left.
  - vm_compute. discriminate.
Defined.
