(* ===== verification/AdvancedCustom.v ===== *)
(** * Channels: advanced custom routes

    Model of [features/channels/lib/advanced-custom.ts] and of the dialog
    [features/channels/components/dialogs/advanced-custom-editor-dialog.tsx]: routes from
    an incoming path to an upstream path, with a converter and the way to authenticate.

    A configuration may come from a JSON text, so a field is any JSON value or missing
    ([option json]); a method call on something else than a string throws ([None]).
    [new URL] belongs to the browser: it is the parameter [new_URL], which gives the
    protocol and the host of a text, or nothing where the constructor throws. *)
From S2P Require Import Prelude Number Regex Json JsonPretty JsonObject ParamOverride.

(** ** Types *)

Record AdvancedCustomRouteAuth := mkAuth { au_type : option json; au_name : option json; au_value : option json }.
Record AdvancedCustomRoute := mkRoute {
  incoming_path : option json; upstream_path : option json; converter : option json; auth : option AdvancedCustomRouteAuth
}.
(** A missing or malformed list of routes counts as an empty one. *)
Record AdvancedCustomConfig := mkConfig { advanced_routes : list AdvancedCustomRoute }.
Record AdvancedCustomValidationError := mkRouteError { routeIndex : option nat; message : str }.

(** ** Tables *)

Definition ADVANCED_CUSTOM_CONVERTER_OPTIONS : list (str * str) :=
  [(js "none", js "Native forwarding");
   (js "anthropic_messages_to_openai_chat_completions", js "Anthropic Messages to OpenAI Chat");
   (js "openai_chat_completions_to_anthropic_messages", js "OpenAI Chat to Anthropic Messages");
   (js "openai_chat_completions_to_openai_responses", js "OpenAI Chat to OpenAI Responses");
   (js "openai_responses_to_openai_chat_completions", js "OpenAI Responses to OpenAI Chat");
   (js "gemini_generate_content_to_openai_chat_completions", js "Gemini Generate Content to OpenAI Chat");
   (js "openai_chat_completions_to_gemini_generate_content", js "OpenAI Chat to Gemini Generate Content")].

Definition ADVANCED_CUSTOM_AUTH_MODE_OPTIONS : list (str * str) :=
  [(js "default", js "Default Bearer"); (js "none", js "No Auth"); (js "header", js "Header"); (js "query", js "Query")].

Definition ADVANCED_CUSTOM_INCOMING_PATH_OPTIONS : list (str * str) :=
  [(js "/v1/chat/completions", js "OpenAI Chat"); (js "/v1/responses", js "OpenAI Responses");
   (js "/v1/responses/compact", js "OpenAI Responses Compact"); (js "/v1/embeddings", js "OpenAI Embeddings");
   (js "/v1/images/generations", js "OpenAI Image Generations"); (js "/v1/images/edits", js "OpenAI Image Edits");
   (js "/v1/completions", js "OpenAI Completions"); (js "/v1/audio/speech", js "OpenAI Audio Speech");
   (js "/v1/audio/transcriptions", js "OpenAI Audio Transcriptions"); (js "/v1/audio/translations", js "OpenAI Audio Translations");
   (js "/v1/rerank", js "OpenAI Rerank"); (js "/v1/realtime", js "OpenAI Realtime"); (js "/v1/messages", js "Claude Messages");
   (js "/v1beta/models/{model}:generateContent", js "Gemini Generate Content");
   (js "/v1beta/models/{model}:embedContent", js "Gemini Embed Content");
   (js "/v1beta/models/{model}:batchEmbedContents", js "Gemini Batch Embed Contents")].

Definition ADVANCED_CUSTOM_ROUTE_SUMMARY_LABELS : list (str * str) := [(js "/v1/chat/completions", js "OpenAI Chat")].

(** [options.find(o => o.value === value)?.label || value]. *)
Definition getOptionLabel (options : list (str * str)) (value : str) : str := str_or (default [] (map_get value options)) value.

Definition jtext (s : String.string) : option json := Some (JStr (js s)).
Arguments jtext s%_string.
Definition bearerHeaderAuth : AdvancedCustomRouteAuth := mkAuth (jtext "header") (jtext "Authorization") (jtext "Bearer {api_key}").
Definition apiKeyHeaderAuth : AdvancedCustomRouteAuth := mkAuth (jtext "header") (jtext "x-api-key") (jtext "{api_key}").
Definition geminiQueryAuth : AdvancedCustomRouteAuth := mkAuth (jtext "query") (jtext "key") (jtext "{api_key}").

(** A route of a template that keeps its path. *)
Definition native_route (path : String.string) (a : AdvancedCustomRouteAuth) : AdvancedCustomRoute :=
  mkRoute (jtext path) (jtext path) (jtext "none") (Some a).
Arguments native_route path%_string a.

Definition ADVANCED_CUSTOM_TEMPLATE_OPTIONS : list (str * (str * AdvancedCustomConfig)) :=
  [(js "official_openai_chat", (js "Official OpenAI Chat", mkConfig [native_route "/v1/chat/completions" bearerHeaderAuth]));
   (js "official_openai_responses", (js "Official OpenAI Responses", mkConfig [native_route "/v1/responses" bearerHeaderAuth]));
   (js "official_openai_embeddings", (js "Official OpenAI Embeddings", mkConfig [native_route "/v1/embeddings" bearerHeaderAuth]));
   (js "official_openai_images", (js "Official OpenAI Images",
      mkConfig [native_route "/v1/images/generations" bearerHeaderAuth; native_route "/v1/images/edits" bearerHeaderAuth]));
   (js "official_claude_messages", (js "Official Claude Messages", mkConfig [native_route "/v1/messages" apiKeyHeaderAuth]));
   (js "official_gemini_native", (js "Official Gemini Native",
      mkConfig [native_route "/v1beta/models/{model}:generateContent" geminiQueryAuth;
                native_route "/v1beta/models/{model}:embedContent" geminiQueryAuth;
                native_route "/v1beta/models/{model}:batchEmbedContents" geminiQueryAuth]));
   (js "official_gemini_from_openai_chat", (js "Official Gemini from OpenAI Chat",
      mkConfig [mkRoute (jtext "/v1/chat/completions") (jtext "/v1beta/models/{model}:generateContent")
                  (jtext "openai_chat_completions_to_gemini_generate_content") (Some geminiQueryAuth)]))].

(** ** Objects *)

Definition route_field (k : String.string) (v : option json) : entries := match v with Some v => [(js k, v)] | None => [] end.
Arguments route_field k%_string v.

Definition auth_json (a : AdvancedCustomRouteAuth) : json :=
  JObj (route_field "type" (au_type a) ++ route_field "name" (au_name a) ++ route_field "value" (au_value a)).
Definition route_json (r : AdvancedCustomRoute) : json :=
  JObj (route_field "incoming_path" (incoming_path r) ++ route_field "upstream_path" (upstream_path r) ++ route_field "converter" (converter r) ++
        route_field "auth" (auth_json <$> auth r)).
Definition routes_config_json (c : AdvancedCustomConfig) : json := JObj [(js "advanced_routes", JArr (map route_json (advanced_routes c)))].

(** What the code reads of a value: a falsy [auth] counts as missing. *)
Definition auth_of (v : option json) : option AdvancedCustomRouteAuth :=
  v ← v;
  if j_truthy v then l ← props_of v; Some (mkAuth (map_get (js "type") l) (map_get (js "name") l) (map_get (js "value") l)) else None.
Definition route_of (v : json) : option AdvancedCustomRoute :=
  l ← props_of v;
  Some (mkRoute (map_get (js "incoming_path") l) (map_get (js "upstream_path") l) (map_get (js "converter") l) (auth_of (map_get (js "auth") l))).
Definition config_of (l : entries) : option AdvancedCustomConfig :=
  match map_get (js "advanced_routes") l with
  | Some (JArr vs) => mkConfig <$> mapM route_of vs
  | _ => Some (mkConfig [])
  end.

(** [v || fallback]. *)
Definition value_or (v : option json) (fallback : json) : json :=
  match v with Some v => if j_truthy v then v else fallback | None => fallback end.
(** [v?.trim() || '']. *)
Definition trim_of (v : option json) : option str :=
  match v with None | Some JNull => Some [] | Some (JStr s) => Some (trim s) | Some _ => None end.

(** ** Normalization *)

Definition getAdvancedCustomRouteUpstreamPath (route : AdvancedCustomRoute) : option str :=
  trim_of (Some (value_or (upstream_path route) (JStr []))).

Definition normalizeAdvancedCustomRoute (route : AdvancedCustomRoute) : option AdvancedCustomRoute :=
  upstream ← getAdvancedCustomRouteUpstreamPath route;
  Some (mkRoute (Some (value_or (incoming_path route) (JStr []))) (Some (JStr upstream))
          (Some (value_or (converter route) (JStr (js "none"))))
          ((fun a => mkAuth (au_type a) (Some (value_or (au_name a) (JStr []))) (Some (value_or (au_value a) (JStr [])))) <$> auth route)).

Definition normalizeAdvancedCustomConfig (config : AdvancedCustomConfig) : option AdvancedCustomConfig :=
  mkConfig <$> mapM normalizeAdvancedCustomRoute (advanced_routes config).

(** [None] is [null]. *)
Definition parseAdvancedCustomConfig (value : option str) : option AdvancedCustomConfig :=
  value ← value;
  if negb (truthy (trim value)) then None
  else match JSON_parse value with
       | Some (JObj l) => c ← config_of l; normalizeAdvancedCustomConfig c
       | _ => None
       end.

Definition stringifyAdvancedCustomConfig (config : AdvancedCustomConfig) : option str :=
  (fun c => JSON_pretty (routes_config_json c)) <$> normalizeAdvancedCustomConfig config.

Definition cloneAdvancedCustomConfig (config : AdvancedCustomConfig) : option AdvancedCustomConfig :=
  match JSON_parse (JSON_stringify (routes_config_json config)) with Some (JObj l) => config_of l | _ => None end.

Definition getAdvancedCustomTemplateConfig (templateKey : str) : option AdvancedCustomConfig :=
  cloneAdvancedCustomConfig
    (match map_get templateKey ADVANCED_CUSTOM_TEMPLATE_OPTIONS with
     | Some template => snd template
     | None => match ADVANCED_CUSTOM_TEMPLATE_OPTIONS with (_, template) :: _ => snd template | [] => mkConfig [] end
     end).

Definition createAdvancedCustomRoute : AdvancedCustomRoute :=
  mkRoute (jtext "/v1/chat/completions") (jtext "/v1/chat/completions") (jtext "none") None.
Definition createAdvancedCustomConfig : AdvancedCustomConfig := mkConfig [createAdvancedCustomRoute].

(** ** Converters *)

Definition isAdvancedCustomConverter (value : json) : bool :=
  match value with JStr s => existsb (fun o => str_eqb (fst o) s) ADVANCED_CUSTOM_CONVERTER_OPTIONS | _ => false end.

Definition isConverterPathAllowed (incomingPath converter : str) : bool :=
  if str_eqb converter (js "none") then true
  else if str_eqb converter (js "anthropic_messages_to_openai_chat_completions") then str_eqb incomingPath (js "/v1/messages")
  else if str_eqb converter (js "openai_chat_completions_to_anthropic_messages") ||
          str_eqb converter (js "openai_chat_completions_to_openai_responses") ||
          str_eqb converter (js "openai_chat_completions_to_gemini_generate_content") then str_eqb incomingPath (js "/v1/chat/completions")
  else if str_eqb converter (js "openai_responses_to_openai_chat_completions") then str_eqb incomingPath (js "/v1/responses")
  else str_includes incomingPath (js ":generateContent") || str_includes incomingPath (js ":streamGenerateContent").

Definition isAdvancedCustomIncomingPathAllowed : str -> str -> bool := isConverterPathAllowed.

Definition getAdvancedCustomUpstreamPathPlaceholder (converter : str) : str :=
  if str_eqb converter (js "openai_chat_completions_to_gemini_generate_content") then js "/v1beta/models/{model}:generateContent"
  else if str_eqb converter (js "openai_chat_completions_to_anthropic_messages") then js "/v1/messages"
  else if str_eqb converter (js "openai_responses_to_openai_chat_completions") then js "/v1/chat/completions"
  else js "/v1/chat/completions".

Definition getAdvancedCustomIncomingPathOptions (converter : str) : list (str * str) :=
  List.filter (fun o => isConverterPathAllowed (fst o) converter) ADVANCED_CUSTOM_INCOMING_PATH_OPTIONS.

Definition getDefaultAdvancedCustomIncomingPath (converter : str) : str :=
  str_or (match getAdvancedCustomIncomingPathOptions converter with (path, _) :: _ => path | [] => [] end) (js "/v1/chat/completions").

Definition getAdvancedCustomConverterOptions (incomingPath : str) : list (str * str) :=
  let normalizedIncomingPath := trim incomingPath in
  List.filter (fun o => str_eqb (fst o) (js "none") || isConverterPathAllowed normalizedIncomingPath (fst o)) ADVANCED_CUSTOM_CONVERTER_OPTIONS.

Definition getAdvancedCustomIncomingPathLabel (value : str) : str := getOptionLabel ADVANCED_CUSTOM_INCOMING_PATH_OPTIONS value.

(** [null] is the inner [None]. *)
Definition getAdvancedCustomRouteSummaryLabel (route : AdvancedCustomRoute) : option (option str) :=
  incomingPath ← trim_of (incoming_path route);
  Some (if negb (truthy incomingPath) then None
        else Some (str_or (default [] (map_get incomingPath ADVANCED_CUSTOM_ROUTE_SUMMARY_LABELS)) (getAdvancedCustomIncomingPathLabel incomingPath))).

(** ** Validation *)

Definition has_text (v : option json) (s : String.string) : bool := match v with Some (JStr t) => str_eqb t (js s) | _ => false end.
Arguments has_text v s%_string.

(** The outer [None] is a thrown exception, the inner one [null]. *)
Definition validateRouteAuth (auth : option AdvancedCustomRouteAuth) : option (option str) :=
  match auth with
  | None => Some None
  | Some a =>
      if has_text (au_type a) "none" then Some None
      else if negb (has_text (au_type a) "header") && negb (has_text (au_type a) "query") then Some (Some (js "Auth type is invalid"))
      else
        name ← trim_of (au_name a);
        if negb (truthy name) then Some (Some (js "Auth name is required"))
        else
          value ← trim_of (au_value a);
          if negb (truthy value) then Some (Some (js "Auth value is required")) else Some None
  end.

Section Validation.
(** [new URL(value)]: the protocol and the host. *)
Variable new_URL : str -> option (str * str).

Definition isFullHttpURLOrAbsolutePath (value : str) : bool :=
  if starts_with value (js "/") then negb (starts_with value (js "//"))
  else match new_URL value with
       | Some (protocol, host) => truthy host && (str_eqb protocol (js "http:") || str_eqb protocol (js "https:"))
       | None => false
       end.

(** The body of the loop: a complaint about one route, given the paths seen before it. *)
Definition validate_route (seenPaths : list str) (route : AdvancedCustomRoute) : option (option str) :=
  incomingPath ← trim_of (incoming_path route);
  upstreamPath ← getAdvancedCustomRouteUpstreamPath route;
  let converter := value_or (converter route) (JStr (js "none")) in
  if negb (truthy incomingPath) then Some (Some (js "Incoming path is required"))
  else if negb (starts_with incomingPath (js "/")) then Some (Some (js "Incoming path must start with /"))
  else if str_includes incomingPath (js "?") then Some (Some (js "Incoming path must not include query"))
  else if set_has incomingPath seenPaths then Some (Some (js "Incoming path must be unique"))
  else if negb (truthy upstreamPath) then Some (Some (js "Upstream path is required"))
  else if negb (isFullHttpURLOrAbsolutePath upstreamPath) then Some (Some (js "Upstream path must be a full URL or a path starting with /"))
  else if negb (isAdvancedCustomConverter converter) then Some (Some (js "Converter is not registered"))
  else if negb (isConverterPathAllowed incomingPath (match converter with JStr s => s | _ => [] end)) then Some (Some (js "Converter does not match incoming path"))
  else validateRouteAuth (auth route).

Fixpoint validate_routes (seenPaths : list str) (index : nat) (routes : list AdvancedCustomRoute) : option (option AdvancedCustomValidationError) :=
  match routes with
  | [] => Some None
  | route :: rest =>
      complaint ← validate_route seenPaths route;
      match complaint with
      | Some m => Some (Some (mkRouteError (Some index) m))
      | None => incomingPath ← trim_of (incoming_path route); validate_routes (seenPaths ++ [incomingPath]) (S index) rest
      end
  end.

Definition validateAdvancedCustomConfig (config : option AdvancedCustomConfig) : option (option AdvancedCustomValidationError) :=
  match config with
  | None => Some (Some (mkRouteError None (js "Advanced custom configuration is required")))
  | Some config =>
      normalized ← normalizeAdvancedCustomConfig config;
      match advanced_routes normalized with
      | [] => Some (Some (mkRouteError None (js "Advanced custom configuration requires at least one route")))
      | routes => validate_routes [] 0 routes
      end
  end.

(** [some] stops at the first route that has such a path. *)
Definition advancedCustomConfigUsesRelativeUpstreamPath (config : option AdvancedCustomConfig) : option bool :=
  match config with
  | None => Some false
  | Some config =>
      normalized ← normalizeAdvancedCustomConfig config;
      paths ← mapM getAdvancedCustomRouteUpstreamPath (advanced_routes normalized);
      Some (existsb (fun p => starts_with p (js "/")) paths)
  end.

Record AdvancedCustomStats := mkStats { routeCount : nat; stats_valid : bool; routeTypeLabels : list str }.

(** Labels in the order of their first route. *)
Definition label_step (labels : list str) (label : option str) : list str :=
  match label with
  | Some l => if negb (truthy l) || set_has l labels then labels else labels ++ [l]
  | None => labels
  end.

Definition getAdvancedCustomStats (value : option str) : option AdvancedCustomStats :=
  match parseAdvancedCustomConfig value with
  | None => Some (mkStats 0 false [])
  | Some config =>
      normalized ← normalizeAdvancedCustomConfig config;
      labels ← mapM getAdvancedCustomRouteSummaryLabel (advanced_routes normalized);
      error ← validateAdvancedCustomConfig (Some normalized);
      Some (mkStats (length (advanced_routes normalized)) (match error with None => true | Some _ => false end) (foldl label_step [] labels))
  end.
End Validation.

(** ** Authentication *)

(** [route.auth?.type || 'default']. *)
Definition getAdvancedCustomAuthMode (route : AdvancedCustomRoute) : json :=
  value_or (a ← auth route; au_type a) (JStr (js "default")).

Definition buildAdvancedCustomAuth (mode : str) (previousAuth : option AdvancedCustomRouteAuth) : option AdvancedCustomRouteAuth :=
  let previous (f : AdvancedCustomRouteAuth -> option json) (fallback : str) := Some (value_or (a ← previousAuth; f a) (JStr fallback)) in
  if str_eqb mode (js "default") then None
  else if str_eqb mode (js "none") then Some (mkAuth (jtext "none") None None)
  else if str_eqb mode (js "header") then Some (mkAuth (jtext "header") (previous au_name (js "Authorization")) (previous au_value (js "Bearer {api_key}")))
  else Some (mkAuth (jtext "query") (previous au_name (js "api_key")) (previous au_value (js "{api_key}"))).

(** ** The editor of one route *)

(** A change of a route; a change of [auth] may remove it. *)
Record RoutePatch := mkPatch { p_incoming : option str; p_upstream : option str; p_converter : option str; p_auth : option (option AdvancedCustomRouteAuth) }.
Definition patch_text (p : option str) (old : option json) : option json := match p with Some s => Some (JStr s) | None => old end.
Definition apply_patch (r : AdvancedCustomRoute) (p : RoutePatch) : AdvancedCustomRoute :=
  mkRoute (patch_text (p_incoming p) (incoming_path r)) (patch_text (p_upstream p) (upstream_path r))
    (patch_text (p_converter p) (converter r)) (default (auth r) (p_auth p)).

(** The converter and the path that the editor shows, for a route with texts: rendering
    another one throws. *)
Definition shown_converter (r : AdvancedCustomRoute) : str := match value_or (converter r) (JStr (js "none")) with JStr s => s | _ => [] end.
Definition shown_path (r : AdvancedCustomRoute) : str :=
  match value_or (incoming_path r) (JStr (getDefaultAdvancedCustomIncomingPath (shown_converter r))) with JStr s => s | _ => [] end.

Definition setConverter (r : AdvancedCustomRoute) (nextConverter : str) : RoutePatch :=
  mkPatch (if negb (isAdvancedCustomIncomingPathAllowed (shown_path r) nextConverter)
           then Some (getDefaultAdvancedCustomIncomingPath nextConverter) else None) None (Some nextConverter) None.

(** [null] is the empty text. *)
Definition setIncomingPath (r : AdvancedCustomRoute) (nextIncomingPath : str) : RoutePatch :=
  let resolvedIncomingPath := str_or nextIncomingPath (getDefaultAdvancedCustomIncomingPath (shown_converter r)) in
  mkPatch (Some resolvedIncomingPath) None
    (if negb (isAdvancedCustomIncomingPathAllowed resolvedIncomingPath (shown_converter r)) then Some (js "none") else None) None.

Definition setUpstreamPath (value : str) : RoutePatch := mkPatch None (Some value) None None.

Definition setAuthMode (r : AdvancedCustomRoute) (mode : str) : RoutePatch :=
  mkPatch None None None (Some (buildAdvancedCustomAuth mode (auth r))).

Inductive AuthField := AuthName | AuthValue.
(** [None] when nothing is changed. *)
Definition updateAuth (r : AdvancedCustomRoute) (f : AuthField) (value : str) : option RoutePatch :=
  match auth r with
  | None => None
  | Some a =>
      if has_text (au_type a) "none" then None
      else
        let name := match f with AuthName => JStr value | AuthValue => value_or (au_name a) (JStr []) end in
        let val := match f with AuthName => value_or (au_value a) (JStr []) | AuthValue => JStr value end in
        Some (mkPatch None None None (Some (Some (mkAuth (au_type a) (Some name) (Some val)))))
  end.

(** ** The dialog *)

Inductive AdvancedCustomEditMode := RoutesVisual | RoutesJson.
#[global] Instance AdvancedCustomEditMode_eq_dec : EqDecision AdvancedCustomEditMode.
Proof. solve_decision. Defined.

Record RoutesDialog := mkRoutes {
  rd_config : AdvancedCustomConfig; rd_routeKeys : list str; rd_editMode : AdvancedCustomEditMode; rd_jsonText : str;
  rd_jsonError : str; rd_templateKey : str; routeKeyCounter : N
}.

Definition with_config (d : RoutesDialog) (c : AdvancedCustomConfig) (keys : list str) (counter : N) : RoutesDialog :=
  mkRoutes c keys (rd_editMode d) (rd_jsonText d) (rd_jsonError d) (rd_templateKey d) counter.
Definition with_json (d : RoutesDialog) (text error : str) : RoutesDialog :=
  mkRoutes (rd_config d) (rd_routeKeys d) (rd_editMode d) text error (rd_templateKey d) (routeKeyCounter d).
Definition with_mode (d : RoutesDialog) (mode : AdvancedCustomEditMode) : RoutesDialog :=
  mkRoutes (rd_config d) (rd_routeKeys d) mode (rd_jsonText d) (rd_jsonError d) (rd_templateKey d) (routeKeyCounter d).
Definition setTemplateKey (key : str) (d : RoutesDialog) : RoutesDialog :=
  mkRoutes (rd_config d) (rd_routeKeys d) (rd_editMode d) (rd_jsonText d) (rd_jsonError d) key (routeKeyCounter d).

Definition initial_key (routeIndex : nat) : str := js "advanced-custom-route-initial-" ++ show_N (N.of_nat routeIndex).
Definition createRouteKey (counter : N) : str := js "advanced-custom-route-" ++ show_N (N.succ counter).
Definition createRouteKeys (counter : N) (count : nat) : list str := map (fun i => createRouteKey (counter + N.of_nat i)) (seq 0 count).

(** The state that the dialog starts in. *)
Definition open_routes (value : str) : option RoutesDialog :=
  let config := default createAdvancedCustomConfig (parseAdvancedCustomConfig (Some value)) in
  normalized ← normalizeAdvancedCustomConfig config;
  jsonText ← stringifyAdvancedCustomConfig config;
  Some (mkRoutes config (map initial_key (seq 0 (length (advanced_routes normalized)))) RoutesVisual jsonText []
          (match ADVANCED_CUSTOM_TEMPLATE_OPTIONS with (key, _) :: _ => key | [] => [] end) 0).

Definition normalizedConfig (d : RoutesDialog) : option AdvancedCustomConfig := normalizeAdvancedCustomConfig (rd_config d).

(** The rows of the editor give indices in range. *)
Definition updateRoute (index : nat) (patch : RoutePatch) (d : RoutesDialog) : option RoutesDialog :=
  next ← normalizedConfig d;
  Some (with_config d (mkConfig (alter (fun r => apply_patch r patch) index (advanced_routes next))) (rd_routeKeys d) (routeKeyCounter d)).

Definition addRoute (d : RoutesDialog) : option RoutesDialog :=
  next ← normalizedConfig d;
  Some (with_config d (mkConfig (advanced_routes next ++ [createAdvancedCustomRoute])) (rd_routeKeys d ++ [createRouteKey (routeKeyCounter d)])
          (N.succ (routeKeyCounter d))).

Definition removeRoute (index : nat) (d : RoutesDialog) : option RoutesDialog :=
  next ← normalizedConfig d;
  Some (with_config d (mkConfig (delete index (advanced_routes next))) (delete index (rd_routeKeys d)) (routeKeyCounter d)).

Section Dialog.
Variable new_URL : str -> option (str * str).
Variable t : str -> str.

(** The configuration, if the text has a valid one, with the message set; [None] when
    the validation throws. *)
Definition parseJsonEditorConfig (d : RoutesDialog) : option (option AdvancedCustomConfig * RoutesDialog) :=
  match parseAdvancedCustomConfig (Some (rd_jsonText d)) with
  | None => Some (None, with_json d (rd_jsonText d) (t (js "Invalid JSON")))
  | Some parsed =>
      error ← validateAdvancedCustomConfig new_URL (Some parsed);
      match error with
      | Some e => Some (None, with_json d (rd_jsonText d) (t (message e)))
      | None => Some (Some parsed, with_json d (rd_jsonText d) [])
      end
  end.

(** The configuration with new keys for its routes. *)
Definition show_config (d : RoutesDialog) (c : AdvancedCustomConfig) : RoutesDialog :=
  let n := length (advanced_routes c) in
  with_config d c (createRouteKeys (routeKeyCounter d) n) (routeKeyCounter d + N.of_nat n).

Definition showRoutesVisual (d : RoutesDialog) : option RoutesDialog :=
  '(parsed, d) ← parseJsonEditorConfig d;
  match parsed with
  | None => Some d
  | Some parsed => normalized ← normalizeAdvancedCustomConfig parsed; Some (with_mode (show_config d normalized) RoutesVisual)
  end.

Definition showRoutesJson (d : RoutesDialog) : option RoutesDialog :=
  normalized ← normalizedConfig d;
  text ← stringifyAdvancedCustomConfig normalized;
  Some (with_mode (with_json d text []) RoutesJson).

Definition changeRoutesJson (nextValue : str) (d : RoutesDialog) : RoutesDialog :=
  with_json d nextValue (if truthy (rd_jsonError d) then [] else rd_jsonError d).

Definition formatRoutesJson (d : RoutesDialog) : option RoutesDialog :=
  '(parsed, d) ← parseJsonEditorConfig d;
  match parsed with
  | None => Some d
  | Some parsed => text ← stringifyAdvancedCustomConfig parsed; Some (with_json d text (rd_jsonError d))
  end.

Inductive TemplateMode := TemplateFill | TemplateAppend.

Definition applyTemplate (mode : TemplateMode) (d : RoutesDialog) : option RoutesDialog :=
  templateConfig ← getAdvancedCustomTemplateConfig (rd_templateKey d);
  '(nextConfig, d) ←
    match mode with
    | TemplateFill => Some (Some templateConfig, d)
    | TemplateAppend =>
        '(baseConfig, d) ← match rd_editMode d with
                           | RoutesJson => parseJsonEditorConfig d
                           | RoutesVisual => c ← normalizedConfig d; Some (Some c, d)
                           end;
        match baseConfig with
        | None => Some (None, d)
        | Some baseConfig =>
            base ← normalizeAdvancedCustomConfig baseConfig;
            template ← normalizeAdvancedCustomConfig templateConfig;
            Some (Some (mkConfig (advanced_routes base ++ advanced_routes template)), d)
        end
    end;
  match nextConfig with
  | None => Some d
  | Some nextConfig =>
      normalized ← normalizeAdvancedCustomConfig nextConfig;
      text ← stringifyAdvancedCustomConfig normalized;
      Some (with_json (show_config d normalized) text [])
  end.

(** What a save does: the text that is handed over (the dialog closes) or the message of
    the toast. *)
Definition saveRoutes (d : RoutesDialog) : option ((str + str) * RoutesDialog) :=
  match rd_editMode d with
  | RoutesJson =>
      '(parsed, d) ← parseJsonEditorConfig d;
      match parsed with
      | None => Some (inl (t (js "Please fix JSON errors before saving")), d)
      | Some parsed => text ← stringifyAdvancedCustomConfig parsed; Some (inr text, d)
      end
  | RoutesVisual =>
      normalized ← normalizedConfig d;
      error ← validateAdvancedCustomConfig new_URL (Some normalized);
      match error with
      | Some e => Some (inl (t (message e)), d)
      | None => text ← stringifyAdvancedCustomConfig normalized; Some (inr text, d)
      end
  end.

(** ** Steps *)

(** The changes that the editor of a route makes. *)
Inductive route_change (r : AdvancedCustomRoute) : RoutePatch -> Prop :=
| change_upstream s : route_change r (setUpstreamPath s)
| change_converter s : route_change r (setConverter r s)
| change_path s : route_change r (setIncomingPath r s)
| change_mode s : route_change r (setAuthMode r s)
| change_auth f s p : updateAuth r f s = Some p -> route_change r p.

(** An edit in the visual editor, which shows the normalized routes. *)
Inductive visual_edit (d : RoutesDialog) : RoutesDialog -> Prop :=
| edit_route n index r patch d' :
    rd_editMode d = RoutesVisual -> normalizedConfig d = Some n -> advanced_routes n !! index = Some r -> route_change r patch ->
    updateRoute index patch d = Some d' -> visual_edit d d'
| edit_add d' : rd_editMode d = RoutesVisual -> addRoute d = Some d' -> visual_edit d d'
| edit_remove index d' : rd_editMode d = RoutesVisual -> removeRoute index d = Some d' -> visual_edit d d'.

Inductive routes_step (d : RoutesDialog) : RoutesDialog -> Prop :=
| routes_edit d' : visual_edit d d' -> routes_step d d'
| routes_visual d' : showRoutesVisual d = Some d' -> routes_step d d'
| routes_json d' : showRoutesJson d = Some d' -> routes_step d d'
| routes_change s : rd_editMode d = RoutesJson -> routes_step d (changeRoutesJson s d)
| routes_format d' : rd_editMode d = RoutesJson -> formatRoutesJson d = Some d' -> routes_step d d'
| routes_template m d' : applyTemplate m d = Some d' -> routes_step d d'
| routes_key k : routes_step d (setTemplateKey k d)
| routes_save r d' : saveRoutes d = Some (r, d') -> routes_step d d'.
End Dialog.
