(* ===== verification/AdvancedProps.v ===== *)
(** * Advanced custom routes: theorems

    Validation accepts exactly the configurations whose routes are in order; what the
    dialog saves is valid and stays the same when it is read and saved again; the keys of
    the rows stay unique; and a second click on the button of the visual editor takes
    the edits back. *)
From S2P Require Import Prelude Number Regex Json JsonPretty JsonObject ParamOverride ParamRoundtrip AdvancedCustom.
From stdpp Require Import relations.

(** ** Normalization *)

Lemma value_or_idemp v fallback : value_or (Some (value_or v fallback)) fallback = value_or v fallback.
Proof. destruct v as [v|]; cbn; [destruct (j_truthy v) eqn:E; cbn; [by rewrite E |] |]; by destruct (j_truthy fallback). Qed.

Lemma trim_of_upstream s : trim_of (Some (value_or (Some (JStr s)) (JStr []))) = Some (trim s).
Proof. by destruct s. Qed.

Lemma normalize_route_idemp r n : normalizeAdvancedCustomRoute r = Some n -> normalizeAdvancedCustomRoute n = Some n.
Proof.
  unfold normalizeAdvancedCustomRoute, getAdvancedCustomRouteUpstreamPath.
  destruct (trim_of (Some (value_or (upstream_path r) (JStr [])))) as [u|] eqn:E; [| done]. cbn [mbind option_bind]. intros [= <-].
  assert (trim u = u) as Hu.
  { destruct (value_or (upstream_path r) (JStr [])); try done; cbn in E; injection E as <-; [done | apply trim_idemp]. }
  cbn [upstream_path incoming_path converter auth]. rewrite trim_of_upstream, Hu. cbn [mbind option_bind]. rewrite !value_or_idemp.
  destruct (auth r) as [a|]; cbn [fmap option_fmap option_map au_type au_name au_value]; by rewrite ?value_or_idemp.
Qed.

Lemma mapM_idemp {A} (f : A -> option A) l k : (forall x y, f x = Some y -> f y = Some y) -> mapM f l = Some k -> mapM f k = Some k.
Proof.
  intros Hf. revert k. induction l as [|x l IH]; intros k; cbn; [by intros [= <-] |].
  destruct (f x) as [y|] eqn:E; [| done]. cbn. destruct (mapM f l) as [ys|]; [| done]. cbn. intros [= <-]. cbn.
  rewrite (Hf _ _ E). cbn. by rewrite (IH ys).
Qed.

Lemma normalize_config_idemp c n : normalizeAdvancedCustomConfig c = Some n -> normalizeAdvancedCustomConfig n = Some n.
Proof.
  unfold normalizeAdvancedCustomConfig. destruct (mapM _ (advanced_routes c)) as [l|] eqn:E; [| done]. cbn. intros [= <-]. cbn.
  apply mapM_idemp in E; [by rewrite E | exact normalize_route_idemp].
Qed.

(** ** Validation *)

Definition auth_valid (a : option AdvancedCustomRouteAuth) : Prop :=
  match a with
  | None => True
  | Some a =>
      au_type a = Some (JStr (js "none")) \/
      (au_type a = Some (JStr (js "header")) \/ au_type a = Some (JStr (js "query"))) /\
      (exists s, au_name a = Some (JStr s) /\ trim s <> []) /\ (exists s, au_value a = Some (JStr s) /\ trim s <> [])
  end.

Lemma has_text_true v s : has_text v s = true <-> v = Some (JStr (js s)).
Proof.
  destruct v as [[| | |u| |]|]; cbn; try (split; [done | intros [=]]). rewrite str_eqb_eq. split; [by intros -> | by intros [= ->]].
Qed.

Lemma trim_of_some v s : s <> [] -> trim_of v = Some s <-> exists u, v = Some (JStr u) /\ trim u = s.
Proof.
  intros Hs. destruct v as [[| | |u| |]|]; cbn; split; try done; try (by intros [= <-]); try (intros (u' & [=] & _); done).
  - intros [= <-]. eauto.
  - intros (u' & [= <-] & <-). done.
Qed.

(** A text that is required. *)
Lemma required_text v (m : str) (k : option (option str)) :
  (name ← trim_of v; if negb (truthy name) then Some (Some m) else k) = Some None <-> (exists s, v = Some (JStr s) /\ trim s <> []) /\ k = Some None.
Proof.
  split.
  - destruct (trim_of v) as [s|] eqn:E; [| done]. cbn. destruct s as [|c s]; [done |]. cbn. intros ->. split; [| done].
    apply trim_of_some in E as (u & -> & Hu); [| done]. exists u. split; [done |]. by rewrite Hu.
  - intros [(s & -> & Hs) ->]. cbn. by destruct (trim s).
Qed.

Lemma validate_auth_ok a : validateRouteAuth a = Some None <-> auth_valid a.
Proof.
  destruct a as [a|]; [| done]. unfold validateRouteAuth, auth_valid. destruct (has_text (au_type a) "none") eqn:En.
  { apply has_text_true in En. split; [by left | done]. }
  assert (au_type a <> Some (JStr (js "none"))) as Hn by (intros H%(has_text_true _ "none"); congruence).
  destruct (negb _ && negb _) eqn:Eh.
  - apply andb_prop in Eh as [H1%negb_true_iff H2%negb_true_iff]. split; [done |].
    intros [H | [[H | H] _]]; [done | by rewrite H in H1 | by rewrite H in H2].
  - rewrite required_text, required_text. assert (au_type a = Some (JStr (js "header")) \/ au_type a = Some (JStr (js "query"))).
    { rewrite <- (has_text_true _ "header"), <- (has_text_true _ "query"). destruct (has_text _ "header"); [by left |]. right. by destruct (has_text _ "query"). }
    naive_solver.
Qed.

Section Routes.
Variable new_URL : str -> option (str * str).

(** A route in order, for the given incoming path. *)
Definition route_valid (path : str) (r : AdvancedCustomRoute) : Prop :=
  (exists p, incoming_path r = Some (JStr p) /\ trim p = path) /\
  starts_with path (js "/") = true /\ str_includes path (js "?") = false /\
  (exists u, upstream_path r = Some (JStr u) /\ trim u <> [] /\ isFullHttpURLOrAbsolutePath new_URL (trim u) = true) /\
  (exists s, converter r = Some (JStr s) /\ s ∈ map fst ADVANCED_CUSTOM_CONVERTER_OPTIONS /\ isConverterPathAllowed path s = true) /\
  auth_valid (auth r).

Lemma registered_converter v : isAdvancedCustomConverter v = true <-> exists s, v = JStr s /\ s ∈ map fst ADVANCED_CUSTOM_CONVERTER_OPTIONS.
Proof.
  destruct v as [| | |s| |]; cbn [isAdvancedCustomConverter]; try (split; [done | intros (s & [=] & _)]).
  rewrite existsb_exists. setoid_rewrite str_eqb_eq. split.
  - intros (o & Ho & <-). eexists. split; [done |]. apply list_elem_of_In. by apply in_map.
  - intros (s' & [= <-] & H). apply list_elem_of_In, in_map_iff in H as (o & <- & Ho). eauto.
Qed.

(** What the loop asks of a normalized route. *)
Lemma validate_route_ok seen r n path :
  normalizeAdvancedCustomRoute r = Some n ->
  (validate_route new_URL seen n = Some None /\ trim_of (incoming_path n) = Some path) <-> (route_valid path n /\ path ∉ seen).
Proof.
  intros Hn. unfold normalizeAdvancedCustomRoute in Hn. destruct (getAdvancedCustomRouteUpstreamPath r) as [u|]; [| done].
  cbn [mbind option_bind] in Hn. injection Hn as <-. unfold route_valid, validate_route.
  cbn [incoming_path upstream_path converter auth]. set (a := _ <$> auth r). set (conv := value_or (converter r) _).
  assert (value_or (Some conv) (JStr (js "none")) = conv) as -> by apply value_or_idemp.
  change (getAdvancedCustomRouteUpstreamPath _) with (trim_of (Some (value_or (Some (JStr u)) (JStr [])))). rewrite trim_of_upstream.
  set (inc := value_or (incoming_path r) (JStr [])). rewrite <- validate_auth_ok. split.
  - intros [H E]. rewrite E in H. cbn [mbind option_bind] in H.
    destruct (truthy path) eqn:Ep; [| done]. cbn [negb] in H. apply truthy_true in Ep. apply trim_of_some in E as (p & E & <-); [| done].
    destruct (starts_with _ _) eqn:Es; [| done]. destruct (str_includes _ _) eqn:Ei; [done |]. destruct (set_has _ seen) eqn:Eh; [done |].
    destruct (truthy (trim u)) eqn:Eu; [| done]. destruct (isFullHttpURLOrAbsolutePath _ _) eqn:Ef; [| done].
    destruct (isAdvancedCustomConverter conv) eqn:Ec; [| done]. apply registered_converter in Ec as (s & Ec & Hs). rewrite Ec in H.
    destruct (isConverterPathAllowed _ _) eqn:Ea; [| done]. cbn [negb] in H. split.
    + split_and!; try done; [by exists p | | exists s; by rewrite Ec]. exists u. split_and!; [done | by apply truthy_true | done].
    + rewrite <- set_has_spec. by rewrite Eh.
  - intros [((p & [= E] & <-) & Hs & Hi & (u' & [= <-] & Hu & Hf) & (s & [= Ec] & Hr & Ha) & Hau) Hseen]. rewrite E. cbn [trim_of mbind option_bind].
    split; [| done]. destruct (truthy (trim p)) eqn:Ep; [| apply truthy_false in Ep; by rewrite Ep in Hs]. cbn [negb]. rewrite Hs, Hi.
    assert (set_has (trim p) seen = false) as -> by (apply not_true_iff_false; by rewrite set_has_spec).
    apply truthy_true in Hu. rewrite Hu, Hf. cbn [negb]. rewrite (proj2 (registered_converter conv)) by eauto. cbn [negb]. by rewrite Ec, Ha.
Qed.

Lemma validate_routes_ok seen i rs ns :
  mapM normalizeAdvancedCustomRoute rs = Some ns ->
  validate_routes new_URL seen i ns = Some None <->
  exists paths, Forall2 route_valid paths ns /\ NoDup paths /\ Forall (fun p => p ∉ seen) paths.
Proof.
  revert seen i ns. induction rs as [|r rs IH]; intros seen i ns H; cbn [mapM] in H.
  { injection H as <-. cbn. split; [| done]. intros _. exists []. by repeat constructor. }
  destruct (normalizeAdvancedCustomRoute r) as [n|] eqn:E; [| done]. cbn [mbind option_bind] in H. destruct (mapM _ rs) as [ns'|] eqn:Em; [| done].
  cbn [mbind option_bind] in H. injection H as <-. cbn [validate_routes]. split.
  - destruct (validate_route new_URL seen n) as [[m|]|] eqn:Ev; cbn [mbind option_bind]; try done.
    destruct (trim_of (incoming_path n)) as [path|] eqn:Et; [| done]. cbn. intros Hr. apply (IH _ _ _ eq_refl) in Hr as (paths & H2 & Hn & Hs).
    destruct (proj1 (validate_route_ok seen r n path E)) as [Hv Hp]; [done |]. exists (path :: paths). rewrite Forall_forall in Hs. split; [by constructor |]. split.
    + constructor; [| done]. intros Hin. apply (Hs path Hin). set_solver.
    + constructor; [done |]. apply Forall_forall. intros p Hin. specialize (Hs p Hin). set_solver.
  - intros (paths & H2 & Hn & Hs). inv H2. inv Hn. inv Hs. destruct (proj2 (validate_route_ok seen r n x E)) as [-> ->]; [done |]. cbn [mbind option_bind].
    apply (IH _ _ _ eq_refl). exists l. split; [done |]. split; [done |]. rewrite Forall_forall in *. intros p Hin. set_solver.
Qed.

(** C30: Validation accepts a configuration exactly when, after normalization, it has at
    least one route and every route is in order: an incoming path that starts with a
    slash and has no query, no two routes with the same incoming path, an upstream path
    that is absolute or a full URL, a registered converter that fits the incoming
    path, and an authentication that is absent, switched off, or has a name and a value. *)
Theorem route_validation_spec c :
  validateAdvancedCustomConfig new_URL (Some c) = Some None <->
  exists n paths, normalizeAdvancedCustomConfig c = Some n /\ advanced_routes n <> [] /\
    Forall2 route_valid paths (advanced_routes n) /\ NoDup paths.
Proof.
  unfold validateAdvancedCustomConfig, normalizeAdvancedCustomConfig.
  destruct (mapM normalizeAdvancedCustomRoute (advanced_routes c)) as [ns|] eqn:E; cbn; [| split; [done | naive_solver]].
  destruct ns as [|n ns]; [split; [done | intros (? & ? & [= <-] & ? & _); done] |]. rewrite (validate_routes_ok [] 0 _ _ E). split.
  - intros (paths & H2 & Hn & _). exists (mkConfig (n :: ns)), paths. done.
  - intros (m & paths & [= <-] & _ & H2 & Hn). exists paths. split; [done |]. split; [done |]. apply Forall_forall. intros p _. apply not_elem_of_nil.
Qed.
End Routes.

(** ** Saving and reading back *)

(** The declared types of the fields of an authentication. *)
Definition texts_only (v : option json) : Prop := match v with None | Some (JStr _) => True | Some _ => False end.
Definition auth_texts (r : AdvancedCustomRoute) : Prop :=
  match auth r with Some a => texts_only (au_name a) /\ texts_only (au_value a) | None => True end.

(** All fields are texts. *)
Definition text_auth (a : AdvancedCustomRouteAuth) : Prop := exists t n v, a = mkAuth (Some (JStr t)) (Some (JStr n)) (Some (JStr v)).
Definition text_route (r : AdvancedCustomRoute) : Prop :=
  exists p u c, r = mkRoute (Some (JStr p)) (Some (JStr u)) (Some (JStr c)) (auth r) /\ match auth r with Some a => text_auth a | None => True end.

Lemma text_route_json r : text_route r -> json_ok (route_json r).
Proof.
  intros (p & u & c & -> & Ha). cbn [auth]. destruct (auth r) as [a|].
  - destruct Ha as (t & n & v & ->). vm_compute. by repeat split.
  - vm_compute. by repeat split.
Qed.

(** Objects made from a route or a configuration are read back. *)
Lemma route_json_read r : route_of (route_json r) = Some r.
Proof. destruct r as [[] [] [] [[[] [] []]|]]; reflexivity. Qed.

Lemma routes_json_read l : mapM route_of (map route_json l) = Some l.
Proof. induction l as [|r l IH]; [done |]. cbn [map mapM]. rewrite route_json_read. cbn [mbind option_bind]. by rewrite IH. Qed.

Lemma config_json_read c : config_of [(js "advanced_routes", JArr (map route_json (advanced_routes c)))] = Some c.
Proof. unfold config_of. rewrite map_get_head, routes_json_read. by destruct c. Qed.

Lemma texts_some v : texts_only (Some v) -> exists s, v = JStr s.
Proof. destruct v; naive_solver. Qed.

Lemma valid_text_route new_URL path r n :
  normalizeAdvancedCustomRoute r = Some n -> route_valid new_URL path n -> auth_texts n -> text_route n.
Proof.
  intros Hn ((p & Hp & _) & _ & _ & (u & Hu & _) & (c & Hc & _) & Ha) Ht. exists p, u, c.
  split; [destruct n; cbn in *; by subst |]. unfold auth_texts in Ht. destruct (auth n) as [a|] eqn:Ea; [| done].
  unfold normalizeAdvancedCustomRoute in Hn. destruct (getAdvancedCustomRouteUpstreamPath r); [| done]. cbn [mbind option_bind] in Hn.
  injection Hn as <-. cbn [auth] in Ea. destruct (auth r) as [b|]; [| done]. injection Ea as <-. cbn [au_name au_value au_type] in *.
  destruct Ht as [[s1 E1]%texts_some [s2 E2]%texts_some]. unfold auth_valid in Ha. cbn [au_type] in Ha. rewrite E1, E2.
  destruct Ha as [-> | [[-> | ->] _]]; eexists _, _, _; done.
Qed.

Lemma text_config_ok n : Forall text_route (advanced_routes n) -> json_ok (routes_config_json n).
Proof.
  intros H. apply json_ok_wf. split; [| split; [apply NoDup_singleton | done]]. repeat constructor. apply json_ok_arr, Forall_map.
  eapply Forall_impl; [exact H | exact text_route_json].
Qed.

Lemma config_read n : json_ok (routes_config_json n) -> normalizeAdvancedCustomConfig n = Some n ->
  parseAdvancedCustomConfig (Some (JSON_pretty (routes_config_json n))) = Some n.
Proof.
  intros Hok Hn. unfold parseAdvancedCustomConfig. cbn [mbind option_bind].
  destruct (pretty_obj_shape [(js "advanced_routes", JArr (map route_json (advanced_routes n)))]) as [m E].
  assert (truthy (trim (JSON_pretty (routes_config_json n))) = true) as -> by (unfold routes_config_json; rewrite E, trimmed_trim by apply trimmed_braces; done).
  cbn [negb]. rewrite pretty_roundtrip by done. unfold routes_config_json. by rewrite config_json_read.
Qed.

(** What is read is normalized. *)
Lemma parsed_normalized v c : parseAdvancedCustomConfig v = Some c -> normalizeAdvancedCustomConfig c = Some c.
Proof.
  unfold parseAdvancedCustomConfig. destruct v as [v|]; [| done]. cbn [mbind option_bind]. destruct (negb _); [done |].
  destruct (JSON_parse _) as [[| | | | |l]|]; try done. destruct (config_of l); [| done]. apply normalize_config_idemp.
Qed.

Section Saving.
Variable new_URL : str -> option (str * str).
Variable t : str -> str.

Lemma normalize_config_routes c n : normalizeAdvancedCustomConfig c = Some n -> mapM normalizeAdvancedCustomRoute (advanced_routes c) = Some (advanced_routes n).
Proof. unfold normalizeAdvancedCustomConfig. destruct (mapM _ _) as [l|]; [| done]. by intros [= <-]. Qed.

Lemma valid_text_config c n paths : normalizeAdvancedCustomConfig c = Some n -> Forall2 (route_valid new_URL) paths (advanced_routes n) ->
  Forall auth_texts (advanced_routes n) -> Forall text_route (advanced_routes n).
Proof.
  intros Hn%normalize_config_routes. generalize dependent (advanced_routes n). generalize (advanced_routes c). clear c n.
  intros rs ns Hm H2 Ht. revert rs Hm Ht. induction H2 as [|p n paths ns Hv _ IH]; intros rs Hm Ht; [constructor |].
  apply mapM_Some in Hm. inv Hm. inv Ht. constructor; [by eapply valid_text_route |]. eapply IH; [by apply mapM_Some |]. done.
Qed.

(** A valid configuration is read back from its text. *)
Lemma valid_config_read c n :
  normalizeAdvancedCustomConfig c = Some n -> validateAdvancedCustomConfig new_URL (Some c) = Some None -> Forall auth_texts (advanced_routes n) ->
  stringifyAdvancedCustomConfig c = Some (JSON_pretty (routes_config_json n)) /\ parseAdvancedCustomConfig (Some (JSON_pretty (routes_config_json n))) = Some n /\
  validateAdvancedCustomConfig new_URL (Some n) = Some None.
Proof.
  intros Hn Hv Ht. pose proof (normalize_config_idemp _ _ Hn) as Hnn. split; [unfold stringifyAdvancedCustomConfig; by rewrite Hn |]. split.
  - unfold validateAdvancedCustomConfig in Hv. rewrite Hn in Hv. cbn [mbind option_bind] in Hv.
    destruct (advanced_routes n) as [|r l] eqn:E; [done |]. rewrite <- E in *.
    assert (exists paths, Forall2 (route_valid new_URL) paths (advanced_routes n)) as [paths H2].
    { apply normalize_config_routes in Hn. rewrite E in Hv. rewrite <- E in Hv. apply (validate_routes_ok _ [] 0 _ _ Hn) in Hv as (paths & H2 & _). eauto. }
    apply config_read; [by eapply text_config_ok, valid_text_config | done].
  - unfold validateAdvancedCustomConfig in *. by rewrite Hnn, Hn in *.
Qed.

(** The configuration that a save writes. *)
Definition saved_source (d : RoutesDialog) : option AdvancedCustomConfig :=
  match rd_editMode d with RoutesJson => parseAdvancedCustomConfig (Some (rd_jsonText d)) | RoutesVisual => normalizedConfig d end.

(** Whatever the dialog saves, from the visual editor or from the JSON text, is the text
    of a valid configuration: it is read back, passes validation, and is written as the
    same text again.  (The name and the value of an authentication are taken to be
    texts, as declared.) *)
Theorem saved_routes_valid d text d' :
  (forall c, saved_source d = Some c -> Forall auth_texts (advanced_routes c)) ->
  saveRoutes new_URL t d = Some (inr text, d') ->
  exists c, parseAdvancedCustomConfig (Some text) = Some c /\ validateAdvancedCustomConfig new_URL (Some c) = Some None /\
    stringifyAdvancedCustomConfig c = Some text.
Proof.
  intros Ht Hs.
  assert (exists c n, saved_source d = Some c /\ normalizeAdvancedCustomConfig c = Some n /\ n = c /\
    validateAdvancedCustomConfig new_URL (Some c) = Some None /\ stringifyAdvancedCustomConfig c = Some text) as (c & n & Es & Hn & -> & Hv & Hx).
  { unfold saveRoutes, parseJsonEditorConfig, saved_source in *. destruct (rd_editMode d).
    - destruct (normalizedConfig d) as [c|] eqn:E; [| done]. cbn [mbind option_bind] in Hs.
      destruct (validateAdvancedCustomConfig new_URL (Some c)) as [[e|]|] eqn:Ev; try done. cbn [mbind option_bind] in Hs.
      destruct (stringifyAdvancedCustomConfig c) eqn:Ex; [| done]. injection Hs as <- <-. exists c, c. by rewrite (normalize_config_idemp _ _ E).
    - destruct (parseAdvancedCustomConfig (Some (rd_jsonText d))) as [c|] eqn:E; [| done]. cbn [mbind option_bind] in Hs.
      destruct (validateAdvancedCustomConfig new_URL (Some c)) as [[e|]|] eqn:Ev; try done. cbn [mbind option_bind] in Hs.
      destruct (stringifyAdvancedCustomConfig c) eqn:Ex; [| done]. injection Hs as <- <-. exists c, c. by rewrite (parsed_normalized _ _ E). }
  exists c. destruct (valid_config_read c c Hn Hv (Ht _ Es)) as (Ex & Ep & _). rewrite Ex in Hx. injection Hx as <-. done.
Qed.
End Saving.

(** ** The button of the visual editor *)

Lemma visual_edit_json d d' : visual_edit d d' -> rd_jsonText d' = rd_jsonText d /\ rd_editMode d' = rd_editMode d.
Proof.
  intros []; unfold updateRoute, addRoute, removeRoute in *; destruct (normalizedConfig d); try done; cbn [mbind option_bind] in *; simplify_eq; done.
Qed.

Lemma visual_edits_json d0 d : rtc visual_edit d0 d -> rd_jsonText d = rd_jsonText d0 /\ rd_editMode d = rd_editMode d0.
Proof. induction 1 as [|x y z [E1 E2]%visual_edit_json _ [IH1 IH2]]; [done |]. by rewrite IH1, IH2, E1, E2. Qed.

Lemma open_routes_config value d : open_routes value = Some d ->
  normalizeAdvancedCustomConfig (rd_config d) = Some (rd_config d) /\ rd_jsonText d = JSON_pretty (routes_config_json (rd_config d)) /\ rd_editMode d = RoutesVisual.
Proof.
  unfold open_routes. set (c := default _ _).
  assert (normalizeAdvancedCustomConfig c = Some c) as Hn.
  { unfold c. destruct (parseAdvancedCustomConfig (Some value)) as [p|] eqn:E; [by apply parsed_normalized in E | vm_compute; reflexivity]. }
  unfold stringifyAdvancedCustomConfig. rewrite Hn. cbn [mbind option_bind fmap option_fmap option_map].
  intros H. apply (inj Some) in H as <-. split; [exact Hn | split; reflexivity].
Qed.

(** In the visual editor, a click on the button of the visual editor throws the edits
    away: for a dialog that was opened on a valid configuration, whatever routes were
    changed, added or removed since, the click reads the JSON text of the start again and
    puts the initial configuration back. *)
Theorem visual_button_discards_edits new_URL t value d0 d :
  open_routes value = Some d0 -> validateAdvancedCustomConfig new_URL (Some (rd_config d0)) = Some None ->
  Forall auth_texts (advanced_routes (rd_config d0)) -> rtc visual_edit d0 d ->
  exists d', showRoutesVisual new_URL t d = Some d' /\ rd_config d' = rd_config d0 /\ rd_editMode d' = RoutesVisual.
Proof.
  intros (Hn & Hj & Hm)%open_routes_config Hv Ht [Ej Em]%visual_edits_json.
  destruct (valid_config_read new_URL _ _ Hn Hv Ht) as (_ & Hp & _). rewrite <- Hj, <- Ej in Hp.
  unfold showRoutesVisual, parseJsonEditorConfig. rewrite Hp, Hv. cbn [mbind option_bind]. rewrite Hn. cbn [mbind option_bind]. eexists. split; [reflexivity | done].
Qed.

(** ** Keys of the rows *)

Lemma initial_key_inj i j : initial_key i = initial_key j -> i = j.
Proof. unfold initial_key. intros H. apply app_inv_head, show_N_inj in H. by apply Nat2N.inj. Qed.

Lemma route_key_inj n m : createRouteKey n = createRouteKey m -> n = m.
Proof. unfold createRouteKey. intros H. apply app_inv_head, show_N_inj in H. by apply N.succ_inj. Qed.

Lemma initial_not_route i n : initial_key i <> createRouteKey n.
Proof.
  unfold initial_key, createRouteKey. intros H.
  assert (js "advanced-custom-route-initial-" = js "advanced-custom-route-" ++ js "initial-") as E by (vm_compute; reflexivity).
  rewrite E, <- app_assoc in H. apply app_inv_head in H. pose proof (show_N_digits (N.succ n)) as Hd. rewrite <- H in Hd. apply Forall_app in Hd as [Hd _].
  change (js "initial-") with (105%N :: js "nitial-") in Hd. apply Forall_cons in Hd as [Hd _]. discriminate Hd.
Qed.

Lemma delete_length_eq {A B} (l : list A) (k : list B) i : length l = length k -> length (delete i l) = length (delete i k).
Proof. revert k i. induction l as [|x l IH]; intros [|y k] [|i] H; cbn in *; auto; lia. Qed.

(** A key that was given out. *)
Definition known_key (counter : N) (k : str) : Prop := (exists i, k = initial_key i) \/ exists n, (n < counter)%N /\ k = createRouteKey n.

Record keys_ok (d : RoutesDialog) : Prop := mkKeysOk {
  ko_nodup : NoDup (rd_routeKeys d);
  ko_length : length (rd_routeKeys d) = length (advanced_routes (rd_config d));
  ko_known : Forall (known_key (routeKeyCounter d)) (rd_routeKeys d)
}.

Lemma normalize_length c n : normalizeAdvancedCustomConfig c = Some n -> length (advanced_routes n) = length (advanced_routes c).
Proof. intros H%normalize_config_routes%mapM_Some%Forall2_length. done. Qed.

Lemma known_weaken a b k : (a <= b)%N -> known_key a k -> known_key b k.
Proof. intros H [Hi | (n & Hn & ->)]; [by left | right]. exists n. split; [lia | done]. Qed.

Lemma new_keys_nodup counter n : NoDup (createRouteKeys counter n).
Proof. apply NoDup_fmap_2_strong; [| apply NoDup_seq]. intros x y _ _ H%route_key_inj. lia. Qed.

Lemma show_config_keys d c : keys_ok (show_config d c).
Proof.
  split; cbn [rd_routeKeys show_config with_config rd_config routeKeyCounter]; [apply new_keys_nodup | unfold createRouteKeys; by rewrite length_map, length_seq |].
  apply Forall_map, Forall_forall. intros i Hi%elem_of_seq. right. eexists. split; [| reflexivity]. lia.
Qed.

Lemma edit_keys d d' : keys_ok d -> visual_edit d d' -> keys_ok d'.
Proof.
  intros [Hn Hl Hk] [n i r p ? _ Hc _ _ H | ? _ H | i ? _ H];
    [unfold updateRoute in H | unfold addRoute in H | unfold removeRoute in H]; destruct (normalizedConfig d) as [c|] eqn:E; try done;
    cbn [mbind option_bind] in H; injection H as <-; pose proof (normalize_length _ _ E) as Hlen.
  - split; cbn; [done | | done]. rewrite length_alter. lia.
  - split; cbn; [| rewrite !length_app; cbn; lia |].
    + apply NoDup_app. split; [done |]. split; [| apply NoDup_singleton]. intros k Hin ->%list_elem_of_singleton. rewrite Forall_forall in Hk.
      destruct (Hk _ Hin) as [[j Hj] | (m & Hm & Ek)]; [exact (initial_not_route _ _ (eq_sym Hj)) | apply route_key_inj in Ek; lia].
    + apply Forall_app. split; [eapply Forall_impl; [exact Hk |]; intros k; apply known_weaken; lia |].
      apply Forall_singleton. right. eexists. split; [| reflexivity]. lia.
  - split; cbn; [by eapply sublist_NoDup; [| apply sublist_delete] | |].
    + apply delete_length_eq. lia.
    + rewrite Forall_forall in *. intros k Hin. apply Hk. eapply elem_of_submseteq; [exact Hin |]. apply sublist_submseteq, sublist_delete.
Qed.

Section Reachable.
Variable new_URL : str -> option (str * str).
Variable t : str -> str.

Lemma with_json_keys d text error : keys_ok d -> keys_ok (with_json d text error).
Proof. by intros []. Qed.

Lemma with_mode_keys d mode : keys_ok d -> keys_ok (with_mode d mode).
Proof. by intros []. Qed.

(** The parsed text changes the message only. *)
Lemma parse_editor_keys d c d' : keys_ok d -> parseJsonEditorConfig new_URL t d = Some (c, d') -> keys_ok d'.
Proof.
  intros H. unfold parseJsonEditorConfig. destruct (parseAdvancedCustomConfig _) as [p|]; [| intros [= <- <-]; by apply with_json_keys].
  destruct (validateAdvancedCustomConfig _ _) as [[e|]|]; try done; intros [= <- <-]; by apply with_json_keys.
Qed.

Lemma template_keys m d d' : keys_ok d -> applyTemplate new_URL t m d = Some d' -> keys_ok d'.
Proof.
  intros H. unfold applyTemplate. destruct (getAdvancedCustomTemplateConfig _) as [tc|]; [| done]. cbn [mbind option_bind].
  set (next := match m with TemplateFill => _ | TemplateAppend => _ end).
  assert (forall c d1, next = Some (c, d1) -> keys_ok d1) as Hnext.
  { intros c d1. unfold next. destruct m; [by intros [= <- <-] |].
    destruct (match rd_editMode d with RoutesVisual => _ | RoutesJson => _ end) as [[base d2]|] eqn:E; [| done]. cbn [mbind option_bind].
    assert (keys_ok d2) as H2.
    { destruct (rd_editMode d); [destruct (normalizedConfig d); [by injection E as <- <- | done] | by eapply parse_editor_keys]. }
    destruct base as [base|]; [| by intros [= <- <-]]. destruct (normalizeAdvancedCustomConfig base); [| done].
    destruct (normalizeAdvancedCustomConfig tc); [| done]. by intros [= <- <-]. }
  destruct next as [[[c|] d1]|]; try done; cbn [mbind option_bind]; [| intros [= <-]; by eapply Hnext].
  destruct (normalizeAdvancedCustomConfig c) as [n|]; [| done]. cbn [mbind option_bind]. destruct (stringifyAdvancedCustomConfig n); [| done].
  intros [= <-]. apply with_json_keys, show_config_keys.
Qed.

Lemma step_keys d d' : keys_ok d -> routes_step new_URL t d d' -> keys_ok d'.
Proof.
  intros H [d1 He | d1 Hs | d1 Hs | s _ | d1 _ Hs | m d1 Hs | k | r d1 Hs].
  - by eapply edit_keys.
  - unfold showRoutesVisual in Hs. destruct (parseJsonEditorConfig new_URL t d) as [[c d2]|] eqn:E; [| done]. cbn [mbind option_bind] in Hs.
    apply parse_editor_keys in E; [| done]. destruct c as [c|]; [| by injection Hs as <-].
    destruct (normalizeAdvancedCustomConfig c); [| done]. injection Hs as <-. apply with_mode_keys, show_config_keys.
  - unfold showRoutesJson in Hs. destruct (normalizedConfig d) as [n|]; [| done]. cbn [mbind option_bind] in Hs.
    destruct (stringifyAdvancedCustomConfig n); [| done]. injection Hs as <-. by apply with_mode_keys, with_json_keys.
  - by apply with_json_keys.
  - unfold formatRoutesJson in Hs. destruct (parseJsonEditorConfig new_URL t d) as [[c d2]|] eqn:E; [| done]. cbn [mbind option_bind] in Hs.
    apply parse_editor_keys in E; [| done]. destruct c as [c|]; [| by injection Hs as <-].
    destruct (stringifyAdvancedCustomConfig c); [| done]. injection Hs as <-. by apply with_json_keys.
  - by eapply template_keys.
  - by destruct H.
  - unfold saveRoutes in Hs. destruct (rd_editMode d).
    + destruct (normalizedConfig d) as [n|]; [| done]. cbn [mbind option_bind] in Hs. destruct (validateAdvancedCustomConfig _ _) as [[e|]|]; try done;
        cbn [mbind option_bind] in Hs; [by injection Hs as <- <- |]. destruct (stringifyAdvancedCustomConfig n); [| done]. by injection Hs as <- <-.
    + destruct (parseJsonEditorConfig new_URL t d) as [[c d2]|] eqn:E; [| done]. cbn [mbind option_bind] in Hs.
      apply parse_editor_keys in E; [| done]. destruct c as [c|]; [| by injection Hs as <- <-].
      destruct (stringifyAdvancedCustomConfig c); [| done]. by injection Hs as <- <-.
Qed.

(** In every reachable state of the dialog each row has a key of its own. *)
Theorem route_keys_unique value d0 d :
  open_routes value = Some d0 -> rtc (routes_step new_URL t) d0 d ->
  NoDup (rd_routeKeys d) /\ length (rd_routeKeys d) = length (advanced_routes (rd_config d)).
Proof.
  intros Ho Hr. assert (keys_ok d0) as H0.
  { unfold open_routes in Ho. set (c := default _ _) in Ho. destruct (normalizeAdvancedCustomConfig c) as [n|] eqn:En; [| done]. cbn [mbind option_bind] in Ho.
    destruct (stringifyAdvancedCustomConfig c); [| done]. apply (inj Some) in Ho as <-. split; cbn [rd_routeKeys rd_config routeKeyCounter].
    - apply NoDup_fmap_2_strong; [| apply NoDup_seq]. intros x y _ _. apply initial_key_inj.
    - by rewrite length_map, length_seq, (normalize_length _ _ En).
    - apply Forall_map, Forall_forall. intros i _. left. by exists i. }
  clear Ho. assert (keys_ok d) as []; [| done]. induction Hr as [|x y z Hs _ IH]; [done |]. apply IH. by eapply step_keys.
Qed.
End Reachable.

(** A path that is no text is accepted when the text is read, but validation throws. *)
Theorem unreadable_path_throws new_URL c r rest v :
  normalizeAdvancedCustomConfig c = Some (mkConfig (r :: rest)) -> incoming_path r = Some v -> (forall s, v <> JStr s) -> v <> JNull ->
  validateAdvancedCustomConfig new_URL (Some c) = None.
Proof.
  intros Hn Hi Hs Hnull. unfold validateAdvancedCustomConfig. rewrite Hn. cbn [mbind option_bind advanced_routes validate_routes]. unfold validate_route. rewrite Hi.
  destruct v as [| | |s| |]; try done. by destruct (Hs s).
Qed.

(** ** Examples *)

Example numeric_path_read :
  (c ← parseAdvancedCustomConfig (Some (jsq "{'advanced_routes':[{'incoming_path':1}]}")); Some (validateAdvancedCustomConfig (fun _ => None) (Some c))) = Some None.
Proof. vm_compute. reflexivity. Qed.

(** A browser that knows no host. *)
Definition no_URL (_ : str) : option (str * str) := None.
Definition demo_routes : str :=
  jsq "{'advanced_routes':[{'incoming_path':'/v1/messages','upstream_path':' /v1/chat/completions ','converter':'anthropic_messages_to_openai_chat_completions','auth':{'type':'header','name':'x-api-key','value':'{api_key}'}}]}".
Definition demo_dialog : RoutesDialog := default (mkRoutes (mkConfig []) [] RoutesJson [] [] [] 0) (open_routes demo_routes).
Definition edited_routes : RoutesDialog :=
  default demo_dialog (d ← addRoute demo_dialog; updateRoute 0 (setUpstreamPath (js "/elsewhere")) d).

Lemma saved_routes_valid_witness :
  exists text, saveRoutes no_URL (fun s => s) demo_dialog = Some (inr text, demo_dialog) /\
  exists c, parseAdvancedCustomConfig (Some text) = Some c /\ validateAdvancedCustomConfig no_URL (Some c) = Some None /\
    stringifyAdvancedCustomConfig c = Some text.
Proof.
  eexists. split; [vm_compute; reflexivity |]. apply (saved_routes_valid no_URL (fun s => s) demo_dialog _ demo_dialog).
  - intros c Hc. vm_compute in Hc. injection Hc as <-. vm_compute. by repeat constructor.
  - vm_compute. reflexivity.
Defined.

Lemma visual_button_discards_edits_witness :
  rd_config edited_routes <> rd_config demo_dialog /\
  exists d', showRoutesVisual no_URL (fun s => s) edited_routes = Some d' /\ rd_config d' = rd_config demo_dialog /\ rd_editMode d' = RoutesVisual.
Proof.
  split; [intros H; apply (f_equal (fun c => length (advanced_routes c))) in H; vm_compute in H; discriminate H |].
  apply (visual_button_discards_edits no_URL (fun s => s) demo_routes demo_dialog edited_routes).
  - vm_compute. reflexivity.
  - vm_compute. reflexivity.
  - vm_compute. by repeat constructor.
  - eapply rtc_l; [apply edit_add; [vm_compute; reflexivity | vm_compute; reflexivity] |].
    eapply rtc_l; [| apply rtc_refl].
    eapply (edit_route _ _ 0%nat); [vm_compute; reflexivity | vm_compute; reflexivity | vm_compute; reflexivity | apply (change_upstream _ (js "/elsewhere")) | vm_compute; reflexivity].
Defined.
