(* ===== verification/ChannelForm.v ===== *)
(** * Channels: the form

    Model of [features/channels/lib/channel-form.ts]: the checks of the form of a channel,
    the form for a channel of the server, and the requests for creating and updating one.

    The settings of a channel are two JSON texts, [setting] and [settings]; the form has a
    field per setting.  A field that is copied out of such a text is any JSON value
    ([option json]); the schema checks its type before the form is sent.  Missing and
    [null] texts are [None].  [new URL] is a parameter, as in [AdvancedCustom]. *)
From S2P Require Import Prelude Number Regex Json JsonPretty JsonObject ChannelMapping ParamOverride AdvancedCustom.

Definition CHANNEL_TYPE_ADVANCED_CUSTOM : Z := 58.

(** ** Checks of single fields *)

(** [undefined] is the inner [None], an exception the outer one. *)
Definition parseOptionalJson (value : option str) : option (option json) :=
  match value with
  | None => Some None
  | Some v => if negb (truthy (trim v)) then Some None else Some <$> JSON_parse v
  end.

Definition isJsonObjectValue (value : json) : bool := match value with JObj _ => true | _ => false end.

(** [try { .. undefined: true .. } catch { false }]. *)
Definition optional_json (value : option str) (check : json -> bool) : bool :=
  match parseOptionalJson value with None => false | Some None => true | Some (Some parsed) => check parsed end.

Definition isOptionalJsonObject (value : option str) : bool := optional_json value isJsonObjectValue.

Definition isOptionalModelMapping (value : option str) : bool :=
  optional_json value (fun parsed => match parsed with JObj l => forallb (fun e => match snd e with JStr _ => true | _ => false end) l | _ => false end).

Definition isOptionalStatusCodeMapping (value : option str) : bool :=
  optional_json value (fun parsed =>
    match parsed with JObj l => forallb (fun e => valid_status (num_of_str (fst e)) && valid_status (to_Number (snd e))) l | _ => false end).

Definition filled_text (k : str) (l : entries) : bool := match map_get k l with Some (JStr s) => truthy (trim s) | _ => false end.

Definition isCodexCredential (value : option str) : bool :=
  optional_json value (fun parsed => match parsed with JObj l => filled_text (js "access_token") l && filled_text (js "account_id") l | _ => false end).

Definition isVertexJsonKey (value : option str) : bool :=
  optional_json value (fun parsed => match parsed with JArr l => forallb isJsonObjectValue l | _ => isJsonObjectValue parsed end).

(** ** The form *)

Record ChannelFormValues := mkForm {
  f_name : str; f_type : Z; f_base_url : option str; f_key : str; f_openai_organization : option str; f_models : str;
  f_group : list str; f_model_mapping : option str; f_priority : option Z; f_weight : option Z; f_test_model : option str;
  f_auto_ban : option Z; f_status : Z; f_status_code_mapping : option str; f_tag : option str; f_remark : option str;
  f_setting : option str; f_param_override : option str; f_header_override : option str; f_settings : option str;
  f_advanced_custom : option str; f_other : option str; f_multi_key_mode : option str; f_multi_key_type : option str;
  f_batch_add_set_key_prefix_2_name : option bool; f_key_mode : option str;
  f_force_format : option json; f_thinking_to_content : option json; f_proxy : option json; f_pass_through_body_enabled : option json;
  f_system_prompt : option json; f_system_prompt_override : option json;
  f_is_enterprise_account : bool; f_vertex_key_type : option json; f_aws_key_type : option json; f_azure_responses_version : option json;
  f_allow_service_tier : bool; f_disable_store : bool; f_allow_safety_identifier : bool; f_allow_include_obfuscation : bool;
  f_allow_inference_geo : bool; f_allow_speed : bool; f_claude_beta_query : bool; f_disable_task_polling_sleep : bool;
  f_upstream_check_enabled : bool; f_upstream_auto_sync_enabled : bool; f_upstream_ignored_models : str
}.

Definition jbool (b : bool) : option json := Some (JBool b).

Definition CHANNEL_FORM_DEFAULT_VALUES : ChannelFormValues :=
  mkForm [] 1 (Some []) [] (Some []) [] [js "default"] (Some []) (Some 0%Z) (Some 0%Z) (Some []) (Some 1%Z) 1 (Some []) (Some []) (Some [])
    (Some []) (Some []) (Some []) (Some (js "{}")) (Some []) (Some []) (Some (js "single")) (Some (js "random"))
    (Some false) (Some (js "append")) (jbool false) (jbool false) (Some (JStr [])) (jbool false) (Some (JStr [])) (jbool false)
    false (Some (JStr (js "json"))) (Some (JStr (js "ak_sk"))) (Some (JStr [])) false false false false false false false false false false [].

(** [!value?.trim()]. *)
Definition blank_text (value : option str) : bool := negb (truthy (trim (default [] value))).
Definition one_of_types (l : list Z) (type : Z) : bool := existsb (Z.eqb type) l.
Definition value_is (v : option json) (s : String.string) : bool := match v with Some (JStr t) => str_eqb t (js s) | _ => false end.
Arguments value_is v s%_string.
(** [mode && mode !== 'single']. *)
Definition not_single (mode : option str) : bool := match mode with Some m => truthy m && negb (str_eqb m (js "single")) | None => false end.

(** The issues of [superRefine]: fields with messages; [None] when the validation of the
    routes throws. *)
Definition issue (b : bool) (path message : String.string) : list (str * str) := if b then [(js path, js message)] else [].
Arguments issue b (path message)%_string.

Definition channel_form_issues (new_URL : str -> option (str * str)) (data : ChannelFormValues) : option (list (str * str)) :=
  let type := f_type data in
  routes ←
    (if (type =? CHANNEL_TYPE_ADVANCED_CUSTOM)%Z then
       let advancedCustomConfig := parseAdvancedCustomConfig (f_advanced_custom data) in
       advancedCustomError ← validateAdvancedCustomConfig new_URL advancedCustomConfig;
       relative ← advancedCustomConfigUsesRelativeUpstreamPath advancedCustomConfig;
       Some ((match advancedCustomError with Some e => [(js "advanced_custom", message e)] | None => [] end) ++
             issue (relative && blank_text (f_base_url data)) "base_url" "Base URL is required when an advanced route uses an upstream path")
     else Some []);
  Some (
    issue (one_of_types [3; 8; 36; 45]%Z type && blank_text (f_base_url data)) "base_url" "Base URL is required for this channel type" ++
    routes ++
    issue (one_of_types [3; 18; 21; 39; 41; 49]%Z type && blank_text (f_other data)) "other" "This channel type requires additional configuration" ++
    issue ((type =? 57)%Z && not_single (f_multi_key_mode data)) "multi_key_mode" "Codex channels do not support batch creation" ++
    issue ((type =? 57)%Z && negb (blank_text (Some (f_key data))) && negb (isCodexCredential (Some (f_key data)))) "key"
      "Codex credential must be a JSON object with access_token and account_id" ++
    issue ((type =? 41)%Z && value_is (f_vertex_key_type data) "json" && negb (blank_text (Some (f_key data))) && negb (isVertexJsonKey (Some (f_key data))))
      "key" "Vertex AI service account key must be valid JSON" ++
    issue ((type =? 41)%Z && value_is (f_vertex_key_type data) "api_key" && not_single (f_multi_key_mode data)) "multi_key_mode"
      "Vertex AI API Key mode does not support batch creation").

(** ** Lists as texts *)

Definition names_of (text : str) : list str := List.filter truthy (map trim (split_on 44 text)).
Definition parseModels (models : str) : list str := if truthy models then names_of models else [].
Definition parseGroups (groups : str) : list str := if truthy groups then names_of groups else [].
Definition formatModels (models : list str) : str := join (js ",") models.
Definition formatGroups (groups : list str) : str := join (js ",") groups.

Definition validateJSON (value : str) : bool :=
  if negb (truthy value) || negb (truthy (trim value)) then true else match JSON_parse value with Some _ => true | None => false end.
Definition validateModelMapping (value : str) : bool :=
  if negb (truthy value) || negb (truthy (trim value)) then true else validateJSON value.

(** ** Channels of the server *)

(** The fields that the form reads. *)
Record Channel := mkChannel {
  ch_name : option str; ch_type : Z; ch_base_url : option str; ch_openai_organization : option str; ch_models : option str;
  ch_group : option str; ch_model_mapping : option str; ch_priority : option Z; ch_weight : option Z; ch_test_model : option str;
  ch_auto_ban : option Z; ch_status : Z; ch_status_code_mapping : option str; ch_tag : option str; ch_remark : option str;
  ch_setting : option str; ch_param_override : option str; ch_header_override : option str; ch_settings : option str; ch_other : option str;
  ch_multi_key_mode : option str
}.

(** [text || fallback]. *)
Definition text_or (v : option str) (fallback : str) : str := str_or (default [] v) fallback.

(** The properties of the parsed text; [None] when parsing or reading throws. *)
Definition settings_props (text : option str) : option entries :=
  match text with
  | Some t => if truthy t then v ← JSON_parse t; props_of v else None
  | None => None
  end.

Definition transformChannelToFormDefaults (channel : Channel) : ChannelFormValues :=
  let setting := default [] (settings_props (ch_setting channel)) in
  let extra k fallback := Some (value_or (map_get (js k) setting) fallback) in
  let parsed := default [] (settings_props (ch_settings channel)) in
  let isTrue k := prop_true (js k) parsed in
  let advancedCustom :=
    match map_get (js "advanced_custom") parsed with
    | Some v => if j_truthy v then default [] (l ← props_of v; c ← config_of l; stringifyAdvancedCustomConfig c) else []
    | None => []
    end in
  mkForm (text_or (ch_name channel) []) (ch_type channel) (Some (text_or (ch_base_url channel) [])) [] (Some (text_or (ch_openai_organization channel) []))
    (text_or (ch_models channel) []) (parseGroups (text_or (ch_group channel) (js "default"))) (Some (text_or (ch_model_mapping channel) []))
    (Some (default 0%Z (ch_priority channel))) (Some (default 0%Z (ch_weight channel))) (Some (text_or (ch_test_model channel) []))
    (Some (default 1%Z (ch_auto_ban channel))) (ch_status channel) (Some (text_or (ch_status_code_mapping channel) []))
    (Some (text_or (ch_tag channel) [])) (Some (text_or (ch_remark channel) [])) (Some (text_or (ch_setting channel) []))
    (Some (text_or (ch_param_override channel) [])) (Some (text_or (ch_header_override channel) [])) (Some (text_or (ch_settings channel) (js "{}")))
    (Some advancedCustom) (Some (text_or (ch_other channel) [])) (Some (js "single")) (Some (text_or (ch_multi_key_mode channel) (js "random")))
    (Some false) (Some (js "append"))
    (extra "force_format"%string (JBool false)) (extra "thinking_to_content"%string (JBool false)) (extra "proxy"%string (JStr []))
    (extra "pass_through_body_enabled"%string (JBool false)) (extra "system_prompt"%string (JStr [])) (extra "system_prompt_override"%string (JBool false))
    (isTrue "openrouter_enterprise"%string)
    (Some (value_or (map_get (js "vertex_key_type") parsed) (JStr (js "json")))) (Some (value_or (map_get (js "aws_key_type") parsed) (JStr (js "ak_sk"))))
    (Some (value_or (map_get (js "azure_responses_version") parsed) (JStr [])))
    (isTrue "allow_service_tier"%string) (isTrue "disable_store"%string) (isTrue "allow_safety_identifier"%string)
    (isTrue "allow_include_obfuscation"%string) (isTrue "allow_inference_geo"%string) (isTrue "allow_speed"%string) (isTrue "claude_beta_query"%string)
    (isTrue "disable_task_polling_sleep"%string) (isTrue "upstream_model_update_check_enabled"%string)
    (isTrue "upstream_model_update_auto_sync_enabled"%string)
    (match map_get (js "upstream_model_update_ignored_models") parsed with Some (JArr l) => to_String (JArr l) | _ => [] end).

(** ** Writing the settings *)

Definition buildSettingJSON (formData : ChannelFormValues) : str :=
  JSON_stringify (JObj
    [(js "force_format", value_or (f_force_format formData) (JBool false));
     (js "thinking_to_content", value_or (f_thinking_to_content formData) (JBool false));
     (js "proxy", value_or (f_proxy formData) (JStr []));
     (js "pass_through_body_enabled", value_or (f_pass_through_body_enabled formData) (JBool false));
     (js "system_prompt", value_or (f_system_prompt formData) (JStr []));
     (js "system_prompt_override", value_or (f_system_prompt_override formData) (JBool false))]).

Definition MODEL_FETCHABLE_TYPES : list Z := [1; 4; 14; 17; 20; 23; 24; 25; 26; 27; 31; 34; 35; 40; 42; 43; 47; 48]%Z.

(** [if (b) o[k] = v else if (k in o) delete o[k]]. *)
Definition set_or_delete (b : bool) (k : String.string) (v : json) (l : entries) : entries :=
  if b then obj_set (js k) v l else obj_delete (js k) l.
Arguments set_or_delete b k%_string v l.

Definition ignored_models (formData : ChannelFormValues) : list str := set_of (names_of (f_upstream_ignored_models formData)).
Definition is_array (v : option json) : bool := match v with Some (JArr _) => true | _ => false end.
Definition is_number (v : option json) : bool := match v with Some (JNum _) => true | _ => false end.

Definition key_type_settings (f : ChannelFormValues) (l : entries) : entries :=
  let type := f_type f in
  let l := set_or_delete (type =? 41)%Z "vertex_key_type" (value_or (f_vertex_key_type f) (JStr (js "json"))) l in
  let azure := value_or (f_azure_responses_version f) (JStr []) in
  let l := set_or_delete ((type =? 3)%Z && j_truthy azure) "azure_responses_version" azure l in
  let l := set_or_delete (type =? 20)%Z "openrouter_enterprise" (JBool (f_is_enterprise_account f)) l in
  set_or_delete (type =? 33)%Z "aws_key_type" (value_or (f_aws_key_type f) (JStr (js "ak_sk"))) l.

Definition passthrough_settings (f : ChannelFormValues) (l : entries) : entries :=
  let type := f_type f in
  let openai := one_of_types [1; 57]%Z type in
  let l := set_or_delete (one_of_types [1; 14; 57]%Z type) "allow_service_tier" (JBool (f_allow_service_tier f)) l in
  let l := set_or_delete openai "disable_store" (JBool (f_disable_store f)) l in
  let l := set_or_delete openai "allow_safety_identifier" (JBool (f_allow_safety_identifier f)) l in
  let l := set_or_delete openai "allow_include_obfuscation" (JBool (f_allow_include_obfuscation f)) l in
  let l := if openai then obj_set (js "allow_inference_geo") (JBool (f_allow_inference_geo f)) l
           else if (type =? 14)%Z then l else obj_delete (js "allow_inference_geo") l in
  let l := if (type =? 14)%Z then obj_set (js "allow_inference_geo") (JBool (f_allow_inference_geo f)) l else l in
  let l := set_or_delete (type =? 14)%Z "allow_speed" (JBool (f_allow_speed f)) l in
  let l := set_or_delete (type =? 14)%Z "claude_beta_query" (JBool (f_claude_beta_query f)) l in
  obj_set (js "disable_task_polling_sleep") (JBool (f_disable_task_polling_sleep f)) l.

Definition upstream_settings (f : ChannelFormValues) (l : entries) : entries :=
  if negb (one_of_types MODEL_FETCHABLE_TYPES (f_type f)) then l
  else
    let check := f_upstream_check_enabled f in
    let l := obj_set (js "upstream_model_update_check_enabled") (JBool check) l in
    let l := obj_set (js "upstream_model_update_auto_sync_enabled") (JBool (check && f_upstream_auto_sync_enabled f)) l in
    let l := obj_set (js "upstream_model_update_ignored_models") (JArr (map JStr (ignored_models f))) l in
    let l := if negb (is_array (map_get (js "upstream_model_update_last_detected_models") l)) || negb check
             then obj_set (js "upstream_model_update_last_detected_models") (JArr []) l else l in
    if negb (is_number (map_get (js "upstream_model_update_last_check_time") l))
    then obj_set (js "upstream_model_update_last_check_time") (JNum (n_of_Z 0)) l else l.

Definition advanced_settings (f : ChannelFormValues) (l : entries) : entries :=
  if (f_type f =? CHANNEL_TYPE_ADVANCED_CUSTOM)%Z then
    match parseAdvancedCustomConfig (f_advanced_custom f) with
    | Some c => obj_set (js "advanced_custom") (routes_config_json c) l
    | None => l
    end
  else obj_delete (js "advanced_custom") l.

(** The object that the form starts from: [None] for a value that has no properties to set. *)
Definition existing_settings (f : ChannelFormValues) : option json :=
  let text := default [] (f_settings f) in
  if truthy text && negb (str_eqb text (js "{}")) then
    match JSON_parse text with
    | None => Some (JObj [])
    | Some (JObj l) => Some (JObj l)
    | Some (JArr l) => Some (JArr l)
    | Some _ => None
    end
  else Some (JObj []).

(** Named properties of an array are not written. *)
Definition buildSettingsJSON (formData : ChannelFormValues) : option str :=
  v ← existing_settings formData;
  match v with
  | JObj l => Some (JSON_stringify (JObj (advanced_settings formData (upstream_settings formData
                (passthrough_settings formData (key_type_settings formData l))))))
  | v => Some (JSON_stringify v)
  end.

(** ** Requests *)

Definition strip_slashes (s : str) : str := reverse (drop_while (fun c => (c =? 47)%N) (reverse s)).
Definition normalizeBaseUrl (value : option str) : str := strip_slashes (trim (default [] value)).

(** A payload; [None] is [null].  The key is missing ([None]), [null] or a text. *)
Record ChannelPayload := mkPayload {
  pl_id : option Z; pl_name : option str; pl_type : Z; pl_base_url : option str; pl_key : option (option str);
  pl_openai_organization : option str; pl_models : option str; pl_group : option str; pl_model_mapping : option str;
  pl_priority : option Z; pl_weight : option Z; pl_test_model : option str; pl_auto_ban : Z; pl_status : option Z;
  pl_status_code_mapping : option str; pl_tag : option str; pl_remark : option str; pl_setting : option str;
  pl_param_override : option str; pl_header_override : option str; pl_settings : option str; pl_other : option str
}.

(** An empty text becomes [null]. *)
Definition or_null (s : str) : option str := if truthy s then Some s else None.
Definition number_or_null (v : option Z) : option Z := match v with Some z => if (z =? 0)%Z then None else Some z | None => None end.

Record CreatePayload := mkCreate {
  cr_mode : str; cr_multi_key_mode : option str; cr_batch_add_set_key_prefix_2_name : option bool; cr_channel : ChannelPayload
}.

Definition transformFormDataToCreatePayload (f : ChannelFormValues) : option CreatePayload :=
  settings ← buildSettingsJSON f;
  let mode := text_or (f_multi_key_mode f) (js "single") in
  let optional v := or_null (default [] v) in
  Some (mkCreate mode (if str_eqb mode (js "multi_to_single") then f_multi_key_type f else None)
    (if str_eqb mode (js "batch") then f_batch_add_set_key_prefix_2_name f else None)
    (mkPayload None (or_null (f_name f)) (f_type f) (or_null (normalizeBaseUrl (f_base_url f))) (Some (or_null (f_key f)))
      (optional (f_openai_organization f)) (or_null (f_models f)) (or_null (formatGroups (f_group f))) (optional (f_model_mapping f))
      (number_or_null (f_priority f)) (number_or_null (f_weight f)) (optional (f_test_model f)) (default 1%Z (f_auto_ban f)) (Some (f_status f))
      (optional (f_status_code_mapping f)) (optional (f_tag f)) (optional (f_remark f)) (or_null (buildSettingJSON f))
      (optional (f_param_override f)) (optional (f_header_override f)) (or_null settings) (optional (f_other f)))).

Definition transformFormDataToUpdatePayload (f : ChannelFormValues) (channelId : Z) : option ChannelPayload :=
  settings ← buildSettingsJSON f;
  let explicit v := Some (default [] v) in
  Some (mkPayload (Some channelId) (or_null (f_name f)) (f_type f) (Some (normalizeBaseUrl (f_base_url f)))
    (if truthy (f_key f) && truthy (trim (f_key f)) then Some (Some (f_key f)) else None)
    (explicit (f_openai_organization f)) (or_null (f_models f)) (or_null (formatGroups (f_group f))) (explicit (f_model_mapping f))
    (Some (default 0%Z (f_priority f))) (Some (default 0%Z (f_weight f))) (explicit (f_test_model f)) (default 1%Z (f_auto_ban f)) None
    (explicit (f_status_code_mapping f)) (explicit (f_tag f)) (explicit (f_remark f)) (or_null (buildSettingJSON f))
    (explicit (f_param_override f)) (explicit (f_header_override f)) (or_null settings) (or_null (default [] (f_other f)))).
