(* ===== verification/ChannelFormProps.v ===== *)
(** * The channel form: theorems

    Which settings a form writes, by type of channel; and that a saved channel is shown
    and saved the same. *)
From S2P Require Import Prelude Number Regex Json JsonPretty JsonObject ChannelMapping ParamOverride AdvancedCustom AdvancedProps ChannelForm.

(** Literal keys are compared by [literal_keys] only. *)
#[local] Opaque js map_get obj_set obj_delete.

(** ** Updates of objects *)

Lemma get_set_str k k' v (l : entries) : obj_wf l -> map_get k (obj_set k' v l) = if str_eqb k k' then Some v else map_get k l.
Proof. apply obj_get_set. Qed.

Lemma get_delete_str k k' (l : entries) : map_get k (obj_delete k' l) = if str_eqb k k' then None else map_get k l.
Proof. apply obj_get_delete. Qed.

Lemma get_set_or_delete k b k' v l : obj_wf l ->
  map_get k (set_or_delete b k' v l) = if str_eqb k (js k') then (if b then Some v else None) else map_get k l.
Proof. intros H. unfold set_or_delete. destruct b; [by apply get_set_str | apply get_delete_str]. Qed.

Lemma set_or_delete_wf b k v l : obj_wf l -> obj_wf (set_or_delete b k v l).
Proof. intros H. unfold set_or_delete. destruct b; [by apply obj_set_wf | by apply obj_delete_wf]. Qed.

Create HintDb settings discriminated.
#[export] Hint Resolve obj_set_wf obj_delete_wf set_or_delete_wf : settings.

(** Read through the updates of an object. *)
Ltac read_updates := repeat first
  [ rewrite get_set_or_delete by auto 20 with settings | rewrite get_set_str by auto 20 with settings | rewrite get_delete_str ].
(** Compare a key with a literal one. *)
Tactic Notation "key_case" constr(k) constr(key) :=
  let E := fresh "E" in destruct (str_eqb k key) eqn:E; [apply str_eqb_eq in E as ->; literal_keys; try reflexivity |].

(** Five updates, two of them conditional on what is there; the keys are variables, so
    that no literal is unfolded. *)
Lemma fetch_updates_get kc ka ki kd kt v1 v2 v3 v4 v5 (check : bool) k (l : entries) :
  obj_wf l -> NoDup [kc; ka; ki; kd; kt] ->
  let l3 := obj_set ki v3 (obj_set ka v2 (obj_set kc v1 l)) in
  let l4 := if negb (is_array (map_get kd l3)) || negb check then obj_set kd v4 l3 else l3 in
  map_get k (if negb (is_number (map_get kt l4)) then obj_set kt v5 l4 else l4) =
  if str_eqb k kt then (if is_number (map_get kt l) then map_get kt l else Some v5)
  else if str_eqb k kd then (if is_array (map_get kd l) && check then map_get kd l else Some v4)
  else if str_eqb k ki then Some v3 else if str_eqb k ka then Some v2 else if str_eqb k kc then Some v1 else map_get k l.
Proof.
  intros H Hn l3 l4. rewrite !NoDup_cons, !not_elem_of_cons in Hn. destruct_and! Hn.
  assert (obj_wf l3) as W3 by (unfold l3; auto with settings).
  assert (forall x, map_get x l3 = if str_eqb x ki then Some v3 else if str_eqb x ka then Some v2 else if str_eqb x kc then Some v1 else map_get x l) as G3
    by (intros x; unfold l3; by read_updates).
  assert (map_get kd l3 = map_get kd l /\ map_get kt l3 = map_get kt l) as [Ed Et].
  { split; rewrite G3; unfold str_eqb; rewrite !bool_decide_eq_false_2 by congruence; done. }
  assert (obj_wf l4) as W4 by (unfold l4; case_match; auto with settings).
  assert (forall x, map_get x l4 = if str_eqb x kd then (if is_array (map_get kd l) && check then map_get kd l else Some v4) else map_get x l3) as G4.
  { intros x. unfold l4. rewrite Ed. destruct (is_array (map_get kd l)), check; cbn [negb orb andb]; try (by rewrite get_set_str by done).
    destruct (str_eqb x kd) eqn:E; [apply str_eqb_eq in E as ->; by rewrite Ed | done]. }
  assert (map_get kt l4 = map_get kt l) as Et4 by (rewrite G4, Et; unfold str_eqb; by rewrite bool_decide_eq_false_2 by congruence).
  rewrite Et4. destruct (is_number (map_get kt l)) eqn:En; cbn [negb]; [| by rewrite get_set_str, G4, G3 by done].
  rewrite <- G3, <- G4. destruct (str_eqb k kt) eqn:E; [by apply str_eqb_eq in E as -> | done].
Qed.

Section Settings.
Variable f : ChannelFormValues.
Abbreviation ty := (f_type f).

Lemma key_type_wf l : obj_wf l -> obj_wf (key_type_settings f l).
Proof. intros. unfold key_type_settings. auto with settings. Qed.

Lemma key_type_get k l : obj_wf l -> map_get k (key_type_settings f l) =
  if str_eqb k (js "aws_key_type") then (if (ty =? 33)%Z then Some (value_or (f_aws_key_type f) (JStr (js "ak_sk"))) else None)
  else if str_eqb k (js "openrouter_enterprise") then (if (ty =? 20)%Z then Some (JBool (f_is_enterprise_account f)) else None)
  else if str_eqb k (js "azure_responses_version") then
    (let azure := value_or (f_azure_responses_version f) (JStr []) in if (ty =? 3)%Z && j_truthy azure then Some azure else None)
  else if str_eqb k (js "vertex_key_type") then (if (ty =? 41)%Z then Some (value_or (f_vertex_key_type f) (JStr (js "json"))) else None)
  else map_get k l.
Proof. intros. unfold key_type_settings. cbv zeta. by read_updates. Qed.

Lemma passthrough_wf l : obj_wf l -> obj_wf (passthrough_settings f l).
Proof. intros. unfold passthrough_settings. destruct (one_of_types [1; 57]%Z ty), (ty =? 14)%Z; auto 20 with settings. Qed.

Definition flag_if (b v : bool) : option json := if b then Some (JBool v) else None.

Lemma passthrough_get k l : obj_wf l -> map_get k (passthrough_settings f l) =
  if str_eqb k (js "disable_task_polling_sleep") then Some (JBool (f_disable_task_polling_sleep f))
  else if str_eqb k (js "claude_beta_query") then flag_if (ty =? 14)%Z (f_claude_beta_query f)
  else if str_eqb k (js "allow_speed") then flag_if (ty =? 14)%Z (f_allow_speed f)
  else if str_eqb k (js "allow_inference_geo") then flag_if (one_of_types [1; 14; 57]%Z ty) (f_allow_inference_geo f)
  else if str_eqb k (js "allow_include_obfuscation") then flag_if (one_of_types [1; 57]%Z ty) (f_allow_include_obfuscation f)
  else if str_eqb k (js "allow_safety_identifier") then flag_if (one_of_types [1; 57]%Z ty) (f_allow_safety_identifier f)
  else if str_eqb k (js "disable_store") then flag_if (one_of_types [1; 57]%Z ty) (f_disable_store f)
  else if str_eqb k (js "allow_service_tier") then flag_if (one_of_types [1; 14; 57]%Z ty) (f_allow_service_tier f)
  else map_get k l.
Proof.
  intros. unfold passthrough_settings. cbv zeta.
  assert (one_of_types [1; 14; 57]%Z ty = one_of_types [1; 57]%Z ty || (ty =? 14)%Z) as Et.
  { unfold one_of_types. cbn. by destruct (ty =? 1)%Z, (ty =? 14)%Z, (ty =? 57)%Z. }
  assert (one_of_types [1; 57]%Z ty = true -> (ty =? 14)%Z = false) as Ex.
  { unfold one_of_types. cbn. intros Ho. destruct (Z.eqb_spec ty 14) as [E|]; [by rewrite E in Ho | done]. }
  destruct (one_of_types [1; 57]%Z ty), (ty =? 14)%Z; rewrite ?Et; cbn [orb flag_if]; try (by specialize (Ex eq_refl)); read_updates; try reflexivity.
Qed.

Abbreviation fetchable := (one_of_types MODEL_FETCHABLE_TYPES ty).

Lemma upstream_wf l : obj_wf l -> obj_wf (upstream_settings f l).
Proof. intros. unfold upstream_settings. cbv zeta. destruct (negb _); [done |]. repeat case_match; auto 20 with settings. Qed.

Lemma upstream_get k l : obj_wf l -> map_get k (upstream_settings f l) =
  let detected := map_get (js "upstream_model_update_last_detected_models") l in
  let time := map_get (js "upstream_model_update_last_check_time") l in
  if negb fetchable then map_get k l
  else if str_eqb k (js "upstream_model_update_last_check_time") then (if is_number time then time else Some (JNum (n_of_Z 0)))
  else if str_eqb k (js "upstream_model_update_last_detected_models") then (if is_array detected && f_upstream_check_enabled f then detected else Some (JArr []))
  else if str_eqb k (js "upstream_model_update_ignored_models") then Some (JArr (map JStr (ignored_models f)))
  else if str_eqb k (js "upstream_model_update_auto_sync_enabled") then Some (JBool (f_upstream_check_enabled f && f_upstream_auto_sync_enabled f))
  else if str_eqb k (js "upstream_model_update_check_enabled") then Some (JBool (f_upstream_check_enabled f))
  else map_get k l.
Proof.
  intros H. cbv zeta. unfold upstream_settings. destruct (negb fetchable); [done |]. cbv zeta. apply fetch_updates_get; [done |].
  by apply (bool_decide_unpack _); vm_compute.
Qed.

Lemma advanced_wf l : obj_wf l -> obj_wf (advanced_settings f l).
Proof. intros. unfold advanced_settings. repeat case_match; auto with settings. Qed.

Lemma advanced_get k l : obj_wf l -> map_get k (advanced_settings f l) =
  if str_eqb k (js "advanced_custom") then
    (if (ty =? CHANNEL_TYPE_ADVANCED_CUSTOM)%Z
     then match parseAdvancedCustomConfig (f_advanced_custom f) with Some c => Some (routes_config_json c) | None => map_get k l end else None)
  else map_get k l.
Proof.
  intros. unfold advanced_settings. destruct (ty =? _)%Z; [| apply get_delete_str]. destruct (parseAdvancedCustomConfig _); [by apply get_set_str |].
  by destruct (str_eqb _ _).
Qed.

(** ** What the settings become *)

(** The settings that the form is in charge of, with what it makes of them ([None]: removed).  The settings of the upstream model
    check are its own only for types whose models can be fetched. *)
Definition owned_settings (old : entries) : list (str * option json) :=
  [(js "vertex_key_type", if (ty =? 41)%Z then Some (value_or (f_vertex_key_type f) (JStr (js "json"))) else None);
   (js "azure_responses_version",
    let azure := value_or (f_azure_responses_version f) (JStr []) in if (ty =? 3)%Z && j_truthy azure then Some azure else None);
   (js "openrouter_enterprise", flag_if (ty =? 20)%Z (f_is_enterprise_account f));
   (js "aws_key_type", if (ty =? 33)%Z then Some (value_or (f_aws_key_type f) (JStr (js "ak_sk"))) else None);
   (js "allow_service_tier", flag_if (one_of_types [1; 14; 57]%Z ty) (f_allow_service_tier f));
   (js "disable_store", flag_if (one_of_types [1; 57]%Z ty) (f_disable_store f));
   (js "allow_safety_identifier", flag_if (one_of_types [1; 57]%Z ty) (f_allow_safety_identifier f));
   (js "allow_include_obfuscation", flag_if (one_of_types [1; 57]%Z ty) (f_allow_include_obfuscation f));
   (js "allow_inference_geo", flag_if (one_of_types [1; 14; 57]%Z ty) (f_allow_inference_geo f));
   (js "allow_speed", flag_if (ty =? 14)%Z (f_allow_speed f)); (js "claude_beta_query", flag_if (ty =? 14)%Z (f_claude_beta_query f));
   (js "disable_task_polling_sleep", Some (JBool (f_disable_task_polling_sleep f)))] ++
  (if fetchable then
     [(js "upstream_model_update_check_enabled", Some (JBool (f_upstream_check_enabled f)));
      (js "upstream_model_update_auto_sync_enabled", Some (JBool (f_upstream_check_enabled f && f_upstream_auto_sync_enabled f)));
      (js "upstream_model_update_ignored_models", Some (JArr (map JStr (ignored_models f))));
      (js "upstream_model_update_last_detected_models",
       let detected := map_get (js "upstream_model_update_last_detected_models") old in
       if is_array detected && f_upstream_check_enabled f then detected else Some (JArr []));
      (js "upstream_model_update_last_check_time",
       let time := map_get (js "upstream_model_update_last_check_time") old in if is_number time then time else Some (JNum (n_of_Z 0)))]
   else []) ++
  (if (ty =? CHANNEL_TYPE_ADVANCED_CUSTOM)%Z
   then match parseAdvancedCustomConfig (f_advanced_custom f) with Some c => [(js "advanced_custom", Some (routes_config_json c))] | None => [] end
   else [(js "advanced_custom", None)]).

Definition settings_value (old : entries) (k : str) : option json :=
  match map_get k (owned_settings old) with Some v => v | None => map_get k old end.

Definition written_settings (l : entries) : entries :=
  advanced_settings f (upstream_settings f (passthrough_settings f (key_type_settings f l))).

Lemma get_cons_str {V} k k' (v : V) m : map_get k ((k', v) :: m) = if str_eqb k k' then Some v else map_get k m.
Proof. unfold str_eqb. destruct (decide (k = k')) as [->|]; [rewrite bool_decide_eq_true_2 by done | rewrite bool_decide_eq_false_2 by done]; [by rewrite map_get_head | by rewrite map_get_tail]. Qed.

Lemma written_wf l : obj_wf l -> obj_wf (written_settings l).
Proof. intros. by apply advanced_wf, upstream_wf, passthrough_wf, key_type_wf. Qed.

Lemma written_get k l : obj_wf l -> map_get k (written_settings l) = settings_value l k.
Proof.
  intros H. pose proof (key_type_wf l H) as W1. pose proof (passthrough_wf _ W1) as W2. pose proof (upstream_wf _ W2) as W3.
  unfold written_settings, settings_value, owned_settings. rewrite advanced_get by done. rewrite !upstream_get by done. cbv zeta.
  rewrite !passthrough_get by done. rewrite !key_type_get by done. literal_keys. rewrite !map_get_app.
  set (adv := parseAdvancedCustomConfig (f_advanced_custom f)).
  destruct fetchable, (ty =? CHANNEL_TYPE_ADVANCED_CUSTOM)%Z, adv; cbn [negb]; rewrite ?get_cons_str, ?map_get_nil;
    repeat match goal with |- context [str_eqb k ?key] => key_case k key end; reflexivity.
Qed.
End Settings.

(** ** The text of the settings *)

Definition text_field (v : option json) : Prop := match v with None | Some (JStr _) => True | Some _ => False end.
Definition flag_field (v : option json) : Prop := match v with None | Some (JBool _) => True | Some _ => False end.

(** The fields have the types that the schema declares; the routes can be printed. *)
Record typed_form (f : ChannelFormValues) : Prop := mkTyped {
  tf_vertex : text_field (f_vertex_key_type f); tf_aws : text_field (f_aws_key_type f); tf_azure : text_field (f_azure_responses_version f);
  tf_proxy : text_field (f_proxy f); tf_prompt : text_field (f_system_prompt f);
  tf_format : flag_field (f_force_format f); tf_thinking : flag_field (f_thinking_to_content f);
  tf_body : flag_field (f_pass_through_body_enabled f); tf_override : flag_field (f_system_prompt_override f);
  tf_routes : forall c, parseAdvancedCustomConfig (f_advanced_custom f) = Some c -> json_ok (routes_config_json c)
}.

Lemma text_field_ok v s : text_field v -> json_ok (value_or v (JStr s)).
Proof. destruct v as [[| | |t| |]|]; cbn; try done. by destruct (truthy t). Qed.

Lemma flag_field_ok v b : flag_field v -> json_ok (value_or v (JBool b)).
Proof. destruct v as [[|c| | | |]|]; cbn; try done. by destruct c. Qed.

Definition ok_value (v : option json) : Prop := match v with Some v => json_ok v | None => True end.

Lemma flag_if_ok b v : ok_value (flag_if b v).
Proof. by destruct b. Qed.

Lemma json_texts_ok l : json_ok (JArr (map JStr l)).
Proof. apply json_ok_arr, Forall_map. by apply Forall_true. Qed.

Lemma old_value_ok old k : json_ok (JObj old) -> ok_value (map_get k old).
Proof.
  intros [Hl _]%json_ok_wf. destruct (map_get k old) as [v|] eqn:E; [| done]. apply map_get_elem in E. rewrite Forall_forall in Hl. by apply (Hl (k, v)).
Qed.

Lemma owned_ok f old : typed_form f -> json_ok (JObj old) -> Forall (fun e => ok_value (snd e)) (owned_settings f old).
Proof.
  intros [] Hold. unfold owned_settings. apply Forall_app. split; [| apply Forall_app; split].
  - repeat (constructor; [cbn [snd]; first [apply flag_if_ok | done | idtac] |]); try constructor.
    + case_match; [by apply text_field_ok | done].
    + cbv zeta. case_match; [by apply text_field_ok | done].
    + case_match; [by apply text_field_ok | done].
  - case_match; [| constructor]. repeat (constructor; [cbn [snd]; first [done | apply json_texts_ok | idtac] |]); [| | constructor]; cbv zeta.
    + case_match; [by apply old_value_ok | done].
    + case_match; [by apply old_value_ok |]. vm_compute. reflexivity.
  - case_match; [| repeat constructor]. destruct (parseAdvancedCustomConfig _) as [c|]; [| constructor]. repeat constructor. cbn. by apply tf_routes0.
Qed.

Lemma settings_value_ok f old k : typed_form f -> json_ok (JObj old) -> ok_value (settings_value f old k).
Proof.
  intros Hf Hold. unfold settings_value. destruct (map_get k (owned_settings f old)) as [v|] eqn:E; [| by apply old_value_ok].
  apply map_get_elem in E. pose proof (owned_ok f old Hf Hold) as H. rewrite Forall_forall in H. by apply (H (k, v)).
Qed.

Lemma written_ok f old : typed_form f -> json_ok (JObj old) -> json_ok (JObj (written_settings f old)).
Proof.
  intros Hf Hold. pose proof Hold as [_ Hw]%json_ok_wf. pose proof (written_wf f old Hw) as Hw'. apply json_ok_wf. split; [| done].
  apply Forall_forall. intros [k v] Hin. apply elem_map_get in Hin; [| by apply Hw']. rewrite written_get in Hin by done.
  pose proof (settings_value_ok f old k Hf Hold) as H. by rewrite Hin in H.
Qed.

(** C32: The settings of a channel after a save: from an object of settings, the form writes
    an object in which the settings of the channel's type have the values of the form, those
    that belong to other types are removed, and every other setting is as it was.  Among the
    latter are the five settings of the upstream model check for types whose models cannot be
    fetched: they stay, also when the type was changed.  Routes of an advanced custom channel that
    cannot be parsed leave the stored ones.  The order in which the settings are written does not
    matter.  For a form whose fields have the types of the schema, with settings that are an
    object. *)
Theorem channel_settings_spec f old :
  typed_form f -> existing_settings f = Some (JObj old) -> json_ok (JObj old) ->
  exists text out, buildSettingsJSON f = Some text /\ JSON_parse text = Some (JObj out) /\
    forall k, map_get k out = settings_value f old k.
Proof.
  intros Hf He Hold. exists (JSON_stringify (JObj (written_settings f old))), (written_settings f old).
  split; [unfold buildSettingsJSON; by rewrite He |]. split; [by apply json_roundtrip, written_ok |].
  intros k. apply written_get. by apply json_ok_wf in Hold as [_ ?].
Qed.

(** A form of an advanced custom channel that the checks accept has valid routes, and an
    address whenever a route needs one. *)
Theorem accepted_form_routes new_URL f :
  channel_form_issues new_URL f = Some [] -> f_type f = CHANNEL_TYPE_ADVANCED_CUSTOM ->
  exists c, parseAdvancedCustomConfig (f_advanced_custom f) = Some c /\ validateAdvancedCustomConfig new_URL (Some c) = Some None /\
    (advancedCustomConfigUsesRelativeUpstreamPath (Some c) = Some true -> blank_text (f_base_url f) = false).
Proof.
  unfold channel_form_issues. intros H Hty. rewrite Hty, Z.eqb_refl in H.
  destruct (validateAdvancedCustomConfig new_URL (parseAdvancedCustomConfig (f_advanced_custom f))) as [e|] eqn:Ev; [| done]. cbn [mbind option_bind] in H.
  destruct (advancedCustomConfigUsesRelativeUpstreamPath _) as [relative|] eqn:Er; [| done]. cbn [mbind option_bind] in H. apply (inj Some) in H.
  apply app_eq_nil in H as [_ H]. apply app_eq_nil in H as [H _]. apply app_eq_nil in H as [He Hb]. destruct e as [e|]; [done |].
  destruct (parseAdvancedCustomConfig (f_advanced_custom f)) as [c|]; [| done]. exists c. split; [done |]. split; [done |].
  intros Ht. rewrite Ht in Er. injection Er as <-. cbn [andb] in Hb. by destruct (blank_text (f_base_url f)).
Qed.
