(* ===== verification/ChannelRoundtrip.v ===== *)
(** * The channel form: saving a channel and opening it again

    A channel that was saved from the form is shown by the form as the server then has it, and
    saving it again without a change sends the same request. *)
From S2P Require Import Prelude Number Regex Json JsonPretty JsonObject ChannelMapping ParamOverride AdvancedCustom AdvancedProps ChannelForm ChannelFormProps.

(** ** Updates that change nothing *)

Lemma obj_set_same k v (l : entries) : obj_wf l -> map_get k l = Some v -> obj_set k v l = l.
Proof. intros [_ Ho] Hg. unfold obj_set. by rewrite map_set_same. Qed.

Lemma obj_delete_absent k (l : entries) : map_get k l = None -> obj_delete k l = l.
Proof.
  intros Hg%map_get_None. unfold obj_delete. apply filter_all, Forall_forall. intros e He. apply negb_true_iff, not_true_iff_false.
  rewrite str_eqb_eq. intros E. apply Hg. rewrite <- E. by apply list_elem_of_fmap_2.
Qed.

Lemma set_or_delete_same (b : bool) (k : String.string) v (l : entries) : obj_wf l -> map_get (js k) l = (if b then Some v else None) -> set_or_delete b k v l = l.
Proof. intros Hw Hg. unfold set_or_delete. destruct b; [by apply obj_set_same | by apply obj_delete_absent]. Qed.

(** Literal keys are compared by [literal_keys] only. *)
#[local] Opaque js map_get obj_set obj_delete.

Lemma names_of_models s : names_of s = parseModelsString s.
Proof. by destruct s. Qed.

Lemma names_of_join ms : Forall clean_name ms -> names_of (join (js ",") ms) = ms.
Proof. intros H. rewrite names_of_models. by apply parse_models_join. Qed.

Lemma ignored_clean f : Forall clean_name (ignored_models f).
Proof. apply set_of_clean. rewrite names_of_models. apply parse_models_clean. Qed.

Lemma join_texts l : to_String (JArr (map JStr l)) = join (js ",") l.
Proof. cbn [to_String]. f_equal. rewrite map_map. apply map_id. Qed.

(** ** Reading the settings that were written *)

Section Reopen.
Variables (f : ChannelFormValues) (old out : entries).
Hypothesis Hget : forall k, map_get k out = settings_value f old k.
Hypothesis Hwf : obj_wf out.
Abbreviation ty := (f_type f).

(** The value of a literal key. *)
Ltac owned := rewrite Hget; unfold settings_value, owned_settings; rewrite ?map_get_app, ?get_cons_str, ?map_get_nil; literal_keys.

(** The form that shows them. *)
Variable f' : ChannelFormValues.
Hypothesis Htype : f_type f' = ty.
Hypothesis Hvertex : f_vertex_key_type f' = Some (value_or (map_get (js "vertex_key_type") out) (JStr (js "json"))).
Hypothesis Haws : f_aws_key_type f' = Some (value_or (map_get (js "aws_key_type") out) (JStr (js "ak_sk"))).
Hypothesis Hazure : f_azure_responses_version f' = Some (value_or (map_get (js "azure_responses_version") out) (JStr [])).
Hypothesis Henterprise : f_is_enterprise_account f' = prop_true (js "openrouter_enterprise") out.

Lemma key_type_same : key_type_settings f' out = out.
Proof.
  unfold key_type_settings. cbv zeta. rewrite Htype, Hvertex, Haws, Hazure, Henterprise. unfold prop_true.
  assert (map_get (js "vertex_key_type") out = if (ty =? 41)%Z then Some (value_or (f_vertex_key_type f) (JStr (js "json"))) else None) as Ev by by owned.
  assert (map_get (js "aws_key_type") out = if (ty =? 33)%Z then Some (value_or (f_aws_key_type f) (JStr (js "ak_sk"))) else None) as Ea by by owned.
  assert (map_get (js "openrouter_enterprise") out = flag_if (ty =? 20)%Z (f_is_enterprise_account f)) as Ee by by owned.
  assert (map_get (js "azure_responses_version") out = let azure := value_or (f_azure_responses_version f) (JStr []) in
    if (ty =? 3)%Z && j_truthy azure then Some azure else None) as Ez by by owned.
  rewrite !value_or_idemp.
  rewrite (set_or_delete_same (ty =? 41)%Z); [| done | rewrite Ev; destruct (ty =? 41)%Z; [by rewrite value_or_idemp | done]].
  rewrite (set_or_delete_same ((ty =? 3)%Z && _)); [| done |].
  2: { rewrite Ez. cbv zeta. destruct (ty =? 3)%Z; [| done]. cbn [andb]. set (az := value_or (f_azure_responses_version f) (JStr [])).
       destruct (j_truthy az) eqn:E; [| done].
       assert (value_or (Some az) (JStr []) = az) as -> by (cbn [value_or]; by rewrite E). by rewrite E. }
  rewrite (set_or_delete_same (ty =? 20)%Z); [| done | rewrite Ee; by destruct (ty =? 20)%Z].
  apply set_or_delete_same; [done |]. rewrite Ea. destruct (ty =? 33)%Z; [by rewrite value_or_idemp | done].
Qed.

Hypothesis Htier : f_allow_service_tier f' = prop_true (js "allow_service_tier") out.
Hypothesis Hstore : f_disable_store f' = prop_true (js "disable_store") out.
Hypothesis Hsafety : f_allow_safety_identifier f' = prop_true (js "allow_safety_identifier") out.
Hypothesis Hobfuscation : f_allow_include_obfuscation f' = prop_true (js "allow_include_obfuscation") out.
Hypothesis Hgeo : f_allow_inference_geo f' = prop_true (js "allow_inference_geo") out.
Hypothesis Hspeed : f_allow_speed f' = prop_true (js "allow_speed") out.
Hypothesis Hbeta : f_claude_beta_query f' = prop_true (js "claude_beta_query") out.
Hypothesis Hsleep : f_disable_task_polling_sleep f' = prop_true (js "disable_task_polling_sleep") out.

(** A flag of some types. *)
Lemma flag_same b v k : map_get (js k) out = flag_if b v -> set_or_delete b k (JBool (prop_true (js k) out)) out = out.
Proof. intros E. apply set_or_delete_same; [done |]. unfold prop_true. rewrite E. by destruct b. Qed.

Lemma flag_set_same v k : map_get k out = Some (JBool v) -> obj_set k (JBool (prop_true k out)) out = out.
Proof. intros E. apply obj_set_same; [done |]. unfold prop_true. by rewrite E. Qed.

Lemma passthrough_same : passthrough_settings f' out = out.
Proof.
  unfold passthrough_settings. cbv zeta. rewrite Htype, Htier, Hstore, Hsafety, Hobfuscation, Hgeo, Hspeed, Hbeta, Hsleep.
  rewrite (flag_same _ (f_allow_service_tier f)) by by owned. rewrite (flag_same _ (f_disable_store f)) by by owned.
  rewrite (flag_same _ (f_allow_safety_identifier f)) by by owned. rewrite (flag_same _ (f_allow_include_obfuscation f)) by by owned.
  assert (map_get (js "allow_inference_geo") out = flag_if (one_of_types [1; 14; 57]%Z ty) (f_allow_inference_geo f)) as Eg by by owned.
  assert (one_of_types [1; 14; 57]%Z ty = one_of_types [1; 57]%Z ty || (ty =? 14)%Z) as Et.
  { unfold one_of_types. cbn. by destruct (ty =? 1)%Z, (ty =? 14)%Z, (ty =? 57)%Z. }
  assert (map_get (js "allow_speed") out = flag_if (ty =? 14)%Z (f_allow_speed f)) as Es by by owned.
  assert (map_get (js "claude_beta_query") out = flag_if (ty =? 14)%Z (f_claude_beta_query f)) as Ec by by owned.
  assert (map_get (js "disable_task_polling_sleep") out = Some (JBool (f_disable_task_polling_sleep f))) as Ed by by owned.
  rewrite Et in Eg. set (l := if one_of_types [1; 57]%Z ty then _ else _). assert (l = out) as ->.
  { unfold l. destruct (one_of_types [1; 57]%Z ty); [by apply (flag_set_same (f_allow_inference_geo f)) |].
    destruct (ty =? 14)%Z; [done | by apply obj_delete_absent]. }
  set (l' := if (ty =? 14)%Z then _ else out). assert (l' = out) as ->.
  { unfold l'. destruct (ty =? 14)%Z; [| done]. apply (flag_set_same (f_allow_inference_geo f)). by rewrite Eg, orb_true_r. }
  rewrite (flag_same _ (f_allow_speed f)) by done. rewrite (flag_same _ (f_claude_beta_query f)) by done.
  by apply (flag_set_same (f_disable_task_polling_sleep f)).
Qed.

Hypothesis Hcheck : f_upstream_check_enabled f' = prop_true (js "upstream_model_update_check_enabled") out.
Hypothesis Hsync : f_upstream_auto_sync_enabled f' = prop_true (js "upstream_model_update_auto_sync_enabled") out.
Hypothesis Hignored : f_upstream_ignored_models f' =
  match map_get (js "upstream_model_update_ignored_models") out with Some (JArr l) => to_String (JArr l) | _ => [] end.

Lemma upstream_same : upstream_settings f' out = out.
Proof.
  unfold upstream_settings. cbv zeta. rewrite Htype. destruct (one_of_types MODEL_FETCHABLE_TYPES ty) eqn:Ef; [| done]. cbn [negb].
  set (check := f_upstream_check_enabled f).
  assert (map_get (js "upstream_model_update_check_enabled") out = Some (JBool check)) as Ec by (owned; rewrite Ef, ?get_cons_str; by literal_keys).
  assert (map_get (js "upstream_model_update_auto_sync_enabled") out = Some (JBool (check && f_upstream_auto_sync_enabled f))) as Es
    by (owned; rewrite Ef, ?get_cons_str; by literal_keys).
  assert (map_get (js "upstream_model_update_ignored_models") out = Some (JArr (map JStr (ignored_models f)))) as Ei
    by (owned; rewrite Ef, ?get_cons_str; by literal_keys).
  set (detected := map_get (js "upstream_model_update_last_detected_models") old). set (time := map_get (js "upstream_model_update_last_check_time") old).
  assert (map_get (js "upstream_model_update_last_detected_models") out = if is_array detected && check then detected else Some (JArr [])) as Ed
    by (owned; rewrite Ef, ?get_cons_str; by literal_keys).
  assert (map_get (js "upstream_model_update_last_check_time") out = if is_number time then time else Some (JNum (n_of_Z 0))) as Et
    by (owned; rewrite Ef, ?get_cons_str; by literal_keys).
  assert (ignored_models f' = ignored_models f) as Eig.
  { unfold ignored_models at 1. rewrite Hignored, Ei, join_texts, names_of_join by apply ignored_clean. apply set_of_id, NoDup_set_of. }
  rewrite Hcheck, Hsync, Eig. unfold prop_true. rewrite Ec, Es.
  rewrite (obj_set_same _ (JBool check)) by done. rewrite (obj_set_same _ (JBool (check && _))); [| done | rewrite Es; by destruct check].
  rewrite (obj_set_same _ (JArr (map JStr _))) by done. rewrite Ed.
  set (l := if negb (is_array _) || negb check then _ else out). assert (l = out) as ->.
  { unfold l. destruct (is_array detected) eqn:Ea, check; cbn [andb is_array negb orb] in *; rewrite ?Ea; try done; by apply obj_set_same. }
  rewrite Et. by destruct (is_number time) eqn:En; cbn [is_number negb]; rewrite ?En.
Qed.

Hypothesis Hadvanced : f_advanced_custom f' = Some
  match map_get (js "advanced_custom") out with
  | Some v => if j_truthy v then default [] (l ← props_of v; c ← config_of l; stringifyAdvancedCustomConfig c) else []
  | None => []
  end.
Hypothesis Hroutes : (ty =? CHANNEL_TYPE_ADVANCED_CUSTOM)%Z = true ->
  exists c, parseAdvancedCustomConfig (f_advanced_custom f) = Some c /\ json_ok (routes_config_json c).

Lemma advanced_same : advanced_settings f' out = out.
Proof.
  unfold advanced_settings. rewrite Htype. destruct (ty =? CHANNEL_TYPE_ADVANCED_CUSTOM)%Z eqn:E; cycle 1.
  { apply obj_delete_absent. owned. rewrite E, ?get_cons_str. literal_keys. by destruct (one_of_types _ _); rewrite ?get_cons_str; literal_keys. }
  destruct (Hroutes eq_refl) as (c & Hc & Hok). pose proof (parsed_normalized _ _ Hc) as Hn.
  assert (map_get (js "advanced_custom") out = Some (routes_config_json c)) as Ea.
  { owned. rewrite E, Hc, ?get_cons_str. literal_keys. by destruct (one_of_types _ _); rewrite ?get_cons_str; literal_keys. }
  rewrite Hadvanced, Ea. unfold routes_config_json at 1 2. cbn [j_truthy props_of mbind option_bind]. rewrite config_json_read. cbn [mbind option_bind].
  unfold stringifyAdvancedCustomConfig. rewrite Hn. cbn [fmap option_fmap option_map from_option]. unfold id. rewrite config_read by done. by apply obj_set_same.
Qed.

(** All settings are written again as they are. *)
Lemma written_same : written_settings f' out = out.
Proof. unfold written_settings. by rewrite key_type_same, passthrough_same, upstream_same, advanced_same. Qed.
End Reopen.

(** ** The whole form *)

(** A form as the schema accepts it, with a known type, clean names of groups, an address without white
    space inside, and settings that are an object. *)
Record form_ok (f : ChannelFormValues) : Prop := mkFormOk {
  fo_typed : typed_form f;
  fo_type : f_type f <> 0%Z;
  fo_name : f_name f <> [];
  fo_models : f_models f <> [];
  fo_groups : f_group f <> [] /\ Forall clean_name (f_group f);
  fo_url : trim (normalizeBaseUrl (f_base_url f)) = normalizeBaseUrl (f_base_url f);
  fo_settings : exists old, existing_settings f = Some (JObj old) /\ json_ok (JObj old);
  fo_routes : (f_type f =? CHANNEL_TYPE_ADVANCED_CUSTOM)%Z = true -> exists c, parseAdvancedCustomConfig (f_advanced_custom f) = Some c
}.

(** ** The server

    [Update] of [model/channel.go] hands the struct of the request to the update of the object mapper,
    which is not part of the repository.  It is documented to write the fields of a struct that are not
    zero: a field that is a pointer is written unless it is [null] - an empty text and a zero are
    written - and a field that is a plain text or number is written unless it is empty or zero.  What
    is not written stays as it was.  Of the fields that the form reads, the struct has the name, the
    models, the group, the settings and [other] as plain texts, the type and the status as plain
    numbers, and the others as pointers. *)
Definition pointer_value {A} (old sent : option A) : option A := match sent with Some v => Some v | None => old end.
Definition plain_text (old sent : option str) : option str := match sent with Some (_ :: _) => sent | _ => old end.
Definition plain_number (old : Z) (sent : option Z) : Z := match sent with Some 0%Z | None => old | Some n => n end.

Definition given_fields (old : Channel) (p : ChannelPayload) : Channel :=
  mkChannel (plain_text (ch_name old) (pl_name p)) (plain_number (ch_type old) (Some (pl_type p))) (pointer_value (ch_base_url old) (pl_base_url p))
    (pointer_value (ch_openai_organization old) (pl_openai_organization p)) (plain_text (ch_models old) (pl_models p))
    (plain_text (ch_group old) (pl_group p)) (pointer_value (ch_model_mapping old) (pl_model_mapping p))
    (pointer_value (ch_priority old) (pl_priority p)) (pointer_value (ch_weight old) (pl_weight p)) (pointer_value (ch_test_model old) (pl_test_model p))
    (Some (pl_auto_ban p)) (plain_number (ch_status old) (pl_status p)) (pointer_value (ch_status_code_mapping old) (pl_status_code_mapping p))
    (pointer_value (ch_tag old) (pl_tag p)) (pointer_value (ch_remark old) (pl_remark p)) (pointer_value (ch_setting old) (pl_setting p))
    (pointer_value (ch_param_override old) (pl_param_override p)) (pointer_value (ch_header_override old) (pl_header_override p))
    (plain_text (ch_settings old) (pl_settings p)) (plain_text (ch_other old) (pl_other p)) (ch_multi_key_mode old).

(** The object mapper, and what is documented of it. *)
Class Mapper := { updated_channel : Channel -> ChannelPayload -> Channel }.
Class MapperDocumented {M : Mapper} := { writes_given_fields : forall old p, updated_channel old p = given_fields old p }.

(** The request without a new key, and with another value of [other]. *)
Definition without_key (p : ChannelPayload) : ChannelPayload :=
  mkPayload (pl_id p) (pl_name p) (pl_type p) (pl_base_url p) None (pl_openai_organization p) (pl_models p) (pl_group p) (pl_model_mapping p)
    (pl_priority p) (pl_weight p) (pl_test_model p) (pl_auto_ban p) (pl_status p) (pl_status_code_mapping p) (pl_tag p) (pl_remark p) (pl_setting p)
    (pl_param_override p) (pl_header_override p) (pl_settings p) (pl_other p).
Definition with_other (other : option str) (p : ChannelPayload) : ChannelPayload :=
  mkPayload (pl_id p) (pl_name p) (pl_type p) (pl_base_url p) (pl_key p) (pl_openai_organization p) (pl_models p) (pl_group p) (pl_model_mapping p)
    (pl_priority p) (pl_weight p) (pl_test_model p) (pl_auto_ban p) (pl_status p) (pl_status_code_mapping p) (pl_tag p) (pl_remark p) (pl_setting p)
    (pl_param_override p) (pl_header_override p) (pl_settings p) other.

Lemma object_text l : exists c m, JSON_stringify (JObj l) = c :: m.
Proof. by eexists _, _. Qed.

(** A text of an object is read back by the form. *)
Lemma settings_props_text l : json_ok (JObj l) -> settings_props (Some (JSON_stringify (JObj l))) = Some l.
Proof.
  intros H. unfold settings_props. destruct (object_text l) as (c & m & E). rewrite E at 1. cbn [truthy]. by rewrite json_roundtrip.
Qed.

Lemma existing_again (f : ChannelFormValues) l : json_ok (JObj l) -> l <> [] -> f_settings f = Some (JSON_stringify (JObj l)) -> existing_settings f = Some (JObj l).
Proof.
  intros H Hl Hf. unfold existing_settings. rewrite Hf. cbn [from_option]. unfold id. destruct (object_text l) as (c & m & E). rewrite E at 1. cbn [truthy andb].
  destruct (str_eqb _ _) eqn:Ee; cbn [negb]; [| by rewrite json_roundtrip]. exfalso. apply str_eqb_eq in Ee. pose proof (json_roundtrip _ H) as Hp. rewrite Ee in Hp.
  Transparent js. vm_compute in Hp. congruence.
Qed.
#[local] Opaque js.

Lemma setting_json_again f ch : typed_form f -> ch_setting ch = Some (buildSettingJSON f) ->
  buildSettingJSON (transformChannelToFormDefaults ch) = buildSettingJSON f.
Proof.
  intros [] Hs. unfold buildSettingJSON at 1. unfold transformChannelToFormDefaults.
  cbn [f_force_format f_thinking_to_content f_proxy f_pass_through_body_enabled f_system_prompt f_system_prompt_override].
  assert (settings_props (ch_setting ch) = Some
    [(js "force_format", value_or (f_force_format f) (JBool false)); (js "thinking_to_content", value_or (f_thinking_to_content f) (JBool false));
     (js "proxy", value_or (f_proxy f) (JStr [])); (js "pass_through_body_enabled", value_or (f_pass_through_body_enabled f) (JBool false));
     (js "system_prompt", value_or (f_system_prompt f) (JStr [])); (js "system_prompt_override", value_or (f_system_prompt_override f) (JBool false))]) as ->.
  { rewrite Hs. apply settings_props_text. apply json_ok_wf. split.
    - repeat (constructor; [cbn [snd]; first [by apply text_field_ok | by apply flag_field_ok] |]). constructor.
    - split; [by apply (bool_decide_unpack _); vm_compute | by vm_compute]. }
  cbn [from_option]. unfold id. rewrite !get_cons_str. literal_keys. by rewrite !value_or_idemp.
Qed.

Lemma settings_json_again f ch old out :
  (forall k, map_get k out = settings_value f old k) -> json_ok (JObj out) ->
  ((f_type f =? CHANNEL_TYPE_ADVANCED_CUSTOM)%Z = true -> exists c, parseAdvancedCustomConfig (f_advanced_custom f) = Some c /\ json_ok (routes_config_json c)) ->
  ch_type ch = f_type f -> ch_settings ch = Some (JSON_stringify (JObj out)) ->
  buildSettingsJSON (transformChannelToFormDefaults ch) = Some (JSON_stringify (JObj out)).
Proof.
  intros Hget Hok Hroutes Hty Hs. pose proof Hok as [_ Hwf]%json_ok_wf. pose proof (settings_props_text out Hok) as Hp. rewrite <- Hs in Hp.
  assert (out <> []) as Hne.
  { intros ->. specialize (Hget (js "disable_task_polling_sleep")). unfold settings_value, owned_settings in Hget.
    rewrite ?map_get_app, ?get_cons_str, ?map_get_nil in Hget. revert Hget. literal_keys. done. }
  unfold buildSettingsJSON. rewrite (existing_again _ out); [| done | done |].
  - cbn [mbind option_bind]. fold (written_settings (transformChannelToFormDefaults ch) out). do 3 f_equal.
    apply (written_same f old out Hget Hwf (transformChannelToFormDefaults ch)); try done;
      unfold transformChannelToFormDefaults; rewrite Hp; reflexivity.
  - unfold transformChannelToFormDefaults. cbn [f_settings]. rewrite Hs. destruct (object_text out) as (c & m & E). by rewrite E.
Qed.

Lemma text_or_explicit v : text_or (Some (default [] v)) [] = default [] v.
Proof. destruct v as [[|]|]; done. Qed.

Lemma text_or_null s : text_or (or_null s) [] = s.
Proof. by destruct s. Qed.

Lemma or_null_some s : s <> [] -> or_null s = Some s.
Proof. by destruct s. Qed.

Lemma base_url_again v : trim (normalizeBaseUrl v) = normalizeBaseUrl v -> normalizeBaseUrl (Some (normalizeBaseUrl v)) = normalizeBaseUrl v.
Proof.
  intros H. unfold normalizeBaseUrl at 1. cbn [from_option]. unfold id. rewrite H. unfold normalizeBaseUrl, strip_slashes.
  by rewrite reverse_involutive, drop_while_idemp.
Qed.

Lemma groups_again g : g <> [] -> Forall clean_name g ->
  formatGroups (parseGroups (text_or (or_null (formatGroups g)) (js "default"))) = formatGroups g /\ formatGroups g <> [].
Proof.
  intros Hne Hc. assert (formatGroups g <> []) as Hf.
  { unfold formatGroups. destruct g as [|x g]; [done |]. apply Forall_cons in Hc as [[Hx _] _]. destruct x; [done |]. by destruct g. }
  split; [| done]. rewrite or_null_some by done. assert (text_or (Some (formatGroups g)) (js "default") = formatGroups g) as -> by (by destruct (formatGroups g)).
  unfold parseGroups. assert (truthy (formatGroups g) = true) as -> by (by apply truthy_true). unfold formatGroups. by rewrite names_of_join.
Qed.

Lemma text_sent old s : s <> [] -> plain_text old (or_null s) = Some s.
Proof. by destruct s. Qed.

Lemma number_sent old n : n <> 0%Z -> plain_number old (Some n) = n.
Proof. by destruct n. Qed.

(** C31: Saving a channel, opening the form on what the server then has and saving again without a
    change sends the same request (without the key, which the form never shows) - but for [other]:
    where it was cleared the server keeps the old one, which the form shows and sends again.  In
    particular the type-specific settings, which are spread over two JSON texts, the routes of
    advanced custom channels, the list of ignored models and the address are all read back as they
    were written.  For a form that the schema accepts, with a type, a name, models, groups with clean
    names, texts that are valid, and settings that are an object.  *)
Theorem saved_channel_unchanged {M : Mapper} {Documented : MapperDocumented} f id p old :
  form_ok f -> transformFormDataToUpdatePayload f id = Some p ->
  transformFormDataToUpdatePayload (transformChannelToFormDefaults (updated_channel old p)) id =
  Some (with_other (match pl_other p with Some t => Some t | None => or_null (default [] (ch_other old)) end) (without_key p)).
Proof.
  rewrite writes_given_fields. intros [Htyped Hty Hname Hmodels [Hg Hgroups] Hurl (old' & Hex & Hold) Hroutes]. pose proof Hold as [_ Hwf]%json_ok_wf.
  set (out := written_settings f old'). assert (buildSettingsJSON f = Some (JSON_stringify (JObj out))) as Hb by (unfold buildSettingsJSON; by rewrite Hex).
  unfold transformFormDataToUpdatePayload at 1. rewrite Hb. cbn [mbind option_bind]. intros Hp. apply (inj Some) in Hp.
  destruct (groups_again _ Hg Hgroups) as [Egr Hgne]. destruct (object_text out) as (c & m & Eo).
  assert (JSON_stringify (JObj out) <> []) as Hone by (by rewrite Eo).
  assert (or_null (buildSettingJSON f) = Some (buildSettingJSON f)) as Enull' by (unfold buildSettingJSON; by rewrite or_null_some).
  set (ch := given_fields old p).
  assert (ch_type ch = f_type f) as Ety by (subst p; by apply number_sent).
  assert (ch_settings ch = Some (JSON_stringify (JObj out))) as Ese by (subst p; by apply text_sent).
  assert (ch_setting ch = Some (buildSettingJSON f)) as Est by (subst p; unfold ch, updated_channel; cbn -[buildSettingJSON or_null]; by rewrite Enull').
  assert (buildSettingsJSON (transformChannelToFormDefaults ch) = Some (JSON_stringify (JObj out))) as Hb'.
  { apply (settings_json_again f ch old' out); [intros k; by apply written_get | by apply written_ok | | done | done].
    intros E. destruct (Hroutes E) as [cfg Hc]. exists cfg. split; [done |]. by apply (tf_routes _ Htyped). }
  assert (buildSettingJSON (transformChannelToFormDefaults ch) = buildSettingJSON f) as Hs' by (by apply setting_json_again).
  unfold transformFormDataToUpdatePayload. rewrite Hb'. cbn [mbind option_bind]. rewrite Hs'. unfold with_other, without_key. f_equal.
  assert (ch_name ch = Some (f_name f) /\ ch_models ch = Some (f_models f) /\ ch_group ch = or_null (formatGroups (f_group f))) as (En & Em & Eg).
  { subst p. unfold ch, given_fields. cbn -[or_null formatGroups]. rewrite !text_sent, or_null_some by done. done. }
  assert (or_null (text_or (ch_other ch) []) = match pl_other p with Some t => Some t | None => or_null (default [] (ch_other old)) end) as Eot.
  { subst p. unfold ch, given_fields. cbn -[or_null text_or default]. by destruct (f_other f) as [[|]|], (ch_other old) as [[|]|]. }
  rewrite <- Eot. clear Eot.
  assert (ch_base_url ch = pl_base_url p /\ ch_openai_organization ch = pl_openai_organization p /\ ch_model_mapping ch = pl_model_mapping p /\
    ch_priority ch = pl_priority p /\ ch_weight ch = pl_weight p /\ ch_test_model ch = pl_test_model p /\ ch_auto_ban ch = Some (pl_auto_ban p) /\
    ch_status_code_mapping ch = pl_status_code_mapping p /\ ch_tag ch = pl_tag p /\ ch_remark ch = pl_remark p /\
    ch_param_override ch = pl_param_override p /\ ch_header_override ch = pl_header_override p) as Hptr by (by subst p).
  clearbody ch. clear Ese Est Hb' Hs' Hb. subst p. clearbody out.
  destruct Hptr as (H1 & H2 & H3 & H4 & H5 & H6 & H7 & H8 & H9 & H10 & H11 & H12).
  unfold transformChannelToFormDefaults.
  cbn -[text_or or_null default js truthy buildSettingJSON JSON_stringify normalizeBaseUrl formatGroups parseGroups trim] in *.
  rewrite Ety, En, Em, Eg, H1, H2, H3, H4, H5, H6, H7, H8, H9, H10, H11, H12.
  rewrite ?text_or_explicit, Egr.
  assert (forall s, text_or (Some s) [] = s) as Et by (by intros []). rewrite !Et, base_url_again by done.
  f_equal; try reflexivity.
Qed.

(** ** Example *)

#[local] Transparent js map_get obj_set obj_delete.

(** An advanced custom channel whose settings have an entry of another type and one that the form does not know. *)
Definition demo_form : ChannelFormValues :=
  mkForm (js "My channel") 58 (Some (js " https://example.com/api// ")) (js "sk-1") (Some []) (js "gpt-4o") [js "default"; js "vip"] (Some []) (Some 0%Z)
    (Some 5%Z) (Some []) (Some 1%Z) 1 (Some []) (Some []) (Some []) (Some []) (Some []) (Some [])
    (Some (jsq "{'vertex_key_type':'json','note':'keep'}")) (Some demo_routes) (Some []) (Some (js "single")) (Some (js "random"))
    (Some false) (Some (js "append")) (jbool true) (jbool false) (Some (JStr (js "socks5://proxy"))) (jbool false) (Some (JStr [])) (jbool false)
    false (Some (JStr (js "json"))) (Some (JStr (js "ak_sk"))) (Some (JStr [])) false false false false false false false true false false [].

Lemma demo_typed : typed_form demo_form.
Proof.
  split; try exact I. intros c Hc. apply json_okb_ok. vm_compute in Hc. injection Hc as <-. vm_compute. reflexivity.
Qed.

Lemma demo_form_ok : form_ok demo_form.
Proof.
  split; [exact demo_typed | done | done | done | | vm_compute; reflexivity | | ].
  - split; [done |]. repeat constructor; try done; by apply (bool_decide_unpack _); vm_compute.
  - eexists. split; [vm_compute; reflexivity |]. apply json_okb_ok. vm_compute. reflexivity.
  - intros _. eexists. vm_compute. reflexivity.
Qed.

Definition demo_old : entries := [(js "vertex_key_type", JStr (js "json")); (js "note", JStr (js "keep"))].

Lemma channel_settings_spec_witness :
  settings_value demo_form demo_old (js "note") = Some (JStr (js "keep")) /\ settings_value demo_form demo_old (js "vertex_key_type") = None /\
  exists text out, buildSettingsJSON demo_form = Some text /\ JSON_parse text = Some (JObj out) /\
    forall k, map_get k out = settings_value demo_form demo_old k.
Proof.
  split; [vm_compute; reflexivity |]. split; [vm_compute; reflexivity |]. apply (channel_settings_spec demo_form demo_old).
  - exact demo_typed.
  - vm_compute; reflexivity.
  - apply json_okb_ok. vm_compute. reflexivity.
Defined.

Definition demo_payload : ChannelPayload :=
  default (mkPayload None None 0 None None None None None None None None None 0 None None None None None None None None None)
    (transformFormDataToUpdatePayload demo_form 7).

(** A channel of the server with a value of [other], which the form does not have. *)
Definition demo_channel : Channel :=
  mkChannel (Some (js "Old")) 58 None None (Some (js "gpt-4")) (Some (js "default")) None None None None None 1 None None None None None None None
    (Some (js "v1")) None.

#[local] Instance struct_mapper : Mapper := {| updated_channel := given_fields |}.
#[local] Instance struct_mapper_documented : MapperDocumented := {| writes_given_fields := fun _ _ => eq_refl |}.

Lemma saved_channel_unchanged_witness :
  pl_base_url demo_payload = Some (js "https://example.com/api") /\ pl_other demo_payload = None /\
  transformFormDataToUpdatePayload (transformChannelToFormDefaults (updated_channel demo_channel demo_payload)) 7 =
    Some (with_other (Some (js "v1")) (without_key demo_payload)).
Proof.
  split; [vm_compute; reflexivity |]. split; [vm_compute; reflexivity |]. apply (saved_channel_unchanged demo_form 7 demo_payload demo_channel).
  - exact demo_form_ok.
  - vm_compute; reflexivity.
Defined.
