(* ===== verification/Currency.v ===== *)
(** * Currency display and quota conversion

    [lib/currency.ts] and the quota functions of [lib/format.ts], over the currency part of
    the configuration store ([stores/system-config-store.ts]) and the status answer that
    fills it ([hooks/use-system-config.ts]).

    The store is persisted in the browser, so what is read may lack fields; [getConfig]
    fills them.  Number formats of the runtime ([Intl.NumberFormat]) and the powers of ten
    of [Math.pow], which the language leaves to the implementation, are a class. *)
From S2P Require Import Prelude Number NumberOrder Json.
From Stdlib Require Import SpecFloat.

(** ** Configuration *)

Record CurrencyConfig := mkCurrency {
  displayInCurrency : bool; quotaDisplayType : str; quotaPerUnit : num; usdExchangeRate : num;
  customCurrencySymbol : str; customCurrencyExchangeRate : num }.

Definition DEFAULT_CURRENCY_CONFIG : CurrencyConfig :=
  mkCurrency true (js "USD") (n_of_Z 500000) (n_of_Z 1) (js "¤") (n_of_Z 1).

(** The currency object of the store; a field may be missing. *)
Record StoredCurrency := mkStored {
  st_displayInCurrency : option bool; st_quotaDisplayType : option str; st_quotaPerUnit : option num;
  st_usdExchangeRate : option num; st_customCurrencySymbol : option str;
  st_customCurrencyExchangeRate : option num }.

Definition stored_of (c : CurrencyConfig) : StoredCurrency :=
  mkStored (Some (displayInCurrency c)) (Some (quotaDisplayType c)) (Some (quotaPerUnit c))
    (Some (usdExchangeRate c)) (Some (customCurrencySymbol c)) (Some (customCurrencyExchangeRate c)).

(** [{ ...a, ...b }]. *)
Definition opt_over {A} (a b : option A) : option A := match b with Some _ => b | None => a end.
Definition spread_currency (a b : StoredCurrency) : StoredCurrency :=
  mkStored (opt_over (st_displayInCurrency a) (st_displayInCurrency b))
    (opt_over (st_quotaDisplayType a) (st_quotaDisplayType b))
    (opt_over (st_quotaPerUnit a) (st_quotaPerUnit b))
    (opt_over (st_usdExchangeRate a) (st_usdExchangeRate b))
    (opt_over (st_customCurrencySymbol a) (st_customCurrencySymbol b))
    (opt_over (st_customCurrencyExchangeRate a) (st_customCurrencyExchangeRate b)).

Record SystemConfig := mkSystem {
  systemName : str; logo : str; footerHtml : option str; demoSiteEnabled : option bool;
  displayTokenStatEnabled : option bool; currency : option StoredCurrency }.

(** [/api/status]; numbers may come as strings. *)
Record StatusData := mkStatus {
  sd_system_name : option str; sd_logo : option str; sd_footer_html : option str;
  sd_demo_site_enabled : option bool; sd_display_token_stat_enabled : option bool;
  sd_display_in_currency : option bool; sd_quota_display_type : option str;
  sd_quota_per_unit : option json; sd_usd_exchange_rate : option json;
  sd_custom_currency_symbol : option str; sd_custom_currency_exchange_rate : option json }.

Definition DEFAULT_SYSTEM_NAME : str := js "New API".
Definition DEFAULT_LOGO : str := js "/logo.png".

Definition toNumber (value : option json) (fallback : num) : num :=
  match value with
  | Some (JNum n) => if isNaN n then fallback else n
  | Some (JStr s) => let parsed := num_of_str s in if isNaN parsed then fallback else parsed
  | _ => fallback
  end.

(** A partial configuration is either empty or has every field. *)
Definition mapStatusDataToConfig (data : option StatusData) : option SystemConfig :=
  match data with
  | None => None
  | Some d =>
      let D := DEFAULT_CURRENCY_CONFIG in
      let cur := mkCurrency (default (displayInCurrency D) (sd_display_in_currency d))
        (default (quotaDisplayType D) (sd_quota_display_type d))
        (toNumber (sd_quota_per_unit d) (quotaPerUnit D))
        (toNumber (sd_usd_exchange_rate d) (usdExchangeRate D))
        (str_or (default [] (trim <$> sd_custom_currency_symbol d)) (customCurrencySymbol D))
        (toNumber (sd_custom_currency_exchange_rate d) (customCurrencyExchangeRate D)) in
      Some (mkSystem (opt_str_or (sd_system_name d) DEFAULT_SYSTEM_NAME) (opt_str_or (sd_logo d) DEFAULT_LOGO)
        (sd_footer_html d) (sd_demo_site_enabled d) (sd_display_token_stat_enabled d) (Some (stored_of cur)))
  end.

Definition setConfig (newConfig : option SystemConfig) (config : SystemConfig) : SystemConfig :=
  let none := mkStored None None None None None None in
  let cur := spread_currency (default none (currency config)) (default none (newConfig ≫= currency)) in
  match newConfig with
  | None => mkSystem (systemName config) (logo config) (footerHtml config) (demoSiteEnabled config)
              (displayTokenStatEnabled config) (Some cur)
  | Some n => mkSystem (systemName n) (logo n) (footerHtml n) (demoSiteEnabled n)
                (displayTokenStatEnabled n) (Some cur)
  end.

Definition initial_config : SystemConfig :=
  mkSystem DEFAULT_SYSTEM_NAME DEFAULT_LOGO None None None (Some (stored_of DEFAULT_CURRENCY_CONFIG)).

(** [x && x > 0 ? x : fallback]. *)
Definition positive_or (x : option num) (fallback : num) : num :=
  match x with
  | Some v => if n_truthy v && n_ltb n_zero v then v else fallback
  | None => fallback
  end.

(** The argument is [useSystemConfigStore.getState().config.currency]. *)
Definition getConfig (cur : option StoredCurrency) : CurrencyConfig :=
  let D := DEFAULT_CURRENCY_CONFIG in
  let c := default (stored_of D) cur in
  mkCurrency (default (displayInCurrency D) (st_displayInCurrency c))
    (default (quotaDisplayType D) (st_quotaDisplayType c))
    (positive_or (st_quotaPerUnit c) (quotaPerUnit D))
    (positive_or (st_usdExchangeRate c) (usdExchangeRate D))
    (str_or (default [] (trim <$> st_customCurrencySymbol c)) (customCurrencySymbol D))
    (positive_or (st_customCurrencyExchangeRate c) (customCurrencyExchangeRate D)).

(** ** What is displayed *)

Inductive DisplayMeta :=
| MetaCurrency (symbol currencyCode : str) (exchangeRate : num)
| MetaCustom (symbol : str) (exchangeRate : num)
| MetaTokens (quotaPerUnit : num).

Definition is_tokens (m : DisplayMeta) : bool := match m with MetaTokens _ => true | _ => false end.

Definition DISPLAY_TYPE_VALUES : list str := [js "USD"; js "CNY"; js "TOKENS"; js "CUSTOM"].

Definition isCurrencyDisplayType (value : json) : bool :=
  match value with JStr s => set_has s DISPLAY_TYPE_VALUES | _ => false end.

Definition parseCurrencyDisplayType (value : json) (fallback : str) : str :=
  match value with JStr s => if isCurrencyDisplayType value then s else fallback | _ => fallback end.

Definition dollars : DisplayMeta := MetaCurrency (js "$") (js "USD") (n_of_Z 1).

Definition getDisplayMeta (config : CurrencyConfig) : DisplayMeta :=
  let ty := quotaDisplayType config in
  if str_eqb ty (js "CNY") then MetaCurrency (js "¥") (js "CNY") (usdExchangeRate config)
  else if str_eqb ty (js "CUSTOM") then MetaCustom (customCurrencySymbol config) (customCurrencyExchangeRate config)
  else if str_eqb ty (js "TOKENS") then MetaTokens (quotaPerUnit config)
  else dollars.

Definition getBillingDisplayMeta (config : CurrencyConfig) : DisplayMeta :=
  let meta := getDisplayMeta config in
  if is_tokens meta then dollars else meta.

Definition getCurrencyDisplay (cur : option StoredCurrency) : CurrencyConfig * DisplayMeta :=
  let config := getConfig cur in (config, getDisplayMeta config).

Definition getCurrencyLabel (cur : option StoredCurrency) : str :=
  let '(config, meta) := getCurrencyDisplay cur in
  if is_tokens meta then js "Tokens"
  else if str_eqb (quotaDisplayType config) (js "CNY") then js "CNY"
  else if str_eqb (quotaDisplayType config) (js "CUSTOM") then
    match meta with MetaCustom symbol _ => symbol | _ => js "Custom" end
  else js "USD".

Definition isCurrencyDisplayEnabled (cur : option StoredCurrency) : bool :=
  negb (is_tokens (snd (getCurrencyDisplay cur))).

(** ** Options *)

Record CurrencyFormatOptions := mkOpts {
  o_digitsLarge : option nat; o_digitsSmall : option nat; o_abbreviate : option bool;
  o_minimumNonZero : option num; o_compact : option bool; o_showSymbol : option bool; o_locale : option str }.

Record ResolvedOptions := mkResolved {
  digitsLarge : nat; digitsSmall : nat; abbreviate : bool; minimumNonZero : num; compact : bool;
  showSymbol : bool; locale : option str }.

Definition DEFAULT_FORMAT_OPTIONS : ResolvedOptions := mkResolved 2 4 true n_zero false true None.

Definition mergeOptions (options : option CurrencyFormatOptions) : ResolvedOptions :=
  match options with
  | None => DEFAULT_FORMAT_OPTIONS
  | Some o =>
      let D := DEFAULT_FORMAT_OPTIONS in
      mkResolved (default (digitsLarge D) (o_digitsLarge o)) (default (digitsSmall D) (o_digitsSmall o))
        (default (abbreviate D) (o_abbreviate o)) (default (minimumNonZero D) (o_minimumNonZero o))
        (default (compact D) (o_compact o)) (default (showSymbol D) (o_showSymbol o)) (o_locale o)
  end.

(** [{ digitsLarge, digitsSmall, abbreviate }]. *)
Definition digit_options (large small : nat) (abbr : bool) : option CurrencyFormatOptions :=
  Some (mkOpts (Some large) (Some small) (Some abbr) None None None None).

(** ** Formats *)

(** The options of [Intl.NumberFormat] that the sources set. *)
Record IntlOptions := mkIntl {
  io_currency : option str; io_compact : bool; io_minimumFractionDigits : option nat;
  io_maximumFractionDigits : nat }.

Class NumberFormats := {
  intl_format : option str -> IntlOptions -> num -> str;
  pow10 : Z -> num  (* [Math.pow(10, d)] *)
}.

(** [s.replace(/(\.[0-9]*?)0+$/, '$1')]: the zeros at the end of the first run of digits that
    follows a point and reaches the end. *)
Fixpoint strip_fraction_zeros (s : str) : str :=
  match s with
  | [] => []
  | c :: r =>
      if (c =? 46)%N && forallb is_digit r && ends_with r (js "0")
      then c :: reverse (drop_while (N.eqb 48) (reverse r))
      else c :: strip_fraction_zeros r
  end.

(** [s.replace(/\.$/, '')]. *)
Definition strip_last_point (s : str) : str :=
  if ends_with s (js ".") then take (length s - 1) s else s.

Definition removeTrailingZeros (s : str) : str :=
  if str_includes s (js ".") then strip_last_point (strip_fraction_zeros s) else s.

Definition formatNumberWithSuffix (value : num) (dLarge dSmall : nat) (abbr : bool) : str :=
  let abs := n_abs value in
  if abbr && n_leb (n_of_Z 1000) abs then
    removeTrailingZeros (to_fixed (n_div value (n_of_Z 1000)) 1) ++ js "k"
  else
    let digits := if n_leb (n_of_Z 1) abs then dLarge else dSmall in
    removeTrailingZeros (to_fixed value digits).

Section Formats.
Context {F : NumberFormats}.

Definition adjustForMinimum (value : num) (digits : nat) (minimum : num) : num :=
  if n_eqb value n_zero then value
  else
    let threshold := if n_ltb n_zero minimum then minimum else pow10 (- Z.of_nat digits) in
    let abs := n_abs value in
    if n_ltb n_zero abs && n_ltb abs threshold then
      (if n_ltb n_zero value then threshold else n_opp threshold)
    else value.

Definition formatCurrencyValue (value : num) (o : ResolvedOptions) (meta : DisplayMeta) : str :=
  let digits := if n_leb (n_of_Z 1) (n_abs value) then digitsLarge o else digitsSmall o in
  let adjustedValue := adjustForMinimum value digits (minimumNonZero o) in
  let maximum := if compact o then 1%nat else digits in
  let plain := intl_format (locale o) (mkIntl None (compact o) (Some 0%nat) maximum) adjustedValue in
  match meta with
  | MetaTokens _ =>
      if compact o then intl_format (locale o) (mkIntl None true None 1) value
      else formatNumberWithSuffix value (digitsLarge o) (digitsSmall o) (abbreviate o)
  | MetaCurrency _ code _ =>
      if negb (showSymbol o) then plain
      else intl_format (locale o) (mkIntl (Some code) (compact o) (Some 0%nat) maximum) adjustedValue
  | MetaCustom symbol _ => if showSymbol o then symbol ++ js " " ++ plain else plain
  end.

(** Missing amounts and NaN are shown as a dash. *)
Definition amount_of (amount : option num) : option num :=
  match amount with Some a => if isNaN a then None else Some a | None => None end.

Definition formatCurrencyFromUSD (cur : option StoredCurrency) (amountUSD : option num)
    (options : option CurrencyFormatOptions) : str :=
  match amount_of amountUSD with
  | None => js "-"
  | Some a =>
      let '(config, meta) := getCurrencyDisplay cur in
      let merged := mergeOptions options in
      match meta with
      | MetaTokens _ =>
          let tokens := n_mul a (quotaPerUnit config) in
          if compact merged then intl_format (locale merged) (mkIntl None true None 1) tokens
          else formatNumberWithSuffix tokens 0 (digitsSmall merged) (abbreviate merged)
      | MetaCurrency _ _ rate | MetaCustom _ rate => formatCurrencyValue (n_mul a rate) merged meta
      end
  end.

Definition formatBillingCurrencyFromUSD (cur : option StoredCurrency) (amountUSD : option num)
    (options : option CurrencyFormatOptions) : str :=
  match amount_of amountUSD with
  | None => js "-"
  | Some a =>
      let config := fst (getCurrencyDisplay cur) in
      let meta := getBillingDisplayMeta config in
      let merged := mergeOptions options in
      let value := match meta with
                   | MetaCurrency _ _ rate | MetaCustom _ rate => n_mul a rate
                   | MetaTokens _ => a
                   end in
      formatCurrencyValue value merged meta
  end.

Definition formatQuotaWithCurrency (cur : option StoredCurrency) (quota : option num)
    (options : option CurrencyFormatOptions) : str :=
  match amount_of quota with
  | None => js "-"
  | Some q =>
      let config := fst (getCurrencyDisplay cur) in
      formatCurrencyFromUSD cur (Some (n_div q (quotaPerUnit config))) options
  end.

Definition formatLocalCurrencyAmount (cur : option StoredCurrency) (amount : option num)
    (options : option CurrencyFormatOptions) : str :=
  match amount_of amount with
  | None => js "-"
  | Some a =>
      let config := fst (getCurrencyDisplay cur) in
      formatCurrencyValue a (mergeOptions options) (getBillingDisplayMeta config)
  end.

(** [format.ts] *)
Definition formatCurrencyUSD (cur : option StoredCurrency) (value : option num) : str :=
  formatCurrencyFromUSD cur value None.
Definition formatQuota (cur : option StoredCurrency) (quota : num) : str :=
  formatQuotaWithCurrency cur (Some quota) (digit_options 2 4 true).
Definition formatLogQuota (cur : option StoredCurrency) (quota : num) : str :=
  formatQuotaWithCurrency cur (Some quota) (digit_options 4 6 false).
End Formats.

(** ** Quota and display amounts *)

(** The rate of a display currency; 1 for tokens. *)
Definition meta_rate (meta : DisplayMeta) : num :=
  match meta with MetaCurrency _ _ rate | MetaCustom _ rate => rate | MetaTokens _ => n_of_Z 1 end.

Definition parseQuotaFromDollars (cur : option StoredCurrency) (amount : num) : num :=
  if negb (isFinite amount) then n_zero
  else
    let '(config, meta) := getCurrencyDisplay cur in
    if is_tokens meta then math_round amount
    else
      let exchangeRate := meta_rate meta in
      let usdAmount := if n_ltb n_zero exchangeRate then n_div amount exchangeRate else amount in
      math_round (n_mul usdAmount (quotaPerUnit config)).

Definition quotaUnitsToDollars (cur : option StoredCurrency) (units : num) : num :=
  let '(config, meta) := getCurrencyDisplay cur in
  if is_tokens meta then units
  else n_mul (n_div units (quotaPerUnit config)) (meta_rate meta).

(** ** Other formats of [format.ts] *)

(** [x % y]: the exact remainder, with the sign of the dividend. *)
Definition n_rem (x y : num) : num :=
  match x, y with
  | S754_nan, _ | _, S754_nan | S754_infinity _, _ | _, S754_zero _ => n_nan
  | _, S754_infinity _ | S754_zero _, _ => x
  | S754_finite s _ _, S754_finite _ _ _ => binary_normalize 53 1024 (Z.rem (scaled x) (scaled y)) (-1074) s
  end.

Definition formatTokens (tokens : num) : str :=
  if n_eqb tokens n_zero then js "-"
  else if n_ltb tokens (n_of_Z 1000) then num_to_str tokens
  else if n_ltb tokens (n_of_Z 1000000) then to_fixed (n_div tokens (n_of_Z 1000)) 1 ++ js "K"
  else to_fixed (n_div tokens (n_of_Z 1000000)) 2 ++ js "M".

Definition formatUseTime (seconds : num) : str :=
  if n_ltb seconds (n_of_Z 60) then to_fixed seconds 1 ++ js "s"
  else
    let minutes := default n_nan (n_of_Z <$> floor_Z (n_div seconds (n_of_Z 60))) in
    num_to_str minutes ++ js "m " ++ to_fixed (n_rem seconds (n_of_Z 60)) 0 ++ js "s".

(** The result of a bit operation: 32 bits with a sign. *)
Definition to_int32 (z : Z) : Z :=
  let m := (z mod 2 ^ 32)%Z in if (2 ^ 31 <=? m)%Z then (m - 2 ^ 32)%Z else m.

Definition hash_step (hash : Z) (c : N) : Z := to_int32 (Z.of_N c + (to_int32 (hash * 32) - hash)).
Definition string_hash (s : str) : Z := foldl hash_step 0%Z s.

Record Hsl := mkHsl { hue : Z; saturation : Z; lightness : Z }.
Definition color_of (s : str) : Hsl :=
  let hash := string_hash s in
  mkHsl (Z.abs (Z.rem hash 360)) (65 + Z.rem (Z.abs hash) 10) (55 + Z.rem (Z.abs (Z.shiftr hash 8)) 10).

Definition stringToColor (s : str) : str :=
  if truthy s then
    let c := color_of s in
    js "hsl(" ++ show_Z (hue c) ++ js ", " ++ show_Z (saturation c) ++ js "%, " ++ show_Z (lightness c) ++ js "%)"
  else js "gray".

Example format_ex1 : map (fun s => removeTrailingZeros (js s)) ["1.500"; "2.000"; "100"; "0.0500"]%string = map js ["1.5"; "2"; "100"; "0.05"]%string.
Proof. vm_compute. reflexivity. Qed.
Example format_ex2 : map (fun s => formatUseTime (lit s)) ["12.34"; "75"; "3600.2"]%string = map js ["12.3s"; "1m 15s"; "60m 0s"]%string.
Proof. vm_compute. reflexivity. Qed.
Example format_ex3 : stringToColor (js "gpt-4o") = js "hsl(227, 72%, 56%)".
Proof. vm_compute. reflexivity. Qed.
