(* ===== verification/AccountForms.v ===== *)
(** * Forms for quota and accounts

    The conversions between stored records and forms that hold a quota or permissions:
    redemption codes ([redemption-form.ts], [utils.ts]), token sales ([token-sale-form.ts]),
    the transfer of rewards ([transfer-dialog.tsx]), the quota dialog of a user
    ([user-quota-dialog.tsx]), the user form ([user-form.ts]) and the permission matrix
    ([lib/admin-permissions.ts], [lib/roles.ts]).

    A [Date] is its time in milliseconds.  [Math.floor(getTime() / 1000)] is the integer
    quotient for every date the language has (below 8.64e15 milliseconds the rounding of
    the quotient is smaller than its distance to the next integer). *)
From S2P Require Import Prelude Number Currency.
From Stdlib Require Import SpecFloat.

(** ** Redemption codes *)

Module Redemption.
Record Redemption := mkRedemption { r_name : str; r_quota : Z; r_expired_time : Z; r_status : Z }.
Record RedemptionFormValues := mkForm {
  f_name : str; f_quota_dollars : num; f_expired_time : option Z; f_count : option Z }.
Record RedemptionFormData := mkData { d_name : str; d_quota : num; d_expired_time : Z; d_count : Z }.

Definition REDEMPTION_FORM_DEFAULT_VALUES : RedemptionFormValues := mkForm [] (n_of_Z 10) None (Some 1%Z).

(** [new Date(seconds * 1000)] and back. *)
Definition seconds_of (date : Z) : Z := (date / 1000)%Z.
Definition date_of (seconds : Z) : Z := (seconds * 1000)%Z.

Definition redemptionToPayload (cur : option StoredCurrency) (data : RedemptionFormValues) :
    RedemptionFormData :=
  mkData (f_name data) (parseQuotaFromDollars cur (f_quota_dollars data))
    (match f_expired_time data with Some d => seconds_of d | None => 0%Z end)
    (match f_count data with Some c => if (c =? 0)%Z then 1%Z else c | None => 1%Z end).

Definition transformRedemptionToFormDefaults (cur : option StoredCurrency) (redemption : Redemption) :
    RedemptionFormValues :=
  mkForm (r_name redemption) (quotaUnitsToDollars cur (n_of_Z (r_quota redemption)))
    (if (0 <? r_expired_time redemption)%Z then Some (date_of (r_expired_time redemption)) else None) (Some 1%Z).

(** [now] is [Date.now()]; [timestamp < now / 1000] without the division. *)
Definition isTimestampExpired (now timestamp : Z) : bool :=
  if (timestamp =? 0)%Z then false else (timestamp * 1000 <? now)%Z.
Definition isRedemptionExpired (now expired_time status : Z) : bool :=
  (status =? 1)%Z && isTimestampExpired now expired_time.

(** The default name of a new code, when the field is left empty. *)
Definition submitted_name {F : NumberFormats} (cur : option StoredCurrency) (isUpdate : bool) (form : RedemptionFormValues) : str :=
  if negb isUpdate && negb (truthy (trim (f_name form)))
  then formatQuota cur (parseQuotaFromDollars cur (f_quota_dollars form)) else f_name form.
End Redemption.

(** ** Token sales *)

Module TokenSale.
Inductive TokenSaleStatus := active | closed.

Record TokenSale := mkSale {
  s_name : str; s_buyer : str; s_order_no : str; s_amount_minor : Z; s_granted_quota : Z;
  s_expired_time : Z; s_sale_status : TokenSaleStatus; s_max_concurrency : Z; s_rpm_rate_limit : Z;
  s_model_limits_enabled : bool; s_model_limits : str; s_allow_ips : str; s_group : str;
  s_cross_group_retry : bool; s_note : str }.

Record TokenSaleFormValues := mkValues {
  v_name : str; v_buyer : str; v_order_no : str; v_amount_cny : num; v_quota_amount : num;
  v_validity_days : Z; v_expired_time : Z; v_max_concurrency : Z; v_rpm_rate_limit : Z;
  v_model_limits : list str; v_allow_ips : str; v_group : str; v_cross_group_retry : bool; v_note : str;
  v_status : TokenSaleStatus }.

Record TokenSaleBasePayload := mkBase {
  b_name : str; b_buyer : str; b_order_no : str; b_amount_minor : num; b_granted_quota : num;
  b_max_concurrency : Z; b_rpm_rate_limit : Z; b_model_limits_enabled : bool; b_model_limits : str;
  b_allow_ips : str; b_group : str; b_cross_group_retry : bool; b_note : str }.
Record TokenSaleCreatePayload := mkCreate { c_base : TokenSaleBasePayload; c_validity_days : Z }.
Record TokenSaleUpdatePayload := mkUpdate {
  u_base : TokenSaleBasePayload; u_expired_time : Z; u_status : TokenSaleStatus }.

Definition month_ms : Z := (30 * 24 * 60 * 60 * 1000)%Z.

(** [now] is [Date.now()]. *)
Definition getTokenSaleFormDefaults (cur : option StoredCurrency) (now : Z) (sale : option TokenSale) :
    TokenSaleFormValues :=
  match sale with
  | Some s =>
      mkValues (s_name s) (s_buyer s) (s_order_no s) (n_div (n_of_Z (s_amount_minor s)) (n_of_Z 100))
        (quotaUnitsToDollars cur (n_of_Z (s_granted_quota s))) 30
        (if (0 <? s_expired_time s)%Z then Redemption.date_of (s_expired_time s) else now + month_ms)%Z
        (s_max_concurrency s) (s_rpm_rate_limit s)
        (if truthy (s_model_limits s) then List.filter truthy (split_on 44 (s_model_limits s)) else [])
        (s_allow_ips s) (str_or (s_group s) (js "default")) (s_cross_group_retry s) (s_note s) (s_sale_status s)
  | None =>
      mkValues [] [] [] (n_of_Z 5)
        (quotaUnitsToDollars cur (n_mul (quotaPerUnit (fst (getCurrencyDisplay cur))) (n_of_Z 100))) 30
        (now + month_ms)%Z 5 60 [] [] (js "default") false [] active
  end.

Definition tokenSaleFormToBasePayload (cur : option StoredCurrency) (values : TokenSaleFormValues) :
    TokenSaleBasePayload :=
  mkBase (trim (v_name values)) (trim (v_buyer values)) (trim (v_order_no values))
    (math_round (n_mul (v_amount_cny values) (n_of_Z 100))) (parseQuotaFromDollars cur (v_quota_amount values))
    (v_max_concurrency values) (v_rpm_rate_limit values)
    (match v_model_limits values with [] => false | _ => true end) (join (js ",") (v_model_limits values))
    (trim (v_allow_ips values)) (v_group values)
    (if str_eqb (v_group values) (js "auto") then v_cross_group_retry values else false) (trim (v_note values)).

Definition tokenSaleFormToCreatePayload (cur : option StoredCurrency) (values : TokenSaleFormValues) :=
  mkCreate (tokenSaleFormToBasePayload cur values) (v_validity_days values).
Definition tokenSaleFormToUpdatePayload (cur : option StoredCurrency) (values : TokenSaleFormValues) :=
  mkUpdate (tokenSaleFormToBasePayload cur values) (Redemption.seconds_of (v_expired_time values)) (v_status values).
End TokenSale.

(** ** Transfer of rewards *)

Module Transfer.
(** [Math.ceil]. *)
Definition math_ceil (x : num) : num :=
  match floor_Z (n_opp x) with Some z => n_of_Z (- z) | None => x end.

Definition minimumQuota (quotaPerUnit : num) : num :=
  math_ceil (if n_ltb n_zero quotaPerUnit then quotaPerUnit else Currency.quotaPerUnit DEFAULT_CURRENCY_CONFIG).
Definition minimumAmount (cur : option StoredCurrency) (minimum : num) : num := quotaUnitsToDollars cur minimum.
Definition maximumAmount (cur : option StoredCurrency) (availableQuota : num) : num :=
  quotaUnitsToDollars cur availableQuota.
Definition transferQuota (cur : option StoredCurrency) (amount : num) : num := parseQuotaFromDollars cur amount.

Definition canTransfer (cur : option StoredCurrency) (minimum availableQuota amount : num) : bool :=
  isFinite amount && n_leb minimum (transferQuota cur amount) && n_leb (transferQuota cur amount) availableQuota.

(** The quota that is sent, if any. *)
Definition confirmTransfer (cur : option StoredCurrency) (minimum availableQuota amount : num) : option num :=
  if canTransfer cur minimum availableQuota amount then Some (transferQuota cur amount) else None.
End Transfer.

(** ** Quota dialog of a user *)

Module QuotaDialog.
Inductive QuotaAdjustMode := add | subtract | override.
Record QuotaDialog := mkDialog { qd_mode : QuotaAdjustMode; qd_amount : str; qd_loading : bool; qd_open : bool }.
Record ManageUserQuotaPayload := mkPayload { p_id : Z; p_mode : QuotaAdjustMode; p_value : num }.

Definition amountValue (d : QuotaDialog) : num := n_or_zero (parseFloat (qd_amount d)).
Definition quotaValue (cur : option StoredCurrency) (d : QuotaDialog) : num :=
  parseQuotaFromDollars cur (n_abs (amountValue d)).
Definition is_override (m : QuotaAdjustMode) : bool := match m with override => true | _ => false end.

(** The request of [handleConfirm]; nothing is sent for an empty or zero amount. *)
Definition confirmQuota (cur : option StoredCurrency) (userId : Z) (d : QuotaDialog) : option ManageUserQuotaPayload :=
  if negb (truthy (qd_amount d)) && negb (is_override (qd_mode d)) then None
  else if n_leb (quotaValue cur d) n_zero && negb (is_override (qd_mode d)) then None
  else
    let value := if is_override (qd_mode d) then parseQuotaFromDollars cur (amountValue d) else quotaValue cur d in
    Some (mkPayload userId (qd_mode d) (if is_override (qd_mode d) then value else n_abs value)).

Definition closed_dialog : QuotaDialog := mkDialog add [] false false.

(** The answer: [None] is a thrown error. *)
Definition confirm_answered (success : option bool) (d : QuotaDialog) : QuotaDialog :=
  match success with Some true => closed_dialog | _ => mkDialog (qd_mode d) (qd_amount d) false (qd_open d) end.
Definition confirm_sent (d : QuotaDialog) : QuotaDialog := mkDialog (qd_mode d) (qd_amount d) true (qd_open d).
Definition cancelQuota (d : QuotaDialog) : QuotaDialog := mkDialog add [] (qd_loading d) false.
Definition select_mode (m : QuotaAdjustMode) (d : QuotaDialog) : QuotaDialog := mkDialog m [] (qd_loading d) (qd_open d).
Definition type_amount (text : str) (d : QuotaDialog) : QuotaDialog :=
  mkDialog (qd_mode d) text (qd_loading d) (qd_open d).
End QuotaDialog.

(** ** Permissions *)

Module Permissions.
Definition ROLE_GUEST : Z := 0.
Definition ROLE_USER : Z := 1.
Definition ROLE_ADMIN : Z := 10.
Definition ROLE_SUPER_ADMIN : Z := 100.

Definition getRoleLabelKey (role : option Z) : str :=
  match role with
  | Some r => if (r =? ROLE_SUPER_ADMIN)%Z then js "Super Admin" else if (r =? ROLE_ADMIN)%Z then js "Admin"
              else if (r =? ROLE_USER)%Z then js "User" else js "Guest"
  | None => js "Guest"
  end.

(** An object from resource to an object from action to a boolean. *)
Abbreviation matrix := (list (str * list (str * bool))).

Record PermissionResourceDef := mkResource { pr_resource : str; pr_actions : list str }.
Record PermissionRoleDef := mkRole { pl_key : str; pl_grants : matrix }.
Record PermissionCatalog := mkCatalog { resources : list PermissionResourceDef; roles : list PermissionRoleDef }.

Definition EMPTY_PERMISSION_CATALOG : PermissionCatalog := mkCatalog [] [].
Definition ADMIN_ROLE_KEY : str := js "admin".

(** [m?.[resource]?.[action]]. *)
Definition grant_of (m : matrix) (resource action : str) : option bool := map_get resource m ≫= map_get action.

Record AuthUser := mkUser { au_role : Z; au_admin_permissions : option matrix }.

Definition hasPermission (user : option AuthUser) (resource action : str) : bool :=
  match user with
  | None => false
  | Some u =>
      if (au_role u =? ROLE_SUPER_ADMIN)%Z then true
      else bool_decide ((au_admin_permissions u ≫= fun m => grant_of m resource action) = Some true)
  end.

Definition roleGrants (catalog : PermissionCatalog) (roleKey : str) : matrix :=
  match List.find (fun r => str_eqb (pl_key r) roleKey) (roles catalog) with
  | Some r => pl_grants r
  | None => []
  end.

Definition normalized_grant (value baseline : matrix) (resource action : str) : bool :=
  match grant_of value resource action with
  | Some b => b
  | None => default false (grant_of baseline resource action)
  end.

Definition normalized_actions (value baseline : matrix) (r : PermissionResourceDef) : list (str * bool) :=
  foldl (fun acts a => map_set a (normalized_grant value baseline (pr_resource r) a) acts) [] (pr_actions r).

Definition normalizeAdminPermissions (value : option matrix) (catalog : PermissionCatalog) : matrix :=
  let baseline := roleGrants catalog ADMIN_ROLE_KEY in
  foldl (fun acc r => map_set (pr_resource r) (normalized_actions (default [] value) baseline r) acc) []
    (resources catalog).
End Permissions.

(** ** User form *)

Module UserForm.
Import Permissions.
Record UserFormValues := mkUserForm {
  uf_username : str; uf_display_name : option str; uf_password : option str; uf_role : option Z;
  uf_quota_dollars : option num; uf_group : option str; uf_remark : option str;
  uf_admin_permissions : option matrix }.

Definition DEFAULT_GROUP : str := js "default".

Definition USER_FORM_DEFAULT_VALUES : UserFormValues :=
  mkUserForm [] (Some []) (Some []) (Some 1%Z) (Some n_zero) (Some DEFAULT_GROUP) (Some []) (Some []).

(** [password], [group] and [remark] are left out of the request when undefined. *)
Record UserPayload := mkUserPayload {
  up_username : str; up_display_name : str; up_password : option str; up_role : option Z;
  up_group : option str; up_remark : option str; up_id : option Z; up_admin_permissions : option matrix }.

Definition or_undefined (o : option str) : option str :=
  match o with Some s => if truthy s then Some s else None | None => None end.

Definition userToPayload (data : UserFormValues) (userId : option Z)
    (catalog : option PermissionCatalog) : UserPayload :=
  let role := match userId with
              | None => match uf_role data with Some r => if (r =? 0)%Z then 1%Z else r | None => 1%Z end
              | Some _ => default 0%Z (uf_role data)
              end in
  let perms := match catalog with
               | Some c => if (ROLE_ADMIN <=? role)%Z
                           then Some (normalizeAdminPermissions (uf_admin_permissions data) c) else None
               | None => None
               end in
  let name := opt_str_or (uf_display_name data) (uf_username data) in
  match userId with
  | None => mkUserPayload (uf_username data) name (or_undefined (uf_password data)) (Some role) None None None perms
  | Some id => mkUserPayload (uf_username data) name (or_undefined (uf_password data)) None
                 (uf_group data) (or_undefined (uf_remark data)) (Some id) perms
  end.

Record User := mkUserRow {
  us_username : str; us_display_name : str; us_role : Z; us_quota : Z; us_group : str;
  us_remark : option str; us_admin_permissions : option matrix }.

Definition transformUserToFormDefaults (cur : option StoredCurrency) (user : User) : UserFormValues :=
  mkUserForm (us_username user) (Some (us_display_name user)) (Some []) (Some (us_role user))
    (Some (quotaUnitsToDollars cur (n_of_Z (us_quota user)))) (Some (str_or (us_group user) DEFAULT_GROUP))
    (Some (default [] (us_remark user))) (Some (default [] (us_admin_permissions user))).
End UserForm.
