(* ===== verification/AccountProps.v ===== *)
(** * What amounts and account forms preserve

    Whatever the store holds, the rates that are used are positive; billing amounts are
    never shown as tokens; a quota that is shown as an amount and read again is the same
    quota, so that saving a form unchanged, or transferring the amount a dialog proposes,
    does what it says.  Permissions are completed for the whole catalog, once. *)
From S2P Require Import Prelude Number NumberOrder NumberError Json Currency AccountForms.
From Stdlib Require Import SpecFloat.
Import Redemption TokenSale Transfer Permissions UserForm.

(** ** Configuration *)

Lemma positive_or_pos x fallback : n_ltb n_zero fallback = true -> n_ltb n_zero (positive_or x fallback) = true.
Proof. intros H. destruct x as [v|]; simpl; [| done]. destruct (n_truthy v); simpl; [| done]. by destruct (n_ltb n_zero v) eqn:E. Qed.

Lemma getConfig_positive cur :
  n_ltb n_zero (quotaPerUnit (getConfig cur)) = true /\ n_ltb n_zero (usdExchangeRate (getConfig cur)) = true /\
  n_ltb n_zero (customCurrencyExchangeRate (getConfig cur)) = true.
Proof. unfold getConfig. simpl. repeat split; apply positive_or_pos; reflexivity. Qed.

(** whatever the store holds, the quota per unit and both exchange rates in use are
    greater than zero, and the custom symbol is not empty. *)
Theorem config_rates_positive cur :
  n_ltb n_zero (quotaPerUnit (getConfig cur)) = true /\ n_ltb n_zero (usdExchangeRate (getConfig cur)) = true /\
  n_ltb n_zero (customCurrencyExchangeRate (getConfig cur)) = true /\ customCurrencySymbol (getConfig cur) <> [].
Proof.
  destruct (getConfig_positive cur) as (H1 & H2 & H3). split; [done |]. split; [done |]. split; [done |].
  unfold getConfig. simpl. unfold str_or. destruct (truthy _) eqn:E; [by apply truthy_true in E | done].
Qed.

Lemma positive_number_used n f g :
  n_ltb n_zero n = true -> positive_or (Some (toNumber (Some (JNum n)) f)) g = n.
Proof. destruct n as [[]|[]| |[]]; done. Qed.

(** a status answer with positive numbers is what the display uses afterwards, whatever
    was stored before. *)
Theorem status_config_used d config :
  let c := getConfig (currency (setConfig (mapStatusDataToConfig (Some d)) config)) in
  quotaDisplayType c = default (js "USD") (sd_quota_display_type d) /\
  (forall n, sd_quota_per_unit d = Some (JNum n) -> n_ltb n_zero n = true -> quotaPerUnit c = n) /\
  (forall n, sd_usd_exchange_rate d = Some (JNum n) -> n_ltb n_zero n = true -> usdExchangeRate c = n) /\
  (forall n, sd_custom_currency_exchange_rate d = Some (JNum n) -> n_ltb n_zero n = true ->
     customCurrencyExchangeRate c = n).
Proof.
  cbv zeta. split; [done |]. repeat split; intros n Hd Hn;
    unfold getConfig, setConfig, mapStatusDataToConfig; simpl; rewrite Hd; by apply positive_number_used.
Qed.

(** ** Billing amounts *)

Section Billing.
Context {F : NumberFormats}.

(** amounts on bills are never shown as tokens: they are shown like other amounts
    unless the display is set to tokens, and then like dollars, whatever the quota per
    unit is. *)
Theorem billing_never_tokens cur amount options :
  (isCurrencyDisplayEnabled cur = true ->
   formatBillingCurrencyFromUSD cur amount options = formatCurrencyFromUSD cur amount options) /\
  (isCurrencyDisplayEnabled cur = false ->
   formatBillingCurrencyFromUSD cur amount options =
   formatCurrencyFromUSD (Some (stored_of DEFAULT_CURRENCY_CONFIG)) amount options).
Proof.
  unfold isCurrencyDisplayEnabled, formatBillingCurrencyFromUSD, formatCurrencyFromUSD, getBillingDisplayMeta,
    getCurrencyDisplay. destruct (amount_of amount) as [a|]; [| done].
  cbn [fst snd]. split; intros H.
  - destruct (getDisplayMeta (getConfig cur)); done.
  - destruct (getDisplayMeta (getConfig cur)); try done.
Qed.
End Billing.

(** ** Quota and amounts *)

(** Rates between 2^-100 and 2^100: the quota per unit and the rate of the display. *)
Definition rates_ok (cur : option StoredCurrency) : bool :=
  withinb 100 (quotaPerUnit (getConfig cur)) && withinb 100 (meta_rate (getDisplayMeta (getConfig cur))).

Lemma meta_rate_pos cur : n_ltb n_zero (meta_rate (getDisplayMeta (getConfig cur))) = true.
Proof.
  destruct (getConfig_positive cur) as (H1 & H2 & H3). unfold getDisplayMeta.
  destruct (str_eqb _ _); [done |]. destruct (str_eqb _ _); [done |]. by destruct (str_eqb _ _).
Qed.

Lemma n_of_Z_small_exact u : (0 < Z.abs u < 2 ^ 53)%Z -> isFinite (n_of_Z u) = true.
Proof. intros H. destruct (n_of_Z_within u H) as [(m & e & -> & _) _]. done. Qed.

Lemma math_round_integer u : (Z.abs u <= 2 ^ 49)%Z -> math_round (n_of_Z u) = n_of_Z u.
Proof.
  intros Hu. destruct (Z.eq_dec u 0) as [->|Hne]; [done |].
  destruct (n_of_Z_within u ltac:(lia)) as [W M].
  rewrite (math_round_near _ _ _ (Z.abs u) W); [| lia | lia |].
  - f_equal. destruct (Z.ltb_spec u 0); simpl; lia.
  - rewrite M, Z.sub_diag. unfold one_scaled. simpl Z.abs. rewrite Z.mul_0_r. apply Z.pow_pos_nonneg; lia.
Qed.

Lemma quota_round_trip cur u :
  (Z.abs u <= 2 ^ 49)%Z -> rates_ok cur = true ->
  parseQuotaFromDollars cur (quotaUnitsToDollars cur (n_of_Z u)) = n_of_Z u.
Proof.
  intros Hu [Hq%withinb_spec Hr%withinb_spec]%andb_true_iff.
  unfold parseQuotaFromDollars, quotaUnitsToDollars, getCurrencyDisplay.
  destruct (is_tokens (getDisplayMeta (getConfig cur))) eqn:Ht.
  - destruct (Z.eq_dec u 0) as [->|Hne]; [done |]. rewrite n_of_Z_small_exact by lia. by apply math_round_integer.
  - rewrite meta_rate_pos. destruct (Z.eq_dec u 0) as [->|Hne].
    + destruct Hq as (m1 & e1 & -> & _), Hr as (m2 & e2 & -> & _). done.
    + rewrite round_trip by (done || lia).
      destruct (n_of_Z_within u ltac:(lia)) as [Wu _].
      destruct (div_near _ _ _ _ _ _ Wu Hq ltac:(lia)) as [Wa _].
      destruct (mul_near _ _ _ _ _ _ Wa Hr ltac:(lia)) as [(m & e & -> & _) _]. done.
Qed.

(** C25: a quota that is converted to the displayed amount and read back is the same quota,
    although every step of the computation rounds: for every whole number up to 2^49 and
    every configuration whose rates are between 2^-100 and 2^100. *)
Theorem quota_amount_roundtrip cur u (Hu : (Z.abs u <= 2 ^ 49)%Z) (Hr : rates_ok cur = true) :
  parseQuotaFromDollars cur (quotaUnitsToDollars cur (n_of_Z u)) = n_of_Z u.
Proof. by apply quota_round_trip. Qed.

Definition demo_currency (ty : String.string) (rate : String.string) : option StoredCurrency :=
  Some (stored_of (mkCurrency true (js ty) (n_of_Z 500000) (lit rate) (js "€") (lit rate))).

Lemma quota_amount_roundtrip_witness :
  parseQuotaFromDollars (demo_currency "CNY" "7.3") (quotaUnitsToDollars (demo_currency "CNY" "7.3") (n_of_Z 1234567)) =
  n_of_Z 1234567.
Proof. apply quota_amount_roundtrip; [lia | vm_compute; reflexivity]. Defined.

(** ** Forms *)

Section Forms.
Context (cur : option StoredCurrency) (Hrates : rates_ok cur = true).

(** a redemption code that is opened and saved unchanged is sent with its name, quota
    and expiry. *)
Theorem redemption_edit_keeps r
    (Hq : (Z.abs (r_quota r) <= 2 ^ 49)%Z) (He : (0 <= r_expired_time r)%Z) :
  redemptionToPayload cur (transformRedemptionToFormDefaults cur r) =
  mkData (r_name r) (n_of_Z (r_quota r)) (r_expired_time r) 1.
Proof.
  unfold redemptionToPayload, transformRedemptionToFormDefaults. simpl. f_equal.
  - by apply quota_round_trip.
  - unfold seconds_of, date_of. destruct (Z.ltb_spec 0 (r_expired_time r)); simpl; [| lia].
    by rewrite Z.div_mul.
Qed.

(** A sale as the server stores it. *)
Record sale_ok (s : TokenSale) : Prop := {
  ok_texts : Forall trimmed [s_name s; s_buyer s; s_order_no s; s_allow_ips s; s_note s];
  ok_amount : (Z.abs (s_amount_minor s) <= 2 ^ 49)%Z;
  ok_quota : (Z.abs (s_granted_quota s) <= 2 ^ 49)%Z;
  ok_expiry : (0 < s_expired_time s)%Z;
  ok_limits : exists l, s_model_limits s = join (js ",") l /\ s_model_limits_enabled s = truthy (s_model_limits s) /\
    Forall (fun m => m <> [] /\ 44%N ∉ m) l;
  ok_group : s_group s <> [];
  ok_retry : s_cross_group_retry s = true -> s_group s = js "auto" }.

Definition sale_payload (s : TokenSale) : TokenSaleUpdatePayload :=
  mkUpdate (mkBase (s_name s) (s_buyer s) (s_order_no s) (n_of_Z (s_amount_minor s)) (n_of_Z (s_granted_quota s))
    (s_max_concurrency s) (s_rpm_rate_limit s) (s_model_limits_enabled s) (s_model_limits s) (s_allow_ips s)
    (s_group s) (s_cross_group_retry s) (s_note s)) (s_expired_time s) (s_sale_status s).

Lemma amount_minor_kept u : (Z.abs u <= 2 ^ 49)%Z -> math_round (n_mul (n_div (n_of_Z u) (n_of_Z 100)) (n_of_Z 100)) = n_of_Z u.
Proof.
  intros Hu. destruct (Z.eq_dec u 0) as [->|]; [done |]. apply round_trip_one; [lia |].
  apply withinb_spec. reflexivity.
Qed.

Lemma limits_kept l :
  Forall (fun m => m <> [] /\ 44%N ∉ m) l ->
  (if truthy (join (js ",") l) then List.filter truthy (split_on 44 (join (js ",") l)) else []) = l /\
  truthy (join (js ",") l) = match l with [] => false | _ => true end.
Proof.
  intros Hl. destruct l as [|m l]; [done |].
  assert (Ht : truthy (join (js ",") (m :: l)) = true).
  { inv Hl. apply truthy_true. destruct m as [|c m]; [naive_solver |]. by destruct l. }
  rewrite Ht. split; [| done]. change (js ",") with [44%N].
  rewrite split_join; [| done |].
  - apply filter_truthy_id. eapply Forall_impl; [exact Hl | naive_solver].
  - eapply Forall_impl; [exact Hl | naive_solver].
Qed.

(** a token sale that is opened and saved unchanged is sent as it was stored: the price
    and the quota survive the conversion to amounts and back, the list of models the
    split and the join, and the expiry the conversion to a date. *)
Theorem token_sale_edit_keeps now s (Hs : sale_ok s) :
  tokenSaleFormToUpdatePayload cur (getTokenSaleFormDefaults cur now (Some s)) = sale_payload s.
Proof.
  destruct Hs as [Ht Ha Hq He (l & Hl & Hen & Hm) Hg Hr]. rewrite !Forall_cons in Ht.
  destruct Ht as (T1 & T2 & T3 & T4 & T5 & _). destruct (limits_kept l Hm) as [L1 L2].
  unfold tokenSaleFormToUpdatePayload, tokenSaleFormToBasePayload, getTokenSaleFormDefaults, sale_payload.
  cbn [v_name v_buyer v_order_no v_amount_cny v_quota_amount v_expired_time v_max_concurrency v_rpm_rate_limit
       v_model_limits v_allow_ips v_group v_cross_group_retry v_note v_status].
  assert (Hgr : str_or (s_group s) (js "default") = s_group s)
    by (unfold str_or; apply truthy_true in Hg; by rewrite Hg).
  assert (Hlt : (0 <? s_expired_time s)%Z = true) by lia.
  rewrite Hl, L1, Hgr, Hlt, (amount_minor_kept _ Ha), (quota_round_trip _ _ Hq Hrates), !trimmed_trim by done.
  unfold seconds_of, date_of. rewrite Z.div_mul by done.
  rewrite Hen, Hl, L2. f_equal. f_equal. destruct (str_eqb (s_group s) (js "auto")) eqn:Eg; [done |].
  destruct (s_cross_group_retry s); [| done]. by rewrite (proj2 (str_eqb_eq _ _) (Hr eq_refl)) in Eg.
Qed.
End Forms.

Definition demo_sale : TokenSale :=
  mkSale (js "key one") (js "buyer") (js "A-17") 1999 123456789 1790000000 active 5 60 true (js "gpt-4,o3") [] (js "auto") true [].

Lemma demo_sale_ok : sale_ok demo_sale.
Proof.
  split; [| simpl; lia | simpl; lia | simpl; lia | | done | done].
  - repeat constructor; vm_compute; split; intros; simplify_eq; done.
  - exists [js "gpt-4"; js "o3"]. split; [done |]. split; [done |].
    repeat constructor; try done; intros H; by apply (bool_decide_pack _) in H.
Defined.

Lemma token_sale_edit_keeps_witness :
  tokenSaleFormToUpdatePayload (demo_currency "CNY" "7.3")
    (getTokenSaleFormDefaults (demo_currency "CNY" "7.3") 0 (Some demo_sale)) = sale_payload demo_sale.
Proof. apply token_sale_edit_keeps; [vm_compute; reflexivity | exact demo_sale_ok]. Defined.

(** ** Transfers *)

Lemma amount_finite cur u :
  (Z.abs u <= 2 ^ 49)%Z -> rates_ok cur = true -> isFinite (quotaUnitsToDollars cur (n_of_Z u)) = true.
Proof.
  intros Hu [Hq%withinb_spec Hr%withinb_spec]%andb_true_iff. unfold quotaUnitsToDollars, getCurrencyDisplay.
  destruct (Z.eq_dec u 0) as [->|Hne].
  - destruct (is_tokens _); [done |]. by destruct Hq as (m1 & e1 & -> & _), Hr as (m2 & e2 & -> & _).
  - destruct (is_tokens _); [apply n_of_Z_small_exact; lia |].
    destruct (n_of_Z_within u ltac:(lia)) as [Wu _].
    destruct (div_near _ _ _ _ _ _ Wu Hq ltac:(lia)) as [Wa _].
    by destruct (mul_near _ _ _ _ _ _ Wa Hr ltac:(lia)) as [(m & e & -> & _) _].
Qed.

(** The quota of one unit that the dialog uses: the one of the configuration when it is positive. *)
Definition used_unit (quotaPerUnit : num) : num :=
  if n_ltb n_zero quotaPerUnit then quotaPerUnit else Currency.quotaPerUnit DEFAULT_CURRENCY_CONFIG.

(** The smallest whole number that is not below a positive number, which is a quotient of whole numbers. *)
Definition least_above (x : num) (m : Z) : Prop :=
  exists k e, x = S754_finite false k e /\ let '(a, b) := num_quotient k e in ((m - 1) * b < a <= m * b)%Z.

Lemma minimum_whole x : withinb 48 (used_unit x) = true ->
  exists m, minimumQuota x = n_of_Z m /\ (0 < m <= 2 ^ 49)%Z /\ least_above (used_unit x) m.
Proof.
  intros (k & e & E & Hk & He)%withinb_spec. unfold minimumQuota. fold (used_unit x). rewrite E. unfold math_ceil, n_opp. cbn [SFopp negb floor_Z].
  unfold least_above. cbn [num_quotient]. set (a := (Z.pos k * 2 ^ Z.max e 0)%Z). set (b := (2 ^ Z.max (- e) 0)%Z).
  assert (0 < b)%Z as Hb by (apply Z.pow_pos_nonneg; lia). assert (0 < a)%Z as Ha by (apply Z.mul_pos_pos; [lia | apply Z.pow_pos_nonneg; lia]).
  set (m := ((a + b - 1) / b)%Z). exists m. rewrite Z.opp_involutive. split; [done |].
  pose proof (Z.div_mod (a + b - 1) b ltac:(lia)) as Hd. pose proof (Z.mod_pos_bound (a + b - 1) b Hb) as Hm. fold m in Hd.
  assert ((m - 1) * b < a <= m * b)%Z as Hc by nia. split; [| by exists k, e].
  assert (a <= 2 ^ 49 * b)%Z as Hle.
  { unfold a, b. destruct (Z.le_ge_cases 0 e) as [H|H]; [lia |]. rewrite Z.max_r, Z.pow_0_r, Z.mul_1_r, Z.max_l by lia.
    rewrite <- Z.pow_add_r by lia. etrans; [apply Z.lt_le_incl, Hk |]. apply Z.pow_le_mono_r; lia. }
  nia.
Qed.

Lemma sent_rounded cur minimum available amount q : confirmTransfer cur minimum available amount = Some q ->
  (exists x, q = math_round x) /\ n_leb minimum q = true /\ n_leb q available = true.
Proof.
  unfold confirmTransfer, canTransfer. destruct (isFinite amount) eqn:Ef; [| done]. cbn [andb].
  destruct (n_leb minimum _) eqn:El; [| done]. destruct (n_leb _ available) eqn:Eu; [| done]. cbn [andb]. intros [= <-]. split; [| done].
  unfold transferQuota, parseQuotaFromDollars. rewrite Ef. cbn [negb]. destruct (getCurrencyDisplay cur) as [config meta]. destruct (is_tokens meta); by eexists.
Qed.

(** C35: the minimum of the transfer dialog is the quota of one unit, rounded up to a whole number, and whatever amount is typed,
    what the dialog sends is a whole quota between this minimum and the available one.  The two amounts that it proposes are
    sent exactly: with the smallest amount the minimum, with the largest the whole reward; and nothing is sent when the
    reward is below the minimum.  For a quota per unit and a reward up to 2^49, and rates between 2^-100 and 2^100. *)
Theorem transfer_bounds_exact cur perUnit a
    (Hr : rates_ok cur = true) (Hu : withinb 48 (used_unit perUnit) = true) (Ha : (0 <= a <= 2 ^ 49)%Z) :
  let minimum := minimumQuota perUnit in
  let available := n_of_Z a in
  exists m, minimum = n_of_Z m /\ least_above (used_unit perUnit) m /\
    (forall amount q, confirmTransfer cur minimum available amount = Some q -> exists z, q = n_of_Z z /\ (m <= z <= a)%Z) /\
    confirmTransfer cur minimum available (minimumAmount cur minimum) = (if (m <=? a)%Z then Some (n_of_Z m) else None) /\
    confirmTransfer cur minimum available (maximumAmount cur available) = (if (m <=? a)%Z then Some (n_of_Z a) else None).
Proof.
  cbv zeta. destruct (minimum_whole perUnit Hu) as (m & -> & Hm & Hl). exists m. split; [done |]. split; [done |]. split.
  - intros amount q ((x & ->) & H1 & H2)%sent_rounded. apply rounded_between; [lia | lia | done | done].
  - unfold confirmTransfer, canTransfer, transferQuota, minimumAmount, maximumAmount.
    rewrite !amount_finite, !quota_round_trip, !leb_whole, !Z.leb_refl by (done || lia). simpl.
    by rewrite andb_true_r.
Qed.

Lemma transfer_bounds_exact_witness :
  confirmTransfer (demo_currency "CNY" "7.3") (minimumQuota (lit "499999.5")) (n_of_Z 700001)
    (maximumAmount (demo_currency "CNY" "7.3") (n_of_Z 700001)) = Some (n_of_Z 700001) /\ minimumQuota (lit "499999.5") = n_of_Z 500000.
Proof.
  split; [| vm_compute; reflexivity].
  destruct (transfer_bounds_exact (demo_currency "CNY" "7.3") (lit "499999.5") 700001) as (m & Hm & _ & _ & _ & H);
    [vm_compute; reflexivity | vm_compute; reflexivity | lia |].
  rewrite H. destruct (Z.leb_spec m 700001); [done |]. exfalso. vm_compute in H. destruct (m <=? 700001)%Z eqn:E; [lia | discriminate H].
Defined.

(** ** Permissions *)

Lemma foldl_set_get {V A} (key : A -> str) (val : A -> V) l m k :
  map_get k (foldl (fun acc x => map_set (key x) (val x) acc) m l) =
  match List.find (fun x => str_eqb (key x) k) (reverse l) with
  | Some x => Some (val x)
  | None => map_get k m
  end.
Proof.
  induction l as [|x l IH] using rev_ind; [done |]. rewrite foldl_app, reverse_app. simpl.
  rewrite map_get_set, IH. unfold str_eqb.
  destruct (decide (k = key x)) as [->|Hne]; [by rewrite bool_decide_true |]. by rewrite bool_decide_false.
Qed.

Lemma find_unique {A} (key : A -> str) (l : list A) x :
  NoDup (map key l) -> x ∈ l -> List.find (fun y => str_eqb (key y) (key x)) l = Some x.
Proof.
  induction l as [|y l IH]; [by intros _ ?%elem_of_nil |]. intros Hn Hx. apply NoDup_cons in Hn as [Hy Hn].
  simpl. destruct (str_eqb (key y) (key x)) eqn:E.
  - apply str_eqb_eq in E. apply elem_of_cons in Hx as [->|Hx]; [done |].
    exfalso. apply Hy. rewrite E. change (map key l) with (key <$> l). by apply list_elem_of_fmap_2.
  - apply elem_of_cons in Hx as [->|Hx]; [| by apply IH]. unfold str_eqb in E. by rewrite bool_decide_true in E.
Qed.

Lemma find_none {A} (f : A -> bool) l : (forall x, x ∈ l -> f x = false) -> List.find f l = None.
Proof.
  induction l as [|y l IH]; intros H; simpl; [done |]. rewrite (H y) by left. apply IH. intros x Hx. apply H. by right.
Qed.

Lemma normalized_actions_get value baseline r a :
  map_get a (normalized_actions value baseline r) =
  if decide (a ∈ pr_actions r) then Some (normalized_grant value baseline (pr_resource r) a) else None.
Proof.
  unfold normalized_actions. rewrite (foldl_set_get id). case_decide as Ha.
  - destruct (List.find _ _) as [b|] eqn:E.
    + apply List.find_some in E as [_ E]. by apply str_eqb_eq in E as <-.
    + exfalso. eapply List.find_none in E; [| apply list_elem_of_In, elem_of_reverse, Ha].
      unfold str_eqb in E. by rewrite bool_decide_true in E.
  - rewrite find_none; [done |]. intros x Hx. unfold str_eqb.
    apply bool_decide_false. intros H. apply Ha. rewrite <- H. by apply elem_of_reverse.
Qed.

Section Catalog.
Context (catalog : PermissionCatalog) (Hcat : NoDup (map pr_resource (resources catalog))).

Lemma normalized_grants value r a :
  r ∈ resources catalog -> a ∈ pr_actions r ->
  grant_of (normalizeAdminPermissions value catalog) (pr_resource r) a =
  Some (normalized_grant (default [] value) (roleGrants catalog ADMIN_ROLE_KEY) (pr_resource r) a).
Proof.
  intros Hr Ha. unfold grant_of, normalizeAdminPermissions. cbv zeta.
  rewrite (foldl_set_get pr_resource), find_unique.
  - simpl. by rewrite normalized_actions_get, decide_True.
  - change (map pr_resource (reverse (resources catalog))) with (pr_resource <$> reverse (resources catalog)).
    rewrite fmap_reverse. rewrite reverse_Permutation. exact Hcat.
  - by apply elem_of_reverse.
Qed.

(** completing a permission matrix gives every action of the catalog exactly one answer -
    the one that was set, or else the baseline of administrators, or else no - and
    nothing outside of the catalog; completing it again changes nothing. *)
Theorem permissions_completed value :
  (forall r a, r ∈ resources catalog -> a ∈ pr_actions r ->
     grant_of (normalizeAdminPermissions value catalog) (pr_resource r) a =
     Some (default (default false (grant_of (roleGrants catalog ADMIN_ROLE_KEY) (pr_resource r) a))
            (grant_of (default [] value) (pr_resource r) a))) /\
  (forall res a, grant_of (normalizeAdminPermissions value catalog) res a <> None ->
     exists r, r ∈ resources catalog /\ pr_resource r = res /\ a ∈ pr_actions r) /\
  normalizeAdminPermissions (Some (normalizeAdminPermissions value catalog)) catalog =
  normalizeAdminPermissions value catalog.
Proof.
  split; [| split].
  - intros r a Hr Ha. by rewrite normalized_grants.
  - intros res a. unfold grant_of, normalizeAdminPermissions. cbv zeta. rewrite (foldl_set_get pr_resource).
    destruct (List.find _ _) as [r|] eqn:E; simpl; [| done].
    apply List.find_some in E as [Hin E%str_eqb_eq].
    rewrite normalized_actions_get. case_decide; [| done]. exists r. split; [| done].
    by apply elem_of_reverse, list_elem_of_In.
  - unfold normalizeAdminPermissions at 1. cbv zeta. unfold normalizeAdminPermissions at 2. cbv zeta.
    apply foldl_ext_in. intros acc r Hr. f_equal. unfold normalized_actions. apply foldl_ext_in.
    intros acts a Ha. f_equal. unfold normalized_grant at 1. simpl. by rewrite normalized_grants.
Qed.
End Catalog.

Definition demo_catalog : PermissionCatalog :=
  mkCatalog [mkResource (js "channel") [js "read"; js "write"]; mkResource (js "user") [js "read"]]
    [mkRole (js "root") []; mkRole ADMIN_ROLE_KEY [(js "channel", [(js "read", true)])]].

Lemma permissions_completed_witness :
  normalizeAdminPermissions (Some (normalizeAdminPermissions (Some [(js "channel", [(js "write", true)])]) demo_catalog)) demo_catalog =
  normalizeAdminPermissions (Some [(js "channel", [(js "write", true)])]) demo_catalog /\
  normalizeAdminPermissions (Some [(js "channel", [(js "write", true)])]) demo_catalog =
  [(js "channel", [(js "read", true); (js "write", true)]); (js "user", [(js "read", false)])].
Proof.
  split; [| vm_compute; reflexivity]. apply permissions_completed.
  apply (bool_decide_unpack _). vm_compute. exact I.
Defined.

(** ** Texts *)

Definition strip_zeros (s : str) : str := reverse (drop_while (N.eqb 48) (reverse s)).

Lemma strip_zeros_spec s : exists n, s = strip_zeros s ++ zeros n /\ last (strip_zeros s) <> Some 48%N.
Proof.
  unfold strip_zeros. induction s as [|c s IH] using rev_ind; [by exists 0%nat |].
  rewrite reverse_snoc. cbn [drop_while]. destruct (N.eqb_spec 48 c) as [<-|Hne].
  - destruct IH as (n & Hn & Hl). exists (S n). split; [| done]. rewrite Hn at 1. rewrite <- app_assoc. f_equal.
    unfold zeros. by rewrite replicate_S_end.
  - exists 0%nat. unfold zeros. rewrite app_nil_r, reverse_cons, reverse_involutive, last_snoc. split; [done |]. congruence.
Qed.

Lemma ends_with_unit c s : ends_with s [c] = bool_decide (last s = Some c).
Proof.
  unfold ends_with. rewrite <- reverse_head_last. change (reverse [c]) with [c].
  destruct (reverse s) as [|d r]; simpl; [done |]. rewrite andb_true_r.
  destruct (N.eqb_spec c d) as [->|Hne]; [by rewrite bool_decide_true |].
  rewrite bool_decide_false; [done |]. congruence.
Qed.

Lemma strip_fraction_none s : 46%N ∉ s -> strip_fraction_zeros s = s.
Proof.
  induction s as [|c s IH]; intros H; simpl; [done |]. apply not_elem_of_cons in H as [Hc H].
  destruct (N.eqb_spec c 46); [congruence |]. simpl. by rewrite IH.
Qed.

Lemma strip_fraction_digits ip fp :
  46%N ∉ ip -> Forall (fun c => is_digit c = true) fp ->
  strip_fraction_zeros (ip ++ 46%N :: fp) = ip ++ 46%N :: strip_zeros fp.
Proof.
  intros Hip Hfp. induction ip as [|c ip IH]; simpl.
  - assert (Hd : forallb is_digit fp = true) by (clear - Hfp; induction Hfp as [|x l Hx _ IH]; simpl; [done |]; by rewrite Hx).
    rewrite Hd, (ends_with_unit 48). simpl. case_bool_decide as E; [done |]. f_equal.
    rewrite strip_fraction_none.
    + destruct (strip_zeros_spec fp) as ([|n] & Hn & Hl); [by rewrite app_nil_r in Hn |].
      exfalso. apply E. rewrite Hn. unfold zeros. rewrite replicate_S_end, app_assoc. apply last_snoc.
    + intros H. rewrite Forall_forall in Hfp. by apply Hfp in H.
  - apply not_elem_of_cons in Hip as [Hc Hip]. destruct (N.eqb_spec c 46); [congruence |]. simpl. by rewrite IH.
Qed.

(** from a decimal the zeros at the end of the fraction are cut, and the point with
    them when no fraction is left; the digits before are kept. *)
Theorem trailing_zeros_removed ip fp
    (Hip : ip <> [] /\ 46%N ∉ ip) (Hfp : Forall (fun c => is_digit c = true) fp) :
  exists fp' n, fp = fp' ++ zeros n /\ last fp' <> Some 48%N /\
    removeTrailingZeros (ip ++ 46%N :: fp) = match fp' with [] => ip | _ => ip ++ 46%N :: fp' end.
Proof.
  destruct Hip as [Hne Hip]. destruct (strip_zeros_spec fp) as (n & Hn & Hl). exists (strip_zeros fp), n.
  split; [done |]. split; [done |]. unfold removeTrailingZeros.
  rewrite (proj2 (str_includes_single 46 _)) by set_solver. rewrite strip_fraction_digits by done.
  unfold strip_last_point. rewrite (ends_with_unit 46).
  assert (Hd : Forall (fun c => is_digit c = true) (strip_zeros fp)) by (rewrite Hn in Hfp; by apply Forall_app in Hfp as [? _]).
  destruct (strip_zeros fp) as [|d ds] eqn:E.
  - rewrite last_snoc, bool_decide_true by done. rewrite length_app, Nat.add_sub, take_app_length. done.
  - rewrite bool_decide_false; [done |]. rewrite last_app_cons, last_cons_cons.
    intros Hc%last_Some_elem_of. rewrite Forall_forall in Hd. by apply Hd in Hc.
Qed.

(** amounts in tokens are abbreviated unless the caller says otherwise: ten dollars are
    shown as 5000k, not as 5,000,000. *)
Theorem tokens_abbreviated {F : NumberFormats} :
  formatCurrencyFromUSD (demo_currency "TOKENS" "1") (Some (n_of_Z 10)) None = js "5000k".
Proof. vm_compute. reflexivity. Qed.

(** a duration just below two minutes is shown with sixty seconds. *)
Theorem use_time_sixty_seconds : formatUseTime (lit "119.7") = js "1m 60s".
Proof. vm_compute. reflexivity. Qed.

(** ** Colours *)

(** the colour of a text is always a colour: the hue is below 360, the saturation is
    between 65 and 74 percent and the lightness between 55 and 64 percent. *)
Theorem color_in_range s :
  (0 <= hue (color_of s) < 360)%Z /\ (65 <= saturation (color_of s) < 75)%Z /\ (55 <= lightness (color_of s) < 65)%Z.
Proof.
  unfold color_of. simpl.
  pose proof (Z.rem_bound_abs (string_hash s) 360 ltac:(lia)).
  pose proof (Z.rem_bound_pos (Z.abs (string_hash s)) 10 ltac:(lia) ltac:(lia)).
  pose proof (Z.rem_bound_pos (Z.abs (Z.shiftr (string_hash s) 8)) 10 ltac:(lia) ltac:(lia)). lia.
Qed.
