(* ===== verification/PriceList.v ===== *)
(** * The public price list

    [features/pricing]: the models of the page ([use-pricing-data.ts], [model-helpers.ts]),
    filters and sorting ([lib/filters.ts]), the state of the filters ([use-filters.ts]),
    the options of the side bar ([pricing-sidebar.tsx]), the prices ([lib/price.ts]) and the
    prices of expressions ([lib/dynamic-price.ts]). *)
From S2P Require Import Prelude Number NumberOrder Regex Json BillingExpr Currency.
From Stdlib Require Import SpecFloat.

(** ** Data and constants *)

Record PricingVendor := mkVendor {
  pv_id : Z; pv_name : str; pv_icon : option str; pv_description : option str }.

(** Objects from group to ratio are association lists; a ratio or price that is [null] is
    missing. *)
Record PricingModel := mkModel {
  pm_id : Z; model_name : option str; description : option str; vendor_id : option Z;
  vendor_name : option str; vendor_icon : option str; vendor_description : option str;
  quota_type : Z; model_ratio : num; completion_ratio : num; model_price : option num;
  cache_ratio : option num; create_cache_ratio : option num; image_ratio : option num;
  audio_ratio : option num; audio_completion_ratio : option num; enable_groups : option (list str);
  tags : option str; supported_endpoint_types : option (list str); pm_key : option str;
  group_ratio : option (list (str * num)); billing_mode : option str; billing_expr : option str }.

Inductive TokenUnit := UnitM | UnitK.
Inductive ViewMode := ViewCard | ViewTable.

Definition SORT_NAME : str := js "name".
Definition SORT_PRICE_LOW : str := js "price-low".
Definition SORT_PRICE_HIGH : str := js "price-high".
Definition FILTER_ALL : str := js "all".
Definition QUOTA_ALL : str := js "all".
Definition QUOTA_TOKEN : str := js "token".
Definition QUOTA_REQUEST : str := js "request".
Definition ENDPOINT_ALL : str := js "all".
Definition QUOTA_VALUE_TOKEN : Z := 0.
Definition QUOTA_VALUE_REQUEST : Z := 1.
Definition TOKEN_UNIT_DIVISORS (u : TokenUnit) : num := match u with UnitM => n_of_Z 1 | UnitK => n_of_Z 1000 end.
Definition DEFAULT_TOKEN_UNIT : TokenUnit := UnitM.
Definition EXCLUDED_GROUPS : list str := [[]; js "auto"].

Section Labels.
Variable t : str -> str.
Definition getSortLabels : list (str * str) :=
  [(SORT_NAME, t (js "Name")); (SORT_PRICE_LOW, t (js "Price: Low to High")); (SORT_PRICE_HIGH, t (js "Price: High to Low"))].
Definition getQuotaTypeLabels : list (str * str) :=
  [(QUOTA_ALL, t (js "All Models")); (QUOTA_TOKEN, t (js "Token-based")); (QUOTA_REQUEST, t (js "Per Request"))].
Definition getEndpointTypeLabels : list (str * str) :=
  [(ENDPOINT_ALL, t (js "All Types")); (js "openai", js "Chat"); (js "openai-response", js "Response");
   (js "anthropic", js "Anthropic"); (js "gemini", js "Gemini"); (js "jina-rerank", js "Rerank");
   (js "image-generation", t (js "Image")); (js "embeddings", t (js "Embeddings")); (js "openai-video", t (js "Video"))].
End Labels.

(** ** The models of the page *)

Record PricingData := mkPricing {
  pd_data : list PricingModel; pd_vendors : list PricingVendor; pd_group_ratio : list (str * num);
  pd_usable_group : list str }.

(** [new Map(vendors.map((v) => [v.id, v]))]: the last vendor of an id counts. *)
Definition vendorMap (vendors : list PricingVendor) : list (Z * PricingVendor) :=
  foldl (fun m v => map_set (pv_id v) v m) [] vendors.

Definition with_vendor (m : PricingModel) (vendor : option PricingVendor) (ratios : list (str * num)) : PricingModel :=
  mkModel (pm_id m) (model_name m) (description m) (vendor_id m) (pv_name <$> vendor) (vendor ≫= pv_icon)
    (vendor ≫= pv_description) (quota_type m) (model_ratio m) (completion_ratio m) (model_price m)
    (cache_ratio m) (create_cache_ratio m) (image_ratio m) (audio_ratio m) (audio_completion_ratio m)
    (enable_groups m) (tags m) (supported_endpoint_types m) (model_name m) (Some ratios) (billing_mode m)
    (billing_expr m).

Definition pricing_models (data : option PricingData) : list PricingModel :=
  match data with
  | None => []
  | Some d =>
      let vm := vendorMap (pd_vendors d) in
      map (fun m =>
        let vendor := match vendor_id m with
                      | Some id => if (id =? 0)%Z then None else map_get id vm
                      | None => None
                      end in
        with_vendor m vendor (pd_group_ratio d)) (pd_data d)
  end.

(** The rates never reach zero. *)
Definition priceRate (price : option num) : num := n_max (default (n_of_Z 1) price) (lit "0.001").
Definition usd_exchange_rate (rate : option num) (pr : num) : num := n_max (default pr rate) (lit "0.001").

Definition groups_of_model (m : PricingModel) : list str := default [] (enable_groups m).

Definition getAvailableGroups (m : PricingModel) (usableGroup : list str) : list str :=
  List.filter (fun g => set_has g (groups_of_model m))
    (List.filter (fun g => negb (set_has g EXCLUDED_GROUPS)) usableGroup).

Definition isTokenBasedModel (m : PricingModel) : bool := (quota_type m =? QUOTA_VALUE_TOKEN)%Z.

(** The groups the page offers as a filter. *)
Definition availableGroups (usableGroup : list str) : list str :=
  List.filter (fun g => negb (set_has g EXCLUDED_GROUPS)) usableGroup.

(** ** Filters *)

Section Filters.
Context {C : CaseMap}.

(** [s?.toLowerCase().includes(q)]. *)
Definition lower_includes (s : option str) (q : str) : bool :=
  match s with Some s => str_includes (toLowerCase s) q | None => false end.

Definition search_matches (query : str) (m : PricingModel) : bool :=
  let q := toLowerCase query in
  lower_includes (model_name m) q || lower_includes (description m) q || lower_includes (tags m) q
  || lower_includes (vendor_name m) q.

Definition filterBySearch (models : list PricingModel) (query : str) : list PricingModel :=
  if truthy query then List.filter (search_matches query) models else models.

Definition vendor_matches (vendor : str) (m : PricingModel) : bool := bool_decide (vendor_name m = Some vendor).
Definition filterByVendor (models : list PricingModel) (vendor : str) : list PricingModel :=
  if str_eqb vendor FILTER_ALL then models else List.filter (vendor_matches vendor) models.

(** [l?.includes(x)]. *)
Definition opt_includes (l : option (list str)) (x : str) : bool :=
  match l with Some l => set_has x l | None => false end.

Definition group_matches (group : str) (m : PricingModel) : bool := opt_includes (enable_groups m) group.
Definition filterByGroup (models : list PricingModel) (group : str) : list PricingModel :=
  if str_eqb group FILTER_ALL then models else List.filter (group_matches group) models.

Definition quota_matches (quotaType : str) (m : PricingModel) : bool :=
  (quota_type m =? if str_eqb quotaType QUOTA_TOKEN then QUOTA_VALUE_TOKEN else QUOTA_VALUE_REQUEST)%Z.
Definition filterByQuotaType (models : list PricingModel) (quotaType : str) : list PricingModel :=
  if str_eqb quotaType QUOTA_ALL then models else List.filter (quota_matches quotaType) models.

Definition endpoint_matches (endpointType : str) (m : PricingModel) : bool :=
  opt_includes (supported_endpoint_types m) endpointType.
Definition filterByEndpointType (models : list PricingModel) (endpointType : str) : list PricingModel :=
  if str_eqb endpointType ENDPOINT_ALL then models else List.filter (endpoint_matches endpointType) models.

Definition getModelPrice (m : PricingModel) : num :=
  if (quota_type m =? 0)%Z then model_ratio m else n_or_zero (default n_zero (model_price m)).

(** Separators of tags: commas, semicolons, bars and white space. *)
Definition tag_separator (c : N) : bool := one_of (js ",;|") c || is_space c.
Definition tag_separators : regex := RPlus (RChar tag_separator).

Definition parseTags (tagsString : option str) : list str :=
  match tagsString with
  | None => []
  | Some s => if truthy s then List.filter truthy (map trim (rsplit tag_separators s)) else []
  end.

Definition model_tags (m : PricingModel) : list str := map toLowerCase (parseTags (tags m)).

Definition tag_matches (tag : str) (m : PricingModel) : bool :=
  match tags m with
  | Some s => truthy s && set_has (toLowerCase tag) (model_tags m)
  | None => false
  end.
Definition filterByTag (models : list PricingModel) (tag : str) : list PricingModel :=
  if str_eqb tag FILTER_ALL then models else List.filter (tag_matches tag) models.

Context {L : Collation}.

Definition name_cmp (a b : PricingModel) : Z :=
  localeCompare (default [] (model_name a)) (default [] (model_name b)).
Definition low_cmp (a b : PricingModel) : Z := diff_cmp getModelPrice a b.
Definition high_cmp (a b : PricingModel) : Z := diff_cmp getModelPrice b a.

Definition sortModels (models : list PricingModel) (sortBy : str) : list PricingModel :=
  if str_eqb sortBy SORT_NAME then sort_by name_cmp models
  else if str_eqb sortBy SORT_PRICE_LOW then sort_by low_cmp models
  else if str_eqb sortBy SORT_PRICE_HIGH then sort_by high_cmp models
  else models.

Record Filters := mkFilters {
  fl_search : str; fl_vendor : str; fl_group : str; fl_quotaType : str; fl_endpointType : str; fl_tag : str;
  fl_sortBy : str }.

Definition filterAndSortModels (models : list PricingModel) (f : Filters) : list PricingModel :=
  let result := filterBySearch models (fl_search f) in
  let result := filterByVendor result (fl_vendor f) in
  let result := filterByGroup result (fl_group f) in
  let result := filterByQuotaType result (fl_quotaType f) in
  let result := filterByEndpointType result (fl_endpointType f) in
  let result := filterByTag result (fl_tag f) in
  sortModels result (fl_sortBy f).

Definition extractAllTags (models : list PricingModel) : list str :=
  let tagSet := foldl (fun s m =>
    match tags m with
    | Some ts => if truthy ts then foldl (fun s tag => set_add s (toLowerCase tag)) s (parseTags (tags m)) else s
    | None => s
    end) [] models in
  sort_by localeCompare tagSet.

(** ** The state of the filters *)

Record FilterState := mkState {
  fs_search : option str; fs_sort : option str; fs_vendor : option str; fs_group : option str;
  fs_quotaType : option str; fs_endpointType : option str; fs_tag : option str;
  fs_tokenUnit : option TokenUnit; fs_view : option ViewMode; fs_rechargePrice : option bool }.

(** [a || b] of an optional text. *)
Definition searchInput (s : FilterState) : str := opt_str_or (fs_search s) [].
Definition sortBy (s : FilterState) : str := opt_str_or (fs_sort s) SORT_NAME.
Definition vendorFilter (s : FilterState) : str := opt_str_or (fs_vendor s) FILTER_ALL.
Definition groupFilter (s : FilterState) : str := opt_str_or (fs_group s) FILTER_ALL.
Definition quotaTypeFilter (s : FilterState) : str := opt_str_or (fs_quotaType s) QUOTA_ALL.
Definition endpointTypeFilter (s : FilterState) : str := opt_str_or (fs_endpointType s) ENDPOINT_ALL.
Definition tagFilter (s : FilterState) : str := opt_str_or (fs_tag s) FILTER_ALL.
Definition tokenUnit (s : FilterState) : TokenUnit :=
  match fs_tokenUnit s with Some UnitK => UnitK | _ => DEFAULT_TOKEN_UNIT end.
Definition normalizeViewMode (v : option ViewMode) : ViewMode := match v with Some ViewTable => ViewTable | _ => ViewCard end.
Definition viewMode (s : FilterState) : ViewMode := normalizeViewMode (fs_view s).
Definition showRechargePrice (s : FilterState) : bool := bool_decide (fs_rechargePrice s = Some true).

(** The fields a call of [updateFilters] names, each with its new value; an undefined value
    deletes the field. *)
Inductive FilterUpdate :=
| PutSearch (v : option str) | PutSort (v : option str) | PutVendor (v : option str) | PutGroup (v : option str)
| PutQuotaType (v : option str) | PutEndpointType (v : option str) | PutTag (v : option str)
| PutTokenUnit (v : option TokenUnit) | PutView (v : option ViewMode) | PutRechargePrice (v : option bool).

Definition put_field (s : FilterState) (u : FilterUpdate) : FilterState :=
  let 'mkState a b c d e f g h i j := s in
  match u with
  | PutSearch v => mkState v b c d e f g h i j
  | PutSort v => mkState a v c d e f g h i j
  | PutVendor v => mkState a b v d e f g h i j
  | PutGroup v => mkState a b c v e f g h i j
  | PutQuotaType v => mkState a b c d v f g h i j
  | PutEndpointType v => mkState a b c d e v g h i j
  | PutTag v => mkState a b c d e f v h i j
  | PutTokenUnit v => mkState a b c d e f g v i j
  | PutView v => mkState a b c d e f g h v j
  | PutRechargePrice v => mkState a b c d e f g h i v
  end.

Definition updateFilters (updates : list FilterUpdate) (prev : FilterState) : FilterState := foldl put_field prev updates.

(** [v === d ? undefined : v]. *)
Definition unless_default (d v : str) : option str := if str_eqb v d then None else Some v.

Definition setSearchInput (v : str) := updateFilters [PutSearch (if truthy v then Some v else None)].
Definition setSortBy (v : str) := updateFilters [PutSort (unless_default SORT_NAME v)].
Definition setVendorFilter (v : str) := updateFilters [PutVendor (unless_default FILTER_ALL v)].
Definition setGroupFilter (v : str) := updateFilters [PutGroup (unless_default FILTER_ALL v)].
Definition setQuotaTypeFilter (v : str) := updateFilters [PutQuotaType (unless_default QUOTA_ALL v)].
Definition setEndpointTypeFilter (v : str) := updateFilters [PutEndpointType (unless_default ENDPOINT_ALL v)].
Definition setTagFilter (v : str) := updateFilters [PutTag (unless_default FILTER_ALL v)].
Definition setTokenUnit (v : TokenUnit) := updateFilters [PutTokenUnit (match v with UnitM => None | UnitK => Some v end)].
Definition setViewMode (v : ViewMode) := updateFilters [PutView (match v with ViewCard => None | ViewTable => Some v end)].
Definition setShowRechargePrice (v : bool) := updateFilters [PutRechargePrice (if v then Some v else None)].
Definition clearFilters := updateFilters [PutVendor None; PutGroup None; PutQuotaType None; PutEndpointType None; PutTag None].
Definition clearSearch := updateFilters [PutSearch None].
Definition handleClearAll (s : FilterState) : FilterState := clearSearch (clearFilters s).

Definition filters_of (s : FilterState) : Filters :=
  mkFilters (searchInput s) (vendorFilter s) (groupFilter s) (quotaTypeFilter s) (endpointTypeFilter s)
    (tagFilter s) (sortBy s).

Definition availableTags (models : list PricingModel) : list str :=
  match models with [] => [] | _ => extractAllTags models end.
Definition filteredModels (models : list PricingModel) (s : FilterState) : list PricingModel :=
  match models with [] => [] | _ => filterAndSortModels models (filters_of s) end.

Definition hasActiveFilters (s : FilterState) : bool :=
  negb (str_eqb (vendorFilter s) FILTER_ALL) || negb (str_eqb (groupFilter s) FILTER_ALL)
  || negb (str_eqb (quotaTypeFilter s) QUOTA_ALL) || negb (str_eqb (endpointTypeFilter s) ENDPOINT_ALL)
  || negb (str_eqb (tagFilter s) FILTER_ALL).

Definition one_unless (b : bool) : Z := if b then 0%Z else 1%Z.
Definition activeFilterCount (s : FilterState) : Z :=
  (one_unless (str_eqb (vendorFilter s) FILTER_ALL) + one_unless (str_eqb (groupFilter s) FILTER_ALL)
   + one_unless (str_eqb (quotaTypeFilter s) QUOTA_ALL) + one_unless (str_eqb (endpointTypeFilter s) ENDPOINT_ALL)
   + one_unless (str_eqb (tagFilter s) FILTER_ALL))%Z.

(** ** The side bar *)

Record FilterOption := mkOption { fo_value : str; fo_label : str; fo_count : option Z; fo_suffix : option str }.

Definition countBy (models : list PricingModel) (predicate : PricingModel -> bool) : Z :=
  foldl (fun count m => count + if predicate m then 1 else 0)%Z 0%Z models.

(** [s.replace(/0+$/, '').replace(/\.$/, '')]. *)
Definition strip_ratio_zeros (s : str) : str := strip_last_point (reverse (drop_while (N.eqb 48) (reverse s))).

Definition formatGroupRatio (ratio : option num) : option str :=
  match ratio with
  | None => None
  | Some r => Some (js "x" ++ match num_to_Z r with Some _ => num_to_str r | None => strip_ratio_zeros (to_fixed r 3) end)
  end.

Section Sidebar.
Variables (t : str -> str) (models : list PricingModel).
Definition all_count : option Z := Some (Z.of_nat (length models)).

Definition vendorOptions (vendors : list PricingVendor) : list FilterOption :=
  mkOption FILTER_ALL (t (js "All Vendors")) all_count None ::
  List.filter (fun o => (0 <? default 0 (fo_count o))%Z)
    (map (fun v => mkOption (pv_name v) (pv_name v) (Some (countBy models (vendor_matches (pv_name v)))) None) vendors).

Definition groupOptions (groups : list str) (groupRatios : list (str * num)) : list FilterOption :=
  mkOption FILTER_ALL (t (js "All Groups")) None None ::
  map (fun g => mkOption g g None (formatGroupRatio (map_get g groupRatios))) groups.

Definition quotaOptions : list FilterOption :=
  [mkOption QUOTA_ALL (default [] (map_get QUOTA_ALL (getQuotaTypeLabels t))) all_count None;
   mkOption QUOTA_TOKEN (default [] (map_get QUOTA_TOKEN (getQuotaTypeLabels t)))
     (Some (countBy models (fun m => quota_type m =? 0)%Z)) None;
   mkOption QUOTA_REQUEST (default [] (map_get QUOTA_REQUEST (getQuotaTypeLabels t)))
     (Some (countBy models (fun m => quota_type m =? 1)%Z)) None].

Definition tagOptions (tagList : list str) : list FilterOption :=
  mkOption FILTER_ALL (t (js "All Tags")) all_count None ::
  map (fun tag => mkOption tag tag
    (Some (countBy models (fun m => set_has (toLowerCase tag) (map toLowerCase (parseTags (tags m)))))) None) tagList.

Definition endpointOptions : list FilterOption :=
  mkOption ENDPOINT_ALL (default [] (map_get ENDPOINT_ALL (getEndpointTypeLabels t))) all_count None ::
  map (fun '(value, label) => mkOption value label (Some (countBy models (endpoint_matches value))) None)
    (List.filter (fun e => negb (str_eqb (fst e) ENDPOINT_ALL)) (getEndpointTypeLabels t)).
End Sidebar.
End Filters.

(** ** Prices *)

Inductive PriceType := PInput | POutput | PCache | PCreateCache | PImage | PAudioInput | PAudioOutput.

(** The loop of [getMinGroupRatio]; a group without ratio is passed over. *)
Definition min_ratio_step (groupRatio : list (str * num)) (minRatio : num) (group : str) : num :=
  match map_get group groupRatio with
  | Some ratio => if n_ltb ratio minRatio then ratio else minRatio
  | None => minRatio
  end.

Definition infinity : num := S754_infinity false.

Definition getMinGroupRatio (enableGroups : list str) (groupRatio : list (str * num)) : num :=
  match enableGroups with
  | [] => n_of_Z 1
  | _ =>
      let minRatio := foldl (min_ratio_step groupRatio) infinity enableGroups in
      if n_eqb minRatio infinity then n_of_Z 1 else minRatio
  end.

Definition hasRatio (value : option num) : bool := match value with Some v => isFinite v | None => false end.

(** [hasRatio(v) ? base * Number(v) : NaN]. *)
Definition times_ratio (base : num) (value : option num) : num :=
  match value with Some v => if isFinite v then n_mul base v else n_nan | None => n_nan end.

Definition calculateTokenPrice (m : PricingModel) (type : PriceType) (ratio : num) : num :=
  let base := n_mul (n_mul (model_ratio m) (n_of_Z 2)) ratio in
  match type with
  | PInput => base
  | POutput => n_mul base (completion_ratio m)
  | PCache => times_ratio base (cache_ratio m)
  | PCreateCache => times_ratio base (create_cache_ratio m)
  | PImage => times_ratio base (image_ratio m)
  | PAudioInput => times_ratio base (audio_ratio m)
  | PAudioOutput =>
      if hasRatio (audio_ratio m) && hasRatio (audio_completion_ratio m)
      then n_mul (n_mul base (default n_nan (audio_ratio m))) (default n_nan (audio_completion_ratio m)) else n_nan
  end.

Definition applyRechargeRate (price : num) (showWithRecharge : bool) (pRate usdRate : num) : num :=
  if showWithRecharge then n_div (n_mul price pRate) usdRate else price.

Definition ratios_of (m : PricingModel) : list (str * num) := default [] (group_ratio m).

(** [groupRatio[group] || 1]. *)
Definition ratio_or_one (groupRatio : list (str * num)) (group : str) : num :=
  match map_get group groupRatio with Some r => if n_truthy r then r else n_of_Z 1 | None => n_of_Z 1 end.

(** How prices are displayed: recharge prices or not, and the two rates. *)
Record PriceView := mkView { vw_recharge : bool; vw_priceRate : num; vw_usdRate : num }.

Section Prices.
Context {F : NumberFormats} (cur : option StoredCurrency) (view : PriceView).

Definition recharged (price : num) : num := applyRechargeRate price (vw_recharge view) (vw_priceRate view) (vw_usdRate view).

(** The common end of [formatPrice] and [formatGroupPrice]. *)
Definition token_price_text (m : PricingModel) (type : PriceType) (unit : TokenUnit) (ratio : num) : str :=
  let priceInUSD := recharged (calculateTokenPrice m type ratio) in
  formatCurrencyFromUSD cur (Some (n_div priceInUSD (TOKEN_UNIT_DIVISORS unit))) (digit_options 4 6 false).

Definition formatPrice (m : PricingModel) (type : PriceType) (unit : TokenUnit) : str :=
  if (quota_type m =? QUOTA_VALUE_REQUEST)%Z then js "-"
  else token_price_text m type unit (getMinGroupRatio (groups_of_model m) (ratios_of m)).

Definition formatGroupPrice (m : PricingModel) (group : str) (type : PriceType) (unit : TokenUnit)
    (groupRatio : list (str * num)) : str :=
  if (quota_type m =? QUOTA_VALUE_REQUEST)%Z then js "-"
  else token_price_text m type unit (ratio_or_one groupRatio group).

Definition request_price_text (m : PricingModel) (ratio : num) : str :=
  formatCurrencyFromUSD cur (Some (recharged (n_mul (n_or_zero (default n_zero (model_price m))) ratio)))
    (digit_options 4 4 false).

Definition formatFixedPrice (m : PricingModel) (group : str) (groupRatio : list (str * num)) : str :=
  if (quota_type m =? QUOTA_VALUE_REQUEST)%Z then request_price_text m (ratio_or_one groupRatio group) else js "-".

Definition formatRequestPrice (m : PricingModel) : str :=
  if (quota_type m =? QUOTA_VALUE_REQUEST)%Z
  then request_price_text m (getMinGroupRatio (groups_of_model m) (ratios_of m)) else js "-".
End Prices.

(** An optional symbol, a number with commas, an optional k. *)
Definition price_text_re : regex :=
  ranch (rseq [RGroup 1 (RStar (RChar (fun c => negb (is_digit c) && negb (c =? 45)%N)));
    RGroup 2 (rseq [RPlus (RChar (fun c => is_digit c || one_of (js "-,") c)); ROpt (rlit (js ".")); RStar (RChar is_digit)]);
    RGroup 3 (ROpt (rlit (js "k")))]).

(** [s.replace(/\.?0+$/, '')]: the first place from which only a point and zeros follow. *)
Fixpoint strip_point_zeros (s : str) : str :=
  let zeros_only (r : str) := truthy r && forallb (N.eqb 48) r in
  match s with
  | [] => []
  | c :: r => if zeros_only s || ((c =? 46)%N && zeros_only r) then [] else c :: strip_point_zeros r
  end.

Definition stripTrailingZeros (formatted : str) : str :=
  match rexec price_text_re formatted with
  | None => formatted
  | Some m =>
      let cleanNumber := List.filter (fun c => negb (c =? 44)%N) (capd 2 m) in
      let parsed := parseFloat cleanNumber in
      if isNaN parsed then formatted
      else
        let text := num_to_str parsed in
        let result := if str_includes text (js "e") then strip_point_zeros (to_fixed parsed 20) else text in
        capd 1 m ++ result ++ capd 3 m
  end.

(** ** Prices of expressions *)

Record DynamicPriceOptions := mkDynOpts {
  do_tokenUnit : TokenUnit; do_showRechargePrice : option bool; do_priceRate : option num;
  do_usdExchangeRate : option num; do_groupRatioMultiplier : option num }.

Record DynamicPriceEntry := mkEntry {
  de_key : str; de_field : str; de_label : str; de_shortLabel : str; de_value : num; de_formatted : str }.

Definition PRIMARY_DYNAMIC_FIELDS : list str := [js "inputPrice"; js "outputPrice"].
Definition is_primary (e : DynamicPriceEntry) : bool := set_has (de_field e) PRIMARY_DYNAMIC_FIELDS.

Definition isDynamicPricingModel (m : PricingModel) : bool :=
  bool_decide (billing_mode m = Some (js "tiered_expr")) && truthy (default [] (billing_expr m)).

Definition getDynamicDisplayGroupRatio (m : PricingModel) : num :=
  match groups_of_model m with
  | [] => n_of_Z 1
  | groups =>
      let minRatio := foldl (min_ratio_step (ratios_of m)) infinity groups in
      if n_eqb minRatio infinity then n_of_Z 1 else minRatio
  end.

(** A malformed string literal in a rule makes the parser throw. *)
Definition getDynamicPricingTiers (m : PricingModel) : outcome (list ParsedTier) :=
  if isDynamicPricingModel m then
    outcome_bind (splitBillingExprAndRequestRules (default [] (billing_expr m)))
      (fun s => Found (parseTiersFromExpr (sp_billingExpr s)))
  else Found [].

Definition hasDynamicRequestRules (m : PricingModel) : outcome bool :=
  if isDynamicPricingModel m then
    outcome_bind (splitBillingExprAndRequestRules (default [] (billing_expr m))) (fun s =>
      match tryParseRequestRuleExpr (sp_requestRuleExpr s) with
      | Found l => Found (match l with [] => false | _ => true end)
      | Null => Found false
      | Throws => Throws
      end)
  else Found false.

Section Dynamic.
Context {F : NumberFormats} (cur : option StoredCurrency) (options : DynamicPriceOptions).

Definition formatDynamicUnitPrice (valuePerMillionTokens : num) : str :=
  let priceUSD := n_div (n_mul valuePerMillionTokens (default (n_of_Z 1) (do_groupRatioMultiplier options)))
                    (TOKEN_UNIT_DIVISORS (do_tokenUnit options)) in
  let displayPrice := applyRechargeRate priceUSD (default false (do_showRechargePrice options))
                        (default (n_of_Z 1) (do_priceRate options)) (default (n_of_Z 1) (do_usdExchangeRate options)) in
  formatBillingCurrencyFromUSD cur (Some displayPrice) (digit_options 4 6 false).

(** The entry of a variable: none when the tier has no positive price for it. *)
Definition dynamic_entry (tier : ParsedTier) (v : BillingVar) : list DynamicPriceEntry :=
  match bv_field v with
  | None => []
  | Some field =>
      let value := default n_nan (map_get field (t_prices tier)) in
      if negb (isFinite value) || n_leb value n_zero then []
      else [mkEntry (bv_key v) field (bv_label v) (bv_shortLabel v) value (formatDynamicUnitPrice value)]
  end.

Definition primary_cmp (a b : DynamicPriceEntry) : Z :=
  if Bool.eqb (is_primary a) (is_primary b) then 0%Z else if is_primary a then (-1)%Z else 1%Z.

Definition getDynamicPriceEntries (tier : option ParsedTier) : list DynamicPriceEntry :=
  match tier with
  | None => []
  | Some t => sort_by primary_cmp (flat_map (dynamic_entry t) BILLING_PRICING_VARS)
  end.

Record DynamicPricingSummary := mkSummary {
  ds_tiers : list ParsedTier; ds_tier : option ParsedTier; ds_tierCount : nat; ds_hasRequestRules : bool;
  ds_isSpecialExpression : bool; ds_rawExpression : str; ds_entries : list DynamicPriceEntry;
  ds_primaryEntries : list DynamicPriceEntry; ds_secondaryEntries : list DynamicPriceEntry }.

Definition getDynamicPricingSummary (m : PricingModel) : outcome DynamicPricingSummary :=
  if isDynamicPricingModel m then
    outcome_bind (getDynamicPricingTiers m) (fun tiers =>
    outcome_bind (hasDynamicRequestRules m) (fun rules =>
      let tier := head tiers in
      let entries := getDynamicPriceEntries tier in
      let rawExpression := default [] (billing_expr m) in
      Found (mkSummary tiers tier (length tiers) rules
        (truthy (trim rawExpression) && match tiers with [] => true | _ => false end) rawExpression entries
        (List.filter is_primary entries) (List.filter (fun e => negb (is_primary e)) entries))))
  else Null.
End Dynamic.

(** ** Examples *)

Definition demo_model (name : String.string) (ty : Z) (ratio : String.string) (price : option String.string)
    (groups tagText : String.string) : PricingModel :=
  mkModel 1 (Some (js name)) None None None None None ty (lit ratio) (n_of_Z 3) (lit <$> price) None None None None None
    (Some (List.filter truthy (split_on 44 (js groups)))) (Some (js tagText)) (Some [js "openai"]) None
    (Some [(js "vip", lit "0.5"); (js "default", n_of_Z 1); (js "free", n_zero)]) None None.

Example tags_ex : parseTags (Some (js "Chat, vision;|tools  fast")) = [js "Chat"; js "vision"; js "tools"; js "fast"].
Proof. vm_compute. reflexivity. Qed.
Example strip_ex : map (fun s => stripTrailingZeros (js s)) ["$1,234.5000"; "¥0.000001"; "12.50k"; "0.50 €"; "-"]%string
  = map js ["$1234.5"; "¥0.000001"; "12.5k"; "0.50 €"; "-"]%string.
Proof. vm_compute. reflexivity. Qed.
