(* ===== verification/PriceListProps.v ===== *)
(** * What the price list shows

    The filters of the price list are the conjunction of their tests, and sorting puts the
    remaining models in order and is stable; the counts of the side bar are the numbers of
    models that a click shows; the state of the filters is what was set last.  The lowest
    group ratio is the minimum, and the entries of an expression come in two parts. *)
From S2P Require Import Prelude Number NumberOrder Regex Json BillingExpr Currency PriceList.
From Stdlib Require Import SpecFloat.

(** ** Filters *)

Section Spec.
Context {C : CaseMap} {L : Collation}.

(** One model against all filters. *)
Definition model_matches (f : Filters) (m : PricingModel) : bool :=
  (negb (truthy (fl_search f)) || search_matches (fl_search f) m) &&
  (str_eqb (fl_vendor f) FILTER_ALL || vendor_matches (fl_vendor f) m) &&
  (str_eqb (fl_group f) FILTER_ALL || group_matches (fl_group f) m) &&
  (str_eqb (fl_quotaType f) QUOTA_ALL || quota_matches (fl_quotaType f) m) &&
  (str_eqb (fl_endpointType f) ENDPOINT_ALL || endpoint_matches (fl_endpointType f) m) &&
  (str_eqb (fl_tag f) FILTER_ALL || tag_matches (fl_tag f) m).

Lemma filter_guarded {A} (b : bool) (p : A -> bool) l :
  (if b then l else List.filter p l) = List.filter (fun x => b || p x) l.
Proof. destruct b; simpl; [| done]. induction l as [|x l IH]; simpl; congruence. Qed.

Lemma filter_filter_and {A} (p q : A -> bool) l : List.filter p (List.filter q l) = List.filter (fun x => q x && p x) l.
Proof. induction l as [|x l IH]; simpl; [done |]. destruct (q x); simpl; [destruct (p x) |]; congruence. Qed.

Lemma filters_conjunction models f :
  filterAndSortModels models f = sortModels (List.filter (model_matches f) models) (fl_sortBy f).
Proof.
  unfold filterAndSortModels, filterBySearch, filterByVendor, filterByGroup, filterByQuotaType, filterByEndpointType,
    filterByTag. cbv zeta. f_equal.
  replace (if truthy (fl_search f) then List.filter (search_matches (fl_search f)) models else models)
    with (if negb (truthy (fl_search f)) then models else List.filter (search_matches (fl_search f)) models)
    by (by destruct (truthy (fl_search f))).
  rewrite !filter_guarded, !filter_filter_and. apply List.filter_ext. intros m. unfold model_matches. by rewrite <- !andb_assoc.
Qed.

Lemma sortModels_perm models by_ : sortModels models by_ ≡ₚ models.
Proof. unfold sortModels. repeat case_match; rewrite ?sort_by_perm; done. Qed.

(** Prices are finite numbers. *)
Definition prices_ok (models : list PricingModel) : bool := forallb (fun m => n_valid (getModelPrice m)) models.

Lemma price_sorted (cmp : PricingModel -> PricingModel -> Z) l :
  prices_ok l = true -> comparator cmp (fun m => n_valid (getModelPrice m) = true) -> cmp_sorted cmp (sort_by cmp l).
Proof.
  intros H Hc. eapply sort_by_sorted; [exact Hc |]. unfold prices_ok in H. rewrite forallb_forall in H.
  apply Forall_forall. intros m Hm. by apply H, list_elem_of_In.
Qed.

Lemma high_comparator : comparator high_cmp (fun m => n_valid (getModelPrice m) = true).
Proof.
  destruct (diff_cmp_comparator getModelPrice) as [H1 H2]. split; unfold high_cmp.
  - intros x y Hx Hy. by apply (H1 y x).
  - intros x y z Hx Hy Hz A B. by apply (H2 z y x).
Qed.

Lemma prices_ok_filter p l : prices_ok l = true -> prices_ok (List.filter p l) = true.
Proof.
  unfold prices_ok. rewrite !forallb_forall. intros H x Hx. apply filter_In in Hx as [Hx _]. by apply H.
Qed.

Lemma cmp_sorted_prices cmp key l :
  (forall a b, n_valid (getModelPrice a) = true -> n_valid (getModelPrice b) = true -> (cmp a b <= 0)%Z -> key a b) ->
  prices_ok l = true -> cmp_sorted cmp l -> StronglySorted key l.
Proof.
  intros Hk Hp Hs. induction Hs as [|x l Hs IH Hx]; [constructor |].
  unfold prices_ok in Hp. simpl in Hp. apply andb_true_iff in Hp as [Hv Hp]. constructor; [by apply IH |].
  rewrite Forall_forall in Hx |- *. intros y Hy. apply Hk; [done | | by apply Hx].
  rewrite forallb_forall in Hp. by apply Hp, list_elem_of_In.
Qed.

Lemma prices_ok_perm l l' : l ≡ₚ l' -> prices_ok l = true -> prices_ok l' = true.
Proof.
  unfold prices_ok. rewrite !forallb_forall. intros HP H x Hx. apply H. rewrite <- list_elem_of_In in *. by rewrite HP.
Qed.

(** C24: the list that is shown has exactly the models that pass the search and every chosen
    filter; it is in the order of names, or of prices in either direction - by the exact
    values, although the sort compares by a rounded difference - and models of equal price
    keep the order they came in. *)
Theorem price_list_spec models f (Hp : prices_ok models = true) :
  filterAndSortModels models f ≡ₚ List.filter (model_matches f) models /\
  (fl_sortBy f = SORT_NAME -> StronglySorted (fun a b => name_cmp a b <= 0)%Z (filterAndSortModels models f)) /\
  (fl_sortBy f = SORT_PRICE_LOW ->
     StronglySorted (fun a b => scaled (getModelPrice a) <= scaled (getModelPrice b))%Z (filterAndSortModels models f)) /\
  (fl_sortBy f = SORT_PRICE_HIGH ->
     StronglySorted (fun a b => scaled (getModelPrice b) <= scaled (getModelPrice a))%Z (filterAndSortModels models f)) /\
  (fl_sortBy f <> SORT_NAME -> forall price, n_valid price = true ->
     List.filter (fun m => bool_decide (getModelPrice m = price)) (filterAndSortModels models f) =
     List.filter (fun m => bool_decide (getModelPrice m = price)) (List.filter (model_matches f) models)).
Proof.
  rewrite filters_conjunction. pose proof (prices_ok_filter (model_matches f) _ Hp) as Hv.
  set (l := List.filter (model_matches f) models) in *. clearbody l. split; [apply sortModels_perm |].
  assert (Hlow : forall a b, getModelPrice a = getModelPrice b -> n_valid (getModelPrice b) = true -> (low_cmp a b <= 0)%Z)
    by (intros a b E V; apply diff_cmp_le; [by rewrite E | done | by rewrite E]).
  unfold sortModels. split; [| split; [| split]].
  - intros ->. by apply sort_by_sorted_pre, (locale_preorder (fun m => default [] (model_name m))).
  - intros ->. apply (cmp_sorted_prices low_cmp); [intros a b Va Vb; by apply diff_cmp_le | | apply price_sorted; [done | apply diff_cmp_comparator]].
    eapply prices_ok_perm; [symmetry; apply sort_by_perm | done].
  - intros ->. apply (cmp_sorted_prices high_cmp); [intros a b Va Vb; by apply diff_cmp_le | | apply price_sorted; [done | apply high_comparator]].
    eapply prices_ok_perm; [symmetry; apply sort_by_perm | done].
  - intros Hne price Hval. destruct (str_eqb (fl_sortBy f) SORT_NAME) eqn:E; [by apply str_eqb_eq in E |].
    repeat case_match; [| | done]; apply sort_by_filter; intros a b Ha%bool_decide_eq_true Hb%bool_decide_eq_true;
      apply Hlow; congruence.
Qed.
End Spec.

Definition demo_models : list PricingModel :=
  [demo_model "gpt-4o" 0 "1.25" None "default,vip" "Chat, vision";
   demo_model "o3" 0 "1" None "default" "reasoning";
   demo_model "sora" 1 "0" (Some "0.5"%string) "vip" "video";
   demo_model "gpt-4.1" 0 "1" None "vip" "chat"].

Lemma price_list_spec_witness :
  let f := mkFilters (js "g") FILTER_ALL (js "vip") QUOTA_TOKEN ENDPOINT_ALL (js "CHAT") SORT_PRICE_LOW in
  @filterAndSortModels ascii_case unit_collation demo_models f ≡ₚ
    List.filter (@model_matches ascii_case f) demo_models /\
  map model_name (@filterAndSortModels ascii_case unit_collation demo_models f) = [Some (js "gpt-4.1"); Some (js "gpt-4o")].
Proof.
  cbv zeta. split; [| vm_compute; reflexivity].
  apply (@price_list_spec ascii_case unit_collation). vm_compute. reflexivity.
Defined.

(** ** Tags and counts *)

Section Counts.
Context {C : CaseMap} {L : Collation}.

Lemma countBy_length models p : countBy models p = Z.of_nat (length (List.filter p models)).
Proof.
  unfold countBy. rewrite (foldl_add_sumZ (fun m => if p m then 1 else 0)%Z). simpl.
  induction models as [|m l IH]; simpl; [done |]. destruct (p m); simpl; lia.
Qed.

Lemma fold_tags_elem t ts s :
  t ∈ foldl (fun s tag => set_add s (toLowerCase tag)) s ts <-> t ∈ s \/ t ∈ map toLowerCase ts.
Proof.
  rewrite <- (foldl_set_add_elem (map toLowerCase ts) s t). revert s.
  induction ts as [|x ts IH]; intros s; simpl; [done | apply IH].
Qed.

Lemma fold_tags_NoDup ts s : NoDup s -> NoDup (foldl (fun s tag => set_add s (toLowerCase tag)) s ts).
Proof.
  revert s. induction ts as [|x ts IH]; intros s H; simpl; [done |]. apply IH.
  unfold set_add. destruct (set_has (toLowerCase x) s) eqn:E; [done |]. apply NoDup_app. split; [done |]. split; [| apply NoDup_singleton].
  intros y Hy ->%list_elem_of_singleton. apply set_has_spec in Hy. congruence.
Qed.

Definition tag_fold (s : list str) (m : PricingModel) : list str :=
  match tags m with
  | Some ts => if truthy ts then foldl (fun s tag => set_add s (toLowerCase tag)) s (parseTags (tags m)) else s
  | None => s
  end.

Lemma model_tags_nil m : match tags m with Some ts => truthy ts | None => false end = false -> model_tags m = [].
Proof. unfold model_tags, parseTags. destruct (tags m) as [ts|]; [| done]. by intros ->. Qed.

Lemma tag_fold_elem models s t : t ∈ foldl tag_fold s models <-> t ∈ s \/ exists m, m ∈ models /\ t ∈ model_tags m.
Proof.
  revert s. induction models as [|m l IH]; intros s; simpl; [set_solver |]. rewrite IH.
  assert (H : t ∈ tag_fold s m <-> t ∈ s \/ t ∈ model_tags m).
  { unfold tag_fold. pose proof (model_tags_nil m) as Hn. destruct (tags m) as [ts|] eqn:E.
    - destruct (truthy ts); [| rewrite Hn by done; set_solver]. rewrite fold_tags_elem. unfold model_tags. by rewrite E.
    - rewrite Hn by done. set_solver. }
  rewrite H. set_solver.
Qed.

Lemma tag_fold_NoDup models s : NoDup s -> NoDup (foldl tag_fold s models).
Proof.
  revert s. induction models as [|m l IH]; intros s H; simpl; [done |]. apply IH. unfold tag_fold.
  destruct (tags m) as [ts|]; [| done]. destruct (truthy ts); [by apply fold_tags_NoDup | done].
Qed.

Lemma extracted_tags models t : t ∈ extractAllTags models <-> exists m, m ∈ models /\ t ∈ model_tags m.
Proof.
  unfold extractAllTags. rewrite elem_of_sort_by. change (t ∈ foldl tag_fold [] models <-> exists m, m ∈ models /\ t ∈ model_tags m).
  rewrite tag_fold_elem. set_solver.
Qed.

Lemma model_tags_lower m t : t ∈ model_tags m -> toLowerCase t = t.
Proof.
  unfold model_tags. change (map toLowerCase (parseTags (tags m))) with (toLowerCase <$> parseTags (tags m)).
  intros (x & -> & _)%list_elem_of_fmap. apply toLowerCase_idemp.
Qed.

Lemma tag_matches_spec t m : tag_matches t m = set_has (toLowerCase t) (model_tags m).
Proof.
  unfold tag_matches. pose proof (model_tags_nil m) as H. destruct (tags m) as [ts|]; [| by rewrite H].
  destruct (truthy ts); [done |]. by rewrite H.
Qed.

(** the tags that are offered are, each once and in the order of the language, the
    tags of the models in lower case; choosing an offered tag other than [all] shows
    at least one model. *)
Theorem offered_tags_spec models :
  NoDup (extractAllTags models) /\ StronglySorted (fun a b => localeCompare a b <= 0)%Z (extractAllTags models) /\
  (forall t, t ∈ extractAllTags models <-> exists m, m ∈ models /\ t ∈ model_tags m) /\
  (forall t, t ∈ extractAllTags models -> t <> FILTER_ALL -> filterByTag models t <> []).
Proof.
  split; [| split; [| split]].
  - unfold extractAllTags. rewrite sort_by_perm. apply (tag_fold_NoDup models []). constructor.
  - apply sort_by_sorted_pre, (locale_preorder (fun s => s)).
  - apply extracted_tags.
  - intros t Ht Hne E. apply extracted_tags in Ht as (m & Hm & Ht). unfold filterByTag in E.
    destruct (str_eqb t FILTER_ALL) eqn:Ea; [by apply str_eqb_eq in Ea |].
    assert (Hin : m ∈ List.filter (tag_matches t) models); [| rewrite E in Hin; by apply elem_of_nil in Hin].
    apply list_elem_of_In, filter_In. split; [by apply list_elem_of_In |].
    rewrite tag_matches_spec. apply set_has_spec. by rewrite (model_tags_lower m t Ht).
Qed.

(** Filters with one choice, the others at their defaults. *)
Definition only_vendor (v sort : str) : Filters := mkFilters [] v FILTER_ALL QUOTA_ALL ENDPOINT_ALL FILTER_ALL sort.
Definition only_quota (q sort : str) : Filters := mkFilters [] FILTER_ALL FILTER_ALL q ENDPOINT_ALL FILTER_ALL sort.
Definition only_endpoint (e sort : str) : Filters := mkFilters [] FILTER_ALL FILTER_ALL QUOTA_ALL e FILTER_ALL sort.
Definition only_tag (t sort : str) : Filters := mkFilters [] FILTER_ALL FILTER_ALL QUOTA_ALL ENDPOINT_ALL t sort.

(** The count next to an option is the number of models that are shown when it is chosen. *)
Definition count_exact (models : list PricingModel) (choice : str -> Filters) (o : FilterOption) : Prop :=
  fo_count o = Some (Z.of_nat (length (filterAndSortModels models (choice (fo_value o))))).

Lemma shown_count models f p :
  (forall m, model_matches f m = p m) -> Z.of_nat (length (filterAndSortModels models f)) = countBy models p.
Proof.
  intros H. rewrite filters_conjunction, countBy_length. f_equal. rewrite (sortModels_perm _ (fl_sortBy f)).
  f_equal. by apply List.filter_ext.
Qed.

Lemma str_eqb_refl a : str_eqb a a = true.
Proof. by apply str_eqb_eq. Qed.

Lemma str_eqb_neq a b : a <> b -> str_eqb a b = false.
Proof. intros H. destruct (str_eqb a b) eqn:E; [by apply str_eqb_eq in E | done]. Qed.

Lemma filter_all_true {A} (p : A -> bool) l : (forall x, p x = true) -> List.filter p l = l.
Proof. intros H. induction l as [|x l IH]; simpl; [done |]. by rewrite H, IH. Qed.

Lemma all_count_exact models f :
  (forall m, model_matches f m = true) -> all_count models = Some (Z.of_nat (length (filterAndSortModels models f))).
Proof. intros H. rewrite (shown_count _ f (fun _ => true)), countBy_length, filter_all_true by done. done. Qed.

Lemma option_count_exact models f p :
  (forall m, model_matches f m = p m) ->
  Some (countBy models p) = Some (Z.of_nat (length (filterAndSortModels models f))).
Proof. intros H. by rewrite (shown_count _ f p). Qed.

(** the count next to every vendor, tag, price type and endpoint type in the side bar is
    the number of models that choosing it shows, as long as no vendor and no tag is called
    [all]. *)
Theorem sidebar_counts_exact t models sort vendors
    (Hv : Forall (fun v => pv_name v <> FILTER_ALL) vendors)
    (Ht : FILTER_ALL ∉ extractAllTags models) :
  Forall (count_exact models (fun v => only_vendor v sort)) (vendorOptions t models vendors) /\
  Forall (count_exact models (fun q => only_quota q sort)) (quotaOptions t models) /\
  Forall (count_exact models (fun e => only_endpoint e sort)) (endpointOptions t models) /\
  Forall (count_exact models (fun tag => only_tag tag sort)) (tagOptions t models (extractAllTags models)).
Proof.
  split; [| split; [| split]].
  - constructor; [by apply all_count_exact |]. apply Forall_forall. intros o Ho.
    apply list_elem_of_In, filter_In in Ho as [Ho _].
    apply in_map_iff in Ho as (v & <- & Hin). apply option_count_exact. intros m. unfold model_matches. simpl.
    rewrite Forall_forall in Hv. rewrite (str_eqb_neq (pv_name v)) by (by apply Hv, list_elem_of_In).
    simpl. by rewrite !andb_true_r.
  - repeat constructor; [by apply all_count_exact | |]; apply option_count_exact; intros m; unfold model_matches; simpl;
      by rewrite !andb_true_r.
  - constructor; [by apply all_count_exact |]. apply Forall_forall. intros o Ho.
    apply list_elem_of_In, in_map_iff in Ho as ([e lab] & <- & Hin).
    apply filter_In in Hin as [_ He]. apply option_count_exact. intros m. unfold model_matches.
    cbn [only_endpoint fl_search fl_vendor fl_group fl_quotaType fl_endpointType fl_tag fo_value].
    apply negb_true_iff in He. cbn [fst] in He. rewrite He, !str_eqb_refl. simpl. by rewrite andb_true_r.
  - constructor; [by apply all_count_exact |]. apply Forall_forall. intros o Ho.
    apply list_elem_of_In, in_map_iff in Ho as (tag & <- & Hin).
    apply option_count_exact. intros m. unfold model_matches. simpl.
    rewrite str_eqb_neq by (intros ->; by apply Ht, list_elem_of_In). simpl. by rewrite tag_matches_spec.
Qed.

(** a model with a tag that is written [All] adds a second option [all] that shows
    every model, whatever the count next to it says. *)
Theorem tag_named_all models m (Hm : m ∈ models) (Ht : js "All" ∈ parseTags (tags m)) :
  FILTER_ALL ∈ extractAllTags models /\ filterByTag models FILTER_ALL = models.
Proof.
  split; [| unfold filterByTag; by rewrite str_eqb_refl]. apply extracted_tags. exists m. split; [done |].
  unfold model_tags. change (map toLowerCase (parseTags (tags m))) with (toLowerCase <$> parseTags (tags m)).
  apply list_elem_of_fmap. exists (js "All"). split; [| done]. rewrite toLowerCase_ascii; [done |]. by repeat constructor.
Qed.
End Counts.

Lemma demo_vendors_named : Forall (fun v => pv_name v <> FILTER_ALL) [mkVendor 1 (js "OpenAI") None None].
Proof. repeat constructor. done. Defined.

Lemma sidebar_counts_exact_witness :
  Forall (@count_exact ascii_case unit_collation demo_models (fun tag => only_tag tag SORT_NAME))
    (@tagOptions ascii_case (fun s => s) demo_models (@extractAllTags ascii_case unit_collation demo_models)).
Proof.
  apply (@sidebar_counts_exact ascii_case unit_collation (fun s => s) demo_models SORT_NAME
    [mkVendor 1 (js "OpenAI") None None]); [exact demo_vendors_named |].
  apply (bool_decide_unpack _). vm_compute. exact I.
Defined.

(** ** The state of the filters *)

Section State.
Context {C : CaseMap} {L : Collation}.

(** What a user can do with the filters. *)
Inductive filter_action :=
| DoSearch (v : str) | DoSort (v : str) | DoVendor (v : str) | DoGroup (v : str) | DoQuotaType (v : str)
| DoEndpointType (v : str) | DoTag (v : str) | DoTokenUnit (v : TokenUnit) | DoView (v : ViewMode)
| DoRecharge (v : bool) | DoClearFilters | DoClearSearch | DoClearAll.

Definition apply_action (a : filter_action) : FilterState -> FilterState :=
  match a with
  | DoSearch v => setSearchInput v | DoSort v => setSortBy v | DoVendor v => setVendorFilter v
  | DoGroup v => setGroupFilter v | DoQuotaType v => setQuotaTypeFilter v
  | DoEndpointType v => setEndpointTypeFilter v | DoTag v => setTagFilter v | DoTokenUnit v => setTokenUnit v
  | DoView v => setViewMode v | DoRecharge v => setShowRechargePrice v | DoClearFilters => clearFilters
  | DoClearSearch => clearSearch | DoClearAll => handleClearAll
  end.

(** The settings as the page reads them, and their abstract counterpart: plain values with
    defaults. *)
Record Settings := mkSettings {
  q_filters : Filters; q_unit : TokenUnit; q_view : ViewMode; q_recharge : bool }.

Definition settings_of (s : FilterState) : Settings :=
  mkSettings (filters_of s) (tokenUnit s) (viewMode s) (showRechargePrice s).

Definition or_default (d v : str) : str := if truthy v then v else d.

Definition set_settings (a : filter_action) (q : Settings) : Settings :=
  let 'mkSettings (mkFilters se ve gr qu en ta so) u w r := q in
  match a with
  | DoSearch v => mkSettings (mkFilters v ve gr qu en ta so) u w r
  | DoSort v => mkSettings (mkFilters se ve gr qu en ta (or_default SORT_NAME v)) u w r
  | DoVendor v => mkSettings (mkFilters se (or_default FILTER_ALL v) gr qu en ta so) u w r
  | DoGroup v => mkSettings (mkFilters se ve (or_default FILTER_ALL v) qu en ta so) u w r
  | DoQuotaType v => mkSettings (mkFilters se ve gr (or_default QUOTA_ALL v) en ta so) u w r
  | DoEndpointType v => mkSettings (mkFilters se ve gr qu (or_default ENDPOINT_ALL v) ta so) u w r
  | DoTag v => mkSettings (mkFilters se ve gr qu en (or_default FILTER_ALL v) so) u w r
  | DoTokenUnit v => mkSettings (mkFilters se ve gr qu en ta so) v w r
  | DoView v => mkSettings (mkFilters se ve gr qu en ta so) u v r
  | DoRecharge v => mkSettings (mkFilters se ve gr qu en ta so) u w v
  | DoClearFilters => mkSettings (mkFilters se FILTER_ALL FILTER_ALL QUOTA_ALL ENDPOINT_ALL FILTER_ALL so) u w r
  | DoClearSearch => mkSettings (mkFilters [] ve gr qu en ta so) u w r
  | DoClearAll => mkSettings (mkFilters [] FILTER_ALL FILTER_ALL QUOTA_ALL ENDPOINT_ALL FILTER_ALL so) u w r
  end.

Lemma unless_default_read d v : opt_str_or (unless_default d v) d = or_default d v.
Proof.
  unfold unless_default, or_default. destruct (str_eqb v d) eqn:E; simpl; [| done].
  apply str_eqb_eq in E as ->. unfold opt_str_or. by destruct (truthy d).
Qed.

Lemma opt_some_read v : opt_str_or (if truthy v then Some v else None) [] = v.
Proof. unfold opt_str_or. destruct (truthy v) eqn:E; [unfold str_or; by rewrite E | by apply truthy_false in E]. Qed.

Lemma apply_settings a s : settings_of (apply_action a s) = set_settings a (settings_of s).
Proof.
  destruct s, a as [v|v|v|v|v|v|v|[]|[]|[]| | |]; try done;
    unfold apply_action, setSearchInput, setSortBy, setVendorFilter, setGroupFilter, setQuotaTypeFilter,
      setEndpointTypeFilter, setTagFilter, updateFilters, settings_of, filters_of, searchInput, sortBy, vendorFilter,
      groupFilter, quotaTypeFilter, endpointTypeFilter, tagFilter, set_settings; simpl;
    rewrite ?unless_default_read, ?opt_some_read; done.
Qed.

(** the state of the filters, in which defaults are left out, implements plain settings:
    after any sequence of actions, from any address, what the page reads is what the
    settings hold when each action sets its own value; and clearing everything shows
    every model again in the chosen order. *)
Theorem filter_state_refines actions s models :
  settings_of (foldl (fun s a => apply_action a s) s actions) =
  foldl (fun q a => set_settings a q) (settings_of s) actions /\
  filteredModels models (handleClearAll s) = sortModels models (sortBy s).
Proof.
  split.
  - revert s. induction actions as [|a l IH]; intros s; simpl; [done |]. by rewrite IH, apply_settings.
  - pose proof (apply_settings DoClearAll s) as H. apply (f_equal q_filters) in H.
    unfold filteredModels. destruct models as [|m l].
    + unfold sortModels. repeat case_match; done.
    + cbn [apply_action settings_of q_filters] in H. rewrite H. simpl. rewrite filters_conjunction.
      f_equal. by apply filter_all_true.
Qed.

(** the badge with the number of active filters is shown exactly when there are some. *)
Theorem active_filters_counted s :
  hasActiveFilters s = (0 <? activeFilterCount s)%Z /\ (0 <= activeFilterCount s <= 5)%Z.
Proof.
  unfold hasActiveFilters, activeFilterCount, one_unless. repeat (destruct (str_eqb _ _); simpl); lia.
Qed.
End State.

(** ** Group ratios *)

(** The ratios of the groups of a model, those that have one. *)
Definition known_ratios (groups : list str) (ratios : list (str * num)) : list num :=
  omap (fun g => map_get g ratios) groups.

Lemma min_fold groups ratios acc :
  foldl (min_ratio_step ratios) acc groups =
  foldl (fun m r => if n_ltb r m then r else m) acc (known_ratios groups ratios).
Proof.
  revert acc. induction groups as [|g l IH]; intros acc; [done |]. cbn [foldl]. rewrite IH.
  unfold known_ratios at 2. simpl. unfold min_ratio_step. by destruct (map_get g ratios).
Qed.

Lemma fold_min acc l :
  n_valid acc = true -> Forall (fun r => n_valid r = true) l ->
  let m := foldl (fun m r => if n_ltb r m then r else m) acc l in
  m ∈ acc :: l /\ Forall (fun r => scaled m <= scaled r)%Z (acc :: l).
Proof.
  revert acc. induction l as [|r l IH]; intros acc Ha Hl; simpl; [by repeat constructor |].
  inv Hl. rewrite ltb_scaled by done. destruct (Z.ltb_spec (scaled r) (scaled acc)) as [Hlt|Hge].
  - destruct (IH r) as [Hin Hle]; [done.. |]. split; [by right |].
    rewrite Forall_cons in Hle. destruct Hle as [L1 L2]. constructor; [lia |]. by constructor.
  - destruct (IH acc) as [Hin Hle]; [done.. |]. rewrite Forall_cons in Hle. destruct Hle as [L1 L2].
    split; [apply elem_of_cons in Hin as [->|Hin]; [left | by do 2 right] |].
    constructor; [done |]. constructor; [lia | done].
Qed.

(** the ratio a price is shown with is the smallest ratio of the model's groups, and one
    when none of them has a ratio; the list and the expressions use the same. *)
Theorem lowest_group_ratio m
    (Hv : Forall (fun r => n_valid r = true) (known_ratios (groups_of_model m) (ratios_of m))) :
  getDynamicDisplayGroupRatio m = getMinGroupRatio (groups_of_model m) (ratios_of m) /\
  match known_ratios (groups_of_model m) (ratios_of m) with
  | [] => getMinGroupRatio (groups_of_model m) (ratios_of m) = n_of_Z 1
  | rs => getMinGroupRatio (groups_of_model m) (ratios_of m) ∈ rs /\
          Forall (fun r => scaled (getMinGroupRatio (groups_of_model m) (ratios_of m)) <= scaled r)%Z rs
  end.
Proof.
  split; [unfold getDynamicDisplayGroupRatio, getMinGroupRatio; by destruct (groups_of_model m) |].
  unfold getMinGroupRatio. rewrite min_fold.
  destruct (groups_of_model m) as [|g gs]; [done |]. set (rs := known_ratios (g :: gs) (ratios_of m)) in *.
  destruct rs as [|r rs]; [done |]. inv Hv.
  assert (Hinf : n_ltb r infinity = true) by (by destruct r).
  simpl. rewrite Hinf. destruct (fold_min r rs) as [Hin Hle]; [done.. |].
  assert (Hval : n_valid (foldl (fun m r => if n_ltb r m then r else m) r rs) = true).
  { apply elem_of_cons in Hin as [->|Hin]; [done |]. rewrite Forall_forall in H2. by apply H2. }
  destruct (foldl _ r rs) eqn:E; simpl in *; done.
Qed.

Definition demo_vip : PricingModel := demo_model "gpt-4o" 0 "1.25" None "default,vip" "".

Lemma demo_vip_ratios : Forall (fun r => n_valid r = true) (known_ratios (groups_of_model demo_vip) (ratios_of demo_vip)).
Proof. vm_compute. repeat constructor. Defined.

Lemma lowest_group_ratio_witness :
  getDynamicDisplayGroupRatio demo_vip = getMinGroupRatio (groups_of_model demo_vip) (ratios_of demo_vip) /\
  getDynamicDisplayGroupRatio demo_vip = lit "0.5".
Proof. split; [exact (proj1 (lowest_group_ratio demo_vip demo_vip_ratios)) | vm_compute; reflexivity]. Defined.

(** the price of a group whose ratio is zero is shown as if the ratio were one, in the
    table of groups, while the list shows the price zero. *)
Theorem free_group_shown_full {F : NumberFormats} cur view m group type unit ratios
    (Hz : map_get group ratios = Some n_zero) :
  formatGroupPrice cur view m group type unit ratios = formatGroupPrice cur view m group type unit [(group, n_of_Z 1)] /\
  formatFixedPrice cur view m group ratios = formatFixedPrice cur view m group [(group, n_of_Z 1)] /\
  getMinGroupRatio [group] ratios = n_zero.
Proof.
  unfold formatGroupPrice, formatFixedPrice, ratio_or_one, getMinGroupRatio, min_ratio_step. simpl.
  rewrite Hz, decide_True by done. done.
Qed.

Lemma free_group_shown_full_witness :
  @getMinGroupRatio [js "free"] [(js "free", n_zero)] = n_zero.
Proof.
  apply (@free_group_shown_full {| intl_format := fun _ _ n => num_to_str n; pow10 := fun _ => n_zero |} None
    (mkView false n_zero n_zero) (demo_model "m" 0 "1" None "free" "") (js "free") PInput UnitM [(js "free", n_zero)]).
  reflexivity.
Defined.

(** ** Expressions *)

Lemma primary_sort_split l :
  sort_by primary_cmp l = List.filter is_primary l ++ List.filter (fun e => negb (is_primary e)) l.
Proof.
  induction l as [|x l IH]; [done |]. cbn [sort_by]. rewrite IH. simpl. destruct (is_primary x) eqn:Ex; simpl.
  - destruct (List.filter is_primary l ++ _) as [|y r]; simpl; [done |].
    assert (H : (primary_cmp x y <= 0)%Z) by (unfold primary_cmp; rewrite Ex; by destruct (is_primary y)).
    by destruct (Z.leb_spec (primary_cmp x y) 0); [| lia].
  - assert (Hp : Forall (fun y => is_primary y = true) (List.filter is_primary l))
      by (apply Forall_forall; intros y Hy%list_elem_of_In%filter_In; tauto).
    clear IH. induction Hp as [|y r Hy _ IHr]; simpl.
    + destruct (List.filter _ l) as [|z r] eqn:E; simpl; [done |].
      assert (Hz : is_primary z = false).
      { assert (Hin : z ∈ List.filter (fun e => negb (is_primary e)) l) by (rewrite E; left).
        apply list_elem_of_In, filter_In in Hin as [_ Hin]. by apply negb_true_iff. }
      assert (H : primary_cmp x z = 0%Z) by (unfold primary_cmp; by rewrite Ex, Hz). by rewrite H.
    + assert (H : primary_cmp x y = 1%Z) by (unfold primary_cmp; by rewrite Ex, Hy). rewrite H. simpl. by rewrite IHr.
Qed.

Section Dynamic.
Context {F : NumberFormats} (cur : option StoredCurrency) (options : DynamicPriceOptions).

Lemma dynamic_entry_spec tier v e :
  e ∈ dynamic_entry cur options tier v <->
  exists value, bv_field v = Some (de_field e) /\ map_get (de_field e) (t_prices tier) = Some value /\
    isFinite value = true /\ n_leb value n_zero = false /\
    e = mkEntry (bv_key v) (de_field e) (bv_label v) (bv_shortLabel v) value (formatDynamicUnitPrice cur options value).
Proof.
  unfold dynamic_entry. destruct (bv_field v) as [f|]; [| split; [by intros ?%elem_of_nil | naive_solver]].
  destruct (map_get f (t_prices tier)) as [value|] eqn:E; simpl;
    [destruct (isFinite value) eqn:Ef; simpl; [destruct (n_leb value n_zero) eqn:El |] |];
    try (split; [by intros ?%elem_of_nil | intros (x & [= <-] & Hg & H1 & H2 & _); congruence]).
  rewrite list_elem_of_singleton. split; [intros ->; simpl; eauto 10 |].
  intros (x & [= Hf] & Hg & _ & _ & He). rewrite <- Hf in Hg, He. by simplify_eq.
Qed.

(** the summary of an expression shows the first tier: for each price variable that has a
    positive price there, one entry with that price, input and output first, and the
    entries are the primary ones followed by the others; an expression without tiers is
    marked as special. *)
Theorem dynamic_summary_spec m s (Hs : getDynamicPricingSummary cur options m = Found s) :
  ds_entries s = ds_primaryEntries s ++ ds_secondaryEntries s /\
  ds_tierCount s = length (ds_tiers s) /\ ds_tier s = head (ds_tiers s) /\
  (ds_isSpecialExpression s = true -> ds_tiers s = [] /\ ds_entries s = []) /\
  (forall e, e ∈ ds_entries s <-> exists tier v, ds_tier s = Some tier /\ v ∈ BILLING_PRICING_VARS /\
     e ∈ dynamic_entry cur options tier v).
Proof.
  unfold getDynamicPricingSummary in Hs. destruct (isDynamicPricingModel m); [| done].
  destruct (getDynamicPricingTiers m) as [tiers| |]; [| done..].
  destruct (hasDynamicRequestRules m) as [rules| |]; [| done..]. injection Hs as <-. cbn -[getDynamicPriceEntries BILLING_PRICING_VARS dynamic_entry].
  split; [| split; [done | split; [done | split]]].
  - destruct (head tiers) as [t|]; [| done]. unfold getDynamicPriceEntries.
    rewrite !sort_by_filter; [apply primary_sort_split | |]; unfold primary_cmp; intros x y.
    + intros Hx%negb_true_iff Hy%negb_true_iff. by rewrite Hx, Hy.
    + intros Hx Hy. by rewrite Hx, Hy.
  - intros [_ H]%andb_true_iff. by destruct tiers.
  - intros e. destruct (head tiers) as [t|]; unfold getDynamicPriceEntries; [| split; [by intros ?%elem_of_nil | naive_solver]].
    rewrite elem_of_sort_by, list_elem_of_In, in_flat_map. split.
    + intros (v & Hv & He). exists t, v. by rewrite !list_elem_of_In.
    + intros (t' & v & [= <-] & Hv & He). exists v. by rewrite <- !list_elem_of_In.
Qed.
End Dynamic.

(** ** Texts of prices *)

(** a price that the runtime writes with a decimal comma after the symbol is shown without
    the comma: 0,5 becomes 5. *)
Theorem comma_price_misread :
  stripTrailingZeros (js "€ 0,5") = js "€ 5" /\ stripTrailingZeros (js "$1,234.50") = js "$1234.5".
Proof. vm_compute. split; reflexivity. Qed.

(** when quota is displayed as tokens, so is the price per million tokens of a model. *)
Theorem model_price_as_tokens {F : NumberFormats} :
  let cur := Some (stored_of (mkCurrency true (js "TOKENS") (n_of_Z 500000) (n_of_Z 1) (js "¤") (n_of_Z 1))) in
  formatPrice cur (mkView false (n_of_Z 1) (n_of_Z 1)) (demo_model "m" 0 "1" None "" "") PInput UnitM = js "1000000".
Proof. vm_compute. reflexivity. Qed.

(** a group ratio below one half of a thousandth is shown as zero. *)
Theorem small_ratio_shown_zero :
  formatGroupRatio (Some (lit "0.0004")) = Some (js "x0") /\ formatGroupRatio (Some (lit "0.25")) = Some (js "x0.25").
Proof. vm_compute. split; reflexivity. Qed.

Definition demo_formats : NumberFormats := {| intl_format := fun _ _ n => num_to_str n; pow10 := fun d => num_of_dec false 1 d |}.

Definition demo_dynamic : PricingModel :=
  mkModel 2 (Some (js "claude")) None None None None None 0 n_zero n_zero None None None None None None None None None None None
    (Some (js "tiered_expr")) (Some (jsq "tier('base', cr * 0.3 + p * 3 + c * 15)")).

Definition demo_options : DynamicPriceOptions := mkDynOpts UnitM None None None None.

Definition demo_summary : DynamicPricingSummary :=
  Eval vm_compute in
  match @getDynamicPricingSummary demo_formats None demo_options demo_dynamic with
  | Found s => s
  | _ => mkSummary [] None 0 false false [] [] [] []
  end.

Lemma dynamic_summary_spec_witness :
  ds_entries demo_summary = ds_primaryEntries demo_summary ++ ds_secondaryEntries demo_summary /\
  map de_shortLabel (ds_entries demo_summary) = [js "Input"; js "Output"; js "Cache Read"].
Proof.
  split; [| vm_compute; reflexivity].
  apply (@dynamic_summary_spec demo_formats None demo_options demo_dynamic demo_summary).
  vm_compute. reflexivity.
Defined.
