(* ===== verification/Pagination.v ===== *)
(** * Pages

    [getPageNumbers] of [lib/utils.ts], the buttons of [components/pagination-controls.tsx]
    and the grid of model cards that uses them ([features/pricing/components/model-card-grid.tsx]):
    the page numbers that are shown, the pages the buttons lead to, and the state of the grid
    as a step relation over clicks and changes of the list. *)
From S2P Require Import Prelude.
Local Open Scope Z_scope.

(** ** Page numbers *)

Inductive PageItem := Page (n : Z) | Dots.

Definition maxVisiblePages : Z := 4.

Definition getPageNumbers (currentPage totalPages : Z) : list PageItem :=
  if totalPages <=? maxVisiblePages then map (fun i => Page (Z.of_nat i)) (seq 1 (Z.to_nat totalPages))
  else if currentPage <=? 2 then [Page 1; Page 2; Dots; Page totalPages]
  else if totalPages - 1 <=? currentPage then [Page 1; Dots; Page (totalPages - 1); Page totalPages]
  else [Page 1; Dots; Page currentPage; Dots; Page totalPages].

(** ** Controls *)

Record Controls := mkControls { pc_pageIndex : Z; pc_pageCount : Z }.

Definition pageSizeOptions : list Z := [10; 20; 30; 50; 100].

Definition totalPages (c : Controls) : Z := Z.max 0 (pc_pageCount c).
Definition lastPageIndex (c : Controls) : Z := Z.max 0 (totalPages c - 1).
Definition pageIndex (c : Controls) : Z := Z.min (Z.max 0 (pc_pageIndex c)) (lastPageIndex c).
Definition currentPage (c : Controls) : Z := if totalPages c =? 0 then 0 else pageIndex c + 1.
Definition pageNumbers (c : Controls) : list PageItem := getPageNumbers (currentPage c) (totalPages c).
Definition canPreviousPage (c : Controls) : bool := 0 <? pageIndex c.
Definition canNextPage (c : Controls) : bool := (0 <? totalPages c) && (pageIndex c <? lastPageIndex c).

(** The pages that enabled buttons lead to: first and previous, the numbers, next and last. *)
Definition number_targets (l : list PageItem) : list Z :=
  flat_map (fun i => match i with Page n => [n - 1] | Dots => [] end) l.
Definition button_targets (c : Controls) : list Z :=
  (if canPreviousPage c then [0; pageIndex c - 1] else []) ++ number_targets (pageNumbers c) ++
  (if canNextPage c then [pageIndex c + 1; lastPageIndex c] else []).

(** ** The grid *)

Section Grid.
Context {A : Type}.

(** The props and the state, with the number of pages the effect saw last. *)
Record Grid := mkGrid { g_models : list A; g_pageIndex : Z; g_pageSize : Z; g_seen : Z }.

Definition DEFAULT_PRICING_PAGE_SIZE : Z := 20.

(** [Math.max(1, Math.ceil(models.length / pageSize))]. *)
Definition grid_pages (models : list A) (pageSize : Z) : Z :=
  Z.max 1 ((Z.of_nat (length models) + pageSize - 1) / pageSize).

(** The effect runs after a render in which the number of pages changed. *)
Definition grid_effect (g : Grid) : Grid :=
  let total := grid_pages (g_models g) (g_pageSize g) in
  if total =? g_seen g then g
  else mkGrid (g_models g) (Z.min (g_pageIndex g) (total - 1)) (g_pageSize g) total.

(** The first render runs the effect. *)
Definition open_grid (models : list A) : Grid :=
  mkGrid models 0 DEFAULT_PRICING_PAGE_SIZE (grid_pages models DEFAULT_PRICING_PAGE_SIZE).

(** [models.slice(start, start + pageSize)]. *)
Definition page_of (models : list A) (index size : Z) : list A :=
  take (Z.to_nat size) (drop (Z.to_nat (index * size)) models).
Definition pagedModels (g : Grid) : list A := page_of (g_models g) (g_pageIndex g) (g_pageSize g).

Definition grid_controls (g : Grid) : Controls := mkControls (g_pageIndex g) (grid_pages (g_models g) (g_pageSize g)).

Definition set_page (i : Z) (g : Grid) : Grid := mkGrid (g_models g) i (g_pageSize g) (g_seen g).
Definition set_size (s : Z) (g : Grid) : Grid := mkGrid (g_models g) 0 s (g_seen g).
Definition set_models (l : list A) (g : Grid) : Grid := mkGrid l (g_pageIndex g) (g_pageSize g) (g_seen g).

(** A click on a button, a new page size, a new list; then the render and its effect. *)
Inductive grid_step : Grid -> Grid -> Prop :=
| step_page g i : i ∈ button_targets (grid_controls g) -> grid_step g (grid_effect (set_page i g))
| step_size g s : s ∈ pageSizeOptions -> grid_step g (grid_effect (set_size s g))
| step_models g l : grid_step g (grid_effect (set_models l g)).

Definition grid_reachable (g : Grid) : Prop := exists l, rtc grid_step (open_grid l) g.
End Grid.

(** ** Theorems *)

(** The numbers of the items. *)
Definition numbers (l : list PageItem) : list Z := flat_map (fun i => match i with Page n => [n] | Dots => [] end) l.

Lemma numbers_seq a n : numbers (map (fun i => Page (Z.of_nat i)) (seq a n)) = map Z.of_nat (seq a n).
Proof. revert a. induction n as [|n IH]; intros a; simpl; [done |]. f_equal. apply IH. Qed.

Lemma seq_sorted a n : StronglySorted Z.lt (map Z.of_nat (seq a n)).
Proof.
  revert a. induction n as [|n IH]; intros a; simpl; constructor; [apply IH |].
  apply Forall_forall. intros x Hx. apply list_elem_of_In, in_map_iff in Hx as (i & <- & Hi). apply in_seq in Hi. lia.
Qed.

(** Order and membership in a list of known shape. *)
Ltac in_order :=
  cbn [numbers flat_map app];
  repeat first [apply SSorted_nil | apply SSorted_cons | apply Forall_nil_2 | apply Forall_cons_2 | lia].
Ltac one_of_them :=
  cbn [numbers flat_map app]; rewrite !elem_of_cons;
  match goal with
  | |- ?a = ?b \/ ?c = ?d \/ ?e = ?f \/ _ => assert (a = b \/ c = d \/ e = f) by lia; tauto
  | |- ?a = ?b \/ ?c = ?d \/ ?e = ?f \/ ?g = ?h \/ _ => assert (a = b \/ c = d \/ e = f \/ g = h) by lia; tauto
  end.

Lemma numbers_spec cur total :
  1 <= cur <= total ->
  StronglySorted Z.lt (numbers (getPageNumbers cur total)) /\
  Forall (fun n => 1 <= n <= total) (numbers (getPageNumbers cur total)) /\
  1 ∈ numbers (getPageNumbers cur total) /\ cur ∈ numbers (getPageNumbers cur total) /\
  total ∈ numbers (getPageNumbers cur total) /\ (length (getPageNumbers cur total) <= 5)%nat.
Proof.
  intros H. unfold getPageNumbers, maxVisiblePages. destruct (Z.leb_spec total 4) as [Hs|Hl].
  - rewrite numbers_seq, length_map, length_seq.
    assert (Hin : forall n, 1 <= n <= total -> n ∈ map Z.of_nat (seq 1 (Z.to_nat total))).
    { intros n Hn. apply list_elem_of_In, in_map_iff. exists (Z.to_nat n). rewrite in_seq. lia. }
    split; [apply seq_sorted |]. split; [| split; [apply Hin; lia | split; [apply Hin; lia | split; [apply Hin; lia | lia]]]].
    apply Forall_forall. intros x Hx. apply list_elem_of_In, in_map_iff in Hx as (i & <- & Hi). apply in_seq in Hi. lia.
  - destruct (Z.leb_spec cur 2); [| destruct (Z.leb_spec (total - 1) cur)];
      (split; [in_order |]); (split; [in_order |]); (split; [one_of_them |]); (split; [one_of_them |]);
      (split; [one_of_them | simpl; lia]).
Qed.

(** for a current page between one and the total the page numbers are increasing and
    within the range, contain the first, the current and the last page, and have at
    most five items. *)
Theorem page_numbers_spec cur total (H : 1 <= cur <= total) :
  StronglySorted Z.lt (numbers (getPageNumbers cur total)) /\
  Forall (fun n => 1 <= n <= total) (numbers (getPageNumbers cur total)) /\
  1 ∈ numbers (getPageNumbers cur total) /\ cur ∈ numbers (getPageNumbers cur total) /\
  total ∈ numbers (getPageNumbers cur total) /\ (length (getPageNumbers cur total) <= 5)%nat.
Proof. by apply numbers_spec. Qed.

Lemma page_numbers_spec_witness : 7 ∈ numbers (getPageNumbers 7 12) /\ getPageNumbers 7 12 = [Page 1; Dots; Page 7; Dots; Page 12].
Proof. split; [apply page_numbers_spec; lia | reflexivity]. Defined.

Lemma number_targets_eq l : number_targets l = map (fun n => n - 1) (numbers l).
Proof. induction l as [|[n|] l IH]; simpl; congruence. Qed.

(** Every button leads to a page that exists. *)
Lemma button_in_range c i : 0 < pc_pageCount c -> i ∈ button_targets c -> 0 <= i < pc_pageCount c.
Proof.
  intros Hc. unfold button_targets, canPreviousPage, canNextPage, pageNumbers.
  assert (Ht : totalPages c = pc_pageCount c) by (unfold totalPages; lia).
  assert (Hi : 0 <= pageIndex c < pc_pageCount c) by (unfold pageIndex, lastPageIndex; lia).
  assert (Hcur : currentPage c = pageIndex c + 1) by (unfold currentPage; rewrite Ht; destruct (Z.eqb_spec (pc_pageCount c) 0); lia).
  destruct (numbers_spec (currentPage c) (totalPages c) ltac:(lia)) as (_ & Hr & _).
  assert (Hl : lastPageIndex c = pc_pageCount c - 1) by (unfold lastPageIndex; lia).
  rewrite !elem_of_app. intros [H|[H|H]].
  - destruct (Z.ltb_spec 0 (pageIndex c)); [| by apply elem_of_nil in H]. rewrite !elem_of_cons in H. destruct H as [->|[->|H%elem_of_nil]]; [lia | lia | done].
  - rewrite number_targets_eq in H. apply list_elem_of_In, in_map_iff in H as (n & <- & Hn).
    rewrite Forall_forall in Hr. specialize (Hr n). rewrite list_elem_of_In in Hr. specialize (Hr Hn). lia.
  - destruct ((0 <? totalPages c) && (pageIndex c <? lastPageIndex c)) eqn:E; [| by apply elem_of_nil in H].
    rewrite !elem_of_cons in H. destruct H as [->|[->|H%elem_of_nil]]; [lia | lia | done].
Qed.

Section GridProps.
Context {A : Type}.
Implicit Types (g : @Grid A) (l : list A).

Definition grid_ok (g : @Grid A) : Prop :=
  0 < g_pageSize g /\ g_seen g = grid_pages (g_models g) (g_pageSize g) /\ 0 <= g_pageIndex g < g_seen g.

Lemma grid_effect_ok g : 0 < g_pageSize g -> 0 <= g_pageIndex g ->
  (grid_pages (g_models g) (g_pageSize g) = g_seen g -> g_pageIndex g < g_seen g) -> grid_ok (grid_effect g).
Proof.
  intros Hs Hi Hlt. unfold grid_effect, grid_ok. assert (1 <= grid_pages (g_models g) (g_pageSize g)) by (unfold grid_pages; lia).
  destruct (Z.eqb_spec (grid_pages (g_models g) (g_pageSize g)) (g_seen g)) as [E|E]; simpl; [specialize (Hlt E); lia |]. lia.
Qed.

Lemma grid_step_ok g g' : grid_step g g' -> grid_ok g -> grid_ok g'.
Proof.
  intros [g0 i Hi|g0 s Hs|g0 l] (Hp & Hseen & Hr); apply grid_effect_ok; simpl; try done; try lia.
  - apply button_in_range in Hi; simpl in *; lia.
  - apply button_in_range in Hi; simpl in *; lia.
  - unfold pageSizeOptions in Hs. rewrite !elem_of_cons in Hs. destruct Hs as [->|[->|[->|[->|[->|Hs%elem_of_nil]]]]]; done.
Qed.

Lemma grid_reachable_ok g : grid_reachable g -> grid_ok g.
Proof.
  intros [l H]. assert (H0 : grid_ok (open_grid l)) by (unfold grid_ok; simpl; unfold DEFAULT_PRICING_PAGE_SIZE, grid_pages; lia).
  induction H as [|x y z Hs _ IH]; [done |]. apply IH. by eapply grid_step_ok.
Qed.

Lemma page_nonempty l index size :
  l <> [] -> 0 < size -> 0 <= index < grid_pages l size -> page_of l index size <> [].
Proof.
  intros Hl Hs Hi E. apply (f_equal length) in E. unfold page_of in E. rewrite length_take, length_drop in E.
  destruct l as [|x l]; [done |]. simpl length in *. unfold grid_pages in Hi. simpl length in Hi.
  set (n := Z.of_nat (S (length l))) in *. assert (0 < n) by lia.
  assert (index * size < n); [| lia].
  assert (Hd : index <= (n + size - 1) / size - 1) by (assert (1 <= (n + size - 1) / size) by (apply Z.div_le_lower_bound; lia); lia).
  pose proof (Z.mul_div_le (n + size - 1) size Hs). nia.
Qed.

(** whatever is clicked and whenever the list changes, the grid is on a page that exists:
    after the effect of the last change its index is within the pages, and unless the
    list is empty the page shows models. *)
Theorem grid_page_exists g (Hg : grid_reachable g) :
  0 <= g_pageIndex g < grid_pages (g_models g) (g_pageSize g) /\ (g_models g <> [] -> pagedModels g <> []) /\
  Z.of_nat (length (pagedModels g)) <= g_pageSize g.
Proof.
  apply grid_reachable_ok in Hg as (Hp & Hs & Hi). rewrite Hs in Hi. split; [done |]. split.
  - intros Hne. by apply page_nonempty.
  - unfold pagedModels, page_of. rewrite length_take. lia.
Qed.

Lemma pages_concat l size n :
  0 < size -> concat (map (fun i => page_of l (Z.of_nat i) size) (seq 0 n)) = take (n * Z.to_nat size) l.
Proof.
  intros Hs. induction n as [|n IH]; [done |]. rewrite seq_S, map_app, concat_app, IH. simpl. rewrite app_nil_r.
  unfold page_of. rewrite Z2Nat.inj_mul, Nat2Z.id by lia.
  rewrite <- (take_drop (n * Z.to_nat size) (take (Z.to_nat size + n * Z.to_nat size) l)).
  rewrite take_take, Nat.min_l by lia. f_equal. rewrite skipn_firstn_comm. f_equal. lia.
Qed.

(** the pages of a list, one after the other, are the list: every model is on exactly one
    page. *)
Theorem pages_cover_list l size (Hs : 0 < size) :
  concat (map (fun i => page_of l (Z.of_nat i) size) (seq 0 (Z.to_nat (grid_pages l size)))) = l.
Proof.
  rewrite pages_concat by done. apply take_ge. unfold grid_pages.
  pose proof (Z.mul_succ_div_gt (Z.of_nat (length l) + size - 1) size Hs). nia.
Qed.
End GridProps.

Lemma grid_reached : grid_reachable (grid_effect (set_models [7%nat] (grid_effect (set_page 1 (open_grid (seq 0 30)))))).
Proof.
  exists (seq 0 30).
  apply rtc_l with (grid_effect (set_page 1 (open_grid (seq 0 30)))).
  - apply step_page. vm_compute. right. left.
  - apply rtc_l with (grid_effect (set_models [7%nat] (grid_effect (set_page 1 (open_grid (seq 0 30)))))); [apply step_models | apply rtc_refl].
Defined.

Lemma grid_page_exists_witness :
  pagedModels (grid_effect (set_models [7%nat] (grid_effect (set_page 1 (open_grid (seq 0 30)))))) <> [].
Proof. apply (grid_page_exists _ grid_reached). vm_compute. done. Defined.

Lemma pages_cover_list_witness : concat (map (fun i => page_of (seq 0 45) (Z.of_nat i) 20) (seq 0 3)) = seq 0 45.
Proof. apply (pages_cover_list (seq 0 45) 20). lia. Defined.
