(* ===== verification/NavModules.v ===== *)
(** * Navigation modules

    Which entries of the top bar and of the side bar exist.  The administrator's choices are
    two settings, each a JSON text: [HeaderNavModules] and [SidebarModulesAdmin].  Several parts
    read them: the settings page ([features/system-settings/maintenance/config.ts] with
    [header-navigation-section.tsx]), the pages and route guards ([lib/nav-modules.ts]), the top
    bar ([hooks/use-top-nav-links.ts]) and the side bar ([hooks/use-sidebar-config.ts]). *)
From S2P Require Import Prelude Number Regex Json JsonObject.

Record ModuleAccess := mkAccess { enabled : bool; requireAuth : bool }.

(** The values of the header settings. *)
Inductive NavValue := NavOn (b : bool) | NavAccess (a : ModuleAccess).
Abbreviation HeaderNavModules := (list (str * NavValue)).

Definition nav_key_enabled : str := js "enabled".
Definition nav_key_auth : str := js "requireAuth".
Definition nav_home : str := js "home".
Definition nav_console : str := js "console".
Definition nav_pricing : str := js "pricing".
Definition nav_rankings : str := js "rankings".
Definition nav_docs : str := js "docs".
Definition nav_about : str := js "about".

Definition DEFAULT_HEADER_NAV_MODULES : HeaderNavModules :=
  [(nav_home, NavOn true); (nav_console, NavOn true); (nav_pricing, NavAccess (mkAccess true false));
   (nav_rankings, NavAccess (mkAccess true false)); (nav_docs, NavOn true); (nav_about, NavOn true)].

Section Header.
Context {C : CaseMap}.

(** ** Reading by pages and guards *)

Definition text_boolean (s : str) : option bool :=
  let normalized := toLowerCase (trim s) in
  if str_eqb normalized (js "true") || str_eqb normalized (js "1") then Some true
  else if str_eqb normalized (js "false") || str_eqb normalized (js "0") then Some false
  else None.

Definition parseHeaderNavBoolean (raw : option json) (fallback : bool) : bool :=
  match raw with
  | Some (JBool b) => b
  | Some (JNum n) => if n_eqb n (n_of_Z 1) then true else if n_eqb n n_zero then false else fallback
  | Some (JStr s) => default fallback (text_boolean s)
  | _ => fallback
  end.

Definition parseAccess (raw : json) (fallback : ModuleAccess) : ModuleAccess :=
  match raw with
  | JBool _ | JNum _ | JStr _ => mkAccess (parseHeaderNavBoolean (Some raw) (enabled fallback)) (requireAuth fallback)
  | JObj _ | JArr _ => mkAccess (parseHeaderNavBoolean (member raw nav_key_enabled) (enabled fallback))
                         (parseHeaderNavBoolean (member raw nav_key_auth) (requireAuth fallback))
  | JNull => fallback
  end.

Definition parseHeaderNavRecord (raw : option json) : option json :=
  match raw with
  | None => None
  | Some v =>
      if negb (j_truthy v) || negb (truthy (trim (to_String v))) then None
      else match v with
           | JObj _ | JArr _ => Some v
           | _ => JSON_parse (to_String v)
           end
  end.

Definition access_of (v : option NavValue) (d : ModuleAccess) : ModuleAccess :=
  match v with Some (NavAccess a) => a | _ => d end.
Definition default_access : ModuleAccess := mkAccess true false.

Definition is_scalar (v : json) : bool := match v with JBool _ | JNum _ | JStr _ => true | _ => false end.

(** What an entry of the setting puts into the result; [None] when it is passed over. *)
Definition nav_value (key : str) (value : json) (old : option NavValue) : option NavValue :=
  if str_eqb key nav_pricing || str_eqb key nav_rankings then Some (NavAccess (parseAccess value (access_of old default_access)))
  else match old with
       | Some (NavOn b) => Some (NavOn (parseHeaderNavBoolean (Some value) b))
       | _ => if is_scalar value then Some (NavOn (parseHeaderNavBoolean (Some value) true)) else None
       end.

Definition parseHeaderNavModules (raw : option json) : HeaderNavModules :=
  match parseHeaderNavRecord raw with
  | Some parsed =>
      if j_truthy parsed then foldl (put_entry nav_value) DEFAULT_HEADER_NAV_MODULES (default [] (entries_of parsed))
      else DEFAULT_HEADER_NAV_MODULES
  | None => DEFAULT_HEADER_NAV_MODULES
  end.

(** The status is an object; [None] when there is none. *)
Definition HEADER_KEY : str := js "HeaderNavModules".
Definition parseHeaderNavModulesFromStatus (status : option json) : HeaderNavModules :=
  parseHeaderNavModules (status ≫= fun s => member s HEADER_KEY).

Inductive HeaderNavModule := MRankings | MPricing.
Definition module_key (m : HeaderNavModule) : str := match m with MRankings => nav_rankings | MPricing => nav_pricing end.

Definition getModuleAccessFromStatus (status : option json) (m : HeaderNavModule) : ModuleAccess :=
  access_of (map_get (module_key m) (parseHeaderNavModulesFromStatus status)) default_access.

(** The cached status: the text under [status] in the local storage, [None] without one or
    without storage. *)
Definition getCachedStatus (storage : option str) : option json :=
  match storage with
  | Some raw => if truthy raw then
                  match JSON_parse raw with Some v => if j_truthy v then Some v else None | None => None end
                else None
  | None => None
  end.

(** [full] says that the storage refuses the text. *)
Definition cacheStatus (full : bool) (status : option json) (storage : option str) : option str :=
  match status with
  | Some v => if j_truthy v && negb full then Some (JSON_stringify v) else storage
  | None => storage
  end.

Definition getModuleAccess (storage : option str) (m : HeaderNavModule) : ModuleAccess :=
  getModuleAccessFromStatus (getCachedStatus storage) m.

(** [answer] is the result of the request, [None] when it fails; returns the access and the
    storage afterwards. *)
Definition getFreshModuleAccess (full : bool) (answer : option (option json)) (m : HeaderNavModule)
    (storage : option str) : ModuleAccess * option str :=
  match answer with
  | Some status => (getModuleAccessFromStatus status m, cacheStatus full status storage)
  | None => (mkAccess false true, storage)
  end.

(** The guard of the public pages: where a visitor is sent. *)
Inductive Guard := Allow | ToHome | ToSignIn.
Definition page_guard (a : ModuleAccess) (signedIn : bool) : Guard :=
  if negb (enabled a) then ToHome else if requireAuth a && negb signedIn then ToSignIn else Allow.

(** ** The top bar *)

Record TopNavLink := mkLink { tl_href : str; tl_requiresAuth : bool; tl_external : bool }.

(** [modules?.key !== false]. *)
Definition not_false (v : option NavValue) : bool := match v with Some (NavOn false) => false | _ => true end.

Definition access_link (v : option NavValue) (href : str) (isAuthed : bool) : list TopNavLink :=
  match v with
  | Some (NavAccess a) => if enabled a then [mkLink href (requireAuth a && negb isAuthed) false] else []
  | _ => []
  end.

Definition topNavLinks (modules : HeaderNavModules) (docsLink : option str) (isAuthed : bool) : list TopNavLink :=
  (if not_false (map_get nav_home modules) then [mkLink (js "/") false false] else []) ++
  (if not_false (map_get nav_console modules) then [mkLink (js "/dashboard") false false] else []) ++
  access_link (map_get nav_pricing modules) (js "/pricing") isAuthed ++
  access_link (map_get nav_rankings modules) (js "/rankings") isAuthed ++
  (if not_false (map_get nav_docs modules) then
     [match docsLink with Some l => if truthy l then mkLink l false true else mkLink (js "/docs") false false
      | None => mkLink (js "/docs") false false end] else []) ++
  (if not_false (map_get nav_about modules) then [mkLink (js "/about") false false] else []).

(** ** Reading and writing by the settings page *)

Definition toBoolean (value : option json) (fallback : bool) : bool :=
  match value with
  | Some (JBool b) => b
  | Some (JNum n) => n_eqb n (n_of_Z 1)
  | Some (JStr s) => default fallback (text_boolean s)
  | _ => fallback
  end.

Definition parseAccessModule (raw : json) (fallback : ModuleAccess) : ModuleAccess :=
  match raw with
  | JBool _ | JNum _ | JStr _ => mkAccess (toBoolean (Some raw) (enabled fallback)) (requireAuth fallback)
  | JObj _ | JArr _ => mkAccess (toBoolean (member raw nav_key_enabled) (enabled fallback))
                         (toBoolean (member raw nav_key_auth) (requireAuth fallback))
  | JNull => fallback
  end.

(** [Boolean(base[key])]. *)
Definition base_on (key : str) : bool :=
  match map_get key DEFAULT_HEADER_NAV_MODULES with Some (NavOn b) => b | Some (NavAccess _) => true | None => false end.

Definition edited_nav_value (key : str) (raw : json) (old : option NavValue) : option NavValue :=
  if str_eqb key nav_pricing || str_eqb key nav_rankings then
    Some (NavAccess (parseAccessModule raw (access_of (map_get key DEFAULT_HEADER_NAV_MODULES) default_access)))
  else match raw with
       | JBool b => Some (NavOn b)
       | JStr _ | JNum _ => Some (NavOn (toBoolean (Some raw) (base_on key)))
       | _ => None
       end.

Definition parseHeaderNavSetting (value : option str) : HeaderNavModules :=
  match value with
  | Some text =>
      if truthy text then
        match JSON_parse text ≫= entries_of with
        | Some entries => foldl (put_entry edited_nav_value) DEFAULT_HEADER_NAV_MODULES entries
        | None => DEFAULT_HEADER_NAV_MODULES
        end
      else DEFAULT_HEADER_NAV_MODULES
  | None => DEFAULT_HEADER_NAV_MODULES
  end.

Definition access_json (a : ModuleAccess) : json :=
  JObj [(nav_key_enabled, JBool (enabled a)); (nav_key_auth, JBool (requireAuth a))].
Definition nav_json (v : NavValue) : json := match v with NavOn b => JBool b | NavAccess a => access_json a end.
Definition serializeHeaderNavModules (config : HeaderNavModules) : str :=
  JSON_stringify (JObj (map (fun '(k, v) => (k, nav_json v)) config)).

Record HeaderNavFormValues := mkHeaderForm {
  hf_home : bool; hf_console : bool; hf_pricing : ModuleAccess; hf_rankings : ModuleAccess; hf_docs : bool; hf_about : bool }.

(** A value that is not a boolean counts as set. *)
Definition form_switch (config : HeaderNavModules) (key : str) : bool :=
  match map_get key config with Some (NavOn b) => b | Some (NavAccess _) => true | None => true end.

Definition toFormValues (config : HeaderNavModules) : HeaderNavFormValues :=
  mkHeaderForm (form_switch config nav_home) (form_switch config nav_console)
    (access_of (map_get nav_pricing config) default_access) (access_of (map_get nav_rankings config) default_access)
    (form_switch config nav_docs) (form_switch config nav_about).

(** The payload: the old configuration with the values of the form. *)
Definition form_entries (v : HeaderNavFormValues) : HeaderNavModules :=
  [(nav_home, NavOn (hf_home v)); (nav_console, NavOn (hf_console v)); (nav_docs, NavOn (hf_docs v));
   (nav_about, NavOn (hf_about v)); (nav_pricing, NavAccess (hf_pricing v)); (nav_rankings, NavAccess (hf_rankings v))].
Definition header_payload (config : HeaderNavModules) (v : HeaderNavFormValues) : HeaderNavModules :=
  foldl (fun r e => obj_set (fst e) (snd e) r) config (form_entries v).

(** The text that is sent; nothing when it is [initialSerialized], which the page makes from the stored
    text by parsing and serializing it ([section-registry.tsx]): then the stored text stays as it is. *)
Definition submitHeader (config : HeaderNavModules) (initialSerialized : str) (v : HeaderNavFormValues) : option str :=
  let serialized := serializeHeaderNavModules (header_payload config v) in
  if str_eqb serialized initialSerialized then None else Some serialized.
End Header.

(** ** The side bar *)

Section Sidebar.
Context {C : CaseMap}.

Abbreviation SidebarSection := (list (str * bool)).
Abbreviation SidebarModulesAdminConfig := (list (str * SidebarSection)).

(** All modules of the default configuration are on. *)
Definition sidebar_section (name : str) (modules : list str) : str * SidebarSection :=
  (name, (nav_key_enabled, true) :: map (fun m => (m, true)) modules).

Definition SIDEBAR_MODULES_DEFAULT : SidebarModulesAdminConfig :=
  [sidebar_section (js "chat") [js "playground"; js "chat"];
   sidebar_section (js "console") [js "detail"; js "token"; js "log"; js "midjourney"; js "task"];
   sidebar_section (js "personal") [js "topup"; js "personal"];
   sidebar_section (js "admin") [js "channel"; js "operational_costs"; js "token_sales"; js "models"; js "redemption";
     js "user"; js "setting"; js "subscription"]].

Definition is_object (v : json) : bool := match v with JObj _ | JArr _ => true | _ => false end.

(** One section as the settings page reads it. *)
Definition read_section (defaults : SidebarModulesAdminConfig) (sectionKey : str) (raw : json) : SidebarSection :=
  let defaultSection := default [(nav_key_enabled, true)] (map_get sectionKey defaults) in
  foldl (put_entry (fun moduleKey value _ =>
    if str_eqb moduleKey nav_key_enabled then None
    else Some (toBoolean (Some value) (default true (map_get moduleKey defaultSection)))))
    [(nav_key_enabled, toBoolean (member raw nav_key_enabled) (default true (map_get nav_key_enabled defaultSection)))]
    (default [] (entries_of raw)).

Definition read_sections (defaults : SidebarModulesAdminConfig) (entries : list (str * json)) : SidebarModulesAdminConfig :=
  foldl (put_entry (fun sectionKey raw _ => if is_object raw then Some (read_section defaults sectionKey raw) else None)) [] entries.

(** Missing sections and modules get their defaults. *)
Definition add_missing (section config : SidebarSection) : SidebarSection :=
  foldl (put_entry (fun _ value old => match old with Some _ => None | None => Some value end)) section config.
Definition merge_sections (defaults result : SidebarModulesAdminConfig) : SidebarModulesAdminConfig :=
  foldl (put_entry (fun _ config old => Some (match old with Some section => add_missing section config | None => config end)))
    result defaults.

Definition parseSidebarModulesAdmin (value : option str) : SidebarModulesAdminConfig :=
  let defaults := SIDEBAR_MODULES_DEFAULT in
  match value with
  | Some text =>
      if negb (truthy text) || negb (truthy (trim text)) then defaults
      else match JSON_parse text ≫= entries_of with
           | Some entries => merge_sections defaults (read_sections defaults entries)
           | None => defaults
           end
  | None => defaults
  end.

Definition section_json (s : SidebarSection) : json := JObj (map (fun '(k, v) => (k, JBool v)) s).
Definition serializeSidebarModulesAdmin (config : SidebarModulesAdminConfig) : str :=
  JSON_stringify (JObj (map (fun '(k, v) => (k, section_json v)) config)).

(** The text that is sent; nothing when it is the stored text, parsed and serialized again, as for the
    header: then the stored text stays as it is. *)
Definition submitSidebar (values : SidebarModulesAdminConfig) (initialSerialized : str) : option str :=
  let serialized := serializeSidebarModulesAdmin values in
  if str_eqb serialized initialSerialized then None else Some serialized.

(** The side bar reads the values as they are. *)
Definition default_json : list (str * json) := map (fun '(k, v) => (k, section_json v)) SIDEBAR_MODULES_DEFAULT.

(** [{ ...a, ...b }] of objects. *)
Definition spread_objects (a b : list (str * json)) : list (str * json) :=
  foldl (fun r e => obj_set (fst e) (snd e) r) a b.
Definition spreadable (v : json) : list (str * json) := default [] (entries_of v).

(** One section of the defaults: it fills up the section there is, or becomes it. *)
Definition merge_default (section : json) (old : option json) : json :=
  let existing := default JNull old in
  if j_truthy existing then JObj (spread_objects (spreadable section) (spreadable existing)) else section.
Definition mergeWithDefaultSidebarModules (config : json) : list (str * json) :=
  foldl (put_entry (fun _ section old => Some (merge_default section old))) (spreadable config) default_json.

Definition parseSidebarConfig (value : option str) : list (str * json) :=
  match value with
  | Some text =>
      if negb (truthy text) || negb (truthy (trim text)) then default_json
      else match JSON_parse text with
           | Some parsed => mergeWithDefaultSidebarModules parsed
           | None => default_json
           end
  | None => default_json
  end.

Definition parseUserSidebarConfig (value : option str) : option json :=
  match value with
  | Some text =>
      if negb (truthy text) || negb (truthy (trim text)) then None
      else match JSON_parse text with
           | Some parsed => if is_object parsed then Some parsed else None
           | None => None
           end
  | None => None
  end.

Definition URL_TO_CONFIG_MAP : list (str * (str * str)) :=
  let to section module url := (js url, (js section, js module)) in
  [to "chat" "playground" "/playground"; to "console" "detail" "/dashboard"; to "console" "detail" "/dashboard/overview";
   to "console" "detail" "/dashboard/models"; to "console" "detail" "/dashboard/users"; to "console" "token" "/keys";
   to "console" "log" "/usage-logs"; to "console" "log" "/usage-logs/common"; to "console" "midjourney" "/usage-logs/drawing";
   to "console" "task" "/usage-logs/task"; to "personal" "topup" "/wallet"; to "personal" "personal" "/profile";
   to "admin" "channel" "/channels"; to "admin" "operational_costs" "/operational-costs"; to "admin" "token_sales" "/token-sales";
   to "admin" "token_sales" "/token-sales/keys"; to "admin" "token_sales" "/token-sales/transactions";
   to "admin" "token_sales" "/token-sales/overview"; to "admin" "models" "/models"; to "admin" "models" "/models/metadata";
   to "admin" "models" "/models/deployments"; to "admin" "user" "/users"; to "admin" "redemption" "/redemption-codes";
   to "admin" "subscription" "/subscriptions"; to "admin" "setting" "/system-settings"; to "admin" "setting" "/system-settings/site"]%string.

(** [config[section]] and its members; a section that is not truthy allows nothing. *)
Definition section_of (config : list (str * json)) (section : str) : json := default JNull (map_get section config).
Definition is_true (v : option json) : bool := match v with Some (JBool true) => true | _ => false end.
Definition is_false (v : option json) : bool := match v with Some (JBool false) => true | _ => false end.

Definition admin_allows (adminConfig : list (str * json)) (section module : str) : bool :=
  let s := section_of adminConfig section in
  j_truthy s && match member s nav_key_enabled with Some e => j_truthy e | None => false end && is_true (member s module).

(** Only an explicit [false] of the user hides. *)
Definition user_allows (userConfig : option json) (section module : str) : bool :=
  match userConfig with
  | None => true
  | Some u =>
      let s := default JNull (member u section) in
      if negb (j_truthy s) then true
      else if is_false (member s nav_key_enabled) then false else negb (is_false (member s module))
  end.

Definition isModuleEnabled (url : str) (adminConfig : list (str * json)) (userConfig : option json) : bool :=
  match map_get url URL_TO_CONFIG_MAP with
  | None => true
  | Some (section, module) => admin_allows adminConfig section module && user_allows userConfig section module
  end.

(** Entries: a link, an entry with sub-entries, or the list of chats. *)
Inductive NavItem :=
| NavChatPresets (title : str)
| NavLink (title url : str) (configUrls : option (list str))
| NavCollapsible (title : str) (items : list (str * str)).

Definition chat_key : str := js "chat".

Definition isNavItemVisible (item : NavItem) (adminConfig : list (str * json)) (userConfig : option json) : bool :=
  match item with
  | NavChatPresets _ => admin_allows adminConfig chat_key chat_key && user_allows userConfig chat_key chat_key
  | NavLink _ url configUrls =>
      if truthy url then existsb (fun u => isModuleEnabled u adminConfig userConfig) (default [url] configUrls) else true
  | NavCollapsible _ items => existsb (fun i => isModuleEnabled (snd i) adminConfig userConfig) items
  end.

Definition filterNavItems (items : list NavItem) (adminConfig : list (str * json)) (userConfig : option json) : list NavItem :=
  List.filter (fun i => isNavItemVisible i adminConfig userConfig)
    (map (fun i => match i with
       | NavCollapsible t l => NavCollapsible t (List.filter (fun s => isModuleEnabled (snd s) adminConfig userConfig) l)
       | _ => i
       end) items).

(** The user's layer is skipped for users who cannot configure it. *)
Definition user_layer (sidebar_settings : option bool) (sidebar_modules : option str) : option json :=
  if bool_decide (sidebar_settings = Some false) then None else parseUserSidebarConfig sidebar_modules.

Definition useSidebarConfig (navGroups : list (str * list NavItem)) (admin : option str) (sidebar_settings : option bool)
    (sidebar_modules : option str) : list (str * list NavItem) :=
  let adminConfig := parseSidebarConfig admin in
  let userConfig := user_layer sidebar_settings sidebar_modules in
  List.filter (fun g => match snd g with [] => false | _ => true end)
    (map (fun g => (fst g, filterNavItems (snd g) adminConfig userConfig)) navGroups).

Definition useIsSidebarModuleVisible (url : str) (admin : option str) (sidebar_settings : option bool)
    (sidebar_modules : option str) : bool :=
  isModuleEnabled url (parseSidebarConfig admin) (user_layer sidebar_settings sidebar_modules).

(** The route guard, from the cached status. *)
Definition SIDEBAR_KEY : str := js "SidebarModulesAdmin".
Definition isSidebarModuleEnabled (storage : option str) (section module : str) : bool :=
  match getCachedStatus storage with
  | None => true
  | Some status =>
      match member status SIDEBAR_KEY with
      | None => true
      | Some raw =>
          if negb (j_truthy raw) || negb (truthy (trim (to_String raw))) then true
          else match JSON_parse (to_String raw) with
               | None | Some JNull => true
               | Some parsed =>
                   let s := default JNull (member parsed section) in
                   if negb (j_truthy s) then true
                   else if is_false (member s nav_key_enabled) then false else negb (is_false (member s module))
               end
      end
  end.
End Sidebar.
