(* ===== verification/NavProps.v ===== *)
(** * What the readers of the navigation settings agree on

    The header settings and the side bar settings are read by several parts, each with its own
    parser.  For texts that the settings page writes they agree, and the values of the form are
    what every page reads.  The user's own settings can only hide.  For other texts the parsers
    differ; the theorems at the end say where. *)
From S2P Require Import Prelude Number Regex Json JsonPretty JsonObject NavModules.

(** ** The header settings *)

Section HeaderReaders.
Context {C : CaseMap}.

Definition is_access_key (k : str) : bool := str_eqb k nav_pricing || str_eqb k nav_rankings.

(** Access pairs under the two access keys, switches elsewhere. *)
Definition nav_typed (k : str) (v : NavValue) : Prop :=
  match v with NavAccess _ => is_access_key k = true | NavOn _ => is_access_key k = false end.
Definition header_typed (c : HeaderNavModules) : Prop := obj_wf c /\ forall k v, map_get k c = Some v -> nav_typed k v.

Lemma header_typed_set k v c : header_typed c -> nav_typed k v -> header_typed (obj_set k v c).
Proof.
  intros [Hw Ht] Hv. split; [by apply obj_set_wf |]. intros k' v'. rewrite obj_get_set by done.
  case_bool_decide as E; [intros [= <-]; by subst | apply Ht].
Qed.

Lemma default_header_typed : header_typed DEFAULT_HEADER_NAV_MODULES.
Proof.
  split; [apply obj_wf_of; vm_compute; reflexivity |].
  intros k v H%map_get_elem. repeat (apply elem_of_cons in H as [H|H]; [injection H as -> ->; vm_compute; reflexivity |]). by inversion H.
Qed.

Lemma edited_typed key raw old v : edited_nav_value key raw old = Some v -> nav_typed key v.
Proof.
  unfold edited_nav_value, nav_typed, is_access_key. destruct (_ || _) eqn:E; [by intros [= <-] |].
  destruct raw; intros [= <-]; done.
Qed.

Lemma page_typed key raw old v : nav_value key raw old = Some v -> nav_typed key v.
Proof.
  unfold nav_value, nav_typed, is_access_key. destruct (_ || _) eqn:E; [by intros [= <-] |].
  destruct old as [[]|]; [| destruct (is_scalar raw) .. ]; intros [= <-]; done.
Qed.

Lemma setting_typed value : header_typed (parseHeaderNavSetting value).
Proof.
  unfold parseHeaderNavSetting. destruct value as [text|]; [| apply default_header_typed].
  destruct (truthy text); [| apply default_header_typed].
  destruct (JSON_parse text ≫= entries_of); [| apply default_header_typed].
  apply foldl_put_inv; [apply default_header_typed |]. intros r e v Hr Hv. by eapply header_typed_set, edited_typed.
Qed.

Lemma page_modules_typed raw : header_typed (parseHeaderNavModules raw).
Proof.
  unfold parseHeaderNavModules. destruct (parseHeaderNavRecord raw) as [p|]; [| apply default_header_typed].
  destruct (j_truthy p); [| apply default_header_typed].
  apply foldl_put_inv; [apply default_header_typed |]. intros r e v Hr Hv. by eapply header_typed_set, page_typed.
Qed.

(** *** Texts written by the settings page *)

Definition or_default (c : HeaderNavModules) (k : str) : option NavValue :=
  match map_get k c with Some v => Some v | None => map_get k DEFAULT_HEADER_NAV_MODULES end.

Lemma header_json_ok c : obj_wf c -> json_ok (JObj (map (fun '(k, v) => (k, nav_json v)) c)).
Proof. intros H. apply map_json_ok; [done |]. intros k [b|[[] []]] _; [done | ..]; apply json_okb_ok; vm_compute; reflexivity. Qed.

Lemma access_read a d : parseAccess (access_json a) d = a /\ parseAccessModule (access_json a) d = a.
Proof. by destruct a. Qed.

Lemma reads_entries (g : str -> json -> option NavValue -> option NavValue) c k :
  (forall k v, nav_typed k v -> g k (nav_json v) (map_get k DEFAULT_HEADER_NAV_MODULES) = Some v) ->
  header_typed c ->
  map_get k (foldl (put_entry g) DEFAULT_HEADER_NAV_MODULES (map (fun '(k, v) => (k, nav_json v)) c)) = or_default c k.
Proof.
  intros Hg [Hw Ht]. destruct (put_entry_get g DEFAULT_HEADER_NAV_MODULES (map (fun '(k, v) => (k, nav_json v)) c) k) as [_ ->].
  - apply default_header_typed.
  - rewrite keys_map. apply Hw.
  - rewrite get_map_values. unfold or_default. destruct (map_get k c) as [v|] eqn:E; [| done]. cbn. by rewrite Hg by (by apply Ht).
Qed.

Lemma setting_reads c k : header_typed c -> map_get k (parseHeaderNavSetting (Some (serializeHeaderNavModules c))) = or_default c k.
Proof.
  intros Hc. pose proof Hc as [Hw _]. unfold parseHeaderNavSetting, serializeHeaderNavModules.
  rewrite (proj1 (object_text_trim _)), json_roundtrip by (by apply header_json_ok). cbn [mbind option_bind entries_of].
  apply reads_entries; [| done]. clear. intros k [b|a] Ht; unfold edited_nav_value; fold (is_access_key k); cbn in Ht; rewrite Ht; [done |].
  by rewrite (proj2 (access_read a _)).
Qed.

Lemma page_reads c k : header_typed c -> map_get k (parseHeaderNavModules (Some (JStr (serializeHeaderNavModules c)))) = or_default c k.
Proof.
  intros Hc. pose proof Hc as [Hw _]. unfold parseHeaderNavModules, parseHeaderNavRecord, serializeHeaderNavModules. cbn [j_truthy to_String].
  rewrite (proj1 (object_text_trim _)), (proj2 (object_text_trim _)), json_roundtrip by (by apply header_json_ok). cbn [negb orb j_truthy entries_of from_option].
  apply reads_entries; [| done]. clear. intros k [b|a] Ht; unfold nav_value; fold (is_access_key k); cbn in Ht; rewrite Ht.
  - pose proof (proj2 default_header_typed k) as Hd. destruct (map_get k _) as [[b'|a']|]; [done | | done]. by specialize (Hd _ eq_refl).
  - by rewrite (proj1 (access_read a _)).
Qed.

(** *** What is saved is what is read *)

(** The top bar of the values of the form. *)
Definition form_links (v : HeaderNavFormValues) (docsLink : option str) (isAuthed : bool) : list TopNavLink :=
  let shown (b : bool) l := if b then [l] else [] in
  let public a href := shown (enabled a) (mkLink href (requireAuth a && negb isAuthed) false) in
  let docs := default [] docsLink in
  shown (hf_home v) (mkLink (js "/") false false) ++ shown (hf_console v) (mkLink (js "/dashboard") false false) ++
  public (hf_pricing v) (js "/pricing") ++ public (hf_rankings v) (js "/rankings") ++
  shown (hf_docs v) (if truthy docs then mkLink docs false true else mkLink (js "/docs") false false) ++
  shown (hf_about v) (mkLink (js "/about") false false).

Lemma form_keys v : NoDup (form_entries v).*1.
Proof. apply (bool_decide_unpack _). vm_compute. exact I. Qed.

Lemma payload_typed config v : header_typed config -> header_typed (header_payload config v).
Proof. intros H. unfold header_payload, form_entries. cbn [foldl fst snd]. repeat (apply header_typed_set; [| done]). done. Qed.

Lemma payload_get config v k : header_typed config ->
  map_get k (header_payload config v) = match map_get k (form_entries v) with Some x => Some x | None => map_get k config end.
Proof. intros [Hw _]. by apply spread_get, form_keys. Qed.

(** What the form, the guards and the top bar take from a configuration. *)
Definition six (c : str -> option NavValue) : list (option NavValue) :=
  map c [nav_home; nav_console; nav_pricing; nav_rankings; nav_docs; nav_about].

Lemma payload_six config v : header_typed config ->
  six (or_default (header_payload config v)) =
  [Some (NavOn (hf_home v)); Some (NavOn (hf_console v)); Some (NavAccess (hf_pricing v)); Some (NavAccess (hf_rankings v));
   Some (NavOn (hf_docs v)); Some (NavOn (hf_about v))].
Proof. intros H. unfold six, or_default. cbn [map]. by rewrite !payload_get. Qed.

Lemma form_of_six c v : six (fun k => map_get k c) =
  [Some (NavOn (hf_home v)); Some (NavOn (hf_console v)); Some (NavAccess (hf_pricing v)); Some (NavAccess (hf_rankings v));
   Some (NavOn (hf_docs v)); Some (NavOn (hf_about v))] ->
  toFormValues c = v /\ forall d a, topNavLinks c d a = form_links v d a.
Proof.
  intros H. injection H as H1 H2 H3 H4 H5 H6. unfold toFormValues, form_switch, topNavLinks, form_links. rewrite H1, H2, H3, H4, H5, H6.
  split; [by destruct v |]. intros d a. cbn. destruct (hf_home v), (hf_console v), (hf_docs v), (hf_about v), d; reflexivity.
Qed.

Lemma form_of_default c : toFormValues c = mkHeaderForm
  (form_switch c nav_home) (form_switch c nav_console) (access_of (or_default c nav_pricing) default_access)
  (access_of (or_default c nav_rankings) default_access) (form_switch c nav_docs) (form_switch c nav_about).
Proof. unfold toFormValues, or_default. by destruct (map_get nav_pricing c), (map_get nav_rankings c). Qed.

Lemma unchanged_form config v : header_typed config ->
  submitHeader config (serializeHeaderNavModules config) v = None -> toFormValues config = v.
Proof.
  unfold submitHeader. intros Hc. destruct (str_eqb _ _) eqn:E; [| done]. intros _. apply str_eqb_eq in E.
  pose proof (payload_six config v Hc) as H6.
  assert (Hr : forall k, or_default (header_payload config v) k = or_default config k).
  { intros k. rewrite <- !setting_reads by auto using payload_typed. by rewrite E. }
  unfold six in H6. cbn [map] in H6. rewrite !Hr in H6. injection H6 as H1 H2 H3 H4 H5 H6.
  assert (Hs : forall k b, base_on k = true -> or_default config k = Some (NavOn b) -> form_switch config k = b).
  { intros k b Hk. unfold or_default, form_switch, base_on in *. destruct (map_get k config); [by intros [= ->] |]. intros Ho. rewrite Ho in Hk. by destruct b. }
  rewrite form_of_default, H3, H4, (Hs nav_home _ eq_refl H1), (Hs nav_console _ eq_refl H2), (Hs nav_docs _ eq_refl H5), (Hs nav_about _ eq_refl H6). by destruct v.
Qed.

(** C26: Saving the header settings.  Whatever text was stored, the settings page reads it as a
    configuration, and after the form is submitted with values [v] the saved text is read back by
    the form as exactly [v], with every other entry of the configuration kept; the guards of the
    price list and the rankings read [v]'s access from a status with that text, and the top bar
    has exactly the links of [v].  When nothing is sent, the stored text already meant [v]. *)
Theorem header_form_saved stored v status docsLink isAuthed :
  let config := parseHeaderNavSetting stored in
  let text := serializeHeaderNavModules (header_payload config v) in
  member status HEADER_KEY = Some (JStr text) ->
  toFormValues (parseHeaderNavSetting (Some text)) = v /\
  (forall k, k ∉ (form_entries v).*1 -> map_get k (parseHeaderNavSetting (Some text)) = map_get k config) /\
  getModuleAccessFromStatus (Some status) MPricing = hf_pricing v /\
  getModuleAccessFromStatus (Some status) MRankings = hf_rankings v /\
  topNavLinks (parseHeaderNavModulesFromStatus (Some status)) docsLink isAuthed = form_links v docsLink isAuthed /\
  (submitHeader config (serializeHeaderNavModules config) v = None -> toFormValues config = v).
Proof.
  intros config text Hs. pose proof (setting_typed stored : header_typed config) as Hc.
  pose proof (payload_typed config v Hc) as Hp. pose proof (payload_six config v Hc) as H6.
  assert (Hpage : parseHeaderNavModulesFromStatus (Some status) = parseHeaderNavModules (Some (JStr text))).
  { unfold parseHeaderNavModulesFromStatus. cbn [mbind option_bind]. by rewrite Hs. }
  assert (Hread : six (fun k => map_get k (parseHeaderNavModulesFromStatus (Some status))) = six (or_default (header_payload config v))).
  { rewrite Hpage. unfold six. cbn [map]. unfold text. by rewrite !page_reads. }
  split; [| split; [| split; [| split; [| split]]]].
  - apply form_of_six. rewrite <- H6 by done. unfold six. cbn [map]. unfold text. by rewrite !setting_reads.
  - intros k Hk. unfold text. rewrite setting_reads by done. unfold or_default. rewrite payload_get by done.
    pose proof Hk as Hf%map_get_None. rewrite Hf. destruct (map_get k config); [done |]. apply map_get_None. set_solver.
  - rewrite H6 in Hread. injection Hread as _ _ H _ _ _. unfold getModuleAccessFromStatus. cbn [module_key]. by rewrite H.
  - rewrite H6 in Hread. injection Hread as _ _ _ H _ _. unfold getModuleAccessFromStatus. cbn [module_key]. by rewrite H.
  - apply form_of_six. by rewrite Hread.
  - by apply unchanged_form.
Qed.

(** Guards that ask the server read what the guards read afterwards from the cached status, and a
    request that fails closes the page. *)
Theorem module_access_cached status m storage :
  json_ok status -> j_truthy status = true ->
  let '(access, storage') := getFreshModuleAccess false (Some (Some status)) m storage in
  getModuleAccess storage' m = access /\ page_guard (fst (getFreshModuleAccess false None m storage)) true = ToHome.
Proof.
  intros Hok Ht. cbn. rewrite Ht. cbn. split; [| done]. unfold getModuleAccess, getCachedStatus.
  destruct (stringify_head status Hok) as (c & t & E & _). rewrite E at 1. cbn [truthy]. by rewrite json_roundtrip, Ht.
Qed.

(** The two readers differ on other texts: a number that is neither 0 nor 1 is off for the
    settings page and on for the pages. *)
Theorem number_read_differently :
  let text := JSON_stringify (JObj [(nav_home, JNum (n_of_Z 2))]) in
  hf_home (toFormValues (parseHeaderNavSetting (Some text))) = false /\
  not_false (map_get nav_home (parseHeaderNavModules (Some (JStr text)))) = true.
Proof. split; vm_compute; reflexivity. Qed.
End HeaderReaders.

#[local] Existing Instance ascii_case.

Definition demo_form : HeaderNavFormValues := mkHeaderForm true false (mkAccess true true) (mkAccess false false) true false.
Definition demo_stored : str := JSON_stringify (JObj [(js "extra", JBool false); (nav_docs, JNum n_zero)]).
Definition demo_status : json :=
  JObj [(HEADER_KEY, JStr (serializeHeaderNavModules (header_payload (parseHeaderNavSetting (Some demo_stored)) demo_form)))].

Lemma header_form_saved_witness :
  member demo_status HEADER_KEY = Some (JStr (serializeHeaderNavModules (header_payload (parseHeaderNavSetting (Some demo_stored)) demo_form))) /\
  getModuleAccessFromStatus (Some demo_status) MPricing = mkAccess true true.
Proof.
  split; [reflexivity |].
  destruct (header_form_saved (Some demo_stored) demo_form demo_status None false) as (_ & _ & H & _); [reflexivity |]. exact H.
Defined.

(** ** The side bar settings *)

Section SidebarReaders.
Context {C : CaseMap}.

Definition sidebar_wf (c : list (str * list (str * bool))) : Prop := obj_wf c /\ forall k s, map_get k c = Some s -> obj_wf s.

(** What a configuration says about a module: absent entries are on. *)
Definition sidebar_on (c : list (str * list (str * bool))) (section module : str) : bool :=
  match map_get section c with
  | None => true
  | Some s => default true (map_get nav_key_enabled s) && default true (map_get module s)
  end.

(** The sections and modules the console has. *)
Definition known_module (section module : str) : Prop :=
  exists s, map_get section SIDEBAR_MODULES_DEFAULT = Some s /\ map_get module s = Some true.

Definition config_json (c : list (str * list (str * bool))) : list (str * json) := map (fun '(k, s) => (k, section_json s)) c.

Lemma section_get s k : member (section_json s) k = JBool <$> map_get k s.
Proof. unfold member, section_json. cbn [entries_of from_option]. apply get_map_values. Qed.

Lemma config_get c k : member (JObj (config_json c)) k = section_json <$> map_get k c.
Proof. unfold member, config_json. cbn [entries_of from_option]. apply get_map_values. Qed.

Lemma sidebar_json_ok c : sidebar_wf c -> json_ok (JObj (config_json c)).
Proof.
  intros [Hw Hs]. apply map_json_ok; [done |]. intros k s H. apply map_json_ok; [by apply (Hs k) |]. done.
Qed.

Lemma default_sidebar_wf : sidebar_wf SIDEBAR_MODULES_DEFAULT.
Proof.
  split; [apply obj_wf_of; vm_compute; reflexivity |]. intros k s H%map_get_elem.
  repeat (apply elem_of_cons in H as [H|H]; [injection H as -> ->; apply obj_wf_of; vm_compute; reflexivity |]). by inversion H.
Qed.

Lemma spread_default (d s : list (str * bool)) k : obj_wf d -> obj_wf s ->
  member (JObj (spread_objects (spreadable (section_json d)) (spreadable (section_json s)))) k =
  JBool <$> match map_get k s with Some b => Some b | None => map_get k d end.
Proof.
  intros Hd [Hs _]. unfold member, spread_objects, spreadable, section_json. cbn [entries_of from_option]. unfold id.
  etransitivity; [apply (spread_get k _ _ (obj_wf_map JBool d Hd)); by rewrite keys_map |]. rewrite !get_map_values. by destruct (map_get k s).
Qed.

Lemma merged_get c k : sidebar_wf c ->
  map_get k (mergeWithDefaultSidebarModules (JObj (config_json c))) =
  match map_get k SIDEBAR_MODULES_DEFAULT with
  | Some d => Some (merge_default (section_json d) (section_json <$> map_get k c))
  | None => section_json <$> map_get k c
  end.
Proof.
  intros [Hc _]. destruct default_sidebar_wf as [[Hd _] _]. unfold mergeWithDefaultSidebarModules.
  read_loop k; [by apply obj_wf_map | unfold default_json; by rewrite keys_map |].
  unfold default_json, spreadable. cbn [entries_of from_option]. unfold id, config_json. rewrite !get_map_values.
  by destruct (map_get k SIDEBAR_MODULES_DEFAULT).
Qed.

Lemma known_enabled k d : map_get k SIDEBAR_MODULES_DEFAULT = Some d -> map_get nav_key_enabled d = Some true /\ obj_wf d.
Proof.
  intros H. split; [| by apply (proj2 default_sidebar_wf k)]. apply map_get_elem in H.
  repeat (apply elem_of_cons in H as [H|H]; [injection H as _ ->; reflexivity |]). by inversion H.
Qed.

(** *** The side bar *)
Lemma sidebar_shows c section module : sidebar_wf c -> known_module section module ->
  admin_allows (parseSidebarConfig (Some (serializeSidebarModulesAdmin c))) section module = sidebar_on c section module.
Proof.
  intros Hc (d & Hd & Hm). destruct (known_enabled _ _ Hd) as [He Hdw].
  unfold parseSidebarConfig, serializeSidebarModulesAdmin. fold (config_json c).
  rewrite (proj1 (object_text_trim _)), (proj2 (object_text_trim _)), json_roundtrip by (by apply sidebar_json_ok). cbn [negb orb].
  unfold admin_allows, section_of. rewrite merged_get, Hd by done. unfold sidebar_on. cbn [from_option]. unfold id.
  destruct (map_get section c) as [s|] eqn:Es; cbn [fmap option_fmap option_map].
  - pose proof (proj2 Hc _ _ Es) as Hs. unfold merge_default. cbn [from_option]. cbv beta zeta. unfold id. cbn [j_truthy section_json].
    fold (section_json s). rewrite !spread_default, He, Hm by done.
    by destruct (map_get nav_key_enabled s) as [[]|], (map_get module s) as [[]|].
  - unfold merge_default. cbn [from_option]. cbv beta zeta. unfold id. cbn [j_truthy]. change (j_truthy (section_json d)) with true. rewrite !section_get, He, Hm. done.
Qed.

(** *** The route guard *)
Lemma guard_allows c section module status : sidebar_wf c -> json_ok (JObj status) ->
  map_get SIDEBAR_KEY status = Some (JStr (serializeSidebarModulesAdmin c)) ->
  isSidebarModuleEnabled (Some (JSON_stringify (JObj status))) section module = sidebar_on c section module.
Proof.
  intros Hc Hok Hk. unfold isSidebarModuleEnabled, getCachedStatus.
  rewrite (proj1 (object_text_trim _)), json_roundtrip by done. cbn [j_truthy]. unfold member at 1. cbn [entries_of from_option]. unfold id.
  rewrite Hk. cbn [j_truthy to_String]. unfold serializeSidebarModulesAdmin. fold (config_json c).
  rewrite (proj1 (object_text_trim _)), (proj2 (object_text_trim _)), json_roundtrip by (by apply sidebar_json_ok). cbn [negb orb].
  rewrite config_get. unfold sidebar_on.
  destruct (map_get section c) as [s|]; [| done]. cbn [fmap option_fmap option_map from_option]. unfold id. cbn [j_truthy section_json negb]. fold (section_json s).
  rewrite !section_get. by destruct (map_get nav_key_enabled s) as [[]|], (map_get module s) as [[]|].
Qed.
(** *** The settings page *)
Lemma read_section_get D key s m : obj_wf s ->
  obj_wf (read_section D key (section_json s)) /\
  map_get m (read_section D key (section_json s)) =
  if bool_decide (m = nav_key_enabled)
  then Some (default (default true (map_get nav_key_enabled (default [(nav_key_enabled, true)] (map_get key D)))) (map_get nav_key_enabled s))
  else map_get m s.
Proof.
  intros [Hn Ho]. unfold read_section. cbv zeta. rewrite section_get. cbn [section_json entries_of from_option]. unfold id.
  read_loop m; [split; [apply NoDup_singleton | done] | by rewrite keys_map |].
  split; [done |]. rewrite get_map_values. unfold str_eqb. case_bool_decide as E.
  - subst m. rewrite map_get_head. by destruct (map_get nav_key_enabled s).
  - rewrite map_get_tail by done. by destruct (map_get m s).
Qed.

Lemma read_sections_get D c k : sidebar_wf c ->
  obj_wf (read_sections D (config_json c)) /\
  map_get k (read_sections D (config_json c)) = (fun s => read_section D k (section_json s)) <$> map_get k c.
Proof.
  intros [[Hn Ho] _]. unfold read_sections, config_json. read_loop k; [split; [apply NoDup_nil_2 | done] | by rewrite keys_map |].
  split; [done |]. rewrite get_map_values. by destruct (map_get k c).
Qed.

Lemma add_missing_get s d m : obj_wf s -> NoDup d.*1 ->
  map_get m (add_missing s d) = match map_get m s with Some b => Some b | None => map_get m d end.
Proof.
  intros Hs Hd. unfold add_missing. read_loop m; [done .. |]. by destruct (map_get m d), (map_get m s).
Qed.

Lemma default_values_true k d m b : map_get k SIDEBAR_MODULES_DEFAULT = Some d -> map_get m d = Some b -> b = true.
Proof.
  intros H Hm. apply map_get_elem in H, Hm.
  repeat (apply elem_of_cons in H as [H|H]; [injection H as _ ->; repeat (apply elem_of_cons in Hm as [Hm|Hm]; [by injection Hm as _ -> |]); by inversion Hm |]).
  by inversion H.
Qed.

Lemma settings_page_shows c section module : sidebar_wf c ->
  sidebar_on (parseSidebarModulesAdmin (Some (serializeSidebarModulesAdmin c))) section module = sidebar_on c section module.
Proof.
  intros Hc. unfold parseSidebarModulesAdmin, serializeSidebarModulesAdmin. fold (config_json c).
  rewrite (proj1 (object_text_trim _)), (proj2 (object_text_trim _)), json_roundtrip by (by apply sidebar_json_ok). cbn [negb orb mbind option_bind entries_of].
  destruct (read_sections_get SIDEBAR_MODULES_DEFAULT c section Hc) as [Hw Hg]. unfold sidebar_on, merge_sections.
  read_loop section; [done | apply default_sidebar_wf |]. rewrite Hg.
  assert (Hd : forall d m, map_get section SIDEBAR_MODULES_DEFAULT = Some d -> default true (map_get m d) = true).
  { intros d m Hd. destruct (map_get m d) eqn:E; [| done]. by rewrite (default_values_true _ _ _ _ Hd E). }
  assert (He : forall s, default (default true (map_get nav_key_enabled (default [(nav_key_enabled, true)] (map_get section SIDEBAR_MODULES_DEFAULT))))
                 (map_get nav_key_enabled s) = default true (map_get nav_key_enabled s)).
  { intros s. destruct (map_get nav_key_enabled s); [done |]. destruct (map_get section SIDEBAR_MODULES_DEFAULT) as [d|] eqn:E; [exact (Hd d nav_key_enabled eq_refl) | done]. }
  assert (Hs : forall s m, obj_wf s -> default true (map_get m (read_section SIDEBAR_MODULES_DEFAULT section (section_json s))) = default true (map_get m s)).
  { intros s m Hs. rewrite (proj2 (read_section_get _ _ s m Hs)). case_bool_decide as E; [subst m; apply He | done]. }
  destruct (map_get section c) as [s|] eqn:Es; cbn [fmap option_fmap option_map].
  - pose proof (proj2 Hc _ _ Es) as Hsw. destruct (map_get section SIDEBAR_MODULES_DEFAULT) as [d|] eqn:Ed; [| by rewrite !Hs].
    destruct (read_section_get SIDEBAR_MODULES_DEFAULT section s nav_key_enabled Hsw) as [Hr _]. destruct (known_enabled _ _ Ed) as [_ [Hdn _]].
    assert (Hm : forall m, default true (map_get m (add_missing (read_section SIDEBAR_MODULES_DEFAULT section (section_json s)) d)) = default true (map_get m s)).
    { intros m. rewrite add_missing_get by done. rewrite <- (Hs s m Hsw). destruct (map_get m (read_section _ _ _)); [done |]. by apply Hd. }
    by rewrite !Hm.
  - destruct (map_get section SIDEBAR_MODULES_DEFAULT) as [d|]; [| done]. by rewrite !Hd.
Qed.

(** C27: The readers of the side bar settings agree.  For a configuration saved by the settings
    page, the side bar, the route guards (from a cached status that carries the text) and the
    settings page itself give the same answer for every section and module of the console, and it
    is the one the configuration says: the section's switch and the module's switch, on when
    absent.  When nothing is sent, the saved text is the one that was loaded. *)
Theorem sidebar_readers_agree c initial section module status :
  sidebar_wf c -> known_module section module -> json_ok (JObj status) ->
  let text := default initial (submitSidebar c initial) in
  map_get SIDEBAR_KEY status = Some (JStr text) ->
  admin_allows (parseSidebarConfig (Some text)) section module = sidebar_on c section module /\
  isSidebarModuleEnabled (Some (JSON_stringify (JObj status))) section module = sidebar_on c section module /\
  sidebar_on (parseSidebarModulesAdmin (Some text)) section module = sidebar_on c section module.
Proof.
  intros Hc Hk Hok text. assert (Ht : text = serializeSidebarModulesAdmin c).
  { unfold text, submitSidebar. destruct (str_eqb _ _) eqn:E; [by apply str_eqb_eq in E | done]. }
  rewrite Ht. intros Hs. auto using sidebar_shows, guard_allows, settings_page_shows.
Qed.

(** *** The user's settings *)

Lemma url_map_known url section module : map_get url URL_TO_CONFIG_MAP = Some (section, module) -> known_module section module.
Proof.
  intros H%map_get_elem. repeat (apply elem_of_cons in H as [H|H]; [injection H as _ -> ->; eexists; split; vm_compute; reflexivity |]). by inversion H.
Qed.

Lemma user_hides url admin user : isModuleEnabled url admin user = true -> isModuleEnabled url admin None = true.
Proof. unfold isModuleEnabled. destruct (map_get url _) as [[? ?]|]; [| done]. rewrite !andb_true_iff. by intros [? _]. Qed.

(** The addresses an entry leads to. *)
Definition leads_to (i : NavItem) : list str :=
  match i with NavChatPresets _ => [] | NavLink _ url None => [url] | NavLink _ _ (Some _) => [] | NavCollapsible _ l => map snd l end.

Lemma filter_items_enabled items admin user i url :
  i ∈ filterNavItems items admin user -> url ∈ leads_to i -> url <> [] -> isModuleEnabled url admin user = true.
Proof.
  unfold filterNavItems. rewrite list_elem_of_In, filter_In, in_map_iff. intros [(i' & <- & _) Hv] Hu Hne. destruct i' as [t|t u [l|]|t l]; cbn in *; try by inversion Hu.
  - apply list_elem_of_singleton in Hu as ->. destruct u; [done |]. cbn in Hv. by rewrite orb_false_r in Hv.
  - apply list_elem_of_fmap in Hu as ([t' u'] & -> & Hin). by apply list_elem_of_In, filter_In in Hin as [_ ?].
Qed.

(** The side bar shows nothing the administrator turned off.  Whatever the user's own
    settings are, every address of the console behind an entry of the side bar belongs to a module
    that the saved configuration has on, and no group is shown without entries. *)
Theorem sidebar_within_admin c groups settings user title items :
  sidebar_wf c -> (title, items) ∈ useSidebarConfig groups (Some (serializeSidebarModulesAdmin c)) settings user ->
  items <> [] /\
  forall i url section module, i ∈ items -> url ∈ leads_to i -> map_get url URL_TO_CONFIG_MAP = Some (section, module) ->
    sidebar_on c section module = true.
Proof.
  intros Hc. unfold useSidebarConfig. rewrite list_elem_of_In, filter_In, in_map_iff. intros [([t its] & [= -> <-] & _) Hne]. split.
  - cbn in Hne |- *. by destruct (filterNavItems _ _ _).
  - intros i url section module Hi Hu Hm. assert (url <> []) as Hu0 by (intros ->; vm_compute in Hm; discriminate).
    pose proof (filter_items_enabled _ _ _ _ _ Hi Hu Hu0) as He. apply user_hides in He. unfold isModuleEnabled in He. rewrite Hm, andb_true_iff in He.
    destruct He as [He _]. rewrite <- He. symmetry. apply sidebar_shows; [done |]. by eapply url_map_known.
Qed.
End SidebarReaders.

Definition chat_off : list (str * list (str * bool)) := [(js "chat", [(nav_key_enabled, true); (js "playground", false)])].
Definition chat_off_text : str := default [] (submitSidebar chat_off []).
Definition chat_off_status : list (str * json) := [(SIDEBAR_KEY, JStr chat_off_text)].
Definition chat_groups : list (str * list NavItem) :=
  [(js "Chat", [NavLink (js "Playground") (js "/playground") None]); (js "General", [NavLink (js "Keys") (js "/keys") None])].

Lemma chat_off_wf : sidebar_wf chat_off.
Proof.
  split; [apply obj_wf_of; vm_compute; reflexivity |]. intros k s H%map_get_elem.
  apply list_elem_of_singleton in H. injection H as -> ->. apply obj_wf_of. vm_compute. reflexivity.
Qed.

Lemma sidebar_readers_agree_witness :
  admin_allows (parseSidebarConfig (Some chat_off_text)) chat_key (js "playground") = false /\
  admin_allows (parseSidebarConfig (Some chat_off_text)) chat_key chat_key = true.
Proof.
  split.
  - destruct (sidebar_readers_agree chat_off [] chat_key (js "playground") chat_off_status) as [H _];
      [apply chat_off_wf | eexists; split; vm_compute; reflexivity | apply json_okb_ok; vm_compute; reflexivity | reflexivity |]. exact H.
  - destruct (sidebar_readers_agree chat_off [] chat_key chat_key chat_off_status) as [H _];
      [apply chat_off_wf | eexists; split; vm_compute; reflexivity | apply json_okb_ok; vm_compute; reflexivity | reflexivity |]. exact H.
Defined.

Lemma sidebar_within_admin_witness :
  sidebar_on chat_off (js "console") (js "token") = true /\
  map fst (useSidebarConfig chat_groups (Some (serializeSidebarModulesAdmin chat_off)) None None) = [js "General"].
Proof.
  split; [| vm_compute; reflexivity].
  destruct (sidebar_within_admin chat_off chat_groups None None (js "General") [NavLink (js "Keys") (js "/keys") None]) as [_ H].
  - apply chat_off_wf.
  - vm_compute. left.
  - apply (H (NavLink (js "Keys") (js "/keys") None) (js "/keys")); [left | left | vm_compute; reflexivity].
Defined.
