(* ===== verification/SettingsForm.v ===== *)
(** * Forms of the system settings

    [features/system-settings/hooks/use-settings-form.ts]: the hook behind the forms of the system
    settings.  Settings have dotted names ([a.b]); the form library works on nested objects.  The
    hook expands the names into objects, keeps the saved values flat as a baseline, and sends the
    fields that were changed.

    The form library (react-hook-form) is not part of the repository: which fields it calls dirty
    is a parameter, a class with its documented law. *)
From S2P Require Import Prelude Number Json JsonObject.

Definition dot : N := 46.

Definition isPlainObject (v : json) : bool := match v with JObj _ => true | _ => false end.

(** ** Nested objects and dotted names *)

(** [parentKey ? `${parentKey}.${key}` : key]. *)
Definition nextKey (parentKey : option str) (key : str) : str :=
  match parentKey with Some p => if truthy p then p ++ [dot] ++ key else key | None => key end.

Fixpoint flattenValues (values : json) (parentKey : option str) (result : entries) : entries :=
  match values with
  | JObj l =>
      (fix each (l : entries) (result : entries) : entries :=
         match l with
         | [] => result
         | (key, value) :: l =>
             each l (if isPlainObject value then flattenValues value (Some (nextKey parentKey key)) result
                     else obj_set (nextKey parentKey key) value result)
         end) l result
  | _ => match parentKey with Some p => obj_set p values result | None => result end
  end.

(** A value that may be [undefined]. *)
Abbreviation field := (option json).
Abbreviation fields := (list (str * field)).

(** [values[key]] of an object or an array. *)
Definition source_of (values : field) (key : str) : field :=
  match values with
  | Some (JObj l) => map_get key l
  | Some (JArr l) => member (JArr l) key
  | _ => None
  end.

Fixpoint collectDirtyValues (dirtyFields : json) (values : field) (parentKey : option str) (result : fields) : fields :=
  let visit (key : str) (value : json) (result : fields) : fields :=
    match value with
    | JBool true => obj_set (nextKey parentKey key) (source_of values key) result
    | JObj _ | JArr _ => collectDirtyValues value (source_of values key) (Some (nextKey parentKey key)) result
    | _ => result
    end in
  match dirtyFields with
  | JBool true => match parentKey with Some p => obj_set p values result | None => result end
  | JObj l =>
      (fix each (l : entries) (result : fields) : fields :=
         match l with [] => result | (key, value) :: l => each l (visit key value result) end) l result
  | JArr l =>
      (fix each (l : list json) (i : N) (result : fields) : fields :=
         match l with [] => result | value :: l => each l (N.succ i) (visit (show_N i) value result) end) l 0%N result
  | _ => result
  end.

(** The nested objects on the way are made where they are missing. *)
Fixpoint set_deep (segments : list str) (value : json) (target : entries) : entries :=
  match segments with
  | [] => target
  | [segment] => obj_set segment value target
  | segment :: rest =>
      match map_get segment target with
      | Some (JObj next) => obj_set segment (JObj (set_deep rest value next)) target
      | _ => obj_set segment (JObj (set_deep rest value [])) target
      end
  end.
Definition setDeepValue (target : entries) (path : str) (value : json) : entries :=
  set_deep (split_on dot path) value target.

Fixpoint expandDotPaths (values : json) : json :=
  match values with
  | JObj l =>
      JObj ((fix each (l : entries) (result : entries) : entries :=
         match l with
         | [] => result
         | (key, value) :: l =>
             each l (if str_includes key [dot] then setDeepValue result key value
                     else if isPlainObject value then obj_set key (expandDotPaths value) result
                     else obj_set key value result)
         end) l [])
  | _ => values
  end.

(** ** Comparing *)

(** [a === b]; two objects that come from different places are different. *)
Definition strict_eq (a b : field) : bool :=
  match a, b with
  | None, None | Some JNull, Some JNull => true
  | Some (JBool x), Some (JBool y) => eqb x y
  | Some (JNum x), Some (JNum y) => n_eqb x y
  | Some (JStr x), Some (JStr y) => str_eqb x y
  | _, _ => false
  end.

(** Arrays and objects are compared by their texts. *)
Definition defaultCompare (a b : field) : bool :=
  strict_eq a b ||
  match a, b with
  | Some ((JObj _ | JArr _) as x), Some ((JObj _ | JArr _) as y) => str_eqb (JSON_stringify x) (JSON_stringify y)
  | _, _ => false
  end.

(** ** The hook *)

(** What the form library says about changed fields, from its default values and its values. *)
Class FormLibrary := { dirtyFields : json -> json -> json }.

Record SettingsForm := mkSettings {
  formDefault : json;        (* the values the library compares with *)
  formValues : json;
  defaultValuesRef : json;
  baselineRef : entries;
  serializedDefaultsRef : str }.

Definition flat (v : json) : entries := flattenValues v None [].
Definition serialize_flat (l : entries) : str := JSON_stringify (JObj l).

(** The form after a reset to values that are the saved ones. *)
Definition settled_form (v : json) : SettingsForm := mkSettings v v v (flat v) (serialize_flat (flat v)).

Definition useSettingsForm (defaultValues : json) : SettingsForm := settled_form (expandDotPaths defaultValues).

(** The effect for new default values. *)
Definition defaults_effect (defaultValues : json) (f : SettingsForm) : SettingsForm :=
  let expanded := expandDotPaths defaultValues in
  if str_eqb (serialize_flat (flat expanded)) (serializedDefaultsRef f) then f else settled_form expanded.

Section Submit.
Context {F : FormLibrary} (compare : field -> field -> bool).

Definition changedFields (f : SettingsForm) (data : json) : fields :=
  List.filter (fun e => negb (compare (snd e) (map_get (fst e) (baselineRef f))))
    (collectDirtyValues (dirtyFields (formDefault f) (formValues f)) (Some data) None []).

(** [data] are the values as the resolver gives them; [onSubmit] answers whether the request
    went through.  Returns what was sent, if anything, and the form afterwards. *)
Definition handleSettingsSubmit (onSubmit : json -> fields -> bool) (data : json) (f : SettingsForm) :
    option fields * SettingsForm :=
  match changedFields f data with
  | [] => (None, f)
  | changed => (Some changed, if onSubmit data changed then settled_form data else f)
  end.
End Submit.

Definition handleSettingsReset (f : SettingsForm) : SettingsForm :=
  mkSettings (defaultValuesRef f) (defaultValuesRef f) (defaultValuesRef f) (baselineRef f) (serializedDefaultsRef f).

(** Editing fields. *)
Definition edit_values (v : json) (f : SettingsForm) : SettingsForm :=
  mkSettings (formDefault f) v (defaultValuesRef f) (baselineRef f) (serializedDefaultsRef f).

Inductive form_step {F : FormLibrary} (compare : field -> field -> bool) : SettingsForm -> SettingsForm -> Prop :=
| step_edit f v : form_step compare f (edit_values v f)
| step_submit f onSubmit data : form_step compare f (snd (handleSettingsSubmit compare onSubmit data f))
| step_form_reset f : form_step compare f (handleSettingsReset f)
| step_defaults f d : form_step compare f (defaults_effect d f).
