(* ===== verification/SettingsProps.v ===== *)
(** * What the settings forms keep and send

    A nested object is described by its leaves: the values that are no objects, by their path.
    Flattening lists the leaves under dotted names, expanding puts them back, and a submit sends
    the leaves that changed. *)
From S2P Require Import Prelude Number Json JsonObject SettingsForm.

(** ** Names and paths *)

Lemma join_split c s : join [c] (split_on c s) = s.
Proof.
  induction s as [|x s IH]; [done |]. simpl. pose proof (split_on_not_nil c s).
  destruct (N.eqb_spec x c) as [->|Hne]; (destruct (split_on c s) as [|h t]; [done |]); [by rewrite <- IH |].
  rewrite <- IH. by destruct t.
Qed.

Lemma join_snoc c l k : join [c] (l ++ [k]) = match l with [] => k | _ => join [c] l ++ [c] ++ k end.
Proof.
  induction l as [|x l IH]; [done |]. destruct l as [|y l]; [done |].
  change (join [c] ((x :: y :: l) ++ [k])) with (x ++ [c] ++ join [c] ((y :: l) ++ [k])). rewrite IH. simpl. by rewrite <- !app_assoc.
Qed.

(** A segment of a path, and a path. *)
Definition seg_ok (s : str) : Prop := s <> [] /\ dot ∉ s.
Definition dot_free (q : list str) : Prop := q <> [] /\ Forall (fun s => dot ∉ s) q.

Lemma split_dot_free k : dot_free (split_on dot k).
Proof. split; [apply split_on_not_nil |]. apply Forall_forall. intros s. apply split_on_elem. Qed.

Lemma join_inj q p : dot_free q -> dot_free p -> join [dot] q = join [dot] p -> q = p.
Proof. intros [Hq Fq] [Hp Fp] E. rewrite <- (split_join dot q), <- (split_join dot p) by done. by rewrite E. Qed.

Lemma seg_ok_dot_free p : p <> [] -> Forall seg_ok p -> dot_free p.
Proof. intros Hp H. split; [done |]. eapply Forall_impl; [exact H |]. by intros s [_ ?]. Qed.

Lemma join_truthy p : p <> [] -> Forall seg_ok p -> truthy (join [dot] p) = true.
Proof. intros Hp H. destruct H as [|s [|s' l] [Hs _] _]; [done | by destruct s |]. by destruct s. Qed.

(** The rest of a path after a prefix. *)
Fixpoint strip (pre q : list str) : option (list str) :=
  match pre, q with
  | [], _ => Some q
  | a :: pre, b :: q => if decide (a = b) then strip pre q else None
  | _ :: _, [] => None
  end.

Lemma strip_snoc pre k q : strip (pre ++ [k]) q =
  match strip pre q with Some (k' :: p) => if decide (k = k') then Some p else None | _ => None end.
Proof.
  revert q. induction pre as [|a pre IH]; intros q; simpl.
  - destruct q; [done |]. by destruct (decide _).
  - destruct q as [|b q]; [done |]. destruct (decide (a = b)); [apply IH | done].
Qed.

Lemma strip_self pre q p : strip pre q = Some p <-> q = pre ++ p.
Proof.
  revert q. induction pre as [|a pre IH]; intros q; simpl; [naive_solver |].
  destruct q as [|b q]; [naive_solver |]. destruct (decide (a = b)) as [->|Hne].
  - rewrite IH. naive_solver.
  - naive_solver.
Qed.

Definition pkey (pre : list str) : option str := match pre with [] => None | _ => Some (join [dot] pre) end.

Lemma next_pkey pre k : Forall seg_ok pre -> nextKey (pkey pre) k = join [dot] (pre ++ [k]).
Proof.
  intros H. rewrite join_snoc. destruct pre as [|a pre]; [done |]. cbn [pkey nextKey]. by rewrite join_truthy.
Qed.

Lemma pkey_snoc pre k : pkey (pre ++ [k]) = Some (join [dot] (pre ++ [k])).
Proof. by destruct pre. Qed.

(** ** Leaves *)

Fixpoint value_at (path : list str) (v : json) : option json :=
  match path with
  | [] => Some v
  | k :: p => match v with JObj l => map_get k l ≫= value_at p | _ => None end
  end.
Definition leaf_at (path : list str) (v : json) : option json :=
  match value_at path v with Some (JObj _) => None | x => x end.

(** Objects with distinct ordered names without dots, all the way down. *)
Fixpoint tree_wf (v : json) : Prop :=
  match v with
  | JObj l => obj_wf l /\ foldr (fun e P => seg_ok (fst e) /\ tree_wf (snd e) /\ P) True l
  | _ => True
  end.

Lemma tree_wf_obj l : tree_wf (JObj l) <-> obj_wf l /\ Forall (fun e => seg_ok (fst e) /\ tree_wf (snd e)) l.
Proof.
  cbn [tree_wf]. assert (foldr (fun e P => seg_ok (fst e) /\ tree_wf (snd e) /\ P) True l <-> Forall (fun e => seg_ok (fst e) /\ tree_wf (snd e)) l) as ->; [| done].
  induction l as [|e l IH]; simpl; [by split |]. rewrite IH, Forall_cons. tauto.
Qed.

(** ** Flattening *)

Definition each_entry (parentKey : option str) : entries -> entries -> entries :=
  fix each (l : entries) (result : entries) : entries :=
    match l with
    | [] => result
    | (key, value) :: l =>
        each l (if isPlainObject value then flattenValues value (Some (nextKey parentKey key)) result
                else obj_set (nextKey parentKey key) value result)
    end.

Lemma flatten_step pre k w res : Forall seg_ok pre ->
  (if isPlainObject w then flattenValues w (Some (nextKey (pkey pre) k)) res else obj_set (nextKey (pkey pre) k) w res) =
  flattenValues w (pkey (pre ++ [k])) res.
Proof. intros H. rewrite next_pkey, pkey_snoc by done. by destruct w. Qed.

Definition flattens (v : json) : Prop := forall pre res q,
  Forall seg_ok pre -> (pre <> [] \/ isPlainObject v = true) -> tree_wf v -> obj_wf res -> dot_free q ->
  obj_wf (flattenValues v (pkey pre) res) /\
  map_get (join [dot] q) (flattenValues v (pkey pre) res) =
  match strip pre q ≫= (fun p => leaf_at p v) with Some x => Some x | None => map_get (join [dot] q) res end.

Lemma flatten_leaf v : isPlainObject v = false -> flattens v.
Proof.
  intros Hv pre res q Hpre [Hne|?] _ Hres Hq; [| congruence]. destruct pre as [|a pre]; [done |].
  assert (flattenValues v (pkey (a :: pre)) res = obj_set (join [dot] (a :: pre)) v res) as -> by (by destruct v).
  split; [by apply obj_set_wf |]. rewrite obj_get_set by done. case_bool_decide as E.
  - apply join_inj in E as ->; [| done | by apply seg_ok_dot_free]. destruct (strip (a :: pre) (a :: pre)) as [p|] eqn:Es.
    + apply strip_self in Es. rewrite <- (app_nil_r (a :: pre)) in Es at 1. apply app_inv_head in Es as <-. by destruct v.
    + exfalso. assert (strip (a :: pre) (a :: pre) = Some []) by (apply strip_self; by rewrite app_nil_r). congruence.
  - destruct (strip (a :: pre) q) as [p|] eqn:Es; [| done]. apply strip_self in Es. destruct p as [|b p].
    + exfalso. apply E. by rewrite Es, app_nil_r.
    + by destruct v.
Qed.

Lemma flatten_obj l : Forall (fun e => flattens (snd e)) l -> flattens (JObj l).
Proof.
  intros HF pre res q Hpre _ [[Hn _] Hk]%tree_wf_obj Hres Hq. change (flattenValues (JObj l) (pkey pre) res) with (each_entry (pkey pre) l res).
  revert res Hres. induction l as [|[k w] l IH]; intros res Hres.
  - split; [done |]. simpl. destruct (strip pre q) as [[|? ?]|]; done.
  - rewrite fmap_cons in Hn. apply NoDup_cons in Hn as [Hkn Hn]. apply Forall_cons in HF as [Hw HF], Hk as [[Hks Hkw] Hk]. simpl in Hkn, Hw, Hks, Hkw.
    cbn [each_entry]. fold (each_entry (pkey pre)). rewrite flatten_step by done.
    destruct (Hw (pre ++ [k]) res q) as [Hw1 Hg1]; [by apply Forall_app; auto | left; by destruct pre | done | done | done |].
    destruct (IH HF Hn Hk _ Hw1) as [Hw2 Hg2]. split; [done |]. rewrite Hg2, Hg1, strip_snoc. clear Hg1 Hg2 Hw1 Hw2.
    destruct (strip pre q) as [[|k' p]|]; [done | | done]. cbn [mbind option_bind]. unfold leaf_at. cbn [value_at map_get].
    apply map_get_None in Hkn. destruct (decide (k = k')) as [<-|Hne].
    + rewrite Hkn, decide_True by done. done.
    + rewrite decide_False by done. by destruct (map_get k' l).
Qed.

Lemma flattens_all v : flattens v.
Proof. induction v using json_rect_nested; try (apply flatten_leaf; done). by apply flatten_obj. Qed.

Lemma flat_get v k : tree_wf v -> isPlainObject v = true -> map_get k (flat v) = leaf_at (split_on dot k) v.
Proof.
  intros Hv Hp. pose proof (split_dot_free k) as Hk. destruct (flattens_all v [] [] (split_on dot k)) as [_ Hg]; [constructor | by right | done | | done |].
  - split; [apply NoDup_nil_2 | done].
  - rewrite join_split in Hg. unfold flat. cbn [pkey] in Hg. rewrite Hg. cbn [strip mbind option_bind map_get]. by destruct (leaf_at _ v).
Qed.

Lemma flat_wf v : tree_wf v -> isPlainObject v = true -> obj_wf (flat v).
Proof.
  intros Hv Hp. destruct (flattens_all v [] [] [[]]) as [Hw _]; [constructor | by right | done | split; [apply NoDup_nil_2 | done] | | exact Hw].
  split; [done |]. repeat constructor. set_solver.
Qed.

(** ** Expanding *)

Definition comparable (p q : list str) : bool :=
  match strip p q, strip q p with None, None => false | _, _ => true end.

Lemma comparable_cons a p q : comparable (a :: p) (a :: q) = comparable p q.
Proof. unfold comparable. simpl. by rewrite !decide_True. Qed.
Lemma comparable_ne a b p q : a <> b -> comparable (a :: p) (b :: q) = false.
Proof. intros H. unfold comparable. simpl. by rewrite !decide_False. Qed.
Lemma comparable_nil q : comparable [] q = true /\ comparable q [] = true.
Proof. unfold comparable. simpl. by destruct (strip q []). Qed.
Lemma comparable_sym p q : comparable p q = comparable q p.
Proof. unfold comparable. by destruct (strip p q), (strip q p). Qed.

Lemma tree_wf_get l k w : tree_wf (JObj l) -> map_get k l = Some w -> tree_wf w.
Proof. intros [_ H]%tree_wf_obj Hg%map_get_elem. rewrite Forall_forall in H. by apply (H (k, w)). Qed.

Lemma tree_wf_set l k w : tree_wf (JObj l) -> seg_ok k -> tree_wf w -> tree_wf (JObj (obj_set k w l)).
Proof.
  rewrite !tree_wf_obj. intros [Hw Hl] Hk Hv. split; [by apply obj_set_wf |]. rewrite Forall_forall in *.
  intros e [->|He]%obj_set_elem; [done | by apply Hl].
Qed.

Lemma tree_wf_empty : tree_wf (JObj []).
Proof. apply tree_wf_obj. repeat split; constructor. Qed.

(** The object a segment leads to. *)
Definition next_obj (k : str) (o : entries) : entries := match map_get k o with Some (JObj n) => n | _ => [] end.

Lemma set_deep_cons k k2 p x o : set_deep (k :: k2 :: p) x o = obj_set k (JObj (set_deep (k2 :: p) x (next_obj k o))) o.
Proof. unfold next_obj. cbn [set_deep]. by destruct (map_get k o) as [[]|]. Qed.

Lemma next_obj_wf k o : tree_wf (JObj o) -> tree_wf (JObj (next_obj k o)).
Proof.
  intros H. unfold next_obj. destruct (map_get k o) as [[]|] eqn:E; try apply tree_wf_empty. by apply (tree_wf_get o k).
Qed.

Lemma set_deep_wf p x o : Forall seg_ok p -> tree_wf x -> tree_wf (JObj o) -> tree_wf (JObj (set_deep p x o)).
Proof.
  intros Hp Hx. revert o. induction Hp as [|k p Hk Hp IH]; intros o Ho; [done |].
  destruct p as [|k2 p]; [by apply tree_wf_set |]. rewrite set_deep_cons. apply tree_wf_set; [done .. |]. by apply IH, next_obj_wf.
Qed.

Lemma leaf_nonobj p w : isPlainObject w = false -> leaf_at p w = match p with [] => Some w | _ => None end.
Proof. intros H. destruct p; by destruct w. Qed.

Lemma leaf_cons k p l : leaf_at (k :: p) (JObj l) = map_get k l ≫= leaf_at p.
Proof. unfold leaf_at. cbn [value_at]. by destruct (map_get k l). Qed.

Lemma leaf_set_deep p x o q : p <> [] -> Forall seg_ok p -> isPlainObject x = false -> tree_wf (JObj o) ->
  leaf_at q (JObj (set_deep p x o)) =
  if decide (q = p) then Some x else if comparable q p then None else leaf_at q (JObj o).
Proof.
  intros Hne Hp Hx. revert o q. induction Hp as [|k p Hk Hp IH]; intros o q Ho; [done |].
  assert (Hw : obj_wf o) by (by apply tree_wf_obj in Ho as [? _]).
  destruct q as [|b q]; [by rewrite decide_False, (proj1 (comparable_nil _)) |].
  destruct p as [|k2 p].
  - cbn [set_deep]. rewrite !leaf_cons, obj_get_set by done. case_bool_decide as E; [subst b |].
    + cbn [mbind option_bind]. rewrite leaf_nonobj by done. rewrite comparable_cons, (proj2 (comparable_nil _)). destruct q; [by rewrite decide_True | by rewrite decide_False].
    + rewrite decide_False, comparable_ne by congruence. done.
  - rewrite set_deep_cons, !leaf_cons, obj_get_set by done. case_bool_decide as E; [subst b |].
    + cbn [mbind option_bind]. rewrite IH by (done || by apply next_obj_wf). rewrite comparable_cons.
      destruct (decide (q = k2 :: p)) as [->|Hq]; [by rewrite decide_True | rewrite decide_False by congruence].
      destruct (comparable q (k2 :: p)) eqn:Ec; [done |]. destruct q as [|c q]; [by rewrite (proj1 (comparable_nil _)) in Ec |].
      unfold next_obj. destruct (map_get k o) as [[]|]; done.
    + rewrite decide_False, comparable_ne by congruence. done.
Qed.

(** *** Settings: flat objects with dotted names *)

Definition put_setting (o : entries) (e : str * json) : entries := set_deep (split_on dot (fst e)) (snd e) o.

Record settings_ok (l : entries) : Prop := {
  so_keys : NoDup l.*1;
  so_segments : Forall (fun e => Forall seg_ok (split_on dot (fst e))) l;
  so_values : Forall (fun e => isPlainObject (snd e) = false) l;
  so_prefix_free : forall k k', k ∈ l.*1 -> k' ∈ l.*1 -> k <> k' -> comparable (split_on dot k) (split_on dot k') = false }.

Lemma expand_settings l : Forall (fun e => isPlainObject (snd e) = false) l ->
  expandDotPaths (JObj l) = JObj (foldl put_setting [] l).
Proof.
  intros H. cbn [expandDotPaths]. f_equal. generalize ([] : entries). induction H as [|[k v] l Hv H IH]; intros o; [done |]. simpl in Hv.
  cbn [foldl]. rewrite <- IH. f_equal. rewrite Hv. unfold setDeepValue, put_setting. cbn [fst snd]. destruct (str_includes k [dot]) eqn:E; [done |].
  rewrite split_on_free; [done |]. intros Hin%str_includes_single. congruence.
Qed.

Lemma settings_ok_tail e l : settings_ok (e :: l) -> settings_ok l.
Proof.
  intros [H1 H2 H3 H4]. rewrite fmap_cons in *. apply NoDup_cons in H1 as [_ H1]. apply Forall_cons in H2 as [_ H2], H3 as [_ H3].
  split; [done .. |]. intros k k' Hk Hk'. apply H4; by right.
Qed.

Lemma settings_fold l o q : settings_ok l -> tree_wf (JObj o) -> dot_free q ->
  tree_wf (JObj (foldl put_setting o l)) /\
  leaf_at q (JObj (foldl put_setting o l)) =
  match map_get (join [dot] q) l with
  | Some x => Some x
  | None => if existsb (fun e => comparable q (split_on dot (fst e))) l then None else leaf_at q (JObj o)
  end.
Proof.
  intros Hl. revert o. induction l as [|[k x] l IH]; intros o Ho Hq; [done |]. pose proof (settings_ok_tail _ _ Hl) as Ht.
  destruct Hl as [Hn Hs Hv Hp]. apply Forall_cons in Hs as [Hs _], Hv as [Hv _]. rewrite fmap_cons in *. apply NoDup_cons in Hn as [Hkn _]. simpl in Hs, Hv, Hkn.
  cbn [foldl]. change (put_setting o (k, x)) with (set_deep (split_on dot k) x o).
  destruct (IH Ht (set_deep (split_on dot k) x o)) as [Hw Hg]; [apply set_deep_wf; [done | by destruct x | done] | done |]. split; [done |].
  rewrite Hg, leaf_set_deep by (done || apply split_on_not_nil). cbn [map_get existsb fst].
  destruct (decide (q = split_on dot k)) as [->|Hqk].
  - rewrite join_split, decide_True by done. apply map_get_None in Hkn as Hkn'. rewrite Hkn'. destruct (existsb _ l) eqn:Ex; [| done]. exfalso.
    apply existsb_exists in Ex as ([k' y] & Hin & Hc). simpl in Hc. rewrite Hp in Hc; [done | by left | right | ].
    + apply list_elem_of_fmap. exists (k', y). split; [done |]. by apply list_elem_of_In.
    + intros <-. apply Hkn. apply list_elem_of_fmap. exists (k, y). split; [done |]. by apply list_elem_of_In.
  - rewrite decide_False by (intros E; apply Hqk; rewrite <- E, split_join; [done | apply Hq ..]).
    destruct (map_get (join [dot] q) l); [done |]. by destruct (comparable q (split_on dot k)), (existsb _ l).
Qed.

Lemma settings_expanded l : settings_ok l ->
  tree_wf (expandDotPaths (JObj l)) /\ isPlainObject (expandDotPaths (JObj l)) = true /\
  forall q, dot_free q -> leaf_at q (expandDotPaths (JObj l)) = map_get (join [dot] q) l.
Proof.
  intros Hl. rewrite expand_settings by apply Hl. split; [| split; [done |]].
  - apply (settings_fold l [] [[]]); [done | apply tree_wf_empty |]. split; [done |]. repeat constructor. set_solver.
  - intros q Hq. rewrite (proj2 (settings_fold l [] q Hl tree_wf_empty Hq)). destruct (map_get _ l); [done |].
    destruct (existsb _ l); [done |]. destruct q; [by destruct Hq |]. by rewrite leaf_cons.
Qed.

(** Names and nested objects.  Settings under distinct dotted names, none of them a prefix of
    another one, are expanded into nested objects and flattened again to exactly the settings they
    were: every name has its value and no other name appears. *)
Theorem settings_names_roundtrip l k : settings_ok l -> map_get k (flat (expandDotPaths (JObj l))) = map_get k l.
Proof.
  intros H. destruct (settings_expanded l H) as (Hw & Hp & Hl). rewrite flat_get by done. rewrite Hl by apply split_dot_free. by rewrite join_split.
Qed.

(** ** Dirty fields *)

Fixpoint dirty_wf (v : json) : Prop :=
  match v with
  | JObj l => obj_wf l /\ foldr (fun e P => seg_ok (fst e) /\ dirty_wf (snd e) /\ P) True l
  | JBool _ => True
  | _ => False
  end.
Definition true_at (q : list str) (d : json) : bool := match value_at q d with Some (JBool true) => true | _ => false end.

Lemma dirty_wf_obj l : dirty_wf (JObj l) <-> obj_wf l /\ Forall (fun e => seg_ok (fst e) /\ dirty_wf (snd e)) l.
Proof.
  cbn [dirty_wf]. assert (foldr (fun e P => seg_ok (fst e) /\ dirty_wf (snd e) /\ P) True l <-> Forall (fun e => seg_ok (fst e) /\ dirty_wf (snd e)) l) as ->; [| done].
  induction l as [|e l IH]; simpl; [by split |]. rewrite IH, Forall_cons. tauto.
Qed.

Fixpoint field_at (path : list str) (v : field) : field :=
  match path with [] => v | k :: p => field_at p (source_of v k) end.

Lemma field_at_leaf p v x : leaf_at p v = Some x -> field_at p (Some v) = Some x.
Proof.
  revert v. induction p as [|k p IH]; intros v.
  - unfold leaf_at. cbn. destruct v; congruence.
  - destruct v as [| | | | |l]; try done. rewrite leaf_cons. cbn [field_at source_of]. destruct (map_get k l) as [w|]; [| done]. apply IH.
Qed.

(** The loop over the entries of an object of marks. *)
Definition visit (parentKey : option str) (values : field) (key : str) (value : json) (result : fields) : fields :=
  match value with
  | JBool true => obj_set (nextKey parentKey key) (source_of values key) result
  | JObj _ | JArr _ => collectDirtyValues value (source_of values key) (Some (nextKey parentKey key)) result
  | _ => result
  end.
Definition each_mark (parentKey : option str) (values : field) : entries -> fields -> fields :=
  fix each (l : entries) (result : fields) : fields :=
    match l with [] => result | (key, value) :: l => each l (visit parentKey values key value result) end.

Lemma visit_step pre values k w res : Forall seg_ok pre ->
  visit (pkey pre) values k w res = collectDirtyValues w (source_of values k) (pkey (pre ++ [k])) res.
Proof. intros H. unfold visit. rewrite next_pkey, pkey_snoc by done. by destruct w as [|[] | | | |]. Qed.

Definition collects (d : json) : Prop := forall pre values res q,
  Forall seg_ok pre -> (pre <> [] \/ isPlainObject d = true) -> dirty_wf d -> obj_wf res -> dot_free q ->
  obj_wf (collectDirtyValues d values (pkey pre) res) /\
  map_get (join [dot] q) (collectDirtyValues d values (pkey pre) res) =
  match strip pre q with
  | Some p => if true_at p d then Some (field_at p values) else map_get (join [dot] q) res
  | None => map_get (join [dot] q) res
  end.

Lemma collect_leaf d : isPlainObject d = false -> collects d.
Proof.
  intros Hd pre values res q Hpre [Hne|?] Hw Hres Hq; [| congruence]. destruct pre as [|a pre]; [done |].
  destruct d as [|[] | | | |]; try done.
  - cbn [collectDirtyValues pkey]. split; [by apply obj_set_wf |]. rewrite obj_get_set by done. case_bool_decide as E.
    + apply join_inj in E as ->; [| done | by apply seg_ok_dot_free].
      assert (strip (a :: pre) (a :: pre) = Some []) as -> by (apply strip_self; by rewrite app_nil_r). done.
    + destruct (strip (a :: pre) q) as [[|b p]|] eqn:Es; [| done | done]. apply strip_self in Es. exfalso. apply E. by rewrite Es, app_nil_r.
  - split; [done |]. cbn [collectDirtyValues]. by destruct (strip (a :: pre) q) as [[|b p]|].
Qed.

Lemma collect_obj l : Forall (fun e => collects (snd e)) l -> collects (JObj l).
Proof.
  intros HF pre values res q Hpre _ [[Hn _] Hk]%dirty_wf_obj Hres Hq.
  change (collectDirtyValues (JObj l) values (pkey pre) res) with (each_mark (pkey pre) values l res).
  revert res Hres. induction l as [|[k w] l IH]; intros res Hres.
  - split; [done |]. simpl. destruct (strip pre q) as [[|? ?]|]; done.
  - rewrite fmap_cons in Hn. apply NoDup_cons in Hn as [Hkn Hn]. apply Forall_cons in HF as [Hw HF], Hk as [[Hks Hkw] Hk]. simpl in Hkn, Hw, Hks, Hkw.
    cbn [each_mark]. fold (each_mark (pkey pre) values). rewrite visit_step by done.
    destruct (Hw (pre ++ [k]) (source_of values k) res q) as [Hw1 Hg1]; [by apply Forall_app; auto | left; by destruct pre | done | done | done |].
    destruct (IH HF Hn Hk _ Hw1) as [Hw2 Hg2]. split; [done |]. rewrite Hg2, Hg1, strip_snoc. clear Hg1 Hg2 Hw1 Hw2.
    destruct (strip pre q) as [[|k' p]|]; [done | | done]. unfold true_at. cbn [value_at map_get field_at].
    apply map_get_None in Hkn. destruct (decide (k = k')) as [<-|Hne].
    + rewrite Hkn, decide_True by done. done.
    + rewrite decide_False by done. by destruct (map_get k' l).
Qed.

Lemma collects_all d : collects d.
Proof. induction d using json_rect_nested; try (apply collect_leaf; done). by apply collect_obj. Qed.

Lemma collect_get d values k : dirty_wf d -> isPlainObject d = true ->
  obj_wf (collectDirtyValues d values None []) /\
  map_get k (collectDirtyValues d values None []) =
  if true_at (split_on dot k) d then Some (field_at (split_on dot k) values) else None.
Proof.
  intros Hd Hp. destruct (collects_all d [] values [] (split_on dot k)) as [Hw Hg]; [constructor | by right | done | | apply split_dot_free |].
  - split; [apply NoDup_nil_2 | done].
  - split; [done |]. by rewrite join_split in Hg.
Qed.

Lemma map_get_filter {V} (f : str * V -> bool) (l : list (str * V)) k : NoDup l.*1 ->
  map_get k (List.filter f l) = match map_get k l with Some v => if f (k, v) then Some v else None | None => None end.
Proof.
  induction l as [|[x v] l IH]; [done |]. rewrite fmap_cons. intros [Hx Hn]%NoDup_cons. simpl in Hx. cbn [List.filter map_get].
  destruct (decide (k = x)) as [->|Hne].
  - destruct (f (x, v)); [by rewrite map_get_head |]. rewrite IH by done. apply map_get_None in Hx. by rewrite Hx.
  - destruct (f (x, v)); [rewrite map_get_tail by done |]; by apply IH.
Qed.

(** ** Submitting *)

(** Two values of a form have the same fields. *)
Definition same_fields (a b : json) : Prop := forall q, leaf_at q a = None <-> leaf_at q b = None.
Definition form_tree (v : json) : Prop := tree_wf v /\ isPlainObject v = true.

(** The library marks exactly the fields whose value is not the default one. *)
Class FormLaws (F : FormLibrary) : Prop := {
  dirty_marks d v : form_tree d -> form_tree v -> same_fields d v ->
    dirty_wf (dirtyFields d v) /\ isPlainObject (dirtyFields d v) = true;
  dirty_law d v q : form_tree d -> form_tree v -> same_fields d v -> dot_free q ->
    true_at q (dirtyFields d v) = true <-> leaf_at q v <> leaf_at q d }.

Section Submitting.
Context {F : FormLibrary} {FL : FormLaws F} (compare : field -> field -> bool).

(** What is saved is kept in three forms, which agree. *)
Definition form_inv (f : SettingsForm) : Prop :=
  formDefault f = defaultValuesRef f /\ baselineRef f = flat (defaultValuesRef f) /\
  serializedDefaultsRef f = serialize_flat (flat (defaultValuesRef f)).

Lemma settled_inv v : form_inv (settled_form v).
Proof. done. Qed.

Lemma form_step_inv f f' : form_inv f -> form_step compare f f' -> form_inv f'.
Proof.
  intros (H1 & H2 & H3) Hs. destruct Hs as [f v|f onSubmit data|f|f d]; [done | | done |].
  - unfold handleSettingsSubmit. destruct (changedFields compare f data); [done |]. simpl. by destruct (onSubmit data _).
  - unfold defaults_effect. cbv zeta. destruct (str_eqb _ _); [done | apply settled_inv].
Qed.

Lemma form_reachable_inv d f : rtc (form_step compare) (useSettingsForm d) f -> form_inv f.
Proof. intros H. apply (rtc_ind_r (fun f => form_inv f)) with (1 := settled_inv _) (3 := H). intros y z _ Hs Hy. by eapply form_step_inv. Qed.

Lemma changed_get f data k : form_inv f -> form_tree (formDefault f) -> form_tree (formValues f) ->
  same_fields (formDefault f) (formValues f) -> same_fields (formDefault f) data ->
  let p := split_on dot k in
  map_get k (changedFields compare f data) =
  if bool_decide (leaf_at p (formValues f) = leaf_at p (formDefault f)) || compare (leaf_at p data) (leaf_at p (formDefault f))
  then None else Some (leaf_at p data).
Proof.
  intros (H1 & H2 & _) Hd Hv Hs Hsd p. destruct (dirty_marks (formDefault f) (formValues f) Hd Hv Hs) as [Hw Hp].
  destruct (collect_get _ (Some data) k Hw Hp) as [[Hn _] Hg]. unfold changedFields. rewrite map_get_filter by done. rewrite Hg. fold p. cbn [fst snd].
  pose proof (dirty_law (formDefault f) (formValues f) p Hd Hv Hs (split_dot_free k)) as Hl.
  rewrite H2, <- H1, flat_get by apply Hd. fold p. case_bool_decide as E.
  - destruct (true_at p _); [exfalso; by apply Hl | done].
  - destruct (true_at p _) eqn:Et; [| exfalso; by apply Hl in E]. cbn [orb].
    assert (Hx : field_at p (Some data) = leaf_at p data).
    { destruct (leaf_at p data) as [x|] eqn:Ex; [by apply field_at_leaf |]. exfalso. apply Hsd in Ex. apply E. rewrite Ex. by apply Hs. }
    rewrite Hx. by destruct (compare _ _).
Qed.

Lemma map_get_all_None {V} (l : list (str * V)) : (forall k, map_get k l = None) -> l = [].
Proof. intros H. destruct l as [|[k v] l]; [done |]. specialize (H k). by rewrite map_get_head in H. Qed.

Lemma unchanged_none v : form_tree v -> changedFields compare (settled_form v) v = [].
Proof.
  intros Hv. apply map_get_all_None. intros k. rewrite changed_get by (done || apply settled_inv). cbn [formValues formDefault settled_form].
  by rewrite bool_decide_true.
Qed.

(** C17: Submitting a settings form.  In every state that the form can reach, a submit sends a field
    exactly when its value is not the saved one (and the comparison of the form does not take them
    as equal), with the value of the form; a failed request leaves the form as it is, and after a
    request that went through the values are the saved ones and a second submit sends nothing. *)
Theorem settings_submit_spec d0 f onSubmit :
  rtc (form_step compare) (useSettingsForm d0) f ->
  form_tree (defaultValuesRef f) -> form_tree (formValues f) -> same_fields (defaultValuesRef f) (formValues f) ->
  let saved := defaultValuesRef f in
  let data := formValues f in
  let '(sent, f') := handleSettingsSubmit compare onSubmit data f in
  (forall k, let p := split_on dot k in
     map_get k (default [] sent) =
     if bool_decide (leaf_at p data = leaf_at p saved) || compare (leaf_at p data) (leaf_at p saved) then None else Some (leaf_at p data)) /\
  match sent with
  | None => f' = f
  | Some changed =>
      if onSubmit data changed
      then formValues f' = data /\ defaultValuesRef f' = data /\ forall o, handleSettingsSubmit compare o data f' = (None, f')
      else f' = f
  end.
Proof.
  intros Hr Hd Hv Hs saved data. pose proof (form_reachable_inv _ _ Hr) as Hi. pose proof (proj1 Hi) as Hdef.
  assert (Hk : forall k, let p := split_on dot k in map_get k (changedFields compare f data) =
     if bool_decide (leaf_at p data = leaf_at p saved) || compare (leaf_at p data) (leaf_at p saved) then None else Some (leaf_at p data)).
  { intros k. unfold data, saved. rewrite changed_get by (by rewrite ?Hdef). by rewrite Hdef. }
  unfold handleSettingsSubmit. destruct (changedFields compare f data) as [|c l] eqn:E; [done |]. split; [exact Hk |].
  destruct (onSubmit data (c :: l)); [| done]. split; [done |]. split; [done |]. intros o. unfold handleSettingsSubmit. by rewrite unchanged_none.
Qed.
End Submitting.

(** ** A library that fits *)

Lemma leaf_segs v q x : tree_wf v -> leaf_at q v = Some x -> Forall seg_ok q.
Proof.
  revert v. induction q as [|k q IH]; intros v Hv Hq; [constructor |]. destruct v as [| | | | |l]; try done. rewrite leaf_cons in Hq.
  destruct (map_get k l) as [w|] eqn:E; [| done]. constructor; [| by apply (IH w); [eapply tree_wf_get |]].
  apply tree_wf_obj in Hv as [_ Hf]. apply map_get_elem in E. rewrite Forall_forall in Hf. by apply (Hf (k, w)).
Qed.

Lemma leaf_incomparable v p q x y : leaf_at p v = Some x -> leaf_at q v = Some y -> comparable p q = true -> p = q.
Proof.
  revert v q. induction p as [|k p IH]; intros v q Hp Hq Hc.
  - destruct q as [|b q]; [done |]. destruct v; done.
  - destruct v as [| | | | |l]; try done. destruct q as [|b q]; [done |]. rewrite leaf_cons in Hp, Hq.
    destruct (decide (k = b)) as [->|Hne]; [| by rewrite comparable_ne in Hc]. rewrite comparable_cons in Hc. f_equal.
    destruct (map_get b l) as [w|]; [| done]. by apply (IH w).
Qed.

Lemma dirty_wf_leaves v : tree_wf v -> (forall q x, leaf_at q v = Some x -> exists b, x = JBool b) -> dirty_wf v.
Proof.
  induction v as [|b|n|s|l IH|l IH] using json_rect_nested; intros Hv Hq; try (destruct (Hq [] _ eq_refl) as [? [=]]; done).
  apply tree_wf_obj in Hv as [Hw Hf]. apply dirty_wf_obj. split; [done |]. rewrite Forall_forall in *. intros [k w] Hin.
  destruct (Hf _ Hin) as [Hk Ht]. split; [done |]. apply (IH _ Hin Ht). intros q x Hx. apply (Hq (k :: q)). rewrite leaf_cons.
  assert (map_get k l = Some w) as -> by (apply elem_map_get; [apply Hw | done]). done.
Qed.

Definition marks (d v : json) : entries :=
  map (fun '(k, _) => (k, JBool true)) (List.filter (fun e => negb (bool_decide (map_get (fst e) (flat d) = Some (snd e)))) (flat v)).
Definition mark_dirty (d v : json) : json := JObj (foldl put_setting [] (marks d v)).
#[local] Instance marking_library : FormLibrary := {| dirtyFields := mark_dirty |}.

Lemma marks_get d v k : form_tree d -> form_tree v ->
  map_get k (marks d v) =
  match leaf_at (split_on dot k) v with
  | Some x => if bool_decide (leaf_at (split_on dot k) d = Some x) then None else Some (JBool true)
  | None => None
  end.
Proof.
  intros [Hd Hd'] [Hv Hv']. unfold marks. rewrite (get_map_values (fun _ => JBool true)). rewrite map_get_filter by (by apply flat_wf).
  rewrite flat_get by done. destruct (leaf_at _ v) as [x|]; [| done]. cbn [fst snd]. rewrite flat_get by done. by case_bool_decide.
Qed.

Lemma marks_ok d v : form_tree v -> settings_ok (marks d v).
Proof.
  intros [Hv Hv']. assert (Hk : forall k, k ∈ (marks d v).*1 -> exists x, leaf_at (split_on dot k) v = Some x).
  { intros k Hk. unfold marks in Hk. rewrite (keys_map (fun _ => JBool true)) in Hk. apply list_elem_of_fmap in Hk as ([k' x] & -> & Hin%list_elem_of_In).
    apply filter_In in Hin as [Hin _]. exists x. rewrite <- flat_get by done. apply elem_map_get; [by apply flat_wf | by apply list_elem_of_In]. }
  split.
  - unfold marks. rewrite (keys_map (fun _ => JBool true)). pose proof (flat_wf v Hv Hv') as [Hn _]. revert Hn. generalize (flat v). intros l. 
    induction l as [|e l IH]; [done |]. rewrite fmap_cons. intros [He Hn]%NoDup_cons. cbn [List.filter]. destruct (negb _); [| by apply IH].
    rewrite fmap_cons. apply NoDup_cons. split; [| by apply IH]. intros Hin. apply He. apply list_elem_of_fmap in Hin as (e' & -> & Hin%list_elem_of_In).
    apply filter_In in Hin as [Hin _]. apply list_elem_of_fmap. exists e'. split; [done | by apply list_elem_of_In].
  - apply Forall_forall. intros [k x] Hin. destruct (Hk k) as [y Hy]; [apply list_elem_of_fmap; by exists (k, x) |]. by eapply leaf_segs.
  - apply Forall_forall. intros [k x] Hin. unfold marks in Hin. apply list_elem_of_fmap in Hin as ([k' y] & [= -> ->] & _). done.
  - intros k k' H1 H2 Hne. destruct (Hk k H1) as [x Hx], (Hk k' H2) as [y Hy]. destruct (comparable _ _) eqn:E; [| done]. exfalso. apply Hne.
    rewrite <- (join_split dot k), <- (join_split dot k'). by rewrite (leaf_incomparable _ _ _ _ _ Hx Hy E).
Qed.

Lemma mark_leaf d v q : form_tree v -> dot_free q -> leaf_at q (mark_dirty d v) = map_get (join [dot] q) (marks d v).
Proof.
  intros Hv Hq. destruct (settings_expanded _ (marks_ok d v Hv)) as (_ & _ & H). rewrite expand_settings in H by apply marks_ok, Hv. by apply H.
Qed.

#[local] Instance marking_laws : FormLaws marking_library.
Proof.
  split.
  - intros d v Hd Hv Hs. split; [| done]. destruct (settings_expanded _ (marks_ok d v Hv)) as (Hw & _ & _). rewrite expand_settings in Hw by apply marks_ok, Hv.
    apply dirty_wf_leaves; [done |]. intros q x Hx. destruct q as [|k q]; [done |].
    rewrite mark_leaf in Hx; [| done | by eapply seg_ok_dot_free, leaf_segs]. rewrite marks_get in Hx by done.
    destruct (leaf_at _ v); [| done]. case_bool_decide; [done |]. injection Hx as <-. by eexists.
  - intros d v q Hd Hv Hs Hq. cbn [dirtyFields marking_library].
    assert (Ht : true_at q (mark_dirty d v) = true <-> leaf_at q (mark_dirty d v) = Some (JBool true)).
    { unfold true_at, leaf_at. destruct (value_at q _) as [[|[]| | | |]|]; split; intros; congruence. }
    rewrite Ht, mark_leaf, marks_get by done. rewrite split_join by apply Hq. specialize (Hs q). destruct (leaf_at q v) as [x|].
    + case_bool_decide as E; [rewrite E; by split | split; [intros _ H; congruence | done]].
    + split; [done |]. intros H. exfalso. apply H. symmetry. by apply Hs.
Qed.

(** ** Examples *)

Definition demo_settings : entries :=
  [(js "ServerName", JStr (js "New API")); (js "legal.privacy", JStr []); (js "legal.user.limit", JNum (n_of_Z 3))].

Ltac concrete := apply (bool_decide_unpack _); vm_compute; exact I.

Lemma demo_settings_ok : settings_ok demo_settings.
Proof.
  split.
  - concrete.
  - repeat constructor; first [done | concrete].
  - repeat constructor.
  - intros k k' Hk Hk' Hne. unfold demo_settings in *. rewrite !fmap_cons in *.
    repeat (apply elem_of_cons in Hk as [->|Hk]; [repeat (apply elem_of_cons in Hk' as [->|Hk']; [first [done | vm_compute; reflexivity] |]); by inversion Hk' |]).
    by inversion Hk.
Qed.

Lemma settings_names_roundtrip_witness :
  map_get (js "legal.user.limit") (flat (expandDotPaths (JObj demo_settings))) = Some (JNum (n_of_Z 3)) /\
  map_get (js "legal.user") (flat (expandDotPaths (JObj demo_settings))) = None.
Proof. split; (etransitivity; [apply (settings_names_roundtrip demo_settings _ demo_settings_ok) | vm_compute; reflexivity]). Defined.

(** A form with one edited field. *)
Definition nested (n : Z) : json := JObj [(js "legal", JObj [(js "limit", JNum (n_of_Z n))])].
Definition edited_form : SettingsForm := edit_values (nested 5) (useSettingsForm (JObj [(js "legal.limit", JNum (n_of_Z 3))])).

Lemma nested_tree n : form_tree (nested n).
Proof.
  split; [| done]. cbn [tree_wf nested foldr fst snd].
  repeat split; try done; try (apply NoDup_singleton); concrete.
Qed.

Lemma nested_fields n m : same_fields (nested n) (nested m).
Proof.
  intros [|k [|k2 [|k3 q]]]; unfold leaf_at; cbn [value_at nested map_get mbind option_bind]; [done | | |];
    (destruct (decide (k = js "legal")); [| done]); cbn [mbind option_bind value_at map_get]; try done;
    (destruct (decide (k2 = js "limit")); [| done]); done.
Qed.

Lemma settings_submit_spec_witness :
  defaultValuesRef edited_form = nested 3 /\
  map_get (js "legal.limit") (default [] (fst (handleSettingsSubmit defaultCompare (fun _ _ => true) (formValues edited_form) edited_form))) =
    Some (Some (JNum (n_of_Z 5))).
Proof.
  assert (Hd : defaultValuesRef edited_form = nested 3) by (vm_compute; reflexivity). split; [exact Hd |].
  pose proof (settings_submit_spec defaultCompare (JObj [(js "legal.limit", JNum (n_of_Z 3))]) edited_form (fun _ _ => true)) as H. rewrite Hd in H.
  specialize (H (rtc_once _ _ (step_edit _ _ _)) (nested_tree 3) (nested_tree 5) (nested_fields 3 5)). cbv zeta in H.
  destruct (handleSettingsSubmit defaultCompare (fun _ _ => true) (formValues edited_form) edited_form) as [sent f']. destruct H as [H _].
  cbn [fst]. rewrite (H (js "legal.limit")). vm_compute. reflexivity.
Defined.

(** New default values replace what the user typed: the form is reset to them whatever it held. *)
Lemma new_defaults_discard_edits d v f :
  serialize_flat (flat (expandDotPaths d)) <> serializedDefaultsRef f ->
  formValues (defaults_effect d (edit_values v f)) = expandDotPaths d.
Proof.
  intros H. unfold defaults_effect. cbn [edit_values serializedDefaultsRef].
  destruct (str_eqb _ _) eqn:E; [by apply str_eqb_eq in E | done].
Qed.
