(* ===== verification/TableState.v ===== *)
(** * The state of tables

    [hooks/use-table-url-state.ts] keeps the page, the search text and the column filters of a
    table in the search part of the URL, and the page size also in the local storage.
    [components/data-table/hooks/use-data-table.ts] counts pages and remembers which columns are
    visible.

    The router is not part of the repository: a navigation makes the given search the current one,
    where an entry that is [undefined] reads like a missing one.  Numbers of pages are integers. *)
From S2P Require Import Prelude Number Json JsonObject.

Local Open Scope Z_scope.

(** ** Values in the URL *)

Inductive uval := UNum (n : Z) | UText (s : str) | UList (l : list uval) | UOther.
Abbreviation SearchRecord := (list (str * uval)).

Fixpoint uval_eqb (a b : uval) : bool :=
  match a, b with
  | UNum x, UNum y => x =? y
  | UText x, UText y => str_eqb x y
  | UList l, UList k =>
      (fix go l k := match l, k with [], [] => true | x :: l, y :: k => uval_eqb x y && go l k | _, _ => false end) l k
  | UOther, UOther => true
  | _, _ => false
  end.
Definition opt_uval_eqb (a b : option uval) : bool :=
  match a, b with Some x, Some y => uval_eqb x y | None, None => true | _, _ => false end.

(** The router gives the old search object when the new one has the same entries. *)
Definition same_search (a b : SearchRecord) : bool :=
  forallb (fun k => opt_uval_eqb (map_get k a) (map_get k b)) (a.*1 ++ b.*1).

(** [{ ...prev, ...patch }]. *)
Definition put_search (prev : SearchRecord) (e : str * option uval) : SearchRecord :=
  match snd e with Some v => obj_set (fst e) v prev | None => obj_delete (fst e) prev end.
Definition patch_search (prev : SearchRecord) (patch : list (str * option uval)) : SearchRecord := foldl put_search prev patch.

(** ** The stored page size *)

Fixpoint take_digits (s : str) : str :=
  match s with c :: r => if is_digit c then c :: take_digits r else [] | [] => [] end.
(** [parseInt(s, 10)]. *)
Definition parse_digits (s : str) : option Z :=
  match take_digits s with [] => None | ds => Some (Z.of_N (digits_val ds)) end.
Definition parseInt (s : str) : option Z :=
  match trimStart s with
  | c :: r => if (c =? 45)%N then Z.opp <$> parse_digits r else if (c =? 43)%N then parse_digits r else parse_digits (c :: r)
  | [] => None
  end.

(** [None] without an entry or without storage. *)
Definition getStoredPageSize (stored : option str) : option Z :=
  match parseInt (default [] stored) with Some n => if 0 <? n then Some n else None | None => None end.

(** [full] says that the storage refuses the text. *)
Definition setStoredPageSize (full : bool) (size : Z) (stored : option str) : option str :=
  if full then stored else Some (show_Z size).

(** ** The hook *)

Record ColumnConfig := mkColumn {
  columnId : str; searchKey : str;
  isString : bool;           (* type === 'string' *)
  serialize : uval -> option uval; deserialize : option uval -> option uval }.

Record TableConfig := mkTable {
  pageKey : str; pageSizeKey : str; defaultPage : Z; defaultPageSize : Z;
  globalFilterKey : str; globalFilterEnabled : bool; trimGlobal : bool;
  columnFiltersCfg : list ColumnConfig }.

Abbreviation ColumnFiltersState := (list (str * uval)).
Record PaginationState := mkPagination { pageIndex : Z; pageSize : Z }.

Section Table.
Context (cfg : TableConfig).

(** A value a column can be filtered by. *)
Definition usable_filter (c : ColumnConfig) (v : uval) : bool :=
  match v with
  | UText s => isString c && truthy (trim s)
  | UList l => negb (isString c) && match l with [] => false | _ => true end
  | _ => false
  end.

Definition read_filter (search : SearchRecord) (c : ColumnConfig) : ColumnFiltersState :=
  match deserialize c (map_get (searchKey c) search) with
  | Some v => if usable_filter c v then [(columnId c, v)] else []
  | None => []
  end.
Definition initialColumnFilters (search : SearchRecord) : ColumnFiltersState :=
  flat_map (read_filter search) (columnFiltersCfg cfg).

Definition number_or (v : option uval) (d : Z) : Z := match v with Some (UNum n) => n | _ => d end.

Definition pagination (search : SearchRecord) (stored : option str) : PaginationState :=
  mkPagination (Z.max 0 (number_or (map_get (pageKey cfg) search) (defaultPage cfg) - 1))
    (number_or (map_get (pageSizeKey cfg) search) (default (defaultPageSize cfg) (getStoredPageSize stored))).

Record TableState := mkTableState {
  ts_search : SearchRecord; ts_stored : option str; ts_columnFilters : ColumnFiltersState; ts_globalFilter : option str }.

Definition open_global (search : SearchRecord) : option str :=
  if globalFilterEnabled cfg then Some (match map_get (globalFilterKey cfg) search with Some (UText s) => s | _ => [] end) else None.
Definition useTableUrlState (search : SearchRecord) (stored : option str) : TableState :=
  mkTableState search stored (initialColumnFilters search) (open_global search).

(** A navigation, and the effect for a new search. *)
Definition navigate (search : SearchRecord) (s : TableState) : TableState :=
  if same_search search (ts_search s) then s
  else mkTableState search (ts_stored s) (initialColumnFilters search) (ts_globalFilter s).

Definition onPaginationChange (full : bool) (next : PaginationState) (s : TableState) : TableState :=
  let nextPage := pageIndex next + 1 in
  let nextPageSize := pageSize next in
  let stored := if nextPageSize =? pageSize (pagination (ts_search s) (ts_stored s)) then ts_stored s
                else setStoredPageSize full nextPageSize (ts_stored s) in
  navigate (patch_search (ts_search s)
              [(pageKey cfg, if nextPage <=? defaultPage cfg then None else Some (UNum nextPage));
               (pageSizeKey cfg, Some (UNum nextPageSize))])
    (mkTableState (ts_search s) stored (ts_columnFilters s) (ts_globalFilter s)).

Definition onGlobalFilterChange (next : str) (s : TableState) : TableState :=
  if globalFilterEnabled cfg then
    let value := if trimGlobal cfg then trim next else next in
    navigate (patch_search (ts_search s)
                [(pageKey cfg, None); (globalFilterKey cfg, if truthy value then Some (UText value) else None)])
      (mkTableState (ts_search s) (ts_stored s) (ts_columnFilters s) (Some value))
  else s.

(** The entry of the URL for a column. *)
Definition filter_entry (next : ColumnFiltersState) (c : ColumnConfig) : str * option uval :=
  (searchKey c,
   match map_get (columnId c) next with
   | Some v => if usable_filter c v then serialize c v else None
   | None => None
   end).
Definition onColumnFiltersChange (next : ColumnFiltersState) (s : TableState) : TableState :=
  navigate (patch_search (ts_search s) ((pageKey cfg, None) :: map (filter_entry next) (columnFiltersCfg cfg)))
    (mkTableState (ts_search s) (ts_stored s) next (ts_globalFilter s)).

(** [last] says that the last page is wanted instead of the first. *)
Definition ensurePageInRange (pageCount : Z) (last : bool) (s : TableState) : TableState :=
  let pageNum := number_or (map_get (pageKey cfg) (ts_search s)) (defaultPage cfg) in
  if (0 <? pageCount) && (pageCount <? pageNum) then
    navigate (patch_search (ts_search s) [(pageKey cfg, if last then Some (UNum pageCount) else None)]) s
  else s.

(** The steps of a table: its own operations, and a navigation from outside, as by the back button or by a link. *)
Inductive table_step : TableState -> TableState -> Prop :=
| step_page s full next : 0 <= pageIndex next -> table_step s (onPaginationChange full next s)
| step_global s next : table_step s (onGlobalFilterChange next s)
| step_filters s next : table_step s (onColumnFiltersChange next s)
| step_range s pageCount last : table_step s (ensurePageInRange pageCount last s)
| step_outside s search : obj_wf search -> table_step s (navigate search s).
End Table.

(** The number of pages of a table. *)
Definition resolvedPageCount (explicitPageCount totalCount : option Z) (size : Z) : option Z :=
  match explicitPageCount with
  | Some n => Some n
  | None => (fun total => (total + size - 1) / size) <$> totalCount
  end.

(** ** Visible columns *)

Abbreviation VisibilityState := (list (str * bool)).

Definition readColumnVisibility (storageKey : option str) (storage : list (str * str)) : VisibilityState :=
  match storageKey with
  | Some key =>
      if truthy key then
        match map_get key storage with
        | Some raw =>
            if truthy raw then
              match JSON_parse raw with
              | Some (JObj l) => foldl (put_entry (fun _ value _ => match value with JBool b => Some b | _ => None end)) [] l
              | _ => []
              end
            else []
        | None => []
        end
      else []
  | None => []
  end.

Section Visibility.
Context (initialColumnVisibility : VisibilityState).

Definition resolvedInitialColumnVisibility (key : option str) (storage : list (str * str)) : VisibilityState :=
  foldl (fun r e => obj_set (fst e) (snd e) r) initialColumnVisibility (readColumnVisibility key storage).

(** The state of a table whose columns are not controlled from outside. *)
Record Visibility := mkVisibility {
  vs_columns : VisibilityState; vs_hydrated : option str; vs_skip : bool; vs_storage : list (str * str) }.

Definition open_columns (key : option str) (storage : list (str * str)) : Visibility :=
  mkVisibility (resolvedInitialColumnVisibility key storage) key false storage.

Definition hydrate_effect (key : option str) (s : Visibility) : Visibility :=
  if bool_decide (key = vs_hydrated s) then s
  else mkVisibility (resolvedInitialColumnVisibility key (vs_storage s)) key true (vs_storage s).

Definition visibility_json (v : VisibilityState) : json := JObj (map (fun '(k, b) => (k, JBool b)) v).

Definition persist_effect (full : bool) (key : option str) (s : Visibility) : Visibility :=
  match key with
  | Some k =>
      if negb (truthy k) then s
      else if vs_skip s then mkVisibility (vs_columns s) (vs_hydrated s) false (vs_storage s)
      else if full then s
      else mkVisibility (vs_columns s) (vs_hydrated s) (vs_skip s) (map_set k (JSON_stringify (visibility_json (vs_columns s))) (vs_storage s))
  | None => s
  end.

(** The effects after a render.  A new key renders twice: the first time loads the columns, the
    second one has them. *)
Definition commit (full : bool) (key : option str) (s : Visibility) : Visibility := persist_effect full key (hydrate_effect key s).
Definition change_key (full : bool) (key : option str) (s : Visibility) : Visibility := commit full key (commit full key s).
Definition onColumnVisibilityChange (full : bool) (key : option str) (next : VisibilityState) (s : Visibility) : Visibility :=
  commit full key (mkVisibility next (vs_hydrated s) (vs_skip s) (vs_storage s)).
End Visibility.
