(* ===== verification/TableProps.v ===== *)
(** * What the URL of a table says

    The page and the column filters of a table are what its URL says in every state the hook can reach;
    each operation changes the part of the view it is for.  The search text is the one that was typed
    last: a navigation from outside changes what the URL says of it, and not the text. *)
From S2P Require Import Prelude Number Json JsonObject TableState.

Local Open Scope Z_scope.

(** ** Patching the search *)

Lemma put_search_get k prev e : obj_wf prev ->
  obj_wf (put_search prev e) /\ map_get k (put_search prev e) = if bool_decide (k = fst e) then snd e else map_get k prev.
Proof.
  intros H. destruct e as [x [v|]]; cbn [put_search fst snd].
  - split; [by apply obj_set_wf | by apply obj_get_set].
  - split; [by apply obj_delete_wf | by apply obj_get_delete].
Qed.

Lemma patch_get k patch prev : obj_wf prev -> NoDup patch.*1 ->
  obj_wf (patch_search prev patch) /\
  map_get k (patch_search prev patch) = match map_get k patch with Some v => v | None => map_get k prev end.
Proof.
  intros Hp Hn. unfold patch_search. revert prev Hp. induction patch as [|e patch IH]; intros prev Hp; [done |].
  rewrite fmap_cons in Hn. apply NoDup_cons in Hn as [He Hn]. cbn [foldl]. destruct (put_search_get k prev e Hp) as [Hw Hg].
  destruct (IH Hn _ Hw) as [Hw2 Hg2]. split; [done |]. rewrite Hg2, Hg. destruct e as [x v]. cbn [map_get fst snd] in *.
  destruct (decide (k = x)) as [->|Hne]; [| by rewrite bool_decide_false].
  apply map_get_None in He. by rewrite He, bool_decide_true.
Qed.

Lemma uval_eqb_eq a b : uval_eqb a b = true -> a = b.
Proof.
  revert a b. fix IH 1. intros [x|x|l|] [y|y|k|]; cbn [uval_eqb]; try done.
  - intros ->%Z.eqb_eq. done.
  - intros ->%str_eqb_eq. done.
  - intros H. f_equal. revert k H. induction l as [|a l IHl]; intros [|b k] H; try done.
    apply andb_true_iff in H as [H1 H2]. f_equal; [by apply IH | by apply IHl].
Qed.

Lemma same_search_get a b k : same_search a b = true -> map_get k a = map_get k b.
Proof.
  unfold same_search. rewrite forallb_forall. intros H.
  assert (He : forall x y, opt_uval_eqb x y = true -> x = y) by (intros [x|] [y|] Hx; try done; by rewrite (uval_eqb_eq _ _ Hx)).
  destruct (map_get k a) as [x|] eqn:Ea.
  - rewrite <- Ea. apply He, H, list_elem_of_In, elem_of_app. left. apply map_get_elem in Ea. apply list_elem_of_fmap. by exists (k, x).
  - destruct (map_get k b) as [y|] eqn:Eb; [| done]. rewrite <- Ea, <- Eb. apply He, H, list_elem_of_In, elem_of_app. right.
    apply map_get_elem in Eb. apply list_elem_of_fmap. by exists (k, y).
Qed.

(** ** Configurations *)

Record table_ok (cfg : TableConfig) : Prop := {
  tk_keys : NoDup (pageKey cfg :: pageSizeKey cfg :: globalFilterKey cfg :: map searchKey (columnFiltersCfg cfg));
  tk_columns : NoDup (map columnId (columnFiltersCfg cfg));
  tk_first : defaultPage cfg = 1;
  tk_values : forall c v, c ∈ columnFiltersCfg cfg -> usable_filter c v = true -> deserialize c (serialize c v) = Some v;
  tk_empty : forall c v, c ∈ columnFiltersCfg cfg -> deserialize c None = Some v -> usable_filter c v = false }.

Section Views.
Context (cfg : TableConfig) (Hok : table_ok cfg).

(** The filter a table applies to a column, and the one its URL says. *)
Definition usable (c : ColumnConfig) (v : option uval) : option uval :=
  match v with Some v => if usable_filter c v then Some v else None | None => None end.
Definition shown_filter (filters : list (str * uval)) (c : ColumnConfig) : option uval := usable c (map_get (columnId c) filters).
Definition url_filter (search : list (str * uval)) (c : ColumnConfig) : option uval := usable c (deserialize c (map_get (searchKey c) search)).

Lemma flat_map_get (cols : list ColumnConfig) search c : NoDup (map columnId cols) -> c ∈ cols ->
  map_get (columnId c) (flat_map (read_filter search) cols) = url_filter search c.
Proof.
  induction cols as [|d cols IH]; intros Hn Hc; [by inversion Hc |]. cbn [map] in Hn. apply NoDup_cons in Hn as [Hd Hn].
  cbn [flat_map]. rewrite map_get_app. apply elem_of_cons in Hc as [->|Hc].
  - assert (Hrest : map_get (columnId d) (flat_map (read_filter search) cols) = None).
    { apply map_get_None. intros Hin. apply Hd. apply list_elem_of_fmap in Hin as ([x v] & Hx & Hin). simpl in Hx.
      apply list_elem_of_In, in_flat_map in Hin as (d' & Hd' & Hin). unfold read_filter in Hin.
      destruct (deserialize d' _) as [w|]; [| done]. destruct (usable_filter d' w); [| done]. destruct Hin as [[= <- <-]|[]].
      rewrite Hx. apply list_elem_of_In, in_map_iff. by exists d'. }
    rewrite Hrest. unfold read_filter, url_filter, usable. destruct (deserialize d _) as [w|]; [| done].
    destruct (usable_filter d w); [by rewrite map_get_head | done].
  - assert (Hne : columnId c <> columnId d).
    { intros E. apply Hd. rewrite <- E. by apply list_elem_of_fmap_2. }
    assert (Hhead : map_get (columnId c) (read_filter search d) = None).
    { unfold read_filter. destruct (deserialize d _) as [w|]; [| done]. destruct (usable_filter d w); [| done]. by rewrite map_get_tail. }
    rewrite Hhead. by apply IH.
Qed.

Lemma initial_filters search c : c ∈ columnFiltersCfg cfg -> shown_filter (initialColumnFilters cfg search) c = url_filter search c.
Proof.
  intros Hc. unfold shown_filter, initialColumnFilters. rewrite flat_map_get by (done || apply Hok).
  unfold url_filter, usable. destruct (deserialize c _) as [v|]; [| done]. destruct (usable_filter c v) eqn:E; [by rewrite E | done].
Qed.

(** The table has the filters that its URL says. *)
Record consistent (s : TableState) : Prop := {
  cs_wf : obj_wf (ts_search s);
  cs_filters : forall c, c ∈ columnFiltersCfg cfg -> shown_filter (ts_columnFilters s) c = url_filter (ts_search s) c }.

(** What a table shows: its page, its search text and its filters; and the search text that its URL says. *)
Record shows (s : TableState) (page : PaginationState) (global link : option str) (filter : ColumnConfig -> option uval) : Prop := {
  sh_page : pagination cfg (ts_search s) (ts_stored s) = page;
  sh_global : ts_globalFilter s = global;
  sh_link : open_global cfg (ts_search s) = link;
  sh_filter : forall c, c ∈ columnFiltersCfg cfg -> shown_filter (ts_columnFilters s) c = filter c }.

(** Reading depends on the entries alone. *)
Lemma reads_ext a b stored : (forall k, map_get k a = map_get k b) ->
  pagination cfg a stored = pagination cfg b stored /\ open_global cfg a = open_global cfg b /\ (forall c, url_filter a c = url_filter b c).
Proof. intros H. unfold pagination, open_global, url_filter. repeat setoid_rewrite H. done. Qed.

Lemma navigate_reads search s : obj_wf search -> obj_wf (ts_search s) ->
  (forall c, c ∈ columnFiltersCfg cfg -> (forall k, map_get k search = map_get k (ts_search s)) -> shown_filter (ts_columnFilters s) c = url_filter search c) ->
  let s' := navigate cfg search s in
  obj_wf (ts_search s') /\ (forall k, map_get k (ts_search s') = map_get k search) /\
  ts_stored s' = ts_stored s /\ ts_globalFilter s' = ts_globalFilter s /\
  forall c, c ∈ columnFiltersCfg cfg -> shown_filter (ts_columnFilters s') c = url_filter search c.
Proof.
  intros Hw Hw' Hs s'. unfold s', navigate. destruct (same_search search (ts_search s)) eqn:E.
  - assert (Hk : forall k, map_get k search = map_get k (ts_search s)) by (intros k; by apply same_search_get). split_and!; auto.
  - split_and!; auto. intros c Hc. by apply initial_filters.
Qed.

(** A navigation by a patch: what is shown afterwards is what the patched entries say. *)
Lemma navigate_shows patch s s0 filter : NoDup patch.*1 -> obj_wf (ts_search s0) -> ts_search s = ts_search s0 ->
  let read k := match map_get k patch with Some v => v | None => map_get k (ts_search s0) end in
  (forall c, c ∈ columnFiltersCfg cfg -> usable c (deserialize c (read (searchKey c))) = filter c) ->
  (forall c, c ∈ columnFiltersCfg cfg -> (forall k, read k = map_get k (ts_search s0)) -> shown_filter (ts_columnFilters s) c = filter c) ->
  let s' := navigate cfg (patch_search (ts_search s0) patch) s in
  consistent s' /\
  shows s' (mkPagination (Z.max 0 (number_or (read (pageKey cfg)) (defaultPage cfg) - 1))
              (number_or (read (pageSizeKey cfg)) (default (defaultPageSize cfg) (getStoredPageSize (ts_stored s)))))
    (ts_globalFilter s) (if globalFilterEnabled cfg then Some (match read (globalFilterKey cfg) with Some (UText t) => t | _ => [] end) else None) filter.
Proof.
  intros Hn Hw Hse read Hf Hkeep s'.
  assert (Hpw : obj_wf (patch_search (ts_search s0) patch)) by (by apply (patch_get [])).
  assert (Hp : forall k, map_get k (patch_search (ts_search s0) patch) = read k) by (intros k; by apply patch_get).
  assert (Hu : forall c, c ∈ columnFiltersCfg cfg -> url_filter (patch_search (ts_search s0) patch) c = filter c).
  { intros c Hc. unfold url_filter. rewrite Hp. by apply Hf. }
  destruct (navigate_reads (patch_search (ts_search s0) patch) s) as (Hw2 & Hk & Hst & Hgl & Hfi).
  - done.
  - by rewrite Hse.
  - intros c Hc Hsame. rewrite Hu by done. apply Hkeep; [done |]. intros k. rewrite <- Hp, Hsame, Hse. done.
  - fold s' in Hw2, Hk, Hst, Hgl, Hfi. destruct (reads_ext (ts_search s') (patch_search (ts_search s0) patch) (ts_stored s') Hk) as (Hpg & Hog & Huf).
    split; split.
    + done.
    + intros c Hc. by rewrite Hfi, Huf.
    + rewrite Hpg, Hst. unfold pagination. by rewrite !Hp.
    + done.
    + rewrite Hog. unfold open_global. by rewrite Hp.
    + intros c Hc. by rewrite Hfi, Hu.
Qed.

Ltac keys := pose proof (tk_keys cfg Hok) as Hkeys; cbn [map] in Hkeys;
  apply NoDup_cons in Hkeys as [Hk1 Hkeys]; apply NoDup_cons in Hkeys as [Hk2 Hkeys]; apply NoDup_cons in Hkeys as [Hk3 Hkeys];
  rewrite !not_elem_of_cons in Hk1; rewrite not_elem_of_cons in Hk2.

Lemma column_key c : c ∈ columnFiltersCfg cfg -> searchKey c <> pageKey cfg /\ searchKey c <> pageSizeKey cfg /\ searchKey c <> globalFilterKey cfg.
Proof.
  intros Hc. keys. assert (Hin : searchKey c ∈ map searchKey (columnFiltersCfg cfg)) by (by apply list_elem_of_fmap_2).
  split_and!; intros E; rewrite E in Hin; tauto.
Qed.

(** The key of a patch of two entries. *)
Lemma get2 (k1 k2 : str) (v1 v2 : option uval) k :
  map_get k [(k1, v1); (k2, v2)] = if decide (k = k1) then Some v1 else if decide (k = k2) then Some v2 else None.
Proof. done. Qed.

Lemma table_page_step full next s : consistent s -> 0 <= pageIndex next ->
  let s' := onPaginationChange cfg full next s in
  consistent s' /\ shows s' next (ts_globalFilter s) (open_global cfg (ts_search s)) (shown_filter (ts_columnFilters s)).
Proof.
  intros [Hw Hf] Hnext s'. keys. unfold s', onPaginationChange. cbv zeta.
  edestruct (navigate_shows [(pageKey cfg, if pageIndex next + 1 <=? defaultPage cfg then None else Some (UNum (pageIndex next + 1)));
    (pageSizeKey cfg, Some (UNum (pageSize next)))]) as [Hc Hs]; [| exact Hw | | | | split; [exact Hc |]].
  - cbn. apply NoDup_cons. split; [set_solver | apply NoDup_singleton].
  - done.
  - intros c Hcol. destruct (column_key c Hcol) as (H1 & H2 & H3). rewrite get2, !decide_False by done. symmetry. by apply (Hf c Hcol).
  - intros c Hcol _. done.
  - cbn [ts_stored] in Hs. rewrite !get2, (decide_True (P := pageKey cfg = pageKey cfg)), (decide_False (P := pageSizeKey cfg = pageKey cfg)), decide_True in Hs by naive_solver.
    destruct Hs as [Hp Hgl Hl Hfi]. split; [| done | by rewrite !decide_False in Hl by naive_solver | done]. etransitivity; [exact Hp |]. rewrite (tk_first cfg Hok). destruct next as [i sz]. cbn [pageIndex pageSize number_or] in *. f_equal.
    destruct (Z.leb_spec (i + 1) 1); cbn [number_or]; lia.
Qed.

Lemma global_step next s : consistent s -> globalFilterEnabled cfg = true ->
  let value := if trimGlobal cfg then trim next else next in
  let s' := onGlobalFilterChange cfg next s in
  consistent s' /\
  shows s' (mkPagination 0 (pageSize (pagination cfg (ts_search s) (ts_stored s)))) (Some value) (Some value) (shown_filter (ts_columnFilters s)).
Proof.
  intros [Hw Hf] He value s'. keys. unfold s', onGlobalFilterChange. rewrite He. fold value.
  edestruct (navigate_shows [(pageKey cfg, None); (globalFilterKey cfg, if truthy value then Some (UText value) else None)]) as [Hc Hs];
    [| exact Hw | | | | split; [exact Hc |]].
  - cbn. apply NoDup_cons. split; [set_solver | apply NoDup_singleton].
  - done.
  - intros c Hcol. destruct (column_key c Hcol) as (H1 & H2 & H3). rewrite get2, !decide_False by done. symmetry. by apply (Hf c Hcol).
  - intros c Hcol _. done.
  - cbn [ts_stored] in Hs. destruct Hs as [Hp Hgl Hl Hfi]. split; [| done | | done].
    + rewrite !get2, decide_True, (decide_False (P := pageSizeKey cfg = pageKey cfg)), (decide_False (P := pageSizeKey cfg = globalFilterKey cfg)) in Hp by naive_solver.
      etransitivity; [exact Hp |]. by rewrite (tk_first cfg Hok).
    + rewrite get2, He, decide_False, decide_True in Hl by naive_solver. rewrite Hl. by destruct value.
Qed.

Lemma filter_entry_get next cols c : NoDup (map searchKey cols) -> c ∈ cols ->
  map_get (searchKey c) (map (filter_entry next) cols) = Some (snd (filter_entry next c)).
Proof.
  induction cols as [|d cols IH]; intros Hn Hc; [by inversion Hc |]. cbn [map] in *. apply NoDup_cons in Hn as [Hd Hn].
  apply elem_of_cons in Hc as [->|Hc]; [apply map_get_head |]. unfold filter_entry at 1. rewrite map_get_tail; [by apply IH |].
  intros E. apply Hd. rewrite <- E. by apply list_elem_of_fmap_2.
Qed.

Lemma filter_entry_keys next cols : (map (filter_entry next) cols).*1 = map searchKey cols.
Proof. induction cols as [|c cols IH]; [done |]. cbn. by f_equal. Qed.

Lemma columns_step next s : consistent s ->
  let s' := onColumnFiltersChange cfg next s in
  consistent s' /\
  shows s' (mkPagination 0 (pageSize (pagination cfg (ts_search s) (ts_stored s)))) (ts_globalFilter s) (open_global cfg (ts_search s)) (shown_filter next).
Proof.
  intros [Hw Hf] s'. keys. unfold s', onColumnFiltersChange. set (patch := map (filter_entry next) (columnFiltersCfg cfg)).
  assert (Hnone : forall k, k ∉ map searchKey (columnFiltersCfg cfg) -> k <> pageKey cfg -> map_get k ((pageKey cfg, None) :: patch) = None).
  { intros k Hk Hne. rewrite map_get_tail by done. apply map_get_None. unfold patch. by rewrite filter_entry_keys. }
  edestruct (navigate_shows ((pageKey cfg, None) :: patch)) as [Hc Hs]; [| exact Hw | | | | split; [exact Hc |]].
  - rewrite fmap_cons. unfold patch. rewrite filter_entry_keys. apply NoDup_cons. split; [apply Hk1 | apply Hkeys].
  - done.
  - intros c Hcol. destruct (column_key c Hcol) as (H1 & H2 & H3). rewrite map_get_tail by done. unfold patch. rewrite filter_entry_get by done.
    cbn [filter_entry snd]. unfold usable. instantiate (1 := shown_filter next). cbn beta. unfold shown_filter, usable.
    destruct (map_get (columnId c) next) as [v|]; [destruct (usable_filter c v) eqn:Eu|].
    + rewrite (tk_values cfg Hok c v Hcol Eu). by rewrite Eu.
    + destruct (deserialize c None) as [w|] eqn:Ed; [| done]. by rewrite (tk_empty cfg Hok c w Hcol Ed).
    + destruct (deserialize c None) as [w|] eqn:Ed; [| done]. by rewrite (tk_empty cfg Hok c w Hcol Ed).
  - intros c Hcol _. done.
  - cbn [ts_stored] in Hs. rewrite map_get_head, !Hnone in Hs by (apply Hk3 || naive_solver). destruct Hs as [Hp Hgl Hl Hfi]. split; [| done | done | done].
    etransitivity; [exact Hp |]. rewrite (tk_first cfg Hok). done.
Qed.

Lemma range_step pageCount last s : consistent s ->
  let page := pagination cfg (ts_search s) (ts_stored s) in
  let s' := ensurePageInRange cfg pageCount last s in
  consistent s' /\
  shows s' (if (0 <? pageCount) && (pageCount <=? pageIndex page) then mkPagination (if last then pageCount - 1 else 0) (pageSize page) else page)
    (ts_globalFilter s) (open_global cfg (ts_search s)) (shown_filter (ts_columnFilters s)).
Proof.
  intros Hcons. pose proof Hcons as [Hw Hf]. intros page s'. keys. unfold s', ensurePageInRange. cbv zeta.
  set (pageNum := number_or (map_get (pageKey cfg) (ts_search s)) (defaultPage cfg)).
  assert (Hcond : (0 <? pageCount) && (pageCount <=? pageIndex page) = (0 <? pageCount) && (pageCount <? pageNum)).
  { unfold page, pagination. cbn [pageIndex]. fold pageNum. destruct (Z.ltb_spec 0 pageCount); [| done]. cbn [andb]. lia. }
  rewrite Hcond. destruct ((0 <? pageCount) && (pageCount <? pageNum)) eqn:Ec; [| done].
  apply andb_true_iff in Ec as [Ec _]. apply Z.ltb_lt in Ec.
  edestruct (navigate_shows [(pageKey cfg, if last then Some (UNum pageCount) else None)]) as [Hc Hs]; [| exact Hw | | | | split; [exact Hc |]].
  - apply NoDup_singleton.
  - done.
  - intros c Hcol. destruct (column_key c Hcol) as (H1 & _). rewrite map_get_tail by done. symmetry. by apply (Hf c Hcol).
  - intros c Hcol _. done.
  - rewrite map_get_head, !map_get_tail in Hs by naive_solver. destruct Hs as [Hp Hgl Hl Hfi]. split; [| done | done | done].
    etransitivity; [exact Hp |]. unfold page, pagination. cbn [map_get pageSize]. rewrite (tk_first cfg Hok). f_equal. destruct last; cbn [number_or]; lia.
Qed.

Lemma reload_consistent search stored : obj_wf search -> consistent (useTableUrlState cfg search stored).
Proof. intros H. split; [done |]. intros c Hc. by apply initial_filters. Qed.

Lemma outside_step search s : consistent s -> obj_wf search ->
  let s' := navigate cfg search s in
  consistent s' /\ shows s' (pagination cfg search (ts_stored s)) (ts_globalFilter s) (open_global cfg search) (url_filter search).
Proof.
  intros [Hw Hf] Hs s'. destruct (navigate_reads search s Hs Hw) as (Hw' & Hk & Hst & Hg & Hfi).
  { intros c Hc Hsame. rewrite Hf by done. symmetry. by apply (reads_ext search (ts_search s) None). }
  fold s' in Hw', Hk, Hst, Hg, Hfi. destruct (reads_ext (ts_search s') search (ts_stored s') Hk) as (Hp & Ho & Hu). split; split; try done.
  - intros c Hc. by rewrite Hfi, Hu.
  - by rewrite Hp, Hst.
Qed.

Lemma step_consistent s s' : consistent s -> table_step cfg s s' -> consistent s'.
Proof.
  intros Hc Hs. destruct Hs as [s full next Hn|s next|s next|s n l|s search Hse].
  - by apply table_page_step.
  - destruct (globalFilterEnabled cfg) eqn:E; [by apply global_step |]. unfold onGlobalFilterChange. by rewrite E.
  - by apply columns_step.
  - by apply range_step.
  - by apply outside_step.
Qed.

Lemma reachable_consistent search stored s : obj_wf search -> rtc (table_step cfg) (useTableUrlState cfg search stored) s -> consistent s.
Proof.
  intros Hw H. apply (rtc_ind_r (fun s => consistent s)) with (1 := reload_consistent search stored Hw) (3 := H).
  intros y z _ Hs Hy. by eapply step_consistent.
Qed.
End Views.

(** C10: The URL says which page and which filters a table shows.  In every state that a table reaches by its own operations and by
    navigations from outside, opening its URL anew shows the same page and the same filters; going to a page, searching and
    filtering show what was asked for - the last two on the first page, and each with the rest as it was - and a page beyond
    the last one becomes the first or the last page.  The search text is the one typed last, and searching writes it to the
    URL; the other operations leave both alone, while a navigation from outside, which sets page and filters, changes only
    what the URL says of it.  For tables whose keys of the URL differ, as their columns do, that start at page 1, and whose
    values of filters read back from the URL. *)
Theorem table_state_refines cfg search stored s :
  table_ok cfg -> obj_wf search -> rtc (table_step cfg) (useTableUrlState cfg search stored) s ->
  let page := pagination cfg (ts_search s) (ts_stored s) in
  let first := mkPagination 0 (pageSize page) in
  let text := ts_globalFilter s in
  let link := open_global cfg (ts_search s) in
  let filter := shown_filter (ts_columnFilters s) in
  shows cfg (useTableUrlState cfg (ts_search s) (ts_stored s)) page link link filter /\
  (forall full next, 0 <= pageIndex next -> shows cfg (onPaginationChange cfg full next s) next text link filter) /\
  (forall typed, globalFilterEnabled cfg = true ->
     let value := Some (if trimGlobal cfg then trim typed else typed) in
     shows cfg (onGlobalFilterChange cfg typed s) first value value filter) /\
  (forall filters, shows cfg (onColumnFiltersChange cfg filters s) first text link (shown_filter filters)) /\
  (forall pageCount last, shows cfg (ensurePageInRange cfg pageCount last s)
     (if (0 <? pageCount) && (pageCount <=? pageIndex page) then mkPagination (if last then pageCount - 1 else 0) (pageSize page) else page)
     text link filter) /\
  (forall outside, obj_wf outside ->
     shows cfg (navigate cfg outside s) (pagination cfg outside (ts_stored s)) text (open_global cfg outside) (url_filter outside)).
Proof.
  intros Hok Hw Hr page first text link filter. pose proof (reachable_consistent cfg Hok search stored s Hw Hr) as Hc. split_and!.
  - destruct Hc as [Hsw Hf]. split; [done .. |]. intros c Hcol. cbn [ts_columnFilters useTableUrlState]. rewrite initial_filters by done. symmetry. by apply Hf.
  - intros. by apply table_page_step.
  - intros. by apply global_step.
  - intros. by apply columns_step.
  - intros. by apply range_step.
  - intros. by apply outside_step.
Qed.

(** A navigation from outside, as by the back button: the filters follow the URL, the search text
    stays what it was. *)
Theorem outside_navigation_keeps_text cfg search s :
  same_search search (ts_search s) = false ->
  ts_columnFilters (navigate cfg search s) = initialColumnFilters cfg search /\
  ts_globalFilter (navigate cfg search s) = ts_globalFilter s.
Proof. intros H. unfold navigate. by rewrite H. Qed.

(** ** The page size *)

Lemma take_digits_all s : Forall (fun c => is_digit c = true) s -> take_digits s = s.
Proof. induction 1 as [|c s Hc _ IH]; [done |]. cbn. by rewrite Hc, IH. Qed.

Lemma parseInt_show n : 0 < n -> parseInt (show_Z n) = Some n.
Proof.
  intros Hn. destruct n as [|p|p]; [lia | | lia]. change (show_Z (Z.pos p)) with (show_N (N.pos p)).
  pose proof (show_N_digits (N.pos p)) as Hd. pose proof (show_N_not_nil (N.pos p)) as Hne. pose proof (digits_val_show (N.pos p)) as Hv.
  unfold parseInt, trimStart. destruct (show_N (N.pos p)) as [|c s]; [done |]. pose proof Hd as [Hc _]%Forall_cons.
  cbn [drop_while]. rewrite (is_digit_not_space c Hc).
  unfold is_digit in Hc. apply andb_true_iff in Hc as [H1 H2]. apply N.leb_le in H1, H2.
  rewrite (proj2 (N.eqb_neq c 45)), (proj2 (N.eqb_neq c 43)) by lia. unfold parse_digits. rewrite take_digits_all by done. by rewrite Hv.
Qed.

(** A page size that was chosen is the one of tables whose URL does not say one. *)
Theorem page_size_remembered cfg s next :
  0 < pageSize next -> pageSize next <> pageSize (pagination cfg (ts_search s) (ts_stored s)) ->
  ts_stored (onPaginationChange cfg false next s) = Some (show_Z (pageSize next)) /\
  pageSize (pagination cfg [] (Some (show_Z (pageSize next)))) = pageSize next.
Proof.
  intros Hp Hne. split.
  - unfold onPaginationChange. cbv zeta. rewrite (proj2 (Z.eqb_neq _ _) Hne). unfold navigate. cbn [ts_search]. by destruct (same_search _ _).
  - unfold pagination, getStoredPageSize. cbn [map_get number_or pageSize from_option]. unfold id. rewrite parseInt_show by done.
    by rewrite (proj2 (Z.ltb_lt _ _) Hp).
Qed.

(** ** Visible columns *)

Section Columns.
Context (initial : list (str * bool)) (Hinit : obj_wf initial).

(** The columns of the table are stored under its key. *)
Definition columns_kept (k : str) (s : Visibility) : Prop :=
  vs_hydrated s = Some k /\ vs_skip s = false /\ obj_wf (vs_columns s) /\
  map_get k (vs_storage s) = Some (JSON_stringify (visibility_json (vs_columns s))).

(** What happens to a table under a key: its columns are changed, or another key is chosen. *)
Inductive visibility_step (k : str) : Visibility -> Visibility -> Prop :=
| step_columns s next : visibility_step k s (onColumnVisibilityChange initial false (Some k) next s)
| step_key s : visibility_step k s (change_key initial false (Some k) s).

Lemma commit_storage k k' s : k <> k' -> map_get k (vs_storage (commit initial false (Some k') s)) = map_get k (vs_storage s).
Proof.
  intros Hne. unfold commit, persist_effect, hydrate_effect. destruct (bool_decide _), (negb (truthy k')); try done; cbn [vs_skip].
  - destruct (vs_skip s); [done |]. cbn [vs_storage]. by rewrite map_get_set_ne.
Qed.

Lemma other_key_storage k k' s s' : k <> k' -> visibility_step k' s s' -> map_get k (vs_storage s') = map_get k (vs_storage s).
Proof. intros Hne Hs. destruct Hs; [unfold onColumnVisibilityChange | unfold change_key]; by rewrite !commit_storage. Qed.

Lemma stored_columns k storage v c : truthy k = true -> obj_wf v -> map_get k storage = Some (JSON_stringify (visibility_json v)) ->
  obj_wf (resolvedInitialColumnVisibility initial (Some k) storage) /\
  map_get c (resolvedInitialColumnVisibility initial (Some k) storage) = match map_get c v with Some b => Some b | None => map_get c initial end.
Proof.
  intros Hk Hv Hs. unfold resolvedInitialColumnVisibility, readColumnVisibility. rewrite Hk, Hs. unfold visibility_json.
  rewrite (proj1 (object_text_trim _)), json_roundtrip by (by apply map_json_ok).
  set (r := foldl _ [] _). assert (Hr : obj_wf r /\ forall x, map_get x r = map_get x v).
  { split; [|intros x]; unfold r.
    - apply (put_entry_get _ [] _ []); [split; [apply NoDup_nil_2 | done] | rewrite keys_map; apply Hv].
    - read_loop x; [split; [apply NoDup_nil_2 | done] | rewrite keys_map; apply Hv |]. rewrite get_map_values. by destruct (map_get x v). }
  destruct Hr as [Hrw Hrg]. destruct (spread_get c initial r Hinit (proj1 Hrw)) as [Hw Hg]. split; [done |]. by rewrite Hg, Hrg.
Qed.

(** Columns are remembered per table.  Whatever is done to the columns of tables with other
    keys in between, the columns of a table are shown again as they were when its key comes back;
    columns that were never chosen have their initial visibility. *)
Theorem columns_remembered k (ks : list str) s s' c :
  truthy k = true -> k ∉ ks -> columns_kept k s -> rtc (fun a b => exists k', k' ∈ ks /\ visibility_step k' a b) s s' ->
  vs_hydrated s' <> Some k ->
  map_get c (vs_columns (change_key initial false (Some k) s')) =
  match map_get c (vs_columns s) with Some b => Some b | None => map_get c initial end.
Proof.
  intros Hk Hks (Hh & Hs & Hw & Hst) Hr Hh'.
  assert (Hst' : map_get k (vs_storage s') = Some (JSON_stringify (visibility_json (vs_columns s)))).
  { rewrite <- Hst. clear Hh' Hh Hs Hst Hw. induction Hr as [|a b d (k' & Hin & Hstep) _ IH]; [done |]. rewrite IH. eapply other_key_storage; [| exact Hstep]. by intros <-. }
  destruct (stored_columns k (vs_storage s') _ c Hk Hw Hst') as [Hrw Hrc].
  unfold change_key, commit at 2. unfold hydrate_effect. rewrite bool_decide_false by done. cbn [persist_effect]. rewrite Hk. cbn [negb vs_skip vs_columns vs_hydrated vs_storage].
  unfold commit, hydrate_effect. cbn [vs_hydrated]. rewrite bool_decide_true by done. cbn [persist_effect]. rewrite Hk. cbn [negb vs_skip]. done.
Qed.
End Columns.

(** ** Examples *)

Definition text_column : ColumnConfig := mkColumn (js "name") (js "q") true Some id.
Definition status_column : ColumnConfig := mkColumn (js "status") (js "s") false Some id.
Definition demo_table : TableConfig := mkTable (js "page") (js "pageSize") 1 20 (js "filter") true true [text_column; status_column].

Lemma demo_table_ok : table_ok demo_table.
Proof.
  split.
  - apply (bool_decide_unpack _). vm_compute. exact I.
  - apply (bool_decide_unpack _). vm_compute. exact I.
  - done.
  - intros c v Hc _. apply elem_of_cons in Hc as [->|[->|Hc]%elem_of_cons]; [done | done | by inversion Hc].
  - intros c v Hc. apply elem_of_cons in Hc as [->|[->|Hc]%elem_of_cons]; [done | done | by inversion Hc].
Qed.

Lemma table_state_refines_witness :
  let s := useTableUrlState demo_table [(js "page", UNum 7)] None in
  pagination demo_table (ts_search (onGlobalFilterChange demo_table (js " gpt ") s)) None = mkPagination 0 20 /\
  ts_globalFilter (onGlobalFilterChange demo_table (js " gpt ") s) = Some (js "gpt").
Proof.
  destruct (table_state_refines demo_table [(js "page", UNum 7)] None (useTableUrlState demo_table [(js "page", UNum 7)] None)) as (_ & _ & H & _).
  - apply demo_table_ok.
  - split; [apply NoDup_singleton | done].
  - apply rtc_refl.
  - destruct (H (js " gpt ") eq_refl) as [Hp Hg _ _]. split; [exact Hp | exact Hg].
Defined.

Definition hidden_id : list (str * bool) := [(js "id", false)].
Definition kept_table : Visibility := mkVisibility hidden_id (Some (js "a")) false [(js "a", JSON_stringify (visibility_json hidden_id))].
Definition other_table : Visibility := change_key [] false (Some (js "b")) kept_table.

Lemma columns_remembered_witness :
  map_get (js "id") (vs_columns other_table) = None /\
  map_get (js "id") (vs_columns (change_key [] false (Some (js "a")) other_table)) = Some false.
Proof.
  split; [vm_compute; reflexivity |].
  refine (columns_remembered [] _ (js "a") [js "b"] kept_table other_table (js "id") _ _ _ _ _).
  - split; [apply NoDup_nil_2 | done].
  - reflexivity.
  - apply (bool_decide_unpack _). vm_compute. exact I.
  - split_and!; [reflexivity | reflexivity | split; [apply NoDup_singleton | reflexivity] | vm_compute; reflexivity].
  - apply rtc_once. exists (js "b"). split; [left | apply step_key].
  - vm_compute. discriminate.
Defined.
