(* ===== verification/ChannelList.v ===== *)
(** * The channel list

    Channels as the list of channels shows them (features/channels/constants.ts and lib/channel-utils.ts,
    channel-type-config.ts, multi-key-utils.ts, ollama-utils.ts, cpa-batch-form.ts, channel-form-errors.ts): the tables of types
    and states, the texts of keys, models, groups and times, the rows of the tag mode and the cleaning of key lists. *)
From S2P Require Import Prelude Number Json JsonObject Currency ChannelForm.

Local Open Scope Z_scope.

(** ** Types of channels *)

Definition CHANNEL_TYPES : list (Z * str) :=
  [(0, js "Unknown"); (1, js "OpenAI"); (2, js "MjProxy"); (3, js "Azure"); (4, js "Ollama"); (5, js "MjProxyPlus");
   (7, js "OhMyGPT"); (8, js "Custom"); (14, js "Anthropic"); (15, js "Baidu"); (16, js "Zhipu"); (17, js "Ali");
   (18, js "Xunfei"); (19, js "360"); (20, js "OpenRouter"); (22, js "FastGPT"); (23, js "Tencent"); (24, js "Gemini");
   (25, js "Moonshot"); (26, js "Zhipu V4"); (27, js "Perplexity"); (31, js "LingYiWanWu"); (33, js "AWS");
   (34, js "Cohere"); (35, js "MiniMax"); (36, js "SunoAPI"); (37, js "Dify"); (38, js "Jina"); (39, js "Cloudflare");
   (40, js "SiliconFlow"); (41, js "Vertex AI"); (42, js "Mistral"); (43, js "DeepSeek"); (44, js "MokaAI");
   (45, js "VolcEngine"); (46, js "Baidu V2"); (47, js "Xinference"); (48, js "xAI"); (49, js "Coze"); (50, js "Kling");
   (51, js "Jimeng"); (52, js "Vidu"); (53, js "Submodel"); (54, js "DoubaoVideo"); (55, js "Sora"); (56, js "Replicate");
   (57, js "ChatGPT Subscription (Codex)"); (58, js "Advanced Custom")]%Z.

Definition CHANNEL_TYPE_DISPLAY_ORDER : list Z :=
  [1; 14; 33; 24; 43; 3; 41; 48; 58; 42; 34; 20; 4; 40; 27; 25; 17; 26; 15; 46; 23; 18; 45; 31; 35; 49; 19; 47; 37; 38; 39; 11; 8; 57; 22; 21; 44; 2; 5; 36; 50; 51; 52; 53; 54; 55; 56]%Z.

Definition TYPE_TO_KEY_PROMPT : list (Z * str) :=
  [(15, js "Format: APIKey|SecretKey"); (18, js "Format: APPID|APISecret|APIKey");
   (22, js "Format: APIKey-AppId, e.g., fastgpt-0sp2gtvfdgyi4k30jwlgwf1i-64f335d84283f05518e9e041");
   (23, js "Format: AppId|SecretId|SecretKey"); (33, js "Format: Ak|Sk|Region");
   (50, js "Format: AccessKey|SecretKey (or just ApiKey if upstream is New API)");
   (51, js "Format: Access Key ID|Secret Access Key");
   (57, js "Paste Codex OAuth JSON credential (access_token / refresh_token / account_id)")]%Z.

Definition TYPE_TO_ICON : list (Z * str) :=
  [(1, js "OpenAI"); (6, js "OpenAI"); (7, js "OpenAI"); (8, js "OpenAI"); (58, js "NewAPI"); (3, js "Azure");
   (14, js "Claude"); (24, js "Gemini"); (11, js "Google"); (41, js "Gemini"); (33, js "Aws"); (39, js "Cloudflare");
   (15, js "Baidu"); (46, js "Baidu"); (16, js "Zhipu"); (26, js "Zhipu"); (17, js "Qwen"); (18, js "Spark");
   (23, js "Hunyuan"); (19, js "Ai360"); (25, js "Moonshot"); (31, js "Yi"); (35, js "Minimax"); (45, js "Volcengine");
   (4, js "Ollama"); (27, js "Perplexity"); (34, js "Cohere"); (42, js "Mistral"); (43, js "DeepSeek"); (48, js "XAI");
   (49, js "Coze"); (40, js "SiliconCloud"); (44, js "OpenAI"); (20, js "OpenRouter"); (2, js "Midjourney");
   (5, js "Midjourney"); (50, js "Kling"); (51, js "Jimeng"); (52, js "Vidu"); (36, js "Suno"); (55, js "OpenAI");
   (54, js "Doubao"); (56, js "Replicate"); (37, js "Dify"); (38, js "Jina"); (22, js "FastGPT"); (47, js "Xinference");
   (53, js "OpenAI"); (10, js "OpenAI"); (21, js "OpenAI"); (12, js "OpenAI"); (13, js "OpenAI"); (9, js "OpenAI")]%Z.

(** The loop over the display order, then over the entries of the table: integer keys come in ascending order. *)
Definition ordered_option (acc : list (Z * str) * list Z) (id : Z) : list (Z * str) * list Z :=
  match map_get id CHANNEL_TYPES with
  | Some label => if truthy label then (fst acc ++ [(id, label)], set_add (snd acc) id) else acc
  | None => acc
  end.
Definition remaining_option (seen : list Z) (ordered : list (Z * str)) (e : Z * str) : list (Z * str) :=
  let '(id, label) := e in if negb (id =? 0) && negb (set_has id seen) then ordered ++ [(id, label)] else ordered.
Definition CHANNEL_TYPE_OPTIONS : list (Z * str) :=
  let '(ordered, seen) := foldl ordered_option ([], []) CHANNEL_TYPE_DISPLAY_ORDER in
  foldl (remaining_option seen) ordered CHANNEL_TYPES.

Definition label_or (table : list (Z * str)) (type : Z) (fallback : str) : str := opt_str_or (map_get type table) fallback.
Definition getChannelTypeLabel (type : Z) : str := label_or CHANNEL_TYPES type (js "Unknown").
Definition getChannelTypeIcon (type : Z) : str := label_or TYPE_TO_ICON type (js "OpenAI").
Definition getKeyPromptForType (type : Z) : str := label_or TYPE_TO_KEY_PROMPT type (js "Enter API key for this channel").

Record ChannelTypeConfig := mkTypeConfig {
  ct_id : Z; ct_name : str; ct_icon : str; ct_defaultBaseUrl : option str; ct_requiresOrganization : bool; ct_requiresRegion : bool;
  ct_hints : option (list (str * str)); ct_validation : option (str * nat) }.

(** [validation]: the prefix that [keyFormat] asks for and [keyMinLength]. *)
Definition CHANNEL_TYPE_CONFIGS : list (Z * ChannelTypeConfig) :=
  let hints := map (fun e : String.string * String.string => (js (fst e), js (snd e))) in
  let name t := getChannelTypeLabel t in
  [(1, mkTypeConfig 1 (name 1) (js "openai") (Some (js "https://api.openai.com")) true false
        (Some (hints [("baseUrl", "Default: https://api.openai.com"); ("key", "Format: sk-..."); ("models", "gpt-4,gpt-4-turbo,gpt-3.5-turbo")]%string))
        (Some (js "sk-", 20%nat)));
   (3, mkTypeConfig 3 (name 3) (js "azure") None false true
        (Some (hints [("baseUrl", "Azure OpenAI Endpoint"); ("key", "Azure API Key"); ("models", "Deployment names")]%string)) None);
   (14, mkTypeConfig 14 (name 14) (js "anthropic") (Some (js "https://api.anthropic.com")) false false
        (Some (hints [("key", "Format: sk-ant-..."); ("models", "claude-3-opus,claude-3-sonnet,claude-3-haiku")]%string)) None);
   (24, mkTypeConfig 24 (name 24) (js "google") None false false
        (Some (hints [("key", "Google API Key"); ("models", "gemini-pro,gemini-pro-vision")]%string)) None);
   (41, mkTypeConfig 41 (name 41) (js "google") None false true
        (Some (hints [("key", "Service account JSON or API key"); ("models", "gemini-pro,gemini-1.5-pro")]%string
                 ++ [(js "other", jsq "Region config: {'default': 'us-central1'}")])) None);
   (43, mkTypeConfig 43 (name 43) (js "deepseek") (Some (js "https://api.deepseek.com")) false false
        (Some (hints [("key", "DeepSeek API Key"); ("models", "deepseek-chat,deepseek-coder")]%string)) None);
   (20, mkTypeConfig 20 (name 20) (js "openrouter") (Some (js "https://openrouter.ai/api")) false false
        (Some (hints [("key", "OpenRouter API Key"); ("models", "Use model IDs from OpenRouter")]%string)) None);
   (56, mkTypeConfig 56 (name 56) (js "replicate") (Some (js "https://api.replicate.com")) false false
        (Some (hints [("key", "Replicate API Token"); ("models", "Replicate model IDs"); ("baseUrl", "Default: https://api.replicate.com")]%string)) None);
   (58, mkTypeConfig 58 (name 58) (js "newapi") None false false
        (Some (hints [("baseUrl", "Fallback base URL"); ("key", "Used by route auth templates"); ("models", "Models exposed by this channel")]%string)) None)].

Definition getChannelTypeConfig (type : Z) : ChannelTypeConfig :=
  default (mkTypeConfig type (getChannelTypeLabel type) (js "openai") None false false None None) (map_get type CHANNEL_TYPE_CONFIGS).
Definition requiresOrganization (type : Z) : bool :=
  match map_get type CHANNEL_TYPE_CONFIGS with Some c => ct_requiresOrganization c | None => false end.
Definition requiresRegion (type : Z) : bool :=
  match map_get type CHANNEL_TYPE_CONFIGS with Some c => ct_requiresRegion c | None => false end.
Definition getDefaultBaseUrl (type : Z) : str :=
  opt_str_or (c ← map_get type CHANNEL_TYPE_CONFIGS; ct_defaultBaseUrl c) [].
Definition getChannelTypeHints (type : Z) : list (str * str) :=
  default [] (c ← map_get type CHANNEL_TYPE_CONFIGS; ct_hints c).
Definition validateKeyFormat (type : Z) (key : str) : bool :=
  match (c ← map_get type CHANNEL_TYPE_CONFIGS; ct_validation c) with
  | None => true
  | Some (prefix, keyMinLength) =>
      if (length key <? keyMinLength)%nat then false else starts_with key prefix
  end.

(** ** States *)

Inductive variant := VNeutral | VSuccess | VWarning | VDanger.

Definition CHANNEL_STATUS_ENABLED : Z := 1.
Definition CHANNEL_STATUS_MANUAL_DISABLED : Z := 2.
Definition CHANNEL_STATUS_AUTO_DISABLED : Z := 3.

Definition CHANNEL_STATUS_CONFIG : list (Z * (variant * str)) :=
  [(0, (VNeutral, js "Unknown")); (1, (VSuccess, js "Enabled")); (2, (VDanger, js "Disabled")); (3, (VWarning, js "Auto Disabled"))].
Definition MULTI_KEY_STATUS_CONFIG : list (Z * (variant * str)) :=
  [(1, (VSuccess, js "Enabled")); (2, (VNeutral, js "Manual Disabled")); (3, (VDanger, js "Auto Disabled"))].

Definition getChannelStatusBadge (status : Z) : variant * str :=
  default (VNeutral, js "Unknown") (map_get status CHANNEL_STATUS_CONFIG).
Definition getMultiKeyStatusBadge (status : Z) : variant * str :=
  default (VSuccess, js "Enabled") (map_get status MULTI_KEY_STATUS_CONFIG).
Definition getMultiKeyStatusConfig (status : Z) : variant * str :=
  default (VNeutral, js "Unknown") (map_get status MULTI_KEY_STATUS_CONFIG).

Inductive KeyAction := AEnable | ADisable | ADelete | AEnableAll | ADisableAll | ADeleteDisabled.
#[global] Instance KeyAction_eq_dec : EqDecision KeyAction.
Proof. solve_decision. Defined.

Definition getMultiKeyConfirmMessage (action : option KeyAction) : str :=
  match action with
  | None => []
  | Some ADelete => js "Are you sure you want to delete this key? This action cannot be undone."
  | Some AEnable => js "Enable this key?"
  | Some ADisable => js "Disable this key?"
  | Some AEnableAll => js "Are you sure you want to enable all keys?"
  | Some ADisableAll => js "Are you sure you want to disable all enabled keys?"
  | Some ADeleteDisabled => js "Are you sure you want to delete all auto-disabled keys? This action cannot be undone."
  end.
Definition isDestructiveAction (action : option KeyAction) : bool :=
  match action with Some (ADelete | ADeleteDisabled | ADisableAll) => true | _ => false end.

(** ** Channels of the list *)

(** [number | null | undefined]. *)
Inductive nullish := Undef | Null | Num (z : Z).
#[global] Instance nullish_eq_dec : EqDecision nullish.
Proof. solve_decision. Defined.

(** A tag row carries its tag where a channel carries its number. *)
Inductive row_id := IdNum (z : Z) | IdTag (s : str).

Record ChannelInfo := mkInfo {
  is_multi_key : bool; multi_key_size : Z; multi_key_status_list : option (list (str * Z)) }.

(** The properties the list reads; [status] is [undefined] in a fresh tag row.  Quotas and times are integers. *)
Record ListChannel := mkListChannel {
  lc_id : row_id; lc_key : str; lc_name : str; lc_type : Z; lc_status : option Z; lc_tag : option str; lc_group : str; lc_models : str;
  lc_used_quota : Z; lc_response_time : num; lc_priority : nullish; lc_weight : nullish; lc_balance : num;
  lc_test_time : Z; lc_created_time : Z; lc_balance_updated_time : Z; lc_info : option ChannelInfo;
  lc_base_url : option str; lc_other_info : str; lc_settings : str; lc_remark : str }.

Definition isChannelEnabled (channel : ListChannel) : bool := bool_decide (lc_status channel = Some 1).
Definition isMultiKeyChannel (channel : ListChannel) : bool :=
  match lc_info channel with Some i => is_multi_key i | None => false end.

Definition all_keys_disabled (channel : ListChannel) : bool :=
  match lc_info channel with
  | Some i =>
      is_multi_key i &&
      match multi_key_status_list i with Some l => multi_key_size i <=? Z.of_nat (length l) | None => false end
  | None => false
  end.
Definition low_balance (channel : ListChannel) : bool :=
  n_ltb n_zero (lc_balance channel) && n_ltb (lc_balance channel) (n_of_Z 1).

Definition channelNeedsAttention (channel : ListChannel) : bool :=
  if bool_decide (lc_status channel = Some 3) then true
  else if low_balance channel then true
  else if all_keys_disabled channel then true
  else false.

Definition getAttentionReason (channel : ListChannel) : option str :=
  if bool_decide (lc_status channel = Some 3) then Some (js "Auto-disabled")
  else if low_balance channel then Some (js "Low balance")
  else if all_keys_disabled channel then Some (js "All keys disabled")
  else None.

(** ** Keys *)

Definition key_lines (key : str) : list str := List.filter (fun k => truthy (trim k)) (split_on newline key).

Definition formatChannelKey (key : str) (isMultiKey : bool) : str :=
  if negb (truthy key) then []
  else if isMultiKey then show_Z (Z.of_nat (length (key_lines key))) ++ js " keys"
  else if (length key <=? 16)%nat then slice 0 4 key ++ js "..." ++ slice_last 4 key
  else slice 0 8 key ++ js "..." ++ slice_last 8 key.

Definition formatKeyPreview (key : str) (maxLength : nat) : str :=
  if negb (truthy key) then []
  else if (length key <=? maxLength)%nat then key
  else slice 0 maxLength key ++ js "...".

Definition countKeys (key : str) : nat := if negb (truthy key) then 0%nat else length (key_lines key).

Record Deduplicated := mkDedup { deduplicatedText : str; beforeCount : Z; afterCount : Z; removedCount : Z }.

(** The set and the array of one pass of [keyLines.forEach]. *)
Definition keep_key (acc : list str * list str) (line : str) : list str * list str :=
  let '(keySet, deduplicatedKeys) := acc in
  let trimmedLine := trim line in
  if truthy trimmedLine && negb (set_has trimmedLine keySet)
  then (set_add keySet trimmedLine, deduplicatedKeys ++ [trimmedLine]) else acc.

Definition deduplicateKeys (keysText : str) : Deduplicated :=
  if negb (truthy keysText) || negb (truthy (trim keysText)) then mkDedup [] 0 0 0
  else
    let keyLines := split_on newline keysText in
    let before := Z.of_nat (length keyLines) in
    let deduplicatedKeys := snd (foldl keep_key ([], []) keyLines) in
    let after := Z.of_nat (length deduplicatedKeys) in
    mkDedup (join [newline] deduplicatedKeys) before after (before - after).

(** The button of the drawer (channel-mutate-drawer.tsx): what it says and the text that it puts into the form. *)
Inductive dedup_outcome := EnterKeysFirst | NoDuplicates | Cleaned (key : str) (removed before after : Z).
Definition handleDeduplicateKeys (currentKey : str) : dedup_outcome :=
  if negb (truthy currentKey) || negb (truthy (trim currentKey)) then EnterKeysFirst
  else
    let result := deduplicateKeys currentKey in
    if removedCount result =? 0 then NoDuplicates
    else Cleaned (deduplicatedText result) (removedCount result) (beforeCount result) (afterCount result).

(** ** Models and groups *)

Definition parseModelsList (models : str) : list str :=
  if negb (truthy models) then [] else List.filter truthy (map trim (split_on 44 models)).

Definition group_compare {C : Collation} (a b : str) : Z :=
  if str_eqb a (js "default") then -1 else if str_eqb b (js "default") then 1 else localeCompare a b.
Definition parseGroupsList {C : Collation} (groups : str) : list str :=
  if negb (truthy groups) then []
  else sort_by group_compare (List.filter truthy (map trim (split_on 44 groups))).

Definition formatModelsString (models : list str) : str := join (js ",") models.
Definition formatGroupsString (groups : list str) : str := join (js ",") groups.

Definition validateChannelName (name : str) : bool := (0 <? length (trim name))%nat.
Definition validateApiKey (key : str) : bool := (0 <? length (trim key))%nat.
Definition validateModels (models : str) : bool := (0 <? length (parseModelsList models))%nat.
Definition validateGroups {C : Collation} (groups : str) : bool := (0 <? length (parseGroupsList groups))%nat.

(** ** Settings *)

Definition parseChannelSettings (settingStr : option str) : json :=
  match settingStr with
  | Some s => if truthy s then default (JObj []) (JSON_parse s) else JObj []
  | None => JObj []
  end.
Definition parseChannelOtherSettings (settingsStr : option str) : json :=
  match settingsStr with
  | Some s => if negb (truthy s) || str_eqb s (js "{}") then JObj [] else default (JObj []) (JSON_parse s)
  | None => JObj []
  end.
Definition validateChannelSettings (settings : str) : bool :=
  if negb (truthy settings) || negb (truthy (trim settings)) then true
  else match JSON_parse settings with Some _ => true | None => false end.

(** ** Balances and times *)

Definition formatBalance {N : NumberFormats} (cur : option StoredCurrency) (balance : option num) : str :=
  match balance with
  | Some b => if isNaN b then js "-" else formatCurrencyFromUSD cur (Some b) (digit_options 2 4 false)
  | None => js "-"
  end.
Definition getBalanceVariant (balance : num) : variant :=
  if n_eqb balance n_zero then VNeutral
  else if n_ltb balance (n_of_Z 1) then VDanger
  else if n_ltb balance (n_of_Z 10) then VWarning
  else VSuccess.

Definition formatResponseTime (timeMs : num) : str :=
  if n_eqb timeMs n_zero then js "Not tested"
  else if n_ltb timeMs (n_of_Z 1000) then num_to_str timeMs ++ js "ms"
  else to_fixed (n_div timeMs (n_of_Z 1000)) 2 ++ js "s".

Definition getResponseTimeConfig (timeMs : num) : variant * str :=
  if n_eqb timeMs n_zero then (VNeutral, js "Not tested")
  else if n_leb timeMs (n_of_Z 500) then (VSuccess, js "Excellent")
  else if n_leb timeMs (n_of_Z 1000) then (VSuccess, js "Good")
  else if n_leb timeMs (n_of_Z 2000) then (VWarning, js "Fair")
  else (VDanger, js "Poor").

(** [Intl.RelativeTimeFormat] depends on the tables of the runtime: a parameter, [None] where it throws. *)
Class RelativeTimes := { relative_format : option str -> num -> str -> option str }.

Definition is_han (c : N) : bool := ((19968 <=? c) && (c <=? 40959))%N.
Fixpoint space_before_han (s : str) : str :=
  match s with
  | d :: ((c :: _) as r) => if is_digit d && is_han c then d :: 32%N :: space_before_han r else d :: space_before_han r
  | _ => s
  end.

Definition relative_unit (diffSec : num) : num * str :=
  let absSec := n_abs diffSec in
  let below z := n_ltb absSec (n_of_Z z) in
  let per z := math_round (n_div diffSec (n_of_Z z)) in
  if below 60 then (math_round diffSec, js "second")
  else if below 3600 then (per 60, js "minute")
  else if below 86400 then (per 3600, js "hour")
  else if below 2592000 then (per 86400, js "day")
  else if below 31536000 then (per 2592000, js "month")
  else (per 31536000, js "year").

Definition formatRelativeTime {R : RelativeTimes} (nowMs timestamp : num) (locale : option str) : str :=
  if negb (n_truthy timestamp) then js "Never"
  else
    let '(value, unit) := relative_unit (n_sub timestamp (n_div nowMs (n_of_Z 1000))) in
    match relative_format locale value unit with
    | Some formatted =>
        match locale with
        | Some language => if starts_with language (js "zh") then space_before_han formatted else formatted
        | None => formatted
        end
    | None => js "Unknown"
    end.

Definition priority_text (v : nullish) : str := match v with Num z => show_Z z | _ => js "0" end.
Definition getPriorityDisplay (priority : nullish) : str := priority_text priority.
Definition getWeightDisplay (weight : nullish) : str := priority_text weight.

(** ** Rows of the tag mode *)

Record TagRow := mkTagRow { tr_row : ListChannel; children : list ListChannel }.

Inductive table_row := ChannelRow (c : ListChannel) | AggregateRow (r : TagRow).
Definition isTagAggregateRow (row : table_row) : bool := match row with AggregateRow _ => true | ChannelRow _ => false end.

Definition tag_of (channel : ListChannel) : str := default [] (lc_tag channel).

(** [{...channel, key: tag, ..., children: []}]. *)
Definition new_tag_row (channel : ListChannel) : TagRow :=
  let tag := tag_of channel in
  mkTagRow
    (mkListChannel (IdTag tag) tag tag 0 None (Some tag) [] [] 0 n_zero (Num (-1)) (Num (-1)) n_zero 0 0 0
       (lc_info channel) (lc_base_url channel) (lc_other_info channel) (lc_settings channel) (lc_remark channel)) [].

(** Priority and weight: [-1] stands for "no child yet". *)
Definition merge_common (row child : nullish) : nullish :=
  if decide (row = Num (-1)) then child else if decide (row <> child) then Null else row.

Definition merge_group (row child : str) : str :=
  if str_eqb row [] then child
  else
    let existingGroups := set_of (List.filter truthy (split_on 44 row)) in
    let newGroups := List.filter truthy (split_on 44 child) in
    foldl (fun group g => if set_has g existingGroups then group else group ++ js "," ++ g) row newGroups.

Definition merge_status (row child : option Z) : option Z :=
  if decide (child = Some 1) then Some 1 else if decide (row = None) then child else row.

Definition add_child (tagRow : TagRow) (channel : ListChannel) : TagRow :=
  let r := tr_row tagRow in
  let kids := children tagRow ++ [channel] in
  let childCount := n_of_Z (Z.of_nat (length kids)) in
  mkTagRow
    (mkListChannel (lc_id r) (lc_key r) (lc_name r) (lc_type r) (merge_status (lc_status r) (lc_status channel)) (lc_tag r)
       (merge_group (lc_group r) (lc_group channel)) (lc_models r) (lc_used_quota r + lc_used_quota channel)
       (n_div (n_add (n_mul (lc_response_time r) (n_sub childCount (n_of_Z 1))) (lc_response_time channel)) childCount)
       (merge_common (lc_priority r) (lc_priority channel)) (merge_common (lc_weight r) (lc_weight channel)) (lc_balance r)
       (lc_test_time r) (lc_created_time r) (lc_balance_updated_time r) (lc_info r) (lc_base_url r) (lc_other_info r)
       (lc_settings r) (lc_remark r)) kids.

(** [tagMap] and [result] share their rows: the rows of [result] are the values of the map in the order of insertion. *)
Definition tag_rows (channels : list ListChannel) : list (str * TagRow) := group_by tag_of new_tag_row add_child channels [].
Definition aggregateChannelsByTag (channels : list ListChannel) : list table_row :=
  map (fun e => AggregateRow (snd e)) (tag_rows channels).

(** The rows of channels-table.tsx. *)
Definition channel_rows (enableTagMode : bool) (items : option (list ListChannel)) : list table_row :=
  let rawChannels := default [] items in
  if enableTagMode && (0 <? length rawChannels)%nat then aggregateChannelsByTag rawChannels else map ChannelRow rawChannels.

(** ** Ollama *)

Definition text_of (v : option json) : option str := match v with Some (JStr s) => Some s | _ => None end.
Definition number_of (v : option json) : option num := match v with Some (JNum n) => Some n | _ => None end.

Definition parseMaybeJSON (value : json) : option json :=
  if negb (j_truthy value) then None
  else match value with JObj _ | JArr _ => Some value | JStr s => JSON_parse s | _ => None end.

(** [isRecord]: an array is an object whose named properties are absent. *)
Definition record_of (v : json) : option entries := match v with JObj l => Some l | JArr l => entries_of (JArr l) | _ => None end.

(** The first of some texts that is not empty after trimming. *)
Fixpoint first_text (l : list (option str)) : str :=
  match l with
  | [] => []
  | Some s :: r => if truthy s then s else first_text r
  | None :: r => first_text r
  end.

(** [ollama_base_url] is a property that the type of channels does not declare. *)
Definition resolveOllamaBaseUrl (channel : option ListChannel) (ollama_base_url : option json) : str :=
  match channel with
  | None => []
  | Some c =>
      let info k := v ← parseMaybeJSON (JStr (lc_other_info c)); l ← record_of v; s ← text_of (map_get (js k) l); Some (trim s) in
      first_text [trim <$> lc_base_url c; trim <$> text_of ollama_base_url;
                  info "base_url"%string; info "public_url"%string; info "api_url"%string]
  end.

(** [getString(a) || getString(b) || ...]. *)
Definition string_among (l : entries) (keys : list String.string) : str := first_text (map (fun k => text_of (map_get (js k) l)) keys).

Definition unset (l : entries) (k : String.string) : bool :=
  negb match map_get (js k) l with Some v => j_truthy v | None => false end.
Definition set_if (c : bool) (k : String.string) (v : option json) (l : entries) : entries :=
  match v with Some x => if c then obj_set (js k) x l else l | None => l end.

Definition normalize_ollama (item : json) : option entries :=
  if negb (j_truthy item) then None
  else match item with
  | JStr s => Some [(js "id", JStr s); (js "owned_by", JStr (js "ollama"))]
  | _ =>
      match record_of item with
      | None => None
      | Some l =>
          let candidateId := string_among l ["id"; "ID"; "name"; "model"; "Model"]%string in
          if negb (truthy candidateId) then None
          else
            let metadata := match map_get (js "metadata") l with
                            | Some JNull | None => map_get (js "Metadata") l
                            | v => v
                            end in
            let normalized := obj_set (js "owned_by") (JStr (str_or (string_among l ["owned_by"; "ownedBy"]%string) (js "ollama")))
                                (obj_set (js "id") (JStr candidateId) l) in
            let n1 := set_if (unset normalized "size") "size" (JNum <$> number_of (map_get (js "size") l)) normalized in
            match (v ← metadata; record_of v) with
            | None => Some n1
            | Some m =>
                let n2 := set_if (unset n1 "size") "size" (JNum <$> number_of (map_get (js "size") m)) n1 in
                let text k := s ← text_of (map_get (js k) m); if truthy s then Some (JStr s) else None in
                let n3 := set_if (unset n2 "digest") "digest" (text "digest"%string) n2 in
                let n4 := set_if (unset n3 "modified_at") "modified_at" (text "modified_at"%string) n3 in
                Some (set_if (unset n4 "details" && negb (unset m "details")) "details" (map_get (js "details") m) n4)
            end
      end
  end.
Definition normalizeOllamaModels (items : json) : list entries :=
  match items with JArr l => omap normalize_ollama l | _ => [] end.

Definition formatBytes (bytes : option num) : str :=
  match bytes with
  | None => js "-"
  | Some b =>
      if isNaN b then js "-"
      else if n_ltb b (n_of_Z 1024) then num_to_str b ++ js " B"
      else let kb := n_div b (n_of_Z 1024) in
      if n_ltb kb (n_of_Z 1024) then to_fixed kb 1 ++ js " KB"
      else let mb := n_div kb (n_of_Z 1024) in
      if n_ltb mb (n_of_Z 1024) then to_fixed mb 1 ++ js " MB"
      else to_fixed (n_div mb (n_of_Z 1024)) 2 ++ js " GB"
  end.

(** ** Small forms *)

Record CPABatchFormValues := mkBatch {
  b_action : str; b_poolType : str; b_cost : str; b_costDate : str; b_costNote : str; b_archiveReason : str; b_deleteConfirmation : str }.

(** The issues that [superRefine] adds, by the path of their field. *)
Definition cost_issues (value : CPABatchFormValues) : list (str * str) :=
  if negb (str_eqb (b_action value) (js "cost")) then []
  else
    let cost := num_of_str (b_cost value) in
    (if negb (isFinite cost) || n_ltb cost n_zero then [(js "cost", js "Enter a valid non-negative cost")] else [])
    ++ (if negb (truthy (b_costDate value)) then [(js "costDate", js "Select a cost date")] else []).

(** The object schema: the two enumerations and the longest texts. *)
Definition batch_shape (value : CPABatchFormValues) : bool :=
  set_has (b_action value) (map js ["disable"; "enable"; "move"; "cost"; "archive"; "delete"]%string) &&
  set_has (b_poolType value) (map js ["cpa_import"; "temporary"]%string) &&
  (length (b_costNote value) <=? 500)%nat && (length (b_archiveReason value) <=? 500)%nat &&
  (length (b_deleteConfirmation value) <=? 64)%nat.

Definition ADVANCED_SETTINGS_FIELDS : list str :=
  map js ["priority"; "weight"; "test_model"; "auto_ban"; "tag"; "remark"; "param_override"; "header_override"; "status_code_mapping";
          "advanced_custom"; "force_format"; "thinking_to_content"; "pass_through_body_enabled"; "proxy"; "system_prompt";
          "system_prompt_override"; "allow_service_tier"; "disable_store"; "allow_safety_identifier"; "allow_include_obfuscation";
          "allow_inference_geo"; "allow_speed"; "claude_beta_query"; "disable_task_polling_sleep"; "upstream_model_update_check_enabled";
          "upstream_model_update_auto_sync_enabled"; "upstream_model_update_ignored_models"]%string.
Definition isAdvancedSettingsField (fieldName : str) : bool := set_has fieldName ADVANCED_SETTINGS_FIELDS.
Definition hasAdvancedSettingsErrors (errors : list (str * json)) : bool := existsb isAdvancedSettingsField (map fst errors).
