(* ===== verification/ChannelListProps.v ===== *)
(** * What the channel list shows

    The rows of the tag mode collect the channels of their tag; the cleaning of a key list keeps its first occurrences; the
    options of the type menu are the declared types. *)
From S2P Require Import Prelude Number Json JsonObject Currency ChannelForm ChannelList.

Local Open Scope Z_scope.

(** ** Grouping by tag *)

Lemma group_by_keys_eq {A K V} `{EqDecision K} (key : A -> K) (init : A -> V) add l m :
  (group_by key init add l m).*1 = foldl set_add m.*1 (map key l).
Proof.
  revert m. induction l as [|x l IH]; intros m; [done |]. cbn [map foldl]. unfold group_by in *. cbn [foldl]. rewrite IH. f_equal.
  unfold group_step, map_upsert, set_add, set_has. rewrite map_set_keys.
  by destruct (decide (key x ∈ m.*1)); [rewrite bool_decide_true | rewrite bool_decide_false].
Qed.

(** The groups that a comma-separated text names. *)
Definition tag_group_names (s : str) : list str := List.filter truthy (split_on 44 s).

Lemma split_on_app_last c s p : c ∉ p -> split_on c (s ++ c :: p) = split_on c s ++ [p].
Proof.
  intros Hp. induction s as [|x s IH]; cbn [app].
  - cbn. by rewrite N.eqb_refl, (split_on_free _ _ Hp).
  - cbn [split_on]. rewrite IH. pose proof (split_on_not_nil c s) as Hn. destruct (split_on c s) as [|h t]; [done |].
    cbn [app]. by case_match.
Qed.

Lemma group_names_clean s : Forall (fun g => g <> [] /\ 44%N ∉ g) (tag_group_names s).
Proof.
  apply Forall_forall. intros g [Hg Ht%truthy_true]%list_elem_of_In%filter_In. split; [done |].
  by apply (split_on_elem _ s), list_elem_of_In.
Qed.

Lemma group_names_add s g : g <> [] -> 44%N ∉ g -> tag_group_names (s ++ js "," ++ g) = tag_group_names s ++ [g].
Proof.
  intros Hg Hc. unfold tag_group_names. change (js "," ++ g) with (44%N :: g). rewrite split_on_app_last by done.
  rewrite List.filter_app. cbn. by apply truthy_true in Hg as ->.
Qed.

Lemma merge_group_names row child g : g ∈ tag_group_names (merge_group row child) <-> g ∈ tag_group_names row \/ g ∈ tag_group_names child.
Proof.
  unfold merge_group. destruct (str_eqb row []) eqn:E.
  { apply str_eqb_eq in E as ->. cbn. set_solver. }
  fold (tag_group_names row) (tag_group_names child). set (known := set_of (tag_group_names row)).
  assert (Hk : forall x, x ∈ known <-> x ∈ tag_group_names row) by (intros; apply elem_of_set_of).
  assert (Hi : forall l acc, Forall (fun g => g <> [] /\ 44%N ∉ g) l -> (forall x, x ∈ known -> x ∈ tag_group_names acc) ->
    (g ∈ tag_group_names (foldl (fun group g => if set_has g known then group else group ++ js "," ++ g) acc l) <->
     g ∈ tag_group_names acc \/ g ∈ l)).
  { induction l as [|x l IH]; intros acc Hl Ha; [set_solver |]. apply Forall_cons in Hl as [[Hx Hx'] Hl]. cbn [foldl].
    destruct (set_has x known) eqn:Ex; [apply set_has_spec in Ex; rewrite IH by done; set_solver |].
    rewrite IH, group_names_add by (done || (intros; rewrite group_names_add by done; set_solver)). set_solver. }
  rewrite Hi; [done | apply group_names_clean | intros; by apply Hk].
Qed.

(** ** The fold over the channels of a tag *)

Definition add_children : TagRow -> list ListChannel -> TagRow := foldl add_child.

(** [Num (-1)] is the mark of a row without children. *)
Definition unmarked (v : nullish) : Prop := v <> Num (-1).

Definition common_value (f : ListChannel -> nullish) (kids : list ListChannel) : nullish :=
  match kids with
  | [] => Num (-1)
  | c :: r => if forallb (fun x => bool_decide (f x = f c)) r then f c else Null
  end.

Definition shown_status (kids : list ListChannel) : option Z :=
  if existsb isChannelEnabled kids then Some 1 else match kids with [] => None | c :: _ => lc_status c end.

Lemma merge_common_fold (f : ListChannel -> nullish) (v : nullish) kids : unmarked v -> Forall (fun c => unmarked (f c)) kids ->
  foldl (fun v c => merge_common v (f c)) v kids = if forallb (fun x => bool_decide (f x = v)) kids then v else Null.
Proof.
  unfold unmarked. revert v. induction kids as [|c kids IH]; intros v Hv Hk; [done |]. apply Forall_cons in Hk as [Hc Hk].
  cbn [foldl forallb]. unfold merge_common at 2. rewrite decide_False by done. destruct (decide (v <> f c)) as [Hne|Heq].
  - rewrite IH by done. rewrite (bool_decide_false (f c = v)) by congruence. cbn. by destruct (forallb _ _).
  - apply dec_stable in Heq. rewrite IH by done. by rewrite (bool_decide_true (f c = v)).
Qed.

Lemma merge_common_all (f : ListChannel -> nullish) kids : Forall (fun c => unmarked (f c)) kids ->
  foldl (fun v c => merge_common v (f c)) (Num (-1)) kids = common_value f kids.
Proof.
  destruct kids as [|c kids]; [done |]. intros [Hc Hk]%Forall_cons. cbn [foldl common_value].
  unfold merge_common at 2. rewrite decide_True by done. by apply merge_common_fold.
Qed.

Lemma merge_status_fold v kids : v <> None -> Forall (fun c => lc_status c <> None) kids ->
  foldl (fun v c => merge_status v (lc_status c)) v kids = if existsb isChannelEnabled kids then Some 1 else v.
Proof.
  revert v. induction kids as [|c kids IH]; intros v Hv Hk; [done |]. apply Forall_cons in Hk as [Hc Hk].
  cbn [foldl existsb]. unfold merge_status at 2, isChannelEnabled at 1. destruct (decide (lc_status c = Some 1)) as [E|E].
  - rewrite IH by done. rewrite bool_decide_true by done. cbn. by destruct (existsb _ _).
  - rewrite decide_False by done. rewrite bool_decide_false by done. by apply IH.
Qed.

Lemma merge_status_all kids : Forall (fun c => lc_status c <> None) kids ->
  foldl (fun v c => merge_status v (lc_status c)) None kids = shown_status kids.
Proof.
  unfold shown_status. destruct kids as [|c kids]; [done |]. intros [Hc Hk]%Forall_cons. cbn [foldl existsb].
  unfold merge_status at 2, isChannelEnabled at 1. destruct (decide (lc_status c = Some 1)) as [E|E].
  - rewrite merge_status_fold by done. rewrite bool_decide_true by done. cbn. by destruct (existsb _ _).
  - rewrite decide_True by done. rewrite merge_status_fold by done. by rewrite bool_decide_false.
Qed.

(** Reading one property of the folded row. *)
Lemma add_children_read {B} (p : TagRow -> B) (step : B -> ListChannel -> B) (row : TagRow) kids :
  (forall r c, p (add_child r c) = step (p r) c) -> p (add_children row kids) = foldl step (p row) kids.
Proof. intros H. revert row. induction kids as [|c kids IH]; intros row; [done |]. cbn. by rewrite IH, H. Qed.

Lemma add_children_kids row kids : children (add_children row kids) = children row ++ kids.
Proof.
  rewrite (add_children_read children (fun l c => l ++ [c])) by done. generalize (children row).
  induction kids as [|c kids IH]; intros l; [by rewrite app_nil_r |]. cbn. rewrite IH. by rewrite <- app_assoc.
Qed.

Lemma add_children_groups row kids g :
  g ∈ tag_group_names (lc_group (tr_row (add_children row kids))) <->
  g ∈ tag_group_names (lc_group (tr_row row)) \/ exists c, c ∈ kids /\ g ∈ tag_group_names (lc_group c).
Proof.
  revert row. induction kids as [|c kids IH]; intros row.
  - split; [by left | intros [?|(? & []%not_elem_of_nil & _)]; done].
  - change (add_children row (c :: kids)) with (add_children (add_child row c) kids). rewrite IH.
    change (lc_group (tr_row (add_child row c))) with (merge_group (lc_group (tr_row row)) (lc_group c)).
    rewrite merge_group_names. split.
    + intros [[H|H]|(x & Hx & H)]; [by left | right; exists c; split; [left | done] | right; exists x; split; [by right | done]].
    + intros [H|(x & [->|Hx]%elem_of_cons & H)]; [by left; left | by left; right | right; by exists x].
Qed.

Lemma tag_row_of chs tag row : (tag, row) ∈ tag_rows chs ->
  exists c r, filter (fun c => tag_of c = tag) chs = c :: r /\ tag_of c = tag /\ row = add_children (new_tag_row c) (c :: r).
Proof.
  intros H%elem_map_get; [| apply group_by_NoDup; constructor]. unfold tag_rows in H. rewrite group_by_get in H. cbn [map_get] in H.
  destruct (filter _ chs) as [|c r] eqn:E; [done |]. exists c, r. injection H as H. split; [done |]. split; [| done].
  assert (c ∈ filter (fun c => tag_of c = tag) chs) as Hc by (rewrite E; left). by apply list_elem_of_filter in Hc as [? _].
Qed.

Lemma tag_rows_keys chs : (tag_rows chs).*1 = set_of (map tag_of chs).
Proof. unfold tag_rows. by rewrite group_by_keys_eq. Qed.

(** What a row of the tag mode says of the channels of its tag. *)
Record row_of_tag (tag : str) (kids : list ListChannel) (row : TagRow) : Prop := mkRowOf {
  ro_children : children row = kids;
  ro_id : lc_id (tr_row row) = IdTag tag /\ lc_name (tr_row row) = tag /\ lc_tag (tr_row row) = Some tag;
  ro_quota : lc_used_quota (tr_row row) = sumZ lc_used_quota kids;
  ro_status : lc_status (tr_row row) = shown_status kids;
  ro_priority : Forall (fun c => unmarked (lc_priority c)) kids -> lc_priority (tr_row row) = common_value lc_priority kids;
  ro_weight : Forall (fun c => unmarked (lc_weight c)) kids -> lc_weight (tr_row row) = common_value lc_weight kids;
  ro_groups : forall g, g ∈ tag_group_names (lc_group (tr_row row)) <-> exists c, c ∈ kids /\ g ∈ tag_group_names (lc_group c) }.

Lemma add_children_row c r : Forall (fun c => lc_status c <> None) (c :: r) ->
  row_of_tag (tag_of c) (c :: r) (add_children (new_tag_row c) (c :: r)).
Proof.
  intros Hs. split.
  - by rewrite add_children_kids.
  - assert (H : forall kids row, lc_id (tr_row (add_children row kids)) = lc_id (tr_row row) /\
      lc_name (tr_row (add_children row kids)) = lc_name (tr_row row) /\ lc_tag (tr_row (add_children row kids)) = lc_tag (tr_row row))
      by (clear; induction kids as [|x kids IH]; intros row; [done | apply (IH (add_child row x))]).
    apply (H (c :: r) (new_tag_row c)).
  - rewrite (add_children_read (fun t => lc_used_quota (tr_row t)) (fun q x => q + lc_used_quota x)) by done.
    by rewrite foldl_add_sumZ.
  - rewrite (add_children_read (fun t => lc_status (tr_row t)) (fun v x => merge_status v (lc_status x))) by done.
    by apply merge_status_all.
  - intros Hp. rewrite (add_children_read (fun t => lc_priority (tr_row t)) (fun v x => merge_common v (lc_priority x))) by done.
    by apply merge_common_all.
  - intros Hp. rewrite (add_children_read (fun t => lc_weight (tr_row t)) (fun v x => merge_common v (lc_weight x))) by done.
    by apply merge_common_all.
  - intros g. rewrite add_children_groups. split; [intros [[]%not_elem_of_nil|H]; done | by right].
Qed.

Lemma tag_rows_row chs tag row : Forall (fun c => lc_status c <> None) chs -> (tag, row) ∈ tag_rows chs ->
  row_of_tag tag (filter (fun c => tag_of c = tag) chs) row.
Proof.
  intros Hs (c & r & E & <- & ->)%tag_row_of. rewrite E. apply add_children_row. rewrite <- E.
  apply Forall_forall. intros x [_ Hx]%list_elem_of_filter. by eapply Forall_forall in Hs.
Qed.

Lemma tag_rows_sum chs : Forall (fun c => lc_status c <> None) chs ->
  sumZ (fun e => lc_used_quota (tr_row (snd e))) (tag_rows chs) = sumZ lc_used_quota chs.
Proof.
  intros Hs. rewrite (sumZ_partition tag_of lc_used_quota (tag_rows chs).*1 chs).
  - fold (sumZ (fun k => sumZ lc_used_quota (filter (fun x => tag_of x = k) chs)) (tag_rows chs).*1).
    rewrite sumZ_map. apply sumZ_ext. intros [tag row] H. cbn. by apply (ro_quota _ _ _ (tag_rows_row _ _ _ Hs H)).
  - rewrite tag_rows_keys. apply NoDup_set_of.
  - intros x Hx. rewrite tag_rows_keys. apply elem_of_set_of. by apply elem_of_map.
Qed.

(** in tag mode the list has one row for each tag, in the order in which the tags appear.  Its children are the channels of
    the tag in their order; it shows their total quota, the enabled state when one of them is enabled and else the state of
    the first, the union of their groups, and their priority and weight when they agree (none else) - provided that no channel
    has the value -1.  The rows together use the quota of all channels. *)
Theorem tag_rows_spec (chs : list ListChannel) (Hs : Forall (fun c => lc_status c <> None) chs) :
  aggregateChannelsByTag chs = map (fun e => AggregateRow (snd e)) (tag_rows chs) /\
  (tag_rows chs).*1 = set_of (map tag_of chs) /\
  (forall tag row, (tag, row) ∈ tag_rows chs -> row_of_tag tag (filter (fun c => tag_of c = tag) chs) row) /\
  sumZ (fun e => lc_used_quota (tr_row (snd e))) (tag_rows chs) = sumZ lc_used_quota chs.
Proof.
  split; [done |]. split; [apply tag_rows_keys |]. split; [intros; by apply tag_rows_row | by apply tag_rows_sum].
Qed.

Definition demo_listed (id : Z) (tag group : String.string) (status quota : Z) (priority : nullish) : ListChannel :=
  mkListChannel (IdNum id) (js "sk") (js "channel") 1 (Some status) (Some (js tag)) (js group) (js "gpt-4o") quota n_zero
    priority (Num 0) n_zero 0 0 0 None None [] (js "{}") [].
Definition demo_listing : list ListChannel :=
  [demo_listed 1 "a" "default,vip" 2 30 (Num 5); demo_listed 2 "b" "default" 3 5 Null; demo_listed 3 "a" "vip,pro" 1 12 (Num 5)].

Lemma tag_rows_spec_witness :
  (tag_rows demo_listing).*1 = [js "a"; js "b"] /\
  (forall tag row, (tag, row) ∈ tag_rows demo_listing -> row_of_tag tag (filter (fun c => tag_of c = tag) demo_listing) row) /\
  map (fun e => (lc_group (tr_row (snd e)), lc_status (tr_row (snd e)), lc_priority (tr_row (snd e)))) (tag_rows demo_listing) =
    [(js "default,vip,pro", Some 1, Num 5); (js "default", Some 3, Null)].
Proof.
  destruct (tag_rows_spec demo_listing) as (_ & Hk & Hr & _).
  { repeat constructor; done. }
  split; [rewrite Hk; vm_compute; reflexivity |]. split; [exact Hr | vm_compute; reflexivity].
Defined.

(** The mark for "no child yet" is a priority that a channel can have: two channels whose priorities differ show one of them
    when the first has priority -1, and none when the second has it. *)
Lemma marked_priority_shown :
  map (fun e => lc_priority (tr_row (snd e))) (tag_rows [demo_listed 1 "a" "" 1 0 (Num (-1)); demo_listed 2 "a" "" 1 0 (Num 5)]) = [Num 5] /\
  map (fun e => lc_priority (tr_row (snd e))) (tag_rows [demo_listed 2 "a" "" 1 0 (Num 5); demo_listed 1 "a" "" 1 0 (Num (-1))]) = [Null].
Proof. split; vm_compute; reflexivity. Qed.

(** ** Key lists *)

(** The keys of a text: its lines without the space around them, blank lines left out. *)
Definition keys_of (text : str) : list str := List.filter truthy (map trim (split_on newline text)).

Lemma keep_keys s lines : foldl keep_key (s, s) lines =
  (foldl set_add s (List.filter truthy (map trim lines)), foldl set_add s (List.filter truthy (map trim lines))).
Proof.
  revert s. induction lines as [|l lines IH]; intros s; [done |]. cbn [foldl map List.filter]. unfold keep_key at 2.
  destruct (truthy (trim l)) eqn:E; cbn [andb]; [| by rewrite IH]. cbn [foldl]. unfold set_add at 1 3 5.
  by destruct (set_has (trim l) s); cbn [negb]; rewrite IH.
Qed.

Lemma blank_text s : trim s = [] -> Forall (fun c => is_space c = true) s.
Proof.
  intros H. assert (Ht : forall l, drop_while is_space l = [] -> Forall (fun c => is_space c = true) l).
  { induction l as [|x l IH]; cbn; [constructor |]. destruct (is_space x) eqn:E; [| done]. intros. constructor; auto. }
  unfold trim, trimEnd, trimStart in H. apply (f_equal reverse) in H. rewrite reverse_involutive in H. apply Ht in H.
  rewrite Forall_reverse in H. destruct (drop_while is_space s) as [|c r] eqn:E; [by apply Ht |].
  pose proof (drop_while_head is_space s) as Hd. rewrite E in Hd. apply Forall_cons in H as [Hc _]. cbn in Hd. congruence.
Qed.

Lemma blank_trim s : Forall (fun c => is_space c = true) s -> trim s = [].
Proof. intros H. unfold trim, trimStart. by rewrite drop_while_all. Qed.

Lemma split_on_Forall (P : N -> Prop) c s : Forall P s -> Forall (Forall P) (split_on c s).
Proof.
  induction 1 as [|x s Hx Hs IH]; [by repeat constructor |]. cbn [split_on]. destruct (x =? c)%N; [by constructor |].
  destruct (split_on c s) as [|h t]; [by repeat constructor |]. apply Forall_cons in IH as [Hh Ht]. by repeat constructor.
Qed.

Lemma keys_of_blank text : trim text = [] -> keys_of text = [].
Proof.
  intros H%blank_text%(split_on_Forall _ newline). unfold keys_of. induction H as [|l ls Hl Hls IH]; [done |].
  cbn [map List.filter]. by rewrite (blank_trim l Hl).
Qed.

(** A key: trimmed, not empty, on one line. *)
Definition key_line (k : str) : Prop := k <> [] /\ trim k = k /\ newline ∉ k.

Lemma keys_of_lines text : Forall key_line (keys_of text).
Proof.
  apply Forall_forall. intros k [Hk Ht%truthy_true]%list_elem_of_In%filter_In.
  apply list_elem_of_In, list_elem_of_fmap in Hk as (l & -> & Hl). split; [done |]. split; [apply trim_idemp |].
  by apply trim_not_In, (split_on_elem _ text).
Qed.

Lemma keys_of_join ks : Forall key_line ks -> keys_of (join [newline] ks) = ks.
Proof.
  intros H. destruct ks as [|k ks]; [done |]. unfold keys_of. rewrite split_join; [| done | by eapply Forall_impl; [exact H | intros x []; naive_solver]].
  assert (map trim (k :: ks) = k :: ks) as ->.
  { clear -H. induction H as [|x l (_ & Hx & _) Hl IH]; [done |]. cbn. by rewrite Hx, IH. }
  apply filter_truthy_id. eapply Forall_impl; [exact H | intros x []; done].
Qed.

Lemma set_of_key_lines ks : Forall key_line ks -> Forall key_line (set_of ks).
Proof. intros H. apply Forall_forall. intros x Hx. rewrite Forall_forall in H. by apply H, elem_of_set_of. Qed.

Lemma dedup_text text : deduplicatedText (deduplicateKeys text) = join [newline] (set_of (keys_of text)) /\
  afterCount (deduplicateKeys text) = Z.of_nat (length (set_of (keys_of text))).
Proof.
  unfold deduplicateKeys. destruct (truthy text) eqn:Et; cbn [negb orb].
  2: { apply truthy_false in Et as ->. done. }
  destruct (truthy (trim text)) eqn:Eb; cbn [negb].
  2: { apply truthy_false in Eb. by rewrite keys_of_blank. }
  by rewrite keep_keys.
Qed.

Lemma dedup_shape t : truthy (trim t) = true -> deduplicateKeys t =
  let r := deduplicateKeys t in
  mkDedup (deduplicatedText r) (Z.of_nat (length (split_on newline t))) (afterCount r) (Z.of_nat (length (split_on newline t)) - afterCount r).
Proof. intros H. unfold deduplicateKeys. rewrite H. by destruct t. Qed.

Lemma count_lines text : countKeys text = length (keys_of text).
Proof.
  unfold countKeys. destruct (truthy text) eqn:Et; cbn [negb]; [| by apply truthy_false in Et as ->].
  unfold key_lines, keys_of. induction (split_on newline text) as [|l ls IH]; [done |]. cbn. destruct (truthy (trim l)); cbn; by rewrite IH.
Qed.

Lemma join_key_lines ks : ks <> [] -> Forall key_line ks ->
  length (split_on newline (join [newline] ks)) = length ks /\ truthy (trim (join [newline] ks)) = true.
Proof.
  intros Hn Hk. split.
  - rewrite split_join; [done | done | eapply Forall_impl; [exact Hk | intros x (_ & _ & H); exact H]].
  - destruct (truthy _) eqn:E; [done |]. apply truthy_false, keys_of_blank in E. rewrite keys_of_join in E by done. done.
Qed.

(** cleaning a key list keeps the keys of the text - its lines without surrounding space and without the blank ones - once
    each and in the order of their first occurrence; the count it reports is the number of keys of the new text, and a second
    cleaning changes and removes nothing. *)
Theorem deduplicated_keys_spec (text : str) :
  let r := deduplicateKeys text in
  keys_of (deduplicatedText r) = set_of (keys_of text) /\ NoDup (keys_of (deduplicatedText r)) /\
  afterCount r = Z.of_nat (countKeys (deduplicatedText r)) /\ removedCount r = beforeCount r - afterCount r /\
  deduplicateKeys (deduplicatedText r) = mkDedup (deduplicatedText r) (afterCount r) (afterCount r) 0.
Proof.
  cbv zeta. destruct (dedup_text text) as [Ht Hc]. pose proof (set_of_key_lines _ (keys_of_lines text)) as Hl.
  assert (Hk : keys_of (deduplicatedText (deduplicateKeys text)) = set_of (keys_of text)) by (by rewrite Ht, keys_of_join).
  split; [done |]. split; [rewrite Hk; apply NoDup_set_of |]. split; [by rewrite count_lines, Hk |]. split.
  { unfold deduplicateKeys. by destruct (negb (truthy text) || _). }
  destruct (dedup_text (deduplicatedText (deduplicateKeys text))) as [Ht2 Hc2]. rewrite Hk, (set_of_id (set_of _)) in Ht2, Hc2 by apply NoDup_set_of.
  rewrite <- Ht in Ht2. rewrite <- Hc in Hc2. destruct (set_of (keys_of text)) as [|k ks] eqn:E.
  { rewrite Ht, Hc. done. }
  destruct (join_key_lines (k :: ks)) as [Hn Hb]; [done | done |]. rewrite <- Ht in Hn, Hb.
  rewrite (dedup_shape _ Hb). cbv zeta. rewrite Ht2, Hc2, Hn, Hc. f_equal. lia.
Qed.

(** The message of the button counts blank lines as duplicates that it removed. *)
Lemma blank_line_counts_as_duplicate :
  NoDup (keys_of (jsq "sk-1" ++ [newline; newline] ++ jsq "sk-2")) /\
  handleDeduplicateKeys (jsq "sk-1" ++ [newline; newline] ++ jsq "sk-2") = Cleaned (jsq "sk-1" ++ [newline] ++ jsq "sk-2") 1 3 2.
Proof. split; [by apply (bool_decide_unpack _); vm_compute | vm_compute; reflexivity]. Qed.

(** A key of more than 16 characters is shown by its first and its last eight: two keys that agree there look the same. *)
Lemma long_key_masked k k' : (16 < length k)%nat -> (16 < length k')%nat -> take 8 k = take 8 k' -> slice_last 8 k = slice_last 8 k' ->
  formatChannelKey k false = formatChannelKey k' false /\ length (formatChannelKey k false) = 19%nat.
Proof.
  intros H H' Ht Hl.
  assert (E : forall x : str, (16 < length x)%nat -> formatChannelKey x false = take 8 x ++ js "..." ++ slice_last 8 x).
  { intros x Hx. unfold formatChannelKey. destruct x as [|c x]; [cbn in Hx; lia |]. cbn [truthy negb].
    destruct (Nat.leb_spec (length (c :: x)) 16); [lia | done]. }
  rewrite !E by done. split; [congruence |]. rewrite !length_app, length_take. unfold slice_last. rewrite length_drop. cbn [length js]. 
  change (length (js "...")) with 3%nat. lia.
Qed.

(** The comment of [formatChannelKey] promises a mask; a key of up to eight characters is shown whole. *)
Lemma short_key_shown k : k <> [] -> (length k <= 4)%nat -> formatChannelKey k false = k ++ js "..." ++ k.
Proof.
  intros Hn Hl. unfold formatChannelKey. apply truthy_true in Hn as ->. cbn [negb]. destruct (Nat.leb_spec (length k) 16); [| lia].
  unfold slice, slice_last. rewrite drop_0, Nat.sub_0_r, take_ge by lia. replace (length k - 4)%nat with 0%nat by lia. done.
Qed.

(** The mark of a channel and the reason it shows agree. *)
Lemma attention_reason c : channelNeedsAttention c = true <-> getAttentionReason c <> None.
Proof.
  unfold channelNeedsAttention, getAttentionReason.
  destruct (bool_decide _), (low_balance c), (all_keys_disabled c); naive_solver.
Qed.

(** The menu offers each declared type once, [Unknown] apart. *)
Lemma type_options_complete :
  NoDup CHANNEL_TYPE_OPTIONS.*1 /\ (forall t, t ∈ CHANNEL_TYPE_OPTIONS.*1 <-> t <> 0 /\ t ∈ CHANNEL_TYPES.*1).
Proof.
  split; [by apply (bool_decide_unpack _); vm_compute |]. intros t.
  assert (H : CHANNEL_TYPE_OPTIONS.*1 ≡ₚ tail CHANNEL_TYPES.*1) by (by apply (bool_decide_unpack _); vm_compute).
  rewrite H. assert (Hn : 0 ∉ tail CHANNEL_TYPES.*1) by (by apply (bool_decide_unpack _); vm_compute).
  assert (He : CHANNEL_TYPES.*1 = 0 :: tail CHANNEL_TYPES.*1) by done. rewrite He at 2. rewrite elem_of_cons.
  generalize dependent (tail CHANNEL_TYPES.*1). intros l _ Hn _. split; [| by intros [Ht [?|?]]].
  intros Ht. split; [by intros -> | by right].
Qed.

(** The default group, where it is present once, comes first. *)
Lemma default_group_first {C : Collation} groups : js "default" ∈ parseGroupsList groups -> head (parseGroupsList groups) = Some (js "default").
Proof.
  unfold parseGroupsList. destruct (truthy groups); cbn [negb]; [| intros []%not_elem_of_nil].
  rewrite elem_of_sort_by. generalize (List.filter truthy (map trim (split_on 44 groups))). induction l as [|x l IH]; intros H; [by apply not_elem_of_nil in H |].
  cbn [sort_by]. destruct (str_eqb x (js "default")) eqn:E.
  - assert (group_compare x = fun _ => -1) as Hc.
    { unfold group_compare. by rewrite E. }
    apply str_eqb_eq in E as ->. destruct (sort_by group_compare l) as [|y r]; [done |]. cbn [insert_by]. by rewrite Hc.
  - apply elem_of_cons in H as [<-|H]; [done |]. specialize (IH H). destruct (sort_by group_compare l) as [|y r]; [done |].
    injection IH as ->. cbn [insert_by]. unfold group_compare. by rewrite E.
Qed.
