(* ===== verification/ChannelActions.v ===== *)
(** * Actions on channels

    The requests of the channel pages (features/channels/api.ts), the actions that send them and report their outcome
    (lib/channel-actions.ts).

    An action is the request that it sends and what it does with the outcome of that request, as a list of effects in order.
    A text is a literal or a key of the translations with its parameters. *)
From S2P Require Import Prelude Number Json JsonObject Currency ChannelForm ChannelList.

Local Open Scope Z_scope.

(** ** Requests *)

Record Http := mkHttp { http_method : String.string; http_path : str; http_body : option json; http_params : option json }.

Definition jz (z : Z) : json := JNum (n_of_Z z).
Definition jobject (l : list (String.string * json)) : json := JObj (obj_of (map (fun e => (js (fst e), snd e)) l)).
Definition path_id (prefix : String.string) (id : Z) (suffix : String.string) : str := js prefix ++ show_Z id ++ js suffix.

Definition updateChannelStatus (id status : Z) : Http :=
  mkHttp "post" (path_id "/api/channel/" id "/status") (Some (jobject [("status"%string, jz status)])) None.
Definition batchUpdateChannelStatus (ids : list Z) (status : Z) : Http :=
  mkHttp "post" (js "/api/channel/status/batch") (Some (jobject [("ids", JArr (map jz ids)); ("status", jz status)]%string)) None.
Definition updateChannel (id : Z) (data : entries) : Http :=
  mkHttp "put" (js "/api/channel/") (Some (JObj (obj_of ((js "id", jz id) :: data)))) None.
Definition deleteChannel (id : Z) : Http := mkHttp "delete" (path_id "/api/channel/" id "") None None.
Definition batchDeleteChannels (ids : list Z) : Http :=
  mkHttp "post" (js "/api/channel/batch") (Some (jobject [("ids"%string, JArr (map jz ids))])) None.
Definition batchSetChannelTag (ids : list Z) (tag : option str) : Http :=
  mkHttp "post" (js "/api/channel/batch/tag")
    (Some (jobject [("ids", JArr (map jz ids)); ("tag", match tag with Some t => JStr t | None => JNull end)]%string)) None.
Definition testChannel (id : Z) (params : option json) : Http := mkHttp "get" (path_id "/api/channel/test/" id "") None params.
Definition updateChannelBalance (id : Z) : Http := mkHttp "get" (path_id "/api/channel/update_balance/" id "") None None.
Definition copyChannel (id : Z) (params : json) : Http := mkHttp "post" (path_id "/api/channel/copy/" id "") (Some JNull) (Some params).
Definition fixChannelAbilities : Http := mkHttp "post" (js "/api/channel/fix") None None.
Definition deleteDisabledChannels : Http := mkHttp "delete" (js "/api/channel/disabled") None None.
Definition enableTagChannels (tag : str) : Http := mkHttp "post" (js "/api/channel/tag/enabled") (Some (jobject [("tag"%string, JStr tag)])) None.
Definition disableTagChannels (tag : str) : Http := mkHttp "post" (js "/api/channel/tag/disabled") (Some (jobject [("tag"%string, JStr tag)])) None.
Definition editTagChannels (params : entries) : Http := mkHttp "put" (js "/api/channel/tag") (Some (JObj params)) None.
Definition testAllChannels : Http := mkHttp "get" (js "/api/channel/test") None None.
Definition updateAllChannelsBalance : Http := mkHttp "get" (js "/api/channel/update_balance") None None.

Definition manageMultiKeys (params : list (String.string * json)) : Http :=
  mkHttp "post" (js "/api/channel/multi_key/manage") (Some (jobject params)) None.
Definition key_request (channelId : Z) (action : String.string) (more : list (String.string * json)) : Http :=
  manageMultiKeys ([("channel_id", jz channelId); ("action", JStr (js action))]%string ++ more).
Definition getMultiKeyStatus (channelId page pageSize : Z) (status : option Z) : Http :=
  key_request channelId "get_key_status"
    ([("page", jz page); ("page_size", jz pageSize)]%string ++ match status with Some s => [("status"%string, jz s)] | None => [] end).
Definition enableMultiKey (channelId keyIndex : Z) : Http := key_request channelId "enable_key" [("key_index"%string, jz keyIndex)].
Definition disableMultiKey (channelId keyIndex : Z) : Http := key_request channelId "disable_key" [("key_index"%string, jz keyIndex)].
Definition deleteMultiKey (channelId keyIndex : Z) : Http := key_request channelId "delete_key" [("key_index"%string, jz keyIndex)].
Definition enableAllMultiKeys (channelId : Z) : Http := key_request channelId "enable_all_keys" [].
Definition disableAllMultiKeys (channelId : Z) : Http := key_request channelId "disable_all_keys" [].
Definition deleteDisabledMultiKeys (channelId : Z) : Http := key_request channelId "delete_disabled_keys" [].

(** ** Outcomes and effects *)

(** A message as it is, a translation with its parameters, a text followed by a code in parentheses. *)
Inductive toast_text := Said (s : str) | Translated (key : String.string) (params : list (String.string * toast_text)) | WithCode (t : toast_text) (code : str).
Definition T (key : String.string) (params : list (String.string * str)) : toast_text := Translated key (map (fun e => (fst e, Said (snd e))) params).

(** The properties of an answer that the actions read; [r_data] is [response.data] where it is a number, [r_id] its [id],
    [r_fixed] its [success] and [fails], [r_response_time] its [response_time]. *)
Record Reply := mkReply {
  r_success : bool; r_message : option str; r_data : option Z; r_id : option Z; r_fixed : option (Z * Z); r_balance : option num;
  r_time : option num; r_response_time : option num; r_error_code : option str }.

(** A rejected promise: the message of the answer, and that of the error where it is an [Error]. *)
Inductive call_outcome := Replied (r : Reply) | Rejected (response_message error_message : option str).

Inductive callback := CDone | CCount (n : Z) | CBalance (b : num) | CFixed (success fails : Z)
  | CTested (success : bool) (responseTime : option num) (error : option toast_text) (errorCode : option str).

Inductive effect := ToastOk (t : toast_text) (description : option toast_text) | ToastErr (t : toast_text) (description : option toast_text)
  | ToastInfo (t : toast_text) | Refetch | Call (c : callback).

(** The optional arguments [queryClient] and [onSuccess]: whether they are given. *)
Record Hooks := mkHooks { queryClient : bool; onSuccess : bool }.

Definition refetch (h : Hooks) : list effect := if queryClient h then [Refetch] else [].
Definition called (h : Hooks) (c : callback) : list effect := if onSuccess h then [Call c] else [].

Inductive action := Immediate (l : list effect) | Sends (request : Http) (finish : call_outcome -> list effect).

(** [response.message || i18next.t(fallback)]. *)
Definition message_or (m : option str) (fallback : String.string) : toast_text :=
  match m with Some s => if truthy s then Said s else T fallback [] | None => T fallback [] end.
Definition said (m : option str) (fallback : String.string) : list effect := [ToastErr (message_or m fallback) None].

(** The common shape: a toast, the refetch and the callback on success; the message of the answer otherwise. *)
Definition reported (h : Hooks) (ok : Reply -> toast_text) (value : Reply -> callback) (refused failed : String.string) (o : call_outcome) : list effect :=
  match o with
  | Replied r =>
      if r_success r then [ToastOk (ok r) None] ++ refetch h ++ called h (value r) else said (r_message r) refused
  | Rejected _ _ => [ToastErr (T failed []) None]
  end.
Definition plainly (h : Hooks) (ok failed : String.string) : call_outcome -> list effect :=
  reported h (fun _ => T ok []) (fun _ => CDone) failed failed.

(** ** Actions on one channel *)

Definition handleEnableChannel (id : Z) (h : Hooks) : action :=
  Sends (updateChannelStatus id CHANNEL_STATUS_ENABLED) (plainly h "Channel enabled successfully" "Failed to update channel").
Definition handleDisableChannel (id : Z) (h : Hooks) : action :=
  Sends (updateChannelStatus id CHANNEL_STATUS_MANUAL_DISABLED) (plainly h "Channel disabled successfully" "Failed to update channel").
Definition handleToggleChannelStatus (id currentStatus : Z) (h : Hooks) : action :=
  if currentStatus =? CHANNEL_STATUS_ENABLED then handleDisableChannel id h else handleEnableChannel id h.
Definition handleDeleteChannel (id : Z) (h : Hooks) : action :=
  Sends (deleteChannel id) (plainly h "Channel deleted successfully" "Failed to delete channel").

(** The field names that the callers pass. *)
Inductive edited_field := FPriority | FWeight.
Definition field_name (f : edited_field) : str := match f with FPriority => js "priority" | FWeight => js "weight" end.
Definition fieldLabel (f : edited_field) : str := match f with FPriority => js "Priority" | FWeight => js "Weight" end.

Definition handleUpdateChannelField (id : Z) (fieldName : edited_field) (value : Z) (h : Hooks) : action :=
  Sends (updateChannel id [(field_name fieldName, jz value)])
    (reported h (fun _ => T "{{field}} updated to {{value}}" [("field", fieldLabel fieldName); ("value", show_Z value)]%string)
       (fun _ => CDone) "Failed to update channel" "Failed to update channel").
Definition handleUpdateTagField (tag : str) (fieldName : edited_field) (value : Z) (h : Hooks) : action :=
  Sends (editTagChannels [(js "tag", JStr tag); (field_name fieldName, jz value)])
    (reported h
       (fun _ => T "{{field}} updated to {{value}} for tag: {{tag}}" [("field", fieldLabel fieldName); ("value", show_Z value); ("tag", tag)]%string)
       (fun _ => CDone) "Failed to update channel" "Failed to update channel").

Definition getChannelTestResponseTime (response : Reply) : option num :=
  match (t ← r_response_time response; if isFinite t then Some t else None) with
  | Some t => Some t
  | None => t ← r_time response; if isFinite t && n_ltb n_zero t then Some (math_round (n_mul t (n_of_Z 1000))) else None
  end.
Definition formatChannelTestDuration (responseTime : option num) : option str :=
  t ← responseTime;
  Some (if n_leb (n_of_Z 1000) t then to_fixed (n_div t (n_of_Z 1000)) 2 ++ js " s"
        else num_to_str (n_max (n_of_Z 1) (math_round t)) ++ js " ms").

Record TestOptions := mkTestOptions {
  o_channelName : option str; o_testModel : option str; o_endpointType : option str; o_stream : bool; o_silent : bool }.

Definition given (s : option str) : option str := t ← s; if truthy t then Some t else None.

Definition getChannelTestLabel (options : option TestOptions) : toast_text :=
  let name := given (trim <$> (o ← options; o_channelName o)) in
  let model := given (trim <$> (o ← options; o_testModel o)) in
  match name, model with
  | Some n, Some m => T "Channel {{name}} model {{model}}" [("name", n); ("model", m)]%string
  | Some n, None => T "Channel {{name}}" [("name"%string, n)]
  | None, Some m => T "Model {{model}}" [("model"%string, m)]
  | None, None => T "Channel" []
  end.

Definition test_payload (options : option TestOptions) : option json :=
  o ← options;
  let part (k : String.string) v := match given v with Some s => [(k, JStr s)] | None => [] end in
  let l := part "model"%string (o_testModel o) ++ part "endpoint_type"%string (o_endpointType o)
           ++ (if o_stream o then [("stream"%string, JBool true)] else []) in
  match l with [] => None | _ => Some (jobject l) end.

Definition silent (options : option TestOptions) : bool := match options with Some o => o_silent o | None => false end.

Definition target_text (key : String.string) (target : toast_text) : toast_text := Translated key [("target"%string, target)].

Definition handleTestChannel (id : Z) (options : option TestOptions) (onTestComplete : bool) : action :=
  let complete c := if onTestComplete then [Call c] else [] in
  let toast e := if silent options then [] else [e] in
  let target := getChannelTestLabel options in
  Sends (testChannel id (test_payload options)) (fun o =>
    match o with
    | Replied response =>
        let responseTime := getChannelTestResponseTime response in
        if r_success response then
          toast (ToastOk (target_text "{{target}} test succeeded" target)
                   (d ← formatChannelTestDuration responseTime; if truthy d then Some (T "Response time: {{duration}}" [("duration"%string, d)]) else None))
          ++ complete (CTested true responseTime None None)
        else
          let errorMsg := message_or (r_message response) "Failed to test channel" in
          toast (ToastErr (target_text "{{target}} test failed" target)
                   (Some match given (r_error_code response) with Some code => WithCode errorMsg code | None => errorMsg end))
          ++ complete (CTested false responseTime (Some errorMsg) (r_error_code response))
    | Rejected message _ =>
        let errorMsg := message_or message "Failed to test channel" in
        toast (ToastErr (target_text "{{target}} test failed" target) (Some errorMsg)) ++ complete (CTested false None (Some errorMsg) None)
    end).

Definition handleCopyChannel (id : Z) (params : json) (h : Hooks) : action :=
  Sends (copyChannel id params)
    (reported h (fun _ => T "Channel copied successfully" []) (fun r => CCount (default 0 (r_id r))) "Failed to copy channel" "Failed to copy channel").

Definition handleUpdateChannelBalance {N : NumberFormats} (cur : option StoredCurrency) (id : Z) (h : Hooks) : action :=
  Sends (updateChannelBalance id) (fun o =>
    match o with
    | Replied r =>
        match r_success r, r_balance r with
        | true, Some balance =>
            [ToastOk (T "Balance updated: {{balance}}" [("balance"%string, formatCurrencyFromUSD cur (Some balance) (digit_options 2 4 false))]) None]
            ++ refetch h ++ called h (CBalance balance)
        | _, _ => said (r_message r) "Failed to update balance"
        end
    | Rejected _ (Some message) => [ToastErr (Said message) None]
    | Rejected _ None => [ToastErr (T "Failed to update balance" []) None]
    end).

(** ** Actions on several channels *)

Definition no_selection : action := Immediate [ToastErr (T "No channels selected" []) None].
Definition some_ids (ids : list Z) (a : action) : action := if (length ids =? 0)%nat then no_selection else a.

(** [value || fallback] of a number that may be missing. *)
Definition number_or_else (v : option Z) (fallback : Z) : Z := match v with Some z => if z =? 0 then fallback else z | None => fallback end.

Definition handleBatchDelete (ids : list Z) (h : Hooks) : action :=
  let count r := number_or_else (r_data r) (Z.of_nat (length ids)) in
  some_ids ids (Sends (batchDeleteChannels ids)
    (reported h (fun r => T "{{count}} channel(s) deleted" [("count"%string, show_Z (count r))]) (fun r => CCount (count r))
       "Failed to delete channel" "Failed to delete channel")).

(** The two batch changes of the state of channels. *)
Definition batch_status (status : Z) (done some_failed failed : String.string) (ids : list Z) (h : Hooks) : action :=
  some_ids ids (Sends (batchUpdateChannelStatus ids status) (fun o =>
    match o with
    | Replied r =>
        let successCount := if r_success r then number_or_else (r_data r) 0 else 0 in
        let failCount := Z.of_nat (length ids) - successCount in
        (if 0 <? successCount then [ToastOk (T done [("count"%string, show_Z successCount)]) None] ++ refetch h ++ called h CDone else [])
        ++ (if negb (r_success r) then said (r_message r) failed
            else if 0 <? failCount then [ToastErr (T some_failed [("count"%string, show_Z failCount)]) None] else [])
    | Rejected _ _ => [ToastErr (T failed []) None]
    end)).
Definition handleBatchEnable : list Z -> Hooks -> action :=
  batch_status CHANNEL_STATUS_ENABLED "{{count}} channel(s) enabled" "{{count}} channel(s) failed to enable" "Failed to enable channels".
Definition handleBatchDisable : list Z -> Hooks -> action :=
  batch_status CHANNEL_STATUS_MANUAL_DISABLED "{{count}} channel(s) disabled" "{{count}} channel(s) failed to disable" "Failed to disable channels".

Definition handleBatchSetTag (ids : list Z) (tag : option str) (h : Hooks) : action :=
  some_ids ids (Sends (batchSetChannelTag ids tag) (plainly h "Tag set successfully" "Failed to set tag")).

Definition handleEnableTagChannels (tag : str) (h : Hooks) : action :=
  Sends (enableTagChannels tag)
    (reported h (fun _ => T "Enabled all channels with tag: {{tag}}" [("tag"%string, tag)]) (fun _ => CDone)
       "Failed to enable tag channels" "Failed to enable tag channels").
Definition handleDisableTagChannels (tag : str) (h : Hooks) : action :=
  Sends (disableTagChannels tag)
    (reported h (fun _ => T "Disabled all channels with tag: {{tag}}" [("tag"%string, tag)]) (fun _ => CDone)
       "Failed to disable tag channels" "Failed to disable tag channels").

Definition handleDeleteAllDisabled (h : Hooks) : action :=
  let count r := number_or_else (r_data r) 0 in
  Sends deleteDisabledChannels
    (reported h (fun r => T "{{count}} disabled channel(s) deleted" [("count"%string, show_Z (count r))]) (fun r => CCount (count r))
       "Failed to delete disabled channels" "Failed to delete disabled channels").

Definition handleFixAbilities (h : Hooks) : action :=
  Sends fixChannelAbilities (fun o =>
    match o with
    | Replied r =>
        match r_success r, r_fixed r with
        | true, Some (success, fails) =>
            [ToastOk (T "Channel consistency repaired: {{success}} succeeded, {{fails}} failed"
                        [("success", show_Z success); ("fails", show_Z fails)]%string) None]
            ++ refetch h ++ called h (CFixed success fails)
        | _, _ => said (r_message r) "Failed to repair channel consistency"
        end
    | Rejected _ _ => [ToastErr (T "Failed to repair channel consistency" []) None]
    end).

Definition handleTestAllChannels (h : Hooks) : action :=
  Sends testAllChannels
    (reported h (fun _ => T "Testing all enabled channels started. Please refresh to see results." []) (fun _ => CDone)
       "Failed to start testing all channels" "Failed to test all channels").
Definition handleUpdateAllBalances (h : Hooks) : action :=
  Sends updateAllChannelsBalance
    (plainly h "Updating all channel balances. This may take a while. Please refresh to see results." "Failed to update all balances").
