(* ===== verification/ChannelActionProps.v ===== *)
(** * What the actions send and report

    Each action on channels sends the request that is asked for, and tells the truth about its outcome: a success exactly when
    the server confirmed it, with the list loaded again and the caller told; an error message otherwise. *)
From S2P Require Import Prelude Number Json JsonObject Currency ChannelForm ChannelList ChannelActions.

Local Open Scope Z_scope.

(** Every action of the module, with its arguments. *)
Inductive channel_action :=
| Enable (id : Z) | Disable (id : Z) | Toggle (id status : Z) | Delete (id : Z)
| UpdateField (id : Z) (f : edited_field) (v : Z) | UpdateTagField (tag : str) (f : edited_field) (v : Z)
| TestChannel (id : Z) (options : option TestOptions) | Copy (id : Z) (params : json) | UpdateBalance (id : Z)
| BatchDelete (ids : list Z) | BatchEnable (ids : list Z) | BatchDisable (ids : list Z) | BatchSetTag (ids : list Z) (tag : option str)
| EnableTag (tag : str) | DisableTag (tag : str) | DeleteDisabled | FixAbilities | TestAll | UpdateAllBalances.

(** ** What is asked for *)

(** The methods, the addresses and the bodies of the routes of the server; state 1 is an enabled channel, state 2 one that was
    disabled by hand. *)
Definition asked (a : channel_action) (q : Http) : Prop :=
  let status_of id status := q = mkHttp "post" (js "/api/channel/" ++ show_Z id ++ js "/status") (Some (JObj [(js "status", JNum (n_of_Z status))])) None in
  let batch path ids more := q = mkHttp "post" (js path) (Some (JObj ((js "ids", JArr (map (fun id => JNum (n_of_Z id)) ids)) :: more))) None in
  let field f v := (match f with FPriority => js "priority" | FWeight => js "weight" end, JNum (n_of_Z v)) in
  match a with
  | Enable id => status_of id 1
  | Disable id => status_of id 2
  | Toggle id status => status_of id (if decide (status = 1) then 2 else 1)
  | Delete id => q = mkHttp "delete" (js "/api/channel/" ++ show_Z id) None None
  | UpdateField id f v => q = mkHttp "put" (js "/api/channel/") (Some (JObj [(js "id", JNum (n_of_Z id)); field f v])) None
  | UpdateTagField tag f v => q = mkHttp "put" (js "/api/channel/tag") (Some (JObj [(js "tag", JStr tag); field f v])) None
  | TestChannel id options =>
      http_method q = "get"%string /\ http_path q = js "/api/channel/test/" ++ show_Z id /\ http_body q = None /\
      let param k := match http_params q with Some (JObj l) => map_get (js k) l | _ => None end in
      let text get := o ← options; match get o with Some (_ :: _) as t => JStr <$> t | _ => None end in
      param "model"%string = text o_testModel /\ param "endpoint_type"%string = text o_endpointType /\
      param "stream"%string = (o ← options; if o_stream o then Some (JBool true) else None)
  | Copy id params => q = mkHttp "post" (js "/api/channel/copy/" ++ show_Z id) (Some JNull) (Some params)
  | UpdateBalance id => q = mkHttp "get" (js "/api/channel/update_balance/" ++ show_Z id) None None
  | BatchDelete ids => batch "/api/channel/batch"%string ids []
  | BatchEnable ids => batch "/api/channel/status/batch"%string ids [(js "status", JNum (n_of_Z 1))]
  | BatchDisable ids => batch "/api/channel/status/batch"%string ids [(js "status", JNum (n_of_Z 2))]
  | BatchSetTag ids tag => batch "/api/channel/batch/tag"%string ids [(js "tag", match tag with Some t => JStr t | None => JNull end)]
  | EnableTag tag => q = mkHttp "post" (js "/api/channel/tag/enabled") (Some (JObj [(js "tag", JStr tag)])) None
  | DisableTag tag => q = mkHttp "post" (js "/api/channel/tag/disabled") (Some (JObj [(js "tag", JStr tag)])) None
  | DeleteDisabled => q = mkHttp "delete" (js "/api/channel/disabled") None None
  | FixAbilities => q = mkHttp "post" (js "/api/channel/fix") None None
  | TestAll => q = mkHttp "get" (js "/api/channel/test") None None
  | UpdateAllBalances => q = mkHttp "get" (js "/api/channel/update_balance") None None
  end.

(** The selected channels of a batch action. *)
Definition batch_ids (a : channel_action) : option (list Z) :=
  match a with BatchDelete ids | BatchEnable ids | BatchDisable ids | BatchSetTag ids _ => Some ids | _ => None end.

Section Actions.
Context {N : NumberFormats} (cur : option StoredCurrency).

(** ** What is to be reported *)

(** A confirmed action: the parameters of the message, the value for the caller, and how many of the channels were left out;
    or one that was not confirmed. *)
Inductive verdict := Confirmed (params : list (String.string * str)) (value : callback) (omitted : Z) | Unconfirmed.

Definition one_param (k : String.string) (s : str) : list (String.string * str) := [(k, s)].
Definition count_or (v : option Z) (fallback : Z) : Z := match v with Some 0 | None => fallback | Some n => n end.

(** What an answer that says success confirms. *)
Definition confirms (a : channel_action) (r : Reply) : verdict :=
  let label f := match f with FPriority => js "Priority" | FWeight => js "Weight" end in
  match a with
  | Enable _ | Disable _ | Toggle _ _ | Delete _ | BatchSetTag _ _ | TestAll | UpdateAllBalances => Confirmed [] CDone 0
  | UpdateField _ f v => Confirmed [("field", label f); ("value", show_Z v)]%string CDone 0
  | UpdateTagField tag f v => Confirmed [("field", label f); ("value", show_Z v); ("tag", tag)]%string CDone 0
  | TestChannel _ _ => Confirmed [] (CTested true (getChannelTestResponseTime r) None None) 0
  | Copy _ _ => Confirmed [] (CCount (default 0 (r_id r))) 0
  | UpdateBalance _ =>
      match r_balance r with
      | Some b => Confirmed (one_param "balance" (formatCurrencyFromUSD cur (Some b) (digit_options 2 4 false))) (CBalance b) 0
      | None => Unconfirmed
      end
  | BatchDelete ids => let n := count_or (r_data r) (Z.of_nat (length ids)) in Confirmed (one_param "count" (show_Z n)) (CCount n) 0
  | BatchEnable ids | BatchDisable ids =>
      let n := default 0 (r_data r) in
      if 0 <? n then Confirmed (one_param "count" (show_Z n)) CDone (Z.max 0 (Z.of_nat (length ids) - n)) else Unconfirmed
  | EnableTag tag | DisableTag tag => Confirmed (one_param "tag" tag) CDone 0
  | DeleteDisabled => let n := default 0 (r_data r) in Confirmed (one_param "count" (show_Z n)) (CCount n) 0
  | FixAbilities =>
      match r_fixed r with
      | Some (ok, bad) => Confirmed [("success", show_Z ok); ("fails", show_Z bad)]%string (CFixed ok bad) 0
      | None => Unconfirmed
      end
  end.
Definition verdict_of (a : channel_action) (o : call_outcome) : verdict :=
  match o with Replied r => if r_success r then confirms a r else Unconfirmed | Rejected _ _ => Unconfirmed end.

(** The text of an error: the one of the server, when it says no and why. *)
Definition tells_why (o : call_outcome) (t : toast_text) : Prop :=
  forall r m, o = Replied r -> r_success r = false -> r_message r = Some m -> m <> [] -> t = Said m.

(** The effects of an action that ends with [v]: after a confirmation one message of success with the parameters, the list
    fetched again and the caller told - where the caller passed the means - and one message for what was left out; otherwise one
    message of the error and nothing else. *)
Definition reports (h : Hooks) (o : call_outcome) (v : verdict) (l : list effect) : Prop :=
  match v with
  | Confirmed params value omitted =>
      exists key more, l = ToastOk (T key params) None :: (if queryClient h then [Refetch] else []) ++ (if onSuccess h then [Call value] else []) ++ more /\
        (omitted = 0 -> more = []) /\ (omitted <> 0 -> exists key', more = [ToastErr (T key' (one_param "count" (show_Z omitted))) None])
  | Unconfirmed => exists t, l = [ToastErr t None] /\ tells_why o t
  end.

(** A test of a channel: its message is left out when it is silent, there is nothing to fetch again, and the caller is told
    the failure, too. *)
Definition reports_test (silently complete : bool) (o : call_outcome) (l : list effect) : Prop :=
  let shown e := if silently then [] else [e] in
  let told c := if complete then [Call c] else [] in
  match o with
  | Replied r =>
      let time := getChannelTestResponseTime r in
      if r_success r then exists t d, l = shown (ToastOk t d) ++ told (CTested true time None None)
      else exists t d why, l = shown (ToastErr t (Some d)) ++ told (CTested false time (Some why) (r_error_code r)) /\ tells_why o why
  | Rejected _ _ => exists t why, l = shown (ToastErr t (Some why)) ++ told (CTested false None (Some why) None)
  end.

Definition perform (a : channel_action) (h : Hooks) : action :=
  match a with
  | Enable id => handleEnableChannel id h
  | Disable id => handleDisableChannel id h
  | Toggle id status => handleToggleChannelStatus id status h
  | Delete id => handleDeleteChannel id h
  | UpdateField id f v => handleUpdateChannelField id f v h
  | UpdateTagField tag f v => handleUpdateTagField tag f v h
  | TestChannel id options => handleTestChannel id options (onSuccess h)
  | Copy id params => handleCopyChannel id params h
  | UpdateBalance id => handleUpdateChannelBalance cur id h
  | BatchDelete ids => handleBatchDelete ids h
  | BatchEnable ids => handleBatchEnable ids h
  | BatchDisable ids => handleBatchDisable ids h
  | BatchSetTag ids tag => handleBatchSetTag ids tag h
  | EnableTag tag => handleEnableTagChannels tag h
  | DisableTag tag => handleDisableTagChannels tag h
  | DeleteDisabled => handleDeleteAllDisabled h
  | FixAbilities => handleFixAbilities h
  | TestAll => handleTestAllChannels h
  | UpdateAllBalances => handleUpdateAllBalances h
  end.

Definition report_of (a : channel_action) (h : Hooks) (o : call_outcome) (l : list effect) : Prop :=
  match a with
  | TestChannel _ options => reports_test (match options with Some o => o_silent o | None => false end) (onSuccess h) o l
  | _ => reports h o (verdict_of a o) l
  end.

(** ** The reports *)

Lemma said_why o m fallback : (forall r, o = Replied r -> r_message r = m) -> tells_why o (message_or m fallback).
Proof.
  intros Hm r t Ho _ Ht Hne. rewrite (Hm r Ho) in Ht. subst m. unfold message_or. by rewrite (proj2 (truthy_true _) Hne).
Qed.

Lemma report_said h r fallback : reports h (Replied r) Unconfirmed (said (r_message r) fallback).
Proof. eexists. split; [done |]. apply said_why. by intros r' [= <-]. Qed.

Lemma report_rejected h m e t : reports h (Rejected m e) Unconfirmed [ToastErr t None].
Proof. exists t. split; [done |]. by intros r m'. Qed.

Lemma report_success h o key params value : reports h o (Confirmed params value 0) ([ToastOk (T key params) None] ++ refetch h ++ called h value).
Proof. exists key, []. unfold refetch, called. rewrite app_nil_r. split; [done |]. by split. Qed.

Lemma report_common h key params value refused failed a o :
  (forall r, confirms a r = Confirmed (params r) (value r) 0) ->
  reports h o (verdict_of a o) (reported h (fun r => T key (params r)) value refused failed o).
Proof.
  intros Hc. destruct o as [r|m e]; cbn [reported verdict_of]; [| apply report_rejected].
  destruct (r_success r) eqn:E; [rewrite Hc; apply report_success | apply report_said].
Qed.

Lemma report_balance id h o : exists q f, handleUpdateChannelBalance cur id h = Sends q f /\ reports h o (verdict_of (UpdateBalance id) o) (f o).
Proof.
  eexists _, _. split; [done |]. cbv beta. destruct o as [r|m [e|]]; [| apply report_rejected..]. cbn [verdict_of confirms].
  destruct (r_success r), (r_balance r); [apply report_success | apply report_said ..].
Qed.

Lemma report_fix h o : exists q f, handleFixAbilities h = Sends q f /\ reports h o (verdict_of FixAbilities o) (f o).
Proof.
  eexists _, _. split; [done |]. cbv beta. destruct o as [r|m e]; [| apply report_rejected]. cbn [verdict_of confirms].
  destruct (r_success r), (r_fixed r) as [[]|]; [apply report_success | apply report_said ..].
Qed.

Lemma counted v d : number_or_else v d = count_or v d.
Proof. by destruct v as [[|p|p]|]. Qed.

Lemma report_batch status key some_failed failed ids h o a : ids <> [] -> a = BatchEnable ids \/ a = BatchDisable ids ->
  exists f, batch_status status key some_failed failed ids h = Sends (batchUpdateChannelStatus ids status) f /\
    reports h o (verdict_of a o) (f o).
Proof.
  intros Hi Ha. unfold batch_status, some_ids. destruct ids as [|i ids]; [done |]. cbn [length Nat.eqb]. eexists. split; [done |]. cbv beta zeta.
  destruct o as [r|m e]; [| apply report_rejected]. cbn [verdict_of]. destruct (r_success r) eqn:E; cbn [negb Z.ltb Z.compare app]; [| apply report_said].
  assert (number_or_else (r_data r) 0 = default 0 (r_data r)) as -> by (by destruct (r_data r) as [[|p|p]|]).
  assert (confirms a r = if 0 <? default 0 (r_data r) then Confirmed (one_param "count" (show_Z (default 0 (r_data r)))) CDone
    (Z.max 0 (Z.of_nat (length (i :: ids)) - default 0 (r_data r))) else Unconfirmed) as -> by (by destruct Ha as [-> | ->]).
  generalize (default 0 (r_data r)) as k. intros k. cbn [length]. destruct (Z.ltb_spec 0 k) as [Hk | Hk].
  - exists key. eexists. unfold refetch, called. split; [cbn [app]; rewrite <- ?app_assoc; done |].
    destruct (Z.ltb_spec 0 (Z.of_nat (S (length ids)) - k)); [| split; [done | lia]].
    split; [lia |]. intros _. exists some_failed. by rewrite Z.max_r by lia.
  - rewrite (proj2 (Z.ltb_lt _ _)) by lia. cbn [app]. eexists. split; [done |]. intros r' m [= <-] Hf. congruence.
Qed.

Lemma report_test id options complete o :
  exists f, handleTestChannel id options complete = Sends (testChannel id (test_payload options)) f /\
    reports_test (match options with Some o => o_silent o | None => false end) complete o (f o).
Proof.
  eexists. split; [done |]. cbv beta zeta. unfold reports_test. change (match options with Some o => o_silent o | None => false end) with (silent options).
  destruct o as [r|m e]; [destruct (r_success r) eqn:E |].
  - by eexists _, _.
  - eexists _, _, _. split; [done |]. apply said_why. by intros r' [= <-].
  - by eexists _, _.
Qed.

(** ** The requests *)

Lemma given_text (t : option str) : given t = match t with Some (_ :: _) => t | _ => None end.
Proof. by destruct t as [[|c s]|]. Qed.

Lemma test_asked id options : asked (TestChannel id options) (testChannel id (test_payload options)).
Proof.
  unfold asked, testChannel, path_id. cbn [http_method http_path http_body http_params]. rewrite app_nil_r. split_and!; [done .. | | |];
    (destruct options as [o|]; [| done]); unfold test_payload; cbn [mbind option_bind]; rewrite !given_text;
    by destruct (o_testModel o) as [[|]|], (o_endpointType o) as [[|]|], (o_stream o).
Qed.

Lemma path_plain prefix id : path_id prefix id "" = js prefix ++ show_Z id.
Proof. unfold path_id. by rewrite app_nil_r. Qed.

(** C23: every action on channels, connection tests included, sends the request that is asked for and reports its outcome
    truthfully. When the server's answer confirms the action, one message of success appears with the values that were set or
    counted, and the list is fetched again and the caller told, where the caller passed the means; a batch change of states
    that left channels out also says how many. Otherwise one error message appears, with the reason when the server says no
    and why, and nothing else happens. A connection test shows and tells its result either way, without the message when it
    is silent. A batch action without selected channels sends no request and shows an error. *)
Theorem actions_report_honestly (a : channel_action) (h : Hooks) :
  if decide (batch_ids a = Some []) then perform a h = Immediate [ToastErr (T "No channels selected" []) None]
  else exists request finish, perform a h = Sends request finish /\ asked a request /\ forall o, report_of a h o (finish o).
Proof.
  destruct a as [id|id|id st|id|id f v|tag f v|id opts|id params|id|ids|ids|ids|ids tag|tag|tag| | | | ];
    try (rewrite decide_False by done); cbn [batch_ids perform].
  1, 2: (eexists _, _; split_and!; [done | done | intros o; by apply (report_common h _ (fun _ => []) (fun _ => CDone))]).
  - unfold handleToggleChannelStatus. change CHANNEL_STATUS_ENABLED with 1. destruct (Z.eqb_spec st 1) as [-> | Hst];
      (eexists _, _; split_and!; [done | cbn; by case_decide | intros o; by apply (report_common h _ (fun _ => []) (fun _ => CDone))]).
  - eexists _, _. split_and!; [done | cbn; by rewrite <- path_plain | intros o; by apply (report_common h _ (fun _ => []) (fun _ => CDone))].
  - eexists _, _. split_and!; [done | by destruct f | intros o; by apply (report_common h _ (fun _ => _) (fun _ => CDone))].
  - eexists _, _. split_and!; [done | by destruct f | intros o; by apply (report_common h _ (fun _ => _) (fun _ => CDone))].
  - eexists _, _. split_and!; [done | apply test_asked |]. intros o. by destruct (report_test id opts (onSuccess h) o) as (f & [= <-] & H).
  - eexists _, _. split_and!; [done | cbn; by rewrite <- path_plain | intros o; by apply (report_common h _ (fun _ => []) (fun r => CCount (default 0 (r_id r))))].
  - eexists _, _. split_and!; [done | cbn; by rewrite <- path_plain |]. intros o. by destruct (report_balance id h o) as (q & f & [= <- <-] & H).
  - destruct ids as [|i ids]; [by rewrite decide_True |]. rewrite decide_False by done. eexists _, _. split_and!; [done | done |].
    intros o. apply (report_common h _ (fun r => one_param "count" _) (fun r => CCount _)). intros r. cbn [confirms]. by rewrite counted.
  - destruct ids as [|i ids]; [by rewrite decide_True |]. rewrite decide_False by done. eexists _, _. split_and!; [done | done |].
    intros o. destruct (report_batch CHANNEL_STATUS_ENABLED "{{count}} channel(s) enabled" "{{count}} channel(s) failed to enable" "Failed to enable channels"
      (i :: ids) h o (BatchEnable (i :: ids))) as (f & [= <-] & H); [done | by left | exact H].
  - destruct ids as [|i ids]; [by rewrite decide_True |]. rewrite decide_False by done. eexists _, _. split_and!; [done | done |].
    intros o. destruct (report_batch CHANNEL_STATUS_MANUAL_DISABLED "{{count}} channel(s) disabled" "{{count}} channel(s) failed to disable" "Failed to disable channels"
      (i :: ids) h o (BatchDisable (i :: ids))) as (f & [= <-] & H); [done | by right | exact H].
  - destruct ids as [|i ids]; [by rewrite decide_True |]. rewrite decide_False by done. eexists _, _.
    split_and!; [done | by destruct tag | intros o; by apply (report_common h _ (fun _ => []) (fun _ => CDone))].
  - eexists _, _. split_and!; [done | done | intros o; by apply (report_common h _ (fun _ => one_param "tag" tag) (fun _ => CDone))].
  - eexists _, _. split_and!; [done | done | intros o; by apply (report_common h _ (fun _ => one_param "tag" tag) (fun _ => CDone))].
  - eexists _, _. split_and!; [done | done |]. intros o. apply (report_common h _ (fun r => one_param "count" _) (fun r => CCount _)).
    intros r. cbn [confirms]. by destruct (r_data r) as [[]|].
  - eexists _, _. split_and!; [done | done |]. intros o. by destruct (report_fix h o) as (q & f & [= <- <-] & H).
  - eexists _, _. split_and!; [done | done | intros o; by apply (report_common h _ (fun _ => []) (fun _ => CDone))].
  - eexists _, _. split_and!; [done | done | intros o; by apply (report_common h _ (fun _ => []) (fun _ => CDone))].
Qed.
End Actions.
