(* ===== verification/ChannelDialogs.v ===== *)
(** * Dialogs of the channel list

    The dialog for the keys of a multi-key channel (components/dialogs/multi-key-manage-dialog.tsx), and the updates of the models
    of a channel from its provider: what the settings say (lib/upstream-update-utils.ts), the hook that sends the requests
    (hooks/use-channel-upstream-updates.ts) and the dialog that chooses the models (components/dialogs/upstream-update-dialog.tsx).

    An asynchronous operation is two steps of the page: the call, which leaves a request under way, and the arrival of its
    outcome; other steps may come between them. *)
From S2P Require Import Prelude Number Json JsonObject TableState ChannelForm ChannelList ChannelActions.

Local Open Scope Z_scope.

(** ** The keys of a channel *)

Record KeyStatus := mkKey { key_index : Z; key_status : Z; key_disabled_time : option Z; key_reason : option str }.

(** [response.data] of a list of keys; missing numbers are [None]. *)
Record KeyPage := mkKeyPage {
  kp_keys : option (list KeyStatus); kp_total : option Z; kp_page : option Z; kp_page_size : option Z; kp_total_pages : option Z;
  kp_enabled : option Z; kp_manual : option Z; kp_auto : option Z }.

Inductive keys_answer := KeysLoaded (p : KeyPage) | KeysRefused (message : option str) | KeysFailed (error_message : option str).

Record load_args := mkLoad { la_page : Z; la_size : Z; la_status : option Z }.

(** An action under way with the arguments of the load that follows it: they are read when the action starts. *)
Record KeysDialog := mkKeys {
  kd_channel : Z; kd_isLoading : bool; kd_keys : list KeyStatus; kd_page : Z; kd_pageSize : Z; kd_total : Z; kd_totalPages : Z;
  kd_enabled : Z; kd_manual : Z; kd_auto : Z; kd_filter : option Z; kd_confirm : option (KeyAction * option Z); kd_performing : bool;
  kd_loads : list load_args; kd_actions : list (KeyAction * load_args); kd_sent : list Http; kd_shown : list effect }.

Definition with_load (s : KeysDialog) (page pageSize : Z) (filter : option Z) (args : load_args) : KeysDialog :=
  mkKeys (kd_channel s) true (kd_keys s) page pageSize (kd_total s) (kd_totalPages s) (kd_enabled s) (kd_manual s) (kd_auto s)
    filter (kd_confirm s) (kd_performing s) (kd_loads s ++ [args]) (kd_actions s)
    (kd_sent s ++ [getMultiKeyStatus (kd_channel s) (la_page args) (la_size args) (la_status args)]) (kd_shown s).

Definition loadKeyStatus (s : KeysDialog) (args : load_args) : KeysDialog := with_load s (kd_page s) (kd_pageSize s) (kd_filter s) args.

(** The effect of opening the dialog for a channel, and of changing the channel of an open dialog. *)
Definition open_keys (s : KeysDialog) (channel : Z) : KeysDialog :=
  let s := mkKeys channel (kd_isLoading s) (kd_keys s) (kd_page s) (kd_pageSize s) (kd_total s) (kd_totalPages s) (kd_enabled s)
    (kd_manual s) (kd_auto s) (kd_filter s) (kd_confirm s) (kd_performing s) (kd_loads s) (kd_actions s) (kd_sent s) (kd_shown s) in
  with_load s 1 (kd_pageSize s) None (mkLoad 1 (kd_pageSize s) None).

Definition take_load (s : KeysDialog) (i : nat) : list load_args := take i (kd_loads s) ++ drop (S i) (kd_loads s).

(** The outcome of the [i]-th load under way arrives. *)
Definition keys_answered (s : KeysDialog) (i : nat) (a : keys_answer) : KeysDialog :=
  match kd_loads s !! i with
  | None => s
  | Some _ =>
      match a with
      | KeysLoaded p =>
          mkKeys (kd_channel s) false (default [] (kp_keys p)) (number_or_else (kp_page p) 1) (number_or_else (kp_page_size p) 10)
            (number_or_else (kp_total p) 0) (number_or_else (kp_total_pages p) 0) (number_or_else (kp_enabled p) 0)
            (number_or_else (kp_manual p) 0) (number_or_else (kp_auto p) 0) (kd_filter s) (kd_confirm s) (kd_performing s)
            (take_load s i) (kd_actions s) (kd_sent s) (kd_shown s)
      | KeysRefused m | KeysFailed m =>
          let t := match a with KeysFailed (Some e) => Said e | _ => message_or m "Failed to load key status" end in
          mkKeys (kd_channel s) false (kd_keys s) (kd_page s) (kd_pageSize s) (kd_total s) (kd_totalPages s) (kd_enabled s)
            (kd_manual s) (kd_auto s) (kd_filter s) (kd_confirm s) (kd_performing s) (take_load s i) (kd_actions s) (kd_sent s)
            (kd_shown s ++ [ToastErr t None])
      end
  end.

Definition handleStatusFilterChange (s : KeysDialog) (value : str) : KeysDialog :=
  let newFilter := if str_eqb value (js "all") then None else parseInt value in
  with_load s 1 (kd_pageSize s) newFilter (mkLoad 1 (kd_pageSize s) newFilter).
Definition handlePageChange (s : KeysDialog) (newPage : Z) : KeysDialog :=
  with_load s newPage (kd_pageSize s) (kd_filter s) (mkLoad newPage (kd_pageSize s) (kd_filter s)).
Definition onPageSizeChange (s : KeysDialog) (nextPageSize : Z) : KeysDialog :=
  with_load s 1 nextPageSize (kd_filter s) (mkLoad 1 nextPageSize (kd_filter s)).

Definition with_confirm (s : KeysDialog) (confirm : option (KeyAction * option Z)) (performing : bool)
    (actions : list (KeyAction * load_args)) (sent : list Http) (shown : list effect) : KeysDialog :=
  mkKeys (kd_channel s) (kd_isLoading s) (kd_keys s) (kd_page s) (kd_pageSize s) (kd_total s) (kd_totalPages s) (kd_enabled s)
    (kd_manual s) (kd_auto s) (kd_filter s) confirm performing (kd_loads s) actions sent shown.
Definition setConfirmAction (s : KeysDialog) (c : option (KeyAction * option Z)) : KeysDialog :=
  with_confirm s c (kd_performing s) (kd_actions s) (kd_sent s) (kd_shown s).

(** The buttons of a row and of the toolbar; those that delete do nothing without the permission. *)
Definition row_action (canDelete : bool) (key : KeyStatus) (delete : bool) (s : KeysDialog) : KeysDialog :=
  if delete then if canDelete then setConfirmAction s (Some (ADelete, Some (key_index key))) else s
  else if key_status key =? 1 then setConfirmAction s (Some (ADisable, Some (key_index key)))
  else setConfirmAction s (Some (AEnable, Some (key_index key))).
Definition toolbar_action (canEditSensitive : bool) (a : KeyAction) (s : KeysDialog) : KeysDialog :=
  match a with
  | AEnableAll => if 0 <? kd_manual s + kd_auto s then setConfirmAction s (Some (AEnableAll, None)) else s
  | ADisableAll => if 0 <? kd_enabled s then setConfirmAction s (Some (ADisableAll, None)) else s
  | ADeleteDisabled =>
      if 0 <? kd_auto s then if canEditSensitive then setConfirmAction s (Some (ADeleteDisabled, None)) else s else s
  | _ => s
  end.

Definition action_request (channel : Z) (c : KeyAction * option Z) : option Http :=
  match c with
  | (AEnable, Some i) => Some (enableMultiKey channel i)
  | (ADisable, Some i) => Some (disableMultiKey channel i)
  | (ADelete, Some i) => Some (deleteMultiKey channel i)
  | (AEnableAll, _) => Some (enableAllMultiKeys channel)
  | (ADisableAll, _) => Some (disableAllMultiKeys channel)
  | (ADeleteDisabled, _) => Some (deleteDisabledMultiKeys channel)
  | _ => None
  end.

Definition is_bulk (a : KeyAction) : bool := match a with AEnableAll | ADisableAll | ADeleteDisabled => true | _ => false end.

(** [performAction] up to its request: without one the answer is [undefined], which counts as a failure. *)
Definition performAction (canEditSensitive : bool) (s : KeysDialog) : KeysDialog :=
  match kd_confirm s with
  | None => s
  | Some (a, keyIndex) =>
      if negb canEditSensitive && (bool_decide (a = ADelete) || bool_decide (a = ADeleteDisabled)) then setConfirmAction s None
      else
        let after := mkLoad (if is_bulk a then 1 else kd_page s) (kd_pageSize s) (kd_filter s) in
        match action_request (kd_channel s) (a, keyIndex) with
        | Some q => with_confirm s (kd_confirm s) true (kd_actions s ++ [(a, after)]) (kd_sent s ++ [q]) (kd_shown s)
        | None => with_confirm s None false (kd_actions s) (kd_sent s) (kd_shown s ++ [ToastErr (T "Operation failed" []) None])
        end
  end.

(** The outcome of the [i]-th action under way arrives: [finally] closes the confirmation in every case. *)
Definition action_answered (s : KeysDialog) (i : nat) (o : call_outcome) : KeysDialog :=
  match kd_actions s !! i with
  | None => s
  | Some (a, after) =>
      let rest := take i (kd_actions s) ++ drop (S i) (kd_actions s) in
      let close shown := with_confirm s None false rest (kd_sent s) (kd_shown s ++ shown) in
      match o with
      | Replied r =>
          if r_success r then
            let s' := close [ToastOk (message_or (r_message r) "Operation successful") None; Refetch] in
            with_load s' (if is_bulk a then 1 else kd_page s') (kd_pageSize s') (kd_filter s') after
          else close (said (r_message r) "Operation failed")
      | Rejected _ (Some e) => close [ToastErr (Said e) None]
      | Rejected _ None => close [ToastErr (T "Operation failed" []) None]
      end
  end.

Definition initial_keys (channel : Z) : KeysDialog :=
  mkKeys channel false [] 1 10 0 0 0 0 0 None None false [] [] [] [].

(** One step of the dialog, the permission of the user given.  The menu of the filter offers [all] and the numbers of the states. *)
Inductive keys_step (canEditSensitive : bool) : KeysDialog -> KeysDialog -> Prop :=
| step_open s c : keys_step canEditSensitive s (open_keys s c)
| step_loaded s i a : keys_step canEditSensitive s (keys_answered s i a)
| step_refresh s : keys_step canEditSensitive s (loadKeyStatus s (mkLoad (kd_page s) (kd_pageSize s) (kd_filter s)))
| step_filter s v : keys_step canEditSensitive s (handleStatusFilterChange s v)
| step_page s p : keys_step canEditSensitive s (handlePageChange s p)
| step_size s n : keys_step canEditSensitive s (onPageSizeChange s n)
| step_row s k d : k ∈ kd_keys s -> keys_step canEditSensitive s (row_action canEditSensitive k d s)
| step_toolbar s a : keys_step canEditSensitive s (toolbar_action canEditSensitive a s)
| step_cancel s : keys_step canEditSensitive s (setConfirmAction s None)
| step_confirm s : keys_step canEditSensitive s (performAction canEditSensitive s)
| step_answered s i o : keys_step canEditSensitive s (action_answered s i o).

(** ** Updates of the models: settings *)

(** [String(model || '').trim()] of each, the empty ones and the repetitions left out. *)
Definition normalizeModelList (models : list json) : list str :=
  set_of (List.filter truthy (map (fun m => trim (if j_truthy m then to_String m else [])) models)).
Definition normalize_texts (models : list str) : list str := normalizeModelList (map JStr models).

(** [(value || [])] given to [normalizeModelList]: [map] of anything but an array throws. *)
Definition listed_models (v : option json) : option (list str) :=
  match v with
  | None => Some []
  | Some w => if j_truthy w then match w with JArr l => Some (normalizeModelList l) | _ => None end else Some []
  end.

(** The object that the settings are or spell. *)
Definition parsed_settings (settings : option json) (arrays : bool) : option json :=
  match settings with
  | Some (JObj l) => Some (JObj l)
  | Some (JArr l) => if arrays then Some (JArr l) else None
  | Some (JStr s) => JSON_parse s
  | _ => None
  end.

Record UpdateMeta := mkMeta { um_enabled : bool; pendingAddModels : list str; pendingRemoveModels : list str }.

Definition parseUpstreamUpdateMeta (settings : option json) : option UpdateMeta :=
  match parsed_settings settings false with
  | Some ((JObj _ | JArr _) as parsed) =>
      add ← listed_models (member parsed (js "upstream_model_update_last_detected_models"));
      remove ← listed_models (member parsed (js "upstream_model_update_last_removed_models"));
      Some (mkMeta match member parsed (js "upstream_model_update_check_enabled") with Some (JBool true) => true | _ => false end add remove)
  | _ => Some (mkMeta false [] [])
  end.

(** [None]: the call throws. *)
Definition getManualIgnoredModelCount (settings : option json) : option nat :=
  match parsed_settings settings true with
  | None => Some 0%nat
  | Some parsed =>
      if negb (j_truthy parsed) then Some 0%nat
      else length <$> listed_models (member parsed (js "upstream_model_update_ignored_models"))
  end.

(** ** Updates of the models: requests *)

Inductive update_op := OpApply | OpApplyAll | OpDetect | OpDetectAll.
#[global] Instance update_op_eq_dec : EqDecision update_op.
Proof. solve_decision. Defined.

Inductive tab := TabAdd | TabRemove.

Record apply_body := mkApply { ap_id : Z; add_models : list str; ignore_models : list str; remove_models : list str }.
Inductive update_request := PostApply (b : apply_body) | PostApplyAll | PostDetect (id : Z) | PostDetectAll.
Definition op_of (q : update_request) : update_op :=
  match q with PostApply _ => OpApply | PostApplyAll => OpApplyAll | PostDetect _ => OpDetect | PostDetectAll => OpDetectAll end.

(** What is under way: a request, or the refresh of the list after its success. *)
Inductive flight := Asking (q : update_request) | Refreshing (o : update_op).
Definition flight_op (f : flight) : update_op := match f with Asking q => op_of q | Refreshing o => o end.

(** [up_refs] holds the operations whose ref is [true], [up_loading] those whose loading state is; [up_channel] is the id of
    the channel of the modal. *)
Record Updates := mkUpdates {
  up_showModal : bool; up_channel : option Z; up_addModels : list str; up_removeModels : list str; up_preferredTab : tab;
  up_refs : list update_op; up_loading : list update_op; up_flights : list flight; up_shown : list effect }.

Definition initial_updates : Updates := mkUpdates false None [] [] TabAdd [] [] [] [].

Definition show_updates (s : Updates) (l : list effect) : Updates :=
  mkUpdates (up_showModal s) (up_channel s) (up_addModels s) (up_removeModels s) (up_preferredTab s) (up_refs s) (up_loading s)
    (up_flights s) (up_shown s ++ l).

(** [!record?.id]. *)
Definition no_id (record : option Z) : bool := match record with Some id => id =? 0 | None => true end.

Definition openModal (s : Updates) (record : option Z) (pendingAdd pendingRemove : list str) (t : tab) : Updates :=
  let normAdd := normalize_texts pendingAdd in
  let normRemove := normalize_texts pendingRemove in
  if no_id record || ((length normAdd =? 0)%nat && (length normRemove =? 0)%nat)
  then show_updates s [ToastInfo (T "No processable upstream model updates for this channel" [])]
  else mkUpdates true record normAdd normRemove t (up_refs s) (up_loading s) (up_flights s) (up_shown s).

Definition closeModal (s : Updates) : Updates :=
  mkUpdates false None [] [] TabAdd (up_refs s) (up_loading s) (up_flights s) (up_shown s).

(** The operations with a loading state: the detection for one channel has none. *)
Definition has_loading (o : update_op) : bool := match o with OpDetect => false | _ => true end.

Definition send_update (s : Updates) (q : update_request) : Updates :=
  mkUpdates (up_showModal s) (up_channel s) (up_addModels s) (up_removeModels s) (up_preferredTab s)
    (set_add (up_refs s) (op_of q)) (if has_loading (op_of q) then set_add (up_loading s) (op_of q) else up_loading s)
    (up_flights s ++ [Asking q]) (up_shown s).

Definition apply_request (s : Updates) (id : Z) (selectedAdd selectedRemove : list str) : apply_body :=
  let normSelectedAdd := normalize_texts selectedAdd in
  mkApply id normSelectedAdd (List.filter (fun m => negb (set_has m normSelectedAdd)) (up_addModels s)) (normalize_texts selectedRemove).

Definition applyUpdates (s : Updates) (selectedAdd selectedRemove : list str) : Updates :=
  if set_has OpApply (up_refs s) then s
  else if no_id (up_channel s) then closeModal s
  else send_update s (PostApply (apply_request s (default 0 (up_channel s)) selectedAdd selectedRemove)).
Definition applyAllUpdates (s : Updates) : Updates := if set_has OpApplyAll (up_refs s) then s else send_update s PostApplyAll.
Definition detectChannelUpdates (s : Updates) (ch : option Z) : Updates :=
  if set_has OpDetect (up_refs s) || no_id ch then s else send_update s (PostDetect (default 0 ch)).
Definition detectAllUpdates (s : Updates) : Updates := if set_has OpDetectAll (up_refs s) then s else send_update s PostDetectAll.

(** [data] is the object of the answer. *)
Record UpdateReply := mkUpdateReply { ur_success : bool; ur_message : option str; ur_data : option json }.
Inductive update_outcome := UReplied (r : UpdateReply) | URejected (response_message error_message : option str).

Definition data_member (r : UpdateReply) (k : String.string) : option json := d ← ur_data r; member d (js k).
(** [value?.length || 0]. *)
Definition length_of (v : option json) : nat := match v with Some (JArr l) => length l | Some (JStr s) => length s | _ => 0%nat end.
(** [value || 0] shown in a text. *)
Definition shown_or_zero (v : option json) : str := match v with Some w => if j_truthy w then to_String w else js "0" | None => js "0" end.
Definition count_text (n : nat) : str := show_Z (Z.of_nat n).

Definition op_fallback (o : update_op) : String.string :=
  match o with
  | OpApply => "Operation failed" | OpApplyAll => "Batch processing failed" | OpDetect => "Detection failed" | OpDetectAll => "Batch detection failed"
  end.

(** The text of a success; [None] when its parameters throw. *)
Definition success_text (q : update_request) (r : UpdateReply) : option toast_text :=
  match q with
  | PostApply b =>
      totalIgnored ← getManualIgnoredModelCount (data_member r "settings");
      Some (T "Upstream model updates applied: {{added}} added, {{removed}} removed, {{ignored}} ignored this time, {{totalIgnored}} total ignored models"
        [("added", count_text (length_of (data_member r "added_models"))); ("removed", count_text (length_of (data_member r "removed_models")));
         ("ignored", count_text (length (normalize_texts (ignore_models b)))); ("totalIgnored", count_text totalIgnored)]%string)
  | PostApplyAll =>
      Some (T "Batch upstream model updates applied: {{channels}} channels, {{added}} added, {{removed}} removed, {{fails}} failed"
        [("channels", shown_or_zero (data_member r "processed_channels")); ("added", shown_or_zero (data_member r "added_models"));
         ("removed", shown_or_zero (data_member r "removed_models")); ("fails", count_text (length_of (data_member r "failed_channel_ids")))]%string)
  | PostDetect _ =>
      Some (T "Detection complete: {{add}} to add, {{remove}} to remove"
        [("add", count_text (length_of (data_member r "add_models"))); ("remove", count_text (length_of (data_member r "remove_models")))]%string)
  | PostDetectAll =>
      Some (T "Upstream model detection task started. Track progress in System Info, then refresh to review staged updates." [])
  end.

Definition without_flight (s : Updates) (i : nat) : list flight := take i (up_flights s) ++ drop (S i) (up_flights s).
Definition set_remove {A} `{EqDecision A} (x : A) (l : list A) : list A := List.filter (fun y => negb (bool_decide (y = x))) l.

(** [finally]. *)
Definition settle_update (s : Updates) (i : nat) (o : update_op) (l : list effect) : Updates :=
  mkUpdates (up_showModal s) (up_channel s) (up_addModels s) (up_removeModels s) (up_preferredTab s)
    (set_remove o (up_refs s)) (set_remove o (up_loading s)) (without_flight s i) (up_shown s ++ l).

Definition failure_text (o : update_op) (response_message error_message : option str) : toast_text :=
  match given response_message with Some m => Said m | None => message_or error_message (op_fallback o) end.

(** The answer to the [i]-th thing under way, a request or a refresh, arrives; [engine] is the message of an error of the
    runtime. *)
Definition update_answered (engine : str) (s : Updates) (i : nat) (a : update_outcome) : Updates :=
  match up_flights s !! i with
  | None => s
  | Some (Asking q) =>
      let o := op_of q in
      match a with
      | UReplied r =>
          if negb (ur_success r) then settle_update s i o [ToastErr (message_or (ur_message r) (op_fallback o)) None]
          else match success_text q r with
          | None => settle_update s i o [ToastErr (failure_text o None (Some engine)) None]
          | Some t =>
              let closed := match q with PostApply _ => closeModal s | _ => s end in
              mkUpdates (up_showModal closed) (up_channel closed) (up_addModels closed) (up_removeModels closed) (up_preferredTab closed)
                (up_refs s) (up_loading s) (<[i := Refreshing o]> (up_flights s)) (up_shown s ++ [ToastOk t None; Refetch])
          end
      | URejected m e => settle_update s i o [ToastErr (failure_text o m e) None]
      end
  | Some (Refreshing o) =>
      match a with
      | UReplied _ => settle_update s i o []
      | URejected m e => settle_update s i o [ToastErr (failure_text o m e) None]
      end
  end.

(** ** The dialog of the updates

    Its state belongs to a component that the page mounts once: the initial selections are those of the models at that time. *)

Record UpdateDialog := mkUpdateDialog {
  ud_activeTab : tab; ud_searchAdd : str; ud_searchRemove : str; ud_selectedAdd : list str; ud_selectedRemove : list str;
  ud_partialConfirmOpen : bool }.

Definition mount_dialog (u : Updates) : UpdateDialog :=
  mkUpdateDialog (up_preferredTab u) [] [] (set_of (up_addModels u)) (set_of (up_removeModels u)) false.

Definition filtered_models {C : CaseMap} (models : list str) (search : str) : list str :=
  List.filter (fun m => str_includes (toLowerCase m) (toLowerCase search)) models.

Definition toggleModel (model : str) (set : list str) : list str := if set_has model set then set_remove model set else set_add set model.
Definition toggleAllVisible (models set : list str) : list str :=
  if forallb (fun m => set_has m set) models then foldl (fun s m => set_remove m s) set models else foldl set_add set models.

Record UpdatesPage := mkUpdatesPage { pg_updates : Updates; pg_dialog : UpdateDialog }.

(** The page with the hook and the dialog as it is first rendered. *)
Definition initial_updates_page : UpdatesPage := mkUpdatesPage initial_updates (mount_dialog initial_updates).

Definition with_dialog (p : UpdatesPage) (activeTab : tab) (searchAdd searchRemove : str) (selectedAdd selectedRemove : list str) (partial : bool) :=
  mkUpdatesPage (pg_updates p) (mkUpdateDialog activeTab searchAdd searchRemove selectedAdd selectedRemove partial).

Definition confirmed (p : UpdatesPage) : Updates :=
  applyUpdates (pg_updates p) (ud_selectedAdd (pg_dialog p)) (ud_selectedRemove (pg_dialog p)).
Definition nonempty {A} (l : list A) : bool := (0 <? length l)%nat.

Definition handleConfirm (p : UpdatesPage) : UpdatesPage :=
  let u := pg_updates p in
  let d := pg_dialog p in
  if nonempty (up_addModels u) && nonempty (up_removeModels u) && negb (eqb (nonempty (ud_selectedAdd d)) (nonempty (ud_selectedRemove d)))
  then with_dialog p (ud_activeTab d) (ud_searchAdd d) (ud_searchRemove d) (ud_selectedAdd d) (ud_selectedRemove d) true
  else mkUpdatesPage (confirmed p) d.

Definition confirm_partial (p : UpdatesPage) : UpdatesPage :=
  let d := pg_dialog p in
  mkUpdatesPage (confirmed p) (mkUpdateDialog (ud_activeTab d) (ud_searchAdd d) (ud_searchRemove d) (ud_selectedAdd d) (ud_selectedRemove d) false).

(** The button is disabled while an update is applied and when there is nothing to do. *)
Definition confirm_enabled (u : Updates) : bool :=
  negb (set_has OpApply (up_loading u) || (negb (nonempty (up_addModels u)) && negb (nonempty (up_removeModels u)))).

Inductive page_event :=
| EOpen (record : option Z) (add remove : list str) (t : tab) | EClose | EToggleAdd (m : str) | EToggleRemove (m : str)
| EAllAdd | EAllRemove | ESearchAdd (s : str) | ESearchRemove (s : str) | ETab (t : tab) | EConfirm | EPartialCancel | EPartialConfirm
| EApplyAll | EDetect (ch : option Z) | EDetectAll | EAnswer (engine : str) (i : nat) (a : update_outcome).

Definition updates_step {C : CaseMap} (p : UpdatesPage) (e : page_event) : UpdatesPage :=
  let u := pg_updates p in
  let d := pg_dialog p in
  let hook u := mkUpdatesPage u d in
  let dialog t sa sr add remove partial := with_dialog p t sa sr add remove partial in
  let select add remove := dialog (ud_activeTab d) (ud_searchAdd d) (ud_searchRemove d) add remove (ud_partialConfirmOpen d) in
  match e with
  | EOpen record add remove t => hook (openModal u record add remove t)
  | EClose => hook (closeModal u)
  | EToggleAdd m => if set_has m (filtered_models (up_addModels u) (ud_searchAdd d)) then select (toggleModel m (ud_selectedAdd d)) (ud_selectedRemove d) else p
  | EToggleRemove m => if set_has m (filtered_models (up_removeModels u) (ud_searchRemove d)) then select (ud_selectedAdd d) (toggleModel m (ud_selectedRemove d)) else p
  | EAllAdd => select (toggleAllVisible (filtered_models (up_addModels u) (ud_searchAdd d)) (ud_selectedAdd d)) (ud_selectedRemove d)
  | EAllRemove => select (ud_selectedAdd d) (toggleAllVisible (filtered_models (up_removeModels u) (ud_searchRemove d)) (ud_selectedRemove d))
  | ESearchAdd s => dialog (ud_activeTab d) s (ud_searchRemove d) (ud_selectedAdd d) (ud_selectedRemove d) (ud_partialConfirmOpen d)
  | ESearchRemove s => dialog (ud_activeTab d) (ud_searchAdd d) s (ud_selectedAdd d) (ud_selectedRemove d) (ud_partialConfirmOpen d)
  | ETab t => dialog t (ud_searchAdd d) (ud_searchRemove d) (ud_selectedAdd d) (ud_selectedRemove d) (ud_partialConfirmOpen d)
  | EConfirm => if up_showModal u && confirm_enabled u then handleConfirm p else p
  | EPartialCancel => dialog (ud_activeTab d) (ud_searchAdd d) (ud_searchRemove d) (ud_selectedAdd d) (ud_selectedRemove d) false
  | EPartialConfirm => if ud_partialConfirmOpen d then confirm_partial p else p
  | EApplyAll => hook (applyAllUpdates u)
  | EDetect ch => hook (detectChannelUpdates u ch)
  | EDetectAll => hook (detectAllUpdates u)
  | EAnswer engine i a => hook (update_answered engine u i a)
  end.
Definition run_page {C : CaseMap} (l : list page_event) : UpdatesPage := foldl updates_step initial_updates_page l.
