(* ===== verification/ChannelDialogProps.v ===== *)
(** * What the dialogs of the channel list send

    A user without the permission sends no request that deletes keys; the updates of models have one operation of each kind under
    way at a time and account for every model they were offered.  The selection of the update dialog outlives its channel. *)
From S2P Require Import Prelude Number Json JsonObject TableState ChannelForm ChannelList ChannelActions ChannelDialogs.

Local Open Scope Z_scope.

(** ** Keys *)

(** The [action] that a request for keys names. *)
Definition request_action (q : Http) : option str :=
  match (b ← http_body q; member b (js "action")) with Some (JStr s) => Some s | _ => None end.
Definition deletes_keys (q : Http) : Prop := request_action q = Some (js "delete_key") \/ request_action q = Some (js "delete_disabled_keys").

Record keys_inv (s : KeysDialog) : Prop := mkKeysInv {
  ki_sent : Forall (fun q => ~ deletes_keys q) (kd_sent s);
  ki_confirm : forall a i, kd_confirm s = Some (a, i) -> a <> ADelete /\ a <> ADeleteDisabled }.

Lemma status_request_keeps c p n st : ~ deletes_keys (getMultiKeyStatus c p n st).
Proof.
  assert (E : request_action (getMultiKeyStatus c p n st) = Some (js "get_key_status")) by (by destruct st).
  unfold deletes_keys. rewrite E. by intros [H|H].
Qed.

Lemma action_request_keeps c a i q : a <> ADelete -> a <> ADeleteDisabled -> action_request c (a, i) = Some q -> ~ deletes_keys q.
Proof.
  intros H1 H2 E. destruct a, i as [i|]; try done; injection E as <-; by intros [H|H].
Qed.

Lemma with_load_inv s p n f a : keys_inv s -> keys_inv (with_load s p n f a).
Proof.
  intros [Hs Hc]. split; [| done]. apply Forall_app. split; [done |]. constructor; [apply status_request_keeps | constructor].
Qed.

Lemma with_confirm_inv s c b l sent shown :
  Forall (fun q => ~ deletes_keys q) sent -> (forall a i, c = Some (a, i) -> a <> ADelete /\ a <> ADeleteDisabled) ->
  keys_inv (with_confirm s c b l sent shown).
Proof. by split. Qed.

#[local] Hint Resolve with_load_inv : core.

Lemma keys_step_inv s t : keys_inv s -> keys_step false s t -> keys_inv t.
Proof.
  intros H St. pose proof H as [Hs Hc].
  destruct St as [s c|s i a|s|s v|s p|s n|s k d Hk|s a|s|s|s i o]; unfold loadKeyStatus, handleStatusFilterChange, handlePageChange, onPageSizeChange; auto.
  - apply with_load_inv. by split.
  - unfold keys_answered. destruct (_ !! i); [| done]. destruct a; by split.
  - unfold row_action, setConfirmAction. destruct d; [done |]. destruct (key_status k =? 1); apply with_confirm_inv; naive_solver.
  - unfold toolbar_action, setConfirmAction. destruct a; try done; case_match; try done; apply with_confirm_inv; naive_solver.
  - by apply with_confirm_inv.
  - unfold performAction, setConfirmAction. destruct (kd_confirm s) as [[a i]|] eqn:E; [| done]. destruct (Hc a i eq_refl) as [H1 H2].
    rewrite !bool_decide_false by done. cbn [negb andb orb].
    destruct (action_request _ _) as [q|] eqn:Eq; [| by apply with_confirm_inv]. apply with_confirm_inv; [| intros ? ? [= <- <-]; done].
    apply Forall_app. split; [done |]. constructor; [by eapply action_request_keeps | constructor].
  - unfold action_answered. destruct (_ !! i) as [[a after]|]; [| done].
    destruct o as [r|m [e|]]; [destruct (r_success r) |..]; try apply with_load_inv; by apply with_confirm_inv.
Qed.

(** C16: whatever a user without the permission for sensitive changes does in the dialog for the keys of a channel, and in
    whatever order the answers of the server arrive, no request that deletes keys is sent. *)
Theorem keys_deleted_with_permission_only (channel : Z) (s : KeysDialog) (H : rtc (keys_step false) (initial_keys channel) s) :
  Forall (fun q => ~ deletes_keys q) (kd_sent s).
Proof.
  apply ki_sent. assert (Hi : keys_inv (initial_keys channel)) by (split; [constructor | done]).
  induction H as [|x y z Hxy _ IH]; [done |]. apply IH. by eapply keys_step_inv.
Qed.

Definition demo_page : KeyPage :=
  mkKeyPage (Some [mkKey 0 1 None None; mkKey 1 3 (Some 5) None]) (Some 2) (Some 1) (Some 10) (Some 1) (Some 1) (Some 0) (Some 1).
Definition demo_opened : KeysDialog := keys_answered (open_keys (initial_keys 7) 7) 0 (KeysLoaded demo_page).
Definition demo_refused : KeysDialog := performAction false (row_action false (mkKey 0 1 None None) false (toolbar_action false ADeleteDisabled (row_action false (mkKey 0 1 None None) true demo_opened))).

Lemma keys_deleted_with_permission_only_witness :
  length (kd_sent demo_refused) = 2%nat /\ Forall (fun q => ~ deletes_keys q) (kd_sent demo_refused).
Proof.
  split; [vm_compute; reflexivity |]. apply (keys_deleted_with_permission_only 7).
  eapply rtc_l; [apply (step_open _ _ 7) |]. eapply rtc_l; [apply (step_loaded _ _ 0 (KeysLoaded demo_page)) |].
  eapply rtc_l; [apply (step_row _ _ (mkKey 0 1 None None) true); left |]. eapply rtc_l; [apply (step_toolbar _ _ ADeleteDisabled) |].
  eapply rtc_l; [apply (step_row _ _ (mkKey 0 1 None None) false); left |]. eapply rtc_l; [apply step_confirm | apply rtc_refl].
Defined.

(** Loads are not ordered: the answer to an earlier filter, when it comes last, replaces the keys of the current one. *)
Lemma late_load_shown :
  let enabled := mkKeyPage (Some [mkKey 0 1 None None]) (Some 1) (Some 1) (Some 10) (Some 1) (Some 1) (Some 0) (Some 0) in
  let disabled := mkKeyPage (Some []) (Some 0) (Some 1) (Some 10) (Some 0) (Some 1) (Some 0) (Some 0) in
  let s := handleStatusFilterChange (handleStatusFilterChange (initial_keys 7) (js "1")) (js "2") in
  let t := keys_answered (keys_answered s 1 (KeysLoaded disabled)) 0 (KeysLoaded enabled) in
  kd_filter t = Some 2 /\ kd_loads t = [] /\ kd_keys t = [mkKey 0 1 None None].
Proof. vm_compute. done. Qed.

(** ** Updates of models *)

(** What [normalizeModelList] gives. *)
Definition normal (l : list str) : Prop := NoDup l /\ Forall (fun m => m <> [] /\ trim m = m) l.

Lemma normalize_normal l : normal (normalizeModelList l).
Proof.
  split; [apply NoDup_set_of |]. apply Forall_forall. intros m Hm. apply (proj1 (elem_of_set_of _ _)) in Hm.
  apply list_elem_of_In, filter_In in Hm as [Hm Ht%truthy_true]. apply list_elem_of_In, list_elem_of_fmap in Hm as (v & -> & _).
  split; [done | apply trim_idemp].
Qed.

Lemma normal_texts l : normal (normalize_texts l).
Proof. apply normalize_normal. Qed.

Lemma normal_nil : normal [].
Proof. by split; constructor. Qed.

Lemma normalize_id l : normal l -> normalize_texts l = l.
Proof.
  intros [Hn Hf]. unfold normalize_texts, normalizeModelList. rewrite map_map.
  assert (map (fun x => trim (if j_truthy (JStr x) then to_String (JStr x) else [])) l = l) as ->.
  { clear Hn. induction Hf as [|m l [Hm Ht] Hf IH]; [done |]. cbn [map]. rewrite IH. f_equal. cbn. by destruct m. }
  rewrite filter_truthy_id by (eapply Forall_impl; [exact Hf | naive_solver]). by apply set_of_id.
Qed.

#[local] Hint Resolve normal_texts normal_nil : core.

(** A request to apply updates splits the models that it names. *)
Definition body_ok (b : apply_body) : Prop :=
  normal (add_models b) /\ normal (remove_models b) /\ (forall m, m ∈ ignore_models b -> m ∉ add_models b) /\ NoDup (ignore_models b).

Definition ops (u : Updates) : list update_op := map flight_op (up_flights u).

Record updates_inv (u : Updates) : Prop := mkUpdatesInv {
  ui_once : NoDup (ops u);
  ui_refs : forall o, o ∈ up_refs u <-> o ∈ ops u;
  ui_loading : forall o, o ∈ up_loading u <-> o ∈ ops u /\ has_loading o = true;
  ui_modal : up_showModal u = true ->
    (exists id, up_channel u = Some id /\ id <> 0) /\ (up_addModels u <> [] \/ up_removeModels u <> []);
  ui_models : normal (up_addModels u) /\ normal (up_removeModels u);
  ui_bodies : forall b, Asking (PostApply b) ∈ up_flights u -> body_ok b }.

Lemma set_add_elem {A} `{EqDecision A} (l : list A) x y : y ∈ set_add l x <-> y ∈ l \/ y = x.
Proof. unfold set_add. destruct (set_has x l) eqn:E; [apply set_has_spec in E |]; set_solver. Qed.

Lemma set_remove_elem {A} `{EqDecision A} (l : list A) x y : y ∈ set_remove x l <-> y ∈ l /\ y <> x.
Proof.
  unfold set_remove. rewrite !list_elem_of_In, filter_In. destruct (decide (y = x)) as [->|]; [rewrite bool_decide_true by done | rewrite bool_decide_false by done]; naive_solver.
Qed.

Lemma closeModal_inv u : updates_inv u -> updates_inv (closeModal u).
Proof. intros [H1 H2 H3 H4 H5 H6]. by split. Qed.

Lemma send_update_inv u q : updates_inv u -> op_of q ∉ up_refs u -> (forall b, q = PostApply b -> body_ok b) -> updates_inv (send_update u q).
Proof.
  intros [H1 H2 H3 H4 H5 H6] Hn Hb. assert (Ho : ops (send_update u q) = ops u ++ [op_of q]) by (unfold ops; cbn; by rewrite map_app).
  split; [..| done | done |]; rewrite ?Ho.
  - apply NoDup_app. rewrite H2 in Hn. split; [done |]. split; [set_solver | apply NoDup_singleton].
  - intros o. cbn. rewrite set_add_elem, H2. set_solver.
  - intros o. cbn [send_update up_loading]. destruct (has_loading (op_of q)) eqn:El; rewrite ?set_add_elem, H3, elem_of_app, list_elem_of_singleton.
    + split; [intros [[? ?]| ->]; auto | intros [[?| ->] ?]; auto].
    + split; [intros [? ?]; auto | intros [[?| ->] ?]; [by split | congruence]].
  - intros b Hi. cbn in Hi. apply elem_of_app in Hi as [Hi|Hi%list_elem_of_singleton]; [by apply H6 |].
    injection Hi as Hi. by apply Hb.
Qed.

(** Taking the [i]-th thing under way out. *)
Lemma without_ops u i f : NoDup (ops u) -> up_flights u !! i = Some f ->
  NoDup (map flight_op (without_flight u i)) /\ (forall o, o ∈ map flight_op (without_flight u i) <-> o ∈ ops u /\ o <> flight_op f) /\
  (forall x, x ∈ without_flight u i -> x ∈ up_flights u).
Proof.
  intros Hn Hi. unfold ops in *. apply take_drop_middle in Hi. unfold without_flight. revert Hn Hi.
  generalize (take i (up_flights u)) (drop (S i) (up_flights u)). intros a b Hn Hi. rewrite <- Hi in Hn |- *.
  rewrite map_app in Hn. cbn [map] in Hn. apply NoDup_app in Hn as (Ha & Hab & Hb). apply NoDup_cons in Hb as [Hf Hb].
  rewrite !map_app. split; [| split].
  - apply NoDup_app. split; [done |]. split; [| done]. intros x Hx Hy. apply (Hab x Hx). by right.
  - intros o. rewrite !elem_of_app. cbn [map]. rewrite elem_of_cons. split.
    + intros [H|H]; split; [by left | intros ->; by apply (Hab _ H); left | by right; right | by intros ->].
    + intros [[H|[H|H]] Hne]; [by left | done | by right].
  - intros x. rewrite !elem_of_app, elem_of_cons. naive_solver.
Qed.

Lemma settle_update_inv u i f l : updates_inv u -> up_flights u !! i = Some f -> updates_inv (settle_update u i (flight_op f) l).
Proof.
  intros [H1 H2 H3 H4 H5 H6] Hi. destruct (without_ops u i f H1 Hi) as (Hn & Ho & Hx). split; unfold ops; cbn; [done |..| done | done |].
  - intros o. rewrite set_remove_elem, Ho, H2. done.
  - intros o. rewrite set_remove_elem, Ho, H3. naive_solver.
  - intros b Hb. by apply H6, Hx.
Qed.

Lemma refresh_ops u i q : up_flights u !! i = Some (Asking q) -> map flight_op (<[i := Refreshing (op_of q)]> (up_flights u)) = ops u.
Proof.
  intros H. change (list_fmap _ _ flight_op) with (map flight_op). unfold ops. apply list_eq. intros j. rewrite !list_lookup_fmap.
  destruct (decide (j = i)) as [->|Hne].
  - rewrite list_lookup_insert_eq by (by eapply lookup_lt_Some). by rewrite H.
  - by rewrite list_lookup_insert_ne.
Qed.

Lemma answered_inv engine u i a : updates_inv u -> updates_inv (update_answered engine u i a).
Proof.
  intros H. unfold update_answered. destruct (up_flights u !! i) as [[q|o]|] eqn:Hi; [| | done].
  2: { destruct a; by apply (settle_update_inv u i (Refreshing o)). }
  destruct a as [r|m e]; [| by apply (settle_update_inv u i (Asking q))].
  destruct (ur_success r); cbn [negb]; [| by apply (settle_update_inv u i (Asking q))].
  destruct (success_text q r) as [t|]; [| by apply (settle_update_inv u i (Asking q))].
  pose proof (refresh_ops u i q Hi) as Ho.
  assert (Hc : updates_inv (match q with PostApply _ => closeModal u | _ => u end)) by (destruct q; auto using closeModal_inv).
  destruct H as [H1 H2 H3 _ _ H6]. destruct Hc as [_ _ _ H4 H5 _].
  split; [unfold ops; cbn; by rewrite Ho | unfold ops; cbn; by rewrite Ho | unfold ops; cbn; by rewrite Ho | exact H4 | exact H5 |].
  intros b Hb. cbn in Hb. apply H6. apply list_elem_of_lookup in Hb as (j & Hj). destruct (decide (j = i)) as [->|Hne].
  - rewrite list_lookup_insert_eq in Hj by (by eapply lookup_lt_Some). done.
  - rewrite list_lookup_insert_ne in Hj by done. by eapply list_elem_of_lookup_2.
Qed.

Lemma openModal_inv u record add remove t : updates_inv u -> updates_inv (openModal u record add remove t).
Proof.
  intros H. pose proof H as [H1 H2 H3 H4 H5 H6]. unfold openModal. destruct (no_id record) eqn:En; cbn [orb]; [by split |].
  destruct (_ && _) eqn:El; [by split |]. split; try done; cbn.
  - intros _. destruct record as [id|]; [| done]. cbn in En. split; [exists id; split; [done | lia] |].
    destruct (normalize_texts add), (normalize_texts remove); cbn in El; naive_solver.
  - split; apply normal_texts.
Qed.

Lemma apply_body_ok u id add remove : normal (up_addModels u) -> body_ok (apply_request u id add remove).
Proof.
  intros [Hn _]. split; [apply normal_texts |]. split; [apply normal_texts |]. split.
  - intros m Hm%list_elem_of_In%filter_In Ha. destruct Hm as [_ Hm]. apply set_has_spec in Ha. cbn in Ha. by rewrite Ha in Hm.
  - cbn. by apply NoDup_ListNoDup, List.NoDup_filter, NoDup_ListNoDup.
Qed.

Lemma not_has {A} `{EqDecision A} (x : A) l : set_has x l = false -> x ∉ l.
Proof. intros H Hx. apply set_has_spec in Hx. congruence. Qed.

Lemma apply_inv u add remove : updates_inv u -> updates_inv (applyUpdates u add remove).
Proof.
  intros H. unfold applyUpdates. destruct (set_has OpApply (up_refs u)) eqn:E; [done |].
  destruct (no_id (up_channel u)); [by apply closeModal_inv |].
  apply send_update_inv; [done | by apply not_has | intros b [= <-]; apply apply_body_ok, H].
Qed.

Section Pages.
Context {C : CaseMap}.

Lemma updates_step_inv p e : updates_inv (pg_updates p) -> updates_inv (pg_updates (updates_step p e)).
Proof.
  intros H. destruct e; cbn [updates_step pg_updates with_dialog]; try done; try (case_match; done).
  - by apply openModal_inv.
  - by apply closeModal_inv.
  - destruct (_ && _); [| done]. unfold handleConfirm. destruct (_ && _); [done | by apply apply_inv].
  - destruct (ud_partialConfirmOpen _); [by apply apply_inv | done].
  - unfold applyAllUpdates. destruct (set_has _ _) eqn:E; [done |]. apply send_update_inv; [done | by apply not_has | done].
  - unfold detectChannelUpdates. destruct (set_has _ _) eqn:E; [done |]. destruct (no_id ch); [done |].
    apply send_update_inv; [done | by apply not_has | done].
  - unfold detectAllUpdates. destruct (set_has _ _) eqn:E; [done |]. apply send_update_inv; [done | by apply not_has | done].
  - by apply answered_inv.
Qed.

Lemma run_page_inv l : updates_inv (pg_updates (run_page l)).
Proof.
  unfold run_page. assert (H : updates_inv (pg_updates initial_updates_page)).
  { split; cbn; try done; try (split; apply normal_nil); try constructor; try (intros; set_solver). }
  revert H. generalize initial_updates_page. induction l as [|e l IH]; intros p H; [done |]. by apply IH, updates_step_inv.
Qed.

(** Selections consist of models that some modal offered. *)
Lemma normal_add l m : normal l -> m <> [] /\ trim m = m -> normal (set_add l m).
Proof.
  intros [Hn Hf] Hm. unfold set_add. destruct (set_has m l) eqn:E; [done |]. apply not_has in E. split.
  - apply NoDup_app. split; [done |]. split; [set_solver | apply NoDup_singleton].
  - apply Forall_app. split; [done |]. by constructor.
Qed.

Lemma normal_remove l m : normal l -> normal (set_remove m l).
Proof.
  intros [Hn Hf]. split; [by apply NoDup_ListNoDup, List.NoDup_filter, NoDup_ListNoDup |].
  apply Forall_forall. intros x Hx. apply (proj1 (set_remove_elem _ _ _)) in Hx as [Hx _]. rewrite Forall_forall in Hf. by apply Hf.
Qed.

Lemma filtered_normal models search : normal models -> Forall (fun m => m <> [] /\ trim m = m) (filtered_models models search).
Proof.
  intros [_ Hf]. apply Forall_forall. intros x [Hx _]%list_elem_of_In%filter_In. rewrite Forall_forall in Hf. by apply Hf, list_elem_of_In.
Qed.

Lemma toggle_normal m models search set : normal models -> m ∈ filtered_models models search -> normal set -> normal (toggleModel m set).
Proof.
  intros Hm Hin Hs. unfold toggleModel. destruct (set_has m set); [by apply normal_remove | apply normal_add; [done |]].
  pose proof (filtered_normal models search Hm) as Hf. rewrite Forall_forall in Hf. by apply Hf.
Qed.

Lemma toggle_all_normal models search set : normal models -> normal set -> normal (toggleAllVisible (filtered_models models search) set).
Proof.
  intros Hm Hs. pose proof (filtered_normal models search Hm) as Hf. revert Hf. unfold toggleAllVisible.
  generalize (filtered_models models search). intros l Hf. destruct (forallb _ l).
  - clear Hf. revert set Hs. induction l as [|m l IH]; intros set Hs; [done |]. cbn [foldl]. apply IH. by apply normal_remove.
  - revert set Hs. induction Hf as [|m l Hm' Hf IH]; intros set Hs; [done |]. cbn [foldl]. apply IH. by apply normal_add.
Qed.

Definition selection_ok (p : UpdatesPage) : Prop := normal (ud_selectedAdd (pg_dialog p)) /\ normal (ud_selectedRemove (pg_dialog p)).

Lemma page_step_selection p e : updates_inv (pg_updates p) -> selection_ok p -> selection_ok (updates_step p e).
Proof.
  intros H [Ha Hr]. pose proof (ui_models _ H) as [Hma Hmr].
  destruct e; cbn [updates_step]; try (by split).
  - destruct (set_has m _) eqn:E; [| by split]. apply set_has_spec in E. split; [exact (toggle_normal _ _ _ _ Hma E Ha) | done].
  - destruct (set_has m _) eqn:E; [| by split]. apply set_has_spec in E. split; [done | exact (toggle_normal _ _ _ _ Hmr E Hr)].
  - split; [by apply toggle_all_normal | done].
  - split; [done | by apply toggle_all_normal].
  - destruct (_ && _); [| by split]. unfold handleConfirm. destruct (_ && _); by split.
  - destruct (ud_partialConfirmOpen _); by split.
Qed.

Lemma run_page_selection l : selection_ok (run_page l).
Proof.
  unfold run_page. assert (H : updates_inv (pg_updates initial_updates_page)) by apply (run_page_inv []).
  assert (Hs : selection_ok initial_updates_page) by (split; apply normal_nil).
  revert H Hs. generalize initial_updates_page. induction l as [|e l IH]; intros p H Hs; [done |].
  apply IH; [by apply updates_step_inv | by apply page_step_selection].
Qed.

(** What a confirmation sends for the channel of the modal. *)
Definition sent_for (p : UpdatesPage) : apply_body :=
  apply_request (pg_updates p) (default 0 (up_channel (pg_updates p))) (ud_selectedAdd (pg_dialog p)) (ud_selectedRemove (pg_dialog p)).

Lemma offered_split u id add remove m : m ∈ up_addModels u -> normal add ->
  let b := apply_request u id add remove in
  (m ∈ add_models b <-> m ∈ add) /\ (m ∈ ignore_models b <-> m ∉ add).
Proof.
  intros Hm Hn. cbn. rewrite (normalize_id _ Hn). split; [done |]. rewrite list_elem_of_In, filter_In, <- list_elem_of_In.
  destruct (set_has m add) eqn:E; [apply set_has_spec in E | apply not_has in E]; naive_solver.
Qed.

(** whatever happens on the page, in whatever order the answers arrive: at most one operation of each kind is under way and
    the flags that disable its button say whether it is; an open modal has a channel and models to offer, without repetitions;
    a request that applies updates never both adds and ignores a model. *)
Theorem update_operations_exclusive (l : list page_event) : updates_inv (pg_updates (run_page l)).
Proof. apply run_page_inv. Qed.

(** confirming the modal - when nothing is being applied and no second confirmation is asked for - sends one request, for
    the channel of the modal; each model that the modal offers is added when it is selected and ignored otherwise. *)
Theorem confirmation_accounts_for_offers (l : list page_event) :
  let p := run_page l in
  let u := pg_updates p in
  up_showModal u = true -> OpApply ∉ ops u ->
  up_flights (confirmed p) = up_flights u ++ [Asking (PostApply (sent_for p))] /\
  up_channel u = Some (ap_id (sent_for p)) /\
  forall m, m ∈ up_addModels u ->
    (m ∈ add_models (sent_for p) <-> m ∈ ud_selectedAdd (pg_dialog p)) /\ (m ∈ ignore_models (sent_for p) <-> m ∉ ud_selectedAdd (pg_dialog p)).
Proof.
  cbv zeta. set (p := run_page l). intros Hm Ho. pose proof (run_page_inv l) as H. fold p in H. destruct (run_page_selection l) as [Hn _].
  destruct (ui_modal _ H Hm) as [(id & Hid & Hz) _]. split; [| split].
  - unfold confirmed, applyUpdates, sent_for. destruct (set_has OpApply (up_refs (pg_updates p))) eqn:E.
    { apply set_has_spec in E. by apply (ui_refs _ H) in E. }
    rewrite Hid. cbn [no_id default]. by destruct (Z.eqb_spec id 0).
  - unfold sent_for. by rewrite Hid.
  - intros m Hin. by apply offered_split.
Qed.

(** The initial selection is every offered model, but it is taken when the page is built, before anything is offered: confirming
    a modal as it opens adds nothing and ignores all that it offers. *)
Lemma first_confirmation_ignores_all :
  up_flights (pg_updates (run_page [EOpen (Some 7) [js "a"; js "b"] [] TabAdd; EConfirm])) =
    [Asking (PostApply (mkApply 7 [] [js "a"; js "b"] []))].
Proof. vm_compute. reflexivity. Qed.
End Pages.

Lemma confirmation_accounts_for_offers_witness :
  let l := [EOpen (Some 7) [js "a"; js "b"] [] TabAdd; EToggleAdd (js "b")] in
  let p := run_page (C := ascii_case) l in
  add_models (sent_for p) = [js "b"] /\ ignore_models (sent_for p) = [js "a"] /\
  up_flights (confirmed p) = up_flights (pg_updates p) ++ [Asking (PostApply (sent_for p))].
Proof.
  cbv zeta. split; [vm_compute; reflexivity |]. split; [vm_compute; reflexivity |].
  apply (confirmation_accounts_for_offers (C := ascii_case)); [vm_compute; reflexivity | vm_compute; by intros ?%not_elem_of_nil].
Defined.

(** The selection made for one channel stays when the modal opens for another: its models are added to a channel that never
    offered them. *)
Lemma selection_outlives_channel :
  let l := [EOpen (Some 7) [js "a"] [] TabAdd; EToggleAdd (js "a"); EClose; EOpen (Some 8) [js "b"] [] TabAdd; EConfirm] in
  up_flights (pg_updates (run_page (C := ascii_case) l)) = [Asking (PostApply (mkApply 8 [js "a"] [js "b"] []))].
Proof. vm_compute. reflexivity. Qed.

(** The answer to a request closes the modal that is open when it arrives, also when it is that of another channel. *)
Lemma late_answer_closes_modal :
  let l := [EOpen (Some 7) [js "a"] [] TabAdd; EConfirm; EClose; EOpen (Some 8) [js "b"] [] TabAdd] in
  let r := UReplied (mkUpdateReply true None None) in
  up_channel (pg_updates (run_page (C := ascii_case) l)) = Some 8 /\
  up_showModal (pg_updates (run_page (C := ascii_case) (l ++ [EAnswer [] 0 r]))) = false.
Proof. split; vm_compute; reflexivity. Qed.
