(* ===== verification/ToolPrices.v ===== *)
(** * Tool prices

    The editor of the prices of tools (features/system-settings/models/tool-price-settings.tsx): rows and a JSON text that
    follow one another, and the option they are saved as. *)
From S2P Require Import Prelude Number Json JsonPretty JsonObject.

Local Open Scope Z_scope.

Definition prices := list (str * json).

Definition DEFAULT_PRICES : prices :=
  map (fun e : String.string * String.string => (js (fst e), JNum (lit (snd e))))
    [("web_search", "10"); ("web_search_preview", "10"); ("web_search_preview:gpt-4o*", "25"); ("web_search_preview:gpt-4.1*", "25");
     ("web_search_preview:gpt-4o-mini*", "25"); ("web_search_preview:gpt-4.1-mini*", "25"); ("file_search", "2.5"); ("google_search", "14")]%string.

Record ToolPriceRow := mkPriceRow { tr_id : Z; tr_key : str; tr_price : num }.

(** [Number(row.price) || 0]. *)
Definition price_of (n : num) : num := n_or_zero n.

Definition rowsToObject (rows : list ToolPriceRow) : prices :=
  foldl (fun l row => let k := trim (tr_key row) in if truthy k then obj_set k (JNum (price_of (tr_price row))) l else l) [] rows.

Definition objectToRows (p : prices) : list ToolPriceRow :=
  imap (fun index e => mkPriceRow (Z.of_nat index + 1) (fst e) (price_of (to_Number (snd e)))) p.

Definition parseInitialPrices (rawValue : option str) : prices :=
  match rawValue with
  | Some raw =>
      if truthy raw then
        match JSON_parse raw with
        | Some (JObj l) => if (0 <? length l)%nat then l else DEFAULT_PRICES
        | _ => DEFAULT_PRICES
        end
      else DEFAULT_PRICES
  | None => DEFAULT_PRICES
  end.

Record ToolPrices := mkTools { tp_json : bool; tp_rows : list ToolPriceRow; tp_jsonText : str; tp_jsonError : str; tp_nextRowId : Z }.

Definition show_prices (s : ToolPrices) (p : prices) : ToolPrices :=
  let rows := objectToRows p in
  mkTools (tp_json s) rows (JSON_pretty (JObj p)) [] (Z.of_nat (length rows) + 1).

(** The effect on the value of the option. *)
Definition load_prices (s : ToolPrices) (defaultValue : option str) : ToolPrices := show_prices s (parseInitialPrices defaultValue).

Definition syncFromRows (s : ToolPrices) (rows : list ToolPriceRow) (nextRowId : Z) : ToolPrices :=
  mkTools (tp_json s) rows (JSON_pretty (JObj (rowsToObject rows))) [] nextRowId.

(** [engine] is the message of the parser for this text. *)
Definition handleToolJsonChange (engine : str) (s : ToolPrices) (text : str) : ToolPrices :=
  match JSON_parse text with
  | Some (JObj l) =>
      let nextRows := objectToRows l in mkTools (tp_json s) nextRows text [] (Z.of_nat (length nextRows) + 1)
  | Some _ => mkTools (tp_json s) (tp_rows s) text (js "JSON must be an object") (tp_nextRowId s)
  | None => mkTools (tp_json s) (tp_rows s) text engine (tp_nextRowId s)
  end.

Definition updateToolRow (s : ToolPrices) (id : Z) (change : ToolPriceRow -> ToolPriceRow) : ToolPrices :=
  syncFromRows s (map (fun r => if tr_id r =? id then change r else r) (tp_rows s)) (tp_nextRowId s).
Definition set_key (value : str) (r : ToolPriceRow) : ToolPriceRow := mkPriceRow (tr_id r) value (tr_price r).
(** [Number(e.target.value) || 0]. *)
Definition set_price (value : str) (r : ToolPriceRow) : ToolPriceRow := mkPriceRow (tr_id r) (tr_key r) (price_of (num_of_str value)).

Definition addToolRow (s : ToolPrices) : ToolPrices :=
  syncFromRows s (tp_rows s ++ [mkPriceRow (tp_nextRowId s) [] n_zero]) (tp_nextRowId s + 1).
Definition removeToolRow (s : ToolPrices) (id : Z) : ToolPrices :=
  syncFromRows s (List.filter (fun r => negb (tr_id r =? id)) (tp_rows s)) (tp_nextRowId s).
Definition resetToDefault (s : ToolPrices) : ToolPrices := show_prices s DEFAULT_PRICES.
Definition toggleEditMode (s : ToolPrices) : ToolPrices :=
  mkTools (negb (tp_json s)) (tp_rows s) (tp_jsonText s) (tp_jsonError s) (tp_nextRowId s).

(** The text that is stored; [None]: the error message. *)
Definition handleToolSave (s : ToolPrices) : option str :=
  if tp_json s && truthy (tp_jsonError s) then None else Some (JSON_stringify (JObj (rowsToObject (tp_rows s)))).

Definition initial_tools : ToolPrices := mkTools false [] [] [] 1.

Inductive tools_event := TLoad (value : option str) | TJson (engine text : str) | TKey (id : Z) (value : str) | TPrice (id : Z) (value : str)
  | TAdd | TRemove (id : Z) | TReset | TToggle.
Definition tools_step (s : ToolPrices) (e : tools_event) : ToolPrices :=
  match e with
  | TLoad v => load_prices s v
  | TJson engine text => handleToolJsonChange engine s text
  | TKey id v => updateToolRow s id (set_key v)
  | TPrice id v => updateToolRow s id (set_price v)
  | TAdd => addToolRow s
  | TRemove id => removeToolRow s id
  | TReset => resetToDefault s
  | TToggle => toggleEditMode s
  end.
Definition run_tools (l : list tools_event) : ToolPrices := foldl tools_step initial_tools l.

(** ** Rows and objects *)

Definition named_rows (rows : list ToolPriceRow) : list (str * json) :=
  omap (fun r => let k := trim (tr_key r) in if truthy k then Some (k, JNum (price_of (tr_price r))) else None) rows.

Lemma rowsToObject_named rows l : foldl (fun l row => let k := trim (tr_key row) in if truthy k then obj_set k (JNum (price_of (tr_price row))) l else l) l rows =
  foldl (fun l e => obj_set (fst e) (snd e) l) l (named_rows rows).
Proof.
  revert l. induction rows as [|r rows IH]; intros l; [done |]. cbn [foldl named_rows omap list_omap]. cbv zeta.
  destruct (truthy (trim (tr_key r))); cbn; apply IH.
Qed.

Lemma rowsToObject_wf rows : obj_wf (rowsToObject rows).
Proof.
  unfold rowsToObject. rewrite rowsToObject_named. assert (H : obj_wf (V := json) []) by (split; [constructor | done]).
  revert H. generalize (@nil (str * json)). induction (named_rows rows) as [|e l IH]; intros b H; [done |]. by apply IH, obj_set_wf.
Qed.

(** The last row of a name decides its price. *)
Lemma rowsToObject_get rows k : map_get k (rowsToObject rows) = map_get k (reverse (named_rows rows)).
Proof.
  unfold rowsToObject. rewrite rowsToObject_named. assert (H : obj_wf (V := json) []) by (split; [constructor | done]).
  assert (G : forall l b, obj_wf (V := json) b ->
    map_get k (foldl (fun l e => obj_set (fst e) (snd e) l) b l) = match map_get k (reverse l) with Some v => Some v | None => map_get k b end).
  { induction l as [|[x v] l IH]; intros b Hb; [done |]. cbn [foldl]. rewrite IH by (by apply obj_set_wf). rewrite reverse_cons, map_get_app.
    destruct (map_get k (reverse l)); [done |]. cbn [fst snd map_get]. rewrite obj_get_set by done.
    destruct (decide (k = x)) as [->|Hne]; [by rewrite bool_decide_true | by rewrite bool_decide_false]. }
  rewrite (G _ _ H). by destruct (map_get k (reverse _)).
Qed.

Lemma price_idem n : price_of (price_of n) = price_of n.
Proof. unfold price_of, n_or_zero. destruct (n_truthy n) eqn:E; [by rewrite E | done]. Qed.

(** Prices as the editor writes them. *)
Definition price_value (v : json) : Prop := exists n, v = JNum (price_of n).

Lemma objectToRows_named p : Forall (fun e => trim (fst e) = fst e /\ fst e <> [] /\ price_value (snd e)) p -> named_rows (objectToRows p) = p.
Proof.
  assert (G : forall l (f : nat -> Z), Forall (fun e => trim (fst e) = fst e /\ fst e <> [] /\ price_value (snd e)) l ->
    named_rows (imap (fun index e => mkPriceRow (f index) (fst e) (price_of (to_Number (snd e)))) l) = l).
  { induction l as [|[k v] l IH]; intros f H; [done |]. apply Forall_cons in H as [(Ht & Hk & n & Hv) H]. cbn [fst snd] in *. subst v.
    rewrite imap_cons. cbn [named_rows omap list_omap tr_key tr_price fst snd]. cbv zeta. rewrite Ht. apply truthy_true in Hk as ->.
    cbn [to_Number]. rewrite price_idem. f_equal; [by rewrite price_idem |]. by apply (IH (fun i => f (S i))). }
  apply (G p (fun i => Z.of_nat i + 1)).
Qed.

Lemma rowsToObject_entry rows k v : (k, v) ∈ rowsToObject rows -> trim k = k /\ k <> [] /\ exists r, r ∈ rows /\ v = JNum (price_of (tr_price r)).
Proof.
  intros H. apply elem_map_get in H; [| apply rowsToObject_wf]. rewrite rowsToObject_get in H. apply map_get_elem in H. rewrite elem_of_reverse in H.
  unfold named_rows in H. apply list_elem_of_omap in H as (r & Hr & H). cbv zeta in H. destruct (truthy (trim (tr_key r))) eqn:E; [| done].
  injection H as <- <-. split; [apply trim_idemp |]. split; [by apply truthy_true | by exists r].
Qed.

Lemma objectToRows_get p k : NoDup p.*1 -> Forall (fun e => trim (fst e) = fst e /\ fst e <> [] /\ price_value (snd e)) p ->
  map_get k (rowsToObject (objectToRows p)) = map_get k p.
Proof.
  intros Hn Hp. rewrite rowsToObject_get, objectToRows_named by done. apply map_get_perm; [| apply reverse_Permutation].
  by rewrite fmap_reverse, reverse_Permutation.
Qed.

(** ** Theorems *)

(** Row numbers are fresh: an edit or a removal concerns one row. *)
Definition numbered (s : ToolPrices) : Prop :=
  NoDup (map tr_id (tp_rows s)) /\ Forall (fun r => tr_id r < tp_nextRowId s) (tp_rows s).

Lemma objectToRows_numbered p : NoDup (map tr_id (objectToRows p)) /\ Forall (fun r => tr_id r < Z.of_nat (length (objectToRows p)) + 1) (objectToRows p).
Proof.
  assert (E : map tr_id (objectToRows p) = imap (fun i _ => Z.of_nat i + 1) p).
  { unfold objectToRows. exact (fmap_imap _ tr_id p). }
  assert (length (objectToRows p) = length p) as -> by apply length_imap. split.
  - rewrite E. apply NoDup_alt. intros i j x Hi Hj. rewrite list_lookup_imap in Hi, Hj.
    apply fmap_Some in Hi as (a & _ & ->), Hj as (b & _ & Hj). lia.
  - apply Forall_forall. intros r Hr. unfold objectToRows in Hr. apply list_elem_of_lookup in Hr as (i & Hi). rewrite list_lookup_imap in Hi.
    apply fmap_Some in Hi as (a & Ei & ->). apply lookup_lt_Some in Ei. cbn. lia.
Qed.

Lemma tools_step_numbered s e : numbered s -> numbered (tools_step s e).
Proof.
  intros [Hn Hf]. destruct e as [v|engine text|id v|id v| |id| |]; cbn [tools_step].
  - apply objectToRows_numbered.
  - unfold handleToolJsonChange. destruct (JSON_parse text) as [[| | | | |l]|]; try done. apply objectToRows_numbered.
  - split; cbn; [rewrite map_map; erewrite map_ext; [exact Hn |]; intros r; by destruct (tr_id r =? id) |].
    apply Forall_map. eapply Forall_impl; [exact Hf |]. intros r Hr. by destruct (tr_id r =? id).
  - split; cbn; [rewrite map_map; erewrite map_ext; [exact Hn |]; intros r; by destruct (tr_id r =? id) |].
    apply Forall_map. eapply Forall_impl; [exact Hf |]. intros r Hr. by destruct (tr_id r =? id).
  - split; cbn.
    + rewrite map_app. apply NoDup_app. split; [done |]. split; [| apply NoDup_singleton].
      intros x (r & -> & Hr)%list_elem_of_fmap Hy%list_elem_of_singleton. rewrite Forall_forall in Hf. apply Hf in Hr. cbn in Hy. lia.
    + apply Forall_app. split; [eapply Forall_impl; [exact Hf | cbn; lia] | by repeat constructor; cbn; lia].
  - split; cbn.
    + clear Hf. induction (tp_rows s) as [|r rows IH]; [done |]. cbn in *. apply NoDup_cons in Hn as [Hr Hn].
      destruct (tr_id r =? id); cbn; [by apply IH |]. apply NoDup_cons. split; [| by apply IH].
      intros (x & Hx & [Hi _]%list_elem_of_In%filter_In)%list_elem_of_fmap. apply Hr. rewrite Hx. by apply elem_of_map, list_elem_of_In.
    + apply Forall_forall. intros r [Hr _]%list_elem_of_In%filter_In. rewrite Forall_forall in Hf. by apply Hf, list_elem_of_In.
  - apply objectToRows_numbered.
  - done.
Qed.

Lemma tools_numbered l : numbered (run_tools l).
Proof.
  unfold run_tools. assert (H : numbered initial_tools) by (by split; constructor). revert H. generalize initial_tools.
  induction l as [|e l IH]; intros s H; [done |]. by apply IH, tools_step_numbered.
Qed.

Lemma rowsToObject_ok rows : Forall (fun r => num_ok (price_of (tr_price r)) = true) rows -> json_ok (JObj (rowsToObject rows)).
Proof.
  intros H. apply json_ok_wf. split; [| apply rowsToObject_wf]. apply Forall_forall. intros [k v] (_ & _ & r & Hr & ->)%rowsToObject_entry.
  rewrite Forall_forall in H. by apply H.
Qed.

(** in every state of the editor each row has a number of its own, which no row that is added later gets; and prices that
    were saved come back when the page is opened again: the tools of the new rows and their prices are those that were saved -
    the price of the last row where several had the same name - provided that at least one tool has a name. *)
Theorem saved_tool_prices_come_back (l : list tools_event) (text : str) (s' : ToolPrices)
  (Hsave : handleToolSave (run_tools l) = Some text)
  (Hnum : Forall (fun r => num_ok (price_of (tr_price r)) = true) (tp_rows (run_tools l)))
  (Hsome : exists r, r ∈ tp_rows (run_tools l) /\ trim (tr_key r) <> []) :
  numbered (run_tools l) /\
  forall k, map_get k (rowsToObject (tp_rows (load_prices s' (Some text)))) = map_get k (rowsToObject (tp_rows (run_tools l))).
Proof.
  split; [apply tools_numbered |]. unfold handleToolSave in Hsave. destruct (_ && _); [done |].
  apply (inj Some) in Hsave. subst text.
  set (rows := tp_rows (run_tools l)) in *. set (p := rowsToObject rows). intros k.
  assert (Hp : parseInitialPrices (Some (JSON_stringify (JObj p))) = p).
  { unfold parseInitialPrices. destruct (object_text_trim p) as [-> _]. rewrite (json_roundtrip (JObj p) (rowsToObject_ok rows Hnum)).
    destruct p as [|e p'] eqn:E; [| done]. exfalso. destruct Hsome as (r & Hr & Hk).
    assert (Hin : trim (tr_key r) ∈ (named_rows rows).*1).
    { apply list_elem_of_fmap. exists (trim (tr_key r), JNum (price_of (tr_price r))). split; [done |]. apply list_elem_of_omap. exists r.
      split; [done |]. cbv zeta. by apply truthy_true in Hk as ->. }
    destruct (map_get (trim (tr_key r)) (reverse (named_rows rows))) eqn:Eg.
    - rewrite <- rowsToObject_get in Eg. fold p in Eg. by rewrite E in Eg.
    - apply map_get_None in Eg. apply Eg. by rewrite fmap_reverse, elem_of_reverse. }
  unfold load_prices. rewrite Hp. cbn [show_prices tp_rows]. apply objectToRows_get; [apply rowsToObject_wf |].
  apply Forall_forall. intros [x v] (Ht & Hx & r & _ & ->)%rowsToObject_entry. split; [done |]. split; [done | by eexists].
Qed.

Lemma saved_tool_prices_come_back_witness :
  let l := [TLoad None; TAdd; TKey 9 (js " code_interpreter "); TPrice 9 (js "3.5"); TRemove 1] in
  let text := JSON_stringify (JObj (rowsToObject (tp_rows (run_tools l)))) in
  map_get (js "code_interpreter") (rowsToObject (tp_rows (load_prices initial_tools (Some text)))) = Some (JNum (lit "3.5")) /\
  numbered (run_tools l).
Proof.
  cbv zeta. set (l := [TLoad None; TAdd; TKey 9 (js " code_interpreter "); TPrice 9 (js "3.5"); TRemove 1]).
  destruct (saved_tool_prices_come_back l (JSON_stringify (JObj (rowsToObject (tp_rows (run_tools l))))) initial_tools) as [Hn Hk].
  - vm_compute. reflexivity.
  - apply List.Forall_forall, (proj1 (List.forallb_forall (fun r => num_ok (price_of (tr_price r))) _)). vm_compute. reflexivity.
  - exists (mkPriceRow 9 (js " code_interpreter ") (lit "3.5")). split; [| done].
    apply (list_elem_of_lookup_2 _ 7). vm_compute. reflexivity.
  - split; [rewrite Hk; vm_compute; reflexivity | exact Hn].
Defined.

(** Saving an empty list stores an empty object, and the page then shows the default prices again. *)
Lemma empty_prices_become_defaults (s s' : ToolPrices) : tp_json s = false -> tp_rows s = [] ->
  exists text, handleToolSave s = Some text /\ rowsToObject (tp_rows s) = [] /\ rowsToObject (tp_rows (load_prices s' (Some text))) = DEFAULT_PRICES.
Proof.
  intros Hm Hr. exists (js "{}"). unfold handleToolSave. rewrite Hm, Hr. split; [done |]. split; [done |]. vm_compute. reflexivity.
Qed.
