(* ===== verification/DashboardCharts.v ===== *)
(** * Charts of the dashboard

    The figures of the model and user charts (features/dashboard/lib/charts.ts), the totals (stats.ts), the chart preferences and
    the parameters of the queries (filters.ts, lib/time.ts).  Quotas, counts and tokens are integers; the formats of times are
    those of the time zone of the browser: a parameter. *)
From S2P Require Import Prelude Number Json JsonObject Currency.

Local Open Scope Z_scope.

Inductive TimeGranularity := GHour | GDay | GWeek.
#[global] Instance TimeGranularity_eq_dec : EqDecision TimeGranularity.
Proof. solve_decision. Defined.

(** [formatChartTime] of lib/time.ts and the start of the local day of a time in seconds, both by the calendar of the runtime. *)
Class Calendar := { formatChartTime : Z -> TimeGranularity -> str; toStartOfDay : Z -> Z }.

Record QuotaDataItem := mkQuotaItem {
  q_username : option str; q_model_name : option str; q_created_at : Z; q_token_used : option Z; q_count : option Z; q_quota : option Z }.

Definition item_quota (i : QuotaDataItem) : Z := default 0 (q_quota i).
Definition item_count (i : QuotaDataItem) : Z := default 0 (q_count i).
Definition item_tokens (i : QuotaDataItem) : Z := default 0 (q_token_used i).
Definition item_model (i : QuotaDataItem) : str := opt_str_or (q_model_name i) (js "Unknown").
Definition item_user (i : QuotaDataItem) : str := opt_str_or (q_username i) (js "unknown").

Record Stats := mkStats { s_quota : Z; s_count : Z; s_tokens : Z }.
Definition no_stats : Stats := mkStats 0 0 0.
Definition add_item (s : Stats) (i : QuotaDataItem) : Stats :=
  mkStats (s_quota s + item_quota i) (s_count s + item_count i) (s_tokens s + item_tokens i).

Definition calculateDashboardStats (data : list QuotaDataItem) : Stats := foldl add_item no_stats data.

Definition safeDivide {F : NumberFormats} (value divisor : num) (precision : Z) : num :=
  let result := n_div value divisor in
  if isNaN result || negb (isFinite result) then n_zero
  else let factor := pow10 precision in n_div (math_round (n_mul result factor)) factor.

Section Charts.
Context {C : Calendar} {L : Collation}.

(** ** Aggregation *)

Definition time_key (g : TimeGranularity) (i : QuotaDataItem) : str := formatChartTime (q_created_at i) g.

Definition by_model (l : list QuotaDataItem) (m : list (str * Stats)) : list (str * Stats) :=
  group_by item_model (fun _ => no_stats) add_item l m.
Definition timeModelMap (g : TimeGranularity) (data : list QuotaDataItem) : list (str * list (str * Stats)) :=
  group_by (time_key g) (fun _ => []) (fun m i => by_model [i] m) data [].
Definition modelTotalsMap (data : list QuotaDataItem) : list (str * Stats) := by_model data [].

Definition MAX_CHART_TREND_POINTS : Z := 7.
Definition sortedTimes (g : TimeGranularity) (data : list QuotaDataItem) : list str := sort_by unit_compare (timeModelMap g data).*1.
Definition sortedModels (data : list QuotaDataItem) : list str := sort_by unit_compare (modelTotalsMap data).*1.
Definition intervalSec (g : TimeGranularity) : Z := match g with GWeek => 604800 | GDay => 86400 | GHour => 3600 end.

(** [Math.max(...)] of the times of the items. *)
Definition lastTime (data : list QuotaDataItem) : Z :=
  match data with [] => 0 | i :: r => foldl (fun a x => Z.max a (q_created_at x)) (q_created_at i) r end.

Definition fillTimePoints (g : TimeGranularity) (data : list QuotaDataItem) (times : list str) : list str :=
  if MAX_CHART_TREND_POINTS <=? Z.of_nat (length times) then times
  else map (fun i => formatChartTime (lastTime data - (MAX_CHART_TREND_POINTS - 1 - Z.of_nat i) * intervalSec g) g) (seq 0 7).
Definition chartTimes (g : TimeGranularity) (data : list QuotaDataItem) : list str := fillTimePoints g data (sortedTimes g data).

Definition stats_at (g : TimeGranularity) (data : list QuotaDataItem) (time model : str) : option Stats :=
  m ← map_get time (timeModelMap g data); map_get model m.
Definition quota_at g data time model : Z := match stats_at g data time model with Some s => s_quota s | None => 0 end.
Definition count_at g data time model : Z := match stats_at g data time model with Some s => s_count s | None => 0 end.

Definition totalTimes (data : list QuotaDataItem) : Z := sumZ (fun e => s_count (snd e)) (modelTotalsMap data).
Definition totalQuotaRaw (data : list QuotaDataItem) : Z := sumZ (fun e => s_quota (snd e)) (modelTotalsMap data).

(** ** Values of the charts *)

Definition pieValues (data : list QuotaDataItem) : list (str * Z) :=
  sort_by (fun a b => snd b - snd a) (map (fun e => (fst e, s_count (snd e))) (modelTotalsMap data)).

Record UsageValue := mkUsage { v_Time : str; v_Model : str; v_rawQuota : Z; v_Usage : num; v_TimeSum : Z }.
Record CountValue := mkCount { c_Time : str; c_Model : str; c_Count : Z }.

(** [Number(usd.toFixed(4))]. *)
Definition rounded4 (n : num) : num := num_of_str (to_fixed n 4).
Definition usage_of (quotaPerUnit : num) (rawQuota : Z) : num :=
  let usd := if rawQuota =? 0 then n_zero else n_div (n_of_Z rawQuota) quotaPerUnit in
  if n_truthy usd then rounded4 usd else n_zero.

Definition line_at (quotaPerUnit : num) (g : TimeGranularity) (data : list QuotaDataItem) (time : str) : list UsageValue :=
  let timeData := map (fun model => let q := quota_at g data time model in mkUsage time model q (usage_of quotaPerUnit q) 0) (sortedModels data) in
  let timeSum := sumZ v_rawQuota timeData in
  map (fun v => mkUsage (v_Time v) (v_Model v) (v_rawQuota v) (v_Usage v) timeSum)
    (sort_by (fun a b => v_rawQuota b - v_rawQuota a) timeData).
Definition lineValues (quotaPerUnit : num) (g : TimeGranularity) (data : list QuotaDataItem) : list UsageValue :=
  sort_by (fun a b => localeCompare (v_Time a) (v_Time b)) (flat_map (line_at quotaPerUnit g data) (chartTimes g data)).

Definition MAX_AREA_MODELS : nat := 15.
Definition rankedQuotaModels (data : list QuotaDataItem) : list (str * Z) :=
  sort_by (fun a b => snd b - snd a) (map (fun e => (fst e, s_quota (snd e))) (modelTotalsMap data)).
Definition topAreaModels (data : list QuotaDataItem) : list str := set_of (map fst (slice 0 MAX_AREA_MODELS (rankedQuotaModels data))).

(** The buckets of one time: raw quota and usage under the name of a top model or the label for others. *)
Definition area_buckets (otherLabel : str) (quotaPerUnit : num) g (data : list QuotaDataItem) (time : str) : list (str * (Z * num)) :=
  group_by (fun model => if set_has model (topAreaModels data) then model else otherLabel) (fun _ => (0, n_zero))
    (fun prev model => let q := quota_at g data time model in (fst prev + q, rounded4 (n_add (snd prev) (usage_of quotaPerUnit q))))
    (sortedModels data) [].
Definition area_at (otherLabel : str) (quotaPerUnit : num) g (data : list QuotaDataItem) (time : str) : list UsageValue :=
  let timeSum := sumZ (quota_at g data time) (sortedModels data) in
  map (fun e => mkUsage time (fst e) (fst (snd e)) (snd (snd e)) timeSum) (area_buckets otherLabel quotaPerUnit g data time).
Definition areaValues (otherLabel : str) (quotaPerUnit : num) g (data : list QuotaDataItem) : list UsageValue :=
  sort_by (fun a b => localeCompare (v_Time a) (v_Time b)) (flat_map (area_at otherLabel quotaPerUnit g data) (chartTimes g data)).

Definition MAX_TREND_MODELS : nat := 20.
Definition rankedTrendModels (data : list QuotaDataItem) : list (str * Z) :=
  sort_by (fun a b => snd b - snd a) (map (fun e => (fst e, s_count (snd e))) (modelTotalsMap data)).
Definition topTrendModels (data : list QuotaDataItem) : list str := map fst (slice 0 MAX_TREND_MODELS (rankedTrendModels data)).
Definition otherTrendModels (data : list QuotaDataItem) : list str := map fst (drop MAX_TREND_MODELS (rankedTrendModels data)).

Definition trend_at (otherLabel : str) g (data : list QuotaDataItem) (time : str) : list CountValue :=
  map (fun model => mkCount time model (count_at g data time model)) (topTrendModels data)
  ++ (if (0 <? length (otherTrendModels data))%nat
      then [mkCount time otherLabel (sumZ (count_at g data time) (otherTrendModels data))] else []).
Definition modelLineValues (otherLabel : str) g (data : list QuotaDataItem) : list CountValue :=
  sort_by (fun a b => localeCompare (c_Time a) (c_Time b)) (flat_map (trend_at otherLabel g data) (chartTimes g data)).

Definition MAX_RANK_MODELS : nat := 20.
Definition allRankValues (data : list QuotaDataItem) : list (str * Z) :=
  sort_by (fun a b => snd b - snd a) (map (fun e => (fst e, s_count (snd e))) (modelTotalsMap data)).
Definition rankValues (otherLabel : str) (data : list QuotaDataItem) : list (str * Z) :=
  let all := allRankValues data in
  if (MAX_RANK_MODELS <? length all)%nat
  then slice 0 MAX_RANK_MODELS all ++ [(otherLabel, sumZ snd (drop MAX_RANK_MODELS all))] else all.

Definition modelColorDomain (otherLabel : str) (data : list QuotaDataItem) : list str := set_of (sortedModels data ++ [otherLabel]).

(** ** Values of the user charts *)

Definition userQuotaTotal (data : list QuotaDataItem) : list (str * Z) :=
  group_by item_user (fun _ => 0) (fun q i => q + item_quota i) data [].
Definition sortedUsers (data : list QuotaDataItem) : list (str * Z) := sort_by (fun a b => snd b - snd a) (userQuotaTotal data).
Definition topUsers (limit : nat) (data : list QuotaDataItem) : list str := map fst (slice 0 limit (sortedUsers data)).
Definition totalTopQuota (limit : nat) (data : list QuotaDataItem) : Z := sumZ snd (slice 0 limit (sortedUsers data)).

Definition user_usage (quotaPerUnit : num) (q : Z) : num := rounded4 (n_div (n_of_Z q) quotaPerUnit).
Definition userRankValues (limit : nat) (quotaPerUnit : num) (data : list QuotaDataItem) : list (str * Z * num) :=
  map (fun e => (fst e, snd e, user_usage quotaPerUnit (snd e))) (slice 0 limit (sortedUsers data)).

(** The loop over the items: the set of times has every item, the map only those of the top users. *)
Definition timeUserMap (limit : nat) g (data : list QuotaDataItem) : list (str * list (str * Z)) :=
  group_by (time_key g) (fun _ => []) (fun m i => map_upsert (item_user i) 0 (fun q => q + item_quota i) m)
    (List.filter (fun i => set_has (item_user i) (set_of (topUsers limit data))) data) [].
Definition sortedTimePoints g (data : list QuotaDataItem) : list str := sort_by unit_compare (set_of (map (time_key g) data)).
Definition user_quota_at (limit : nat) g (data : list QuotaDataItem) (time user : str) : Z :=
  default 0 (m ← map_get time (timeUserMap limit g data); map_get user m).
Definition user_value (limit : nat) (quotaPerUnit : num) g (data : list QuotaDataItem) (time user : str) : UsageValue :=
  let q := user_quota_at limit g data time user in mkUsage time user q (user_usage quotaPerUnit q) 0.
Definition trendValues (limit : nat) (quotaPerUnit : num) g (data : list QuotaDataItem) : list UsageValue :=
  flat_map (fun time => map (user_value limit quotaPerUnit g data time) (topUsers limit data)) (sortedTimePoints g data).

(** ** Texts *)

Definition renderQuotaCompat {F : NumberFormats} (cur : option StoredCurrency) (rawQuota : Z) (digits : nat) : str :=
  let '(config, meta) := getCurrencyDisplay cur in
  let raw := n_of_Z rawQuota in
  let shown symbol rate :=
    let value := n_mul (n_div raw (quotaPerUnit config)) rate in
    let fixed := to_fixed value digits in
    if n_eqb (parseFloat fixed) n_zero && (0 <? rawQuota) && n_ltb n_zero value
    then symbol ++ to_fixed (pow10 (- Z.of_nat digits)) digits else symbol ++ fixed in
  match meta with
  | MetaTokens _ => intl_format None (mkIntl None false None 3) raw
  | MetaCurrency symbol _ rate => shown symbol rate
  | MetaCustom symbol rate => shown symbol rate
  end.

(** A line of a tooltip: the quota it shows, and the datum behind it with its raw quota and the sum of its time. *)
Record TooltipItem := mkTip { tip_key : str; tip_value : Z; tip_datum : option (Z * Z) }.

Definition tooltip_lines {F : NumberFormats} (cur : option StoredCurrency) (otherLabel total : str) (collapseOverflow : bool)
    (array : list TooltipItem) : list (str * str) :=
  let isOther i := str_eqb (tip_key i) (js "Other") || str_eqb (tip_key i) otherLabel in
  let modelItems := sort_by (fun a b => tip_value b - tip_value a) (List.filter (fun i => negb (isOther i)) array) in
  let otherItems := List.filter isOther array in
  let all := modelItems ++ otherItems in
  let show v := renderQuotaCompat cur v 4 in
  let line i := (tip_key i, show (tip_value i)) in
  let sum := foldl (fun s i => match tip_datum i with Some (_, timeSum) => if timeSum =? 0 then s else timeSum | None => s end) 0 all in
  let lines :=
    if collapseOverflow && (15 <? length all)%nat
    then map line (slice 0 15 modelItems)
         ++ [(otherLabel, show (sumZ (fun i => match tip_datum i with Some (raw, _) => raw | None => 0 end) (drop 15 modelItems ++ otherItems)))]
    else map line all in
  (total, show sum) :: lines.

End Charts.

(** ** Preferences *)

Definition granularity_name (g : TimeGranularity) : str := match g with GHour => js "hour" | GDay => js "day" | GWeek => js "week" end.
Definition isTimeGranularity (value : str) : option TimeGranularity :=
  if str_eqb value (js "hour") then Some GHour else if str_eqb value (js "day") then Some GDay
  else if str_eqb value (js "week") then Some GWeek else None.

Inductive distribution_chart := CBar | CArea.
Inductive analytics_chart := CTrend | CProportion | CTop.
Definition distribution_name (c : distribution_chart) : str := match c with CBar => js "bar" | CArea => js "area" end.
Definition analytics_name (c : analytics_chart) : str := match c with CTrend => js "trend" | CProportion => js "proportion" | CTop => js "top" end.
Definition isConsumptionDistributionChartType (value : str) : option distribution_chart :=
  if str_eqb value (js "bar") then Some CBar else if str_eqb value (js "area") then Some CArea else None.
Definition isModelAnalyticsChartTab (value : str) : option analytics_chart :=
  if str_eqb value (js "trend") then Some CTrend else if str_eqb value (js "proportion") then Some CProportion
  else if str_eqb value (js "top") then Some CTop else None.

Definition TIME_RANGE_PRESETS : list Z := [1; 7; 14; 29].
Definition TIME_RANGE_BY_GRANULARITY (g : TimeGranularity) : Z := match g with GHour => 1 | GDay => 7 | GWeek => 30 end.
Definition isTimeRangePresetDays (value : json) : option Z :=
  match value with JNum n => List.find (fun days => n_eqb n (n_of_Z days)) TIME_RANGE_PRESETS | _ => None end.

Record DashboardChartPreferences := mkChartPreferences {
  consumptionDistributionChart : distribution_chart; modelAnalyticsChart : analytics_chart; defaultTimeRangeDays : Z;
  defaultTimeGranularity : TimeGranularity }.
Definition DEFAULT_DASHBOARD_CHART_PREFERENCES : DashboardChartPreferences := mkChartPreferences CBar CTrend 1 GHour.

Definition TIME_GRANULARITY_STORAGE_KEY : str := js "data_export_default_time".
Definition DASHBOARD_CHART_PREFERENCES_STORAGE_KEY : str := js "dashboard_models_chart_preferences".

Definition getLegacySavedGranularity (storage : list (str * str)) : TimeGranularity :=
  default GHour (saved ← map_get TIME_GRANULARITY_STORAGE_KEY storage; isTimeGranularity saved).

Definition named_value {A} (parsed : json) (key : String.string) (read : str -> option A) : option A :=
  match member parsed (js key) with Some (JStr s) => read s | _ => None end.

(** A text that does not parse, and [null], leave the fallback. *)
Definition getSavedChartPreferences (storage : list (str * str)) : DashboardChartPreferences :=
  let D := DEFAULT_DASHBOARD_CHART_PREFERENCES in
  let fallback := mkChartPreferences (consumptionDistributionChart D) (modelAnalyticsChart D) (defaultTimeRangeDays D) (getLegacySavedGranularity storage) in
  match map_get DASHBOARD_CHART_PREFERENCES_STORAGE_KEY storage with
  | None => fallback
  | Some raw =>
      if negb (truthy raw) then fallback
      else match JSON_parse raw with
      | None => fallback
      | Some parsed =>
          mkChartPreferences
            (default (consumptionDistributionChart fallback) (named_value parsed "consumptionDistributionChart" isConsumptionDistributionChartType))
            (default (modelAnalyticsChart fallback) (named_value parsed "modelAnalyticsChart" isModelAnalyticsChartTab))
            (default (defaultTimeRangeDays fallback) (v ← member parsed (js "defaultTimeRangeDays"); isTimeRangePresetDays v))
            (default (defaultTimeGranularity fallback) (named_value parsed "defaultTimeGranularity" isTimeGranularity))
      end
  end.

Definition preferences_json (p : DashboardChartPreferences) : json :=
  JObj [(js "consumptionDistributionChart", JStr (distribution_name (consumptionDistributionChart p)));
        (js "modelAnalyticsChart", JStr (analytics_name (modelAnalyticsChart p)));
        (js "defaultTimeRangeDays", JNum (n_of_Z (defaultTimeRangeDays p)));
        (js "defaultTimeGranularity", JStr (granularity_name (defaultTimeGranularity p)))].
Definition saveChartPreferences (p : DashboardChartPreferences) (storage : list (str * str)) : list (str * str) :=
  map_set DASHBOARD_CHART_PREFERENCES_STORAGE_KEY (JSON_stringify (preferences_json p)) storage.

Definition getSavedGranularity (override : option TimeGranularity) (storage : list (str * str)) : TimeGranularity :=
  match override with Some g => g | None => defaultTimeGranularity (getSavedChartPreferences storage) end.
Definition saveGranularity (g : TimeGranularity) (storage : list (str * str)) : list (str * str) :=
  let p := getSavedChartPreferences storage in
  map_set TIME_GRANULARITY_STORAGE_KEY (granularity_name g)
    (saveChartPreferences (mkChartPreferences (consumptionDistributionChart p) (modelAnalyticsChart p) (defaultTimeRangeDays p) g) storage).
Definition getDefaultDays (granularity : option TimeGranularity) (storage : list (str * str)) : Z :=
  match granularity with
  | None => defaultTimeRangeDays (getSavedChartPreferences storage)
  | Some g => TIME_RANGE_BY_GRANULARITY (getSavedGranularity (Some g) storage)
  end.

(** ** Queries *)

(** Dates are times in milliseconds. *)
Definition dateToUnixTimestamp (date : Z) : Z := date / 1000.
Definition getRollingDateRange (days fromDate : Z) : Z * Z := (fromDate - days * 24 * 60 * 60 * 1000, fromDate).

Definition computeTimeRange {C : Calendar} (nowMs days : Z) (startDate endDate : option Z) (useStartOfDay : bool) : Z * Z :=
  let now := nowMs / 1000 in
  if useStartOfDay then
    let end_ := match endDate with Some d => toStartOfDay (dateToUnixTimestamp d) | None => toStartOfDay now end in
    let start := match startDate with Some d => toStartOfDay (dateToUnixTimestamp d) | None => end_ - days * 24 * 3600 end in
    (start, end_ + 24 * 3600 - 1)
  else
    let end_ := match endDate with Some d => dateToUnixTimestamp d | None => now + 3600 end in
    let start := match startDate with Some d => dateToUnixTimestamp d | None => end_ - days * 24 * 3600 end in
    (start, end_).

Record DashboardFilters := mkDashboardFilters { df_start : option Z; df_end : option Z; df_granularity : TimeGranularity; df_username : str }.
Definition EMPTY_DASHBOARD_FILTERS : DashboardFilters := mkDashboardFilters None None GHour [].
Definition buildDefaultDashboardFilters (nowMs : Z) (preferences : DashboardChartPreferences) : DashboardFilters :=
  let '(start, end_) := getRollingDateRange (defaultTimeRangeDays preferences) nowMs in
  mkDashboardFilters (Some start) (Some end_) (defaultTimeGranularity preferences) (df_username EMPTY_DASHBOARD_FILTERS).

Record QueryParams := mkQuery { qp_start : Z; qp_end : Z; qp_default_time : str; qp_username : option str }.
Definition buildQueryParams (timeRange : Z * Z) (filters : option (option TimeGranularity * option str)) (storage : list (str * str)) : QueryParams :=
  mkQuery (fst timeRange) (snd timeRange)
    (granularity_name (getSavedGranularity (f ← filters; fst f) storage))
    (f ← filters; u ← snd f; if truthy u then Some u else None).

(** Values that are missing, [null] or blank are left out; other texts are trimmed. *)
Definition cleanFilters (filters : list (str * option json)) : list (str * json) :=
  foldl (fun cleaned e =>
    match snd e with
    | None | Some JNull => cleaned
    | Some (JStr s) => if truthy (trim s) then obj_set (fst e) (JStr (trim s)) cleaned else cleaned
    | Some v => obj_set (fst e) v cleaned
    end) [] filters.
