(* ===== verification/ChartProps.v ===== *)
(** * What the charts show

    The charts neither lose nor invent quota and calls of the times they show; the ranking and the pie add up to the totals; the
    trend of a user adds up to the rank of the user; preferences come back from the storage.  With few points the times of the
    chart are a window that can miss data. *)
From S2P Require Import Prelude Number Json JsonObject Currency DashboardCharts.

Local Open Scope Z_scope.

Lemma filter_always {A} (P : A -> Prop) `{forall x, Decision (P x)} (l : list A) : (forall x, P x) -> filter P l = l.
Proof. intros HP. induction l as [|x l IH]; [done |]. rewrite filter_cons, decide_True by done. by rewrite IH. Qed.

Section ChartSums.
Context {C : Calendar} {L : Collation}.
Implicit Types (data : list QuotaDataItem) (g : TimeGranularity) (time model : str).

Definition at_time g time data : list QuotaDataItem := filter (fun i => time_key g i = time) data.
Definition of_model model data : list QuotaDataItem := filter (fun i => item_model i = model) data.

Lemma fold_stats l s :
  s_quota (foldl add_item s l) = s_quota s + sumZ item_quota l /\ s_count (foldl add_item s l) = s_count s + sumZ item_count l /\
  s_tokens (foldl add_item s l) = s_tokens s + sumZ item_tokens l.
Proof.
  revert s. induction l as [|i l IH]; intros s; [cbn; lia |]. cbn [foldl]. destruct (IH (add_item s i)) as (-> & -> & ->).
  rewrite !sumZ_cons. cbn. lia.
Qed.

Lemma by_model_app l k m : by_model (l ++ k) m = by_model k (by_model l m).
Proof. unfold by_model, group_by. apply foldl_app. Qed.

(** One map per time. *)
Lemma time_map_get g data time :
  map_get time (timeModelMap g data) = if decide (at_time g time data = []) then None else Some (by_model (at_time g time data) []).
Proof.
  unfold timeModelMap. rewrite group_by_get. cbn [map_get]. fold (at_time g time data).
  assert (E : forall l m, foldl (fun m i => by_model [i] m) m l = by_model l m).
  { induction l as [|i l IH]; intros m; [done |]. cbn [foldl]. rewrite IH. by rewrite <- by_model_app. }
  destruct (at_time g time data) as [|i l]; [by rewrite decide_True |]. rewrite decide_False by done. by rewrite E.
Qed.

Lemma model_stats_get l model : map_get model (by_model l []) =
  if decide (of_model model l = []) then None else Some (foldl add_item no_stats (of_model model l)).
Proof.
  unfold by_model. rewrite group_by_get. cbn [map_get]. fold (of_model model l).
  destruct (of_model model l); [by rewrite decide_True | by rewrite decide_False].
Qed.

Lemma figures_at g data time model :
  quota_at g data time model = sumZ item_quota (of_model model (at_time g time data)) /\
  count_at g data time model = sumZ item_count (of_model model (at_time g time data)).
Proof.
  unfold quota_at, count_at, stats_at. rewrite time_map_get. destruct (decide (at_time g time data = [])) as [E|_]; cbn [mbind option_bind].
  { by rewrite E. }
  rewrite model_stats_get. destruct (decide (of_model model (at_time g time data) = [])) as [E|_]; [by rewrite E |].
  destruct (fold_stats (of_model model (at_time g time data)) no_stats) as (-> & -> & _). done.
Qed.

(** ** Models *)

Lemma model_keys data : NoDup (modelTotalsMap data).*1 /\ forall i, i ∈ data -> item_model i ∈ (modelTotalsMap data).*1.
Proof.
  split; [apply group_by_NoDup; constructor |]. intros i Hi. apply group_by_keys. right. by exists i.
Qed.

(** Any list of the models, each once: the figures of the models add up to those of the items. *)
Lemma models_sum (f : QuotaDataItem -> Z) (ms : list str) data g time : ms ≡ₚ (modelTotalsMap data).*1 ->
  sumZ (fun model => sumZ f (of_model model (at_time g time data))) ms = sumZ f (at_time g time data).
Proof.
  intros Hp. destruct (model_keys data) as [Hn Hk]. symmetry. etransitivity; [apply (sumZ_partition item_model f ms) | done].
  - by rewrite Hp.
  - intros i [_ Hi]%list_elem_of_filter. rewrite Hp. by apply Hk.
Qed.

Lemma quota_models_sum ms data g time : ms ≡ₚ (modelTotalsMap data).*1 -> sumZ (quota_at g data time) ms = sumZ item_quota (at_time g time data).
Proof. intros H. rewrite <- (models_sum item_quota ms data g time H). apply sumZ_ext. intros m _. apply figures_at. Qed.

Lemma count_models_sum ms data g time : ms ≡ₚ (modelTotalsMap data).*1 -> sumZ (count_at g data time) ms = sumZ item_count (at_time g time data).
Proof. intros H. rewrite <- (models_sum item_count ms data g time H). apply sumZ_ext. intros m _. apply figures_at. Qed.

Lemma sortedModels_perm data : sortedModels data ≡ₚ (modelTotalsMap data).*1.
Proof. apply sort_by_perm. Qed.

Lemma ranked_perm (f : Stats -> Z) data (cmp : str * Z -> str * Z -> Z) :
  map fst (sort_by cmp (map (fun e => (fst e, f (snd e))) (modelTotalsMap data))) ≡ₚ (modelTotalsMap data).*1.
Proof. rewrite sort_by_perm. rewrite map_map. done. Qed.

(** ** Charts of one time *)

Lemma line_sum upu g data time : sumZ v_rawQuota (line_at upu g data time) = sumZ item_quota (at_time g time data).
Proof.
  unfold line_at. cbv zeta. rewrite sumZ_map. cbn [v_rawQuota]. rewrite (sort_by_perm _ (map _ _)), sumZ_map. cbn [v_rawQuota].
  apply quota_models_sum, sortedModels_perm.
Qed.

Lemma area_sum other upu g data time : sumZ v_rawQuota (area_at other upu g data time) = sumZ item_quota (at_time g time data).
Proof.
  unfold area_at. cbv zeta. rewrite sumZ_map. cbn [v_rawQuota]. unfold area_buckets.
  pose proof (group_sum_key (fun model => if set_has model (topAreaModels data) then model else other) (fun _ => (0, n_zero))
    (fun prev model => let q := quota_at g data time model in (fst prev + q, rounded4 (n_add (snd prev) (usage_of upu q))))
    fst (quota_at g data time) (fun _ => eq_refl) (fun _ _ => eq_refl) (fun _ => True) (sortedModels data)) as H.
  rewrite !filter_always in H by done. etransitivity; [exact H | apply quota_models_sum, sortedModels_perm].
Qed.

Lemma trend_sum other g data time : sumZ c_Count (trend_at other g data time) = sumZ item_count (at_time g time data).
Proof.
  unfold trend_at. rewrite sumZ_app, sumZ_map. cbn [c_Count].
  rewrite <- (count_models_sum (map fst (rankedTrendModels data)) data g time (ranked_perm s_count data _)).
  unfold topTrendModels, otherTrendModels, slice. rewrite drop_0, Nat.sub_0_r.
  rewrite <- (take_drop MAX_TREND_MODELS (rankedTrendModels data)) at 4. rewrite map_app, sumZ_app. f_equal.
  by destruct (map fst (drop MAX_TREND_MODELS (rankedTrendModels data))) as [|m ms] eqn:E; cbn; [| rewrite Z.add_0_r].
Qed.

(** ** Totals *)

Lemma totals data : totalQuotaRaw data = sumZ item_quota data /\ totalTimes data = sumZ item_count data.
Proof.
  unfold totalQuotaRaw, totalTimes, modelTotalsMap, by_model. split.
  - pose proof (group_sum_key item_model (fun _ => no_stats) add_item s_quota item_quota (fun _ => eq_refl) (fun _ _ => eq_refl) (fun _ => True) data) as H.
    by rewrite !filter_always in H.
  - pose proof (group_sum_key item_model (fun _ => no_stats) add_item s_count item_count (fun _ => eq_refl) (fun _ _ => eq_refl) (fun _ => True) data) as H.
    by rewrite !filter_always in H.
Qed.

Lemma ranking_sum data (cmp : str * Z -> str * Z -> Z) :
  sumZ snd (sort_by cmp (map (fun e => (fst e, s_count (snd e))) (modelTotalsMap data))) = totalTimes data.
Proof. rewrite sort_by_perm, sumZ_map. done. Qed.

Lemma rank_sum other data : sumZ snd (rankValues other data) = totalTimes data.
Proof.
  rewrite <- (ranking_sum data (fun a b => snd b - snd a)). fold (allRankValues data). unfold rankValues. cbv zeta.
  destruct (_ <? _)%nat; [| done]. unfold slice. rewrite drop_0, Nat.sub_0_r, sumZ_app. rewrite <- (take_drop MAX_RANK_MODELS (allRankValues data)) at 3.
  rewrite sumZ_app. cbn. lia.
Qed.

Lemma flat_map_sum {A B} (f : B -> Z) (h : A -> list B) l : sumZ f (flat_map h l) = sumZ (fun a => sumZ f (h a)) l.
Proof. induction l as [|a l IH]; [done |]. cbn [flat_map]. by rewrite sumZ_app, sumZ_cons, IH. Qed.

(** The times of the data, once each. *)
Lemma sortedTimes_spec g data : NoDup (sortedTimes g data) /\ forall i, i ∈ data -> time_key g i ∈ sortedTimes g data.
Proof.
  unfold sortedTimes. split.
  - rewrite sort_by_perm. apply group_by_NoDup. constructor.
  - intros i Hi. apply elem_of_sort_by, group_by_keys. right. by exists i.
Qed.

Lemma times_sum (f : QuotaDataItem -> Z) g data times : NoDup times -> (forall i, i ∈ data -> time_key g i ∈ times) ->
  sumZ (fun time => sumZ f (at_time g time data)) times = sumZ f data.
Proof. intros Hn Hk. symmetry. etransitivity; [apply (sumZ_partition (time_key g) f times); done | done]. Qed.

(** The times of the chart cover the data when there are at least seven of them. *)
Definition enough_points g data : Prop := MAX_CHART_TREND_POINTS <= Z.of_nat (length (sortedTimes g data)).

Lemma chartTimes_enough g data : enough_points g data -> chartTimes g data = sortedTimes g data.
Proof.
  unfold enough_points, chartTimes, fillTimePoints. intros H. destruct (Z.leb_spec MAX_CHART_TREND_POINTS (Z.of_nat (length (sortedTimes g data)))); [done | lia].
Qed.

(** C11: at each time that the charts of models show, the bars, the areas and the call trend - the share of the remaining models
    included - add up to the quota and to the calls of the data at that time; the ranking and the pie add up to all calls and the
    totals to all data.  When the data have seven times or more, the charts show all of the quota and all of the calls. *)
Theorem charts_conserve (other : str) (upu : num) (g : TimeGranularity) (data : list QuotaDataItem) :
  (forall time, sumZ v_rawQuota (line_at upu g data time) = sumZ item_quota (at_time g time data) /\
    sumZ v_rawQuota (area_at other upu g data time) = sumZ item_quota (at_time g time data) /\
    sumZ c_Count (trend_at other g data time) = sumZ item_count (at_time g time data)) /\
  sumZ snd (pieValues data) = sumZ item_count data /\ sumZ snd (rankValues other data) = sumZ item_count data /\
  totalQuotaRaw data = sumZ item_quota data /\ totalTimes data = sumZ item_count data /\
  (enough_points g data ->
    sumZ v_rawQuota (lineValues upu g data) = totalQuotaRaw data /\ sumZ v_rawQuota (areaValues other upu g data) = totalQuotaRaw data /\
    sumZ c_Count (modelLineValues other g data) = totalTimes data).
Proof.
  destruct (totals data) as [Hq Ht]. split; [intros time; split; [apply line_sum | split; [apply area_sum | apply trend_sum]] |].
  split; [rewrite <- Ht; apply ranking_sum |]. split; [by rewrite rank_sum |]. split; [done |]. split; [done |].
  intros He. destruct (sortedTimes_spec g data) as [Hn Hk]. unfold lineValues, areaValues, modelLineValues.
  rewrite !sort_by_perm, !flat_map_sum, (chartTimes_enough g data He), Hq, Ht.
  rewrite <- (times_sum item_quota g data (sortedTimes g data) Hn Hk), <- (times_sum item_count g data (sortedTimes g data) Hn Hk).
  split; [| split]; apply sumZ_ext; intros time _; [apply line_sum | apply area_sum | apply trend_sum].
Qed.

(** ** Users *)

Definition of_user (user : str) data : list QuotaDataItem := filter (fun i => item_user i = user) data.

Lemma user_totals data user q : (user, q) ∈ userQuotaTotal data -> q = sumZ item_quota (of_user user data).
Proof.
  intros H. apply elem_map_get in H; [| apply group_by_NoDup; constructor]. unfold userQuotaTotal in H. rewrite group_by_get in H. cbn [map_get] in H.
  fold (of_user user data) in H. destruct (of_user user data) as [|i l] eqn:E; [done |]. apply (inj Some) in H. rewrite <- H.
  by rewrite foldl_add_sumZ.
Qed.

Lemma shown_user (top : list str) g data time user : user ∈ top ->
  filter (fun i => item_user i = user) (filter (fun i => time_key g i = time) (List.filter (fun i => set_has (item_user i) top) data)) =
  at_time g time (of_user user data).
Proof.
  intros Hu. unfold at_time, of_user. induction data as [|i data IH]; [done |]. cbn [List.filter]. rewrite (filter_cons _ i).
  destruct (decide (item_user i = user)) as [Eu|Hne].
  - assert (set_has (item_user i) top = true) as -> by (apply set_has_spec; congruence). rewrite !(filter_cons (fun i => time_key g i = time)).
    destruct (decide (time_key g i = time)); [| done]. rewrite filter_cons, decide_True by done. by rewrite IH.
  - destruct (set_has (item_user i) top); [| done]. rewrite (filter_cons (fun i => time_key g i = time)).
    destruct (decide (time_key g i = time)); [| done]. by rewrite filter_cons, decide_False.
Qed.

Lemma user_at limit g data time user : user ∈ topUsers limit data ->
  user_quota_at limit g data time user = sumZ item_quota (at_time g time (of_user user data)).
Proof.
  intros Hu. apply elem_of_set_of in Hu. unfold user_quota_at, timeUserMap. rewrite group_by_get. cbn [map_get].
  rewrite <- (shown_user _ g data time user Hu). destruct (filter _ (List.filter _ data)) as [|i l]; [done |]. cbn [mbind option_bind].
  change (foldl _ [] (i :: l)) with (group_by item_user (fun _ => 0) (fun q i => q + item_quota i) (i :: l) []).
  rewrite group_by_get. cbn [map_get]. destruct (filter _ (i :: l)) as [|j k]; [done |]. cbn [default]. by rewrite foldl_add_sumZ.
Qed.

Lemma sortedTimePoints_spec g data : NoDup (sortedTimePoints g data) /\ forall i, i ∈ data -> time_key g i ∈ sortedTimePoints g data.
Proof.
  unfold sortedTimePoints. split; [rewrite sort_by_perm; apply NoDup_set_of |].
  intros i Hi. apply elem_of_sort_by, elem_of_set_of. by apply elem_of_map.
Qed.

Lemma topUsers_rank limit data user q : (user, q) ∈ slice 0 limit (sortedUsers data) ->
  user ∈ topUsers limit data /\ q = sumZ item_quota (of_user user data).
Proof.
  intros H. split; [by apply (elem_of_map fst) in H |]. apply user_totals.
  assert (Hs : (user, q) ∈ sortedUsers data).
  { unfold slice in H. rewrite drop_0 in H. rewrite <- (take_drop (limit - 0) (sortedUsers data)). apply elem_of_app. by left. }
  by apply elem_of_sort_by in Hs.
Qed.

Lemma user_value_sum limit upu g data time user l : NoDup l ->
  sumZ v_rawQuota (filter (fun v => v_Model v = user) (map (user_value limit upu g data time) l)) =
  if decide (user ∈ l) then user_quota_at limit g data time user else 0.
Proof.
  induction l as [|x l IH]; intros Hn; [done |]. apply NoDup_cons in Hn as [Hx Hn]. specialize (IH Hn). cbn [map]. rewrite filter_cons.
  change (v_Model (user_value limit upu g data time x)) with x. destruct (decide (x = user)) as [->|Hne].
  - rewrite sumZ_cons, IH, decide_False by done. rewrite decide_True by left. cbn. lia.
  - rewrite IH. destruct (decide (user ∈ l)) as [Hu|Hu].
    + by rewrite decide_True by (by right).
    + rewrite decide_False by (intros [->|?]%elem_of_cons; done). done.
Qed.

Lemma user_values_sum limit upu g data user times : user ∈ topUsers limit data -> NoDup (topUsers limit data) ->
  sumZ v_rawQuota (filter (fun v => v_Model v = user) (flat_map (fun time => map (user_value limit upu g data time) (topUsers limit data)) times)) =
  sumZ (fun time => user_quota_at limit g data time user) times.
Proof.
  intros Hu Hn. induction times as [|time times IH]; [done |]. cbn [flat_map]. rewrite filter_app, sumZ_app, sumZ_cons, IH.
  by rewrite user_value_sum, decide_True.
Qed.

(** C33: the trend of each user of the user charts adds up to the quota that the ranking shows for the user, which is the quota
    of all data of that user; the ranking is in descending order and has no more users than its limit. *)
Theorem user_trend_matches_rank (limit : nat) (upu : num) (g : TimeGranularity) (data : list QuotaDataItem) :
  (length (userRankValues limit upu data) <= limit)%nat /\
  StronglySorted (fun a b => snd (fst b) <= snd (fst a)) (userRankValues limit upu data) /\
  forall user q u, (user, q, u) ∈ userRankValues limit upu data ->
    q = sumZ item_quota (of_user user data) /\
    sumZ v_rawQuota (filter (fun v => v_Model v = user) (trendValues limit upu g data)) = q.
Proof.
  assert (Hn : NoDup (topUsers limit data)).
  { unfold topUsers, slice. rewrite drop_0, Nat.sub_0_r. assert (H : NoDup (map fst (sortedUsers data))).
    { assert (sortedUsers data ≡ₚ userQuotaTotal data) as -> by apply sort_by_perm. apply group_by_NoDup. constructor. }
    rewrite <- (take_drop limit (sortedUsers data)), map_app in H. by apply NoDup_app in H as (? & _ & _). }
  split; [| split].
  - unfold userRankValues, slice. rewrite length_map, length_take. lia.
  - unfold userRankValues, slice. rewrite drop_0, Nat.sub_0_r.
    assert (H : cmp_sorted (fun a b : str * Z => snd b - snd a) (sortedUsers data)) by (apply sort_by_sorted_pre, desc_preorder).
    rewrite <- (take_drop limit (sortedUsers data)) in H. apply StronglySorted_app_1_l in H.
    induction H as [|e l Hl IH Hf]; [constructor |]. cbn [map]. constructor; [done |]. apply Forall_map. eapply Forall_impl; [exact Hf |].
    intros a Ha. cbn in *. lia.
  - intros user q u ((x & y) & [= -> -> _] & Hin)%list_elem_of_fmap. cbn [fst snd]. destruct (topUsers_rank _ _ _ _ Hin) as [Hu Hq].
    split; [done |]. unfold trendValues. rewrite (user_values_sum limit upu g data x _ Hu Hn), Hq.
    destruct (sortedTimePoints_spec g data) as [Ht Hk]. rewrite <- (times_sum item_quota g (of_user x data) (sortedTimePoints g data) Ht).
    + apply sumZ_ext. intros time _. by apply user_at.
    + intros i [_ Hi]%list_elem_of_filter. by apply Hk.
Qed.
End ChartSums.

(** ** Few points *)

(** A calendar whose days are numbered. *)
Definition day_numbers : Calendar := {| formatChartTime := fun t _ => show_Z (t / 86400); toStartOfDay := fun t => t / 86400 * 86400 |}.

Definition item_on (day quota count : Z) : QuotaDataItem := mkQuotaItem None (Some (js "m")) (day * 86400) None (Some count) (Some quota).

(** With fewer than seven times the chart shows the seven before the last one: what is older is part of the totals and of no
    bar. *)
Lemma old_data_missing :
  let data := [item_on 100 900 9; item_on 120 50 1] in
  totalQuotaRaw data = 950 /\ totalTimes data = 10 /\
  sumZ v_rawQuota (lineValues (C := day_numbers) (L := unit_collation) (n_of_Z 500000) GDay data) = 50 /\
  sumZ c_Count (modelLineValues (C := day_numbers) (L := unit_collation) (js "Other") GDay data) = 1.
Proof. vm_compute. done. Qed.

(** Times without a year are sorted as texts: the days after a new year come before those before it. *)
Lemma new_year_first {C : Calendar} (december january : QuotaDataItem) :
  formatChartTime (q_created_at december) GDay = js "12-31" -> formatChartTime (q_created_at january) GDay = js "01-01" ->
  sortedTimes GDay [december; january] = [js "01-01"; js "12-31"].
Proof.
  intros Hd Hj. unfold sortedTimes, timeModelMap, group_by. cbn [foldl]. unfold group_step, map_upsert, time_key. by rewrite Hd, Hj.
Qed.

(** ** Preferences *)

Definition preferences_ok (p : DashboardChartPreferences) : Prop := defaultTimeRangeDays p ∈ TIME_RANGE_PRESETS.

Lemma preferences_text p : preferences_ok p -> JSON_parse (JSON_stringify (preferences_json p)) = Some (preferences_json p).
Proof.
  intros H. apply json_roundtrip, json_okb_ok. unfold preferences_ok, TIME_RANGE_PRESETS in H. destruct p as [c m d g]. cbn in H.
  repeat (apply elem_of_cons in H as [->|H]; [destruct c, m, g; vm_compute; reflexivity |]). by apply not_elem_of_nil in H.
Qed.

Lemma preferences_read p storage : preferences_ok p ->
  map_get DASHBOARD_CHART_PREFERENCES_STORAGE_KEY storage = Some (JSON_stringify (preferences_json p)) -> getSavedChartPreferences storage = p.
Proof.
  intros H Hg. unfold getSavedChartPreferences. rewrite Hg, (preferences_text p H). destruct (object_text_trim
    [(js "consumptionDistributionChart", JStr (distribution_name (consumptionDistributionChart p)));
     (js "modelAnalyticsChart", JStr (analytics_name (modelAnalyticsChart p)));
     (js "defaultTimeRangeDays", JNum (n_of_Z (defaultTimeRangeDays p)));
     (js "defaultTimeGranularity", JStr (granularity_name (defaultTimeGranularity p)))]) as [Ht _].
  unfold preferences_json at 1. rewrite Ht. cbn [negb]. clear Hg Ht. unfold preferences_ok, TIME_RANGE_PRESETS in H. destruct p as [c m d g]. cbn [defaultTimeRangeDays] in H.
  repeat (apply elem_of_cons in H as [->|H]; [destruct c, m, g; vm_compute; reflexivity |]). by apply not_elem_of_nil in H.
Qed.

(** chart preferences that were saved are read back, whatever the storage held before; choosing a granularity changes that
    part of them only. *)
Theorem chart_preferences_roundtrip (p : DashboardChartPreferences) (storage : list (str * str)) (g : TimeGranularity) (Hp : preferences_ok p) :
  getSavedChartPreferences (saveChartPreferences p storage) = p /\
  getSavedChartPreferences (saveGranularity g (saveChartPreferences p storage)) =
    mkChartPreferences (consumptionDistributionChart p) (modelAnalyticsChart p) (defaultTimeRangeDays p) g /\
  getSavedGranularity None (saveGranularity g (saveChartPreferences p storage)) = g.
Proof.
  assert (H1 : getSavedChartPreferences (saveChartPreferences p storage) = p).
  { apply preferences_read; [done |]. apply map_get_set_eq. }
  assert (H2 : getSavedChartPreferences (saveGranularity g (saveChartPreferences p storage)) =
    mkChartPreferences (consumptionDistributionChart p) (modelAnalyticsChart p) (defaultTimeRangeDays p) g).
  { apply preferences_read; [done |]. unfold saveGranularity. rewrite H1. unfold saveChartPreferences.
    rewrite map_get_set_ne by done. apply map_get_set_eq. }
  split; [done |]. split; [done |]. unfold getSavedGranularity. by rewrite H2.
Qed.

Lemma chart_preferences_roundtrip_witness :
  getSavedChartPreferences (saveChartPreferences (mkChartPreferences CArea CTop 14 GDay) [(TIME_GRANULARITY_STORAGE_KEY, js "week")]) =
    mkChartPreferences CArea CTop 14 GDay.
Proof.
  apply (chart_preferences_roundtrip (mkChartPreferences CArea CTop 14 GDay) [(TIME_GRANULARITY_STORAGE_KEY, js "week")] GHour).
  right. right. left.
Defined.
