(* ===== verification/TierRoundtrip.v ===== *)
(** * The tiers of the visual editor, printed and read back

    The expression that the visual editor prints for its tiers is read back as the same tiers, whatever
    their names, their conditions and their prices are; conditions of the last of several tiers are not
    printed and are lost.
    The regular expression of the reader is run symbolically: [reaches] says that a piece of it
    takes a piece of the text and goes on from there. *)
From S2P Require Import Prelude Number Regex Json BillingExpr BillingProps TierExpr.

(** ** Pieces of a match *)

(** Matching [r] at [text ++ rest] takes [text], with the captures [cs'], on the path that is tried first and succeeds. *)
Definition reaches (r : regex) (text rest : str) (cs cs' : list (nat * str)) : Prop :=
  forall p k (Z : mstate -> Prop), (forall p', exists z, k (MS p' rest cs') = Some z /\ Z z) ->
  exists z, rmatch r (MS p (text ++ rest) cs) k = Some z /\ Z z.

Lemma reaches_seq a b t1 t2 rest cs cs1 cs2 :
  reaches a t1 (t2 ++ rest) cs cs1 -> reaches b t2 rest cs1 cs2 -> reaches (RSeq a b) (t1 ++ t2) rest cs cs2.
Proof.
  intros Ha Hb p k Z Hk. rewrite <- app_assoc, rmatch_seq. apply Ha. intros p'. by apply Hb.
Qed.

Lemma reaches_cons a l t1 t2 rest cs cs1 cs2 :
  reaches a t1 (t2 ++ rest) cs cs1 -> reaches (rseq l) t2 rest cs1 cs2 -> reaches (rseq (a :: l)) (t1 ++ t2) rest cs cs2.
Proof. intros Ha Hb. pose proof (reaches_seq a (rseq l) t1 t2 rest cs cs1 cs2 Ha Hb) as H. by destruct l. Qed.

Lemma reaches_nil rest cs : reaches (rseq []) [] rest cs cs.
Proof. intros p k Z Hk. apply (Hk p). Qed.

Lemma reaches_lit w rest cs : reaches (rlit w) w rest cs cs.
Proof. intros p k Z Hk. rewrite match_lit. apply Hk. Qed.

(** The rest does not go on with a unit of the class. *)
Definition stops_at (f : N -> bool) (rest : str) : Prop := forall c s, rest = c :: s -> f c = false.

Lemma reaches_star f run rest cs : Forall (fun c => f c = true) run -> stops_at f rest -> reaches (RStar (RChar f)) run rest cs cs.
Proof.
  intros Hr Hs p k Z Hk. rewrite rmatch_star_class. cbn [m_post]. rewrite run_length_app by done.
  destruct (Hk (lastp p run)) as (z & Hz & HZ). exists z. split; [| done]. apply first_down_hit. by rewrite advance_lastp.
Qed.

Lemma reaches_space rest cs : stops_at is_space rest -> reaches spaces (js " ") rest cs cs.
Proof. intros H. apply reaches_star; [by repeat constructor | done]. Qed.

Lemma reaches_no_space rest cs : stops_at is_space rest -> reaches spaces [] rest cs cs.
Proof. intros H. by apply reaches_star. Qed.

Lemma reaches_group n r text rest cs cs' : reaches r text rest cs cs' -> reaches (RGroup n r) text rest cs (map_set n text cs').
Proof.
  intros Hr p k Z Hk. cbn [rmatch]. apply Hr. intros p'. destruct (Hk p') as (z & Hz & HZ). exists z. split; [| done]. rewrite <- Hz.
  unfold capture. cbn [m_post m_prev m_caps]. do 3 f_equal. rewrite length_app.
  replace (length text + length rest - length rest)%nat with (length text) by lia. apply take_app_length.
Qed.

Lemma reaches_plus f run rest cs : run <> [] -> Forall (fun c => f c = true) run -> stops_at f rest -> reaches (RPlus (RChar f)) run rest cs cs.
Proof.
  intros Hne Hr Hs. destruct run as [|c run]; [done |]. inv Hr. change (c :: run) with ([c] ++ run). apply (reaches_seq _ _ _ _ _ _ cs).
  - intros p k Z Hk. cbn. rewrite H1. apply Hk.
  - by apply reaches_star.
Qed.

Lemma reaches_opt a text rest cs cs' : reaches a text rest cs cs' -> reaches (ROpt a) text rest cs cs'.
Proof. intros Ha p k Z Hk. destruct (Ha p k Z Hk) as (z & Hz & HZ). exists z. split; [| done]. unfold ROpt. cbn [rmatch]. by rewrite Hz. Qed.

Lemma reaches_skip a rest cs : (forall p k, rmatch a (MS p rest cs) k = None) -> reaches (ROpt a) [] rest cs cs.
Proof. intros Ha p k Z Hk. unfold ROpt. cbn [rmatch]. rewrite app_nil_l, Ha. apply Hk. Qed.

(** An anchored expression that takes the whole text. *)
Lemma reaches_all r text cs : reaches r text [] [] cs -> exists m, rexec (ranch r) text = Some m /\ rr_caps m = cs.
Proof.
  intros Hr. apply rexec_caps. unfold full_caps.
  destruct (Hr None at_end (fun z => m_caps z = cs)) as (z & Hz & HZ).
  - intros p'. exists (MS p' [] cs). done.
  - rewrite app_nil_r in Hz. rewrite Hz. cbn. by rewrite HZ.
Qed.

(** ** The body of a tier *)

(** A price whose text is a number that reads back. *)
Definition price_ok (n : num) : Prop :=
  num_of_str (num_to_str n) = n /\ num_to_str n <> [] /\ Forall (fun c => is_number_char c = true) (num_to_str n) /\ n_or_zero n = n.

(** A variable of the registry with the text of its price, when it has one. *)
Definition summand : Type := nat * str * option str.
Definition summand_text (x : summand) : str := match snd x with Some t => js " + " ++ snd (fst x) ++ js " * " ++ t | None => [] end.
Definition summand_re (x : summand) : regex := opt_cache (fst (fst x)) (snd (fst x)).
Definition summand_cap (cs : list (nat * str)) (x : summand) : list (nat * str) := match snd x with Some t => map_set (fst (fst x)) t cs | None => cs end.
Definition word_name (v : str) : Prop := v <> [] /\ Forall (fun c => is_word c = true) v.
Definition number_text (t : str) : Prop := t <> [] /\ Forall (fun c => is_number_char c = true) t.

Lemma stops_cons f c s : f c = false -> stops_at f (c :: s).
Proof. by intros H d s' [= <- _]. Qed.

Lemma word_stops v rest : word_name v -> stops_at is_space (v ++ rest).
Proof.
  intros [Hne Hw]. destruct v as [|c v]; [done |]. inv Hw. apply stops_cons.
  unfold is_space. unfold is_word, is_digit in H1. lia.
Qed.

Lemma number_stops t rest : number_text t -> stops_at is_space (t ++ rest).
Proof. intros [Hne Hw]. destruct t as [|c t]; [done |]. inv Hw. by apply stops_cons, number_char_clean. Qed.

Lemma summand_hit i v t rest cs : word_name v -> number_text t -> stops_at is_number_char rest ->
  reaches (opt_cache i v) (js " + " ++ v ++ js " * " ++ t) rest cs (map_set i t cs).
Proof.
  intros Hv Ht Hr. apply reaches_opt.
  replace (js " + " ++ v ++ js " * " ++ t) with (js " " ++ js "+" ++ js " " ++ v ++ js " " ++ js "*" ++ js " " ++ t ++ []) by by rewrite app_nil_r.
  assert (Hp : forall c s, is_space c = false -> stops_at is_space (c :: s)) by (intros; by apply stops_cons).
  apply (reaches_cons _ _ _ _ _ _ cs); [by apply reaches_space, Hp |].
  apply (reaches_cons _ _ _ _ _ _ cs); [apply reaches_lit |].
  apply (reaches_cons _ _ _ _ _ _ cs); [apply reaches_space; rewrite <- app_assoc; by apply word_stops |].
  apply (reaches_cons _ _ _ _ _ _ cs); [apply reaches_lit |].
  apply (reaches_cons _ _ _ _ _ _ cs); [by apply reaches_space, Hp |].
  apply (reaches_cons _ _ _ _ _ _ cs); [apply reaches_lit |].
  apply (reaches_cons _ _ _ _ _ _ cs); [apply reaches_space; rewrite <- !app_assoc; by apply number_stops |].
  apply (reaches_cons _ _ _ _ _ _ (map_set i t cs)); [| apply reaches_nil].
  destruct Ht. apply reaches_group, reaches_plus; [done .. | by rewrite app_nil_l].
Qed.

Lemma spaces_skip c s p cs k : is_space c = false -> rmatch spaces (MS p (c :: s) cs) k = k (MS p (c :: s) cs).
Proof.
  intros H. unfold spaces. rewrite rmatch_star_class. cbn [m_post run_length]. rewrite H. cbn [first_down]. rewrite advance_0.
  by destruct (k _).
Qed.

Lemma spaces_one c s p cs k : is_space c = false ->
  rmatch spaces (MS p (32%N :: c :: s) cs) k = match k (MS (Some 32%N) (c :: s) cs) with Some z => Some z | None => k (MS p (32%N :: c :: s) cs) end.
Proof.
  intros H. unfold spaces. rewrite rmatch_star_class. cbn [m_post run_length].
  change (is_space 32) with true. cbv iota. rewrite H. cbn [first_down].
  change (advance 1 (MS p (32%N :: c :: s) cs)) with (MS (Some 32%N) (c :: s) cs).
  change (advance 0 (MS p (32%N :: c :: s) cs)) with (MS p (32%N :: c :: s) cs).
  destruct (k (MS (Some 32%N) (c :: s) cs)); [done |]. by destruct (k _).
Qed.

(** A name that is not the one of the text is missed, also when it is the beginning of it. *)
Lemma name_missed v v' s p cs r q : word_name v -> word_name v' -> v <> v' ->
  rmatch (RSeq (rlit v) (RSeq spaces (RSeq (rlit (js "*")) r))) (MS p (v' ++ 32%N :: s) cs) q = None.
Proof.
  intros [_ Hv] [_ Hv'] Hne. rewrite rmatch_seq, rmatch_lit. cbn [m_post].
  destruct (starts_with (v' ++ 32%N :: s) v) eqn:E; [| done]. apply starts_with_spec in E as [u E].
  apply app_eq_inv in E as [(w & -> & ->) | (w & -> & Hw)].
  - destruct w as [|c w]; [by rewrite app_nil_r in Hne |]. apply Forall_app in Hv' as [_ Hc]. inv Hc.
    rewrite <- !app_assoc, advance_lastp. cbn [app]. assert (Hc : is_space c = false /\ (c <> 42)%N).
    { unfold is_space. unfold is_word, is_digit in H1. lia. }
    rewrite rmatch_seq, spaces_skip by apply Hc. rewrite rmatch_seq. eapply miss_lit_head; [done |]. apply N.eqb_neq. intros <-. by apply Hc.
  - destruct w as [|c w]; [by rewrite app_nil_r in Hne |]. injection Hw as <- _. apply Forall_app in Hv as [_ Hc]. by inv Hc.
Qed.

Lemma summand_miss i v v' s p cs k : word_name v -> word_name v' -> v <> v' ->
  rmatch (rseq [spaces; rlit (js "+"); spaces; rlit v; spaces; rlit (js "*"); spaces; RGroup i number_chars]) (MS p (js " + " ++ v' ++ 32%N :: s) cs) k = None.
Proof.
  intros Hv Hv' Hne. cbn [rseq]. change (js " + " ++ v' ++ 32%N :: s) with (32%N :: 43%N :: (32%N :: v' ++ 32%N :: s)).
  rewrite rmatch_seq, spaces_one by done. rewrite rmatch_seq. change (43%N :: 32%N :: v' ++ 32%N :: s) with (js "+" ++ 32%N :: v' ++ 32%N :: s).
  rewrite match_lit. destruct v' as [|c v']; [by destruct Hv' |].
  assert (Hc : is_space c = false) by (destruct Hv' as [_ Hw]; inv Hw; unfold is_space; unfold is_word, is_digit in *; lia).
  cbn [app]. rewrite rmatch_seq, spaces_one by done.
  rewrite (name_missed v (c :: v') s) by done. rewrite rmatch_seq, miss_lit; [| destruct v as [|d v]; [by destruct Hv |]].
  - rewrite rmatch_seq. by apply miss_lit.
  - cbn. destruct (d =? 32)%N eqn:Ed; [| done]. apply N.eqb_eq in Ed as ->. destruct Hv as [_ Hw]. by inv Hw.
Qed.

Lemma paren_miss i v s p cs k :
  rmatch (rseq [spaces; rlit (js "+"); spaces; rlit v; spaces; rlit (js "*"); spaces; RGroup i number_chars]) (MS p (41%N :: s) cs) k = None.
Proof. cbn [rseq]. rewrite rmatch_seq, spaces_skip by done. rewrite rmatch_seq. by apply miss_lit. Qed.

(** All summands and the closing parenthesis. *)
Definition closed (l : list summand) : str := foldr (fun x s => summand_text x ++ s) (js ")") l.

Lemma closed_cases l : Forall (fun x => word_name (snd (fst x))) l ->
  closed l = js ")" \/ exists v s, v ∈ map (fun x => snd (fst x)) l /\ word_name v /\ closed l = js " + " ++ v ++ 32%N :: s.
Proof.
  induction 1 as [|[[i v] o] l Hv Hl IH]; [by left |]. cbn [closed foldr]. fold (closed l). destruct o as [t|].
  - right. exists v, (js "* " ++ t ++ closed l). split; [left |]. split; [done |]. unfold summand_text. cbn [fst snd].
    rewrite <- !app_assoc. done.
  - destruct IH as [-> | (v' & s & Hin & Hw & ->)]; [by left | right]. exists v', s. split; [by right | done].
Qed.

Lemma closed_stops l rest : stops_at is_number_char (closed l ++ rest).
Proof. induction l as [|[[i v] [t|]] l IH]; [by apply stops_cons | by apply stops_cons | exact IH]. Qed.

Lemma reaches_summands l rest cs :
  Forall (fun x => word_name (snd (fst x))) l -> Forall (fun x => forall t, snd x = Some t -> number_text t) l ->
  NoDup (map (fun x => snd (fst x)) l) ->
  reaches (rseq (map summand_re l ++ [rlit (js ")")])) (closed l) rest cs (foldl summand_cap cs l).
Proof.
  revert cs. induction l as [|[[i v] o] l IH]; intros cs Hw Ht Hn; [apply reaches_lit |]. inv Hw. inv Ht. inv Hn.
  cbn [map app closed foldr foldl]. fold (closed l). unfold summand_re at 1, summand_text, summand_cap. cbn [fst snd].
  destruct o as [t|].
  - apply (reaches_cons _ _ _ _ _ _ (map_set i t cs)); [| by apply IH].
    apply summand_hit; [done | by apply H3 | apply closed_stops].
  - rewrite <- (app_nil_l (closed l)). apply (reaches_cons _ _ _ _ _ _ cs); [| by apply IH].
    apply reaches_skip. intros p k. destruct (closed_cases l H2) as [-> | (v' & s & Hin & Hv' & ->)]; [apply paren_miss |].
    rewrite <- !app_assoc. cbn [app]. apply summand_miss; [done | done |]. intros <-. by apply H5.
Qed.

(** ** A tier *)

Definition price_text (tier : VisualTier) (field : str) : option str :=
  let v := n_or_zero (tier_field tier field) in if n_eqb v n_zero then None else Some (num_to_str v).

Fixpoint summands_from (n : nat) (tier : VisualTier) (m : list (str * str)) : list summand :=
  match m with [] => [] | (field, v) :: m => (n, v, price_text tier field) :: summands_from (S n) tier m end.

Lemma summands_names n tier m : map (fun x => snd (fst x)) (summands_from n tier m) = map snd m.
Proof. revert n. induction m as [|[f v] m IH]; intros n; [done |]. cbn. by rewrite IH. Qed.

Lemma summands_below n tier m cs i : (i < n)%nat -> map_get i (foldl summand_cap cs (summands_from n tier m)) = map_get i cs.
Proof.
  revert n cs. induction m as [|[f v] m IH]; intros n cs Hi; [done |]. cbn [summands_from foldl]. rewrite IH by lia.
  unfold summand_cap. cbn [fst snd]. destruct (price_text tier f); [| done]. rewrite map_get_set_ne; [done | lia].
Qed.

Lemma summands_get n tier m cs i f v : m !! i = Some (f, v) -> (forall j, (n <= j)%nat -> map_get j cs = None) ->
  map_get (n + i)%nat (foldl summand_cap cs (summands_from n tier m)) = price_text tier f.
Proof.
  revert n cs i. induction m as [|[f' v'] m IH]; intros n cs i Hi Hcs; [done |]. cbn [summands_from foldl]. unfold summand_cap at 2. cbn [fst snd].
  destruct i as [|i].
  - injection Hi as -> ->. rewrite Nat.add_0_r, summands_below by lia. destruct (price_text tier f); [by rewrite map_get_set_eq | by apply Hcs].
  - replace (n + S i)%nat with (S n + i)%nat by lia. apply IH; [done |]. intros j Hj.
    destruct (price_text tier f'); [rewrite map_get_set_ne by lia |]; apply Hcs; lia.
Qed.

Lemma join_two sep (a b : str) l : join sep (a :: b :: l) = a ++ sep ++ join sep (b :: l).
Proof. done. Qed.

Definition extra_text (tier : VisualTier) (e : str * str) : option str :=
  let v := n_or_zero (tier_field tier (fst e)) in if n_eqb v n_zero then None else Some (snd e ++ js " * " ++ num_to_str v).

Lemma omap_step {A B} (f : A -> option B) x l : omap f (x :: l) = match f x with Some y => y :: omap f l | None => omap f l end.
Proof. done. Qed.

Lemma closed_join tier m n x :
  x ++ closed (summands_from n tier m) = join (js " + ") (x :: omap (extra_text tier) m) ++ js ")".
Proof.
  revert n x. induction m as [|[f v] m IH]; intros n x; [done |]. cbn [summands_from closed foldr]. fold (closed (summands_from (S n) tier m)).
  rewrite omap_step. unfold summand_text, price_text, extra_text at 1. cbn [fst snd]. cbv zeta. destruct (n_eqb _ _); [apply IH |].
  rewrite join_two. rewrite <- (app_assoc x). f_equal. rewrite <- !(app_assoc (js " + ")). f_equal.
  rewrite <- (IH (S n)). by rewrite <- !app_assoc.
Qed.

(** The text that the editor prints for a tier, with the places of the groups that read it. *)
Definition tier_text (g : nat) (tier : VisualTier) : str :=
  jsq "tier('" ++ vt_label tier ++ jsq "', p * " ++ num_to_str (n_or_zero (vt_input tier)) ++ js " + c * " ++
  num_to_str (n_or_zero (vt_output tier)) ++ closed (summands_from (g + 3) tier BILLING_CACHE_VAR_MAP).

Lemma tier_call_text g tier : tier_call (vt_label tier) tier = tier_text g tier.
Proof.
  unfold tier_call, tier_text, buildTierBodyExpr. cbv zeta. do 2 f_equal.
  change (jsq "', p * ") with (jsq "', " ++ js "p * "). rewrite <- app_assoc. f_equal. cbn [app].
  set (extras := omap _ BILLING_CACHE_VAR_MAP). assert (extras = omap (extra_text tier) BILLING_CACHE_VAR_MAP) as ->.
  { reflexivity. }
  rewrite join_two. rewrite <- !app_assoc. f_equal. f_equal. change (js " + c * ") with (js " + " ++ js "c * "). rewrite <- !app_assoc. f_equal.
  rewrite <- (closed_join tier BILLING_CACHE_VAR_MAP (g + 3)). by rewrite <- app_assoc.
Qed.

(** A name without quotes, and prices whose texts read back; the mode of the cache prices follows from the prices. *)
Definition tier_ok (tier : VisualTier) : Prop :=
  vt_label tier <> [] /\ Forall (fun c => none_of [dquote] c = true) (vt_label tier) /\
  price_ok (vt_input tier) /\ price_ok (vt_output tier) /\
  Forall (fun e => price_ok (tier_field tier (fst e))) BILLING_CACHE_VAR_MAP /\
  vt_cache_mode tier = (if n_ltb n_zero (vt_cache_create_1h tier) then CACHE_MODE_TIMED else CACHE_MODE_GENERIC).

Lemma price_number n : price_ok n -> number_text (num_to_str (n_or_zero n)).
Proof. intros (_ & Hne & Hc & Hz). by rewrite Hz. Qed.

Lemma names_ok : Forall word_name (map snd BILLING_CACHE_VAR_MAP) /\ NoDup (map snd BILLING_CACHE_VAR_MAP).
Proof. split; [repeat constructor; done |]. apply (bool_decide_unpack _). vm_compute. done. Qed.

Definition tier_caps (g : nat) (tier : VisualTier) (cs : list (nat * str)) : list (nat * str) :=
  foldl summand_cap (map_set (g + 2) (num_to_str (n_or_zero (vt_output tier))) (map_set (g + 1) (num_to_str (n_or_zero (vt_input tier)))
    (map_set g (vt_label tier) cs))) (summands_from (g + 3) tier BILLING_CACHE_VAR_MAP).

Lemma reaches_tier_summands n tier rest cs : tier_ok tier ->
  reaches (rseq (optCacheStr n ++ [rlit (js ")")])) (closed (summands_from n tier BILLING_CACHE_VAR_MAP)) rest cs
    (foldl summand_cap cs (summands_from n tier BILLING_CACHE_VAR_MAP)).
Proof.
  intros (_ & _ & _ & _ & Hp & _). destruct names_ok as [Hw Hn].
  assert (map summand_re (summands_from n tier BILLING_CACHE_VAR_MAP) = optCacheStr n) as <-.
  { unfold optCacheStr, cacheVarNames. generalize BILLING_CACHE_VAR_MAP as m. intros m. revert n.
    induction m as [|[f v] m IH]; intros n; [done |]. cbn [map summands_from snd]. rewrite IH. rewrite imap_cons, Nat.add_0_r. f_equal.
    apply imap_ext. intros i x _. cbn. f_equal. lia. }
  rewrite <- (summands_names n tier) in Hw, Hn. apply reaches_summands; [by apply (proj1 (List.Forall_map _ _ _)) in Hw | | done].
  clear Hw Hn. revert n Hp. generalize BILLING_CACHE_VAR_MAP as m. intros m. induction m as [|[f v] m IH]; intros n Hp; [constructor |].
  inv Hp. constructor; [| by apply IH]. cbn. intros t. unfold price_text. cbv zeta. destruct (n_eqb _ _); [done |]. intros [= <-]. by apply price_number.
Qed.

Ltac piece cs := apply (reaches_cons _ _ _ _ _ _ cs).

(** The expression of a tier takes the text of the tier, and only that, whatever follows it. *)
Lemma reaches_tier g tier rest cs : tier_ok tier ->
  reaches (rseq (tier_open g ++ bodyPat (g + 1) ++ [rlit (js ")")])) (tier_text g tier) rest cs (tier_caps g tier cs).
Proof.
  intros Hok. pose proof Hok as (_ & Hq & Hin & Hout & _). apply price_number in Hin, Hout.
  unfold tier_text, tier_caps, tier_open, bodyPat. set (a := num_to_str (n_or_zero (vt_input tier))) in *. set (b := num_to_str (n_or_zero (vt_output tier))) in *.
  set (l := summands_from _ _ _). change (jsq "', p * ") with (jsq "'," ++ js " " ++ js "p" ++ js " " ++ js "*" ++ js " ").
  change (js " + c * ") with (js " " ++ js "+" ++ js " " ++ js "c" ++ js " " ++ js "*" ++ js " "). rewrite <- !app_assoc. cbn [app].
  piece cs; [apply reaches_lit |].
  piece (map_set g (vt_label tier) cs); [apply reaches_group, reaches_star; [done | by apply stops_cons] |].
  set (cs1 := map_set g _ cs). piece cs1; [apply reaches_lit |]. piece cs1; [by apply reaches_space, stops_cons |].
  piece cs1; [apply reaches_lit |]. piece cs1; [by apply reaches_space, stops_cons |]. piece cs1; [apply reaches_lit |].
  piece cs1; [apply reaches_space; rewrite <- app_assoc; by apply number_stops |].
  piece (map_set (g + 1) a cs1); [destruct Hin; apply reaches_group, reaches_plus; [done .. | by apply stops_cons] |].
  set (cs2 := map_set (g + 1) a cs1). piece cs2; [by apply reaches_space, stops_cons |]. piece cs2; [apply reaches_lit |].
  piece cs2; [by apply reaches_space, stops_cons |]. piece cs2; [apply reaches_lit |]. piece cs2; [by apply reaches_space, stops_cons |].
  piece cs2; [apply reaches_lit |]. piece cs2; [apply reaches_space; rewrite <- app_assoc; by apply number_stops |].
  replace (g + 1 + 1)%nat with (g + 2)%nat by lia. replace (g + 1 + 2)%nat with (g + 3)%nat by lia.
  piece (map_set (g + 2) b cs2); [destruct Hout; apply reaches_group, reaches_plus; [done .. | apply closed_stops] |].
  by apply reaches_tier_summands.
Qed.

(** ** Reading a tier *)

Lemma n_eqb_zero v : n_or_zero v = v -> n_eqb v n_zero = true -> v = n_zero.
Proof. destruct v as [[]|[]| |[] m e]; done. Qed.

Lemma read_price tier f : price_ok (tier_field tier f) ->
  n_or_zero (prop_num (num_of_str <$> price_text tier f)) = tier_field tier f /\
  n_ltb n_zero (prop_num (num_of_str <$> price_text tier f)) = n_ltb n_zero (tier_field tier f).
Proof.
  intros (Hr & _ & _ & Hz). unfold price_text. cbv zeta. rewrite Hz. destruct (n_eqb _ _) eqn:E.
  - apply n_eqb_zero in E; [| done]. by rewrite E.
  - unfold prop_num. cbn [fmap option_fmap option_map default from_option]. unfold id. by rewrite Hr.
Qed.

Lemma read_tier g tier m cs : tier_ok tier -> rr_caps m = tier_caps g tier cs -> (forall j, (g <= j)%nat -> map_get j cs = None) ->
  tier_of_match g (vt_conditions tier) m = tier.
Proof.
  intros (_ & _ & (Hi & _ & _ & Hiz) & (Ho & _ & _ & Hoz) & Hp & Hm) Hc Hcs.
  set (cs3 := map_set (g + 2) (num_to_str (n_or_zero (vt_output tier))) (map_set (g + 1) (num_to_str (n_or_zero (vt_input tier))) (map_set g (vt_label tier) cs))).
  assert (Hget : forall i, (i < g + 3)%nat -> cap i m = map_get i cs3).
  { intros i Hlt. unfold cap. rewrite Hc. unfold tier_caps. by rewrite summands_below. }
  assert (Hextra : forall i f v, BILLING_CACHE_VAR_MAP !! i = Some (f, v) -> cap (g + 3 + i) m = price_text tier f).
  { intros i f v Hl. unfold cap. rewrite Hc. unfold tier_caps. eapply summands_get; [done |]. intros j Hj.
    rewrite !map_get_set_ne by lia. apply Hcs. lia. }
  unfold tier_of_match, capd. rewrite !Hget by lia. unfold cs3.
  rewrite map_get_set_eq, (map_get_set_ne (g + 1)), map_get_set_eq, (map_get_set_ne g), (map_get_set_ne g), map_get_set_eq by lia.
  rewrite (Hextra 0%nat (js "cache_read_unit_cost") (js "cr")),
    (Hextra 1%nat (js "cache_create_unit_cost") (js "cc")),
    (Hextra 2%nat (js "cache_create_1h_unit_cost") (js "cc1h")),
    (Hextra 3%nat (js "image_unit_cost") (js "img")),
    (Hextra 4%nat (js "image_output_unit_cost") (js "img_o")),
    (Hextra 5%nat (js "audio_input_unit_cost") (js "ai")),
    (Hextra 6%nat (js "audio_output_unit_cost") (js "ao")) by reflexivity.
  cbn [default from_option]. unfold id at 1 2 3. rewrite Hiz, Hoz. unfold id. rewrite Hi, Ho. unfold normalizeVisualTier, getTierCacheMode.
  cbn [pt_label pt_conditions pt_input pt_output pt_cache_mode pt_cache_read pt_cache_create pt_cache_create_1h pt_image pt_image_output
       pt_audio_input pt_audio_output default from_option]. unfold id.
  assert (Hr : forall i f v, BILLING_CACHE_VAR_MAP !! i = Some (f, v) -> price_ok (tier_field tier f)).
  { intros i f v Hl. rewrite Forall_forall in Hp. exact (Hp (f, v) (list_elem_of_lookup_2 _ _ _ Hl)). }
  assert (Hx : forall i f v, BILLING_CACHE_VAR_MAP !! i = Some (f, v) -> n_or_zero (prop_num (num_of_str <$> price_text tier f)) = tier_field tier f)
    by (intros i f v Hl; by apply read_price, (Hr i f v)).
  assert (H1h : price_ok (tier_field tier (js "cache_create_1h_unit_cost"))) by (apply (Hr 2%nat _ (js "cc1h")); reflexivity).
  rewrite (proj2 (read_price tier _ H1h)).
  rewrite (Hx 0%nat (js "cache_read_unit_cost") (js "cr")),
    (Hx 1%nat (js "cache_create_unit_cost") (js "cc")),
    (Hx 2%nat (js "cache_create_1h_unit_cost") (js "cc1h")),
    (Hx 3%nat (js "image_unit_cost") (js "img")),
    (Hx 4%nat (js "image_output_unit_cost") (js "img_o")),
    (Hx 5%nat (js "audio_input_unit_cost") (js "ai")),
    (Hx 6%nat (js "audio_output_unit_cost") (js "ao")) by reflexivity.
  destruct tier. cbn in Hm. by rewrite Hm.
Qed.

Lemma single_reads tier : tier_ok tier -> exists m, rexec singleRe (tier_text 1 tier) = Some m /\ rr_caps m = tier_caps 1 tier [].
Proof. intros H. apply reaches_all. by apply (reaches_tier 1 tier [] []). Qed.

Lemma body_plain c s : (c =? 118)%N = false -> expr_body (c :: s) = c :: s.
Proof. intros H. unfold expr_body. cbn [rseq]. rewrite (rexec_miss (js "v")); [done |]. change (starts_with (c :: s) (js "v")) with ((118 =? c)%N && true). by rewrite N.eqb_sym, H. Qed.

(** ** Conditions *)

Definition value_of (c : TierConditionInput) : num := match ci_value c with Some (VNum n) => n | _ => n_nan end.
Definition condition_text (c : TierConditionInput) : str := ci_var c ++ js " " ++ ci_op c ++ js " " ++ num_to_str (value_of c).

(** A condition of the editor, with a bound that reads back. *)
Definition condition_ok (c : TierConditionInput) : Prop :=
  ci_var c ∈ [js "p"; js "c"; js "len"] /\ ci_op c ∈ [js "<"; js "<="; js ">"; js ">="] /\ ci_value c = Some (VNum (value_of c)) /\
  num_of_str (num_to_str (value_of c)) = value_of c /\ num_to_str (value_of c) <> [] /\ Forall (fun x => is_unsigned_char x = true) (num_to_str (value_of c)).

(** The same expressions appear with and without capture groups. *)
Inductive wrap := Plain | Grouped (n : nat).
Definition wrapped (w : wrap) (r : regex) : regex := match w with Plain => r | Grouped n => RGroup n r end.
Definition wrap_caps (w : wrap) (text : str) (cs : list (nat * str)) : list (nat * str) := match w with Plain => cs | Grouped n => map_set n text cs end.

Lemma reaches_wrapped w r text rest cs : reaches r text rest cs cs -> reaches (wrapped w r) text rest cs (wrap_caps w text cs).
Proof. destruct w; [done | apply reaches_group]. Qed.

Lemma wrapped_alt w a b r x k : rmatch (RSeq (wrapped w (RAlt a b)) r) x k =
  match rmatch (RSeq (wrapped w a) r) x k with Some y => Some y | None => rmatch (RSeq (wrapped w b) r) x k end.
Proof. by destruct w. Qed.

Lemma reaches_alt_l w a b r text rest cs cs' : reaches (RSeq (wrapped w a) r) text rest cs cs' -> reaches (RSeq (wrapped w (RAlt a b)) r) text rest cs cs'.
Proof. intros H p k Z Hk. destruct (H p k Z Hk) as (z & Hz & HZ). exists z. by rewrite wrapped_alt, Hz. Qed.

Lemma reaches_alt_r w a b r text rest cs cs' : (forall p k, rmatch (RSeq (wrapped w a) r) (MS p (text ++ rest) cs) k = None) ->
  reaches (RSeq (wrapped w b) r) text rest cs cs' -> reaches (RSeq (wrapped w (RAlt a b)) r) text rest cs cs'.
Proof. intros Ha H p k Z Hk. destruct (H p k Z Hk) as (z & Hz & HZ). exists z. by rewrite wrapped_alt, Ha, Hz. Qed.

Lemma wrapped_lit w v r text rest cs cs' : reaches r text rest (wrap_caps w v cs) cs' -> reaches (RSeq (wrapped w (rlit v)) r) (v ++ text) rest cs cs'.
Proof. intros H. eapply reaches_seq; [apply reaches_wrapped, reaches_lit | done]. Qed.

Lemma wrapped_miss w c v r d s p cs k : c <> d -> rmatch (RSeq (wrapped w (rlit (c :: v))) r) (MS p (d :: s) cs) k = None.
Proof.
  intros Hc. apply N.eqb_neq in Hc. destruct w; cbn [wrapped]; rewrite rmatch_seq; [| change (rmatch (RGroup ?n ?a) ?x ?k) with (rmatch a x (fun y => k (capture n x y)))];
    (eapply miss_lit_head; [done | done]).
Qed.

(** A number after an operator. *)
Definition bound_re (w : wrap) : regex := RSeq spaces (wrapped w unsigned_chars).

Lemma unsigned_number t : t <> [] -> Forall (fun x => is_unsigned_char x = true) t -> number_text t.
Proof.
  intros Hne Ht. split; [done |]. eapply Forall_impl; [exact Ht |]. intros c H. unfold is_number_char, is_unsigned_char in *.
  apply orb_prop in H as [H | H]; [by rewrite H |]. unfold one_of in *. apply set_has_spec in H.
  assert (set_has c (js ".eE+-") = true) as -> by (apply set_has_spec; revert H; unfold js; cbn; set_solver). apply orb_true_r.
Qed.

Lemma reaches_bound w t rest cs : t <> [] -> Forall (fun x => is_unsigned_char x = true) t -> stops_at is_unsigned_char rest ->
  reaches (bound_re w) (js " " ++ t) rest cs (wrap_caps w t cs).
Proof.
  intros Hne Ht Hr. apply (reaches_seq _ _ _ _ _ _ cs); [| by apply reaches_wrapped, reaches_plus].
  by apply reaches_space, number_stops, unsigned_number.
Qed.

Lemma equal_sign_missed w wb c s p cs k : rmatch (RSeq (wrapped w (rlit [c])) (bound_re wb)) (MS p (c :: 61%N :: s) cs) k = None.
Proof.
  assert (Hb : forall q cs', rmatch (bound_re wb) (MS q (61%N :: s) cs') k = None).
  { intros q cs'. unfold bound_re. rewrite rmatch_seq, spaces_skip by done.
    destruct wb; cbn [wrapped]; [| change (rmatch (RGroup n unsigned_chars) (MS q (61%N :: s) cs') k) with (rmatch unsigned_chars (MS q (61%N :: s) cs') (fun y => k (capture n (MS q (61%N :: s) cs') y)))];
      unfold unsigned_chars; by rewrite rmatch_plus_class. }
  destruct w; cbn [wrapped]; rewrite rmatch_seq; [| change (rmatch (RGroup n (rlit [c])) ?x ?q) with (rmatch (rlit [c]) x (fun y => q (capture n x y)))];
    change (c :: 61%N :: s) with ([c] ++ 61%N :: s); rewrite match_lit; apply Hb.
Qed.

Lemma reaches_op w wb op t rest cs : op ∈ [js "<"; js "<="; js ">"; js ">="] -> t <> [] -> Forall (fun x => is_unsigned_char x = true) t -> stops_at is_unsigned_char rest ->
  reaches (RSeq (wrapped w tier_op) (bound_re wb)) (op ++ js " " ++ t) rest cs (wrap_caps wb t (wrap_caps w op cs)).
Proof.
  intros Hop Hne Ht Hr. unfold tier_op, lits, ralt. cbn [map].
  assert (Hhit : forall v, reaches (RSeq (wrapped w (rlit v)) (bound_re wb)) (v ++ js " " ++ t) rest cs (wrap_caps wb t (wrap_caps w v cs)))
    by (intros v; by apply wrapped_lit, reaches_bound).
  repeat (apply elem_of_cons in Hop as [-> | Hop]); [| | | | by apply elem_of_nil in Hop].
  - apply reaches_alt_l, Hhit.
  - apply reaches_alt_r; [intros; apply equal_sign_missed |]. apply reaches_alt_l, Hhit.
  - apply reaches_alt_r; [intros; by apply wrapped_miss |]. apply reaches_alt_r; [intros; by apply wrapped_miss |]. apply reaches_alt_l, Hhit.
  - do 2 (apply reaches_alt_r; [intros; by apply wrapped_miss |]). apply reaches_alt_r; [intros; apply equal_sign_missed |]. apply Hhit.
Qed.

Lemma reaches_var w v r text rest cs cs' : v ∈ [js "p"; js "c"; js "len"] -> reaches r text rest (wrap_caps w v cs) cs' ->
  reaches (RSeq (wrapped w tier_var) r) (v ++ text) rest cs cs'.
Proof.
  intros Hv Hr. unfold tier_var, lits, ralt. cbn [map].
  repeat (apply elem_of_cons in Hv as [-> | Hv]); [| | | by apply elem_of_nil in Hv].
  - by apply reaches_alt_l, wrapped_lit.
  - apply reaches_alt_r; [intros; by apply wrapped_miss |]. by apply reaches_alt_l, wrapped_lit.
  - do 2 (apply reaches_alt_r; [intros; by apply wrapped_miss |]). by apply wrapped_lit.
Qed.

Lemma op_stops op rest : op ∈ [js "<"; js "<="; js ">"; js ">="] -> stops_at is_space (op ++ rest).
Proof. intros H. repeat (apply elem_of_cons in H as [-> | H]); [by apply stops_cons .. | by apply elem_of_nil in H]. Qed.

Lemma var_stops v rest : v ∈ [js "p"; js "c"; js "len"] -> stops_at is_space (v ++ rest).
Proof. intros H. repeat (apply elem_of_cons in H as [-> | H]); [by apply stops_cons .. | by apply elem_of_nil in H]. Qed.

Definition condition_with (w1 w2 w3 : wrap) : regex := RSeq (wrapped w1 tier_var) (RSeq spaces (RSeq (wrapped w2 tier_op) (bound_re w3))).
Definition condition_re : regex := condition_with Plain Plain Plain.

Lemma reaches_condition_with w1 w2 w3 c rest cs : condition_ok c -> stops_at is_unsigned_char rest ->
  reaches (condition_with w1 w2 w3) (condition_text c) rest cs
    (wrap_caps w3 (num_to_str (value_of c)) (wrap_caps w2 (ci_op c) (wrap_caps w1 (ci_var c) cs))).
Proof.
  intros (Hv & Ho & _ & _ & Hne & Ht) Hr. apply reaches_var; [done |]. eapply reaches_seq; [| by apply reaches_op].
  apply reaches_space. rewrite <- app_assoc. by apply op_stops.
Qed.

Lemma reaches_condition c rest cs : condition_ok c -> stops_at is_unsigned_char rest -> reaches condition_re (condition_text c) rest cs cs.
Proof. apply (reaches_condition_with Plain Plain Plain). Qed.

(** A repetition that takes the texts one by one and stops. *)
Lemma reaches_repeat r ts rest cs : groups_of r = [] -> Forall (fun t => t <> []) ts ->
  (forall ts1 t ts2, ts = ts1 ++ t :: ts2 -> reaches r t (concat ts2 ++ rest) cs cs) ->
  (forall p k, rmatch r (MS p rest cs) k = None) -> reaches (RStar r) (concat ts) rest cs cs.
Proof.
  intros Hg Hne Hr Hstop p k Z Hk. cbn [rmatch]. cbn [m_post].
  assert (Hclear : forall x, clear_caps r x = x) by (intros [pv s l]; unfold clear_caps; rewrite Hg; cbn [m_caps m_prev m_post]; by rewrite filter_no_groups).
  assert (Hfuel : (length ts <= length (concat ts ++ rest))%nat).
  { rewrite length_app. clear Hr. induction Hne as [|t ts Ht _ IH]; [cbn; lia |]. cbn. rewrite length_app. destruct t; [done |]. cbn. lia. }
  revert Hfuel. generalize (length (concat ts ++ rest)) as fuel. intros fuel. revert fuel p.
  induction Hne as [|t ts Ht Hne IH]; intros fuel p Hfuel.
  - cbn [concat app]. destruct fuel as [|fuel]; cbn [star_loop]; [apply Hk |]. rewrite Hclear, Hstop. apply Hk.
  - destruct fuel as [|fuel]; [cbn in Hfuel; lia |]. cbn [star_loop concat]. rewrite Hclear, <- app_assoc.
    edestruct (Hr [] t ts eq_refl p) as (z & Hz & HZ).
    2: { exists z. by rewrite Hz. }
    intros p'. cbn [m_post]. rewrite (length_app t), (proj2 (Nat.ltb_lt _ _)) by (destruct t; [done | cbn; lia]).
    apply IH; [| cbn in Hfuel; lia]. intros ts1 u ts2 ->. by apply (Hr (t :: ts1)).
Qed.

Definition more_re : regex := RSeq spaces (RSeq (rlit (js "&&")) (RSeq spaces condition_re)).
Definition more_text (c : TierConditionInput) : str := js " && " ++ condition_text c.

Lemma reaches_more c rest cs : condition_ok c -> stops_at is_unsigned_char rest -> reaches more_re (more_text c) rest cs cs.
Proof.
  intros Hc Hr. unfold more_text. change (js " && " ++ condition_text c) with (js " " ++ js "&&" ++ js " " ++ condition_text c).
  apply (reaches_seq _ _ _ _ _ _ cs); [by apply reaches_space, stops_cons |].
  apply (reaches_seq _ _ _ _ _ _ cs); [apply reaches_lit |].
  apply (reaches_seq _ _ _ _ _ _ cs); [| by apply reaches_condition]. apply reaches_space. unfold condition_text.
  rewrite <- app_assoc. apply var_stops, Hc.
Qed.

Definition conditions_text (cs : list TierConditionInput) : str := join (js " && ") (map condition_text cs).

Lemma conditions_more c l : conditions_text (c :: l) = condition_text c ++ concat (map more_text l).
Proof.
  unfold conditions_text. revert c. induction l as [|d l IH]; intros c; [cbn; by rewrite app_nil_r |].
  cbn [map]. rewrite join_two. cbn [concat]. unfold more_text at 1. rewrite <- app_assoc. do 2 f_equal. apply IH.
Qed.

Lemma more_stops l s : stops_at is_unsigned_char (concat (map more_text l) ++ 32%N :: s).
Proof. destruct l; by apply stops_cons. Qed.

(** The conditions of a tier, up to the question mark. *)
Lemma reaches_conditions c l s cs : Forall condition_ok (c :: l) ->
  reaches condGroup (conditions_text (c :: l)) (js " ? " ++ s) cs cs.
Proof.
  intros Hok. inv Hok. rewrite conditions_more. change condGroup with (RSeq condition_re (RStar more_re)).
  apply (reaches_seq _ _ _ _ _ _ cs); [apply reaches_condition; [done | apply more_stops] |].
  apply reaches_repeat; [done | by apply List.Forall_map, Forall_true | |].
  - intros ts1 t ts2 E. assert (exists d, condition_ok d /\ t = more_text d) as (d & Hd & ->).
    { assert (Hin : t ∈ map more_text l) by (rewrite E, elem_of_app, elem_of_cons; by right; left).
      apply list_elem_of_In, in_map_iff in Hin as (d & <- & Hd%list_elem_of_In). exists d. by rewrite Forall_forall in H2; auto. }
    apply reaches_more; [done |]. destruct ts2 as [|t2 ts2]; [by apply stops_cons |].
    assert (exists d2, t2 = more_text d2) as (d2 & ->); [| by apply stops_cons].
    assert (Hin : t2 ∈ map more_text l) by (rewrite E, elem_of_app, !elem_of_cons; by right; right; left).
    apply list_elem_of_In, in_map_iff in Hin as (d2 & <- & _). by exists d2.
  - intros p k. unfold more_re. change (js " ? " ++ s) with (32%N :: 63%N :: 32%N :: s). rewrite rmatch_seq, spaces_one by done.
    rewrite rmatch_seq, miss_lit by done. rewrite rmatch_seq. by apply miss_lit.
Qed.

(** ** The tiers of an expression *)

Definition part_text (tier : VisualTier) : str :=
  match vt_conditions tier with [] => tier_text 2 tier | cs => conditions_text cs ++ js " ? " ++ tier_text 2 tier end.
Definition part_caps (tier : VisualTier) : list (nat * str) :=
  tier_caps 2 tier (match vt_conditions tier with [] => [] | cs => map_set 1%nat (conditions_text cs) [] end).

Lemma reaches_part tier rest : tier_ok tier -> Forall condition_ok (vt_conditions tier) ->
  reaches visualTierRe (part_text tier) rest [] (part_caps tier).
Proof.
  intros Ht Hc. unfold part_text, part_caps. destruct (vt_conditions tier) as [|c l].
  - change (tier_text 2 tier) with ([] ++ tier_text 2 tier). apply (reaches_seq _ _ _ _ _ _ []); [| by apply (reaches_tier 2)].
    apply reaches_skip. reflexivity.
  - rewrite app_assoc. set (cs := map_set 1%nat _ []). apply (reaches_seq _ _ _ _ _ _ cs); [| by apply (reaches_tier 2)].
    apply reaches_opt. change (js " ? ") with (js " " ++ js "?" ++ js " ").
    replace (js " " ++ js "?" ++ js " ") with (js " " ++ js "?" ++ js " " ++ []) by done.
    piece cs; [apply reaches_group; rewrite <- !app_assoc; by apply (reaches_conditions c l (tier_text 2 tier ++ rest)) |].
    piece cs; [by apply reaches_space, stops_cons |]. piece cs; [apply reaches_lit |]. piece cs; [| apply reaches_nil].
    by apply reaches_space, stops_cons.
Qed.

Lemma part_found tier rest p : tier_ok tier -> Forall condition_ok (vt_conditions tier) ->
  exists m p', rexec_from visualTierRe p (part_text tier ++ rest) = Some m /\ rr_caps m = part_caps tier /\ rr_rest m = MS p' rest [].
Proof.
  intros Ht Hc. destruct (reaches_part tier rest Ht Hc p Some (fun z => m_caps z = part_caps tier /\ m_post z = rest)) as (z & Hz & Hcap & Hrest).
  { intros p'. by exists (MS p' rest (part_caps tier)). }
  set (text := part_text tier ++ rest) in *.
  assert (Hat : match_at visualTierRe p text = Some (RR (m_caps z) (take (length text - length (m_post z)) text) (MS (m_prev z) (m_post z) [])))
    by (unfold match_at; by rewrite Hz).
  exists (RR (m_caps z) (take (length text - length (m_post z)) text) (MS (m_prev z) (m_post z) [])), (m_prev z).
  split; [destruct text; cbn [rexec_from]; by rewrite Hat |]. split; [done |]. cbn. by rewrite Hrest.
Qed.

(** Nothing is found in a separator. *)
Lemma separator_skipped p s : rexec_from visualTierRe p (js " : " ++ s) = rexec_from visualTierRe (Some 32%N) s.
Proof. reflexivity. Qed.

Definition tiers_text (tiers : list VisualTier) : str := join (js " : ") (map part_text tiers).

Lemma tiers_two t u l : tiers_text (t :: u :: l) = part_text t ++ js " : " ++ tiers_text (u :: l).
Proof. done. Qed.

Lemma tiers_found tiers fuel p : Forall tier_ok tiers -> Forall (fun t => Forall condition_ok (vt_conditions t)) tiers -> (length tiers < fuel)%nat ->
  Forall2 (fun t m => rr_caps m = part_caps t) tiers (rexec_all_from fuel visualTierRe p (tiers_text tiers)).
Proof.
  intros Ht. revert fuel p. induction Ht as [|t tiers Ht Hts IH]; intros fuel p Hc Hf.
  - destruct fuel as [|fuel]; [lia |]. constructor.
  - destruct fuel as [|fuel]; [cbn in Hf; lia |]. inv Hc. cbn [rexec_all_from].
    destruct tiers as [|u tiers].
    + unfold tiers_text. cbn [map join]. rewrite <- (app_nil_r (part_text t)).
      destruct (part_found t [] p Ht H1) as (m & p' & -> & Hm & Hrest). rewrite Hrest. cbn [m_prev m_post].
      constructor; [done |]. destruct fuel; constructor.
    + rewrite tiers_two.
      destruct (part_found t (js " : " ++ tiers_text (u :: tiers)) p Ht H1) as (m & p' & -> & Hm & Hrest). rewrite Hrest. cbn [m_prev m_post].
      constructor; [done |]. specialize (IH fuel (Some 32%N) H2 ltac:(cbn in *; lia)). destruct fuel as [|fuel]; [cbn in Hf; lia |].
      cbn [rexec_all_from] in *. by rewrite separator_skipped.
Qed.

(** ** Reading the conditions *)

Definition and_re : regex := RSeq spaces (RSeq (rlit (js "&&")) spaces).

(** A text in which nothing is found: not blank, and without an ampersand. *)
Lemma and_missed w s p cs k : Exists (fun c => is_space c = false) w -> 38%N ∉ w -> rmatch and_re (MS p (w ++ s) cs) k = None.
Proof.
  intros Hw Ha. unfold and_re, spaces at 1. rewrite rmatch_seq, rmatch_star_class. cbn [m_post]. apply first_down_None. intros i Hi.
  rewrite rmatch_seq, rmatch_lit.
  assert (Hlt : (i < length w)%nat).
  { clear Ha. revert i Hi. induction Hw as [c w Hc | c w Hw IH]; intros i Hi; cbn [app run_length] in Hi.
    - rewrite Hc in Hi. cbn. lia.
    - destruct (is_space c); [| cbn; lia]. destruct i as [|i]; [cbn; lia |]. cbn. specialize (IH i ltac:(lia)). lia. }
  destruct (starts_with _ _) eqn:E; [| done]. exfalso. apply Ha. apply starts_with_spec in E as [r E].
  unfold advance in E. cbn [m_post] in E. destruct (lookup_lt_is_Some_2 w i Hlt) as [d Hd].
  assert (Hl : (w ++ s) !! i = Some d) by (by rewrite lookup_app_l).
  apply drop_S in Hl. rewrite Hl in E. change (js "&&" ++ r) with (38%N :: 38%N :: r) in E. injection E as -> _.
  by eapply list_elem_of_lookup_2.
Qed.

Lemma and_found s p cs : stops_at is_space s ->
  exists p', rmatch and_re (MS p (js " && " ++ s) cs) Some = Some (MS p' s cs).
Proof.
  intros Hs. assert (H : reaches and_re (js " && ") s cs cs).
  { change (js " && ") with (js " " ++ js "&&" ++ js " "). apply (reaches_seq _ _ _ _ _ _ cs); [by apply reaches_space, stops_cons |].
    apply (reaches_seq _ _ _ _ _ _ cs); [apply reaches_lit | by apply reaches_space]. }
  destruct (H p Some (fun z => exists p', z = MS p' s cs)) as (z & Hz & p' & ->); [intros p'; eexists; eauto |]. by exists p'.
Qed.

(** A piece between ampersands: it ends with a unit that is no space, and has no ampersand. *)
Definition piece_ok (w : str) : Prop := 38%N ∉ w /\ exists u c, w = u ++ [c] /\ is_space c = false.

Lemma piece_visible w : piece_ok w -> Exists (fun c => is_space c = false) w.
Proof. intros (_ & u & c & -> & Hc). apply Exists_app. right. by constructor. Qed.

Lemma piece_tail c w : piece_ok (c :: w) -> w = [] \/ piece_ok w.
Proof.
  intros (Ha & u & d & E & Hd). destruct u as [|x u]; [injection E as _ ->; by left | injection E as -> ->; right].
  split; [set_solver | by exists u, d].
Qed.

Lemma and_scan w s p : w = [] \/ piece_ok w -> stops_at is_space s ->
  exists m p', rexec_from and_re p (w ++ js " && " ++ s) = Some m /\ rr_text m = js " && " /\ rr_rest m = MS p' s [].
Proof.
  revert p. induction w as [|c w IH]; intros p Hw Hs.
  - destruct (and_found s p [] Hs) as (p' & Hm). cbn [app].
    exists (RR [] (js " && ") (MS p' s [])), p'. split; [| done].
    assert (Hat : match_at and_re p (js " && " ++ s) = Some (RR [] (js " && ") (MS p' s []))).
    { unfold match_at. rewrite Hm. cbn [m_caps m_post m_prev]. rewrite length_app.
      replace (length (js " && ") + length s - length s)%nat with (length (js " && ")) by lia. by rewrite take_app_length. }
    change (js " && " ++ s) with (32%N :: 38%N :: 38%N :: 32%N :: s) in *. cbn [rexec_from]. by rewrite Hat.
  - destruct Hw as [Hw | Hw]; [done |]. pose proof (piece_visible _ Hw) as Hv. pose proof Hw as [Ha _].
    destruct (IH (Some c) (piece_tail c w Hw) Hs) as (m & p' & Hm & Hrest). exists m, p'. split; [| done].
    cbn [app rexec_from]. unfold match_at. change (c :: w ++ js " && " ++ s) with ((c :: w) ++ js " && " ++ s).
    by rewrite and_missed.
Qed.

Lemma and_none w p : w = [] \/ piece_ok w -> rexec_from and_re p w = None.
Proof.
  revert p. induction w as [|c w IH]; intros p Hw; [done |]. destruct Hw as [Hw | Hw]; [done |].
  cbn [rexec_from]. unfold match_at. rewrite <- (app_nil_r (c :: w)) at 1. pose proof (piece_visible _ Hw). pose proof Hw as [Ha _].
  rewrite and_missed by done. apply IH. by apply piece_tail in Hw.
Qed.

Lemma and_split ws fuel p : Forall piece_ok ws -> Forall (fun w => stops_at is_space (w ++ [])) ws -> ws <> [] -> (length ws <= fuel)%nat ->
  rsplit_from fuel and_re p (join (js " && ") ws) = ws.
Proof.
  intros Hw. revert fuel p. induction Hw as [|w ws Hw Hws IH]; intros fuel p Hs Hne Hf; [done |]. inv Hs.
  destruct fuel as [|fuel]; [cbn in Hf; lia |]. cbn [rsplit_from]. destruct ws as [|v ws].
  - cbn [join]. rewrite and_none by by right. done.
  - rewrite join_two. assert (Hv : stops_at is_space (join (js " && ") (v :: ws))).
    { inv H2. destruct v as [|c v]; [inv Hws; by destruct H2 as (_ & [] & ? & [=] & _) |]. intros d s E. apply (H3 d (v ++ [])).
      destruct ws; cbn in E; injection E as -> _; done. }
    destruct (and_scan w (join (js " && ") (v :: ws)) p (or_intror Hw) Hv) as (m & p' & -> & Ht & Hr). rewrite Ht, Hr. cbn [m_prev m_post].
    rewrite IH by (done || cbn in *; lia). f_equal. rewrite !length_app.
    replace (length w + (length (js " && ") + length (join (js " && ") (v :: ws))) - length (js " && ") - length (join (js " && ") (v :: ws)))%nat with (length w) by lia.
    apply take_app_length.
Qed.

Lemma number_no_amp t : Forall (fun x => is_number_char x = true) t -> 38%N ∉ t.
Proof. intros H Hin. rewrite Forall_forall in H. by specialize (H _ Hin). Qed.

Lemma condition_piece c : condition_ok c -> piece_ok (condition_text c) /\ stops_at is_space (condition_text c ++ []).
Proof.
  intros (Hv & Ho & _ & _ & Hne & Ht). destruct (unsigned_number _ Hne Ht) as [_ Hn]. unfold condition_text. split; [split |].
  - rewrite !elem_of_app. pose proof (number_no_amp _ Hn) as Hnum.
    assert (38%N ∉ ci_var c) by (repeat (apply elem_of_cons in Hv as [-> | Hv]); [set_solver .. | by apply elem_of_nil in Hv]).
    assert (38%N ∉ ci_op c) by (repeat (apply elem_of_cons in Ho as [-> | Ho]); [set_solver .. | by apply elem_of_nil in Ho]).
    assert (38%N ∉ js " ") by set_solver. tauto.
  - destruct (exists_last Hne) as (u & x & E). exists (ci_var c ++ js " " ++ ci_op c ++ js " " ++ u), x. rewrite E, <- !app_assoc. split; [done |].
    rewrite E in Hn. apply Forall_app in Hn as [_ Hx]. inv Hx. by apply number_char_clean.
  - rewrite <- app_assoc. by apply var_stops.
Qed.

Lemma piece_trimmed w : piece_ok w -> stops_at is_space (w ++ []) -> trimmed w.
Proof.
  intros (_ & u & c & -> & Hc) Hs. split.
  - destruct u as [|d u]; cbn; [done | by apply (Hs d ((u ++ [c]) ++ []))].
  - by rewrite last_snoc.
Qed.

(** A condition is read back. *)
Lemma condition_reads c : condition_ok c -> exists m, rexec tier_cond_re (trim (condition_text c)) = Some m /\
  cap 1 m = Some (ci_var c) /\ cap 2 m = Some (ci_op c) /\ cap 3 m = Some (num_to_str (value_of c)).
Proof.
  intros Hc. destruct (condition_piece c Hc) as [Hp Hs]. rewrite trimmed_trim by by apply piece_trimmed.
  destruct (reaches_all (condition_with (Grouped 1) (Grouped 2) (Grouped 3)) (condition_text c)
    (map_set 3%nat (num_to_str (value_of c)) (map_set 2%nat (ci_op c) (map_set 1%nat (ci_var c) [])))) as (m & Hm & Hcaps).
  { apply (reaches_condition_with (Grouped 1) (Grouped 2) (Grouped 3)); [done | by intros ? ? [=]]. }
  exists m. split; [exact Hm |]. unfold cap. by rewrite Hcaps.
Qed.

Lemma join_count (sep : str) (l : list str) : sep <> [] -> (length l <= S (length (join sep l)))%nat.
Proof.
  intros Hs. induction l as [|x l IH]; [cbn; lia |]. destruct l as [|y l]; [cbn; lia |]. rewrite join_two, !length_app.
  cbn [length] in *. destruct sep; [done |]. cbn [length]. lia.
Qed.

Lemma conditions_truthy l : Forall condition_ok l -> truthy (conditions_text l) = match l with [] => false | _ => true end.
Proof.
  intros Hl. destruct l as [|c l]; [done |]. apply truthy_true. rewrite conditions_more. unfold condition_text. inv Hl. destruct H1 as (Hv & _).
  repeat (apply elem_of_cons in Hv as [-> | Hv]); [done .. | by apply elem_of_nil in Hv].
Qed.

Lemma conditions_read l : Forall condition_ok l -> input_conditions (conditions_text l) = l.
Proof.
  intros Hl. unfold input_conditions, parse_tier_conditions. destruct l as [|c l]; [done |].
  rewrite conditions_truthy by done. cbn [negb]. unfold rsplit. change (rseq [spaces; rlit (js "&&"); spaces]) with and_re. unfold conditions_text at 2.
  rewrite and_split; [| apply List.Forall_map; eapply Forall_impl; [exact Hl |]; intros d Hd; by apply condition_piece .. | done |].
  - induction Hl as [|d l' Hd Hl' IH]; [done |]. cbn [map]. rewrite omap_step. destruct (condition_reads d Hd) as (m & -> & H1 & H2 & H3).
    cbn [mbind option_bind]. rewrite H1, H2, H3. cbn [map tc_var tc_op tc_value default from_option]. unfold id. f_equal; [| exact IH].
    destruct Hd as (_ & _ & Hval & Hr & _). rewrite Hr. destruct d. cbn in *. by rewrite Hval.
  - unfold conditions_text. apply join_count. done.
Qed.

(** ** A configuration *)

(** A configuration of the editor: its tiers have names without quotes and numbers that read back. *)
Definition config_ok (cfg : VisualConfig) : Prop :=
  vc_tiers cfg <> [] /\ Forall tier_ok (vc_tiers cfg) /\ Forall (fun t => Forall condition_ok (vt_conditions t)) (vc_tiers cfg).

(** A tier without its conditions. *)
Definition bare_tier (t : VisualTier) : VisualTier :=
  mkVTier (vt_label t) [] (vt_input t) (vt_output t) (vt_cache_mode t) (vt_cache_read t) (vt_cache_create t) (vt_cache_create_1h t)
    (vt_image t) (vt_image_output t) (vt_audio_input t) (vt_audio_output t).

(** Several tiers, the last of which catches what the others leave: it has no conditions. *)
Fixpoint catching_last (tiers : list VisualTier) : list VisualTier :=
  match tiers with
  | [] => []
  | [last] => [bare_tier last]
  | tier :: rest => tier :: catching_last rest
  end.

(** What the expression of a configuration says: everything, but for conditions of the last of several tiers. *)
Definition kept_config (cfg : VisualConfig) : VisualConfig :=
  match vc_tiers cfg with [_] => cfg | tiers => mkVConfig (catching_last tiers) end.

Lemma conditions_printed l : Forall condition_ok l -> buildConditionStr l = conditions_text l.
Proof.
  intros Hl. unfold buildConditionStr, conditions_text. f_equal. induction Hl as [|c l Hc Hl IH]; [done |]. rewrite omap_step, IH.
  destruct Hc as (Hv & Ho & Hval & _). rewrite Hval.
  assert (truthy (ci_var c) = true) as -> by (repeat (apply elem_of_cons in Hv as [-> | Hv]); [done .. | by apply elem_of_nil in Hv]).
  assert (truthy (ci_op c) = true) as -> by (repeat (apply elem_of_cons in Ho as [-> | Ho]); [done .. | by apply elem_of_nil in Ho]).
  cbn. unfold condition_text. by rewrite !app_assoc.
Qed.

Lemma label_kept tier d : tier_ok tier -> str_or (vt_label tier) d = vt_label tier.
Proof. intros (H & _). unfold str_or. by rewrite (proj2 (truthy_true _) H). Qed.


Lemma tier_printed tier d : tier_ok tier -> Forall condition_ok (vt_conditions tier) ->
  let body := tier_call (str_or (vt_label tier) d) tier in
  let cond := buildConditionStr (vt_conditions tier) in
  body = tier_text 2 tier /\ (vt_conditions tier <> [] -> truthy cond = true /\ cond ++ js " ? " ++ body = part_text tier).
Proof.
  intros Ht Hc. cbv zeta. rewrite label_kept, conditions_printed, conditions_truthy, (tier_call_text 2) by done. split; [done |].
  unfold part_text. by destruct (vt_conditions tier).
Qed.

Lemma bare_tier_ok tier : tier_ok tier -> tier_ok (bare_tier tier).
Proof. by destruct tier. Qed.

Lemma catching_ok tiers : Forall tier_ok tiers -> Forall tier_ok (catching_last tiers).
Proof. induction 1 as [|t [|u l] Ht Hl IH]; [done | by constructor; [apply bare_tier_ok |] | by constructor]. Qed.

Lemma catching_conditions tiers : Forall (fun t => Forall condition_ok (vt_conditions t)) tiers ->
  Forall (fun t => Forall condition_ok (vt_conditions t)) (catching_last tiers).
Proof. induction 1 as [|t [|u l] Ht Hl IH]; [done | by constructor; [by destruct t |] | by constructor]. Qed.

Lemma catching_length tiers : length (catching_last tiers) = length tiers.
Proof. induction tiers as [|t [|u l] IH]; [done | done |]. cbn [catching_last length] in *. by rewrite IH. Qed.

Lemma catching_lookup tiers i : catching_last tiers !! i =
  (fun t => if (i <? length tiers - 1)%nat then t else bare_tier t) <$> tiers !! i.
Proof.
  revert i. induction tiers as [|t [|u l] IH]; intros i; [done | by destruct i |]. destruct i as [|i]; [done |].
  change (catching_last (t :: u :: l) !! S i) with (catching_last (u :: l) !! i). rewrite IH. cbn [lookup list_lookup length].
  replace (S i <? S (S (length l)) - 1)%nat with (i <? S (length l) - 1)%nat; [done |].
  apply eq_true_iff_eq. rewrite !Nat.ltb_lt. lia.
Qed.

Lemma catching_idem tiers : catching_last (catching_last tiers) = catching_last tiers.
Proof.
  apply list_eq. intros i. rewrite !catching_lookup, catching_length. destruct (tiers !! i) as [x|]; [| done].
  cbn [fmap option_fmap option_map]. f_equal. by destruct (_ <? _)%nat.
Qed.

(** The text of a configuration. *)
Definition config_text (tiers : list VisualTier) : str :=
  match tiers with
  | [t] => part_text t ++ (match vt_conditions t with [] => [] | _ => js " : " ++ NO_PRICE end)
  | _ => tiers_text (catching_last tiers)
  end.

Lemma one_printed t : tier_ok t -> Forall condition_ok (vt_conditions t) ->
  generateExprFromVisualConfig (Some (mkVConfig [t])) = config_text [t].
Proof.
  intros Ht Hc. destruct (tier_printed t (js "default") Ht Hc) as [Hb Hp]. cbv zeta in *. unfold generateExprFromVisualConfig, config_text. cbv zeta.
  destruct (vt_conditions t) as [|c l] eqn:E.
  - rewrite Hb, app_nil_r. unfold part_text. by rewrite E.
  - destruct (Hp ltac:(done)) as [-> <-]. by rewrite <- !app_assoc.
Qed.

Lemma part_printed x d : tier_ok x -> Forall condition_ok (vt_conditions x) ->
  (if truthy (buildConditionStr (vt_conditions x)) then buildConditionStr (vt_conditions x) ++ js " ? " ++ tier_call (str_or (vt_label x) d) x
   else tier_call (str_or (vt_label x) d) x) = part_text x.
Proof.
  intros Hx Hc. destruct (tier_printed x d Hx Hc) as [Hb Hp]. cbv zeta in *. destruct (vt_conditions x) as [|c l] eqn:E.
  - cbn. rewrite Hb. unfold part_text. by rewrite E.
  - by destruct (Hp ltac:(done)) as [-> ->].
Qed.

Lemma config_printed cfg : config_ok cfg -> generateExprFromVisualConfig (Some cfg) = config_text (vc_tiers cfg).
Proof.
  intros (Hne & Ht & Hc). destruct cfg as [[|t [|u tiers]]]; [done | inv Ht; inv Hc; by apply one_printed |]. cbn [vc_tiers] in *.
  unfold generateExprFromVisualConfig, config_text, tiers_text. f_equal. set (l := t :: u :: tiers) in *. apply list_eq. intros i.
  rewrite list_lookup_imap. change (map part_text (catching_last l)) with (part_text <$> catching_last l). rewrite list_lookup_fmap, catching_lookup.
  destruct (l !! i) as [x|] eqn:Ex; [| done]. cbn [fmap option_fmap option_map]. f_equal.
  rewrite Forall_forall in Ht, Hc. pose proof (list_elem_of_lookup_2 _ _ _ Ex) as Hx. cbv zeta. destruct (_ <? _)%nat; cbn [andb].
  - apply part_printed; auto.
  - rewrite label_kept, (tier_call_text 2) by auto. by destruct x.
Qed.

Lemma kept_printed cfg : config_ok cfg -> generateExprFromVisualConfig (Some (kept_config cfg)) = generateExprFromVisualConfig (Some cfg).
Proof.
  intros Hok. destruct cfg as [tiers]. unfold kept_config. cbn [vc_tiers]. destruct tiers as [|t [|u tiers]]; [by destruct Hok | done |].
  pose proof Hok as (_ & Ht & Hc). rewrite !config_printed; [| done |].
  - pose proof (catching_length (t :: u :: tiers)) as Hlen. pose proof (catching_idem (t :: u :: tiers)) as Hid. cbn [vc_tiers].
    unfold config_text. destruct (catching_last (t :: u :: tiers)) as [|v [|w l]]; [done | done | by rewrite Hid].
  - split; [done |]. split; [by apply catching_ok | by apply catching_conditions].
Qed.

Lemma tier_normal tier : tier_ok tier -> normalizeVisualTier (partial_tier tier) = tier.
Proof.
  intros (_ & _ & _ & _ & Hp & _). unfold normalizeVisualTier, partial_tier, prop_num.
  assert (Hz : forall i f v, BILLING_CACHE_VAR_MAP !! i = Some (f, v) -> n_or_zero (tier_field tier f) = tier_field tier f).
  { intros i f v Hl. rewrite Forall_forall in Hp. apply (Hp (f, v) (list_elem_of_lookup_2 _ _ _ Hl)). }
  assert (H0 : n_or_zero (vt_cache_read tier) = vt_cache_read tier) by exact (Hz 0%nat (js "cache_read_unit_cost") (js "cr") ltac:(reflexivity)).
  assert (H1 : n_or_zero (vt_cache_create tier) = vt_cache_create tier) by exact (Hz 1%nat (js "cache_create_unit_cost") (js "cc") ltac:(reflexivity)).
  assert (H2 : n_or_zero (vt_cache_create_1h tier) = vt_cache_create_1h tier) by exact (Hz 2%nat (js "cache_create_1h_unit_cost") (js "cc1h") ltac:(reflexivity)).
  assert (H3 : n_or_zero (vt_image tier) = vt_image tier) by exact (Hz 3%nat (js "image_unit_cost") (js "img") ltac:(reflexivity)).
  assert (H4 : n_or_zero (vt_image_output tier) = vt_image_output tier) by exact (Hz 4%nat (js "image_output_unit_cost") (js "img_o") ltac:(reflexivity)).
  assert (H5 : n_or_zero (vt_audio_input tier) = vt_audio_input tier) by exact (Hz 5%nat (js "audio_input_unit_cost") (js "ai") ltac:(reflexivity)).
  assert (H6 : n_or_zero (vt_audio_output tier) = vt_audio_output tier) by exact (Hz 6%nat (js "audio_output_unit_cost") (js "ao") ltac:(reflexivity)).
  clear Hz Hp. destruct tier. cbn in *. unfold id. by rewrite H0, H1, H2, H3, H4, H5, H6.
Qed.

Lemma tiers_normal tiers : Forall tier_ok tiers -> tiers <> [] -> normalizeVisualConfig (Some (mkVConfig tiers)) = mkVConfig tiers.
Proof.
  intros Ht Hne. destruct tiers as [|t tiers]; [done |]. unfold normalizeVisualConfig. cbn [vc_tiers]. f_equal. clear Hne.
  induction Ht as [|u l Hu _ IH]; [done |]. cbn [map]. by rewrite tier_normal, IH.
Qed.

Lemma part_read tier m : tier_ok tier -> Forall condition_ok (vt_conditions tier) -> rr_caps m = part_caps tier ->
  tier_of_match 2 (input_conditions (capd 1 m)) m = tier.
Proof.
  intros Ht Hc Hm. assert (Hcond : input_conditions (capd 1 m) = vt_conditions tier).
  { unfold capd, cap. rewrite Hm. unfold part_caps, tier_caps. rewrite summands_below by lia. rewrite !map_get_set_ne by lia.
    destruct (vt_conditions tier) as [|c l] eqn:E; [done |]. rewrite map_get_set_eq. cbn [default from_option]. unfold id. by apply conditions_read. }
  rewrite Hcond. eapply read_tier; [done | exact Hm |]. intros j Hj. destruct (vt_conditions tier); [done |]. rewrite map_get_set_ne by lia. done.
Qed.

Lemma part_length tier : (1 <= length (part_text tier))%nat.
Proof.
  unfold part_text. change (tier_text 2 tier) with (116%N :: tail (tier_text 2 tier)).
  destruct (vt_conditions tier); [cbn [length]; lia |]. rewrite !length_app. cbn [length]. lia.
Qed.

Lemma tiers_count tiers : (length tiers <= length (tiers_text tiers))%nat.
Proof.
  induction tiers as [|t tiers IH]; [cbn; lia |]. pose proof (part_length t). destruct tiers as [|u tiers].
  - unfold tiers_text. cbn [map join length]. lia.
  - rewrite tiers_two, !length_app. cbn [length] in *. lia.
Qed.

Lemma first_unit tier rest : Forall condition_ok (vt_conditions tier) -> vt_conditions tier <> [] ->
  exists c s, part_text tier ++ rest = c :: s /\ (c =? 118)%N = false /\ (c =? 116)%N = false.
Proof.
  intros Hc Hne. unfold part_text. destruct (vt_conditions tier) as [|c l]; [done |]. inv Hc. destruct H1 as (Hv & _).
  rewrite conditions_more. unfold condition_text. rewrite <- !app_assoc.
  repeat (apply elem_of_cons in Hv as [-> | Hv]); [by eexists _, _ .. | by apply elem_of_nil in Hv].
Qed.

Lemma no_quote_in (f : N -> bool) c : f dquote = false -> f c = true -> none_of [dquote] c = true.
Proof.
  intros Hq Hc. unfold none_of, set_has. apply negb_true_iff, bool_decide_eq_false. intros ->%list_elem_of_singleton. congruence.
Qed.

(** A text with quotes after the name of its first tier is not one of a single tier. *)
Lemma single_missed t rest : tier_ok t -> dquote ∈ rest -> rexec singleRe (tier_text 1 t ++ rest) = None.
Proof.
  intros (_ & Hlabel & _) Hq. destruct (rexec singleRe (tier_text 1 t ++ rest)) as [m|] eqn:E; [| done]. exfalso.
  apply (f_equal (fmap rr_caps)) in E. unfold singleRe in E. rewrite rexec_anch in E. unfold full_caps in E.
  destruct (rmatch _ _ at_end) as [z|] eqn:Ez; [| done]. clear E.
  change (rseq (tier_open 1 ++ bodyPat 2 ++ [rlit (js ")")])) with
    (RSeq (rlit (jsq "tier('")) (RSeq (RGroup 1 (RStar (RChar (none_of [dquote])))) (RSeq (rlit (jsq "',")) (rseq (spaces :: bodyPat 2 ++ [rlit (js ")")]))))) in Ez.
  unfold tier_text in Ez. rewrite <- !app_assoc, rmatch_seq, match_lit, rmatch_seq in Ez.
  apply (rmatch_consumes (fun c => none_of [dquote] c = true)) in Ez as (u & y & Ey & Hu & Ez); [| by intros c Hc].
  cbn [m_post] in Ey. rewrite rmatch_seq, rmatch_lit in Ez. destruct (starts_with (m_post y) _) eqn:Es; [| done].
  apply starts_with_spec in Es as [v Ev]. rewrite Ev in Ey.
  apply (rmatch_consumes (fun c => none_of [dquote] c = true)) in Ez as (w & y' & Ey' & Hw & Ez).
  2: { cbn. repeat split; intros c; by apply no_quote_in. }
  unfold at_end in Ez. destruct (m_post y') eqn:Ey2; [| done]. unfold advance in Ey'. cbn [m_post] in Ey'. rewrite Ev, app_nil_r in Ey'.
  rewrite drop_app_length in Ey'. subst w.
  assert (Hsame : u = vt_label t).
  { clear -Ey Hu Hlabel. revert u Ey Hu. induction Hlabel as [|c l Hc _ IH]; intros [|d u] Ey Hu; [done | | |].
    - cbn in Ey. injection Ey as <- _. by inv Hu.
    - cbn in Ey. by injection Ey as -> _.
    - cbn in Ey. injection Ey as <- Ey. inv Hu. f_equal. by apply IH. }
  subst u. apply app_inv_head in Ey. change (jsq "', p * ") with (jsq "'," ++ js " p * ") in Ey. rewrite <- app_assoc in Ey. apply app_inv_head in Ey. subst v.
  rewrite Forall_forall in Hw. specialize (Hw dquote). rewrite !elem_of_app in Hw. by specialize (Hw ltac:(tauto)).
Qed.

Lemma first_missed t rest : tier_ok t -> Forall condition_ok (vt_conditions t) -> (vt_conditions t = [] -> dquote ∈ rest) ->
  rexec singleRe (part_text t ++ rest) = None /\ expr_body (part_text t ++ rest) = part_text t ++ rest.
Proof.
  intros Ht Hc Hq. destruct (vt_conditions t) as [|c l] eqn:E.
  - assert (part_text t = tier_text 1 t) as -> by (unfold part_text; rewrite E; by rewrite <- !tier_call_text).
    split; [by apply single_missed, Hq |]. change (tier_text 1 t ++ rest) with (116%N :: tail (tier_text 1 t ++ rest)). by apply body_plain.
  - destruct (first_unit t rest) as (d & s & Hs & Hv & Ht'); [by rewrite E .. |]. rewrite Hs. split; [| by apply body_plain].
    unfold singleRe, tier_open. cbn [app rseq]. apply rexec_miss. change (jsq "tier('") with (116%N :: tail (jsq "tier('")). cbn [starts_with].
    by rewrite N.eqb_sym, Ht'.
Qed.

(** What the reader finds in a text that says no more than its tiers. *)
Lemma found_config tiers text : Forall tier_ok tiers -> Forall (fun t => Forall condition_ok (vt_conditions t)) tiers -> tiers <> [] ->
  rexec singleRe text = None -> expr_body text = text -> generateExprFromVisualConfig (Some (mkVConfig tiers)) = text ->
  Forall2 (fun t m => rr_caps m = part_caps t) tiers (rexec_all visualTierRe text) -> tryParseVisualConfig (Some text) = Some (mkVConfig tiers).
Proof.
  intros Ht Hc Hne Hs Hb Hg HF. destruct text as [|c s]; [by change (rexec_all visualTierRe []) with ([] : list rresult) in HF; inv HF |]. unfold tryParseVisualConfig. rewrite Hb, Hs.
  assert (Hread : map (fun m => tier_of_match 2 (input_conditions (capd 1 m)) m) (rexec_all visualTierRe (c :: s)) = tiers).
  { clear Hs Hb Hg Hne. revert Ht Hc. induction HF as [|t m tiers ms Hm _ IH]; intros Ht Hc; [done |]. inv Ht. inv Hc. cbn [map]. by rewrite (part_read t m), IH. }
  rewrite Hread. destruct tiers as [|t tiers]; [done |]. cbv zeta. rewrite tiers_normal, Hg by done.
  unfold str_eqb. by rewrite bool_decide_eq_true_2.
Qed.

Lemma one_found t : tier_ok t -> Forall condition_ok (vt_conditions t) -> vt_conditions t <> [] ->
  Forall2 (fun t m => rr_caps m = part_caps t) [t] (rexec_all visualTierRe (part_text t ++ js " : " ++ NO_PRICE)).
Proof.
  intros Ht Hc Hne. unfold rexec_all. set (text := part_text t ++ js " : " ++ NO_PRICE). cbn [rexec_all_from].
  destruct (part_found t (js " : " ++ NO_PRICE) None Ht Hc) as (m & p' & Hm & Hcap & Hrest). fold text in Hm. rewrite Hm, Hrest. cbn [m_prev m_post].
  constructor; [done |]. destruct (length text); [constructor |]. cbn [rexec_all_from]. rewrite separator_skipped. constructor.
Qed.

Lemma one_read t : tier_ok t -> Forall condition_ok (vt_conditions t) -> tryParseVisualConfig (Some (config_text [t])) = Some (mkVConfig [t]).
Proof.
  intros Ht Hc. pose proof (one_printed t Ht Hc) as Hg. unfold config_text in *. destruct (vt_conditions t) as [|c l] eqn:E.
  - rewrite app_nil_r. assert (part_text t = tier_text 1 t) as -> by (unfold part_text; rewrite E; by rewrite <- !tier_call_text).
    destruct (single_reads t Ht) as (m & Hm & Hcaps).
    unfold tryParseVisualConfig. change (tier_text 1 t) with (116%N :: tail (tier_text 1 t)) in *. rewrite body_plain by done. rewrite Hm.
    f_equal. rewrite <- E. rewrite (read_tier 1 t m []); [by apply tiers_normal; [constructor |] | done | done | done].
  - rewrite <- E in Hc. destruct (first_missed t (js " : " ++ NO_PRICE) Ht Hc) as [Hs Hb]; [by rewrite E |].
    apply found_config; [by constructor .. | done | done | done | done | apply one_found; [done .. | by rewrite E]].
Qed.

Lemma quoted_tiers t l : dquote ∈ tiers_text (t :: l).
Proof.
  assert (dquote ∈ part_text t).
  { assert (dquote ∈ tier_text 2 t) by (unfold tier_text; apply elem_of_app; left; vm_compute; repeat (apply elem_of_cons; (by left) || right)).
    unfold part_text. destruct (vt_conditions t); [done |]. rewrite !elem_of_app. tauto. }
  destruct l; [done |]. rewrite tiers_two, elem_of_app. tauto.
Qed.

Lemma several_read t u tiers : config_ok (mkVConfig (t :: u :: tiers)) ->
  tryParseVisualConfig (Some (tiers_text (catching_last (t :: u :: tiers)))) = Some (mkVConfig (catching_last (t :: u :: tiers))).
Proof.
  intros Hok. pose proof (kept_printed _ Hok) as Hg. rewrite (config_printed _ Hok) in Hg. destruct Hok as (_ & Ht & Hc). cbn [vc_tiers] in *.
  unfold kept_config, config_text in Hg. cbn [vc_tiers] in Hg. apply catching_ok in Ht. apply catching_conditions in Hc.
  change (catching_last (t :: u :: tiers)) with (t :: catching_last (u :: tiers)) in *.
  pose proof (catching_length (u :: tiers)) as Hlen. destruct (catching_last (u :: tiers)) as [|v l] eqn:E; [done |].
  destruct (first_missed t (js " : " ++ tiers_text (v :: l))) as [Hs Hb]; [by inv Ht | by inv Hc | intros _; rewrite elem_of_app; right; apply quoted_tiers |].
  apply found_config; [done | done | done | exact Hs | exact Hb | exact Hg |]. unfold rexec_all. apply tiers_found; [done | done |].
  pose proof (tiers_count (t :: v :: l)). lia.
Qed.

Lemma config_read_back cfg : config_ok cfg -> tryParseVisualConfig (Some (generateExprFromVisualConfig (Some cfg))) = Some (kept_config cfg).
Proof.
  intros Hok. rewrite config_printed by done. pose proof Hok as (Hne & Ht & Hc). destruct cfg as [[|t [|u tiers]]]; [done | |].
  - inv Ht. inv Hc. by apply one_read.
  - by apply several_read.
Qed.

(** C7: the expression that the visual editor prints for its tiers is read back as these tiers - names, conditions and prices of
    each - without the conditions of the last one when there are several: that one is charged for what the others leave, and its
    conditions are not printed. For tiers with names, none of which has a quote, with numbers that read back from their texts,
    complete conditions, and a mode of the cache prices that the prices show. Printing the tiers read back gives the same text. *)
Theorem visual_config_roundtrip (cfg : VisualConfig) : config_ok cfg ->
  let expr := generateExprFromVisualConfig (Some cfg) in
  tryParseVisualConfig (Some expr) = Some (kept_config cfg) /\ generateExprFromVisualConfig (Some (kept_config cfg)) = expr /\
  (forall t, vc_tiers cfg = [t] -> kept_config cfg = cfg) /\
  (forall front last, front <> [] -> vc_tiers cfg = front ++ [last] -> vc_tiers (kept_config cfg) = front ++ [bare_tier last]).
Proof.
  intros H expr. split; [by apply config_read_back |]. split; [by apply kept_printed |].
  destruct cfg as [tiers]. unfold kept_config. cbn [vc_tiers]. split; [by intros t -> |].
  intros front last Hne ->. destruct front as [|f front]; [done |]. clear. cbn [app]. revert f. induction front as [|g front IH]; intros f; [done |].
  specialize (IH g). cbn [app] in *. cbn [vc_tiers catching_last] in *. f_equal. destruct (front ++ [last]) eqn:E; [by destruct front | done].
Qed.

#[export] Instance price_ok_dec n : Decision (price_ok n).
Proof. unfold price_ok. solve_decision. Defined.

#[export] Instance tier_ok_dec tier : Decision (tier_ok tier).
Proof. unfold tier_ok. apply and_dec; [solve_decision |]. apply and_dec; [apply _ |]. do 2 (apply and_dec; [apply _ |]). apply and_dec; [apply _ |]. destruct (vt_cache_mode tier), (n_ltb _ _); (by left) || (by right). Defined.

#[export] Instance condition_ok_dec c : Decision (condition_ok c).
Proof.
  unfold condition_ok. do 2 (apply and_dec; [apply _ |]). apply and_dec; [| apply _].
  unfold value_of. destruct (ci_value c) as [[n|s]|]; [by left | right; by intros [=] | right; by intros [=]].
Defined.

Lemma demo_config_ok : config_ok demo_config.
Proof. split; [done |]. split; apply (bool_decide_unpack _); vm_compute; exact I. Qed.

(** A condition on the last tier. *)
Definition capped_config : VisualConfig :=
  mkVConfig [demo_tier (js "base") [mkCondInput (js "len") (js "<=") (Some (VNum (lit "200000")))] "2.5" "15" "0.25";
             demo_tier (js "long") [mkCondInput (js "len") (js ">") (Some (VNum (lit "200000")))] "5" "22.5" "0"].

Lemma visual_config_roundtrip_witness :
  tryParseVisualConfig (Some (generateExprFromVisualConfig (Some demo_config))) = Some demo_config /\
  tryParseVisualConfig (Some (generateExprFromVisualConfig (Some capped_config))) = Some demo_config.
Proof.
  split; [apply (visual_config_roundtrip demo_config demo_config_ok) |]. apply (visual_config_roundtrip capped_config).
  split; [done |]. split; apply (bool_decide_unpack _); vm_compute; exact I.
Defined.
