(* ===== verification/TieredEditor.v ===== *)
(** * Tiered price editor

    Model of [features/system-settings/models/tiered-pricing-editor.tsx]: the number fields that
    keep a draft, the cards of tiers and of request rules, the preset templates, and the editor
    itself.  The editor keeps its own copy of the expression - as tiers and rules or as one text -
    while the panel around it keeps the two texts that are saved; four effects keep the copies
    together.  A commit is one rendering with the effects it runs; what they set is seen by the
    next one.  The cost estimator evaluates the expression as program code and is left out. *)
From S2P Require Import Prelude Number Regex Json BillingExpr TierExpr.

(** ** Numbers that are being typed *)

Definition unitCostToPrice (uc : CondValue) : num := n_or_zero (match uc with VNum n => n | VStr s => num_of_str s end).
Definition priceToUnitCost (price : CondValue) : num := unitCostToPrice price.

Definition formatNumberDraft (value : CondValue) : str :=
  match value with
  | VStr s => s
  | VNum n => if isFinite n then num_to_str n else js "0"
  end.

Definition parseNumberDraft (value : str) : num :=
  if truthy (trim value) then let next := num_of_str value in if isFinite next then next else n_zero else n_zero.

Definition isZeroDraft (value : str) : bool := truthy (trim value) && n_eqb (parseNumberDraft value) n_zero.

(** A field with the value that its parent keeps. *)
Record DraftField := mkDraft { df_draft : str; df_focused : bool; df_value : CondValue }.

Definition open_draft (value : CondValue) : DraftField := mkDraft (formatNumberDraft value) false value.

(** The effect on [focused] and [value]. *)
Definition draft_effect (f : DraftField) : DraftField :=
  if df_focused f then f else mkDraft (formatNumberDraft (df_value f)) false (df_value f).

(** [store] is what the parent makes of a number. *)
Definition draft_change (store : num -> CondValue) (text : str) (f : DraftField) : DraftField :=
  draft_effect (mkDraft text (df_focused f) (store (parseNumberDraft text))).
Definition draft_focus (f : DraftField) : DraftField := mkDraft (df_draft f) true (df_value f).
(** Whether the text is selected on focus and on a click. *)
Definition draft_selected (selectZeroOnFocus : bool) (f : DraftField) : bool := selectZeroOnFocus && isZeroDraft (df_draft f).
Definition draft_blur (store : num -> CondValue) (f : DraftField) : DraftField :=
  let normalized := parseNumberDraft (df_draft f) in
  draft_effect (mkDraft (num_to_str normalized) false (store normalized)).
(** The parent gives another value. *)
Definition draft_given (value : CondValue) (f : DraftField) : DraftField := draft_effect (mkDraft (df_draft f) (df_focused f) value).

(** ** A card of a tier *)

Definition CACHE_PRICE_VARS : list BillingVar := List.filter (fun v => bool_decide (bv_group v = Some (js "cache"))) BILLING_EXTRA_VARS.
Definition MEDIA_PRICE_VARS : list BillingVar := List.filter (fun v => bool_decide (bv_group v = Some (js "media"))) BILLING_EXTRA_VARS.

Definition CONDITION_INPUT_OPTIONS : list (str * str) :=
  [(js "len", js "Full input length"); (js "p", js "Billable input tokens"); (js "c", js "Billable output tokens")].
Definition OPS : list str := [js "<"; js "<="; js ">"; js ">="].

Definition condition_label (c : TierConditionInput) : str := default (ci_var c) (map_get (ci_var c) CONDITION_INPUT_OPTIONS).

Definition with_tier_conditions (tier : VisualTier) (conditions : list TierConditionInput) : VisualTier :=
  mkVTier (vt_label tier) conditions (vt_input tier) (vt_output tier) (vt_cache_mode tier) (vt_cache_read tier)
    (vt_cache_create tier) (vt_cache_create_1h tier) (vt_image tier) (vt_image_output tier) (vt_audio_input tier)
    (vt_audio_output tier).

Definition set_condition_var (v : str) (c : TierConditionInput) : TierConditionInput := mkCondInput v (ci_op c) (ci_value c).
Definition set_condition_op (op : str) (c : TierConditionInput) : TierConditionInput := mkCondInput (ci_var c) op (ci_value c).
Definition set_condition_value (n : num) (c : TierConditionInput) : TierConditionInput := mkCondInput (ci_var c) (ci_op c) (Some (VNum n)).

Definition handleTierConditionChange (tier : VisualTier) (conditionIndex : nat) (next : TierConditionInput) : VisualTier :=
  with_tier_conditions tier (<[conditionIndex := next]> (vt_conditions tier)).
Definition handleTierConditionRemove (tier : VisualTier) (conditionIndex : nat) : VisualTier :=
  with_tier_conditions tier (delete conditionIndex (vt_conditions tier)).

Definition set_tier_label (tier : VisualTier) (label : str) : VisualTier :=
  mkVTier label (vt_conditions tier) (vt_input tier) (vt_output tier) (vt_cache_mode tier) (vt_cache_read tier)
    (vt_cache_create tier) (vt_cache_create_1h tier) (vt_image tier) (vt_image_output tier) (vt_audio_input tier)
    (vt_audio_output tier).

(** The prices of a tier, by the order of the registry. *)
Inductive TierPriceField := FInput | FOutput | FCacheRead | FCacheCreate | FCacheCreate1h | FImage | FImageOutput | FAudioInput | FAudioOutput.
#[export] Instance TierPriceField_eq_dec : EqDecision TierPriceField.
Proof. solve_decision. Defined.

Definition handleTierPriceChange (tier : VisualTier) (field : TierPriceField) (value : num) : VisualTier :=
  let at_ f old := if decide (field = f) then value else old in
  mkVTier (vt_label tier) (vt_conditions tier) (at_ FInput (vt_input tier)) (at_ FOutput (vt_output tier)) (vt_cache_mode tier)
    (at_ FCacheRead (vt_cache_read tier)) (at_ FCacheCreate (vt_cache_create tier)) (at_ FCacheCreate1h (vt_cache_create_1h tier))
    (at_ FImage (vt_image tier)) (at_ FImageOutput (vt_image_output tier)) (at_ FAudioInput (vt_audio_input tier))
    (at_ FAudioOutput (vt_audio_output tier)).

Definition handleCacheModeChange (tier : VisualTier) (mode : CacheMode) : VisualTier :=
  mkVTier (vt_label tier) (vt_conditions tier) (vt_input tier) (vt_output tier) mode (vt_cache_read tier) (vt_cache_create tier)
    (match mode with CACHE_MODE_TIMED => vt_cache_create_1h tier | CACHE_MODE_GENERIC => n_zero end)
    (vt_image tier) (vt_image_output tier) (vt_audio_input tier) (vt_audio_output tier).

Definition hasMediaPricing (tier : VisualTier) : bool :=
  existsb (fun v => n_ltb n_zero (unitCostToPrice (VNum (tier_field tier (default [] (bv_tierField v)))))) MEDIA_PRICE_VARS.

(** The cache prices that a card shows. *)
Definition shown_cache_vars (tier : VisualTier) : list BillingVar :=
  List.filter (fun v => match vt_cache_mode tier with CACHE_MODE_TIMED => true | _ => negb (str_eqb (bv_key v) (js "cc1h")) end)
    CACHE_PRICE_VARS.

(** ** The list of tiers *)

Definition default_condition (v : str) : TierConditionInput := mkCondInput v (js "<") (Some (VNum (n_of_Z 200000))).

Definition new_tier (count : nat) : VisualTier :=
  normalizeVisualTier (mkPTier (Some (js "tier_" ++ show_N (N.of_nat (count + 1)))) (Some []) (Some n_zero) (Some n_zero)
    None None None None None None None None).

Definition handleTierChange (index : nat) (next : VisualTier) (config : VisualConfig) : VisualConfig :=
  mkVConfig (<[index := normalizeVisualTier (partial_tier next)]> (vc_tiers config)).

(** The last tier gets a condition before another one is added. *)
Definition bounded_last (tiers : list VisualTier) : list VisualTier :=
  alter (fun tier => match vt_conditions tier with
    | [] => normalizeVisualTier (partial_tier (with_tier_conditions tier [default_condition (js "len")]))
    | _ => tier end) (length tiers - 1) tiers.
Definition handleAddTier (config : VisualConfig) : VisualConfig :=
  mkVConfig (bounded_last (vc_tiers config) ++ [new_tier (length (vc_tiers config))]).

Definition handleRemoveTier (index : nat) (config : VisualConfig) : VisualConfig :=
  match delete index (vc_tiers config) with
  | [] => config
  | tiers => mkVConfig tiers
  end.

Definition handleAddTierCondition (index : nat) (config : VisualConfig) : VisualConfig :=
  mkVConfig (alter (fun tier =>
    if (2 <=? length (vt_conditions tier))%nat then tier
    else
      let nextVar := if set_has (js "len") (map ci_var (vt_conditions tier)) then js "c" else js "len" in
      with_tier_conditions tier (vt_conditions tier ++ [default_condition nextVar])) index (vc_tiers config)).

(** ** Request rules *)

Definition getMatchLabel (mode : str) : str :=
  default mode (map_get mode
    [(MATCH_EQ, js "Equals"); (MATCH_CONTAINS, js "Contains"); (MATCH_EXISTS, js "Exists"); (MATCH_GT, js "Greater than");
     (MATCH_GTE, js "Greater than or equal"); (MATCH_LT, js "Less than"); (MATCH_LTE, js "Less than or equal");
     (MATCH_RANGE, js "Overnight range")]).
Definition getTimeFuncLabel (timeFunc : str) : str :=
  default timeFunc (map_get timeFunc
    [(js "hour", js "Hour of day"); (js "minute", js "Minute"); (js "weekday", js "Weekday"); (js "month", js "Month number");
     (js "day", js "Day of month")]).

Definition handleSourceChange (source : RuleSource) : RequestCondition :=
  match source with
  | RTime => CTime createEmptyTimeCondition
  | RPH s => CPH (mkPH s (ph_path createEmptyCondition) (ph_mode createEmptyCondition) (ph_value createEmptyCondition))
  end.

Definition handleRuleModeChange (mode : str) (condition : RequestCondition) : RequestCondition :=
  match condition with
  | CTime c => CTime (mkTime (tm_timeFunc c) (tm_timezone c) mode (tm_value c) (tm_rangeStart c) (tm_rangeEnd c))
  | CPH c => CPH (mkPH (ph_source c) (ph_path c) mode (ph_value c))
  end.

(** The other fields of a condition; a number of a time condition is stored as its text. *)
Inductive condition_edit :=
  | ESource (s : RuleSource) | EMatch (mode : str) | EPath (path : str) | EValue (value : str)
  | ETimeFunc (f : str) | ETimezone (tz : str) | ETimeValue (n : num) | ERangeStart (n : num) | ERangeEnd (n : num).

Definition edit_condition (e : condition_edit) (condition : RequestCondition) : RequestCondition :=
  match e, condition with
  | ESource s, _ => handleSourceChange s
  | EMatch mode, _ => handleRuleModeChange mode condition
  | EPath path, CPH c => CPH (mkPH (ph_source c) path (ph_mode c) (ph_value c))
  | EValue value, CPH c => CPH (mkPH (ph_source c) (ph_path c) (ph_mode c) value)
  | ETimeFunc f, CTime c => CTime (mkTime f (tm_timezone c) (tm_mode c) (tm_value c) (tm_rangeStart c) (tm_rangeEnd c))
  | ETimezone tz, CTime c => CTime (mkTime (tm_timeFunc c) tz (tm_mode c) (tm_value c) (tm_rangeStart c) (tm_rangeEnd c))
  | ETimeValue n, CTime c => CTime (mkTime (tm_timeFunc c) (tm_timezone c) (tm_mode c) (num_to_str n) (tm_rangeStart c) (tm_rangeEnd c))
  | ERangeStart n, CTime c => CTime (mkTime (tm_timeFunc c) (tm_timezone c) (tm_mode c) (tm_value c) (num_to_str n) (tm_rangeEnd c))
  | ERangeEnd n, CTime c => CTime (mkTime (tm_timeFunc c) (tm_timezone c) (tm_mode c) (tm_value c) (tm_rangeStart c) (num_to_str n))
  | _, _ => condition
  end.

Inductive group_edit := ECondition (i : nat) (e : condition_edit) | EAddRuleCondition (timeMode : bool) | ERemoveCondition (i : nat) | EMultiplier (n : num).

Definition edit_group (e : group_edit) (group : RequestRuleGroup) : RequestRuleGroup :=
  let conditions := g_conditions group in
  match e with
  | ECondition i e => mkGroup (alter (edit_condition e) i conditions) (g_multiplier group)
  | EAddRuleCondition timeMode =>
      mkGroup (conditions ++ [if timeMode then CTime createEmptyTimeCondition else CPH createEmptyCondition]) (g_multiplier group)
  | ERemoveCondition i => mkGroup (delete i conditions) (g_multiplier group)
  | EMultiplier n => mkGroup conditions (num_to_str n)
  end.

(** ** Preset templates *)

Record Preset := mkPreset { ps_key : str; ps_label : str; ps_expr : str; ps_requestRules : list RequestRuleGroup }.

Definition plain_preset (key label expr : string) : Preset := mkPreset (js key) (js label) (jsq expr) [].
Definition opus_expr : string := "tier('base', p * 5 + c * 25 + cr * 0.5 + cc * 6.25 + cc1h * 10)".
Definition gpt_expr : string :=
  "len <= 272000 ? tier('standard', p * 2.5 + c * 15 + cr * 0.25) : tier('long_context', p * 5 + c * 22.5 + cr * 0.5)".
Definition tier_rule (value multiplier : string) : RequestRuleGroup :=
  mkGroup [CPH (mkPH SOURCE_PARAM (js "service_tier") MATCH_EQ (js value))] (js multiplier).
Definition weekday_rule (day : string) : RequestRuleGroup :=
  mkGroup [CTime (mkTime (js "weekday") (js "Asia/Shanghai") MATCH_EQ (js day) [] [])] (js "0.8").

Definition PRESET_GROUPS : list (str * list Preset) := [
  (js "Fixed price",
   [plain_preset "flat" "Flat" "tier('base', p * 2 + c * 4)";
    plain_preset "claude-opus" "Claude Opus 4.6" opus_expr;
    plain_preset "gpt-5.4" "GPT-5.4" gpt_expr]);
  (js "Tiered",
   [plain_preset "claude-sonnet" "Claude Sonnet 4.5"
      "len <= 200000 ? tier('standard', p * 3 + c * 15 + cr * 0.3 + cc * 3.75 + cc1h * 6) : tier('long_context', p * 6 + c * 22.5 + cr * 0.6 + cc * 7.5 + cc1h * 12)";
    plain_preset "qwen3-max" "Qwen3 Max"
      "len <= 32000 ? tier('short', p * 1.2 + c * 6 + cr * 0.24 + cc * 1.5) : len <= 128000 ? tier('mid', p * 2.4 + c * 12 + cr * 0.48 + cc * 3) : tier('long', p * 3 + c * 15 + cr * 0.6 + cc * 3.75)";
    plain_preset "glm-4.5-air" "GLM-4.5 Air"
      "len < 32000 && c < 200 ? tier('short_output', p * 0.8 + c * 2 + cr * 0.16) : len < 32000 && c >= 200 ? tier('long_output', p * 0.8 + c * 6 + cr * 0.16) : tier('mid_context', p * 1.2 + c * 8 + cr * 0.24)";
    plain_preset "doubao-seed-1.8" "Doubao Seed 1.8"
      "len <= 32000 && c <= 200 ? tier('discount', p * 0.8 + c * 2 + cr * 0.16 + cc * 0.17) : len <= 32000 ? tier('short', p * 0.8 + c * 8 + cr * 0.16 + cc * 0.17) : len <= 128000 ? tier('mid', p * 1.2 + c * 16 + cr * 0.16 + cc * 0.17) : tier('long', p * 2.4 + c * 24 + cr * 0.16 + cc * 0.17)"]);
  (js "Multimodal",
   [plain_preset "gpt-image-1-mini" "GPT Image 1 Mini" "tier('base', p * 2 + c * 8 + img * 2.5)";
    plain_preset "gemini-2.5-flash" "Gemini 2.5 Flash" "tier('base', p * 0.3 + c * 2.5 + cr * 0.03 + ai * 1.0)";
    plain_preset "gemini-3-pro-image" "Gemini 3 Pro Image" "tier('base', p * 2 + c * 12 + img_o * 120)";
    plain_preset "qwen3-omni-flash" "Qwen3 Omni Flash" "tier('base', p * 0.43 + c * 3.06 + img * 0.78 + ai * 3.81 + ao * 15.11)"]);
  (js "Request rule",
   [mkPreset (js "claude-opus-fast") (js "Claude Opus 4.6 Fast") (jsq opus_expr)
      [mkGroup [CPH (mkPH SOURCE_HEADER (js "anthropic-beta") MATCH_CONTAINS (js "fast-mode-2026-02-01"))] (js "6")];
    mkPreset (js "gpt-5.4-tiers") (js "GPT-5.4 Priority/Flex") (jsq gpt_expr) [tier_rule "priority" "2"; tier_rule "flex" "0.5"]]);
  (js "Time-based",
   [mkPreset (js "night-discount") (js "Night discount (50%)") (jsq "tier('base', p * 3 + c * 15)")
      [mkGroup [CTime (mkTime (js "hour") (js "Asia/Shanghai") MATCH_RANGE [] (js "21") (js "6"))] (js "0.5")];
    mkPreset (js "weekend-discount") (js "Weekend discount (80%)") (jsq "tier('base', p * 3 + c * 15)")
      [weekday_rule "0"; weekday_rule "6"]])].

Definition visible_presets (expanded : bool) : list (str * list Preset) := if expanded then PRESET_GROUPS else take 2 PRESET_GROUPS.

(** ** The editor *)

Inductive EditorMode := Visual | Raw.
#[export] Instance EditorMode_eq_dec : EqDecision EditorMode.
Proof. solve_decision. Defined.

(** The state of the editor, the texts of the panel around it ([te_expr], [te_rules]) with the
    name of the model, and the dependencies that the first two effects have seen. *)
Record Tiered := mkTiered {
  te_mode : EditorMode; te_config : option VisualConfig; te_raw : str; te_groups : list RequestRuleGroup;
  te_initRef : bool; te_expr : str; te_rules : str; te_model : str;
  te_seen : option (str * str); te_seenModel : option str
}.

Definition found_groups (o : outcome (list RequestRuleGroup)) : list RequestRuleGroup :=
  match o with Found gs => gs | _ => [] end.

(** The initial state; a parser that throws takes the page down. *)
Definition mount_editor (expr rules model : str) : option Tiered :=
  match tryParseRequestRuleExpr rules with
  | Throws => None
  | parsed => Some (mkTiered Visual (tryParseVisualConfig (Some expr)) (combineBillingExpr expr rules) (found_groups parsed)
                      false expr rules model None None)
  end.

Definition canUseVisualRules (rules : str) : bool :=
  negb (truthy rules) || match tryParseRequestRuleExpr rules with Null => false | _ => true end.

(** [effectiveExpr]; [None] when the parser throws. *)
Definition effectiveExpr (s : Tiered) : option str :=
  match te_mode s with
  | Visual => Some (generateExprFromVisualConfig (te_config s))
  | Raw => match splitBillingExprAndRequestRules (te_raw s) with Found sp => Some (sp_billingExpr sp) | _ => None end
  end.

(** What rendering computes from the rules of the panel throws with its parser. *)
Definition rules_render (rules : str) : bool :=
  negb (truthy rules) || match tryParseRequestRuleExpr rules with Throws => false | _ => true end.

Definition set_panel (s : Tiered) (expr rules : str) : Tiered :=
  mkTiered (te_mode s) (te_config s) (te_raw s) (te_groups s) (te_initRef s) expr rules (te_model s) (te_seen s) (te_seenModel s).
Definition set_rules (s : Tiered) (rules : str) : Tiered := set_panel s (te_expr s) rules.

(** The effect that reads the texts of the panel. *)
Definition init_effect (s : Tiered) : Tiered :=
  let seen := Some (te_expr s, te_rules s) in
  let keep := mkTiered (te_mode s) (te_config s) (te_raw s) (te_groups s) (te_initRef s) (te_expr s) (te_rules s) (te_model s) seen (te_seenModel s) in
  if decide (te_seen s = seen) then s
  else if te_initRef s then keep
  else
    let parsed := tryParseVisualConfig (Some (te_expr s)) in
    let '(mode, config) := match parsed with
      | Some c => (Visual, Some c)
      | None => if truthy (te_expr s) then (Raw, None) else (te_mode s, Some createDefaultVisualConfig)
      end in
    mkTiered mode config (combineBillingExpr (te_expr s) (te_rules s)) (found_groups (tryParseRequestRuleExpr (te_rules s)))
      true (te_expr s) (te_rules s) (te_model s) seen (te_seenModel s).

(** The effect on the name of the model. *)
Definition model_effect (s : Tiered) : Tiered :=
  if decide (te_seenModel s = Some (te_model s)) then s
  else mkTiered (te_mode s) (te_config s) (te_raw s) (te_groups s) false (te_expr s) (te_rules s) (te_model s) (te_seen s) (Some (te_model s)).

(** One rendering and its effects.  The last two effects work with the values that were rendered;
    run again on values they have seen they do nothing. *)
Definition render (s : Tiered) : option Tiered :=
  if rules_render (te_rules s) then
    expr ← effectiveExpr s;
    let rules := match te_mode s with Visual => buildRequestRuleExpr (te_groups s) | Raw => te_rules s end in
    Some (set_panel (model_effect (init_effect s)) expr rules)
  else None.

Fixpoint renders (n : nat) (s : Tiered) : option Tiered :=
  match n with O => Some s | S n => s ← render s; renders n s end.

(** ** Handlers *)

Definition set_visual_config (s : Tiered) (config : option VisualConfig) : Tiered :=
  mkTiered (te_mode s) config (te_raw s) (te_groups s) (te_initRef s) (te_expr s) (te_rules s) (te_model s) (te_seen s) (te_seenModel s).
Definition handleVisualChange (s : Tiered) (next : VisualConfig) : Tiered := set_visual_config s (Some next).
Definition handleRuleGroupsChange (s : Tiered) (next : list RequestRuleGroup) : Tiered :=
  mkTiered (te_mode s) (te_config s) (te_raw s) next (te_initRef s) (te_expr s) (te_rules s) (te_model s) (te_seen s) (te_seenModel s).
Definition set_raw (s : Tiered) (raw : str) : Tiered :=
  mkTiered (te_mode s) (te_config s) raw (te_groups s) (te_initRef s) (te_expr s) (te_rules s) (te_model s) (te_seen s) (te_seenModel s).
Definition set_mode (s : Tiered) (mode : EditorMode) : Tiered :=
  mkTiered mode (te_config s) (te_raw s) (te_groups s) (te_initRef s) (te_expr s) (te_rules s) (te_model s) (te_seen s) (te_seenModel s).

Definition handleRawChange (s : Tiered) (value : str) : Tiered :=
  match splitBillingExprAndRequestRules value with
  | Found sp => set_rules (set_raw s value) (sp_requestRuleExpr sp)
  | _ => set_raw s value
  end.

(** An error in a handler ends it; what it set before stays. *)
Definition handleEditorModeChange (s : Tiered) (next : EditorMode) : Tiered :=
  match next with
  | Visual =>
      match splitBillingExprAndRequestRules (te_raw s) with
      | Found sp =>
          let s := set_visual_config s (Some (default createDefaultVisualConfig (tryParseVisualConfig (Some (sp_billingExpr sp))))) in
          match tryParseRequestRuleExpr (sp_requestRuleExpr sp) with
          | Throws => s
          | parsed => set_mode (set_rules (handleRuleGroupsChange s (found_groups parsed)) (sp_requestRuleExpr sp)) Visual
          end
      | _ => s
      end
  | Raw =>
      let expr := generateExprFromVisualConfig (te_config s) in
      set_mode (set_raw s (str_or (combineBillingExpr expr (buildRequestRuleExpr (te_groups s))) expr)) Raw
  end.

Definition applyPreset (s : Tiered) (preset : Preset) : Tiered :=
  let ruleExpr := buildRequestRuleExpr (ps_requestRules preset) in
  let s := set_raw s (str_or (combineBillingExpr (ps_expr preset) ruleExpr) (ps_expr preset)) in
  let s := match tryParseVisualConfig (Some (ps_expr preset)) with
    | Some parsed => set_mode (set_visual_config s (Some parsed)) Visual
    | None => set_visual_config (set_mode s Raw) None
    end in
  set_rules (handleRuleGroupsChange s (ps_requestRules preset)) ruleExpr.

(** What a user can do.  Tiers and rules are edited in the visual mode, rules only when those of
    the panel can be shown; the text in the other mode. *)
Inductive tier_edit :=
  | TLabel (label : str) | TCondition (i : nat) (f : TierConditionInput -> TierConditionInput) | TConditionRemove (i : nat)
  | TPrice (field : TierPriceField) (value : num) | TCacheMode (mode : CacheMode).

Definition edit_tier (e : tier_edit) (tier : VisualTier) : VisualTier :=
  match e with
  | TLabel label => set_tier_label tier label
  | TCondition i f => match vt_conditions tier !! i with Some c => handleTierConditionChange tier i (f c) | None => tier end
  | TConditionRemove i => handleTierConditionRemove tier i
  | TPrice field value => handleTierPriceChange tier field (priceToUnitCost (VNum value))
  | TCacheMode mode => handleCacheModeChange tier mode
  end.

Inductive tiered_event :=
  | VTier (i : nat) (e : tier_edit) | VAddTier | VRemoveTier (i : nat) | VAddCondition (i : nat)
  | VGroup (i : nat) (e : group_edit) | VAddGroup | VRemoveGroup (i : nat)
  | RawText (value : str) | ModeSelect (next : EditorMode) | PresetClick (p : Preset) | ModelName (name : str).

Definition edit_tiers (s : Tiered) (f : VisualConfig -> VisualConfig) : Tiered :=
  if decide (te_mode s = Visual) then handleVisualChange s (f (normalizeVisualConfig (te_config s))) else s.
Definition edit_groups (s : Tiered) (f : list RequestRuleGroup -> list RequestRuleGroup) : Tiered :=
  if decide (te_mode s = Visual) then if canUseVisualRules (te_rules s) then handleRuleGroupsChange s (f (te_groups s)) else s else s.

Definition tiered_handler (s : Tiered) (e : tiered_event) : Tiered :=
  match e with
  | VTier i e => edit_tiers s (fun c => match vc_tiers c !! i with Some t => handleTierChange i (edit_tier e t) c | None => c end)
  | VAddTier => edit_tiers s handleAddTier
  | VRemoveTier i => edit_tiers s (fun c => if (length (vc_tiers c) <=? 1)%nat then c else handleRemoveTier i c)
  | VAddCondition i => edit_tiers s (handleAddTierCondition i)
  | VGroup i e => edit_groups s (alter (edit_group e) i)
  | VAddGroup => edit_groups s (fun gs => gs ++ [createEmptyRuleGroup])
  | VRemoveGroup i => edit_groups s (delete i)
  | RawText value => if decide (te_mode s = Raw) then handleRawChange s value else s
  | ModeSelect next => handleEditorModeChange s next
  | PresetClick p => applyPreset s p
  | ModelName name => mkTiered (te_mode s) (te_config s) (te_raw s) (te_groups s) (te_initRef s) (te_expr s) (te_rules s) name (te_seen s) (te_seenModel s)
  end.

(** The page renders until nothing changes; see [editor_settles] for the bound. *)
Definition SETTLE : nat := 6.
Definition tiered_step (s : option Tiered) (e : tiered_event) : option Tiered :=
  s ← s; renders SETTLE (tiered_handler s e).
Definition open_tiered (expr rules model : str) : option Tiered := s ← mount_editor expr rules model; renders SETTLE s.
Definition run_editor (expr rules model : str) (es : list tiered_event) : option Tiered :=
  foldl tiered_step (open_tiered expr rules model) es.
