(* ===== verification/TieredProps.v ===== *)
(** * The tiered price editor: theorems

    Rendering comes to rest, and then the panel saves what the editor shows; what opening does to
    the texts of a model; the fields for numbers and the lists of tiers. *)
From S2P Require Import Prelude Number Regex Json BillingExpr BillingProps TierExpr TierRoundtrip TieredEditor.

#[local] Arguments generateExprFromVisualConfig : simpl never.
#[local] Arguments tryParseVisualConfig : simpl never.
#[local] Arguments tryParseRequestRuleExpr : simpl never.
#[local] Arguments buildRequestRuleExpr : simpl never.
#[local] Arguments combineBillingExpr : simpl never.
#[local] Arguments splitBillingExprAndRequestRules : simpl never.
#[local] Arguments NO_PRICE : simpl never.

(** ** Rendering comes to rest *)

Definition throws (s : Tiered) : Prop := render s = None.

(** The rules that a rendering leaves in the panel. *)
Definition shown_rules (s : Tiered) : str := match te_mode s with Visual => buildRequestRuleExpr (te_groups s) | Raw => te_rules s end.

(** The part of the state that decides what is shown. *)
Definition core (s : Tiered) := (te_mode s, te_config s, te_raw s, te_groups s).

Lemma render_some s t : render s = Some t ->
  exists expr, effectiveExpr s = Some expr /\ t = set_panel (model_effect (init_effect s)) expr (shown_rules s).
Proof.
  unfold render. destruct (rules_render _); [| done]. intros (expr & He & [= <-])%bind_Some. by exists expr.
Qed.

Lemma render_ok s e : rules_render (te_rules s) = true -> effectiveExpr s = Some e ->
  render s = Some (set_panel (model_effect (init_effect s)) e (shown_rules s)).
Proof. intros Hr He. unfold render. by rewrite Hr, He. Qed.

Lemma init_panel s : te_model (init_effect s) = te_model s /\ te_seenModel (init_effect s) = te_seenModel s /\
  te_seen (init_effect s) = Some (te_expr s, te_rules s).
Proof.
  unfold init_effect. case_decide as H; [by rewrite H |]. destruct (te_initRef s); [done |].
  destruct (tryParseVisualConfig _); [done |]. by destruct (truthy _).
Qed.

Lemma effective_core s t : core s = core t -> effectiveExpr s = effectiveExpr t.
Proof. intros [= Hm Hc Hr _]. unfold effectiveExpr. by rewrite Hm, Hc, Hr. Qed.

Lemma shown_rules_core s t : core s = core t -> te_rules s = shown_rules t -> shown_rules s = shown_rules t.
Proof. intros [= Hm _ _ Hg] Hr. unfold shown_rules in *. rewrite Hm, Hg in *. by destruct (te_mode t). Qed.

(** The panel agrees with the editor. *)
Definition agrees (s : Tiered) : Prop := effectiveExpr s = Some (te_expr s) /\ te_rules s = shown_rules s.

(** No effect is going to read the panel again. *)
Definition armed (s : Tiered) : Prop := te_initRef s = true /\ te_seenModel s = Some (te_model s).

Lemma init_armed s : te_initRef s = true -> te_initRef (init_effect s) = true /\ core (init_effect s) = core s.
Proof. intros Hi. unfold init_effect. case_decide; [done |]. by rewrite Hi. Qed.

Lemma render_armed s t : armed s -> render s = Some t ->
  armed t /\ core t = core s /\ agrees t /\ te_seen t = Some (te_expr s, te_rules s).
Proof.
  intros [Hi Hm] (expr & He & ->)%render_some.
  destruct (init_armed s Hi) as [Hi' Hc], (init_panel s) as (Hn & Hm' & Hs).
  unfold model_effect. rewrite decide_True by by rewrite Hm', Hn.
  split; [split; [done | cbn; by rewrite Hm', Hn] |]. split; [done |]. split; [| done]. split.
  - cbn. rewrite <- He. by apply effective_core.
  - cbn. symmetry. by apply shown_rules_core.
Qed.

Lemma render_settled s : rules_render (te_rules s) = true -> effectiveExpr s = Some (te_expr s) -> te_rules s = shown_rules s ->
  te_seen s = Some (te_expr s, te_rules s) -> te_seenModel s = Some (te_model s) -> render s = Some s.
Proof.
  intros Hrr He Hr Hs Hm. rewrite (render_ok s (te_expr s)), <- Hr by done. unfold init_effect. rewrite decide_True by done.
  unfold model_effect. rewrite decide_True by done. by destruct s.
Qed.

Lemma agrees_panel s t : core s = core t -> agrees s -> agrees t -> te_mode s = Visual \/ te_rules s = te_rules t -> te_expr s = te_expr t /\ te_rules s = te_rules t.
Proof.
  intros Hc [He Hr] [He' Hr'] Hm. pose proof (effective_core s t Hc) as E. rewrite He, He' in E. split; [congruence |].
  destruct Hm as [Hm | Hm]; [| done]. rewrite Hr, Hr'. unfold shown_rules. injection Hc as Hm' _ _ Hg.
  by rewrite <- Hm', Hm, Hg.
Qed.

Lemma rules_stay s t : armed s -> render s = Some t -> te_rules t = shown_rules s.
Proof. by intros _ (expr & _ & ->)%render_some. Qed.

(** After two renderings an armed editor is at rest. *)
Lemma armed_rests s t u : armed s -> render s = Some t -> render t = Some u -> ~ throws u -> render u = Some u.
Proof.
  intros Ha Ht Hu Hn. destruct (render_armed s t Ha Ht) as (Ha' & Hc & Hg & _).
  destruct (render_armed t u Ha' Hu) as ([_ Hm] & Hc' & Hg' & Hs).
  assert (Hp : te_seen u = Some (te_expr u, te_rules u)).
  { rewrite Hs. destruct (agrees_panel u t Hc' Hg' Hg) as [-> ->]; [| done].
    right. rewrite (rules_stay t u Ha' Hu). symmetry. apply Hg. }
  destruct Hg' as [He Hr]. apply render_settled; [| done ..].
  unfold throws, render in Hn. by destruct (rules_render _).
Qed.

(** Within [n] renderings the editor comes to rest, or a parser throws. *)
Definition rests_within (n : nat) (s : Tiered) : Prop :=
  exists k, (k <= n)%nat /\ (renders k s = None \/ exists t, renders k s = Some t /\ render t = Some t).

Lemma rest_throws n s : render s = None -> rests_within (S n) s.
Proof. intros H. exists 1%nat. split; [lia |]. left. cbn. by rewrite H. Qed.

Lemma rest_step n s t : render s = Some t -> rests_within n t -> rests_within (S n) s.
Proof. intros H (k & Hk & Hr). exists (S k). split; [lia |]. cbn. by rewrite H. Qed.

Lemma rest_now n s : render s = Some s -> rests_within n s.
Proof. intros H. exists 0%nat. split; [lia |]. right. by exists s. Qed.

Lemma renders_rest n s : render s = Some s -> renders n s = Some s.
Proof. intros H. induction n as [|n IH]; [done |]. cbn. by rewrite H. Qed.

Lemma renders_to s t n u : render s = Some t -> renders n t = u -> renders (S n) s = u.
Proof. intros H <-. cbn. by rewrite H. Qed.

Lemma renders_add a b s : renders (a + b) s = (t ← renders a s; renders b t).
Proof. revert s. induction a as [|a IH]; intros s; [done |]. cbn. destruct (render s); [apply IH | done]. Qed.

Lemma rests_settle n s : rests_within n s -> renders n s = None \/ exists t, renders n s = Some t /\ render t = Some t.
Proof.
  intros (k & Hk & Hr). replace n with (k + (n - k))%nat by lia. rewrite renders_add. destruct Hr as [-> | (t & -> & Ht)]; [by left |].
  right. exists t. split; [| done]. cbn. by apply renders_rest.
Qed.

Lemma armed_within s : armed s -> rests_within 3 s.
Proof.
  intros Ha. destruct (render s) as [t|] eqn:Ht; [| by apply rest_throws]. apply (rest_step 2 s t Ht).
  destruct (render t) as [u|] eqn:Hu; [| by apply rest_throws]. apply (rest_step 1 t u Hu).
  destruct (render u) as [v|] eqn:Hv; [| by apply rest_throws]. apply rest_now, (armed_rests s t u Ha Ht Hu). unfold throws. by rewrite Hv.
Qed.

Lemma render_reads s t : te_seenModel s = Some (te_model s) -> te_seen s <> Some (te_expr s, te_rules s) -> render s = Some t -> armed t.
Proof.
  intros Hm Hs (expr & _ & ->)%render_some. destruct (init_panel s) as (Hn & Hm' & _).
  unfold model_effect. rewrite decide_True by by rewrite Hm', Hn. split; [| cbn; by rewrite Hm', Hn].
  cbn. unfold init_effect. rewrite decide_False by done. destruct (te_initRef s) eqn:E; [done |].
  destruct (tryParseVisualConfig _); [done |]. by destruct (truthy _).
Qed.

Lemma same_model_within s : te_seenModel s = Some (te_model s) -> rests_within 5 s.
Proof.
  intros Hm. destruct (render s) as [t|] eqn:Ht; [| by apply rest_throws]. apply (rest_step 4 s t Ht).
  destruct (decide (te_seen s = Some (te_expr s, te_rules s))) as [Hs | Hs].
  - destruct (render t) as [u|] eqn:Hu; [| by apply rest_throws].
    destruct (render_some s t Ht) as (expr & He & Et).
    assert (Ei : init_effect s = s) by (unfold init_effect; by rewrite decide_True).
    rewrite Ei in Et. unfold model_effect in Et. rewrite decide_True in Et by done.
    destruct (decide (te_seen t = Some (te_expr t, te_rules t))) as [Hs' | Hs'].
    + assert (t = s) as ->; [| by apply rest_now].
      rewrite Et in Hs'. cbn in Hs'. rewrite Hs in Hs'. injection Hs' as H1 H2. rewrite Et, <- H1, <- H2. by destruct s.
    + apply (rest_step 3 t u Hu), armed_within, (render_reads t u); [| done ..]. by rewrite Et.
  - destruct (render t) as [u|] eqn:Hu; [| by apply rest_throws].
    apply (rest_step 3 t u Hu), armed_within. apply (render_armed t u); [| done]. by apply (render_reads s t).
Qed.

Lemma settles_within s : rests_within SETTLE s.
Proof.
  destruct (decide (te_seenModel s = Some (te_model s))) as [Hm | Hm].
  - destruct (same_model_within s Hm) as (k & Hk & Hr). exists k. split; [unfold SETTLE; lia | done].
  - destruct (render s) as [t|] eqn:Ht; [| by apply rest_throws]. apply (rest_step 5 s t Ht), same_model_within.
    destruct (render_some s t Ht) as (expr & _ & ->). unfold model_effect. destruct (init_panel s) as (Hn & Hm' & _).
    rewrite decide_False by by rewrite Hm', Hn. done.
Qed.

(** ** What is saved is what is shown *)

Lemma rest_agrees s : render s = Some s -> agrees s.
Proof.
  intros (expr & He & E)%render_some. pose proof (f_equal te_expr E) as E1. pose proof (f_equal te_rules E) as E2. cbn in E1, E2.
  split; [by rewrite E1 | done].
Qed.

Lemma renders_none n s : renders n s = None ->
  exists k t, (k < n)%nat /\ renders k s = Some t /\ (rules_render (te_rules t) = false \/ effectiveExpr t = None).
Proof.
  revert s. induction n as [|n IH]; intros s; [done |]. cbn. destruct (render s) as [t|] eqn:E.
  - intros (k & u & Hk & Hu & Ht)%IH. exists (S k), u. split; [lia |]. cbn. by rewrite E.
  - intros _. exists 0%nat, s. split; [lia |]. split; [done |]. unfold render in E.
    destruct (rules_render _); [right | by left]. by destruct (effectiveExpr s).
Qed.

Lemma armed_raw s e : armed s -> te_mode s = Raw -> rules_render (te_rules s) = true -> effectiveExpr s = Some e ->
  exists t, renders SETTLE s = Some t /\ core t = core s /\ te_expr t = e /\ te_rules t = te_rules s.
Proof.
  intros Ha Hm Hr He. assert (Hstep : forall u, armed u -> core u = core s -> te_rules u = te_rules s ->
    exists v, render u = Some v /\ armed v /\ core v = core s /\ te_rules v = te_rules s /\ te_expr v = e).
  { intros u Hu Hc Hru. assert (He' : effectiveExpr u = Some e) by (rewrite <- He; by apply effective_core).
    rewrite (render_ok u e); [| by rewrite Hru | done]. eexists. split; [done |].
    destruct (render_armed u _ Hu (render_ok u e ltac:(by rewrite Hru) He')) as (Hv & Hc' & _).
    split; [done |]. split; [congruence |]. split; [| done]. cbn. unfold shown_rules. injection Hc as Hmu _ _ _. by rewrite Hmu, Hm. }
  assert (Hn : forall n u, armed u -> core u = core s -> te_rules u = te_rules s ->
    exists v, renders (S n) u = Some v /\ core v = core s /\ te_expr v = e /\ te_rules v = te_rules s).
  { induction n as [|n IH]; intros u Hu Hc Hru; destruct (Hstep u Hu Hc Hru) as (v & Hv & Hav & Hcv & Hrv & Hev).
    - exists v. split; [by eapply renders_to |]. done.
    - destruct (IH v Hav Hcv Hrv) as (w & Hw & Hrest). exists w. split; [by eapply renders_to | done]. }
  by apply Hn.
Qed.

(** C8: whatever state an event leaves the editor in, rendering comes to rest, and then the panel holds the expression that the
    editor shows: in the visual mode the one printed from its tiers, in the expression mode the one in front of the rules of
    its text; in the visual mode the panel holds the rules printed from its rule groups, too. The only other outcome is that
    a parser throws on a text of the panel or of the editor. Typing a text in the expression mode, once the editor has read its
    model, ends with the expression and the rules of this text in the panel. *)
Theorem editor_saves_what_it_shows (s : Tiered) :
  ((exists t, renders SETTLE s = Some t /\ render t = Some t /\
      match te_mode t with
      | Visual => te_expr t = generateExprFromVisualConfig (te_config t) /\ te_rules t = buildRequestRuleExpr (te_groups t)
      | Raw => exists sp, splitBillingExprAndRequestRules (te_raw t) = Found sp /\ te_expr t = sp_billingExpr sp
      end) \/
   (exists k t, (k < SETTLE)%nat /\ renders k s = Some t /\ (rules_render (te_rules t) = false \/ effectiveExpr t = None))) /\
  (forall value sp, armed s -> te_mode s = Raw -> splitBillingExprAndRequestRules value = Found sp -> rules_render (sp_requestRuleExpr sp) = true ->
     exists t, tiered_step (Some s) (RawText value) = Some t /\ te_mode t = Raw /\ te_raw t = value /\
       te_expr t = sp_billingExpr sp /\ te_rules t = sp_requestRuleExpr sp).
Proof.
  split.
  - destruct (rests_settle _ _ (settles_within s)) as [E | (t & E & Ht)]; [right; by apply renders_none | left].
    exists t. split; [done |]. split; [done |]. destruct (rest_agrees t Ht) as [He Hr]. unfold effectiveExpr, shown_rules in *.
    destruct (te_mode t); [split; [congruence | done] |]. destruct (splitBillingExprAndRequestRules _) as [sp| |]; [| done | done].
    exists sp. split; [done | congruence].
  - intros value sp Ha Hm Hs Hr. unfold tiered_step. cbn [mbind option_bind tiered_handler]. rewrite decide_True by done.
    unfold handleRawChange. rewrite Hs.
    destruct (armed_raw (set_rules (set_raw s value) (sp_requestRuleExpr sp)) (sp_billingExpr sp)) as (t & Ht & Hc & He & Hru);
      [done | done | done | unfold effectiveExpr; cbn; by rewrite Hm, Hs |].
    exists t. split; [done |]. injection Hc as Hc1 _ Hc3 _. cbn in *. by rewrite Hc1.
Qed.

(** An editor in the expression mode that has read its model, and a text with a rule. *)
Definition demo_raw : Tiered := mkTiered Raw None [] [] true NO_PRICE [] (js "m") None (Some (js "m")).
Definition demo_text : str := jsq "(tier('base', p * 2 + c * 4)) * (header('a') != '' ? 2 : 1)".
Definition demo_split : SplitExpr := mkSplit (jsq "tier('base', p * 2 + c * 4)") (jsq "(header('a') != '' ? 2 : 1)").

Lemma editor_saves_what_it_shows_witness :
  exists t, tiered_step (Some demo_raw) (RawText demo_text) = Some t /\ te_mode t = Raw /\ te_raw t = demo_text /\
    te_expr t = sp_billingExpr demo_split /\ te_rules t = sp_requestRuleExpr demo_split.
Proof.
  assert (Hs : splitBillingExprAndRequestRules demo_text = Found demo_split) by (vm_compute; reflexivity).
  assert (Hr : rules_render (sp_requestRuleExpr demo_split) = true) by (vm_compute; reflexivity).
  exact (proj2 (editor_saves_what_it_shows demo_raw) demo_text demo_split (conj eq_refl eq_refl) eq_refl Hs Hr).
Defined.

(** ** Opening a model *)

Lemma parse_no_price : tryParseVisualConfig (Some NO_PRICE) = None.
Proof. vm_compute. reflexivity. Qed.

Lemma rules_render_good gs : Forall good_group gs -> rules_render (buildRequestRuleExpr gs) = true.
Proof. intros H. unfold rules_render. rewrite rules_read_back by done. by destruct (negb _). Qed.

Lemma good_base_no_price : good_base NO_PRICE.
Proof. split; [done |]. split; [vm_compute; by repeat split |]. by split; [vm_compute |]. Qed.

Lemma split_no_price gs : Forall good_group gs ->
  splitBillingExprAndRequestRules (combineBillingExpr NO_PRICE (buildRequestRuleExpr gs)) = Found (mkSplit NO_PRICE (buildRequestRuleExpr gs)).
Proof.
  intros H. destruct gs as [|g gs]; [vm_compute; reflexivity |]. apply split_combine; [apply good_base_no_price | done | done].
Qed.

(** A model that the visual mode can show is at rest after one rendering. *)
Lemma open_visual expr rules model cfg gs :
  tryParseVisualConfig (Some expr) = Some cfg -> generateExprFromVisualConfig (Some cfg) = expr ->
  tryParseRequestRuleExpr rules = Found gs -> buildRequestRuleExpr gs = rules ->
  open_tiered expr rules model = Some (mkTiered Visual (Some cfg) (combineBillingExpr expr rules) gs false expr rules model (Some (expr, rules)) (Some model)).
Proof.
  intros Hp Hg Hr Hb. unfold open_tiered, mount_editor. rewrite Hr. cbn [found_groups mbind option_bind]. rewrite Hp.
  set (t := mkTiered _ _ _ _ _ _ _ _ (Some _) _). set (s := mkTiered _ _ _ _ _ _ _ _ None None).
  assert (Hrr : rules_render rules = true) by (unfold rules_render; rewrite Hr; by destruct (negb _)).
  assert (Hs : render s = Some t).
  { unfold s, t. rewrite (render_ok _ expr); [| done | unfold effectiveExpr; cbn; by rewrite Hg]. unfold init_effect. cbn. rewrite Hp, Hr. cbn. unfold shown_rules. cbn. by rewrite Hb. }
  assert (Ht : render t = Some t).
  { unfold t. apply render_settled; [done | unfold effectiveExpr; cbn; by rewrite Hg | unfold shown_rules; cbn; by rewrite Hb | done | done]. }
  exact (renders_to s t 5 _ Hs (renders_rest 5 t Ht)).
Qed.



Lemma open_raw_first expr rules model : tryParseVisualConfig (Some expr) = None -> expr <> [] -> tryParseRequestRuleExpr rules <> Throws ->
  let gs := found_groups (tryParseRequestRuleExpr rules) in
  exists s, mount_editor expr rules model = Some s /\
    render s = Some (mkTiered Raw None (combineBillingExpr expr rules) gs false NO_PRICE (buildRequestRuleExpr gs) model (Some (expr, rules)) (Some model)).
Proof.
  intros Hp Hne Ht gs. unfold mount_editor. exists (mkTiered Visual None (combineBillingExpr expr rules) gs false expr rules model None None).
  split; [rewrite Hp; unfold gs; by destruct (tryParseRequestRuleExpr rules) |].
  rewrite (render_ok _ NO_PRICE); [| unfold rules_render; cbn; destruct (negb _); [done |]; by destruct (tryParseRequestRuleExpr rules) | done].
  unfold init_effect. cbn. rewrite Hp, (proj2 (truthy_true _) Hne). done.
Qed.

(** C19: an expression that the visual mode cannot show is lost when the model is opened: after the page has come to rest the
    editor shows, and the panel would save, a price of zero.  (The first rendering is in the visual mode, without tiers; what
    it prints replaces the expression, and is read back because the effect on the name of the model has cleared the mark that
    the expression was read.) *)
Theorem unrecognised_expression_lost (expr rules model : str) (sp : SplitExpr) :
  tryParseVisualConfig (Some expr) = None -> expr <> [] -> expr <> NO_PRICE -> tryParseRequestRuleExpr rules <> Throws ->
  let gs := found_groups (tryParseRequestRuleExpr rules) in
  Forall good_group gs -> splitBillingExprAndRequestRules (combineBillingExpr expr rules) = Found sp ->
  exists s, open_tiered expr rules model = Some s /\ te_expr s = NO_PRICE /\ te_mode s = Raw /\
    te_raw s = combineBillingExpr NO_PRICE (buildRequestRuleExpr gs).
Proof.
  intros Hp Hne Hnp Ht gs Hgs Hsp. destruct (open_raw_first expr rules model Hp Hne Ht) as (s0 & Hm & Hs0). fold gs in Hs0.
  set (rs := buildRequestRuleExpr gs) in *. set (raw := combineBillingExpr NO_PRICE rs).
  pose proof (rules_render_good gs Hgs) as Hrr. fold rs in Hrr.
  set (s2 e seen := mkTiered Raw None raw gs true e rs model (Some (seen, rs)) (Some model)).
  assert (Hs1 : render (mkTiered Raw None (combineBillingExpr expr rules) gs false NO_PRICE rs model (Some (expr, rules)) (Some model)) =
    Some (s2 (sp_billingExpr sp) NO_PRICE)).
  { rewrite (render_ok _ (sp_billingExpr sp)); [| done | unfold effectiveExpr; cbn; by rewrite Hsp].
    unfold init_effect. cbn. rewrite decide_False by congruence. rewrite parse_no_price. cbn.
    rewrite (rules_read_back gs Hgs : tryParseRequestRuleExpr rs = Found gs). unfold model_effect. cbn. by rewrite decide_True. }
  assert (Hs2 : forall e seen, render (s2 e seen) = Some (s2 NO_PRICE e)).
  { intros e seen. rewrite (render_ok _ NO_PRICE); [| done |].
    - unfold init_effect. cbn. case_decide as E; cbn; unfold model_effect; cbn; rewrite decide_True by done; [by injection E as -> | done].
    - unfold effectiveExpr. cbn. unfold raw, rs. by rewrite split_no_price. }
  exists (s2 NO_PRICE NO_PRICE). split; [| done]. unfold open_tiered. rewrite Hm. cbn [mbind option_bind SETTLE].
  eapply renders_to; [exact Hs0 |]. eapply renders_to; [exact Hs1 |]. do 3 (eapply renders_to; [apply Hs2 |]).
  apply (renders_rest 1). apply Hs2.
Qed.

Lemma unrecognised_expression_lost_witness :
  exists s, open_tiered (jsq "tier('base', max(p, 1000) * 2 + c * 8)") [] (js "m") = Some s /\ te_expr s = NO_PRICE /\ te_mode s = Raw /\
    te_raw s = combineBillingExpr NO_PRICE (buildRequestRuleExpr []).
Proof.
  apply (unrecognised_expression_lost (jsq "tier('base', max(p, 1000) * 2 + c * 8)") [] (js "m")
    (mkSplit (jsq "tier('base', max(p, 1000) * 2 + c * 8)") [])); [vm_compute; reflexivity | done .. | constructor | vm_compute; reflexivity].
Defined.

(** rules that the visual mode cannot show are lost when a model is opened whose expression it can show: the panel ends
    without rules. *)
Theorem unreadable_rules_lost (expr rules model : str) (cfg : VisualConfig) :
  tryParseVisualConfig (Some expr) = Some cfg -> generateExprFromVisualConfig (Some cfg) = expr -> tryParseRequestRuleExpr rules = Null ->
  exists s, open_tiered expr rules model = Some s /\ te_expr s = expr /\ te_rules s = [] /\ te_groups s = [].
Proof.
  intros Hp Hg Hr. unfold open_tiered, mount_editor. rewrite Hr, Hp. cbn [found_groups mbind option_bind SETTLE].
  assert (Hb : buildRequestRuleExpr [] = []) by done.
  assert (Hne : rules <> []) by (intros ->; by vm_compute in Hr).
  set (s2 := mkTiered Visual (Some cfg) (combineBillingExpr expr []) [] true expr [] model (Some (expr, [])) (Some model)).
  set (s0 := mkTiered Visual (Some cfg) (combineBillingExpr expr rules) [] false expr rules model None None).
  set (s1 := mkTiered Visual (Some cfg) (combineBillingExpr expr rules) [] false expr [] model (Some (expr, rules)) (Some model)).
  assert (He : forall raw i rs seen sm, effectiveExpr (mkTiered Visual (Some cfg) raw [] i expr rs model seen sm) = Some expr)
    by (intros; unfold effectiveExpr; cbn; by rewrite Hg).
  assert (H0 : render s0 = Some s1).
  { unfold s0. rewrite (render_ok _ expr); [| unfold rules_render; cbn; rewrite Hr; by destruct (negb _) | apply He].
    unfold init_effect. cbn. by rewrite Hp, Hr. }
  assert (H1 : render s1 = Some s2).
  { unfold s1. rewrite (render_ok _ expr); [| done | apply He]. unfold init_effect. cbn. rewrite decide_False by congruence.
    rewrite Hp. unfold model_effect. cbn. by rewrite decide_True. }
  assert (H2 : render s2 = Some s2) by (apply render_settled; [done | apply He | done ..]).
  exists s2. split; [| done]. eapply renders_to; [exact H0 |]. eapply renders_to; [exact H1 |]. by apply renders_rest.
Qed.

Lemma unreadable_rules_lost_witness :
  let expr := generateExprFromVisualConfig (Some demo_config) in
  exists s, open_tiered expr (js "(param(1) ? 2 : 1)") (js "m") = Some s /\ te_expr s = expr /\ te_rules s = [] /\ te_groups s = [].
Proof. apply (unreadable_rules_lost _ _ _ demo_config); vm_compute; reflexivity. Defined.

(** A rule made in the editor itself, a comparison of a request parameter, is one of them. *)
Lemma comparison_rule_lost :
  let rules := buildRequestRuleExpr [mkGroup [CPH (mkPH SOURCE_PARAM (js "n") MATCH_GT (js "2"))] (js "2")] in
  exists s, open_tiered (jsq "tier('base', p * 2 + c * 4)") rules (js "m") = Some s /\ rules <> [] /\ te_rules s = [].
Proof. vm_compute. by eexists. Qed.

(** ** Presets *)

Definition all_presets : list Preset := flat_map snd PRESET_GROUPS.

(** The visual mode shows a preset, prints it and its rules, and reads both back. *)
Definition preset_ok (p : Preset) : bool :=
  match tryParseVisualConfig (Some (ps_expr p)) with
  | Some cfg =>
      bool_decide (vc_tiers cfg <> []) && rules_render (buildRequestRuleExpr (ps_requestRules p)) &&
      match tryParseRequestRuleExpr (buildRequestRuleExpr (ps_requestRules p)) with
      | Found gs => (length gs =? length (ps_requestRules p))%nat
      | _ => false
      end
  | None => false
  end.

Lemma presets_ok : forallb preset_ok all_presets = true.
Proof. vm_compute. reflexivity. Qed.

Lemma preset_read p : p ∈ all_presets -> exists cfg, tryParseVisualConfig (Some (ps_expr p)) = Some cfg /\
  rules_render (buildRequestRuleExpr (ps_requestRules p)) = true.
Proof.
  intros Hp. pose proof presets_ok as H. rewrite forallb_forall in H. specialize (H p (proj1 (list_elem_of_In _ _) Hp)).
  unfold preset_ok in H. destruct (tryParseVisualConfig _) as [cfg|]; [| done]. apply andb_prop in H as [[_ H]%andb_prop _]. by exists cfg.
Qed.

Definition tier_preset (i : nat) : Preset := default (plain_preset "none" "none" "none") (all_presets !! i).

(** every template is one that the visual mode can show: in an editor that has read its model, a click on it makes the
    editor show the tiers and the rules of the template and the panel hold their texts. *)
Theorem preset_applied (s : Tiered) (p : Preset) : armed s -> p ∈ all_presets ->
  exists t cfg, renders SETTLE (applyPreset s p) = Some t /\ tryParseVisualConfig (Some (ps_expr p)) = Some cfg /\
    te_mode t = Visual /\ te_config t = Some cfg /\ te_groups t = ps_requestRules p /\
    te_expr t = generateExprFromVisualConfig (Some cfg) /\ te_rules t = buildRequestRuleExpr (ps_requestRules p).
Proof.
  intros [Hi Hm] (cfg & Hp & Hr)%preset_read.
  set (rs := buildRequestRuleExpr (ps_requestRules p)) in *. set (g := generateExprFromVisualConfig (Some cfg)).
  set (raw := str_or (combineBillingExpr (ps_expr p) rs) (ps_expr p)).
  set (st e seen := mkTiered Visual (Some cfg) raw (ps_requestRules p) true e rs (te_model s) seen (Some (te_model s))).
  assert (Ha : applyPreset s p = st (te_expr s) (te_seen s)).
  { unfold applyPreset, st. rewrite Hp. destruct s. cbn in *. by rewrite Hi, Hm. }
  assert (Hst : forall e seen, exists seen', render (st e seen) = Some (st g seen') /\ seen' = Some (e, rs)).
  { intros e seen. exists (Some (e, rs)). split; [| done]. rewrite (render_ok _ g) by done.
    unfold init_effect. cbn. case_decide as E; unfold model_effect; cbn; rewrite decide_True by done; [by rewrite E | done]. }
  destruct (Hst (te_expr s) (te_seen s)) as (u1 & H1 & _), (Hst g u1) as (u2 & H2 & E2).
  exists (st g u2), cfg. split; [| done]. rewrite Ha. eapply renders_to; [exact H1 |]. eapply renders_to; [exact H2 |].
  apply renders_rest. destruct (Hst g u2) as (u3 & H3 & E3). by rewrite H3, E3, E2.
Qed.

Lemma preset_applied_witness :
  let s := mkTiered Raw None [] [] true NO_PRICE [] (js "m") None (Some (js "m")) in
  exists t cfg, renders SETTLE (applyPreset s (tier_preset 0)) = Some t /\ tryParseVisualConfig (Some (ps_expr (tier_preset 0))) = Some cfg /\
    te_mode t = Visual /\ te_config t = Some cfg /\ te_groups t = ps_requestRules (tier_preset 0) /\
    te_expr t = generateExprFromVisualConfig (Some cfg) /\ te_rules t = buildRequestRuleExpr (ps_requestRules (tier_preset 0)).
Proof. apply preset_applied; [done |]. apply list_elem_of_In. by left. Defined.

(** ** The first edit after opening

    The effect on the name of the model clears, when the page is opened, the mark that the texts were read; they are read
    again as soon as one of them changes, which throws away what they do not say. *)

Definition demo_flat : str := jsq "tier('base', p * 2 + c * 4)".
Definition demo_name : str := js "m".

(** A template with rules, clicked first: its rules are taken, its tiers are not. *)
Lemma first_preset_half_applied :
  let p := tier_preset 11 in
  ps_key p = js "claude-opus-fast" /\
  option_map (fun s => (te_expr s, te_rules s)) (run_editor demo_flat [] demo_name [PresetClick p]) =
    Some (demo_flat, buildRequestRuleExpr (ps_requestRules p)) /\ demo_flat <> ps_expr p.
Proof. split; [vm_compute; reflexivity |]. split; [vm_compute; reflexivity | discriminate]. Qed.

(** The first change of the text in the expression mode leads back to the visual mode. *)
Lemma first_keystroke_leaves_raw_mode :
  option_map te_mode (run_editor demo_flat [] demo_name [ModeSelect Raw; RawText (jsq "tier('base', p * 3 + c * 4)")]) = Some Visual.
Proof. vm_compute. reflexivity. Qed.

(** A rule group that was added first is gone after a price is changed. *)
Lemma first_rule_group_dropped :
  option_map te_groups (run_editor demo_flat [] demo_name [VAddGroup]) = Some [createEmptyRuleGroup] /\
  option_map te_groups (run_editor demo_flat [] demo_name [VAddGroup; VTier 0 (TPrice FInput (n_of_Z 3))]) = Some [].
Proof. split; vm_compute; reflexivity. Qed.

(** A rule with a comparison of a parameter, made in the visual mode, is there twice after a switch to the expression mode: its
    text is not recognised as a rule in the combined text and stays in the expression, and the panel keeps it as a rule. *)
Lemma switched_rule_doubled :
  let es := [VTier 0 (TPrice FInput (n_of_Z 3)); VAddGroup; VGroup 0 (ECondition 0 (EPath (js "n")));
             VGroup 0 (ECondition 0 (EMatch MATCH_GT)); VGroup 0 (ECondition 0 (EValue (js "2"))); VGroup 0 (EMultiplier (n_of_Z 2))] in
  let rule := jsq "(param('n') != nil && param('n') > 2 ? 2 : 1)" in
  option_map (fun s => (te_expr s, te_rules s)) (run_editor demo_flat [] demo_name es) = Some (jsq "tier('base', p * 3 + c * 4)", rule) /\
  option_map (fun s => (te_expr s, te_rules s)) (run_editor demo_flat [] demo_name (es ++ [ModeSelect Raw])) =
    Some (jsq "(tier('base', p * 3 + c * 4)) * " ++ rule, rule).
Proof. split; vm_compute; reflexivity. Qed.

(** A text with an escape that JSON does not know takes the page down: the parser throws while rendering. *)
Lemma unknown_escape_throws : open_tiered demo_flat (jsq "(has(header('a'), '\q') ? 2 : 1)") demo_name = None.
Proof. vm_compute. reflexivity. Qed.

(** ** The list of tiers *)

(** The last tier catches what the others leave. *)
Definition fallback_last (cfg : VisualConfig) : Prop :=
  exists front last, vc_tiers cfg = front ++ [last] /\ vt_conditions last = [] /\ Forall (fun t => vt_conditions t <> []) front.

Lemma bounded_last_app front last : bounded_last (front ++ [last]) =
  front ++ [match vt_conditions last with [] => normalizeVisualTier (partial_tier (with_tier_conditions last [default_condition (js "len")])) | _ => last end].
Proof. unfold bounded_last. rewrite length_app. cbn [length]. rewrite Nat.add_sub. induction front as [|t front IH]; [done |]. cbn. by rewrite IH. Qed.

(** Adding a tier keeps a last tier that catches the rest; the tier that did so before gets a bound and keeps its prices. *)
Lemma added_tier_catches cfg : fallback_last cfg -> fallback_last (handleAddTier cfg).
Proof.
  intros (front & last & E & Hl & Hf). unfold handleAddTier. rewrite E, bounded_last_app, Hl.
  eexists (front ++ [_]), _. split; [reflexivity |]. split; [done |]. apply Forall_app. split; [done |]. by repeat constructor.
Qed.

(** A condition that is added to the last tier is shown and not printed: it is not saved. *)
Lemma last_condition_not_saved :
  option_map te_expr (run_editor demo_flat [] demo_name [VAddTier]) = option_map te_expr (run_editor demo_flat [] demo_name [VAddTier; VAddCondition 1]) /\
  option_map (fun s => map (fun t => length (vt_conditions t)) (default [] (vc_tiers <$> te_config s)))
    (run_editor demo_flat [] demo_name [VAddTier; VAddCondition 1]) = Some [1; 1]%nat.
Proof. split; vm_compute; reflexivity. Qed.

(** Removing the only condition of a tier that is not the last one prints two tiers without a condition between them. *)
Lemma removed_condition_printed :
  option_map te_expr (run_editor demo_flat [] demo_name [VAddTier; VTier 0 (TConditionRemove 0)]) =
  Some (jsq "tier('base', p * 2 + c * 4) : tier('tier_2', p * 0 + c * 0)").
Proof. vm_compute. reflexivity. Qed.

(** ** Fields for numbers *)

(** A field that is left shows the number that it gave to its parent, and it is a finite one. *)
Lemma left_field_shows_value f : let g := draft_blur VNum f in
  df_value g = VNum (parseNumberDraft (df_draft f)) /\ isFinite (parseNumberDraft (df_draft f)) = true /\
  df_draft g = num_to_str (parseNumberDraft (df_draft f)) /\ df_focused g = false.
Proof.
  assert (H : isFinite (parseNumberDraft (df_draft f)) = true).
  { unfold parseNumberDraft. destruct (truthy _); [| done]. cbv zeta. by destruct (isFinite (num_of_str _)) eqn:E. }
  cbv zeta. unfold draft_blur, draft_effect. cbn. by rewrite H.
Qed.

(** While it has the focus the text stays what the user types, whatever the parent makes of it. *)
Lemma focused_field_keeps_text store text f : df_focused f = true -> df_draft (draft_change store text f) = text.
Proof. intros H. unfold draft_change, draft_effect. cbn. by rewrite H. Qed.
