(* ===== verification/Notifications.v ===== *)
(** * Notifications

    Model of [hooks/use-notifications.ts] and [stores/notification-store.ts]: the notice and the
    announcements of the server, the keys by which announcements are remembered as read - an
    identifier or a hash of 32 bits - and the popover.  Theorems: what the hash computes, and
    that what was shown stays read. *)
From S2P Require Import Prelude Number Json JsonObject.

#[local] Open Scope Z_scope.

(** ** Keys of announcements *)

(** The conversion of a number to 32 bits with a sign, as the bit operators do it. *)
Definition int32_of (z : Z) : Z := (z + 2 ^ 31) mod 2 ^ 32 - 2 ^ 31.

Definition hash_unit (hash : Z) (chr : N) : Z := int32_of (int32_of (Z.shiftl hash 5) - hash + Z.of_N chr).

(** [n.toString(36)]: seven digits are enough for 32 bits. *)
Definition digit36 (d : Z) : N := Z.to_N (if d <? 10 then 48 + d else 87 + d).
Fixpoint digits36 (fuel : nat) (n : Z) : str :=
  match fuel with
  | O => []
  | S fuel => if n <? 36 then [digit36 n] else digits36 fuel (n / 36) ++ [digit36 (n mod 36)]
  end.
Definition show36 (n : Z) : str := if n <? 0 then js "-" ++ digits36 7 (- n) else digits36 7 n.

Definition hashString (input : str) : str :=
  if truthy input then show36 (foldl hash_unit 0 input) else js "0".

(** [(item?.key as string) || ''], and the same with [.trim()]; a value that is no string has no [trim]. *)
Definition text_or_empty (v : option json) : json := match v with Some w => if j_truthy w then w else JStr [] | None => JStr [] end.
Definition trimmed_text (v : option json) : option json :=
  match text_or_empty v with JStr s => Some (JStr (trim s)) | _ => None end.

(** [None] when a field that is trimmed is no text. *)
Definition getAnnouncementKey (item : json) : option str :=
  if negb (j_truthy item) then Some []
  else
    match member item (js "id") with
    | Some JNull | None =>
        content ← trimmed_text (member item (js "content"));
        extra ← trimmed_text (member item (js "extra"));
        title ← trimmed_text (member item (js "title"));
        link ← trimmed_text (member item (js "link"));
        let fingerprint := JSON_stringify (JObj
          [(js "publishDate", text_or_empty (member item (js "publishDate"))); (js "content", content); (js "extra", extra);
           (js "type", text_or_empty (member item (js "type"))); (js "title", title); (js "link", link)]) in
        Some (js "hash:" ++ hashString fingerprint)
    | Some v => Some (js "id:" ++ to_String v)
    end.

(** ** The store *)

Record NotificationState := mkNotification { lastReadNotice : str; readAnnouncementKeys : list str; closedUntilDate : option str }.

Definition initial_notification : NotificationState := mkNotification [] [] None.

Definition markNoticeRead (noticeContent : str) (s : NotificationState) : NotificationState :=
  mkNotification (trim noticeContent) (readAnnouncementKeys s) (closedUntilDate s).
Definition markAnnouncementsRead (keys : list str) (s : NotificationState) : NotificationState :=
  mkNotification (lastReadNotice s) (set_of (readAnnouncementKeys s ++ keys)) (closedUntilDate s).
Definition setClosedUntilDate (date : option str) (s : NotificationState) : NotificationState :=
  mkNotification (lastReadNotice s) (readAnnouncementKeys s) date.
Definition isAnnouncementRead (s : NotificationState) (key : str) : bool := set_has key (readAnnouncementKeys s).
(** [today] is [new Date().toDateString()]. *)
Definition isNoticeClosed (today : str) (s : NotificationState) : bool :=
  match closedUntilDate s with Some d => truthy d && str_eqb d today | None => false end.

(** ** The hook *)

Inductive NoticeTab := NoticeTabNotice | NoticeTabAnnouncements.
#[export] Instance NoticeTab_eq_dec : EqDecision NoticeTab.
Proof. solve_decision. Defined.

(** What the server has answered. *)
Record Announced := mkAnnounced { an_success : bool; an_notice : option str; an_enabled : bool; an_items : list json }.

Record NotificationPage := mkNotificationPage { np_open : bool; np_tab : NoticeTab; np_store : NotificationState }.

Definition initial_page_notifications (store : NotificationState) : NotificationPage := mkNotificationPage false NoticeTabNotice store.

Definition announcements (a : Announced) : list json := if an_enabled a then slice 0 20 (an_items a) else [].
Definition noticeContent (a : Announced) : str := if an_success a then trim (default [] (an_notice a)) else [].

Definition noticeUnread (a : Announced) (s : NotificationState) : Z :=
  if truthy (noticeContent a) && negb (str_eqb (noticeContent a) (lastReadNotice s)) then 1 else 0.

Definition announcement_keys (a : Announced) : option (list str) := mapM getAnnouncementKey (announcements a).

(** Notice and announcements; [None] when a key cannot be made. *)
Definition unreadCounts (a : Announced) (s : NotificationState) : option (Z * Z) :=
  keys ← announcement_keys a;
  Some (noticeUnread a s, Z.of_nat (length (List.filter (fun key => negb (isAnnouncementRead s key)) keys))).
Definition unreadCount (a : Announced) (s : NotificationState) : option Z := '(n, m) ← unreadCounts a s; Some (n + m).

(** Where a key cannot be made the page is not rendered, so that nothing can be clicked. *)
Definition markAnnouncementsAsRead (a : Announced) (s : NotificationState) : NotificationState :=
  match announcements a with
  | [] => s
  | _ => match announcement_keys a with Some keys => markAnnouncementsRead keys s | None => s end
  end.

Definition handleOpenPopover (a : Announced) (tab : option NoticeTab) (p : NotificationPage) : NotificationPage :=
  let nextTab := default (np_tab p) tab in
  let s := np_store p in
  let s := if truthy (noticeContent a) then markNoticeRead (noticeContent a) s else s in
  let s := match nextTab with NoticeTabAnnouncements => markAnnouncementsAsRead a s | NoticeTabNotice => s end in
  mkNotificationPage true nextTab s.

Definition handlePopoverOpenChange (a : Announced) (open : bool) (p : NotificationPage) : NotificationPage :=
  if open then handleOpenPopover a (Some (np_tab p)) p else mkNotificationPage false (np_tab p) (np_store p).

Definition handleTabChange (a : Announced) (tab : NoticeTab) (p : NotificationPage) : NotificationPage :=
  mkNotificationPage (np_open p) tab (match tab with NoticeTabAnnouncements => markAnnouncementsAsRead a (np_store p) | NoticeTabNotice => np_store p end).

(** The page with what the server answers; the answers may change between two operations. *)
Inductive notification_event := NOpen (tab : option NoticeTab) | NOpenChange (open : bool) | NTab (tab : NoticeTab).
Definition notification_step (p : NotificationPage) (e : Announced * notification_event) : NotificationPage :=
  match snd e with
  | NOpen tab => handleOpenPopover (fst e) tab p
  | NOpenChange open => handlePopoverOpenChange (fst e) open p
  | NTab tab => handleTabChange (fst e) tab p
  end.
Definition run_notifications (store : NotificationState) (es : list (Announced * notification_event)) : NotificationPage :=
  foldl notification_step (initial_page_notifications store) es.

(** ** Theorems *)

Lemma to_int32_cong a b : a mod 2 ^ 32 = b mod 2 ^ 32 -> int32_of a = int32_of b.
Proof. intros H. unfold int32_of. f_equal. rewrite Z.add_mod, (Z.add_mod b) by lia. by rewrite H. Qed.

Lemma to_int32_mod a : int32_of a mod 2 ^ 32 = a mod 2 ^ 32.
Proof. unfold int32_of. rewrite Zminus_mod_idemp_l. f_equal. lia. Qed.

Lemma hash_step_mod h c : hash_unit h c = int32_of (31 * h + Z.of_N c).
Proof.
  unfold hash_unit. apply to_int32_cong. rewrite Z.shiftl_mul_pow2 by lia.
  rewrite Z.add_mod, Zminus_mod, to_int32_mod by lia. rewrite <- Zminus_mod, <- Z.add_mod by lia. f_equal. lia.
Qed.

(** The polynomial of the units of a text in 31. *)
Fixpoint hash_sum (s : str) : Z := match s with [] => 0 | c :: r => Z.of_N c * 31 ^ Z.of_nat (length r) + hash_sum r end.

Lemma hash_fold s h : int32_of (foldl hash_unit h s) = int32_of (h * 31 ^ Z.of_nat (length s) + hash_sum s).
Proof.
  revert h. induction s as [|c s IH]; intros h; cbn [foldl hash_sum length].
  - f_equal. rewrite Z.pow_0_r. lia.
  - rewrite IH, hash_step_mod. apply to_int32_cong. rewrite Z.add_mod, Z.mul_mod, to_int32_mod by lia.
    rewrite <- Z.mul_mod, <- Z.add_mod by lia. f_equal. rewrite Nat2Z.inj_succ, Z.pow_succ_r by lia. lia.
Qed.

Lemma int32_id z : - 2 ^ 31 <= z < 2 ^ 31 -> int32_of z = z.
Proof. intros H. unfold int32_of. rewrite Z.mod_small; lia. Qed.

Lemma int32_bounds z : - 2 ^ 31 <= int32_of z < 2 ^ 31.
Proof. unfold int32_of. pose proof (Z.mod_pos_bound (z + 2 ^ 31) (2 ^ 32) ltac:(lia)). lia. Qed.

Lemma hash_fold_bounds s : - 2 ^ 31 <= foldl hash_unit 0 s < 2 ^ 31.
Proof.
  destruct s as [|c s _] using rev_ind; [cbn; lia |]. rewrite foldl_app. apply int32_bounds.
Qed.

(** the hash of a text is the polynomial of its units in 31, reduced to 32 bits with a sign: the intermediate results,
    which are cut to 32 bits at every unit, lose nothing, and the number stays within the range of 32 bits. *)
Theorem hash_is_polynomial (s : str) :
  foldl hash_unit 0 s = int32_of (hash_sum s) /\ - 2 ^ 31 <= foldl hash_unit 0 s < 2 ^ 31.
Proof.
  split; [| apply hash_fold_bounds]. rewrite <- (int32_id _ (hash_fold_bounds s)), hash_fold. f_equal.
Qed.

(** Two announcements whose texts have the same hash have the same key: an edit from one to the other does not show as unread. *)
Lemma edited_announcement_same_key :
  let item text := JObj [(js "content", JStr (js text))] in
  getAnnouncementKey (item "Aa"%string) = getAnnouncementKey (item "BB"%string).
Proof. vm_compute. reflexivity. Qed.

(** *** What was shown stays read *)

Definition unread_keys (keys : list str) (s : NotificationState) : list str := List.filter (fun key => negb (isAnnouncementRead s key)) keys.

(** The keys that [s] knows are known to [t]. *)
Definition reads_more (s t : NotificationState) : Prop := forall key, isAnnouncementRead s key = true -> isAnnouncementRead t key = true.

#[export] Instance reads_more_preorder : PreOrder reads_more.
Proof. split; [by intros s key | intros s t u H1 H2 key H; by apply H2, H1]. Qed.

Lemma reads_more_unread keys s t : reads_more s t -> (length (unread_keys keys t) <= length (unread_keys keys s))%nat.
Proof.
  intros H. unfold unread_keys. induction keys as [|k keys IH]; [done |]. cbn [List.filter]. pose proof (H k) as Hk.
  destruct (isAnnouncementRead s k); [rewrite Hk by done; exact IH |]. destruct (isAnnouncementRead t k); cbn; lia.
Qed.

Lemma mark_reads_more keys s : reads_more s (markAnnouncementsRead keys s).
Proof. intros key H. unfold isAnnouncementRead in *. cbn. apply set_has_spec. apply set_has_spec in H. apply elem_of_set_of, elem_of_app. by left. Qed.

Lemma mark_as_read_more a s : reads_more s (markAnnouncementsAsRead a s).
Proof. unfold markAnnouncementsAsRead. destruct (announcements a); [done |]. destruct (announcement_keys a); [apply mark_reads_more | done]. Qed.

Lemma open_reads_more a tab p : reads_more (np_store p) (np_store (handleOpenPopover a tab p)).
Proof.
  unfold handleOpenPopover. cbn. transitivity (if truthy (noticeContent a) then markNoticeRead (noticeContent a) (np_store p) else np_store p).
  - by destruct (truthy _); intros key.
  - destruct (default (np_tab p) tab); [by intros key | apply mark_as_read_more].
Qed.

Lemma notification_step_reads_more p e : reads_more (np_store p) (np_store (notification_step p e)).
Proof.
  destruct e as [a [tab | open | tab]]; unfold notification_step; cbn [fst snd].
  - apply open_reads_more.
  - unfold handlePopoverOpenChange. destruct open; [apply open_reads_more | done].
  - unfold handleTabChange. cbn. destruct tab; [done | apply mark_as_read_more].
Qed.

Lemma run_reads_more es p : reads_more (np_store p) (np_store (foldl notification_step p es)).
Proof.
  revert p. induction es as [|e es IH]; intros p; [done |]. cbn [foldl]. etransitivity; [apply notification_step_reads_more | apply IH].
Qed.

Lemma marked_all_read a keys s : announcement_keys a = Some keys -> unread_keys keys (markAnnouncementsAsRead a s) = [].
Proof.
  intros Hk. unfold markAnnouncementsAsRead. destruct (announcements a) as [|x l] eqn:E.
  - unfold announcement_keys in Hk. rewrite E in Hk. by injection Hk as <-.
  - rewrite Hk. unfold unread_keys. assert (H : forall l', l' ⊆ keys -> List.filter (fun key => negb (isAnnouncementRead (markAnnouncementsRead keys s) key)) l' = []).
    { induction l' as [|k l' IH]; intros Hsub; [done |]. cbn [List.filter].
      assert (isAnnouncementRead (markAnnouncementsRead keys s) k = true) as ->.
      { unfold isAnnouncementRead. cbn. apply set_has_spec, elem_of_set_of, elem_of_app. right. set_solver. }
      cbn. apply IH. set_solver. }
    by apply H.
Qed.

(** opening the popover shows nothing as unread that it marks - the notice, and the announcements when their tab is shown -
    and an announcement that was read stays read: whatever is done and announced afterwards, none of those announcements counts
    as unread again. *)
Theorem shown_announcements_stay_read (store : NotificationState) (before after : list (Announced * notification_event)) (a : Announced) (keys : list str)
  (Hk : announcement_keys a = Some keys) :
  let shown := notification_step (run_notifications store before) (a, NOpen (Some NoticeTabAnnouncements)) in
  unreadCount a (np_store shown) = Some 0 /\ np_open shown = true /\
  option_map snd (unreadCounts a (np_store (foldl notification_step shown after))) = Some 0.
Proof.
  cbv zeta. set (p := run_notifications store before). set (q := notification_step p (a, NOpen (Some NoticeTabAnnouncements))).
  assert (Hq : unread_keys keys (np_store q) = []) by (unfold q, notification_step, handleOpenPopover; cbn; by apply marked_all_read).
  assert (Hn : noticeUnread a (np_store q) = 0).
  { unfold noticeUnread. destruct (truthy (noticeContent a)) eqn:Et; [| done]. unfold q, notification_step, handleOpenPopover. cbn. rewrite Et.
    assert (Hlast : forall s, lastReadNotice (markAnnouncementsAsRead a s) = lastReadNotice s)
      by (intros s; unfold markAnnouncementsAsRead; destruct (announcements a); [done |]; by destruct (announcement_keys a)).
    rewrite Hlast. cbn. assert (Ht : trim (noticeContent a) = noticeContent a) by (unfold noticeContent; destruct (an_success a); [apply trim_idemp | done]).
    rewrite Ht. unfold str_eqb. by rewrite bool_decide_eq_true_2. }
  unfold unreadCount, unreadCounts. rewrite Hk. cbn [mbind option_bind option_map snd]. fold (unread_keys keys (np_store q)). rewrite Hq, Hn.
  split; [done |]. split; [done |]. f_equal. fold (unread_keys keys (np_store (foldl notification_step q after))).
  pose proof (reads_more_unread keys _ _ (run_reads_more after q)) as Hle. rewrite Hq in Hle.
  by destruct (unread_keys keys (np_store (foldl notification_step q after))); [| cbn in Hle; lia].
Qed.

Definition demo_announced : Announced :=
  mkAnnounced true (Some (js " maintenance ")) true [JObj [(js "id", JNum (n_of_Z 7))]; JObj [(js "content", JStr (js "new models"))]].

Lemma shown_announcements_stay_read_witness :
  let shown := notification_step (run_notifications initial_notification []) (demo_announced, NOpen (Some NoticeTabAnnouncements)) in
  unreadCount demo_announced (np_store shown) = Some 0 /\ np_open shown = true /\
  option_map snd (unreadCounts demo_announced (np_store (foldl notification_step shown [(demo_announced, NTab NoticeTabNotice)]))) = Some 0.
Proof.
  apply (shown_announcements_stay_read initial_notification [] [(demo_announced, NTab NoticeTabNotice)] demo_announced
    (default [] (announcement_keys demo_announced))). vm_compute. reflexivity.
Defined.
