(* ===== verification/ApiClient.v ===== *)
(** * The HTTP client

    Model of [lib/api.ts]: GET requests to the same address with the same parameters share one
    request while it is under way, and the interceptors show errors and end the session.  The
    requests themselves are those of the library below; here they are numbers that are given out
    when a request is sent and settle once, with any outcome.

    Theorems: a caller is always served by a request for what it asked, and no two requests for
    the same thing are under way; what is reported, and that a caller that joins a request has no
    say in it. *)
From S2P Require Import Prelude Number Json JsonObject.

(** ** Requests *)

Record GetConfig := mkGetConfig { gc_params : option json; gc_skipBusinessError : bool; gc_skipErrorHandler : bool; gc_disableDuplicate : bool }.

Definition get_key (url : str) (config : GetConfig) : str :=
  url ++ js "?" ++ match gc_params config with Some p => if j_truthy p then JSON_stringify p else js "{}" | None => js "{}" end.

(** An answer with its body, or an error with what it carries of the response. *)
Inductive settled_with := Answered (data : json) | Failed (status : option Z) (data : option json) (message : option str).

(** What the user sees and what happens to the session. *)
Inductive client_effect := ErrorToast (message : str) | SessionReset.

Definition message_text (v : option json) (fallback : str) : str :=
  match v with Some w => if j_truthy w then to_String w else fallback | None => fallback end.

(** The interceptor of responses. *)
Definition on_response (t : str -> str) (config : GetConfig) (data : json) : list client_effect :=
  if negb (gc_skipBusinessError config) && j_truthy data then
    match member data (js "success") with
    | Some (JBool false) => [ErrorToast (message_text (member data (js "message")) (t (js "Request failed")))]
    | _ => []
    end
  else [].

Definition on_response_error (t : str -> str) (config : GetConfig) (status : option Z) (data : option json) (message : option str) : list client_effect :=
  let skip := gc_skipErrorHandler config in
  if bool_decide (status = Some 401%Z) then SessionReset :: (if skip then [] else [ErrorToast (t (js "Session expired!"))])
  else if skip then []
  else [ErrorToast (message_text (d ← data; member d (js "message")) (str_or (default [] message) (t (js "Request failed"))))].

Definition reported_for (t : str -> str) (config : GetConfig) (o : settled_with) : list client_effect :=
  match o with Answered data => on_response t config data | Failed status data message => on_response_error t config status data message end.

(** ** The client *)

Record SentGet := mkSent { sg_url : str; sg_config : GetConfig; sg_done : bool }.
Definition sent_key (r : SentGet) : str := get_key (sg_url r) (sg_config r).
Definition shared (r : SentGet) : bool := negb (gc_disableDuplicate (sg_config r)).

(** The requests by their number, the ones that can be joined by key, the callers with the request that serves them, and the
    effects. *)
Record ApiClient := mkClient {
  ac_sent : list SentGet; ac_inFlightGet : list (str * nat); ac_callers : list (str * GetConfig * nat); ac_effects : list client_effect }.

Definition initial_client : ApiClient := mkClient [] [] [] [].

(** [originalGet]. *)
Definition originalGet (url : str) (config : GetConfig) (s : ApiClient) : nat * ApiClient :=
  (length (ac_sent s), mkClient (ac_sent s ++ [mkSent url config false]) (ac_inFlightGet s) (ac_callers s) (ac_effects s)).

Definition called_by (url : str) (config : GetConfig) (i : nat) (s : ApiClient) : ApiClient :=
  mkClient (ac_sent s) (ac_inFlightGet s) (ac_callers s ++ [(url, config, i)]) (ac_effects s).

Definition api_get (url : str) (config : GetConfig) (s : ApiClient) : ApiClient :=
  if gc_disableDuplicate config then let '(i, s) := originalGet url config s in called_by url config i s
  else
    let key := get_key url config in
    match map_get key (ac_inFlightGet s) with
    | Some i => called_by url config i s
    | None =>
        let '(i, s) := originalGet url config s in
        called_by url config i (mkClient (ac_sent s) (map_set key i (ac_inFlightGet s)) (ac_callers s) (ac_effects s))
    end.

(** A request settles: the interceptors run with the configuration it was sent with, then its key is removed. *)
Definition api_settle (t : str -> str) (i : nat) (o : settled_with) (s : ApiClient) : ApiClient :=
  match ac_sent s !! i with
  | Some r =>
      if sg_done r then s
      else
        mkClient (<[i := mkSent (sg_url r) (sg_config r) true]> (ac_sent s))
          (if shared r then obj_delete (sent_key r) (ac_inFlightGet s) else ac_inFlightGet s)
          (ac_callers s) (ac_effects s ++ reported_for t (sg_config r) o)
  | None => s
  end.

Inductive client_event := CGet (url : str) (config : GetConfig) | CSettle (i : nat) (o : settled_with).
Definition client_step (t : str -> str) (s : ApiClient) (e : client_event) : ApiClient :=
  match e with CGet url config => api_get url config s | CSettle i o => api_settle t i o s end.
Definition run_client (t : str -> str) (es : list client_event) : ApiClient := foldl (client_step t) initial_client es.

(** ** Headers *)

(** [uid] is the entry of the local storage, [None] also when the storage cannot be read. *)
Definition getCommonHeaders (uid : option str) : list (str * str) :=
  [(js "Content-Type", js "application/json")] ++ match uid with Some u => if truthy u then [(js "New-Api-User", u)] else [] | None => [] end.
Definition request_headers (uid : option str) (headers : list (str * str)) : list (str * str) :=
  match uid with Some u => if truthy u then map_set (js "New-Api-User") u headers else headers | None => headers end.

(** ** Theorems *)

(** *** The key tells requests apart *)

(** The text of the parameters in the key. *)
Definition params_text (config : GetConfig) : str := match gc_params config with Some p => if j_truthy p then JSON_stringify p else js "{}" | None => js "{}" end.

(** Reading a JSON text from left to right: outside of a string there is neither a backslash nor a question mark. *)
Inductive reading := Outside | Inside | Escaped.
Definition read_unit (r : reading) (c : N) : option reading :=
  match r with
  | Outside => if (c =? 34)%N then Some Inside else if (c =? 92)%N || (c =? 63)%N then None else Some Outside
  | Inside => if (c =? 34)%N then Some Outside else if (c =? 92)%N then Some Escaped else Some Inside
  | Escaped => if (c =? 63)%N then None else Some Inside
  end.
Fixpoint read_units (r : reading) (s : str) : option reading :=
  match s with [] => Some r | c :: s => r' ← read_unit r c; read_units r' s end.

Lemma read_units_app r s k : read_units r (s ++ k) = r' ← read_units r s; read_units r' k.
Proof. revert r. induction s as [|c s IH]; intros r; [done |]. cbn. destruct (read_unit r c); [apply IH | done]. Qed.

(** A text read from outside and from inside of a string: the two readings stay opposite. *)
Lemma readings_opposite s a b : read_units Outside s = Some a -> read_units Inside s = Some b -> (a = Outside /\ b = Inside) \/ (a = Inside /\ b = Outside).
Proof.
  assert (H : forall s x y a b, (x = Outside /\ y = Inside) \/ (x = Inside /\ y = Outside) -> read_units x s = Some a -> read_units y s = Some b ->
    (a = Outside /\ b = Inside) \/ (a = Inside /\ b = Outside)); [| by apply H; left].
  clear. induction s as [|c s IH]; intros x y a b Hxy Ha Hb.
  - cbn in Ha, Hb. by simplify_eq.
  - cbn in Ha, Hb. destruct Hxy as [[-> ->] | [-> ->]]; cbn in Ha, Hb; destruct (c =? 34)%N; cbn in Ha, Hb.
    all: try (by eapply IH; [| exact Ha | exact Hb]; auto).
    all: destruct (c =? 92)%N; cbn in Ha, Hb; try done; destruct (c =? 63)%N; cbn in Ha, Hb; try done; (eapply IH; [| exact Ha | exact Hb]); auto.
Qed.

(** Units that mean nothing to the reading. *)
Definition plain (c : N) : bool := negb ((c =? 34) || (c =? 92) || (c =? 63))%N.
Lemma read_plain r s : r <> Escaped -> Forall (fun c => plain c = true) s -> read_units r s = Some r.
Proof.
  intros Hr. induction 1 as [|c s Hc _ IH]; [done |]. unfold plain in Hc. rewrite negb_true_iff, !orb_false_iff in Hc. destruct Hc as [[H1 H2] H3].
  cbn. destruct r; cbn; rewrite ?H1, ?H2, ?H3; [exact IH | exact IH | done].
Qed.

Lemma digit_plain c : is_digit c = true -> plain c = true.
Proof. unfold is_digit, plain. intros [H1%N.leb_le H2%N.leb_le]%andb_prop. rewrite negb_true_iff, !orb_false_iff, !N.eqb_neq. lia. Qed.
Lemma digits_plain s : Forall (fun c => is_digit c = true) s -> Forall (fun c => plain c = true) s.
Proof. intros H. eapply Forall_impl; [exact H | apply digit_plain]. Qed.

Lemma format_decimal_plain ds k : Forall (fun c => plain c = true) ds -> Forall (fun c => plain c = true) (format_decimal ds k).
Proof.
  intros H. assert (Hz : forall n, Forall (fun c => plain c = true) (zeros n)) by (intros n; by apply Forall_replicate).
  pose proof (digits_plain _ (show_N_digits (Z.to_N (Z.abs (k - 1))))) as Hs.
  unfold format_decimal. cbv zeta. destruct (_ && _); [by apply Forall_app |].
  destruct (_ && _); [apply Forall_app; split; [by apply Forall_take | constructor; [done | by apply Forall_drop]] |].
  destruct (_ && _); [repeat (constructor; [done |]); by apply Forall_app |].
  assert (He : Forall (fun c => plain c = true) (101%N :: (if (k - 1 <? 0)%Z then 45%N else 43%N) :: show_N (Z.to_N (Z.abs (k - 1)))))
    by (constructor; [done |]; constructor; [by destruct (_ <? _)%Z | done]).
  destruct ds as [|d [|d' r]]; [constructor | |]; apply Forall_cons in H as [Hd Hr]; constructor; try done. constructor; [done |]. by apply Forall_app.
Qed.

Lemma num_to_str_plain n : Forall (fun c => plain c = true) (num_to_str n).
Proof.
  destruct n as [s|s| |s m e]; cbn [num_to_str]; [| | |].
  - by repeat constructor.
  - destruct s; vm_compute; repeat constructor.
  - vm_compute; repeat constructor.
  - destruct (num_quotient m e) as [a b]. destruct (shortest _ _ _ _ _ _) as [x d]. apply Forall_app. split; [by destruct s; repeat constructor |].
    apply format_decimal_plain. apply Forall_reverse, drop_while_Forall, Forall_reverse, digits_plain, show_N_digits.
Qed.

Lemma hex_digit_plain n : (n < 16)%N -> plain (hex_digit n) = true.
Proof. intros H. unfold hex_digit, plain. destruct (n <? 10)%N eqn:E; rewrite ?N.ltb_lt, ?N.ltb_ge in E; rewrite negb_true_iff, !orb_false_iff, !N.eqb_neq; lia. Qed.

Lemma read_escape c k : plain c = true -> read_units Inside (92%N :: c :: k) = read_units Inside k.
Proof. intros H. unfold plain in H. rewrite negb_true_iff, !orb_false_iff in H. destruct H as [_ H3]. cbn. by rewrite H3. Qed.

Lemma read_hex c k : read_units Inside (92%N :: 117%N :: hex4 c ++ k) = read_units Inside k.
Proof.
  rewrite read_escape by done. rewrite read_units_app, read_plain; [done | done |].
  unfold hex4. repeat constructor; apply hex_digit_plain, N.mod_lt; done.
Qed.

Lemma read_char c k : short_escape c = None -> read_units Inside (c :: k) = read_units Inside k.
Proof.
  intros H. cbn. destruct (c =? 34)%N eqn:E1; [apply N.eqb_eq in E1; by subst |]. destruct (c =? 92)%N eqn:E2; [apply N.eqb_eq in E2; by subst | done].
Qed.

Lemma short_escape_fine c e : short_escape c = Some e -> (e =? 63)%N = false.
Proof.
  unfold short_escape, escapes. cbn. repeat case_match; intros; by simplify_eq.
Qed.

Lemma read_low d k : is_low d = true -> read_units Inside (d :: k) = read_units Inside k.
Proof. intros H. apply read_char. unfold is_low in H. apply andb_prop in H as [H%N.leb_le _]. unfold short_escape, escapes. cbn. repeat case_decide; try lia. done. Qed.

Lemma read_quoted s k : read_units Inside (quote_units s ++ k) = read_units Inside k.
Proof.
  induction s as [s IH] using (induction_ltof1 _ length). unfold ltof in IH. destruct s as [|c r]; [done |]. cbn [quote_units].
  destruct (short_escape c) as [e|] eqn:E.
  - cbn. rewrite (short_escape_fine _ _ E). cbn. apply IH. cbn. lia.
  - destruct (c <? 32)%N; [cbn [app]; rewrite <- app_assoc, read_hex; apply IH; cbn; lia |].
    destruct (is_high c).
    + destruct r as [|d r']; [cbn [app]; rewrite <- app_assoc, read_hex; apply IH; cbn; lia |].
      destruct (is_low d) eqn:Ed; [cbn [app]; rewrite read_char, read_low by done; apply IH; cbn; lia |].
      cbn [app]. rewrite <- app_assoc, read_hex. apply IH. cbn. lia.
    + destruct (is_low c); [cbn [app]; rewrite <- app_assoc, read_hex; apply IH; cbn; lia |].
      cbn [app]. rewrite read_char by done. apply IH. cbn. lia.
Qed.

Lemma read_quote s k : read_units Outside (quote s ++ k) = read_units Outside k.
Proof. unfold quote. cbn [app]. rewrite <- app_assoc. cbn. by rewrite read_quoted. Qed.

Lemma read_join l k : Forall (fun s => forall k, read_units Outside (s ++ k) = read_units Outside k) l ->
  read_units Outside (join (js ",") l ++ k) = read_units Outside k.
Proof.
  induction 1 as [|s l Hs Hl IH]; [done |]. destruct l as [|s' l]; [apply Hs |].
  change (join (js ",") (s :: s' :: l)) with (s ++ js "," ++ join (js ",") (s' :: l)). rewrite <- !app_assoc, Hs. cbn. exact IH.
Qed.

Lemma read_sign sign k : forallb plain sign = true -> read_units Outside (sign ++ k) = read_units Outside k.
Proof. intros H. rewrite read_units_app, read_plain; [done | done |]. apply Forall_forall. intros c Hc. rewrite forallb_forall in H. by apply H, list_elem_of_In. Qed.

(** Every JSON text is read from outside to outside. *)
Lemma read_json v k : read_units Outside (JSON_stringify v ++ k) = read_units Outside k.
Proof.
  revert k. induction v as [|b|n|s|l IH|l IH] using json_rect_nested; intros k.
  - done.
  - by destruct b.
  - cbn [JSON_stringify]. destruct (isFinite n); [| done]. rewrite read_units_app, read_plain; [done | done | apply num_to_str_plain].
  - apply read_quote.
  - cbn [JSON_stringify]. rewrite <- !app_assoc, read_sign, read_join, read_sign by done || (apply Forall_map; exact IH). done.
  - cbn [JSON_stringify]. rewrite <- !app_assoc, read_sign by done. rewrite read_join, read_sign; [done | done |]. apply Forall_map. eapply Forall_impl; [exact IH |].
    intros [key v] Hv k'. cbn [snd] in Hv. cbn [compose]. unfold compose. rewrite <- !app_assoc, read_quote, read_sign by done. apply Hv.
Qed.

Lemma read_params config : read_units Outside (params_text config) = Some Outside.
Proof.
  unfold params_text. destruct (gc_params config) as [p|]; [| done]. destruct (j_truthy p); [| done].
  rewrite <- (app_nil_r (JSON_stringify p)), read_json. done.
Qed.

(** A JSON text is not the end of another one after a question mark. *)
Lemma no_json_suffix w j : read_units Outside (w ++ 63%N :: j) = Some Outside -> read_units Outside j = Some Outside -> False.
Proof.
  rewrite read_units_app. destruct (read_units Outside w) as [[]|]; cbn; try done. intros H1 H2. by destruct (readings_opposite _ _ _ H2 H1) as [[_ ?] | [? _]].
Qed.

(** The key of a request determines the address and the text of the parameters. *)
Lemma get_key_injective url config url' config' : get_key url config = get_key url' config' -> url = url' /\ params_text config = params_text config'.
Proof.
  unfold get_key. fold (params_text config) (params_text config'). intros E. apply app_eq_inv in E as [(k & -> & E) | (k & -> & E)]; cbn in E.
  all: destruct k as [|c k]; [rewrite app_nil_r; injection E as ->; done | injection E as <- E].
  - pose proof (read_params config') as H. rewrite E in H. cbn in H. exfalso. apply (no_json_suffix k (params_text config)); [exact H | apply read_params].
  - pose proof (read_params config) as H. rewrite E in H. cbn in H. exfalso. apply (no_json_suffix k (params_text config')); [exact H | apply read_params].
Qed.

(** The map holds exactly the shared requests under way, by their keys; callers are served by requests for what they asked. *)
Record client_inv (s : ApiClient) : Prop := {
  ci_map : forall key i, map_get key (ac_inFlightGet s) = Some i <->
    exists r, ac_sent s !! i = Some r /\ sg_done r = false /\ shared r = true /\ sent_key r = key;
  ci_callers : forall url config i, (url, config, i) ∈ ac_callers s ->
    exists r, ac_sent s !! i = Some r /\ sent_key r = get_key url config /\ (gc_disableDuplicate config = true -> sg_url r = url /\ sg_config r = config)
}.

Lemma get_deleted {V} k k' (l : list (str * V)) : map_get k (obj_delete k' l) = if decide (k = k') then None else map_get k l.
Proof.
  unfold obj_delete. induction l as [|[x v] l IH]; [by case_decide |]. cbn [List.filter fst].
  destruct (decide (x = k')) as [-> | Hx].
  - assert (str_eqb k' k' = true) as -> by (unfold str_eqb; by apply bool_decide_eq_true_2). cbn [negb]. rewrite IH.
    case_decide as H; [done |]. by rewrite map_get_tail.
  - assert (str_eqb x k' = false) as -> by (unfold str_eqb; by apply bool_decide_eq_false_2). cbn [negb].
    destruct (decide (k = x)) as [-> | Hk]; [by rewrite !map_get_head, decide_False | by rewrite !map_get_tail, IH].
Qed.

Lemma sent_lookup s url config r : forall j, (ac_sent s ++ [mkSent url config false]) !! j = Some r ->
  ac_sent s !! j = Some r \/ j = length (ac_sent s) /\ r = mkSent url config false.
Proof.
  intros j Hj. apply lookup_app_Some in Hj as [Hj | [Hl Hj]]; [by left | right].
  apply list_lookup_singleton_Some in Hj as [Hj ->]. split; [lia | done].
Qed.

Lemma called_inv s url config i : client_inv s ->
  (exists r, ac_sent s !! i = Some r /\ sent_key r = get_key url config /\ (gc_disableDuplicate config = true -> sg_url r = url /\ sg_config r = config)) ->
  client_inv (called_by url config i s).
Proof.
  intros [Hm Hc] Hr. split; [done |]. intros u c j Hin. cbn in Hin. apply elem_of_app in Hin as [Hin | Hin]; [by apply Hc |].
  apply list_elem_of_singleton in Hin. by injection Hin as -> -> ->.
Qed.

Lemma sent_inv s url config : client_inv s -> gc_disableDuplicate config = true -> client_inv (snd (originalGet url config s)).
Proof.
  intros [Hm Hc] Hd. split.
  - intros key j. cbn. rewrite Hm. split; intros (r & Hr & H); exists r.
    + split; [by apply lookup_app_l_Some | done].
    + destruct (sent_lookup s url config r j Hr) as [? | [-> ->]]; [done |]. destruct H as (_ & Hs & _). unfold shared in Hs. cbn in Hs. by rewrite Hd in Hs.
  - intros u c j Hin. destruct (Hc u c j Hin) as (r & Hr & H). exists r. split; [by apply lookup_app_l_Some | done].
Qed.

Lemma shared_sent_inv s url config : client_inv s -> gc_disableDuplicate config = false -> map_get (get_key url config) (ac_inFlightGet s) = None ->
  let '(i, s') := originalGet url config s in
  client_inv (mkClient (ac_sent s') (map_set (get_key url config) i (ac_inFlightGet s')) (ac_callers s') (ac_effects s')).
Proof.
  intros [Hm Hc] Hd Hn. cbn. split; cbn [ac_sent ac_inFlightGet ac_callers].
  - intros key j. rewrite map_get_set. case_decide as E; [subst key |].
    + split.
      * intros [= <-]. exists (mkSent url config false). split; [by rewrite lookup_app_r, Nat.sub_diag by lia |]. unfold shared. cbn. by rewrite Hd.
      * intros (r & Hr & Hdone & Hs & Hk). destruct (sent_lookup s url config r j Hr) as [Hr' | [-> _]]; [| done].
        assert (map_get (get_key url config) (ac_inFlightGet s) = Some j) by (apply Hm; by exists r). congruence.
    + rewrite Hm. split; intros (r & Hr & H); exists r.
      * split; [by apply lookup_app_l_Some | done].
      * destruct (sent_lookup s url config r j Hr) as [? | [-> ->]]; [done |]. by destruct H as (_ & _ & <-).
  - intros u c j Hin. destruct (Hc u c j Hin) as (r & Hr & H). exists r. split; [by apply lookup_app_l_Some | done].
Qed.

Lemma get_inv url config s : client_inv s -> client_inv (api_get url config s).
Proof.
  intros H. assert (Hnew : forall (s' : ApiClient), ac_sent s' = ac_sent s ++ [mkSent url config false] -> client_inv s' ->
    client_inv (called_by url config (length (ac_sent s)) s')).
  { intros s' Hs Hi. apply called_inv; [done |]. exists (mkSent url config false). split; [by rewrite Hs, lookup_app_r, Nat.sub_diag by lia | done]. }
  unfold api_get. destruct (gc_disableDuplicate config) eqn:Hd.
  - apply Hnew; [done |]. by apply sent_inv.
  - destruct (map_get (get_key url config) (ac_inFlightGet s)) as [i|] eqn:Hm.
    + apply called_inv; [done |]. apply ci_map in Hm as (r & Hr & _ & _ & Hk); [| done]. exists r. rewrite Hd. done.
    + apply Hnew; [done |]. by apply (shared_sent_inv s url config).
Qed.

Lemma settle_client_inv t i o s : client_inv s -> client_inv (api_settle t i o s).
Proof.
  intros [Hm Hc]. unfold api_settle. destruct (ac_sent s !! i) as [r|] eqn:Hr; [| done]. destruct (sg_done r) eqn:Hd; [done |].
  assert (Hlt : (i < length (ac_sent s))%nat) by (by apply lookup_lt_Some in Hr).
  split; cbn [ac_sent ac_inFlightGet ac_callers].
  - intros key j.
    assert (Hget : map_get key (if shared r then obj_delete (sent_key r) (ac_inFlightGet s) else ac_inFlightGet s) =
                   if decide (shared r = true /\ key = sent_key r) then None else map_get key (ac_inFlightGet s)).
    { destruct (shared r); [| by rewrite decide_False by naive_solver]. rewrite get_deleted. by repeat case_decide; naive_solver. }
    rewrite Hget. case_decide as E.
    + split; [done |]. intros (q & Hq & Hqd & Hqs & Hqk). exfalso. destruct E as [Hs ->]. destruct (decide (j = i)) as [-> | Hj].
      * rewrite list_lookup_insert_eq in Hq by done. by injection Hq as <-.
      * rewrite list_lookup_insert_ne in Hq by done.
        assert (H1 : map_get (sent_key r) (ac_inFlightGet s) = Some i) by (apply Hm; by exists r).
        assert (H2 : map_get (sent_key r) (ac_inFlightGet s) = Some j) by (apply Hm; by exists q). congruence.
    + rewrite Hm. split; intros (q & Hq & Hqd & Hqs & Hqk); exists q.
      * split; [| done]. rewrite list_lookup_insert_ne; [done |]. intros <-. rewrite Hr in Hq. injection Hq as ->. by apply E.
      * destruct (decide (j = i)) as [-> | Hj]; [rewrite list_lookup_insert_eq in Hq by done; by injection Hq as <- |].
        by rewrite list_lookup_insert_ne in Hq by done.
  - intros u c j Hin. destruct (Hc u c j Hin) as (q & Hq & Hk). destruct (decide (j = i)) as [-> | Hj].
    + rewrite Hr in Hq. injection Hq as <-. eexists. split; [by apply list_lookup_insert_eq | exact Hk].
    + exists q. by rewrite list_lookup_insert_ne.
Qed.

Lemma run_client_inv t es : client_inv (run_client t es).
Proof.
  unfold run_client. induction es as [|e es IH] using rev_ind.
  - split; [| by intros ? ? ? ?%elem_of_nil]. intros key i. split; [done |]. by intros (r & Hr & _).
  - rewrite foldl_app. destruct e; [by apply get_inv | by apply settle_client_inv].
Qed.

(** C37: whatever is requested and however the answers come in: a caller is served by a request to the address it asked for and
    with the same parameters (as JSON texts), and by one of its own when it asked not to share; no two shared requests with the
    same address and parameters are under way at once; a request is sent exactly when no such request is under way - the key
    that the client makes of the address and the parameters never takes one request for another. *)
Theorem shared_requests_sound (t : str -> str) (es : list client_event) :
  let s := run_client t es in
  (forall url config i, (url, config, i) ∈ ac_callers s -> exists r, ac_sent s !! i = Some r /\ sg_url r = url /\ params_text (sg_config r) = params_text config /\
     (gc_disableDuplicate config = true -> sg_config r = config)) /\
  (forall i j r q, ac_sent s !! i = Some r -> ac_sent s !! j = Some q -> sg_done r = false -> sg_done q = false ->
     shared r = true -> shared q = true -> sg_url r = sg_url q -> params_text (sg_config r) = params_text (sg_config q) -> i = j) /\
  (forall url config, gc_disableDuplicate config = false ->
     let under_way := exists r, r ∈ ac_sent s /\ sg_done r = false /\ shared r = true /\ sg_url r = url /\ params_text (sg_config r) = params_text config in
     (under_way -> ac_sent (api_get url config s) = ac_sent s) /\
     (~ under_way -> ac_sent (api_get url config s) = ac_sent s ++ [mkSent url config false])).
Proof.
  intros s. destruct (run_client_inv t es : client_inv s) as [Hm Hc].
  assert (Hkey : forall url config url' config', url = url' -> params_text config = params_text config' -> get_key url config = get_key url' config')
    by (intros u c u' c' -> E; unfold get_key; fold (params_text c) (params_text c'); by rewrite E).
  split; [| split].
  - intros url config i Hin. destruct (Hc url config i Hin) as (r & Hr & Hk & Ho). apply get_key_injective in Hk as [Hu Hp].
    exists r. split; [done |]. split; [done |]. split; [done |]. by intros [_ ?]%Ho.
  - intros i j r q Hr Hq Hrd Hqd Hrs Hqs Hu Hp.
    assert (H1 : map_get (sent_key r) (ac_inFlightGet s) = Some i) by (apply Hm; by exists r).
    assert (H2 : map_get (sent_key r) (ac_inFlightGet s) = Some j) by (apply Hm; exists q; unfold sent_key; rewrite (Hkey _ _ _ _ Hu Hp); done). congruence.
  - intros url config Hd under_way. unfold api_get. rewrite Hd. split.
    + intros (r & Hin & Hrd & Hs & Hu & Hp). apply list_elem_of_lookup in Hin as [i Hi].
      assert (map_get (get_key url config) (ac_inFlightGet s) = Some i) as -> by (apply Hm; exists r; unfold sent_key; rewrite (Hkey _ _ _ _ Hu Hp); done). done.
    + intros Hno. destruct (map_get (get_key url config) (ac_inFlightGet s)) as [i|] eqn:E; [| done]. exfalso. apply Hno.
      apply Hm in E as (r & Hr & Hrd & Hs & Hk). apply get_key_injective in Hk as [Hu Hp]. exists r. split; [by apply (list_elem_of_lookup_2 _ i) | done].
Qed.

(** A caller that asks for silence and joins a request that was sent without it: the error is shown all the same. *)
Lemma joined_caller_not_silent :
  let loud := mkGetConfig None false false false in
  let silent := mkGetConfig None true true false in
  let s := run_client id [CGet (js "/api/status") loud; CGet (js "/api/status") silent; CSettle 0 (Failed (Some 500%Z) None None)] in
  ac_effects s = [ErrorToast (js "Request failed")] /\ length (ac_sent s) = 1%nat.
Proof. vm_compute. done. Qed.

(** An error is shown unless the request was sent without messages, and a session ends exactly with the answer 401. *)
Lemma errors_shown t config status data message :
  (SessionReset ∈ on_response_error t config status data message <-> status = Some 401%Z) /\
  (gc_skipErrorHandler config = false <-> exists m, ErrorToast m ∈ on_response_error t config status data message).
Proof.
  unfold on_response_error. case_bool_decide as E; destruct (gc_skipErrorHandler config); set_solver.
Qed.
