(* ===== verification/Verification.v ===== *)
(** * Secure verification

    Model of [lib/secure-verification.ts] and [features/auth/secure-verification]: a protected
    action that the server refuses until the user has confirmed it with a code or a passkey.  The
    hook keeps the action, the dialog and the answers that are awaited; actions are numbers, and
    answers come in any order.  The hook is used by the channel drawer and by the passkey card of
    the profile ([features/profile/components/passkey-card.tsx]), which close the dialog in
    different ways.

    Theorems: an open dialog has an action; an action runs again only with the answer to a
    verification that was confirmed, and is tried without one only when it is started; what a code
    looks like when it is sent; findings: closing the dialog does not stop the
    verification, and what is late acts on the dialog of another action. *)
From S2P Require Import Prelude Number Json JsonObject.

(** ** Errors that ask for a verification *)

(** What an error carries of the response of the server. *)
Record ApiError := mkApiError { ae_status : option Z; ae_code : option str; ae_message : option str }.

Definition isVerificationRequiredError (e : ApiError) : bool :=
  bool_decide (ae_status e = Some 403%Z) &&
  match ae_code e with
  | Some code => truthy code && set_has code [js "VERIFICATION_REQUIRED"; js "VERIFICATION_EXPIRED"; js "VERIFICATION_INVALID"]
  | None => false
  end.
Definition extractVerificationInfo (e : ApiError) : option str * str * bool :=
  (ae_code e, default (js "Secure verification is required") (ae_message e), true).

(** ** Methods *)

Inductive VerificationMethod := TwoFA | Passkey.
#[export] Instance VerificationMethod_eq_dec : EqDecision VerificationMethod.
Proof. solve_decision. Defined.

Record VerificationMethods := mkMethods { has2FA : bool; hasPasskey : bool; passkeySupported : bool }.
Definition defaultMethods : VerificationMethods := mkMethods false false false.

(** The answers of the two requests for the state of a method ([None]: no data). *)
Record StatusReply := mkStatusReply { sr_success : bool; sr_enabled : option bool }.
(** [None] when one of the requests failed. *)
Definition checkVerificationMethods (answers : option (StatusReply * StatusReply * bool)) : VerificationMethods :=
  match answers with
  | Some (twoFA, passkey, supported) =>
      mkMethods (sr_success twoFA && default false (sr_enabled twoFA)) (sr_success passkey && default false (sr_enabled passkey)) supported
  | None => mkMethods false false false
  end.

Definition canUseMethod (methods : VerificationMethods) (method : VerificationMethod) : bool :=
  match method with TwoFA => has2FA methods | Passkey => hasPasskey methods && passkeySupported methods end.
Definition recommendedMethod (methods : VerificationMethods) : option VerificationMethod :=
  if hasPasskey methods && passkeySupported methods then Some Passkey else if has2FA methods then Some TwoFA else None.

(** ** Verifying *)

(** What can go wrong outside: an error with a message, and two refusals of the browser that get a message here. *)
Inductive failure := Broken (message : str) | NotAllowed (message : str) | InvalidState (message : str).
(** An answer of the server: success, no success with a message, or a failure. *)
Inductive exchange := Accepted | Refused (message : option str) | Threw (f : failure).

Definition or_text (m : option str) (fallback : str) : str := match m with Some s => if truthy s then s else fallback | None => fallback end.
Definition failure_message (f : failure) : str := match f with Broken m | NotAllowed m | InvalidState m => m end.

(** The code that is sent, if one is. *)
Definition two_fa_code (code : option str) : option str := let trimmed := trim (default [] code) in if truthy trimmed then Some trimmed else None.
(** The message of the error, [None] when the verification succeeds. *)
Definition verifyTwoFA (code : option str) (answer : exchange) : option str :=
  match two_fa_code code with
  | None => Some (js "Please enter the verification code or backup code")
  | Some _ =>
      match answer with
      | Accepted => None
      | Refused m => Some (or_text m (js "Verification failed"))
      | Threw f => Some (failure_message f)
      end
  end.

(** The exchange with a passkey: begin, the credential of the browser (or none), the assertion (or none), finish, verify. *)
Record PasskeyExchange := mkPasskey {
  pk_available : bool; pk_begin : exchange; pk_credential : failure + bool; pk_assertion : failure + bool; pk_finish : exchange; pk_verify : exchange }.

(** The messages of the [catch] of [verifyPasskey]. *)
Definition passkey_failure (f : failure) : str :=
  match f with
  | Broken m => m
  | NotAllowed _ => js "Passkey verification was cancelled or timed out"
  | InvalidState _ => js "Passkey verification is not available in the current state"
  end.
Definition exchange_error (e : exchange) (fallback : str) : option str :=
  match e with Accepted => None | Refused m => Some (or_text m fallback) | Threw f => Some (passkey_failure f) end.
Definition obtained_error (r : failure + bool) (missing : str) : option str :=
  match r with inl f => Some (passkey_failure f) | inr b => if b then None else Some missing end.

Definition first_error (checks : list (option str)) : option str := foldr (fun c r => match c with Some m => Some m | None => r end) None checks.

Definition verifyPasskey (x : PasskeyExchange) : option str :=
  if negb (pk_available x) then Some (js "Passkey verification is not supported in this environment")
  else first_error
    [exchange_error (pk_begin x) (js "Failed to start verification");
     obtained_error (pk_credential x) (js "Passkey verification was cancelled");
     obtained_error (pk_assertion x) (js "Unable to build Passkey assertion");
     exchange_error (pk_finish x) (js "Passkey verification failed");
     exchange_error (pk_verify x) (js "Failed to complete verification")].

Definition verify (method : VerificationMethod) (code : option str) (answer : exchange) (x : PasskeyExchange) : option str :=
  match method with TwoFA => verifyTwoFA code answer | Passkey => verifyPasskey x end.

(** ** The hook *)

Record StartOptions := mkStart { so_preferred : option VerificationMethod; so_title : option str; so_description : option str }.

(** What is awaited: the methods of the user when the page appears or when the card asks (to register or to remove a passkey),
    the first try of an action, the methods before a verification, a verification with the action it is for, the action after
    its verification. *)
Inductive awaited :=
  | MountMethods | CardMethods (remove : bool) (call : nat) | FirstTry (call : nat) (config : StartOptions) | Methods (call : nat) (config : StartOptions)
  | Verifying (method : VerificationMethod) (code : option str) (call : nat) | Running (method : VerificationMethod) (call : nat).

Inductive verification_log :=
  | Tried (call : nat) | AskedFor (call : nat) | CodeSent (code : str) | Ran (call : nat)
  | InfoShown (message : str) | SuccessShown (message : str) | ErrorShown (message : str)
  | Succeeded (method : VerificationMethod) (call : nat) | FailedWith (message : str).

Record Verification := mkVerification {
  vf_methods : VerificationMethods; vf_restricted : option VerificationMethod;
  vf_method : option VerificationMethod; vf_loading : bool; vf_code : str;
  vf_title : option str; vf_description : option str; vf_apiCall : option nat; vf_open : bool;
  vf_awaited : list awaited; vf_log : list verification_log }.

Definition initial_verification : Verification := mkVerification defaultMethods None None false [] None None None false [MountMethods] [].

Definition awaiting (s : Verification) (l : list awaited) (log : list verification_log) : Verification :=
  mkVerification (vf_methods s) (vf_restricted s) (vf_method s) (vf_loading s) (vf_code s) (vf_title s) (vf_description s) (vf_apiCall s) (vf_open s)
    (vf_awaited s ++ l) (vf_log s ++ log).
Definition no_longer (s : Verification) (i : nat) : Verification :=
  mkVerification (vf_methods s) (vf_restricted s) (vf_method s) (vf_loading s) (vf_code s) (vf_title s) (vf_description s) (vf_apiCall s) (vf_open s)
    (delete i (vf_awaited s)) (vf_log s).
Definition set_loading (s : Verification) (b : bool) : Verification :=
  mkVerification (vf_methods s) (vf_restricted s) (vf_method s) b (vf_code s) (vf_title s) (vf_description s) (vf_apiCall s) (vf_open s) (vf_awaited s) (vf_log s).
Definition setMethods (s : Verification) (methods : VerificationMethods) : Verification :=
  mkVerification methods (vf_restricted s) (vf_method s) (vf_loading s) (vf_code s) (vf_title s) (vf_description s) (vf_apiCall s) (vf_open s) (vf_awaited s) (vf_log s).
Definition setRestrictedMethod (s : Verification) (m : option VerificationMethod) : Verification :=
  mkVerification (vf_methods s) m (vf_method s) (vf_loading s) (vf_code s) (vf_title s) (vf_description s) (vf_apiCall s) (vf_open s) (vf_awaited s) (vf_log s).
Definition setVerificationOpen (s : Verification) (open : bool) : Verification :=
  mkVerification (vf_methods s) (vf_restricted s) (vf_method s) (vf_loading s) (vf_code s) (vf_title s) (vf_description s) (vf_apiCall s) open (vf_awaited s) (vf_log s).
Definition reset_verification (s : Verification) : Verification :=
  mkVerification (vf_methods s) (vf_restricted s) None false [] None None None false (vf_awaited s) (vf_log s).

Definition setCode (s : Verification) (code : str) : Verification :=
  mkVerification (vf_methods s) (vf_restricted s) (vf_method s) (vf_loading s) code (vf_title s) (vf_description s) (vf_apiCall s) (vf_open s) (vf_awaited s) (vf_log s).
Definition switchMethod (s : Verification) (method : VerificationMethod) : Verification :=
  mkVerification (vf_methods s) (vf_restricted s) (Some method) (vf_loading s) [] (vf_title s) (vf_description s) (vf_apiCall s) (vf_open s) (vf_awaited s) (vf_log s).

(** What [verify] sends at once. *)
Definition sent_now (m : VerificationMethod) (code : option str) : list verification_log :=
  match m, two_fa_code code with TwoFA, Some c => [CodeSent c] | _, _ => [] end.

Section Hook.
Variable t : str -> str.
Variable successMessage : option str.
Variable autoReset : bool.
(** Whether the hook is used by the passkey card (or by the channel drawer), and whether the device supports passkeys. *)
Variable card : bool.
Variable supported : bool.

(** [startVerification], up to the methods and after them. *)
Definition startVerification (s : Verification) (call : nat) (config : StartOptions) : Verification := awaiting s [Methods call config] [AskedFor call].
Definition methods_answered (s : Verification) (call : nat) (config : StartOptions) (available : VerificationMethods) : Verification :=
  if negb (has2FA available) && negb (hasPasskey available) then
    setMethods (awaiting s [] [ErrorShown (t (js "Please enable Two-factor Authentication or Passkey before proceeding"));
      FailedWith (js "No verification methods available. Enable 2FA or Passkey to continue.")]) available
  else
    let defaultMethod := match so_preferred config with Some m => Some m | None => recommendedMethod available end in
    mkVerification available (vf_restricted s) defaultMethod (vf_loading s) (vf_code s) (so_title config) (so_description config) (Some call) true
      (vf_awaited s) (vf_log s).

(** [executeVerification] up to its first request. *)
Definition executeVerification (s : Verification) (method : option VerificationMethod) (code : option str) : Verification :=
  match vf_apiCall s with
  | None => awaiting s [] [ErrorShown (t (js "Verification is not configured properly"))]
  | Some call =>
      match match method with Some m => Some m | None => vf_method s end with
      | None => awaiting s [] [ErrorShown (t (js "Select a verification method first"))]
      | Some m =>
          let code := Some (default (vf_code s) code) in
          awaiting (set_loading s true) [Verifying m code call] (sent_now m code)
      end
  end.

(** The verification is answered: [None] is a success, and the action it was for runs. *)
Definition verification_answered (s : Verification) (m : VerificationMethod) (call : nat) (error : option str) : Verification :=
  match error with
  | None => awaiting s [Running m call] [Ran call]
  | Some message => set_loading (awaiting s [] [ErrorShown message; FailedWith message]) false
  end.

(** The action is answered; the card frees its methods with [onSuccess]. *)
Definition action_finished (s : Verification) (m : VerificationMethod) (call : nat) (error : option str) : Verification :=
  match error with
  | None =>
      let s := awaiting s [] (match successMessage with Some text => if truthy text then [SuccessShown text] else [] | None => [] end ++ [Succeeded m call]) in
      let s := if card then setRestrictedMethod s None else s in
      set_loading (if autoReset then reset_verification s else s) false
  | Some message => set_loading (awaiting s [] [ErrorShown message; FailedWith message]) false
  end.

(** [withVerification]: the first try, and what follows a refusal. *)
Definition withVerification (s : Verification) (call : nat) (config : StartOptions) : Verification := awaiting s [FirstTry call config] [Tried call].
Definition first_try_answered (s : Verification) (call : nat) (config : StartOptions) (error : option ApiError) : Verification :=
  match error with
  | Some e => if isVerificationRequiredError e
              then startVerification (awaiting s [] [InfoShown (snd (fst (extractVerificationInfo e)))]) call config else s
  | None => s
  end.

(** ** The passkey card *)

Definition dialogMethods (restricted : option VerificationMethod) (methods : VerificationMethods) : VerificationMethods :=
  match restricted with
  | None => methods
  | Some r => mkMethods (bool_decide (r = TwoFA) && has2FA methods) (bool_decide (r = Passkey) && hasPasskey methods) (passkeySupported methods)
  end.

Definition handleRegister (s : Verification) (call : nat) : Verification :=
  if supported then awaiting s [CardMethods false call] [] else awaiting s [] [InfoShown (t (js "This device does not support Passkey"))].
Definition register_answered (s : Verification) (call : nat) (methods : VerificationMethods) : Verification :=
  let s := setMethods s methods in
  if negb (has2FA methods) then awaiting s [] [Tried call]
  else startVerification (setRestrictedMethod s (Some TwoFA)) call
    (mkStart (Some TwoFA) (Some (t (js "Security verification")))
       (Some (t (js "Confirm your identity with Two-factor Authentication before registering a Passkey.")))).

Definition handleRemove (s : Verification) (call : nat) : Verification := awaiting s [CardMethods true call] [].
Definition remove_answered (s : Verification) (call : nat) (methods : VerificationMethods) : Verification :=
  let s := setMethods s methods in
  match if has2FA methods then Some TwoFA else if hasPasskey methods then Some Passkey else None with
  | None => awaiting s [] [ErrorShown (t (js "Please enable Two-factor Authentication or Passkey before proceeding"))]
  | Some required =>
      if bool_decide (required = Passkey) && negb (passkeySupported methods) then awaiting s [] [InfoShown (t (js "This device does not support Passkey"))]
      else startVerification (setRestrictedMethod s (Some required)) call
        (mkStart (Some required) (Some (t (js "Security verification")))
           (Some (t (js "Confirm your identity before removing this Passkey from your account."))))
  end.

Definition handleVerificationCancel (s : Verification) : Verification :=
  reset_verification (if card then setRestrictedMethod s None else s).
(** The dialog is closed by other means than its button: the drawer cancels, the card only closes. *)
Definition handleVerificationOpenChange (s : Verification) : Verification :=
  if card then setVerificationOpen (setRestrictedMethod s None) false else reset_verification s.

(** ** The dialog *)

Definition availableTabs (methods : VerificationMethods) : list VerificationMethod :=
  (if has2FA methods then [TwoFA] else []) ++ (if hasPasskey methods && passkeySupported methods then [Passkey] else []).
Definition shown_tabs (s : Verification) : list VerificationMethod := availableTabs (dialogMethods (vf_restricted s) (vf_methods s)).
Definition activeMethod (s : Verification) : option VerificationMethod :=
  match vf_method s with Some m => Some m | None => head (shown_tabs s) end.
Definition verifyDisabled (s : Verification) : bool :=
  vf_loading s || (bool_decide (activeMethod s = Some TwoFA) && (negb (truthy (trim (vf_code s))) || (length (vf_code s) <? 6)%nat)).
Definition handleVerify (s : Verification) : Verification :=
  match activeMethod s with
  | None => s
  | Some m => executeVerification s (Some m) (match m with TwoFA => Some (vf_code s) | Passkey => None end)
  end.

(** What happens: calls of the page, clicks in the open dialog (the button to cancel is disabled during a verification, the
    keyboard closes the dialog at any time), answers. *)
Inductive verification_event :=
  | PageCall (call : nat) (config : StartOptions) | CardRegister (call : nat) | CardRemove (call : nat)
  | ClickVerify | ClickCancel | CloseDialog | TypeCode (code : str) | SelectMethod (m : VerificationMethod)
  | AnswerMount (i : nat) (answers : option (StatusReply * StatusReply * bool)) | AnswerCard (i : nat) (answers : option (StatusReply * StatusReply * bool))
  | AnswerFirst (i : nat) (error : option ApiError) | AnswerMethods (i : nat) (answers : option (StatusReply * StatusReply * bool))
  | AnswerVerify (i : nat) (answer : exchange) (x : PasskeyExchange) | AnswerAction (i : nat) (error : option str).

Definition verification_step (s : Verification) (e : verification_event) : Verification :=
  match e with
  | PageCall call config => withVerification s call config
  | CardRegister call => handleRegister s call
  | CardRemove call => handleRemove s call
  | ClickVerify => if vf_open s && negb (verifyDisabled s) && negb (bool_decide (shown_tabs s = [])) then handleVerify s else s
  | ClickCancel => if vf_open s && negb (vf_loading s) then handleVerificationCancel s else s
  | CloseDialog => if vf_open s then handleVerificationOpenChange s else s
  | TypeCode code => if vf_open s && negb (vf_loading s) && bool_decide (activeMethod s = Some TwoFA) && negb (bool_decide (shown_tabs s = []))
                     then setCode s (take 8 code) else s
  | SelectMethod m => if vf_open s && bool_decide (m ∈ shown_tabs s) then switchMethod s m else s
  | AnswerMount i answers =>
      match vf_awaited s !! i with Some MountMethods => setMethods (no_longer s i) (checkVerificationMethods answers) | _ => s end
  | AnswerCard i answers =>
      match vf_awaited s !! i with
      | Some (CardMethods remove call) =>
          (if remove then remove_answered else register_answered) (no_longer s i) call (checkVerificationMethods answers)
      | _ => s
      end
  | AnswerFirst i error =>
      match vf_awaited s !! i with Some (FirstTry call config) => first_try_answered (no_longer s i) call config error | _ => s end
  | AnswerMethods i answers =>
      match vf_awaited s !! i with Some (Methods call config) => methods_answered (no_longer s i) call config (checkVerificationMethods answers) | _ => s end
  | AnswerVerify i answer x =>
      match vf_awaited s !! i with Some (Verifying m code call) => verification_answered (no_longer s i) m call (verify m code answer x) | _ => s end
  | AnswerAction i error =>
      match vf_awaited s !! i with Some (Running m call) => action_finished (no_longer s i) m call error | _ => s end
  end.
Definition run_verification (es : list verification_event) : Verification := foldl verification_step initial_verification es.
End Hook.

(** ** Theorems *)

(** What the server and the browser must have answered for a verification to be one: the code that was sent was accepted, or
    every step of the exchange with the passkey succeeded. *)
Definition accepted (m : VerificationMethod) (code : option str) (answer : exchange) (x : PasskeyExchange) : Prop :=
  match m with
  | TwoFA => answer = Accepted /\ exists c, code = Some c /\ trim c <> []
  | Passkey => pk_available x = true /\ pk_begin x = Accepted /\ pk_credential x = inr true /\ pk_assertion x = inr true /\
      pk_finish x = Accepted /\ pk_verify x = Accepted
  end.

(** What a code looks like that is sent. *)
Definition code_fit (c : str) : Prop := c <> [] /\ trim c = c /\ (length c <= 8)%nat.

(** The action of an awaited answer that leads to a run. *)
Definition awaited_call (a : awaited) : option nat :=
  match a with Methods call _ | Verifying _ _ call => Some call | _ => None end.

Record verification_inv (s : Verification) : Prop := {
  vi_open : vf_open s = true -> vf_apiCall s <> None;
  vi_call : forall call, vf_apiCall s = Some call -> AskedFor call ∈ vf_log s;
  vi_awaited : forall a call, a ∈ vf_awaited s -> awaited_call a = Some call -> AskedFor call ∈ vf_log s;
  vi_code : (length (vf_code s) <= 8)%nat;
  vi_sent : forall c, CodeSent c ∈ vf_log s -> code_fit c
}.

(** A step that adds entries to the log. *)
Lemma inv_extend (s s' : Verification) (extra : list verification_log) : verification_inv s ->
  vf_log s' = vf_log s ++ extra -> (forall c, CodeSent c ∈ extra -> code_fit c) ->
  (vf_open s' = true -> vf_apiCall s' <> None) ->
  (forall call, vf_apiCall s' = Some call -> vf_apiCall s = Some call \/ AskedFor call ∈ vf_log s') ->
  (forall a call, a ∈ vf_awaited s' -> awaited_call a = Some call -> a ∈ vf_awaited s \/ AskedFor call ∈ vf_log s') ->
  (length (vf_code s') <= 8)%nat -> verification_inv s'.
Proof.
  intros [Ho Hc Ha Hl Hs] Hlog Hsent Hopen Hcall Haw Hcode. split; [done | | | done |].
  - intros call E. destruct (Hcall call E) as [E' | E']; [| done]. rewrite Hlog. apply elem_of_app. left. by apply Hc.
  - intros a call Hin E. destruct (Haw a call Hin E) as [E' | E']; [| done]. rewrite Hlog. apply elem_of_app. left. by apply (Ha a).
  - intros c. rewrite Hlog. intros [H | H]%elem_of_app; [by apply Hs | by apply Hsent].
Qed.

Lemma no_longer_sub s i a : a ∈ vf_awaited (no_longer s i) -> a ∈ vf_awaited s.
Proof. cbn. intros (j & Hj)%list_elem_of_lookup. apply list_elem_of_lookup. destruct (decide (j < i)%nat) as [Hlt | Hge].
  - exists j. by rewrite list_lookup_delete_lt in Hj.
  - exists (S j). rewrite list_lookup_delete_ge in Hj by lia. done.
Qed.

Lemma no_longer_inv s i : verification_inv s -> verification_inv (no_longer s i).
Proof.
  intros H. apply (inv_extend s _ []); [done | by rewrite app_nil_r | by intros ? ?%elem_of_nil | apply H | by left
    | | apply H]. intros a call Hin _. left. by apply (no_longer_sub s i).
Qed.

(** A step that adds nothing to what is awaited but requests of its own, and leaves the rest. *)
Lemma awaiting_inv s l log : verification_inv s -> (forall c, CodeSent c ∈ log -> code_fit c) ->
  (forall a call, a ∈ l -> awaited_call a = Some call -> AskedFor call ∈ vf_log s ++ log) -> verification_inv (awaiting s l log).
Proof.
  intros H Hs Ha. apply (inv_extend s _ log); [done | done | done | apply H | by left | | apply H].
  intros a call [Hin | Hin]%elem_of_app E; [by left | right]. by apply (Ha a).
Qed.

(** Steps that change neither the log nor what is awaited. *)
Lemma quiet_inv s s' : verification_inv s -> vf_log s' = vf_log s -> vf_awaited s' = vf_awaited s ->
  (vf_open s' = true -> vf_apiCall s' <> None) -> (vf_apiCall s' = vf_apiCall s \/ vf_apiCall s' = None) ->
  (length (vf_code s') <= 8)%nat -> verification_inv s'.
Proof.
  intros H Hl Ha Ho Hc Hcode. apply (inv_extend s s' []); [done | by rewrite app_nil_r | by intros ? ?%elem_of_nil | done | | | done].
  - intros call E. left. destruct Hc as [Hc | Hc]; congruence.
  - rewrite Ha. by left.
Qed.

Ltac quiet := eapply quiet_inv; [eassumption | done | done | cbn; first [done | apply vi_open; assumption] | cbn; first [by left | by right] | cbn; first [lia | apply vi_code; assumption]].

Lemma set_methods_inv s ms : verification_inv s -> verification_inv (setMethods s ms).
Proof. intros H. quiet. Qed.
Lemma restricted_inv s m : verification_inv s -> verification_inv (setRestrictedMethod s m).
Proof. intros H. quiet. Qed.
Lemma loading_inv s b : verification_inv s -> verification_inv (set_loading s b).
Proof. intros H. quiet. Qed.
Lemma reset_inv s : verification_inv s -> verification_inv (reset_verification s).
Proof. intros H. quiet. Qed.
Lemma closed_inv s : verification_inv s -> verification_inv (setVerificationOpen s false).
Proof. intros H. quiet. Qed.
Lemma set_code_inv s c : verification_inv s -> (length c <= 8)%nat -> verification_inv (setCode s c).
Proof. intros H Hc. quiet. Qed.
Lemma switch_inv s m : verification_inv s -> verification_inv (switchMethod s m).
Proof. intros H. quiet. Qed.

Create HintDb verification.
#[export] Hint Resolve set_methods_inv restricted_inv loading_inv reset_inv closed_inv set_code_inv switch_inv no_longer_inv : verification.

(** Messages only. *)
Definition is_message (l : verification_log) : bool :=
  match l with CodeSent _ => false | _ => true end.
Lemma request_inv s l log : verification_inv s -> forallb is_message log = true ->
  (forall a call, a ∈ l -> awaited_call a = Some call -> AskedFor call ∈ vf_log s ++ log) -> verification_inv (awaiting s l log).
Proof.
  intros H Hm Ha. rewrite forallb_forall in Hm. apply awaiting_inv; [done | | done].
  intros c Hin. by apply list_elem_of_In, Hm in Hin.
Qed.
Lemma shown_message_inv s log : verification_inv s -> forallb is_message log = true -> verification_inv (awaiting s [] log).
Proof. intros H Hm. apply request_inv; [done | done | by intros ? ? ?%elem_of_nil]. Qed.
Lemma neutral_inv s a log : verification_inv s -> forallb is_message log = true -> awaited_call a = None -> verification_inv (awaiting s [a] log).
Proof. intros H Hm Ha. apply request_inv; [done | done |]. intros b call Hin E. apply list_elem_of_singleton in Hin as ->. congruence. Qed.
#[export] Hint Resolve shown_message_inv neutral_inv : verification.

Lemma start_inv s call config : verification_inv s -> verification_inv (startVerification s call config).
Proof.
  intros H. apply request_inv; [done | done |]. intros a c Hin E. apply list_elem_of_singleton in Hin as ->. cbn in E. set_solver.
Qed.
#[export] Hint Resolve start_inv : verification.

Lemma methods_answered_inv t s call config ms : verification_inv s -> AskedFor call ∈ vf_log s -> verification_inv (methods_answered t s call config ms).
Proof.
  intros H Hin. unfold methods_answered. destruct (negb _ && negb _); [auto with verification |].
  apply (inv_extend s _ []); [done | by rewrite app_nil_r | by intros ? ?%elem_of_nil | done | | by left | apply H].
  intros c [= <-]. by right.
Qed.

Lemma two_fa_code_fit code c : two_fa_code (Some code) = Some c -> (length code <= 8)%nat -> code_fit c.
Proof.
  unfold two_fa_code. change (default [] (Some code)) with code. cbv zeta. destruct (truthy (trim code)) eqn:E; [| done]. intros [= <-] Hl. split; [by intros Hn; rewrite Hn in E |].
  split; [apply trim_idemp | pose proof (trim_length code); lia].
Qed.

(** The hook is given its code by the dialog, which has it from the state. *)
Lemma execute_inv t s m code : verification_inv s -> (forall c, code = Some c -> (length c <= 8)%nat) -> verification_inv (executeVerification t s m code).
Proof.
  intros H Hc. unfold executeVerification. destruct (vf_apiCall s) as [call|] eqn:Ec; [| auto with verification].
  destruct (match m with Some m => Some m | None => vf_method s end) as [m'|]; [| auto with verification].
  assert (Hl : (length (default (vf_code s) code) <= 8)%nat) by (destruct code; [by apply Hc | apply H]).
  apply awaiting_inv; [auto with verification | |].
  - intros c. unfold sent_now. destruct m'; [destruct (two_fa_code _) as [c'|] eqn:E |]; try (by intros ?%elem_of_nil).
    intros Hin%list_elem_of_singleton. injection Hin as ->. by apply (two_fa_code_fit _ _ E).
  - intros a c Hin E. apply list_elem_of_singleton in Hin as ->. cbn in E. injection E as <-. apply elem_of_app. left. by apply (vi_call _ H).
Qed.

Lemma handle_verify_inv t s : verification_inv s -> verification_inv (handleVerify t s).
Proof.
  intros H. unfold handleVerify. destruct (activeMethod s) as [[]|]; [| | done].
  - apply execute_inv; [done |]. intros c [= <-]. apply H.
  - by apply execute_inv.
Qed.

Lemma verification_answered_inv s m call error : verification_inv s -> verification_inv (verification_answered s m call error).
Proof. intros H. destruct error as [message|]; cbn [verification_answered]; auto with verification. Qed.

Lemma finished_inv success auto card s m call error : verification_inv s -> verification_inv (action_finished success auto card s m call error).
Proof.
  intros H. destruct error; unfold action_finished; [auto with verification |]. apply loading_inv.
  assert (Hm : verification_inv (awaiting s [] (match success with Some text => if truthy text then [SuccessShown text] else [] | None => [] end ++ [Succeeded m call]))).
  { apply shown_message_inv; [done |]. destruct success as [text|]; [| done]. by destruct (truthy text). }
  destruct auto, card; auto with verification.
Qed.

Lemma card_answered_inv t (remove : bool) s call ms : verification_inv s ->
  verification_inv ((if remove then remove_answered t else register_answered t) s call ms).
Proof.
  intros H. destruct remove; [unfold remove_answered | unfold register_answered].
  - destruct (if has2FA ms then _ else _) as [required|]; [| auto with verification]. destruct (bool_decide _ && _); auto with verification.
  - destruct (has2FA ms); cbn [negb]; auto with verification.
Qed.

Section Runs.
Context (t : str -> str) (successMessage : option str) (autoReset card supported : bool).

Lemma asked_before s i a call : verification_inv s -> vf_awaited s !! i = Some a -> awaited_call a = Some call -> AskedFor call ∈ vf_log (no_longer s i).
Proof. intros H Hi E. cbn. apply (vi_awaited _ H a call); [by apply (list_elem_of_lookup_2 _ i) | done]. Qed.

Lemma verification_step_inv s e : verification_inv s -> verification_inv (verification_step t successMessage autoReset card supported s e).
Proof.
  intros H. destruct e; cbn [verification_step].
  - unfold withVerification. auto with verification.
  - unfold handleRegister. destruct supported; auto with verification.
  - unfold handleRemove. auto with verification.
  - destruct (_ && _); [by apply handle_verify_inv | done].
  - destruct (_ && _); [| done]. unfold handleVerificationCancel. destruct card; auto with verification.
  - destruct (vf_open s); [| done]. unfold handleVerificationOpenChange. destruct card; auto with verification.
  - destruct (_ && _); [| done]. apply set_code_inv; [done |]. rewrite length_take. lia.
  - destruct (_ && _); auto with verification.
  - destruct (vf_awaited s !! i) as [[]|]; auto with verification.
  - destruct (vf_awaited s !! i) as [[]|]; auto with verification. by apply card_answered_inv, no_longer_inv.
  - destruct (vf_awaited s !! i) as [[]|]; auto with verification. unfold first_try_answered. destruct error as [e|]; [| auto with verification].
    destruct (isVerificationRequiredError e); auto with verification.
  - destruct (vf_awaited s !! i) as [[]|] eqn:E; auto. apply methods_answered_inv; [by apply no_longer_inv | by eapply asked_before].
  - destruct (vf_awaited s !! i) as [[]|] eqn:E; auto. by apply verification_answered_inv, no_longer_inv.
  - destruct (vf_awaited s !! i) as [[]|] eqn:E; auto. by apply finished_inv, no_longer_inv.
Qed.

Lemma run_verification_inv es : verification_inv (run_verification t successMessage autoReset card supported es).
Proof.
  unfold run_verification. induction es as [|e es IH] using rev_ind.
  - split; cbn; [done | done | by intros a call ->%list_elem_of_singleton | lia | by intros ? ?%elem_of_nil].
  - rewrite foldl_app. by apply verification_step_inv.
Qed.


(** What a step may add to the log: the two ways in which an action runs. *)
Definition run_justified (s : Verification) (e : verification_event) (call : nat) : Prop :=
  exists i answer x m code, e = AnswerVerify i answer x /\ vf_awaited s !! i = Some (Verifying m code call) /\ accepted m code answer x.
Definition try_justified (s : Verification) (e : verification_event) (call : nat) : Prop :=
  (exists config, e = PageCall call config) \/
  (exists i answers, e = AnswerCard i answers /\ vf_awaited s !! i = Some (CardMethods false call) /\ has2FA (checkVerificationMethods answers) = false).
Definition log_justified (s : Verification) (e : verification_event) (s' : Verification) : Prop :=
  exists new, vf_log s' = vf_log s ++ new /\ (forall call, Ran call ∈ new -> run_justified s e call) /\ (forall call, Tried call ∈ new -> try_justified s e call).

Lemma log_by s e s' new : vf_log s' = vf_log s ++ new -> (forall call, Ran call ∈ new -> run_justified s e call) ->
  (forall call, Tried call ∈ new -> try_justified s e call) -> log_justified s e s'.
Proof. intros. by exists new. Qed.
Lemma log_same s e s' : vf_log s' = vf_log s -> log_justified s e s'.
Proof. intros E. exists []. rewrite app_nil_r. split; [done | split; intros ? ?%elem_of_nil; done]. Qed.

Lemma verify_accepted m code answer x : verify m code answer x = None -> accepted m code answer x.
Proof.
  destruct m; cbn [verify accepted].
  - unfold verifyTwoFA, two_fa_code. destruct code as [c|]; cbn [default from_option]; [| done]. unfold id. destruct (truthy (trim c)) eqn:E; [| done].
    destruct answer; [| done | done]. split; [done |]. exists c. split; [done |]. intros Hn. by rewrite Hn in E.
  - unfold verifyPasskey. destruct (pk_available x); [| done]. cbn. destruct (pk_begin x); cbn; try done.
    destruct (pk_credential x) as [|[]]; cbn; try done. destruct (pk_assertion x) as [|[]]; cbn; try done.
    destruct (pk_finish x); cbn; try done. by destruct (pk_verify x).
Qed.

Ltac logged := eapply log_by; [cbn; rewrite <- ?app_assoc; reflexivity | cbn; set_solver | cbn; set_solver].

Lemma execute_logged s e m code : log_justified s e (executeVerification t s m code).
Proof.
  unfold executeVerification. destruct (vf_apiCall s); [| logged]. destruct (match m with Some m => Some m | None => vf_method s end) as [m'|]; [| logged].
  unfold sent_now. destruct m'; [destruct (two_fa_code _) |]; logged.
Qed.

Lemma verification_step_logged s e : log_justified s e (verification_step t successMessage autoReset card supported s e).
Proof.
  destruct e; cbn [verification_step].
  - eapply log_by; [cbn; reflexivity | set_solver |]. intros c Hc. left. exists config. set_solver.
  - unfold handleRegister. destruct supported; logged.
  - logged.
  - destruct (_ && _); [| by apply log_same]. unfold handleVerify. destruct (activeMethod s); [apply execute_logged | by apply log_same].
  - destruct (_ && _); [| by apply log_same]. unfold handleVerificationCancel. destruct card; by apply log_same.
  - destruct (vf_open s); [| by apply log_same]. unfold handleVerificationOpenChange. destruct card; by apply log_same.
  - destruct (_ && _); by apply log_same.
  - destruct (_ && _); by apply log_same.
  - destruct (vf_awaited s !! i) as [[]|]; by apply log_same.
  - destruct (vf_awaited s !! i) as [[]|] eqn:E; try (by apply log_same). destruct remove; [unfold remove_answered | unfold register_answered].
    + cbv zeta. destruct (if has2FA _ then _ else _) as [required|]; [| logged]. destruct (bool_decide _ && _); logged.
    + cbv zeta. destruct (has2FA (checkVerificationMethods answers)) eqn:E2; cbn [negb]; [logged |].
      eapply log_by; [cbn; reflexivity | set_solver |]. intros c Hc. right. exists i, answers. assert (c = call) as -> by set_solver. done.
  - destruct (vf_awaited s !! i) as [[]|]; try (by apply log_same). unfold first_try_answered. destruct error as [e|]; [| by apply log_same].
    destruct (isVerificationRequiredError e); [logged | by apply log_same].
  - destruct (vf_awaited s !! i) as [[]|]; try (by apply log_same). unfold methods_answered. destruct (_ && _); [logged | by apply log_same].
  - destruct (vf_awaited s !! i) as [[]|] eqn:E; try (by apply log_same). destruct (verify method code answer x) eqn:Ev; cbn [verification_answered]; [logged |].
    eapply log_by; [cbn; reflexivity | | set_solver]. intros c Hc. assert (c = call) as -> by set_solver.
    exists i, answer, x, method, code. split; [done |]. split; [done | by apply verify_accepted].
  - destruct (vf_awaited s !! i) as [[]|]; try (by apply log_same). unfold action_finished. destruct error; [logged |].
    destruct successMessage as [text|]; [destruct (truthy text) |]; destruct card, autoReset; logged.
Qed.

(** A verification is begun by a click in the open dialog, for the action of the dialog. *)
Lemma begun_by_click s e m code call :
  Verifying m code call ∈ vf_awaited (verification_step t successMessage autoReset card supported s e) ->
  Verifying m code call ∈ vf_awaited s \/ e = ClickVerify /\ vf_open s = true /\ vf_loading s = false /\ vf_apiCall s = Some call.
Proof.
  assert (Hno : forall i l, Verifying m code call ∈ vf_awaited (no_longer s i) ++ l -> Verifying m code call ∉ l -> Verifying m code call ∈ vf_awaited s).
  { intros i l [H | H]%elem_of_app Hl; [by apply (no_longer_sub s i) | done]. }
  assert (Hnl : forall i, Verifying m code call ∈ vf_awaited (no_longer s i) -> Verifying m code call ∈ vf_awaited s) by (intros i; apply no_longer_sub).
  destruct e; cbn [verification_step].
  - cbn. set_solver.
  - unfold handleRegister. destruct supported; cbn; set_solver.
  - cbn. set_solver.
  - destruct (vf_open s && negb (verifyDisabled s) && _) eqn:E; [| by left]. apply andb_true_iff in E as [[Ho Hv]%andb_true_iff _].
    unfold verifyDisabled in Hv. apply negb_true_iff, orb_false_iff in Hv as [Hl _].
    unfold handleVerify. destruct (activeMethod s) as [m'|]; [| by left]. unfold executeVerification. destruct (vf_apiCall s) as [c|]; [| cbn; set_solver].
    cbn. intros [H | H]%elem_of_app; [by left | right]. apply list_elem_of_singleton in H. injection H as _ _ ->. done.
  - destruct (_ && _); [| by left]. unfold handleVerificationCancel. destruct card; by left.
  - destruct (vf_open s); [| by left]. unfold handleVerificationOpenChange. destruct card; by left.
  - destruct (_ && _); by left.
  - destruct (_ && _); by left.
  - destruct (vf_awaited s !! i) as [[]|]; try (by left). intros H. left. by apply (Hnl i).
  - destruct (vf_awaited s !! i) as [[]|]; try (by left). intros H. left. destruct remove; [unfold remove_answered in H | unfold register_answered in H]; cbv zeta in H.
    + destruct (if has2FA _ then _ else _) as [required|]; [destruct (bool_decide _ && _) |]; cbn in H; eapply (Hno i); try exact H; set_solver.
    + destruct (negb _); cbn in H; eapply (Hno i); try exact H; set_solver.
  - destruct (vf_awaited s !! i) as [[]|]; try (by left). intros H. left. unfold first_try_answered in H. destruct error as [e|]; [| by apply (Hnl i)].
    destruct (isVerificationRequiredError e); [| by apply (Hnl i)]. cbn in H. rewrite app_nil_r in H. eapply (Hno i); [exact H | set_solver].
  - destruct (vf_awaited s !! i) as [[]|]; try (by left). intros H. left. unfold methods_answered in H. destruct (_ && _); cbn in H; [rewrite app_nil_r in H |]; by apply (Hnl i).
  - destruct (vf_awaited s !! i) as [[]|]; try (by left). intros H. left. destruct (verify _ _ _ _); cbn in H; eapply (Hno i); try exact H; set_solver.
  - destruct (vf_awaited s !! i) as [[]|]; try (by left). intros H. left. unfold action_finished in H. destruct error; [| destruct autoReset, card]; cbn in H; eapply (Hno i); try exact H; set_solver.
Qed.

End Runs.

(** *** Findings *)

Definition demo_answers : option (StatusReply * StatusReply * bool) := Some (mkStatusReply true (Some true), mkStatusReply true (Some false), true).
Definition no_passkey : PasskeyExchange := mkPasskey false Accepted (inr false) (inr false) Accepted Accepted.
Definition demo_refusal : option ApiError := Some (mkApiError (Some 403%Z) (Some (js "VERIFICATION_REQUIRED")) None).
Definition demo_options : StartOptions := mkStart None None None.

(** The drawer with a verification under way whose dialog is closed with the keyboard. *)
Definition closed_while_verifying : list verification_event :=
  [AnswerMount 0 demo_answers; PageCall 0 demo_options; AnswerFirst 0 demo_refusal; AnswerMethods 0 demo_answers; TypeCode (js "123456"); ClickVerify; CloseDialog].

(** Closing the dialog does not stop the verification: its action runs all the same. *)
Lemma closed_dialog_still_runs :
  let run := run_verification id None true false true in
  vf_open (run closed_while_verifying) = false /\ Ran 0 ∈ vf_log (run (closed_while_verifying ++ [AnswerVerify 0 Accepted no_passkey])).
Proof. split; [vm_compute; done |]. vm_compute. repeat (first [by left | right]). Qed.

(** The end of an action that was left closes the dialog of another one, which has not been verified. *)
Lemma late_success_closes_other_dialog :
  let run := run_verification id None true false true in
  let es := closed_while_verifying ++ [AnswerVerify 0 Accepted no_passkey; PageCall 1 demo_options; AnswerFirst 1 demo_refusal; AnswerMethods 1 demo_answers] in
  vf_open (run es) = true /\ vf_apiCall (run es) = Some 1%nat /\
  vf_open (run (es ++ [AnswerAction 0 None])) = false /\ vf_apiCall (run (es ++ [AnswerAction 0 None])) = None.
Proof. vm_compute. done. Qed.

(** On the card the keyboard closes the dialog only: the code that was typed is there again for the next action. *)
Lemma card_keeps_code :
  let run := run_verification id None true true true in
  let es := [CardRegister 0; AnswerCard 1 demo_answers; AnswerMethods 1 demo_answers; TypeCode (js "123456"); CloseDialog;
             CardRemove 1; AnswerCard 1 demo_answers; AnswerMethods 1 demo_answers] in
  vf_apiCall (run es) = Some 1%nat /\ vf_open (run es) = true /\ vf_code (run es) = js "123456" /\
  vf_code (run_verification id None true true true
    [CardRegister 0; AnswerCard 1 demo_answers; AnswerMethods 1 demo_answers; TypeCode (js "123456"); ClickCancel;
     CardRemove 1; AnswerCard 1 demo_answers; AnswerMethods 1 demo_answers]) = [].
Proof. vm_compute. done. Qed.
