(* ===== verification/Wallet.v ===== *)
(** * The wallet

    Model of [features/wallet]: what is read of the configuration of top-ups, the amounts and the
    methods of payment, the page with the confirmation of a payment, the other ways to pay, codes
    and transfers ([lib/payment.ts], [lib/format.ts], [lib/billing.ts], [lib/affiliate.ts],
    [hooks], [index.tsx] and the cards and dialogs it shows).

    A request and its answer are two steps; [None] is an answer that failed.  The browser -
    opening a window, sending a form, [new URL] - is the log of effects, and the parser of
    addresses an argument. *)
From S2P Require Import Prelude Number Json JsonObject TableState.

(** ** Constants *)

Definition DEFAULT_PRESET_MULTIPLIERS : list Z := [1; 5; 10; 30; 50; 100; 300; 500]%Z.
Definition PAY_ALIPAY : str := js "alipay".
Definition PAY_STRIPE : str := js "stripe".
Definition PAY_WAFFO : str := js "waffo".
Definition PAY_WAFFO_PANCAKE : str := js "waffo_pancake".
Definition DEFAULT_PAYMENT_TYPE : str := PAY_ALIPAY.
Definition DEFAULT_DISCOUNT_RATE : num := n_of_Z 1.
Definition DEFAULT_MIN_TOPUP : num := n_of_Z 1.

(** ** Data *)

Record PaymentMethod := mkPayMethod { pm_name : str; pm_type : str; pm_color : option str; pm_icon : option str; pm_min_topup : num }.
Record WaffoPayMethod := mkWaffo { wm_name : str; wm_icon : option str; wm_payMethodType : option str; wm_payMethodName : option str }.
Inductive CreemCurrency := EUR | USD.
Record CreemProduct := mkCreem { cp_name : str; cp_productId : str; cp_price : num; cp_quota : num; cp_currency : CreemCurrency }.
Record PresetAmount := mkPreset { ps_value : num; ps_discount : option num }.

(** What the server sends: the flags and numbers as declared, the lists as they come. *)
Record TopupData := mkTopupData {
  td_online : bool; td_stripe : bool; td_min_topup : num; td_stripe_min_topup : num;
  td_waffo : bool; td_waffo_min_topup : option num; td_pancake : bool; td_pancake_min_topup : option num; td_creem : bool;
  td_redemption : option bool;
  td_pay_methods : option json; td_amount_options : option json; td_discount : option json; td_creem_products : option json; td_waffo_pay_methods : option json }.
(** The same with the lists that were read. *)
Record TopupInfo := mkTopupInfo {
  ti_data : TopupData; pay_methods : list PaymentMethod; amount_options : list num; discount : list (str * num);
  creem_products : list CreemProduct; waffo_pay_methods : list WaffoPayMethod }.

(** ** Reading the configuration *)

Definition parseJsonArray (data : option json) : list json :=
  match data with
  | Some (JArr l) => l
  | Some (JStr s) => match JSON_parse s with Some (JArr l) => l | _ => [] end
  | _ => []
  end.

Definition is_objectlike (v : json) : bool := match v with JObj _ | JArr _ => true | _ => false end.
Definition item_text (item : json) (key : str) : option str := match member item key with Some (JStr s) => Some s | _ => None end.
Definition item_number (item : json) (key : str) : num := match member item key with Some v => to_Number v | None => n_nan end.

Definition payment_method (stripeMinTopup : num) (item : json) : PaymentMethod :=
  let rawMinTopup := item_number item (js "min_topup") in
  let normalizedMinTopup := if isFinite rawMinTopup then rawMinTopup else n_zero in
  let type := default [] (item_text item (js "type")) in
  mkPayMethod (default [] (item_text item (js "name"))) type (item_text item (js "color")) (item_text item (js "icon"))
    (if str_eqb type (js "stripe") && n_leb normalizedMinTopup n_zero then stripeMinTopup else normalizedMinTopup).

Definition parsePaymentMethods (data : option json) (stripeMinTopup : num) : list PaymentMethod :=
  List.filter (fun m => truthy (pm_name m) && truthy (pm_type m) && negb (str_eqb (pm_type m) (js "waffo")))
    (map (payment_method stripeMinTopup) (List.filter is_objectlike (parseJsonArray data))).

Definition parseWaffoPayMethods (data : option json) : list WaffoPayMethod :=
  List.filter (fun m => truthy (wm_name m))
    (map (fun item => mkWaffo (default [] (item_text item (js "name"))) (item_text item (js "icon")) (item_text item (js "payMethodType"))
                        (item_text item (js "payMethodName")))
       (List.filter is_objectlike (parseJsonArray data))).

Definition parseCreemProducts (data : option json) : list CreemProduct :=
  List.filter (fun p => truthy (cp_name p) && truthy (cp_productId p))
    (map (fun item => mkCreem (default [] (item_text item (js "name"))) (default [] (item_text item (js "productId")))
                        (n_or_zero (item_number item (js "price"))) (n_or_zero (item_number item (js "quota")))
                        (if bool_decide (item_text item (js "currency") = Some (js "EUR")) then EUR else USD))
       (List.filter is_objectlike (parseJsonArray data))).

Definition parseAmountOptions (data : option json) : list num :=
  List.filter (fun item => isFinite item && n_ltb n_zero item) (map to_Number (parseJsonArray data)).

Definition discount_entry (result : list (str * num)) (e : str * json) : list (str * num) :=
  let numericKey := num_of_str (fst e) in
  let numericValue := to_Number (snd e) in
  if isFinite numericKey && isFinite numericValue then obj_set (num_to_str numericKey) numericValue result else result.
Definition parseDiscountMap (data : option json) : list (str * num) :=
  match data with
  | Some v =>
      let parsedData := match v with JStr s => if truthy s then JSON_parse s else None | _ => Some v end in
      match parsedData with Some (JObj entries) => foldl discount_entry [] entries | _ => [] end
  | None => []
  end.

(** ** Amounts *)

Definition getDefaultPaymentType (topupInfo : option TopupInfo) : str :=
  match topupInfo with
  | None => DEFAULT_PAYMENT_TYPE
  | Some i =>
      match pay_methods i with
      | m :: _ => pm_type m
      | [] =>
          if td_stripe (ti_data i) then PAY_STRIPE
          else if td_waffo (ti_data i) then PAY_WAFFO
          else if td_pancake (ti_data i) then PAY_WAFFO_PANCAKE else DEFAULT_PAYMENT_TYPE
      end
  end.

Definition or_default_min (n : option num) : num := match n with Some x => if n_truthy x then x else DEFAULT_MIN_TOPUP | None => DEFAULT_MIN_TOPUP end.
Definition getMinTopupAmount (topupInfo : option TopupInfo) : num :=
  match topupInfo with
  | None => DEFAULT_MIN_TOPUP
  | Some i =>
      let d := ti_data i in
      if td_online d then td_min_topup d
      else if td_stripe d then td_stripe_min_topup d
      else if td_waffo d then or_default_min (td_waffo_min_topup d)
      else if td_pancake d then or_default_min (td_pancake_min_topup d) else DEFAULT_MIN_TOPUP
  end.

Definition generatePresetAmounts (minAmount : num) : list PresetAmount :=
  map (fun multiplier => mkPreset (n_mul minAmount (n_of_Z multiplier)) None) DEFAULT_PRESET_MULTIPLIERS.

(** [discounts[amount] || 1]. *)
Definition discount_for (discounts : list (str * num)) (amount : num) : num :=
  match map_get (num_to_str amount) discounts with Some d => if n_truthy d then d else n_of_Z 1 | None => n_of_Z 1 end.
Definition mergePresetAmounts (amountOptions : list num) (discounts : list (str * num)) : list PresetAmount :=
  map (fun amount => mkPreset amount (Some (discount_for discounts amount))) amountOptions.

Definition topup_info (d : TopupData) : TopupInfo :=
  mkTopupInfo d (parsePaymentMethods (td_pay_methods d) (td_stripe_min_topup d)) (parseAmountOptions (td_amount_options d))
    (parseDiscountMap (td_discount d)) (parseCreemProducts (td_creem_products d)) (parseWaffoPayMethods (td_waffo_pay_methods d)).
Definition preset_amounts (i : TopupInfo) : list PresetAmount :=
  match amount_options i with
  | [] => generatePresetAmounts (getMinTopupAmount (Some i))
  | options => mergePresetAmounts options (discount i)
  end.

Record PresetPricing := mkPricing { displayValue : num; originalPrice : num; actualPrice : num; savedAmount : num; hasDiscount : bool }.
Definition calculatePresetPricing (presetValue priceRatio discount usdExchangeRate : num) : PresetPricing :=
  let originalPrice := n_mul presetValue priceRatio in
  let actualPrice := n_mul originalPrice discount in
  mkPricing (n_mul presetValue usdExchangeRate) originalPrice actualPrice (n_sub originalPrice actualPrice) (n_ltb discount (n_of_Z 1)).
(** The discount of a preset on its button. *)
Definition preset_discount (i : option TopupInfo) (p : PresetAmount) : num :=
  match ps_discount p with
  | Some d => if n_truthy d then d else match i with Some i => discount_for (discount i) (ps_value p) | None => n_of_Z 1 end
  | None => match i with Some i => discount_for (discount i) (ps_value p) | None => n_of_Z 1 end
  end.

Definition getDiscountLabel (discount : num) : str :=
  if n_leb DEFAULT_DISCOUNT_RATE discount then []
  else num_to_str (math_round (n_mul (n_sub (n_of_Z 1) discount) (n_of_Z 100))) ++ js "% OFF".

Definition formatCreemPrice (price : num) (currency : CreemCurrency) : str :=
  match currency with EUR => js "€" | USD => js "$" end ++ to_fixed price 2.
Definition formatQuotaShort (quota : num) : str :=
  if n_leb (n_of_Z 1000000) quota then to_fixed (n_div quota (n_of_Z 1000000)) 1 ++ js "M"
  else if n_leb (n_of_Z 1000) quota then to_fixed (n_div quota (n_of_Z 1000)) 1 ++ js "K"
  else num_to_str quota.

(** ** Requests and answers *)

Record WalletReply := mkReply { wr_success : option bool; wr_message : option str; wr_data : option json; wr_url : option str }.
Definition isApiSuccess (r : WalletReply) : bool := bool_decide (wr_success r = Some true) || bool_decide (wr_message r = Some (js "success")).

Inductive wallet_effect :=
  | AskAmount (path : str) (amount : num) | AskPayment (path : str) (amount : num) (method : option str) | AskWaffo (amount : num) (index : nat)
  | AskCreem (product : str) | AskRedeem (code : str) | AskTransfer (quota : num) | AskTopupInfo | AskSelf
  | OpenWindow (url : str) | SendForm (url : str) (new_tab : bool) (fields : list (str * str)) | Navigate (url : str)
  | ToastSuccess (message : str) | ToastError (message : str).

Definition isStripePayment (paymentType : str) : bool := str_eqb paymentType PAY_STRIPE.
Definition isWaffoPancakePayment (paymentType : str) : bool := str_eqb paymentType PAY_WAFFO_PANCAKE.

(** [userAgent.indexOf('Safari') > -1 && userAgent.indexOf('Chrome') < 1]. *)
Definition isSafariBrowser (userAgent : str) : bool :=
  str_includes userAgent (js "Safari") && (negb (str_includes userAgent (js "Chrome")) || starts_with userAgent (js "Chrome")).
Definition submitPaymentForm (userAgent url : str) (params : json) : wallet_effect :=
  SendForm url (negb (isSafariBrowser userAgent)) (map (fun e => (fst e, to_String (snd e))) (default [] (entries_of params))).

Definition message_else (t : str -> str) (message : option str) (fallback : str) : str := opt_str_or message (t fallback).

Section Answers.
Variable t : str -> str.
Variable userAgent : str.
(** [new URL(text).protocol], [None] when the constructor throws. *)
Variable protocol_of : str -> option str.

Definition amount_path (paymentType : str) : str :=
  if isStripePayment paymentType then js "/api/user/stripe/amount"
  else if isWaffoPancakePayment paymentType then js "/api/user/waffo-pancake/amount" else js "/api/user/amount".

(** The number that [calculatePaymentAmount] puts on the page. *)
Definition calculated_amount (answer : option WalletReply) : num :=
  match answer with
  | Some r =>
      match wr_data r with
      | Some d => if isApiSuccess r && j_truthy d then parseFloat (to_String d) else n_zero
      | None => n_zero
      end
  | None => n_zero
  end.

Definition math_floor (x : num) : num := match floor_Z x with Some z => n_of_Z z | None => x end.

(** [processPayment]: the request, and what its answer leads to. *)
Definition payment_request (topupAmount : num) (paymentType : str) : wallet_effect :=
  if isStripePayment paymentType then AskPayment (js "/api/user/stripe/pay") (math_floor topupAmount) (Some (js "stripe"))
  else AskPayment (js "/api/user/pay") (math_floor topupAmount) (Some paymentType).
Definition data_field (r : WalletReply) (key : str) : option json := match wr_data r with Some d => member d key | None => None end.
Definition payment_answered (paymentType : str) (answer : option WalletReply) : list wallet_effect * bool :=
  match answer with
  | None => ([ToastError (t (js "Payment request failed"))], false)
  | Some r =>
      if negb (isApiSuccess r) then ([ToastError (message_else t (wr_message r) (js "Payment request failed"))], false)
      else if isStripePayment paymentType then
        match data_field r (js "pay_link") with
        | Some link => if j_truthy link then ([OpenWindow (to_String link); ToastSuccess (t (js "Redirecting to payment page..."))], true) else ([], false)
        | None => ([], false)
        end
      else
        match wr_data r, wr_url r with
        | Some d, Some url =>
            if j_truthy d && truthy url
            then ([submitPaymentForm userAgent url d; ToastSuccess (t (js "Redirecting to payment page..."))], true) else ([], false)
        | _, _ => ([], false)
        end
  end.

(** An address of the answer, under the key of its kind. *)
Definition url_field (r : WalletReply) (key : str) : option str :=
  match wr_data r with Some d => if is_objectlike d then item_text d key else None | None => None end.
Definition getErrorMessage (r : WalletReply) : str :=
  match wr_data r with
  | Some (JStr s) => if truthy (trim s) then s else message_else t (wr_message r) (js "Payment request failed")
  | _ => message_else t (wr_message r) (js "Payment request failed")
  end.

Definition waffo_answered (answer : option WalletReply) : list wallet_effect * bool :=
  match answer with
  | None => ([ToastError (t (js "Payment request failed"))], false)
  | Some r =>
      match url_field r (js "payment_url") with
      | Some url => if isApiSuccess r && truthy url then ([OpenWindow url; ToastSuccess (t (js "Redirecting to payment page..."))], true)
                    else ([ToastError (getErrorMessage r)], false)
      | None => ([ToastError (getErrorMessage r)], false)
      end
  end.

Definition isSafeHttpCheckoutUrl (value : str) : bool :=
  let trimmed := trim value in
  truthy trimmed && match protocol_of trimmed with Some p => str_eqb p (js "http:") || str_eqb p (js "https:") | None => false end.

Definition pancake_request (topupAmount : num) : wallet_effect := AskPayment (js "/api/user/waffo-pancake/pay") (math_floor topupAmount) None.
Definition pancake_answered (answer : option WalletReply) : list wallet_effect * bool :=
  match answer with
  | None => ([ToastError (t (js "Payment request failed"))], false)
  | Some r =>
      match url_field r (js "checkout_url") with
      | Some url =>
          if isApiSuccess r && truthy url then
            if isSafeHttpCheckoutUrl url then ([ToastSuccess (t (js "Redirecting to payment page...")); Navigate url], true)
            else ([ToastError (t (js "Invalid payment redirect URL"))], false)
          else ([ToastError (getErrorMessage r)], false)
      | None => ([ToastError (getErrorMessage r)], false)
      end
  end.

Definition creem_answered (answer : option WalletReply) : list wallet_effect * bool :=
  match answer with
  | None => ([ToastError (t (js "Payment request failed"))], false)
  | Some r =>
      match data_field r (js "checkout_url") with
      | Some url => if isApiSuccess r && j_truthy url then ([OpenWindow (to_String url); ToastSuccess (t (js "Redirecting to Creem checkout..."))], true)
                    else ([ToastError (message_else t (wr_message r) (js "Payment request failed"))], false)
      | None => ([ToastError (message_else t (wr_message r) (js "Payment request failed"))], false)
      end
  end.
End Answers.

(** ** The page: amount, price and payment *)

(** What is awaited: the configuration, a price (whether a click on a method asked for it, the address and the amount), a payment
    of the dialog, a payment with Waffo. *)
Inductive wallet_awaited := InfoAwaited | PriceAwaited (clicked : bool) (path : str) (amount : num) | PaymentAwaited (type : str) | WaffoAwaited.

Record Wallet := mkWallet {
  wl_info : option TopupInfo; wl_presets : list PresetAmount; wl_infoLoading : bool;
  wl_amount : num; wl_field : str; wl_selectedPreset : option num; wl_method : option PaymentMethod; wl_paymentLoading : option str; wl_confirmOpen : bool;
  wl_price : num; wl_calculating : bool; wl_processing : bool; wl_pancakeProcessing : bool;
  wl_awaited : list wallet_awaited; wl_effects : list wallet_effect }.

Definition initial_wallet : Wallet :=
  mkWallet None [] true n_zero (js "0") None None None false n_zero false false false [InfoAwaited] [AskTopupInfo].

Definition wl_asked (s : Wallet) (a : list wallet_awaited) (es : list wallet_effect) : Wallet :=
  mkWallet (wl_info s) (wl_presets s) (wl_infoLoading s) (wl_amount s) (wl_field s) (wl_selectedPreset s) (wl_method s) (wl_paymentLoading s) (wl_confirmOpen s)
    (wl_price s) (wl_calculating s) (wl_processing s) (wl_pancakeProcessing s) (wl_awaited s ++ a) (wl_effects s ++ es).
Definition wl_answered (s : Wallet) (i : nat) : Wallet :=
  mkWallet (wl_info s) (wl_presets s) (wl_infoLoading s) (wl_amount s) (wl_field s) (wl_selectedPreset s) (wl_method s) (wl_paymentLoading s) (wl_confirmOpen s)
    (wl_price s) (wl_calculating s) (wl_processing s) (wl_pancakeProcessing s) (delete i (wl_awaited s)) (wl_effects s).
Definition setTopupAmount (s : Wallet) (amount : num) (preset : option num) : Wallet :=
  mkWallet (wl_info s) (wl_presets s) (wl_infoLoading s) amount (wl_field s) preset (wl_method s) (wl_paymentLoading s) (wl_confirmOpen s)
    (wl_price s) (wl_calculating s) (wl_processing s) (wl_pancakeProcessing s) (wl_awaited s) (wl_effects s).
Definition setLocalAmount (s : Wallet) (text : str) : Wallet :=
  mkWallet (wl_info s) (wl_presets s) (wl_infoLoading s) (wl_amount s) text (wl_selectedPreset s) (wl_method s) (wl_paymentLoading s) (wl_confirmOpen s)
    (wl_price s) (wl_calculating s) (wl_processing s) (wl_pancakeProcessing s) (wl_awaited s) (wl_effects s).
Definition setPrice (s : Wallet) (price : num) (calculating : bool) : Wallet :=
  mkWallet (wl_info s) (wl_presets s) (wl_infoLoading s) (wl_amount s) (wl_field s) (wl_selectedPreset s) (wl_method s) (wl_paymentLoading s) (wl_confirmOpen s)
    price calculating (wl_processing s) (wl_pancakeProcessing s) (wl_awaited s) (wl_effects s).
Definition setPayment (s : Wallet) (method : option PaymentMethod) (loading : option str) (open : bool) : Wallet :=
  mkWallet (wl_info s) (wl_presets s) (wl_infoLoading s) (wl_amount s) (wl_field s) (wl_selectedPreset s) method loading open
    (wl_price s) (wl_calculating s) (wl_processing s) (wl_pancakeProcessing s) (wl_awaited s) (wl_effects s).
Definition setProcessing (s : Wallet) (processing pancake : bool) : Wallet :=
  mkWallet (wl_info s) (wl_presets s) (wl_infoLoading s) (wl_amount s) (wl_field s) (wl_selectedPreset s) (wl_method s) (wl_paymentLoading s) (wl_confirmOpen s)
    (wl_price s) (wl_calculating s) processing pancake (wl_awaited s) (wl_effects s).
Definition setInfo (s : Wallet) (info : option TopupInfo) (presets : list PresetAmount) : Wallet :=
  mkWallet info presets false (wl_amount s) (wl_field s) (wl_selectedPreset s) (wl_method s) (wl_paymentLoading s) (wl_confirmOpen s)
    (wl_price s) (wl_calculating s) (wl_processing s) (wl_pancakeProcessing s) (wl_awaited s) (wl_effects s).

(** [calculatePaymentAmount] up to its request. *)
Definition calculatePaymentAmount (s : Wallet) (clicked : bool) (topupAmount : num) (paymentType : str) : Wallet :=
  wl_asked (setPrice s (wl_price s) true) [PriceAwaited clicked (amount_path paymentType) topupAmount] [AskAmount (amount_path paymentType) topupAmount].

Definition getCurrentPaymentType (s : Wallet) : str :=
  match wl_method s with Some m => if truthy (pm_type m) then pm_type m else getDefaultPaymentType (wl_info s) | None => getDefaultPaymentType (wl_info s) end.

(** The two effects on the amount, after a step that changed the configuration or the amount: the page starts with the least
    amount whenever the amount is zero, and the field shows the amount. *)
Definition amount_effects (info_changed : bool) (before s : Wallet) : Wallet :=
  let changed := negb (n_eqb (wl_amount before) (wl_amount s)) in
  let s := if changed then setLocalAmount s (num_to_str (wl_amount s)) else s in
  match wl_info s with
  | Some i =>
      if (info_changed || changed) && n_eqb (wl_amount s) n_zero then
        let minTopup := getMinTopupAmount (wl_info s) in
        let s' := calculatePaymentAmount (setTopupAmount s minTopup (wl_selectedPreset s)) false minTopup (getDefaultPaymentType (wl_info s)) in
        if n_eqb (wl_amount s) minTopup then s' else setLocalAmount s' (num_to_str minTopup)
      else s
  | None => s
  end.

(** [response.success && response.data]: the data, or nothing when there is none. *)
Definition info_answered (s : Wallet) (answer : option TopupData) : Wallet :=
  match answer with
  | Some d => let i := topup_info d in amount_effects true s (setInfo s (Some i) (preset_amounts i))
  | None => setInfo s (wl_info s) (wl_presets s)
  end.

Definition handleSelectPreset (s : Wallet) (preset : PresetAmount) : Wallet :=
  amount_effects false s (calculatePaymentAmount (setTopupAmount s (ps_value preset) (Some (ps_value preset))) false (ps_value preset) (getCurrentPaymentType s)).
Definition handleTopupAmountChange (s : Wallet) (amount : num) : Wallet :=
  calculatePaymentAmount (setTopupAmount s amount None) false amount (getCurrentPaymentType s).
(** The field, which holds a decimal number or nothing: [parseInt(value) || 0], passed on when it is not negative. *)
Definition handleAmountChange (s : Wallet) (value : str) : Wallet :=
  let numValue := default 0%Z (parseInt value) in
  let s' := setLocalAmount s value in
  if (0 <=? numValue)%Z then amount_effects false s (handleTopupAmountChange s' (n_of_Z numValue)) else s'.

Definition handlePaymentMethodSelect (s : Wallet) (method : PaymentMethod) : Wallet :=
  let s := setPayment s (Some method) (Some (pm_type method)) (wl_confirmOpen s) in
  if n_ltb (wl_amount s) (getMinTopupAmount (wl_info s)) then setPayment s (Some method) None (wl_confirmOpen s)
  else calculatePaymentAmount s true (wl_amount s) (pm_type method).

Section Page.
Variable t : str -> str.
Variable userAgent : str.
Variable protocol_of : str -> option str.

Definition price_answered (s : Wallet) (clicked : bool) (answer : option WalletReply) : Wallet :=
  let s := setPrice s (calculated_amount answer) false in
  if clicked then setPayment s (wl_method s) None true else s.

Definition handlePaymentConfirm (s : Wallet) : Wallet :=
  match wl_method s with
  | None => s
  | Some m =>
      if isWaffoPancakePayment (pm_type m)
      then wl_asked (setProcessing s (wl_processing s) true) [PaymentAwaited (pm_type m)] [pancake_request (wl_amount s)]
      else wl_asked (setProcessing s true (wl_pancakeProcessing s)) [PaymentAwaited (pm_type m)] [payment_request (wl_amount s) (pm_type m)]
  end.
Definition confirm_payment_answered (s : Wallet) (type : str) (answer : option WalletReply) : Wallet :=
  let pancake := isWaffoPancakePayment type in
  let '(es, success) := if pancake then pancake_answered t protocol_of answer else payment_answered t userAgent type answer in
  let s := if pancake then setProcessing s (wl_processing s) false else setProcessing s false (wl_pancakeProcessing s) in
  let s := wl_asked s [] es in
  if success then wl_asked (setPayment s (wl_method s) (wl_paymentLoading s) false) [] [AskSelf] else s.

Definition handleWaffoMethodSelect (s : Wallet) (index : nat) : Wallet :=
  wl_asked (setPayment s (wl_method s) (Some (js "waffo-" ++ show_N (N.of_nat index))) (wl_confirmOpen s)) [WaffoAwaited] [AskWaffo (math_floor (wl_amount s)) index].
Definition waffo_payment_answered (s : Wallet) (answer : option WalletReply) : Wallet :=
  setPayment (wl_asked s [] (fst (waffo_answered t answer))) (wl_method s) None (wl_confirmOpen s).

(** *** What the cards and the dialog offer *)

Definition hasConfigurableTopup (i : TopupInfo) : bool :=
  let d := ti_data i in td_online d || td_stripe d || td_waffo d || td_pancake d.
(** The amounts and the methods are shown once the configuration is there; an open dialog covers them. *)
Definition form_shown (s : Wallet) : bool :=
  negb (wl_infoLoading s) && match wl_info s with Some i => hasConfigurableTopup i | None => false end && negb (wl_confirmOpen s).
Definition loading_shown (s : Wallet) : bool := match wl_paymentLoading s with Some k => truthy k | None => false end.
Definition method_enabled (s : Wallet) (m : PaymentMethod) : bool := negb (n_ltb (wl_amount s) (n_or_zero (pm_min_topup m))) && negb (loading_shown s).
Definition waffo_enabled (s : Wallet) (i : TopupInfo) : bool :=
  td_waffo (ti_data i) && negb (n_ltb (wl_amount s) (match td_waffo_min_topup (ti_data i) with Some m => n_or_zero m | None => n_zero end)) && negb (loading_shown s).
Definition confirm_payment_enabled (s : Wallet) : bool := wl_confirmOpen s && negb (wl_processing s || wl_pancakeProcessing s).

Inductive wallet_event :=
  | ClickPreset (k : nat) | TypeAmount (text : str) | ClickMethod (k : nat) | ClickWaffo (k : nat) | ConfirmPayment | ClosePayment
  | AnswerInfo (i : nat) (answer : option TopupData) | AnswerPrice (i : nat) (answer : option WalletReply)
  | AnswerPayment (i : nat) (answer : option WalletReply) | AnswerWaffo (i : nat) (answer : option WalletReply).

Definition offered_item {A} (s : Wallet) (l : TopupInfo -> list A) (k : nat) : option A :=
  if form_shown s then i ← wl_info s; l i !! k else None.

Definition wallet_step (s : Wallet) (e : wallet_event) : Wallet :=
  match e with
  | ClickPreset k => match offered_item s (fun _ => wl_presets s) k with Some p => handleSelectPreset s p | None => s end
  | TypeAmount text => if form_shown s then handleAmountChange s text else s
  | ClickMethod k => match offered_item s pay_methods k with Some m => if method_enabled s m then handlePaymentMethodSelect s m else s | None => s end
  | ClickWaffo k =>
      match wl_info s, offered_item s waffo_pay_methods k with
      | Some i, Some _ => if waffo_enabled s i then handleWaffoMethodSelect s k else s
      | _, _ => s
      end
  | ConfirmPayment => if confirm_payment_enabled s then handlePaymentConfirm s else s
  | ClosePayment => if wl_confirmOpen s then setPayment s (wl_method s) (wl_paymentLoading s) false else s
  | AnswerInfo i answer => match wl_awaited s !! i with Some InfoAwaited => info_answered (wl_answered s i) answer | _ => s end
  | AnswerPrice i answer => match wl_awaited s !! i with Some (PriceAwaited clicked _ _) => price_answered (wl_answered s i) clicked answer | _ => s end
  | AnswerPayment i answer => match wl_awaited s !! i with Some (PaymentAwaited type) => confirm_payment_answered (wl_answered s i) type answer | _ => s end
  | AnswerWaffo i answer => match wl_awaited s !! i with Some WaffoAwaited => waffo_payment_answered (wl_answered s i) answer | _ => s end
  end.
Definition run_wallet (es : list wallet_event) : Wallet := foldl wallet_step initial_wallet es.
End Page.

(** ** Codes, transfers and products *)

Section Others.
Variable t : str -> str.
(** [formatQuota] in the message with the quota that was added. *)
Variable added : num -> str.

(** A code in the field, before and after the answer; [self] tells whether the request for the user that follows succeeds. *)
Record RedeemState := mkRedeem { rd_code : str; rd_redeeming : bool; rd_effects : list wallet_effect }.
Definition handleRedeem (s : RedeemState) : RedeemState :=
  if negb (truthy (rd_code s)) then s
  else if negb (truthy (trim (rd_code s))) then mkRedeem (rd_code s) (rd_redeeming s) (rd_effects s ++ [ToastError (t (js "Please enter a redemption code"))])
  else mkRedeem (rd_code s) true (rd_effects s ++ [AskRedeem (rd_code s)]).
Definition redeem_answered (answer : option WalletReply) (self : bool) : list wallet_effect * bool :=
  match answer with
  | None => ([ToastError (t (js "Redemption failed"))], false)
  | Some r =>
      match wr_data r with
      | Some d =>
          if bool_decide (wr_success r = Some true) && j_truthy d
          then ([ToastSuccess (added (to_Number d)); AskSelf] ++ (if self then [] else [ToastError (t (js "Redemption failed"))]), self)
          else ([ToastError (message_else t (wr_message r) (js "Redemption failed"))], false)
      | None => ([ToastError (message_else t (wr_message r) (js "Redemption failed"))], false)
      end
  end.
Definition handleRedeem_answered (s : RedeemState) (answer : option WalletReply) (self : bool) : RedeemState :=
  let '(es, success) := redeem_answered answer self in
  mkRedeem (if success then [] else rd_code s) false (rd_effects s ++ es ++ if success then [AskSelf] else []).

(** [transferQuota] and [handleTransfer]. *)
Definition transfer_answered (answer : option WalletReply) (self : bool) : list wallet_effect * bool :=
  match answer with
  | None => ([ToastError (t (js "Transfer failed"))], false)
  | Some r =>
      if bool_decide (wr_success r = Some true)
      then ([ToastSuccess (message_else t (wr_message r) (js "Transfer successful")); AskSelf] ++ (if self then [] else [ToastError (t (js "Transfer failed"))]), self)
      else ([ToastError (message_else t (wr_message r) (js "Transfer failed"))], false)
  end.

Record CreemState := mkCreemState { cr_open : bool; cr_product : option CreemProduct; cr_processing : bool; cr_effects : list wallet_effect }.
Definition handleCreemProductSelect (s : CreemState) (product : CreemProduct) : CreemState := mkCreemState true (Some product) (cr_processing s) (cr_effects s).
Definition handleCreemConfirm (s : CreemState) : CreemState :=
  match cr_product s with
  | None => s
  | Some p => mkCreemState (cr_open s) (cr_product s) true (cr_effects s ++ [AskCreem (cp_productId p)])
  end.
Definition creem_confirm_answered (s : CreemState) (answer : option WalletReply) : CreemState :=
  let '(es, success) := creem_answered t answer in
  if success then mkCreemState false None false (cr_effects s ++ es ++ [AskSelf]) else mkCreemState (cr_open s) (cr_product s) false (cr_effects s ++ es).
End Others.

(** [origin] is that of the window. *)
Definition generateAffiliateLink (origin affCode : str) : str := origin ++ js "/sign-up?aff=" ++ affCode.

(** ** The history of payments *)

Inductive TopupStatus := TopupSuccess | TopupPending | TopupExpired.
#[export] Instance TopupStatus_eq_dec : EqDecision TopupStatus.
Proof. solve_decision. Defined.
(** Variant and label of the badge. *)
Definition getStatusConfig (status : TopupStatus) : str * str :=
  match status with
  | TopupSuccess => (js "success", js "Success")
  | TopupPending => (js "warning", js "Pending")
  | TopupExpired => (js "danger", js "Expired")
  end.
Definition PAYMENT_METHOD_NAMES : list (str * str) :=
  [(js "stripe", js "Stripe"); (js "alipay", js "Alipay"); (js "wxpay", js "WeChat Pay"); (js "waffo", js "Waffo")].
Definition getPaymentMethodName (method : str) : str := default method (map_get method PAYMENT_METHOD_NAMES).

Record TopupRecord := mkRecord { tr_id : Z; tr_trade_no : str; tr_status : TopupStatus }.

(** The query of a load, and what is asked of the server. *)
Record BillingQuery := mkQuery { bq_page : Z; bq_pageSize : Z; bq_keyword : str }.
Inductive billing_request := ListAll (q : BillingQuery) | ListOwn (q : BillingQuery) | CompleteOrder (trade_no : str).
(** [None]: the answer failed; [inl]: no success or no data, with the message. *)
Definition billing_page : Type := option (option str + list TopupRecord * Z).

(** A load with the query it is for; a completion with the query that its refresh will be for; that refresh. *)
Inductive billing_awaited := LoadAwaited (q : BillingQuery) | CompletionAwaited (trade_no : str) (q : BillingQuery) | RefreshAwaited (q : BillingQuery).

Record Billing := mkBilling {
  bl_records : list TopupRecord; bl_total : Z; bl_query : BillingQuery; bl_loading : bool; bl_completing : bool; bl_confirm : option str;
  bl_awaited : list billing_awaited; bl_requests : list billing_request; bl_toasts : list str }.

Section History.
Variable t : str -> str.
Variable isAdmin : bool.

Definition list_request (q : BillingQuery) : billing_request := if isAdmin then ListAll q else ListOwn q.
(** [fetchBillingHistory] up to its request; [a] is what is awaited. *)
Definition fetchBillingHistory (s : Billing) (q : BillingQuery) (a : billing_awaited) : Billing :=
  mkBilling (bl_records s) (bl_total s) (bl_query s) true (bl_completing s) (bl_confirm s) (bl_awaited s ++ [a]) (bl_requests s ++ [list_request q]) (bl_toasts s).
Definition open_billing : Billing :=
  let q := mkQuery 1 10 [] in fetchBillingHistory (mkBilling [] 0 q false false None [] [] []) q (LoadAwaited q).

Definition billing_answered (s : Billing) (i : nat) : Billing :=
  mkBilling (bl_records s) (bl_total s) (bl_query s) (bl_loading s) (bl_completing s) (bl_confirm s) (delete i (bl_awaited s)) (bl_requests s) (bl_toasts s).
Definition load_answered (s : Billing) (answer : billing_page) : Billing :=
  let '(records, total, toasts) :=
    match answer with
    | Some (inr (l, n)) => (l, n, [])
    | Some (inl message) => ([], 0%Z, [message_else t message (js "Failed to load billing history")])
    | None => ([], 0%Z, [t (js "Failed to load billing history")])
    end in
  mkBilling records total (bl_query s) false (bl_completing s) (bl_confirm s) (bl_awaited s) (bl_requests s) (bl_toasts s ++ toasts).

(** A change of the query, which is loaded when it differs. *)
Definition change_query (s : Billing) (q : BillingQuery) : Billing :=
  let s' := mkBilling (bl_records s) (bl_total s) q (bl_loading s) (bl_completing s) (bl_confirm s) (bl_awaited s) (bl_requests s) (bl_toasts s) in
  if bool_decide (bq_page q = bq_page (bl_query s) /\ bq_pageSize q = bq_pageSize (bl_query s) /\ bq_keyword q = bq_keyword (bl_query s)) then s'
  else fetchBillingHistory s' q (LoadAwaited q).
Definition billing_page_change (s : Billing) (newPage : Z) : Billing := change_query s (mkQuery newPage (bq_pageSize (bl_query s)) (bq_keyword (bl_query s))).
Definition billing_size_change (s : Billing) (newPageSize : Z) : Billing := change_query s (mkQuery 1 newPageSize (bq_keyword (bl_query s))).
Definition billing_search (s : Billing) (newKeyword : str) : Billing := change_query s (mkQuery 1 (bq_pageSize (bl_query s)) newKeyword).

Definition billing_state (s : Billing) (completing : bool) (confirm : option str) (toasts : list str) : Billing :=
  mkBilling (bl_records s) (bl_total s) (bl_query s) (bl_loading s) completing confirm (bl_awaited s) (bl_requests s) (bl_toasts s ++ toasts).
Definition setConfirmTradeNo (s : Billing) (trade_no : option str) : Billing := billing_state s (bl_completing s) trade_no [].

(** [handleCompleteOrder] up to its request. *)
Definition handleCompleteOrder (s : Billing) (tradeNo : str) : Billing :=
  if negb isAdmin then billing_state s (bl_completing s) (bl_confirm s) [t (js "Admin access required")]
  else
    let s := billing_state s true (bl_confirm s) [] in
    mkBilling (bl_records s) (bl_total s) (bl_query s) (bl_loading s) true (bl_confirm s) (bl_awaited s ++ [CompletionAwaited tradeNo (bl_query s)])
      (bl_requests s ++ [CompleteOrder tradeNo]) (bl_toasts s).
Definition handleConfirmComplete (s : Billing) : Billing :=
  match bl_confirm s with Some no => if truthy no then handleCompleteOrder s no else s | None => s end.
(** The order is answered: a success loads the list again, with the query of the click, before it is over. *)
Definition completion_answered (s : Billing) (q : BillingQuery) (answer : option (bool * option str)) : Billing :=
  match answer with
  | Some (true, _) => fetchBillingHistory (billing_state s (bl_completing s) (bl_confirm s) [t (js "Order completed successfully")]) q (RefreshAwaited q)
  | Some (false, message) => billing_state s false (bl_confirm s) [message_else t message (js "Failed to complete order")]
  | None => billing_state s false (bl_confirm s) [t (js "Failed to complete order")]
  end.
Definition refresh_answered (s : Billing) (answer : billing_page) : Billing := billing_state (load_answered s answer) false None [].

Inductive billing_event :=
  | BillingPage (page : Z) | BillingSize (size : Z) | BillingSearch (keyword : str)
  | ClickComplete (k : nat) | ConfirmComplete | CloseConfirm
  | AnswerLoad (i : nat) (answer : billing_page) | AnswerCompletion (i : nat) (answer : option (bool * option str)) | AnswerRefresh (i : nat) (answer : billing_page).

(** The buttons: orders are completed by administrators, one at a time, if they are pending; an open question covers the list,
    which is shown when nothing is loaded. *)
Definition complete_shown (s : Billing) (r : TopupRecord) : bool :=
  isAdmin && bool_decide (tr_status r = TopupPending) && negb (bl_completing s) && negb (bl_loading s).
Definition covered (s : Billing) : bool := match bl_confirm s with Some no => truthy no | None => false end.

Definition billing_step (s : Billing) (e : billing_event) : Billing :=
  match e with
  | BillingPage page => if covered s || bl_loading s || bool_decide (bl_records s = []) then s else billing_page_change s page
  | BillingSize size => if covered s then s else billing_size_change s size
  | BillingSearch keyword => if covered s then s else billing_search s keyword
  | ClickComplete k =>
      match bl_records s !! k with
      | Some r => if complete_shown s r && negb (covered s) then setConfirmTradeNo s (Some (tr_trade_no r)) else s
      | None => s
      end
  | ConfirmComplete => if covered s && negb (bl_completing s) then handleConfirmComplete s else s
  | CloseConfirm => if covered s then setConfirmTradeNo s None else s
  | AnswerLoad i answer => match bl_awaited s !! i with Some (LoadAwaited _) => load_answered (billing_answered s i) answer | _ => s end
  | AnswerCompletion i answer => match bl_awaited s !! i with Some (CompletionAwaited _ q) => completion_answered (billing_answered s i) q answer | _ => s end
  | AnswerRefresh i answer => match bl_awaited s !! i with Some (RefreshAwaited _) => refresh_answered (billing_answered s i) answer | _ => s end
  end.
Definition run_billing (es : list billing_event) : Billing := foldl billing_step open_billing es.
End History.
