(* ===== verification/WalletProps.v ===== *)
(** * Properties of the wallet

    The configuration of top-ups is read as the server says it; payments are asked for one at a time
    and for what the dialog shows; the price on the page is that of the amount when answers come
    in order, and need not be otherwise; orders are completed by administrators only. *)
From S2P Require Import Prelude Number Json JsonObject TableState Wallet.

(** ** The configuration *)

Definition method_usable (stripeMinTopup : num) (m : PaymentMethod) : Prop :=
  truthy (pm_name m) = true /\ truthy (pm_type m) = true /\ pm_type m <> js "waffo" /\ (isFinite (pm_min_topup m) = true \/ pm_min_topup m = stripeMinTopup).

Record info_usable (i : TopupInfo) : Prop := {
  iu_methods : Forall (method_usable (td_stripe_min_topup (ti_data i))) (pay_methods i);
  iu_amounts : Forall (fun a => isFinite a = true /\ n_ltb n_zero a = true) (amount_options i);
  iu_discounts : Forall (fun e => isFinite (snd e) = true) (discount i);
  iu_products : Forall (fun p => truthy (cp_name p) = true /\ truthy (cp_productId p) = true /\ isNaN (cp_price p) = false /\ isNaN (cp_quota p) = false) (creem_products i);
  iu_waffo : Forall (fun m => truthy (wm_name m) = true) (waffo_pay_methods i)
}.

Lemma Forall_filter_map {A B} (P : B -> Prop) (keep : B -> bool) (f : A -> B) l :
  (forall a, keep (f a) = true -> P (f a)) -> Forall P (List.filter keep (map f l)).
Proof.
  intros H. induction l as [|a l IH]; [constructor |]. cbn [map List.filter]. destruct (keep (f a)) eqn:E; [| exact IH].
  constructor; [by apply H | exact IH].
Qed.

Lemma payment_methods_usable data min : Forall (method_usable min) (parsePaymentMethods data min).
Proof.
  apply Forall_filter_map. intros item. rewrite !andb_true_iff, negb_true_iff. intros [[Hn Ht] Hw].
  split; [done |]. split; [done |]. split; [by intros E; rewrite E in Hw |].
  cbn [pm_min_topup payment_method]. destruct (_ && _); [by right |]. left. by destruct (isFinite (item_number item (js "min_topup"))) eqn:E.
Qed.

Lemma or_zero_not_nan x : isNaN (n_or_zero x) = false.
Proof. unfold n_or_zero, n_truthy. by destruct x as [[]|[]| |[]]. Qed.

Lemma discount_map_finite data : Forall (fun e => isFinite (snd e) = true) (parseDiscountMap data).
Proof.
  assert (Hfold : forall entries r, Forall (fun e => isFinite (snd e) = true) r -> Forall (fun e => isFinite (snd e) = true) (foldl discount_entry r entries)).
  { induction entries as [|e entries IH]; intros r Hr; [done |]. apply IH. unfold discount_entry. destruct (isFinite (num_of_str _) && _) eqn:E; [| done].
    apply andb_true_iff in E as [_ E]. apply Forall_forall. intros x [-> | Hx]%obj_set_elem; [done | by rewrite Forall_forall in Hr; apply Hr]. }
  unfold parseDiscountMap. destruct data as [v|]; [| constructor].
  destruct (match v with JStr s => if truthy s then JSON_parse s else None | _ => Some v end) as [[]|]; try constructor. by apply Hfold.
Qed.

Lemma topup_info_usable (d : TopupData) : info_usable (topup_info d).
Proof.
  split.
  - apply payment_methods_usable.
  - cbn. unfold parseAmountOptions. apply Forall_filter_map. intros v. by rewrite andb_true_iff.
  - apply discount_map_finite.
  - cbn. apply Forall_filter_map. intros item. cbn. rewrite andb_true_iff. intros []. auto using or_zero_not_nan.
  - cbn. by apply Forall_filter_map.
Qed.

(** *** A configuration that is sent is read as it is *)

(** How the server writes a configuration: every list as a JSON value, or as the text of one. *)
Definition opt_entry (key : str) (v : option str) : list (str * json) := match v with Some s => [(key, JStr s)] | None => [] end.
Definition method_json (m : PaymentMethod) : json :=
  JObj ([(js "name", JStr (pm_name m)); (js "type", JStr (pm_type m))] ++ opt_entry (js "color") (pm_color m) ++ opt_entry (js "icon") (pm_icon m) ++
        [(js "min_topup", JNum (pm_min_topup m))]).
Definition waffo_json (m : WaffoPayMethod) : json :=
  JObj ([(js "name", JStr (wm_name m))] ++ opt_entry (js "icon") (wm_icon m) ++ opt_entry (js "payMethodType") (wm_payMethodType m) ++
        opt_entry (js "payMethodName") (wm_payMethodName m)).
Definition product_json (p : CreemProduct) : json :=
  JObj [(js "name", JStr (cp_name p)); (js "productId", JStr (cp_productId p)); (js "price", JNum (cp_price p)); (js "quota", JNum (cp_quota p));
        (js "currency", JStr (match cp_currency p with EUR => js "EUR" | USD => js "USD" end))].
Definition discount_json (e : str * num) : str * json := let '(k, v) := e in (k, JNum v).
Definition sent_as (as_text : bool) (v : json) : option json := Some (if as_text then JStr (JSON_stringify v) else v).
Definition server_data (as_text : bool) (i : TopupInfo) : TopupData :=
  let d := ti_data i in
  mkTopupData (td_online d) (td_stripe d) (td_min_topup d) (td_stripe_min_topup d) (td_waffo d) (td_waffo_min_topup d) (td_pancake d) (td_pancake_min_topup d)
    (td_creem d) (td_redemption d)
    (sent_as as_text (JArr (map method_json (pay_methods i)))) (sent_as as_text (JArr (map JNum (amount_options i))))
    (sent_as as_text (JObj (map discount_json (discount i)))) (sent_as as_text (JArr (map product_json (creem_products i))))
    (sent_as as_text (JArr (map waffo_json (waffo_pay_methods i)))).

(** What can be configured: amounts are positive, products and the methods of Waffo have names, and numbers survive their texts. *)
Definition method_fine (m : PaymentMethod) : Prop := num_ok (pm_min_topup m) = true.
Definition product_fine (p : CreemProduct) : Prop := cp_name p <> [] /\ cp_productId p <> [] /\ num_ok (cp_price p) = true /\ num_ok (cp_quota p) = true.
Record info_fine (i : TopupInfo) : Prop := {
  if_methods : Forall method_fine (pay_methods i);
  if_amounts : Forall (fun a => num_ok a = true /\ n_ltb n_zero a = true) (amount_options i);
  if_discount : obj_wf (discount i) /\ Forall (fun e => isFinite (num_of_str (fst e)) = true /\ num_to_str (num_of_str (fst e)) = fst e /\ num_ok (snd e) = true) (discount i);
  if_products : Forall product_fine (creem_products i);
  if_waffo : Forall (fun m => wm_name m <> []) (waffo_pay_methods i)
}.

Lemma sent_array as_text l : json_ok (JArr l) -> parseJsonArray (sent_as as_text (JArr l)) = l.
Proof. intros H. destruct as_text; [| done]. cbn [sent_as parseJsonArray]. by rewrite json_roundtrip. Qed.

Lemma keep_all {A B} (keep : B -> bool) (f : A -> B) l : Forall (fun a => keep (f a) = true) l -> List.filter keep (map f l) = map f l.
Proof. induction 1 as [|a l Ha _ IH]; [done |]. cbn [map List.filter]. by rewrite Ha, IH. Qed.

Lemma truthy_of (s : str) : s <> [] -> truthy s = true.
Proof. by destruct s. Qed.

Lemma num_fine n : num_ok n = true -> isFinite n = true /\ n_or_zero n = n.
Proof.
  unfold num_ok. intros [[Hf _]%andb_prop E%bool_decide_eq_true]%andb_prop. split; [done |]. unfold n_or_zero. destruct n as [[]|[]| |]; try done; by vm_compute in E.
Qed.

(** A method that the page offers: it has a name and a type, and it is not Waffo, which has a list of its own. *)
Definition offered_method (m : PaymentMethod) : Prop := pm_name m <> [] /\ pm_type m <> [] /\ pm_type m <> js "waffo".
#[export] Instance offered_method_dec m : Decision (offered_method m).
Proof. unfold offered_method. apply _. Defined.

(** Stripe without a minimum of its own has the one for Stripe. *)
Definition with_minimum (stripe : num) (m : PaymentMethod) : PaymentMethod :=
  if decide (pm_type m = js "stripe" /\ n_leb (pm_min_topup m) n_zero = true)
  then mkPayMethod (pm_name m) (pm_type m) (pm_color m) (pm_icon m) stripe else m.

Lemma payment_method_read min m : method_fine m -> payment_method min (method_json m) = with_minimum min m.
Proof.
  intros Hm. apply num_fine in Hm as [Hf _].
  assert (item_text (method_json m) (js "name") = Some (pm_name m) /\ item_text (method_json m) (js "type") = Some (pm_type m) /\
          item_text (method_json m) (js "color") = pm_color m /\ item_text (method_json m) (js "icon") = pm_icon m /\
          item_number (method_json m) (js "min_topup") = pm_min_topup m) as (E1 & E2 & E3 & E4 & E5) by (destruct m as [? ? [] [] ?]; repeat split).
  unfold payment_method, with_minimum. rewrite E1, E2, E3, E4, E5, Hf. cbn [default from_option id]. cbv zeta.
  unfold str_eqb. case_decide as Hd.
  - destruct Hd as [-> ->]. by rewrite bool_decide_eq_true_2.
  - assert (bool_decide (pm_type m = js "stripe") && n_leb (pm_min_topup m) n_zero = false) as ->; [| by destruct m].
    case_bool_decide; [| done]. cbn [andb]. destruct (n_leb _ _) eqn:E; [| done]. by destruct Hd.
Qed.

Lemma method_json_ok m : method_fine m -> json_ok (method_json m).
Proof. unfold method_fine. intros Hm. destruct m as [? ? [] [] ?]; cbn in Hm; apply json_ok_obj; (split; [repeat constructor; done | reflexivity]). Qed.
Lemma product_json_ok p : product_fine p -> json_ok (product_json p).
Proof. intros (_ & _ & H1 & H2). destruct p as [? ? ? ? []]; cbn in H1, H2; apply json_ok_obj; (split; [repeat constructor; done | reflexivity]). Qed.
Lemma waffo_json_ok m : json_ok (waffo_json m).
Proof. destruct m as [? [] [] []]; apply json_ok_obj; (split; [repeat constructor; done | reflexivity]). Qed.

Lemma methods_read as_text l min : Forall method_fine l ->
  parsePaymentMethods (sent_as as_text (JArr (map method_json l))) min = map (with_minimum min) (filter offered_method l).
Proof.
  intros H. unfold parsePaymentMethods. rewrite sent_array by (apply json_ok_arr, Forall_map; eapply Forall_impl; [exact H | apply method_json_ok]).
  rewrite (keep_all is_objectlike) by (by apply Forall_true). rewrite map_map.
  induction H as [|m l Hm _ IH]; [done |]. cbn [map List.filter]. rewrite payment_method_read, IH, filter_cons by done.
  assert (pm_name (with_minimum min m) = pm_name m /\ pm_type (with_minimum min m) = pm_type m) as [-> ->] by (unfold with_minimum; by case_decide).
  unfold str_eqb. case_decide as Hd.
  - destruct Hd as (Hn & Ht & Hw). by rewrite (truthy_of _ Hn), (truthy_of _ Ht), bool_decide_eq_false_2.
  - destruct (pm_name m) eqn:En; [done |]. destruct (pm_type m) eqn:Et; [done |]. cbn [truthy andb]. rewrite bool_decide_eq_true_2; [done |].
    destruct (decide (pm_type m = js "waffo")) as [E | E]; [by rewrite <- Et | exfalso; apply Hd]. unfold offered_method. by rewrite En, Et in *.
Qed.

Lemma amounts_read as_text l : Forall (fun a => num_ok a = true /\ n_ltb n_zero a = true) l -> parseAmountOptions (sent_as as_text (JArr (map JNum l))) = l.
Proof.
  intros H. unfold parseAmountOptions. rewrite sent_array by (apply json_ok_arr, Forall_map; eapply Forall_impl; [exact H | by intros a []]).
  rewrite map_map. cbn [to_Number]. rewrite keep_all; [apply map_id |]. eapply Forall_impl; [exact H |]. intros a [Ha Hp]. apply num_fine in Ha as [Hf _]. by rewrite Hf, Hp.
Qed.

Lemma products_read as_text l : Forall product_fine l -> parseCreemProducts (sent_as as_text (JArr (map product_json l))) = l.
Proof.
  intros H. unfold parseCreemProducts. rewrite sent_array by (apply json_ok_arr, Forall_map; eapply Forall_impl; [exact H | apply product_json_ok]).
  rewrite (keep_all is_objectlike) by (by apply Forall_true). rewrite map_map. set (read := fun p => mkCreem _ _ _ _ _).
  assert (E : Forall (fun p => read p = p) l).
  { eapply Forall_impl; [exact H |]. intros p (Hn & Hi & Hp & Hq). apply num_fine in Hp as [_ Hp]. apply num_fine in Hq as [_ Hq].
    assert (item_text (product_json p) (js "name") = Some (cp_name p) /\ item_text (product_json p) (js "productId") = Some (cp_productId p) /\
            item_number (product_json p) (js "price") = cp_price p /\ item_number (product_json p) (js "quota") = cp_quota p /\
            (if bool_decide (item_text (product_json p) (js "currency") = Some (js "EUR")) then EUR else USD) = cp_currency p) as (E1 & E2 & E3 & E4 & E5)
      by (destruct p as [? ? ? ? []]; repeat split).
    unfold read. rewrite E1, E2, E3, E4, E5, Hp, Hq. by destruct p. }
  assert (Em : map read l = l) by (induction E as [|p l Hp _ IH]; [done |]; cbn; inversion H; subst; by rewrite Hp, IH).
  rewrite Em. rewrite <- (map_id l) at 1. rewrite keep_all; [apply map_id |]. eapply Forall_impl; [exact H |]. intros p (Hn & Hi & _). by rewrite (truthy_of _ Hn), (truthy_of _ Hi).
Qed.

Lemma waffo_read as_text l : Forall (fun m => wm_name m <> []) l -> parseWaffoPayMethods (sent_as as_text (JArr (map waffo_json l))) = l.
Proof.
  intros H. unfold parseWaffoPayMethods. rewrite sent_array by (apply json_ok_arr, Forall_map, Forall_true, waffo_json_ok).
  rewrite (keep_all is_objectlike) by (by apply Forall_true). rewrite map_map. set (read := fun m => mkWaffo _ _ _ _).
  assert (E : forall m, read m = m) by (by intros [? [] [] []]).
  assert (Em : map read l = l) by (clear H; induction l as [|m l IH]; [done |]; cbn; by rewrite E, IH).
  rewrite Em. rewrite <- (map_id l) at 1. rewrite keep_all; [apply map_id |]. eapply Forall_impl; [exact H |]. intros m Hn. by apply truthy_of.
Qed.

Lemma discount_read as_text l k :
  obj_wf l -> Forall (fun e => isFinite (num_of_str (fst e)) = true /\ num_to_str (num_of_str (fst e)) = fst e /\ num_ok (snd e) = true) l ->
  map_get k (parseDiscountMap (sent_as as_text (JObj (map discount_json l)))) = map_get k l.
Proof.
  intros Hwf H. assert (Hok : json_ok (JObj (map discount_json l))).
  { apply json_ok_wf. split; [apply Forall_map; eapply Forall_impl; [exact H | by intros [] (_ & _ & ?)] |]. destruct Hwf as [Hnd Ho]. split.
    - assert ((map discount_json l).*1 = l.*1) as -> by (clear; induction l as [|[] l IH]; [done |]; cbn; by rewrite <- IH). exact Hnd.
    - rewrite <- Ho at 2. apply (order_keys_map JNum). }
  assert (E : parseDiscountMap (sent_as as_text (JObj (map discount_json l))) = foldl discount_entry [] (map discount_json l)).
  { destruct as_text; [| done]. unfold sent_as, parseDiscountMap. by rewrite (proj1 (object_text_trim _)), json_roundtrip. }
  rewrite E. clear E Hok.
  assert (Hfold : forall r, obj_wf r -> map_get k (foldl discount_entry r (map discount_json l)) = match map_get k l with Some v => Some v | None => map_get k r end).
  { destruct Hwf as [Hnd _]. induction H as [|[key v] l (Hk & Hs & Hv) Hl IH]; intros r Hr; [done |]. cbn in Hk, Hs, Hv. apply num_fine in Hv as [Hv _].
    cbn [map foldl discount_json]. unfold discount_entry at 2. cbn [fst snd to_Number]. rewrite Hk, Hv, Hs. cbn [andb]. cbn in Hnd. apply NoDup_cons in Hnd as [Hnot Hnd].
    rewrite IH, obj_get_set by (done || by apply obj_set_wf). destruct (decide (k = key)) as [-> | Hne].
    - rewrite map_get_head, bool_decide_eq_true_2 by done. destruct (map_get key l) eqn:Eg; [| done]. exfalso. apply Hnot. apply list_elem_of_fmap. exists (key, n). split; [done | by apply map_get_elem].
    - rewrite map_get_tail, bool_decide_eq_false_2 by done. done. }
  rewrite Hfold by (split; [constructor | done]). by destruct (map_get k l).
Qed.


(** ** Requests under way *)

Definition count_of {A} (f : A -> bool) (l : list A) : nat := length (List.filter f l).

#[local] Arguments count_of : simpl never.

Lemma count_app {A} (f : A -> bool) l k : count_of f (l ++ k) = (count_of f l + count_of f k)%nat.
Proof. unfold count_of. by rewrite List.filter_app, length_app. Qed.
Lemma count_delete {A} (f : A -> bool) l i a : l !! i = Some a -> count_of f l = ((if f a then 1 else 0) + count_of f (delete i l))%nat.
Proof.
  unfold count_of. revert i. induction l as [|x l IH]; intros [|i] Hi; [done | done | |].
  - injection Hi as ->. cbn. by destruct (f a).
  - cbn in Hi. specialize (IH i Hi). change (delete (S i) (x :: l)) with (x :: delete i l). cbn [List.filter]. destruct (f x); cbn [length]; lia.
Qed.

Definition one_if (b : bool) : nat := if b then 1 else 0.
Lemma count_one {A} (f : A -> bool) x : count_of f [x] = one_if (f x).
Proof. unfold count_of. cbn. by destruct (f x). Qed.

Definition is_payment (pancake : bool) (a : wallet_awaited) : bool :=
  match a with PaymentAwaited type => Bool.eqb (isWaffoPancakePayment type) pancake | _ => false end.
Definition is_click (a : wallet_awaited) : bool := match a with PriceAwaited clicked _ _ => clicked | WaffoAwaited => true | _ => false end.

Record wallet_inv (s : Wallet) : Prop := {
  wi_info : forall i, wl_info s = Some i -> info_usable i;
  wi_processing : count_of (is_payment false) (wl_awaited s) = one_if (wl_processing s);
  wi_pancake : count_of (is_payment true) (wl_awaited s) = one_if (wl_pancakeProcessing s);
  wi_one : wl_processing s && wl_pancakeProcessing s = false;
  wi_loading : count_of is_click (wl_awaited s) = one_if (loading_shown s);
  wi_open : wl_confirmOpen s = true -> wl_method s <> None;
  wi_clicked : forall path amount, PriceAwaited true path amount ∈ wl_awaited s -> wl_method s <> None
}.

Lemma delete_sub {A} (l : list A) i x : x ∈ delete i l -> x ∈ l.
Proof.
  intros (j & Hj)%list_elem_of_lookup. apply list_elem_of_lookup. destruct (decide (j < i)%nat) as [Hlt | Hge].
  - exists j. by rewrite list_lookup_delete_lt in Hj.
  - exists (S j). by rewrite list_lookup_delete_ge in Hj by lia.
Qed.

(** Two states that agree on what the invariant reads. *)
Definition same_payments (s s' : Wallet) : Prop :=
  wl_info s' = wl_info s /\ wl_awaited s' = wl_awaited s /\ wl_processing s' = wl_processing s /\ wl_pancakeProcessing s' = wl_pancakeProcessing s /\
  wl_paymentLoading s' = wl_paymentLoading s /\ wl_confirmOpen s' = wl_confirmOpen s /\ wl_method s' = wl_method s.
Lemma same_payments_inv s s' : same_payments s s' -> wallet_inv s -> wallet_inv s'.
Proof.
  intros (H1 & H2 & H3 & H4 & H5 & H6 & H7) [Hi Hp Hq Ho Hl Hop Hc]. split; unfold loading_shown in *; rewrite ?H1, ?H2, ?H3, ?H4, ?H5, ?H6, ?H7; done.
Qed.

(** One more request is awaited. *)
Lemma asked_inv s s' a : wallet_inv s -> wl_info s' = wl_info s -> wl_awaited s' = wl_awaited s ++ [a] ->
  one_if (wl_processing s') = (one_if (wl_processing s) + one_if (is_payment false a))%nat ->
  one_if (wl_pancakeProcessing s') = (one_if (wl_pancakeProcessing s) + one_if (is_payment true a))%nat ->
  wl_processing s' && wl_pancakeProcessing s' = false ->
  one_if (loading_shown s') = (one_if (loading_shown s) + one_if (is_click a))%nat ->
  (wl_confirmOpen s' = true -> wl_method s' <> None) ->
  (wl_method s <> None -> wl_method s' <> None) -> (forall path amount, a = PriceAwaited true path amount -> wl_method s' <> None) -> wallet_inv s'.
Proof.
  intros [Hi Hp Hq Ho Hl Hop Hc] Ei Ea H1 H2 H3 H4 H5 H6 H7. split; [by rewrite Ei | | | done | | done |].
  - by rewrite Ea, count_app, count_one, Hp.
  - by rewrite Ea, count_app, count_one, Hq.
  - by rewrite Ea, count_app, count_one, Hl.
  - intros p x. rewrite Ea. intros [H | H]%elem_of_app; [by apply H6, (Hc p x) | apply (H7 p x); set_solver].
Qed.

Lemma price_asked_inv s amount type : wallet_inv s -> wallet_inv (calculatePaymentAmount s false amount type).
Proof.
  intros H. eapply (asked_inv s); [done | done | done | cbn; lia | cbn; lia | apply H | unfold loading_shown; cbn; lia | apply H | done | done].
Qed.

Lemma set_amount_inv s preset amount : wallet_inv s -> wallet_inv (setTopupAmount s amount preset).
Proof. by apply same_payments_inv. Qed.
Lemma set_field_inv s text : wallet_inv s -> wallet_inv (setLocalAmount s text).
Proof. by apply same_payments_inv. Qed.
Lemma set_price_inv s price b : wallet_inv s -> wallet_inv (setPrice s price b).
Proof. by apply same_payments_inv. Qed.
Lemma effects_inv s es : wallet_inv s -> wallet_inv (wl_asked s [] es).
Proof. apply same_payments_inv. unfold same_payments. cbn. by rewrite app_nil_r. Qed.

Create HintDb wallet.
#[export] Hint Resolve set_amount_inv set_field_inv set_price_inv effects_inv price_asked_inv : wallet.

Lemma amount_effects_inv changed before s : wallet_inv s -> wallet_inv (amount_effects changed before s).
Proof.
  intros H. unfold amount_effects. cbv zeta. set (s1 := if negb _ then setLocalAmount s _ else s). generalize (n_eqb (wl_amount before) (wl_amount s)). intros same.
  assert (H1 : wallet_inv s1) by (unfold s1; destruct (negb _); auto with wallet). clearbody s1.
  destruct (wl_info s1); [| done]. destruct (_ && _); [| done]. destruct (n_eqb _ _); auto with wallet.
Qed.
#[export] Hint Resolve amount_effects_inv : wallet.

(** A request is answered. *)
Lemma wallet_answered_inv s s' i a : wallet_inv s -> wl_awaited s !! i = Some a -> wl_info s' = wl_info s -> wl_awaited s' = delete i (wl_awaited s) ->
  one_if (wl_processing s) = (one_if (wl_processing s') + one_if (is_payment false a))%nat ->
  one_if (wl_pancakeProcessing s) = (one_if (wl_pancakeProcessing s') + one_if (is_payment true a))%nat ->
  one_if (loading_shown s) = (one_if (loading_shown s') + one_if (is_click a))%nat ->
  (wl_confirmOpen s' = true -> wl_method s' <> None) -> wl_method s' = wl_method s -> wallet_inv s'.
Proof.
  intros [Hi Hp Hq Ho Hl Hop Hc] Ha Ei Ed H1 H2 H3 H4 H5.
  pose proof (count_delete (is_payment false) _ _ _ Ha) as C1. pose proof (count_delete (is_payment true) _ _ _ Ha) as C2. pose proof (count_delete is_click _ _ _ Ha) as C3.
  split; unfold one_if in *; [by rewrite Ei | rewrite Ed; lia | rewrite Ed; lia | | rewrite Ed; lia | done |].
  - apply andb_false_iff in Ho. destruct (wl_processing s'), (wl_pancakeProcessing s'); try done. exfalso.
    destruct (wl_processing s), (wl_pancakeProcessing s), Ho; try done; cbn in *; lia.
  - intros p x. rewrite Ed, H5. intros Hin%delete_sub. by eapply Hc.
Qed.

Section Steps.
Context (t : str -> str) (userAgent : str) (protocol_of : str -> option str).

Lemma select_method_inv s m : wallet_inv s -> truthy (pm_type m) = true -> loading_shown s = false -> wallet_inv (handlePaymentMethodSelect s m).
Proof.
  intros H Ht Hl. unfold handlePaymentMethodSelect. cbn [setPayment wl_amount wl_info wl_confirmOpen]. destruct (n_ltb _ _).
  - destruct H as [Hi Hp Hq Ho Hc Hop Hcl]. rewrite Hl in Hc. by split; cbn.
  - eapply (asked_inv s); [done | done | done | cbn; lia | cbn; lia | apply H | unfold loading_shown in *; cbn; rewrite Ht, Hl; done | done | done | done].
Qed.

Lemma select_waffo_inv s k : wallet_inv s -> loading_shown s = false -> wallet_inv (handleWaffoMethodSelect s k).
Proof.
  intros H Hl. eapply (asked_inv s); [done | done | done | cbn; lia | cbn; lia | apply H | unfold loading_shown at 1; cbn; rewrite Hl; done | apply H | done | done].
Qed.

Lemma confirm_inv s : wallet_inv s -> confirm_payment_enabled s = true -> wallet_inv (handlePaymentConfirm s).
Proof.
  intros H Hen. unfold confirm_payment_enabled in Hen. rewrite andb_true_iff, negb_true_iff, orb_false_iff in Hen. destruct Hen as (Hopen & Hp & Hq).
  unfold handlePaymentConfirm. destruct (wl_method s) as [m|] eqn:Em; [| done]. destruct (isWaffoPancakePayment (pm_type m)) eqn:E;
    (eapply (asked_inv s); [done | done | done | | | | | | done | done]); unfold loading_shown; cbn; rewrite ?E, ?Hp, ?Hq, ?Em; try done; lia.
Qed.

Lemma price_answer_inv s i clicked path amount answer : wallet_inv s -> wl_awaited s !! i = Some (PriceAwaited clicked path amount) ->
  wallet_inv (price_answered (wl_answered s i) clicked answer).
Proof.
  intros H Hi. assert (Hm : clicked = true -> wl_method s <> None) by (intros ->; apply (wi_clicked _ H path amount), (list_elem_of_lookup_2 _ _ _ Hi)).
  pose proof (wi_loading _ H) as Hl. rewrite (count_delete _ _ _ _ Hi) in Hl.
  unfold price_answered. destruct clicked; (eapply (wallet_answered_inv s _ i); [done | done | done | done | cbn; lia | cbn; lia | | | done]).
  - unfold loading_shown in *. cbn in *. destruct (match wl_paymentLoading s with Some k => truthy k | None => false end); cbn in *; lia.
  - cbn. auto.
  - unfold loading_shown in *. cbn. lia.
  - apply H.
Qed.

Lemma payment_answer_inv s i type answer : wallet_inv s -> wl_awaited s !! i = Some (PaymentAwaited type) ->
  wallet_inv (confirm_payment_answered t userAgent protocol_of (wl_answered s i) type answer).
Proof.
  intros H Hi. unfold confirm_payment_answered.
  pose proof (wi_processing _ H) as Hp. pose proof (wi_pancake _ H) as Hq. rewrite (count_delete _ _ _ _ Hi) in Hp. rewrite (count_delete _ _ _ _ Hi) in Hq. cbn [is_payment] in Hp, Hq.
  assert (Hs : forall open, (open = true -> wl_method s <> None) ->
    wallet_inv (setPayment (if isWaffoPancakePayment type then setProcessing (wl_answered s i) (wl_processing s) false else setProcessing (wl_answered s i) false (wl_pancakeProcessing s))
      (wl_method s) (wl_paymentLoading s) open)).
  { intros open Ho. eapply (wallet_answered_inv s _ i); [done | exact Hi | | | | | | |]; clear Hi; destruct (isWaffoPancakePayment type) eqn:E; unfold loading_shown; cbn in *; rewrite ?E in *; cbn in *; try done; try lia.
    all: destruct (wl_processing s), (wl_pancakeProcessing s); cbn in *; lia. }
  destruct (if isWaffoPancakePayment type then pancake_answered t protocol_of answer else payment_answered t userAgent type answer) as [es success].
  assert (Hopen : wallet_inv (if isWaffoPancakePayment type then setProcessing (wl_answered s i) (wl_processing s) false else setProcessing (wl_answered s i) false (wl_pancakeProcessing s))).
  { eapply same_payments_inv; [| apply (Hs (wl_confirmOpen s)), H]. unfold same_payments. by destruct (isWaffoPancakePayment type). }
  destruct success; [| by apply effects_inv]. apply effects_inv. specialize (Hs false ltac:(done)). eapply same_payments_inv; [| exact Hs].
  unfold same_payments. destruct (isWaffoPancakePayment type); cbn; by rewrite app_nil_r.
Qed.

Lemma waffo_answer_inv s i answer : wallet_inv s -> wl_awaited s !! i = Some WaffoAwaited -> wallet_inv (waffo_payment_answered t (wl_answered s i) answer).
Proof.
  intros H Hi. pose proof (wi_loading _ H) as Hl. rewrite (count_delete _ _ _ _ Hi) in Hl.
  eapply (wallet_answered_inv s _ i); [done | exact Hi | done | cbn; by rewrite app_nil_r | cbn; lia | cbn; lia | | apply H | done].
  unfold loading_shown in *. cbn in *. destruct (match wl_paymentLoading s with Some k => truthy k | None => false end); cbn in *; lia.
Qed.

Lemma info_answer_inv s i answer : wallet_inv s -> wl_awaited s !! i = Some InfoAwaited -> wallet_inv (info_answered (wl_answered s i) answer).
Proof.
  intros H Hi.
  assert (Ha : wallet_inv (wl_answered s i)) by (eapply (wallet_answered_inv s _ i); [done | exact Hi | done | done | cbn; lia | cbn; lia | unfold loading_shown; cbn; lia | apply H | done]).
  unfold info_answered. destruct answer as [d|]; [apply amount_effects_inv | by eapply same_payments_inv; [| exact Ha]].
  destruct Ha as [_ Hp Hq Ho Hl Hop Hc]. split; cbn; try done. intros j [= <-]. apply topup_info_usable.
Qed.

Lemma usable_type s k m : wallet_inv s -> offered_item s pay_methods k = Some m -> truthy (pm_type m) = true.
Proof.
  intros H E. unfold offered_item in E. destruct (form_shown s); [| done]. destruct (wl_info s) as [i|] eqn:Ei; [| done]. cbn in E.
  pose proof (iu_methods _ (wi_info _ H i Ei)) as Hm. rewrite Forall_forall in Hm. destruct (Hm m (list_elem_of_lookup_2 _ _ _ E)) as (_ & Ht & _). done.
Qed.

Lemma wallet_step_inv s e : wallet_inv s -> wallet_inv (wallet_step t userAgent protocol_of s e).
Proof.
  intros H. destruct e; cbn [wallet_step].
  - destruct (offered_item _ _ _); [| done]. unfold handleSelectPreset. auto with wallet.
  - destruct (form_shown s); [| done]. unfold handleAmountChange, handleTopupAmountChange. destruct (0 <=? _)%Z; auto with wallet.
  - destruct (offered_item s pay_methods k) as [m|] eqn:E; [| done]. destruct (method_enabled s m) eqn:En; [| done].
    apply andb_true_iff in En as [_ En%negb_true_iff]. apply select_method_inv; [done | by eapply usable_type | done].
  - destruct (wl_info s) as [i|]; [| done]. destruct (offered_item _ _ _); [| done]. destruct (waffo_enabled s i) eqn:En; [| done].
    apply andb_true_iff in En as [_ En%negb_true_iff]. by apply select_waffo_inv.
  - destruct (confirm_payment_enabled s) eqn:E; [by apply confirm_inv | done].
  - destruct (wl_confirmOpen s); [| done]. destruct H as [Hi Hp Hq Ho Hl Hop Hc]. by split.
  - destruct (wl_awaited s !! i) as [[]|] eqn:E; try done. by apply info_answer_inv.
  - destruct (wl_awaited s !! i) as [[]|] eqn:E; try done. by eapply price_answer_inv.
  - destruct (wl_awaited s !! i) as [[]|] eqn:E; try done. by apply payment_answer_inv.
  - destruct (wl_awaited s !! i) as [[]|] eqn:E; try done. by apply waffo_answer_inv.
Qed.

Lemma run_wallet_inv es : wallet_inv (run_wallet t userAgent protocol_of es).
Proof.
  unfold run_wallet. induction es as [|e es IH] using rev_ind.
  - split; cbn; try done. intros p a. set_solver.
  - rewrite foldl_app. by apply wallet_step_inv.
Qed.

(** *** What is asked of the server *)

Definition asks_payment (e : wallet_effect) : bool := match e with AskPayment _ _ _ => true | _ => false end.

(** [s'] has the effects of [s] and others, none of which asks for a payment. *)
Definition no_payment_asked (s s' : Wallet) : Prop := exists l, wl_effects s' = wl_effects s ++ l /\ forallb (fun e => negb (asks_payment e)) l = true.

#[export] Instance no_payment_asked_preorder : PreOrder no_payment_asked.
Proof.
  split; [by intros s; exists []; rewrite app_nil_r |]. intros s u v (l & Hl & Hn) (k & Hk & Hm). exists (l ++ k).
  by rewrite Hk, Hl, app_assoc, forallb_app, Hn, Hm.
Qed.
Lemma same_effects s s' : wl_effects s' = wl_effects s -> no_payment_asked s s'.
Proof. intros E. exists []. by rewrite E, app_nil_r. Qed.
Lemma price_asked_quiet s s' clicked amount type : wl_effects s' = wl_effects s -> no_payment_asked s (calculatePaymentAmount s' clicked amount type).
Proof. intros E. eexists. cbn. by rewrite E. Qed.

Lemma amount_effects_quiet changed before s s0 : no_payment_asked s0 s -> no_payment_asked s0 (amount_effects changed before s).
Proof.
  intros H. transitivity s; [done |]. unfold amount_effects. cbv zeta. set (s1 := if negb _ then setLocalAmount s _ else s).
  generalize (n_eqb (wl_amount before) (wl_amount s)). intros same.
  assert (H1 : wl_effects s1 = wl_effects s) by (unfold s1; by destruct (negb _)). clearbody s1.
  destruct (wl_info s1); [| by apply same_effects]. destruct (_ && _); [| by apply same_effects]. destruct (n_eqb _ _); eexists; cbn; by rewrite H1.
Qed.

Lemma answer_effects_quiet type answer :
  forallb (fun e => negb (asks_payment e)) (fst (payment_answered t userAgent type answer)) = true /\
  forallb (fun e => negb (asks_payment e)) (fst (pancake_answered t protocol_of answer)) = true /\
  forallb (fun e => negb (asks_payment e)) (fst (waffo_answered t answer)) = true.
Proof.
  unfold payment_answered, pancake_answered, waffo_answered. repeat split; repeat case_match; try done.
Qed.

Lemma wallet_step_asks s e : no_payment_asked s (wallet_step t userAgent protocol_of s e) \/
  e = ConfirmPayment /\ confirm_payment_enabled s = true /\ wallet_step t userAgent protocol_of s e = handlePaymentConfirm s.
Proof.
  destruct e; cbn [wallet_step].
  5: { destruct (confirm_payment_enabled s) eqn:E; [by right | by left]. }
  all: left.
  - destruct (offered_item _ _ _); [| done]. unfold handleSelectPreset. by apply amount_effects_quiet, price_asked_quiet.
  - destruct (form_shown s); [| done]. unfold handleAmountChange, handleTopupAmountChange. destruct (0 <=? _)%Z; [| by apply same_effects].
    by apply amount_effects_quiet, price_asked_quiet.
  - destruct (offered_item _ _ _) as [m|]; [| done]. destruct (method_enabled s m); [| done]. unfold handlePaymentMethodSelect.
    destruct (n_ltb _ _); [by apply same_effects | by apply price_asked_quiet].
  - destruct (wl_info s) as [i|]; [| done]. destruct (offered_item _ _ _); [| done]. destruct (waffo_enabled s i); [| done]. by eexists.
  - destruct (wl_confirmOpen s); [by apply same_effects | done].
  - destruct (wl_awaited s !! i) as [[]|]; try done. unfold info_answered. destruct answer; [by apply amount_effects_quiet, same_effects | by apply same_effects].
  - destruct (wl_awaited s !! i) as [[]|]; try done. unfold price_answered. destruct clicked; by apply same_effects.
  - destruct (wl_awaited s !! i) as [[]|]; try done. unfold confirm_payment_answered. destruct (answer_effects_quiet type answer) as (H1 & H2 & _).
    destruct (isWaffoPancakePayment type).
    + destruct (pancake_answered _ _ _) as [es []]; cbn in H2; [exists (es ++ [AskSelf]) | exists es]; cbn; rewrite ?forallb_app, H2; split; [by rewrite app_assoc | done | done | done].
    + destruct (payment_answered _ _ _ _) as [es []]; cbn in H1; [exists (es ++ [AskSelf]) | exists es]; cbn; rewrite ?forallb_app, H1; split; [by rewrite app_assoc | done | done | done].
  - destruct (wl_awaited s !! i) as [[]|]; try done. destruct (answer_effects_quiet [] answer) as (_ & _ & H). by eexists.
Qed.
End Steps.

(** C4: whatever the user does and in whatever order answers come in, at most one payment of the dialog is under way and at most
    one click on a method; a payment is asked for only by a confirmation in the open dialog while no payment is under way, and
    then exactly once, for the whole units of the amount and for the method that the dialog shows. *)
Theorem payments_one_at_a_time (t : str -> str) (userAgent : str) (protocol_of : str -> option str) (es : list wallet_event) (e : wallet_event) :
  let s := run_wallet t userAgent protocol_of es in
  let s' := wallet_step t userAgent protocol_of s e in
  (count_of (is_payment false) (wl_awaited s) + count_of (is_payment true) (wl_awaited s) <= 1)%nat /\ (count_of is_click (wl_awaited s) <= 1)%nat /\
  (no_payment_asked s s' \/
   e = ConfirmPayment /\ wl_confirmOpen s = true /\ (count_of (is_payment false) (wl_awaited s) + count_of (is_payment true) (wl_awaited s) = 0)%nat /\
   exists m, wl_method s = Some m /\
     wl_effects s' = wl_effects s ++ [if isWaffoPancakePayment (pm_type m) then pancake_request (wl_amount s) else payment_request (wl_amount s) (pm_type m)]).
Proof.
  cbv zeta. set (s := run_wallet t userAgent protocol_of es). pose proof (run_wallet_inv t userAgent protocol_of es : wallet_inv s) as H.
  destruct H as [Hi Hp Hq Ho Hl Hop Hc]. rewrite Hp, Hq, Hl. split; [by destruct (wl_processing s), (wl_pancakeProcessing s); cbn; try lia |].
  split; [destruct (loading_shown s); cbn; lia |].
  destruct (wallet_step_asks t userAgent protocol_of s e) as [| (-> & Hen & ->)]; [by left | right]. unfold confirm_payment_enabled in Hen.
  rewrite andb_true_iff, negb_true_iff, orb_false_iff in Hen. destruct Hen as (Hopen & -> & ->). split; [done |]. split; [done |]. split; [done |].
  destruct (wl_method s) as [m|] eqn:Em; [| by destruct (Hop Hopen)]. exists m. split; [done |]. unfold handlePaymentConfirm. rewrite Em. by destruct (isWaffoPancakePayment _).
Qed.

(** ** The price on the page *)

Section Prices.
Context (t : str -> str) (userAgent : str) (protocol_of : str -> option str).
(** What the server answers when it is asked for a price. *)
Context (quote_of : str -> num -> option WalletReply).

Definition quoted_price (p : str * num) : num := calculated_amount (quote_of (fst p) (snd p)).

Definition price_asked (e : wallet_effect) : option (str * num) := match e with AskAmount path amount => Some (path, amount) | _ => None end.
Definition price_awaited (a : wallet_awaited) : option (str * num) := match a with PriceAwaited _ path amount => Some (path, amount) | _ => None end.
Definition prices_asked (s : Wallet) : list (str * num) := omap price_asked (wl_effects s).
Definition prices_awaited (s : Wallet) : list (str * num) := omap price_awaited (wl_awaited s).

(** The answers to the requests for prices come in the order of the requests, each with the price for what was asked. *)
Definition in_order (s : Wallet) (e : wallet_event) : Prop :=
  match e with
  | AnswerPrice i answer =>
      match wl_awaited s !! i with
      | Some (PriceAwaited _ path amount) => omap price_awaited (take i (wl_awaited s)) = [] /\ answer = quote_of path amount
      | _ => True
      end
  | _ => True
  end.
Fixpoint all_in_order (s : Wallet) (es : list wallet_event) : Prop :=
  match es with [] => True | e :: es => in_order s e /\ all_in_order (wallet_step t userAgent protocol_of s e) es end.

(** The prices asked are those answered and, after them, those awaited; the last one asked is for the amount of the page, the
    last one answered is on the page. *)
Record price_inv (s : Wallet) : Prop := {
  pi_asked : exists answered, prices_asked s = answered ++ prices_awaited s /\ (forall p, last answered = Some p -> wl_price s = quoted_price p);
  pi_last : forall p, last (prices_asked s) = Some p -> snd p = wl_amount s;
  pi_calculating : wl_calculating s = true -> prices_awaited s <> []
}.

(** A step that asks for no price and answers none. *)
Definition same_prices (s s' : Wallet) : Prop :=
  prices_asked s' = prices_asked s /\ prices_awaited s' = prices_awaited s /\ wl_price s' = wl_price s /\ wl_amount s' = wl_amount s /\ wl_calculating s' = wl_calculating s.
Lemma same_prices_inv s s' : same_prices s s' -> price_inv s -> price_inv s'.
Proof. intros (H1 & H2 & H3 & H4 & H5) [Ha Hl Hc]. split; by rewrite ?H1, ?H2, ?H3, ?H4, ?H5. Qed.

Lemma ask_price_inv s s' clicked amount type : price_inv s ->
  prices_asked s' = prices_asked s -> prices_awaited s' = prices_awaited s -> wl_price s' = wl_price s -> wl_amount s' = amount ->
  price_inv (calculatePaymentAmount s' clicked amount type).
Proof.
  intros [(answered & Ha & Hp) _ _] H1 H2 H3 H4. unfold prices_asked, prices_awaited in *.
  split; unfold prices_asked, prices_awaited; cbn; rewrite ?omap_app, ?H1, ?H2, ?H3.
  - exists answered. rewrite Ha. split; [by rewrite app_assoc | done].
  - intros p. cbn. rewrite last_snoc. by intros [= <-].
  - intros _ E. by apply app_eq_nil in E as [_ E].
Qed.

Lemma amount_effects_prices changed before s : price_inv s -> price_inv (amount_effects changed before s).
Proof.
  intros H. unfold amount_effects. cbv zeta. set (s1 := if negb _ then setLocalAmount s _ else s).
  generalize (n_eqb (wl_amount before) (wl_amount s)). intros same.
  assert (H1 : price_inv s1) by (unfold s1; destruct (negb _); [by eapply same_prices_inv; [| exact H] | done]). clearbody s1.
  destruct (wl_info s1); [| done]. destruct (_ && _); [| done].
  assert (H2 : forall m k type, price_inv (calculatePaymentAmount (setTopupAmount s1 m k) false m type)) by (intros; by eapply ask_price_inv).
  destruct (n_eqb _ _); [apply H2 | eapply same_prices_inv; [| apply H2]; done].
Qed.

Lemma awaited_split s i a : wl_awaited s !! i = Some a ->
  prices_awaited s = omap price_awaited (take i (wl_awaited s)) ++ option_list (price_awaited a) ++ omap price_awaited (drop (S i) (wl_awaited s)) /\
  prices_awaited (wl_answered s i) = omap price_awaited (take i (wl_awaited s)) ++ omap price_awaited (drop (S i) (wl_awaited s)).
Proof.
  intros Hi. unfold prices_awaited. split.
  - rewrite <- (take_drop_middle _ _ _ Hi) at 1. rewrite omap_app. f_equal. cbn. by destruct (price_awaited a).
  - cbn. by rewrite delete_take_drop, omap_app.
Qed.

Lemma other_answered_inv s i a : price_inv s -> wl_awaited s !! i = Some a -> price_awaited a = None -> price_inv (wl_answered s i).
Proof.
  intros H Hi Ha. destruct (awaited_split s i a Hi) as [E1 E2]. rewrite Ha in E1. eapply same_prices_inv; [| exact H]. unfold same_prices.
  rewrite E1, E2. done.
Qed.

Lemma answer_asks_no_price type answer :
  omap price_asked (fst (payment_answered t userAgent type answer)) = [] /\ omap price_asked (fst (pancake_answered t protocol_of answer)) = [] /\
  omap price_asked (fst (waffo_answered t answer)) = [].
Proof. unfold payment_answered, pancake_answered, waffo_answered. repeat split; repeat case_match; done. Qed.

Lemma effects_prices s es : price_inv s -> omap price_asked es = [] -> price_inv (wl_asked s [] es).
Proof.
  intros H Hes. eapply same_prices_inv; [| exact H]. unfold same_prices, prices_asked, prices_awaited. cbn. by rewrite !omap_app, Hes, !app_nil_r.
Qed.

Lemma price_answer_prices s i clicked path amount : price_inv s -> wl_awaited s !! i = Some (PriceAwaited clicked path amount) ->
  omap price_awaited (take i (wl_awaited s)) = [] -> price_inv (price_answered (wl_answered s i) clicked (quote_of path amount)).
Proof.
  intros [(answered & Ha & Hp) Hl Hc] Hi Hfirst. destruct (awaited_split s i _ Hi) as [E1 E2]. rewrite Hfirst in E1, E2. cbn [app option_list price_awaited] in E1, E2.
  set (s' := setPrice (wl_answered s i) (calculated_amount (quote_of path amount)) false).
  assert (H : price_inv s').
  { split; [| exact Hl | done]. exists (answered ++ [(path, amount)]). split.
    - change (prices_asked s') with (prices_asked s). change (prices_awaited s') with (prices_awaited (wl_answered s i)). rewrite Ha, E1, E2. by rewrite <- app_assoc.
    - intros p. rewrite last_snoc. by intros [= <-]. }
  unfold price_answered. fold s'. destruct clicked; [by eapply same_prices_inv; [| exact H] | done].
Qed.

Lemma wallet_step_prices s e : price_inv s -> in_order s e -> price_inv (wallet_step t userAgent protocol_of s e).
Proof.
  intros H Ho. destruct e; cbn [wallet_step].
  - destruct (offered_item _ _ _); [| done]. unfold handleSelectPreset. apply amount_effects_prices. by eapply ask_price_inv.
  - destruct (form_shown s); [| done]. unfold handleAmountChange, handleTopupAmountChange. destruct (0 <=? _)%Z; [| by eapply same_prices_inv; [| exact H]].
    apply amount_effects_prices. by eapply ask_price_inv.
  - destruct (offered_item _ _ _) as [m|]; [| done]. destruct (method_enabled s m); [| done]. unfold handlePaymentMethodSelect.
    destruct (n_ltb _ _); [by eapply same_prices_inv; [| exact H] | by eapply ask_price_inv].
  - destruct (wl_info s) as [i|]; [| done]. destruct (offered_item _ _ _); [| done]. destruct (waffo_enabled s i); [| done].
    eapply same_prices_inv; [| exact H]. unfold same_prices, prices_asked, prices_awaited. cbn. by rewrite !omap_app, !app_nil_r.
  - destruct (confirm_payment_enabled s); [| done]. unfold handlePaymentConfirm. destruct (wl_method s) as [m|]; [| done].
    eapply same_prices_inv; [| exact H]. unfold same_prices, prices_asked, prices_awaited, payment_request.
    destruct (isWaffoPancakePayment (pm_type m)), (isStripePayment (pm_type m)); cbn; by rewrite !omap_app, !app_nil_r.
  - destruct (wl_confirmOpen s); [by eapply same_prices_inv; [| exact H] | done].
  - destruct (wl_awaited s !! i) as [[]|] eqn:E; try done. apply other_answered_inv in E; [| done | done]. unfold info_answered.
    destruct answer; [apply amount_effects_prices |]; by eapply same_prices_inv; [| exact E].
  - cbn [in_order] in Ho. destruct (wl_awaited s !! i) as [[]|] eqn:E; try done. destruct Ho as [Hf ->]. by apply price_answer_prices.
  - destruct (wl_awaited s !! i) as [[]|] eqn:E; try done. apply other_answered_inv in E; [| done | done]. unfold confirm_payment_answered.
    destruct (answer_asks_no_price type answer) as (H1 & H2 & _).
    destruct (isWaffoPancakePayment type); [destruct (pancake_answered _ _ _) as [es success] | destruct (payment_answered _ _ _ _) as [es success]]; cbn in H1, H2.
    all: destruct success; repeat (apply effects_prices; [| done]); try (eapply same_prices_inv; [| apply (effects_prices _ es E); done]; done).
    all: by eapply same_prices_inv; [| exact E].
  - destruct (wl_awaited s !! i) as [[]|] eqn:E; try done. apply other_answered_inv in E; [| done | done]. destruct (answer_asks_no_price [] answer) as (_ & _ & H3).
    unfold waffo_payment_answered. eapply same_prices_inv; [| apply (effects_prices _ _ E H3)]. done.
Qed.

Lemma run_prices es s : price_inv s -> all_in_order s es -> price_inv (foldl (wallet_step t userAgent protocol_of) s es).
Proof.
  revert s. induction es as [|e es IH]; intros s H Ho; [done |]. destruct Ho as [Ho Hs]. cbn [foldl]. apply IH; [by apply wallet_step_prices | done].
Qed.

(** C38: when the answers to the requests for prices come in the order of the requests, then as soon as no price is awaited the
    page - and the dialog in which the payment is confirmed - shows the price that the server gave for the amount on the page,
    and nothing is shown as being calculated. *)
Theorem price_shown_is_for_amount (es : list wallet_event) (path : str) (amount : num)
  (Ho : all_in_order initial_wallet es)
  (Hlast : last (prices_asked (run_wallet t userAgent protocol_of es)) = Some (path, amount))
  (Hnone : prices_awaited (run_wallet t userAgent protocol_of es) = []) :
  let s := run_wallet t userAgent protocol_of es in
  amount = wl_amount s /\ wl_price s = calculated_amount (quote_of path (wl_amount s)) /\ wl_calculating s = false.
Proof.
  cbv zeta. set (s := run_wallet t userAgent protocol_of es) in *.
  assert (Hinit : price_inv initial_wallet) by (split; [by exists [] | done | done]).
  destruct (run_prices es initial_wallet Hinit Ho : price_inv s) as [(answered & Ha & Hp) Hl Hc].
  rewrite Hnone, app_nil_r in Ha. specialize (Hl _ Hlast). cbn in Hl. subst amount. rewrite Ha in Hlast. split; [done |].
  split; [apply (Hp _ Hlast) |]. destruct (wl_calculating s); [| done]. by destruct (Hc eq_refl).
Qed.
End Prices.

(** *** Concrete pages *)

Definition demo_topup : TopupData :=
  mkTopupData true true (n_of_Z 10) (n_of_Z 20) false None false None false None
    (Some (JStr (jsq "[{'name':'Alipay','type':'alipay'},{'name':'Stripe','type':'stripe','min_topup':0},{'name':'Pancake','type':'waffo_pancake','min_topup':5}]")))
    (Some (JArr [JNum (n_of_Z 10); JStr (js "100"); JStr (js "x")])) (Some (JObj [(js "100", JNum (lit "0.9"))])) None None.
(** The server asks for a twentieth of the amount. *)
Definition demo_quote (path : str) (amount : num) : option WalletReply :=
  Some (mkReply (Some true) None (Some (JStr (num_to_str (n_mul amount (lit "0.05"))))) None).
Definition demo_protocol (url : str) : option str := if starts_with url (js "https:") then Some (js "https:") else None.
Definition demo_run : list wallet_event -> Wallet := run_wallet id [] demo_protocol.

Definition demo_price (amount : Z) : option WalletReply := demo_quote [] (n_of_Z amount).
Definition ordered_demo : list wallet_event :=
  [AnswerInfo 0 (Some demo_topup); ClickPreset 1; AnswerPrice 0 (demo_price 10); AnswerPrice 0 (demo_price 100); ClickMethod 0; AnswerPrice 0 (demo_price 100)].

Lemma price_shown_is_for_amount_witness :
  wl_price (demo_run ordered_demo) = n_of_Z 5 /\ wl_confirmOpen (demo_run ordered_demo) = true /\
  (let s := demo_run ordered_demo in n_of_Z 100 = wl_amount s /\ wl_price s = calculated_amount (demo_quote (js "/api/user/amount") (wl_amount s)) /\ wl_calculating s = false).
Proof.
  split; [vm_compute; reflexivity |]. split; [vm_compute; reflexivity |].
  apply (price_shown_is_for_amount id [] demo_protocol demo_quote ordered_demo (js "/api/user/amount") (n_of_Z 100)); [vm_compute; repeat split | vm_compute; reflexivity | vm_compute; reflexivity].
Defined.

Definition demo_info : TopupInfo :=
  mkTopupInfo demo_topup
    [mkPayMethod (js "Alipay") (js "alipay") None (Some (js "a.png")) n_zero; mkPayMethod (js "Stripe") (js "stripe") None None n_zero;
     mkPayMethod (js "Waffo") (js "waffo") None None n_zero; mkPayMethod (js "Pancake") (js "waffo_pancake") None None (n_of_Z 5)]
    [n_of_Z 10; n_of_Z 100] [(js "100", lit "0.9")] [mkCreem (js "Basic") (js "p1") (lit "9.5") (n_of_Z 500) EUR] [mkWaffo (js "Card") (Some (js "card.png")) None (Some (js "CC"))].
Lemma demo_info_fine : info_fine demo_info.
Proof.
  split; cbn [demo_info pay_methods amount_options discount creem_products waffo_pay_methods].
  - repeat apply Forall_cons_2; [.. | constructor]; (repeat split; try done; vm_compute; reflexivity).
  - repeat constructor; vm_compute; reflexivity.
  - split; [split; [repeat constructor; set_solver | done] | repeat constructor; vm_compute; reflexivity].
  - repeat constructor; try done; vm_compute; reflexivity.
  - by repeat constructor.
Qed.

(** *** Findings *)

(** Answers out of order: the dialog for 100 shows the price of 10, and the payment that is confirmed is for 100. *)
Lemma stale_price_confirmed :
  let es := [AnswerInfo 0 (Some demo_topup); ClickPreset 1; ClickMethod 0; AnswerPrice 2 (demo_price 100); AnswerPrice 1 (demo_price 100); AnswerPrice 0 (demo_price 10)] in
  let s := demo_run es in
  wl_confirmOpen s = true /\ wl_calculating s = false /\ wl_amount s = n_of_Z 100 /\ wl_price s = lit "0.5" /\
  last (wl_effects (demo_run (es ++ [ConfirmPayment]))) = Some (AskPayment (js "/api/user/pay") (n_of_Z 100) (Some (js "alipay"))).
Proof. vm_compute. done. Qed.

(** The amount can be changed while the price of a click is awaited: the dialog opens below the least amount. *)
Lemma dialog_below_minimum :
  let es := [AnswerInfo 0 (Some demo_topup); AnswerPrice 0 (demo_price 10); ClickMethod 0; TypeAmount (js "3"); AnswerPrice 0 (demo_price 10)] in
  wl_confirmOpen (demo_run es) = true /\ n_ltb (wl_amount (demo_run es)) (getMinTopupAmount (wl_info (demo_run es))) = true.
Proof. vm_compute. done. Qed.

(** The button of a method with a smaller least amount is enabled below that of the page; a click does nothing and says nothing. *)
Lemma click_below_minimum_silent :
  let es := [AnswerInfo 0 (Some demo_topup); AnswerPrice 0 (demo_price 10); TypeAmount (js "7"); AnswerPrice 0 (demo_price 7)] in
  let s := demo_run es in
  (exists m, offered_item s pay_methods 2 = Some m /\ method_enabled s m = true) /\
  wl_effects (demo_run (es ++ [ClickMethod 2])) = wl_effects s /\ wl_confirmOpen (demo_run (es ++ [ClickMethod 2])) = false.
Proof. vm_compute. split; [by eexists | done]. Qed.

(** Clearing the field puts the least amount back. *)
Lemma cleared_field_refilled :
  let es := [AnswerInfo 0 (Some demo_topup); AnswerPrice 0 (demo_price 10); TypeAmount []] in
  wl_field (demo_run es) = js "10" /\ wl_amount (demo_run es) = n_of_Z 10.
Proof. vm_compute. done. Qed.

(** A payment that the server accepts without an address: nothing opens and nothing is said. *)
Lemma accepted_payment_silent type :
  payment_answered id [] type (Some (mkReply (Some true) None (Some (JObj [])) None)) = ([], false).
Proof. unfold payment_answered. by destruct (isStripePayment type). Qed.

(** A code that was redeemed: when the request for the user that follows fails, the failure of the redemption is reported as
    well, and the code stays in the field. *)
Lemma redeemed_reported_failed :
  let s := handleRedeem_answered id num_to_str (handleRedeem id (mkRedeem (js "CODE") false [])) (Some (mkReply (Some true) None (Some (JNum (n_of_Z 500))) None)) false in
  rd_code s = js "CODE" /\ rd_effects s = [AskRedeem (js "CODE"); ToastSuccess (js "500"); AskSelf; ToastError (js "Redemption failed")].
Proof. vm_compute. done. Qed.

(** The page leaves only for addresses of the protocols http and https. *)
Lemma only_http_navigation t protocol_of answer url : Navigate url ∈ fst (pancake_answered t protocol_of answer) ->
  protocol_of (trim url) = Some (js "http:") \/ protocol_of (trim url) = Some (js "https:").
Proof.
  unfold pancake_answered. destruct answer as [r|]; [| cbn; set_solver]. destruct (url_field r _) as [u|]; [| cbn; set_solver].
  destruct (isApiSuccess r && truthy u); [| cbn; set_solver]. destruct (isSafeHttpCheckoutUrl protocol_of u) eqn:E; [| cbn; set_solver].
  cbn. intros [? | [Hu | ?%elem_of_nil]%elem_of_cons]%elem_of_cons; [done | | done]. injection Hu as ->.
  unfold isSafeHttpCheckoutUrl in E. apply andb_true_iff in E as [_ E]. destruct (protocol_of (trim u)) as [p|]; [| done].
  unfold str_eqb in E. apply orb_true_iff in E as [E%bool_decide_eq_true | E%bool_decide_eq_true]; rewrite E; auto.
Qed.

(** ** The history of payments *)

Definition is_completion (a : billing_awaited) : bool := match a with LoadAwaited _ => false | _ => true end.
Definition asks_completion (r : billing_request) : bool := match r with CompleteOrder _ => true | _ => false end.
Definition own_list (r : billing_request) : bool := match r with ListOwn _ => true | _ => false end.

Section Orders.
Context (t : str -> str) (isAdmin : bool).

Record billing_inv (s : Billing) : Prop := {
  bi_completing : count_of is_completion (bl_awaited s) = one_if (bl_completing s);
  bi_own : isAdmin = false -> forallb own_list (bl_requests s) = true;
  bi_done : isAdmin = false -> count_of is_completion (bl_awaited s) = 0%nat
}.

Lemma billing_same_inv s s' : bl_awaited s' = bl_awaited s -> bl_completing s' = bl_completing s -> bl_requests s' = bl_requests s -> billing_inv s -> billing_inv s'.
Proof. intros H1 H2 H3 [Hc Ho Hd]. split; by rewrite ?H1, ?H2, ?H3. Qed.

Lemma list_request_own q : isAdmin = false -> own_list (list_request isAdmin q) = true.
Proof. unfold list_request. by intros ->. Qed.

Lemma load_inv s s' q : bl_awaited s' = bl_awaited s -> bl_completing s' = bl_completing s -> bl_requests s' = bl_requests s -> billing_inv s ->
  billing_inv (fetchBillingHistory isAdmin s' q (LoadAwaited q)).
Proof.
  intros H1 H2 H3 [Hc Ho Hd]. split; cbn [fetchBillingHistory bl_awaited bl_completing bl_requests]; rewrite ?H1, ?H2, ?H3, ?count_app, ?count_one; cbn [one_if is_completion].
  - by rewrite Nat.add_0_r.
  - intros E. rewrite forallb_app, (Ho E). cbn. by rewrite (list_request_own q E).
  - rewrite Nat.add_0_r. exact Hd.
Qed.

Lemma change_query_inv s q : billing_inv s -> billing_inv (change_query isAdmin s q).
Proof. intros H. unfold change_query. case_bool_decide; [by apply (billing_same_inv s) | by apply (load_inv s)]. Qed.

(** An answer is taken from what is awaited; [done] tells whether it ends a completion. *)
Lemma answer_inv s s' i a : billing_inv s -> bl_awaited s !! i = Some a -> bl_awaited s' = delete i (bl_awaited s) -> bl_requests s' = bl_requests s ->
  one_if (bl_completing s) = (one_if (bl_completing s') + one_if (is_completion a))%nat -> billing_inv s'.
Proof.
  intros [Hc Ho Hd] Hi E1 E2 E3. pose proof (count_delete is_completion _ _ _ Hi) as C. unfold one_if in *.
  split; unfold one_if; rewrite ?E1, ?E2; [lia | done |]. intros Ea. specialize (Hd Ea). lia.
Qed.

Lemma completing_now s i a : billing_inv s -> bl_awaited s !! i = Some a -> is_completion a = true -> bl_completing s = true /\ isAdmin = true.
Proof.
  intros [Hc Ho Hd] Hi Ha. rewrite (count_delete is_completion _ _ _ Hi), Ha in Hc. split; [by destruct (bl_completing s) |].
  destruct isAdmin; [done |]. specialize (Hd eq_refl). rewrite (count_delete is_completion _ _ _ Hi), Ha in Hd. done.
Qed.

Lemma completion_answer_inv s i no q answer : billing_inv s -> bl_awaited s !! i = Some (CompletionAwaited no q) ->
  billing_inv (completion_answered t isAdmin (billing_answered s i) q answer).
Proof.
  intros H Hi. destruct (completing_now s i _ H Hi eq_refl) as [Hcomp Hadm].
  assert (Hfail : forall toasts, billing_inv (billing_state (billing_answered s i) false (bl_confirm s) toasts)).
  { intros toasts. eapply answer_inv; [exact H | exact Hi | done | done |]. by rewrite Hcomp. }
  unfold completion_answered. destruct answer as [[[] message]|]; [| apply Hfail | apply Hfail].
  pose proof (count_delete is_completion _ _ _ Hi) as C. rewrite (bi_completing _ H), Hcomp in C. cbn in C.
  split; [| by rewrite Hadm | by rewrite Hadm]. cbn. rewrite count_app, count_one, Hcomp. cbn in *. lia.
Qed.

Lemma billing_step_inv s e : billing_inv s -> billing_inv (billing_step t isAdmin s e).
Proof.
  intros H. destruct e; cbn [billing_step].
  - destruct (_ || _); [done | by apply change_query_inv].
  - destruct (covered s); [done | by apply change_query_inv].
  - destruct (covered s); [done | by apply change_query_inv].
  - destruct (bl_records s !! k) as [r|]; [| done]. destruct (_ && _); [| done]. by apply (billing_same_inv s).
  - destruct (covered s && negb (bl_completing s)) eqn:E; [| done]. apply andb_true_iff in E as [_ E%negb_true_iff]. unfold handleConfirmComplete.
    destruct (bl_confirm s) as [no|]; [| done]. destruct (truthy no); [| done]. unfold handleCompleteOrder. destruct isAdmin eqn:Ea; cbn [negb];
      [| by apply (billing_same_inv s)].
    destruct H as [Hc Ho Hd]. rewrite E in Hc. split; cbn; [| by rewrite Ea | by rewrite Ea]. by rewrite count_app, count_one, Hc.
  - destruct (covered s); [| done]. by apply (billing_same_inv s).
  - destruct (bl_awaited s !! i) as [[]|] eqn:E; try done. unfold load_answered. destruct answer as [[|[]]|]; (eapply answer_inv; [exact H | exact E | done | done | cbn; lia]).
  - destruct (bl_awaited s !! i) as [[]|] eqn:E; try done. by eapply completion_answer_inv.
  - destruct (bl_awaited s !! i) as [[]|] eqn:E; try done. destruct (completing_now s i _ H E eq_refl) as [Hcomp _].
    unfold refresh_answered, load_answered. destruct answer as [[|[]]|]; (eapply answer_inv; [exact H | exact E | done | done | cbn; by rewrite Hcomp]).
Qed.

Lemma run_billing_inv es : billing_inv (run_billing t isAdmin es).
Proof.
  unfold run_billing. induction es as [|e es IH] using rev_ind.
  - split; [done | | done]. intros E. cbn. by rewrite list_request_own.
  - rewrite foldl_app. by apply billing_step_inv.
Qed.
End Orders.

(** C40: in the history of payments a user who is no administrator only ever asks for the list of own payments - no order is
    completed and no list of all users is read, whatever is clicked and answered -, and an administrator completes one order at
    a time: while a completion or the reload after it is under way no other one is started. *)
Theorem orders_completed_by_admins (t : str -> str) (isAdmin : bool) (es : list billing_event) (e : billing_event) :
  let s := run_billing t isAdmin es in
  let s' := billing_step t isAdmin s e in
  (isAdmin = false -> forall r, r ∈ bl_requests s -> exists q, r = ListOwn q) /\
  (count_of is_completion (bl_awaited s) <= 1)%nat /\
  (count_of is_completion (bl_awaited s) = 1%nat -> List.filter asks_completion (bl_requests s') = List.filter asks_completion (bl_requests s)).
Proof.
  cbv zeta. set (s := run_billing t isAdmin es). pose proof (run_billing_inv t isAdmin es : billing_inv isAdmin s) as [Hc Ho Hd]. split; [| split].
  - intros E r Hin. specialize (Ho E). rewrite forallb_forall in Ho. apply list_elem_of_In, Ho in Hin. destruct r; try done. by eexists.
  - rewrite Hc. by destruct (bl_completing s); cbn; lia.
  - rewrite Hc. intros Hone. assert (Hcomp : bl_completing s = true) by (by destruct (bl_completing s)).
    assert (Hlist : forall l q, List.filter asks_completion (l ++ [list_request isAdmin q]) = List.filter asks_completion l).
    { intros l q. rewrite List.filter_app. unfold list_request. by destruct isAdmin; rewrite app_nil_r. }
    assert (Hquery : forall q, List.filter asks_completion (bl_requests (change_query isAdmin s q)) = List.filter asks_completion (bl_requests s)).
    { intros q. unfold change_query. case_bool_decide; [done | apply Hlist]. }
    destruct e; cbn [billing_step].
    + destruct (_ || _); [done | apply Hquery].
    + destruct (covered s); [done | apply Hquery].
    + destruct (covered s); [done | apply Hquery].
    + destruct (bl_records s !! k); [| done]. by destruct (_ && _).
    + by rewrite Hcomp, andb_false_r.
    + by destruct (covered s).
    + destruct (bl_awaited s !! i) as [[]|]; try done. unfold load_answered. by destruct answer as [[|[]]|].
    + destruct (bl_awaited s !! i) as [[]|]; try done. unfold completion_answered. destruct answer as [[[] m]|]; [apply Hlist | done | done].
    + destruct (bl_awaited s !! i) as [[]|]; try done. unfold refresh_answered, load_answered. by destruct answer as [[|[]]|].
Qed.

(** The answer to an earlier search, arriving last, is shown under the later one. *)
Lemma late_history_shown :
  let record no := mkRecord 1 no TopupPending in
  let s := run_billing id true [BillingSearch (js "A"); BillingSearch (js "AB"); AnswerLoad 2 (Some (inr ([], 0%Z))); AnswerLoad 1 (Some (inr ([record (js "A1")], 1%Z)))] in
  bq_keyword (bl_query s) = js "AB" /\ bl_records s = [record (js "A1")] /\ bl_loading s = false.
Proof. vm_compute. done. Qed.
